(* ===== verification/_CoqProject ===== *)
-Q . S2P
Prelude.v
Bytes.v
Keccak.v
Sponge.v
Header.v
Message.v
Codec.v
Conn.v
Handshake.v
Client.v
Ids.v
CleanMap.v
Fsm.v
Network.v
Lifecycle.v
Coins.v
DecCoins.v
Random.v
HashRing.v
UploadTask.v
Download.v
Paths.v
Storage.v
Node.v
Transfer.v
UploadSlice.v
Rlp.v
RlpEncode.v
RlpDecode.v
RlpCodec.v
Server.v
Verification.v
P2pServer.v
RpcUpload.v
RpcDownload.v
BigMath.v
Hex.v
Curve.v
Handles.v
HdPath.v
Tx.v
ChainEvents.v
Relayer.v
SliceKeys.v
UploadFile.v
UploadJobs.v
