(* ===== verification/Prelude.v ===== *)
(** * Prelude: outcomes, machine integers and byte strings

    This library models the core of SDS, the decentralised storage network of
    Stratos (a Go program), and proves what makes it correct.  This file is its
    root: the overview below, and the vocabulary the other files share.

    ** The program

    A resource node ("PP") keeps a connection to a meta node ("SP") and
    connections to other PPs.  Peers speak a framed, encrypted and signed
    protocol over TCP.  A message from a peer goes through these parts:

    - the handshake agrees on a key and exchanges addresses
      (src/framework/core/conn.go, src/framework/client/cf/conn.go);
    - the write loop of a connection lays a message out in a buffer, signs it,
      encrypts header and rest as two frames and writes them; the read loop of
      the peer reassembles, decrypts, checks length and signature and passes the
      message to the handler registered for its command
      (framework/core, framework/msg, framework/crypto/encryption);
    - handlers (pp/event) change the node: its state machine (pp/network,
      framework/utils/fsm.go), its list of SPs, its timers and reports, and the
      tasks that upload files slice by slice (pp/task);
    - a relayer, a program of its own beside an SP, puts the SP's messages into
      transactions of the chain and reports the chain's events to the SP (relayer,
      tx-client).

    Beside this the program has utilities with a contract of their own: request
    ids, maps with expiry, random selection, the hash ring, coin arithmetic.

    ** Files

    - Prelude: [res], the outcome of Go code (value, error, panic), integers of
      fixed width with wrap-around, byte strings with Go's slicing and [copy];
      tactics and the hint database [go].
    - Bytes: the big-endian codecs of framework/utils/tools.go.
    - Header: message ids, the registry that [init] fills, the pairing of
      requests and responses, the 21-byte header (framework/msg/header/header.go).
    - Message: signing, verification and the buffer layout (framework/msg/sign.go,
      msg.go); class [NodeCrypto] is what they need of the crypto libraries.
    - Codec: frames and the first message of a connection (framework/core/utils.go,
      types.go) and the AES-GCM wrapper (framework/crypto/encryption); class [GCM]
      with laws [GCMLaws] stands for AES-GCM of Go's library.
    - Conn: a [ServerConn] (framework/core/conn.go): read loop as a step function
      on [ReadState] iterated with fuel, write loop, queueing, flow counters and
      handler registry (framework/core/codec.go).
    - Handshake: both sides of the handshake, in a state and error monad; class
      [HsCrypto] with [HsLaws] stands for ed25519, ECDH and bech32.
    - Client: a [ClientConn] (framework/client/cf/conn.go), its traffic counters,
      and whole sessions.
    - Ids: snowflake ids (framework/utils/snowflake.go) and request ids.
    - CleanMap: [AutoCleanMap] (framework/utils/auto_clean_map.go).
    - Fsm: the table-driven machine (framework/utils/fsm.go) and the table of a
      node (pp/network/state_machine.go).
    - Network: what the machine's actions do: getting the SP list, registering,
      reconnecting, reporting, measuring and changing SPs (the other files of
      pp/network); state passing with an outbox of effects.
    - Lifecycle: the handlers that drive the machine (pp/event), the stored SP
      list (pp/setting/sp_list.go) and the startmining command.
    - Coins: tx-client/types/coin.go.
    - DecCoins: decimal coins, the registry of denominations, conversion and
      parsing (dec_coin.go, denom.go and the end of coin.go in tx-client/types);
      class [SdkDec] with [SdkDecLaws] stands for the decimals of sdkmath.
    - Random: framework/utils/random.go, with rational weights.
    - HashRing: framework/utils/hashring/hashring.go.
    - UploadTask: pp/task/upload_task.go.
    - Download: pp/task/download_task.go and the receiving side of a download in
      pp/event (download_slice.go, download_file_wrong.go, query_file_info.go,
      timeout_handler.go); tasks are objects of a heap, maps hold addresses.
    - Keccak: the permutation of framework/crypto/sha3/keccakf.go, beside the one
      of the standard FIPS 202.
    - Sponge: the sponge, the hashes and the output functions on it (the other
      files of framework/crypto/sha3), beside the construction of the standard.
    - Paths: the paths of pp/file/path.go, with the parts of Go's path/filepath
      they use, and the file system as a map, in a state and error monad.
    - Storage: reading, saving and deleting slices (pp/file/file.go).
    - Node: the messages about slices, the state that their handlers share and
      the records of cost times.
    - Transfer: slices that move between nodes or are verified by them
      (pp/task/transfer_task.go, verify_task.go, pp/event/transfer_slice.go,
      verify_slice.go) and the hook that runs when a packet has been written.
    - UploadSlice: the pieces of uploads and backups, on both sides
      (pp/event/upload_slice.go), and the serving side of a download
      (pp/event/download_slice.go).
    - Rlp: the RLP format, integers, tags and the functions on encoded values
      (framework/crypto/rlp/raw.go, iterator.go and parts of encode.go).
    - RlpEncode: the buffer of the encoder, the writers of Go types, struct tags
      (encbuffer.go, encode.go, internal/rlpstruct) and the rules they implement.
    - RlpDecode: the stream and the decoders of Go types (decode.go).
    - RlpCodec: encoder and decoder together.
    - Server: accepting, starting, serving and closing connections, the pool of
      connections and the workers that run the handlers (framework/core/server.go,
      conn_pool.go, tasks.go, and Start, Close and handleLoop of conn.go); a step
      function whose events are the steps of the goroutines.
    - Verification: the verifiers that a handler calls first (pp/event/verification.go,
      event_handle.go) and the record of sent requests (pp/p2pserver/sp_peers.go);
      class [Wire] stands for the protobuf messages and the format of keys.
    - P2pServer: the connections a node opens, its main SP, the waiting times of SPs
      and the sending of messages (pp/p2pserver); connections are objects of a heap,
      what the network does is an argument.
    - RpcUpload: uploads through the RPC interface: the calls of a client, the
      goroutine that fetches the slices, the channels between them and the client
      itself (pp/namespace/api.go, pp/file/file_rpc.go, put of example/rpcclient); a
      step function whose events are the steps of both programs.
    - RpcDownload: downloads through the RPC interface: the calls, the reading of
      slices as they come in, what the download task writes, and the client
      (pp/namespace/api.go, pp/file/file.go, get of example/rpcclient).
    - BigMath: big integers as words of the machine, their bits and bytes, powers
      and checked arithmetic (big.go, integer.go in framework/crypto/math).
    - Hex: hexadecimal text of bytes and numbers (hexutil and bytes.go of
      framework/crypto/ethereum/common, and the parsers of framework/crypto/math).
    - Curve: the arithmetic of secp256k1 in Jacobian coordinates and the encoding of
      points (framework/crypto/ethereum/secp256k1/curve.go), beside the group law.
    - Handles: addresses, public keys, file handles, share links and network ids
      (framework/types) and the check of file hashes; classes [Bech32Lib], [CidLib]
      and [Keys] stand for the libraries they call.
    - HdPath: the paths of derived keys: parsing, printing and the iterators
      (framework/crypto/ethereum/common/hd.go).
    - Tx: transactions for the chain: signers, signing, signature data, the report of
      volumes (tx-client/tx and the rest of tx-client/types); class [TxLib] with
      [TxLibLaws] stands for protobuf and the signature schemes.
    - ChainEvents: the handlers that report events of the chain to the SP, and where
      the events come from (relayer/stratoschain, client/stchain_connection.go).
    - Relayer: the loops that take messages of the SP and broadcast them in
      transactions (relayer/client/sds_connection.go); a step function.
    - SliceKeys: extended keys and their children, the keys of slices, encryption and
      decryption of slices (framework/crypto/encryption/hdkey, pp/event); class [HdLib]
      with [HdLaws] stands for HMAC and the arithmetic of points.
    - UploadFile: hashing and slicing of a file or a video before its upload
      (pp/event/upload_file.go, framework/crypto/hash_tools.go, pp/file/video.go).
    - UploadJobs: the upload from the SP's answer to its end: the repeated job, its
      retries, pausing (pp/event/upload_file.go and the end of pp/task/upload_task.go);
      tasks are objects of a heap, a step function.

    A record keeps the fields of the Go struct it models that the operations use,
    an operation keeps its Go name; a loop of a Go function that is a definition
    of its own has a name that says what it does.  What the code gets from
    outside (clock readings, random draws, what the network answers) is an
    argument.

    ** Theorems

    - Transport: a message survives header, frame, packet, connection and session
      ([header_roundtrip], [pack_unpack], [wire_roundtrip], [session_delivers]);
      two honest peers get the same key ([handshake_agrees]).  These are
      statements that the result is there, not only that it is right if it is.
    - Safety against any peer: [handled_messages_authentic],
      [client_messages_authentic], [handshake_key_is_verified] quantify over all
      input; [readLoop_terminates] bounds the iterations by the input.
    - Refinement: the machine's table against a transition relation
      ([fsm_refines_trans]), the ring against two sets ([ring_refines_sets]), the
      map with goroutines against a map with last-use times
      ([autoclean_refines_expiring_map]), the candidate list against a map
      ([candidate_list_is_a_map]).
    - Node life cycle: every handler drives the machine as its message says and
      returns, or panics when the message has no result
      ([handlers_follow_the_machine]), serving states come only after their
      milestones ([life_needs_milestones]), back-off times and reports.
    - Tasks: a download completes whatever the order of its pieces and leaves only
      the sessions of its requests ([download_completes]), and asks for exactly what is missing
      ([lost_slice_asks_the_sp]); no slice of an upload is lost or sent twice by a
      retry, and failure reports are complete.
    - Upload of a file: its slices, encrypted or not, come back as the file in any order
      ([sliced_file_comes_back], [encrypted_slices_decrypt]); every file of a video has a
      slice, one case apart ([video_files_have_slices]); an upload ends when all slices
      are confirmed ([finished_uploads_end]) or when nothing is heard for five time-outs
      ([silent_uploads_end]); the keys are those of BIP 32 ([children_follow_bip32],
      [public_children_agree], [child_path_exact]).
    - Slices: pieces make the slice, in any order ([pieces_make_the_slice]); a
      transfer moves it from the sender's storage to the receiver's, whatever the
      order of its packets ([transfer_moves_the_slice]); an upload stores exactly
      the slice and is reported once ([upload_stores_the_slice]), and a request
      is served with exactly the stored slice ([download_is_served]); against any
      messages and any failure of the operating system, a receipt means that the
      stored file has the slice's hash, a case of crossed roles apart
      ([received_slices_are_checked], [stored_uploads_are_checked]), and the
      handlers of transfers delete a slice only on request and else only copies made
      to verify one ([slices_are_deleted_on_request]); idle transfers are
      reported and forgotten ([timed_out_transfers_are_reported]).
    - Hashing: the optimised permutation is that of the standard
      ([keccakF1600_is_keccak_f]); a hash fed in pieces and an output read in
      pieces are those of the whole ([sum_of_writes], [reads_of_writes]).
    - RLP: the encoder implements the rules of the format, whichever way its output
      is taken ([encoder_implements_rlp]); what it writes is read back
      ([decode_encode]), nothing else is accepted ([decoded_is_canonical]), and
      decoding ends on every input ([decoding_ends]); [split_exact] and
      [uint64_exact] say the same of the functions on encoded values.
    - Server: whatever the schedule, handlers of a connection run in the order of
      its messages ([handlers_run_in_order]), the counts are right and the limit is
      kept, and Stop waits until all connections are closed or 30 seconds have passed
      ([connections_are_counted]); Stop can end ([stop_can_end]).
    - Verification and connections: a handler acts on a message exactly when its
      verifier's guarantee holds, with the notices that have no verifier and the keys
      that do not match ([acts_exactly_when_authorised]); a response is let
      through exactly when its request was sent ([responses_answer_requests]); an SP
      is found when one can be reached ([connect_finds_an_sp]); a message over a
      cached connection is handed over once ([cached_send_delivers_once]).
    - RPC sessions: whatever the schedule and whatever fails, an upload announces to
      the SP exactly the client's file ([announced_slices_are_the_file]), and there is
      a schedule in which it completes ([session_can_complete]); a client that is told
      of the success of a download has the file, provided that the records of its slices
      can be written and read ([client_gets_the_file]), and gets there once the slices
      are recorded ([client_download_ends]).
    - Relayer and transactions: the SP's messages are tried in batches in their order,
      none twice, and those of failed batches are dropped
      ([messages_are_broadcast_in_order]); all can be tried
      ([all_messages_can_be_broadcast]); a batch of the wallet's messages is signed as
      the chain demands ([relayed_batches_are_signed], [simulated_tx_is_signed]), one
      with several signers never ([only_one_signer_can_sign]); the events of the chain
      are reported as a ledger of the last minute says that knows transactions, event
      types and values, when the handlers run one after the other and a transaction has
      one message of a kind ([relayer_refines_ledger]); they reach their handlers ([subscriptions_reach_handlers]); volumes are added up per
      wallet ([volume_report_exact]).
    - Numbers, text and keys: powers by squaring are powers modulo 2^256
      ([Exp_is_power]), bytes of a number are big-endian
      ([padded_bytes_are_big_endian]), checked arithmetic is exact
      ([safe_arithmetic_exact]); the readers of hexadecimal text accept exactly what
      the writers write ([hex_bytes_exact], [hex_numbers_exact]) or more in a stated
      way ([math_numbers_roundtrip]); additions on the curve are those of its group,
      every special case included ([add_is_group_law], [Double_doubles],
      [marshal_roundtrip]); addresses, handles, links and paths are read back
      ([addresses_roundtrip], [hex_addresses_roundtrip], [file_handles_exact],
      [share_links_roundtrip], [derivation_paths_roundtrip]).
    - Coins, selection and ids: arithmetic of coin sets is pointwise, that of
      decimal coins the same in smaller units ([dec_coins_are_coins]); amounts of
      every unit are read as the right number of wei ([parsed_amounts_are_wei]) and
      printed sets are read back ([printed_coins_parse]); selection is by share of
      weight; ids increase.
    - Errors of the code: theorems that state what goes wrong, on a witness:
      [bad_signature_closes_connection], [outdated_message_body_read_as_header],
      [maintenance_never_ends], [answered_once_never_left],
      [readding_online_node_breaks_ring], [backup_upload_panics],
      [request_ids_unique_below_256], [senders_time_out_silently],
      [slice_path_escapes], [big_backups_are_refused], [late_pieces_are_dropped],
      [lost_slices_are_not_answered], [oversized_list_wraps],
      [panicked_worker_stays_dead], [few_workers_are_used],
      [unverified_notices], [mismatched_key_accepts_anything],
      [stale_connection_loses_data], [pause_closes_all_transfers],
      [closing_a_twin_loses_the_main_sp],
      [timed_out_call_blocks_all_sessions], [upload_limit_is_not_kept],
      [unrecorded_slices_are_lost], [receipt_without_a_packet],
      [stuck_reader_never_stops], [failed_batches_are_dropped],
      [quoted_events_are_lost], [multi_message_tx_is_reported_twice],
      [slice_keys_may_be_short], [short_parents_leave_bip32],
      [paused_uploads_tick_for_ever], [crowded_uploads_stall],
      [retries_report_no_failures], [first_segment_is_lost],
      [normalized_coins_repeat], [zero_coins_leave_empty_slots] and others.

    ** Bounds and fuel

    The loops over a connection take fuel.  An iteration of the read loop consumes
    at least the 12 bytes of a frame header, so a stream of n bytes needs at most
    n/12 + 1 iterations; [readLoop_terminates] proves that this much fuel gives a
    result.  The loop that reads a second part in pieces of 1024 bytes gets as
    much fuel as the frame has bytes.  The RLP decoder gets one more than the
    length of its input, which [decoding_ends] proves enough.  Digits of a number n are
    taken with fuel log2 n + 1, the extended Euclidean algorithm with 2 log2 n + 2,
    both enough for every n by the lemmas beside them.  Loops that draw
    random numbers or read the clock take the draws as a list, and what they do
    when it ends is a value of their result.  Every other recursion is structural.  Integers are kept at
    their width with [wrapu] and [wraps] where the code could overflow; [Int] of
    the coins is unbounded, as big.Int is.

    ** Not modelled

    Sockets, goroutine scheduling within the loops of a connection (a loop is run on
    what it gets to read; [Server] interleaves the loops), logging and metrics,
    the JSON-RPC transport, the RPC calls that only pass a request on, the serving of video
    streams, the assembly version of the Keccak permutation, archives of downloads, the
    command line, the SQL builders, key stores, the set-up of the relayer and its RPC.
    Apart from hashing and the curve's additions, cryptography is behind the classes above; multiplication by a
    scalar is C code that the repository only binds.  Floating point is replaced by rationals in Random,
    and the number of slices of a video, computed in it, is a parameter.
    Most handlers of pp/event dereference the result of a response unchecked; Lifecycle models
    the panic on a response without one, in the other files a response has its result.

    ** Plan

    Left: the builders of requests, the handlers of pp/event for sharing and for the
    requests of the command line, the RPC transport and key stores. *)
From stdpp Require Export base list gmap strings numbers.
From Stdlib Require Export ZArith Lia.
From Stdlib Require Strings.Byte.

Open Scope Z_scope.

(** ** Outcomes of Go code

    A call returns a value, returns a non-nil [error], or panics.  The text of
    the error is the literal the source passes to [errors.New]; formatted
    arguments are left out. *)

Inductive res (A : Type) : Type :=
  | Ok (a : A)
  | Err (e : string)
  | Panic (e : string).
Arguments Ok {A} a.
Arguments Err {A} e.
Arguments Panic {A} e.

#[global] Instance res_ret : MRet res := fun A a => Ok a.
#[global] Instance res_bind : MBind res := fun A B f m =>
  match m with Ok a => f a | Err e => Err e | Panic e => Panic e end.
#[global] Instance res_fmap : FMap res := fun A B f m =>
  match m with Ok a => Ok (f a) | Err e => Err e | Panic e => Panic e end.

Definition is_ok {A} (m : res A) : bool :=
  match m with Ok _ => true | _ => false end.

Lemma bind_ok {A B} (m : res A) (f : A → res B) b :
  m ≫= f = Ok b ↔ ∃ a, m = Ok a ∧ f a = Ok b.
Proof.
  destruct m; simpl; split; try done; [by eauto|..]; by intros (? & [=] & ?); subst.
Qed.

(** ** Machine integers: unsigned and two's complement wrap-around *)

Definition wrapu (w : Z) (z : Z) : Z := z mod 2 ^ w.
Definition wraps (w : Z) (z : Z) : Z := (z + 2 ^ (w - 1)) mod 2 ^ w - 2 ^ (w - 1).

Abbreviation u8 := (wrapu 8).
Abbreviation u16 := (wrapu 16).
Abbreviation u32 := (wrapu 32).
Abbreviation u64 := (wrapu 64).
Abbreviation i16 := (wraps 16).
Abbreviation i64 := (wraps 64).

Definition in_u (w z : Z) : Prop := 0 ≤ z < 2 ^ w.
Definition in_s (w z : Z) : Prop := - 2 ^ (w - 1) ≤ z < 2 ^ (w - 1).

Lemma wrapu_id w z : in_u w z → wrapu w z = z.
Proof. unfold wrapu, in_u. intros. by rewrite Z.mod_small. Qed.

Lemma wrapu_range w z : 0 ≤ w → in_u w (wrapu w z).
Proof. intros. unfold wrapu, in_u. apply Z.mod_pos_bound. lia. Qed.

Lemma wraps_id w z : 1 ≤ w → in_s w z → wraps w z = z.
Proof.
  unfold wraps, in_s. intros Hw Hz.
  assert (2 ^ w = 2 * 2 ^ (w - 1)) as E by (rewrite <- Z.pow_succ_r by lia; f_equal; lia).
  rewrite Z.mod_small; lia.
Qed.

(** Reading the two's complement pattern of a signed integer gives it back. *)
Lemma wraps_wrapu w z : 1 ≤ w → wraps w (wrapu w z) = wraps w z.
Proof.
  intros. unfold wraps, wrapu. f_equal. by rewrite Zplus_mod_idemp_l.
Qed.

(** Joining bit fields: [a << n | b] when [b] has at most [n] bits. *)
Lemma lor_shiftl_add a b n : 0 ≤ n → 0 ≤ b < 2 ^ n → Z.lor (Z.shiftl a n) b = a * 2 ^ n + b.
Proof.
  intros Hn Hb. rewrite <- Z.shiftl_mul_pow2 by done. pose proof (Z.add_lor_land (Z.shiftl a n) b) as E.
  assert (Z.land (Z.shiftl a n) b = 0) as H0; [|lia].
  apply Z.bits_inj'. intros i Hi. rewrite Z.land_spec, Z.bits_0.
  destruct (Z.lt_ge_cases i n).
  - rewrite Z.shiftl_spec_low by lia. done.
  - destruct (decide (b = 0)) as [->|]; [by rewrite Z.bits_0, andb_false_r|].
    rewrite (Z.bits_above_log2 b), andb_false_r; [done|lia|].
    apply Z.log2_lt_pow2; [lia|]. apply Z.lt_le_trans with (2 ^ n); [lia|]. apply Z.pow_le_mono_r; lia.
Qed.

(** ** Bytes *)

Abbreviation byte := Init.Byte.byte.
Abbreviation bytes := (list Init.Byte.byte).

Definition Z_of_byte (b : byte) : Z := Z.of_N (Byte.to_N b).
Definition byte_of_Z (z : Z) : byte :=
  match Byte.of_N (Z.to_N (z mod 256)) with Some b => b | None => Byte.x00 end.

#[global] Instance byte_eq_dec : EqDecision byte := Byte.byte_eq_dec.

Lemma Z_of_byte_range b : 0 ≤ Z_of_byte b < 256.
Proof. unfold Z_of_byte. pose proof (Byte.to_N_bounded b). lia. Qed.

Lemma Z_of_byte_of_Z z : Z_of_byte (byte_of_Z z) = z mod 256.
Proof.
  unfold byte_of_Z, Z_of_byte.
  pose proof (Z.mod_pos_bound z 256 ltac:(lia)).
  destruct (Byte.of_N (Z.to_N (z mod 256))) as [b|] eqn:E.
  - apply Byte.to_of_N in E. rewrite E. lia.
  - apply Byte.of_N_None_iff in E. lia.
Qed.

Lemma Z_of_byte_inj b1 b2 : Z_of_byte b1 = Z_of_byte b2 → b1 = b2.
Proof.
  unfold Z_of_byte. intros H. apply N2Z.inj in H.
  pose proof (Byte.of_to_N b1). pose proof (Byte.of_to_N b2). congruence.
Qed.

Lemma byte_of_Z_of_byte b : byte_of_Z (Z_of_byte b) = b.
Proof.
  apply Z_of_byte_inj. rewrite Z_of_byte_of_Z.
  apply Z.mod_small, Z_of_byte_range.
Qed.

(** Length of a Go slice, as the [int] that [len] returns. *)
Definition zlen {A} (l : list A) : Z := Z.of_nat (length l).

Lemma zlen_app {A} (l k : list A) : zlen (l ++ k) = zlen l + zlen k.
Proof. unfold zlen. rewrite length_app. lia. Qed.
Lemma zlen_nonneg {A} (l : list A) : 0 ≤ zlen l.
Proof. unfold zlen. lia. Qed.
Lemma zlen_nil {A} : zlen (@nil A) = 0.
Proof. done. Qed.

(** ** Slices

    [slice l i j] is [l[i:j]] of a slice whose capacity is its length;
    [copy_at dst i src] is [copy(dst[i:], src)]: the new contents of [dst] and
    the number of bytes copied. *)

Definition slice (l : bytes) (i j : Z) : res bytes :=
  if bool_decide (0 ≤ i ≤ j ∧ j ≤ zlen l)
  then Ok (take (Z.to_nat (j - i)) (drop (Z.to_nat i) l))
  else Panic "slice bounds out of range".

Definition index (l : bytes) (i : Z) : res byte :=
  match (if bool_decide (0 ≤ i) then l !! Z.to_nat i else None) with
  | Some b => Ok b
  | None => Panic "index out of range"
  end.

Definition copy_at (dst : bytes) (i : nat) (src : bytes) : bytes * nat :=
  let n := Nat.min (length dst - i) (length src) in
  (take i dst ++ take n src ++ drop (i + n) dst, n).

Lemma copy_at_fits dst i src :
  (i + length src ≤ length dst)%nat →
  copy_at dst i src = (take i dst ++ src ++ drop (i + length src) dst, length src).
Proof.
  intros. unfold copy_at.
  replace (Nat.min (length dst - i) (length src)) with (length src) by lia.
  rewrite (take_ge src) by lia. done.
Qed.

(** The statement sequence [i += copy(data[i:], s1); i += copy(data[i:], s2); ...]. *)
Definition copy_seq (data : bytes) (i : nat) (srcs : list bytes) : bytes * nat :=
  foldl (fun '(d, i) src => let '(d', n) := copy_at d i src in (d', (i + n)%nat))
        (data, i) srcs.

(** Overwriting the middle segment of a buffer split in three. *)
Lemma copy_at_mid a b c src :
  length src = length b → copy_at (a ++ b ++ c) (length a) src = (a ++ src ++ c, length src).
Proof.
  intros E. rewrite copy_at_fits by (rewrite !length_app; lia).
  rewrite E, take_app_length, (app_assoc a b c), drop_app_length' by (rewrite length_app; done).
  done.
Qed.

Lemma length_copy_at dst i src : length (copy_at dst i src).1 = length dst.
Proof.
  unfold copy_at. simpl. rewrite !length_app, !length_take, length_drop. lia.
Qed.

Lemma copy_seq_fits srcs : forall data i,
  (i + length (concat srcs) ≤ length data)%nat →
  copy_seq data i srcs
  = (take i data ++ concat srcs ++ drop (i + length (concat srcs)) data,
     (i + length (concat srcs))%nat).
Proof.
  unfold copy_seq.
  induction srcs as [|s srcs IH]; intros data i Hi; cbn [concat foldl length] in *.
  - rewrite Nat.add_0_r. cbn [app]. by rewrite take_drop.
  - rewrite length_app in Hi. rewrite copy_at_fits by lia.
    assert (length (take i data) = i) as Ei by (rewrite length_take; lia).
    rewrite IH by (rewrite !length_app, length_drop; lia).
    rewrite (app_assoc (take i data) s).
    rewrite take_app_length' by (rewrite length_app; lia).
    rewrite length_app. f_equal; [|lia].
    rewrite <- !app_assoc. do 3 f_equal.
    rewrite (app_assoc (take i data) s), drop_app.
    rewrite (drop_ge (take i data ++ s)) by (rewrite length_app; lia).
    rewrite drop_drop, length_app, Ei. cbn [app]. f_equal. lia.
Qed.

Lemma slice_mid a b c i j :
  i = zlen a → j = zlen a + zlen b → slice (a ++ b ++ c) i j = Ok b.
Proof.
  intros -> ->. unfold slice. rewrite bool_decide_eq_true_2.
  - f_equal. rewrite drop_app_length' by (unfold zlen; lia).
    rewrite take_app_length' by (unfold zlen; lia). done.
  - rewrite !zlen_app. pose proof (zlen_nonneg a). pose proof (zlen_nonneg b).
    pose proof (zlen_nonneg c). lia.
Qed.

Lemma slice_head b c j : j = zlen b → slice (b ++ c) 0 j = Ok b.
Proof. intros ->. by apply (slice_mid [] b c). Qed.

Lemma slice_ok_length l i j s : slice l i j = Ok s → zlen s = j - i.
Proof.
  unfold slice. case_bool_decide; [|done]. intros [= <-].
  unfold zlen in *. rewrite length_take, length_drop. lia.
Qed.

(** ** Strings as byte strings *)

Definition string_bytes (s : string) : bytes := String.list_byte_of_string s.
Definition bytes_string (b : bytes) : string := String.string_of_list_byte b.

Lemma bytes_string_bytes s : bytes_string (string_bytes s) = s.
Proof. apply String.string_of_list_byte_of_string. Qed.
Lemma string_bytes_string b : string_bytes (bytes_string b) = b.
Proof. apply String.list_byte_of_string_of_list_byte. Qed.

Lemma split_len {A} (l : list A) n m :
  length l = (n + m)%nat → ∃ a b, l = a ++ b ∧ length a = n ∧ length b = m.
Proof.
  intros E. exists (take n l), (drop n l). rewrite take_drop, length_take, length_drop.
  split_and!; [done|lia..].
Qed.

(** Checking a decidable property of every integer below a bound. *)
Definition all_below (n : nat) (P : Z → bool) : bool :=
  forallb (fun k => P (Z.of_nat k)) (seq 0 n).

Lemma all_below_spec n P :
  all_below n P = true → ∀ z, 0 ≤ z < Z.of_nat n → P z = true.
Proof.
  unfold all_below. rewrite forallb_forall. intros H z Hz.
  rewrite <- (Z2Nat.id z) by lia. apply H. apply in_seq. lia.
Qed.

(** ** Automation *)

Create HintDb go.
Create Rewrite HintDb go.
#[export] Hint Resolve zlen_nonneg Z_of_byte_range wrapu_range : go.
#[export] Hint Rewrite @zlen_app @zlen_nil @length_copy_at : go.

(** Case analysis of the guards of a handler: every [if], [match] and
    [bool_decide] of the goal or of a hypothesis, with the impossible branches
    closed. *)
Ltac case_go := repeat (case_bool_decide || case_match); simplify_eq/=; try done.
Ltac zsimpl := autorewrite with go in *; unfold zlen in *.
