(* ===== verification/Bytes.v ===== *)
(** * Bytes: the fixed-width integer codecs of framework/utils/tools.go

    [BytesToInt16 .. Uint8ToBytes] of the source go through [encoding/binary]
    in big-endian order; the same byte order serves the frame headers of
    framework/core/utils.go.  [binary.Write] into a fresh buffer appends the
    [n] bytes of the value; [binary.Read] consumes the first [n] bytes, or
    fails and leaves the zero value when there are fewer. *)
From S2P Require Import Prelude.

(** ** encoding/binary, big endian *)

Fixpoint be_encode (n : nat) (z : Z) : bytes :=
  match n with
  | O => []
  | S n' => byte_of_Z (z / 256 ^ Z.of_nat n') :: be_encode n' z
  end.

Definition be_decode (l : bytes) : Z :=
  foldl (fun acc b => acc * 256 + Z_of_byte b) 0 l.

Definition binary_read (n : nat) (b : bytes) : Z :=
  if bool_decide (n ≤ length b)%nat then be_decode (take n b) else 0.

(** ** framework/utils/tools.go *)

Definition SIZE_OF_UINT8 : Z := 1.
Definition SIZE_OF_INT16 : Z := 2.
Definition SIZE_OF_UINT16 : Z := 2.
Definition SIZE_OF_UINT32 : Z := 4.
Definition SIZE_OF_UINT64 : Z := 8.

Definition BytesToInt16 (b : bytes) : Z := i16 (binary_read 2 b).
Definition BytesToInt64 (b : bytes) : Z := i64 (binary_read 8 b).
Definition BytesToUInt64 (b : bytes) : Z := binary_read 8 b.
Definition BytesToUInt32 (b : bytes) : Z := binary_read 4 b.
Definition BytesToUint16 (b : bytes) : Z := binary_read 2 b.
Definition Int16ToBytes (n : Z) : bytes := be_encode 2 (u16 n).
Definition Uint64ToBytes (n : Z) : bytes := be_encode 8 n.
Definition Uint32ToBytes (n : Z) : bytes := be_encode 4 n.
Definition Uint16ToBytes (n : Z) : bytes := be_encode 2 n.
Definition Uint8ToBytes (n : Z) : bytes := be_encode 1 n.
Definition Int64ToByte (n : Z) : bytes := be_encode 8 (u64 n).

(** The prefix of [p] up to its first zero byte. *)
Fixpoint ByteToString (p : bytes) : bytes :=
  match p with
  | [] => []
  | b :: p' => if bool_decide (Z_of_byte b = 0) then [] else b :: ByteToString p'
  end.

Definition MergeBytes (a b : bytes) : bytes :=
  let data := replicate (length a + length b) Byte.x00 in
  let data := (copy_at data 0 a).1 in
  (copy_at data (length a) b).1.

(** ** Round trips *)

Lemma length_be_encode n z : length (be_encode n z) = n.
Proof. induction n; simpl; auto. Qed.

Lemma zlen_be_encode n z : zlen (be_encode n z) = Z.of_nat n.
Proof. unfold zlen. by rewrite length_be_encode. Qed.

Lemma foldl_be_encode n z acc :
  foldl (fun acc b => acc * 256 + Z_of_byte b) acc (be_encode n z)
  = acc * 256 ^ Z.of_nat n + z mod 256 ^ Z.of_nat n.
Proof.
  revert acc. induction n as [|n IH]; intros acc.
  - simpl. rewrite Z.mod_1_r. lia.
  - cbn [be_encode foldl]. rewrite IH, Z_of_byte_of_Z.
    rewrite (Nat2Z.inj_succ n), Z.pow_succ_r by lia.
    pose proof (Z.pow_pos_nonneg 256 (Z.of_nat n) ltac:(lia) ltac:(lia)) as Hp.
    rewrite (Z.mul_comm 256 (256 ^ Z.of_nat n)), Z.rem_mul_r by lia. ring.
Qed.

Lemma be_decode_encode n z : be_decode (be_encode n z) = z mod 256 ^ Z.of_nat n.
Proof. unfold be_decode. rewrite foldl_be_encode. lia. Qed.

Lemma pow256 n : 256 ^ Z.of_nat n = 2 ^ (8 * Z.of_nat n).
Proof. rewrite Z.pow_mul_r by lia. done. Qed.

Lemma foldl_be_bound l acc :
  0 ≤ acc →
  acc * 256 ^ zlen l ≤ foldl (fun acc b => acc * 256 + Z_of_byte b) acc l
  < (acc + 1) * 256 ^ zlen l.
Proof.
  revert acc. induction l as [|b l IH]; intros acc Hacc.
  - unfold zlen. simpl. lia.
  - cbn [foldl]. pose proof (Z_of_byte_range b).
    specialize (IH (acc * 256 + Z_of_byte b) ltac:(lia)).
    unfold zlen in *. cbn [length]. rewrite Nat2Z.inj_succ, Z.pow_succ_r by lia.
    pose proof (Z.pow_pos_nonneg 256 (Z.of_nat (length l)) ltac:(lia) ltac:(lia)).
    nia.
Qed.

Lemma be_decode_bound l : 0 ≤ be_decode l < 256 ^ zlen l.
Proof. unfold be_decode. pose proof (foldl_be_bound l 0). lia. Qed.

Lemma be_encode_mod n z k :
  (n ≤ k)%nat → be_encode n (z mod 256 ^ Z.of_nat k) = be_encode n z.
Proof.
  intros Hk. induction n as [|n IH]; [done|].
  cbn [be_encode]. rewrite IH by lia. f_equal.
  apply Z_of_byte_inj. rewrite !Z_of_byte_of_Z.
  pose proof (Z.pow_pos_nonneg 256 (Z.of_nat n) ltac:(lia) ltac:(lia)).
  replace (256 ^ Z.of_nat k) with (256 ^ Z.of_nat n * (256 * 256 ^ Z.of_nat (k - S n))).
  2:{ rewrite <- (Z.pow_succ_r 256 (Z.of_nat (k - S n))) by lia.
      rewrite <- Z.pow_add_r by lia. f_equal. lia. }
  pose proof (Z.pow_pos_nonneg 256 (Z.of_nat (k - S n)) ltac:(lia) ltac:(lia)).
  rewrite Z.rem_mul_r by lia.
  rewrite Z.mul_comm, Z.div_add by lia.
  rewrite Z.div_small by (apply Z.mod_pos_bound; lia). simpl.
  rewrite Z.add_0_l. rewrite (Z.rem_mul_r _ 256) by lia.
  rewrite Z.mul_comm, Z.mod_add, Z.mod_mod by lia. done.
Qed.

Lemma be_decode_app l k : be_decode (l ++ k) = be_decode l * 256 ^ zlen k + be_decode k.
Proof.
  unfold be_decode at 1. rewrite foldl_app. fold (be_decode l).
  generalize (be_decode l). intros acc. unfold be_decode.
  revert acc. induction k as [|b k IH]; intros acc.
  - unfold zlen. simpl. lia.
  - cbn [foldl]. rewrite (IH (acc * 256 + Z_of_byte b)), (IH (0 * 256 + Z_of_byte b)).
    unfold zlen. cbn [length]. rewrite Nat2Z.inj_succ, Z.pow_succ_r by lia. ring.
Qed.

Lemma be_encode_decode l : be_encode (length l) (be_decode l) = l.
Proof.
  induction l as [|b l IH]; [done|].
  cbn [length be_encode]. change (b :: l) with ([b] ++ l) at 1 2.
  rewrite be_decode_app. pose proof (be_decode_bound l) as Hb. unfold zlen in *.
  rewrite Z.div_add_l, Z.div_small by lia. rewrite Z.add_0_r.
  replace (be_decode [b]) with (Z_of_byte b) by (unfold be_decode; simpl; lia).
  rewrite byte_of_Z_of_byte.
  f_equal. rewrite <- (be_encode_mod _ _ (length l)) by lia.
  rewrite Z.add_comm, Z.mod_add, be_encode_mod by lia. exact IH.
Qed.

Lemma binary_read_encode n z k : binary_read n (be_encode n z ++ k) = z mod 256 ^ Z.of_nat n.
Proof.
  unfold binary_read. rewrite bool_decide_eq_true_2
    by (rewrite length_app, length_be_encode; lia).
  rewrite take_app_length' by (by rewrite length_be_encode). apply be_decode_encode.
Qed.

Lemma binary_read_encode_nil n z : binary_read n (be_encode n z) = z mod 256 ^ Z.of_nat n.
Proof. rewrite <- (app_nil_r (be_encode n z)). apply binary_read_encode. Qed.

#[export] Hint Rewrite length_be_encode zlen_be_encode binary_read_encode_nil : go.

Lemma BytesToInt16_Int16ToBytes n : in_s 16 n → BytesToInt16 (Int16ToBytes n) = n.
Proof.
  intros H. unfold BytesToInt16, Int16ToBytes. rewrite binary_read_encode_nil.
  change (256 ^ Z.of_nat 2) with (2 ^ 16). fold (u16 (u16 n)).
  rewrite (wrapu_id 16 (u16 n)) by (by apply wrapu_range).
  rewrite wraps_wrapu by lia. by apply wraps_id.
Qed.

Lemma BytesToInt64_Int64ToByte n : in_s 64 n → BytesToInt64 (Int64ToByte n) = n.
Proof.
  intros H. unfold BytesToInt64, Int64ToByte. rewrite binary_read_encode_nil.
  change (256 ^ Z.of_nat 8) with (2 ^ 64). fold (u64 (u64 n)).
  rewrite (wrapu_id 64 (u64 n)) by (by apply wrapu_range).
  rewrite wraps_wrapu by lia. by apply wraps_id.
Qed.

Lemma binary_read_id n z : in_u (8 * Z.of_nat n) z → binary_read n (be_encode n z) = z.
Proof.
  intros H. rewrite binary_read_encode_nil, pow256. by apply Z.mod_small.
Qed.

Lemma MergeBytes_app a b : MergeBytes a b = a ++ b.
Proof.
  unfold MergeBytes. rewrite replicate_add.
  pose proof (copy_at_mid [] (replicate (length a) Byte.x00) (replicate (length b) Byte.x00) a) as E.
  cbn [length app] in E. rewrite E by (by rewrite length_replicate). cbn [fst].
  pose proof (copy_at_mid a (replicate (length b) Byte.x00) [] b) as E2.
  rewrite !app_nil_r in E2. by rewrite E2 by (by rewrite length_replicate).
Qed.
