(* ===== verification/Keccak.v ===== *)
(** * Keccak: the permutation Keccak-f[1600]

    Models framework/crypto/sha3/keccakf.go, the portable implementation: four
    rounds per iteration of the loop, each of them in place, with the five steps
    of a round merged into two and lanes left where they are convenient.  The
    assembly version for amd64 is not modelled.

    The reference is the definition of FIPS 202: theta, rho, pi, chi and iota on a
    5 by 5 grid of 64-bit lanes, with the rotation offsets and the round constants
    computed by the rules of the standard. *)
From Stdlib Require Import Btauto.
From S2P Require Import Prelude.

(** ** Lanes *)

Declare Scope lane_scope.
Delimit Scope lane_scope with lane.
Notation "a '.[' i ]" := (nth i%nat a 0) (at level 1, left associativity, format "a .[ i ]") : lane_scope.
Notation "a '.[' i '<-' v ]" := (<[i%nat := v]> a) (at level 1, left associativity, format "a .[ i  '<-'  v ]") : lane_scope.
Infix "⊕" := Z.lxor (at level 50, left associativity) : lane_scope.
(** Go's [x &^ y]. *)
Infix "&~" := Z.ldiff (at level 40, left associativity) : lane_scope.
Open Scope lane_scope.

(** [t<<n | t>>(64-n)] on [uint64]. *)
Definition rot (n : Z) (t : Z) : Z := Z.lor (u64 (Z.shiftl t n)) (Z.shiftr t (64 - n)).

(** ** keccakf.go *)

Definition rc : list Z :=
  [0x0000000000000001; 0x0000000000008082; 0x800000000000808A; 0x8000000080008000;
   0x000000000000808B; 0x0000000080000001; 0x8000000080008081; 0x8000000000008009;
   0x000000000000008A; 0x0000000000000088; 0x0000000080008009; 0x000000008000000A;
   0x000000008000808B; 0x800000000000008B; 0x8000000000008089; 0x8000000000008003;
   0x8000000000008002; 0x8000000000000080; 0x000000000000800A; 0x800000008000000A;
   0x8000000080008081; 0x8000000000008080; 0x0000000080000001; 0x8000000080008008].

(** The four unrolled rounds of the loop body, statement by statement. *)

Definition round1 (rci : Z) (a : list Z) : list Z :=
  let bc0 := a.[0] ⊕ a.[5] ⊕ a.[10] ⊕ a.[15] ⊕ a.[20] in
  let bc1 := a.[1] ⊕ a.[6] ⊕ a.[11] ⊕ a.[16] ⊕ a.[21] in
  let bc2 := a.[2] ⊕ a.[7] ⊕ a.[12] ⊕ a.[17] ⊕ a.[22] in
  let bc3 := a.[3] ⊕ a.[8] ⊕ a.[13] ⊕ a.[18] ⊕ a.[23] in
  let bc4 := a.[4] ⊕ a.[9] ⊕ a.[14] ⊕ a.[19] ⊕ a.[24] in
  let d0 := bc4 ⊕ (rot 1 bc1) in
  let d1 := bc0 ⊕ (rot 1 bc2) in
  let d2 := bc1 ⊕ (rot 1 bc3) in
  let d3 := bc2 ⊕ (rot 1 bc4) in
  let d4 := bc3 ⊕ (rot 1 bc0) in
  let bc0 := a.[0] ⊕ d0 in
  let t := a.[6] ⊕ d1 in
  let bc1 := rot 44 t in
  let t := a.[12] ⊕ d2 in
  let bc2 := rot 43 t in
  let t := a.[18] ⊕ d3 in
  let bc3 := rot 21 t in
  let t := a.[24] ⊕ d4 in
  let bc4 := rot 14 t in
  let a := a.[0 <- bc0 ⊕ (bc2 &~ bc1) ⊕ rci] in
  let a := a.[6 <- bc1 ⊕ (bc3 &~ bc2)] in
  let a := a.[12 <- bc2 ⊕ (bc4 &~ bc3)] in
  let a := a.[18 <- bc3 ⊕ (bc0 &~ bc4)] in
  let a := a.[24 <- bc4 ⊕ (bc1 &~ bc0)] in
  let t := a.[10] ⊕ d0 in
  let bc2 := rot 3 t in
  let t := a.[16] ⊕ d1 in
  let bc3 := rot 45 t in
  let t := a.[22] ⊕ d2 in
  let bc4 := rot 61 t in
  let t := a.[3] ⊕ d3 in
  let bc0 := rot 28 t in
  let t := a.[9] ⊕ d4 in
  let bc1 := rot 20 t in
  let a := a.[10 <- bc0 ⊕ (bc2 &~ bc1)] in
  let a := a.[16 <- bc1 ⊕ (bc3 &~ bc2)] in
  let a := a.[22 <- bc2 ⊕ (bc4 &~ bc3)] in
  let a := a.[3 <- bc3 ⊕ (bc0 &~ bc4)] in
  let a := a.[9 <- bc4 ⊕ (bc1 &~ bc0)] in
  let t := a.[20] ⊕ d0 in
  let bc4 := rot 18 t in
  let t := a.[1] ⊕ d1 in
  let bc0 := rot 1 t in
  let t := a.[7] ⊕ d2 in
  let bc1 := rot 6 t in
  let t := a.[13] ⊕ d3 in
  let bc2 := rot 25 t in
  let t := a.[19] ⊕ d4 in
  let bc3 := rot 8 t in
  let a := a.[20 <- bc0 ⊕ (bc2 &~ bc1)] in
  let a := a.[1 <- bc1 ⊕ (bc3 &~ bc2)] in
  let a := a.[7 <- bc2 ⊕ (bc4 &~ bc3)] in
  let a := a.[13 <- bc3 ⊕ (bc0 &~ bc4)] in
  let a := a.[19 <- bc4 ⊕ (bc1 &~ bc0)] in
  let t := a.[5] ⊕ d0 in
  let bc1 := rot 36 t in
  let t := a.[11] ⊕ d1 in
  let bc2 := rot 10 t in
  let t := a.[17] ⊕ d2 in
  let bc3 := rot 15 t in
  let t := a.[23] ⊕ d3 in
  let bc4 := rot 56 t in
  let t := a.[4] ⊕ d4 in
  let bc0 := rot 27 t in
  let a := a.[5 <- bc0 ⊕ (bc2 &~ bc1)] in
  let a := a.[11 <- bc1 ⊕ (bc3 &~ bc2)] in
  let a := a.[17 <- bc2 ⊕ (bc4 &~ bc3)] in
  let a := a.[23 <- bc3 ⊕ (bc0 &~ bc4)] in
  let a := a.[4 <- bc4 ⊕ (bc1 &~ bc0)] in
  let t := a.[15] ⊕ d0 in
  let bc3 := rot 41 t in
  let t := a.[21] ⊕ d1 in
  let bc4 := rot 2 t in
  let t := a.[2] ⊕ d2 in
  let bc0 := rot 62 t in
  let t := a.[8] ⊕ d3 in
  let bc1 := rot 55 t in
  let t := a.[14] ⊕ d4 in
  let bc2 := rot 39 t in
  let a := a.[15 <- bc0 ⊕ (bc2 &~ bc1)] in
  let a := a.[21 <- bc1 ⊕ (bc3 &~ bc2)] in
  let a := a.[2 <- bc2 ⊕ (bc4 &~ bc3)] in
  let a := a.[8 <- bc3 ⊕ (bc0 &~ bc4)] in
  let a := a.[14 <- bc4 ⊕ (bc1 &~ bc0)] in
  a.

Definition round2 (rci : Z) (a : list Z) : list Z :=
  let bc0 := a.[0] ⊕ a.[5] ⊕ a.[10] ⊕ a.[15] ⊕ a.[20] in
  let bc1 := a.[1] ⊕ a.[6] ⊕ a.[11] ⊕ a.[16] ⊕ a.[21] in
  let bc2 := a.[2] ⊕ a.[7] ⊕ a.[12] ⊕ a.[17] ⊕ a.[22] in
  let bc3 := a.[3] ⊕ a.[8] ⊕ a.[13] ⊕ a.[18] ⊕ a.[23] in
  let bc4 := a.[4] ⊕ a.[9] ⊕ a.[14] ⊕ a.[19] ⊕ a.[24] in
  let d0 := bc4 ⊕ (rot 1 bc1) in
  let d1 := bc0 ⊕ (rot 1 bc2) in
  let d2 := bc1 ⊕ (rot 1 bc3) in
  let d3 := bc2 ⊕ (rot 1 bc4) in
  let d4 := bc3 ⊕ (rot 1 bc0) in
  let bc0 := a.[0] ⊕ d0 in
  let t := a.[16] ⊕ d1 in
  let bc1 := rot 44 t in
  let t := a.[7] ⊕ d2 in
  let bc2 := rot 43 t in
  let t := a.[23] ⊕ d3 in
  let bc3 := rot 21 t in
  let t := a.[14] ⊕ d4 in
  let bc4 := rot 14 t in
  let a := a.[0 <- bc0 ⊕ (bc2 &~ bc1) ⊕ rci] in
  let a := a.[16 <- bc1 ⊕ (bc3 &~ bc2)] in
  let a := a.[7 <- bc2 ⊕ (bc4 &~ bc3)] in
  let a := a.[23 <- bc3 ⊕ (bc0 &~ bc4)] in
  let a := a.[14 <- bc4 ⊕ (bc1 &~ bc0)] in
  let t := a.[20] ⊕ d0 in
  let bc2 := rot 3 t in
  let t := a.[11] ⊕ d1 in
  let bc3 := rot 45 t in
  let t := a.[2] ⊕ d2 in
  let bc4 := rot 61 t in
  let t := a.[18] ⊕ d3 in
  let bc0 := rot 28 t in
  let t := a.[9] ⊕ d4 in
  let bc1 := rot 20 t in
  let a := a.[20 <- bc0 ⊕ (bc2 &~ bc1)] in
  let a := a.[11 <- bc1 ⊕ (bc3 &~ bc2)] in
  let a := a.[2 <- bc2 ⊕ (bc4 &~ bc3)] in
  let a := a.[18 <- bc3 ⊕ (bc0 &~ bc4)] in
  let a := a.[9 <- bc4 ⊕ (bc1 &~ bc0)] in
  let t := a.[15] ⊕ d0 in
  let bc4 := rot 18 t in
  let t := a.[6] ⊕ d1 in
  let bc0 := rot 1 t in
  let t := a.[22] ⊕ d2 in
  let bc1 := rot 6 t in
  let t := a.[13] ⊕ d3 in
  let bc2 := rot 25 t in
  let t := a.[4] ⊕ d4 in
  let bc3 := rot 8 t in
  let a := a.[15 <- bc0 ⊕ (bc2 &~ bc1)] in
  let a := a.[6 <- bc1 ⊕ (bc3 &~ bc2)] in
  let a := a.[22 <- bc2 ⊕ (bc4 &~ bc3)] in
  let a := a.[13 <- bc3 ⊕ (bc0 &~ bc4)] in
  let a := a.[4 <- bc4 ⊕ (bc1 &~ bc0)] in
  let t := a.[10] ⊕ d0 in
  let bc1 := rot 36 t in
  let t := a.[1] ⊕ d1 in
  let bc2 := rot 10 t in
  let t := a.[17] ⊕ d2 in
  let bc3 := rot 15 t in
  let t := a.[8] ⊕ d3 in
  let bc4 := rot 56 t in
  let t := a.[24] ⊕ d4 in
  let bc0 := rot 27 t in
  let a := a.[10 <- bc0 ⊕ (bc2 &~ bc1)] in
  let a := a.[1 <- bc1 ⊕ (bc3 &~ bc2)] in
  let a := a.[17 <- bc2 ⊕ (bc4 &~ bc3)] in
  let a := a.[8 <- bc3 ⊕ (bc0 &~ bc4)] in
  let a := a.[24 <- bc4 ⊕ (bc1 &~ bc0)] in
  let t := a.[5] ⊕ d0 in
  let bc3 := rot 41 t in
  let t := a.[21] ⊕ d1 in
  let bc4 := rot 2 t in
  let t := a.[12] ⊕ d2 in
  let bc0 := rot 62 t in
  let t := a.[3] ⊕ d3 in
  let bc1 := rot 55 t in
  let t := a.[19] ⊕ d4 in
  let bc2 := rot 39 t in
  let a := a.[5 <- bc0 ⊕ (bc2 &~ bc1)] in
  let a := a.[21 <- bc1 ⊕ (bc3 &~ bc2)] in
  let a := a.[12 <- bc2 ⊕ (bc4 &~ bc3)] in
  let a := a.[3 <- bc3 ⊕ (bc0 &~ bc4)] in
  let a := a.[19 <- bc4 ⊕ (bc1 &~ bc0)] in
  a.

Definition round3 (rci : Z) (a : list Z) : list Z :=
  let bc0 := a.[0] ⊕ a.[5] ⊕ a.[10] ⊕ a.[15] ⊕ a.[20] in
  let bc1 := a.[1] ⊕ a.[6] ⊕ a.[11] ⊕ a.[16] ⊕ a.[21] in
  let bc2 := a.[2] ⊕ a.[7] ⊕ a.[12] ⊕ a.[17] ⊕ a.[22] in
  let bc3 := a.[3] ⊕ a.[8] ⊕ a.[13] ⊕ a.[18] ⊕ a.[23] in
  let bc4 := a.[4] ⊕ a.[9] ⊕ a.[14] ⊕ a.[19] ⊕ a.[24] in
  let d0 := bc4 ⊕ (rot 1 bc1) in
  let d1 := bc0 ⊕ (rot 1 bc2) in
  let d2 := bc1 ⊕ (rot 1 bc3) in
  let d3 := bc2 ⊕ (rot 1 bc4) in
  let d4 := bc3 ⊕ (rot 1 bc0) in
  let bc0 := a.[0] ⊕ d0 in
  let t := a.[11] ⊕ d1 in
  let bc1 := rot 44 t in
  let t := a.[22] ⊕ d2 in
  let bc2 := rot 43 t in
  let t := a.[8] ⊕ d3 in
  let bc3 := rot 21 t in
  let t := a.[19] ⊕ d4 in
  let bc4 := rot 14 t in
  let a := a.[0 <- bc0 ⊕ (bc2 &~ bc1) ⊕ rci] in
  let a := a.[11 <- bc1 ⊕ (bc3 &~ bc2)] in
  let a := a.[22 <- bc2 ⊕ (bc4 &~ bc3)] in
  let a := a.[8 <- bc3 ⊕ (bc0 &~ bc4)] in
  let a := a.[19 <- bc4 ⊕ (bc1 &~ bc0)] in
  let t := a.[15] ⊕ d0 in
  let bc2 := rot 3 t in
  let t := a.[1] ⊕ d1 in
  let bc3 := rot 45 t in
  let t := a.[12] ⊕ d2 in
  let bc4 := rot 61 t in
  let t := a.[23] ⊕ d3 in
  let bc0 := rot 28 t in
  let t := a.[9] ⊕ d4 in
  let bc1 := rot 20 t in
  let a := a.[15 <- bc0 ⊕ (bc2 &~ bc1)] in
  let a := a.[1 <- bc1 ⊕ (bc3 &~ bc2)] in
  let a := a.[12 <- bc2 ⊕ (bc4 &~ bc3)] in
  let a := a.[23 <- bc3 ⊕ (bc0 &~ bc4)] in
  let a := a.[9 <- bc4 ⊕ (bc1 &~ bc0)] in
  let t := a.[5] ⊕ d0 in
  let bc4 := rot 18 t in
  let t := a.[16] ⊕ d1 in
  let bc0 := rot 1 t in
  let t := a.[2] ⊕ d2 in
  let bc1 := rot 6 t in
  let t := a.[13] ⊕ d3 in
  let bc2 := rot 25 t in
  let t := a.[24] ⊕ d4 in
  let bc3 := rot 8 t in
  let a := a.[5 <- bc0 ⊕ (bc2 &~ bc1)] in
  let a := a.[16 <- bc1 ⊕ (bc3 &~ bc2)] in
  let a := a.[2 <- bc2 ⊕ (bc4 &~ bc3)] in
  let a := a.[13 <- bc3 ⊕ (bc0 &~ bc4)] in
  let a := a.[24 <- bc4 ⊕ (bc1 &~ bc0)] in
  let t := a.[20] ⊕ d0 in
  let bc1 := rot 36 t in
  let t := a.[6] ⊕ d1 in
  let bc2 := rot 10 t in
  let t := a.[17] ⊕ d2 in
  let bc3 := rot 15 t in
  let t := a.[3] ⊕ d3 in
  let bc4 := rot 56 t in
  let t := a.[14] ⊕ d4 in
  let bc0 := rot 27 t in
  let a := a.[20 <- bc0 ⊕ (bc2 &~ bc1)] in
  let a := a.[6 <- bc1 ⊕ (bc3 &~ bc2)] in
  let a := a.[17 <- bc2 ⊕ (bc4 &~ bc3)] in
  let a := a.[3 <- bc3 ⊕ (bc0 &~ bc4)] in
  let a := a.[14 <- bc4 ⊕ (bc1 &~ bc0)] in
  let t := a.[10] ⊕ d0 in
  let bc3 := rot 41 t in
  let t := a.[21] ⊕ d1 in
  let bc4 := rot 2 t in
  let t := a.[7] ⊕ d2 in
  let bc0 := rot 62 t in
  let t := a.[18] ⊕ d3 in
  let bc1 := rot 55 t in
  let t := a.[4] ⊕ d4 in
  let bc2 := rot 39 t in
  let a := a.[10 <- bc0 ⊕ (bc2 &~ bc1)] in
  let a := a.[21 <- bc1 ⊕ (bc3 &~ bc2)] in
  let a := a.[7 <- bc2 ⊕ (bc4 &~ bc3)] in
  let a := a.[18 <- bc3 ⊕ (bc0 &~ bc4)] in
  let a := a.[4 <- bc4 ⊕ (bc1 &~ bc0)] in
  a.

Definition round4 (rci : Z) (a : list Z) : list Z :=
  let bc0 := a.[0] ⊕ a.[5] ⊕ a.[10] ⊕ a.[15] ⊕ a.[20] in
  let bc1 := a.[1] ⊕ a.[6] ⊕ a.[11] ⊕ a.[16] ⊕ a.[21] in
  let bc2 := a.[2] ⊕ a.[7] ⊕ a.[12] ⊕ a.[17] ⊕ a.[22] in
  let bc3 := a.[3] ⊕ a.[8] ⊕ a.[13] ⊕ a.[18] ⊕ a.[23] in
  let bc4 := a.[4] ⊕ a.[9] ⊕ a.[14] ⊕ a.[19] ⊕ a.[24] in
  let d0 := bc4 ⊕ (rot 1 bc1) in
  let d1 := bc0 ⊕ (rot 1 bc2) in
  let d2 := bc1 ⊕ (rot 1 bc3) in
  let d3 := bc2 ⊕ (rot 1 bc4) in
  let d4 := bc3 ⊕ (rot 1 bc0) in
  let bc0 := a.[0] ⊕ d0 in
  let t := a.[1] ⊕ d1 in
  let bc1 := rot 44 t in
  let t := a.[2] ⊕ d2 in
  let bc2 := rot 43 t in
  let t := a.[3] ⊕ d3 in
  let bc3 := rot 21 t in
  let t := a.[4] ⊕ d4 in
  let bc4 := rot 14 t in
  let a := a.[0 <- bc0 ⊕ (bc2 &~ bc1) ⊕ rci] in
  let a := a.[1 <- bc1 ⊕ (bc3 &~ bc2)] in
  let a := a.[2 <- bc2 ⊕ (bc4 &~ bc3)] in
  let a := a.[3 <- bc3 ⊕ (bc0 &~ bc4)] in
  let a := a.[4 <- bc4 ⊕ (bc1 &~ bc0)] in
  let t := a.[5] ⊕ d0 in
  let bc2 := rot 3 t in
  let t := a.[6] ⊕ d1 in
  let bc3 := rot 45 t in
  let t := a.[7] ⊕ d2 in
  let bc4 := rot 61 t in
  let t := a.[8] ⊕ d3 in
  let bc0 := rot 28 t in
  let t := a.[9] ⊕ d4 in
  let bc1 := rot 20 t in
  let a := a.[5 <- bc0 ⊕ (bc2 &~ bc1)] in
  let a := a.[6 <- bc1 ⊕ (bc3 &~ bc2)] in
  let a := a.[7 <- bc2 ⊕ (bc4 &~ bc3)] in
  let a := a.[8 <- bc3 ⊕ (bc0 &~ bc4)] in
  let a := a.[9 <- bc4 ⊕ (bc1 &~ bc0)] in
  let t := a.[10] ⊕ d0 in
  let bc4 := rot 18 t in
  let t := a.[11] ⊕ d1 in
  let bc0 := rot 1 t in
  let t := a.[12] ⊕ d2 in
  let bc1 := rot 6 t in
  let t := a.[13] ⊕ d3 in
  let bc2 := rot 25 t in
  let t := a.[14] ⊕ d4 in
  let bc3 := rot 8 t in
  let a := a.[10 <- bc0 ⊕ (bc2 &~ bc1)] in
  let a := a.[11 <- bc1 ⊕ (bc3 &~ bc2)] in
  let a := a.[12 <- bc2 ⊕ (bc4 &~ bc3)] in
  let a := a.[13 <- bc3 ⊕ (bc0 &~ bc4)] in
  let a := a.[14 <- bc4 ⊕ (bc1 &~ bc0)] in
  let t := a.[15] ⊕ d0 in
  let bc1 := rot 36 t in
  let t := a.[16] ⊕ d1 in
  let bc2 := rot 10 t in
  let t := a.[17] ⊕ d2 in
  let bc3 := rot 15 t in
  let t := a.[18] ⊕ d3 in
  let bc4 := rot 56 t in
  let t := a.[19] ⊕ d4 in
  let bc0 := rot 27 t in
  let a := a.[15 <- bc0 ⊕ (bc2 &~ bc1)] in
  let a := a.[16 <- bc1 ⊕ (bc3 &~ bc2)] in
  let a := a.[17 <- bc2 ⊕ (bc4 &~ bc3)] in
  let a := a.[18 <- bc3 ⊕ (bc0 &~ bc4)] in
  let a := a.[19 <- bc4 ⊕ (bc1 &~ bc0)] in
  let t := a.[20] ⊕ d0 in
  let bc3 := rot 41 t in
  let t := a.[21] ⊕ d1 in
  let bc4 := rot 2 t in
  let t := a.[22] ⊕ d2 in
  let bc0 := rot 62 t in
  let t := a.[23] ⊕ d3 in
  let bc1 := rot 55 t in
  let t := a.[24] ⊕ d4 in
  let bc2 := rot 39 t in
  let a := a.[20 <- bc0 ⊕ (bc2 &~ bc1)] in
  let a := a.[21 <- bc1 ⊕ (bc3 &~ bc2)] in
  let a := a.[22 <- bc2 ⊕ (bc4 &~ bc3)] in
  let a := a.[23 <- bc3 ⊕ (bc0 &~ bc4)] in
  let a := a.[24 <- bc4 ⊕ (bc1 &~ bc0)] in
  a.

(** The body of the loop, and [for i := 0; i < 24; i += 4]. *)
Definition iteration (a : list Z) (i : nat) : list Z :=
  let a := round1 rc.[i] a in
  let a := round2 rc.[i + 1] a in
  let a := round3 rc.[i + 2] a in
  let a := round4 rc.[i + 3] a in
  a.

Definition keccakF1600 (a : list Z) : list Z := foldl iteration a [0; 4; 8; 12; 16; 20]%nat.

(** ** The standard *)

(** Lane (x, y), with coordinates modulo 5, and the state with given lanes. *)
Definition lane (A : list Z) (x y : nat) : Z := A.[x mod 5 + 5 * (y mod 5)].
Definition grid (f : nat → nat → Z) : list Z := map (fun i => f (i mod 5)%nat (i / 5)%nat) (seq 0 25).

Definition column (A : list Z) (x : nat) : Z :=
  lane A x 0 ⊕ lane A x 1 ⊕ lane A x 2 ⊕ lane A x 3 ⊕ lane A x 4.

Definition theta (A : list Z) : list Z :=
  grid (fun x y => lane A x y ⊕ (column A (x + 4) ⊕ rot 1 (column A (x + 1)))).

(** The offset of the t-th lane on the walk from (1, 0) is (t+1)(t+2)/2. *)
Fixpoint rho_walk (n t x y : nat) (table : list Z) : list Z :=
  match n with
  | O => table
  | S n => rho_walk n (S t) y ((2 * x + 3 * y) mod 5)
             table.[x + 5 * y <- Z.of_nat ((t + 1) * (t + 2) / 2) mod 64]
  end.
Definition rho_offsets : list Z := rho_walk 24 0 1 0 (replicate 25 0).

Definition rotl (n x : Z) : Z := if n =? 0 then x else rot n x.
Definition rho (A : list Z) : list Z := grid (fun x y => rotl (lane rho_offsets x y) (lane A x y)).
Definition pi (A : list Z) : list Z := grid (fun x y => lane A (x + 3 * y) x).
Definition chi (A : list Z) : list Z :=
  grid (fun x y => lane A x y ⊕ Z.land (Z.lnot (lane A (x + 1) y)) (lane A (x + 2) y)).
Definition iota (c : Z) (A : list Z) : list Z := A.[0 <- A.[0] ⊕ c].

Definition keccak_round (c : Z) (A : list Z) : list Z := iota c (chi (pi (rho (theta A)))).

(** The round constants come from a shift register over x^8+x^6+x^5+x^4+1: bit
    [2^j - 1] of constant [i] is the output at time [j + 7 i]. *)
Fixpoint lfsr (t : nat) : Z :=
  match t with
  | O => 1
  | S t => let r := Z.shiftl (lfsr t) 1 in if Z.testbit r 8 then r ⊕ 0x171 else r
  end.
Definition round_constant (i : nat) : Z :=
  foldr (fun j z => (if Z.testbit (lfsr (j + 7 * i)) 0 then 2 ^ (2 ^ Z.of_nat j - 1) else 0) + z) 0 (seq 0 7).

Definition keccak_f (A : list Z) : list Z :=
  foldl (fun A i => keccak_round (round_constant i) A) A (seq 0 24).

(** ** The unrolled rounds are the rounds of the standard *)

(** After [k] of the four rounds, lane (x, y) is in row [row k x y] of column x. *)
Fixpoint row (k x y : nat) : nat := match k with O => y | S k => row k x ((x + 2 * y) mod 5) end.
Definition view (k : nat) (a : list Z) : list Z := grid (fun x y => lane a x (row k x y)).

Lemma land_lnot b c : Z.land (Z.lnot b) c = c &~ b.
Proof. by rewrite Z.land_comm, <- Z.ldiff_land. Qed.

Lemma chi_ldiff A : chi A = grid (fun x y => lane A x y ⊕ (lane A (x + 2) y &~ lane A (x + 1) y)).
Proof. unfold chi, grid. apply map_ext. intros i. by rewrite land_lnot. Qed.

(** Take a state apart, and compare two of them lane by lane. *)
Ltac lanes a H :=
  do 25 (destruct a as [|? a]; [discriminate H|]); destruct a; [|discriminate H].

Ltac xor_ac :=
  apply Z.bits_inj'; intros ? _; rewrite !Z.lxor_spec; btauto.

(** Moving lanes within their columns does not change what theta sees of them. *)
Lemma column_view k a x : (k < 4)%nat → (x < 5)%nat → length a = 25%nat → column (view k a) x = column a x.
Proof.
  intros Hk Hx H. lanes a H.
  destruct k as [|[|[|[|k]]]]; [..|lia];
    (destruct x as [|[|[|[|[|x]]]]]; [..|lia]; cbv -[Z.lxor]; xor_ac).
Qed.

Lemma lane_mod A x y : lane A (x mod 5) y = lane A x y.
Proof. unfold lane. by rewrite Nat.Div0.mod_mod. Qed.

Lemma column_mod A x : column A x = column A (x mod 5).
Proof. unfold column. by rewrite !lane_mod. Qed.

Definition theta_by (col : nat → Z) (A : list Z) : list Z :=
  grid (fun x y => lane A x y ⊕ (col ((x + 4) mod 5)%nat ⊕ rot 1 (col ((x + 1) mod 5)%nat))).

Lemma theta_view k a : (k < 4)%nat → length a = 25%nat → theta (view k a) = theta_by (column a) (view k a).
Proof.
  intros Hk H. unfold theta, theta_by, grid. apply map_ext. intros i.
  rewrite (column_mod _ (_ + 4)), (column_mod _ (_ + 1)).
  rewrite !column_view by (done || (apply Nat.mod_upper_bound; lia)). done.
Qed.

Ltac by_lanes k :=
  intros H; unfold keccak_round; rewrite (theta_view k) by (lia || done); rewrite chi_ldiff;
  lazymatch type of H with length ?a = _ => lanes a H end; cbv -[rot Z.lxor Z.ldiff]; reflexivity.

Lemma round1_ref c a : length a = 25%nat → view 1 (round1 c a) = keccak_round c (view 0 a).
Proof. by_lanes 0%nat. Qed.
Lemma round2_ref c a : length a = 25%nat → view 2 (round2 c a) = keccak_round c (view 1 a).
Proof. by_lanes 1%nat. Qed.
Lemma round3_ref c a : length a = 25%nat → view 3 (round3 c a) = keccak_round c (view 2 a).
Proof. by_lanes 2%nat. Qed.
Lemma round4_ref c a : length a = 25%nat → view 4 (round4 c a) = keccak_round c (view 3 a).
Proof. by_lanes 3%nat. Qed.

Lemma length_grid f : length (grid f) = 25%nat.
Proof. done. Qed.

Lemma length_round c a :
  length a = 25%nat →
  length (round1 c a) = 25%nat ∧ length (round2 c a) = 25%nat ∧ length (round3 c a) = 25%nat ∧ length (round4 c a) = 25%nat.
Proof. intros H. lanes a H. split_and!; reflexivity. Qed.

Lemma view_id k a : (k = 0 ∨ k = 4)%nat → length a = 25%nat → view k a = a.
Proof. intros [->| ->] H; lanes a H; reflexivity. Qed.

(** One iteration of the loop is four rounds. *)
Lemma four_rounds c1 c2 c3 c4 a :
  length a = 25%nat →
  round4 c4 (round3 c3 (round2 c2 (round1 c1 a)))
  = keccak_round c4 (keccak_round c3 (keccak_round c2 (keccak_round c1 a))).
Proof.
  intros H. pose proof (proj1 (length_round c1 a H)) as H1.
  pose proof (proj1 (proj2 (length_round c2 _ H1))) as H2.
  pose proof (proj1 (proj2 (proj2 (length_round c3 _ H2)))) as H3.
  pose proof (proj2 (proj2 (proj2 (length_round c4 _ H3)))) as H4.
  rewrite <- (view_id 4 (round4 _ _)) by (tauto || done).
  rewrite round4_ref, round3_ref, round2_ref, round1_ref, (view_id 0) by (tauto || done). done.
Qed.

(** The table of the source holds the constants of the standard. *)
Lemma rc_standard : rc = map round_constant (seq 0 24).
Proof. vm_compute. reflexivity. Qed.

Lemma length_keccak_round c a : length (keccak_round c a) = 25%nat.
Proof. unfold keccak_round, iota. by rewrite length_insert. Qed.

#[local] Opaque round1 round2 round3 round4.
#[local] Opaque keccak_round.

Lemma iteration_ref i a :
  length a = 25%nat → iteration a i = foldl (fun A j => keccak_round rc.[j] A) a (seq i 4).
Proof.
  intros H. unfold iteration. cbv zeta. rewrite four_rounds by done.
  rewrite (Nat.add_comm i 1), (Nat.add_comm i 2), (Nat.add_comm i 3). reflexivity.
Qed.

Lemma length_iteration i a : length a = 25%nat → length (iteration a i) = 25%nat.
Proof. intros H. rewrite iteration_ref by done. cbn. apply length_keccak_round. Qed.

Lemma iterations_ref n i a :
  length a = 25%nat →
  foldl iteration a (map (fun k => i + 4 * k)%nat (seq 0 n)) = foldl (fun A j => keccak_round rc.[j] A) a (seq i (4 * n)).
Proof.
  intros H. revert i a H. induction n as [|n IH]; intros i a H; [done|].
  replace (4 * S n)%nat with (4 + 4 * n)%nat by lia. rewrite seq_app, foldl_app.
  rewrite <- iteration_ref by done. cbn [seq map foldl]. rewrite Nat.mul_0_r, Nat.add_0_r, <- IH by (by apply length_iteration).
  f_equal. rewrite <- seq_shift, map_map. apply map_ext. lia.
Qed.

Lemma foldl_ext_in {A B} (f g : B → A → B) (l : list A) b :
  (∀ b x, x ∈ l → f b x = g b x) → foldl f b l = foldl g b l.
Proof.
  revert b. induction l as [|x l IH]; intros b H; cbn; [done|].
  rewrite H by (by left). apply IH. intros b' y Hy. apply H. by right.
Qed.

Lemma rc_lookup i : (i < 24)%nat → rc.[i] = round_constant i.
Proof.
  intros Hi. rewrite rc_standard. rewrite (nth_indep _ 0 (round_constant 0)) by (rewrite length_map, length_seq; lia).
  rewrite (map_nth round_constant), seq_nth by lia. done.
Qed.

#[local] Transparent keccak_round.

(** ** Lanes stay 64-bit words *)

Lemma in_u_bits n x : 0 ≤ n → (∀ i, n ≤ i → Z.testbit x i = false) → in_u n x.
Proof.
  intros Hn H. assert (x = x mod 2 ^ n) as ->; [|by apply wrapu_range].
  apply Z.bits_inj'. intros i Hi. destruct (Z.lt_ge_cases i n).
  - by rewrite Z.mod_pow2_bits_low.
  - rewrite Z.mod_pow2_bits_high by lia. by apply H.
Qed.

Lemma bits_in_u n x i : in_u n x → 0 ≤ n → n ≤ i → Z.testbit x i = false.
Proof.
  intros Hx Hn Hi. rewrite <- (wrapu_id n x) by done. unfold wrapu. by rewrite Z.mod_pow2_bits_high by lia.
Qed.

Lemma in_u_lxor n x y : 0 ≤ n → in_u n x → in_u n y → in_u n (x ⊕ y).
Proof. intros Hn Hx Hy. apply in_u_bits; [done|]. intros i Hi. by rewrite Z.lxor_spec, !(bits_in_u n). Qed.

Lemma in_u_ldiff n x y : 0 ≤ n → in_u n x → in_u n (x &~ y).
Proof. intros Hn Hx. apply in_u_bits; [done|]. intros i Hi. by rewrite Z.ldiff_spec, (bits_in_u n x). Qed.

(** [rot] rotates the bits of a word. *)
Lemma testbit_rot n t i :
  in_u 64 t → 0 < n < 64 → 0 ≤ i < 64 → Z.testbit (rot n t) i = Z.testbit t ((i - n) mod 64).
Proof.
  intros Ht Hn Hi. unfold rot, wrapu. rewrite Z.lor_spec, Z.mod_pow2_bits_low, Z.shiftl_spec, Z.shiftr_spec by lia.
  destruct (Z.lt_ge_cases i n).
  - rewrite (Z.testbit_neg_r t (i - n)) by lia. cbn [orb]. f_equal.
    apply Z.mod_unique with (-1); lia.
  - rewrite (bits_in_u 64 t (i + (64 - n))) by (done || lia). rewrite orb_false_r, Z.mod_small by lia. done.
Qed.

Lemma in_u_rot n t : in_u 64 t → 0 ≤ n ≤ 64 → in_u 64 (rot n t).
Proof.
  intros Ht Hn. apply in_u_bits; [lia|]. intros i Hi. unfold rot, wrapu.
  rewrite Z.lor_spec, Z.mod_pow2_bits_high, Z.shiftr_spec by lia. by rewrite (bits_in_u 64) by (done || lia).
Qed.

(** A state of 25 words. *)
Definition words (a : list Z) : Prop := length a = 25%nat ∧ Forall (in_u 64) a.

Lemma words_lane a x y : words a → in_u 64 (lane a x y).
Proof.
  intros [Hl Hf]. unfold lane. pose proof (Nat.mod_upper_bound x 5 ltac:(lia)). pose proof (Nat.mod_upper_bound y 5 ltac:(lia)).
  rewrite List.Forall_forall in Hf. apply Hf, nth_In. lia.
Qed.

Lemma words_grid f : (∀ x y, in_u 64 (f x y)) → words (grid f).
Proof.
  intros H. split; [done|]. unfold grid. apply Forall_map, List.Forall_forall. intros i _. apply H.
Qed.

Lemma rho_offset_range x y : 0 ≤ lane rho_offsets x y ≤ 64.
Proof.
  unfold lane. assert (Forall (fun z => 0 ≤ z ≤ 64) rho_offsets) as H by (vm_compute; repeat constructor; discriminate).
  pose proof (Nat.mod_upper_bound x 5 ltac:(lia)). pose proof (Nat.mod_upper_bound y 5 ltac:(lia)).
  rewrite List.Forall_forall in H. apply H, nth_In. change (length rho_offsets) with 25%nat. lia.
Qed.

Lemma words_round c A : in_u 64 c → words A → words (keccak_round c A).
Proof.
  intros Hc HA. unfold keccak_round.
  assert (∀ A x, words A → in_u 64 (column A x)) as Hcol.
  { intros B x HB. unfold column. repeat apply in_u_lxor; try lia; by apply words_lane. }
  assert (words (theta A)) as Ht.
  { apply words_grid. intros x y. apply in_u_lxor; [lia|by apply words_lane|].
    apply in_u_lxor; [lia|by apply Hcol|]. apply in_u_rot; [by apply Hcol|lia]. }
  assert (words (pi (rho (theta A)))) as Hp.
  { apply words_grid. intros x y. apply words_lane, words_grid. intros x' y'. unfold rotl.
    destruct (_ =? 0); [by apply words_lane|]. apply in_u_rot; [by apply words_lane|apply rho_offset_range]. }
  assert (words (chi (pi (rho (theta A))))) as Hx.
  { rewrite chi_ldiff. apply words_grid. intros x y. apply in_u_lxor; [lia|by apply words_lane|].
    apply in_u_ldiff; [lia|by apply words_lane]. }
  destruct Hx as [Hl Hf]. unfold iota. split; [by rewrite length_insert|].
  apply Forall_insert; [done|]. apply in_u_lxor; [lia| |done].
  change (in_u 64 (lane (chi (pi (rho (theta A)))) 0 0)). by apply words_lane.
Qed.

#[local] Opaque keccak_round round_constant.

Lemma words_keccak_f A : words A → words (keccak_f A).
Proof.
  intros H. unfold keccak_f. assert (∀ i, i ∈ seq 0 24 → in_u 64 (round_constant i)) as Hc.
  { intros i [_ Hi]%elem_of_seq. rewrite <- rc_lookup by lia.
    assert (Forall (in_u 64) rc) as Hr by (unfold rc; repeat constructor; unfold in_u; lia).
    rewrite List.Forall_forall in Hr. apply Hr, nth_In. change (length rc) with 24%nat. lia. }
  revert A H. induction (seq 0 24) as [|i l IH]; intros A H; cbn [foldl]; [exact H|].
  apply IH; [intros j Hj; apply Hc; by right|]. apply words_round; [apply Hc; by left|done].
Qed.

(** The permutation of the source, as the other files use it. *)
Lemma keccakF1600_ref a : length a = 25%nat → keccakF1600 a = keccak_f a.
Proof.
  intros H. unfold keccakF1600, keccak_f. rewrite (iterations_ref 6 0) by done.
  apply foldl_ext_in. intros b i [_ Hi]%elem_of_seq. by rewrite rc_lookup.
Qed.

Lemma words_keccakF1600 a : words a → words (keccakF1600 a).
Proof. intros H. rewrite keccakF1600_ref by apply H. by apply words_keccak_f. Qed.

(** C10: the permutation of the source, four unrolled rounds at a time, in place
    and with merged steps, is the permutation Keccak-f[1600] of the standard on
    every state of 25 lanes, and 64-bit lanes stay 64-bit lanes. *)
Theorem keccakF1600_is_keccak_f a :
  length a = 25%nat → keccakF1600 a = keccak_f a ∧ (words a → words (keccakF1600 a)).
Proof. intros H. split; [by apply keccakF1600_ref|by apply words_keccakF1600]. Qed.

Lemma keccakF1600_is_keccak_f_witness :
  keccakF1600 (replicate 25 0) = keccak_f (replicate 25 0)
  ∧ (words (replicate 25 0) → words (keccakF1600 (replicate 25 0))).
Proof. apply (keccakF1600_is_keccak_f (replicate 25 0)). reflexivity. Defined.

(** The first lanes of the permutation of zero, from the published test vectors. *)
Example keccakF1600_zero :
  take 3 (keccakF1600 (replicate 25 0)) = [0xF1258F7940E1DDE7; 0x84D5CCF933C0478A; 0xD598261EA65AA9EE].
Proof. vm_compute. reflexivity. Qed.
