(* ===== verification/Sponge.v ===== *)
(** * Sponge: the hash functions SHA-3, Keccak and SHAKE

    Models framework/crypto/sha3: the sponge of sha3.go with its buffer, the two
    ways of moving bytes in and out of the state (xor_generic.go and
    xor_unaligned.go, one of which the build chooses), and the instances of
    hashes.go and shake.go.

    [d.buf] is a slice of [d.storage]: an offset and a length, with the capacity
    that is left behind the offset.  A nil buffer is the empty slice at offset 0;
    the code treats the two alike.  The reference is the sponge construction of
    FIPS 202 on the padded message. *)
From S2P Require Import Prelude Keccak.

(** ** Words and bytes, little endian *)

Definition le64 (z : Z) : bytes := map (fun k => byte_of_Z (z / 256 ^ Z.of_nat k)) (seq 0 8).
Definition le_decode (l : bytes) : Z := foldr (fun b z => Z_of_byte b + 256 * z) 0 l.

(** The [i]-th word of a byte slice. *)
Definition word_at (b : bytes) (i : nat) : Z := le_decode (take 8 (drop (8 * i) b)).

Definition maxRate : nat := 168.

(** ** Moving bytes in and out (xor.go) *)

Class SpongeIO := {
  xorIn : list Z → bytes → list Z;     (* xorIn(d, buf): the new d.a *)
  copyOut : list Z → bytes → bytes     (* copyOut(d, buf): the new contents of buf *)
}.

(** The loop of [xorInGeneric], for [n] words from the [i]-th. *)
Fixpoint xor_words (n i : nat) (buf : bytes) (a : list Z) : list Z :=
  match n with
  | O => a
  | S n => xor_words n (S i) (drop 8 buf) a.[i <- a.[i] ⊕ le_decode (take 8 buf)]
  end.
Definition xorInGeneric (a : list Z) (buf : bytes) : list Z := xor_words (length buf / 8) 0 buf a.

Fixpoint put_words (n i : nat) (a : list Z) (b : bytes) : bytes :=
  match n with
  | O => b
  | S n => le64 a.[i] ++ put_words n (S i) a (drop 8 b)
  end.
Definition copyOutGeneric (a : list Z) (b : bytes) : bytes := put_words (length b / 8) 0 a b.

(** Through pointers, on little-endian machines. *)
Definition xor_at (bw : nat → Z) (a : list Z) (i : nat) : list Z := a.[i <- a.[i] ⊕ bw i].
Definition xorInUnaligned (a : list Z) (buf : bytes) : list Z :=
  let bw := word_at buf in
  let n := length buf in
  let a := if bool_decide (72 ≤ n)%nat then foldl (xor_at bw) a [0; 1; 2; 3; 4; 5; 6; 7; 8]%nat else a in
  let a := if bool_decide (104 ≤ n)%nat then foldl (xor_at bw) a [9; 10; 11; 12]%nat else a in
  let a := if bool_decide (136 ≤ n)%nat then foldl (xor_at bw) a [13; 14; 15; 16]%nat else a in
  let a := if bool_decide (144 ≤ n)%nat then foldl (xor_at bw) a [17]%nat else a in
  let a := if bool_decide (168 ≤ n)%nat then foldl (xor_at bw) a [18; 19; 20]%nat else a in
  a.

(** The memory of [d.a]. *)
Definition memory (a : list Z) : bytes := concat (map le64 a).
Definition copyOutUnaligned (a : list Z) (buf : bytes) : bytes := (copy_at buf 0 (take maxRate (memory a))).1.

Definition generic_io : SpongeIO := {| xorIn := xorInGeneric; copyOut := copyOutGeneric |}.
Definition unaligned_io : SpongeIO := {| xorIn := xorInUnaligned; copyOut := copyOutUnaligned |}.

(** ** sha3.go *)

Inductive spongeDirection := spongeAbsorbing | spongeSqueezing.
#[global] Instance spongeDirection_eq_dec : EqDecision spongeDirection.
Proof. solve_decision. Defined.

Record state := mkState {
  st_a : list Z;
  st_storage : bytes;
  st_off : nat;              (* d.buf = d.storage[st_off : st_off+st_len] *)
  st_len : nat;
  st_rate : nat;
  st_dsbyte : byte;
  st_outputLen : nat;
  st_dir : spongeDirection
}.

Definition buf (d : state) : bytes := take (st_len d) (drop (st_off d) (st_storage d)).
Definition cap_buf (d : state) : nat := maxRate - st_off d.

Definition set_buf (d : state) (off len : nat) : state :=
  mkState (st_a d) (st_storage d) off len (st_rate d) (st_dsbyte d) (st_outputLen d) (st_dir d).
Definition set_a (d : state) (a : list Z) : state :=
  mkState a (st_storage d) (st_off d) (st_len d) (st_rate d) (st_dsbyte d) (st_outputLen d) (st_dir d).
Definition set_storage (d : state) (s : bytes) : state :=
  mkState (st_a d) s (st_off d) (st_len d) (st_rate d) (st_dsbyte d) (st_outputLen d) (st_dir d).
Definition set_dir (d : state) (x : spongeDirection) : state :=
  mkState (st_a d) (st_storage d) (st_off d) (st_len d) (st_rate d) (st_dsbyte d) (st_outputLen d) x.

Definition BlockSize (d : state) : nat := st_rate d.
Definition Size (d : state) : nat := st_outputLen d.

(** [&state{rate: .., outputLen: .., dsbyte: ..}]. *)
Definition new_state (rate outputLen : nat) (dsbyte : byte) : state :=
  mkState (replicate 25 0) (replicate maxRate Byte.x00) 0 0 rate dsbyte outputLen spongeAbsorbing.

Definition Reset (d : state) : state := set_buf (set_dir (set_a d (replicate 25 0)) spongeAbsorbing) 0 0.

(** [ret.buf] points into the copy's own storage, at bounds that must fit it. *)
Definition clone (d : state) : res state :=
  match st_dir d with
  | spongeAbsorbing => Ok (set_buf d 0 (st_len d))
  | spongeSqueezing =>
      let lo := Z.of_nat (st_rate d) - Z.of_nat (cap_buf d) in
      if bool_decide (0 ≤ lo ≤ Z.of_nat (st_rate d))
      then Ok (set_buf d (Z.to_nat lo) (st_rate d - Z.to_nat lo))
      else Panic "slice bounds out of range"
  end.

Section Sponge.
Context {IO : SpongeIO}.

(** [copyOut(d, d.buf)]. *)
Definition copy_out_buf (d : state) : state :=
  set_storage d (take (st_off d) (st_storage d) ++ copyOut (st_a d) (buf d) ++ drop (st_off d + st_len d) (st_storage d)).

Definition permute (d : state) : state :=
  match st_dir d with
  | spongeAbsorbing =>
      let d := set_a d (xorIn (st_a d) (buf d)) in
      let d := set_buf d 0 0 in
      set_a d (keccakF1600 (st_a d))
  | spongeSqueezing =>
      let d := set_a d (keccakF1600 (st_a d)) in
      let d := set_buf d 0 (st_rate d) in
      copy_out_buf d
  end.

(** [d.buf = append(d.buf, p...)], within the capacity. *)
Definition append_buf (d : state) (p : bytes) : state :=
  set_buf (set_storage d (copy_at (st_storage d) (st_off d + st_len d) p).1) (st_off d) (st_len d + length p).

Definition padAndPermute (dsbyte : byte) (d : state) : state :=
  let d := append_buf d [dsbyte] in
  let zerosStart := st_len d in
  let d := set_buf d 0 (st_rate d) in
  let d := set_storage d (copy_at (st_storage d) zerosStart (replicate (st_rate d - zerosStart) Byte.x00)).1 in
  let last := default Byte.x00 (st_storage d !! (st_rate d - 1)%nat) in
  let d := set_storage d (<[(st_rate d - 1)%nat := byte_of_Z (Z_of_byte last ⊕ 0x80)]> (st_storage d)) in
  let d := permute d in
  let d := set_dir d spongeSqueezing in
  let d := set_buf d 0 (st_rate d) in
  copy_out_buf d.

(** The loop of [Write]; a round takes at least one byte of [p], so [length p]
    rounds are enough. *)
Fixpoint write_loop (fuel : nat) (p : bytes) (d : state) : state :=
  match fuel, p with
  | O, _ | _, [] => d
  | S fuel, _ =>
      if bool_decide (st_len d = 0)%nat && bool_decide (st_rate d ≤ length p)%nat then
        let d := set_a d (xorIn (st_a d) (take (st_rate d) p)) in
        let p := drop (st_rate d) p in
        write_loop fuel p (set_a d (keccakF1600 (st_a d)))
      else
        let todo := Nat.min (st_rate d - st_len d) (length p) in
        let d := append_buf d (take todo p) in
        let p := drop todo p in
        write_loop fuel p (if bool_decide (st_len d = st_rate d) then permute d else d)
  end.

Definition Write (p : bytes) (d : state) : res state :=
  match st_dir d with
  | spongeAbsorbing => Ok (write_loop (length p) p d)
  | spongeSqueezing => Panic "sha3: write to sponge after read"
  end.

(** The loop of [Read] for [len(out) = n]: what goes into [out]. *)
Fixpoint read_loop (fuel n : nat) (d : state) : bytes * state :=
  match fuel, n with
  | O, _ | _, O => ([], d)
  | S fuel, _ =>
      let k := Nat.min n (st_len d) in
      let piece := take k (buf d) in
      let d := set_buf d (st_off d + k) (st_len d - k) in
      let d := if bool_decide (st_len d = 0)%nat then permute d else d in
      let '(out, d) := read_loop fuel (n - k) d in
      (piece ++ out, d)
  end.

Definition Read (n : nat) (d : state) : bytes * state :=
  let d := match st_dir d with spongeAbsorbing => padAndPermute (st_dsbyte d) d | spongeSqueezing => d end in
  read_loop n n d.

(** [Sum(in)]: [d] is not touched. *)
Definition Sum (prefix : bytes) (d : state) : res bytes :=
  dup ← clone d;
  let '(hash, _) := Read (st_outputLen dup) dup in
  Ok (prefix ++ hash).

(** ** hashes.go and shake.go *)

Definition NewKeccak256 : state := new_state 136 32 Byte.x01.
Definition NewKeccak512 : state := new_state 72 64 Byte.x01.
Definition New224 : state := new_state 144 28 Byte.x06.
Definition New256 : state := new_state 136 32 Byte.x06.
Definition New384 : state := new_state 104 48 Byte.x06.
Definition New512 : state := new_state 72 64 Byte.x06.
Definition NewShake128 : state := new_state 168 0 Byte.x1f.
Definition NewShake256 : state := new_state 136 0 Byte.x1f.

(** [h := New..(); h.Write(data); h.Sum(digest[:0])]. *)
Definition sum_with (h : state) (data : bytes) : res bytes := h ← Write data h; Sum [] h.
Definition Sum224 (data : bytes) : res bytes := sum_with New224 data.
Definition Sum256 (data : bytes) : res bytes := sum_with New256 data.
Definition Sum384 (data : bytes) : res bytes := sum_with New384 data.
Definition Sum512 (data : bytes) : res bytes := sum_with New512 data.

(** [ShakeSum..(hash, data)] fills the [n] bytes of [hash]. *)
Definition shake_with (h : state) (n : nat) (data : bytes) : res bytes := h ← Write data h; Ok (Read n h).1.
Definition ShakeSum128 (n : nat) (data : bytes) : res bytes := shake_with NewShake128 n data.
Definition ShakeSum256 (n : nat) (data : bytes) : res bytes := shake_with NewShake256 n data.

End Sponge.

(** ** The standard *)

(** The rates of the standard, in bytes. *)
Definition rate_ok (r : nat) : Prop := (r = 72 ∨ r = 104 ∨ r = 136 ∨ r = 144 ∨ r = 168)%nat.

(** The state with a block added to its first words. *)
Definition xor_block (a : list Z) (b : bytes) : list Z :=
  imap (fun i z => if bool_decide (i < length b / 8)%nat then z ⊕ word_at b i else z) a.

(** Absorb the full blocks of a message; the rest is left over. *)
Fixpoint absorb_fuel (n r : nat) (a : list Z) (m : bytes) : list Z * bytes :=
  match n with
  | O => (a, m)
  | S n =>
      if bool_decide (length m < r)%nat then (a, m)
      else absorb_fuel n r (keccak_f (xor_block a (take r m))) (drop r m)
  end.
Definition absorb (r : nat) (a : list Z) (m : bytes) : list Z * bytes := absorb_fuel (length m) r a m.

(** The domain byte carries the first 1 of the padding 10..01. *)
Definition padding (r : nat) (ds : byte) (len : nat) : bytes :=
  let q := (r - len mod r)%nat in
  if bool_decide (q = 1)%nat then [byte_of_Z (Z_of_byte ds ⊕ 0x80)]
  else ds :: replicate (q - 2) Byte.x00 ++ [Byte.x80].

(** Byte [i] of the output that is squeezed out of a state. *)
Definition out_byte (r : nat) (a : list Z) (i : nat) : byte :=
  nth (i mod r) (memory (Nat.iter (i / r) keccak_f a)) Byte.x00.
Definition squeeze (r : nat) (a : list Z) (from n : nat) : bytes := map (out_byte r a) (seq from n).

Definition sponge_state (r : nat) (ds : byte) (m : bytes) : list Z :=
  (absorb r (replicate 25 0) (m ++ padding r ds (length m))).1.
Definition sponge (r : nat) (ds : byte) (n : nat) (m : bytes) : bytes := squeeze r (sponge_state r ds m) 0 n.

(** ** Moving bytes: the two implementations agree *)

Class SpongeIOLaws (IO : SpongeIO) : Prop := {
  xorIn_ok a b : length a = 25%nat → rate_ok (length b) → xorIn a b = xor_block a b;
  copyOut_ok a b : length a = 25%nat → rate_ok (length b) → copyOut a b = take (length b) (memory a)
}.

Lemma length_xor_block a b : length (xor_block a b) = length a.
Proof. unfold xor_block. by rewrite length_imap. Qed.

Lemma lookup_xor_at bw l a j :
  NoDup l → (∀ i, i ∈ l → (i < length a)%nat) →
  foldl (xor_at bw) a l !! j = if decide (j ∈ l) then (fun z => z ⊕ bw j) <$> a !! j else a !! j.
Proof.
  revert a. induction l as [|i l IH]; intros a Hnd Hl; cbn [foldl]; [done|].
  apply list.NoDup_cons in Hnd as [Hi Hnd].
  assert (i < length a)%nat as Hia by (apply Hl; by left).
  rewrite IH by (try done; intros k Hk; unfold xor_at; rewrite length_insert; apply Hl; by right).
  unfold xor_at. destruct (decide (j = i)) as [->|Hne].
  - rewrite decide_False, decide_True by (done || by left). rewrite list_lookup_insert_eq by done.
    destruct (lookup_lt_is_Some_2 a i Hia) as [z Hz]. by rewrite (nth_lookup_Some _ _ 0 _ Hz), Hz.
  - rewrite list_lookup_insert_ne by done.
    destruct (decide (j ∈ l)); [rewrite decide_True by (by right)|rewrite decide_False by (by intros [|]%elem_of_cons)]; done.
Qed.

Lemma xor_words_foldl n i b a : xor_words n i b a = foldl (xor_at (fun j => word_at b (j - i))) a (seq i n).
Proof.
  revert i b a. induction n as [|n IH]; intros i b a; cbn [xor_words seq foldl]; [done|]. rewrite IH.
  assert (xor_at (fun j => word_at b (j - i)) a i = a.[i <- a.[i] ⊕ le_decode (take 8 b)]) as ->
    by (unfold xor_at; by rewrite Nat.sub_diag).
  apply foldl_ext_in. intros a' j [Hj _]%elem_of_seq. unfold xor_at, word_at. rewrite drop_drop. do 5 f_equal. lia.
Qed.

(** Adding the first [n] words is adding the block. *)
Lemma xor_seq_block a b :
  (length b / 8 ≤ length a)%nat → foldl (xor_at (word_at b)) a (seq 0 (length b / 8)) = xor_block a b.
Proof.
  intros H. apply list_eq. intros j. rewrite lookup_xor_at.
  - unfold xor_block. rewrite list_lookup_imap. destruct (a !! j) as [z|] eqn:E; cbn; [|by destruct (decide _)].
    case_bool_decide; [rewrite decide_True by (apply elem_of_seq; lia)|rewrite decide_False by (rewrite elem_of_seq; lia)]; done.
  - apply NoDup_seq.
  - intros i [_ Hi]%elem_of_seq. lia.
Qed.

Lemma rate_div r : rate_ok r → (0 < r ≤ 168 ∧ r = 8 * (r / 8) ∧ r / 8 ≤ 21)%nat.
Proof. intros [-> | [-> | [-> | [-> | ->]]]]; cbn; lia. Qed.

Lemma length_le64 z : length (le64 z) = 8%nat.
Proof. done. Qed.

Lemma length_memory a : length (memory a) = (8 * length a)%nat.
Proof. unfold memory. induction a as [|z a IH]; cbn; [done|]. rewrite IH. lia. Qed.

Lemma take_memory k a : take (8 * k) (memory a) = memory (take k a).
Proof.
  revert a. induction k as [|k IH]; intros a; [by rewrite Nat.mul_0_r, !take_0|].
  destruct a as [|z a]; [by rewrite !take_nil|].
  change (memory (z :: a)) with (le64 z ++ memory a). change (memory (take (S k) (z :: a))) with (le64 z ++ memory (take k a)).
  rewrite <- IH. replace (8 * S k)%nat with (length (le64 z) + 8 * k)%nat by (rewrite length_le64; lia).
  by rewrite take_app_add.
Qed.

Lemma put_words_memory n i a b :
  length b = (8 * n)%nat → (i + n ≤ length a)%nat → put_words n i a b = memory (take n (drop i a)).
Proof.
  revert i b. induction n as [|n IH]; intros i b Hb Hi; cbn [put_words].
  { rewrite Nat.mul_0_r in Hb. by apply nil_length_inv in Hb as ->. }
  rewrite IH by (rewrite ?length_drop; lia).
  destruct (lookup_lt_is_Some_2 a i ltac:(lia)) as [z Hz]. rewrite (nth_lookup_Some _ _ 0 _ Hz).
  rewrite (drop_S _ _ _ Hz). done.
Qed.

#[global] Instance generic_laws : SpongeIOLaws generic_io.
Proof.
  split; intros a b Ha Hb; cbn [xorIn copyOut generic_io unaligned_io]; destruct (rate_div _ Hb) as (Hr & H8 & Hn).
  - unfold xorInGeneric. rewrite xor_words_foldl.
    rewrite (foldl_ext_in _ (xor_at (word_at b))) by (intros; unfold xor_at; by rewrite Nat.sub_0_r).
    apply xor_seq_block. lia.
  - unfold copyOutGeneric. rewrite put_words_memory by lia. rewrite drop_0, <- take_memory. f_equal. lia.
Qed.

#[global] Instance unaligned_laws : SpongeIOLaws unaligned_io.
Proof.
  split; intros a b Ha Hb; cbn [xorIn copyOut generic_io unaligned_io]; destruct (rate_div _ Hb) as (Hr & H8 & Hn).
  - rewrite <- xor_seq_block by lia. unfold xorInUnaligned. cbv zeta.
    destruct Hb as [E|[E|[E|[E|E]]]]; rewrite E;
      repeat (case_bool_decide; [|try lia]); try lia; rewrite <- ?foldl_app; apply (f_equal (foldl _ a)); reflexivity.
  - unfold copyOutUnaligned, copy_at. rewrite Nat.sub_0_r, length_take, length_memory, Ha. cbn [fst take].
    unfold maxRate. replace (Nat.min (length b) (Nat.min 168 (8 * 25))) with (length b) by lia.
    rewrite take_take, drop_ge, app_nil_r by lia. rewrite take_0, Nat.min_l by lia. done.
Qed.

#[local] Arguments copy_at : simpl never.
#[local] Arguments absorb : simpl never.
#[local] Arguments Nat.div : simpl never.
#[local] Arguments Nat.modulo : simpl never.
#[local] Arguments maxRate : simpl never.

(** ** Absorbing *)

Lemma absorb_fuel_enough n1 n2 r a m :
  (0 < r)%nat → (length m ≤ n1)%nat → (length m ≤ n2)%nat → absorb_fuel n1 r a m = absorb_fuel n2 r a m.
Proof.
  intros Hr. revert n2 a m. induction n1 as [|n1 IH]; intros n2 a m H1 H2.
  - assert (m = []) as -> by (apply nil_length_inv; lia). destruct n2; cbn [absorb_fuel]; [done|].
    by rewrite bool_decide_eq_true_2.
  - destruct n2 as [|n2]; cbn [absorb_fuel].
    + assert (m = []) as -> by (apply nil_length_inv; lia). by rewrite bool_decide_eq_true_2.
    + case_bool_decide; [done|]. apply IH; rewrite length_drop; lia.
Qed.

Lemma absorb_short r a m : (length m < r)%nat → absorb r a m = (a, m).
Proof. intros H. unfold absorb. destruct (length m) eqn:E; cbn [absorb_fuel]; [done|]. by rewrite bool_decide_eq_true_2 by lia. Qed.

Lemma absorb_block r a b m :
  (0 < r)%nat → length b = r → absorb r a (b ++ m) = absorb r (keccak_f (xor_block a b)) m.
Proof.
  intros Hr Hb. unfold absorb. rewrite length_app. destruct (length b) as [|k] eqn:E; [lia|].
  cbn [Nat.add absorb_fuel]. rewrite bool_decide_eq_false_2 by (rewrite length_app; lia).
  rewrite take_app_length', drop_app_length' by lia. apply absorb_fuel_enough; lia.
Qed.

Lemma absorb_app r a m p :
  (0 < r)%nat → absorb r a (m ++ p) = absorb r (absorb r a m).1 ((absorb r a m).2 ++ p).
Proof.
  intros Hr. remember (length m) as n eqn:En. revert a m En. induction n as [n IH] using lt_wf_ind. intros a m ->.
  destruct (Nat.lt_ge_cases (length m) r); [by rewrite (absorb_short r a m)|].
  assert (length (take r m) = r) as Ht by (rewrite length_take; lia).
  assert (length (drop r m) < length m)%nat as Hd by (rewrite length_drop; lia).
  pose proof (IH _ Hd (keccak_f (xor_block a (take r m))) _ eq_refl) as E.
  rewrite <- (absorb_block r a (take r m) (drop r m ++ p)), <- (absorb_block r a (take r m) (drop r m)) in E by done.
  by rewrite app_assoc, take_drop in E.
Qed.

Lemma length_keccak_f a : length a = 25%nat → length (keccak_f a) = 25%nat.
Proof.
  intros H. unfold keccak_f. rewrite <- (rev_involutive (seq 0 24)). generalize (rev (seq 0 24)). intros l.
  destruct l as [|i l]; cbn [rev]; [done|]. rewrite foldl_app. apply length_keccak_round.
Qed.

#[local] Opaque keccakF1600 keccak_f.

Section SpongeOk.
Context {IO : SpongeIO} `{!SpongeIOLaws IO}.

(** What every operation keeps. *)
Definition shape (d : state) : Prop :=
  length (st_a d) = 25%nat ∧ length (st_storage d) = maxRate ∧ rate_ok (st_rate d).

(** The hash of a message of which [m] has been written. *)
Record absorbed (m : bytes) (d : state) : Prop := {
  abs_shape : shape d;
  abs_dir : st_dir d = spongeAbsorbing;
  abs_off : st_off d = 0%nat;
  abs_len : (st_len d < st_rate d)%nat;
  abs_state : absorb (st_rate d) (replicate 25 0) m = (st_a d, buf d)
}.

(** The fields that never change. *)
Definition same_kind (d d' : state) : Prop :=
  st_rate d' = st_rate d ∧ st_dsbyte d' = st_dsbyte d ∧ st_outputLen d' = st_outputLen d.

Lemma same_kind_trans d1 d2 d3 : same_kind d1 d2 → same_kind d2 d3 → same_kind d1 d3.
Proof. intros (? & ? & ?) (? & ? & ?). split_and!; congruence. Qed.

Lemma length_buf d : length (st_storage d) = maxRate → (st_off d + st_len d ≤ maxRate)%nat → length (buf d) = st_len d.
Proof. intros H1 H2. unfold buf. rewrite length_take, length_drop. lia. Qed.

Lemma buf_append d p :
  length (st_storage d) = maxRate → st_off d = 0%nat → (st_len d + length p ≤ maxRate)%nat →
  buf (append_buf d p) = buf d ++ p.
Proof.
  intros H1 H2 H3. unfold buf, append_buf. cbn. rewrite H2, !drop_0. cbn [Nat.add].
  rewrite copy_at_fits by lia. cbn [fst].
  assert (length (take (st_len d) (st_storage d)) = st_len d) as E by (rewrite length_take; lia).
  rewrite <- E at 1. rewrite take_app_add. by rewrite take_app_length.
Qed.

Lemma new_absorbed r n ds : rate_ok r → absorbed [] (new_state r n ds).
Proof.
  intros H. pose proof (rate_div r H). split; cbn; try done. lia.
Qed.

(** A full block, from the buffer or from the input. *)
Lemma absorb_full m d b :
  absorbed m d → length (buf d ++ b) = st_rate d →
  absorb (st_rate d) (replicate 25 0) (m ++ b) = (keccakF1600 (xorIn (st_a d) (buf d ++ b)), []).
Proof.
  intros [(Ha & Hs & Hr) Hd Ho Hl Hm] Hb. destruct (rate_div _ Hr) as (H0 & _).
  rewrite absorb_app, Hm by lia. cbn [fst snd]. rewrite <- (app_nil_r (buf d ++ b)), absorb_block, app_nil_r by (done || lia).
  rewrite absorb_short by (cbn; lia). rewrite xorIn_ok by (rewrite ?Hb; done).
  rewrite keccakF1600_ref by (by rewrite length_xor_block). done.
Qed.

Lemma absorb_partial m d b :
  absorbed m d → (length (buf d ++ b) < st_rate d)%nat →
  absorb (st_rate d) (replicate 25 0) (m ++ b) = (st_a d, buf d ++ b).
Proof.
  intros [(Ha & Hs & Hr) Hd Ho Hl Hm] Hb. destruct (rate_div _ Hr) as (H0 & _).
  rewrite absorb_app, Hm by lia. by rewrite absorb_short.
Qed.

Lemma permute_absorbing d :
  st_dir d = spongeAbsorbing →
  permute d = mkState (keccakF1600 (xorIn (st_a d) (buf d))) (st_storage d) 0 0 (st_rate d) (st_dsbyte d) (st_outputLen d) spongeAbsorbing.
Proof. intros H. unfold permute. rewrite H. unfold set_a, set_buf. cbn [st_a st_storage st_rate st_dsbyte st_outputLen st_dir]. by rewrite H. Qed.

Lemma write_loop_ok fuel p d m :
  (length p ≤ fuel)%nat → absorbed m d →
  absorbed (m ++ p) (write_loop fuel p d) ∧ same_kind d (write_loop fuel p d).
Proof.
  revert p d m. induction fuel as [|fuel IH]; intros p d m Hp H.
  { assert (p = []) as -> by (apply nil_length_inv; lia). by rewrite app_nil_r. }
  destruct p as [|b p]; [by rewrite app_nil_r|]. cbn [write_loop]. set (q := b :: p) in *.
  assert (0 < length q)%nat as Hq by (cbn; lia).
  pose proof H as [(Ha & Hs & Hr) Hd Ho Hl Hm]. destruct (rate_div _ Hr) as (H0 & _). assert (0 < st_rate d)%nat as H0' by lia.
  pose proof (length_buf d Hs ltac:(unfold maxRate; lia)) as Hlb.
  destruct (bool_decide _ && bool_decide _) eqn:E.
  - apply andb_true_iff in E as [E1%bool_decide_eq_true E2%bool_decide_eq_true].
    assert (buf d = []) as Hb by (apply nil_length_inv; lia).
    cbv zeta. set (d' := set_a (set_a d _) _).
    assert (absorbed (m ++ take (st_rate d) q) d') as H'.
    { pose proof (absorb_full m d (take (st_rate d) q) H) as Hf. rewrite Hb in Hf.
      rewrite app_nil_l in Hf. specialize (Hf ltac:(rewrite length_take; lia)).
      split; try done; [split_and!; try done|].
      - cbn. rewrite keccakF1600_ref by (rewrite xorIn_ok, length_xor_block; rewrite ?length_take; (done || by rewrite Nat.min_l)).
        apply length_keccak_f. rewrite xorIn_ok, length_xor_block; [done|done|]. rewrite length_take, Nat.min_l by lia. done.
      - cbn [st_rate set_a d']. rewrite Hf. f_equal. change (buf d') with (buf d). done. }
    destruct (IH (drop (st_rate d) q) d' _ ltac:(rewrite length_drop; lia) H') as [H1 H2].
    rewrite <- app_assoc, take_drop in H1. split; [exact H1|exact H2].
  - clear E. cbv zeta. set (todo := Nat.min (st_rate d - st_len d) (length q)). set (d1 := append_buf d (take todo q)).
    assert (0 < todo)%nat as Ht by (unfold todo; lia).
    assert (length (take todo q) = todo) as Hlt by (rewrite length_take; unfold todo; lia).
    assert (buf d1 = buf d ++ take todo q) as Hb1 by (apply buf_append; [done|done|unfold maxRate; unfold todo in *; lia]).
    assert (length (buf d ++ take todo q) = (st_len d + todo)%nat) as Hlb1 by (rewrite length_app; lia).
    match goal with |- context [write_loop fuel _ ?x] => set (d' := x) end.
    assert (absorbed (m ++ take todo q) d' ∧ same_kind d d') as [H' Hk].
    { unfold d'. cbn [st_len st_rate d1 append_buf set_buf set_storage]. rewrite Hlt. case_bool_decide as Hfull.
      - pose proof (absorb_full m d (take todo q) H ltac:(lia)) as Hf.
        assert (length (xorIn (st_a d) (buf d ++ take todo q)) = 25%nat) as Hx
          by (rewrite xorIn_ok, length_xor_block; [exact Ha|exact Ha|rewrite Hlb1, Hfull; exact Hr]).
        rewrite (permute_absorbing d1 Hd), Hb1. split; [|by split_and!].
        split; [split_and!| | | |].
        + change (length (keccakF1600 (xorIn (st_a d) (buf d ++ take todo q))) = 25%nat).
          rewrite keccakF1600_ref by exact Hx. by apply length_keccak_f.
        + change (length (copy_at (st_storage d) (st_off d + st_len d) (take todo q)).1 = maxRate). by rewrite length_copy_at.
        + exact Hr.
        + reflexivity.
        + reflexivity.
        + exact H0'.
        + exact Hf.
      - split; [|by split_and!]. split; [split_and!| | | |].
        + exact Ha.
        + change (length (copy_at (st_storage d) (st_off d + st_len d) (take todo q)).1 = maxRate). by rewrite length_copy_at.
        + exact Hr.
        + exact Hd.
        + exact Ho.
        + change (st_len d + length (take todo q) < st_rate d)%nat. unfold todo in *. lia.
        + rewrite Hb1. apply (absorb_partial m d (take todo q) H). unfold todo in *. lia. }
    destruct (IH (drop todo q) d' _ ltac:(rewrite length_drop; lia) H') as [H1 H2].
    rewrite <- app_assoc, take_drop in H1. split; [exact H1|]. by eapply same_kind_trans.
Qed.

Lemma Write_ok p d m :
  absorbed m d → ∃ d', Write p d = Ok d' ∧ absorbed (m ++ p) d' ∧ same_kind d d'.
Proof.
  intros H. unfold Write. rewrite (abs_dir _ _ H). eexists. split; [done|]. by apply write_loop_ok.
Qed.


(** ** Padding *)

Lemma length_absorb_rest r a m : (0 < r)%nat → length (absorb r a m).2 = (length m mod r)%nat.
Proof.
  intros Hr. remember (length m) as n eqn:En. revert a m En. induction n as [n IH] using lt_wf_ind. intros a m ->.
  destruct (Nat.lt_ge_cases (length m) r); [rewrite absorb_short, Nat.mod_small by done; done|].
  rewrite <- (take_drop r m) at 1. rewrite absorb_block by (rewrite ?length_take; lia).
  rewrite (IH (length (drop r m))) by (rewrite ?length_drop; lia). rewrite length_drop.
  replace (length m) with (length m - r + 1 * r)%nat at 2 by lia. by rewrite Nat.Div0.mod_add.
Qed.

Lemma pad_block r ds pre x mid post :
  r = (length pre + 1 + length mid)%nat →
  let s := (copy_at (copy_at (pre ++ [x] ++ mid ++ post) (length pre) [ds]).1 (length pre + 1) (replicate (length mid) Byte.x00)).1 in
  <[(r - 1)%nat := byte_of_Z (Z_of_byte (default Byte.x00 (s !! (r - 1)%nat)) ⊕ 0x80)]> s
  = pre ++ (if bool_decide (length mid = 0)%nat then [byte_of_Z (Z_of_byte ds ⊕ 0x80)]
            else ds :: replicate (length mid - 1) Byte.x00 ++ [Byte.x80]) ++ post.
Proof.
  intros ->. rewrite (copy_at_mid pre [x] (mid ++ post) [ds]) by done. cbn [fst].
  rewrite (app_assoc pre [ds]). replace (length pre + 1)%nat with (length (pre ++ [ds])) by (rewrite length_app; done).
  rewrite copy_at_mid by (by rewrite length_replicate). cbn [fst]. rewrite length_app. cbn [length].
  destruct mid as [|y mid]; cbn [length].
  - rewrite bool_decide_eq_true_2 by done. cbn [replicate app]. rewrite <- app_assoc. cbn [app].
    replace (length pre + 1 + 0 - 1)%nat with (length pre + 0)%nat by lia.
    rewrite list_lookup_middle by lia. by rewrite insert_app_r.
  - rewrite bool_decide_eq_false_2 by lia. replace (S (length mid) - 1)%nat with (length mid) by lia.
    rewrite (replicate_S_end (length mid)), <- !app_assoc.
    set (p := pre ++ [ds] ++ replicate (length mid) Byte.x00).
    replace (pre ++ [ds] ++ replicate (length mid) Byte.x00 ++ [Byte.x00] ++ post) with (p ++ Byte.x00 :: post)
      by (unfold p; by rewrite <- !app_assoc).
    replace (length pre + 1 + S (length mid) - 1)%nat with (length p + 0)%nat
      by (unfold p; rewrite !length_app, length_replicate; cbn; lia).
    rewrite list_lookup_middle by lia. rewrite insert_app_r. unfold p. rewrite <- !app_assoc. cbn [app].
    by rewrite <- app_assoc.
Qed.

(** ** Squeezing *)

(** [k] bytes have been read from the state [a0]. *)
Record squeezed (a0 : list Z) (k : nat) (d : state) : Prop := {
  sq_shape : shape d;
  sq_dir : st_dir d = spongeSqueezing;
  sq_a : st_a d = Nat.iter (k / st_rate d) keccak_f a0;
  sq_off : st_off d = (k mod st_rate d)%nat;
  sq_len : st_len d = (st_rate d - k mod st_rate d)%nat;
  sq_block : take (st_rate d) (st_storage d) = take (st_rate d) (memory (st_a d))
}.

Lemma copy_out_block d :
  shape d → st_off d = 0%nat → st_len d = st_rate d →
  length (st_storage (copy_out_buf d)) = maxRate
  ∧ take (st_rate d) (st_storage (copy_out_buf d)) = take (st_rate d) (memory (st_a d)).
Proof.
  intros (Ha & Hs & Hr) Ho Hl. destruct (rate_div _ Hr) as (H0 & _).
  assert (length (buf d) = st_rate d) as Hb by (rewrite length_buf; rewrite ?Ho, ?Hl; (done || unfold maxRate; lia)).
  assert (st_storage (copy_out_buf d) = take (st_rate d) (memory (st_a d)) ++ drop (st_rate d) (st_storage d)) as E.
  { unfold copy_out_buf. cbn [st_storage set_storage]. rewrite copyOut_ok by (rewrite ?Hb; done). by rewrite Ho, Hl, take_0, Hb. }
  assert (length (take (st_rate d) (memory (st_a d))) = st_rate d) as E2 by (rewrite length_take, length_memory, Ha; lia).
  rewrite E. split; [rewrite length_app, length_drop, E2; unfold maxRate in *; lia|]. rewrite <- E2 at 1. by rewrite take_app_length.
Qed.

(** A block that has just been written out. *)
Lemma squeezed_fresh a0 a s r ds n k :
  length a = 25%nat → length s = maxRate → rate_ok r → (k mod r = 0)%nat → a = Nat.iter (k / r) keccak_f a0 →
  let d := copy_out_buf (mkState a s 0 r r ds n spongeSqueezing) in
  squeezed a0 k d ∧ st_rate d = r ∧ st_dsbyte d = ds ∧ st_outputLen d = n.
Proof.
  intros Ha Hs Hr Hk Hi d. destruct (copy_out_block (mkState a s 0 r r ds n spongeSqueezing)) as [H1 H2]; [by split_and!|done|done|].
  split; [|by split_and!]. split; [split_and!| | | | |].
  - exact Ha.
  - exact H1.
  - exact Hr.
  - reflexivity.
  - exact Hi.
  - symmetry. exact Hk.
  - change (st_len d) with r. change (st_rate d) with r. rewrite Hk. lia.
  - exact H2.
Qed.

Lemma padAndPermute_ok m d :
  absorbed m d →
  squeezed (sponge_state (st_rate d) (st_dsbyte d) m) 0 (padAndPermute (st_dsbyte d) d)
  ∧ same_kind d (padAndPermute (st_dsbyte d) d).
Proof.
  intros H. pose proof H as [(Ha & Hs & Hr) Hd Ho Hl Hm]. destruct (rate_div _ Hr) as (H0 & _).
  set (r := st_rate d) in *. set (ds := st_dsbyte d) in *.
  pose proof (length_buf d Hs ltac:(unfold maxRate; lia)) as Hlb.
  assert (st_len d = length m mod r)%nat as Hmod.
  { rewrite <- Hlb. pose proof (length_absorb_rest r (replicate 25 0) m ltac:(lia)) as E. by rewrite Hm in E. }
  set (s := (copy_at (copy_at (st_storage d) (st_off d + st_len d) [ds]).1 (st_len d + 1)
               (replicate (r - (st_len d + 1)) Byte.x00)).1).
  set (s' := <[(r - 1)%nat := byte_of_Z (Z_of_byte (default Byte.x00 (s !! (r - 1)%nat)) ⊕ 0x80)]> s).
  assert (take r s' = buf d ++ padding r ds (length m)) as Hblock.
  { destruct (drop (st_len d) (st_storage d)) as [|x rest] eqn:Erest.
    { apply (f_equal length) in Erest. rewrite length_drop in Erest. unfold maxRate in *. cbn in Erest. lia. }
    assert (length rest = 168 - st_len d - 1)%nat as Hrest.
    { apply (f_equal length) in Erest. rewrite length_drop in Erest. cbn [length] in Erest. unfold maxRate in *. lia. }
    assert (st_storage d = buf d ++ [x] ++ take (r - (st_len d + 1)) rest ++ drop (r - (st_len d + 1)) rest) as Es.
    { rewrite take_drop. cbn [app]. rewrite <- Erest. unfold buf. by rewrite Ho, drop_0, take_drop. }
    pose proof (pad_block r ds (buf d) x (take (r - (st_len d + 1)) rest) (drop (r - (st_len d + 1)) rest)) as Hp.
    cbv zeta in Hp. rewrite <- Es, Hlb, length_take, Nat.min_l in Hp by lia. specialize (Hp ltac:(lia)).
    unfold s', s. rewrite Ho. cbn [Nat.add]. rewrite Hp. unfold padding. rewrite <- Hmod.
    replace (bool_decide (r - (st_len d + 1) = 0)%nat) with (bool_decide (r - st_len d = 1)%nat)
      by (apply bool_decide_ext; lia).
    replace (r - (st_len d + 1) - 1)%nat with (r - st_len d - 2)%nat by lia.
    rewrite app_assoc. apply take_app_length'. rewrite length_app, Hlb.
    clear -Hl. case_bool_decide; cbn [length]; rewrite ?length_app, ?length_replicate; cbn [length]; lia. }
  set (d2 := mkState (st_a d) s' 0 r r ds (st_outputLen d) spongeAbsorbing).
  assert (padAndPermute ds d = copy_out_buf (set_buf (set_dir (permute d2) spongeSqueezing) 0 r)) as E.
  { unfold padAndPermute, d2, s', s, append_buf, set_buf, set_storage. cbn [st_len st_rate st_storage st_a st_off st_dsbyte st_outputLen st_dir length].
    by rewrite Hd. }
  assert (buf d2 = buf d ++ padding r ds (length m)) as Hb2 by (rewrite <- Hblock; reflexivity).
  assert (length (buf d2) = r) as Hl2.
  { rewrite Hb2, <- Hblock, length_take. unfold s', s. rewrite length_insert, !length_copy_at, Hs. unfold maxRate. lia. }
  pose proof (absorb_full m d (padding r ds (length m)) H) as Hf. fold r in Hf. rewrite <- Hb2 in Hf. specialize (Hf Hl2).
  assert (length (xorIn (st_a d) (buf d2)) = 25%nat) as Hx
    by (rewrite xorIn_ok, length_xor_block; [exact Ha|exact Ha|rewrite Hl2; exact Hr]).
  rewrite E, (permute_absorbing d2 eq_refl). unfold sponge_state. rewrite Hf. cbn [fst].
  destruct (squeezed_fresh (keccakF1600 (xorIn (st_a d) (buf d2))) (keccakF1600 (xorIn (st_a d) (buf d2))) s' r ds (st_outputLen d) 0)
    as (H1 & H2 & H3 & H4).
  - rewrite keccakF1600_ref by exact Hx. by apply length_keccak_f.
  - unfold s', s. by rewrite length_insert, !length_copy_at.
  - exact Hr.
  - apply Nat.Div0.mod_0_l.
  - by rewrite Nat.Div0.div_0_l.
  - split; [exact H1|]. by split_and!.
Qed.

Lemma pos_in_block pos i r :
  (0 < r)%nat → (pos mod r + i < r)%nat → ((pos + i) / r = pos / r ∧ (pos + i) mod r = pos mod r + i)%nat.
Proof.
  intros Hr Hi. pose proof (Nat.div_mod_eq pos r) as E.
  split; symmetry; [apply (Nat.div_unique _ _ _ (pos mod r + i))|apply (Nat.mod_unique _ _ (pos / r))]; lia.
Qed.

Lemma pos_next_block pos i r :
  (0 < r)%nat → (pos mod r + i = r)%nat → ((pos + i) / r = S (pos / r) ∧ (pos + i) mod r = 0)%nat.
Proof.
  intros Hr Hi. pose proof (Nat.div_mod_eq pos r) as E.
  split; symmetry; [apply (Nat.div_unique _ _ _ 0)|apply (Nat.mod_unique _ _ (S (pos / r)))]; lia.
Qed.

Lemma squeeze_piece a0 pos d k :
  squeezed a0 pos d → (k ≤ st_len d)%nat → take k (buf d) = squeeze (st_rate d) a0 pos k.
Proof.
  intros [(Ha & Hs & Hr) Hd Hst Ho Hl Hb] Hk. destruct (rate_div _ Hr) as (H0 & _).
  pose proof (Nat.mod_upper_bound pos (st_rate d) ltac:(lia)) as Hmod.
  assert (buf d = drop (st_off d) (take (st_rate d) (memory (st_a d)))) as ->.
  { rewrite <- Hb, skipn_firstn_comm. unfold buf. by rewrite Hl, Ho. }
  apply list_eq. intros i. destruct (Nat.lt_ge_cases i k) as [Hi|Hi].
  2: { rewrite !lookup_ge_None_2; [done| |]; unfold squeeze; rewrite ?length_map, ?length_seq, ?length_take; lia. }
  rewrite lookup_take, decide_True, lookup_drop, lookup_take, decide_True by lia.
  unfold squeeze. rewrite list_lookup_fmap, lookup_seq_lt by lia. cbn [fmap option_fmap option_map].
  unfold out_byte. destruct (pos_in_block pos i (st_rate d)) as [E1 E2]; [lia|lia|]. rewrite E1, E2, <- Hst, Ho.
  destruct (lookup_lt_is_Some_2 (memory (st_a d)) (pos mod st_rate d + i)) as [b Eb]; [rewrite length_memory, Ha; lia|].
  by rewrite Eb, (nth_lookup_Some _ _ _ _ Eb).
Qed.

Lemma squeezed_advance a0 pos d k :
  squeezed a0 pos d → (k ≤ st_len d)%nat →
  let d1 := set_buf d (st_off d + k) (st_len d - k) in
  let d' := if bool_decide (st_len d1 = 0)%nat then permute d1 else d1 in
  squeezed a0 (pos + k) d' ∧ same_kind d d'.
Proof.
  intros [(Ha & Hs & Hr) Hd Hst Ho Hl Hb] Hk d1. cbn [st_len d1 set_buf]. destruct (rate_div _ Hr) as (H0 & _).
  pose proof (Nat.mod_upper_bound pos (st_rate d) ltac:(lia)) as Hmod. case_bool_decide as Hz; cbv zeta.
  - destruct (pos_next_block pos k (st_rate d)) as [E1 E2]; [lia|lia|].
    assert (permute d1 = copy_out_buf (mkState (keccakF1600 (st_a d)) (st_storage d) 0 (st_rate d) (st_rate d) (st_dsbyte d)
      (st_outputLen d) spongeSqueezing)) as ->.
    { unfold permute, d1, set_a, set_buf. cbn [st_len st_rate st_storage st_a st_off st_dsbyte st_outputLen st_dir]. by rewrite Hd. }
    destruct (squeezed_fresh a0 (keccakF1600 (st_a d)) (st_storage d) (st_rate d) (st_dsbyte d) (st_outputLen d) (pos + k))
      as (H1 & H2 & H3 & H4).
    + rewrite keccakF1600_ref by exact Ha. by apply length_keccak_f.
    + exact Hs.
    + exact Hr.
    + exact E2.
    + rewrite E1, keccakF1600_ref by exact Ha. cbn [Nat.iter]. rewrite Hst. reflexivity.
    + split; [exact H1|by split_and!].
  - destruct (pos_in_block pos k (st_rate d)) as [E1 E2]; [lia|lia|].
    split; [|by split_and!]. split; [by split_and!|exact Hd| | | |exact Hb].
    + change (st_a d = Nat.iter ((pos + k) / st_rate d) keccak_f a0). by rewrite E1.
    + change (st_off d + k = (pos + k) mod st_rate d)%nat. lia.
    + change (st_len d - k = st_rate d - (pos + k) mod st_rate d)%nat. lia.
Qed.

Lemma read_loop_ok fuel n a0 pos d :
  (n ≤ fuel)%nat → squeezed a0 pos d →
  (read_loop fuel n d).1 = squeeze (st_rate d) a0 pos n
  ∧ squeezed a0 (pos + n) (read_loop fuel n d).2 ∧ same_kind d (read_loop fuel n d).2.
Proof.
  revert n pos d. induction fuel as [|fuel IH]; intros n pos d Hn H.
  { assert (n = 0)%nat as -> by lia. rewrite Nat.add_0_r. by split_and!. }
  destruct n as [|n']; [rewrite Nat.add_0_r; by split_and!|]. cbn [read_loop]. set (n := S n') in *.
  set (k := Nat.min n (st_len d)). destruct (squeezed_advance a0 pos d k H ltac:(lia)) as [H1 H2]. cbv zeta in *.
  match goal with |- context [read_loop fuel (n - k) ?x] => set (d1 := x) in * end.
  assert (0 < k)%nat as Hk.
  { destruct H as [(_ & _ & Hr) _ _ _ Hl _]. destruct (rate_div _ Hr) as (H0 & _).
    pose proof (Nat.mod_upper_bound pos (st_rate d) ltac:(lia)). lia. }
  destruct (IH (n - k)%nat (pos + k)%nat d1 ltac:(lia) H1) as (H3 & H4 & H5).
  destruct (read_loop fuel (n - k) d1) as [out d2]. cbn [fst snd] in *.
  split_and!.
  - rewrite (squeeze_piece a0 pos d k H) by lia. rewrite H3. destruct H2 as [-> _].
    unfold squeeze. rewrite <- map_app, <- seq_app. do 2 f_equal. lia.
  - by replace (pos + n)%nat with (pos + k + (n - k))%nat by lia.
  - destruct H2 as (? & ? & ?), H5 as (? & ? & ?). split_and!; congruence.
Qed.

Lemma Read_ok n m d :
  absorbed m d →
  (Read n d).1 = sponge (st_rate d) (st_dsbyte d) n m
  ∧ squeezed (sponge_state (st_rate d) (st_dsbyte d) m) n (Read n d).2 ∧ same_kind d (Read n d).2.
Proof.
  intros H. unfold Read. rewrite (abs_dir _ _ H). destruct (padAndPermute_ok m d H) as [H1 H2].
  destruct (read_loop_ok n n _ 0 _ (le_n n) H1) as (H3 & H4 & H5). pose proof H2 as [E _]. rewrite E in H3.
  split_and!; [exact H3|exact H4|by eapply same_kind_trans].
Qed.

Lemma Read_more n a0 pos d :
  squeezed a0 pos d →
  (Read n d).1 = squeeze (st_rate d) a0 pos n ∧ squeezed a0 (pos + n) (Read n d).2 ∧ same_kind d (Read n d).2.
Proof. intros H. unfold Read. rewrite (sq_dir _ _ _ H). by apply read_loop_ok. Qed.

Lemma clone_absorbed m d :
  absorbed m d → ∃ d', clone d = Ok d' ∧ absorbed m d' ∧ same_kind d d'.
Proof.
  intros [(Ha & Hs & Hr) Hd Ho Hl Hm]. unfold clone. rewrite Hd. eexists. split; [done|]. split; [|by split_and!].
  split; [by split_and!|exact Hd|reflexivity|exact Hl|]. unfold buf in *. rewrite Ho in Hm. exact Hm.
Qed.

Lemma Sum_ok prefix m d :
  absorbed m d → Sum prefix d = Ok (prefix ++ sponge (st_rate d) (st_dsbyte d) (st_outputLen d) m).
Proof.
  intros H. unfold Sum. destruct (clone_absorbed m d H) as (d' & -> & H' & E1 & E2 & E3). cbn [mbind res_bind].
  destruct (Read_ok (st_outputLen d') m d' H') as [E _]. destruct (Read (st_outputLen d') d') as [out d2]. cbn [fst] in E.
  by rewrite E, E1, E2, E3.
Qed.

(** A message written in pieces, and an output read in pieces. *)
Fixpoint writes (ps : list bytes) (d : state) : res state :=
  match ps with
  | [] => Ok d
  | p :: ps => d ← Write p d; writes ps d
  end.
Fixpoint reads (ns : list nat) (d : state) : bytes * state :=
  match ns with
  | [] => ([], d)
  | n :: ns => let '(out, d) := Read n d in let '(out', d) := reads ns d in (out ++ out', d)
  end.

Lemma writes_ok ps m d :
  absorbed m d → ∃ d', writes ps d = Ok d' ∧ absorbed (m ++ concat ps) d' ∧ same_kind d d'.
Proof.
  revert m d. induction ps as [|p ps IH]; intros m d H; cbn [writes concat].
  { exists d. rewrite app_nil_r. by split_and!. }
  destruct (Write_ok p d m H) as (d1 & -> & H1 & K1). cbn [mbind res_bind].
  destruct (IH _ _ H1) as (d2 & E2 & H2 & K2). exists d2. rewrite app_assoc. split_and!; try done.
  by eapply same_kind_trans.
Qed.

Lemma reads_ok ns a0 pos d :
  squeezed a0 pos d → (reads ns d).1 = squeeze (st_rate d) a0 pos (foldr Nat.add 0%nat ns).
Proof.
  revert pos d. induction ns as [|n ns IH]; intros pos d H; cbn [reads foldr]; [done|].
  destruct (Read_more n a0 pos d H) as (E & H1 & K & _). destruct (Read n d) as [out d1]. cbn [fst snd] in *.
  specialize (IH _ _ H1). destruct (reads ns d1) as [out' d2]. cbn [fst] in *. rewrite E, IH, K.
  unfold squeeze. by rewrite seq_app, map_app.
Qed.

(** C11: A sponge absorbs a stream: however a message is cut into calls of
    [Write], the digest that [Sum] appends to its argument is the sponge
    construction of FIPS 202 on the whole message (every rate, output length and
    domain byte), [Sum] leaves the hash as it was, so that further writes
    continue the message, and the blocks that bypass the buffer change nothing. *)
Theorem sum_of_writes r n ds ps more prefix :
  rate_ok r →
  ∃ d d', writes ps (new_state r n ds) = Ok d
    ∧ Sum prefix d = Ok (prefix ++ sponge r ds n (concat ps))
    ∧ Write more d = Ok d'
    ∧ Sum prefix d' = Ok (prefix ++ sponge r ds n (concat ps ++ more)).
Proof.
  intros Hr. destruct (writes_ok ps [] _ (new_absorbed r n ds Hr)) as (d & E & H & K1 & K2 & K3).
  destruct (Write_ok more d _ H) as (d' & E' & H' & K1' & K2' & K3'). exists d, d'. cbn [app st_rate new_state] in *.
  split_and!; [done| |done|].
  - by rewrite (Sum_ok prefix _ d H), K1, K2, K3.
  - by rewrite (Sum_ok prefix _ d' H'), K1', K2', K3', K1, K2, K3.
Qed.

(** The output of a sponge is a stream: reading it in pieces of any sizes
    yields the bytes that one read of their total yields, which is the
    extendable output of FIPS 202 on the message written before; the first read
    ends the input for good, a later [Write] panics. *)
Theorem reads_of_writes r n ds ps k ns :
  rate_ok r →
  ∃ d, writes ps (new_state r n ds) = Ok d
    ∧ (reads (k :: ns) d).1 = sponge r ds (k + foldr Nat.add 0%nat ns) (concat ps)
    ∧ (Read (k + foldr Nat.add 0%nat ns) d).1 = (reads (k :: ns) d).1
    ∧ ∀ p, Write p (Read k d).2 = Panic "sha3: write to sponge after read".
Proof.
  intros Hr. destruct (writes_ok ps [] _ (new_absorbed r n ds Hr)) as (d & E & H & K1 & K2 & _). exists d.
  cbn [app st_rate st_dsbyte new_state] in *.
  assert ((reads (k :: ns) d).1 = sponge r ds (k + foldr Nat.add 0%nat ns) (concat ps)) as E1.
  { cbn [reads]. destruct (Read_ok k _ d H) as (E2 & H2 & K3 & _). destruct (Read k d) as [out d1]. cbn [fst snd] in *.
    pose proof (reads_ok ns _ _ d1 H2) as E3. destruct (reads ns d1) as [out' d2]. cbn [fst] in *.
    rewrite E2, E3, K3, K1, K2. unfold sponge, squeeze. by rewrite seq_app, map_app. }
  split_and!; [done|done| |].
  - rewrite E1. destruct (Read_ok (k + foldr Nat.add 0%nat ns) _ d H) as (-> & _). by rewrite K1, K2.
  - intros p. unfold Write. by rewrite (sq_dir _ _ _ (proj1 (proj2 (Read_ok k _ d H)))).
Qed.

(** The one-shot functions compute the six hashes and the two extendable
    output functions with their standard rates, domain bytes and lengths
    (SHA3-224 to SHA3-512, the original Keccak-256 and -512, SHAKE128 and
    SHAKE256): no input makes them panic, and the digest has the length that
    [Size] announces. *)
Theorem one_shot_hashes data k :
  Sum224 data = Ok (sponge 144 Byte.x06 28 data)
  ∧ Sum256 data = Ok (sponge 136 Byte.x06 32 data)
  ∧ Sum384 data = Ok (sponge 104 Byte.x06 48 data)
  ∧ Sum512 data = Ok (sponge 72 Byte.x06 64 data)
  ∧ sum_with NewKeccak256 data = Ok (sponge 136 Byte.x01 32 data)
  ∧ sum_with NewKeccak512 data = Ok (sponge 72 Byte.x01 64 data)
  ∧ ShakeSum128 k data = Ok (sponge 168 Byte.x1f k data)
  ∧ ShakeSum256 k data = Ok (sponge 136 Byte.x1f k data)
  ∧ ∀ r ds n, length (sponge r ds n data) = n.
Proof.
  assert (∀ r n ds, rate_ok r → sum_with (new_state r n ds) data = Ok (sponge r ds n data)) as Hs.
  { intros r n ds Hr. unfold sum_with. destruct (Write_ok data _ [] (new_absorbed r n ds Hr)) as (d & -> & H & K1 & K2 & K3).
    cbn [mbind res_bind app] in *. rewrite (Sum_ok [] _ d H), K1, K2, K3. done. }
  assert (∀ r n ds, rate_ok r → shake_with (new_state r n ds) k data = Ok (sponge r ds k data)) as Hx.
  { intros r n ds Hr. unfold shake_with. destruct (Write_ok data _ [] (new_absorbed r n ds Hr)) as (d & -> & H & K1 & K2 & _).
    cbn [mbind res_bind app] in *. destruct (Read_ok k _ d H) as [-> _]. by rewrite K1, K2. }
  split_and!; try (apply Hs || apply Hx; unfold rate_ok; lia).
  intros r ds n. unfold sponge, squeeze. by rewrite length_map, length_seq.
Qed.

(** [clone] of a sponge that is being read is right only at the largest
    rate.  The buffer's capacity counts to the end of the storage (168 bytes),
    not to the end of the block, so at rate [r] the copy resumes [168 - r] bytes
    before the original: the clone panics when fewer than [168 - r] bytes of the
    block are read, and repeats [168 - r] bytes of output otherwise. *)
Theorem clone_while_squeezing a0 pos d :
  squeezed a0 pos d →
  let lost := (168 - st_rate d)%nat in
  ((pos mod st_rate d < lost)%nat → clone d = Panic "slice bounds out of range")
  ∧ ((lost ≤ pos mod st_rate d)%nat → ∃ d', clone d = Ok d' ∧ squeezed a0 (pos - lost) d').
Proof.
  intros [(Ha & Hs & Hr) Hd Hst Ho Hl Hb] lost. destruct (rate_div _ Hr) as (H0 & _).
  pose proof (Nat.mod_upper_bound pos (st_rate d) ltac:(lia)) as Hmod. pose proof (Nat.Div0.mod_le pos (st_rate d)) as Hle.
  unfold clone. rewrite Hd. unfold cap_buf. rewrite Ho. unfold maxRate. split; intros Hlo.
  - rewrite bool_decide_eq_false_2 by lia. done.
  - rewrite bool_decide_eq_true_2 by lia. eexists. split; [done|].
    destruct (pos_in_block (pos - lost) lost (st_rate d)) as [E1 E2]; [lia| |].
    { pose proof (Nat.div_mod_eq pos (st_rate d)) as E. rewrite <- (Nat.mod_unique (pos - lost) (st_rate d) (pos / st_rate d) (pos mod st_rate d - lost)); lia. }
    replace (pos - lost + lost)%nat with pos in * by lia.
    split; [by split_and!|exact Hd| | | |exact Hb].
    + change (st_a d = Nat.iter ((pos - lost) / st_rate d) keccak_f a0). by rewrite <- E1.
    + cbn [st_off st_rate set_buf]. lia.
    + cbn [st_len st_rate set_buf]. lia.
Qed.
End SpongeOk.

Lemma sum_of_writes_witness :
  ∃ d d', writes (IO := unaligned_io) [[Byte.x61]; [Byte.x62; Byte.x63]] New256 = Ok d
    ∧ Sum (IO := unaligned_io) [Byte.xff] d = Ok (Byte.xff :: sponge 136 Byte.x06 32 [Byte.x61; Byte.x62; Byte.x63])
    ∧ Write (IO := unaligned_io) [Byte.x64] d = Ok d'
    ∧ Sum (IO := unaligned_io) [Byte.xff] d' = Ok (Byte.xff :: sponge 136 Byte.x06 32 [Byte.x61; Byte.x62; Byte.x63; Byte.x64]).
Proof.
  apply (sum_of_writes (IO := unaligned_io) 136 32 Byte.x06 [[Byte.x61]; [Byte.x62; Byte.x63]] [Byte.x64] [Byte.xff]).
  right; right; left. reflexivity.
Defined.

Lemma reads_of_writes_witness :
  ∃ d, writes (IO := generic_io) [[Byte.x61]] NewShake128 = Ok d
    ∧ (reads (IO := generic_io) [3; 200]%nat d).1 = sponge 168 Byte.x1f 203 [Byte.x61]
    ∧ (Read (IO := generic_io) 203 d).1 = (reads (IO := generic_io) [3; 200]%nat d).1
    ∧ ∀ p, Write (IO := generic_io) p (Read (IO := generic_io) 3 d).2 = Panic "sha3: write to sponge after read".
Proof.
  apply (reads_of_writes (IO := generic_io) 168 0 Byte.x1f [[Byte.x61]] 3 [200%nat]).
  right; right; right; right. reflexivity.
Defined.

Lemma one_shot_hashes_witness : Sum256 (IO := generic_io) [] = Ok (sponge 136 Byte.x06 32 []).
Proof. exact (proj1 (proj2 (one_shot_hashes (IO := generic_io) [] 0))). Defined.

Lemma clone_while_squeezing_witness :
  clone (Read (IO := generic_io) 10 NewShake256).2 = Panic "slice bounds out of range".
Proof.
  assert (rate_ok 136) as Hr by (right; right; left; reflexivity).
  destruct (Read_ok (IO := generic_io) 10 [] NewShake256 (new_absorbed 136 0 Byte.x1f Hr)) as (_ & H & E & _).
  apply (clone_while_squeezing _ 10 _ H). rewrite E. vm_compute. lia.
Defined.

(** ** Published digests *)
Module Digests.
#[local] Existing Instance unaligned_io.

Definition hex (r : res bytes) : list Z := match r with Ok b => map Z_of_byte b | _ => [] end.

Example keccak256_empty :
  take 8 (hex (sum_with NewKeccak256 [])) = [0xc5; 0xd2; 0x46; 0x01; 0x86; 0xf7; 0x23; 0x3c].
Proof. vm_compute. reflexivity. Qed.

Example sha3_256_abc :
  take 8 (hex (Sum256 (string_bytes "abc"))) = [0x3a; 0x98; 0x5d; 0xa7; 0x4f; 0xe2; 0x25; 0xb2].
Proof. vm_compute. reflexivity. Qed.
Example shake128_empty :
  take 8 (hex (ShakeSum128 32 [])) = [0x7f; 0x9c; 0x2b; 0xa4; 0xe8; 0x8f; 0x82; 0x7d].
Proof. vm_compute. reflexivity. Qed.
End Digests.
