(* ===== verification/Header.v ===== *)
(** * Header: message types and the fixed message header

    Models framework/msg/header/header.go: the message ids, the table of
    registered message types filled by [init], the response-to-request map and
    the 21-byte header that precedes every message on the wire. *)
From S2P Require Import Prelude Bytes.

(** ** Message ids *)

Inductive MsgId : Set :=
  | MSG_ID_INVALID
  | MSG_ID_REQ_GET_SPLIST
  | MSG_ID_RSP_GET_SPLIST
  | MSG_ID_REQ_GET_PPSTATUS
  | MSG_ID_RSP_GET_PPSTATUS
  | MSG_ID_REQ_GET_PPDOWNGRADEINFO
  | MSG_ID_RSP_GET_PPDOWNGRADEINFO
  | MSG_ID_REQ_GET_WALLETOZ
  | MSG_ID_RSP_GET_WALLETOZ
  | MSG_ID_REQ_REGISTER
  | MSG_ID_RSP_REGISTER
  | MSG_ID_REQ_ACTIVATE_PP
  | MSG_ID_RSP_ACTIVATE_PP
  | MSG_ID_NOTICE_ACTIVATED_SP
  | MSG_ID_REQ_UPDATE_STAKE_PP
  | MSG_ID_RSP_UPDATE_STAKE_PP
  | MSG_ID_NOTICE_STATE_CHANGE_PP
  | MSG_ID_REQ_STATE_CHANGE_PP
  | MSG_ID_RSP_STATE_CHANGE_PP
  | MSG_ID_REQ_UPDATED_STAKE_SP
  | MSG_ID_REQ_DEACTIVATE_PP
  | MSG_ID_RSP_DEACTIVATE_PP
  | MSG_ID_NOTICE_UNBONDING_PP
  | MSG_ID_NOTICE_ACTIVATE_PP
  | MSG_ID_RSP_PPREGISTERED_TO_SP
  | MSG_ID_REQ_PREPAY
  | MSG_ID_RSP_PREPAY
  | MSG_ID_REQ_PREPAID
  | MSG_ID_RSP_PREPAID
  | MSG_ID_REQ_MINING
  | MSG_ID_RSP_MINING
  | MSG_ID_REQ_START_MAINTENANCE
  | MSG_ID_RSP_START_MAINTENANCE
  | MSG_ID_REQ_STOP_MAINTENANCE
  | MSG_ID_RSP_STOP_MAINTENANCE
  | MSG_ID_REQ_UPLOAD_FILE
  | MSG_ID_RSP_UPLOAD_FILE
  | MSG_ID_REQ_UPLOAD_FILESLICE
  | MSG_ID_RSP_UPLOAD_FILESLICE
  | MSG_ID_REQ_BACKUP_FILESLICE
  | MSG_ID_RSP_BACKUP_FILESLICE
  | MSG_ID_REQ_UPLOAD_SLICES_WRONG
  | MSG_ID_RSP_UPLOAD_SLICES_WRONG
  | MSG_ID_REQ_REPORT_UPLOAD_SLICE_RESULT
  | MSG_ID_RSP_REPORT_UPLOAD_SLICE_RESULT
  | MSG_ID_UPLOAD_SPEED_OF_PROGRESS
  | MSG_ID_REQ_FIND_MY_FILELIST
  | MSG_ID_RSP_FIND_MY_FILELIST
  | MSG_ID_REQ_DELETE_FILE
  | MSG_ID_RSP_DELETE_FILE
  | MSG_ID_REQ_GET_HDINFO
  | MSG_ID_RSP_GET_HDINFO
  | MSG_ID_REQ_FILE_STORAGEINFO
  | MSG_ID_RSP_FILE_STORAGEINFO
  | MSG_ID_REQ_DOWNLOAD_SLICE
  | MSG_ID_RSP_DOWNLOAD_SLICE
  | MSG_ID_REQ_REPORT_DOWNLOAD_RESULT
  | MSG_ID_RSP_REPORT_DOWNLOAD_RESULT
  | MSG_ID_REQ_DOWNLOAD_TASKINFO
  | MSG_ID_RSP_DOWNLOAD_TASKINFO
  | MSG_ID_REQ_DOWNLOAD_FILE_WRONG
  | MSG_ID_RSP_DOWNLOAD_FILE_WRONG
  | MSG_ID_REQ_CLEAR_DOWNLOAD_TASK
  | MSG_ID_REQ_REGISTER_NEWPP
  | MSG_ID_RSP_REGISTER_NEWPP
  | MSG_ID_NOTICE_FILESLICE_BACKUP
  | MSG_ID_REQ_TRANSFER_DOWNLOAD
  | MSG_ID_RSP_TRANSFER_DOWNLOAD
  | MSG_ID_REQ_TRANSFER_DOWNLOAD_WRONG
  | MSG_ID_RSP_TRANSFER_DOWNLOAD_WRONG
  | MSG_ID_RSP_TRANSFER_DOWNLOAD_RESULT
  | MSG_ID_REQ_REPORT_BACKUP_SLICE_RESULT
  | MSG_ID_RSP_REPORT_BACKUP_SLICE_RESULT
  | MSG_ID_REQ_FILE_BACKUP_STATUS
  | MSG_ID_RSP_FILE_BACKUP_STATUS
  | MSG_ID_REQ_FILE_REPLICA_INFO
  | MSG_ID_RSP_FILE_REPLICA_INFO
  | MSG_ID_REQ_FILE_STATUS
  | MSG_ID_RSP_FILE_STATUS
  | MSG_ID_REQ_SHARELINK
  | MSG_ID_RSP_SHARELINK
  | MSG_ID_REQ_SHARE_FILE
  | MSG_ID_RSP_SHARE_FILE
  | MSG_ID_REQ_DELETE_SHARE
  | MSG_ID_RSP_DELETE_SHARE
  | MSG_ID_REQ_GET_SHAREFILE
  | MSG_ID_RSP_GET_SHAREFILE
  | MSG_ID_REQ_SP_LATENCY_CHECK
  | MSG_ID_RSP_SP_LATENCY_CHECK
  | MSG_ID_REQ_REPORT_NODESTATUS
  | MSG_ID_RSP_REPORT_NODESTATUS
  | MSG_ID_REQ_SP_STATUS
  | MSG_ID_RSP_SP_STATUS
  | MSG_ID_REQ_BLS_SIGNATURE
  | MSG_ID_RSP_BLS_SIGNATURE
  | MSG_ID_RSP_BADVERSION
  | MSG_ID_NOTICE_SP_UNDERMAINTENANCE
  | MSG_ID_REQ_CLEAR_EXPIRED_SHARE_LINKS
  | MSG_ID_RSP_CLEAR_EXPIRED_SHARE_LINKS
  | MSG_ID_NOTICE_RELOCATE_SP
  | MSG_ID_NOTICE_FILESLICE_VERIFY
  | MSG_ID_REQ_VERIFY_DOWNLOAD
  | MSG_ID_RSP_VERIFY_DOWNLOAD
  | MSG_ID_REQ_VERIFY_RESULT
  | MSG_ID_RSP_VERIFY_RESULT
  | MSG_ID_RSP_VERIFY_DOWNLOAD_RESULT.

(** The value [iota] gives each constant. *)
Definition msg_id (m : MsgId) : Z :=
  match m with
  | MSG_ID_INVALID => 0
  | MSG_ID_REQ_GET_SPLIST => 1
  | MSG_ID_RSP_GET_SPLIST => 2
  | MSG_ID_REQ_GET_PPSTATUS => 3
  | MSG_ID_RSP_GET_PPSTATUS => 4
  | MSG_ID_REQ_GET_PPDOWNGRADEINFO => 5
  | MSG_ID_RSP_GET_PPDOWNGRADEINFO => 6
  | MSG_ID_REQ_GET_WALLETOZ => 7
  | MSG_ID_RSP_GET_WALLETOZ => 8
  | MSG_ID_REQ_REGISTER => 9
  | MSG_ID_RSP_REGISTER => 10
  | MSG_ID_REQ_ACTIVATE_PP => 11
  | MSG_ID_RSP_ACTIVATE_PP => 12
  | MSG_ID_NOTICE_ACTIVATED_SP => 13
  | MSG_ID_REQ_UPDATE_STAKE_PP => 14
  | MSG_ID_RSP_UPDATE_STAKE_PP => 15
  | MSG_ID_NOTICE_STATE_CHANGE_PP => 16
  | MSG_ID_REQ_STATE_CHANGE_PP => 17
  | MSG_ID_RSP_STATE_CHANGE_PP => 18
  | MSG_ID_REQ_UPDATED_STAKE_SP => 19
  | MSG_ID_REQ_DEACTIVATE_PP => 20
  | MSG_ID_RSP_DEACTIVATE_PP => 21
  | MSG_ID_NOTICE_UNBONDING_PP => 22
  | MSG_ID_NOTICE_ACTIVATE_PP => 23
  | MSG_ID_RSP_PPREGISTERED_TO_SP => 24
  | MSG_ID_REQ_PREPAY => 25
  | MSG_ID_RSP_PREPAY => 26
  | MSG_ID_REQ_PREPAID => 27
  | MSG_ID_RSP_PREPAID => 28
  | MSG_ID_REQ_MINING => 29
  | MSG_ID_RSP_MINING => 30
  | MSG_ID_REQ_START_MAINTENANCE => 31
  | MSG_ID_RSP_START_MAINTENANCE => 32
  | MSG_ID_REQ_STOP_MAINTENANCE => 33
  | MSG_ID_RSP_STOP_MAINTENANCE => 34
  | MSG_ID_REQ_UPLOAD_FILE => 35
  | MSG_ID_RSP_UPLOAD_FILE => 36
  | MSG_ID_REQ_UPLOAD_FILESLICE => 37
  | MSG_ID_RSP_UPLOAD_FILESLICE => 38
  | MSG_ID_REQ_BACKUP_FILESLICE => 39
  | MSG_ID_RSP_BACKUP_FILESLICE => 40
  | MSG_ID_REQ_UPLOAD_SLICES_WRONG => 41
  | MSG_ID_RSP_UPLOAD_SLICES_WRONG => 42
  | MSG_ID_REQ_REPORT_UPLOAD_SLICE_RESULT => 43
  | MSG_ID_RSP_REPORT_UPLOAD_SLICE_RESULT => 44
  | MSG_ID_UPLOAD_SPEED_OF_PROGRESS => 45
  | MSG_ID_REQ_FIND_MY_FILELIST => 46
  | MSG_ID_RSP_FIND_MY_FILELIST => 47
  | MSG_ID_REQ_DELETE_FILE => 48
  | MSG_ID_RSP_DELETE_FILE => 49
  | MSG_ID_REQ_GET_HDINFO => 50
  | MSG_ID_RSP_GET_HDINFO => 51
  | MSG_ID_REQ_FILE_STORAGEINFO => 52
  | MSG_ID_RSP_FILE_STORAGEINFO => 53
  | MSG_ID_REQ_DOWNLOAD_SLICE => 54
  | MSG_ID_RSP_DOWNLOAD_SLICE => 55
  | MSG_ID_REQ_REPORT_DOWNLOAD_RESULT => 56
  | MSG_ID_RSP_REPORT_DOWNLOAD_RESULT => 57
  | MSG_ID_REQ_DOWNLOAD_TASKINFO => 58
  | MSG_ID_RSP_DOWNLOAD_TASKINFO => 59
  | MSG_ID_REQ_DOWNLOAD_FILE_WRONG => 60
  | MSG_ID_RSP_DOWNLOAD_FILE_WRONG => 61
  | MSG_ID_REQ_CLEAR_DOWNLOAD_TASK => 62
  | MSG_ID_REQ_REGISTER_NEWPP => 63
  | MSG_ID_RSP_REGISTER_NEWPP => 64
  | MSG_ID_NOTICE_FILESLICE_BACKUP => 65
  | MSG_ID_REQ_TRANSFER_DOWNLOAD => 66
  | MSG_ID_RSP_TRANSFER_DOWNLOAD => 67
  | MSG_ID_REQ_TRANSFER_DOWNLOAD_WRONG => 68
  | MSG_ID_RSP_TRANSFER_DOWNLOAD_WRONG => 69
  | MSG_ID_RSP_TRANSFER_DOWNLOAD_RESULT => 70
  | MSG_ID_REQ_REPORT_BACKUP_SLICE_RESULT => 71
  | MSG_ID_RSP_REPORT_BACKUP_SLICE_RESULT => 72
  | MSG_ID_REQ_FILE_BACKUP_STATUS => 73
  | MSG_ID_RSP_FILE_BACKUP_STATUS => 74
  | MSG_ID_REQ_FILE_REPLICA_INFO => 75
  | MSG_ID_RSP_FILE_REPLICA_INFO => 76
  | MSG_ID_REQ_FILE_STATUS => 77
  | MSG_ID_RSP_FILE_STATUS => 78
  | MSG_ID_REQ_SHARELINK => 79
  | MSG_ID_RSP_SHARELINK => 80
  | MSG_ID_REQ_SHARE_FILE => 81
  | MSG_ID_RSP_SHARE_FILE => 82
  | MSG_ID_REQ_DELETE_SHARE => 83
  | MSG_ID_RSP_DELETE_SHARE => 84
  | MSG_ID_REQ_GET_SHAREFILE => 85
  | MSG_ID_RSP_GET_SHAREFILE => 86
  | MSG_ID_REQ_SP_LATENCY_CHECK => 87
  | MSG_ID_RSP_SP_LATENCY_CHECK => 88
  | MSG_ID_REQ_REPORT_NODESTATUS => 89
  | MSG_ID_RSP_REPORT_NODESTATUS => 90
  | MSG_ID_REQ_SP_STATUS => 91
  | MSG_ID_RSP_SP_STATUS => 92
  | MSG_ID_REQ_BLS_SIGNATURE => 93
  | MSG_ID_RSP_BLS_SIGNATURE => 94
  | MSG_ID_RSP_BADVERSION => 95
  | MSG_ID_NOTICE_SP_UNDERMAINTENANCE => 96
  | MSG_ID_REQ_CLEAR_EXPIRED_SHARE_LINKS => 97
  | MSG_ID_RSP_CLEAR_EXPIRED_SHARE_LINKS => 98
  | MSG_ID_NOTICE_RELOCATE_SP => 99
  | MSG_ID_NOTICE_FILESLICE_VERIFY => 100
  | MSG_ID_REQ_VERIFY_DOWNLOAD => 101
  | MSG_ID_RSP_VERIFY_DOWNLOAD => 102
  | MSG_ID_REQ_VERIFY_RESULT => 103
  | MSG_ID_RSP_VERIFY_RESULT => 104
  | MSG_ID_RSP_VERIFY_DOWNLOAD_RESULT => 105
  end.

Definition NUMBER_MESSAGE_TYPES : Z := 106.

(** The constant with a given value, the [case] labels of a [switch]. *)
Definition msg_of_id (id : Z) : option MsgId :=
  match id with
  | 0 => Some MSG_ID_INVALID
  | 1 => Some MSG_ID_REQ_GET_SPLIST
  | 2 => Some MSG_ID_RSP_GET_SPLIST
  | 3 => Some MSG_ID_REQ_GET_PPSTATUS
  | 4 => Some MSG_ID_RSP_GET_PPSTATUS
  | 5 => Some MSG_ID_REQ_GET_PPDOWNGRADEINFO
  | 6 => Some MSG_ID_RSP_GET_PPDOWNGRADEINFO
  | 7 => Some MSG_ID_REQ_GET_WALLETOZ
  | 8 => Some MSG_ID_RSP_GET_WALLETOZ
  | 9 => Some MSG_ID_REQ_REGISTER
  | 10 => Some MSG_ID_RSP_REGISTER
  | 11 => Some MSG_ID_REQ_ACTIVATE_PP
  | 12 => Some MSG_ID_RSP_ACTIVATE_PP
  | 13 => Some MSG_ID_NOTICE_ACTIVATED_SP
  | 14 => Some MSG_ID_REQ_UPDATE_STAKE_PP
  | 15 => Some MSG_ID_RSP_UPDATE_STAKE_PP
  | 16 => Some MSG_ID_NOTICE_STATE_CHANGE_PP
  | 17 => Some MSG_ID_REQ_STATE_CHANGE_PP
  | 18 => Some MSG_ID_RSP_STATE_CHANGE_PP
  | 19 => Some MSG_ID_REQ_UPDATED_STAKE_SP
  | 20 => Some MSG_ID_REQ_DEACTIVATE_PP
  | 21 => Some MSG_ID_RSP_DEACTIVATE_PP
  | 22 => Some MSG_ID_NOTICE_UNBONDING_PP
  | 23 => Some MSG_ID_NOTICE_ACTIVATE_PP
  | 24 => Some MSG_ID_RSP_PPREGISTERED_TO_SP
  | 25 => Some MSG_ID_REQ_PREPAY
  | 26 => Some MSG_ID_RSP_PREPAY
  | 27 => Some MSG_ID_REQ_PREPAID
  | 28 => Some MSG_ID_RSP_PREPAID
  | 29 => Some MSG_ID_REQ_MINING
  | 30 => Some MSG_ID_RSP_MINING
  | 31 => Some MSG_ID_REQ_START_MAINTENANCE
  | 32 => Some MSG_ID_RSP_START_MAINTENANCE
  | 33 => Some MSG_ID_REQ_STOP_MAINTENANCE
  | 34 => Some MSG_ID_RSP_STOP_MAINTENANCE
  | 35 => Some MSG_ID_REQ_UPLOAD_FILE
  | 36 => Some MSG_ID_RSP_UPLOAD_FILE
  | 37 => Some MSG_ID_REQ_UPLOAD_FILESLICE
  | 38 => Some MSG_ID_RSP_UPLOAD_FILESLICE
  | 39 => Some MSG_ID_REQ_BACKUP_FILESLICE
  | 40 => Some MSG_ID_RSP_BACKUP_FILESLICE
  | 41 => Some MSG_ID_REQ_UPLOAD_SLICES_WRONG
  | 42 => Some MSG_ID_RSP_UPLOAD_SLICES_WRONG
  | 43 => Some MSG_ID_REQ_REPORT_UPLOAD_SLICE_RESULT
  | 44 => Some MSG_ID_RSP_REPORT_UPLOAD_SLICE_RESULT
  | 45 => Some MSG_ID_UPLOAD_SPEED_OF_PROGRESS
  | 46 => Some MSG_ID_REQ_FIND_MY_FILELIST
  | 47 => Some MSG_ID_RSP_FIND_MY_FILELIST
  | 48 => Some MSG_ID_REQ_DELETE_FILE
  | 49 => Some MSG_ID_RSP_DELETE_FILE
  | 50 => Some MSG_ID_REQ_GET_HDINFO
  | 51 => Some MSG_ID_RSP_GET_HDINFO
  | 52 => Some MSG_ID_REQ_FILE_STORAGEINFO
  | 53 => Some MSG_ID_RSP_FILE_STORAGEINFO
  | 54 => Some MSG_ID_REQ_DOWNLOAD_SLICE
  | 55 => Some MSG_ID_RSP_DOWNLOAD_SLICE
  | 56 => Some MSG_ID_REQ_REPORT_DOWNLOAD_RESULT
  | 57 => Some MSG_ID_RSP_REPORT_DOWNLOAD_RESULT
  | 58 => Some MSG_ID_REQ_DOWNLOAD_TASKINFO
  | 59 => Some MSG_ID_RSP_DOWNLOAD_TASKINFO
  | 60 => Some MSG_ID_REQ_DOWNLOAD_FILE_WRONG
  | 61 => Some MSG_ID_RSP_DOWNLOAD_FILE_WRONG
  | 62 => Some MSG_ID_REQ_CLEAR_DOWNLOAD_TASK
  | 63 => Some MSG_ID_REQ_REGISTER_NEWPP
  | 64 => Some MSG_ID_RSP_REGISTER_NEWPP
  | 65 => Some MSG_ID_NOTICE_FILESLICE_BACKUP
  | 66 => Some MSG_ID_REQ_TRANSFER_DOWNLOAD
  | 67 => Some MSG_ID_RSP_TRANSFER_DOWNLOAD
  | 68 => Some MSG_ID_REQ_TRANSFER_DOWNLOAD_WRONG
  | 69 => Some MSG_ID_RSP_TRANSFER_DOWNLOAD_WRONG
  | 70 => Some MSG_ID_RSP_TRANSFER_DOWNLOAD_RESULT
  | 71 => Some MSG_ID_REQ_REPORT_BACKUP_SLICE_RESULT
  | 72 => Some MSG_ID_RSP_REPORT_BACKUP_SLICE_RESULT
  | 73 => Some MSG_ID_REQ_FILE_BACKUP_STATUS
  | 74 => Some MSG_ID_RSP_FILE_BACKUP_STATUS
  | 75 => Some MSG_ID_REQ_FILE_REPLICA_INFO
  | 76 => Some MSG_ID_RSP_FILE_REPLICA_INFO
  | 77 => Some MSG_ID_REQ_FILE_STATUS
  | 78 => Some MSG_ID_RSP_FILE_STATUS
  | 79 => Some MSG_ID_REQ_SHARELINK
  | 80 => Some MSG_ID_RSP_SHARELINK
  | 81 => Some MSG_ID_REQ_SHARE_FILE
  | 82 => Some MSG_ID_RSP_SHARE_FILE
  | 83 => Some MSG_ID_REQ_DELETE_SHARE
  | 84 => Some MSG_ID_RSP_DELETE_SHARE
  | 85 => Some MSG_ID_REQ_GET_SHAREFILE
  | 86 => Some MSG_ID_RSP_GET_SHAREFILE
  | 87 => Some MSG_ID_REQ_SP_LATENCY_CHECK
  | 88 => Some MSG_ID_RSP_SP_LATENCY_CHECK
  | 89 => Some MSG_ID_REQ_REPORT_NODESTATUS
  | 90 => Some MSG_ID_RSP_REPORT_NODESTATUS
  | 91 => Some MSG_ID_REQ_SP_STATUS
  | 92 => Some MSG_ID_RSP_SP_STATUS
  | 93 => Some MSG_ID_REQ_BLS_SIGNATURE
  | 94 => Some MSG_ID_RSP_BLS_SIGNATURE
  | 95 => Some MSG_ID_RSP_BADVERSION
  | 96 => Some MSG_ID_NOTICE_SP_UNDERMAINTENANCE
  | 97 => Some MSG_ID_REQ_CLEAR_EXPIRED_SHARE_LINKS
  | 98 => Some MSG_ID_RSP_CLEAR_EXPIRED_SHARE_LINKS
  | 99 => Some MSG_ID_NOTICE_RELOCATE_SP
  | 100 => Some MSG_ID_NOTICE_FILESLICE_VERIFY
  | 101 => Some MSG_ID_REQ_VERIFY_DOWNLOAD
  | 102 => Some MSG_ID_RSP_VERIFY_DOWNLOAD
  | 103 => Some MSG_ID_REQ_VERIFY_RESULT
  | 104 => Some MSG_ID_RSP_VERIFY_RESULT
  | 105 => Some MSG_ID_RSP_VERIFY_DOWNLOAD_RESULT
  | _ => None
  end.

Record MsgType := mkMsgType { Id : Z; Name : string }.

(** ** The registry of message types

    [registeredMessages] is an array of pointers, [nil] until [init] runs. *)

Definition Registry := list (option MsgType).

Definition registeredMessages0 : Registry :=
  replicate (Z.to_nat NUMBER_MESSAGE_TYPES) None.

Definition registerOneMessageType (r : Registry) (id : Z) (name : string) : Registry :=
  <[Z.to_nat id := Some (mkMsgType id name)]> r.

(** The calls of [init], in order: variable, id, wire name. *)
Definition registrations : list (string * MsgId * string) :=
  [
   ("ReqGetSPList", MSG_ID_REQ_GET_SPLIST, "ReqGSPL");
   ("RspGetSPList", MSG_ID_RSP_GET_SPLIST, "RspGSPL");
   ("ReqGetPPStatus", MSG_ID_REQ_GET_PPSTATUS, "ReqGPPS");
   ("RspGetPPStatus", MSG_ID_RSP_GET_PPSTATUS, "RspGPPS");
   ("ReqGetPPDowngradeInfo", MSG_ID_REQ_GET_PPDOWNGRADEINFO, "ReqGPPD");
   ("RspGetPPDowngradeInfo", MSG_ID_RSP_GET_PPDOWNGRADEINFO, "RspGPPD");
   ("ReqGetWalletOz", MSG_ID_REQ_GET_WALLETOZ, "ReqGOz");
   ("RspGetWalletOz", MSG_ID_RSP_GET_WALLETOZ, "RspGOz");
   ("ReqRegister", MSG_ID_REQ_REGISTER, "ReqReg");
   ("RspRegister", MSG_ID_RSP_REGISTER, "RspReg");
   ("ReqActivatePP", MSG_ID_REQ_ACTIVATE_PP, "ReqActvp");
   ("RspActivatePP", MSG_ID_RSP_ACTIVATE_PP, "RspActvp");
   ("NoticeActivatedPP", MSG_ID_NOTICE_ACTIVATED_SP, "NotActdp");
   ("ReqUpdateDepositPP", MSG_ID_REQ_UPDATE_STAKE_PP, "ReqUpp");
   ("RspUpdateDepositPP", MSG_ID_RSP_UPDATE_STAKE_PP, "RspUpp");
   ("NoticeUpdatedDepositPP", MSG_ID_NOTICE_STATE_CHANGE_PP, "NotUptdp");
   ("ReqStateChangePP", MSG_ID_REQ_STATE_CHANGE_PP, "ReqSCpp");
   ("RspStateChangePP", MSG_ID_RSP_STATE_CHANGE_PP, "RspSCpp");
   ("ReqUpdatedStakeSP", MSG_ID_REQ_UPDATED_STAKE_SP, "ReqUptds");
   ("ReqDeactivatePP", MSG_ID_REQ_DEACTIVATE_PP, "ReqDctvp");
   ("RspDeactivatePP", MSG_ID_RSP_DEACTIVATE_PP, "RspDctvp");
   ("NoticeUnbondingPP", MSG_ID_NOTICE_UNBONDING_PP, "NotUbdp");
   ("NoticeDeactivatedPP", MSG_ID_NOTICE_ACTIVATE_PP, "NotDctdp");
   ("RspPPRegisteredToSP", MSG_ID_RSP_PPREGISTERED_TO_SP, "Rspbdsp");
   ("ReqPrepay", MSG_ID_REQ_PREPAY, "ReqPrpay");
   ("RspPrepay", MSG_ID_RSP_PREPAY, "RspPrpay");
   ("ReqPrepaid", MSG_ID_REQ_PREPAID, "ReqPrpad");
   ("RspPrepaid", MSG_ID_RSP_PREPAID, "RspPrpad");
   ("ReqMining", MSG_ID_REQ_MINING, "ReqMin");
   ("RspMining", MSG_ID_RSP_MINING, "RspMin");
   ("NoticeRelocateSp", MSG_ID_NOTICE_RELOCATE_SP, "NotRelSp");
   ("ReqStartMaintenance", MSG_ID_REQ_START_MAINTENANCE, "ReqStMtn");
   ("RspStartMaintenance", MSG_ID_RSP_START_MAINTENANCE, "RspStMtn");
   ("ReqStopMaintenance", MSG_ID_REQ_STOP_MAINTENANCE, "ReqSpMtn");
   ("RspStopMaintenance", MSG_ID_RSP_STOP_MAINTENANCE, "RspSpMtn");
   ("ReqUploadFile", MSG_ID_REQ_UPLOAD_FILE, "ReqUpl");
   ("RspUploadFile", MSG_ID_RSP_UPLOAD_FILE, "RspUpl");
   ("ReqUploadFileSlice", MSG_ID_REQ_UPLOAD_FILESLICE, "ReqUpLFS");
   ("RspUploadFileSlice", MSG_ID_RSP_UPLOAD_FILESLICE, "RspUpLFS");
   ("ReqBackupFileSlice", MSG_ID_REQ_BACKUP_FILESLICE, "ReqBULFS");
   ("RspBackupFileSlice", MSG_ID_RSP_BACKUP_FILESLICE, "RspBULFS");
   ("ReqUploadSlicesWrong", MSG_ID_REQ_UPLOAD_SLICES_WRONG, "ReqUSW");
   ("RspUploadSlicesWrong", MSG_ID_RSP_UPLOAD_SLICES_WRONG, "RspUSW");
   ("ReqReportUploadSliceResult", MSG_ID_REQ_REPORT_UPLOAD_SLICE_RESULT, "ReqUFR");
   ("RspReportUploadSliceResult", MSG_ID_RSP_REPORT_UPLOAD_SLICE_RESULT, "RspUFR");
   ("UploadSpeedOfProgress", MSG_ID_UPLOAD_SPEED_OF_PROGRESS, "USOP");
   ("ReqFindMyFileList", MSG_ID_REQ_FIND_MY_FILELIST, "ReqFFL");
   ("RspFindMyFileList", MSG_ID_RSP_FIND_MY_FILELIST, "RspFFL");
   ("ReqDeleteFile", MSG_ID_REQ_DELETE_FILE, "ReqDF");
   ("RspDeleteFile", MSG_ID_RSP_DELETE_FILE, "RspDF");
   ("ReqGetHDInfo", MSG_ID_REQ_GET_HDINFO, "ReqHDI");
   ("RspGetHDInfo", MSG_ID_RSP_GET_HDINFO, "RspHDI");
   ("ReqFileStorageInfo", MSG_ID_REQ_FILE_STORAGEINFO, "ReqQDLF");
   ("RspFileStorageInfo", MSG_ID_RSP_FILE_STORAGEINFO, "RspQDLF");
   ("ReqDownloadSlice", MSG_ID_REQ_DOWNLOAD_SLICE, "ReqDLFS");
   ("RspDownloadSlice", MSG_ID_RSP_DOWNLOAD_SLICE, "RspDLFS");
   ("ReqReportDownloadResult", MSG_ID_REQ_REPORT_DOWNLOAD_RESULT, "ReqDLRep");
   ("RspReportDownloadResult", MSG_ID_RSP_REPORT_DOWNLOAD_RESULT, "RspDLRep");
   ("ReqDownloadTaskInfo", MSG_ID_REQ_DOWNLOAD_TASKINFO, "ReqDLTI");
   ("RspDownloadTaskInfo", MSG_ID_RSP_DOWNLOAD_TASKINFO, "RspDLTI");
   ("ReqDownloadFileWrong", MSG_ID_REQ_DOWNLOAD_FILE_WRONG, "ReqDFW");
   ("RspDownloadFileWrong", MSG_ID_RSP_DOWNLOAD_FILE_WRONG, "RspDFW");
   ("ReqClearDownloadTask", MSG_ID_REQ_CLEAR_DOWNLOAD_TASK, "ReqCDT");
   ("ReqRegisterNewPP", MSG_ID_REQ_REGISTER_NEWPP, "ReqRgNPP");
   ("RspRegisterNewPP", MSG_ID_RSP_REGISTER_NEWPP, "RspRgNPP");
   ("NoticeFileSliceBackup", MSG_ID_NOTICE_FILESLICE_BACKUP, "NotFSB");
   ("ReqTransferDownload", MSG_ID_REQ_TRANSFER_DOWNLOAD, "ReqTdl");
   ("RspTransferDownload", MSG_ID_RSP_TRANSFER_DOWNLOAD, "RspTdl");
   ("ReqTransferDownloadWrong", MSG_ID_REQ_TRANSFER_DOWNLOAD_WRONG, "ReqTDW");
   ("RspTransferDownloadWrong", MSG_ID_RSP_TRANSFER_DOWNLOAD_WRONG, "RspTDW");
   ("NoticeFileSliceVerify", MSG_ID_NOTICE_FILESLICE_VERIFY, "NotFSV");
   ("ReqVerifyDownload", MSG_ID_REQ_VERIFY_DOWNLOAD, "ReqVdl");
   ("RspVerifyDownload", MSG_ID_RSP_VERIFY_DOWNLOAD, "RspVdl");
   ("ReqReportVerifyResult", MSG_ID_REQ_VERIFY_RESULT, "ReqVR");
   ("RspReportVerifyResult", MSG_ID_RSP_VERIFY_RESULT, "RspVR");
   ("RspVerifyDownloadResult", MSG_ID_RSP_VERIFY_DOWNLOAD_RESULT, "RspVdlR");
   ("RspTransferDownloadResult", MSG_ID_RSP_TRANSFER_DOWNLOAD_RESULT, "RspTdlR");
   ("ReqReportBackupSliceResult", MSG_ID_REQ_REPORT_BACKUP_SLICE_RESULT, "ReqRBSR");
   ("RspReportBackupSliceResult", MSG_ID_RSP_REPORT_BACKUP_SLICE_RESULT, "RspRBSR");
   ("ReqFileBackupStatus", MSG_ID_REQ_FILE_BACKUP_STATUS, "ReqFBSt");
   ("RspFileBackupStatus", MSG_ID_RSP_FILE_BACKUP_STATUS, "RspFBSt");
   ("ReqFileReplicaInfo", MSG_ID_REQ_FILE_REPLICA_INFO, "ReqFRpIn");
   ("RspFileReplicaInfo", MSG_ID_RSP_FILE_REPLICA_INFO, "RspFRpIn");
   ("ReqFileStatus", MSG_ID_REQ_FILE_STATUS, "ReqFStat");
   ("RspFileStatus", MSG_ID_RSP_FILE_STATUS, "RspFStat");
   ("ReqShareLink", MSG_ID_REQ_SHARELINK, "ReqSL");
   ("RspShareLink", MSG_ID_RSP_SHARELINK, "RspSL");
   ("ReqShareFile", MSG_ID_REQ_SHARE_FILE, "ReqSF");
   ("RspShareFile", MSG_ID_RSP_SHARE_FILE, "RspSF");
   ("ReqDeleteShare", MSG_ID_REQ_DELETE_SHARE, "ReqDSF");
   ("RspDeleteShare", MSG_ID_RSP_DELETE_SHARE, "RspDSF");
   ("ReqGetShareFile", MSG_ID_REQ_GET_SHAREFILE, "ReqGSF");
   ("RspGetShareFile", MSG_ID_RSP_GET_SHAREFILE, "RspGSF");
   ("ReqSpLatencyCheck", MSG_ID_REQ_SP_LATENCY_CHECK, "ReqSpLat");
   ("RspSpLatencyCheck", MSG_ID_RSP_SP_LATENCY_CHECK, "RspSpLat");
   ("ReqReportNodeStatus", MSG_ID_REQ_REPORT_NODESTATUS, "ReqRNS");
   ("RspReportNodeStatus", MSG_ID_RSP_REPORT_NODESTATUS, "RspRNS");
   ("ReqSpStatus", MSG_ID_REQ_SP_STATUS, "ReqSpSta");
   ("RspSpStatus", MSG_ID_RSP_SP_STATUS, "RspSpSta");
   ("ReqBLSSignature", MSG_ID_REQ_BLS_SIGNATURE, "ReqBLS");
   ("RspBLSSignature", MSG_ID_RSP_BLS_SIGNATURE, "RspBLS");
   ("RspBadVersion", MSG_ID_RSP_BADVERSION, "RspBdVer");
   ("NoticeSpUnderMaintenance", MSG_ID_NOTICE_SP_UNDERMAINTENANCE, "NotMtnc");
   ("ReqClearExpiredShareLinks", MSG_ID_REQ_CLEAR_EXPIRED_SHARE_LINKS, "ReqCESL");
   ("RspClearExpiredShareLinks", MSG_ID_RSP_CLEAR_EXPIRED_SHARE_LINKS, "RspCESL")].

Definition init : Registry :=
  foldl (fun r '(_, m, name) => registerOneMessageType r (msg_id m) name)
        registeredMessages0 registrations.

Definition GetMsgTypeFromId (r : Registry) (id : Z) : option MsgType :=
  if bool_decide (NUMBER_MESSAGE_TYPES ≤ id) then None
  else mjoin (r !! Z.to_nat id).

Definition GetReqIdFromRspId (reqId : Z) : Z :=
  match msg_of_id reqId with
  | Some MSG_ID_RSP_GET_SPLIST => msg_id MSG_ID_REQ_GET_SPLIST
  | Some MSG_ID_RSP_GET_PPSTATUS => msg_id MSG_ID_REQ_GET_PPSTATUS
  | Some MSG_ID_RSP_GET_PPDOWNGRADEINFO => msg_id MSG_ID_REQ_GET_PPDOWNGRADEINFO
  | Some MSG_ID_RSP_GET_WALLETOZ => msg_id MSG_ID_REQ_GET_WALLETOZ
  | Some MSG_ID_RSP_REGISTER => msg_id MSG_ID_REQ_REGISTER
  | Some MSG_ID_RSP_ACTIVATE_PP => msg_id MSG_ID_REQ_ACTIVATE_PP
  | Some MSG_ID_RSP_UPDATE_STAKE_PP => msg_id MSG_ID_REQ_UPDATE_STAKE_PP
  | Some MSG_ID_RSP_STATE_CHANGE_PP => msg_id MSG_ID_REQ_STATE_CHANGE_PP
  | Some MSG_ID_RSP_DEACTIVATE_PP => msg_id MSG_ID_REQ_DEACTIVATE_PP
  | Some MSG_ID_RSP_PREPAY => msg_id MSG_ID_REQ_PREPAY
  | Some MSG_ID_RSP_PREPAID => msg_id MSG_ID_REQ_PREPAID
  | Some MSG_ID_RSP_MINING => msg_id MSG_ID_REQ_MINING
  | Some MSG_ID_RSP_START_MAINTENANCE => msg_id MSG_ID_REQ_START_MAINTENANCE
  | Some MSG_ID_RSP_STOP_MAINTENANCE => msg_id MSG_ID_REQ_STOP_MAINTENANCE
  | Some MSG_ID_RSP_UPLOAD_FILE => msg_id MSG_ID_REQ_UPLOAD_FILE
  | Some MSG_ID_RSP_UPLOAD_FILESLICE => msg_id MSG_ID_REQ_UPLOAD_FILESLICE
  | Some MSG_ID_RSP_BACKUP_FILESLICE => msg_id MSG_ID_REQ_BACKUP_FILESLICE
  | Some MSG_ID_RSP_UPLOAD_SLICES_WRONG => msg_id MSG_ID_REQ_UPLOAD_SLICES_WRONG
  | Some MSG_ID_RSP_REPORT_UPLOAD_SLICE_RESULT => msg_id MSG_ID_REQ_REPORT_UPLOAD_SLICE_RESULT
  | Some MSG_ID_RSP_FIND_MY_FILELIST => msg_id MSG_ID_REQ_FIND_MY_FILELIST
  | Some MSG_ID_RSP_DELETE_FILE => msg_id MSG_ID_REQ_DELETE_FILE
  | Some MSG_ID_RSP_GET_HDINFO => msg_id MSG_ID_REQ_GET_HDINFO
  | Some MSG_ID_RSP_FILE_STORAGEINFO => msg_id MSG_ID_REQ_FILE_STORAGEINFO
  | Some MSG_ID_RSP_DOWNLOAD_SLICE => msg_id MSG_ID_REQ_DOWNLOAD_SLICE
  | Some MSG_ID_RSP_REPORT_DOWNLOAD_RESULT => msg_id MSG_ID_REQ_REPORT_DOWNLOAD_RESULT
  | Some MSG_ID_RSP_DOWNLOAD_TASKINFO => msg_id MSG_ID_REQ_DOWNLOAD_TASKINFO
  | Some MSG_ID_RSP_DOWNLOAD_FILE_WRONG => msg_id MSG_ID_REQ_DOWNLOAD_FILE_WRONG
  | Some MSG_ID_RSP_REGISTER_NEWPP => msg_id MSG_ID_REQ_REGISTER_NEWPP
  | Some MSG_ID_RSP_TRANSFER_DOWNLOAD => msg_id MSG_ID_REQ_TRANSFER_DOWNLOAD
  | Some MSG_ID_RSP_TRANSFER_DOWNLOAD_WRONG => msg_id MSG_ID_REQ_TRANSFER_DOWNLOAD_WRONG
  | Some MSG_ID_RSP_VERIFY_DOWNLOAD => msg_id MSG_ID_RSP_VERIFY_DOWNLOAD
  | Some MSG_ID_RSP_REPORT_BACKUP_SLICE_RESULT => msg_id MSG_ID_REQ_REPORT_BACKUP_SLICE_RESULT
  | Some MSG_ID_RSP_FILE_BACKUP_STATUS => msg_id MSG_ID_REQ_FILE_BACKUP_STATUS
  | Some MSG_ID_RSP_FILE_REPLICA_INFO => msg_id MSG_ID_REQ_FILE_REPLICA_INFO
  | Some MSG_ID_RSP_FILE_STATUS => msg_id MSG_ID_REQ_FILE_STATUS
  | Some MSG_ID_RSP_SHARELINK => msg_id MSG_ID_REQ_SHARELINK
  | Some MSG_ID_RSP_SHARE_FILE => msg_id MSG_ID_REQ_SHARE_FILE
  | Some MSG_ID_RSP_DELETE_SHARE => msg_id MSG_ID_REQ_DELETE_SHARE
  | Some MSG_ID_RSP_GET_SHAREFILE => msg_id MSG_ID_REQ_GET_SHAREFILE
  | Some MSG_ID_RSP_SP_LATENCY_CHECK => msg_id MSG_ID_REQ_SP_LATENCY_CHECK
  | Some MSG_ID_RSP_REPORT_NODESTATUS => msg_id MSG_ID_REQ_REPORT_NODESTATUS
  | Some MSG_ID_RSP_SP_STATUS => msg_id MSG_ID_REQ_SP_STATUS
  | Some MSG_ID_RSP_BLS_SIGNATURE => msg_id MSG_ID_REQ_BLS_SIGNATURE
  | Some MSG_ID_RSP_CLEAR_EXPIRED_SHARE_LINKS => msg_id MSG_ID_REQ_CLEAR_EXPIRED_SHARE_LINKS
  | _ => msg_id MSG_ID_INVALID
  end.

(** ** The message header *)

Definition MsgHeaderLen : Z := 21.

Record MessageHead := mkMessageHead {
  Tag : Z;      (* int16 *)
  Len : Z;      (* uint32 *)
  DataLen : Z;  (* uint32 *)
  Cmd : Z;      (* uint8 *)
  ReqId : Z;    (* int64 *)
  Version : Z   (* uint16 *)
}.

Definition MakeMessageHeader (tag version length : Z) (cmd : MsgType) : MessageHead :=
  {| Tag := tag; Len := length; DataLen := 0; Cmd := Id cmd; ReqId := 0; Version := version |}.

Definition CopyMessageHeader (mh : MessageHead) : MessageHead :=
  {| Tag := Tag mh; Len := Len mh; DataLen := DataLen mh;
     Cmd := Cmd mh; ReqId := ReqId mh; Version := Version mh |}.

Definition head_fields (h : MessageHead) : list bytes :=
  [Int16ToBytes (Tag h); Uint32ToBytes (Len h); Uint32ToBytes (DataLen h);
   Uint8ToBytes (Cmd h); Uint64ToBytes (u64 (ReqId h)); Uint16ToBytes (Version h)].

(** [h.Encode(data)]: the new contents of [data] and the number of bytes. *)
Definition Encode (h : MessageHead) (data : bytes) : bytes * nat :=
  copy_seq data 0 (head_fields h).

Definition Decode (packet : bytes) : res MessageHead :=
  let i := 0 in
  tag ← slice packet i (i + SIZE_OF_INT16);
  let i := i + SIZE_OF_INT16 in
  len ← slice packet i (i + SIZE_OF_UINT32);
  let i := i + SIZE_OF_UINT32 in
  dlen ← slice packet i (i + SIZE_OF_UINT32);
  let i := i + SIZE_OF_UINT32 in
  cmd ← index packet i;
  let i := i + SIZE_OF_UINT8 in
  reqid ← slice packet i (i + SIZE_OF_UINT64);
  let i := i + SIZE_OF_UINT64 in
  ver ← slice packet i (i + SIZE_OF_UINT16);
  Ok {| Tag := BytesToInt16 tag; Len := BytesToUInt32 len; DataLen := BytesToUInt32 dlen;
        Cmd := Z_of_byte cmd; ReqId := i64 (BytesToUInt64 reqid);
        Version := BytesToUint16 ver |}.

(** ** The header codec *)

(** The fields fit the widths of the struct. *)
Definition wf_head (h : MessageHead) : Prop :=
  in_s 16 (Tag h) ∧ in_u 32 (Len h) ∧ in_u 32 (DataLen h) ∧ in_u 8 (Cmd h)
  ∧ in_s 64 (ReqId h) ∧ in_u 16 (Version h).

(** The 21 bytes of a header. *)
Definition head_bytes (h : MessageHead) : bytes := concat (head_fields h).

Lemma length_head_bytes h : length (head_bytes h) = 21%nat.
Proof. done. Qed.

Lemma zlen_head_bytes h : zlen (head_bytes h) = MsgHeaderLen.
Proof. done. Qed.

Lemma Encode_fits h data :
  (21 ≤ length data)%nat → Encode h data = (head_bytes h ++ drop 21 data, 21%nat).
Proof.
  intros Hd. unfold Encode. rewrite copy_seq_fits; done.
Qed.

Lemma index_mid a b c i : i = zlen a → index (a ++ b :: c) i = Ok b.
Proof.
  intros ->. unfold index. rewrite bool_decide_eq_true_2 by apply zlen_nonneg.
  rewrite list_lookup_middle; [done|]. unfold zlen. lia.
Qed.

(** Each slice taken by [Decode] is the field [Encode] wrote there. *)
Lemma Decode_fields t l d c r v rest :
  length t = 2%nat → length l = 4%nat → length d = 4%nat → length r = 8%nat →
  length v = 2%nat →
  Decode (t ++ l ++ d ++ c :: r ++ v ++ rest)
  = Ok {| Tag := BytesToInt16 t; Len := BytesToUInt32 l; DataLen := BytesToUInt32 d;
          Cmd := Z_of_byte c; ReqId := i64 (BytesToUInt64 r); Version := BytesToUint16 v |}.
Proof.
  intros Ht Hl Hd Hr Hv. unfold Decode. cbv zeta.
  unfold SIZE_OF_INT16, SIZE_OF_UINT32, SIZE_OF_UINT64, SIZE_OF_UINT16, SIZE_OF_UINT8.
  set (t4 := t ++ l). set (t8 := t4 ++ d). set (t9 := t8 ++ [c]). set (t17 := t9 ++ r).
  assert (t ++ l ++ d ++ c :: r ++ v ++ rest = t4 ++ d ++ c :: r ++ v ++ rest) as E4
    by (unfold t4; by rewrite <- app_assoc).
  assert (t ++ l ++ d ++ c :: r ++ v ++ rest = t8 ++ c :: r ++ v ++ rest) as E8
    by (rewrite E4; unfold t8; by rewrite <- app_assoc).
  assert (t ++ l ++ d ++ c :: r ++ v ++ rest = t9 ++ r ++ v ++ rest) as E9
    by (rewrite E8; unfold t9; by rewrite <- app_assoc).
  assert (t ++ l ++ d ++ c :: r ++ v ++ rest = t17 ++ v ++ rest) as E17
    by (rewrite E9; unfold t17; by rewrite <- app_assoc).
  assert (zlen t4 = 6 ∧ zlen t8 = 10 ∧ zlen t9 = 11 ∧ zlen t17 = 19) as (Z4 & Z8 & Z9 & Z17)
    by (unfold t17, t9, t8, t4; rewrite !zlen_app; unfold zlen; simpl; lia).
  rewrite (slice_head t _ (0 + 2)) by (unfold zlen; rewrite ?Ht, ?Hl; done). cbn [mbind res_bind].
  rewrite (slice_mid t l _ (0 + 2) (0 + 2 + 4)) by (unfold zlen; rewrite ?Ht, ?Hl; done). cbn [mbind res_bind].
  rewrite E4, (slice_mid t4 d _ (0 + 2 + 4) (0 + 2 + 4 + 4)), <- E4, E8 by (unfold zlen in *; lia). cbn [mbind res_bind].
  rewrite (index_mid t8 c _ (0 + 2 + 4 + 4)), <- E8, E9 by lia. cbn [mbind res_bind].
  rewrite (slice_mid t9 r _ (0 + 2 + 4 + 4 + 1) (0 + 2 + 4 + 4 + 1 + 8)), <- E9, E17 by (unfold zlen in *; lia). cbn [mbind res_bind].
  rewrite (slice_mid t17 v) by (unfold zlen in *; lia). cbn [mbind res_bind].
  done.
Qed.

Lemma Decode_head_bytes h rest : wf_head h → Decode (head_bytes h ++ rest) = Ok h.
Proof.
  intros (Ht & Hl & Hd & Hc & Hr & Hv). unfold head_bytes, head_fields.
  cbn [concat]. rewrite app_nil_r, <- !app_assoc.
  change (Uint8ToBytes (Cmd h) ++ ?x) with (byte_of_Z (Cmd h / 1) :: x).
  rewrite Decode_fields by (apply length_be_encode).
  rewrite BytesToInt16_Int16ToBytes by done.
  unfold BytesToUInt32, Uint32ToBytes, BytesToUInt64, Uint64ToBytes, BytesToUint16, Uint16ToBytes.
  rewrite !binary_read_id by (done || by apply wrapu_range).
  rewrite wraps_wrapu, wraps_id by (done || lia).
  rewrite Z_of_byte_of_Z, Z.div_1_r, Z.mod_small by exact Hc. by destruct h.
Qed.

Lemma Decode_short packet : zlen packet < MsgHeaderLen → ∃ e, Decode packet = Panic e.
Proof.
  unfold MsgHeaderLen. intros H. unfold Decode, slice, index.
  repeat (case_bool_decide || case_match; cbn [mbind res_bind]; try by eauto).
  all: unfold SIZE_OF_INT16, SIZE_OF_UINT32, SIZE_OF_UINT64, SIZE_OF_UINT16, SIZE_OF_UINT8 in *. lia.
Qed.

(** ** The registry *)

Lemma msg_of_id_msg_id m : msg_of_id (msg_id m) = Some m.
Proof. by destruct m. Qed.

#[global] Instance msg_id_inj : Inj (=) (=) msg_id.
Proof. intros a b E. pose proof (msg_of_id_msg_id a). rewrite E, msg_of_id_msg_id in H. congruence. Qed.

Lemma msg_id_range m : 0 ≤ msg_id m < NUMBER_MESSAGE_TYPES.
Proof. by destruct m. Qed.

Definition registered_ok (id : Z) : bool :=
  match GetMsgTypeFromId init id with
  | Some t => bool_decide (0 < id < NUMBER_MESSAGE_TYPES ∧ Id t = id ∧ (String.length (Name t) ≤ 8)%nat)
  | None => bool_decide (¬ 0 < id < NUMBER_MESSAGE_TYPES)
  end.

Lemma all_registered : all_below 256 registered_ok = true.
Proof. vm_compute. done. Qed.

Lemma registration_names_NoDup : NoDup (registrations.*2).
Proof. apply (bool_decide_unpack _). vm_compute. done. Qed.


(** The request and the response that [GetReqIdFromRspId] pairs have wire names
    [Req..] and [Rsp..] with the same suffix. *)
Definition name_prefix (t : MsgType) : string := String.substring 0 3 (Name t).
Definition name_suffix (t : MsgType) : string := String.substring 3 8 (Name t).

Definition paired (idq idr : Z) : bool :=
  match GetMsgTypeFromId init idq, GetMsgTypeFromId init idr with
  | Some tq, Some tr =>
      bool_decide (name_prefix tq = "Req" ∧ name_prefix tr = "Rsp" ∧ name_suffix tq = name_suffix tr)
  | _, _ => false
  end.

Definition pair_ok (r : Z) : bool :=
  let q := GetReqIdFromRspId r in
  bool_decide (q = msg_id MSG_ID_INVALID) || paired q r
  || bool_decide (r = msg_id MSG_ID_RSP_VERIFY_DOWNLOAD).

(** Every pair of names is found by the switch, but for the two verification
    responses. *)
Definition unpaired_rsp (r : Z) : Prop :=
  r = msg_id MSG_ID_RSP_VERIFY_DOWNLOAD ∨ r = msg_id MSG_ID_RSP_VERIFY_RESULT.
#[global] Instance unpaired_rsp_dec r : Decision (unpaired_rsp r) := _.

Definition pair_complete (r : Z) : bool :=
  all_below 256 (fun q => negb (paired q r) || bool_decide (unpaired_rsp r)
                          || bool_decide (GetReqIdFromRspId r = q)).

Lemma all_pair_ok : all_below 256 pair_ok = true.
Proof. vm_compute. done. Qed.
Lemma all_pair_complete : all_below 256 pair_complete = true.
Proof. vm_compute. done. Qed.

(** Encoding a header whose fields fit their widths into a buffer of at
    least 21 bytes writes exactly 21 bytes, leaves the rest of the buffer alone,
    and decoding the buffer gives the header back. *)
Theorem header_roundtrip (h : MessageHead) (data : bytes) :
  wf_head h → (21 ≤ length data)%nat →
  let '(d, n) := Encode h data in
  Z.of_nat n = MsgHeaderLen ∧ Decode d = Ok h ∧ drop 21 d = drop 21 data
  ∧ length d = length data.
Proof.
  intros Hh Hd. rewrite Encode_fits by done. split_and!; [done|by apply Decode_head_bytes|..].
  - by rewrite drop_app_length'.
  - rewrite length_app, length_head_bytes, length_drop. lia.
Qed.

Lemma header_roundtrip_witness :
  let h := mkMessageHead (-1) 300 7 103 (-5) 12 in
  let '(d, n) := Encode h (replicate 24 Byte.xff) in
  Z.of_nat n = MsgHeaderLen ∧ Decode d = Ok h ∧ drop 21 d = drop 21 (replicate 24 Byte.xff)
  ∧ length d = length (replicate 24 Byte.xff).
Proof.
  apply (header_roundtrip (mkMessageHead (-1) 300 7 103 (-5) 12) (replicate 24 Byte.xff)).
  - unfold wf_head, in_s, in_u. simpl. lia.
  - simpl. lia.
Defined.

(** After [init] every message id but [MSG_ID_INVALID] has a registered
    type carrying that id, a wire name of at most eight characters, and no name
    is used twice; ids outside the table have none. *)
Theorem registry_complete (id : Z) :
  0 ≤ id < 256 →
  match GetMsgTypeFromId init id with
  | Some t => 0 < id < NUMBER_MESSAGE_TYPES ∧ Id t = id ∧ (String.length (Name t) ≤ 8)%nat
  | None => id = msg_id MSG_ID_INVALID ∨ NUMBER_MESSAGE_TYPES ≤ id
  end ∧ NoDup (registrations.*2).
Proof.
  intros Hid. split; [|apply registration_names_NoDup].
  pose proof (all_below_spec _ _ all_registered id Hid) as H. unfold registered_ok in H.
  destruct (GetMsgTypeFromId init id); apply bool_decide_eq_true in H; [done|].
  change (msg_id MSG_ID_INVALID) with 0. lia.
Qed.

Lemma registry_complete_witness :
  match GetMsgTypeFromId init 104 with
  | Some t => 0 < 104 < NUMBER_MESSAGE_TYPES ∧ Id t = 104 ∧ (String.length (Name t) ≤ 8)%nat
  | None => 104 = msg_id MSG_ID_INVALID ∨ NUMBER_MESSAGE_TYPES ≤ 104
  end ∧ NoDup (registrations.*2).
Proof. apply (registry_complete 104). lia. Defined.

(** [GetReqIdFromRspId] answers a request id only for the response of that
    request (same wire name after the [Rsp]/[Req] prefix), and finds the request
    of every response but [RspVdl] and [RspVR]. *)
Theorem rsp_req_pairing (r q : Z) :
  0 ≤ r < 256 → 0 ≤ q < 256 → ¬ unpaired_rsp r →
  (GetReqIdFromRspId r = q ∧ q ≠ msg_id MSG_ID_INVALID) ↔ paired q r = true.
Proof.
  intros Hr Hq Hu.
  pose proof (all_below_spec _ _ all_pair_ok r Hr) as Hok.
  pose proof (all_below_spec _ _ all_pair_complete r Hr) as Hc.
  apply (all_below_spec _ _) with (z := q) in Hc; [|done].
  unfold pair_ok in Hok. rewrite (bool_decide_eq_false_2 (unpaired_rsp r)) in Hc by done.
  rewrite (bool_decide_eq_false_2 (r = _)) in Hok by (unfold unpaired_rsp in Hu; tauto).
  split.
  - intros [<- Hne]. rewrite bool_decide_eq_false_2 in Hok by done.
    by rewrite orb_false_r in Hok.
  - intros Hp. rewrite Hp in Hc. simpl in Hc. apply bool_decide_eq_true in Hc.
    split; [done|]. intros ->. unfold paired in Hp. by vm_compute in Hp.
Qed.

Lemma rsp_req_pairing_witness :
  (GetReqIdFromRspId 2 = 1 ∧ 1 ≠ msg_id MSG_ID_INVALID) ↔ paired 1 2 = true.
Proof.
  apply (rsp_req_pairing 2 1); [lia|lia|]. by intros [?|?].
Defined.

(** The two verification responses are not mapped to their requests: the
    response to a verify-download request is answered with its own id, and the
    response to a verify-result report with [MSG_ID_INVALID]. *)
Theorem verify_responses_unmapped :
  GetReqIdFromRspId (msg_id MSG_ID_RSP_VERIFY_DOWNLOAD) = msg_id MSG_ID_RSP_VERIFY_DOWNLOAD
  ∧ paired (msg_id MSG_ID_REQ_VERIFY_DOWNLOAD) (msg_id MSG_ID_RSP_VERIFY_DOWNLOAD) = true
  ∧ GetReqIdFromRspId (msg_id MSG_ID_RSP_VERIFY_RESULT) = msg_id MSG_ID_INVALID
  ∧ paired (msg_id MSG_ID_REQ_VERIFY_RESULT) (msg_id MSG_ID_RSP_VERIFY_RESULT) = true.
Proof. vm_compute. done. Qed.
