(* ===== verification/Message.v ===== *)
(** * Message: signed messages and their layout in a send buffer

    Models framework/msg/sign.go and framework/msg/msg.go.  A message on the
    wire is

      header (21) | body (Len) | sender address (44) | public key (32) |
      signature (64) | data

    and the signature covers header and body.  The hash and the two signature
    checks are an interface, [NodeCrypto]: their code is Keccak, ed25519 and
    bech32, whose inner workings this file does not depend on. *)
From S2P Require Import Prelude Bytes Header.

(** ** The cryptographic interface *)

Class NodeCrypto := {
  CalcHashBytes : bytes → bytes;               (* crypto.CalcHashBytes *)
  VerifyP2pAddrBytes : bytes → string → bool;  (* public key, bech32 address *)
  VerifyP2pSignBytes : bytes → bytes → bytes → bool (* public key, signature, message *)
}.

Definition SignatureSize : Z := 64.
Definition PubKeySize : Z := 32.
Definition P2pAddressBech32Length : Z := 44.
Definition MsgSignLen : Z := SignatureSize + P2pAddressBech32Length + PubKeySize.
Definition ThresholdToHashBeforeSign : Z := 128.

(** A [nil] slice is [None]; [Signer] may fail. *)
Record MessageSign := mkMessageSign {
  Signature : option bytes;
  P2pAddress : string;
  P2pPubKey : option bytes;
  Signer : bytes → res bytes
}.

Record RelayMsgBuf := mkRelayMsgBuf {
  PacketId : Z;
  MSGHead : MessageHead;
  MSGSign : MessageSign;
  MSGBody : bytes;
  MSGData : bytes
}.

Section Message.
Context {NC : NodeCrypto}.

(** ** Signing and verifying *)

Definition sign_msg (hb : bytes) : bytes :=
  if bool_decide (ThresholdToHashBeforeSign < zlen hb) then CalcHashBytes hb else hb.

Definition Sign (s : MessageSign) (hb : bytes) : res MessageSign :=
  signature ← Signer s (sign_msg hb);
  Ok (mkMessageSign (Some signature) (P2pAddress s) (P2pPubKey s) (Signer s)).

Definition Verify (s : MessageSign) (hb : bytes) (remoteP2pAddr : string) : res unit :=
  match P2pPubKey s, Signature s with
  | Some pub, Some sig =>
      if bool_decide (P2pAddress s = "") then Err "missing information"
      else if negb (bool_decide (P2pAddress s = remoteP2pAddr))
      then Err "wrong source p2p address from msg"
      else if negb (VerifyP2pAddrBytes pub (P2pAddress s))
      then Err "p2p address doesn't match public key"
      else if negb (VerifyP2pSignBytes pub sig (sign_msg hb)) then Err "wrong signature"
      else Ok tt
  | _, _ => Err "missing information"
  end.

(** ** The signature block *)

Definition sign_fields (s : MessageSign) : list bytes :=
  [string_bytes (P2pAddress s); default [] (P2pPubKey s); default [] (Signature s)].

(** [s.Encode(sign)]: the new contents of [sign] and the number of bytes. *)
Definition EncodeSign (s : MessageSign) (sign : bytes) : bytes * nat :=
  copy_seq sign 0 (sign_fields s).

(** [s.Decode(sign)]: the decoded block and the number of bytes read. *)
Definition DecodeSign (s : MessageSign) (sign : bytes) : res (MessageSign * Z) :=
  let i := 0 in
  addr ← slice sign i (i + P2pAddressBech32Length);
  let i := i + P2pAddressBech32Length in
  pub ← slice sign i (i + PubKeySize);
  let i := i + PubKeySize in
  sig ← slice sign i (i + SignatureSize);
  let i := i + SignatureSize in
  Ok (mkMessageSign (Some sig) (bytes_string addr) (Some pub) (Signer s), i).

(** ** [PutIntoBuffer]

    [alloc n] is the memory [cmem.Alloc(n)] hands out, uninitialised.  A signer
    that fails leaves the buffer without a signature block and the count 0. *)
Definition PutIntoBuffer (alloc : Z → bytes) (r msg : RelayMsgBuf) : res (bytes * Z) :=
  let totalLength := u32 (Len (MSGHead r) + MsgHeaderLen + MsgSignLen + u32 (zlen (MSGData msg))) in
  if bool_decide (2 ^ 30 < totalLength) then Panic "slice bounds out of range" else
  let data := alloc totalLength in
  hd ← slice data 0 MsgHeaderLen;
  let '(hd', n) := Encode (MSGHead r) hd in
  let data := (copy_at data 0 hd').1 in
  let i := n in
  let '(data, n) := copy_at data i (MSGBody msg) in
  let i := (i + n)%nat in
  match Sign (MSGSign r) (take i data) with
  | Panic e => Panic e
  | Err _ => Ok (data, 0)
  | Ok s =>
      let '(tail, n) := EncodeSign s (drop i data) in
      let data := take i data ++ tail in
      let i := (i + n)%nat in
      let '(data, n) := copy_at data i (MSGData msg) in
      Ok (data, Z.of_nat (i + n))
  end.

Definition GetHeader (data : bytes) : res bytes := slice data 0 MsgHeaderLen.
Definition GetBytesAfterHeader (data : bytes) : res bytes := slice data MsgHeaderLen (zlen data).

(** ** Lemmas on the signature block *)

Definition sign_bytes (s : MessageSign) : bytes := concat (sign_fields s).

(** The three parts have the widths [Decode] assumes. *)
Definition wf_sign (s : MessageSign) : Prop :=
  zlen (string_bytes (P2pAddress s)) = P2pAddressBech32Length
  ∧ (∃ pub, P2pPubKey s = Some pub ∧ zlen pub = PubKeySize)
  ∧ (∃ sig, Signature s = Some sig ∧ zlen sig = SignatureSize).

Lemma zlen_sign_bytes s : wf_sign s → zlen (sign_bytes s) = MsgSignLen.
Proof.
  intros (Ha & (pub & Hp & Hpl) & (sig & Hs & Hsl)).
  unfold sign_bytes, sign_fields. cbn [concat]. rewrite Hp, Hs, !zlen_app, Ha. simpl.
  rewrite Hpl, Hsl. done.
Qed.

Lemma DecodeSign_bytes s0 s rest :
  wf_sign s → DecodeSign s0 (sign_bytes s ++ rest)
  = Ok (mkMessageSign (Signature s) (P2pAddress s) (P2pPubKey s) (Signer s0), MsgSignLen).
Proof.
  intros (Ha & (pub & Hp & Hpl) & (sig & Hs & Hsl)).
  unfold DecodeSign, sign_bytes, sign_fields. cbn [concat]. rewrite Hp, Hs. cbn [from_option id].
  rewrite app_nil_r, <- !app_assoc. cbv zeta.
  set (a := string_bytes (P2pAddress s)) in *. rewrite !Z.add_0_l.
  rewrite (slice_head a) by done. cbn [mbind res_bind].
  rewrite (slice_mid a pub _ P2pAddressBech32Length (P2pAddressBech32Length + PubKeySize)) by lia.
  cbn [mbind res_bind]. rewrite (app_assoc a pub).
  rewrite (slice_mid (a ++ pub) sig) by (rewrite !zlen_app; lia). cbn [mbind res_bind].
  unfold a. rewrite bytes_string_bytes. done.
Qed.

Lemma EncodeSign_fits s data :
  wf_sign s → MsgSignLen ≤ zlen data →
  EncodeSign s data = (sign_bytes s ++ drop (length (sign_bytes s)) data, length (sign_bytes s)).
Proof.
  intros Hs Hd. pose proof (zlen_sign_bytes s Hs) as Hl. unfold EncodeSign.
  rewrite copy_seq_fits; fold (sign_bytes s); [done|]. unfold zlen in *. lia.
Qed.

Lemma Verify_ok s hb addr :
  Verify s hb addr = Ok tt →
  ∃ pub sig, P2pPubKey s = Some pub ∧ Signature s = Some sig ∧ P2pAddress s = addr
    ∧ VerifyP2pAddrBytes pub addr = true ∧ VerifyP2pSignBytes pub sig (sign_msg hb) = true.
Proof.
  unfold Verify. intros H.
  destruct (P2pPubKey s) as [pub|]; [|done]. destruct (Signature s) as [sig|]; [|done].
  case_bool_decide; [done|]. case_bool_decide as Ha; [|done]. simpl in H.
  destruct (VerifyP2pAddrBytes pub _) eqn:E1; [|done].
  destruct (VerifyP2pSignBytes pub _ _) eqn:E2; [|done].
  exists pub, sig. by rewrite <- Ha.
Qed.

(** ** The layout of a send buffer *)

(** The message [m] signed with [sig]. *)
Definition with_signature (s : MessageSign) (sig : bytes) : MessageSign :=
  mkMessageSign (Some sig) (P2pAddress s) (P2pPubKey s) (Signer s).

Definition packet_bytes (m : RelayMsgBuf) (sig : bytes) : bytes :=
  head_bytes (MSGHead m) ++ MSGBody m ++ sign_bytes (with_signature (MSGSign m) sig) ++ MSGData m.

(** A message its sender can put in a buffer: the header announces the length
    of the body, and the signer answers header and body with [sig]. *)
Record sendable (m : RelayMsgBuf) (sig : bytes) : Prop := {
  sendable_head : wf_head (MSGHead m);
  sendable_len : Len (MSGHead m) = zlen (MSGBody m);
  sendable_sign : wf_sign (with_signature (MSGSign m) sig);
  sendable_signer :
    Signer (MSGSign m) (sign_msg (head_bytes (MSGHead m) ++ MSGBody m)) = Ok sig;
  sendable_size : MsgHeaderLen + zlen (MSGBody m) + MsgSignLen + zlen (MSGData m) ≤ 2 ^ 30
}.

Context (alloc : Z → bytes) (alloc_len : ∀ n, 0 ≤ n → zlen (alloc n) = n).

Lemma alloc_segments m sn tot :
  tot = 21 + zlen (MSGBody m) + Z.of_nat sn + zlen (MSGData m) →
  ∃ m1 m2 m3 m4, alloc tot = m1 ++ m2 ++ m3 ++ m4 ∧ length m1 = 21%nat
    ∧ length m2 = length (MSGBody m) ∧ length m3 = sn ∧ length m4 = length (MSGData m).
Proof.
  intros Htot. unfold zlen in *. pose proof (alloc_len tot ltac:(lia)) as Hl. unfold zlen in Hl.
  destruct (split_len (alloc tot) 21 (length (MSGBody m) + (sn + length (MSGData m))))
    as (m1 & r1 & -> & ? & H1); [lia|].
  destruct (split_len r1 _ _ H1) as (m2 & r2 & -> & ? & H2).
  destruct (split_len r2 _ _ H2) as (m3 & m4 & -> & ? & ?).
  by exists m1, m2, m3, m4.
Qed.

(** Writing header, body, signature block and data over the four segments. *)
Lemma PutIntoBuffer_segments m r sig m1 m2 m3 m4 :
  sendable m sig → MSGHead r = MSGHead m → MSGSign r = MSGSign m →
  alloc (zlen (MSGBody m) + MsgHeaderLen + MsgSignLen + zlen (MSGData m)) = m1 ++ m2 ++ m3 ++ m4 →
  length m1 = 21%nat → length m2 = length (MSGBody m) →
  length m3 = length (sign_bytes (with_signature (MSGSign m) sig)) →
  length m4 = length (MSGData m) →
  PutIntoBuffer alloc r m = Ok (packet_bytes m sig, zlen (packet_bytes m sig)).
Proof.
  intros [Hh Hlen Hs Hsig Hsz] Er Es Hmem L1 L2 L3 L4. unfold PutIntoBuffer. rewrite Er, Es, Hlen.
  pose proof (zlen_nonneg (MSGBody m)) as Hb0. pose proof (zlen_nonneg (MSGData m)) as Hd0.
  pose proof (zlen_sign_bytes _ Hs) as Hsl. unfold MsgHeaderLen, MsgSignLen in *.
  change (SignatureSize + P2pAddressBech32Length + PubKeySize) with 140 in *.
  rewrite (wrapu_id 32 (zlen (MSGData m))) by (unfold in_u; lia).
  rewrite wrapu_id by (unfold in_u; lia). rewrite bool_decide_eq_false_2 by lia. rewrite Hmem.
  rewrite (slice_head m1) by (unfold zlen; lia). cbn [mbind res_bind].
  rewrite Encode_fits, drop_ge, app_nil_r by lia.
  pose proof (copy_at_mid [] m1 (m2 ++ m3 ++ m4) (head_bytes (MSGHead m))) as E1.
  cbn [length app] in E1. rewrite E1 by (rewrite length_head_bytes; lia). cbn [fst].
  rewrite (copy_at_mid (head_bytes (MSGHead m)) m2) by lia.
  rewrite (app_assoc (head_bytes _)).
  rewrite take_app_length', drop_app_length' by (rewrite length_app; done).
  unfold Sign. rewrite Hsig. cbn [mbind res_bind]. fold (with_signature (MSGSign m) sig).
  rewrite EncodeSign_fits by (done || (unfold zlen in *; rewrite length_app; change MsgSignLen with 140; lia)).
  rewrite drop_app_length' by lia.
  set (pre := head_bytes (MSGHead m) ++ MSGBody m).
  pose proof (copy_at_mid (pre ++ sign_bytes (with_signature (MSGSign m) sig)) m4 [] (MSGData m)) as E2.
  rewrite !app_nil_r, <- app_assoc in E2.
  replace (length (pre ++ sign_bytes (with_signature (MSGSign m) sig)))
    with (21 + length (MSGBody m) + length (sign_bytes (with_signature (MSGSign m) sig)))%nat in E2
    by (unfold pre; rewrite !length_app; done).
  rewrite E2 by lia. unfold packet_bytes, zlen, pre. rewrite <- !app_assoc.
  do 2 f_equal. rewrite !length_app, length_head_bytes. lia.
Qed.

Lemma PutIntoBuffer_layout m r sig :
  sendable m sig → MSGHead r = MSGHead m → MSGSign r = MSGSign m →
  PutIntoBuffer alloc r m = Ok (packet_bytes m sig, zlen (packet_bytes m sig)).
Proof.
  intros Hm Er Es. pose proof (zlen_sign_bytes _ (sendable_sign _ _ Hm)) as Hsl.
  destruct (alloc_segments m (length (sign_bytes (with_signature (MSGSign m) sig)))
    (zlen (MSGBody m) + MsgHeaderLen + MsgSignLen + zlen (MSGData m))) as (m1 & m2 & m3 & m4 & ? & ? & ? & ? & ?).
  { unfold zlen, MsgHeaderLen in *. lia. }
  by eapply PutIntoBuffer_segments.
Qed.

End Message.
