(* ===== verification/Codec.v ===== *)
(** * Codec: frames and the first message of a connection

    Models framework/core/utils.go, the constants of framework/core/types.go
    and framework/crypto/encryption/encryption.go.  Everything a connection
    writes after its first message is a frame

      nonce (8) | length (4) | payload

    with an AES-GCM ciphertext as payload, or the plaintext and nonce 0 when
    there is no key.  AES-GCM is the standard library's: an interface with its
    documented laws.  A connection's input is the list of bytes still to be
    read; [io.ReadFull] fails when it runs out. *)
From S2P Require Import Prelude Bytes.

(** ** AES-GCM *)

Class GCM := {
  gcm_key_ok : bytes → bool;                      (* aes.NewCipher succeeds *)
  gcm_seal : bytes → bytes → bytes → bytes;       (* key, 12-byte nonce, plaintext *)
  gcm_open : bytes → bytes → bytes → option bytes (* key, 12-byte nonce, ciphertext *)
}.

(** Documented behaviour: opening what was sealed gives the plaintext back, and
    a ciphertext is the plaintext's length plus the 16-byte tag. *)
Class GCMLaws (G : GCM) : Prop := {
  gcm_open_seal k n p : gcm_key_ok k = true → gcm_open k n (gcm_seal k n p) = Some p;
  gcm_seal_len k n p : zlen (gcm_seal k n p) = zlen p + 16
}.

Section Encryption.
Context {G : GCM}.

Definition gcm_nonce (nonce : Z) : bytes := replicate 4 Byte.x00 ++ Uint64ToBytes nonce.

Definition EncryptAES (key plaintext : bytes) (nonce : Z) : res bytes :=
  if gcm_key_ok key then Ok (gcm_seal key (gcm_nonce nonce) plaintext)
  else Err "crypto/aes: invalid key size".

(** The plaintext; [dstToCiphertext] only says which memory it is written to. *)
Definition DecryptAES (key ciphertext : bytes) (nonce : Z) : res bytes :=
  if gcm_key_ok key then
    match gcm_open key (gcm_nonce nonce) ciphertext with
    | Some p => Ok p
    | None => Err "cipher: message authentication failed"
    end
  else Err "crypto/aes: invalid key size".

Lemma DecryptAES_EncryptAES `{!GCMLaws G} k p n c :
  EncryptAES k p n = Ok c → DecryptAES k c n = Ok p ∧ zlen c = zlen p + 16.
Proof.
  unfold EncryptAES, DecryptAES. destruct (gcm_key_ok k) eqn:E; [|done]. intros [= <-].
  rewrite gcm_open_seal by done. split; [done|apply gcm_seal_len].
Qed.

(** ** Reading from a connection *)

(** [io.ReadFull] into a buffer of [n] bytes: the bytes, or [None] on a short
    stream; the number of bytes read; what is left of the stream. *)
Definition ReadFull (n : Z) (c : bytes) : option bytes * Z * bytes :=
  if bool_decide (n ≤ zlen c) then (Some (take (Z.to_nat n) c), n, drop (Z.to_nat n) c)
  else (None, zlen c, []).

Lemma ReadFull_app a b n : n = zlen a → ReadFull n (a ++ b) = (Some a, n, b).
Proof.
  intros ->. unfold ReadFull. rewrite bool_decide_eq_true_2.
  - rewrite take_app_length', drop_app_length' by (unfold zlen; lia). done.
  - rewrite zlen_app. pose proof (zlen_nonneg b). lia.
Qed.

Lemma ReadFull_len n c o k c' :
  0 ≤ n → ReadFull n c = (o, k, c') → (length c' ≤ length c)%nat ∧ k = zlen c - zlen c'.
Proof.
  intros Hn. unfold ReadFull. case_bool_decide as E; intros [= <- <- <-];
    unfold zlen in *; rewrite ?length_drop; simpl; lia.
Qed.

(** ** Frames *)

Definition EncryptionNonceSize : Z := 8.
Definition EncryptionLengthSize : Z := 4.
Definition EncryptionHeaderSize : Z := EncryptionNonceSize + EncryptionLengthSize.

(** [Pack(privKey, plaintext)], with the nonce [rand.Read] produced.  The
    payload length is written as a [uint32]. *)
Definition Pack (nonce : Z) (privKey : option bytes) (plaintext : bytes) : res bytes :=
  match privKey with
  | Some k =>
      ciphertext ← EncryptAES k plaintext nonce;
      Ok (be_encode 8 nonce ++ be_encode 4 (u32 (zlen ciphertext)) ++ ciphertext)
  | None => Ok (be_encode 8 0 ++ be_encode 4 (u32 (zlen plaintext)) ++ plaintext)
  end.

Definition unpackEncryptionHeader (data : bytes) : Z * Z :=
  if bool_decide (zlen data < EncryptionHeaderSize) then (0, 0)
  else (be_decode (take 8 data), be_decode (take 4 (drop 8 data))).

(** Result: nonce and length, or [None] for an error; bytes read; the stream. *)
Definition ReadEncryptionHeader (c : bytes) : option (Z * Z) * Z * bytes :=
  match ReadFull EncryptionHeaderSize c with
  | (None, n, c') => (None, n, c')
  | (Some buffer, n, c') => (Some (unpackEncryptionHeader buffer), n, c')
  end.

Definition Unpack (c : bytes) (privKey : option bytes) (maxBodySize : Z) : res bytes * Z * bytes :=
  match ReadEncryptionHeader c with
  | (None, n, c') => (Err "EOF", n, c')
  | (Some (nonce, dataLen), n, c') =>
      if bool_decide (u32 maxBodySize < dataLen) then (Err "message body is over sized", n, c')
      else match ReadFull dataLen c' with
           | (None, k, c'') => (Err "EOF", n + k, c'')
           | (Some buffer, k, c'') =>
               match privKey with
               | Some key => (DecryptAES key buffer nonce, n + k, c'')
               | None => (Ok buffer, n + k, c'')
               end
           end
  end.

(** A frame: what [Pack] produces, split into header and payload. *)
Definition frame (nonce : Z) (payload : bytes) : bytes :=
  be_encode 8 nonce ++ be_encode 4 (zlen payload) ++ payload.

(** The size of the tag and the nonce in the header, by whether there is a key. *)
Definition tag_len (k : option bytes) : Z := match k with Some _ => 16 | None => 0 end.
Definition frame_nonce (k : option bytes) (nonce : Z) : Z :=
  match k with Some _ => nonce | None => 0 end.

Lemma zlen_frame n p : zlen (frame n p) = EncryptionHeaderSize + zlen p.
Proof.
  unfold frame. rewrite !zlen_app, !zlen_be_encode.
  change EncryptionHeaderSize with 12. lia.
Qed.

Lemma Pack_frame nonce k p f :
  zlen p + 16 < 2 ^ 32 → Pack nonce k p = Ok f → GCMLaws G →
  ∃ n payload, f = frame n payload
    ∧ zlen payload = zlen p + tag_len k
    ∧ n = frame_nonce k nonce
    ∧ match k with Some key => DecryptAES key payload nonce = Ok p | None => payload = p end.
Proof.
  intros Hp HP HG. pose proof (zlen_nonneg p). unfold Pack in HP. destruct k as [key|].
  - destruct (EncryptAES key p nonce) as [c| |] eqn:E; try done. cbn in HP. simplify_eq.
    apply DecryptAES_EncryptAES in E as [E1 E2].
    exists nonce, c. rewrite wrapu_id by (unfold in_u; lia). split_and!; simpl; done || lia.
  - simplify_eq. exists 0, p. rewrite wrapu_id by (unfold in_u; lia).
    split_and!; simpl; done || lia.
Qed.

Lemma ReadEncryptionHeader_frame n p rest :
  in_u 64 n → zlen p < 2 ^ 32 →
  ReadEncryptionHeader (frame n p ++ rest) = (Some (n, zlen p), EncryptionHeaderSize, p ++ rest).
Proof.
  intros Hn Hp. unfold ReadEncryptionHeader, frame.
  rewrite <- !app_assoc, (app_assoc (be_encode 8 n)).
  rewrite ReadFull_app by (rewrite zlen_app, !zlen_be_encode; done).
  unfold unpackEncryptionHeader. rewrite bool_decide_eq_false_2
    by (rewrite zlen_app, !zlen_be_encode; unfold EncryptionHeaderSize; done).
  rewrite take_app_length', drop_app_length' by (by rewrite length_be_encode).
  rewrite take_ge by (by rewrite length_be_encode). rewrite !be_decode_encode, !pow256.
  pose proof (zlen_nonneg p). rewrite !Z.mod_small; [done|lia|exact Hn].
Qed.

Lemma Unpack_Pack `{!GCMLaws G} (nonce : Z) (k : option bytes) (p f rest : bytes) (max : Z) :
  in_u 64 nonce → 0 ≤ max < 2 ^ 32 → zlen p + 16 ≤ max →
  Pack nonce k p = Ok f →
  Unpack (f ++ rest) k max = (Ok p, zlen f, rest).
Proof.
  intros Hn Hmax Hp HP. destruct (Pack_frame nonce k p f) as (n & pl & -> & Hl & En & Hd); [lia|done|done|].
  unfold Unpack. pose proof (zlen_nonneg p).
  rewrite ReadEncryptionHeader_frame
    by (done || (rewrite En; destruct k; done) || (destruct k; simpl in *; lia)).
  rewrite wrapu_id by (unfold in_u; lia).
  rewrite bool_decide_eq_false_2 by (destruct k; simpl in *; lia).
  rewrite ReadFull_app by done. rewrite zlen_frame.
  destruct k; simpl in *; subst; by rewrite ?Hd.
Qed.

(** Unpacking the frame [Pack] made of a plaintext, followed by any bytes,
    yields the plaintext and leaves those bytes unread, with and without a key;
    the count is the size of the frame. *)
Theorem pack_unpack (LG : GCMLaws G) (nonce : Z) (k : option bytes) (p f rest : bytes) (max : Z) :
  in_u 64 nonce → 0 ≤ max < 2 ^ 32 → zlen p + 16 ≤ max →
  Pack nonce k p = Ok f →
  Unpack (f ++ rest) k max = (Ok p, zlen f, rest).
Proof. intros. by eapply Unpack_Pack. Qed.

(** The input left after a read is a suffix of the input. *)
Lemma ReadEncryptionHeader_shrinks c o n c' :
  ReadEncryptionHeader c = (Some o, n, c') → zlen c' = zlen c - EncryptionHeaderSize.
Proof.
  unfold ReadEncryptionHeader. destruct (ReadFull EncryptionHeaderSize c) as [[[]]] eqn:E; [|done].
  intros [= <- <- <-]. unfold ReadFull in E. case_bool_decide as H; [|done].
  simplify_eq. unfold zlen in *. rewrite length_drop. unfold EncryptionHeaderSize in *.
  change (EncryptionNonceSize + EncryptionLengthSize) with 12 in *. lia.
Qed.

Lemma Unpack_ok_shrinks c k m p n c' :
  Unpack c k m = (Ok p, n, c') → zlen c' + EncryptionHeaderSize ≤ zlen c.
Proof.
  unfold Unpack. destruct (ReadEncryptionHeader c) as [[[[nonce dl]|] n0] c0] eqn:E; [|done].
  apply ReadEncryptionHeader_shrinks in E. case_bool_decide; [done|].
  destruct (ReadFull dl c0) as [[[b|] k0] c1] eqn:E2; [|done].
  assert (zlen c1 ≤ zlen c0).
  { unfold ReadFull in E2. case_bool_decide; simplify_eq. unfold zlen. rewrite length_drop. lia. }
  destruct k; intros [= ? ? ?]; simplify_eq; lia.
Qed.

End Encryption.

(** A cipher that satisfies the laws: the tag is sixteen zero bytes. *)
Definition null_gcm : GCM := {|
  gcm_key_ok := fun k => bool_decide (length k = 32%nat);
  gcm_seal := fun _ _ p => p ++ replicate 16 Byte.x00;
  gcm_open := fun _ _ c =>
    if bool_decide (16 ≤ length c)%nat then Some (take (length c - 16) c) else None
|}.

Lemma null_gcm_laws : GCMLaws null_gcm.
Proof.
  split; cbn.
  - intros k n p _. rewrite bool_decide_eq_true_2 by (rewrite length_app; simpl; lia).
    rewrite take_app_length'; [done|]. rewrite length_app. simpl. lia.
  - intros k n p. rewrite zlen_app. done.
Qed.

Lemma pack_unpack_witness :
  let key := replicate 32 Byte.x07 in
  let p := replicate 5 Byte.x61 in
  let f := @frame 9 (p ++ replicate 16 Byte.x00) in
  @Unpack null_gcm (f ++ [Byte.x01]) (Some key) 100 = (Ok p, zlen f, [Byte.x01]).
Proof.
  apply (@pack_unpack null_gcm null_gcm_laws 9 (Some (replicate 32 Byte.x07))
           (replicate 5 Byte.x61)).
  - unfold in_u. lia.
  - lia.
  - vm_compute. done.
  - vm_compute. done.
Defined.

(** ** The first message of a connection *)

Definition ConnFirstMsgSize : Z := 30.
Definition ConnTypeClient : string := "client__".
Definition ConnTypeHandshake : string := "handshke".

(** [net.IP.To16]: a 4-byte address gets the IPv4-in-IPv6 prefix, a 16-byte
    address is itself, anything else is [nil]. *)
Definition To16 (ip : bytes) : option bytes :=
  if bool_decide (length ip = 4%nat)
  then Some (replicate 10 Byte.x00 ++ replicate 2 Byte.xff ++ ip)
  else if bool_decide (length ip = 16%nat) then Some ip else None.

Definition CreateFirstMessage (connType : string) (ip : bytes) (serverPort channelId : Z) : res bytes :=
  let buffer := replicate 30 Byte.x00 in
  ct ← slice (string_bytes connType) 0 8;
  let buffer := (copy_at buffer 0 ct).1 in
  let buffer := match To16 ip with
                | Some ip16 => (copy_at buffer 8 ip16).1
                | None => buffer
                end in
  let buffer := (copy_at buffer 24 (be_encode 2 serverPort)).1 in
  Ok (copy_at buffer 26 (be_encode 4 channelId)).1.

Definition ParseFirstMessage (data : bytes) : res (string * bytes * Z * Z) :=
  if bool_decide (zlen data ≠ ConnFirstMsgSize) then Err "Invalid first message size"
  else Ok (bytes_string (take 8 data), take 16 (drop 8 data),
           be_decode (take 2 (drop 24 data)), be_decode (take 4 (drop 26 data))).

Lemma length_To16 ip ip16 : To16 ip = Some ip16 → length ip16 = 16%nat.
Proof. unfold To16. intros. case_go. rewrite ?length_app. simpl. lia. Qed.

Lemma CreateFirstMessage_layout ct ip port ch :
  length (string_bytes ct) = 8%nat →
  CreateFirstMessage ct ip port ch
  = Ok (string_bytes ct ++ default (replicate 16 Byte.x00) (To16 ip)
        ++ be_encode 2 port ++ be_encode 4 ch).
Proof.
  intros Hct. unfold CreateFirstMessage.
  rewrite <- (app_nil_r (string_bytes ct)), slice_head by (unfold zlen; lia). cbn [mbind res_bind].
  rewrite app_nil_r. set (z := fun n => replicate n Byte.x00).
  pose proof (copy_at_mid [] (z 8%nat) (z 22%nat) (string_bytes ct)) as E1.
  cbn [app length] in E1. change (replicate 30 Byte.x00) with (z 8%nat ++ z 22%nat).
  rewrite E1 by done. cbn [fst].
  set (ip16 := default (replicate 16 Byte.x00) (To16 ip)).
  assert (length ip16 = 16%nat) as Hip.
  { unfold ip16. destruct (To16 ip) eqn:E; [by eapply length_To16|done]. }
  assert (match To16 ip with Some i => (copy_at (string_bytes ct ++ z 22%nat) 8 i).1
          | None => string_bytes ct ++ z 22%nat end = string_bytes ct ++ ip16 ++ z 6%nat) as ->.
  { unfold ip16 in *. destruct (To16 ip) as [i|]; cbn [from_option id] in *; [|done].
    pose proof (copy_at_mid (string_bytes ct) (z 16%nat) (z 6%nat) i) as E.
    rewrite Hct in E. change (z 22%nat) with (z 16%nat ++ z 6%nat). by rewrite E. }
  pose proof (copy_at_mid (string_bytes ct ++ ip16) (z 2%nat) (z 4%nat) (be_encode 2 port)) as E2.
  rewrite length_app, Hct, Hip, <- app_assoc in E2.
  change (8 + 16)%nat with 24%nat in E2. change (z 6%nat) with (z 2%nat ++ z 4%nat).
  rewrite E2 by done. cbn [fst].
  pose proof (copy_at_mid ((string_bytes ct ++ ip16) ++ be_encode 2 port) (z 4%nat) [] (be_encode 4 ch)) as E3.
  rewrite !length_app, Hct, Hip, !length_be_encode, !app_nil_r, <- !app_assoc in E3.
  change (8 + 16 + 2)%nat with 26%nat in E3.
  rewrite <- !app_assoc, E3 by done. done.
Qed.

Lemma ParseFirstMessage_layout ct ip16 port ch :
  length (string_bytes ct) = 8%nat → length ip16 = 16%nat → in_u 16 port → in_u 32 ch →
  ParseFirstMessage (string_bytes ct ++ ip16 ++ be_encode 2 port ++ be_encode 4 ch) = Ok (ct, ip16, port, ch).
Proof.
  intros Hct Hl Hp Hc. unfold ParseFirstMessage. rewrite bool_decide_eq_false_2.
  2:{ intros E. apply E. rewrite !zlen_app, !zlen_be_encode. unfold zlen. rewrite Hct, Hl. done. }
  rewrite take_app_length' by done.
  rewrite (drop_app_length' (string_bytes ct)) by done. rewrite (take_app_length' ip16) by done.
  rewrite (app_assoc (string_bytes ct)), drop_app_length' by (rewrite length_app; lia).
  rewrite take_app_length' by (by rewrite length_be_encode).
  rewrite (app_assoc (string_bytes ct ++ ip16)), drop_app_length'
    by (rewrite !length_app, length_be_encode; lia).
  rewrite take_ge by (by rewrite length_be_encode).
  rewrite bytes_string_bytes, !be_decode_encode, !pow256, !Z.mod_small by done. done.
Qed.

(** A first message is 30 bytes, which parse to what it was made of, with zeros
    for an address that is neither 4 nor 16 bytes long. *)
Lemma first_message_ok ct ip port ch :
  length (string_bytes ct) = 8%nat → in_u 16 port → in_u 32 ch →
  ∃ fm, CreateFirstMessage ct ip port ch = Ok fm ∧ zlen fm = ConnFirstMsgSize
    ∧ ParseFirstMessage fm = Ok (ct, default (replicate 16 Byte.x00) (To16 ip), port, ch).
Proof.
  intros Hct Hp Hc. rewrite CreateFirstMessage_layout by done. eexists. split; [done|].
  assert (length (default (replicate 16 Byte.x00) (To16 ip)) = 16%nat) as Hl.
  { destruct (To16 ip) eqn:E; [by eapply length_To16|done]. }
  split; [|by apply ParseFirstMessage_layout].
  rewrite !zlen_app, !zlen_be_encode. unfold zlen. by rewrite Hct, Hl.
Qed.

(** Parsing the first message that a peer created gives back the
    connection type, the address in 16-byte form, the port and the channel. *)
Theorem first_message_roundtrip (ct : string) (ip ip16 : bytes) (port ch : Z) :
  length (string_bytes ct) = 8%nat → To16 ip = Some ip16 → in_u 16 port → in_u 32 ch →
  (CreateFirstMessage ct ip port ch ≫= ParseFirstMessage) = Ok (ct, ip16, port, ch).
Proof.
  intros Hct Hip Hp Hc. destruct (first_message_ok ct ip port ch Hct Hp Hc) as (fm & -> & _ & E).
  cbn [mbind res_bind]. rewrite E, Hip. done.
Qed.

Lemma first_message_roundtrip_witness :
  let ip := map byte_of_Z [127; 0; 0; 1] in
  (CreateFirstMessage ConnTypeClient ip 18081 77 ≫= ParseFirstMessage)
  = Ok (ConnTypeClient, replicate 10 Byte.x00 ++ replicate 2 Byte.xff ++ ip, 18081, 77).
Proof.
  apply (first_message_roundtrip ConnTypeClient (map byte_of_Z [127; 0; 0; 1])).
  - done.
  - done.
  - unfold in_u. lia.
  - unfold in_u. lia.
Defined.
