(* ===== verification/Conn.v ===== *)
(** * Conn: the read and write loops of a server connection

    Models framework/core/conn.go ([readLoop], [writePacket], [Write],
    [SendBadVersionMsg], the flow counters) and the handler registry of
    framework/core/codec.go.  One iteration of [readLoop] is one call of
    [readLoop_step]; the loop is its iteration.  The connection's input is the
    list of bytes the peer will have sent, [rs_in].  A panic inside an iteration
    is recovered by the deferred function, which closes the connection, so it is
    a [Return].  The clock (deadlines, [recvStart]) and the [onRead] and
    [onWrite] callbacks are left out. *)
From S2P Require Import Prelude Bytes Header Message Codec.

#[local] Arguments head_bytes : simpl never.
#[local] Arguments sign_bytes : simpl never.
#[local] Arguments copy_at : simpl never.

(** ** Constants of framework/utils/defaults.go *)

Definition MessageBeatLen : Z := 4 * 1024 * 1024.

(** ** Flow counters (vol_record.go, increaseReadFlow, increaseWriteFlow) *)

Record volRecOpts := mkVolRecOpts {
  logInbound : bool; logOutbound : bool; logRead : bool; logWrite : bool; logAll : bool;
  allFlow : Z; readFlow : Z; secondReadFlowA : Z;
  writeFlow : Z; secondWriteFlowA : Z; inbound : Z
}.

(** [AddAndGetNew]: an [int64] sum. *)
Definition AddAndGetNew (a delta : Z) : Z := i64 (a + delta).

Definition increaseWriteFlow (v : volRecOpts) (n : Z) : volRecOpts :=
  if logAll v || logOutbound v || logWrite v then
    mkVolRecOpts (logInbound v) (logOutbound v) (logRead v) (logWrite v) (logAll v)
      (AddAndGetNew (allFlow v) n) (readFlow v) (secondReadFlowA v)
      (AddAndGetNew (writeFlow v) n) (AddAndGetNew (secondWriteFlowA v) n) (inbound v)
  else v.

Definition increaseReadFlow (v : volRecOpts) (n : Z) : volRecOpts :=
  mkVolRecOpts (logInbound v) (logOutbound v) (logRead v) (logWrite v) (logAll v)
    (if logAll v then AddAndGetNew (allFlow v) n else allFlow v)
    (if logRead v then AddAndGetNew (readFlow v) n else readFlow v)
    (if logRead v then AddAndGetNew (secondReadFlowA v) n else secondReadFlowA v)
    (writeFlow v) (secondWriteFlowA v)
    (if logInbound v then AddAndGetNew (inbound v) n else inbound v).

Section Conn.
Context {NC : NodeCrypto} {G : GCM}.
Context {HandlerFunc : Type}.

(** ** The handler registry (codec.go) *)

Definition MessageRegistry := list (option HandlerFunc).

Definition messageRegistry0 : MessageRegistry :=
  replicate (Z.to_nat NUMBER_MESSAGE_TYPES) None.

Definition Register (r : MessageRegistry) (cmd : MsgType) (h : HandlerFunc) : MessageRegistry :=
  <[Z.to_nat (Id cmd) := Some h]> r.

Definition GetHandlerFunc (r : MessageRegistry) (id : Z) : option HandlerFunc :=
  if bool_decide (NUMBER_MESSAGE_TYPES ≤ id) then None else mjoin (r !! Z.to_nat id).

(** ** A connection *)

Record ServerConn := mkServerConn {
  sharedKey : option bytes;      (* nil before the handshake *)
  encryptMessage : bool;
  remoteP2pAddress : string;
  minAppVer : Z;
  bufferSize : Z;                (* capacity of the buffers of the pool *)
  messageRegistry : MessageRegistry
}.

Definition conn_key (sc : ServerConn) : option bytes :=
  if encryptMessage sc then sharedKey sc else None.

(** What [asyncWrite] takes from its context: the request and packet ids, 0 when
    the context has none, and the id [GenerateNewReqId] would make for a command. *)
Record WriteCtx := mkWriteCtx { ctx_ReqId : Z; ctx_PacketId : Z; ctx_newReqId : Z → Z }.

Definition asyncWrite (sendCh : list RelayMsgBuf) (m : RelayMsgBuf) (ctx : WriteCtx) : list RelayMsgBuf :=
  let h := MSGHead m in
  let reqId := if bool_decide (ReqId h = 0)
               then if bool_decide (ctx_ReqId ctx = 0) then ctx_newReqId ctx (Cmd h) else ctx_ReqId ctx
               else ReqId h in
  let h := mkMessageHead (Tag h) (Len h) (DataLen h) (Cmd h) reqId (Version h) in
  sendCh ++ [mkRelayMsgBuf (ctx_PacketId ctx) h (MSGSign m) (MSGBody m) (MSGData m)].

(** [sc.Write]: queue a message for the write loop, refused when it carries no
    sender. *)
Definition Write (sendCh : list RelayMsgBuf) (m : RelayMsgBuf) (ctx : WriteCtx) : res (list RelayMsgBuf) :=
  match P2pPubKey (MSGSign m) with
  | Some _ =>
      if bool_decide (P2pAddress (MSGSign m) = "") then Err "missing sign related information"
      else Ok (asyncWrite sendCh m ctx)
  | None => Err "missing sign related information"
  end.

(** The zero value of [MessageSign]: no key, no address, a nil signer. *)
Definition noSign : MessageSign :=
  mkMessageSign None "" None (fun _ => Panic "invalid memory address or nil pointer dereference").

(** [sc.SendBadVersionMsg(data)]: the queue afterwards; the error is logged.
    [newReqId] is what [GenerateNewReqId] would return. *)
Definition SendBadVersionMsg (sc : ServerConn) (newReqId : Z) (sendCh : list RelayMsgBuf) (data : bytes)
  : list RelayMsgBuf :=
  let m := mkRelayMsgBuf 0
    (MakeMessageHeader 1 (minAppVer sc) (u32 (zlen data))
       (mkMsgType (msg_id MSG_ID_RSP_BADVERSION) "RspBdVer")) noSign data [] in
  match Write sendCh m (mkWriteCtx 0 0 (fun _ => newReqId)) with Ok q => q | _ => sendCh end.

(** ** The read loop *)

(** The variables of [readLoop] that live across iterations, the unread input,
    and what the loop has put on [handlerCh] (oldest first) and on [sendCh]. *)
Record ReadState := mkReadState {
  rs_listenHeader : bool;
  rs_i : Z;
  rs_msgBuf : bytes;
  rs_msgH : MessageHead;
  rs_msgS : MessageSign;
  rs_in : bytes;
  rs_flow : volRecOpts;
  rs_handlerCh : list (RelayMsgBuf * HandlerFunc);
  rs_sendCh : list RelayMsgBuf
}.

Inductive loop_res := Continue (s : ReadState) | Return (why : string) (s : ReadState).

Definition set_input (s : ReadState) (n : Z) (c : bytes) : ReadState :=
  mkReadState (rs_listenHeader s) (rs_i s) (rs_msgBuf s) (rs_msgH s) (rs_msgS s) c
    (increaseReadFlow (rs_flow s) n) (rs_handlerCh s) (rs_sendCh s).
Definition set_buf (s : ReadState) (b : bytes) : ReadState :=
  mkReadState (rs_listenHeader s) (rs_i s) b (rs_msgH s) (rs_msgS s) (rs_in s)
    (rs_flow s) (rs_handlerCh s) (rs_sendCh s).
Definition set_i (s : ReadState) (i : Z) : ReadState :=
  mkReadState (rs_listenHeader s) i (rs_msgBuf s) (rs_msgH s) (rs_msgS s) (rs_in s)
    (rs_flow s) (rs_handlerCh s) (rs_sendCh s).
Definition set_sign (s : ReadState) (sg : MessageSign) : ReadState :=
  mkReadState (rs_listenHeader s) (rs_i s) (rs_msgBuf s) (rs_msgH s) sg (rs_in s)
    (rs_flow s) (rs_handlerCh s) (rs_sendCh s).
Definition set_head (s : ReadState) (listen : bool) (h : MessageHead) : ReadState :=
  mkReadState listen (rs_i s) (rs_msgBuf s) h (rs_msgS s) (rs_in s)
    (rs_flow s) (rs_handlerCh s) (rs_sendCh s).
Definition put_sendCh (s : ReadState) (q : list RelayMsgBuf) : ReadState :=
  mkReadState (rs_listenHeader s) (rs_i s) (rs_msgBuf s) (rs_msgH s) (rs_msgS s) (rs_in s)
    (rs_flow s) (rs_handlerCh s) q.
Definition put_handlerCh (s : ReadState) (m : RelayMsgBuf * HandlerFunc) : ReadState :=
  mkReadState (rs_listenHeader s) (rs_i s) (rs_msgBuf s) (rs_msgH s) (rs_msgS s) (rs_in s)
    (rs_flow s) (rs_handlerCh s ++ [m]) (rs_sendCh s).

(** Run a computation that may fail, returning from the loop when it does. *)
Definition try_ {A} (s : ReadState) (what : string) (r : res A) (k : A → loop_res) : loop_res :=
  match r with
  | Ok a => k a
  | Err _ => Return what s
  | Panic _ => Return "panic occurs" s
  end.

(** [listenHeader]: read the frame of a header.  [onBadAppVer] builds the body
    of the answer to a peer that is too old. *)
Definition read_header (sc : ServerConn) (onBadAppVer : Z → Z → Z → bytes) (newReqId : Z) (s : ReadState) : loop_res :=
  let '(r, n, c) := Unpack (rs_in s) (conn_key sc) MessageBeatLen in
  let s := set_input s n c in
  try_ s "read header err" r (fun headerBytes =>
  try_ s "" (slice headerBytes 0 MsgHeaderLen) (fun hb =>
  let s := set_buf s (copy_at (rs_msgBuf s) 0 hb).1 in
  try_ s "" (slice (rs_msgBuf s) 0 MsgHeaderLen ≫= Decode) (fun h =>
  if bool_decide (Version h < minAppVer sc) then
    let q := SendBadVersionMsg sc newReqId (rs_sendCh s) (onBadAppVer (Version h) (Cmd h) (minAppVer sc)) in
    Return "fwmsg versions don't match" (put_sendCh (set_head s true h) q)
  else Continue (set_head s false h)))).

(** The inner loop that reads the second part into [msgBuf], at most 1024 bytes
    at a time.  [fuel] bounds the number of reads. *)
Fixpoint read_chunks (fuel : nat) (secondPartLen pos : Z) (s : ReadState) : loop_res :=
  if bool_decide (rs_i s < secondPartLen) then
    match fuel with
    | O => Return "out of fuel" s
    | S fuel =>
        let onereadlen := if bool_decide (secondPartLen - rs_i s < 1024)
                          then secondPartLen - rs_i s else 1024 in
        if bool_decide (pos + onereadlen ≤ zlen (rs_msgBuf s)) then
          match ReadFull onereadlen (rs_in s) with
          | (None, n, c) => Return "fwmsg body err" (set_input s n c)
          | (Some b, n, c) =>
              let s := set_input s n c in
              let s := set_buf s (copy_at (rs_msgBuf s) (Z.to_nat pos) b).1 in
              read_chunks fuel secondPartLen (pos + n) (set_i s (rs_i s + n))
          end
        else Return "panic occurs" s
    end
  else Continue s.

(** Decrypt the second part in place: the buffer and the end of the plaintext. *)
Definition open_second_part (sc : ServerConn) (buf : bytes) (nonce secondPartLen : Z) : res (bytes * Z) :=
  let posBody := MsgHeaderLen in
  if encryptMessage sc then
    ct ← slice buf posBody (u32 (posBody + secondPartLen));
    pt ← DecryptAES (default [] (sharedKey sc)) ct nonce;
    Ok ((copy_at buf (Z.to_nat posBody) pt).1, u32 (posBody + u32 (zlen pt)))
  else Ok (buf, u32 (posBody + secondPartLen)).

(** [RequestBuffer()[:n]] filled with the data part of the buffer. *)
Definition take_data (sc : ServerConn) (buf : bytes) (posData posEnd : Z) : res bytes :=
  if bool_decide (posData < posEnd) then
    if bool_decide (posEnd - posData ≤ bufferSize sc) then slice buf posData posEnd
    else Panic "slice bounds out of range"
  else Ok [].

(** All bytes of the second part are in [msgBuf]: decrypt, verify, dispatch. *)
Definition handle_second_part (sc : ServerConn) (nonce secondPartLen : Z) (s : ReadState) : loop_res :=
  let h := rs_msgH s in
  let posBody := MsgHeaderLen in
  let posSign := u32 (posBody + Len h) in
  let posData := u32 (posSign + MsgSignLen) in
  try_ s "fwmsg body decryption err" (open_second_part sc (rs_msgBuf s) nonce secondPartLen)
    (fun '(buf, posEnd) =>
  let s := set_buf s buf in
  try_ s "" (slice buf posSign posData ≫= DecodeSign (rs_msgS s)) (fun '(sg, _) =>
  let s := set_sign s sg in
  try_ s "" (slice buf 0 posSign) (fun hb =>
  match Verify sg hb (remoteP2pAddress sc) with
  | Err _ => Continue s (* "failed signature verification": continue *)
  | Panic _ => Return "panic occurs" s
  | Ok _ =>
      try_ s "" (slice buf posBody posSign) (fun body =>
      try_ s "" (take_data sc buf posData posEnd) (fun data =>
      let msg := mkRelayMsgBuf 0 (CopyMessageHeader h) noSign body data in
      match GetHandlerFunc (messageRegistry sc) (Cmd h) with
      | None =>
          let h0 := mkMessageHead (Tag h) 0 (DataLen h) (Cmd h) (ReqId h) (Version h) in
          Continue (set_i (set_head s true h0) 0)
      | Some handler => Continue (set_i (set_head (put_handlerCh s (msg, handler)) true h) 0)
      end))
  end))).

Definition read_second_part (sc : ServerConn) (s : ReadState) : loop_res :=
  match ReadEncryptionHeader (rs_in s) with
  | (None, n, c) => Return "read encrypted header err" (set_input s n c)
  | (Some (nonce, secondPartLen), n, c) =>
      let s := set_input s n c in
      if bool_decide (MessageBeatLen < secondPartLen) then Return "over sized" s
      else
        match read_chunks (Z.to_nat (secondPartLen - rs_i s)) secondPartLen MsgHeaderLen s with
        | Return why s => Return why s
        | Continue s =>
            if bool_decide (u32 (rs_i s) = secondPartLen) then handle_second_part sc nonce secondPartLen s
            else Return "msgH.Len doesn't match the size of data" s
        end
  end.

(** One iteration of the loop; [closed] when the connection or the server is done. *)
Definition readLoop_step (sc : ServerConn) (onBadAppVer : Z → Z → Z → bytes) (newReqId : Z)
    (closed : bool) (s : ReadState) : loop_res :=
  if closed then Return "closes" s
  else if rs_listenHeader s then read_header sc onBadAppVer newReqId s
  else read_second_part sc s.

(** The loop, for at most [fuel] iterations on a connection nobody closes. *)
Fixpoint readLoop (fuel : nat) (sc : ServerConn) (onBadAppVer : Z → Z → Z → bytes) (newReqId : Z)
    (s : ReadState) : loop_res :=
  match fuel with
  | O => Continue s
  | S fuel =>
      match readLoop_step sc onBadAppVer newReqId false s with
      | Continue s' => readLoop fuel sc onBadAppVer newReqId s'
      | Return why s' => Return why s'
      end
  end.

(** The state in which [readLoop] enters its loop. *)
Definition readLoop_init (c : bytes) (v : volRecOpts) : ReadState :=
  mkReadState true 0 (replicate (Z.to_nat MessageBeatLen) Byte.x00)
    (mkMessageHead 0 0 0 0 0 0) noSign c v [] [].

(** ** Writing a packet *)

(** [net.Conn.Write]: [budget] is how many more bytes the peer accepts, [None]
    for no limit; the bytes written, the budget left, and whether it failed. *)
Definition net_write (budget : option Z) (data : bytes) : bytes * option Z * bool :=
  match budget with
  | None => (data, None, true)
  | Some k => if bool_decide (zlen data ≤ k) then (data, Some (k - zlen data), true)
              else (take (Z.to_nat k) data, Some 0, false)
  end.

(** The loop that writes the second frame, 1024 bytes at a time; a failed write
    ends it. *)
Fixpoint write_chunks (fuel : nat) (data : bytes) (budget : option Z) (v : volRecOpts) (out : bytes)
  : bytes * volRecOpts :=
  match data, fuel with
  | [], _ | _, O => (out, v)
  | _, S fuel =>
      let chunk := take 1024 data in
      match net_write budget chunk with
      | (w, b, true) => write_chunks fuel (drop 1024 data) b (increaseWriteFlow v (zlen w)) (out ++ w)
      | (w, b, false) => (out ++ w, v)
      end
  end.

Record WriteEnv := mkWriteEnv {
  we_alloc : Z → bytes;       (* cmem.Alloc *)
  we_nonce1 : Z;              (* the random nonces of the two frames *)
  we_nonce2 : Z;
  we_budget : option Z;       (* what the peer still accepts *)
  we_hooks : list Z           (* message ids of sc.writeHook with a function *)
}.

(** What [writePacket] leaves behind: the bytes on the wire, the counters, the
    hooks that ran, and its error. *)
Record WriteResult := mkWriteResult {
  wr_out : bytes; wr_flow : volRecOpts; wr_hooks : list Z; wr_err : option string
}.

Definition writePacket (sc : ServerConn) (e : WriteEnv) (v : volRecOpts) (m : RelayMsgBuf) : res WriteResult :=
  let packet := mkRelayMsgBuf (PacketId m) (MSGHead m) (MSGSign m) [] [] in
  '(buf, _) ← PutIntoBuffer (we_alloc e) packet m;
  hdr ← GetHeader buf;
  match Pack (we_nonce1 e) (conn_key sc) hdr with
  | Panic x => Panic x
  | Err _ => Ok (mkWriteResult [] v [] (Some "server cannot encrypt header"))
  | Ok encodedHeader =>
      match net_write (we_budget e) encodedHeader with
      | (w, _, false) => Ok (mkWriteResult w v [] (Some "server write err"))
      | (w, budget, true) =>
          let v := increaseWriteFlow v (zlen encodedHeader) in
          rest ← GetBytesAfterHeader buf;
          match Pack (we_nonce2 e) (conn_key sc) rest with
          | Panic x => Panic x
          | Err _ => Ok (mkWriteResult w v [] (Some "server cannot encrypt msg"))
          | Ok encodedData =>
              let '(out, v) := write_chunks (length encodedData) encodedData budget v w in
              Ok (mkWriteResult out v (filter (fun c => Cmd (MSGHead m) = c) (we_hooks e)) None)
          end
      end
  end.

(** ** The write loop *)

(** Take packets off [sendCh] until it is empty or a write fails; each comes
    with the environment of its write.  The bytes sent, the counters, the
    packets left, and the failure. *)
Fixpoint write_queue (sc : ServerConn) (v : volRecOpts) (q : list (WriteEnv * RelayMsgBuf))
  : bytes * volRecOpts * list (WriteEnv * RelayMsgBuf) * option string :=
  match q with
  | [] => ([], v, [], None)
  | (e, m) :: q =>
      match writePacket sc e v m with
      | Panic x => ([], v, q, Some x)
      | Err x => ([], v, q, Some x)
      | Ok wr =>
          match wr_err wr with
          | Some x => (wr_out wr, wr_flow wr, q, Some x)
          | None =>
              let '(out, v', q', x) := write_queue sc (wr_flow wr) q in
              (wr_out wr ++ out, v', q', x)
          end
      end
  end.

(** [writeLoop] on the packets queued before the connection closes: the loop,
    then the deferred function, which drains what is left until a write fails.
    A panic in the loop is recovered; one in the drain is not and ends the
    process, and the result is then what had been sent before it. *)
Definition writeLoop (sc : ServerConn) (v : volRecOpts) (q : list (WriteEnv * RelayMsgBuf))
  : bytes * volRecOpts * list (WriteEnv * RelayMsgBuf) :=
  let '(out, v, q, _) := write_queue sc v q in
  let '(out', v, q, _) := write_queue sc v q in
  (out ++ out', v, q).

(** ** Lemmas on the write side *)

Lemma write_chunks_all fuel data v out :
  (length data ≤ fuel)%nat → (write_chunks fuel data None v out).1 = out ++ data.
Proof.
  revert data v out. induction fuel as [|fuel IH]; intros [|b data] v out Hf;
    cbn [write_chunks]; try (simpl in *; lia); rewrite ?app_nil_r; try done.
  unfold net_write. rewrite IH by (rewrite length_drop; simpl in *; lia).
  by rewrite <- app_assoc, take_drop.
Qed.

(** The part of a packet after the header. *)
Definition second_part (m : RelayMsgBuf) (sig : bytes) : bytes :=
  MSGBody m ++ sign_bytes (with_signature (MSGSign m) sig) ++ MSGData m.

Lemma packet_split m sig : packet_bytes m sig = head_bytes (MSGHead m) ++ second_part m sig.
Proof. done. Qed.

Lemma zlen_second_part m sig :
  sendable m sig → zlen (second_part m sig) = zlen (MSGBody m) + MsgSignLen + zlen (MSGData m).
Proof.
  intros H. unfold second_part. rewrite !zlen_app, (zlen_sign_bytes _ (sendable_sign _ _ H)). lia.
Qed.

(** A packet its peer accepts goes out as two frames, header and second part. *)
Lemma writePacket_frames sc e v m sig :
  (∀ n, 0 ≤ n → zlen (we_alloc e n) = n) → we_budget e = None → sendable m sig →
  match Pack (we_nonce1 e) (conn_key sc) (head_bytes (MSGHead m)),
        Pack (we_nonce2 e) (conn_key sc) (second_part m sig) with
  | Ok f1, Ok f2 => ∃ wr, writePacket sc e v m = Ok wr ∧ wr_out wr = f1 ++ f2 ∧ wr_err wr = None
  | _, _ => True
  end.
Proof.
  intros Ha Hb Hm. unfold writePacket.
  rewrite (PutIntoBuffer_layout (we_alloc e) Ha m _ sig) by done. cbn [mbind res_bind].
  unfold GetHeader, GetBytesAfterHeader. rewrite packet_split, slice_head by done.
  cbn [mbind res_bind]. destruct (Pack (we_nonce1 e) _ _) as [f1| |]; try done.
  rewrite Hb. cbn [net_write].
  rewrite <- (app_nil_r (second_part m sig)), slice_mid, app_nil_r
    by (rewrite ?zlen_app, ?zlen_nil, zlen_head_bytes; lia).
  cbn [mbind res_bind]. destruct (Pack (we_nonce2 e) _ _) as [f2| |]; try done.
  destruct (write_chunks _ _ _ _ _) as [out v'] eqn:E.
  eexists. split; [done|]. cbn. split; [|done].
  replace out with (write_chunks (length f2) f2 None (increaseWriteFlow v (zlen f1)) f1).1 by (by rewrite E).
  by apply write_chunks_all.
Qed.

(** ** Lemmas on the read side *)

Definition ready (s : ReadState) : Prop :=
  rs_listenHeader s = true ∧ rs_i s = 0 ∧ zlen (rs_msgBuf s) = MessageBeatLen.

Lemma read_chunks_all fuel L pos s a b c payload rest :
  rs_in s = payload ++ rest → zlen payload = L - rs_i s →
  (length payload ≤ fuel)%nat →
  rs_msgBuf s = a ++ b ++ c → zlen a = pos → length b = length payload →
  ∃ fl, read_chunks fuel L pos s
    = Continue (mkReadState (rs_listenHeader s) L (a ++ payload ++ c) (rs_msgH s) (rs_msgS s)
                  rest fl (rs_handlerCh s) (rs_sendCh s)).
Proof.
  revert pos s a b payload. induction fuel as [|fuel IH]; intros pos s a b payload Hin HL Hf Hbuf Ha Hb.
  { destruct payload; [|simpl in Hf; lia]. destruct b; [|done]. rewrite zlen_nil in HL.
    cbn [read_chunks]. rewrite bool_decide_eq_false_2 by lia.
    exists (rs_flow s). destruct s; simpl in *; subst. do 2 f_equal. lia. }
  cbn [read_chunks]. case_bool_decide as Hlt.
  2:{ destruct payload; [|unfold zlen in HL; simpl in HL; lia]. destruct b; [|done].
      rewrite zlen_nil in HL. exists (rs_flow s). destruct s; simpl in *; subst. do 2 f_equal. lia. }
  set (k := if bool_decide (L - rs_i s < 1024) then L - rs_i s else 1024).
  assert (0 < k ≤ zlen payload) as Hk by (unfold k; case_bool_decide; lia).
  destruct (split_len payload (Z.to_nat k) (length payload - Z.to_nat k)) as (p1 & p2 & -> & Hp1 & Hp2);
    [unfold zlen in Hk; lia|].
  destruct (split_len b (Z.to_nat k) (length b - Z.to_nat k)) as (b1 & b2 & -> & Hb1 & Hb2);
    [unfold zlen in Hk; lia|].
  rewrite bool_decide_eq_true_2.
  2:{ rewrite Hbuf, !zlen_app, Ha. pose proof (zlen_nonneg c). pose proof (zlen_nonneg b2).
      unfold zlen in *. lia. }
  rewrite Hin, <- app_assoc, ReadFull_app by (unfold zlen; lia).
  cbn [rs_msgBuf set_input]. rewrite Hbuf.
  replace (Z.to_nat pos) with (length a) by (unfold zlen in Ha; lia).
  rewrite <- app_assoc, copy_at_mid by lia. cbn [fst].
  match goal with |- ∃ fl, read_chunks _ _ _ ?st = _ => set (s' := st) end.
  destruct (IH (pos + k) s' (a ++ p1) b2 p2) as (fl & E).
  - done.
  - rewrite zlen_app in HL. cbn. unfold zlen in *. lia.
  - rewrite length_app in Hf. lia.
  - cbn. by rewrite <- app_assoc.
  - rewrite zlen_app. unfold zlen in *. lia.
  - rewrite !length_app in *. lia.
  - exists fl. etransitivity; [exact E|]. cbn. by rewrite <- !app_assoc.
Qed.

Context `{!GCMLaws G}.

(** The receiver's key is there when it is asked to decrypt. *)
Definition keyed (sc : ServerConn) : Prop := encryptMessage sc = true → is_Some (sharedKey sc).

Lemma slice_all (b : bytes) j : j = zlen b → slice b 0 j = Ok b.
Proof. intros ->. rewrite <- (app_nil_r b) at 1. by apply slice_head. Qed.

Lemma Decode_head h : wf_head h → Decode (head_bytes h) = Ok h.
Proof. intros Hh. rewrite <- (app_nil_r (head_bytes h)). by apply Decode_head_bytes. Qed.

Lemma slice_prefix (a b c : bytes) j : j = zlen a + zlen b → slice (a ++ b ++ c) 0 j = Ok (a ++ b).
Proof. intros ->. rewrite app_assoc. apply slice_head. by rewrite zlen_app. Qed.

Lemma read_header_ok sc ob nr s h nonce f rest :
  zlen (rs_msgBuf s) = MessageBeatLen → wf_head h → minAppVer sc ≤ Version h → in_u 64 nonce →
  Pack nonce (conn_key sc) (head_bytes h) = Ok f → rs_in s = f ++ rest →
  ∃ fl, read_header sc ob nr s
    = Continue (mkReadState false (rs_i s) (head_bytes h ++ drop 21 (rs_msgBuf s)) h (rs_msgS s)
                  rest fl (rs_handlerCh s) (rs_sendCh s)).
Proof.
  intros Hbuf Hh Hv Hn HP Hin. unfold read_header. rewrite Hin.
  erewrite Unpack_Pack by (done || (rewrite zlen_head_bytes; done)).
  cbn [try_]. rewrite slice_all by done. cbn [try_].
  assert (21 ≤ length (rs_msgBuf s))%nat as Hl by (unfold zlen, MessageBeatLen in Hbuf; lia).
  cbn [set_buf set_input rs_msgBuf]. rewrite copy_at_fits by (rewrite length_head_bytes; lia).
  cbn [fst take app]. rewrite length_head_bytes. cbn [Nat.add].
  rewrite !take_0, !app_nil_l, slice_head by done. cbn [mbind res_bind].
  rewrite Decode_head by done. cbn [try_].
  rewrite bool_decide_eq_false_2 by lia. eexists. reflexivity.
Qed.

Lemma open_second_part_ok sc head sp nonce f c n payload :
  keyed sc → zlen head = MsgHeaderLen → zlen sp + 16 ≤ MessageBeatLen →
  Pack nonce (conn_key sc) sp = Ok f → f = frame n payload →
  zlen payload = zlen sp + tag_len (conn_key sc) → n = frame_nonce (conn_key sc) nonce →
  match conn_key sc with Some key => DecryptAES key payload nonce = Ok sp | None => payload = sp end →
  ∃ c', open_second_part sc (head ++ payload ++ c) n (zlen payload)
    = Ok (head ++ sp ++ c', MsgHeaderLen + zlen sp) ∧ length c' = (length payload + length c - length sp)%nat.
Proof.
  intros Hk Hhd Hsz HP Hf Hpl Hn Hd. unfold open_second_part, keyed, conn_key in *.
  unfold MsgHeaderLen, MessageBeatLen in *. pose proof (zlen_nonneg sp).
  destruct (encryptMessage sc).
  - destruct (Hk eq_refl) as [key Ek]. rewrite Ek in *. cbn [from_option id tag_len frame_nonce] in *. subst n.
    rewrite wrapu_id by (unfold in_u; lia). rewrite slice_mid by lia. cbn [mbind res_bind].
    rewrite Hd. cbn [mbind res_bind].
    destruct (split_len payload (length sp) 16) as (p1 & p2 & -> & Hp1 & Hp2);
      [unfold zlen in *; lia|].
    change (Z.to_nat 21) with 21%nat. replace 21%nat with (length head) by (unfold zlen in *; lia).
    rewrite <- app_assoc, copy_at_mid by lia. cbn [fst].
    rewrite !wrapu_id by (unfold in_u; rewrite ?wrapu_id; unfold in_u; lia).
    exists (p2 ++ c). rewrite !length_app. split; [done|lia].
  - subst payload. exists c. rewrite wrapu_id by (unfold in_u; cbn in *; lia). split; [done|lia].
Qed.

(** What the receiver must accept of a message: a recent version, the sender the
    connection was opened with, a good signature, and room for it. *)
Record receivable (sc : ServerConn) (m : RelayMsgBuf) (sig : bytes) (hd : HandlerFunc) : Prop := {
  recv_version : minAppVer sc ≤ Version (MSGHead m);
  recv_verify : Verify (with_signature (MSGSign m) sig) (head_bytes (MSGHead m) ++ MSGBody m)
                  (remoteP2pAddress sc) = Ok tt;
  recv_handler : GetHandlerFunc (messageRegistry sc) (Cmd (MSGHead m)) = Some hd;
  recv_data : zlen (MSGData m) ≤ bufferSize sc;
  recv_size : MsgHeaderLen + zlen (MSGBody m) + MsgSignLen + zlen (MSGData m) + 16 ≤ MessageBeatLen
}.

(** The message as the handler gets it. *)
Definition delivered (m : RelayMsgBuf) : RelayMsgBuf :=
  mkRelayMsgBuf 0 (MSGHead m) noSign (MSGBody m) (MSGData m).

(** [Verify] looks at the three decoded fields only. *)
Lemma Verify_signer s f hb a :
  Verify (mkMessageSign (Signature s) (P2pAddress s) (P2pPubKey s) f) hb a = Verify s hb a.
Proof. done. Qed.

Lemma CopyMessageHeader_id h : CopyMessageHeader h = h.
Proof. by destruct h. Qed.

Lemma DecodeSign_sign s0 s : wf_sign s → DecodeSign s0 (sign_bytes s)
  = Ok (mkMessageSign (Signature s) (P2pAddress s) (P2pPubKey s) (Signer s0), MsgSignLen).
Proof. intros Hs. rewrite <- (app_nil_r (sign_bytes s)). by apply DecodeSign_bytes. Qed.

(** The fields of a decrypted second part, as the loop cuts them out. *)
Lemma handle_second_part_verifies sc s m sig nonce L c :
  sendable m sig →
  MsgHeaderLen + zlen (MSGBody m) + MsgSignLen + zlen (MSGData m) + 16 ≤ MessageBeatLen →
  rs_msgH s = MSGHead m →
  let buf := head_bytes (MSGHead m) ++ second_part m sig ++ c in
  open_second_part sc (rs_msgBuf s) nonce L = Ok (buf, MsgHeaderLen + zlen (second_part m sig)) →
  ∃ sg, handle_second_part sc nonce L s
    = match Verify (with_signature (MSGSign m) sig) (head_bytes (MSGHead m) ++ MSGBody m)
              (remoteP2pAddress sc) with
      | Err _ => Continue (set_sign (set_buf s buf) sg)
      | Panic _ => Return "panic occurs" (set_sign (set_buf s buf) sg)
      | Ok _ =>
          if bool_decide (zlen (MSGData m) ≤ Z.max 0 (bufferSize sc)) then
            match GetHandlerFunc (messageRegistry sc) (Cmd (MSGHead m)) with
            | None => Continue (set_i (set_head (set_sign (set_buf s buf) sg) true
                (mkMessageHead (Tag (MSGHead m)) 0 (DataLen (MSGHead m)) (Cmd (MSGHead m))
                   (ReqId (MSGHead m)) (Version (MSGHead m)))) 0)
            | Some hd => Continue (set_i (set_head (put_handlerCh (set_sign (set_buf s buf) sg)
                                             (delivered m, hd)) true (MSGHead m)) 0)
            end
          else Return "panic occurs" (set_sign (set_buf s buf) sg)
      end.
Proof.
  intros Hm Hsz Hh buf Hopen. unfold buf, handle_second_part in *. clear buf.
  rewrite Hh, Hopen. cbn [try_].
  pose proof (zlen_nonneg (MSGBody m)). pose proof (zlen_nonneg (MSGData m)).
  pose proof (zlen_sign_bytes _ (sendable_sign _ _ Hm)) as Hsl.
  pose proof (zlen_second_part _ _ Hm) as Hspl. pose proof (zlen_head_bytes (MSGHead m)) as Hhl.
  rewrite (sendable_len _ _ Hm) in *. rewrite Hspl. clear Hspl.
  pose proof (fun s0 => DecodeSign_sign s0 _ (sendable_sign _ _ Hm)) as Hdec.
  unfold second_part. set (sb := sign_bytes _) in *.
  unfold MsgHeaderLen, MessageBeatLen in *. assert (MsgSignLen = 140) as E140 by done.
  rewrite (wrapu_id 32 (21 + zlen (MSGBody m))) by (unfold in_u; lia).
  rewrite wrapu_id by (unfold in_u; lia). rewrite <- !app_assoc.
  rewrite (app_assoc (head_bytes (MSGHead m)) (MSGBody m)).
  rewrite (slice_mid (head_bytes (MSGHead m) ++ MSGBody m) sb) by (rewrite zlen_app; lia).
  cbn [mbind res_bind]. rewrite Hdec. cbn [try_]. rewrite <- (app_assoc (head_bytes _)).
  rewrite slice_prefix by lia. cbn [try_]. rewrite Verify_signer.
  destruct (Verify _ _ _); [|by eexists..].
  rewrite (slice_mid (head_bytes (MSGHead m)) (MSGBody m)) by lia. cbn [try_].
  assert (take_data sc (head_bytes (MSGHead m) ++ MSGBody m ++ sb ++ MSGData m ++ c)
            (21 + zlen (MSGBody m) + MsgSignLen) (21 + (zlen (MSGBody m) + MsgSignLen + zlen (MSGData m)))
          = if bool_decide (zlen (MSGData m) ≤ Z.max 0 (bufferSize sc)) then Ok (MSGData m)
            else Panic "slice bounds out of range") as ->.
  { unfold take_data. case_bool_decide as Hd.
    - rewrite !app_assoc, <- (app_assoc _ (MSGData m)), slice_mid by (rewrite !zlen_app; lia).
      repeat case_bool_decide; lia || done.
    - destruct (MSGData m); [|unfold zlen in *; simpl in *; lia].
      rewrite bool_decide_eq_true_2; [done|]. rewrite zlen_nil. lia. }
  case_bool_decide; cbn [try_]; [|by eexists].
  rewrite CopyMessageHeader_id. destruct (GetHandlerFunc _ _); by eexists.
Qed.

Lemma handle_second_part_ok sc s m sig hd nonce L c :
  sendable m sig → receivable sc m sig hd → rs_msgH s = MSGHead m →
  open_second_part sc (rs_msgBuf s) nonce L
    = Ok (head_bytes (MSGHead m) ++ second_part m sig ++ c, MsgHeaderLen + zlen (second_part m sig)) →
  ∃ sg, handle_second_part sc nonce L s
    = Continue (mkReadState true 0 (head_bytes (MSGHead m) ++ second_part m sig ++ c) (MSGHead m) sg
                  (rs_in s) (rs_flow s) (rs_handlerCh s ++ [(delivered m, hd)]) (rs_sendCh s)).
Proof.
  intros Hm [Hv Hver Hhd Hdata Hsz] Hh Hopen.
  destruct (handle_second_part_verifies sc s m sig nonce L c Hm Hsz Hh Hopen) as (sg & ->).
  rewrite Hver, bool_decide_eq_true_2, Hhd by lia. by eexists.
Qed.

(** Both outcomes start alike: the second part is read and decrypted. *)
Lemma read_second_part_opens sc s m sig nonce f tl rest :
  keyed sc → sendable m sig →
  MsgHeaderLen + zlen (MSGBody m) + MsgSignLen + zlen (MSGData m) + 16 ≤ MessageBeatLen → in_u 64 nonce →
  rs_i s = 0 → rs_msgBuf s = head_bytes (MSGHead m) ++ tl → zlen (rs_msgBuf s) = MessageBeatLen →
  Pack nonce (conn_key sc) (second_part m sig) = Ok f → rs_in s = f ++ rest →
  ∃ n L b fl c,
    let st := mkReadState (rs_listenHeader s) L b (rs_msgH s) (rs_msgS s) rest fl
                (rs_handlerCh s) (rs_sendCh s) in
    let buf := head_bytes (MSGHead m) ++ second_part m sig ++ c in
    read_second_part sc s = handle_second_part sc n L st ∧ zlen buf = MessageBeatLen
    ∧ open_second_part sc b n L = Ok (buf, MsgHeaderLen + zlen (second_part m sig))
    ∧ zlen (second_part m sig) ≤ L ≤ MessageBeatLen.
Proof.
  intros Hk Hm Hsz Hn Hi Hbuf Hlen HP Hin. cbv zeta.
  pose proof (zlen_second_part _ _ Hm) as Hsp. pose proof (zlen_nonneg (second_part m sig)) as H0.
  pose proof (zlen_head_bytes (MSGHead m)) as Hhl. set (sp := second_part m sig) in *.
  assert (MsgHeaderLen = 21) as E21 by done. assert (MessageBeatLen = 4194304) as EB by done.
  destruct (Pack_frame nonce (conn_key sc) sp f) as (n & pl & -> & Hl & En & Hd); [lia|done|done|].
  assert (0 ≤ tag_len (conn_key sc) ≤ 16) as Ht by (destruct (conn_key sc); cbn; lia).
  unfold read_second_part. rewrite Hin, ReadEncryptionHeader_frame
    by ((rewrite En; destruct (conn_key sc); done) || lia).
  rewrite bool_decide_eq_false_2 by lia.
  destruct (split_len tl (length pl) (length tl - length pl)) as (t1 & t2 & -> & Ht1 & Ht2).
  { rewrite Hbuf, zlen_app in Hlen. unfold zlen in *. lia. }
  match goal with |- context [read_chunks ?fu ?L ?p ?st] =>
    destruct (read_chunks_all fu L p st (head_bytes (MSGHead m)) t1 t2 pl rest) as (fl & ->)
  end; cbn; [done|lia| |done|done|done|].
  { rewrite Hi. unfold zlen. lia. }
  rewrite bool_decide_eq_true_2 by (apply wrapu_id; unfold in_u; lia).
  destruct (open_second_part_ok sc (head_bytes (MSGHead m)) sp nonce _ t2 n pl Hk Hhl
              ltac:(lia) HP eq_refl Hl En Hd) as (c & Hopen & Hc).
  exists n, (zlen pl), (head_bytes (MSGHead m) ++ pl ++ t2), fl, c. split_and!; [done| |done|lia..].
  rewrite Hbuf, !zlen_app in Hlen. rewrite !zlen_app. unfold zlen in *. lia.
Qed.

(** The second part of a message is read, checked and handed over. *)
Lemma read_second_part_ok sc s m sig hd nonce f tl rest :
  keyed sc → sendable m sig → receivable sc m sig hd → in_u 64 nonce →
  rs_i s = 0 → rs_msgH s = MSGHead m →
  rs_msgBuf s = head_bytes (MSGHead m) ++ tl → zlen (rs_msgBuf s) = MessageBeatLen →
  Pack nonce (conn_key sc) (second_part m sig) = Ok f → rs_in s = f ++ rest →
  ∃ buf sg fl, zlen buf = MessageBeatLen ∧ read_second_part sc s
    = Continue (mkReadState true 0 buf (MSGHead m) sg rest fl
                  (rs_handlerCh s ++ [(delivered m, hd)]) (rs_sendCh s)).
Proof.
  intros Hk Hm Hr Hn Hi Hh Hbuf Hlen HP Hin.
  destruct (read_second_part_opens sc s m sig nonce f tl rest Hk Hm (recv_size _ _ _ _ Hr) Hn Hi Hbuf Hlen HP Hin)
    as (n & L & b & fl & c & -> & Hl & Ho & _).
  edestruct (handle_second_part_ok sc) as (sg & ->); [exact Hm|exact Hr|exact Hh|exact Ho|].
  by eexists _, sg, fl.
Qed.

(** The two frames [writePacket] puts on the wire, read by two iterations. *)
Lemma readLoop_one sc ob nr s m sig hd n1 n2 f1 f2 rest :
  keyed sc → ready s → sendable m sig → receivable sc m sig hd → in_u 64 n1 → in_u 64 n2 →
  Pack n1 (conn_key sc) (head_bytes (MSGHead m)) = Ok f1 →
  Pack n2 (conn_key sc) (second_part m sig) = Ok f2 →
  rs_in s = f1 ++ f2 ++ rest →
  ∃ s', readLoop 2 sc ob nr s = Continue s' ∧ ready s' ∧ rs_in s' = rest
    ∧ rs_handlerCh s' = rs_handlerCh s ++ [(delivered m, hd)] ∧ rs_sendCh s' = rs_sendCh s.
Proof.
  intros Hk (Hlis & Hi & Hbuf) Hm Hr Hn1 Hn2 HP1 HP2 Hin.
  cbn [readLoop]. unfold readLoop_step at 1. rewrite Hlis.
  edestruct (read_header_ok sc ob nr s) as (fl & ->);
    [done|apply (sendable_head _ _ Hm)|apply (recv_version _ _ _ _ Hr)|apply Hn1|done|done|].
  unfold readLoop_step. cbn [rs_listenHeader].
  match goal with |- context [read_second_part _ ?st] =>
    edestruct (read_second_part_ok sc st m sig hd) as (buf & sg & fl' & Hb & ->)
  end; try done; cbn.
  - rewrite zlen_app, zlen_head_bytes. unfold zlen in *. rewrite length_drop.
    unfold MessageBeatLen, MsgHeaderLen in *. lia.
  - eexists. split; [done|]. by split_and!.
Qed.

(** [readLoop] composes. *)
Lemma readLoop_app k1 k2 sc ob nr s s' :
  readLoop k1 sc ob nr s = Continue s' → readLoop (k1 + k2) sc ob nr s = readLoop k2 sc ob nr s'.
Proof.
  revert s. induction k1 as [|k1 IH]; intros s; cbn [readLoop Nat.add]; [by intros [= ->]|].
  destruct (readLoop_step sc ob nr false s); [apply IH|done].
Qed.

(** The key of a connection, when it encrypts, is one AES accepts. *)
Definition key_ok (sc : ServerConn) : Prop :=
  ∀ k, conn_key sc = Some k → gcm_key_ok k = true.

Lemma Pack_total sc nonce p : key_ok sc → ∃ f, Pack nonce (conn_key sc) p = Ok f.
Proof.
  intros Hk. unfold Pack. destruct (conn_key sc) as [k|] eqn:E; [|by eexists].
  unfold EncryptAES. rewrite (Hk k E). by eexists.
Qed.

(** A packet in the send queue that the peer [sc] accepts, and what the peer's
    handlers then get. *)
Definition travels (sc : ServerConn) (x : WriteEnv * RelayMsgBuf) (y : RelayMsgBuf * HandlerFunc) : Prop :=
  ∃ sig, (∀ n, 0 ≤ n → zlen (we_alloc x.1 n) = n) ∧ we_budget x.1 = None
    ∧ in_u 64 (we_nonce1 x.1) ∧ in_u 64 (we_nonce2 x.1)
    ∧ sendable x.2 sig ∧ receivable sc x.2 sig y.2 ∧ y.1 = delivered x.2.

(** Bytes on the wire that carry packets the connection [sc] accepts, two frames
    for each, and what its handlers then get. *)
Inductive frames (sc : ServerConn) : bytes → list (RelayMsgBuf * HandlerFunc) → Prop :=
| frames_nil : frames sc [] []
| frames_cons m sig hd n1 n2 f1 f2 out ys :
    sendable m sig → receivable sc m sig hd → in_u 64 n1 → in_u 64 n2 →
    Pack n1 (conn_key sc) (head_bytes (MSGHead m)) = Ok f1 →
    Pack n2 (conn_key sc) (second_part m sig) = Ok f2 →
    frames sc out ys → frames sc (f1 ++ f2 ++ out) ((delivered m, hd) :: ys).

Lemma write_queue_frames sc1 sc2 v q ys :
  key_ok sc2 → conn_key sc1 = conn_key sc2 → Forall2 (travels sc2) q ys →
  ∃ out v', write_queue sc1 v q = (out, v', [], None) ∧ frames sc2 out ys.
Proof.
  intros Hok Hkey Hq. revert v. induction Hq as [|[e m] [d hd] q ys Hx Hq IH]; intros v.
  { eexists _, _. split; [done|constructor]. }
  destruct Hx as (sig & Ha & Hb & Hn1 & Hn2 & Hm & Hr & Hy). simpl in Ha, Hb, Hn1, Hn2, Hm, Hr, Hy. subst d.
  pose proof (writePacket_frames sc1 e v m sig Ha Hb Hm) as Hw.
  destruct (Pack_total sc2 (we_nonce1 e) (head_bytes (MSGHead m)) Hok) as [f1 E1].
  destruct (Pack_total sc2 (we_nonce2 e) (second_part m sig) Hok) as [f2 E2].
  rewrite Hkey, E1, E2 in Hw. destruct Hw as (wr & Hw & Hout & Herr).
  cbn [write_queue]. rewrite Hw, Herr. destruct (IH (wr_flow wr)) as (out & v' & -> & Hf).
  eexists _, v'. split; [done|]. rewrite Hout, <- app_assoc. by apply (frames_cons _ m sig hd (we_nonce1 e) (we_nonce2 e)).
Qed.

Lemma readLoop_frames sc ob nr out ys s rest :
  keyed sc → frames sc out ys → ready s → rs_in s = out ++ rest →
  ∃ s', readLoop (2 * length ys) sc ob nr s = Continue s' ∧ ready s' ∧ rs_in s' = rest
    ∧ rs_handlerCh s' = rs_handlerCh s ++ ys ∧ rs_sendCh s' = rs_sendCh s.
Proof.
  intros Hk Hf. revert s. induction Hf as [|m sig hd n1 n2 f1 f2 out ys Hm Hr Hn1 Hn2 E1 E2 Hf IH]; intros s Hs Hin.
  { exists s. by rewrite app_nil_r. }
  rewrite <- !app_assoc in Hin.
  destruct (readLoop_one sc ob nr s m sig hd _ _ f1 f2 _ Hk Hs Hm Hr Hn1 Hn2 E1 E2 Hin)
    as (s1 & Hl & Hs1 & Hin1 & Hh1 & Hc1).
  destruct (IH s1 Hs1 Hin1) as (s2 & Hl2 & Hs2 & Hin2 & Hh2 & Hc2).
  exists s2. replace (2 * length ((delivered m, hd) :: ys))%nat with (2 + 2 * length ys)%nat by (simpl; lia).
  rewrite (readLoop_app 2 _ _ _ _ _ s1 Hl), Hl2, Hh2, Hh1, Hc2, Hc1, <- app_assoc. by split_and!.
Qed.

Lemma writeLoop_frames sc1 sc2 v q ys :
  key_ok sc2 → conn_key sc1 = conn_key sc2 → Forall2 (travels sc2) q ys →
  frames sc2 (writeLoop sc1 v q).1.1 ys ∧ (writeLoop sc1 v q).2 = [].
Proof.
  intros Hok Hkey Hq. destruct (write_queue_frames sc1 sc2 v q ys Hok Hkey Hq) as (out & v' & E & Hf).
  unfold writeLoop. rewrite E. cbn. by rewrite app_nil_r.
Qed.

(** Every packet a connection queues reaches the handlers of the peer that
    holds the same key, each once and in order, whatever follows on the wire:
    the write loop empties its queue, and twice as many iterations of the read
    loop as there were packets hand over exactly the queued packets and leave
    the loop waiting for a header. *)
Theorem wire_roundtrip sc1 sc2 ob nr v q ys s rest :
  keyed sc2 → key_ok sc2 → conn_key sc1 = conn_key sc2 → Forall2 (travels sc2) q ys →
  ready s → rs_in s = (writeLoop sc1 v q).1.1 ++ rest →
  (writeLoop sc1 v q).2 = [] ∧
  ∃ s', readLoop (2 * length q) sc2 ob nr s = Continue s' ∧ ready s' ∧ rs_in s' = rest
    ∧ rs_handlerCh s' = rs_handlerCh s ++ ys ∧ rs_sendCh s' = rs_sendCh s.
Proof.
  intros Hk Hok Hkey Hq Hs Hin. destruct (writeLoop_frames sc1 sc2 v q ys Hok Hkey Hq) as [Hf E].
  rewrite (Forall2_length Hq). split; [done|]. by eapply readLoop_frames.
Qed.

(** ** What any peer, well-behaved or not, can make the read loop do *)

Definition loop_state (r : loop_res) : ReadState :=
  match r with Continue s => s | Return _ s => s end.

(** A message the handlers may get: its header and body, as they came in, carry a
    valid signature of the peer the connection was opened with; the data part
    fits a buffer of the pool; the handler is the registered one. *)
Definition authentic (sc : ServerConn) (y : RelayMsgBuf * HandlerFunc) : Prop :=
  (∃ hdr sg, zlen hdr = MsgHeaderLen ∧ Decode hdr = Ok (MSGHead y.1)
     ∧ Verify sg (hdr ++ MSGBody y.1) (remoteP2pAddress sc) = Ok tt)
  ∧ GetHandlerFunc (messageRegistry sc) (Cmd (MSGHead y.1)) = Some y.2
  ∧ zlen (MSGBody y.1) = Len (MSGHead y.1)
  ∧ zlen (MSGData y.1) ≤ Z.max 0 (bufferSize sc).

(** The invariant of the loop: while it waits for a second part, the first 21
    bytes of the buffer are the header it decoded. *)
Definition loop_inv (sc : ServerConn) (s : ReadState) : Prop :=
  zlen (rs_msgBuf s) = MessageBeatLen
  ∧ (rs_listenHeader s = false →
       Decode (take 21 (rs_msgBuf s)) = Ok (rs_msgH s) ∧ in_u 32 (Len (rs_msgH s)))
  ∧ Forall (authentic sc) (rs_handlerCh s).

Lemma slice_split (l : bytes) i j a b :
  slice l 0 j = Ok a → slice l i j = Ok b → a = take (Z.to_nat i) l ++ b ∧ zlen b = j - i ∧ 0 ≤ i ≤ j.
Proof.
  unfold slice. do 2 (case_bool_decide; [|done]). intros [= <-] [= <-].
  change (Z.to_nat 0) with 0%nat. rewrite drop_0, Z.sub_0_r. split_and!; try lia.
  - replace (Z.to_nat j) with (Z.to_nat i + Z.to_nat (j - i))%nat by lia. by rewrite take_take_drop.
  - unfold zlen in *. rewrite length_take, length_drop. lia.
Qed.

(** [copy] keeps the length, and what lies before its destination. *)
Lemma take_copy_at (b src : bytes) k n : (k ≤ n ≤ length b)%nat → take k (copy_at b n src).1 = take k b.
Proof.
  intros Hn. unfold copy_at. cbn. rewrite take_app_le by (rewrite length_take; lia).
  rewrite take_take. f_equal. lia.
Qed.

Lemma BytesToUInt32_range b : in_u 32 (BytesToUInt32 b).
Proof.
  unfold BytesToUInt32, binary_read, in_u. case_bool_decide as H; [|lia].
  pose proof (be_decode_bound (take 4 b)) as Hb. revert Hb. unfold zlen.
  rewrite length_take_le by done. done.
Qed.

Lemma Decode_len_range b h : Decode b = Ok h → in_u 32 (Len h).
Proof.
  unfold Decode. intros Hd.
  repeat match type of Hd with
         | mbind _ ?r = _ => destruct r; cbn [mbind res_bind] in Hd; [|done..]
         end.
  simplify_eq. apply BytesToUInt32_range.
Qed.

(** Reading the second part leaves the header alone. *)
Lemma read_chunks_keeps fuel L pos s :
  21 ≤ pos → let s' := loop_state (read_chunks fuel L pos s) in
  take 21 (rs_msgBuf s') = take 21 (rs_msgBuf s) ∧ length (rs_msgBuf s') = length (rs_msgBuf s)
  ∧ rs_listenHeader s' = rs_listenHeader s ∧ rs_msgH s' = rs_msgH s
  ∧ rs_handlerCh s' = rs_handlerCh s.
Proof.
  revert pos s. induction fuel as [|fuel IH]; intros pos s Hp; cbn [read_chunks];
    case_bool_decide as Hlt; try done. set (k := if bool_decide (L - rs_i s < 1024) then _ else _).
  assert (0 < k) as Hk by (unfold k; case_bool_decide; lia).
  case_bool_decide as Hfit; [|done].
  destruct (ReadFull k (rs_in s)) as [[[b|] n] c] eqn:E; [|done].
  assert (0 ≤ n ∧ (zlen (rs_msgBuf s) < pos → False)) as [Hn Hb].
  { unfold ReadFull in E. case_bool_decide; simplify_eq. lia. }
  edestruct (IH (pos + n)) as (E1 & E2 & E3 & E4 & E5); [lia|].
  rewrite E1, E2, E3, E4, E5. cbn [rs_msgBuf set_i set_buf set_input].
  unfold zlen in *. rewrite take_copy_at, length_copy_at by lia. done.
Qed.

Lemma try_inv {A} (P : ReadState → Prop) s w (r : res A) k :
  P s → (∀ a, r = Ok a → P (loop_state (k a))) → P (loop_state (try_ s w r k)).
Proof. intros Hs Hk. destruct r; cbn; [by apply Hk|done..]. Qed.

Lemma open_second_part_keeps sc buf n L buf' e :
  (21 ≤ length buf)%nat → open_second_part sc buf n L = Ok (buf', e) →
  take 21 buf' = take 21 buf ∧ length buf' = length buf.
Proof.
  intros Hb. unfold open_second_part. destruct (encryptMessage sc); [|by intros [= <- <-]].
  destruct (slice _ _ _); cbn [mbind res_bind]; [|done..].
  destruct (DecryptAES _ _ _); cbn [mbind res_bind]; [|done..].
  intros E. assert (buf' = (copy_at buf (Z.to_nat MsgHeaderLen) a0).1) as -> by congruence.
  change (Z.to_nat MsgHeaderLen) with 21%nat. rewrite take_copy_at, length_copy_at by lia. done.
Qed.

Lemma take_data_size sc b i j d : take_data sc b i j = Ok d → zlen d ≤ Z.max 0 (bufferSize sc).
Proof.
  unfold take_data. repeat case_bool_decide; try done.
  - intros Hd%slice_ok_length. lia.
  - intros [= <-]. rewrite zlen_nil. lia.
Qed.

Lemma read_header_inv sc ob nr s :
  rs_listenHeader s = true → loop_inv sc s → loop_inv sc (loop_state (read_header sc ob nr s)).
Proof.
  intros Hlis (Hl & Hh & Ha). unfold read_header.
  destruct (Unpack _ _ _) as [[r n] c].
  apply try_inv; [done|]. intros hb _. apply try_inv; [done|]. intros hb' Hs.
  assert (zlen (copy_at (rs_msgBuf s) 0 hb').1 = MessageBeatLen) as Hl'.
  { unfold zlen. rewrite length_copy_at by lia. done. }
  assert (zlen hb' = 21) as H21 by (apply slice_ok_length in Hs; done).
  assert (take 21 (copy_at (rs_msgBuf s) 0 hb').1 = hb') as Ht.
  { assert (length hb' = 21%nat) by (unfold zlen in H21; lia).
    rewrite copy_at_fits by (unfold zlen, MessageBeatLen in Hl; lia).
    cbn [fst]. rewrite take_0, app_nil_l. by rewrite take_app_length'. }
  assert (∀ a, slice (copy_at (rs_msgBuf s) 0 hb').1 0 MsgHeaderLen ≫= Decode = Ok a →
               Decode hb' = Ok a) as Hdec.
  { intros a. unfold slice. rewrite bool_decide_eq_true_2
      by (rewrite Hl'; unfold MsgHeaderLen, MessageBeatLen; lia).
    cbn [mbind res_bind]. change (Z.to_nat (MsgHeaderLen - 0)) with 21%nat.
    change (Z.to_nat 0) with 0%nat. by rewrite drop_0, Ht. }
  apply try_inv.
  - split_and!; [done| |done]. cbn. congruence.
  - intros h Hd%Hdec. case_bool_decide; split_and!; cbn; try done. intros _.
    rewrite Ht. split; [done|]. by eapply Decode_len_range.
Qed.

Lemma handle_second_part_inv sc n L s :
  rs_listenHeader s = false → loop_inv sc s → loop_inv sc (loop_state (handle_second_part sc n L s)).
Proof.
  intros Hlis (Hl & Hh & Ha). destruct (Hh Hlis) as [Hdec Hlen]. unfold handle_second_part.
  apply try_inv; [done|]. intros [buf e] Ho.
  apply open_second_part_keeps in Ho as [Ht Hb]; [|unfold zlen, MessageBeatLen in Hl; lia].
  assert (loop_inv sc (set_buf s buf)) as Hi.
  { split_and!; cbn; [unfold zlen in *; lia| |done]. by rewrite Ht. }
  apply try_inv; [done|]. intros [sg k] _.
  apply try_inv; [apply Hi|]. intros hb Hs.
  destruct (Verify sg hb (remoteP2pAddress sc)) as [[]| |] eqn:Ev; [|apply Hi..].
  apply try_inv; [apply Hi|]. intros body Hbody. apply try_inv; [apply Hi|]. intros data Hdata.
  destruct (slice_split _ _ _ _ _ Hs Hbody) as (-> & Hbl & Hr).
  destruct (GetHandlerFunc _ _) as [hd|] eqn:Eh; split_and!; cbn; try apply Hi; try done.
  apply Forall_app. split; [done|]. apply Forall_singleton. split_and!; cbn.
  - exists (take 21 buf), sg. rewrite Ht, CopyMessageHeader_id. split_and!; [|done|by rewrite <- Ht].
    unfold zlen, MessageBeatLen, MsgHeaderLen in *. rewrite length_take. lia.
  - done.
  - rewrite Hbl. unfold u32, wrapu, in_u, MsgHeaderLen in *.
    rewrite Z.mod_small; [lia|]. split; [lia|].
    destruct (decide (21 + Len (rs_msgH s) < 2 ^ 32)); [done|].
    exfalso. revert Hr. rewrite <- (Z_mod_plus_full _ (-1)), Z.mod_small by lia. lia.
  - by eapply take_data_size.
Qed.

Lemma read_second_part_inv sc s :
  rs_listenHeader s = false → loop_inv sc s → loop_inv sc (loop_state (read_second_part sc s)).
Proof.
  intros Hlis (Hl & Hh & Ha). unfold read_second_part.
  destruct (ReadEncryptionHeader _) as [[[[nonce L]|] n] c]; [|done]. case_bool_decide; [done|].
  pose proof (read_chunks_keeps (Z.to_nat (L - rs_i s)) L MsgHeaderLen (set_input s n c) ltac:(done))
    as (E1 & E2 & E3 & E4 & E5).
  change (rs_i (set_input s n c)) with (rs_i s).
  destruct (read_chunks _ _ _ _) as [s'|w s']; cbn [loop_state] in *.
  all: assert (loop_inv sc s') as Hi by (split_and!; [unfold zlen in *; rewrite E2; done
    | by rewrite E1, E3, E4 | by rewrite E5]).
  2: done.
  case_bool_decide; [|done]. apply handle_second_part_inv; [by rewrite E3|done].
Qed.

Lemma readLoop_inv fuel sc ob nr s :
  loop_inv sc s → loop_inv sc (loop_state (readLoop fuel sc ob nr s)).
Proof.
  revert s. induction fuel as [|fuel IH]; intros s Hs; cbn [readLoop]; [done|].
  assert (loop_inv sc (loop_state (readLoop_step sc ob nr false s))) as Hi.
  { unfold readLoop_step. destruct (rs_listenHeader s) eqn:E;
      [by apply read_header_inv|by apply read_second_part_inv]. }
  destruct (readLoop_step _ _ _ _ _); [by apply IH|done].
Qed.

Lemma zlen_init input v : zlen (rs_msgBuf (readLoop_init input v)) = MessageBeatLen.
Proof.
  unfold zlen, readLoop_init. cbn [rs_msgBuf]. rewrite length_replicate. by apply Z2Nat.id.
Qed.

(** C13: whatever bytes arrive on a connection, every message the read loop hands
    to a handler is authentic: its header and body were signed by the peer the
    connection was opened with, its body is as long as the header says, its data
    fits the buffer it is put in, and the handler is the one registered. *)
Theorem handled_messages_authentic fuel sc ob nr input v :
  Forall (authentic sc) (rs_handlerCh (loop_state (readLoop fuel sc ob nr (readLoop_init input v)))).
Proof.
  apply readLoop_inv. split_and!; [by apply zlen_init|by intros [=]|constructor].
Qed.

(** ** Termination *)

(** The inner loop reads at least a byte each time, so its fuel is enough, and
    the input never grows. *)
Lemma read_chunks_fuel fuel L pos s :
  (Z.to_nat (L - rs_i s) ≤ fuel)%nat →
  (∀ s', read_chunks fuel L pos s ≠ Return "out of fuel" s')
  ∧ zlen (rs_in (loop_state (read_chunks fuel L pos s))) ≤ zlen (rs_in s).
Proof.
  revert pos s. induction fuel as [|fuel IH]; intros pos s Hf; cbn [read_chunks];
    case_bool_decide as Hlt; try done; [lia|].
  set (k := if bool_decide (L - rs_i s < 1024) then _ else _).
  assert (0 < k) as Hk by (unfold k; case_bool_decide; lia).
  case_bool_decide as Hfit; [|done].
  destruct (ReadFull k (rs_in s)) as [[[b|] n] c] eqn:E; unfold ReadFull in E;
    case_bool_decide; clearbody k; simplify_eq.
  - edestruct IH as [H1 H2]; [|split; [exact H1|]]; cbn; [lia|].
    etransitivity; [exact H2|]. cbn. unfold zlen. rewrite length_drop. lia.
  - split; [done|]. cbn. unfold zlen. simpl. lia.
Qed.

Definition returns_cleanly (r : loop_res) : Prop :=
  match r with Continue _ => False | Return why _ => why ≠ "out of fuel" end.

Lemma try_returns {A} (P : loop_res → Prop) s w (r : res A) k :
  (∀ w', (w' = w ∨ w' = "panic occurs") → P (Return w' s)) → (∀ a, r = Ok a → P (k a)) → P (try_ s w r k).
Proof. intros Hs Hk. destruct r; cbn; auto. Qed.

(** An iteration that goes on has consumed the header of a frame. *)
Definition progress (s : ReadState) (r : loop_res) : Prop :=
  match r with
  | Continue s' => zlen (rs_in s') + EncryptionHeaderSize ≤ zlen (rs_in s)
  | Return why _ => why ≠ "out of fuel"
  end.

Lemma handle_second_part_progress sc n L s s0 :
  zlen (rs_in s) + EncryptionHeaderSize ≤ zlen (rs_in s0) → progress s0 (handle_second_part sc n L s).
Proof.
  intros H. unfold handle_second_part.
  apply try_returns; [by intros ? [->| ->]|]. intros [buf e] _.
  apply try_returns; [by intros ? [->| ->]|]. intros [sg k] _.
  apply try_returns; [by intros ? [->| ->]|]. intros hb _.
  destruct (Verify _ _ _); [|done..].
  do 2 (apply try_returns; [by intros ? [->| ->]|]; intros ? _).
  destruct (GetHandlerFunc _ _); done.
Qed.

Lemma step_progress sc ob nr s : progress s (readLoop_step sc ob nr false s).
Proof.
  unfold readLoop_step. destruct (rs_listenHeader s).
  - unfold read_header. destruct (Unpack _ _ _) as [[r n] c] eqn:E.
    apply try_returns; [by intros ? [->| ->]|]. intros hb ->. apply Unpack_ok_shrinks in E.
    do 2 (apply try_returns; [by intros ? [->| ->]|]; intros ? _). by case_bool_decide.
  - unfold read_second_part. destruct (ReadEncryptionHeader _) as [[[[nonce L]|] n] c] eqn:E; [|done].
    apply ReadEncryptionHeader_shrinks in E. case_bool_decide; [done|].
    destruct (read_chunks_fuel (Z.to_nat (L - rs_i (set_input s n c))) L MsgHeaderLen (set_input s n c))
      as [Hf Hi]; [done|].
    destruct (read_chunks _ _ _ _) as [s'|w s']; cbn in Hf, Hi; [|by intros ->; eapply Hf].
    case_bool_decide; [|done]. apply handle_second_part_progress. lia.
Qed.

Lemma readLoop_returns fuel sc ob nr s :
  zlen (rs_in s) < EncryptionHeaderSize * Z.of_nat fuel → returns_cleanly (readLoop fuel sc ob nr s).
Proof.
  revert s. induction fuel as [|fuel IH]; intros s Hf; [pose proof (zlen_nonneg (rs_in s)); lia|].
  cbn [readLoop]. pose proof (step_progress sc ob nr s) as Hp.
  destruct (readLoop_step _ _ _ _ _); cbn in *; [|done]. apply IH. lia.
Qed.

(** C29: on a stream that ends, the read loop returns: every iteration consumes
    at least the 12 bytes of a frame header, so a stream of n bytes is read in at
    most n/12 + 1 iterations, n/12 rounded down, and no bound of the model is ever
    hit. *)
Theorem readLoop_terminates sc ob nr s fuel :
  zlen (rs_in s) / EncryptionHeaderSize < Z.of_nat fuel →
  ∃ why s', readLoop fuel sc ob nr s = Return why s' ∧ why ≠ "out of fuel".
Proof.
  intros Hf. assert (returns_cleanly (readLoop fuel sc ob nr s)) as H.
  { apply readLoop_returns. unfold EncryptionHeaderSize in *.
    change (EncryptionNonceSize + EncryptionLengthSize) with 12 in *.
    pose proof (Z_div_mod_eq_full (zlen (rs_in s)) 12). pose proof (Z.mod_pos_bound (zlen (rs_in s)) 12). lia. }
  destruct (readLoop _ _ _ _ _); [done|]. by eexists _, _.
Qed.

(** ** After a failed verification *)

(** A message whose signature does not verify is not handed over, but the
    loop keeps waiting for a second part with the length counter of the bad one,
    so the header frame of the next, well-formed message is taken for a second
    part whose length does not match and the connection is closed. *)
Theorem bad_signature_closes_connection sc ob nr s m sig x h' n1 n2 n3 f1 f2 f3 rest :
  keyed sc → ready s → sendable m sig → minAppVer sc ≤ Version (MSGHead m) →
  MsgHeaderLen + zlen (MSGBody m) + MsgSignLen + zlen (MSGData m) + 16 ≤ MessageBeatLen →
  Verify (with_signature (MSGSign m) sig) (head_bytes (MSGHead m) ++ MSGBody m)
    (remoteP2pAddress sc) = Err x →
  in_u 64 n1 → in_u 64 n2 → in_u 64 n3 → wf_head h' →
  Pack n1 (conn_key sc) (head_bytes (MSGHead m)) = Ok f1 →
  Pack n2 (conn_key sc) (second_part m sig) = Ok f2 →
  Pack n3 (conn_key sc) (head_bytes h') = Ok f3 →
  rs_in s = f1 ++ f2 ++ f3 ++ rest →
  ∃ s', readLoop 3 sc ob nr s = Return "msgH.Len doesn't match the size of data" s'
    ∧ rs_handlerCh s' = rs_handlerCh s.
Proof.
  intros Hk (Hlis & Hi & Hbuf) Hm Hv Hsz Hver Hn1 Hn2 Hn3 Hh' HP1 HP2 HP3 Hin.
  cbn [readLoop]. unfold readLoop_step at 1. rewrite Hlis.
  edestruct (read_header_ok sc ob nr s) as (fl & ->); [done|apply (sendable_head _ _ Hm)|done|apply Hn1|done..|].
  unfold readLoop_step. cbn [rs_listenHeader].
  match goal with |- context [read_second_part _ ?st] =>
    edestruct (read_second_part_opens sc st m sig n2) as (n & L & b & fl' & c & E & Hl & Ho & HL)
  end; try done.
  { cbn. rewrite zlen_app, zlen_head_bytes. unfold zlen in *. rewrite length_drop.
    unfold MessageBeatLen, MsgHeaderLen in *. lia. }
  rewrite E.
  edestruct (handle_second_part_verifies sc) as (sg & ->); [exact Hm|exact Hsz| |exact Ho|]; [done|].
  rewrite Hver. cbn [rs_listenHeader set_sign set_buf]. unfold read_second_part. cbn [rs_in set_sign set_buf].
  destruct (Pack_frame n3 (conn_key sc) (head_bytes h') f3) as (n' & pl & -> & Hpl & En & _); [done..|].
  assert (zlen pl ≤ 37) as H37.
  { rewrite Hpl, zlen_head_bytes. by destruct (conn_key sc). }
  pose proof (zlen_nonneg pl).
  rewrite ReadEncryptionHeader_frame by ((rewrite En; destruct (conn_key sc); done) || lia).
  rewrite bool_decide_eq_false_2 by (unfold MessageBeatLen; lia). cbn [rs_i set_input set_sign set_buf].
  rewrite (zlen_second_part _ _ Hm) in HL. pose proof (zlen_nonneg (MSGBody m)).
  pose proof (zlen_nonneg (MSGData m)). change MsgSignLen with 140 in HL. unfold MessageBeatLen in HL.
  replace (Z.to_nat (zlen pl - L)) with O by lia.
  cbn [read_chunks rs_i set_input set_sign set_buf]. rewrite bool_decide_eq_false_2 by lia.
  rewrite bool_decide_eq_false_2; [by eexists|].
  cbn [rs_i set_input set_sign set_buf]. rewrite wrapu_id by (unfold in_u; lia). lia.
Qed.

(** The notice for a peer whose protocol version is too old is never queued:
    it is built without a sender, and [Write] refuses such a message. *)
Theorem bad_version_notice_not_queued sc ob nr s h nonce f rest :
  zlen (rs_msgBuf s) = MessageBeatLen → wf_head h → Version h < minAppVer sc → in_u 64 nonce →
  Pack nonce (conn_key sc) (head_bytes h) = Ok f → rs_in s = f ++ rest →
  ∃ s', read_header sc ob nr s = Return "fwmsg versions don't match" s' ∧ rs_sendCh s' = rs_sendCh s.
Proof.
  intros Hbuf Hh Hv Hn HP Hin. unfold read_header. rewrite Hin.
  erewrite Unpack_Pack by (done || (rewrite zlen_head_bytes; done)).
  cbn [try_]. rewrite slice_all by done. cbn [try_].
  assert (21 ≤ length (rs_msgBuf s))%nat as Hl by (unfold zlen, MessageBeatLen in Hbuf; lia).
  cbn [set_buf set_input rs_msgBuf]. rewrite copy_at_fits by (rewrite length_head_bytes; lia).
  cbn [fst]. rewrite length_head_bytes, !take_0, !app_nil_l, slice_head by done. cbn [mbind res_bind].
  rewrite Decode_head by done. cbn [try_]. rewrite bool_decide_eq_true_2 by done. by eexists.
Qed.

End Conn.

(** ** Concrete connections for the witnesses *)

Module Demo.

(** A signature scheme that satisfies what the code relies on: a signature is
    64 copies of the first byte of the key. *)
Definition crypto : NodeCrypto := {|
  CalcHashBytes := fun b => take 32 b;
  VerifyP2pAddrBytes := fun pub addr => bool_decide (length pub = 32%nat);
  VerifyP2pSignBytes := fun pub sig _ => bool_decide (sig = replicate 64 (default Byte.x00 (head pub)))
|}.

Definition addr : string := "stsds1aaaaaaaaaaaaaaaaaaaaaaaaaaaaaaaaaaaaaa".
Definition sign : MessageSign :=
  mkMessageSign None addr (Some (replicate 32 Byte.x05)) (fun _ => Ok (replicate 64 Byte.x05)).
Definition sig : bytes := replicate 64 Byte.x05.
Definition msg (cmd : Z) : RelayMsgBuf :=
  mkRelayMsgBuf 0 (mkMessageHead 1 3 2 cmd 77 12) sign [Byte.x01; Byte.x02; Byte.x03] [Byte.x0a; Byte.x0b].
Definition conn (remote : string) : ServerConn :=
  mkServerConn (Some (replicate 32 Byte.x07)) true remote 12 100
    (Register messageRegistry0 (mkMsgType 4 "") "handler").
Definition env : WriteEnv := mkWriteEnv (fun n => replicate (Z.to_nat n) Byte.x00) 11 12 None [].
Definition flow : volRecOpts := mkVolRecOpts true true true true true 0 0 0 0 0 0.

Lemma sendable_msg cmd : in_u 8 cmd → @sendable crypto (msg cmd) sig.
Proof.
  intros H. split; [|done|..].
  - unfold wf_head. cbn. unfold in_u, in_s in *. split_and!; lia.
  - split; [done|]. split; eexists; done.
  - done.
  - vm_compute. done.
Qed.

Lemma keyed_conn r : keyed (conn r).
Proof. intros _. by eexists. Qed.

Lemma key_ok_conn r : @key_ok null_gcm _ (conn r).
Proof. by intros k [= <-]. Qed.

Lemma ready_init {H} input v : @ready H (readLoop_init input v).
Proof. split_and!; [done|done|apply zlen_init]. Qed.

Lemma alloc_env n : 0 ≤ n → zlen (we_alloc env n) = n.
Proof. intros. unfold zlen. cbn. rewrite length_replicate. lia. Qed.

Lemma receivable_msg : @receivable crypto _ (conn addr) (msg 4) sig "handler".
Proof. split; vm_compute; done. Qed.

Lemma wire_roundtrip_witness :
  let q := [(env, msg 4); (env, msg 4)] in
  let out := (@writeLoop crypto null_gcm string (conn "client") flow q).1.1 in
  ∃ s', @readLoop crypto null_gcm _ 4 (conn addr) (fun _ _ _ => []) 9
          (readLoop_init (out ++ [Byte.x2a]) flow) = Continue s'
    ∧ rs_handlerCh s' = [(delivered (msg 4), "handler"); (delivered (msg 4), "handler")]
    ∧ rs_in s' = [Byte.x2a].
Proof.
  assert (@travels crypto _ (conn addr) (env, msg 4) (delivered (msg 4), "handler")) as Ht.
  { exists sig. split_and!; [apply alloc_env|done|done|done|by apply sendable_msg|apply receivable_msg|done]. }
  cbv zeta.
  destruct (@wire_roundtrip crypto null_gcm string null_gcm_laws (conn "client") (conn addr)
              (fun _ _ _ => []) 9 flow [(env, msg 4); (env, msg 4)]
              [(delivered (msg 4), "handler"); (delivered (msg 4), "handler")]
              (readLoop_init ((@writeLoop crypto null_gcm string (conn "client") flow
                                 [(env, msg 4); (env, msg 4)]).1.1 ++ [Byte.x2a]) flow) [Byte.x2a]
              (keyed_conn _) (key_ok_conn _) eq_refl)
    as (_ & s' & E & _ & Hin & Hh & _).
  - constructor; [done|]. constructor; [done|]. constructor.
  - apply ready_init.
  - reflexivity.
  - exists s'. split; [exact E|]. split; [exact Hh|exact Hin].
Defined.

Lemma readLoop_terminates_witness :
  ∃ why s', @readLoop crypto null_gcm _ 2 (conn addr) (fun _ _ _ => []) 9
              (readLoop_init (replicate 20 Byte.x00) flow) = Return why s' ∧ why ≠ "out of fuel".
Proof. apply (@readLoop_terminates crypto null_gcm string). reflexivity. Defined.

Lemma bad_signature_closes_connection_witness :
  let f1 := frame 11 (head_bytes (MSGHead (msg 4)) ++ replicate 16 Byte.x00) in
  let f2 := frame 12 (second_part (msg 4) sig ++ replicate 16 Byte.x00) in
  ∃ s', @readLoop crypto null_gcm _ 3 (conn "somebody else") (fun _ _ _ => []) 9
          (readLoop_init (f1 ++ f2 ++ f1 ++ []) flow)
        = Return "msgH.Len doesn't match the size of data" s' ∧ rs_handlerCh s' = [].
Proof.
  cbv zeta.
  eapply (@bad_signature_closes_connection crypto null_gcm string null_gcm_laws (conn "somebody else")
           (fun _ _ _ => []) 9 (readLoop_init _ flow) (msg 4) sig "wrong source p2p address from msg"
           (MSGHead (msg 4)) 11 12 11).
  - apply keyed_conn.
  - apply ready_init.
  - by apply sendable_msg.
  - by vm_compute.
  - by vm_compute.
  - reflexivity.
  - by vm_compute.
  - by vm_compute.
  - by vm_compute.
  - eapply sendable_head. by apply (sendable_msg 4).
  - reflexivity.
  - reflexivity.
  - reflexivity.
  - reflexivity.
Defined.

Lemma bad_version_notice_not_queued_witness :
  let h := mkMessageHead 1 3 2 4 77 11 in
  ∃ s', @read_header null_gcm _ (conn addr) (fun _ _ _ => []) 9
          (readLoop_init (frame 11 (head_bytes h ++ replicate 16 Byte.x00) ++ []) flow)
        = Return "fwmsg versions don't match" s' ∧ rs_sendCh s' = [].
Proof.
  cbv zeta.
  eapply (@bad_version_notice_not_queued null_gcm string null_gcm_laws (conn addr)
           (fun _ _ _ => []) 9 (readLoop_init _ flow) (mkMessageHead 1 3 2 4 77 11) 11).
  - apply zlen_init.
  - unfold wf_head. cbn. unfold in_u, in_s. split_and!; lia.
  - by vm_compute.
  - by vm_compute.
  - reflexivity.
  - reflexivity.
Defined.

End Demo.
