(* ===== verification/Handshake.v ===== *)
(** * Handshake: how two peers agree on a key

    Models [handshake] of framework/core/conn.go (the side that accepts a
    connection), [handshake] of framework/client/cf/conn.go (the side that opens
    it) and [VerifySignature] of framework/crypto/ed25519/ed25519.go.

    The client announces where its own server listens and which channel it waits
    on.  The server opens a second connection to that address, sends its
    temporary key there, and the client's server, which accepts that connection,
    passes the key to the waiting client over the channel.  Both sides derive the
    key and exchange their P2P addresses under it.

    A handshake runs in [M], a state and error monad: what was written before an
    error stays written.  The signature scheme and the curve are third-party
    code, an interface with its documented laws. *)
From S2P Require Import Prelude Bytes Codec.

(** ** Keys *)

Class HsCrypto := {
  PubKey : bytes → bytes;                                (* of a private key *)
  ed25519_Sign : bytes → bytes → bytes;                  (* private key, message *)
  ed25519consensus_Verify : bytes → bytes → bytes → bool; (* public key, message, signature *)
  ECDH : bytes → bytes → res bytes;                      (* our private key, the peer's public key *)
  P2PAddressFromBech32 : string → bool                   (* whether the address parses *)
}.

(** Sizes, that a signature verifies, and that the two sides of a Diffie-Hellman
    exchange derive the same key, of the size AES takes. *)
Class HsLaws (C : HsCrypto) (G : GCM) : Prop := {
  pub_size k : length (PubKey k) = 32%nat;
  sig_size k m : length (ed25519_Sign k m) = 64%nat;
  verify_sign k m : ed25519consensus_Verify (PubKey k) m (ed25519_Sign k m) = true;
  ecdh_agree a b : ∃ s, ECDH a (PubKey b) = Ok s ∧ ECDH b (PubKey a) = Ok s ∧ gcm_key_ok s = true
}.

Definition PubKeySize : Z := 32.
Definition SignatureSize : Z := 64.
Definition HandshakeMessage : string := "sds_handshake".
Definition MaxAddressFrame : Z := 4 * 1024 * 1024. (* utils.MessageBeatLen *)

(** ** The monad *)

(** What the handshake reads and writes: the bytes the peer will have sent, the
    bytes written to the connection and to the handshake connection, which of
    the coming network calls fail, the fields of the connection it sets, and
    what it put on a channel of [HandshakeChanMap]. *)
Record Hs := mkHs {
  hs_in : bytes;
  hs_out : bytes;
  hs_out2 : bytes;
  hs_faults : list bool;
  hs_sharedKey : option bytes;
  hs_remoteP2pAddress : string;
  hs_remoteNetworkAddress : option (bytes * Z);
  hs_chan : option (Z * bytes)
}.

Definition M (A : Type) : Type := Hs → res A * Hs.

#[global] Instance M_ret : MRet M := fun A a s => (Ok a, s).
#[global] Instance M_bind : MBind M := fun A B f m s =>
  match m s with
  | (Ok a, s') => f a s'
  | (Err e, s') => (Err e, s')
  | (Panic e, s') => (Panic e, s')
  end.

Definition lift {A} (r : res A) : M A := fun s => (r, s).
Definition fail {A} (e : string) : M A := lift (Err e).

(** A call into the network that may fail: [SetDeadline], [DialTCP]. *)
Definition net_call (what : string) : M unit := fun s =>
  match hs_faults s with
  | true :: fs => (Err what, mkHs (hs_in s) (hs_out s) (hs_out2 s) fs (hs_sharedKey s) (hs_remoteP2pAddress s)
                               (hs_remoteNetworkAddress s) (hs_chan s))
  | fs => (Ok tt, mkHs (hs_in s) (hs_out s) (hs_out2 s) (tail fs) (hs_sharedKey s) (hs_remoteP2pAddress s)
                    (hs_remoteNetworkAddress s) (hs_chan s))
  end.

Definition append_out (b b2 : bytes) : M unit := fun s =>
  (Ok tt, mkHs (hs_in s) (hs_out s ++ b) (hs_out2 s ++ b2) (hs_faults s) (hs_sharedKey s) (hs_remoteP2pAddress s)
            (hs_remoteNetworkAddress s) (hs_chan s)).

(** [WriteFull] to the connection, and to the handshake connection. *)
Definition write_conn (b : bytes) : M unit := _ ← net_call "write error"; append_out b [].
Definition write_hsconn (b : bytes) : M unit := _ ← net_call "write error"; append_out [] b.

Definition set_in (s : Hs) (c : bytes) : Hs :=
  mkHs c (hs_out s) (hs_out2 s) (hs_faults s) (hs_sharedKey s) (hs_remoteP2pAddress s)
    (hs_remoteNetworkAddress s) (hs_chan s).

(** [io.ReadFull] and [Unpack] on the connection. *)
Definition read_conn (n : Z) : M bytes := fun s =>
  match ReadFull n (hs_in s) with
  | (Some b, _, c) => (Ok b, set_in s c)
  | (None, _, c) => (Err "unexpected EOF", set_in s c)
  end.

Definition set_key (k : bytes) : M unit := fun s =>
  (Ok tt, mkHs (hs_in s) (hs_out s) (hs_out2 s) (hs_faults s) (Some k) (hs_remoteP2pAddress s)
            (hs_remoteNetworkAddress s) (hs_chan s)).
Definition set_remote (a : string) : M unit := fun s =>
  (Ok tt, mkHs (hs_in s) (hs_out s) (hs_out2 s) (hs_faults s) (hs_sharedKey s) a
            (hs_remoteNetworkAddress s) (hs_chan s)).
Definition set_netaddr (ip : bytes) (port : Z) : M unit := fun s =>
  (Ok tt, mkHs (hs_in s) (hs_out s) (hs_out2 s) (hs_faults s) (hs_sharedKey s) (hs_remoteP2pAddress s)
            (Some (ip, port)) (hs_chan s)).
Definition put_chan (ch : Z) (b : bytes) : M unit := fun s =>
  (Ok tt, mkHs (hs_in s) (hs_out s) (hs_out2 s) (hs_faults s) (hs_sharedKey s) (hs_remoteP2pAddress s)
            (hs_remoteNetworkAddress s) (Some (ch, b))).

Section Handshake.
Context {C : HsCrypto} {G : GCM}.

Definition unpack_conn (k : bytes) : M bytes := fun s =>
  let '(r, _, c) := Unpack (hs_in s) (Some k) MaxAddressFrame in (r, set_in s c).

Definition VerifySignature (pub msg sig : bytes) : bool :=
  if bool_decide (zlen sig ≠ SignatureSize) then false else ed25519consensus_Verify pub msg sig.

(** The public key with the signature of [HandshakeMessage] under it. *)
Definition key_message (priv : bytes) : bytes :=
  PubKey priv ++ ed25519_Sign priv (string_bytes HandshakeMessage).

(** Read the peer's address under the new key. *)
Definition read_address (sharedPrivKeyBytes : bytes) : M unit :=
  p2pAddressBytes ← unpack_conn sharedPrivKeyBytes;
  _ ← set_remote (bytes_string p2pAddressBytes);
  if P2PAddressFromBech32 (bytes_string p2pAddressBytes) then mret tt else fail "incorrect P2pAddress".

(** Both sides: check the peer's key message, derive the key, exchange addresses. *)
Definition agree (priv : bytes) (nonce : Z) (localP2pAddress : string) (buffer : bytes) : M unit :=
  peerPubKeyBytes ← lift (slice buffer 0 PubKeySize);
  peerSignature ← lift (slice buffer PubKeySize (zlen buffer));
  if negb (VerifySignature peerPubKeyBytes (string_bytes HandshakeMessage) peerSignature)
  then fail "Invalid signature in tmp key from peer"
  else
    sharedPrivKeyBytes ← lift (ECDH priv peerPubKeyBytes);
    _ ← set_key sharedPrivKeyBytes;
    encryptedMsg ← lift (Pack nonce (Some sharedPrivKeyBytes) (string_bytes localP2pAddress));
    _ ← write_conn encryptedMsg;
    read_address sharedPrivKeyBytes.

(** [sc.handshake()]: whether this is a handshake connection.  [waiting] says for
    which channels there is an entry in [HandshakeChanMap]. *)
Definition server_handshake (priv : bytes) (nonce : Z) (localP2pAddress : string) (waiting : Z → bool) : M bool :=
  _ ← net_call "set deadline";
  buffer ← read_conn ConnFirstMsgSize;
  '(connType, serverIP, serverPort, channelId) ← lift (ParseFirstMessage buffer);
  if bool_decide (connType = ConnTypeClient) then
    _ ← set_netaddr serverIP serverPort;
    _ ← net_call "resolve address";
    _ ← net_call "dial";
    _ ← net_call "set deadline";
    firstMessage ← lift (CreateFirstMessage ConnTypeHandshake [] 0 channelId);
    _ ← write_hsconn firstMessage;
    _ ← write_hsconn (key_message priv);
    buffer ← read_conn (PubKeySize + SignatureSize);
    _ ← agree priv nonce localP2pAddress buffer;
    _ ← net_call "remove deadline";
    mret false
  else if bool_decide (connType = ConnTypeHandshake) then
    buffer ← read_conn (PubKeySize + SignatureSize);
    if waiting channelId then
      _ ← net_call "Timed out when writing to client channel";
      _ ← put_chan channelId buffer;
      mret true
    else fail "No corresponding client conn was found"
  else fail "Invalid connection type".

(** [cc.handshake()]: [tmpKeyMsg] is what comes over the channel, if anything
    comes before the time is out. *)
Definition client_handshake (priv : bytes) (nonce : Z) (localP2pAddress : string) (serverIp : bytes)
    (serverPort channelId : Z) (tmpKeyMsg : option bytes) : M unit :=
  _ ← net_call "set deadline";
  firstMessage ← lift (CreateFirstMessage ConnTypeClient serverIp serverPort channelId);
  _ ← write_conn firstMessage;
  _ ← write_conn (key_message priv);
  match tmpKeyMsg with
  | None => fail "Timed out when reading from server channel"
  | Some tmpKeyMsg =>
      if bool_decide (zlen tmpKeyMsg < PubKeySize + SignatureSize) then fail "Handshake message too small"
      else
        _ ← agree priv nonce localP2pAddress tmpKeyMsg;
        net_call "remove deadline"
  end.

(** ** Running a handshake without network failures *)

(** A connection on which the peer sends [input] and no call fails. *)
Definition start (input : bytes) : Hs := mkHs input [] [] [] None "" None None.

Lemma bind_Ok {A B} (m : M A) (f : A → M B) s a s' : m s = (Ok a, s') → (m ≫= f) s = f a s'.
Proof. intros E. unfold mbind, M_bind. by rewrite E. Qed.

Lemma net_call_ok what s : hs_faults s = [] → net_call what s = (Ok tt, s).
Proof. intros E. unfold net_call. rewrite E. destruct s; cbn in *; by subst. Qed.

Lemma write_conn_ok b s :
  hs_faults s = [] →
  write_conn b s = (Ok tt, mkHs (hs_in s) (hs_out s ++ b) (hs_out2 s) [] (hs_sharedKey s)
                             (hs_remoteP2pAddress s) (hs_remoteNetworkAddress s) (hs_chan s)).
Proof.
  intros E. unfold write_conn. rewrite (bind_Ok _ _ _ _ _ (net_call_ok _ s E)).
  unfold append_out. by rewrite E, app_nil_r.
Qed.

Lemma write_hsconn_ok b s :
  hs_faults s = [] →
  write_hsconn b s = (Ok tt, mkHs (hs_in s) (hs_out s) (hs_out2 s ++ b) [] (hs_sharedKey s)
                               (hs_remoteP2pAddress s) (hs_remoteNetworkAddress s) (hs_chan s)).
Proof.
  intros E. unfold write_hsconn. rewrite (bind_Ok _ _ _ _ _ (net_call_ok _ s E)).
  unfold append_out. by rewrite E, app_nil_r.
Qed.

Lemma read_conn_ok n b rest s : hs_in s = b ++ rest → n = zlen b → read_conn n s = (Ok b, set_in s rest).
Proof. intros E Hn. unfold read_conn. by rewrite E, ReadFull_app. Qed.

Context `{!GCMLaws G, !HsLaws C G}.

Lemma zlen_key_message k : zlen (key_message k) = PubKeySize + SignatureSize.
Proof. unfold key_message. rewrite zlen_app. unfold zlen. by rewrite (pub_size k), (sig_size k _). Qed.

Lemma slice_key_message k :
  slice (key_message k) 0 PubKeySize = Ok (PubKey k)
  ∧ slice (key_message k) PubKeySize (zlen (key_message k)) = Ok (ed25519_Sign k (string_bytes HandshakeMessage)).
Proof.
  assert (zlen (PubKey k) = PubKeySize) as E by (unfold zlen; by rewrite (pub_size k)).
  split; unfold key_message; [by apply slice_head|].
  rewrite <- (app_nil_r (PubKey k ++ _)), <- app_assoc. apply slice_mid; [done|].
  rewrite !zlen_app, zlen_nil, E. lia.
Qed.

Lemma VerifySignature_own k :
  VerifySignature (PubKey k) (string_bytes HandshakeMessage) (ed25519_Sign k (string_bytes HandshakeMessage)) = true.
Proof.
  unfold VerifySignature. rewrite bool_decide_eq_false_2; [apply verify_sign|].
  unfold zlen. rewrite sig_size. intros H. by apply H.
Qed.

(** What both sides do with an honest key message, up to the read. *)
Lemma agree_until_read priv peer nonce addr k f s :
  hs_faults s = [] → ECDH priv (PubKey peer) = Ok k → Pack nonce (Some k) (string_bytes addr) = Ok f →
  agree priv nonce addr (key_message peer) s
  = read_address k
    (mkHs (hs_in s) (hs_out s ++ f) (hs_out2 s) [] (Some k) (hs_remoteP2pAddress s)
       (hs_remoteNetworkAddress s) (hs_chan s)).
Proof.
  intros Hf Hk Hp. destruct (slice_key_message peer) as [E1 E2]. unfold agree.
  erewrite bind_Ok by (unfold lift; by rewrite E1). erewrite bind_Ok by (unfold lift; by rewrite E2).
  rewrite VerifySignature_own. cbn [negb]. erewrite bind_Ok by (unfold lift; by rewrite Hk).
  erewrite bind_Ok by reflexivity. erewrite bind_Ok by (unfold lift; by rewrite Hp).
  erewrite bind_Ok by (by rewrite write_conn_ok). done.
Qed.

Lemma read_address_out k s :
  let r := read_address k s in
  hs_out r.2 = hs_out s ∧ hs_out2 r.2 = hs_out2 s ∧ (hs_faults s = [] → hs_faults r.2 = []).
Proof.
  unfold read_address, mbind, M_bind, unpack_conn.
  destruct (Unpack (hs_in s) (Some k) MaxAddressFrame) as [[[p|e|e] n] c]; cbn; [|done..].
  by destruct (P2PAddressFromBech32 _).
Qed.

Lemma read_address_then_out {A} k (f : unit → M A) s :
  (∀ s, hs_out (f tt s).2 = hs_out s ∧ hs_out2 (f tt s).2 = hs_out2 s) →
  let r := (read_address k ≫= f) s in hs_out r.2 = hs_out s ∧ hs_out2 r.2 = hs_out2 s.
Proof.
  intros Hf. destruct (read_address_out k s) as (H1 & H2 & _). unfold mbind, M_bind.
  destruct (read_address k s) as [[[]|e|e] s']; cbn [snd] in *; [|done..].
  destruct (Hf s') as [-> ->]. done.
Qed.

Lemma read_address_ok k nonce addr f rest s :
  hs_in s = f ++ rest → in_u 64 nonce → zlen (string_bytes addr) + 16 ≤ MaxAddressFrame →
  Pack nonce (Some k) (string_bytes addr) = Ok f → P2PAddressFromBech32 addr = true →
  read_address k s
  = (Ok tt, mkHs rest (hs_out s) (hs_out2 s) (hs_faults s) (hs_sharedKey s) addr
              (hs_remoteNetworkAddress s) (hs_chan s)).
Proof.
  intros Hin Hn Hl Hp Ha. unfold read_address. erewrite bind_Ok.
  2:{ unfold unpack_conn. rewrite Hin, (Unpack_Pack nonce (Some k) (string_bytes addr) f rest) by done. done. }
  erewrite bind_Ok by reflexivity. rewrite bytes_string_bytes, Ha. done.
Qed.

(** Nothing that was written is taken back. *)
Definition appends {A} (m : M A) : Prop := ∀ s, ∃ x, hs_out (m s).2 = hs_out s ++ x.

Lemma appends_same {A} (m : M A) : (∀ s, hs_out (m s).2 = hs_out s) → appends m.
Proof. intros H s. exists []. by rewrite app_nil_r. Qed.

Lemma appends_bind {A B} (m : M A) (f : A → M B) :
  appends m → (∀ a, appends (f a)) → appends (m ≫= f).
Proof.
  intros Hm Hf s. unfold mbind, M_bind. destruct (Hm s) as [x Hx].
  destruct (m s) as [[a|e|e] s']; cbn [snd] in Hx; [|by exists x..].
  destruct (Hf a s') as [y Hy]. exists (x ++ y). by rewrite Hy, Hx, app_assoc.
Qed.

Lemma appends_net_call what : appends (net_call what).
Proof. apply appends_same. intros s. unfold net_call. by repeat case_match. Qed.

Lemma agree_appends priv nonce addr buffer : appends (agree priv nonce addr buffer).
Proof.
  unfold agree, read_address, write_conn. 
  repeat first [apply appends_bind | apply appends_net_call
               | match goal with |- ∀ _, appends _ => intros ? | |- appends (if ?b then _ else _) => destruct b end];
    try (apply appends_same; intros ?; unfold unpack_conn; by repeat case_match).
  intros ?. by eexists.
Qed.

(** What a client has written once its own part is done. *)
Lemma client_out priv peer nonce addr ip port ch tmp k f s :
  hs_faults s = [] → hs_out s = [] → in_u 16 port → in_u 32 ch →
  ECDH priv (PubKey peer) = Ok k → Pack nonce (Some k) (string_bytes addr) = Ok f →
  ∃ fm, CreateFirstMessage ConnTypeClient ip port ch = Ok fm
    ∧ zlen fm = ConnFirstMsgSize
    ∧ ParseFirstMessage fm = Ok (ConnTypeClient, default (replicate 16 Byte.x00) (To16 ip), port, ch)
    ∧ (∃ x, hs_out (client_handshake priv nonce addr ip port ch tmp s).2 = fm ++ key_message priv ++ x)
    ∧ (tmp = Some (key_message peer) →
       client_handshake priv nonce addr ip port ch tmp s
       = (_ ← read_address k;
          net_call "remove deadline")
         (mkHs (hs_in s) (fm ++ key_message priv ++ f) (hs_out2 s) [] (Some k) (hs_remoteP2pAddress s)
            (hs_remoteNetworkAddress s) (hs_chan s))).
Proof.
  intros Hf Ho Hp Hc Hk HP. destruct (first_message_ok ConnTypeClient ip port ch) as (fm & E & Hl & Ep); [done..|].
  exists fm. do 3 (split; [done|]). unfold client_handshake.
  split; [|intros ->]; (erewrite bind_Ok by (by apply net_call_ok)); (erewrite bind_Ok by (unfold lift; by rewrite E));
    (erewrite bind_Ok by (by rewrite write_conn_ok)); (erewrite bind_Ok by (by rewrite write_conn_ok)).
  - match goal with |- ∃ x, hs_out (?m ?st).2 = _ => assert (appends m) as Hap end.
    { destruct tmp as [t|]; [case_match|]; try (by apply appends_same).
      apply appends_bind; [apply agree_appends|intros; apply appends_net_call]. }
    match goal with |- ∃ x, hs_out (?m ?st).2 = _ => destruct (Hap st) as [x Hx] end.
    exists x. rewrite Hx. cbn. by rewrite Ho, <- app_assoc.
  - rewrite bool_decide_eq_false_2 by (rewrite zlen_key_message; lia).
    unfold mbind at 1, M_bind at 1. rewrite (agree_until_read _ peer _ _ k f) by done. cbn [hs_in hs_out].
    rewrite Ho. cbn [app]. by rewrite <- app_assoc.
Qed.

(** The server, up to the read of the client's address. *)
Lemma server_until_read priv peer nonce addr waiting fm ip port ch k f rest s :
  hs_faults s = [] → hs_in s = fm ++ key_message peer ++ rest → zlen fm = ConnFirstMsgSize → in_u 32 ch →
  ParseFirstMessage fm = Ok (ConnTypeClient, ip, port, ch) →
  ECDH priv (PubKey peer) = Ok k → Pack nonce (Some k) (string_bytes addr) = Ok f →
  ∃ fm2, zlen fm2 = ConnFirstMsgSize
    ∧ ParseFirstMessage fm2 = Ok (ConnTypeHandshake, replicate 16 Byte.x00, 0, ch)
    ∧ server_handshake priv nonce addr waiting s
      = (_ ← read_address k;
         _ ← net_call "remove deadline"; mret false)
        (mkHs rest (hs_out s ++ f) (hs_out2 s ++ fm2 ++ key_message priv) [] (Some k) (hs_remoteP2pAddress s)
           (Some (ip, port)) (hs_chan s)).
Proof.
  intros Hf Hin Hl Hc Ep Hk HP.
  destruct (first_message_ok ConnTypeHandshake [] 0 ch) as (fm2 & E2 & Hl2 & Ep2); [done|by unfold in_u|done|].
  exists fm2. do 2 (split; [done|]). unfold server_handshake.
  erewrite bind_Ok by (by apply net_call_ok). erewrite bind_Ok by (by eapply read_conn_ok).
  erewrite bind_Ok by (unfold lift; by rewrite Ep). cbv beta iota zeta. rewrite bool_decide_eq_true_2 by done.
  erewrite bind_Ok by reflexivity. do 3 (erewrite bind_Ok by (by apply net_call_ok)).
  erewrite bind_Ok by (unfold lift; by rewrite E2).
  do 2 (erewrite bind_Ok by (by rewrite write_hsconn_ok)).
  erewrite bind_Ok by (eapply read_conn_ok; [done|by rewrite zlen_key_message]).
  unfold mbind at 1, M_bind at 1. rewrite (agree_until_read _ peer _ _ k f) by done. cbn. by rewrite <- app_assoc.
Qed.

(** The client's own server on the handshake connection. *)
Lemma handshake_conn_ok priv nonce addr waiting fm ch b s :
  hs_faults s = [] → hs_in s = fm ++ b → zlen fm = ConnFirstMsgSize → zlen b = PubKeySize + SignatureSize →
  ParseFirstMessage fm = Ok (ConnTypeHandshake, replicate 16 Byte.x00, 0, ch) → waiting ch = true →
  ∃ s', server_handshake priv nonce addr waiting s = (Ok true, s') ∧ hs_chan s' = Some (ch, b).
Proof.
  intros Hf Hin Hl Hb Ep Hw. unfold server_handshake.
  erewrite bind_Ok by (by apply net_call_ok). erewrite bind_Ok by (by eapply read_conn_ok).
  erewrite bind_Ok by (unfold lift; by rewrite Ep). cbv beta iota zeta.
  rewrite bool_decide_eq_false_2 by done. rewrite (bool_decide_eq_true_2 (ConnTypeHandshake = _)) by done.
  erewrite bind_Ok by (eapply (read_conn_ok _ b []); [cbn; by rewrite app_nil_r|done]).
  rewrite Hw. erewrite bind_Ok by (by apply net_call_ok). erewrite bind_Ok by reflexivity. by eexists.
Qed.

(** ** Agreement *)

(** What a waiting client gets from its channel. *)
Definition received (ch : Z) (s : Hs) : option bytes :=
  match hs_chan s with
  | Some (c, b) => if bool_decide (c = ch) then Some b else None
  | None => None
  end.

(** Two honest peers and the client's own server, with the streams connected:
    the server reads what the client writes and the other way round, each
    followed by later messages, the client's server reads the handshake
    connection, and the client gets what was put on its channel. *)
Record connected (a b kd : bytes) (na nb nd : Z) (addrA addrB : string) (ip : bytes) (port ch : Z)
    (waitA waitB : Z → bool) (moreA moreB : bytes)
    (c : res unit * Hs) (s d : res bool * Hs) : Prop := {
  conn_client : c = client_handshake a na addrA ip port ch (received ch d.2) (start (hs_out s.2 ++ moreB));
  conn_server : s = server_handshake b nb addrB waitB (start (hs_out c.2 ++ moreA));
  conn_forward : d = server_handshake kd nd addrA waitA (start (hs_out2 s.2))
}.

Lemma connected_agree a b kd na nb nd addrA addrB ip port ch waitA waitB moreA moreB c s d :
  connected a b kd na nb nd addrA addrB ip port ch waitA waitB moreA moreB c s d →
  in_u 16 port → in_u 32 ch → in_u 64 na → in_u 64 nb → waitA ch = true →
  zlen (string_bytes addrA) + 16 ≤ MaxAddressFrame → zlen (string_bytes addrB) + 16 ≤ MaxAddressFrame →
  P2PAddressFromBech32 addrA = true → P2PAddressFromBech32 addrB = true →
  c.1 = Ok tt ∧ s.1 = Ok false ∧ d.1 = Ok true
  ∧ (∃ k, hs_sharedKey c.2 = Some k ∧ hs_sharedKey s.2 = Some k ∧ gcm_key_ok k = true)
  ∧ hs_remoteP2pAddress c.2 = addrB ∧ hs_remoteP2pAddress s.2 = addrA
  ∧ hs_in c.2 = moreB ∧ hs_in s.2 = moreA.
Proof.
  intros [Ec Es Ed] Hport Hch Hna Hnb Hw HlA HlB HA HB.
  destruct (ecdh_agree a b) as (k & Ka & Kb & Hk).
  assert (∃ fa, Pack na (Some k) (string_bytes addrA) = Ok fa) as [fa Pa] by (unfold Pack, EncryptAES; rewrite Hk; by eexists).
  assert (∃ fb, Pack nb (Some k) (string_bytes addrB) = Ok fb) as [fb Pb] by (unfold Pack, EncryptAES; rewrite Hk; by eexists).
  destruct (client_out a b na addrA ip port ch (received ch d.2) k fa (start (hs_out s.2 ++ moreB)))
    as (fm & _ & Hlm & Epm & [x Hx] & Hsome); try done.
  rewrite <- Ec in Hx.
  destruct (server_until_read b a nb addrB waitB fm (default (replicate 16 Byte.x00) (To16 ip)) port ch k fb
              (x ++ moreA) (start (hs_out c.2 ++ moreA))) as (fm2 & Hlm2 & Epm2 & Ers); try done.
  { cbn. by rewrite Hx, <- !app_assoc. }
  rewrite <- Es in Ers. cbn [start hs_out hs_out2 hs_remoteP2pAddress hs_chan app] in Ers.
  (* so the server's key reaches the client *)
  assert (hs_out s.2 = fb ∧ hs_out2 s.2 = fm2 ++ key_message b) as [Hso Hso2].
  { rewrite Ers. apply read_address_then_out. intros s0. unfold mbind, M_bind, net_call. by destruct (hs_faults s0) as [|[] ?]. }
  destruct (handshake_conn_ok kd nd addrA waitA fm2 ch (key_message b) (start (hs_out2 s.2)))
    as (d' & Edd & Hchan); [done|done|done|apply zlen_key_message|done|done|].
  rewrite <- Ed in Edd. unfold received in Hsome, Ec. rewrite Edd in Hsome, Ec |- *. cbn [fst snd] in Hsome, Ec |- *.
  rewrite Hchan, bool_decide_eq_true_2 in Hsome, Ec by done.
  specialize (Hsome eq_refl). rewrite <- Ec in Hsome.
  (* both sides read the other's address *)
  unfold mbind, M_bind in Hsome, Ers.
  rewrite (read_address_ok k nb addrB fb moreB) in Hsome; [|cbn; by rewrite Hso|done..].
  assert (x = fa) as ->.
  { rewrite Hsome in Hx. cbn in Hx. by apply app_inv_head, app_inv_head in Hx. }
  rewrite (read_address_ok k na addrA fa moreA) in Ers by done.
  rewrite Hsome, Ers. cbn. split_and!; try done. by exists k.
Qed.

(** An honest handshake succeeds on all three connections; the two peers end
    up with the same key, one AES accepts, each with the address of the other,
    and nothing of the messages that follow has been read. *)
Theorem handshake_agrees a b kd na nb nd addrA addrB ip port ch waitA waitB moreA moreB c s d :
  connected a b kd na nb nd addrA addrB ip port ch waitA waitB moreA moreB c s d →
  in_u 16 port → in_u 32 ch → in_u 64 na → in_u 64 nb → waitA ch = true →
  zlen (string_bytes addrA) + 16 ≤ MaxAddressFrame → zlen (string_bytes addrB) + 16 ≤ MaxAddressFrame →
  P2PAddressFromBech32 addrA = true → P2PAddressFromBech32 addrB = true →
  c.1 = Ok tt ∧ s.1 = Ok false ∧ d.1 = Ok true
  ∧ (∃ k, hs_sharedKey c.2 = Some k ∧ hs_sharedKey s.2 = Some k ∧ gcm_key_ok k = true)
  ∧ hs_remoteP2pAddress c.2 = addrB ∧ hs_remoteP2pAddress s.2 = addrA
  ∧ hs_in c.2 = moreB ∧ hs_in s.2 = moreA.
Proof. apply connected_agree. Qed.

(** ** Safety, whatever the peer sends *)

(** A key of the connection was derived from a public key whose holder signed. *)
Definition sound (priv : bytes) (s : Hs) : Prop :=
  ∀ k, hs_sharedKey s = Some k → ∃ pub sig,
    VerifySignature pub (string_bytes HandshakeMessage) sig = true ∧ ECDH priv pub = Ok k.

Definition safe {A} (priv : bytes) (m : M A) : Prop := ∀ s, sound priv s → sound priv (m s).2.

Lemma safe_same {A} priv (m : M A) : (∀ s, hs_sharedKey (m s).2 = hs_sharedKey s) → safe priv m.
Proof. intros H s Hs. unfold sound. by rewrite H. Qed.

(** [f] gets what some run of [m] returns. *)
Lemma safe_bind {A B} priv (m : M A) (f : A → M B) :
  safe priv m → (∀ a, (∃ s s', m s = (Ok a, s')) → safe priv (f a)) → safe priv (m ≫= f).
Proof.
  intros Hm Hf s Hs. unfold mbind, M_bind. specialize (Hm s Hs).
  destruct (m s) as [[a|e|e] s'] eqn:E; cbn [snd] in Hm; [|done..]. apply Hf; eauto.
Qed.

Lemma safe_net_call priv what : safe priv (net_call what).
Proof. apply safe_same. intros s. unfold net_call. by repeat case_match. Qed.

Ltac safe_steps tac :=
  repeat first [tac | apply safe_bind | apply safe_net_call
               | match goal with
                 | |- ∀ _, _ → safe _ _ => intros ? ?
                 | |- safe _ (if ?b then _ else _) => destruct b eqn:?
                 | |- safe _ (match ?x with _ => _ end) => destruct x
                 end];
  try (apply safe_same; intros ?; unfold unpack_conn, read_conn; by repeat case_match).

Lemma agree_safe priv nonce addr buffer : safe priv (agree priv nonce addr buffer).
Proof.
  unfold agree, read_address, write_conn. safe_steps ltac:(fail).
  match goal with H : ∃ _ _, lift (ECDH _ _) _ = _ |- _ => destruct H as (? & ? & [= HE _]) end.
  intros s _ k' [= <-]. eexists _, _. split; [by apply negb_false_iff|done].
Qed.

Lemma bind_inv {A B} (m : M A) (f : A → M B) s b s' :
  (m ≫= f) s = (Ok b, s') → ∃ a s1, m s = (Ok a, s1) ∧ f a s1 = (Ok b, s').
Proof. unfold mbind, M_bind. destruct (m s) as [[a|e|e] s1]; [by eauto|done..]. Qed.

Lemma net_call_keeps what s u s' :
  net_call what s = (Ok u, s') →
  hs_sharedKey s' = hs_sharedKey s ∧ hs_remoteP2pAddress s' = hs_remoteP2pAddress s.
Proof. unfold net_call. intros H. repeat case_match; by simplify_eq. Qed.

(** The key is set and the address parses. *)
Definition established (s : Hs) : Prop :=
  is_Some (hs_sharedKey s) ∧ P2PAddressFromBech32 (hs_remoteP2pAddress s) = true.

Lemma agree_establishes priv nonce addr buffer s s' :
  agree priv nonce addr buffer s = (Ok tt, s') → established s'.
Proof.
  unfold agree, read_address, write_conn. intros H.
  repeat match goal with
         | H : (_ ≫= _) _ = (Ok _, _) |- _ => apply bind_inv in H as (? & ? & ? & H)
         | H : (if ?b then _ else _) _ = (Ok _, _) |- _ => destruct b eqn:?; [done|]
         end.
  match goal with H : set_key _ _ = _ |- _ => injection H as _ <- end.
  repeat match goal with
         | H : (if ?b then _ else _) _ = (Ok _, _) |- _ => destruct b eqn:?; [|done]
         | H : lift _ _ = _ |- _ => injection H as _ <-
         | H : append_out _ _ _ = _ |- _ => injection H as _ <-
         | H : set_remote _ _ = _ |- _ => injection H as _ <-
         | H : net_call _ _ = _ |- _ => apply net_call_keeps in H as [? ?]
         | H : mret _ _ = _ |- _ => injection H as <-
         end.
  match goal with H : unpack_conn _ _ = _ |- _ => unfold unpack_conn in H; cbn in H end.
  case_match. case_match. simplify_eq/=. split; [|done]. cbn.
  match goal with H : hs_sharedKey _ = _ |- _ => rewrite H end. by eexists.
Qed.

Lemma server_safe priv nonce addr waiting : safe priv (server_handshake priv nonce addr waiting).
Proof. unfold server_handshake, write_hsconn. safe_steps ltac:(apply agree_safe). Qed.

Lemma client_safe priv nonce addr ip port ch tmp : safe priv (client_handshake priv nonce addr ip port ch tmp).
Proof. unfold client_handshake, write_conn. safe_steps ltac:(apply agree_safe). Qed.

Lemma established_keeps s s' what u : net_call what s = (Ok u, s') → established s → established s'.
Proof. intros [E1 E2]%net_call_keeps [H1 H2]. split; by rewrite ?E1, ?E2. Qed.

Lemma server_establishes priv nonce addr waiting s s' :
  server_handshake priv nonce addr waiting s = (Ok false, s') → established s'.
Proof.
  unfold server_handshake. intros H.
  repeat match goal with
         | H : (_ ≫= _) _ = (Ok _, _) |- _ => apply bind_inv in H as (? & ? & ? & H)
         | x : _ * _ |- _ => destruct x
         | H : (if ?b then _ else _) _ = (Ok _, _) |- _ => destruct b eqn:?; [|try done]
         | H : mret _ _ = _ |- _ => injection H as <-
         end; try done.
  eapply established_keeps; [eassumption|].
  match goal with H : agree _ _ _ _ _ = (Ok ?u, _) |- _ => destruct u; by eapply agree_establishes end.
Qed.

Lemma client_establishes priv nonce addr ip port ch tmp s s' :
  client_handshake priv nonce addr ip port ch tmp s = (Ok tt, s') → established s'.
Proof.
  unfold client_handshake. intros H.
  do 4 (apply bind_inv in H as (? & ? & _ & H)).
  destruct tmp as [t|]; [|done]. destruct (bool_decide _); [done|].
  apply bind_inv in H as ([] & ? & Ha & H). eapply established_keeps; [eassumption|]. by eapply agree_establishes.
Qed.

(** C17: whatever the other side sends and whichever network call fails, a
    connection gets a key only by Diffie-Hellman with a public key that came with
    a valid signature, and a handshake that succeeds has set a key and a peer
    address that parses; this holds on the accepting and on the opening side. *)
Theorem handshake_key_is_verified priv nonce addr waiting ip port ch tmp input faults :
  let s0 := mkHs input [] [] faults None "" None None in
  let s := server_handshake priv nonce addr waiting s0 in
  let c := client_handshake priv nonce addr ip port ch tmp s0 in
  sound priv s.2 ∧ sound priv c.2
  ∧ (s.1 = Ok false → established s.2) ∧ (c.1 = Ok tt → established c.2).
Proof.
  intros s0 s c. assert (sound priv s0) as H0 by done. split_and!.
  - by apply (server_safe priv nonce addr waiting s0).
  - by apply (client_safe priv nonce addr ip port ch tmp s0).
  - unfold s. destruct (server_handshake _ _ _ _ _) as [r s'] eqn:E. cbn. intros ->. by eapply server_establishes.
  - unfold c. destruct (client_handshake _ _ _ _ _ _ _ _) as [r c'] eqn:E. cbn. intros ->. by eapply client_establishes.
Qed.

End Handshake.

(** ** A toy scheme, to show that the hypotheses can hold *)
Module HsDemo.

(** Public keys are private keys cut to size, the shared key is a bytewise sum. *)
Definition cut (k : bytes) : bytes := take 32 (k ++ replicate 32 Byte.x00).
Definition crypto : HsCrypto := {|
  PubKey := cut;
  ed25519_Sign := fun _ _ => replicate 64 Byte.x05;
  ed25519consensus_Verify := fun _ _ sig => bool_decide (sig = replicate 64 Byte.x05);
  ECDH := fun a p => Ok (zip_with (fun x y => byte_of_Z (Z_of_byte x + Z_of_byte y)) (cut a) p);
  P2PAddressFromBech32 := fun a => negb (bool_decide (a = ""))
|}.

Lemma length_cut k : length (cut k) = 32%nat.
Proof. unfold cut. rewrite length_take, length_app, length_replicate. lia. Qed.

Lemma sum_comm (x y : bytes) :
  zip_with (fun x y => byte_of_Z (Z_of_byte x + Z_of_byte y)) x y
  = zip_with (fun x y => byte_of_Z (Z_of_byte x + Z_of_byte y)) y x.
Proof. revert y. induction x as [|a x IH]; intros [|b y]; cbn; [done..|]. by rewrite IH, Z.add_comm. Qed.

Lemma crypto_laws : @HsLaws crypto null_gcm.
Proof.
  split; cbn.
  - apply length_cut.
  - done.
  - done.
  - intros a b. eexists. split; [done|]. split.
    + by rewrite sum_comm.
    + rewrite length_zip_with, !length_cut. done.
Qed.

Definition keyA : bytes := replicate 32 Byte.x01.
Definition keyB : bytes := replicate 32 Byte.x02.
Definition addrA : string := "stsds1client".
Definition addrB : string := "stsds1server".
Definition ip : bytes := map byte_of_Z [10; 0; 0; 1].
Definition more : bytes := [Byte.x2a].

(** What each side writes, computed from honest runs. *)
Definition server_address : bytes :=
  match @Pack null_gcm 8 (Some (replicate 32 Byte.x03)) (string_bytes addrB) with Ok f => f | _ => [] end.
Definition client_run : res unit * Hs :=
  @client_handshake crypto null_gcm keyA 7 addrA ip 18081 77 (Some (@key_message crypto keyB))
    (start (server_address ++ more)).
Definition server_run : res bool * Hs :=
  @server_handshake crypto null_gcm keyB 8 addrB (fun _ => false) (start (hs_out client_run.2 ++ more)).
Definition forward_run : res bool * Hs :=
  @server_handshake crypto null_gcm [] 9 addrA (fun ch => bool_decide (ch = 77)) (start (hs_out2 server_run.2)).

Lemma handshake_agrees_witness :
  client_run.1 = Ok tt ∧ server_run.1 = Ok false ∧ forward_run.1 = Ok true
  ∧ (∃ k, hs_sharedKey client_run.2 = Some k ∧ hs_sharedKey server_run.2 = Some k
          ∧ @gcm_key_ok null_gcm k = true)
  ∧ hs_remoteP2pAddress client_run.2 = addrB ∧ hs_remoteP2pAddress server_run.2 = addrA
  ∧ hs_in client_run.2 = more ∧ hs_in server_run.2 = more.
Proof.
  apply (@handshake_agrees crypto null_gcm null_gcm_laws crypto_laws keyA keyB [] 7 8 9 addrA addrB ip 18081 77
           (fun ch => bool_decide (ch = 77)) (fun _ => false) more more); vm_compute; done.
Defined.

End HsDemo.
