(* ===== verification/Client.v ===== *)
(** * Client: outgoing connections, and whole sessions

    Models framework/client/cf/conn.go: [readLoop], [writeLoop], [writePacket],
    [Write] and the traffic counters of a [ClientConn].  The code that reads a
    second part, packs a packet and queues a message is the same text as in
    framework/core/conn.go, so the definitions of Conn.v are used on the
    client's fields; what differs is written out here: the client skips an
    outdated header instead of closing, and its write loop does not drain the
    queue after a failure.  Of the flow counters the client has only
    [secondReadFlowA] and [secondWriteFlowA].  The rate limiter, which only
    waits, and the reconnect logic are left out.

    The last part puts a session together: the handshake of Handshake.v, then
    messages in both directions. *)
From S2P Require Import Prelude Bytes Header Message Codec Conn Handshake.

#[local] Arguments copy_at : simpl never.

Section Client.
Context {NC : NodeCrypto} {G : GCM}.
Context {HandlerFunc : Type}.

(** ** A client connection *)

Record ClientConn := mkClientConn {
  cc_sharedKey : option bytes;
  cc_encryptMessage : bool;
  cc_remoteP2pAddress : string;
  cc_minAppVer : Z;
  cc_bufferSize : Z;
  cc_registry : MessageRegistry (HandlerFunc := HandlerFunc)
}.

Definition as_conn (cc : ClientConn) : ServerConn :=
  mkServerConn (cc_sharedKey cc) (cc_encryptMessage cc) (cc_remoteP2pAddress cc) (cc_minAppVer cc)
    (cc_bufferSize cc) (cc_registry cc).

(** ** Reading *)

(** A header whose version is too old is skipped: [continue], still listening
    for a header. *)
Definition cf_read_header (cc : ClientConn) (s : ReadState) : loop_res (HandlerFunc := HandlerFunc) :=
  let '(r, n, c) := Unpack (rs_in s) (conn_key (as_conn cc)) MessageBeatLen in
  let s := set_input s n c in
  try_ s "read header err" r (fun headerBytes =>
  try_ s "" (slice headerBytes 0 MsgHeaderLen) (fun hb =>
  let s := set_buf s (copy_at (rs_msgBuf s) 0 hb).1 in
  try_ s "" (Decode hb) (fun h =>
  if bool_decide (Version h < cc_minAppVer cc) then Continue (set_head s true h)
  else Continue (set_head s false h)))).

Definition cf_readLoop_step (cc : ClientConn) (closed : bool) (s : ReadState) : loop_res :=
  if closed then Return "closes" s
  else if rs_listenHeader s then cf_read_header cc s
  else read_second_part (as_conn cc) s.

Fixpoint cf_readLoop (fuel : nat) (cc : ClientConn) (s : ReadState) : loop_res :=
  match fuel with
  | O => Continue s
  | S fuel =>
      match cf_readLoop_step cc false s with
      | Continue s' => cf_readLoop fuel cc s'
      | Return why s' => Return why s'
      end
  end.

(** ** Writing *)

Definition cf_writePacket (cc : ClientConn) (e : WriteEnv) (v : volRecOpts) (m : RelayMsgBuf) : res WriteResult :=
  writePacket (as_conn cc) e v m.

(** The loop ends with the first failed packet; the rest stays on the queue. *)
Definition cf_writeLoop (cc : ClientConn) (v : volRecOpts) (q : list (WriteEnv * RelayMsgBuf))
  : bytes * volRecOpts * list (WriteEnv * RelayMsgBuf) :=
  let '(out, v, q, _) := write_queue (as_conn cc) v q in (out, v, q).

(** [cc.Write]; a nil connection is refused. *)
Definition cf_Write (cc : option ClientConn) (sendCh : list RelayMsgBuf) (m : RelayMsgBuf) (ctx : WriteCtx)
  : res (list RelayMsgBuf) :=
  match P2pPubKey (MSGSign m) with
  | Some _ =>
      if bool_decide (P2pAddress (MSGSign m) = "") then Err "missing sign related information"
      else match cc with
           | None => Err "nil client connection"
           | Some _ => Ok (asyncWrite sendCh m ctx)
           end
  | None => Err "missing sign related information"
  end.

(** ** What any server can make the client handle *)

Lemma cf_read_header_inv cc s :
  rs_listenHeader s = true → loop_inv (as_conn cc) s → loop_inv (as_conn cc) (loop_state (cf_read_header cc s)).
Proof.
  intros Hlis (Hl & Hh & Ha). unfold cf_read_header.
  destruct (Unpack _ _ _) as [[r n] c].
  apply try_inv; [done|]. intros hb _. apply try_inv; [done|]. intros hb' Hs.
  assert (zlen hb' = 21) as H21 by (apply slice_ok_length in Hs; done).
  assert (zlen (copy_at (rs_msgBuf s) 0 hb').1 = MessageBeatLen) as Hl' by (unfold zlen; by rewrite length_copy_at).
  assert (take 21 (copy_at (rs_msgBuf s) 0 hb').1 = hb') as Ht.
  { assert (length hb' = 21%nat) by (unfold zlen in H21; lia).
    rewrite copy_at_fits by (unfold zlen, MessageBeatLen in Hl; lia).
    cbn [fst]. rewrite take_0, app_nil_l. by rewrite take_app_length'. }
  apply try_inv.
  - split_and!; [done| |done]. cbn. congruence.
  - intros h Hd. case_bool_decide; split_and!; cbn [loop_state set_head set_buf set_input rs_msgBuf rs_listenHeader
      rs_msgH rs_handlerCh]; try done. intros _.
    rewrite Ht. split; [done|]. by eapply Decode_len_range.
Qed.

Lemma cf_readLoop_inv fuel cc s :
  loop_inv (as_conn cc) s → loop_inv (as_conn cc) (loop_state (cf_readLoop fuel cc s)).
Proof.
  revert s. induction fuel as [|fuel IH]; intros s Hs; cbn [cf_readLoop]; [done|].
  assert (loop_inv (as_conn cc) (loop_state (cf_readLoop_step cc false s))) as Hi.
  { unfold cf_readLoop_step. destruct (rs_listenHeader s) eqn:E;
      [by apply cf_read_header_inv|by apply read_second_part_inv]. }
  destruct (cf_readLoop_step _ _ _); [by apply IH|done].
Qed.

(** Whatever a server sends, every message the client's read loop hands to a
    handler was signed by the peer of the connection, is as long as its header
    says, and goes to the handler registered for it. *)
Theorem client_messages_authentic fuel cc input v :
  Forall (authentic (as_conn cc)) (rs_handlerCh (loop_state (cf_readLoop fuel cc (readLoop_init input v)))).
Proof.
  apply (cf_readLoop_inv fuel cc (readLoop_init input v)). split_and!; [apply zlen_init|done|constructor].
Qed.

(** ** Delivery to a client *)

Context `{!GCMLaws G}.

Lemma cf_header_opens cc s h nonce f rest :
  zlen (rs_msgBuf s) = MessageBeatLen → wf_head h → in_u 64 nonce →
  Pack nonce (conn_key (as_conn cc)) (head_bytes h) = Ok f → rs_in s = f ++ rest →
  ∃ fl, cf_read_header cc s
    = Continue (mkReadState (bool_decide (Version h < cc_minAppVer cc)) (rs_i s)
                  (head_bytes h ++ drop 21 (rs_msgBuf s)) h (rs_msgS s)
                  rest fl (rs_handlerCh s) (rs_sendCh s)).
Proof.
  intros Hbuf Hh Hn HP Hin. unfold cf_read_header. rewrite Hin.
  erewrite Unpack_Pack by (done || (rewrite zlen_head_bytes; done)).
  cbn [try_]. rewrite slice_all by done. cbn [try_].
  assert (21 ≤ length (rs_msgBuf s))%nat as Hl by (unfold zlen, MessageBeatLen in Hbuf; lia).
  cbn [set_buf set_input rs_msgBuf]. rewrite copy_at_fits by (rewrite length_head_bytes; lia).
  cbn [fst take app]. rewrite length_head_bytes. cbn [Nat.add].
  rewrite !take_0, !app_nil_l, Decode_head by done. cbn [try_].
  case_bool_decide; eexists; reflexivity.
Qed.

Lemma cf_readLoop_one cc s m sig hd n1 n2 f1 f2 rest :
  keyed (as_conn cc) → ready s → sendable m sig → receivable (as_conn cc) m sig hd → in_u 64 n1 → in_u 64 n2 →
  Pack n1 (conn_key (as_conn cc)) (head_bytes (MSGHead m)) = Ok f1 →
  Pack n2 (conn_key (as_conn cc)) (second_part m sig) = Ok f2 →
  rs_in s = f1 ++ f2 ++ rest →
  ∃ s', cf_readLoop 2 cc s = Continue s' ∧ ready s' ∧ rs_in s' = rest
    ∧ rs_handlerCh s' = rs_handlerCh s ++ [(delivered m, hd)].
Proof.
  intros Hk (Hlis & Hi & Hbuf) Hm Hr Hn1 Hn2 HP1 HP2 Hin.
  cbn [cf_readLoop]. unfold cf_readLoop_step at 1. rewrite Hlis.
  edestruct (cf_header_opens cc s) as (fl & ->); [done|apply (sendable_head _ _ Hm)|apply Hn1|done|done|].
  rewrite bool_decide_eq_false_2 by (pose proof (recv_version _ _ _ _ Hr); cbn in *; lia).
  unfold cf_readLoop_step. cbn [rs_listenHeader].
  match goal with |- context [read_second_part _ ?st] =>
    edestruct (read_second_part_ok (as_conn cc) st m sig hd) as (buf & sg & fl' & Hb & ->)
  end; try done; cbn [rs_msgBuf].
  - rewrite zlen_app, zlen_head_bytes. unfold zlen in *. rewrite length_drop. unfold MessageBeatLen, MsgHeaderLen in *. lia.
  - eexists. split; [done|]. by split_and!.
Qed.

Lemma cf_readLoop_app k1 k2 cc s s1 :
  cf_readLoop k1 cc s = Continue s1 → cf_readLoop (k1 + k2) cc s = cf_readLoop k2 cc s1.
Proof.
  revert s. induction k1 as [|k1 IH]; intros s; cbn [cf_readLoop Nat.add]; [by intros [= ->]|].
  destruct (cf_readLoop_step cc false s); [apply IH|done].
Qed.

Lemma cf_readLoop_frames cc out ys s rest :
  keyed (as_conn cc) → frames (as_conn cc) out ys → ready s → rs_in s = out ++ rest →
  ∃ s', cf_readLoop (2 * length ys) cc s = Continue s' ∧ ready s' ∧ rs_in s' = rest
    ∧ rs_handlerCh s' = rs_handlerCh s ++ ys.
Proof.
  intros Hk Hf. revert s. induction Hf as [|m sig hd n1 n2 f1 f2 out ys Hm Hr Hn1 Hn2 E1 E2 Hf IH]; intros s Hs Hin.
  { exists s. by rewrite app_nil_r. }
  rewrite <- !app_assoc in Hin.
  destruct (cf_readLoop_one cc s m sig hd _ _ f1 f2 _ Hk Hs Hm Hr Hn1 Hn2 E1 E2 Hin) as (s1 & Hl & Hs1 & Hin1 & Hh1).
  destruct (IH s1 Hs1 Hin1) as (s2 & Hl2 & Hs2 & Hin2 & Hh2).
  exists s2. replace (2 * length ((delivered m, hd) :: ys))%nat with (2 + 2 * length ys)%nat by (simpl; lia).
  rewrite (cf_readLoop_app 2 _ _ _ s1 Hl), Hl2, Hh2, Hh1, <- app_assoc. by split_and!.
Qed.

Lemma cf_writeLoop_frames cc (sc : ServerConn (HandlerFunc := HandlerFunc)) v q ys :
  key_ok sc → conn_key (as_conn cc) = conn_key sc → Forall2 (travels sc) q ys →
  frames sc (cf_writeLoop cc v q).1.1 ys ∧ (cf_writeLoop cc v q).2 = [].
Proof.
  intros Hok Hkey Hq. destruct (write_queue_frames (as_conn cc) sc v q ys Hok Hkey Hq) as (out & v' & E & Hf).
  unfold cf_writeLoop. rewrite E. by cbn.
Qed.

(** When a message with an outdated version arrives, the client drops its
    header but not the rest of it: the next iteration takes the message's second
    part for a header, so the loop goes on with a header made of the first bytes
    of that message's body, with whatever length and command they spell. *)
Theorem outdated_message_body_read_as_header cc s m sig h' n1 n2 f1 f2 rest :
  ready s → sendable m sig → Version (MSGHead m) < cc_minAppVer cc → in_u 64 n1 → in_u 64 n2 →
  zlen (second_part m sig) + 16 ≤ MessageBeatLen →
  Decode (take 21 (second_part m sig)) = Ok h' → cc_minAppVer cc ≤ Version h' →
  Pack n1 (conn_key (as_conn cc)) (head_bytes (MSGHead m)) = Ok f1 →
  Pack n2 (conn_key (as_conn cc)) (second_part m sig) = Ok f2 →
  rs_in s = f1 ++ f2 ++ rest →
  ∃ s', cf_readLoop 2 cc s = Continue s' ∧ rs_msgH s' = h' ∧ rs_listenHeader s' = false
    ∧ rs_in s' = rest ∧ rs_handlerCh s' = rs_handlerCh s.
Proof.
  intros (Hlis & Hi & Hbuf) Hm Hv Hn1 Hn2 Hsz Hd Hv' HP1 HP2 Hin.
  cbn [cf_readLoop]. unfold cf_readLoop_step at 1. rewrite Hlis.
  edestruct (cf_header_opens cc s) as (fl & ->); [done|apply (sendable_head _ _ Hm)|apply Hn1|done|done|].
  rewrite bool_decide_eq_true_2 by done. unfold cf_readLoop_step. cbn [rs_listenHeader].
  unfold cf_read_header. cbn [rs_in].
  erewrite Unpack_Pack; [|done|by unfold MessageBeatLen|done|done]. cbn [try_].
  assert (21 ≤ length (second_part m sig))%nat as Hl.
  { pose proof (zlen_second_part m sig Hm) as E. pose proof (zlen_nonneg (MSGBody m)).
    pose proof (zlen_nonneg (MSGData m)). unfold zlen in E |- *.
    assert (MsgSignLen = 140) as Es by done. rewrite Es in E. lia. }
  unfold slice at 1. rewrite bool_decide_eq_true_2 by (unfold zlen, MsgHeaderLen; lia). cbn [try_].
  change (Z.to_nat 0) with 0%nat. change (Z.to_nat (MsgHeaderLen - 0)) with 21%nat. rewrite drop_0, Hd. cbn [try_].
  rewrite bool_decide_eq_false_2 by lia. eexists. by split_and!.
Qed.

(** ** A whole session *)

Context {C : HsCrypto} `{!HsLaws C G}.

(** The connections that [Start] builds on a finished handshake. *)
Definition client_of (h : Hs) (ver size : Z) (reg : MessageRegistry (HandlerFunc := HandlerFunc)) : ClientConn :=
  mkClientConn (hs_sharedKey h) true (hs_remoteP2pAddress h) ver size reg.
Definition server_of (h : Hs) (ver size : Z) (reg : MessageRegistry (HandlerFunc := HandlerFunc)) : ServerConn :=
  mkServerConn (hs_sharedKey h) true (hs_remoteP2pAddress h) ver size reg.

Lemma ready_start input v : ready (HandlerFunc := HandlerFunc) (readLoop_init input v).
Proof. split_and!; [done|done|apply zlen_init]. Qed.

(** C1: a session between honest peers works from end to end: after the
    handshake over the connected streams, every packet the client queued reaches
    the server's handlers and every packet the server queued reaches the
    client's, each once and in order, and both queues are empty. *)
Theorem session_delivers a b kd na nb nd addrA addrB ip port ch waitA waitB moreA moreB c s d
    verC sizeC regC verS sizeS regS vA vB v ob nr qA qB ysA ysB restA restB :
  connected a b kd na nb nd addrA addrB ip port ch waitA waitB moreA moreB c s d →
  in_u 16 port → in_u 32 ch → in_u 64 na → in_u 64 nb → waitA ch = true →
  zlen (string_bytes addrA) + 16 ≤ MaxAddressFrame → zlen (string_bytes addrB) + 16 ≤ MaxAddressFrame →
  P2PAddressFromBech32 addrA = true → P2PAddressFromBech32 addrB = true →
  let cl := client_of c.2 verC sizeC regC in
  let sv := server_of s.2 verS sizeS regS in
  Forall2 (travels sv) qA ysA → Forall2 (travels (as_conn cl)) qB ysB →
  moreA = (cf_writeLoop cl vA qA).1.1 ++ restA → moreB = (writeLoop sv vB qB).1.1 ++ restB →
  (cf_writeLoop cl vA qA).2 = [] ∧ (writeLoop sv vB qB).2 = []
  ∧ (∃ r, readLoop (2 * length qA) sv ob nr (readLoop_init (hs_in s.2) v) = Continue r
       ∧ rs_handlerCh r = ysA ∧ rs_in r = restA)
  ∧ (∃ r, cf_readLoop (2 * length qB) cl (readLoop_init (hs_in c.2) v) = Continue r
       ∧ rs_handlerCh r = ysB ∧ rs_in r = restB).
Proof.
  intros Hconn Hport Hch Hna Hnb Hw HlA HlB HA HB cl sv HqA HqB HmA HmB.
  destruct (connected_agree a b kd na nb nd addrA addrB ip port ch waitA waitB moreA moreB c s d)
    as (_ & _ & _ & (k & Kc & Ks & Hk) & _ & _ & Hinc & Hins); try done.
  assert (conn_key (as_conn cl) = Some k) as Ecl by done.
  assert (conn_key sv = Some k) as Esv by done.
  assert (key_ok sv ∧ key_ok (as_conn cl)) as [Ok1 Ok2] by (split; intros k' E; congruence).
  assert (keyed sv ∧ keyed (as_conn cl)) as [Hk1 Hk2] by (split; intros _; cbn; rewrite ?Kc, ?Ks; by eexists).
  destruct (cf_writeLoop_frames cl sv vA qA ysA Ok1 ltac:(congruence) HqA) as [FA EA].
  destruct (writeLoop_frames sv (as_conn cl) vB qB ysB Ok2 ltac:(congruence) HqB) as [FB EB].
  rewrite (Forall2_length HqA), (Forall2_length HqB), Hins, Hinc, HmA, HmB.
  do 2 (split; [done|]). split.
  - destruct (readLoop_frames sv ob nr _ ysA (readLoop_init ((cf_writeLoop cl vA qA).1.1 ++ restA) v) restA
                Hk1 FA (ready_start _ _) eq_refl) as (r & E & _ & Hr & Hh & _). by exists r.
  - destruct (cf_readLoop_frames cl _ ysB (readLoop_init ((writeLoop sv vB qB).1.1 ++ restB) v) restB
                Hk2 FB (ready_start _ _) eq_refl) as (r & E & _ & Hr & Hh). by exists r.
Qed.

End Client.

(** ** Traffic counters *)

(** The counters of a [ClientConn] for one direction: what came since the last
    tick, what the last second had, and what was not collected yet. *)
Record Traffic := mkTraffic { secondFlowA : Z; secondFlowB : Z; collected : Z }.

(** [cc.secondReadFlowA = cc.secondReadAtomA.AddAndGetNew(n)], and for writes. *)
Definition count_bytes (n : Z) (t : Traffic) : Traffic :=
  mkTraffic (AddAndGetNew (secondFlowA t) n) (secondFlowB t) (collected t).

(** One run of [logFunc], every second. *)
Definition logFunc (t : Traffic) : Traffic :=
  mkTraffic 0 (secondFlowA t) (AddAndGetNew (collected t) (secondFlowA t)).

(** [GetInboundAndReset] and [GetOutboundAndReset]. *)
Definition GetAndReset (t : Traffic) : Z * Traffic := (collected t, mkTraffic (secondFlowA t) (secondFlowB t) 0).

Definition GetSecondFlow (t : Traffic) : Z := secondFlowB t.

(** What happens to a connection over time. *)
Inductive traffic_event := Bytes_ (n : Z) | Tick | Collect.

(** The counters and the values that were collected. *)
Fixpoint run_traffic (es : list traffic_event) (t : Traffic) : Traffic * list Z :=
  match es with
  | [] => (t, [])
  | Bytes_ n :: es => run_traffic es (count_bytes n t)
  | Tick :: es => run_traffic es (logFunc t)
  | Collect :: es => let '(z, t) := GetAndReset t in let '(t', zs) := run_traffic es t in (t', z :: zs)
  end.

Definition bytes_of (e : traffic_event) : Z := match e with Bytes_ n => n | _ => 0 end.
Fixpoint sum_Z (l : list Z) : Z := match l with [] => 0 | z :: l => z + sum_Z l end.

Lemma sum_bytes_nonneg es : Forall (fun e => 0 ≤ bytes_of e) es → 0 ≤ sum_Z (map bytes_of es).
Proof. induction 1; cbn; lia. Qed.

Lemma run_traffic_sum es t :
  Forall (fun e => 0 ≤ bytes_of e) es → 0 ≤ secondFlowA t → 0 ≤ collected t →
  secondFlowA t + collected t + sum_Z (map bytes_of es) < 2 ^ 63 →
  let '(t', zs) := run_traffic es t in
  sum_Z zs + collected t' + secondFlowA t' = secondFlowA t + collected t + sum_Z (map bytes_of es)
  ∧ Forall (fun z => 0 ≤ z) zs.
Proof.
  intros Hes. revert t. induction Hes as [|e es He Hes IH]; intros t Ha Hc Hs; cbn in *; [split; [lia|constructor]|].
  assert (0 ≤ sum_Z (map bytes_of es)) as Hpos by (by apply sum_bytes_nonneg).
  destruct e as [n| |]; cbn in *.
  - specialize (IH (count_bytes n t)). cbn in IH.
    unfold AddAndGetNew in IH. rewrite wraps_id in IH by (unfold in_s; lia).
    destruct (run_traffic es (count_bytes n t)) as [t' zs]. destruct IH as [IH1 IH2]; [lia..|]. split; [lia|done].
  - specialize (IH (logFunc t)). cbn in IH.
    unfold AddAndGetNew in IH. rewrite wraps_id in IH by (unfold in_s; lia).
    destruct (run_traffic es (logFunc t)) as [t' zs]. destruct IH as [IH1 IH2]; [lia..|]. split; [lia|done].
  - specialize (IH (mkTraffic (secondFlowA t) (secondFlowB t) 0)). cbn in IH.
    destruct (run_traffic es _) as [t' zs]. destruct IH as [IH1 IH2]; [lia..|].
    cbn. split; [lia|]. by constructor.
Qed.

(** The traffic report loses nothing and counts nothing twice: as long as the
    total stays below 2^63, the values collected so far plus what is waiting in
    the counters are exactly the bytes that went over the connection, in
    whatever order bytes, ticks and collections came. *)
Theorem traffic_conserved es :
  Forall (fun e => 0 ≤ bytes_of e) es → sum_Z (map bytes_of es) < 2 ^ 63 →
  let '(t, zs) := run_traffic es (mkTraffic 0 0 0) in
  sum_Z zs + collected t + secondFlowA t = sum_Z (map bytes_of es) ∧ Forall (fun z => 0 ≤ z) zs.
Proof. intros Hes Hs. apply (run_traffic_sum es (mkTraffic 0 0 0)); cbn; done || lia. Qed.

(** ** Instances that show the hypotheses can hold *)
Module ClientDemo.

Lemma traffic_conserved_witness :
  let '(t, zs) := run_traffic [Bytes_ 5; Tick; Bytes_ 3; Collect; Tick; Collect; Bytes_ 2] (mkTraffic 0 0 0) in
  sum_Z zs + collected t + secondFlowA t = 10 ∧ Forall (fun z => 0 ≤ z) zs.
Proof.
  apply (traffic_conserved [Bytes_ 5; Tick; Bytes_ 3; Collect; Tick; Collect; Bytes_ 2]).
  - repeat constructor; cbn; lia.
  - reflexivity.
Defined.

Definition reg : MessageRegistry (HandlerFunc := string) := Register messageRegistry0 (mkMsgType 4 "") "handler".
Definition cl : ClientConn := mkClientConn (Some (replicate 32 Byte.x03)) true Demo.addr 12 100 reg.
Definition sv : ServerConn := mkServerConn (Some (replicate 32 Byte.x03)) true Demo.addr 12 100 reg.
Definition q : list (WriteEnv * RelayMsgBuf) := [(Demo.env, Demo.msg 4); (Demo.env, Demo.msg 4)].
Definition ys : list (RelayMsgBuf * string) :=
  [(delivered (Demo.msg 4), "handler"); (delivered (Demo.msg 4), "handler")].
Definition moreA : bytes := (@cf_writeLoop Demo.crypto null_gcm string cl Demo.flow q).1.1 ++ [].
Definition moreB : bytes := (@writeLoop Demo.crypto null_gcm string sv Demo.flow q).1.1 ++ [].

(** Honest runs on the streams the two sides write. *)
Definition server_address : bytes :=
  match @Pack null_gcm 8 (Some (replicate 32 Byte.x03)) (string_bytes Demo.addr) with Ok f => f | _ => [] end.
Definition client_run : res unit * Hs :=
  @client_handshake HsDemo.crypto null_gcm HsDemo.keyA 7 Demo.addr HsDemo.ip 18081 77
    (Some (@key_message HsDemo.crypto HsDemo.keyB)) (start (server_address ++ moreB)).
Definition server_run : res bool * Hs :=
  @server_handshake HsDemo.crypto null_gcm HsDemo.keyB 8 Demo.addr (fun _ => false)
    (start (hs_out client_run.2 ++ moreA)).
Definition forward_run : res bool * Hs :=
  @server_handshake HsDemo.crypto null_gcm [] 9 Demo.addr (fun ch => bool_decide (ch = 77))
    (start (hs_out2 server_run.2)).

Lemma travels_msg : @travels Demo.crypto string sv (Demo.env, Demo.msg 4) (delivered (Demo.msg 4), "handler").
Proof.
  exists Demo.sig. split_and!; [apply Demo.alloc_env|done|done|done|by apply Demo.sendable_msg| |done].
  split; vm_compute; done.
Qed.

Lemma travels_all : Forall2 (@travels Demo.crypto string sv) q ys.
Proof. constructor; [apply travels_msg|]. constructor; [apply travels_msg|constructor]. Qed.

Lemma session_delivers_witness :
  (∃ r, @readLoop Demo.crypto null_gcm _ 4 sv (fun _ _ _ => []) 9 (readLoop_init (hs_in server_run.2) Demo.flow)
          = Continue r ∧ rs_handlerCh r = ys ∧ rs_in r = [])
  ∧ (∃ r, @cf_readLoop Demo.crypto null_gcm _ 4 cl (readLoop_init (hs_in client_run.2) Demo.flow)
          = Continue r ∧ rs_handlerCh r = ys ∧ rs_in r = []).
Proof.
  destruct (@session_delivers Demo.crypto null_gcm string null_gcm_laws HsDemo.crypto HsDemo.crypto_laws
              HsDemo.keyA HsDemo.keyB [] 7 8 9 Demo.addr Demo.addr HsDemo.ip 18081 77
              (fun ch => bool_decide (ch = 77)) (fun _ => false) moreA moreB client_run server_run forward_run
              12 100 reg 12 100 reg Demo.flow Demo.flow Demo.flow (fun _ _ _ => []) 9 q q ys ys [] [])
    as (_ & _ & H1 & H2).
  - split; vm_compute; reflexivity.
  - by vm_compute.
  - by vm_compute.
  - by vm_compute.
  - by vm_compute.
  - reflexivity.
  - by vm_compute.
  - by vm_compute.
  - reflexivity.
  - reflexivity.
  - apply travels_all.
  - apply travels_all.
  - reflexivity.
  - reflexivity.
  - split; [exact H1|exact H2].
Defined.

Definition old_msg : RelayMsgBuf :=
  mkRelayMsgBuf 0 (mkMessageHead 1 3 2 4 77 11) Demo.sign [Byte.x01; Byte.x02; Byte.x03] [Byte.x0a; Byte.x0b].
Definition body_header : MessageHead :=
  match Decode (take 21 (second_part old_msg Demo.sig)) with Ok h => h | _ => mkMessageHead 0 0 0 0 0 0 end.

Lemma sendable_old : @sendable Demo.crypto old_msg Demo.sig.
Proof.
  split; [|done|..].
  - unfold wf_head. cbn. unfold in_u, in_s in *. split_and!; lia.
  - split; [done|]. split; eexists; done.
  - done.
  - vm_compute. done.
Qed.

Lemma outdated_message_body_read_as_header_witness :
  let f1 := frame 11 (head_bytes (MSGHead old_msg) ++ replicate 16 Byte.x00) in
  let f2 := frame 12 (second_part old_msg Demo.sig ++ replicate 16 Byte.x00) in
  ∃ s', @cf_readLoop Demo.crypto null_gcm _ 2 cl (readLoop_init (f1 ++ f2 ++ []) Demo.flow) = Continue s'
    ∧ rs_msgH s' = body_header ∧ rs_listenHeader s' = false ∧ rs_in s' = []
    ∧ rs_handlerCh s' = [].
Proof.
  cbv zeta.
  eapply (@outdated_message_body_read_as_header Demo.crypto null_gcm string null_gcm_laws cl
            (readLoop_init _ Demo.flow) old_msg Demo.sig body_header 11 12).
  - apply ready_start.
  - apply sendable_old.
  - reflexivity.
  - by vm_compute.
  - by vm_compute.
  - by vm_compute.
  - by vm_compute.
  - by vm_compute.
  - reflexivity.
  - reflexivity.
  - reflexivity.
Defined.

End ClientDemo.
