(* ===== verification/Ids.v ===== *)
(** * Ids: snowflake ids and request ids

    Models framework/utils/snowflake.go and the request ids of
    framework/core/codec.go.  The clock is an argument: the list of the
    successive readings of [timeGen]; a computation that needs more readings
    than there are has no result ([None]).  An id is 39 bits of time, 8 bits of
    node and 16 bits of sequence. *)
From Stdlib Require Import Sorting.Sorted.
From S2P Require Import Prelude.

(** ** snowflake.go *)

Definition twepoch0 : Z := 1685987883000.
Definition NodeIdBits : Z := 8.
Definition sequenceBits : Z := 16.
Definition maxNodeId : Z := Z.lxor (-1) (Z.shiftl (-1) NodeIdBits).
Definition sequenceMask : Z := Z.lxor (-1) (Z.shiftl (-1) sequenceBits).
Definition nodeIdShift : Z := sequenceBits.
Definition timestampShift : Z := sequenceBits + NodeIdBits.
Definition maxNextIdsNum : Z := 100.

Record IdWorker := mkIdWorker { sequence : Z; lastTimestamp : Z; nodeId : Z; twepoch : Z }.

Definition NewIdWorker (NodeId : Z) : res IdWorker :=
  if bool_decide (maxNodeId < NodeId) || bool_decide (NodeId < 0) then Err "NodeId Id error"
  else Ok (mkIdWorker 0 (-1) NodeId twepoch0).

(** Spin until a reading is later than [last]. *)
Fixpoint tilNextMillis (clock : list Z) (last : Z) : option (Z * list Z) :=
  match clock with
  | [] => None
  | t :: clock => if bool_decide (t ≤ last) then tilNextMillis clock last else Some (t, clock)
  end.

(** The id of a timestamp, a node and a sequence number. *)
Definition make_id (w : IdWorker) (timestamp seq : Z) : Z :=
  i64 (Z.lor (Z.lor (i64 (Z.shiftl (i64 (timestamp - twepoch w)) timestampShift)) (Z.shiftl (nodeId w) nodeIdShift)) seq).

Definition issue (w : IdWorker) (seq timestamp : Z) (clock : list Z) : res Z * IdWorker * list Z :=
  (Ok (make_id w timestamp seq), mkIdWorker seq timestamp (nodeId w) (twepoch w), clock).

Definition nextid (clock : list Z) (w : IdWorker) : option (res Z * IdWorker * list Z) :=
  match clock with
  | [] => None
  | timestamp :: clock =>
      if bool_decide (timestamp < lastTimestamp w) then Some (Err "Clock moved backwards", w, clock)
      else if bool_decide (lastTimestamp w = timestamp) then
        let seq := Z.land (sequence w + 1) sequenceMask in
        if bool_decide (seq = 0) then
          '(timestamp, clock) ← tilNextMillis clock (lastTimestamp w);
          Some (issue w seq timestamp clock)
        else Some (issue w seq timestamp clock)
      else Some (issue w 0 timestamp clock)
  end.

Definition NextId (clock : list Z) (w : IdWorker) : option (res Z * IdWorker * list Z) := nextid clock w.

(** The loop of [NextIds]: an error leaves a zero in the slice. *)
Fixpoint next_ids (num : nat) (clock : list Z) (w : IdWorker) : option (list Z * IdWorker * list Z) :=
  match num with
  | O => Some ([], w, clock)
  | S num =>
      '(r, w, clock) ← nextid clock w;
      '(ids, w, clock) ← next_ids num clock w;
      Some (match r with Ok i => i | _ => 0 end :: ids, w, clock)
  end.

Definition NextIds (num : Z) (clock : list Z) (w : IdWorker) : option (res (list Z) * IdWorker * list Z) :=
  if bool_decide (maxNextIdsNum < num) || bool_decide (num < 0) then Some (Err "NextIds num error", w, clock)
  else '(ids, w, clock) ← next_ids (Z.to_nat num) clock w; Some (Ok ids, w, clock).

(** ** Request ids (codec.go) *)

(** In Go [a & 0xFF << 8] is [(a & 0xFF) << 8]: the operators bind equally. *)
Definition reqIdFromSnowFlake (snowflake msgid : Z) : Z :=
  let s := u64 snowflake in
  i64 (Z.lor (Z.lor (Z.land s 0xFFFFFFFFFFFF0000) (u64 (Z.shiftl (Z.land s 0xFF) 8))) msgid).

(** [GenerateNewReqId]: [Err] when the process exits. *)
Definition GenerateNewReqId (clock : list Z) (w : IdWorker) (msgid : Z) : option (res Z * IdWorker * list Z) :=
  '(r, w, clock) ← NextId clock w;
  Some (match r with Ok s => Ok (reqIdFromSnowFlake s msgid) | Err e => Err e | Panic e => Panic e end, w, clock).

(** ** Lemmas on bits *)

Lemma make_id_sum w t q :
  0 ≤ t - twepoch w < 2 ^ 39 → in_u 8 (nodeId w) → in_u 16 q →
  make_id w t q = (t - twepoch w) * 2 ^ 24 + nodeId w * 2 ^ 16 + q.
Proof.
  unfold make_id, in_u. intros Ht Hn Hq.
  change timestampShift with 24. change nodeIdShift with 16.
  rewrite (wraps_id 64 (t - twepoch w)) by (unfold in_s; lia).
  rewrite (wraps_id 64 (Z.shiftl (t - twepoch w) 24)) by (rewrite ?Z.shiftl_mul_pow2; unfold in_s; lia).
  replace (Z.shiftl (t - twepoch w) 24) with (Z.shiftl ((t - twepoch w) * 2 ^ 8) 16)
    by (rewrite !Z.shiftl_mul_pow2 by lia; lia).
  rewrite <- Z.shiftl_lor.
  replace ((t - twepoch w) * 2 ^ 8) with (Z.shiftl (t - twepoch w) 8) by (rewrite Z.shiftl_mul_pow2 by lia; lia).
  rewrite lor_shiftl_add, lor_shiftl_add by lia.
  rewrite wraps_id; [lia|lia|unfold in_s; lia].
Qed.

(** The parts of an id. *)
Lemma make_id_parts w t q :
  0 ≤ t - twepoch w < 2 ^ 39 → in_u 8 (nodeId w) → in_u 16 q →
  0 ≤ make_id w t q < 2 ^ 63 ∧ make_id w t q / 2 ^ 24 = t - twepoch w
  ∧ make_id w t q / 2 ^ 16 mod 2 ^ 8 = nodeId w ∧ make_id w t q mod 2 ^ 16 = q.
Proof.
  intros Ht Hn Hq. rewrite make_id_sum by done. unfold in_u in *. split_and!; [lia|lia| | |].
  - symmetry. apply Z.div_unique with (nodeId w * 2 ^ 16 + q); lia.
  - replace (((t - twepoch w) * 2 ^ 24 + nodeId w * 2 ^ 16 + q) / 2 ^ 16) with ((t - twepoch w) * 2 ^ 8 + nodeId w)
      by (apply Z.div_unique with q; lia).
    symmetry. apply Z.mod_unique with (t - twepoch w); lia.
  - symmetry. apply Z.mod_unique with ((t - twepoch w) * 2 ^ 8 + nodeId w); lia.
Qed.

(** ** The ids of a worker *)

(** A worker with the node and the time base it was created with. *)
Definition worker_ok (node : Z) (w : IdWorker) : Prop :=
  nodeId w = node ∧ twepoch w = twepoch0 ∧ in_u 16 (sequence w).

(** The readings lie in the time the 39 bits can hold. *)
Definition clock_ok (clock : list Z) : Prop := Forall (fun t => 0 ≤ t - twepoch0 < 2 ^ 39) clock.

(** The next id is larger than this. *)
Definition floor (w : IdWorker) : Z :=
  if bool_decide (lastTimestamp w < twepoch w) then -1
  else (lastTimestamp w - twepoch w) * 2 ^ 24 + nodeId w * 2 ^ 16 + sequence w.

Lemma mask_mod x : Z.land x sequenceMask = x mod 2 ^ 16.
Proof. change sequenceMask with (Z.ones 16). by rewrite Z.land_ones by lia. Qed.

Lemma tilNextMillis_some clock last t clock' :
  tilNextMillis clock last = Some (t, clock') → last < t ∧ t ∈ clock ∧ (∀ x, x ∈ clock' → x ∈ clock).
Proof.
  induction clock as [|u clock IH]; cbn; [done|]. case_bool_decide.
  - intros H'. destruct (IH H') as (? & ? & ?). split_and!; [done|by right|]. intros. right. auto.
  - intros [= -> ->]. split_and!; [lia|by left|]. intros. by right.
Qed.

Lemma tilNextMillis_none clock last : tilNextMillis clock last = None ↔ Forall (fun t => t ≤ last) clock.
Proof.
  induction clock as [|t clock IH]; cbn; [by split|]. rewrite Forall_cons_iff. case_bool_decide; [|naive_solver lia].
  rewrite IH. naive_solver.
Qed.

(** Issuing an id later in the order than all before. *)
Lemma issue_grows node w q t :
  in_u 8 node → worker_ok node w → 0 ≤ t - twepoch0 < 2 ^ 39 → in_u 16 q →
  (lastTimestamp w < t ∨ lastTimestamp w = t ∧ sequence w < q) →
  let w' := mkIdWorker q t (nodeId w) (twepoch w) in
  worker_ok node w' ∧ floor w < make_id w t q ∧ floor w' = make_id w t q
  ∧ make_id w t q < 2 ^ 63 ∧ make_id w t q / 2 ^ 16 mod 2 ^ 8 = node.
Proof.
  intros Hnode (Hn & Htw & Hseq) Ht Hq Hlt w'. subst node. rewrite <- Htw in Ht.
  destruct (make_id_parts w t q Ht Hnode Hq) as (Hr & _ & Hnd & _).
  assert (floor w' = make_id w t q) as Hf.
  { unfold floor, w'. cbn. rewrite bool_decide_eq_false_2 by lia. by rewrite make_id_sum. }
  split; [by split|]. split; [|split; [done|split; [lia|done]]].
  rewrite make_id_sum by done. clear Hf Hr Hnd w'. unfold floor, in_u in *. case_bool_decide; lia.
Qed.

Lemma nextid_grows node clock w r w' clock' :
  in_u 8 node → worker_ok node w → clock_ok clock → nextid clock w = Some (r, w', clock') →
  worker_ok node w' ∧ clock_ok clock'
  ∧ match r with
    | Ok i => floor w < i < 2 ^ 63 ∧ floor w' = i ∧ i / 2 ^ 16 mod 2 ^ 8 = node
    | Err _ => w' = w
    | Panic _ => False
    end.
Proof.
  intros Hnode Hw Hc. destruct clock as [|t clock]; [done|]. apply Forall_cons_iff in Hc as [Ht Hc]. cbn.
  assert (∀ q t c, 0 ≤ t - twepoch0 < 2 ^ 39 → in_u 16 q → clock_ok c →
    (lastTimestamp w < t ∨ lastTimestamp w = t ∧ sequence w < q) →
    Some (issue w q t c) = Some (r, w', clock') →
    worker_ok node w' ∧ clock_ok clock' ∧ match r with
      | Ok i => floor w < i < 2 ^ 63 ∧ floor w' = i ∧ i / 2 ^ 16 mod 2 ^ 8 = node
      | Err _ => w' = w | Panic _ => False end) as Hissue.
  { intros q t' c Ht' Hq Hcc Hlt [= <- <- <-].
    destruct (issue_grows node w q t' Hnode Hw Ht' Hq Hlt) as (? & ? & ? & ? & ?). by split_and!. }
  rewrite mask_mod. pose proof (Z.mod_pos_bound (sequence w + 1) (2 ^ 16) ltac:(lia)) as Hm.
  destruct Hw as (Hn & Htw & Hseq). unfold in_u in Hseq.
  case_bool_decide as E1; [intros [= <- <- <-]; by split_and!|].
  case_bool_decide as E2; [|apply Hissue; [done|by unfold in_u|done|lia]].
  case_bool_decide as E3.
  - destruct (tilNextMillis clock (lastTimestamp w)) as [[t' c']|] eqn:E; cbn [mbind option_bind]; [|done].
    apply tilNextMillis_some in E as (Hlt & Hin & Hsub).
    unfold clock_ok in Hc. rewrite Forall_lookup in Hc.
    assert (∀ x, x ∈ clock → 0 ≤ x - twepoch0 < 2 ^ 39) as Hall.
    { intros x [i Hi]%list_elem_of_lookup. by eapply Hc. }
    apply Hissue; [by apply Hall|by rewrite E3|..|by left].
    apply Forall_lookup. intros i x Hx. apply Hall, Hsub, list_elem_of_lookup. by exists i.
  - apply Hissue; [done|done|done|]. right. split; [done|].
    destruct (decide (sequence w + 1 = 2 ^ 16)) as [E|]; [by rewrite E in E3|]. rewrite Z.mod_small; lia.
Qed.

(** Calls of [NextId] one after the other: the ids issued, errors left out. *)
Fixpoint run_ids (n : nat) (clock : list Z) (w : IdWorker) : option (list Z) :=
  match n with
  | O => Some []
  | S n =>
      '(r, w, clock) ← NextId clock w;
      ids ← run_ids n clock w;
      Some (match r with Ok i => i :: ids | _ => ids end)
  end.

Lemma run_ids_grow node n clock w ids :
  in_u 8 node → worker_ok node w → clock_ok clock → run_ids n clock w = Some ids →
  StronglySorted Z.lt ids ∧ Forall (fun i => floor w < i < 2 ^ 63 ∧ i / 2 ^ 16 mod 2 ^ 8 = node) ids.
Proof.
  intros Hnode. revert clock w ids. induction n as [|n IH]; intros clock w ids Hw Hc; cbn.
  { intros [= <-]. by split; constructor. }
  unfold NextId. destruct (nextid clock w) as [[[r w'] c']|] eqn:E; cbn; [|done].
  destruct (run_ids n c' w') as [l|] eqn:El; cbn; [|done]. intros [= <-].
  destruct (nextid_grows node clock w r w' c' Hnode Hw Hc E) as (Hw' & Hc' & Hr).
  destruct (IH c' w' l Hw' Hc' El) as [Hs Hf].
  destruct r as [i| |]; [|by subst w'|done]. destruct Hr as ((Hlt & Hub) & Hfl & Hnd).
  rewrite Hfl in Hf. split.
  - constructor; [done|]. eapply Forall_impl; [|exact Hf]. cbn. intuition lia.
  - constructor; [done|]. eapply Forall_impl; [|exact Hf]. cbn. intuition lia.
Qed.

(** The ids a worker issues are strictly increasing, so no id is issued
    twice, whatever the clock does within its 39 bits, backward jumps included;
    they fit a positive [int64] and carry the worker's node, so ids of different
    nodes differ; and a call fails to return only as long as the clock does not
    get past the last timestamp. *)
Theorem snowflake_ids_increase node w n clock :
  NewIdWorker node = Ok w → clock_ok clock →
  (∀ ids, run_ids n clock w = Some ids →
    StronglySorted Z.lt ids ∧ Forall (fun i => 0 ≤ i < 2 ^ 63 ∧ i / 2 ^ 16 mod 2 ^ 8 = node) ids)
  ∧ (∀ w' c, nextid c w' = None → Forall (fun t => t ≤ lastTimestamp w') c).
Proof.
  unfold NewIdWorker. change maxNodeId with 255. intros Hw Hc.
  repeat case_bool_decide; try done. cbn in Hw. injection Hw as <-. split.
  - intros ids Hr. destruct (run_ids_grow node n clock (mkIdWorker 0 (-1) node twepoch0) ids) as [Hs Hf];
      [unfold in_u; lia|unfold worker_ok, in_u; cbn; lia|done|done|].
    split; [done|]. change (floor _) with (-1) in Hf. eapply Forall_impl; [|exact Hf]. cbn. intuition lia.
  - intros w' [|t c]; cbn; [by constructor|]. repeat case_bool_decide; try done.
    destruct (tilNextMillis c (lastTimestamp w')) as [[]|] eqn:E; cbn; [done|]. intros _.
    apply tilNextMillis_none in E. constructor; [lia|done].
Qed.

(** ** Uniqueness of request ids *)

Lemma reqId_sum s m :
  0 ≤ s < 2 ^ 63 → in_u 8 m → reqIdFromSnowFlake s m = s / 2 ^ 16 * 2 ^ 16 + s mod 2 ^ 8 * 2 ^ 8 + m.
Proof.
  intros Hs Hm. unfold reqIdFromSnowFlake, in_u in *. cbv zeta. rewrite wrapu_id by (unfold in_u; lia).
  assert (Z.land s 0xFFFFFFFFFFFF0000 = Z.shiftl (s / 2 ^ 16) 16) as ->.
  { change 0xFFFFFFFFFFFF0000 with (Z.shiftl (Z.ones 48) 16). apply Z.bits_inj'. intros i Hi.
    rewrite Z.land_spec. destruct (Z.lt_ge_cases i 16).
    - rewrite !Z.shiftl_spec_low by lia. by rewrite andb_false_r.
    - rewrite !Z.shiftl_spec, Z.div_pow2_bits by lia. replace (i - 16 + 16) with i by lia.
      destruct (Z.lt_ge_cases (i - 16) 48).
      + rewrite Z.ones_spec_low by lia. by rewrite andb_true_r.
      + destruct (decide (s = 0)) as [->|]; [by rewrite Z.bits_0|].
        rewrite (Z.bits_above_log2 s); [done|lia|]. apply Z.log2_lt_pow2; [lia|].
        apply Z.lt_le_trans with (2 ^ 63); [lia|]. apply Z.pow_le_mono_r; lia. }
  change 0xFF with (Z.ones 8). rewrite Z.land_ones by lia.
  pose proof (Z.mod_pos_bound s (2 ^ 8) ltac:(lia)) as Hb.
  pose proof (Z.div_pos s (2 ^ 16) ltac:(lia) ltac:(lia)).
  assert (s / 2 ^ 16 < 2 ^ 47) by (apply Z.div_lt_upper_bound; lia).
  rewrite (Z.shiftl_mul_pow2 (s mod 2 ^ 8)) by lia. rewrite wrapu_id by (unfold in_u; lia).
  rewrite lor_shiftl_add by lia.
  replace (s / 2 ^ 16 * 2 ^ 16 + s mod 2 ^ 8 * 2 ^ 8) with (Z.shiftl (s / 2 ^ 16 * 2 ^ 8 + s mod 2 ^ 8) 8)
    by (rewrite Z.shiftl_mul_pow2 by lia; lia).
  rewrite lor_shiftl_add, Z.shiftl_mul_pow2 by lia. rewrite wraps_id; [lia|lia|unfold in_s; lia].
Qed.

(** A request id carries the id of its message in its lowest byte, and two
    request ids are different when their snowflakes or their messages are, as
    long as the sequence numbers are below 256; beyond that they are not: the
    upper byte of the sequence number is lost, so the request ids of two
    snowflakes whose sequence numbers differ by 256 are the same. *)
Theorem request_ids_unique_below_256 a b m n :
  0 ≤ a < 2 ^ 63 → 0 ≤ b < 2 ^ 63 → in_u 8 m → in_u 8 n →
  reqIdFromSnowFlake a m mod 2 ^ 8 = m
  ∧ (a mod 2 ^ 16 < 256 → b mod 2 ^ 16 < 256 →
     (reqIdFromSnowFlake a m = reqIdFromSnowFlake b n ↔ a = b ∧ m = n))
  ∧ (a mod 2 ^ 16 + 256 < 2 ^ 16 → reqIdFromSnowFlake (a + 256) m = reqIdFromSnowFlake a m).
Proof.
  intros Ha Hb Hm Hn. unfold in_u in *.
  pose proof (Z.div_mod a (2 ^ 16) ltac:(lia)) as Ea. pose proof (Z.mod_pos_bound a (2 ^ 16) ltac:(lia)) as Ra.
  pose proof (Z.div_mod b (2 ^ 16) ltac:(lia)) as Eb. pose proof (Z.mod_pos_bound b (2 ^ 16) ltac:(lia)) as Rb.
  pose proof (Z.mod_pos_bound a (2 ^ 8) ltac:(lia)) as Ra8. pose proof (Z.mod_pos_bound b (2 ^ 8) ltac:(lia)) as Rb8.
  rewrite !reqId_sum by (unfold in_u; lia). split_and!.
  - symmetry. apply Z.mod_unique with (a / 2 ^ 16 * 2 ^ 8 + a mod 2 ^ 8); lia.
  - intros Sa Sb.
    assert (a mod 2 ^ 8 = a mod 2 ^ 16) as -> by (symmetry; apply Z.mod_unique with (a / 2 ^ 16 * 2 ^ 8); lia).
    assert (b mod 2 ^ 8 = b mod 2 ^ 16) as -> by (symmetry; apply Z.mod_unique with (b / 2 ^ 16 * 2 ^ 8); lia).
    split; [|by intros [-> ->]]. intros E. nia.
  - intros Sa.
    assert (a + 256 < 2 ^ 63) as Hb' by lia.
    rewrite reqId_sum by (unfold in_u; lia).
    assert ((a + 256) / 2 ^ 16 = a / 2 ^ 16) as -> by (symmetry; apply Z.div_unique with (a mod 2 ^ 16 + 256); lia).
    assert ((a + 256) mod 2 ^ 8 = a mod 2 ^ 8) as ->; [|done].
    replace (a + 256) with (a + 1 * 2 ^ 8) by lia. by rewrite Z.mod_add.
Qed.

(** ** Instances that show the hypotheses can hold *)
Module IdsDemo.

Lemma snowflake_ids_increase_witness :
  let clock := [1700000000000; 1700000000000; 1699999999999; 1700000000001] in
  let w := mkIdWorker 0 (-1) 7 twepoch0 in
  (∀ ids, run_ids 4 clock w = Some ids →
    StronglySorted Z.lt ids ∧ Forall (fun i => 0 ≤ i < 2 ^ 63 ∧ i / 2 ^ 16 mod 2 ^ 8 = 7) ids)
  ∧ (∀ w' c, nextid c w' = None → Forall (fun t => t ≤ lastTimestamp w') c).
Proof.
  apply (snowflake_ids_increase 7).
  - reflexivity.
  - repeat constructor; vm_compute; done.
Defined.

Lemma request_ids_unique_below_256_witness :
  reqIdFromSnowFlake 65541 4 mod 2 ^ 8 = 4
  ∧ (65541 mod 2 ^ 16 < 256 → 131077 mod 2 ^ 16 < 256 →
     (reqIdFromSnowFlake 65541 4 = reqIdFromSnowFlake 131077 9 ↔ 65541 = 131077 ∧ 4 = 9))
  ∧ (65541 mod 2 ^ 16 + 256 < 2 ^ 16 → reqIdFromSnowFlake (65541 + 256) 4 = reqIdFromSnowFlake 65541 4).
Proof. apply request_ids_unique_below_256; unfold in_u; lia. Defined.

End IdsDemo.
