(* ===== verification/CleanMap.v ===== *)
(** * CleanMap: a map whose entries expire

    Models [AutoCleanMap] of framework/utils/auto_clean_map.go.  Every stored
    value is an object of its own with a wait group and a channel; [Store] starts
    a goroutine that waits for the group and then deletes the key, unless the
    channel says the object was deleted before; every use starts another
    goroutine that sleeps for the delay and holds the group until then.  Here the
    sleeping goroutines of an object are the list of the times they wake up at,
    and [advance] lets time pass and runs every goroutine that wakes up.

    The specification is a map from keys to values with the time of their last
    use.  Operations that overlap in time are outside the model. *)
From S2P Require Import Prelude.

Section CleanMap.
Context {V : Type} (delay : Z).

(** ** The implementation *)

(** [MyValue] with the goroutine that waits to delete [obj_key]. *)
Record obj := mkObj { obj_key : string; obj_value : V; obj_wakeups : list Z; obj_deleted : bool }.

(** Objects stay as long as their goroutine waits, whether or not they are still
    in the map. *)
Record CMap := mkCMap { myMap : gmap string nat; objects : gmap nat obj; next_obj : nat; now : Z }.

Definition NewAutoCleanMap (t : Z) : CMap := mkCMap ∅ ∅ 0 t.

Definition pushDelete (t : Z) (x : obj) : obj :=
  mkObj (obj_key x) (obj_value x) (obj_wakeups x ++ [t + delay]) (obj_deleted x).

Definition Delete (key : string) (m : CMap) : CMap :=
  match myMap m !! key with
  | None => m
  | Some o =>
      mkCMap (delete key (myMap m))
        (alter (fun x => mkObj (obj_key x) (obj_value x) (obj_wakeups x) true) o (objects m))
        (next_obj m) (now m)
  end.

Definition Store (key : string) (value : V) (m : CMap) : CMap :=
  let m := Delete key m in
  mkCMap (<[key := next_obj m]> (myMap m))
    (<[next_obj m := pushDelete (now m) (mkObj key value [] false)]> (objects m))
    (S (next_obj m)) (now m).

Definition LoadWithoutPushDelete (key : string) (m : CMap) : option V :=
  o ← myMap m !! key; x ← objects m !! o; Some (obj_value x).

Definition Load (key : string) (m : CMap) : option V * CMap :=
  match myMap m !! key with
  | None => (None, m)
  | Some o => (LoadWithoutPushDelete key m,
               mkCMap (myMap m) (alter (pushDelete (now m)) o (objects m)) (next_obj m) (now m))
  end.

Definition HashKey (key : string) (m : CMap) : bool := bool_decide (is_Some (myMap m !! key)).

(** After [d] time units: sleepers wake up, and an object none of whose sleepers
    is left deletes its key, unless it was deleted. *)
Definition asleep (t : Z) (x : obj) : obj :=
  mkObj (obj_key x) (obj_value x) (filter (fun w => t < w) (obj_wakeups x)) (obj_deleted x).

Definition finished (x : obj) : Prop := obj_wakeups x = [].
#[global] Instance finished_dec x : Decision (finished x).
Proof. unfold finished. destruct (obj_wakeups x); [by left|by right]. Defined.

Definition cleaned_keys (os : gmap nat obj) : gset string :=
  list_to_set (omap (fun ox => if decide (finished ox.2 ∧ obj_deleted ox.2 = false)
                               then Some (obj_key ox.2) else None) (map_to_list os)).

Definition advance (d : Z) (m : CMap) : CMap :=
  let os := asleep (now m + d) <$> objects m in
  mkCMap (filter (fun kv => kv.1 ∉ cleaned_keys os) (myMap m))
    (filter (fun ox => ¬ finished ox.2) os) (next_obj m) (now m + d).

(** ** The specification *)

(** Values with the time of their last use. *)
Record Spec := mkSpec { entries : gmap string (V * Z); clock : Z }.

Inductive op := OpStore (key : string) (v : V) | OpLoad (key : string) | OpPeek (key : string)
              | OpHas (key : string) | OpDelete (key : string) | OpWait (d : Z).

(** What an operation returns. *)
Inductive obs := Nothing | Value (v : option V) | Has (b : bool).

Definition run_op (o : op) (m : CMap) : obs * CMap :=
  match o with
  | OpStore k v => (Nothing, Store k v m)
  | OpLoad k => let '(v, m) := Load k m in (Value v, m)
  | OpPeek k => (Value (LoadWithoutPushDelete k m), m)
  | OpHas k => (Has (HashKey k m), m)
  | OpDelete k => (Nothing, Delete k m)
  | OpWait d => (Nothing, advance d m)
  end.

Definition spec_op (o : op) (s : Spec) : obs * Spec :=
  match o with
  | OpStore k v => (Nothing, mkSpec (<[k := (v, clock s)]> (entries s)) (clock s))
  | OpLoad k => (Value (fst <$> entries s !! k), mkSpec (alter (fun e => (e.1, clock s)) k (entries s)) (clock s))
  | OpPeek k => (Value (fst <$> entries s !! k), s)
  | OpHas k => (Has (bool_decide (is_Some (entries s !! k))), s)
  | OpDelete k => (Nothing, mkSpec (delete k (entries s)) (clock s))
  | OpWait d => (Nothing, mkSpec (filter (fun kv => clock s + d < kv.2.2 + delay) (entries s)) (clock s + d))
  end.

Fixpoint run_ops (os : list op) (m : CMap) : list obs :=
  match os with [] => [] | o :: os => let '(r, m) := run_op o m in r :: run_ops os m end.
Fixpoint spec_ops (os : list op) (s : Spec) : list obs :=
  match os with [] => [] | o :: os => let '(r, s) := spec_op o s in r :: spec_ops os s end.

(** ** Simulation *)

(** The object of a key: alive, with the value and the last use of the
    specification, whose sleeper is the last to wake up. *)
Definition holds_entry (t : Z) (k : string) (x : obj) (e : V * Z) : Prop :=
  obj_key x = k ∧ obj_value x = e.1 ∧ obj_deleted x = false
  ∧ (e.2 + delay) ∈ obj_wakeups x ∧ Forall (fun w => w ≤ e.2 + delay) (obj_wakeups x)
  ∧ e.2 ≤ t < e.2 + delay.

Record sim (m : CMap) (s : Spec) : Prop := {
  sim_clock : now m = clock s;
  sim_entry : ∀ k o, myMap m !! k = Some o →
    ∃ x e, objects m !! o = Some x ∧ entries s !! k = Some e ∧ holds_entry (now m) k x e;
  sim_none : ∀ k, myMap m !! k = None → entries s !! k = None;
  sim_live : ∀ o x, objects m !! o = Some x → obj_deleted x = false → myMap m !! obj_key x = Some o;
  sim_fresh : ∀ o, (next_obj m ≤ o)%nat → objects m !! o = None
}.

Lemma sim_init t : sim (NewAutoCleanMap t) (mkSpec ∅ t).
Proof. split; cbn; intros *; by rewrite ?lookup_empty. Qed.

Lemma sim_peek m s k : sim m s → LoadWithoutPushDelete k m = fst <$> entries s !! k.
Proof.
  intros H. unfold LoadWithoutPushDelete. destruct (myMap m !! k) as [o|] eqn:E; cbn.
  - destruct (sim_entry _ _ H _ _ E) as (x & e & -> & -> & Hx). cbn. f_equal. apply Hx.
  - by rewrite (sim_none _ _ H _ E).
Qed.

Lemma sim_has m s k : sim m s → HashKey k m = bool_decide (is_Some (entries s !! k)).
Proof.
  intros H. unfold HashKey. apply bool_decide_ext. destruct (myMap m !! k) as [o|] eqn:E.
  - destruct (sim_entry _ _ H _ _ E) as (x & e & _ & -> & _). split; by eexists.
  - by rewrite (sim_none _ _ H _ E).
Qed.

(** Two keys of the map never share an object. *)
Lemma sim_inj m s k1 k2 o : sim m s → myMap m !! k1 = Some o → myMap m !! k2 = Some o → k1 = k2.
Proof.
  intros H E1 E2. destruct (sim_entry _ _ H _ _ E1) as (x & e & Hx & _ & K1 & _).
  destruct (sim_entry _ _ H _ _ E2) as (x' & e' & Hx' & _ & K2 & _). congruence.
Qed.

Lemma sim_delete m s k : sim m s → sim (Delete k m) (mkSpec (delete k (entries s)) (clock s)).
Proof.
  intros H. unfold Delete. destruct (myMap m !! k) as [o|] eqn:E.
  2:{ rewrite delete_id by (by apply (sim_none _ _ H)). by destruct s, H. }
  split; cbn.
  - apply H.
  - intros k' o'. rewrite lookup_delete_Some. intros [Hne E'].
    destruct (sim_entry _ _ H _ _ E') as (x & e & Hx & He & Hh).
    exists x, e. rewrite lookup_alter_ne, lookup_delete_ne; [done|done|].
    intros ->. apply Hne. by eapply sim_inj.
  - intros k'. rewrite !lookup_delete_None. intros [->|E']; [by left|right]. by apply (sim_none _ _ H).
  - intros o' x'. destruct (decide (o = o')) as [<-|Hne].
    + rewrite lookup_alter_eq. destruct (objects m !! o); cbn; [|done]. by intros [= <-].
    + rewrite lookup_alter_ne by done. intros Hx Hd. pose proof (sim_live _ _ H _ _ Hx Hd) as Hm.
      rewrite lookup_delete_ne; [done|]. intros E'. rewrite <- E' in Hm. congruence.
  - intros o' Ho. pose proof (sim_fresh _ _ H o' Ho) as E'. rewrite lookup_alter_None. done.
Qed.

Lemma pushed_holds t k v : 0 < delay → holds_entry t k (pushDelete t (mkObj k v [] false)) (v, t).
Proof.
  intros Hd. split_and!; cbn; [done|done|done|by left| |lia|lia]. by repeat constructor.
Qed.

Lemma sim_store m s k v : 0 < delay → sim m s → sim (Store k v m) (mkSpec (<[k := (v, clock s)]> (entries s)) (clock s)).
Proof.
  intros Hd H. unfold Store. pose proof (sim_delete m s k H) as H'. cbv zeta.
  assert (now (Delete k m) = clock s) as Hnow by apply H'.
  assert (myMap (Delete k m) !! k = None) as Hk.
  { unfold Delete. destruct (myMap m !! k) eqn:E; [apply lookup_delete_eq|done]. }
  generalize dependent (Delete k m). intros m' H' Hnow Hk.
  split; cbn.
  - done.
  - intros k' o. rewrite lookup_insert_Some. intros [[<- <-]|[Hne E]].
    + eexists _, _. rewrite !lookup_insert_eq. split_and!; [done|done|]. rewrite <- Hnow. by apply pushed_holds.
    + destruct (sim_entry _ _ H' _ _ E) as (x & e & Hx & He & Hh). cbn in He.
      rewrite lookup_delete_ne in He by done.
      exists x, e. rewrite !lookup_insert_ne; [done|done|].
      intros <-. by rewrite (sim_fresh _ _ H') in Hx.
  - intros k'. rewrite !lookup_insert_None. intros [E Hne]. split; [|done].
    pose proof (sim_none _ _ H' _ E) as E'. cbn in E'. by rewrite lookup_delete_ne in E'.
  - intros o x. rewrite lookup_insert_Some. intros [[<- <-]|[Hne Hx]]; [by rewrite lookup_insert_eq|].
    intros Hdel. pose proof (sim_live _ _ H' _ _ Hx Hdel) as E. rewrite lookup_insert_ne; [done|]. congruence.
  - intros o Ho. rewrite lookup_insert_ne by lia. apply (sim_fresh _ _ H'). lia.
Qed.

Lemma pushDelete_holds t k x e : 0 < delay → holds_entry t k x e → holds_entry t k (pushDelete t x) (e.1, t).
Proof.
  intros Hd (H1 & H2 & H3 & H4 & H5 & H6). split_and!; cbn; try done; [set_solver| |lia..].
  rewrite Forall_app. split; [|by repeat constructor]. eapply Forall_impl; [|exact H5]. cbn. lia.
Qed.

Lemma sim_load m s k :
  0 < delay → sim m s →
  (Load k m).1 = fst <$> entries s !! k
  ∧ sim (Load k m).2 (mkSpec (alter (fun e => (e.1, clock s)) k (entries s)) (clock s)).
Proof.
  intros Hd H. unfold Load. destruct (myMap m !! k) as [o|] eqn:E.
  2:{ rewrite (sim_none _ _ H _ E). split; [done|]. cbn.
      assert (alter (fun e => (e.1, clock s)) k (entries s) = entries s) as ->; [|by destruct s, H].
      apply map_eq. intros k'. destruct (decide (k = k')) as [<-|];
        [by rewrite lookup_alter_eq, (sim_none _ _ H _ E)|by rewrite lookup_alter_ne]. }
  split; [by apply sim_peek|]. cbn [snd]. split; cbn.
  - apply H.
  - intros k' o' E'. destruct (sim_entry _ _ H _ _ E') as (x & e & Hx & He & Hh).
    destruct (decide (k' = k)) as [->|Hne].
    + assert (o' = o) as -> by congruence. rewrite !lookup_alter_eq, Hx, He. cbn.
      eexists _, _. split_and!; [done|done|]. rewrite <- (sim_clock _ _ H). by apply pushDelete_holds.
    + exists x, e. rewrite !lookup_alter_ne; [done|done|]. intros ->. apply Hne. by eapply sim_inj.
  - intros k' E'. rewrite lookup_alter_None. by apply (sim_none _ _ H).
  - intros o' x'. destruct (decide (o = o')) as [<-|Hne].
    + rewrite lookup_alter_eq. destruct (objects m !! o) as [x|] eqn:Ex; cbn; [|done].
      intros [= <-] Hdel. by apply (sim_live _ _ H o x).
    + rewrite lookup_alter_ne by done. apply (sim_live _ _ H).
  - intros o' Ho. rewrite lookup_alter_None. by apply (sim_fresh _ _ H).
Qed.

Lemma elem_of_cleaned os k :
  k ∈ cleaned_keys os ↔ ∃ o x, os !! o = Some x ∧ finished x ∧ obj_deleted x = false ∧ obj_key x = k.
Proof.
  unfold cleaned_keys. rewrite elem_of_list_to_set, list_elem_of_omap. split.
  - intros ([o x] & Hin & H). apply elem_of_map_to_list in Hin. cbn in H. case_decide as Hd; [|done].
    simplify_eq. exists o, x. by destruct Hd.
  - intros (o & x & Hx & Hf & Hd & <-). exists (o, x). rewrite elem_of_map_to_list. split; [done|].
    cbn. by rewrite decide_True.
Qed.

(** An object is finished when its last sleeper has woken up. *)
Lemma asleep_finished t t' k x e : holds_entry t k x e → finished (asleep t' x) ↔ e.2 + delay ≤ t'.
Proof.
  intros (_ & _ & _ & Hin & Hall & _). unfold finished. cbn. split.
  - intros E. apply Z.nlt_ge. intros Hlt.
    assert (e.2 + delay ∈ filter (fun w => t' < w) (obj_wakeups x)) as Hw by (by apply list_elem_of_filter).
    rewrite E in Hw. by apply not_elem_of_nil in Hw.
  - intros Hle. rewrite List.Forall_forall in Hall. destruct (filter _ _) as [|w l] eqn:E; [done|].
    assert (w ∈ filter (fun w => t' < w) (obj_wakeups x)) as Hw by (rewrite E; by left).
    apply list_elem_of_filter in Hw as [Hlt Hw]. apply list_elem_of_In, Hall in Hw. lia.
Qed.

Lemma asleep_holds t d k x e :
  holds_entry t k x e → 0 ≤ d → t + d < e.2 + delay → holds_entry (t + d) k (asleep (t + d) x) e.
Proof.
  intros (H1 & H2 & H3 & H4 & H5 & H6) Hd Hlt. split_and!; cbn; try done; [|..|lia].
  - by apply list_elem_of_filter.
  - apply Forall_forall. intros w Hw. apply list_elem_of_In, list_elem_of_filter in Hw as [_ Hw].
    rewrite Forall_forall in H5. by apply H5, list_elem_of_In.
Qed.

Lemma sim_advance m s d :
  0 ≤ d → sim m s →
  sim (advance d m) (mkSpec (filter (fun kv => clock s + d < kv.2.2 + delay) (entries s)) (clock s + d)).
Proof.
  intros Hd H. unfold advance. cbv zeta. rewrite <- (sim_clock _ _ H).
  set (t := now m + d). set (os := asleep t <$> objects m).
  assert (∀ k o, myMap m !! k = Some o → ∃ x e, objects m !! o = Some x ∧ entries s !! k = Some e
            ∧ holds_entry (now m) k x e ∧ (k ∈ cleaned_keys os ↔ e.2 + delay ≤ t)) as Hkey.
  { intros k o E. destruct (sim_entry _ _ H _ _ E) as (x & e & Hx & He & Hh). exists x, e. split_and!; try done.
    rewrite <- (asleep_finished _ t _ _ _ Hh), elem_of_cleaned. split.
    - intros (o' & x' & Hx' & Hf & Hdel & Hk). unfold os in Hx'. rewrite lookup_fmap in Hx'.
      destruct (objects m !! o') as [x0|] eqn:E0; [|done]. cbn in Hx'. simplify_eq. cbn in *.
      pose proof (sim_live _ _ H _ _ E0 Hdel) as E'. congruence.
    - intros Hf. exists o, (asleep t x). unfold os. rewrite lookup_fmap, Hx. cbn.
      split_and!; [done|done|apply Hh|apply Hh]. }
  split; cbn.
  - done.
  - intros k o. rewrite map_lookup_filter_Some. cbn. intros [E Hn].
    destruct (Hkey _ _ E) as (x & e & Hx & He & Hh & Hc).
    assert (t < e.2 + delay) as Hlt by (apply Z.nle_gt; tauto).
    exists (asleep t x), e. rewrite !map_lookup_filter_Some. unfold os. rewrite lookup_fmap, Hx. cbn.
    split_and!; [done| |done|done|by apply asleep_holds].
    rewrite (asleep_finished _ _ _ _ _ Hh). lia.
  - intros k. rewrite !map_lookup_filter_None. intros Hn. destruct (myMap m !! k) as [o|] eqn:E.
    + right. destruct (Hkey _ _ E) as (x & e & _ & He & _ & Hc). intros e' He'. cbn.
      assert (e' = e) as -> by congruence. destruct Hn as [|Hn]; [done|].
      specialize (Hn _ eq_refl). cbn in Hn. apply dec_stable in Hn. apply Hc in Hn. lia.
    + left. by apply (sim_none _ _ H).
  - intros o x'. rewrite map_lookup_filter_Some. cbn. unfold os at 1. rewrite lookup_fmap.
    intros [Hx Hf] Hdel. destruct (objects m !! o) as [x|] eqn:Ex; [|done]. cbn in Hx. simplify_eq. cbn in *.
    pose proof (sim_live _ _ H _ _ Ex Hdel) as E. rewrite map_lookup_filter_Some. split; [done|]. cbn.
    destruct (Hkey _ _ E) as (x0 & e & Hx0 & _ & Hh & Hc). rewrite Hc.
    assert (x0 = x) as -> by congruence. by rewrite <- (asleep_finished _ t _ _ _ Hh).
  - intros o Ho. rewrite map_lookup_filter_None. left. unfold os. rewrite lookup_fmap, (sim_fresh _ _ H); done.
Qed.

Definition op_ok (o : op) : Prop := match o with OpWait d => 0 ≤ d | _ => True end.

Lemma sim_op m s o :
  0 < delay → op_ok o → sim m s → (run_op o m).1 = (spec_op o s).1 ∧ sim (run_op o m).2 (spec_op o s).2.
Proof.
  intros Hd Ho H. destruct o; cbn.
  - split; [done|by apply sim_store].
  - destruct (sim_load m s key Hd H) as [E Hs]. destruct (Load key m). cbn in *. by rewrite E.
  - by rewrite (sim_peek _ _ _ H).
  - by rewrite (sim_has _ _ _ H).
  - split; [done|by apply sim_delete].
  - split; [done|by apply sim_advance].
Qed.

Lemma sim_ops m s os : 0 < delay → Forall op_ok os → sim m s → run_ops os m = spec_ops os s.
Proof.
  intros Hd Hos. revert m s. induction Hos as [|o os Ho Hos IH]; intros m s H; cbn; [done|].
  destruct (sim_op m s o Hd Ho H) as [E Hs]. destruct (run_op o m), (spec_op o s). cbn in *.
  by rewrite E, (IH _ _ Hs).
Qed.

(** C32: with all its wait groups, channels and sleeping goroutines, the map is a
    map with expiry: any sequence of operations gives the answers of a map in
    which an entry lives until [delay] after it was last stored or loaded; a
    deleted or overwritten entry never takes its successor with it. *)
Theorem autoclean_refines_expiring_map t os :
  0 < delay → Forall op_ok os → run_ops os (NewAutoCleanMap t) = spec_ops os (mkSpec ∅ t).
Proof. intros Hd Hos. apply sim_ops; [done|done|apply sim_init]. Qed.

End CleanMap.

Lemma autoclean_refines_expiring_map_witness :
  let os := [OpStore "a" 1; OpWait 3; OpLoad "a"; OpStore "b" 2; OpWait 3; OpPeek "a"; OpDelete "b"; OpStore "b" 4;
             OpWait 2; OpHas "a"; OpPeek "b"; OpWait 3; OpHas "b"] in
  run_ops 5 os (NewAutoCleanMap 0)
  = [Nothing; Nothing; Value (Some 1); Nothing; Nothing; Value (Some 1); Nothing; Nothing;
     Nothing; Has false; Value (Some 4); Nothing; Has false].
Proof.
  cbv zeta. etransitivity; [apply (autoclean_refines_expiring_map 5 0)|reflexivity].
  - lia.
  - repeat constructor; cbn; lia.
Defined.
