(* ===== verification/Fsm.v ===== *)
(** * Fsm: the node's state machine

    Models framework/utils/fsm.go (a table-driven machine) and
    pp/network/state_machine.go (the states, events and table of a PP node).
    Actions are names here; what they do is in Network.v.  The executable table
    is related to [trans], the machine's transitions as an inductive relation,
    and the reachability theorems are proved on runs. *)
From S2P Require Import Prelude.

(** ** The generic machine (fsm.go) *)

Record Event := mkEvent { Event_Id : Z; Event_Name : string }.
Record State := mkState { State_Id : Z; State_Name : string }.

Section Fsm.
Context {Action : Type}.

Record TransitionItem := mkItem { NewState : Z; item_Action : option Action }.

Record Fsm := mkFsm {
  initStateId : Z;
  stateId : Z;
  StateTransTable : list (list TransitionItem);
  stateList : list State;
  eventList : list Event
}.

(** A slice indexed by an unsigned integer. *)
Definition at_ {A} (l : list A) (i : Z) : res A :=
  match (if bool_decide (0 ≤ i) then l !! Z.to_nat i else None) with
  | Some x => Ok x
  | None => Panic "index out of range"
  end.

(** [fsm.RunFsm(ctx, e)]: the new machine and the action to run.  A panic leaves
    the mutex locked. *)
Definition RunFsm (f : Fsm) (e : Z) : res (Fsm * option Action) :=
  oldState ← at_ (stateList f) (stateId f);
  row ← at_ (StateTransTable f) (stateId f);
  item ← at_ row e;
  let f' := mkFsm (initStateId f) (NewState item) (StateTransTable f) (stateList f) (eventList f) in
  Ok (f', item_Action item).

(** The log line after the action, which indexes the lists once more. *)
Definition RunFsm_log (f : Fsm) (e : Z) : res (string * string) :=
  ev ← at_ (eventList f) e;
  st ← at_ (stateList f) (stateId f);
  Ok (Event_Name ev, State_Name st).

Definition GetState (f : Fsm) : res State := at_ (stateList f) (stateId f).

Definition InitFsm (f : Fsm) (sl : list State) (el : list Event) (g : Fsm → res Fsm) (initId : Z) : res Fsm :=
  if bool_decide (sl = []) || bool_decide (el = []) then Err "invalid number of states or events"
  else
    f ← g (mkFsm (initStateId f) (stateId f) (StateTransTable f) sl el);
    Ok (mkFsm initId (stateId f) (StateTransTable f) (stateList f) (eventList f)).

(** The zero value of the struct. *)
Definition Fsm0 : Fsm := mkFsm 0 0 [] [] [].

End Fsm.
Arguments TransitionItem : clear implicits.
Arguments Fsm : clear implicits.

#[global] Instance State_eq_dec : EqDecision State.
Proof. solve_decision. Defined.
#[global] Instance Event_eq_dec : EqDecision Event.
Proof. solve_decision. Defined.

(** ** States and events of a PP node (state_machine.go) *)

Inductive NEvent :=
| EVENT_SP_NO_PP_IN_STORE | EVENT_RCV_RSP_REGISTER_NEW_PP | EVENT_RCV_STATUS_INACTIVE
| EVENT_RCV_STATUS_SUSPEND | EVENT_RCV_RSP_ACTIVATED | EVENT_RCV_STATE_OFFLINE
| EVENT_START_MINING | EVENT_RCV_MINING_NOT_STARTED | EVENT_MAINTANENCE_STOP
| EVENT_MAINTANENCE_START | EVENT_CONN_RECONN | EVENT_RCV_RSP_FIRST_NODE_STATUS
| EVENT_RCV_SUSPENDED_STATE | EVENT_GET_SP_LIST.

Inductive NState :=
| STATE_INIT | STATE_GOT_SP_LIST | STATE_NOT_CREATED | STATE_NOT_ACTIVATED
| STATE_NOT_REGISTERED | STATE_REGISTERING | STATE_REGISTERED | STATE_MAINTANENCE
| STATE_SUSPENDED | STATE_OFFLINE.

#[global] Instance NEvent_eq_dec : EqDecision NEvent.
Proof. solve_decision. Defined.
#[global] Instance NState_eq_dec : EqDecision NState.
Proof. solve_decision. Defined.

Definition event_id (e : NEvent) : Z :=
  match e with
  | EVENT_SP_NO_PP_IN_STORE => 0 | EVENT_RCV_RSP_REGISTER_NEW_PP => 1
  | EVENT_RCV_STATUS_INACTIVE => 2 | EVENT_RCV_STATUS_SUSPEND => 3
  | EVENT_RCV_RSP_ACTIVATED => 4 | EVENT_RCV_STATE_OFFLINE => 5 | EVENT_START_MINING => 6
  | EVENT_RCV_MINING_NOT_STARTED => 7 | EVENT_MAINTANENCE_STOP => 8
  | EVENT_MAINTANENCE_START => 9 | EVENT_CONN_RECONN => 10
  | EVENT_RCV_RSP_FIRST_NODE_STATUS => 11 | EVENT_RCV_SUSPENDED_STATE => 12
  | EVENT_GET_SP_LIST => 13
  end.

Definition state_id (s : NState) : Z :=
  match s with
  | STATE_INIT => 0 | STATE_GOT_SP_LIST => 1 | STATE_NOT_CREATED => 2 | STATE_NOT_ACTIVATED => 3
  | STATE_NOT_REGISTERED => 4 | STATE_REGISTERING => 5 | STATE_REGISTERED => 6
  | STATE_MAINTANENCE => 7 | STATE_SUSPENDED => 8 | STATE_OFFLINE => 9
  end.

Definition NUMBER_EVENTS : Z := 14.
Definition NUMBER_STATE : Z := 10.

Definition e_list : list Event :=
  [mkEvent (event_id EVENT_SP_NO_PP_IN_STORE) "EVENT_SP_NO_PP_IN_STORE";
   mkEvent (event_id EVENT_RCV_RSP_REGISTER_NEW_PP) "EVENT_RCV_RSP_REGISTER_NEW_PP";
   mkEvent (event_id EVENT_RCV_STATUS_INACTIVE) "EVENT_RCV_STATUS_INACTIVE";
   mkEvent (event_id EVENT_RCV_STATUS_SUSPEND) "EVENT_RCV_STATUS_SUSPEND";
   mkEvent (event_id EVENT_RCV_RSP_ACTIVATED) "EVENT_RCV_RSP_ACTIVATED";
   mkEvent (event_id EVENT_RCV_STATE_OFFLINE) "EVENT_RCV_STATE_OFFLINE";
   mkEvent (event_id EVENT_START_MINING) "EVENT_START_MINING";
   mkEvent (event_id EVENT_RCV_MINING_NOT_STARTED) "EVENT_RCV_MINING_NOT_STARTED";
   mkEvent (event_id EVENT_MAINTANENCE_STOP) "EVENT_MAINTANENCE_STOP";
   mkEvent (event_id EVENT_MAINTANENCE_START) "EVENT_MAINTANENCE_START";
   mkEvent (event_id EVENT_CONN_RECONN) "EVENT_CONN_RECONN";
   mkEvent (event_id EVENT_RCV_RSP_FIRST_NODE_STATUS) "EVENT_RCV_RSP_FIRST_NODE_STATUS";
   mkEvent (event_id EVENT_RCV_SUSPENDED_STATE) "EVENT_RCV_SUSPENDED_STATE";
   mkEvent (event_id EVENT_GET_SP_LIST) "EVENT_GET_SP_LIST"].

Definition s_list : list State :=
  [mkState (state_id STATE_INIT) "STATE_INIT";
   mkState (state_id STATE_GOT_SP_LIST) "STATE_GOT_SP_LIST";
   mkState (state_id STATE_NOT_CREATED) "STATE_NOT_CREATED";
   mkState (state_id STATE_NOT_ACTIVATED) "STATE_NOT_ACTIVATED";
   mkState (state_id STATE_NOT_REGISTERED) "STATE_NOT_REGISTERED";
   mkState (state_id STATE_REGISTERING) "STATE_REGISTERING";
   mkState (state_id STATE_REGISTERED) "STATE_REGISTERED";
   mkState (state_id STATE_MAINTANENCE) "STATE_MAINTANENCE";
   mkState (state_id STATE_SUSPENDED) "STATE_SUSPENDED";
   mkState (state_id STATE_OFFLINE) "STATE_OFFLINE"].

(** The functions the table stores as actions. *)
Inductive NAction := GetPPStatusFromSP | StartRegisterToSp.

#[global] Instance NAction_eq_dec : EqDecision NAction.
Proof. solve_decision. Defined.

Record fsmTableItem := mkRow {
  oldState : NState; eventId : NEvent; row_new : NState; row_action : option NAction
}.

Definition fsmTable : list fsmTableItem :=
  [mkRow STATE_INIT EVENT_GET_SP_LIST STATE_GOT_SP_LIST (Some GetPPStatusFromSP);
   mkRow STATE_GOT_SP_LIST EVENT_SP_NO_PP_IN_STORE STATE_NOT_CREATED None;
   mkRow STATE_GOT_SP_LIST EVENT_RCV_STATUS_INACTIVE STATE_NOT_ACTIVATED None;
   mkRow STATE_GOT_SP_LIST EVENT_RCV_RSP_ACTIVATED STATE_REGISTERING (Some StartRegisterToSp);
   mkRow STATE_NOT_CREATED EVENT_RCV_RSP_REGISTER_NEW_PP STATE_NOT_ACTIVATED None;
   mkRow STATE_NOT_ACTIVATED EVENT_RCV_RSP_ACTIVATED STATE_NOT_REGISTERED None;
   mkRow STATE_NOT_REGISTERED EVENT_RCV_STATE_OFFLINE STATE_OFFLINE None;
   mkRow STATE_NOT_REGISTERED EVENT_START_MINING STATE_REGISTERING (Some StartRegisterToSp);
   mkRow STATE_REGISTERING EVENT_RCV_RSP_FIRST_NODE_STATUS STATE_REGISTERED None;
   mkRow STATE_REGISTERING EVENT_RCV_SUSPENDED_STATE STATE_SUSPENDED None;
   mkRow STATE_REGISTERED EVENT_CONN_RECONN STATE_REGISTERING (Some StartRegisterToSp);
   mkRow STATE_REGISTERED EVENT_RCV_SUSPENDED_STATE STATE_SUSPENDED None;
   mkRow STATE_REGISTERED EVENT_MAINTANENCE_START STATE_MAINTANENCE None;
   mkRow STATE_REGISTERED EVENT_RCV_STATE_OFFLINE STATE_OFFLINE None;
   mkRow STATE_REGISTERED EVENT_RCV_STATUS_SUSPEND STATE_SUSPENDED None;
   mkRow STATE_MAINTANENCE EVENT_MAINTANENCE_STOP STATE_REGISTERING None;
   mkRow STATE_SUSPENDED EVENT_RCV_STATE_OFFLINE STATE_OFFLINE None;
   mkRow STATE_SUSPENDED EVENT_START_MINING STATE_REGISTERING (Some StartRegisterToSp);
   mkRow STATE_SUSPENDED EVENT_RCV_MINING_NOT_STARTED STATE_NOT_REGISTERED None;
   mkRow STATE_OFFLINE EVENT_START_MINING STATE_REGISTERING (Some StartRegisterToSp)].

(** [table[s][e] = item]. *)
Definition set_item (t : list (list (TransitionItem NAction))) (s e : Z) (it : TransitionItem NAction)
  : res (list (list (TransitionItem NAction))) :=
  row ← at_ t s;
  _ ← at_ row e;
  Ok (<[Z.to_nat s := <[Z.to_nat e := it]> row]> t).

Fixpoint set_items (rows : list fsmTableItem) (t : list (list (TransitionItem NAction)))
  : res (list (list (TransitionItem NAction))) :=
  match rows with
  | [] => Ok t
  | r :: rows =>
      t ← set_item t (state_id (oldState r)) (event_id (eventId r))
            (mkItem (state_id (row_new r)) (row_action r));
      set_items rows t
  end.

(** The closure [InitFsm] gets: self transitions first, then the table. *)
Definition fill_table (f : Fsm NAction) : res (Fsm NAction) :=
  let self := map (fun s => map (fun _ => mkItem (State_Id s) None) e_list) s_list in
  t ← set_items fsmTable (StateTransTable f ++ self);
  Ok (mkFsm (initStateId f) (stateId f) t (stateList f) (eventList f)).

(** [n.InitFsm()] on a network whose machine is the zero value. *)
Definition Network_InitFsm : res (Fsm NAction) :=
  InitFsm Fsm0 s_list e_list fill_table (state_id STATE_INIT).

(** ** The machine as a relation *)

(** A transition: a row of the table, or, where the table has none, staying put. *)
Inductive trans : NState → NEvent → NState → option NAction → Prop :=
| trans_row r :
    r ∈ fsmTable → trans (oldState r) (eventId r) (row_new r) (row_action r)
| trans_self s e :
    Forall (fun r => ¬ (oldState r = s ∧ eventId r = e)) fsmTable → trans s e s None.

(** The machine [InitFsm] builds, in a given state. *)
Definition node_table : list (list (TransitionItem NAction)) :=
  Eval vm_compute in match Network_InitFsm with Ok f => StateTransTable f | _ => [] end.
Definition node_fsm (s : NState) : Fsm NAction := mkFsm 0 (state_id s) node_table s_list e_list.

Lemma Network_InitFsm_ok : Network_InitFsm = Ok (node_fsm STATE_INIT).
Proof. vm_compute. reflexivity. Qed.

(** The first row for a state and an event. *)
Definition next (s : NState) (e : NEvent) : NState * option NAction :=
  match list_find (fun r => oldState r = s ∧ eventId r = e) fsmTable with
  | Some (_, r) => (row_new r, row_action r)
  | None => (s, None)
  end.

Lemma RunFsm_next s e :
  RunFsm (node_fsm s) (event_id e) = Ok (node_fsm (next s e).1, (next s e).2).
Proof. destruct s, e; vm_compute; reflexivity. Qed.

Lemma state_id_inj s s' : state_id s = state_id s' → s = s'.
Proof. destruct s, s'; done. Qed.

Lemma node_fsm_inj s s' : node_fsm s = node_fsm s' → s = s'.
Proof. intros [= H]. by apply state_id_inj. Qed.

Lemma next_trans s e : trans s e (next s e).1 (next s e).2.
Proof.
  unfold next. destruct (list_find _ _) as [[i r]|] eqn:E.
  - apply list_find_Some in E as (H & [<- <-] & _). apply trans_row. by eapply list_elem_of_lookup_2.
  - apply trans_self. by apply list_find_None in E.
Qed.

(** The table has at most one row for a state and an event. *)
Lemma fsmTable_functional : NoDup (map (fun r => (state_id (oldState r), event_id (eventId r))) fsmTable).
Proof. apply (bool_decide_unpack _). vm_compute. done. Qed.

Lemma trans_next s e s' a : trans s e s' a → (s', a) = next s e.
Proof.
  intros H. inversion H as [r Hr|? ? Hn]; subst.
  - revert Hr. unfold fsmTable. rewrite !elem_of_cons, elem_of_nil.
    intros Hr. repeat destruct Hr as [-> | Hr]; vm_compute; done.
  - unfold next. destruct (list_find _ _) as [[i r]|] eqn:E; [|done].
    apply list_find_Some in E as (Hi & Hp & _). rewrite Forall_lookup in Hn. by destruct (Hn i r Hi).
Qed.

(** C33: the two-dimensional table that [InitFsm] fills, self transitions first
    and the listed items over them, run by [RunFsm], implements exactly the
    transition relation: every event of every state gives one new state and one
    action, the listed ones, and any other event leaves the node where it is. *)
Theorem fsm_refines_trans s e f' a :
  RunFsm (node_fsm s) (event_id e) = Ok (f', a) ↔ ∃ s', f' = node_fsm s' ∧ trans s e s' a.
Proof.
  rewrite RunFsm_next. split.
  - intros [= <- <-]. eexists. split; [done|]. apply next_trans.
  - intros (s' & -> & H%trans_next). by rewrite <- H.
Qed.

(** ** Runs *)

Fixpoint run (s : NState) (es : list NEvent) : NState :=
  match es with [] => s | e :: es => run (next s e).1 es end.

(** The machine itself, fed with a list of events. *)
Fixpoint RunFsm_all (f : Fsm NAction) (es : list NEvent) : res (Fsm NAction * list NAction) :=
  match es with
  | [] => Ok (f, [])
  | e :: es =>
      '(f, a) ← RunFsm f (event_id e);
      '(f, l) ← RunFsm_all f es;
      Ok (f, match a with Some a => a :: l | None => l end)
  end.

Lemma RunFsm_all_run s es : ∃ l, RunFsm_all (node_fsm s) es = Ok (node_fsm (run s es), l).
Proof.
  revert s. induction es as [|e es IH]; intros s; cbn [RunFsm_all run]; [by eexists|].
  rewrite RunFsm_next. cbn [mbind res_bind]. destruct (IH (next s e).1) as [l ->]. cbn. by eexists.
Qed.

Lemma run_snoc s es e : run s (es ++ [e]) = (next (run s es) e).1.
Proof. revert s. induction es as [|e' es IH]; intros s; cbn; [done|]. apply IH. Qed.

(** What must have happened, in this order, before a state is reached. *)
Definition milestones (s : NState) : list NEvent :=
  match s with
  | STATE_INIT => []
  | STATE_GOT_SP_LIST | STATE_NOT_CREATED | STATE_NOT_ACTIVATED => [EVENT_GET_SP_LIST]
  | STATE_NOT_REGISTERED | STATE_REGISTERING | STATE_SUSPENDED | STATE_OFFLINE =>
      [EVENT_GET_SP_LIST; EVENT_RCV_RSP_ACTIVATED]
  | STATE_REGISTERED | STATE_MAINTANENCE =>
      [EVENT_GET_SP_LIST; EVENT_RCV_RSP_ACTIVATED; EVENT_RCV_RSP_FIRST_NODE_STATUS]
  end.

(** Every step adds at most its own event to the milestones. *)
Lemma next_milestones s e :
  sublist (milestones (next s e).1) (milestones s ++ [e]).
Proof.
  destruct s, e; vm_compute; repeat (apply sublist_skip || apply sublist_nil_l || apply sublist_cons).
Qed.

Lemma run_milestones es : sublist (milestones (run STATE_INIT es)) es.
Proof.
  induction es as [|e es IH] using rev_ind; [done|]. rewrite run_snoc.
  etransitivity; [apply next_milestones|]. by apply sublist_app.
Qed.

(** Whatever events a node receives after it starts, it is in a state in
    which it may serve only after the events that lead there came in order: the
    SP list, then the notice of activation, then the answer to the first status
    report for [REGISTERED] and [MAINTANENCE]; and the machine never fails. *)
Theorem run_needs_milestones es :
  ∃ f l s, RunFsm_all (node_fsm STATE_INIT) es = Ok (f, l) ∧ f = node_fsm s
    ∧ sublist (milestones s) es.
Proof.
  destruct (RunFsm_all_run STATE_INIT es) as [l E]. eexists _, l, _. split; [exact E|].
  split; [done|]. apply run_milestones.
Qed.
