(* ===== verification/Network.v ===== *)
(** * Network: timers, retries and the choice of the SP

    Models pp/network: peers.go, sp_message.go, reload_register.go,
    reload_spconn.go, reload_splist.go, report_node_status.go and sp_latency.go.
    The package's state, its globals included, is [Node]; every operation maps a
    node to a node and appends what it sends, schedules or starts to [outbox].
    Random draws, outcomes of network calls and the clock are arguments. *)
From Stdlib Require Import Sorting.Sorted.
From S2P Require Import Prelude Fsm.

(** ** State *)

Record CandidateSp := mkCandidateSp { NetworkAddr : string; SpResponseTimeCost : Z }.

(** Jobs put on the clock. *)
Inductive Job := JobTryRegister | JobTryReloadConnectSP | JobStartGetSPList | JobCloseAlternateSpConns
               | JobSpLatencyCheck | JobReportNodeStatus.

(** What the node does to the outside. *)
Inductive effect :=
| SendReqRegister | SendReqGetPPStatus | SendReqGetSPList | SendReqMining | SendReqReportNodeStatus
| SendReqSpLatencyCheck (server : string)
| AddJobWithInterval (seconds : Z) (j : Job)
| AddJobRepeat (seconds : Z) (j : Job)
| GoChangeSp | CloseSpConn (name : string) | ConfirmOptSP (addr : string).

#[global] Instance Job_eq_dec : EqDecision Job.
Proof. solve_decision. Defined.
#[global] Instance effect_eq_dec : EqDecision effect.
Proof. solve_decision. Defined.

Record Node := mkNode {
  fsm : Fsm NAction;
  reloadConnectSpRetry : Z;
  reloadRegisterRetry : Z;
  reloadConnecting : bool;
  pingTimeSPMap : gmap string Z;
  retryCounter : Z;               (* reload_splist.go *)
  nodeStatusResponded : bool;     (* report_node_status.go *)
  consecutiveFailureCount : Z;
  candidateSps : list CandidateSp; (* sp_latency.go *)
  bufferedSpConns : list string;   (* names of the connections p2pserver keeps *)
  outbox : list effect
}.

Definition set_fsm (n : Node) f := mkNode f (reloadConnectSpRetry n) (reloadRegisterRetry n) (reloadConnecting n)
  (pingTimeSPMap n) (retryCounter n) (nodeStatusResponded n) (consecutiveFailureCount n) (candidateSps n)
  (bufferedSpConns n) (outbox n).
Definition set_reload (n : Node) retry connecting := mkNode (fsm n) retry (reloadRegisterRetry n) connecting
  (pingTimeSPMap n) (retryCounter n) (nodeStatusResponded n) (consecutiveFailureCount n) (candidateSps n)
  (bufferedSpConns n) (outbox n).
Definition set_register (n : Node) retry := mkNode (fsm n) (reloadConnectSpRetry n) retry (reloadConnecting n)
  (pingTimeSPMap n) (retryCounter n) (nodeStatusResponded n) (consecutiveFailureCount n) (candidateSps n)
  (bufferedSpConns n) (outbox n).
Definition set_ping (n : Node) m := mkNode (fsm n) (reloadConnectSpRetry n) (reloadRegisterRetry n)
  (reloadConnecting n) m (retryCounter n) (nodeStatusResponded n) (consecutiveFailureCount n)
  (candidateSps n) (bufferedSpConns n) (outbox n).
Definition set_counter (n : Node) c := mkNode (fsm n) (reloadConnectSpRetry n) (reloadRegisterRetry n)
  (reloadConnecting n) (pingTimeSPMap n) c (nodeStatusResponded n) (consecutiveFailureCount n)
  (candidateSps n) (bufferedSpConns n) (outbox n).
Definition set_status (n : Node) r c := mkNode (fsm n) (reloadConnectSpRetry n) (reloadRegisterRetry n)
  (reloadConnecting n) (pingTimeSPMap n) (retryCounter n) r c (candidateSps n) (bufferedSpConns n) (outbox n).
Definition set_candidates (n : Node) l := mkNode (fsm n) (reloadConnectSpRetry n) (reloadRegisterRetry n)
  (reloadConnecting n) (pingTimeSPMap n) (retryCounter n) (nodeStatusResponded n)
  (consecutiveFailureCount n) l (bufferedSpConns n) (outbox n).
Definition set_buffered (n : Node) l := mkNode (fsm n) (reloadConnectSpRetry n) (reloadRegisterRetry n)
  (reloadConnecting n) (pingTimeSPMap n) (retryCounter n) (nodeStatusResponded n)
  (consecutiveFailureCount n) (candidateSps n) l (outbox n).
Definition emit (n : Node) (e : effect) := mkNode (fsm n) (reloadConnectSpRetry n) (reloadRegisterRetry n)
  (reloadConnecting n) (pingTimeSPMap n) (retryCounter n) (nodeStatusResponded n)
  (consecutiveFailureCount n) (candidateSps n) (bufferedSpConns n) (outbox n ++ [e]).

(** ** Messages to the SP (sp_message.go) *)

(** [sign_ok]: whether the wallet key signs; nothing is sent when it fails. *)
Definition RegisterToSP (sign_ok : bool) (n : Node) : Node :=
  if sign_ok then emit n SendReqRegister else n.
Definition StartMining (loggedIn : bool) (n : Node) : Node :=
  if loggedIn then emit n SendReqMining else n.
Definition GetSPList (sign_ok : bool) (n : Node) : Node :=
  if sign_ok then emit n SendReqGetSPList else n.
Definition GetPPStatus (n : Node) : Node := emit n SendReqGetPPStatus.

(** ** Registration (reload_register.go) *)

Definition MIN_RELOAD_REGISTER_INTERVAL : Z := 30.
Definition MAX_RELOAD_REGISTER_INTERVAL : Z := 300.

Definition GetStateFromFsm (n : Node) : res Z := s ← GetState (fsm n); Ok (State_Id s).

(** [rnd] is [rand.Intn(MIN_RELOAD_REGISTER_INTERVAL)]. *)
Definition tryRegister (sign_ok : bool) (rnd : Z) (n : Node) : res Node :=
  state ← GetStateFromFsm n;
  if bool_decide (state = state_id STATE_REGISTERING) then
    let n := RegisterToSP sign_ok n in
    let n := set_register n (i64 (reloadRegisterRetry n + 1)) in
    let reloadInterval := i64 (i64 (MIN_RELOAD_REGISTER_INTERVAL * reloadRegisterRetry n) + rnd) in
    let reloadInterval := if bool_decide (MAX_RELOAD_REGISTER_INTERVAL < reloadInterval)
                          then MAX_RELOAD_REGISTER_INTERVAL else reloadInterval in
    Ok (emit n (AddJobWithInterval reloadInterval JobTryRegister))
  else Ok (set_register n 0).

Definition StartRegisterToSp_action (sign_ok : bool) (rnd : Z) (n : Node) : res Node :=
  n ← tryRegister sign_ok rnd n;
  Ok (set_reload n 0 (reloadConnecting n)).

(** ** Running the machine (state_machine.go [RunFsm] over fsm.go [RunFsm]) *)

Definition run_action (sign_ok : bool) (rnd : Z) (a : option NAction) (n : Node) : res Node :=
  match a with
  | None => Ok n
  | Some GetPPStatusFromSP => Ok (GetPPStatus n)
  | Some StartRegisterToSp => StartRegisterToSp_action sign_ok rnd n
  end.

(** The new state is stored before the action runs, and the action sees it. *)
Definition Network_RunFsm (sign_ok : bool) (rnd : Z) (e : NEvent) (n : Node) : res Node :=
  '(f, a) ← RunFsm (fsm n) (event_id e);
  n ← run_action sign_ok rnd a (set_fsm n f);
  _ ← RunFsm_log (fsm n) (event_id e);
  Ok n.

(** ** Reconnecting to the SP (reload_spconn.go) *)

Definition MIN_RELOAD_SP_INTERVAL : Z := 3.
Definition MAX_RELOAD_SP_INTERVAL : Z := 300.

(** The outcome of [ConnectToSP]. *)
Inductive connect_result := NewConnection | ConnectError | AlreadyConnected.

(** [math.Pow(10, float64(retry))] is an integer for the retries that occur. *)
Definition tryReloadConnectSP (sign_ok : bool) (rnd : Z) (r : connect_result) (n : Node) : res Node :=
  match r with
  | NewConnection =>
      n ← Network_RunFsm sign_ok rnd EVENT_CONN_RECONN n;
      Ok (set_reload n 0 false)
  | ConnectError =>
      let reloadSpInterval := MIN_RELOAD_SP_INTERVAL * 10 ^ reloadConnectSpRetry n * 2 in
      let retry := if bool_decide (reloadSpInterval < MAX_RELOAD_SP_INTERVAL)
                   then reloadConnectSpRetry n + 1 else reloadConnectSpRetry n in
      let n := set_reload n retry true in
      Ok (emit n (AddJobWithInterval (Z.min reloadSpInterval MAX_RELOAD_SP_INTERVAL) JobTryReloadConnectSP))
  | AlreadyConnected => Ok (set_reload n (reloadConnectSpRetry n) false)
  end.

Definition reloadConnectSP (sign_ok : bool) (rnd : Z) (r : connect_result) (n : Node) : res Node :=
  if reloadConnecting n then Ok n
  else
    n ← tryReloadConnectSP sign_ok rnd r (set_reload n (reloadConnectSpRetry n) true);
    Ok (GetSPList sign_ok n).

(** One message of the offline channel (peers.go [ListenOffline]). *)
Definition handle_offline (sign_ok : bool) (rnd : Z) (r : connect_result) (IsSp : bool) (n : Node) : res Node :=
  if IsSp then reloadConnectSP sign_ok rnd r n else Ok n.

Definition ListenOffline_start (n : Node) : Node := set_reload n 0 false.

(** ** The SP list (reload_splist.go) *)

Definition SPLIST_INTERVAL_BASE : Z := 60.
Definition SPLIST_MAX_JITTER : Z := 10.
Definition MAX_RETRY_TIMES : Z := 3.

(** [Err] when the process exits. *)
Definition StartGetSPList (sign_ok : bool) (rnd : Z) (n : Node) : res Node :=
  state ← GetStateFromFsm n;
  if bool_decide (state = state_id STATE_INIT) then
    let n := set_counter n (retryCounter n + 1) in
    if bool_decide (MAX_RETRY_TIMES ≤ retryCounter n) then Err "Fatal error: failed getting SP list, quit."
    else
      let n := GetSPList sign_ok n in
      Ok (emit n (AddJobWithInterval (SPLIST_INTERVAL_BASE + rnd) JobStartGetSPList))
  else Ok (set_counter n 0).

(** ** Status reports (report_node_status.go) *)

Definition MAX_NUMBER_NODE_STATUS_FALIURE : Z := 3.

Definition StartStatusReportToSP (interval : Z) (n : Node) : Node := emit n (AddJobRepeat interval JobReportNodeStatus).

Definition ReportNodeStatus (n : Node) : Node := emit n SendReqReportNodeStatus.

(** [doReportNodeStatus], one run of the job. *)
Definition report_if_registered (n : Node) : res Node :=
  state ← GetStateFromFsm n;
  if bool_decide (state = state_id STATE_REGISTERED) then Ok (ReportNodeStatus n) else Ok n.

Definition doReportNodeStatus (n : Node) : res Node :=
  if nodeStatusResponded n then report_if_registered (set_status n true 0)
  else if bool_decide (MAX_NUMBER_NODE_STATUS_FALIURE < consecutiveFailureCount n) then Ok (emit n GoChangeSp)
  else report_if_registered (set_status n false (consecutiveFailureCount n + 1)).

Definition NodeStatusResponded (n : Node) : Node := set_status n true (consecutiveFailureCount n).

(** ** Latency of the SPs (sp_latency.go, the ping map of peers.go) *)

Definition LatencyCheckSpListInterval : Z := 24 * 3600.
Definition LatencyCheckSpListTimeout : Z := 5.
Definition LatencyCheckTopSpsConsidered : Z := 4.

Definition ClearPingTimeMap (n : Node) : Node := set_ping n ∅.
Definition StorePingTimeMap (server : string) (start : Z) (n : Node) : Node :=
  set_ping n (<[server := start]> (pingTimeSPMap n)).
Definition LoadPingTimeMap (key : string) (n : Node) : Z * bool :=
  match pingTimeSPMap n !! key with Some t => (t, true) | None => (0, false) end.
Definition DeletePingTimeMap (key : string) (n : Node) : Node := set_ping n (delete key (pingTimeSPMap n)).

Definition ClearSpCandidateList (n : Node) : Node := set_candidates n [].

Fixpoint update_candidates (c : CandidateSp) (l : list CandidateSp) : list CandidateSp :=
  match l with
  | [] => [c]
  | x :: l =>
      if bool_decide (NetworkAddr x = NetworkAddr c)
      then mkCandidateSp (NetworkAddr x) (SpResponseTimeCost c) :: l
      else x :: update_candidates c l
  end.

Definition UpdateSpCandidateList (c : CandidateSp) (n : Node) : Node :=
  set_candidates n (update_candidates c (candidateSps n)).

Definition ScheduleSpLatencyCheck (n : Node) : Node :=
  emit n (AddJobRepeat LatencyCheckSpListInterval JobSpLatencyCheck).

(** One SP of [SpLatencyCheck]: [reachable] says whether an alternative SP could
    be connected to, [hasSpConn] whether there is a connection to the working one. *)
Definition check_one_sp (spName : string) (hasSpConn reachable : bool) (now : Z) (server : string) (n : Node) : Node :=
  if (if bool_decide (spName = server) then hasSpConn else reachable) then
    let n := StorePingTimeMap server now n in
    let n := emit n (SendReqSpLatencyCheck server) in
    if bool_decide (spName = server) then n else set_buffered n (bufferedSpConns n ++ [server])
  else n.

Definition SpLatencyCheck (SpConnValid : bool) (spName : string) (reachable : string → bool) (now : string → Z)
    (servers : list string) (n : Node) : Node :=
  if SpConnValid then
    let n := foldl (fun n server => check_one_sp spName SpConnValid (reachable server) (now server) server n) n servers in
    emit n (AddJobWithInterval LatencyCheckSpListTimeout JobCloseAlternateSpConns)
  else n.

Definition CloseAlternateSpConns (SpConnValid : bool) (spName : string) (n : Node) : Node :=
  let n' := foldl (fun n c => if SpConnValid && bool_decide (c = spName) then n else emit n (CloseSpConn c))
              n (bufferedSpConns n) in
  set_buffered n' [].

(** [ChangeSp]: [sort_] is [sort.Slice] by response time, [rnd k] is [rand.Intn(k)]. *)
Definition ChangeSp (sort_ : list CandidateSp → list CandidateSp) (rnd : Z → Z) (spName : string)
    (spConn : option string) (n : Node) : res Node :=
  match candidateSps n with
  | [] => Ok (match spConn with Some c => emit n (CloseSpConn c) | None => n end)
  | _ =>
      let l := sort_ (candidateSps n) in
      let n := set_candidates n l in
      let nSpsConsidered := if bool_decide (Z.of_nat (length l) < LatencyCheckTopSpsConsidered)
                            then Z.of_nat (length l) else LatencyCheckTopSpsConsidered in
      let selectedSp := rnd nSpsConsidered in
      c ← at_ l selectedSp;
      let selectedSp := if bool_decide (spName = NetworkAddr c)
                        then (selectedSp + 1) mod nSpsConsidered else selectedSp in
      c ← at_ l selectedSp;
      Ok (emit n (ConfirmOptSP (NetworkAddr c)))
  end.

(** ** Starting a node (peers.go [StartPP]) *)

Definition StartPP (sign_ok : bool) (rnd interval : Z) (n : Node) : res Node :=
  f ← Network_InitFsm;
  n ← StartGetSPList sign_ok rnd (set_fsm (set_ping n ∅) f);
  let n := ScheduleSpLatencyCheck n in
  let n := StartStatusReportToSP interval n in
  Ok (ListenOffline_start n).

(** ** Lemmas *)

Lemma at_lookup {A} (l : list A) (i : Z) x : at_ l i = Ok x ↔ 0 ≤ i ∧ l !! Z.to_nat i = Some x.
Proof.
  unfold at_. case_bool_decide; [destruct (l !! _)|]; intuition congruence.
Qed.

Lemma at_in_range {A} (l : list A) (i : Z) :
  0 ≤ i < Z.of_nat (length l) → ∃ x, at_ l i = Ok x.
Proof.
  intros Hi. destruct (lookup_lt_is_Some_2 l (Z.to_nat i)) as [x Hx]; [lia|].
  exists x. apply at_lookup. split; [lia|done].
Qed.

(** A node whose machine is the one [InitFsm] builds. *)
Definition node_in (n : Node) (s : NState) : Prop := fsm n = node_fsm s.

Lemma GetStateFromFsm_in n s : node_in n s → GetStateFromFsm n = Ok (state_id s).
Proof. unfold node_in, GetStateFromFsm. intros ->. by destruct s. Qed.

Lemma RunFsm_log_ok s e : ∃ x, RunFsm_log (node_fsm s) (event_id e) = Ok x.
Proof. destruct s, e; vm_compute; by eexists. Qed.

(** ** Registration *)

Lemma tryRegister_in n s ok rnd :
  node_in n s →
  tryRegister ok rnd n
  = Ok (if bool_decide (s = STATE_REGISTERING)
        then let n := RegisterToSP ok n in
             let n := set_register n (i64 (reloadRegisterRetry n + 1)) in
             emit n (AddJobWithInterval
               (Z.min MAX_RELOAD_REGISTER_INTERVAL
                  (i64 (i64 (MIN_RELOAD_REGISTER_INTERVAL * reloadRegisterRetry n) + rnd))) JobTryRegister)
        else set_register n 0).
Proof.
  intros H. unfold tryRegister. rewrite (GetStateFromFsm_in _ _ H). cbn [mbind res_bind].
  destruct s; try done. repeat case_bool_decide; try done; f_equal; f_equal; f_equal; lia.
Qed.

(** The machine always runs to a listed state, and the node stays well formed. *)
Lemma Network_RunFsm_in n s ok rnd e :
  node_in n s → ∃ n', Network_RunFsm ok rnd e n = Ok n' ∧ node_in n' (next s e).1
    ∧ run_action ok rnd (next s e).2 (set_fsm n (node_fsm (next s e).1)) = Ok n'.
Proof.
  intros H. unfold Network_RunFsm. rewrite H, RunFsm_next. cbn [mbind res_bind].
  set (s' := (next s e).1). set (m := set_fsm n (node_fsm s')).
  assert (∃ n', run_action ok rnd (next s e).2 m = Ok n' ∧ node_in n' s') as (n' & E & Hin).
  { destruct (next s e).2 as [[]|]; cbn [run_action]; [by eexists| |by eexists].
    unfold StartRegisterToSp_action. rewrite (tryRegister_in m s') by done. cbn [mbind res_bind].
    eexists. split; [done|]. case_bool_decide; [|done]. by destruct ok. }
  rewrite E. cbn [mbind res_bind]. rewrite Hin. destruct (RunFsm_log_ok s' e) as [x ->].
  cbn. by exists n'.
Qed.

(** Wait times of the retries, as a run of failed attempts schedules them. *)
Fixpoint register_retries (ok : bool) (rnds : list Z) (n : Node) : res Node :=
  match rnds with
  | [] => Ok n
  | r :: rnds => n ← tryRegister ok r n; register_retries ok rnds n
  end.

Definition register_waits (ok : bool) (k : Z) (rnds : list Z) : list effect :=
  concat (imap (fun i r =>
    (if ok then [SendReqRegister] else [])
    ++ [AddJobWithInterval (Z.min 300 (30 * (k + Z.of_nat i + 1) + r)) JobTryRegister]) rnds).

Lemma register_retries_spec ok rnds n :
  node_in n STATE_REGISTERING → Forall (fun r => 0 ≤ r < 30) rnds →
  0 ≤ reloadRegisterRetry n → reloadRegisterRetry n + Z.of_nat (length rnds) < 2 ^ 58 →
  ∃ n', register_retries ok rnds n = Ok n' ∧ node_in n' STATE_REGISTERING
    ∧ outbox n' = outbox n ++ register_waits ok (reloadRegisterRetry n) rnds
    ∧ reloadRegisterRetry n' = reloadRegisterRetry n + Z.of_nat (length rnds).
Proof.
  intros Hn Hr. revert n Hn. induction Hr as [|r rnds Hr Hrs IH]; intros n Hn Hz Hk; cbn [register_retries].
  { exists n. rewrite app_nil_r. simpl. split_and!; [done|done|done|lia]. }
  cbn [length] in Hk. rewrite (tryRegister_in n STATE_REGISTERING) by done.
  rewrite bool_decide_eq_true_2 by done. cbv zeta. cbn [mbind res_bind].
  assert (reloadRegisterRetry (RegisterToSP ok n) = reloadRegisterRetry n) as Er by (by destruct ok).
  cbn [reloadRegisterRetry set_register]. rewrite Er.
  unfold MIN_RELOAD_REGISTER_INTERVAL, MAX_RELOAD_REGISTER_INTERVAL.
  rewrite (wraps_id 64 (reloadRegisterRetry n + 1)) by (unfold in_s; lia).
  rewrite (wraps_id 64 (30 * _)) by (unfold in_s; lia).
  rewrite wraps_id by (unfold in_s; lia).
  edestruct IH as (n' & -> & Hin & Ho & Hrr);
    [by destruct ok| |cbn [reloadRegisterRetry set_register emit]..|]; cbn; [lia|lia|].
  exists n'. split_and!; [done|done| |rewrite Hrr; cbn; lia].
  rewrite Ho. cbn. rewrite <- app_assoc.
  replace (outbox (RegisterToSP ok n)) with (outbox n ++ if ok then [SendReqRegister] else [])
    by (by destruct ok; rewrite ?app_nil_r).
  unfold register_waits. cbn. rewrite <- !app_assoc. do 2 f_equal. cbn. f_equal; [do 2 f_equal; lia|].
  f_equal. apply imap_ext. intros i x _. cbn. do 4 f_equal. lia.
Qed.

(** C38: While the node stays in [REGISTERING], the k-th attempt to register
    sends the request and puts the next attempt 30*k seconds plus a jitter below
    30 away, never more than 300; nothing overflows within 2^58 attempts. *)
Theorem register_backoff ok rnds n :
  node_in n STATE_REGISTERING → Forall (fun r => 0 ≤ r < 30) rnds →
  reloadRegisterRetry n = 0 → Z.of_nat (length rnds) < 2 ^ 58 →
  ∃ n', register_retries ok rnds n = Ok n'
    ∧ outbox n' = outbox n ++ register_waits ok 0 rnds
    ∧ reloadRegisterRetry n' = Z.of_nat (length rnds).
Proof.
  intros Hn Hr H0 Hk. destruct (register_retries_spec ok rnds n) as (n' & E & _ & Ho & Hl); [done|done|lia..|].
  rewrite H0 in Ho, Hl. by exists n'.
Qed.

(** ** Reconnection *)

Definition reconnect_failures (k : nat) (n : Node) : res Node :=
  Nat.iter k (fun r => n ← r; tryReloadConnectSP true 0 ConnectError n) (Ok n).

Definition reconnect_waits : list Z := [6; 60].

Lemma reconnect_step n :
  0 ≤ reloadConnectSpRetry n ≤ 2 →
  tryReloadConnectSP true 0 ConnectError n
  = Ok (emit (set_reload n (Z.min 2 (reloadConnectSpRetry n + 1)) true)
          (AddJobWithInterval (nth (Z.to_nat (reloadConnectSpRetry n)) reconnect_waits 300) JobTryReloadConnectSP)).
Proof.
  intros H. assert (reloadConnectSpRetry n = 0 ∨ reloadConnectSpRetry n = 1 ∨ reloadConnectSpRetry n = 2)
    as [E|[E|E]] by lia; unfold tryReloadConnectSP; by rewrite E.
Qed.

(** After the connection to the SP is lost, the k-th failed attempt to get
    it back waits 6, 60, and then always 300 seconds; the counter the wait grows
    with stops at 2, so the power of ten never overflows. *)
Theorem reconnect_backoff n k :
  reloadConnectSpRetry n = 0 →
  ∃ n', reconnect_failures k n = Ok n'
    ∧ outbox n' = outbox n ++
        map (fun i => AddJobWithInterval (nth i reconnect_waits 300) JobTryReloadConnectSP) (seq 0 k)
    ∧ reloadConnectSpRetry n' = Z.min 2 (Z.of_nat k) ∧ (reloadConnecting n' = true ∨ k = 0%nat).
Proof.
  intros H0. unfold reconnect_failures. induction k as [|k (n' & E & Ho & Hr & _)].
  { exists n. rewrite app_nil_r. split_and!; [done|done|by rewrite H0|by right]. }
  rewrite Nat.iter_succ, E. cbn [mbind res_bind]. rewrite reconnect_step by lia.
  eexists. split; [done|].
  cbn [outbox emit set_reload reloadConnectSpRetry reloadConnecting]. split_and!; [|lia|by left].
  rewrite Ho, seq_S, map_app, <- app_assoc, Nat.add_0_l. do 4 f_equal. rewrite Hr. unfold reconnect_waits.
  destruct k as [|[|[|k]]]; try done.
  replace (Z.to_nat (Z.min 2 (Z.of_nat (S (S (S k)))))) with 2%nat by lia. done.
Qed.

(** ** Status reports *)

Definition report_runs (k : nat) (n : Node) : res Node :=
  Nat.iter k (fun r => n ← r; doReportNodeStatus n) (Ok n).

Lemma report_if_registered_in n s :
  node_in n s → report_if_registered n
  = Ok (if bool_decide (s = STATE_REGISTERED) then ReportNodeStatus n else n).
Proof.
  intros H. unfold report_if_registered. rewrite (GetStateFromFsm_in _ _ H). by destruct s.
Qed.

Definition reports (s : NState) (k : nat) : list effect :=
  replicate (if bool_decide (s = STATE_REGISTERED) then k else 0) SendReqReportNodeStatus.

Lemma reports_S s k :
  reports s (S k) = reports s k ++ if bool_decide (s = STATE_REGISTERED) then [SendReqReportNodeStatus] else [].
Proof. unfold reports. case_bool_decide; [by rewrite replicate_S_end|done]. Qed.

Lemma report_sends n s r c :
  node_in n s → ∃ n', report_if_registered (set_status n r c) = Ok n' ∧ node_in n' s
    ∧ nodeStatusResponded n' = r ∧ consecutiveFailureCount n' = c
    ∧ outbox n' = outbox n ++ if bool_decide (s = STATE_REGISTERED) then [SendReqReportNodeStatus] else [].
Proof.
  intros H. rewrite (report_if_registered_in _ s) by done. eexists. split; [done|].
  case_bool_decide; cbn; rewrite ?app_nil_r; done.
Qed.

Lemma report_runs_silent n s k :
  node_in n s → nodeStatusResponded n = false → consecutiveFailureCount n = 0 →
  ∃ n', report_runs k n = Ok n' ∧ node_in n' s ∧ nodeStatusResponded n' = false
    ∧ consecutiveFailureCount n' = Z.min 4 (Z.of_nat k)
    ∧ outbox n' = outbox n ++ reports s (k `min` 4) ++ replicate (k - 4) GoChangeSp.
Proof.
  intros Hn Hr Hc. unfold report_runs. induction k as [|k (n' & E & Hn' & Hr' & Hc' & Ho)].
  { exists n. unfold reports. simpl. by case_bool_decide; rewrite ?app_nil_r. }
  rewrite Nat.iter_succ, E. cbn [mbind res_bind]. unfold doReportNodeStatus. rewrite Hr', Hc'.
  unfold MAX_NUMBER_NODE_STATUS_FALIURE. case_bool_decide as H4.
  - eexists. split; [done|]. cbn [consecutiveFailureCount nodeStatusResponded emit outbox].
    split_and!; [done|done|lia|]. rewrite Ho, <- !app_assoc. replace (S k - 4)%nat with (S (k - 4)) by lia.
    rewrite replicate_S_end. replace (S k `min` 4)%nat with (k `min` 4)%nat by lia. done.
  - destruct (report_sends n' s false (Z.min 4 (Z.of_nat k) + 1) Hn') as (n2 & -> & ? & ? & Hc2 & Ho2).
    exists n2. split_and!; try done; [lia|]. rewrite Ho2, Ho.
    replace (k - 4)%nat with 0%nat by lia. replace (S k - 4)%nat with 0%nat by lia.
    replace (S k `min` 4)%nat with (S (k `min` 4)) by lia.
    rewrite reports_S, !app_nil_r, <- app_assoc. done.
Qed.

(** With an SP that never answers, the first four runs of the report job
    count failures, and every later one starts the switch to another SP; reports
    are sent only while the node is registered. *)
Theorem silent_sp_is_left n s k :
  node_in n s → nodeStatusResponded n = false → consecutiveFailureCount n = 0 →
  ∃ n', report_runs k n = Ok n' ∧ consecutiveFailureCount n' = Z.min 4 (Z.of_nat k)
    ∧ outbox n' = outbox n ++ reports s (k `min` 4) ++ replicate (k - 4) GoChangeSp.
Proof.
  intros Hn Hr Hc. destruct (report_runs_silent n s k Hn Hr Hc) as (n' & E & _ & _ & Hc' & Ho). by exists n'.
Qed.

Lemma report_runs_answered n s k :
  node_in n s → ∃ n', report_runs k (NodeStatusResponded n) = Ok n' ∧ node_in n' s
    ∧ nodeStatusResponded n' = true ∧ (consecutiveFailureCount n' = 0 ∨ k = 0%nat)
    ∧ outbox n' = outbox n ++ reports s k.
Proof.
  intros Hn. unfold report_runs. induction k as [|k (n' & E & Hn' & Hr' & _ & Ho)].
  { exists (NodeStatusResponded n). unfold reports. simpl.
    case_bool_decide; rewrite ?app_nil_r; split_and!; auto. }
  rewrite Nat.iter_succ, E. cbn [mbind res_bind]. unfold doReportNodeStatus. rewrite Hr'.
  destruct (report_sends n' s true 0 Hn') as (n2 & -> & ? & ? & Hc2 & Ho2).
  exists n2. split_and!; try done; [by left|]. by rewrite Ho2, Ho, reports_S, <- app_assoc.
Qed.

(** [nodeStatusResponded] is never reset, so after one answer has arrived the
    failure count stays 0 and no number of unanswered reports makes the node
    switch to another SP. *)
Theorem answered_once_never_left n s k :
  node_in n s → ∃ n', report_runs k (NodeStatusResponded n) = Ok n'
    ∧ (consecutiveFailureCount n' = 0 ∨ k = 0%nat) ∧ outbox n' = outbox n ++ reports s k
    ∧ GoChangeSp ∉ reports s k.
Proof.
  intros Hn. destruct (report_runs_answered n s k Hn) as (n' & E & _ & _ & Hc & Ho). exists n'.
  split_and!; try done. unfold reports. rewrite elem_of_replicate. by intros [? _].
Qed.

(** ** Choosing an SP *)

Lemma update_candidates_addrs c l :
  map NetworkAddr (update_candidates c l)
  = if bool_decide (NetworkAddr c ∈ map NetworkAddr l) then map NetworkAddr l
    else map NetworkAddr l ++ [NetworkAddr c].
Proof.
  induction l as [|x l IH]; [done|]. cbn [update_candidates map].
  destruct (decide (NetworkAddr x = NetworkAddr c)) as [E|E].
  - rewrite (bool_decide_eq_true_2 _ E). rewrite bool_decide_eq_true_2 by (rewrite E; left). done.
  - rewrite (bool_decide_eq_false_2 _ E). cbn [map]. rewrite IH. repeat case_bool_decide; try done.
    all: match goal with H : _ ∈ _ :: _ |- _ => apply elem_of_cons in H as [?|?]; congruence
         | H : _ ∉ _ :: _ |- _ => destruct H; by right end.
Qed.

(** The list is a map from address to response time. *)
Definition cost_of (l : list CandidateSp) (a : string) : option Z :=
  SpResponseTimeCost <$> find (fun x => bool_decide (NetworkAddr x = a)) l.

Lemma update_candidates_cost c l a :
  cost_of (update_candidates c l) a
  = if bool_decide (a = NetworkAddr c) then Some (SpResponseTimeCost c) else cost_of l a.
Proof.
  unfold cost_of. induction l as [|x l IH]; cbn.
  { repeat case_bool_decide; simpl; congruence. }
  destruct (decide (NetworkAddr x = NetworkAddr c)) as [E|E].
  - rewrite (bool_decide_eq_true_2 _ E). cbn. rewrite E. repeat case_bool_decide; simpl; congruence.
  - rewrite (bool_decide_eq_false_2 _ E). cbn.
    destruct (decide (NetworkAddr x = a)) as [Ea|Ea].
    + rewrite (bool_decide_eq_true_2 _ Ea), bool_decide_eq_false_2 by congruence. done.
    + rewrite (bool_decide_eq_false_2 _ Ea). exact IH.
Qed.

(** The candidate list is a map from SP address to its last measured
    response time: an update sets the entry of its SP, leaves every other entry
    alone, and never duplicates an address. *)
Theorem candidate_list_is_a_map c n :
  let n' := UpdateSpCandidateList c n in
  (∀ a, cost_of (candidateSps n') a
        = if bool_decide (a = NetworkAddr c) then Some (SpResponseTimeCost c) else cost_of (candidateSps n) a)
  ∧ (NoDup (map NetworkAddr (candidateSps n)) → NoDup (map NetworkAddr (candidateSps n'))).
Proof.
  cbn. split; [intros a; apply update_candidates_cost|]. intros H. rewrite update_candidates_addrs.
  case_bool_decide; [done|]. apply list.NoDup_app. split_and!; [done| |apply NoDup_singleton].
  intros x Hx ->%list_elem_of_singleton. done.
Qed.

Section ChangeSp.
(** [sort.Slice] returns a permutation in ascending order; it is not stable, so
    nothing is assumed of the order of equal elements.  [rand.Intn(k)] is in
    [0, k). *)
Context (sort_ : list CandidateSp → list CandidateSp) (rnd : Z → Z).
Context (sort_perm : ∀ l, sort_ l ≡ₚ l).
Context (sort_sorted : ∀ l, StronglySorted (fun a b => SpResponseTimeCost a ≤ SpResponseTimeCost b) (sort_ l)).
Context (rnd_range : ∀ k, 0 < k → 0 ≤ rnd k < k).

Definition considered (l : list CandidateSp) : nat := 4 `min` length l.

Lemma StronglySorted_take_drop {A} (R : A → A → Prop) l k x y :
  StronglySorted R l → x ∈ take k l → y ∈ drop k l → R x y.
Proof.
  intros Hs. revert k. induction Hs as [|a l Hs IH Ha]; intros [|k]; cbn;
    try (by intros Hx%elem_of_nil).
  rewrite elem_of_cons. intros [->|Hx] Hy; [|by eapply IH].
  apply list_elem_of_lookup in Hy as [i Hi]. rewrite lookup_drop in Hi.
  rewrite Forall_lookup in Ha. by eapply Ha.
Qed.

(** The candidate [ChangeSp] settles on. *)
Lemma ChangeSp_selects n spName spConn :
  candidateSps n ≠ [] →
  ∃ i c, (i < considered (candidateSps n))%nat ∧ sort_ (candidateSps n) !! i = Some c
    ∧ ChangeSp sort_ rnd spName spConn n
      = Ok (emit (set_candidates n (sort_ (candidateSps n))) (ConfirmOptSP (NetworkAddr c)))
    ∧ (NoDup (map NetworkAddr (candidateSps n)) → (2 ≤ length (candidateSps n))%nat → NetworkAddr c ≠ spName).
Proof.
  unfold ChangeSp. destruct (candidateSps n) as [|x0 xs]; [done|].
  generalize (x0 :: xs). clear x0 xs. intros cs Hne. set (l := sort_ cs).
  pose proof (sort_perm cs) as Hp. fold l in Hp. pose proof (Permutation_length Hp) as Hlen.
  set (k := if bool_decide (Z.of_nat (length l) < LatencyCheckTopSpsConsidered) then _ else _).
  assert (length l ≠ 0%nat) as Hl0 by (intros H0%nil_length_inv; rewrite H0 in Hp;
    by apply Permutation_nil_l in Hp).
  assert (k = Z.of_nat (considered cs) ∧ 0 < k ≤ Z.of_nat (length l)) as [Ek Hk].
  { unfold k, considered, LatencyCheckTopSpsConsidered. case_bool_decide; lia. }
  pose proof (rnd_range k ltac:(lia)) as Hr.
  destruct (at_in_range l (rnd k)) as [c1 Hc1]; [lia|]. rewrite Hc1. cbn [mbind res_bind].
  set (j := if bool_decide (spName = NetworkAddr c1) then _ else _).
  assert (0 ≤ j < k) as Hj.
  { unfold j. case_bool_decide; [apply Z.mod_pos_bound|]; lia. }
  destruct (at_in_range l j) as [c2 Hc2]; [lia|]. rewrite Hc2. cbn [mbind res_bind].
  apply at_lookup in Hc1 as [_ Hc1], Hc2 as [_ Hc2].
  exists (Z.to_nat j), c2. split_and!; [lia|done|done|]. intros Hnd H2 Heq.
  assert (NoDup (map NetworkAddr l)) as Hnd' by (by rewrite Hp).
  assert (2 ≤ k) as Hk2 by (unfold k, LatencyCheckTopSpsConsidered; case_bool_decide; lia).
  destruct (decide (spName = NetworkAddr c1)) as [Ec|Ec].
  2:{ unfold j in Hc2. rewrite bool_decide_eq_false_2 in Hc2 by done. congruence. }
  assert (Z.to_nat j = Z.to_nat (rnd k)) as Ej.
  { eapply (NoDup_lookup (map NetworkAddr l) _ _ (NetworkAddr c2) Hnd'); rewrite list_lookup_fmap.
    - by rewrite Hc2.
    - rewrite Hc1. cbn. congruence. }
  revert Ej. unfold j. rewrite bool_decide_eq_true_2 by done. intros Ej.
  destruct (decide (rnd k + 1 = k)) as [E1|E1].
  - rewrite E1, Z.mod_same in Ej by lia. lia.
  - rewrite Z.mod_small in Ej by lia. lia.
Qed.

(** [ChangeSp] with candidates confirms one SP, one of the four with the
    lowest response times, and not the SP the node is already on when there is
    another candidate to choose. *)
Theorem change_sp_selects_a_fast_other_sp n spName spConn :
  candidateSps n ≠ [] → NoDup (map NetworkAddr (candidateSps n)) →
  ∃ c n', ChangeSp sort_ rnd spName spConn n = Ok n'
    ∧ outbox n' = outbox n ++ [ConfirmOptSP (NetworkAddr c)]
    ∧ c ∈ candidateSps n ∧ candidateSps n' ≡ₚ candidateSps n
    ∧ (∀ x, x ∈ drop 4 (candidateSps n') → SpResponseTimeCost c ≤ SpResponseTimeCost x)
    ∧ ((2 ≤ length (candidateSps n))%nat → NetworkAddr c ≠ spName).
Proof.
  intros Hne Hnd. destruct (ChangeSp_selects n spName spConn Hne) as (i & c & Hi & Hc & E & Hother).
  exists c. eexists. split; [exact E|]. cbn [outbox emit set_candidates candidateSps].
  split_and!; [done| |apply sort_perm| |auto].
  - rewrite <- (sort_perm (candidateSps n)). by eapply list_elem_of_lookup_2.
  - intros x Hx. refine (StronglySorted_take_drop _ _ 4 c x (sort_sorted (candidateSps n)) _ Hx).
    eapply list_elem_of_lookup_2. rewrite lookup_take_lt; [exact Hc|]. unfold considered in Hi. lia.
Qed.

End ChangeSp.

(** ** Concrete nodes *)

Module NetworkDemo.

Definition node (s : NState) : Node := mkNode (node_fsm s) 0 0 false ∅ 0 false 0 [] [] [].

Lemma register_backoff_witness :
  ∃ n', register_retries true [3; 5] (node STATE_REGISTERING) = Ok n'
    ∧ outbox n' = [SendReqRegister; AddJobWithInterval 33 JobTryRegister;
                   SendReqRegister; AddJobWithInterval 65 JobTryRegister]
    ∧ reloadRegisterRetry n' = 2.
Proof.
  apply (register_backoff true [3; 5] (node STATE_REGISTERING)); [done| |done|done].
  repeat constructor; lia.
Defined.

Lemma reconnect_backoff_witness :
  ∃ n', reconnect_failures 3 (node STATE_REGISTERED) = Ok n'
    ∧ outbox n' = [AddJobWithInterval 6 JobTryReloadConnectSP; AddJobWithInterval 60 JobTryReloadConnectSP;
                   AddJobWithInterval 300 JobTryReloadConnectSP]
    ∧ reloadConnectSpRetry n' = 2 ∧ (reloadConnecting n' = true ∨ 3%nat = 0%nat).
Proof. apply (reconnect_backoff (node STATE_REGISTERED) 3). reflexivity. Defined.

Lemma silent_sp_is_left_witness :
  ∃ n', report_runs 6 (node STATE_REGISTERED) = Ok n' ∧ consecutiveFailureCount n' = 4
    ∧ outbox n' = [] ++ reports STATE_REGISTERED 4 ++ [GoChangeSp; GoChangeSp].
Proof. apply (silent_sp_is_left (node STATE_REGISTERED) STATE_REGISTERED 6); reflexivity. Defined.

Lemma answered_once_never_left_witness :
  ∃ n', report_runs 6 (NodeStatusResponded (node STATE_REGISTERED)) = Ok n'
    ∧ (consecutiveFailureCount n' = 0 ∨ 6%nat = 0%nat) ∧ outbox n' = [] ++ reports STATE_REGISTERED 6
    ∧ GoChangeSp ∉ reports STATE_REGISTERED 6.
Proof. apply (answered_once_never_left (node STATE_REGISTERED) STATE_REGISTERED 6). reflexivity. Defined.

(** Insertion sort by response time. *)
Fixpoint insert_sp (c : CandidateSp) (l : list CandidateSp) : list CandidateSp :=
  match l with
  | [] => [c]
  | x :: l => if bool_decide (SpResponseTimeCost c ≤ SpResponseTimeCost x) then c :: x :: l
              else x :: insert_sp c l
  end.
Definition sort_sp (l : list CandidateSp) : list CandidateSp := foldr insert_sp [] l.

Lemma insert_sp_perm c l : insert_sp c l ≡ₚ c :: l.
Proof.
  induction l as [|x l IH]; cbn; [done|]. case_bool_decide; [done|]. rewrite IH. constructor.
Qed.

Lemma sort_sp_perm l : sort_sp l ≡ₚ l.
Proof. induction l as [|x l IH]; cbn; [done|]. by rewrite insert_sp_perm, IH. Qed.

Lemma insert_sp_sorted c l :
  StronglySorted (fun a b => SpResponseTimeCost a ≤ SpResponseTimeCost b) l →
  StronglySorted (fun a b => SpResponseTimeCost a ≤ SpResponseTimeCost b) (insert_sp c l).
Proof.
  induction 1 as [|x l Hs IH Hx]; cbn; [repeat constructor|]. case_bool_decide as Hc.
  - constructor; [by constructor|]. constructor; [done|].
    rewrite Forall_lookup in Hx |- *. intros i y Hy. specialize (Hx i y Hy). lia.
  - constructor; [done|]. rewrite insert_sp_perm. constructor; [lia|done].
Qed.

Lemma sort_sp_sorted l : StronglySorted (fun a b => SpResponseTimeCost a ≤ SpResponseTimeCost b) (sort_sp l).
Proof. induction l as [|x l IH]; cbn; [constructor|]. by apply insert_sp_sorted. Qed.

Definition two_sps : Node :=
  set_candidates (node STATE_REGISTERED) [mkCandidateSp "10.0.0.2:8888" 70; mkCandidateSp "10.0.0.1:8888" 40].

Lemma change_sp_selects_a_fast_other_sp_witness :
  ∃ c n', ChangeSp sort_sp (fun _ => 0) "10.0.0.1:8888" None two_sps = Ok n'
    ∧ outbox n' = [ConfirmOptSP (NetworkAddr c)]
    ∧ c ∈ candidateSps two_sps ∧ candidateSps n' ≡ₚ candidateSps two_sps
    ∧ (∀ x, x ∈ drop 4 (candidateSps n') → SpResponseTimeCost c ≤ SpResponseTimeCost x)
    ∧ ((2 ≤ 2)%nat → NetworkAddr c ≠ "10.0.0.1:8888").
Proof.
  apply (change_sp_selects_a_fast_other_sp sort_sp (fun _ => 0) sort_sp_perm sort_sp_sorted); [lia|done|].
  apply (bool_decide_unpack _). vm_compute. done.
Defined.

End NetworkDemo.
