(* ===== verification/Lifecycle.v ===== *)
(** * Lifecycle: the handlers that drive the node's state machine

    Models the event handlers of pp/event that run the state machine of Fsm.v
    (get_splist.go, get_pp_status.go, register_new_pp.go, activate.go,
    register_to_sp.go, report_node_status.go, maintenance.go), the [StartMining]
    command of pp/serv/terminal_cmd.go and the SP map of pp/setting/sp_list.go.
    A handler gets the decoded protobuf message, or [None] when the verifier or
    the decoder refused it; the protobuf code is generated and not modelled.  The
    [Result] of a message is a pointer, nil when the sender left it out: the
    handlers dereference it unchecked, and such a call ends in a panic, in the
    state it has reached by then. *)
From S2P Require Import Prelude Fsm Network.

(** ** The SP map (setting/sp_list.go) *)

Record SPBaseInfo := mkSPBaseInfo { P2PAddress : string; P2PPublicKey : string; NetworkAddress : string }.

#[global] Instance SPBaseInfo_eq_dec : EqDecision SPBaseInfo.
Proof. solve_decision. Defined.

Definition UpdateSpMap (lst : list SPBaseInfo) : gmap string SPBaseInfo :=
  foldl (fun m sp => <[P2PAddress sp := sp]> m) ∅ lst.

(** First loop of [checkSpListChanged]: the addresses seen, or [None] on a change. *)
Fixpoint check_listed (m : gmap string SPBaseInfo) (list_ : list SPBaseInfo) (listMap : gset string)
  : option (gset string) :=
  match list_ with
  | [] => Some listMap
  | sp :: list_ =>
      match m !! P2PAddress sp with
      | Some spInMap =>
          if bool_decide (NetworkAddress sp ≠ NetworkAddress spInMap)
             || bool_decide (P2PPublicKey sp ≠ P2PPublicKey spInMap)
          then None else check_listed m list_ ({[P2PAddress sp]} ∪ listMap)
      | None => None
      end
  end.

(** The second loop, over the map's entries in some order. *)
Definition checkSpListChanged (m : gmap string SPBaseInfo) (list_ : list SPBaseInfo) : bool :=
  match check_listed m list_ ∅ with
  | None => true
  | Some listMap => existsb (fun kv => negb (bool_decide (P2PAddress kv.2 ∈ listMap))) (map_to_list m)
  end.

(** ** State *)

Definition PP_INACTIVE : Z := 0.
Definition PP_ACTIVE : Z := 1.
Definition PP_UNBONDING : Z := 2.
Definition PPState_OFFLINE : Z := 0.
Definition PPState_ONLINE : Z := 1.
Definition PPState_SUSPEND : Z := 2.
Definition PPState_MAINTENANCE : Z := 3.
Definition rpc_SUCCESS : string := "0".
Definition rpc_INTERNAL_COMM_FAILURE : string := "-10".

Record PPStatusInfo := mkPPStatusInfo {
  isActive : Z; ppstate : Z; initTier : Z; ongoingTier : Z; weightScore : Z; isVerified : bool
}.

(** The globals the handlers touch; [rpc] lists the results set with
    [pp.SetRPCResult], [actions] what is started besides. *)
Inductive action := StartListenServer | BroadcastTx | StartTaskMonitor | CallConfirmOptSP (addr : string)
| SaveSPMapToFile (m : gmap string SPBaseInfo).

Record World := mkWorld {
  w_node : Node;
  w_State : Z;
  w_IsPP : bool;
  w_IsPPSyncedWithSP : bool;
  w_OnlineTime : Z;
  w_SPMap : gmap string SPBaseInfo;
  w_ppStatusCache : option PPStatusInfo;
  w_rpc : list (string * string);     (* key, return code *)
  w_actions : list action
}.

Definition set_node (w : World) n := mkWorld n (w_State w) (w_IsPP w) (w_IsPPSyncedWithSP w) (w_OnlineTime w)
  (w_SPMap w) (w_ppStatusCache w) (w_rpc w) (w_actions w).
Definition set_state (w : World) s := mkWorld (w_node w) s (w_IsPP w) (w_IsPPSyncedWithSP w) (w_OnlineTime w)
  (w_SPMap w) (w_ppStatusCache w) (w_rpc w) (w_actions w).
Definition set_isPP (w : World) pp synced := mkWorld (w_node w) (w_State w) pp synced (w_OnlineTime w)
  (w_SPMap w) (w_ppStatusCache w) (w_rpc w) (w_actions w).
Definition set_online (w : World) t := mkWorld (w_node w) (w_State w) (w_IsPP w) (w_IsPPSyncedWithSP w) t
  (w_SPMap w) (w_ppStatusCache w) (w_rpc w) (w_actions w).
Definition set_spmap (w : World) m := mkWorld (w_node w) (w_State w) (w_IsPP w) (w_IsPPSyncedWithSP w)
  (w_OnlineTime w) m (w_ppStatusCache w) (w_rpc w) (w_actions w).
Definition set_cache (w : World) c := mkWorld (w_node w) (w_State w) (w_IsPP w) (w_IsPPSyncedWithSP w)
  (w_OnlineTime w) (w_SPMap w) (Some c) (w_rpc w) (w_actions w).
Definition do_ (w : World) (a : action) := mkWorld (w_node w) (w_State w) (w_IsPP w) (w_IsPPSyncedWithSP w)
  (w_OnlineTime w) (w_SPMap w) (w_ppStatusCache w) (w_rpc w) (w_actions w ++ [a]).
(** The new SP map, also written to a file; a failure there is only logged. *)
Definition store_sp_list (w : World) m := do_ (set_spmap w m) (SaveSPMapToFile m).
(** The deferred [pp.SetRPCResult], which runs when there is a request id. *)
Definition rpc_return (w : World) (key : option string) (r : string) :=
  match key with
  | None => w
  | Some k => mkWorld (w_node w) (w_State w) (w_IsPP w) (w_IsPPSyncedWithSP w) (w_OnlineTime w)
                (w_SPMap w) (w_ppStatusCache w) (w_rpc w ++ [(k, r)]) (w_actions w)
  end.

Section Handlers.
(** Whether the wallet key signs, a random draw, the clock, the node's own
    address, and the key of the pending RPC request, if any. *)
Context (sign_ok : bool) (rnd now : Z) (self : string) (loggedIn : bool) (rpcKey : option string).

Definition run_fsm (e : NEvent) (w : World) : res World :=
  n ← Network_RunFsm sign_ok rnd e (w_node w);
  Ok (set_node w n).

(** The field [Result *protos.Result]: [None] for nil, else whether its state is
    [RES_SUCCESS]. *)
Definition Result := option bool.

(** How a handler that has left the world [w] ended: it returned, or it
    dereferenced a nil [Result]. *)
Inductive ending := Returned | NilResult.

Definition done_ (w : World) : res (World * ending) := Ok (w, Returned).
Definition nil_panic (w : World) : res (World * ending) := Ok (w, NilResult).

(** ** get_splist.go *)

Record RspGetSPList_msg := { sl_result : Result; sl_list : list SPBaseInfo }.

(** What [grpc.QueryMetaNode] says of the sender: its address and [Suspend]. *)
Definition RspGetSPList (target : option RspGetSPList_msg) (src : string) (metaNode : option (string * bool))
    (w : World) : res (World * ending) :=
  match target with
  | None => done_ w
  | Some t =>
      match sl_result t with
      | None => nil_panic w
      | Some false => done_ w
      | Some true =>
          match metaNode with
          | None => done_ w
          | Some (addr, suspend) =>
              if negb (bool_decide (addr = src)) then done_ w
              else if suspend then done_ w
              else
                let w := if checkSpListChanged (w_SPMap w) (sl_list t)
                         then store_sp_list w (UpdateSpMap (sl_list t)) else w in
                w ← run_fsm EVENT_GET_SP_LIST w;
                done_ w
          end
      end
  end.

(** ** get_pp_status.go *)

Record RspGetPPStatus_msg := {
  gs_result : Result; gs_registerFirst : bool;  (* the message contains "Please register first" *)
  gs_status : PPStatusInfo
}.

(** The part of [FormatPPStatusInfo] that changes state. *)
Definition FormatPPStatusInfo (s : PPStatusInfo) (w : World) : World :=
  if bool_decide (ppstate s = PPState_OFFLINE) then set_online w 0
  else if bool_decide (ppstate s = PPState_ONLINE) then
    if bool_decide (w_OnlineTime w = 0) then set_online w now else w
  else if bool_decide (ppstate s = PPState_SUSPEND) then set_online w 0
  else if bool_decide (ppstate s = PPState_MAINTENANCE) then set_online w 0
  else w.

(** The result of the RPC request starts as a success, and the deferred
    [SetRPCResult] runs on a panic too. *)
Definition RspGetPPStatus (target : option RspGetPPStatus_msg) (w : World) : res (World * ending) :=
  match target with
  | None => done_ w
  | Some t =>
      match gs_result t with
      | None => nil_panic (rpc_return w rpcKey rpc_SUCCESS)
      | Some false =>
          if gs_registerFirst t then
            w ← run_fsm EVENT_SP_NO_PP_IN_STORE w;
            done_ (rpc_return (set_isPP w (w_IsPP w) true) rpcKey rpc_INTERNAL_COMM_FAILURE)
          else done_ (rpc_return w rpcKey rpc_INTERNAL_COMM_FAILURE)
      | Some true =>
          let s := gs_status t in
          let w := set_state w (isActive s) in
          let w := if bool_decide (w_State w = PP_ACTIVE) then set_isPP w true true else w in
          let w := FormatPPStatusInfo s (set_cache w s) in
          w ← run_fsm (if bool_decide (isActive s = PP_ACTIVE) then EVENT_RCV_RSP_ACTIVATED
                       else EVENT_RCV_STATUS_INACTIVE) w;
          w ← (if bool_decide (ppstate s = PPState_SUSPEND) then run_fsm EVENT_RCV_STATUS_SUSPEND w else Ok w);
          done_ (rpc_return w rpcKey rpc_SUCCESS)
      end
  end.

(** ** register_new_pp.go *)

Record RspRegisterNewPP_msg := { rn_result : Result; rn_alreadyPp : bool }.

Definition RspRegisterNewPP (target : option RspRegisterNewPP_msg) (w : World) : res (World * ending) :=
  match target with
  | None => done_ w
  | Some t =>
      match rn_result t with
      | None => nil_panic (rpc_return w rpcKey "")
      | Some false =>
          let w := if rn_alreadyPp t then set_isPP w true true else w in
          done_ (rpc_return w rpcKey rpc_INTERNAL_COMM_FAILURE)
      | Some true =>
          w ← run_fsm EVENT_RCV_RSP_REGISTER_NEW_PP w;
          done_ (rpc_return (set_isPP w true true) rpcKey rpc_SUCCESS)
      end
  end.

(** ** activate.go *)

Record RspActivatePP_msg := { ac_result : Result; ac_state : Z }.

(** An already active node returns before a return code is set: it stays "". *)
Definition RspActivate (target : option RspActivatePP_msg) (w : World) : res (World * ending) :=
  match target with
  | None => done_ w
  | Some t =>
      match ac_result t with
      | None => nil_panic (rpc_return w rpcKey "")
      | Some false => done_ (rpc_return w rpcKey rpc_INTERNAL_COMM_FAILURE)
      | Some true =>
          if bool_decide (ac_state t = PP_ACTIVE) then done_ (rpc_return (set_state w (ac_state t)) rpcKey "")
          else
            let w := if bool_decide (ac_state t = PP_INACTIVE) then do_ w BroadcastTx else w in
            done_ (rpc_return w rpcKey rpc_SUCCESS)
      end
  end.

(** The result is only logged, which dereferences it. *)
Definition NoticeActivatedPP (target : option RspActivatePP_msg) (w : World) : res (World * ending) :=
  match target with
  | None => done_ w
  | Some t =>
      match ac_result t with
      | None => nil_panic w
      | Some _ => w ← run_fsm EVENT_RCV_RSP_ACTIVATED (set_state w PP_ACTIVE); done_ w
      end
  end.

(** ** register_to_sp.go *)

Record RspRegister_msg := { rr_result : Result; rr_p2p : string; rr_suspended : bool; rr_isPP : bool }.

Definition RspRegister (target : option RspRegister_msg) (w : World) : res (World * ending) :=
  match target with
  | None => done_ w
  | Some t =>
      if negb (bool_decide (rr_p2p t = self)) then done_ w
      else
        w ← (if rr_suspended t then run_fsm EVENT_RCV_SUSPENDED_STATE w else Ok w);
        match rr_result t with
        | None => nil_panic w
        | Some false => done_ w
        | Some true =>
            let w := set_isPP w (rr_isPP t) true in
            done_ (if w_IsPP w then set_node w (StartMining loggedIn (w_node w)) else w)
        end
  end.

(** [listening]: whether the P2P server is already running. *)
Definition RspMining (target : option Result) (listening : bool) (w : World) : res (World * ending) :=
  match target with
  | None => done_ w
  | Some None => nil_panic (rpc_return w rpcKey "")
  | Some (Some false) =>
      w ← run_fsm EVENT_RCV_MINING_NOT_STARTED w;
      done_ (rpc_return w rpcKey rpc_INTERNAL_COMM_FAILURE)
  | Some (Some true) =>
      let w := if listening then w else do_ w StartListenServer in
      let w := set_node w (ReportNodeStatus (w_node w)) in
      done_ (rpc_return w rpcKey rpc_SUCCESS)
  end.

Definition NoticeRelocateSp (target : option (string * option SPBaseInfo)) (w : World) : res (World * ending) :=
  match target with
  | Some (pp, Some toSp) =>
      if bool_decide (pp = self) then done_ (do_ w (CallConfirmOptSP (NetworkAddress toSp))) else done_ w
  | _ => done_ w
  end.

(** ** report_node_status.go *)

Record RspReportNodeStatus_msg := { rs_result : Result; rs_ppstate : Z }.

Definition RspReportNodeStatus (target : option RspReportNodeStatus_msg) (w : World) : res (World * ending) :=
  match target with
  | None => done_ w
  | Some t =>
      match rs_result t with
      | None => nil_panic w
      | Some false => done_ w
      | Some true =>
          w ← (if bool_decide (rs_ppstate t = PPState_SUSPEND) then run_fsm EVENT_RCV_SUSPENDED_STATE w else Ok w);
          state ← GetStateFromFsm (w_node w);
          w ← (if bool_decide (state = state_id STATE_REGISTERING)
               then run_fsm EVENT_RCV_RSP_FIRST_NODE_STATUS w else Ok w);
          done_ (set_node w (NodeStatusResponded (w_node w)))
      end
  end.

(** ** maintenance.go *)

Definition RspStartMaintenance (target : option Result) (w : World) : res (World * ending) :=
  match target with
  | Some None => nil_panic w
  | Some (Some true) => w ← run_fsm EVENT_MAINTANENCE_START (do_ w StartTaskMonitor); done_ w
  | _ => done_ w
  end.

Definition RspStopMaintenance (target : option Result) (w : World) : res (World * ending) :=
  match target with
  | Some None => nil_panic w
  | _ => done_ w
  end.

(** ** The [startmining] command (terminal_cmd.go) *)

Definition StartMining_cmd (w : World) : res World :=
  state ← GetStateFromFsm (w_node w);
  if bool_decide (state = state_id STATE_NOT_REGISTERED) || bool_decide (state = state_id STATE_SUSPENDED)
     || bool_decide (state = state_id STATE_OFFLINE)
  then run_fsm EVENT_START_MINING w
  else if bool_decide (state = state_id STATE_NOT_ACTIVATED) || bool_decide (state = state_id STATE_INIT)
          || bool_decide (state = state_id STATE_NOT_CREATED)
  then Err "register and activate the node before start mining"
  else Err "mining already started".

End Handlers.

(** ** One step of the node's life *)

(** Everything that runs the machine: a message from the SP, the operator's
    command, or an attempt to reconnect. *)
Inductive call :=
| CallRspGetSPList (t : option RspGetSPList_msg) (src : string) (meta : option (string * bool))
| CallRspGetPPStatus (t : option RspGetPPStatus_msg)
| CallRspRegisterNewPP (t : option RspRegisterNewPP_msg)
| CallRspActivate (t : option RspActivatePP_msg)
| CallNoticeActivatedPP (t : option RspActivatePP_msg)
| CallRspRegister (t : option RspRegister_msg)
| CallRspMining (t : option Result) (listening : bool)
| CallRspReportNodeStatus (t : option RspReportNodeStatus_msg)
| CallRspStartMaintenance (t : option Result)
| CallRspStopMaintenance (t : option Result)
| CallStartMining
| CallReconnect (r : connect_result).

Section Step.
Context (sign_ok : bool) (rnd now : Z) (self : string) (loggedIn : bool) (rpcKey : option string).

Definition step (c : call) (w : World) : res (World * ending) :=
  match c with
  | CallRspGetSPList t src meta => RspGetSPList sign_ok rnd t src meta w
  | CallRspGetPPStatus t => RspGetPPStatus sign_ok rnd now rpcKey t w
  | CallRspRegisterNewPP t => RspRegisterNewPP sign_ok rnd rpcKey t w
  | CallRspActivate t => RspActivate rpcKey t w
  | CallNoticeActivatedPP t => NoticeActivatedPP sign_ok rnd t w
  | CallRspRegister t => RspRegister sign_ok rnd self loggedIn t w
  | CallRspMining t l => RspMining sign_ok rnd rpcKey t l w
  | CallRspReportNodeStatus t => RspReportNodeStatus sign_ok rnd t w
  | CallRspStartMaintenance t => RspStartMaintenance sign_ok rnd t w
  | CallRspStopMaintenance t => RspStopMaintenance t w
  | CallStartMining => w ← StartMining_cmd sign_ok rnd w; done_ w
  | CallReconnect r => n ← tryReloadConnectSP sign_ok rnd r (w_node w); done_ (set_node w n)
  end.

Definition has_result (r : Result) : bool := match r with Some _ => true | None => false end.
Definition succeeded (r : Result) : bool := match r with Some true => true | _ => false end.

(** The messages whose handler dereferences a missing [Result]. *)
Definition result_missing (c : call) : bool :=
  match c with
  | CallRspGetSPList (Some t) _ _ => negb (has_result (sl_result t))
  | CallRspGetPPStatus (Some t) => negb (has_result (gs_result t))
  | CallRspRegisterNewPP (Some t) => negb (has_result (rn_result t))
  | CallRspActivate (Some t) | CallNoticeActivatedPP (Some t) => negb (has_result (ac_result t))
  | CallRspRegister (Some t) => bool_decide (rr_p2p t = self) && negb (has_result (rr_result t))
  | CallRspMining (Some r) _ | CallRspStartMaintenance (Some r) | CallRspStopMaintenance (Some r) =>
      negb (has_result r)
  | CallRspReportNodeStatus (Some t) => negb (has_result (rs_result t))
  | _ => false
  end.

(** The events a call may raise, read off the message. *)
Definition fires (c : call) : list NEvent :=
  match c with
  | CallRspGetSPList (Some t) src (Some (addr, false)) =>
      if succeeded (sl_result t) && bool_decide (addr = src) then [EVENT_GET_SP_LIST] else []
  | CallRspGetPPStatus (Some t) =>
      if succeeded (gs_result t) then
        (if bool_decide (isActive (gs_status t) = PP_ACTIVE) then [EVENT_RCV_RSP_ACTIVATED]
         else [EVENT_RCV_STATUS_INACTIVE])
        ++ if bool_decide (ppstate (gs_status t) = PPState_SUSPEND) then [EVENT_RCV_STATUS_SUSPEND] else []
      else if has_result (gs_result t) && gs_registerFirst t then [EVENT_SP_NO_PP_IN_STORE] else []
  | CallRspRegisterNewPP (Some t) => if succeeded (rn_result t) then [EVENT_RCV_RSP_REGISTER_NEW_PP] else []
  | CallNoticeActivatedPP (Some t) => if has_result (ac_result t) then [EVENT_RCV_RSP_ACTIVATED] else []
  | CallRspRegister (Some t) =>
      if bool_decide (rr_p2p t = self) && rr_suspended t then [EVENT_RCV_SUSPENDED_STATE] else []
  | CallRspMining (Some (Some false)) _ => [EVENT_RCV_MINING_NOT_STARTED]
  | CallRspReportNodeStatus (Some t) =>
      if succeeded (rs_result t) then
        (if bool_decide (rs_ppstate t = PPState_SUSPEND) then [EVENT_RCV_SUSPENDED_STATE] else [])
        ++ [EVENT_RCV_RSP_FIRST_NODE_STATUS]
      else []
  | CallRspStartMaintenance (Some (Some true)) => [EVENT_MAINTANENCE_START]
  | CallStartMining => [EVENT_START_MINING]
  | CallReconnect NewConnection => [EVENT_CONN_RECONN]
  | _ => []
  end.

Definition world_in (w : World) (s : NState) : Prop := node_in (w_node w) s.

Lemma run_fsm_in w s e :
  world_in w s → ∃ w', run_fsm sign_ok rnd e w = Ok w' ∧ world_in w' (next s e).1.
Proof.
  intros H. destruct (Network_RunFsm_in (w_node w) s sign_ok rnd e H) as (n & E & Hn & _).
  unfold run_fsm. rewrite E. by eexists.
Qed.

(** Run the machine when a condition holds. *)
Lemma run_fsm_if (b : bool) w s e :
  world_in w s → ∃ w', (if b then run_fsm sign_ok rnd e w else Ok w) = Ok w'
    ∧ world_in w' (run s (if b then [e] else [])).
Proof.
  intros H. destruct b; [|by eexists]. destruct (run_fsm_in w s e H) as (w' & E & Hw). by exists w'.
Qed.

Lemma rpc_return_in w s k r : world_in w s → world_in (rpc_return w k r) s.
Proof. by destruct k. Qed.

Lemma FormatPPStatusInfo_in p w s : world_in w s → world_in (FormatPPStatusInfo now p w) s.
Proof. unfold FormatPPStatusInfo. by repeat case_bool_decide. Qed.

(** Outside [REGISTERING] the answer to a status report is ignored. *)
Lemma next_first_status s : s ≠ STATE_REGISTERING → (next s EVENT_RCV_RSP_FIRST_NODE_STATUS).1 = s.
Proof. by destruct s. Qed.

#[local] Arguments run_fsm : simpl never.
#[local] Arguments UpdateSpMap : simpl never.
#[local] Arguments store_sp_list : simpl never.
#[local] Arguments FormatPPStatusInfo : simpl never.
#[local] Arguments rpc_return : simpl never.

(** A call ends as its message says and leaves the machine where its events lead. *)
Definition follows (c : call) (w : World) (s : NState) : Prop :=
  ∃ w', step c w = Ok (w', if result_missing c then NilResult else Returned) ∧ world_in w' (run s (fires c)).

Lemma follows_RspGetSPList t src meta w s : world_in w s → follows (CallRspGetSPList t src meta) w s.
Proof.
  intros H. destruct t as [[[[]|] l]|]; unfold follows; cbn; try (by eexists);
    destruct meta as [[addr [|]]|]; cbn; try (by eexists); case_bool_decide; cbn; try (by eexists).
  destruct (run_fsm_in (if checkSpListChanged (w_SPMap w) l then store_sp_list w (UpdateSpMap l) else w)
              s EVENT_GET_SP_LIST) as (w' & -> & H'); [by case_match|by eexists].
Qed.

Lemma follows_RspGetPPStatus t w s : world_in w s → follows (CallRspGetPPStatus t) w s.
Proof.
  intros H. destruct t as [[[[]|] first st]|]; unfold follows; cbn; [..|by eexists].
  - set (w1 := FormatPPStatusInfo now _ _).
    assert (world_in w1 s) as H1 by (apply FormatPPStatusInfo_in; by case_bool_decide).
    set (e := if bool_decide (isActive st = PP_ACTIVE) then EVENT_RCV_RSP_ACTIVATED
              else EVENT_RCV_STATUS_INACTIVE).
    destruct (run_fsm_in w1 s e H1) as (w2 & -> & H2). cbn [mbind res_bind].
    destruct (run_fsm_if (bool_decide (ppstate st = PPState_SUSPEND)) w2 _
                EVENT_RCV_STATUS_SUSPEND H2) as (w3 & -> & H3).
    cbn [mbind res_bind]. eexists. split; [done|]. apply rpc_return_in.
    replace (if bool_decide (isActive st = PP_ACTIVE) then [EVENT_RCV_RSP_ACTIVATED]
             else [EVENT_RCV_STATUS_INACTIVE]) with [e] by (unfold e; by destruct (bool_decide (isActive _ = _))).
    exact H3.
  - destruct first; [|eexists; split; [done|]; by apply rpc_return_in].
    destruct (run_fsm_in w s EVENT_SP_NO_PP_IN_STORE H) as (w' & -> & H'). cbn [mbind res_bind].
    eexists. split; [done|]. by apply rpc_return_in.
  - eexists. split; [done|]. by apply rpc_return_in.
Qed.

Lemma follows_RspReportNodeStatus t w s : world_in w s → follows (CallRspReportNodeStatus t) w s.
Proof.
  intros H. destruct t as [[[[]|] st]|]; unfold follows; cbn [step]; [|by eexists..].
  unfold RspReportNodeStatus. cbn [rs_result rs_ppstate fires succeeded].
  destruct (run_fsm_if (bool_decide (st = PPState_SUSPEND)) w s EVENT_RCV_SUSPENDED_STATE H)
    as (w1 & -> & H1).
  cbn [mbind res_bind]. rewrite (GetStateFromFsm_in _ _ H1). cbn [mbind res_bind].
  rewrite run_snoc. set (s1 := run s _) in *.
  destruct (run_fsm_if (bool_decide (state_id s1 = state_id STATE_REGISTERING)) w1 s1
              EVENT_RCV_RSP_FIRST_NODE_STATUS H1) as (w2 & -> & H2).
  cbn [mbind res_bind]. eexists. split; [done|]. revert H2. case_bool_decide as E; [done|].
  cbn [run]. rewrite next_first_status; [done|congruence].
Qed.

Lemma follows_RspRegister t w s : world_in w s → follows (CallRspRegister t) w s.
Proof.
  intros H. destruct t as [[r p2p susp pp]|]; unfold follows; cbn; [|by eexists].
  case_bool_decide; cbn; [|by eexists].
  destruct (run_fsm_if susp w s EVENT_RCV_SUSPENDED_STATE H) as (w1 & -> & H1).
  cbn. destruct r as [[]|]; cbn; [|by eexists..].
  eexists. split; [done|]. destruct pp; [|done]. by destruct loggedIn.
Qed.

(** The remaining answers: at most one event, after which the RPC result is set. *)
Lemma follows_answers c w s :
  world_in w s →
  match c with
  | CallRspRegisterNewPP _ | CallRspActivate _ | CallNoticeActivatedPP _ | CallRspMining _ _
  | CallRspStartMaintenance _ | CallRspStopMaintenance _ => follows c w s
  | _ => True
  end.
Proof.
  intros H. destruct c as [| |[[[[]|] ?]|]|[[[[]|] ?]|]|[[[?|] ?]|]| |[[[]|]|] l| |[[[]|]|]|[[[]|]|]| |];
    try exact I; unfold follows; cbn; repeat case_bool_decide;
    try (match goal with |- context [run_fsm _ _ ?e ?w0] =>
           destruct (run_fsm_in w0 s e) as (w1 & -> & H1); [exact H|] end; cbn);
    eexists; (split; [done|]); try apply rpc_return_in; try done; by case_match.
Qed.

Lemma step_follows c w s :
  world_in w s →
  follows c w s
  ∨ (c = CallStartMining ∧ (s ∉ [STATE_NOT_REGISTERED; STATE_SUSPENDED; STATE_OFFLINE])
     ∧ ∃ m, step c w = Err m).
Proof.
  intros H. pose proof (follows_answers c w s H) as Ha.
  destruct c as [t src meta|t|t|t|t|t|t l|t|t|t| |r]; try (by left).
  - left. by apply follows_RspGetSPList.
  - left. by apply follows_RspGetPPStatus.
  - left. by apply follows_RspRegister.
  - left. by apply follows_RspReportNodeStatus.
  - unfold follows. cbn [step]. unfold StartMining_cmd. rewrite (GetStateFromFsm_in _ _ H). cbn [mbind res_bind].
    destruct s; cbn;
      try (left; destruct (run_fsm_in w _ EVENT_START_MINING H) as (w' & -> & H'); by eexists);
      right; (split; [done|]; split; [|by eexists]);
      rewrite !not_elem_of_cons; (split_and!; [done..|apply not_elem_of_nil]).
  - left. destruct r; unfold follows; cbn [step]; unfold tryReloadConnectSP; cbn [fires]; [|by eexists..].
    destruct (Network_RunFsm_in (w_node w) s sign_ok rnd EVENT_CONN_RECONN H) as (n & -> & Hn & _).
    by eexists.
Qed.

(** C35: every handler drives the state machine through the events its message
    stands for and through no others.  It returns, unless the message came
    without a [Result]: then it panics on the nil pointer, before any event but
    the suspension a registration answer carries.  The only refusal is the
    [startmining] command in a state where mining cannot start. *)
Theorem handlers_follow_the_machine c w s :
  world_in w s →
  ((∃ w', step c w = Ok (w', if result_missing c then NilResult else Returned) ∧ world_in w' (run s (fires c)))
   ∨ (c = CallStartMining ∧ (s ∉ [STATE_NOT_REGISTERED; STATE_SUSPENDED; STATE_OFFLINE])
      ∧ ∃ m, step c w = Err m))
  ∧ (result_missing c = true → fires c = [] ∨ ∃ t, c = CallRspRegister (Some t) ∧ fires c = [EVENT_RCV_SUSPENDED_STATE]).
Proof.
  intros H. split; [by apply step_follows|].
  destruct c as [[[[[]|] ?]|] ? [[? []]|]|[[[[]|] ? ?]|]|[[[[]|] ?]|]|[[[[]|] ?]|]|[[[[]|] ?]|]|[[r ? sus ?]|]
                |[[[]|]|] ?|[[[[]|] ?]|]|[[[]|]|]|[[[]|]|]| |[]]; cbn; try done; try (by left).
  destruct (bool_decide _), sus; cbn; eauto.
Qed.

(** Any sequence of calls; a refused command leaves the node as it is, a panic
    ends its own call only and leaves the state the call has reached. *)
Fixpoint steps (cs : list call) (w : World) : res World :=
  match cs with
  | [] => Ok w
  | c :: cs =>
      match step c w with
      | Ok (w', _) => steps cs w'
      | Err _ => steps cs w
      | Panic x => Panic x
      end
  end.

(** In a state where it is refused, the [startmining] event would do nothing. *)
Lemma refused_mining s :
  s ∉ [STATE_NOT_REGISTERED; STATE_SUSPENDED; STATE_OFFLINE] → run s [EVENT_START_MINING] = s.
Proof. destruct s; try done; intros H; destruct H; repeat ((left; done) || right). Qed.

Lemma run_app s es es' : run s (es ++ es') = run (run s es) es'.
Proof. revert s. induction es as [|e es IH]; intros s; cbn; [done|apply IH]. Qed.

Lemma steps_follow cs w s :
  world_in w s → ∃ w', steps cs w = Ok w' ∧ world_in w' (run s (concat (map fires cs))).
Proof.
  revert w s. induction cs as [|c cs IH]; intros w s H; cbn [steps map concat]; [by eexists|].
  rewrite run_app. destruct (step_follows c w s H) as [(w' & -> & Hw)|(-> & Hs & m & ->)].
  - by apply IH.
  - cbn [fires]. rewrite refused_mining by done. by apply IH.
Qed.

(** C36: whatever messages and commands come in, in whatever order, a node that
    has just started is in a serving state only after messages that stand for
    the SP list, the activation and (for [REGISTERED]) the first answered status
    report arrived in this order. *)
Theorem life_needs_milestones cs w :
  world_in w STATE_INIT →
  ∃ w' s, steps cs w = Ok w' ∧ world_in w' s ∧ sublist (milestones s) (concat (map fires cs)).
Proof.
  intros H. destruct (steps_follow cs w STATE_INIT H) as (w' & E & Hw).
  eexists _, _. split_and!; [exact E|exact Hw|apply run_milestones].
Qed.

Lemma fires_no_stop c : EVENT_MAINTANENCE_STOP ∉ fires c.
Proof.
  destruct c as [[?|] ? [[? []]|]|[?|]|[?|]|[?|]|[?|]|[?|]|[[[]|]|] ?|[?|]|[[[]|]|]|[[[]|]|]| |[]]; cbn [fires];
    repeat case_match; rewrite ?elem_of_app, ?elem_of_cons, ?elem_of_nil; intuition congruence.
Qed.

Lemma run_maintenance es : EVENT_MAINTANENCE_STOP ∉ es → run STATE_MAINTANENCE es = STATE_MAINTANENCE.
Proof.
  induction es as [|e es IH]; cbn; [done|]. rewrite not_elem_of_cons. intros [He Hes].
  destruct e; try (by apply IH). done.
Qed.

(** No handler raises [EVENT_MAINTANENCE_STOP], the answer to a request to
    stop maintenance included, so once in maintenance the state machine stays
    there whatever happens. *)
Theorem maintenance_never_ends cs w :
  world_in w STATE_MAINTANENCE → ∃ w', steps cs w = Ok w' ∧ world_in w' STATE_MAINTANENCE.
Proof.
  intros H. destruct (steps_follow cs w _ H) as (w' & E & Hw). exists w'. split; [done|].
  rewrite run_maintenance in Hw; [done|]. clear. induction cs as [|c cs IH]; [apply not_elem_of_nil|].
  cbn. rewrite elem_of_app. intros [?%fires_no_stop|?]; auto.
Qed.

End Step.

(** ** The SP map *)

(** Keys are the addresses of the entries. *)
Definition spmap_wf (m : gmap string SPBaseInfo) : Prop := map_Forall (fun k v => P2PAddress v = k) m.

Lemma check_listed_Some m l S S' :
  spmap_wf m → check_listed m l S = Some S' →
  Forall (fun sp => m !! P2PAddress sp = Some sp) l ∧ S' = list_to_set (map P2PAddress l) ∪ S.
Proof.
  intros Hwf. revert S. induction l as [|sp l IH]; intros S; cbn.
  { intros [= <-]. split; [constructor|set_solver]. }
  destruct (m !! P2PAddress sp) as [v|] eqn:E; [|done].
  destruct (bool_decide _ || bool_decide _) eqn:Eb; [done|]. apply orb_false_iff in Eb as [E1 E2].
  apply bool_decide_eq_false in E1, E2. intros H. destruct (IH _ H) as [Hl ->].
  assert (v = sp) as ->.
  { pose proof (Hwf _ _ E) as Ek. cbn in Ek. destruct sp, v; cbn in *.
    f_equal; [done|destruct (decide (P2PPublicKey0 = P2PPublicKey1))|
              destruct (decide (NetworkAddress0 = NetworkAddress1))]; done || tauto. }
  split; [by constructor|set_solver].
Qed.

Lemma foldl_insert_lookup (m m0 : gmap string SPBaseInfo) l k :
  Forall (fun sp => m !! P2PAddress sp = Some sp) l →
  foldl (fun m sp => <[P2PAddress sp := sp]> m) m0 l !! k
  = if bool_decide (k ∈ map P2PAddress l) then m !! k else m0 !! k.
Proof.
  intros Hl. revert m0. induction Hl as [|sp l Hsp Hl IH]; intros m0; [done|]. cbn [foldl]. rewrite IH.
  destruct (decide (k = P2PAddress sp)) as [->|Hne].
  - rewrite lookup_insert_eq, (bool_decide_eq_true_2 (_ ∈ map P2PAddress (sp :: l))) by (left).
    case_bool_decide; [done|by rewrite Hsp].
  - rewrite lookup_insert_ne by done. cbn [map].
    rewrite (bool_decide_ext (k ∈ P2PAddress sp :: map P2PAddress l) (k ∈ map P2PAddress l)); [done|].
    rewrite elem_of_cons. tauto.
Qed.

Lemma unchanged_map m l : spmap_wf m → checkSpListChanged m l = false → m = UpdateSpMap l.
Proof.
  intros Hwf. unfold checkSpListChanged. destruct (check_listed m l ∅) as [S|] eqn:E; [|done].
  destruct (check_listed_Some _ _ _ _ Hwf E) as [Hl ->]. intros Hex. apply map_eq. intros k.
  unfold UpdateSpMap. rewrite (foldl_insert_lookup m) by done. case_bool_decide as Hk; [done|].
  destruct (m !! k) as [v|] eqn:Ek; [|done]. exfalso. apply Hk.
  assert (P2PAddress v ∈ (list_to_set (map P2PAddress l) ∪ ∅ : gset string)) as Hin.
  { destruct (decide (P2PAddress v ∈ (list_to_set (map P2PAddress l) ∪ ∅ : gset string))) as [?|Hn]; [done|].
    exfalso. rewrite <- not_true_iff_false in Hex. apply Hex, existsb_exists. exists (k, v). split.
    - apply list_elem_of_In, elem_of_map_to_list, Ek.
    - by rewrite bool_decide_eq_false_2. }
  rewrite (Hwf _ _ Ek) in Hin. set_solver.
Qed.

Lemma UpdateSpMap_wf l : spmap_wf (UpdateSpMap l).
Proof.
  unfold UpdateSpMap. assert (spmap_wf ∅) as H by (apply map_Forall_empty).
  revert H. generalize (∅ : gmap string SPBaseInfo). induction l as [|sp l IH]; intros m Hm; cbn; [done|].
  apply IH. by apply map_Forall_insert_2.
Qed.

(** When a node accepts a list of SPs, its map becomes exactly the map of
    that list: the check that skips the update skips it only when the map
    already is that map; the machine is told, and the map keeps its keys. *)
Theorem accepted_sp_list_is_stored sign_ok rnd t src w s :
  world_in w s → spmap_wf (w_SPMap w) → sl_result t = Some true →
  ∃ w', RspGetSPList sign_ok rnd (Some t) src (Some (src, false)) w = Ok (w', Returned)
    ∧ w_SPMap w' = UpdateSpMap (sl_list t) ∧ spmap_wf (w_SPMap w')
    ∧ world_in w' (run s [EVENT_GET_SP_LIST]).
Proof.
  intros Hs Hwf Hok. unfold RspGetSPList. rewrite Hok, bool_decide_eq_true_2 by done. cbn [negb].
  set (w1 := if checkSpListChanged _ _ then _ else _).
  assert (w_SPMap w1 = UpdateSpMap (sl_list t)) as Hm.
  { unfold w1. destruct (checkSpListChanged _ _) eqn:E; [done|]. by apply unchanged_map. }
  assert (world_in w1 s) as Hs1 by (unfold w1; by case_match).
  destruct (run_fsm_in sign_ok rnd w1 s EVENT_GET_SP_LIST Hs1) as (w2 & E2 & Hw2).
  exists w2. rewrite E2. cbn [mbind res_bind]. unfold run_fsm in E2.
  destruct (Network_RunFsm _ _ _ _) as [n| |]; cbn in E2; [|done..]. simplify_eq. split; [done|].
  cbn. rewrite Hm. split_and!; [done|apply UpdateSpMap_wf|done].
Qed.

Module LifecycleDemo.

Definition world (s : NState) : World :=
  mkWorld (NetworkDemo.node s) 0 false false 0 ∅ None [] [].

Definition sp1 : SPBaseInfo := mkSPBaseInfo "stsds1sp" "pk" "10.0.0.1:8888".

(** A registration answer that reports a suspension and has no [Result]. *)
Definition bare : RspRegister_msg := {| rr_result := None; rr_p2p := "me"; rr_suspended := true; rr_isPP := true |}.

Lemma handlers_follow_the_machine_witness :
  ((∃ w', step true 0 5 "me" true None (CallRspRegister (Some bare)) (world STATE_REGISTERED) = Ok (w', NilResult)
          ∧ world_in w' (run STATE_REGISTERED [EVENT_RCV_SUSPENDED_STATE]))
   ∨ (CallRspRegister (Some bare) = CallStartMining
      ∧ (STATE_REGISTERED ∉ [STATE_NOT_REGISTERED; STATE_SUSPENDED; STATE_OFFLINE])
      ∧ ∃ m, step true 0 5 "me" true None (CallRspRegister (Some bare)) (world STATE_REGISTERED) = Err m))
  ∧ (true = true → [EVENT_RCV_SUSPENDED_STATE] = []
     ∨ ∃ t, CallRspRegister (Some bare) = CallRspRegister (Some t)
            ∧ [EVENT_RCV_SUSPENDED_STATE] = [EVENT_RCV_SUSPENDED_STATE]).
Proof.
  apply (handlers_follow_the_machine true 0 5 "me" true None (CallRspRegister (Some bare)) (world STATE_REGISTERED)).
  reflexivity.
Defined.

(** A pending status request is told of a success when its answer has no [Result]. *)
Example status_request_told_success :
  RspGetPPStatus true 0 5 (Some "req")
    (Some {| gs_result := None; gs_registerFirst := false; gs_status := mkPPStatusInfo 1 1 0 0 0 true |})
    (world STATE_INIT)
  = Ok (rpc_return (world STATE_INIT) (Some "req") rpc_SUCCESS, NilResult).
Proof. reflexivity. Qed.

Lemma life_needs_milestones_witness :
  let cs := [CallRspGetSPList (Some {| sl_result := Some true; sl_list := [sp1] |}) "sp" (Some ("sp", false));
             CallNoticeActivatedPP (Some {| ac_result := Some true; ac_state := 1 |});
             CallRspReportNodeStatus (Some {| rs_result := Some true; rs_ppstate := 1 |})] in
  ∃ w' s, steps true 0 5 "me" true None cs (world STATE_INIT) = Ok w' ∧ world_in w' s
    ∧ sublist (milestones s) (concat (map (fires "me") cs)).
Proof. cbv zeta. apply life_needs_milestones. reflexivity. Defined.

Lemma maintenance_never_ends_witness :
  ∃ w', steps true 0 5 "me" true None [CallRspStopMaintenance (Some (Some true)); CallRspStopMaintenance (Some None); CallStartMining]
          (world STATE_MAINTANENCE) = Ok w' ∧ world_in w' STATE_MAINTANENCE.
Proof. apply maintenance_never_ends. reflexivity. Defined.

Lemma accepted_sp_list_is_stored_witness :
  let t := {| sl_result := Some true; sl_list := [sp1] |} in
  ∃ w', RspGetSPList true 0 (Some t) "sp" (Some ("sp", false)) (world STATE_INIT) = Ok (w', Returned)
    ∧ w_SPMap w' = UpdateSpMap [sp1] ∧ spmap_wf (w_SPMap w') ∧ world_in w' STATE_GOT_SP_LIST.
Proof.
  apply (accepted_sp_list_is_stored true 0 {| sl_result := Some true; sl_list := [sp1] |} "sp" (world STATE_INIT) STATE_INIT).
  - reflexivity.
  - apply map_Forall_empty.
  - reflexivity.
Defined.

End LifecycleDemo.
