(* ===== verification/Coins.v ===== *)
(** * Coins: amounts of several denominations

    Models tx-client/types/coin.go.  A set of coins is a list of coins; [Validate]
    accepts the canonical lists, strictly sorted by denomination with positive
    amounts, and the arithmetic is defined by merging sorted lists.  The theorems
    relate it to arithmetic on amounts, denomination by denomination.

    Amounts are [sdkmath.Int] of a third-party module: integers with a bound on
    their size, beyond which the arithmetic panics; [Int_ok] says what fits.
    In-place sorting of the caller's slice is not modelled. *)
From Stdlib Require Import Sorting.Sorted.
From S2P Require Import Prelude.

(** ** Denominations *)

(** [strings.Compare] and the string operators compare bytes. *)
Definition dlt (a b : string) : Prop := String.compare a b = Lt.
#[global] Instance comparison_eq_dec : EqDecision comparison.
Proof. solve_decision. Defined.
#[global] Instance dlt_dec a b : Decision (dlt a b) := decide (String.compare a b = Lt).

(** The character classes of [reDnmString]. *)
Definition is_letter (c : Ascii.ascii) : bool :=
  let n := Z.of_nat (Ascii.nat_of_ascii c) in
  bool_decide (65 ≤ n ≤ 90) || bool_decide (97 ≤ n ≤ 122).
Definition is_denom_char (c : Ascii.ascii) : bool :=
  let n := Z.of_nat (Ascii.nat_of_ascii c) in
  is_letter c || bool_decide (48 ≤ n ≤ 57) || bool_decide (n = 47) || bool_decide (n = 45).

(** [ValidateDenom] with the default expression [[a-zA-Z][a-zA-Z0-9/-]{2,127}],
    anchored at both ends. *)
Definition ValidateDenom (denom : string) : bool :=
  match String.list_ascii_of_string denom with
  | [] => false
  | c :: cs => is_letter c && forallb is_denom_char cs && bool_decide (2 ≤ length cs ≤ 127)%nat
  end.

(** ** Coin *)

Record Coin := mkCoin { Denom : string; Amount : Z }.
Abbreviation Coins := (list Coin).

#[global] Instance Coin_eq_dec : EqDecision Coin.
Proof. solve_decision. Defined.

(** What the code relies on of [sdkmath.Int]: a result too large panics. *)
Class SdkInt := { Int_ok : Z → bool }.
Class SdkIntLaws (SI : SdkInt) := {
  Int_ok_mono x y : Z.abs x ≤ Z.abs y → Int_ok y = true → Int_ok x = true
}.

Definition IsZero (c : Coin) : bool := bool_decide (Amount c = 0).
Definition IsPositive (c : Coin) : bool := bool_decide (Amount c > 0).
Definition IsNegative (c : Coin) : bool := bool_decide (Amount c < 0).

Definition Coin_Validate (c : Coin) : res unit :=
  if negb (ValidateDenom (Denom c)) then Err "invalid denom"
  else if bool_decide (Amount c < 0) then Err "negative coin amount" else Ok tt.

Definition NewCoin (denom : string) (amount : Z) : res Coin :=
  match Coin_Validate (mkCoin denom amount) with
  | Ok _ => Ok (mkCoin denom amount)
  | Err e | Panic e => Panic e
  end.

Section CoinOps.
Context {SI : SdkInt}.

(** [Int.Add] and [Int.Sub]. *)
Definition Int_Add (a b : Z) : res Z := if Int_ok (a + b) then Ok (a + b) else Panic "Int overflow".
Definition Int_Sub (a b : Z) : res Z := if Int_ok (a - b) then Ok (a - b) else Panic "Int overflow".

Definition same_denom {A} (a b : Coin) (k : A) : res A :=
  if bool_decide (Denom a = Denom b) then Ok k else Panic "invalid coin denominations".

Definition Coin_IsGTE (a b : Coin) : res bool := same_denom a b (negb (bool_decide (Amount a < Amount b))).
Definition Coin_IsLT (a b : Coin) : res bool := same_denom a b (bool_decide (Amount a < Amount b)).
Definition Coin_IsEqual (a b : Coin) : res bool := same_denom a b (bool_decide (Amount a = Amount b)).

Definition AddAmount (c : Coin) (amount : Z) : res Coin :=
  s ← Int_Add (Amount c) amount; Ok (mkCoin (Denom c) s).

Definition Coin_Add (a b : Coin) : res Coin :=
  _ ← same_denom a b tt; AddAmount a (Amount b).

Definition SubAmount (c : Coin) (amount : Z) : res Coin :=
  s ← Int_Sub (Amount c) amount;
  if bool_decide (s < 0) then Panic "negative coin amount" else Ok (mkCoin (Denom c) s).

Definition Coin_Sub (a b : Coin) : res Coin :=
  _ ← same_denom a b tt; SubAmount a (Amount b).

(** ** Sets of coins *)

Definition removeZeroCoins (coins : Coins) : Coins := filter (fun c => IsZero c = false) coins.

Fixpoint isSorted (coins : Coins) : bool :=
  match coins with
  | a :: (b :: _) as rest =>
      if decide (String.compare (Denom a) (Denom b) = Gt) then false else isSorted rest
  | _ => true
  end.

(** The loop of [Validate] over the coins after the first. *)
Fixpoint validate_rest (lowDenom : string) (seenDenoms : gset string) (coins : Coins) : res unit :=
  match coins with
  | [] => Ok tt
  | c :: coins =>
      if bool_decide (Denom c ∈ seenDenoms) then Err "duplicate denomination"
      else if negb (ValidateDenom (Denom c)) then Err "invalid denom"
      else if negb (bool_decide (dlt lowDenom (Denom c))) then Err "denomination is not sorted"
      else if negb (IsPositive c) then Err "amount is not positive"
      else validate_rest (Denom c) ({[Denom c]} ∪ seenDenoms) coins
  end.

Definition Validate (coins : Coins) : res unit :=
  match coins with
  | [] => Ok tt
  | c :: rest =>
      if negb (ValidateDenom (Denom c)) then Err "invalid denom"
      else if negb (IsPositive c) then Err "amount is not positive"
      else match rest with
           | [] => Ok tt
           | _ => validate_rest (Denom c) {[Denom c]} rest
           end
  end.

Definition IsValid (coins : Coins) : bool := match Validate coins with Ok _ => true | _ => false end.

(** The merge loop of [safeAdd]; lists stand for the slices from the indices on. *)
Fixpoint add_loop (a : Coins) : Coins → res Coins :=
  fix go (b : Coins) : res Coins :=
    match a, b with
    | [], [] => Ok []
    | [], _ => Ok (removeZeroCoins b)
    | _, [] => Ok (removeZeroCoins a)
    | coinA :: a', coinB :: b' =>
        match String.compare (Denom coinA) (Denom coinB) with
        | Lt => sum ← add_loop a' b; Ok (if IsZero coinA then sum else coinA :: sum)
        | Eq =>
            r ← Coin_Add coinA coinB;
            sum ← add_loop a' b';
            Ok (if IsZero r then sum else r :: sum)
        | Gt => sum ← go b'; Ok (if IsZero coinB then sum else coinB :: sum)
        end
    end.

Definition safeAdd (coins coinsB : Coins) : res Coins :=
  if negb (isSorted coins) then Panic "Coins (self) must be sorted"
  else if negb (isSorted coinsB) then Panic "Wrong argument: coins must be sorted"
  else add_loop coins coinsB.

Definition Add (coins coinsB : Coins) : res Coins := safeAdd coins coinsB.

Definition negative (coins : Coins) : Coins := map (fun c => mkCoin (Denom c) (- Amount c)) coins.
Definition IsAnyNegative (coins : Coins) : bool := existsb IsNegative coins.

Definition SafeSub (coins coinsB : Coins) : res (Coins * bool) :=
  diff ← safeAdd coins (negative coinsB); Ok (diff, IsAnyNegative diff).

Definition Sub (coins coinsB : Coins) : res Coins :=
  '(diff, hasNeg) ← SafeSub coins coinsB;
  if (hasNeg : bool) then Panic "negative coin amount" else Ok diff.

(** [AmountOfNoDenomValidation]: binary search; every call is on a shorter slice,
    so the length of the list is fuel enough. *)
Fixpoint amount_search (fuel : nat) (coins : Coins) (denom : string) : Z :=
  match fuel with
  | O => 0
  | S fuel =>
      match coins with
      | [] => 0
      | [coin] => if bool_decide (Denom coin = denom) then Amount coin else 0
      | _ =>
          let midIdx := Nat.div2 (length coins) in
          match coins !! midIdx with
          | None => 0
          | Some coin =>
              match String.compare denom (Denom coin) with
              | Lt => amount_search fuel (take midIdx coins) denom
              | Eq => Amount coin
              | Gt => amount_search fuel (drop (midIdx + 1) coins) denom
              end
          end
      end
  end.

Definition AmountOfNoDenomValidation (coins : Coins) (denom : string) : Z :=
  amount_search (length coins) coins denom.

Definition AmountOf (coins : Coins) (denom : string) : res Z :=
  if ValidateDenom denom then Ok (AmountOfNoDenomValidation coins denom) else Panic "invalid denom".

(** A loop over the coins that stops at the first that fails the test. *)
Fixpoint all_coins (test : Coin → res bool) (coins : Coins) : res bool :=
  match coins with
  | [] => Ok true
  | c :: coins => b ← test c; if (b : bool) then all_coins test coins else Ok false
  end.
Fixpoint any_coin (test : Coin → res bool) (coins : Coins) : res bool :=
  match coins with
  | [] => Ok false
  | c :: coins => b ← test c; if (b : bool) then Ok true else any_coin test coins
  end.

Definition DenomsSubsetOf (coins coinsB : Coins) : res bool :=
  if bool_decide (length coinsB < length coins)%nat then Ok false
  else all_coins (fun c => amt ← AmountOf coinsB (Denom c); Ok (negb (bool_decide (amt = 0)))) coins.

Definition IsAllGT (coins coinsB : Coins) : res bool :=
  if bool_decide (coins = []) then Ok false
  else if bool_decide (coinsB = []) then Ok true
  else
    sub ← DenomsSubsetOf coinsB coins;
    if (sub : bool) then
      all_coins (fun coinB => amt ← AmountOf coins (Denom coinB); Ok (bool_decide (Amount coinB < amt))) coinsB
    else Ok false.

Definition IsAllGTE (coins coinsB : Coins) : res bool :=
  if bool_decide (coinsB = []) then Ok true
  else if bool_decide (coins = []) then Ok false
  else all_coins (fun coinB => amt ← AmountOf coins (Denom coinB); Ok (negb (bool_decide (amt < Amount coinB)))) coinsB.

Definition IsAllLT (coins coinsB : Coins) : res bool := IsAllGT coinsB coins.
Definition IsAllLTE (coins coinsB : Coins) : res bool := IsAllGTE coinsB coins.

Definition IsAnyGT (coins coinsB : Coins) : res bool :=
  if bool_decide (coinsB = []) then Ok false
  else any_coin (fun c => amt ← AmountOf coinsB (Denom c);
                          Ok (bool_decide (amt < Amount c) && negb (bool_decide (amt = 0)))) coins.
Definition IsAnyGTE (coins coinsB : Coins) : res bool :=
  if bool_decide (coinsB = []) then Ok false
  else any_coin (fun c => amt ← AmountOf coinsB (Denom c);
                          Ok (bool_decide (amt ≤ Amount c) && negb (bool_decide (amt = 0)))) coins.

Definition Coins_IsZero (coins : Coins) : bool := forallb IsZero coins.
Definition Empty (coins : Coins) : bool := bool_decide (coins = []).
Definition IsAllPositive (coins : Coins) : bool := negb (Empty coins) && forallb IsPositive coins.

(** [sort.Sort] on the denominations, which is not stable: a parameter. *)
Section Sorting.
Context (Sort : Coins → Coins).

Definition sanitizeCoins (coins : Coins) : Coins :=
  match removeZeroCoins coins with [] => [] | newCoins => Sort newCoins end.

Definition NewCoins (coins : Coins) : res Coins :=
  let newCoins := sanitizeCoins coins in
  match Validate newCoins with Ok _ => Ok newCoins | _ => Panic "invalid coin set" end.

(** The merge of [Max], the two loops after it included. *)
Fixpoint max_loop (a : Coins) : Coins → Coins :=
  fix go (b : Coins) : Coins :=
    match a, b with
    | [], _ => b
    | _, [] => a
    | coinA :: a', coinB :: b' =>
        match String.compare (Denom coinA) (Denom coinB) with
        | Lt => coinA :: max_loop a' b
        | Eq => (if bool_decide (Amount coinA < Amount coinB) then coinB else coinA) :: max_loop a' b'
        | Gt => coinB :: go b'
        end
    end.

Definition Max (coins coinsB : Coins) : res Coins := NewCoins (max_loop coins coinsB).

Fixpoint min_loop (a : Coins) : Coins → Coins :=
  fix go (b : Coins) : Coins :=
    match a, b with
    | [], _ | _, [] => []
    | coinA :: a', coinB :: b' =>
        match String.compare (Denom coinA) (Denom coinB) with
        | Lt => min_loop a' b
        | Eq =>
            let minCoin := if bool_decide (Amount coinB < Amount coinA) then coinB else coinA in
            if IsZero minCoin then min_loop a' b' else minCoin :: min_loop a' b'
        | Gt => go b'
        end
    end.

Definition Min (coins coinsB : Coins) : res Coins := NewCoins (min_loop coins coinsB).

Fixpoint equal_pairwise (a b : Coins) : res bool :=
  match a, b with
  | x :: a, y :: b => e ← Coin_IsEqual x y; if (e : bool) then equal_pairwise a b else Ok false
  | _, _ => Ok true
  end.

Definition IsEqual (coins coinsB : Coins) : res bool :=
  if bool_decide (length coins = length coinsB) then equal_pairwise (Sort coins) (Sort coinsB) else Ok false.

End Sorting.

(** ** The order of denominations *)

Lemma dlt_irrefl a : ¬ dlt a a.
Proof.
  unfold dlt. pose proof (String.compare_antisym a a) as H. destruct (String.compare a a); done.
Qed.

Lemma compare_refl a : String.compare a a = Eq.
Proof.
  pose proof (String.compare_antisym a a) as H. destruct (String.compare a a); done.
Qed.

Lemma compare_gt a b : String.compare a b = Gt → dlt b a.
Proof. unfold dlt. rewrite (String.compare_antisym b a). by intros ->. Qed.

Lemma ascii_lt_trans a b c :
  Ascii.compare a b = Lt → Ascii.compare b c = Lt → Ascii.compare a c = Lt.
Proof. unfold Ascii.compare. rewrite !N.compare_lt_iff. lia. Qed.

Lemma dlt_trans a b c : dlt a b → dlt b c → dlt a c.
Proof.
  unfold dlt. revert b c. induction a as [|x a IH]; intros [|y b] [|z c]; cbn; try done.
  destruct (Ascii.compare x y) eqn:E1, (Ascii.compare y z) eqn:E2; try done; intros H1 H2;
    repeat match goal with H : Ascii.compare _ _ = Eq |- _ => apply Ascii.compare_eq_iff in H; subst end.
  - assert (Ascii.compare z z = Eq) as -> by (unfold Ascii.compare; apply N.compare_refl). by eapply IH.
  - by rewrite E2.
  - by rewrite E1.
  - by rewrite (ascii_lt_trans _ _ _ E1 E2).
Qed.

(** Three-way comparison, as the merges use it. *)
Lemma compare_cases a b :
  match String.compare a b with Lt => dlt a b | Eq => a = b | Gt => dlt b a end.
Proof.
  destruct (String.compare a b) eqn:E; [by apply String.compare_eq_iff|done|by apply compare_gt].
Qed.

(** ** Canonical lists and amounts *)

Definition lt_coin (a b : Coin) : Prop := dlt (Denom a) (Denom b).
Definition sorted (l : Coins) : Prop := StronglySorted lt_coin l.
Definition nonzero (l : Coins) : Prop := Forall (fun c => Amount c ≠ 0) l.

(** The amount of a denomination: the specification of [AmountOf]. *)
Fixpoint amt (l : Coins) (d : string) : Z :=
  match l with
  | [] => 0
  | c :: l => if bool_decide (Denom c = d) then Amount c else amt l d
  end.

Definition above (d : string) (l : Coins) : Prop := Forall (fun c => dlt d (Denom c)) l.

Lemma sorted_cons c l : sorted (c :: l) ↔ sorted l ∧ above (Denom c) l.
Proof.
  split; [intros H; by apply StronglySorted_inv in H|intros [? ?]; by constructor].
Qed.

Lemma above_trans d d' l : dlt d d' → above d' l → above d l.
Proof. intros H. apply Forall_impl. intros c. by apply dlt_trans. Qed.

Lemma amt_above d l : above d l → amt l d = 0.
Proof.
  induction 1 as [|c l Hc Hl IH]; cbn; [done|]. rewrite bool_decide_eq_false_2; [done|].
  intros <-. by apply dlt_irrefl in Hc.
Qed.

Lemma amt_above_lt d d' l : dlt d d' → above d' l → amt l d = 0.
Proof. intros. apply amt_above. by eapply above_trans. Qed.

Lemma above_filter d P `{∀ c, Decision (P c)} l : above d l → above d (filter P l).
Proof.
  induction 1 as [|x l Hx Hl IH]; [constructor|]. rewrite filter_cons. case_decide; [by constructor|done].
Qed.

Lemma amt_removeZero l d : sorted l → amt (removeZeroCoins l) d = amt l d.
Proof.
  unfold removeZeroCoins. induction l as [|c l IH]; [done|]. rewrite sorted_cons. intros [Hs Ha].
  rewrite filter_cons. destruct (decide (IsZero c = false)) as [Hz|Hz]; cbn [amt]; rewrite IH by done; [done|].
  unfold IsZero in Hz. apply not_false_iff_true, bool_decide_eq_true in Hz.
  destruct (decide (Denom c = d)) as [<-|Hd].
  - by rewrite amt_above, bool_decide_eq_true_2.
  - by rewrite bool_decide_eq_false_2.
Qed.

Lemma sorted_removeZero l : sorted l → sorted (removeZeroCoins l) ∧ nonzero (removeZeroCoins l).
Proof.
  unfold removeZeroCoins. induction l as [|c l IH]; [intros; split; [done|constructor]|].
  rewrite sorted_cons. intros [Hs Ha]. destruct (IH Hs) as [Hs' Hn]. rewrite filter_cons.
  case_decide as Hz; [|done]. split; [|constructor; [|done]].
  - apply sorted_cons. split; [done|]. by apply above_filter.
  - unfold IsZero in Hz. by apply bool_decide_eq_false in Hz.
Qed.

(** A canonical list is determined by its amounts. *)
Lemma canonical_unique a b :
  sorted a → nonzero a → sorted b → nonzero b → (∀ d, amt a d = amt b d) → a = b.
Proof.
  revert b. induction a as [|x a IH]; intros [|y b] Ha Hna Hb Hnb H; [done|..].
  - inversion Hnb; subst. specialize (H (Denom y)). cbn in H. rewrite bool_decide_eq_true_2 in H by done. lia.
  - inversion Hna; subst. specialize (H (Denom x)). cbn in H. rewrite bool_decide_eq_true_2 in H by done. lia.
  - apply sorted_cons in Ha as [Hsa Haa], Hb as [Hsb Hab].
    apply Forall_cons_1 in Hna as [Hx Hna], Hnb as [Hy Hnb].
    assert (Denom x = Denom y) as Ed.
    { pose proof (compare_cases (Denom x) (Denom y)) as Hc. destruct (String.compare _ _); [done|..]; exfalso.
      - apply Hx. specialize (H (Denom x)). cbn in H. rewrite bool_decide_eq_true_2 in H by done. rewrite H.
        apply (amt_above (Denom x) (y :: b)). constructor; [done|]. by eapply above_trans.
      - apply Hy. specialize (H (Denom y)). cbn in H. rewrite (bool_decide_eq_true_2 (Denom y = Denom y)) in H by done.
        rewrite <- H. apply (amt_above (Denom y) (x :: a)). constructor; [done|]. by eapply above_trans. }
    assert (Amount x = Amount y) as Ea.
    { specialize (H (Denom x)). cbn in H. by rewrite !bool_decide_eq_true_2 in H. }
    assert (a = b) as -> by (apply IH; try done; intros d; destruct (decide (Denom x = d)) as [<-|Hd];
      [rewrite (amt_above _ a) by done; rewrite Ed; by rewrite (amt_above _ b)|
       specialize (H d); cbn in H; by rewrite !bool_decide_eq_false_2 in H by congruence]).
    destruct x, y; cbn in *; congruence.
Qed.

(** ** Binary search *)

Lemma sorted_app l c r :
  sorted (l ++ c :: r) → sorted l ∧ sorted r ∧ above (Denom c) r ∧ Forall (fun x => dlt (Denom x) (Denom c)) l.
Proof.
  induction l as [|x l IH]; cbn [app]; rewrite sorted_cons; intros [Hs Ha].
  - split_and!; [constructor|done..|constructor].
  - destruct (IH Hs) as (Hl & Hr & Hcr & Hlc). apply Forall_app in Ha as [Hxl Hxc].
    apply Forall_cons_1 in Hxc as [Hxc _]. split_and!; [by apply sorted_cons|done..|by constructor].
Qed.

Lemma amt_app_lt l r d : above d r → amt (l ++ r) d = amt l d.
Proof.
  intros Hr. induction l as [|x l IH]; cbn; [by apply amt_above|]. by rewrite IH.
Qed.

Lemma amt_app_gt l r d : Forall (fun x => dlt (Denom x) d) l → amt (l ++ r) d = amt r d.
Proof.
  induction 1 as [|x l Hx Hl IH]; cbn; [done|]. rewrite bool_decide_eq_false_2; [done|].
  intros <-. by apply dlt_irrefl in Hx.
Qed.

Lemma amount_search_amt fuel l d :
  sorted l → (length l ≤ fuel)%nat → amount_search fuel l d = amt l d.
Proof.
  revert l. induction fuel as [|fuel IH]; intros l Hs Hf.
  { by destruct l; [|simpl in Hf; lia]. }
  destruct l as [|c0 [|c1 l']]; [done|done|]. cbn [amount_search].
  set (l := c0 :: c1 :: l') in *. set (mid := Nat.div2 (length l)).
  assert (0 < mid < length l)%nat as Hmid.
  { unfold mid. pose proof (Nat.div2_odd (length l)) as Ho. simpl length in *.
    destruct (Nat.odd _); cbn [Nat.b2n] in Ho; lia. }
  destruct (lookup_lt_is_Some_2 l mid) as [c Hc]; [lia|]. rewrite Hc.
  pose proof (take_drop_middle l mid c Hc) as El. rewrite Nat.add_1_r. rewrite <- El in Hs.
  apply sorted_app in Hs as (Hl & Hr & Hcr & Hlc).
  assert (amt l d = amt (take mid l ++ c :: drop (S mid) l) d) as -> by (by rewrite El).
  pose proof (compare_cases d (Denom c)) as Hd. destruct (String.compare d (Denom c)).
  - subst d. rewrite amt_app_gt by done. cbn. by rewrite bool_decide_eq_true_2.
  - rewrite IH by (done || (rewrite length_take; lia)). symmetry. apply amt_app_lt.
    constructor; [done|]. by eapply above_trans.
  - rewrite IH by (done || (rewrite length_drop; lia)). rewrite amt_app_gt.
    + cbn. rewrite bool_decide_eq_false_2; [done|]. intros E. rewrite E in Hd. by apply dlt_irrefl in Hd.
    + eapply Forall_impl; [|exact Hlc]. intros x Hx. exact (dlt_trans _ _ _ Hx Hd).
Qed.

(** ** Validity *)

Definition good_denom (d : string) : Prop := ValidateDenom d = true.
Definition valid (l : Coins) : Prop :=
  sorted l ∧ Forall (fun c => good_denom (Denom c)) l ∧ Forall (fun c => 0 < Amount c) l.

Lemma valid_nonzero l : valid l → nonzero l.
Proof. intros (_ & _ & H). eapply Forall_impl; [|exact H]. cbn. lia. Qed.

Lemma amt_nonneg l d : Forall (fun c => 0 < Amount c) l → 0 ≤ amt l d.
Proof. induction 1; cbn; [done|]. case_bool_decide; lia. Qed.

(** A canonical list with no negative amount has positive ones. *)
Lemma positive_amts l : sorted l → nonzero l → (∀ d, 0 ≤ amt l d) → Forall (fun c => 0 < Amount c) l.
Proof.
  induction l as [|c l IH]; intros Hs Hn H; [constructor|].
  apply sorted_cons in Hs as [Hs Ha]. apply Forall_cons_1 in Hn as [Hc Hn]. constructor.
  - specialize (H (Denom c)). cbn in H. rewrite bool_decide_eq_true_2 in H by done. lia.
  - apply IH; [done|done|]. intros d. destruct (decide (Denom c = d)) as [<-|Hd].
    + by rewrite (amt_above _ _ Ha).
    + specialize (H d). cbn in H. by rewrite bool_decide_eq_false_2 in H.
Qed.

(** Membership in [seenDenoms] never adds to the order test. *)
Lemma validate_rest_valid low seen l :
  (∀ d, d ∈ seen → d = low ∨ dlt d low) →
  validate_rest low seen l = Ok tt ↔ valid l ∧ above low l.
Proof.
  revert low seen. induction l as [|c l IH]; intros low seen Hseen; cbn [validate_rest].
  { split; [|done]. intros _. split; [split_and!; constructor|constructor]. }
  assert (dlt low (Denom c) → Denom c ∉ seen) as Hfresh.
  { intros Hlt Hin. destruct (Hseen _ Hin) as [E|E]; [rewrite E in Hlt; by apply dlt_irrefl in Hlt|].
    apply (dlt_irrefl low). by eapply dlt_trans. }
  unfold valid, above. rewrite sorted_cons, !Forall_cons_iff. unfold good_denom at 1, IsPositive.
  destruct (ValidateDenom (Denom c)) eqn:Ed; cbn [negb].
  2:{ case_bool_decide; split; done || (intros ((_ & [? _] & _) & _); done). }
  destruct (decide (dlt low (Denom c))) as [Hlt|Hlt].
  2:{ rewrite (bool_decide_eq_false_2 (dlt _ _)) by done. cbn [negb].
      case_bool_decide; split; done || (intros (_ & ? & _); done). }
  rewrite (bool_decide_eq_false_2 (_ ∈ seen)), (bool_decide_eq_true_2 (dlt _ _)) by auto. cbn [negb].
  case_bool_decide as Hp; cbn [negb].
  2:{ split; [done|]. intros ((_ & _ & ? & _) & _). lia. }
  rewrite (IH (Denom c) ({[Denom c]} ∪ seen)).
  - unfold valid, above. split.
    + intros ((? & ? & ?) & Ha). split_and!; try done; [lia|].
      eapply Forall_impl; [|exact Ha]. intros x. by apply dlt_trans.
    + intros (((? & ?) & (? & ?) & ? & ?) & ? & ?). split_and!; done.
  - intros d. rewrite elem_of_union, elem_of_singleton. intros [->|Hd]; [by left|]. right.
    destruct (Hseen d Hd) as [->|?]; [done|]. by eapply dlt_trans.
Qed.

Lemma Validate_valid l : Validate l = Ok tt ↔ valid l.
Proof.
  destruct l as [|c l].
  { split; [|done]. intros _. split_and!; constructor. }
  unfold Validate, valid. rewrite sorted_cons, !Forall_cons_iff. unfold good_denom at 1, IsPositive.
  destruct (ValidateDenom (Denom c)); cbn [negb]; [|split; [done|intros (_ & [? _] & _); done]].
  case_bool_decide as Hp; cbn [negb]; [|split; [done|intros (_ & _ & ? & _); lia]].
  assert ((match l with [] => Ok tt | _ => validate_rest (Denom c) {[Denom c]} l end)
          = validate_rest (Denom c) {[Denom c]} l) as -> by (by destruct l).
  rewrite validate_rest_valid by (intros d ->%elem_of_singleton; by left). unfold valid.
  split; [intros ((? & ? & ?) & ?)|intros ((? & ?) & (? & ?) & ? & ?)]; split_and!; done || lia.
Qed.

(** ** Addition *)

Lemma add_loop_cons x a y b :
  add_loop (x :: a) (y :: b)
  = match String.compare (Denom x) (Denom y) with
    | Lt => sum ← add_loop a (y :: b); Ok (if IsZero x then sum else x :: sum)
    | Eq => r ← Coin_Add x y; sum ← add_loop a b; Ok (if IsZero r then sum else r :: sum)
    | Gt => sum ← add_loop (x :: a) b; Ok (if IsZero y then sum else y :: sum)
    end.
Proof. done. Qed.

Lemma add_loop_nil_l b : add_loop [] b = Ok (removeZeroCoins b).
Proof. by destruct b. Qed.
Lemma add_loop_nil_r a : add_loop a [] = Ok (removeZeroCoins a).
Proof. by destruct a. Qed.

(** Putting a coin before a canonical list, unless it is zero. *)
Lemma push_coin r s :
  sorted s → nonzero s → above (Denom r) s →
  let s' := if IsZero r then s else r :: s in
  sorted s' ∧ nonzero s' ∧ (∀ d, amt s' d = if bool_decide (Denom r = d) then Amount r else amt s d).
Proof.
  intros Hs Hn Ha. unfold IsZero. case_bool_decide as Hz.
  - split_and!; [done|done|]. intros d. case_bool_decide as Hd; [|done]. subst d. rewrite Hz. by apply amt_above.
  - split_and!; [by apply sorted_cons|by constructor|done].
Qed.

(** A property of denominations both arguments have. *)
Definition on_denoms (P : string → Prop) (l : Coins) : Prop := Forall (fun c => P (Denom c)) l.

Definition sum_of (a b s : Coins) : Prop :=
  sorted s ∧ nonzero s ∧ (∀ d, amt s d = amt a d + amt b d)
  ∧ (∀ P, on_denoms P a → on_denoms P b → on_denoms P s).

(** One step of the merge: the smallest denomination [Denom r] is settled. *)
Lemma sum_step a b a' b' r s :
  sum_of a' b' s → above (Denom r) a' → above (Denom r) b' →
  (∀ d, amt a d + amt b d = if bool_decide (Denom r = d) then Amount r else amt a' d + amt b' d) →
  (∀ P, on_denoms P a → on_denoms P b → P (Denom r) ∧ on_denoms P a' ∧ on_denoms P b') →
  sum_of a b (if IsZero r then s else r :: s).
Proof.
  intros (Hs & Hn & Hamt & HP) Ha Hb E Hden.
  destruct (push_coin r s Hs Hn) as (Hs' & Hn' & Hamt'); [by apply (HP (dlt (Denom r)))|].
  split_and!; [done|done| |].
  - intros d. by rewrite Hamt', E, Hamt.
  - intros P HPa HPb. destruct (Hden P HPa HPb) as (? & ? & ?).
    destruct (IsZero r); [by apply HP|]. constructor; [done|by apply HP].
Qed.

Lemma sum_of_nil a : sorted a → sum_of a [] (removeZeroCoins a).
Proof.
  intros Ha. destruct (sorted_removeZero a Ha). split_and!; [done|done| |].
  - intros d. rewrite amt_removeZero by done. cbn. lia.
  - intros P HP _. unfold on_denoms, removeZeroCoins in *. clear -HP.
    induction HP; [constructor|]. rewrite filter_cons. case_decide; [by constructor|done].
Qed.

Lemma sum_of_comm a b s : sum_of a b s → sum_of b a s.
Proof. intros (? & ? & E & ?). split_and!; auto. intros d. rewrite E. lia. Qed.

Context {SL : SdkIntLaws SI}.

Lemma Int_ok_0 x : Int_ok x = true → Int_ok 0 = true.
Proof. apply Int_ok_mono. lia. Qed.

(** What is left to add fits if the whole did. *)
Lemma rest_fits a b a' b' d0 :
  (∀ d, Int_ok (amt a d + amt b d) = true) → amt a' d0 + amt b' d0 = 0 →
  (∀ d, d0 ≠ d → amt a' d + amt b' d = amt a d + amt b d) →
  ∀ d, Int_ok (amt a' d + amt b' d) = true.
Proof.
  intros Hok H0 Hd d. destruct (decide (d0 = d)) as [<-|Hne].
  - rewrite H0. exact (Int_ok_0 _ (Hok d0)).
  - by rewrite Hd.
Qed.

Lemma amt_cons_ne c l d : Denom c ≠ d → amt (c :: l) d = amt l d.
Proof. intros. cbn. by rewrite bool_decide_eq_false_2. Qed.
Lemma amt_cons_eq c l : amt (c :: l) (Denom c) = Amount c.
Proof. cbn. by rewrite bool_decide_eq_true_2. Qed.

Lemma on_denoms_cons P c l : on_denoms P (c :: l) ↔ P (Denom c) ∧ on_denoms P l.
Proof. apply Forall_cons_iff. Qed.

Lemma add_loop_sum n a b :
  (length a + length b ≤ n)%nat → sorted a → sorted b →
  (∀ d, Int_ok (amt a d + amt b d) = true) →
  ∃ s, add_loop a b = Ok s ∧ sum_of a b s.
Proof.
  revert a b. induction n as [|n IH]; intros a b Hn Ha Hb Hok.
  { destruct a, b; simpl in Hn; try lia. eexists. split; [done|]. by apply (sum_of_nil []). }
  destruct a as [|x a]; [rewrite add_loop_nil_l; eexists; split; [done|]; by apply sum_of_comm, sum_of_nil|].
  destruct b as [|y b]; [rewrite add_loop_nil_r; eexists; split; [done|]; by apply sum_of_nil|].
  rewrite add_loop_cons. pose proof Ha as [Hsa Haa]%sorted_cons. pose proof Hb as [Hsb Hab]%sorted_cons.
  simpl in Hn. pose proof (compare_cases (Denom x) (Denom y)) as Hc. destruct (String.compare _ _).
  - unfold Coin_Add, same_denom, AddAmount, Int_Add. rewrite bool_decide_eq_true_2 by done.
    cbn [mbind res_bind]. pose proof (Hok (Denom x)) as Hx.
    rewrite amt_cons_eq, Hc, amt_cons_eq in Hx. rewrite Hx. cbn [mbind res_bind].
    destruct (IH a b) as (s & -> & Hsum); [lia|done|done| |].
    { apply (rest_fits _ _ _ _ (Denom x) Hok).
      - rewrite (amt_above _ a), Hc, (amt_above _ b) by done. done.
      - intros d Hd. by rewrite !amt_cons_ne by congruence. }
    cbn [mbind res_bind]. eexists. split; [done|]. eapply sum_step; [exact Hsum|done|by rewrite <- Hc in Hab|..].
    + intros d. cbn. rewrite <- Hc. by case_bool_decide.
    + intros P. rewrite !on_denoms_cons. tauto.
  - assert (above (Denom x) (y :: b)) as Hxb by (constructor; [done|by eapply above_trans]).
    destruct (IH a (y :: b)) as (s & -> & Hsum); [simpl; lia|done|done| |].
    { apply (rest_fits _ _ _ _ (Denom x) Hok).
      - by rewrite (amt_above _ a), (amt_above _ (y :: b)).
      - intros d Hd. by rewrite (amt_cons_ne x). }
    cbn [mbind res_bind]. eexists. split; [done|]. eapply sum_step; [exact Hsum|done|done|..].
    + intros d. destruct (decide (Denom x = d)) as [<-|Hd].
      * rewrite amt_cons_eq, (amt_above _ (y :: b)), bool_decide_eq_true_2 by done. lia.
      * by rewrite (amt_cons_ne x), bool_decide_eq_false_2 by done.
    + intros P. rewrite (on_denoms_cons P x). tauto.
  - assert (above (Denom y) (x :: a)) as Hya by (constructor; [done|by eapply above_trans]).
    destruct (IH (x :: a) b) as (s & -> & Hsum); [simpl; lia|done|done| |].
    { apply (rest_fits _ _ _ _ (Denom y) Hok).
      - by rewrite (amt_above _ b), (amt_above _ (x :: a)).
      - intros d Hd. by rewrite (amt_cons_ne y). }
    cbn [mbind res_bind]. eexists. split; [done|]. eapply sum_step; [exact Hsum|done|done|..].
    + intros d. destruct (decide (Denom y = d)) as [<-|Hd].
      * rewrite amt_cons_eq, (amt_above _ (x :: a)), bool_decide_eq_true_2 by done. lia.
      * by rewrite (amt_cons_ne y), bool_decide_eq_false_2 by done.
    + intros P. rewrite (on_denoms_cons P y). tauto.
Qed.

Lemma sorted_isSorted l : sorted l → isSorted l = true.
Proof.
  induction l as [|a [|b l] IH]; [done|done|]. rewrite sorted_cons. intros [Hs Ha]. cbn [isSorted].
  apply Forall_cons_1 in Ha as [Ha _]. unfold dlt in Ha. rewrite decide_False by congruence. by apply IH.
Qed.

Lemma safeAdd_sum a b :
  sorted a → sorted b → (∀ d, Int_ok (amt a d + amt b d) = true) →
  ∃ s, safeAdd a b = Ok s ∧ sum_of a b s.
Proof.
  intros Ha Hb Hok. unfold safeAdd. rewrite !sorted_isSorted by done. cbn [negb]. by eapply add_loop_sum.
Qed.

(** The sum of two valid sets of coins is a valid set, and its amount of
    every denomination is the sum of the amounts; nothing panics as long as each
    of these sums fits an integer. *)
Theorem add_is_pointwise a b :
  Validate a = Ok tt → Validate b = Ok tt → (∀ d, Int_ok (amt a d + amt b d) = true) →
  ∃ s, Add a b = Ok s ∧ Validate s = Ok tt ∧ (∀ d, amt s d = amt a d + amt b d).
Proof.
  rewrite !Validate_valid. intros (Ha & Hda & Hpa) (Hb & Hdb & Hpb) Hok.
  destruct (safeAdd_sum a b Ha Hb Hok) as (s & E & Hs & Hn & Hamt & HP). exists s.
  rewrite Validate_valid. split; [done|]. split; [|done]. split_and!; [done|by apply (HP good_denom)|].
  apply positive_amts; [done|done|]. intros d. rewrite Hamt.
  pose proof (amt_nonneg a d Hpa). pose proof (amt_nonneg b d Hpb). lia.
Qed.

Lemma amt_elem l c : sorted l → c ∈ l → amt l (Denom c) = Amount c.
Proof.
  induction l as [|x l IH]; intros Hs Hin; [by apply elem_of_nil in Hin|].
  apply sorted_cons in Hs as [Hs Ha]. apply elem_of_cons in Hin as [->|Hin]; [apply amt_cons_eq|].
  rewrite amt_cons_ne; [by apply IH|]. intros E. unfold above in Ha. rewrite Forall_lookup in Ha.
  apply list_elem_of_lookup in Hin as [k Hk]. specialize (Ha k c Hk). cbn in Ha. rewrite E in Ha.
  by apply dlt_irrefl in Ha.
Qed.

(** ** Subtraction *)

Lemma negative_facts l :
  (sorted l → sorted (negative l)) ∧ (∀ d, amt (negative l) d = - amt l d)
  ∧ (∀ P, on_denoms P l → on_denoms P (negative l)).
Proof.
  assert (∀ P l, on_denoms P l → on_denoms P (negative l)) as HP
    by (intros P l'; induction 1; cbn; constructor; done).
  split_and!; [|induction l as [|c l IH]; intros d; cbn; [done|by case_bool_decide]|intros P; apply HP].
  induction l as [|c l IH]; [done|]. rewrite sorted_cons. intros [Hs Ha]. cbn.
  apply sorted_cons. split; [by apply IH|]. by apply (HP (dlt (Denom c))).
Qed.

Lemma any_negative_amt l :
  sorted l → IsAnyNegative l = false ↔ ∀ d, 0 ≤ amt l d.
Proof.
  unfold IsAnyNegative. induction l as [|c l IH]; [done|]. rewrite sorted_cons. intros [Hs Ha]. cbn [existsb].
  rewrite orb_false_iff, IH by done. unfold IsNegative. rewrite bool_decide_eq_false. split.
  - intros [Hc Hl] d. cbn. case_bool_decide; [lia|apply Hl].
  - intros H. split; [pose proof (H (Denom c)) as Hc; rewrite amt_cons_eq in Hc; lia|].
    intros d. destruct (decide (Denom c = d)) as [<-|Hd]; [by rewrite amt_above|].
    rewrite <- (amt_cons_ne c l d Hd). apply H.
Qed.

(** Amounts that exist are representable. *)
Definition representable (l : Coins) : Prop := ∀ d, Int_ok (amt l d) = true.

Lemma safeSub_diff a b :
  valid a → valid b → representable a → representable b →
  ∃ s, SafeSub a b = Ok (s, IsAnyNegative s) ∧ sorted s ∧ nonzero s
    ∧ (∀ d, amt s d = amt a d - amt b d) ∧ on_denoms good_denom s.
Proof.
  intros (Ha & Hda & Hpa) (Hb & Hdb & Hpb) Hra Hrb. destruct (negative_facts b) as (Hs & Hamt & HP).
  unfold SafeSub. destruct (safeAdd_sum a (negative b) Ha (Hs Hb)) as (s & -> & Hss & Hn & Hsum & Hden).
  { intros d. rewrite Hamt. pose proof (amt_nonneg a d Hpa). pose proof (amt_nonneg b d Hpb).
    destruct (Z.le_ge_cases (amt a d) (amt b d)).
    - apply (Int_ok_mono _ (amt b d)); [lia|apply Hrb].
    - apply (Int_ok_mono _ (amt a d)); [lia|apply Hra]. }
  cbn [mbind res_bind]. exists s. split_and!; [done|done|done| |].
  - intros d. rewrite Hsum, Hamt. lia.
  - apply Hden; [done|by apply HP].
Qed.

Lemma Sub_cases a b :
  valid a → valid b → representable a → representable b →
  (∃ s, Sub a b = Ok s ∧ valid s ∧ (∀ d, amt s d = amt a d - amt b d))
  ∨ (∃ d, amt a d < amt b d) ∧ Sub a b = Panic "negative coin amount".
Proof.
  intros Ha Hb Hra Hrb. destruct (safeSub_diff a b Ha Hb Hra Hrb) as (s & E & Hs & Hn & Hamt & Hd).
  unfold Sub. rewrite E. cbn [mbind res_bind]. destruct (IsAnyNegative s) eqn:En.
  - right. split; [|done]. unfold IsAnyNegative in En. apply existsb_exists in En as (c & Hin & Hc).
    apply list_elem_of_In in Hin. unfold IsNegative in Hc. apply bool_decide_eq_true in Hc.
    exists (Denom c). specialize (Hamt (Denom c)). enough (amt s (Denom c) = Amount c) by lia.
    by apply amt_elem.
  - left. exists s. split; [done|]. split; [|done]. split_and!; [done|done|].
    apply positive_amts; [done|done|]. by apply any_negative_amt.
Qed.

(** [Sub] of valid sets either gives a valid set whose amounts are the
    differences, or panics, and it panics exactly when some amount to take away
    is larger than what there is. *)
Theorem sub_is_pointwise a b :
  Validate a = Ok tt → Validate b = Ok tt → representable a → representable b →
  (∃ s, Sub a b = Ok s ∧ Validate s = Ok tt ∧ (∀ d, amt s d = amt a d - amt b d))
  ∨ (∃ d, amt a d < amt b d) ∧ Sub a b = Panic "negative coin amount".
Proof.
  rewrite !Validate_valid. intros Ha Hb Hra Hrb.
  destruct (Sub_cases a b Ha Hb Hra Hrb) as [(s & E & Hv & H)|H]; [|by right].
  left. exists s. by rewrite Validate_valid.
Qed.

(** What was added can be taken away again: [a.Add(b).Sub(b)] is [a], the
    same list and not only the same amounts. *)
Theorem add_sub_roundtrip a b :
  Validate a = Ok tt → Validate b = Ok tt → representable a → representable b →
  (∀ d, Int_ok (amt a d + amt b d) = true) → ∃ s, Add a b = Ok s ∧ Sub s b = Ok a.
Proof.
  rewrite !Validate_valid. intros Ha Hb Hra Hrb Hok.
  destruct (safeAdd_sum a b (proj1 Ha) (proj1 Hb) Hok) as (s & E & Hs & Hn & Hamt & HP).
  exists s. split; [exact E|].
  assert (valid s) as Hv.
  { destruct Ha as (_ & Hda & Hpa), Hb as (_ & Hdb & Hpb).
    split_and!; [done|by apply (HP good_denom)|]. apply positive_amts; [done|done|]. intros d. rewrite Hamt.
    pose proof (amt_nonneg a d Hpa). pose proof (amt_nonneg b d Hpb). lia. }
  destruct (Sub_cases s b Hv Hb) as [(r & -> & Hr & H)|[[d Hd] _]]; [intros d; by rewrite Hamt|done|..].
  - f_equal. apply canonical_unique; [apply Hr|by apply valid_nonzero|apply Ha|by apply valid_nonzero|].
    intros d. rewrite H, Hamt. lia.
  - exfalso. rewrite Hamt in Hd. pose proof (amt_nonneg a d ltac:(apply Ha)). lia.
Qed.

(** ** Comparison *)

Lemma all_coins_ok f l :
  (∀ c, c ∈ l → is_Some (match f c with Ok b => Some b | _ => None end)) →
  ∃ b, all_coins f l = Ok b ∧ (b = true ↔ ∀ c, c ∈ l → f c = Ok true).
Proof.
  induction l as [|c l IH]; intros H; cbn.
  { exists true. split; [done|]. split; [|done]. intros _ c Hc. by apply elem_of_nil in Hc. }
  destruct (H c) as [b Hb]; [by left|]. destruct (f c) as [b'| |] eqn:E; try done. cbn [mbind res_bind].
  destruct b'.
  - destruct IH as (b2 & -> & Hb2); [intros; apply H; by right|]. exists b2. split; [done|]. rewrite Hb2.
    setoid_rewrite elem_of_cons. split; [|auto]. intros Hl c' [->|?]; auto.
  - exists false. split; [done|]. split; [done|]. intros Hc. specialize (Hc c ltac:(by left)). congruence.
Qed.

Lemma AmountOf_amt l d : sorted l → good_denom d → AmountOf l d = Ok (amt l d).
Proof.
  intros Hs Hd. unfold AmountOf. rewrite Hd. f_equal. by apply amount_search_amt.
Qed.

Lemma amt_absent l d : (∀ c, c ∈ l → Denom c ≠ d) → amt l d = 0.
Proof.
  induction l as [|x l IH]; intros H; cbn; [done|]. rewrite bool_decide_eq_false_2 by (apply H; by left).
  apply IH. intros c Hc. apply H. by right.
Qed.

Lemma valid_elem l c : valid l → c ∈ l → good_denom (Denom c) ∧ 0 < Amount c.
Proof.
  intros (_ & Hd & Hp) [k Hk]%list_elem_of_lookup. rewrite Forall_lookup in Hd, Hp.
  split; [exact (Hd k c Hk)|exact (Hp k c Hk)].
Qed.

Lemma IsAllGTE_amt a b :
  valid a → valid b → ∃ r, IsAllGTE a b = Ok r ∧ (r = true ↔ ∀ d, amt b d ≤ amt a d).
Proof.
  intros Ha Hb. unfold IsAllGTE. case_bool_decide as Eb.
  { exists true. split; [done|]. split; [|done]. intros _ d. subst b. cbn. apply amt_nonneg, Ha. }
  case_bool_decide as Ea.
  { exists false. split; [done|]. split; [done|]. intros H. destruct b as [|c b]; [done|].
    destruct (valid_elem _ c Hb) as [_ Hc]; [by left|]. specialize (H (Denom c)).
    rewrite amt_cons_eq, Ea in H. cbn in H. lia. }
  assert (∀ c, c ∈ b → (amt ← AmountOf a (Denom c); Ok (negb (bool_decide (amt < Amount c))))
                      = Ok (negb (bool_decide (amt a (Denom c) < Amount c)))) as Ht.
  { intros c Hc. destruct (valid_elem b c Hb Hc). by rewrite AmountOf_amt by (done || apply Ha). }
  edestruct all_coins_ok as (r & E & Hr); [|exists r; split; [exact E|]].
  { intros c Hc. cbn. rewrite Ht by done. by eexists. }
  rewrite Hr. split.
  - intros H d. destruct (decide (amt b d = 0)) as [->|Hz]; [apply amt_nonneg, Ha|].
    assert (∃ c, c ∈ b ∧ Denom c = d) as (c & Hc & <-).
    { destruct (decide (Exists (fun c => Denom c = d) b)) as [He|He].
      - apply Exists_exists in He as (c & Hc & Hd). exists c. by rewrite list_elem_of_In.
      - exfalso. apply Hz, amt_absent. intros c Hc Hd. apply He, Exists_exists. exists c.
        by rewrite <- list_elem_of_In. }
    specialize (H c Hc). rewrite Ht in H by done. injection H as H.
    rewrite (amt_elem b c) by (done || apply Hb). apply negb_true_iff, bool_decide_eq_false in H. lia.
  - intros H c Hc. rewrite Ht by done. f_equal. apply negb_true_iff, bool_decide_eq_false.
    specialize (H (Denom c)). rewrite (amt_elem b c) in H by (done || apply Hb). lia.
Qed.

(** [IsAllGTE] decides, by one binary search for each coin of its argument,
    whether every denomination has at least the amount of the argument; on
    valid sets it never panics, and [IsAllLTE] is its converse. *)
Theorem is_all_gte_is_pointwise a b :
  Validate a = Ok tt → Validate b = Ok tt →
  ∃ r, IsAllGTE a b = Ok r ∧ IsAllLTE b a = Ok r ∧ (r = true ↔ ∀ d, amt b d ≤ amt a d).
Proof.
  rewrite !Validate_valid. intros Ha Hb. destruct (IsAllGTE_amt a b Ha Hb) as (r & E & Hr). by exists r.
Qed.

(** ** Maximum and minimum *)

(** A merge result: canonical, with the given amounts. *)
Definition merges (a b s : Coins) (f : Z → Z → Z) : Prop :=
  sorted s ∧ (∀ d, amt s d = f (amt a d) (amt b d)) ∧ (∀ P, on_denoms P a → on_denoms P b → on_denoms P s).

Lemma max_loop_cons x a y b :
  max_loop (x :: a) (y :: b)
  = match String.compare (Denom x) (Denom y) with
    | Lt => x :: max_loop a (y :: b)
    | Eq => (if bool_decide (Amount x < Amount y) then y else x) :: max_loop a b
    | Gt => y :: max_loop (x :: a) b
    end.
Proof. done. Qed.

Lemma min_loop_cons x a y b :
  min_loop (x :: a) (y :: b)
  = match String.compare (Denom x) (Denom y) with
    | Lt => min_loop a (y :: b)
    | Eq => let c := if bool_decide (Amount y < Amount x) then y else x in
            if IsZero c then min_loop a b else c :: min_loop a b
    | Gt => min_loop (x :: a) b
    end.
Proof. done. Qed.

(** One step of a merge that keeps the coin [r]. *)
Lemma merge_push f a b a' b' r s :
  merges a' b' s f → above (Denom r) a' → above (Denom r) b' →
  (∀ d, f (amt a d) (amt b d) = if bool_decide (Denom r = d) then Amount r else f (amt a' d) (amt b' d)) →
  (∀ P, on_denoms P a → on_denoms P b → P (Denom r) ∧ on_denoms P a' ∧ on_denoms P b') →
  merges a b (r :: s) f.
Proof.
  intros (Hs & Hamt & HP) Ha Hb E Hden. split_and!.
  - apply sorted_cons. split; [done|]. by apply (HP (dlt (Denom r))).
  - intros d. rewrite E. cbn. case_bool_decide; [done|apply Hamt].
  - intros P HPa HPb. destruct (Hden P HPa HPb) as (? & ? & ?). constructor; [done|by apply HP].
Qed.

Lemma max_loop_merges n a b :
  (length a + length b ≤ n)%nat → sorted a → sorted b →
  Forall (fun c => 0 < Amount c) a → Forall (fun c => 0 < Amount c) b → merges a b (max_loop a b) Z.max.
Proof.
  assert (∀ l, Forall (fun c => 0 < Amount c) l → sorted l → merges l [] l Z.max ∧ merges [] l l Z.max) as Hnil.
  { intros l Hp Hs. split; (split_and!; [done| |by intros]); intros d; pose proof (amt_nonneg l d Hp); cbn; lia. }
  revert a b. induction n as [|n IH]; intros a b Hn Ha Hb Hpa Hpb.
  { destruct a, b; simpl in Hn; try lia. by apply Hnil. }
  destruct a as [|x a]; [destruct b; by apply Hnil|]. destruct b as [|y b]; [by apply Hnil|].
  rewrite max_loop_cons. pose proof Ha as [Hsa Haa]%sorted_cons. pose proof Hb as [Hsb Hab]%sorted_cons.
  pose proof Hpa as [Hx Hpa']%Forall_cons_1. pose proof Hpb as [Hy Hpb']%Forall_cons_1.
  simpl in Hn. pose proof (compare_cases (Denom x) (Denom y)) as Hc. destruct (String.compare _ _).
  - set (r := if bool_decide (Amount x < Amount y) then y else x).
    assert (Denom r = Denom x ∧ Denom r = Denom y) as [E1 E2] by (unfold r; by case_bool_decide).
    eapply merge_push; [apply (IH a b); try done; lia|by rewrite E1|by rewrite E2|..].
    + intros d. cbn. rewrite E1, <- Hc. case_bool_decide; [|done]. unfold r. case_bool_decide; lia.
    + intros P. rewrite !on_denoms_cons, E1. tauto.
  - assert (above (Denom x) (y :: b)) as Hxb by (constructor; [done|by eapply above_trans]).
    eapply merge_push; [apply (IH a (y :: b)); try done; simpl; lia|done|done|..].
    + intros d. destruct (decide (Denom x = d)) as [<-|Hd].
      * rewrite amt_cons_eq, (amt_above _ (y :: b)), bool_decide_eq_true_2 by done. lia.
      * by rewrite (amt_cons_ne x), bool_decide_eq_false_2 by done.
    + intros P. rewrite (on_denoms_cons P x). tauto.
  - assert (above (Denom y) (x :: a)) as Hya by (constructor; [done|by eapply above_trans]).
    eapply merge_push; [apply (IH (x :: a) b); try done; simpl; lia|done|done|..].
    + intros d. destruct (decide (Denom y = d)) as [<-|Hd].
      * rewrite amt_cons_eq, (amt_above _ (x :: a)), bool_decide_eq_true_2 by done. lia.
      * by rewrite (amt_cons_ne y), bool_decide_eq_false_2 by done.
    + intros P. rewrite (on_denoms_cons P y). tauto.
Qed.

Lemma merge_skip f a b a' b' s :
  merges a' b' s f → (∀ d, f (amt a d) (amt b d) = f (amt a' d) (amt b' d)) →
  (∀ P, on_denoms P a → on_denoms P b → on_denoms P a' ∧ on_denoms P b') → merges a b s f.
Proof.
  intros (Hs & Hamt & HP) E Hden. split_and!; [done|intros d; by rewrite E|].
  intros P HPa HPb. destruct (Hden P HPa HPb). by apply HP.
Qed.

Lemma min_loop_merges n a b :
  (length a + length b ≤ n)%nat → sorted a → sorted b →
  Forall (fun c => 0 < Amount c) a → Forall (fun c => 0 < Amount c) b → merges a b (min_loop a b) Z.min.
Proof.
  assert (∀ l, Forall (fun c => 0 < Amount c) l → merges l [] [] Z.min ∧ merges [] l [] Z.min) as Hnil.
  { intros l Hp. split; (split_and!; [constructor| |intros; constructor]); intros d;
      pose proof (amt_nonneg l d Hp); cbn; lia. }
  revert a b. induction n as [|n IH]; intros a b Hn Ha Hb Hpa Hpb.
  { destruct a, b; simpl in Hn; try lia. by apply (Hnil []). }
  destruct a as [|x a]; [destruct b; by apply Hnil|]. destruct b as [|y b]; [by apply Hnil|].
  rewrite min_loop_cons. pose proof Ha as [Hsa Haa]%sorted_cons. pose proof Hb as [Hsb Hab]%sorted_cons.
  pose proof Hpa as [Hx Hpa']%Forall_cons_1. pose proof Hpb as [Hy Hpb']%Forall_cons_1.
  simpl in Hn. pose proof (compare_cases (Denom x) (Denom y)) as Hc. destruct (String.compare _ _).
  - cbv zeta. set (r := if bool_decide (Amount y < Amount x) then y else x).
    assert (Denom r = Denom x ∧ Denom r = Denom y ∧ 0 < Amount r) as (E1 & E2 & Hr)
      by (unfold r; by case_bool_decide).
    unfold IsZero. rewrite bool_decide_eq_false_2 by lia.
    eapply merge_push; [apply (IH a b); try done; lia|by rewrite E1|by rewrite E2|..].
    + intros d. cbn. rewrite E1, <- Hc. case_bool_decide; [|done]. unfold r. case_bool_decide; lia.
    + intros P. rewrite !on_denoms_cons, E1. tauto.
  - assert (above (Denom x) (y :: b)) as Hxb by (constructor; [done|by eapply above_trans]).
    eapply merge_skip; [apply (IH a (y :: b)); try done; simpl; lia|..].
    + intros d. destruct (decide (Denom x = d)) as [<-|Hd].
      * rewrite amt_cons_eq, (amt_above _ (y :: b)), (amt_above _ a) by done. lia.
      * by rewrite (amt_cons_ne x) by done.
    + intros P. rewrite (on_denoms_cons P x). tauto.
  - assert (above (Denom y) (x :: a)) as Hya by (constructor; [done|by eapply above_trans]).
    eapply merge_skip; [apply (IH (x :: a) b); try done; simpl; lia|..].
    + intros d. destruct (decide (Denom y = d)) as [<-|Hd].
      * rewrite amt_cons_eq, (amt_above _ (x :: a)), (amt_above _ b) by done. lia.
      * by rewrite (amt_cons_ne y) by done.
    + intros P. rewrite (on_denoms_cons P y). tauto.
Qed.

(** The merges only keep coins of their arguments. *)
Lemma max_loop_positive a b :
  Forall (fun c => 0 < Amount c) a → Forall (fun c => 0 < Amount c) b →
  Forall (fun c => 0 < Amount c) (max_loop a b).
Proof.
  intros Ha. revert b. induction Ha as [|x a Hx Ha IH]; intros b Hb; [by destruct b|].
  induction Hb as [|y b Hy Hb IHb]; [by constructor|]. rewrite max_loop_cons.
  destruct (String.compare _ _); constructor; auto. by case_bool_decide.
Qed.

Lemma min_loop_positive a b :
  Forall (fun c => 0 < Amount c) a → Forall (fun c => 0 < Amount c) b →
  Forall (fun c => 0 < Amount c) (min_loop a b).
Proof.
  intros Ha. revert b. induction Ha as [|x a Hx Ha IH]; intros b Hb; [by destruct b; constructor|].
  induction Hb as [|y b Hy Hb IHb]; [constructor|]. rewrite min_loop_cons.
  destruct (String.compare _ _); auto. cbv zeta.
  destruct (IsZero _); [auto|]. constructor; [by case_bool_decide|auto].
Qed.

(** [sort.Sort] permutes into ascending order, nothing more. *)
Context (Sort : Coins → Coins) (Sort_perm : ∀ l, Sort l ≡ₚ l).
Context (Sort_sorted : ∀ l, StronglySorted (fun a b => ¬ dlt (Denom b) (Denom a)) (Sort l)).

Lemma sorted_perm_eq l l' :
  l' ≡ₚ l → sorted l → StronglySorted (fun a b => ¬ dlt (Denom b) (Denom a)) l' → l' = l.
Proof.
  revert l'. induction l as [|x t IH]; intros l' Hp Hs Hs'.
  { by apply Permutation_nil_r in Hp. }
  destruct l' as [|y t']; [by apply Permutation_nil_l in Hp|].
  apply sorted_cons in Hs as [Hs Ha]. apply StronglySorted_inv in Hs' as [Hs' Hy].
  assert (y = x) as ->.
  { assert (y ∈ x :: t) as Hyin by (rewrite <- Hp; by left).
    assert (x ∈ y :: t') as Hxin by (rewrite Hp; by left).
    apply elem_of_cons in Hyin as [|Hyin]; [done|]. apply elem_of_cons in Hxin as [|Hxin]; [done|]. exfalso.
    apply list_elem_of_lookup in Hyin as [k Hk], Hxin as [j Hj]. unfold above in Ha.
    rewrite Forall_lookup in Ha, Hy. exact (Hy j x Hj (Ha k y Hk)). }
  f_equal. apply IH; [|done|done]. by apply Permutation_cons_inv in Hp.
Qed.

Lemma NewCoins_valid l : valid l → NewCoins Sort l = Ok l.
Proof.
  intros Hv. unfold NewCoins, sanitizeCoins.
  assert (removeZeroCoins l = l) as ->.
  { destruct (sorted_removeZero l (proj1 Hv)). apply canonical_unique; try done; [apply Hv|by apply valid_nonzero|].
    intros d. by apply amt_removeZero, Hv. }
  pose proof Hv as Hval%Validate_valid. destruct l as [|c l]; [by rewrite Hval|].
  rewrite (sorted_perm_eq (c :: l) (Sort (c :: l))) by (apply Sort_perm || apply Hv || apply Sort_sorted). by rewrite Hval.
Qed.

(** [Max] and [Min] of valid sets are the valid sets of the larger and the
    smaller amounts, and together they hold what the two sets hold:
    [a.Min(b).Add(a.Max(b))] is [a.Add(b)]. *)
Theorem min_max_are_pointwise a b :
  Validate a = Ok tt → Validate b = Ok tt → (∀ d, Int_ok (amt a d + amt b d) = true) →
  ∃ lo hi, Min Sort a b = Ok lo ∧ Max Sort a b = Ok hi
    ∧ Validate lo = Ok tt ∧ Validate hi = Ok tt
    ∧ (∀ d, amt lo d = Z.min (amt a d) (amt b d)) ∧ (∀ d, amt hi d = Z.max (amt a d) (amt b d))
    ∧ Add lo hi = Add a b.
Proof.
  rewrite !Validate_valid. intros Ha Hb Hok. pose proof Ha as (Hsa & Hda & Hpa). pose proof Hb as (Hsb & Hdb & Hpb).
  destruct (min_loop_merges _ a b (Nat.le_refl _) Hsa Hsb Hpa Hpb) as (Hs1 & H1 & HP1).
  destruct (max_loop_merges _ a b (Nat.le_refl _) Hsa Hsb Hpa Hpb) as (Hs2 & H2 & HP2).
  assert (∀ l, Forall (fun c => 0 < Amount c) l → ∀ d, 0 ≤ amt l d) as Hnn by (intros; by apply amt_nonneg).
  assert (valid (max_loop a b)) as V2.
  { split_and!; [done|by apply (HP2 good_denom)|]. by apply max_loop_positive. }
  assert (valid (min_loop a b)) as V1.
  { split_and!; [done|by apply (HP1 good_denom)|]. by apply min_loop_positive. }
  exists (min_loop a b), (max_loop a b). unfold Min, Max. rewrite !NewCoins_valid, !Validate_valid by done.
  split_and!; try done. unfold Add.
  destruct (safeAdd_sum a b Hsa Hsb Hok) as (s & -> & Hs & Hn & Hamt & _).
  destruct (safeAdd_sum (min_loop a b) (max_loop a b) Hs1 Hs2) as (s' & -> & Hs' & Hn' & Hamt' & _).
  { intros d. rewrite H1, H2. replace (_ + _) with (amt a d + amt b d) by lia. apply Hok. }
  f_equal. apply canonical_unique; try done. intros d. rewrite Hamt, Hamt', H1, H2. lia.
Qed.

End CoinOps.

(** ** Concrete coins *)

Module CoinsDemo.

(** [sdkmath.Int] holds 256 bits. *)
Definition int256 : SdkInt := {| Int_ok := fun z => bool_decide (Z.abs z < 2 ^ 256) |}.

Lemma int256_laws : SdkIntLaws int256.
Proof. split. intros x y H. cbn. rewrite !bool_decide_eq_true. lia. Qed.

Definition a : Coins := [mkCoin "ustos" 5; mkCoin "wei" 7].
Definition b : Coins := [mkCoin "gwei" 2; mkCoin "wei" 3].

Lemma amt_bound l d : Forall (fun c => 0 ≤ Amount c < 100) l → 0 ≤ amt l d < 100.
Proof. induction 1; cbn; [lia|]. by case_bool_decide. Qed.

Lemma bound_a d : 0 ≤ amt a d < 100.
Proof. apply amt_bound. repeat constructor; cbn; lia. Qed.
Lemma bound_b d : 0 ≤ amt b d < 100.
Proof. apply amt_bound. repeat constructor; cbn; lia. Qed.

Lemma small_ok z : 0 ≤ z < 200 → @Int_ok int256 z = true.
Proof. intros H. cbn. apply bool_decide_eq_true. lia. Qed.

Lemma repr_a : @representable int256 a.
Proof. intros d. pose proof (bound_a d). apply small_ok. lia. Qed.
Lemma repr_b : @representable int256 b.
Proof. intros d. pose proof (bound_b d). apply small_ok. lia. Qed.
Lemma fits_ab d : @Int_ok int256 (amt a d + amt b d) = true.
Proof. pose proof (bound_a d). pose proof (bound_b d). apply small_ok. lia. Qed.

Lemma add_is_pointwise_witness :
  ∃ s, @Add int256 a b = Ok s ∧ Validate s = Ok tt ∧ (∀ d, amt s d = amt a d + amt b d).
Proof. apply (@add_is_pointwise int256 int256_laws); [reflexivity|reflexivity|apply fits_ab]. Defined.

Lemma sub_is_pointwise_witness :
  (∃ s, @Sub int256 a b = Ok s ∧ Validate s = Ok tt ∧ (∀ d, amt s d = amt a d - amt b d))
  ∨ (∃ d, amt a d < amt b d) ∧ @Sub int256 a b = Panic "negative coin amount".
Proof.
  apply (@sub_is_pointwise int256 int256_laws); [reflexivity|reflexivity|apply repr_a|apply repr_b].
Defined.

Lemma add_sub_roundtrip_witness : ∃ s, @Add int256 a b = Ok s ∧ @Sub int256 s b = Ok a.
Proof.
  apply (@add_sub_roundtrip int256 int256_laws); [reflexivity|reflexivity|apply repr_a|apply repr_b|apply fits_ab].
Defined.

Lemma is_all_gte_is_pointwise_witness :
  ∃ r, IsAllGTE a b = Ok r ∧ IsAllLTE b a = Ok r ∧ (r = true ↔ ∀ d, amt b d ≤ amt a d).
Proof. apply is_all_gte_is_pointwise; reflexivity. Defined.

(** Insertion sort by denomination. *)
Fixpoint insert_coin (c : Coin) (l : Coins) : Coins :=
  match l with
  | [] => [c]
  | x :: l => if decide (dlt (Denom x) (Denom c)) then x :: insert_coin c l else c :: x :: l
  end.
Definition sort_coins (l : Coins) : Coins := foldr insert_coin [] l.

Lemma insert_coin_perm c l : insert_coin c l ≡ₚ c :: l.
Proof.
  induction l as [|x l IH]; cbn; [done|]. case_decide; [|done]. rewrite IH. constructor.
Qed.

Lemma sort_coins_perm l : sort_coins l ≡ₚ l.
Proof. induction l as [|x l IH]; cbn; [done|]. by rewrite insert_coin_perm, IH. Qed.

Lemma insert_coin_sorted c l :
  StronglySorted (fun a b => ¬ dlt (Denom b) (Denom a)) l →
  StronglySorted (fun a b => ¬ dlt (Denom b) (Denom a)) (insert_coin c l).
Proof.
  induction 1 as [|x l Hs IH Hx]; cbn; [repeat constructor|]. case_decide as Hc.
  - constructor; [done|]. rewrite insert_coin_perm. constructor; [|done].
    intros H. apply (dlt_irrefl (Denom x)). by eapply dlt_trans.
  - constructor; [by constructor|]. constructor; [done|]. rewrite Forall_lookup in Hx |- *.
    intros i y Hy Hlt. apply (Hx i y Hy).
    pose proof (compare_cases (Denom x) (Denom c)) as H. destruct (String.compare _ _).
    + by rewrite H.
    + done.
    + by eapply dlt_trans.
Qed.

Lemma sort_coins_sorted l : StronglySorted (fun a b => ¬ dlt (Denom b) (Denom a)) (sort_coins l).
Proof. induction l as [|x l IH]; cbn; [constructor|]. by apply insert_coin_sorted. Qed.

Lemma min_max_are_pointwise_witness :
  ∃ lo hi, Min sort_coins a b = Ok lo ∧ Max sort_coins a b = Ok hi
    ∧ Validate lo = Ok tt ∧ Validate hi = Ok tt
    ∧ (∀ d, amt lo d = Z.min (amt a d) (amt b d)) ∧ (∀ d, amt hi d = Z.max (amt a d) (amt b d))
    ∧ @Add int256 lo hi = @Add int256 a b.
Proof.
  apply (@min_max_are_pointwise int256 int256_laws sort_coins sort_coins_perm sort_coins_sorted);
    [reflexivity|reflexivity|apply fits_ab].
Defined.

End CoinsDemo.
