(* ===== verification/DecCoins.v ===== *)
(** * DecCoins: decimal coins and denominations

    Models tx-client/types/dec_coin.go and denom.go, the parsing part of coin.go,
    and [RegisterDenoms] of cmd/common/common.go.  A decimal coin has an amount of
    type [sdkmath.LegacyDec], a count of 10^-18 with a bound on its size; what the
    code relies on of that module is the class [SdkDec] with its laws.  The sets of
    decimal coins are related to the sets of coins of [Coins] by [units], which
    counts a decimal amount in units of 10^-18.

    In-place sorting of the caller's slice is not modelled; strings are ASCII. *)
From Stdlib Require Import Sorting.Sorted.
From S2P Require Import Prelude Coins.

(** ** Decimals *)

(** [sdkmath.LegacyDec]: the amount 1 is 10^18 units. *)
Definition one : Z := 10 ^ 18.

(** The value of a string of digits. *)
Abbreviation chars := (list Ascii.ascii).
Definition char_code (c : Ascii.ascii) : Z := Z.of_nat (Ascii.nat_of_ascii c).
Definition is_digit (c : Ascii.ascii) : bool := bool_decide (48 ≤ char_code c ≤ 57).
Definition digits (l : chars) : Prop := Forall (fun c => is_digit c = true) l.
Definition digits_value (l : chars) : Z := foldl (fun v c => 10 * v + (char_code c - 48)) 0 l.

(** The amount written [int.frac], or [int] when [frac] is empty. *)
Definition dot : Ascii.ascii := Ascii.ascii_of_nat 46.
Definition comma : Ascii.ascii := Ascii.ascii_of_nat 44.
Definition amount_chars (int frac : chars) : chars := int ++ match frac with [] => [] | _ => dot :: frac end.
Definition amount_value (int frac : chars) : Z :=
  digits_value int * one + digits_value frac * 10 ^ (18 - zlen frac).

Definition str (l : chars) : string := String.string_of_list_ascii l.
Definition chr (s : string) : chars := String.list_ascii_of_string s.

(** What is used of [LegacyDec]: what fits, rounding products and quotients,
    reading and printing. *)
Class SdkDec := {
  Dec_ok : Z → bool;
  Dec_Mul : Z → Z → res Z;
  Dec_MulTruncate : Z → Z → res Z;
  Dec_Quo : Z → Z → res Z;
  Dec_QuoTruncate : Z → Z → res Z;
  LegacyNewDecFromStr : string → res Z;
  Dec_String : Z → string
}.

Class SdkDecLaws (SD : SdkDec) := {
  Dec_ok_mono x y : Z.abs x ≤ Z.abs y → Dec_ok y = true → Dec_ok x = true;
  Dec_Mul_rounds x y r : Dec_Mul x y = Ok r → 2 * Z.abs (one * r - x * y) ≤ one;
  Dec_Mul_fits x y : Dec_ok (x * y) = true → ∃ r, Dec_Mul x y = Ok r;
  Dec_Quo_exact x y q : y ≠ 0 → x * one = y * q → Dec_ok q = true → Dec_Quo x y = Ok q;
  FromStr_value int frac : digits int → digits frac → int ≠ [] → zlen frac ≤ 18 →
    Dec_ok (amount_value int frac) = true →
    LegacyNewDecFromStr (str (amount_chars int frac)) = Ok (amount_value int frac);
  String_value x : 0 ≤ x → ∃ int frac, Dec_String x = str (amount_chars int frac)
    ∧ digits int ∧ digits frac ∧ int ≠ [] ∧ zlen frac = 18 ∧ amount_value int frac = x
}.

(** ** Decimal coins *)

Record DecCoin := mkDec { dDenom : string; dAmount : Z }.
Abbreviation DecCoins := (list DecCoin).

#[global] Instance DecCoin_eq_dec : EqDecision DecCoin.
Proof. solve_decision. Defined.

(** The denominations that are registered, and the one of the smallest unit. *)
Record Denoms := mkDenoms { denomUnits : gmap string Z; baseDenom : string }.

Section DecCoins.
Context {SI : SdkInt} {SD : SdkDec}.

(** [Dec.Add], [Dec.Sub]; [Dec.TruncateInt], whose result is an [Int]. *)
Definition Dec_Add (a b : Z) : res Z := if Dec_ok (a + b) then Ok (a + b) else Panic "Int overflow".
Definition Dec_Sub (a b : Z) : res Z := if Dec_ok (a - b) then Ok (a - b) else Panic "Int overflow".
Definition TruncateInt (a : Z) : res Z :=
  let r := Z.quot a one in if Int_ok r then Ok r else Panic "NewIntFromBigInt() out of bound".
Definition ToLegacyDec (a : Z) : Z := a * one.

Definition mustValidateDenom (denom : string) : res unit :=
  if ValidateDenom denom then Ok tt else Panic "invalid denom".

Definition NewDecCoin (denom : string) (amount : Z) : res DecCoin :=
  coin ← NewCoin denom amount;
  Ok (mkDec (Denom coin) (ToLegacyDec (Amount coin))).

Definition NewDecCoinFromDec (denom : string) (amount : Z) : res DecCoin :=
  _ ← mustValidateDenom denom;
  if bool_decide (amount < 0) then Panic "negative decimal coin amount" else Ok (mkDec denom amount).

Definition NewDecCoinFromCoin (coin : Coin) : res DecCoin :=
  match Coin_Validate coin with
  | Ok _ => Ok (mkDec (Denom coin) (ToLegacyDec (Amount coin)))
  | Err e | Panic e => Panic e
  end.

Definition NewInt64DecCoin (denom : string) (amount : Z) : res DecCoin := NewDecCoin denom amount.

Definition dIsZero (c : DecCoin) : bool := bool_decide (dAmount c = 0).
Definition dIsPositive (c : DecCoin) : bool := bool_decide (dAmount c > 0).
Definition dIsNegative (c : DecCoin) : bool := bool_decide (dAmount c < 0).

Definition dsame_denom {A} (a b : DecCoin) (k : A) : res A :=
  if bool_decide (dDenom a = dDenom b) then Ok k else Panic "invalid coin denominations".

Definition DecCoin_IsGTE (a b : DecCoin) : res bool := dsame_denom a b (negb (bool_decide (dAmount a < dAmount b))).
Definition DecCoin_IsLT (a b : DecCoin) : res bool := dsame_denom a b (bool_decide (dAmount a < dAmount b)).
Definition DecCoin_IsEqual (a b : DecCoin) : res bool := dsame_denom a b (bool_decide (dAmount a = dAmount b)).

Definition DecCoin_Add (a b : DecCoin) : res DecCoin :=
  _ ← dsame_denom a b tt;
  s ← Dec_Add (dAmount a) (dAmount b); Ok (mkDec (dDenom a) s).

Definition DecCoin_Sub (a b : DecCoin) : res DecCoin :=
  _ ← dsame_denom a b tt;
  s ← Dec_Sub (dAmount a) (dAmount b);
  let r := mkDec (dDenom a) s in
  if dIsNegative r then Panic "negative decimal coin amount" else Ok r.

(** The whole part as a coin, and what is left. *)
Definition DecCoin_TruncateDecimal (c : DecCoin) : res (Coin * DecCoin) :=
  truncated ← TruncateInt (dAmount c);
  change ← Dec_Sub (dAmount c) (ToLegacyDec truncated);
  coin ← NewCoin (dDenom c) truncated;
  rest ← NewDecCoinFromDec (dDenom c) change;
  Ok (coin, rest).

Definition DecCoin_String (c : DecCoin) : chars := chr (Dec_String (dAmount c)) ++ chr (dDenom c).

Definition DecCoin_Validate (c : DecCoin) : res unit :=
  if negb (ValidateDenom (dDenom c)) then Err "invalid denom"
  else if dIsNegative c then Err "decimal coin amount cannot be negative" else Ok tt.

Definition DecCoin_IsValid (c : DecCoin) : bool := match DecCoin_Validate c with Ok _ => true | _ => false end.

(** ** Sets of decimal coins *)

Definition removeZeroDecCoins (coins : DecCoins) : DecCoins := filter (fun c => dIsZero c = false) coins.

Fixpoint dvalidate_rest (lowDenom : string) (seenDenoms : gset string) (coins : DecCoins) : res unit :=
  match coins with
  | [] => Ok tt
  | c :: coins =>
      if bool_decide (dDenom c ∈ seenDenoms) then Err "duplicate denomination"
      else if negb (ValidateDenom (dDenom c)) then Err "invalid denom"
      else if negb (bool_decide (dlt lowDenom (dDenom c))) then Err "denomination is not sorted"
      else if negb (dIsPositive c) then Err "amount is not positive"
      else dvalidate_rest (dDenom c) ({[dDenom c]} ∪ seenDenoms) coins
  end.

Definition dValidate (coins : DecCoins) : res unit :=
  match coins with
  | [] => Ok tt
  | c :: rest =>
      if negb (ValidateDenom (dDenom c)) then Err "invalid denom"
      else if negb (dIsPositive c) then Err "amount is not positive"
      else match rest with
           | [] => Ok tt
           | _ => dvalidate_rest (dDenom c) {[dDenom c]} rest
           end
  end.

Definition dIsValid (coins : DecCoins) : bool := match dValidate coins with Ok _ => true | _ => false end.

(** The merge of [safeAdd]; lists stand for the slices from the indices on. *)
Fixpoint dsafeAdd (a : DecCoins) : DecCoins → res DecCoins :=
  fix go (b : DecCoins) : res DecCoins :=
    match a, b with
    | [], [] => Ok []
    | [], _ => Ok (removeZeroDecCoins b)
    | _, [] => Ok (removeZeroDecCoins a)
    | coinA :: a', coinB :: b' =>
        match String.compare (dDenom coinA) (dDenom coinB) with
        | Lt => sum ← dsafeAdd a' b; Ok (if dIsZero coinA then sum else coinA :: sum)
        | Eq =>
            r ← DecCoin_Add coinA coinB;
            sum ← dsafeAdd a' b';
            Ok (if dIsZero r then sum else r :: sum)
        | Gt => sum ← go b'; Ok (if dIsZero coinB then sum else coinB :: sum)
        end
    end.

Definition dAdd (coins coinsB : DecCoins) : res DecCoins := dsafeAdd coins coinsB.
Definition dnegative (coins : DecCoins) : DecCoins := map (fun c => mkDec (dDenom c) (- dAmount c)) coins.
Definition dIsAnyNegative (coins : DecCoins) : bool := existsb dIsNegative coins.

Definition dSafeSub (coins coinsB : DecCoins) : res (DecCoins * bool) :=
  diff ← dsafeAdd coins (dnegative coinsB); Ok (diff, dIsAnyNegative diff).

Definition dSub (coins coinsB : DecCoins) : res DecCoins :=
  '(diff, hasNeg) ← dSafeSub coins coinsB;
  if (hasNeg : bool) then Panic "negative coin amount" else Ok diff.

(** The loop of [TruncateDecimal]. *)
Fixpoint truncate_loop (coins : DecCoins) (truncatedCoins : Coins) (changeCoins : DecCoins) : res (Coins * DecCoins) :=
  match coins with
  | [] => Ok (truncatedCoins, changeCoins)
  | coin :: coins =>
      '(truncated, change) ← DecCoin_TruncateDecimal coin;
      truncatedCoins ← (if IsZero truncated then Ok truncatedCoins else Add truncatedCoins [truncated]);
      changeCoins ← (if dIsZero change then Ok changeCoins else dAdd changeCoins [change]);
      truncate_loop coins truncatedCoins changeCoins
  end.
Definition dTruncateDecimal (coins : DecCoins) : res (Coins * DecCoins) := truncate_loop coins [] [].

(** The loop that [MulDec], [MulDecTruncate], [QuoDec] and [QuoDecTruncate] share. *)
Fixpoint scale_loop (f : Z → res Z) (coins res : DecCoins) : Prelude.res DecCoins :=
  match coins with
  | [] => Ok res
  | coin :: coins =>
      amount ← f (dAmount coin);
      let product := mkDec (dDenom coin) amount in
      res ← (if dIsZero product then Ok res else dAdd res [product]);
      scale_loop f coins res
  end.
Definition MulDec (coins : DecCoins) (d : Z) : res DecCoins := scale_loop (fun a => Dec_Mul a d) coins [].
Definition MulDecTruncate (coins : DecCoins) (d : Z) : res DecCoins := scale_loop (fun a => Dec_MulTruncate a d) coins [].
Definition QuoDec (coins : DecCoins) (d : Z) : res DecCoins :=
  if bool_decide (d = 0) then Panic "invalid zero decimal" else scale_loop (fun a => Dec_Quo a d) coins [].
Definition QuoDecTruncate (coins : DecCoins) (d : Z) : res DecCoins :=
  if bool_decide (d = 0) then Panic "invalid zero decimal" else scale_loop (fun a => Dec_QuoTruncate a d) coins [].

(** [AmountOf] validates the denomination at every step of the binary search, so
    that the first step decides. *)
Fixpoint damount_search (fuel : nat) (coins : DecCoins) (denom : string) : res Z :=
  _ ← mustValidateDenom denom;
  match fuel with
  | O => Ok 0
  | S fuel =>
      match coins with
      | [] => Ok 0
      | [coin] => Ok (if bool_decide (dDenom coin = denom) then dAmount coin else 0)
      | _ =>
          let midIdx := Nat.div2 (length coins) in
          match coins !! midIdx with
          | None => Panic "index out of range"
          | Some coin =>
              match String.compare denom (dDenom coin) with
              | Lt => damount_search fuel (take midIdx coins) denom
              | Eq => Ok (dAmount coin)
              | Gt => damount_search fuel (drop (midIdx + 1) coins) denom
              end
          end
      end
  end.
Definition dAmountOf (coins : DecCoins) (denom : string) : res Z := damount_search (length coins) coins denom.

Fixpoint intersect_loop (coins coinsB : DecCoins) : res DecCoins :=
  match coins with
  | [] => Ok []
  | coin :: coins =>
      amount ← dAmountOf coinsB (dDenom coin);
      rest ← intersect_loop coins coinsB;
      Ok (mkDec (dDenom coin) (Z.min (dAmount coin) amount) :: rest)
  end.
Definition Intersect (coins coinsB : DecCoins) : res DecCoins :=
  res ← intersect_loop coins coinsB; Ok (removeZeroDecCoins res).

Definition dEmpty (coins : DecCoins) : bool := bool_decide (coins = []).
Definition DecCoins_IsZero (coins : DecCoins) : bool := forallb dIsZero coins.
Definition dIsAllPositive (coins : DecCoins) : bool := negb (dEmpty coins) && forallb dIsPositive coins.

Definition DecCoins_String (coins : DecCoins) : chars :=
  match coins with
  | [] => []
  | _ =>
      let out := concat (map (fun coin => DecCoin_String coin ++ [comma]) coins) in
      take (length out - 1) out
  end.

(** [sort.Sort] on the denominations, which is not stable: a parameter. *)
Section Sorting.
Context (Sort : Coins → Coins) (DSort : DecCoins → DecCoins).

Definition sanitizeDecCoins (coins : DecCoins) : DecCoins :=
  match removeZeroDecCoins coins with [] => [] | newCoins => DSort newCoins end.

Definition NewDecCoins (coins : DecCoins) : res DecCoins :=
  let newCoins := sanitizeDecCoins coins in
  match dValidate newCoins with Ok _ => Ok newCoins | _ => Panic "invalid coin set" end.

(** The slots of the slice of [NewDecCoinsFromCoins], made with the length of the
    argument and filled from the sanitized coins; an empty slot is the zero value
    of [DecCoin], whose amount is a nil pointer. *)
Fixpoint fill_slots (n : nat) (coins : Coins) {struct coins} : res (list (option DecCoin)) :=
  match coins with
  | [] => Ok (replicate n None)
  | coin :: coins =>
      c ← NewDecCoinFromCoin coin;
      match n with
      | O => Panic "index out of range"
      | S n => rest ← fill_slots n coins; Ok (Some c :: rest)
      end
  end.
Definition NewDecCoinsFromCoins (coins : Coins) : res (list (option DecCoin)) :=
  newCoins ← NewCoins Sort coins; fill_slots (length coins) newCoins.

Fixpoint dequal_pairwise (a b : DecCoins) : res bool :=
  match a, b with
  | x :: a, y :: b => e ← DecCoin_IsEqual x y; if (e : bool) then dequal_pairwise a b else Ok false
  | _, _ => Ok true
  end.
Definition dIsEqual (coins coinsB : DecCoins) : res bool :=
  if bool_decide (length coins = length coinsB) then dequal_pairwise (DSort coins) (DSort coinsB) else Ok false.

(** ** Denominations *)

Definition RegisterDenom (s : Denoms) (denom : string) (unit : Z) : res Denoms :=
  if negb (ValidateDenom denom) then Err "invalid denom"
  else match denomUnits s !! denom with
  | Some _ => Err "denom already registered"
  | None =>
      let units := <[denom := unit]> (denomUnits s) in
      if bool_decide (baseDenom s = EmptyString) then Ok (mkDenoms units denom)
      else match units !! baseDenom s with
           | None => Panic "nil pointer dereference"
           | Some u => Ok (mkDenoms units (if bool_decide (unit < u) then denom else baseDenom s))
           end
  end.

Definition GetDenomUnit (s : Denoms) (denom : string) : option Z :=
  if ValidateDenom denom then denomUnits s !! denom else None.

Definition GetBaseDenom (s : Denoms) : res string :=
  if bool_decide (baseDenom s = EmptyString) then Err "no denom is registered" else Ok (baseDenom s).

Definition ConvertCoin (s : Denoms) (coin : Coin) (denom : string) : res Coin :=
  if negb (ValidateDenom denom) then Err "invalid denom"
  else match GetDenomUnit s (Denom coin) with
  | None => Err "source denom not registered"
  | Some srcUnit =>
      match GetDenomUnit s denom with
      | None => Err "destination denom not registered"
      | Some dstUnit =>
          if bool_decide (srcUnit = dstUnit) then NewCoin denom (Amount coin)
          else
            p ← Dec_Mul (ToLegacyDec (Amount coin)) srcUnit;
            q ← Dec_Quo p dstUnit;
            t ← TruncateInt q;
            NewCoin denom t
      end
  end.

Definition ConvertDecCoin (s : Denoms) (coin : DecCoin) (denom : string) : res DecCoin :=
  if negb (ValidateDenom denom) then Err "invalid denom"
  else match GetDenomUnit s (dDenom coin) with
  | None => Err "source denom not registered"
  | Some srcUnit =>
      match GetDenomUnit s denom with
      | None => Err "destination denom not registered"
      | Some dstUnit =>
          if bool_decide (srcUnit = dstUnit) then NewDecCoinFromDec denom (dAmount coin)
          else
            p ← Dec_Mul (dAmount coin) srcUnit;
            q ← Dec_Quo p dstUnit;
            NewDecCoinFromDec denom q
      end
  end.

Definition NormalizeCoin (s : Denoms) (coin : Coin) : res Coin :=
  match GetBaseDenom s with
  | Ok base => match ConvertCoin s coin base with Err _ => Ok coin | r => r end
  | _ => Ok coin
  end.

Definition NormalizeDecCoin (s : Denoms) (coin : DecCoin) : res DecCoin :=
  match GetBaseDenom s with
  | Ok base => match ConvertDecCoin s coin base with Err _ => Ok coin | r => r end
  | _ => Ok coin
  end.

Fixpoint NormalizeCoins (s : Denoms) (coins : DecCoins) : res Coins :=
  match coins with
  | [] => Ok []
  | coin :: coins =>
      n ← NormalizeDecCoin s coin;
      '(newCoin, _) ← DecCoin_TruncateDecimal n;
      rest ← NormalizeCoins s coins;
      Ok (newCoin :: rest)
  end.

(** The denominations of the node and of the relayer. *)
Definition RegisterDenoms (s : Denoms) : res Denoms :=
  s ← RegisterDenom s "stos" one;
  s ← RegisterDenom s "gwei" (10 ^ (18 - 9));
  RegisterDenom s "wei" (10 ^ (18 - 18)).

(** ** Parsing *)

Definition is_space (c : Ascii.ascii) : bool := bool_decide (9 ≤ char_code c ≤ 13) || bool_decide (char_code c = 32).
Definition lower (c : Ascii.ascii) : Ascii.ascii :=
  if bool_decide (65 ≤ char_code c ≤ 90) then Ascii.ascii_of_nat (Ascii.nat_of_ascii c + 32) else c.
Definition ToLower (s : chars) : chars := map lower s.

Fixpoint span (p : Ascii.ascii → bool) (s : chars) : chars * chars :=
  match s with
  | [] => ([], [])
  | c :: s' => if p c then let '(a, b) := span p s' in (c :: a, b) else ([], s)
  end.
Definition skip_spaces (s : chars) : chars := snd (span is_space s).
Definition TrimSpace (s : chars) : chars := reverse (skip_spaces (reverse (skip_spaces s))).

(** [reDecCoin]: an amount, spaces, a denomination; the classes of characters that
    follow one another are disjoint, so there is one way to match. *)
Definition reDecCoin (s : chars) : option (chars * chars) :=
  let denom_of (amount rest : chars) :=
    let d := skip_spaces rest in if ValidateDenom (str d) then Some (amount, d) else None in
  let '(int, rest) := span is_digit s in
  match rest with
  | c :: rest' =>
      if bool_decide (c = dot) then
        let '(frac, rest'') := span is_digit rest' in
        if bool_decide (frac = []) then None else denom_of (int ++ dot :: frac) rest''
      else if bool_decide (int = []) then None else denom_of int rest
  | [] => None
  end.

Definition ParseDecCoin (coinStr : chars) : res DecCoin :=
  let coinStr := ToLower (TrimSpace coinStr) in
  match reDecCoin coinStr with
  | None => Err "invalid decimal coin expression"
  | Some (amountStr, denomStr) =>
      match LegacyNewDecFromStr (str amountStr) with
      | Ok amount =>
          if negb (ValidateDenom (str denomStr)) then Err "invalid denom cannot contain upper case characters or spaces"
          else NewDecCoinFromDec (str denomStr) amount
      | Err _ => Err "failed to parse decimal coin amount"
      | Panic e => Panic e
      end
  end.

(** [strings.Split] at commas. *)
Fixpoint split_commas (s : chars) : list chars :=
  match s with
  | [] => [[]]
  | c :: s =>
      if bool_decide (c = comma) then [] :: split_commas s
      else match split_commas s with x :: xs => (c :: x) :: xs | [] => [[c]] end
  end.

Fixpoint parse_each (strs : list chars) : res DecCoins :=
  match strs with
  | [] => Ok []
  | coinStr :: strs => coin ← ParseDecCoin coinStr; coins ← parse_each strs; Ok (coin :: coins)
  end.

Definition ParseDecCoins (coinsStr : chars) : res DecCoins :=
  let coinsStr := TrimSpace coinsStr in
  if bool_decide (coinsStr = []) then Ok []
  else
    decCoins ← parse_each (split_commas coinsStr);
    let newDecCoins := sanitizeDecCoins decCoins in
    _ ← dValidate newDecCoins;
    Ok newDecCoins.

Definition ParseCoinNormalized (s : Denoms) (coinStr : chars) : res Coin :=
  decCoin ← ParseDecCoin coinStr;
  n ← NormalizeDecCoin s decCoin;
  '(coin, _) ← DecCoin_TruncateDecimal n;
  Ok coin.

Definition ParseCoinsNormalized (s : Denoms) (coinStr : chars) : res Coins :=
  coins ← ParseDecCoins coinStr; NormalizeCoins s coins.

End Sorting.

(** ** Decimal coins as coins *)

(** A decimal coin, counted in units of 10^-18. *)
Definition units (c : DecCoin) : Coin := mkCoin (dDenom c) (dAmount c).
Definition of_units (c : Coin) : DecCoin := mkDec (Denom c) (Amount c).
Definition dec_amounts : SdkInt := {| Int_ok := Dec_ok |}.

Lemma units_of_units l : map units (map of_units l) = l.
Proof. induction l as [|[d a] l IH]; cbn; [done|]. by rewrite IH. Qed.

Lemma units_inj a b : map units a = map units b → a = b.
Proof.
  revert b. induction a as [|[d x] a IH]; intros [|[d' y] b]; try done.
  intros [= -> -> H]. f_equal. by apply IH.
Qed.

Lemma units_removeZero l : map units (removeZeroDecCoins l) = removeZeroCoins (map units l).
Proof.
  unfold removeZeroDecCoins, removeZeroCoins. induction l as [|c l IH]; [done|].
  cbn [map]. rewrite !filter_cons. unfold dIsZero, IsZero in *. cbn [units Amount].
  repeat case_decide; cbn [map]; rewrite ?IH; done.
Qed.

Lemma dValidate_units l : dValidate l = Validate (map units l).
Proof.
  assert (∀ l low seen, dvalidate_rest low seen l = validate_rest low seen (map units l)) as Hr.
  { clear l. intros l. induction l as [|c l IH]; intros low seen; cbn [dvalidate_rest validate_rest map]; [done|].
    rewrite IH. done. }
  destruct l as [|c [|c' l]]; [done..|]. cbn [dValidate Validate map]. rewrite Hr. done.
Qed.

Lemma units_push (c : DecCoin) l : map units (if dIsZero c then l else c :: l)
  = if IsZero (units c) then map units l else units c :: map units l.
Proof. unfold dIsZero, IsZero. cbn [units Amount]. by case_bool_decide. Qed.

Lemma DecCoin_Add_units x y : @Coin_Add dec_amounts (units x) (units y) = r ← DecCoin_Add x y; Ok (units r).
Proof.
  unfold Coin_Add, DecCoin_Add, same_denom, dsame_denom, AddAmount, Int_Add, Dec_Add.
  cbn [units Denom Amount dec_amounts Int_ok]. case_bool_decide; cbn; [|done]. by destruct (Dec_ok _).
Qed.

(** The merge of decimal coins is that of coins. *)
Lemma dsafeAdd_units a b :
  @add_loop dec_amounts (map units a) (map units b) = s ← dsafeAdd a b; Ok (map units s).
Proof.
  revert b. induction a as [|x a IH]; intros b.
  { destruct b as [|y b]; [done|]. cbn [map]. rewrite add_loop_nil_l. cbn [dsafeAdd mbind res_bind]. by rewrite units_removeZero. }
  induction b as [|y b IHb].
  { cbn [map]. rewrite add_loop_nil_r. cbn [dsafeAdd mbind res_bind]. by rewrite units_removeZero. }
  cbn [map]. rewrite add_loop_cons. cbn [dsafeAdd]. change (Denom (units ?c)) with (dDenom c).
  destruct (String.compare (dDenom x) (dDenom y)).
  - rewrite DecCoin_Add_units. destruct (DecCoin_Add x y) as [r| |]; cbn [mbind res_bind]; [|done..].
    rewrite IH. destruct (dsafeAdd a b) as [s| |]; cbn [mbind res_bind]; [|done..]. by rewrite units_push.
  - change (units y :: map units b) with (map units (y :: b)). rewrite IH.
    destruct (dsafeAdd a (y :: b)) as [s| |]; cbn [mbind res_bind]; [|done..]. by rewrite units_push.
  - change (units x :: map units a) with (map units (x :: a)). rewrite IHb.
    cbn [dsafeAdd].
    match goal with |- context [(?f b ≫= _) ] => destruct (f b) as [s| |]; cbn [mbind res_bind]; [|done..] end. by rewrite units_push.
Qed.

Lemma dnegative_units l : map units (dnegative l) = negative (map units l).
Proof. unfold dnegative, negative. by rewrite !map_map. Qed.

Lemma dIsAnyNegative_units l : dIsAnyNegative l = IsAnyNegative (map units l).
Proof. unfold dIsAnyNegative, IsAnyNegative. induction l as [|c l IH]; cbn; [done|]. by rewrite IH. Qed.

Lemma dAdd_units a b : sorted (map units a) → sorted (map units b) →
  @Add dec_amounts (map units a) (map units b) = s ← dAdd a b; Ok (map units s).
Proof. intros Ha Hb. unfold Add, safeAdd. rewrite !sorted_isSorted by done. apply dsafeAdd_units. Qed.

Lemma dSub_units a b : sorted (map units a) → sorted (map units b) →
  @Sub dec_amounts (map units a) (map units b) = s ← dSub a b; Ok (map units s).
Proof.
  intros Ha Hb. unfold Sub, dSub, SafeSub, dSafeSub, safeAdd. rewrite !sorted_isSorted by (done || by apply negative_facts).
  cbn [negb]. rewrite <- dnegative_units, dsafeAdd_units. destruct (dsafeAdd a (dnegative b)) as [s| |]; cbn [mbind res_bind]; [|done..].
  rewrite <- dIsAnyNegative_units. by destruct (dIsAnyNegative s).
Qed.

Lemma damount_search_units fuel l d : ValidateDenom d = true → (length l ≤ fuel)%nat →
  damount_search fuel l d = Ok (amount_search fuel (map units l) d).
Proof.
  intros Hd. revert l. induction fuel as [|fuel IH]; intros l Hl; cbn [damount_search]; unfold mustValidateDenom; rewrite Hd;
    cbn [mbind res_bind]; [done|].
  destruct l as [|c0 [|c1 l']]; [done|done|]. cbn [amount_search map]. set (l := c0 :: c1 :: l') in *.
  change (units c0 :: units c1 :: map units l') with (map units l). rewrite length_map. set (mid := Nat.div2 (length l)).
  assert (mid < length l)%nat as Hmid by (apply Nat.lt_div2; cbn; lia).
  rewrite list_lookup_fmap. destruct (lookup_lt_is_Some_2 l mid Hmid) as [c Hc]. rewrite Hc. cbn [fmap option_fmap option_map units Denom Amount].
  destruct (String.compare d (dDenom c)); [done|..]; rewrite IH, ?fmap_take, ?fmap_drop; try done.
  all: rewrite ?length_take, ?length_drop; lia.
Qed.

Lemma dAmountOf_units l d : dAmountOf l d = AmountOf (map units l) d.
Proof.
  unfold dAmountOf, AmountOf, AmountOfNoDenomValidation. destruct (ValidateDenom d) eqn:Hd.
  - rewrite length_map. by apply damount_search_units.
  - destruct l; cbn; unfold mustValidateDenom; by rewrite Hd.
Qed.

(** Sets of decimal coins behave as sets of coins whose amounts are counted in
    units of 10^-18: they are valid exactly when these are, and on valid sets their
    sums, differences and amounts are the sums, differences and amounts of these,
    panics included. *)
Theorem dec_coins_are_coins a b d :
  dValidate a = Ok tt → dValidate b = Ok tt →
  Validate (map units a) = Ok tt ∧ Validate (map units b) = Ok tt
  ∧ @Add dec_amounts (map units a) (map units b) = (s ← dAdd a b; Ok (map units s))
  ∧ @Sub dec_amounts (map units a) (map units b) = (s ← dSub a b; Ok (map units s))
  ∧ AmountOf (map units a) d = dAmountOf a d.
Proof.
  rewrite !dValidate_units. intros Ha Hb. pose proof Ha as [Hsa _]%Validate_valid. pose proof Hb as [Hsb _]%Validate_valid.
  split_and!; [done|done|by apply dAdd_units|by apply dSub_units|by rewrite dAmountOf_units].
Qed.

(** ** Loops that add one coin at a time *)

Lemma sorted_denoms l : sorted l ↔ StronglySorted dlt (map Denom l).
Proof.
  induction l as [|c l IH]; cbn; [split; constructor|]. rewrite sorted_cons, IH. split.
  - intros [Hs Ha]. constructor; [done|]. by apply Forall_map.
  - intros [Hs Ha]%StronglySorted_inv. split; [done|]. by apply (Forall_map Denom) in Ha.
Qed.

Lemma denoms_app (l : list string) d r : StronglySorted dlt (l ++ d :: r) →
  StronglySorted dlt l ∧ Forall (fun x => dlt x d) l ∧ StronglySorted dlt (l ++ r).
Proof.
  induction l as [|x l IH]; cbn; intros [Hs Ha]%StronglySorted_inv; [split_and!; [constructor..|done]|].
  destruct (IH Hs) as (H1 & H2 & H3). apply Forall_app in Ha as [Hl [Hd Hr]%Forall_cons_1].
  split_and!; [by constructor|by constructor|]. constructor; [done|]. by apply Forall_app.
Qed.

(** Adding one coin that comes after all others. *)
Lemma add_loop_snoc (SI' : SdkInt) l c : nonzero l → Amount c ≠ 0 → Forall (fun x => dlt (Denom x) (Denom c)) l →
  @add_loop SI' l [c] = Ok (l ++ [c]).
Proof.
  intros Hn Hc Hl. induction l as [|x l IH].
  { rewrite add_loop_nil_l. unfold removeZeroCoins. rewrite filter_cons_True; [done|]. by apply bool_decide_eq_false_2. }
  apply Forall_cons_1 in Hn as [Hx Hn], Hl as [Hxc Hl]. rewrite add_loop_cons. unfold dlt in Hxc. rewrite Hxc, IH by done.
  cbn [mbind res_bind]. unfold IsZero. by rewrite bool_decide_eq_false_2.
Qed.

Lemma Add_snoc l c r : nonzero l → StronglySorted dlt (map Denom l ++ Denom c :: r) →
  (if IsZero c then Ok l else Add l [c]) = Ok (l ++ removeZeroCoins [c]).
Proof.
  intros Hn (Hs & Hl & _)%denoms_app. rewrite Forall_map in Hl. unfold removeZeroCoins. rewrite filter_cons. cbn [filter list_filter].
  destruct (IsZero c) eqn:Hc; [by rewrite app_nil_r|]. apply bool_decide_eq_false in Hc. cbn [decide]. unfold Add, safeAdd.
  rewrite !sorted_isSorted; [by apply add_loop_snoc|by repeat constructor|by apply sorted_denoms].
Qed.

Lemma map_units_denoms l : map Denom (map units l) = map dDenom l.
Proof. by rewrite map_map. Qed.

Lemma dAdd_snoc l c r : nonzero (map units l) → StronglySorted dlt (map dDenom l ++ dDenom c :: r) →
  (if dIsZero c then Ok l else dAdd l [c]) = Ok (l ++ removeZeroDecCoins [c]).
Proof.
  intros Hn (Hs & Hl & _)%denoms_app. rewrite Forall_map in Hl. unfold removeZeroDecCoins. rewrite filter_cons. cbn [filter list_filter].
  destruct (dIsZero c) eqn:Hc; [by rewrite app_nil_r|]. apply bool_decide_eq_false in Hc. unfold dAdd.
  pose proof (dsafeAdd_units l [c]) as E. cbn [map] in E. rewrite add_loop_snoc in E; [|done|done|by apply Forall_map].
  destruct (dsafeAdd l [c]) as [s| |]; [|done..]. injection E as E. f_equal. apply units_inj. by rewrite <- E, map_app.
Qed.

Lemma nonzero_removeZero l c : nonzero l → nonzero (l ++ removeZeroCoins [c]).
Proof.
  intros Hn. apply Forall_app. split; [done|]. unfold removeZeroCoins. rewrite filter_cons. case_decide as H; [|constructor].
  constructor; [|constructor]. by apply bool_decide_eq_false in H.
Qed.

Lemma denoms_push l c r : StronglySorted dlt (map Denom l ++ Denom c :: r) →
  StronglySorted dlt (map Denom (l ++ removeZeroCoins [c]) ++ r).
Proof.
  intros H. rewrite map_app, <- app_assoc. unfold removeZeroCoins. rewrite filter_cons. case_decide; [done|].
  by destruct (denoms_app _ _ _ H) as (_ & _ & ?).
Qed.

Lemma denoms_dpush l c r : StronglySorted dlt (map dDenom l ++ dDenom c :: r) →
  StronglySorted dlt (map dDenom (l ++ removeZeroDecCoins [c]) ++ r).
Proof.
  rewrite <- !map_units_denoms, map_app, units_removeZero. apply (denoms_push _ (units c)).
Qed.

Lemma removeZero_cons c l : removeZeroCoins (c :: l) = removeZeroCoins [c] ++ removeZeroCoins l.
Proof. unfold removeZeroCoins. rewrite !filter_cons, filter_nil. by case_decide. Qed.
Lemma removeZeroDec_cons c l : removeZeroDecCoins (c :: l) = removeZeroDecCoins [c] ++ removeZeroDecCoins l.
Proof. unfold removeZeroDecCoins. rewrite !filter_cons, filter_nil. by case_decide. Qed.

(** What [MulDec] and its kin compute: every amount scaled, the zeros left out. *)
Lemma scale_loop_ok f g coins : ∀ acc,
  Forall (fun c => f (dAmount c) = Ok (g (dAmount c))) coins → nonzero (map units acc) →
  StronglySorted dlt (map dDenom acc ++ map dDenom coins) →
  scale_loop f coins acc = Ok (acc ++ removeZeroDecCoins (map (fun c => mkDec (dDenom c) (g (dAmount c))) coins)).
Proof.
  induction coins as [|c coins IH]; intros acc Hf Hn Hs; cbn [scale_loop map]; [by rewrite app_nil_r|].
  apply Forall_cons_1 in Hf as [-> Hf]. cbn [mbind res_bind map] in Hs |- *.
  rewrite (dAdd_snoc acc (mkDec (dDenom c) (g (dAmount c))) _ Hn Hs). cbn [mbind res_bind]. rewrite IH.
  - rewrite <- app_assoc. do 2 f_equal. symmetry. apply removeZeroDec_cons.
  - done.
  - rewrite map_app, units_removeZero. by apply nonzero_removeZero.
  - by apply (denoms_dpush acc (mkDec (dDenom c) (g (dAmount c)))).
Qed.

(** The whole part of a decimal coin, and the rest. *)
Definition whole (c : DecCoin) : Coin := mkCoin (dDenom c) (dAmount c / one).
Definition rest (c : DecCoin) : DecCoin := mkDec (dDenom c) (dAmount c mod one).

Context {SL : SdkIntLaws SI} {DL : SdkDecLaws SD}.

Lemma DecCoin_TruncateDecimal_ok c :
  ValidateDenom (dDenom c) = true → 0 ≤ dAmount c → Int_ok (dAmount c / one) = true → Dec_ok (dAmount c) = true →
  DecCoin_TruncateDecimal c = Ok (whole c, rest c).
Proof.
  intros Hd H0 Hi Hk. pose proof (Z.mod_pos_bound (dAmount c) one eq_refl) as Hm.
  pose proof (Z.div_mod (dAmount c) one ltac:(done)) as E.
  pose proof (Z.mod_le (dAmount c) one H0 eq_refl).
  assert (0 ≤ dAmount c / one) as Hq by (apply Z.div_pos; done).
  unfold DecCoin_TruncateDecimal, TruncateInt. rewrite Z.quot_div_nonneg by done. rewrite Hi. cbn [mbind res_bind].
  unfold Dec_Sub, ToLegacyDec. replace (dAmount c - dAmount c / one * one) with (dAmount c mod one) by (rewrite E at 2; ring).
  rewrite (Dec_ok_mono _ (dAmount c)) by (done || lia). cbn [mbind res_bind].
  unfold NewCoin, Coin_Validate, NewDecCoinFromDec, mustValidateDenom. cbn [Denom Amount]. rewrite Hd. cbn [negb].
  by rewrite !bool_decide_eq_false_2 by lia.
Qed.

Definition truncatable (c : DecCoin) : Prop :=
  ValidateDenom (dDenom c) = true ∧ 0 ≤ dAmount c ∧ Int_ok (dAmount c / one) = true ∧ Dec_ok (dAmount c) = true.

Lemma truncate_loop_ok coins : ∀ t ch,
  Forall truncatable coins → nonzero t → nonzero (map units ch) →
  StronglySorted dlt (map Denom t ++ map dDenom coins) → StronglySorted dlt (map dDenom ch ++ map dDenom coins) →
  truncate_loop coins t ch = Ok (t ++ removeZeroCoins (map whole coins), ch ++ removeZeroDecCoins (map rest coins)).
Proof.
  induction coins as [|c coins IH]; intros t ch Hc Ht Hch Hst Hsc; cbn [truncate_loop map]; [by rewrite !app_nil_r|].
  apply Forall_cons_1 in Hc as [(Hd & H0 & Hi & Hk) Hc]. rewrite DecCoin_TruncateDecimal_ok by done. cbn [mbind res_bind].
  rewrite (Add_snoc t (whole c) _ Ht Hst). cbn [mbind res_bind]. rewrite (dAdd_snoc ch (rest c) _ Hch Hsc). cbn [mbind res_bind].
  rewrite IH.
  - rewrite <- !app_assoc. do 3 f_equal; symmetry; [apply removeZero_cons|apply removeZeroDec_cons].
  - done.
  - by apply nonzero_removeZero.
  - rewrite map_app, units_removeZero. by apply nonzero_removeZero.
  - by apply (denoms_push t (whole c)).
  - by apply (denoms_dpush ch (rest c)).
Qed.

Lemma amt_map_denoms (f : DecCoin → Coin) l d g : (∀ c, Denom (f c) = dDenom c ∧ Amount (f c) = g (dDenom c) (dAmount c)) → g d 0 = 0 →
  amt (map f l) d = g d (amt (map units l) d).
Proof.
  intros Hf Hg. induction l as [|c l IH]; cbn; [done|]. destruct (Hf c) as [-> ->]. case_bool_decide as E; [by rewrite E|done].
Qed.

Lemma Forall_removeZero (P : Coin → Prop) l : Forall P l → Forall P (removeZeroCoins l).
Proof.
  unfold removeZeroCoins. induction 1 as [|c l Hc Hl IH]; [constructor|]. rewrite filter_cons. by case_decide; [constructor|].
Qed.

(** A set without zeros, given by a function on the coins of a valid set. *)
Lemma valid_image (f : DecCoin → Coin) l : (∀ c, Denom (f c) = dDenom c) → valid (map units l) →
  Forall (fun c => 0 ≤ Amount (f c)) l → valid (removeZeroCoins (map f l)) ∧ (∀ d, amt (removeZeroCoins (map f l)) d = amt (map f l) d).
Proof.
  intros Hf (Hs & Hd & _) Hp.
  assert (map Denom (map f l) = map Denom (map units l)) as Ed by (rewrite !map_map; by apply map_ext).
  assert (sorted (map f l)) as Hs' by (apply sorted_denoms; rewrite Ed; by apply sorted_denoms).
  destruct (sorted_removeZero _ Hs') as [Hs'' Hn]. assert (∀ d, amt (removeZeroCoins (map f l)) d = amt (map f l) d) as Ea
    by (intros d; by apply amt_removeZero). split; [|done]. split_and!; [done| |].
  - apply Forall_removeZero, (Forall_map Denom). rewrite Ed. by apply (Forall_map Denom).
  - apply positive_amts; [done|done|]. intros d. rewrite Ea. clear - Hp. induction Hp as [|c l Hc Hl IH]; cbn; [done|].
    by case_bool_decide.
Qed.

(** [TruncateDecimal] splits a valid set of decimal coins into a valid set of
    coins and a valid set of decimal coins, without loss: of every denomination, the
    whole part goes to the coins, and what is less than one coin to the change. *)
Theorem truncate_decimal_splits coins :
  dValidate coins = Ok tt → Forall (fun c => Int_ok (dAmount c / one) = true ∧ Dec_ok (dAmount c) = true) coins →
  ∃ t ch, dTruncateDecimal coins = Ok (t, ch) ∧ Validate t = Ok tt ∧ dValidate ch = Ok tt
    ∧ ∀ d, amt (map units coins) d = amt t d * one + amt (map units ch) d ∧ 0 ≤ amt (map units ch) d < one.
Proof.
  rewrite dValidate_units. intros Hv%Validate_valid Hk. pose proof Hv as (Hs & Hd & Hp). rewrite !Forall_map in Hd, Hp.
  eexists _, _. split.
  { apply truncate_loop_ok; [|constructor|constructor|..].
    - clear - Hk Hd Hp. rewrite !Forall_forall in *. intros c Hc. destruct (Hk c Hc), (Hp c Hc). pose proof (Hd c Hc). pose proof (Hp c Hc).
      split_and!; try done. cbn in *. lia.
    - apply sorted_denoms in Hs. by rewrite map_units_denoms in Hs.
    - apply sorted_denoms in Hs. by rewrite map_units_denoms in Hs. }
  cbn [app]. rewrite dValidate_units, units_removeZero, !Validate_valid, map_map.
  destruct (valid_image whole coins) as [Hv1 E1]; [done|done|eapply Forall_impl; [|exact Hp]; intros c Hc; cbn in *; apply Z.div_pos; [lia|done]|].
  destruct (valid_image (fun c => units (rest c)) coins) as [Hv2 E2]; [done|done|apply Forall_true; intros c; cbn; by apply Z.mod_pos_bound|].
  split_and!; [done|done|]. intros d. rewrite E1, E2.
  rewrite (amt_map_denoms whole coins d (fun _ x => x / one)), (amt_map_denoms (fun c => units (rest c)) coins d (fun _ x => x mod one)) by done.
  pose proof (Z.div_mod (amt (map units coins) d) one ltac:(done)). pose proof (Z.mod_pos_bound (amt (map units coins) d) one eq_refl). lia.
Qed.

(** [MulDec] of a valid set by a decimal that is not negative is a valid set, and
    each amount is the product, rounded to the nearest multiple of 10^-18; what is
    rounded to zero is left out. *)
Theorem mul_dec_scales coins x :
  dValidate coins = Ok tt → 0 ≤ x → Forall (fun c => Dec_ok (dAmount c * x) = true) coins →
  ∃ s, MulDec coins x = Ok s ∧ dValidate s = Ok tt
    ∧ ∀ d, 2 * Z.abs (one * amt (map units s) d - amt (map units coins) d * x) ≤ one.
Proof.
  rewrite dValidate_units. intros Hv%Validate_valid Hx Hk. pose proof Hv as (Hs & Hd & Hp). rewrite !Forall_map in Hd, Hp.
  set (g := fun a => match Dec_Mul a x with Ok r => r | _ => 0 end).
  assert (∀ a, Dec_ok (a * x) = true → Dec_Mul a x = Ok (g a) ∧ 2 * Z.abs (one * g a - a * x) ≤ one) as Hg.
  { intros a Ha. unfold g. destruct (Dec_Mul_fits a x Ha) as [r Hr]. rewrite Hr. split; [done|by apply Dec_Mul_rounds]. }
  assert (g 0 = 0) as Hg0.
  { unfold g. destruct (Dec_Mul 0 x) as [r| |] eqn:E; [|done..]. apply Dec_Mul_rounds in E. unfold one in E. lia. }
  eexists. split.
  { apply (scale_loop_ok _ g coins []); [|constructor|apply sorted_denoms in Hs; by rewrite map_units_denoms in Hs].
    eapply Forall_impl; [|exact Hk]. intros c Hc. by apply Hg. }
  cbn [app]. rewrite dValidate_units, units_removeZero, Validate_valid, map_map.
  destruct (valid_image (fun c => units (mkDec (dDenom c) (g (dAmount c)))) coins) as [Hv' E]; [done|done| |].
  { clear - Hk Hp Hg Hx. induction coins as [|c l IH]; [constructor|]. apply Forall_cons_1 in Hk as [Hk Hks], Hp as [Hp Hps].
    constructor; [|by apply IH]. cbn in *. destruct (Hg _ Hk) as [_ H]. unfold one in H. nia. }
  split; [done|]. intros d. rewrite E, (amt_map_denoms _ coins d (fun _ => g)) by done.
  destruct (decide (amt (map units coins) d = 0)) as [E0|E0]; [rewrite E0, Hg0; unfold one; lia|]. apply Hg.
  clear - Hk E0. induction coins as [|c l IH]; cbn in *; [done|]. apply Forall_cons_1 in Hk as [Hk Hks].
  case_bool_decide; [done|by apply IH].
Qed.

(** [Intersect] of valid sets is the valid set of the smaller amounts. *)
Theorem intersect_is_pointwise a b :
  dValidate a = Ok tt → dValidate b = Ok tt →
  ∃ s, Intersect a b = Ok s ∧ dValidate s = Ok tt
    ∧ ∀ d, amt (map units s) d = Z.min (amt (map units a) d) (amt (map units b) d).
Proof.
  rewrite !dValidate_units. intros Ha%Validate_valid Hb%Validate_valid. pose proof Ha as (Hsa & Hda & Hpa). pose proof Hb as (Hsb & _ & Hpb).
  assert (∀ d, 0 ≤ amt (map units b) d) as Hnn by (intros d; by apply amt_nonneg). rewrite !Forall_map in Hda, Hpa.
  assert (intersect_loop a b = Ok (map (fun c => mkDec (dDenom c) (Z.min (dAmount c) (amt (map units b) (dDenom c)))) a)) as E.
  { clear - Hda Hsb. induction Hda as [|c a Hc Ha IH]; [done|]. cbn [intersect_loop map].
    rewrite dAmountOf_units, AmountOf_amt by done. cbn [mbind res_bind]. by rewrite IH. }
  unfold Intersect. rewrite E. cbn [mbind res_bind]. eexists. split; [done|]. rewrite dValidate_units, units_removeZero, Validate_valid, map_map.
  destruct (valid_image (fun c => units (mkDec (dDenom c) (Z.min (dAmount c) (amt (map units b) (dDenom c))))) a) as [Hv' E']; [done|done| |].
  { eapply Forall_impl; [|exact Hpa]. intros c Hc. cbn in *. specialize (Hnn (dDenom c)). lia. }
  split; [done|]. intros d. rewrite E', (amt_map_denoms _ a d (fun d x => Z.min x (amt (map units b) d))); [done|done|].
  specialize (Hnn d). lia.
Qed.

(** ** Denominations *)

Definition no_denoms : Denoms := mkDenoms ∅ EmptyString.

(** The base denomination is registered, unless nothing is, and has the smallest unit. *)
Definition denoms_ok (s : Denoms) : Prop :=
  (∀ d u, denomUnits s !! d = Some u → ValidateDenom d = true)
  ∧ match denomUnits s !! baseDenom s with
    | None => baseDenom s = EmptyString ∧ denomUnits s = ∅
    | Some ub => ∀ d u, denomUnits s !! d = Some u → ub ≤ u
    end.

Lemma RegisterDenom_ok s d u : denoms_ok s →
  match RegisterDenom s d u with
  | Ok s' => ValidateDenom d = true ∧ denomUnits s !! d = None ∧ denoms_ok s' ∧ denomUnits s' = <[d := u]> (denomUnits s)
  | Err _ => ValidateDenom d = false ∨ is_Some (denomUnits s !! d)
  | Panic _ => False
  end.
Proof.
  intros [Hv Hb]. unfold RegisterDenom. destruct (ValidateDenom d) eqn:Hd; cbn [negb]; [|by left].
  destruct (denomUnits s !! d) as [u0|] eqn:El; [right; by eexists|].
  assert (∀ d' u', <[d:=u]> (denomUnits s) !! d' = Some u' → ValidateDenom d' = true) as Hv'.
  { intros d' u'. rewrite lookup_insert_Some. intros [[<- _]|[_ H]]; [done|by eapply Hv]. }
  destruct (denomUnits s !! baseDenom s) as [ub|] eqn:Eb.
  - assert (baseDenom s ≠ EmptyString) as Hne by (intros E; pose proof (Hv _ _ Eb) as H; by rewrite E in H).
    assert (d ≠ baseDenom s) as Hdb by congruence.
    rewrite bool_decide_eq_false_2 by done. rewrite lookup_insert_ne, Eb by done. split_and!; [done|done| |done]. split; [exact Hv'|].
    cbn [denomUnits baseDenom]. case_bool_decide as Hlt.
    + rewrite lookup_insert_eq. intros d' u'. rewrite lookup_insert_Some. intros [[_ <-]|[_ H]]; [lia|]. specialize (Hb _ _ H). lia.
    + rewrite lookup_insert_ne, Eb by done. intros d' u'. rewrite lookup_insert_Some. intros [[_ <-]|[_ H]]; [lia|by eapply Hb].
  - destruct Hb as [Ee Em]. rewrite bool_decide_eq_true_2 by done. split_and!; [done|done| |done]. split; [exact Hv'|].
    cbn [denomUnits baseDenom]. rewrite lookup_insert_eq. intros d' u'. rewrite Em, lookup_insert_Some.
    intros [[_ <-]|[_ H]]; [lia|]. by rewrite lookup_empty in H.
Qed.

(** A run of registrations, refused ones included. *)
Definition register_all (l : list (string * Z)) (s : Denoms) : Denoms :=
  foldl (fun s '(d, u) => match RegisterDenom s d u with Ok s' => s' | _ => s end) s l.

Lemma register_all_ok l : ∀ s, denoms_ok s → denoms_ok (register_all l s).
Proof.
  induction l as [|[d u] l IH]; intros s Hs; cbn [register_all foldl]; [done|]. apply IH.
  pose proof (RegisterDenom_ok s d u Hs) as H. destruct (RegisterDenom s d u); [by apply H|done..].
Qed.

(** Whatever denominations were registered, in whatever order, registering one
    more never panics, keeps the units of all others, and fails exactly when the name
    is not valid or taken; and the base denomination is always one with the smallest
    unit. *)
Theorem base_denom_is_smallest l d u :
  let s := register_all l no_denoms in
  match RegisterDenom s d u with
  | Ok s' => GetDenomUnit s d = None ∧ ∀ d', GetDenomUnit s' d' = if bool_decide (d' = d) then Some u else GetDenomUnit s d'
  | Err _ => ValidateDenom d = false ∨ is_Some (GetDenomUnit s d)
  | Panic _ => False
  end
  ∧ ∀ d' u', GetDenomUnit s d' = Some u' → ∃ base ub, GetBaseDenom s = Ok base ∧ GetDenomUnit s base = Some ub ∧ ub ≤ u'.
Proof.
  intros s. assert (denoms_ok s) as Hs. { apply register_all_ok. split; [|done]. cbn [denomUnits no_denoms]. intros ? ? H. by rewrite lookup_empty in H. }
  pose proof (RegisterDenom_ok s d u Hs) as H. unfold GetDenomUnit, GetBaseDenom. split.
  - destruct (RegisterDenom s d u) as [s'| |]; [|destruct (ValidateDenom d); tauto|done].
    destruct H as (Hd & El & _ & ->). rewrite Hd. split; [done|]. intros d'. case_bool_decide as E.
    + subst d'. by rewrite Hd, lookup_insert_eq.
    + destruct (ValidateDenom d'); [|done]. by rewrite lookup_insert_ne by done.
  - intros d' u' Hu. destruct (ValidateDenom d'); [|done]. destruct Hs as [Hv Hb].
    destruct (denomUnits s !! baseDenom s) as [ub|] eqn:Eb.
    + pose proof (Hv _ _ Eb) as Hvb. exists (baseDenom s), ub. rewrite Hvb. rewrite bool_decide_eq_false_2; [split_and!; [done..|by eapply Hb]|].
      intros E. by rewrite E in Hvb.
    + destruct Hb as [_ Em]. by rewrite Em, lookup_empty in Hu.
Qed.

(** The denominations of the program. *)
Definition stratos_denoms : Denoms :=
  mkDenoms (<["wei" := 1]> (<["gwei" := 10 ^ 9]> (<["stos" := one]> ∅))) "wei".

Lemma RegisterDenoms_stratos : RegisterDenoms no_denoms = Ok stratos_denoms.
Proof. vm_compute. reflexivity. Qed.

(** ** Parsing *)

Lemma span_app (p : Ascii.ascii → bool) a b : Forall (fun c => p c = true) a →
  match b with [] => True | c :: _ => p c = false end → span p (a ++ b) = (a, b).
Proof.
  intros Ha Hb. induction Ha as [|c a Hc Ha IH]; cbn [span app].
  - destruct b as [|c b]; cbn; [done|]. by rewrite Hb.
  - by rewrite Hc, IH.
Qed.

Lemma digits_value_nonneg l : digits l → 0 ≤ digits_value l.
Proof.
  unfold digits_value. intros H. enough (∀ v, 0 ≤ v → 0 ≤ foldl (fun v c => 10 * v + (char_code c - 48)) v l) by (by apply H0).
  induction H as [|c l Hc Hl IH]; intros v Hv; cbn [foldl]; [done|]. apply IH. apply bool_decide_eq_true in Hc. lia.
Qed.

Lemma amount_value_nonneg int frac : digits int → digits frac → 0 ≤ amount_value int frac.
Proof.
  intros Hi%digits_value_nonneg Hf%digits_value_nonneg. unfold amount_value. pose proof (Z.pow_nonneg 10 (18 - zlen frac) ltac:(lia)).
  assert (0 < one) by done. nia.
Qed.

(** A denomination begins with a letter. *)
Lemma denom_letter d : ValidateDenom d = true → ∃ c cs, chr d = c :: cs ∧ is_letter c = true ∧ Forall (fun c => is_denom_char c = true) (chr d).
Proof.
  unfold ValidateDenom, chr. destruct (String.list_ascii_of_string d) as [|c cs]; [done|].
  intros [[Hc Hcs]%andb_prop _]%andb_prop. exists c, cs. split_and!; [done|done|]. constructor.
  - unfold is_denom_char. by rewrite Hc.
  - apply Is_true_eq_left, forallb_True in Hcs. eapply Forall_impl; [|exact Hcs]. intros x. apply Is_true_eq_true.
Qed.

Lemma letter_class c : is_letter c = true → is_digit c = false ∧ is_space c = false ∧ c ≠ dot.
Proof.
  unfold is_letter, is_digit, is_space. fold (char_code c). intros H.
  assert (char_code c ≠ 46) as Hne by (intros E; rewrite E in H; done).
  split_and!; [| |intros ->; by apply Hne].
  - apply bool_decide_eq_false. intros ?. apply orb_prop in H as [H|H]; apply bool_decide_eq_true in H; lia.
  - rewrite !bool_decide_eq_false_2; [done|..]; intros ?; apply orb_prop in H as [H|H]; apply bool_decide_eq_true in H; lia.
Qed.

Lemma space_class c : is_space c = true → is_digit c = false ∧ c ≠ dot.
Proof.
  unfold is_space, is_digit. intros H. split; [|intros ->; by vm_compute in H].
  apply bool_decide_eq_false. intros ?. apply orb_prop in H as [H|H]; apply bool_decide_eq_true in H; lia.
Qed.

Lemma str_chr d : str (chr d) = d.
Proof. apply String.string_of_list_ascii_of_string. Qed.
Lemma chr_str l : chr (str l) = l.
Proof. apply String.list_ascii_of_string_of_list_ascii. Qed.

(** What follows an amount: spaces and a denomination. *)
Lemma tail_class sp d : Forall (fun c => is_space c = true) sp → ValidateDenom d = true →
  ∃ c rest, sp ++ chr d = c :: rest ∧ is_digit c = false ∧ c ≠ dot.
Proof.
  intros Hsp (c & cs & E & Hc & _)%denom_letter. destruct Hsp as [|s sp Hs _].
  - exists c, cs. destruct (letter_class c Hc) as (? & ? & ?). by rewrite E.
  - exists s, (sp ++ chr d). destruct (space_class s Hs). done.
Qed.

Lemma reDecCoin_amount int frac sp d :
  digits int → digits frac → int ≠ [] → Forall (fun c => is_space c = true) sp → ValidateDenom d = true →
  reDecCoin (amount_chars int frac ++ sp ++ chr d) = Some (amount_chars int frac, chr d).
Proof.
  intros Hi Hf Hne Hsp Hd. destruct (tail_class sp d Hsp Hd) as (c & rest & E & Hc & Hdot).
  assert (skip_spaces (sp ++ chr d) = chr d) as Esk.
  { unfold skip_spaces. destruct (denom_letter d Hd) as (x & xs & Ex & Hx & _). rewrite span_app; [done|done|].
    rewrite Ex. by destruct (letter_class x Hx) as (_ & ? & _). }
  unfold reDecCoin, amount_chars. destruct frac as [|f fs].
  - rewrite app_nil_r, span_app; [|done|by rewrite E]. rewrite E, <- E. rewrite !bool_decide_eq_false_2 by done.
    by rewrite Esk, str_chr, Hd.
  - rewrite <- !app_assoc. cbn [app]. rewrite span_app; [|done|done]. rewrite bool_decide_eq_true_2 by done.
    change (f :: fs ++ sp ++ chr d) with ((f :: fs) ++ sp ++ chr d). rewrite span_app; [|done|by rewrite E]. rewrite bool_decide_eq_false_2 by done. by rewrite Esk, str_chr, Hd.
Qed.

Lemma ParseDecCoin_amount input int frac sp d :
  ToLower (TrimSpace input) = amount_chars int frac ++ sp ++ chr d →
  digits int → digits frac → int ≠ [] → zlen frac ≤ 18 → Forall (fun c => is_space c = true) sp → ValidateDenom d = true →
  Dec_ok (amount_value int frac) = true → ParseDecCoin input = Ok (mkDec d (amount_value int frac)).
Proof.
  intros E Hi Hf Hne Hl Hsp Hd Hk. unfold ParseDecCoin. rewrite E, reDecCoin_amount, FromStr_value, str_chr, Hd by done. cbn [negb].
  unfold NewDecCoinFromDec, mustValidateDenom. rewrite Hd. cbn [mbind res_bind]. pose proof (amount_value_nonneg int frac Hi Hf).
  by rewrite bool_decide_eq_false_2 by lia.
Qed.

(** ** Amounts in wei *)

Lemma GetDenomUnit_stratos d : ValidateDenom d = true → GetDenomUnit stratos_denoms d = denomUnits stratos_denoms !! d.
Proof. intros H. unfold GetDenomUnit. by rewrite H. Qed.

(** A decimal amount of a registered denomination in wei: multiplied by the unit, rounded
    to 18 decimals, and divided by the unit of a wei, which is exact. *)
Lemma normalize_stratos d u v :
  denomUnits stratos_denoms !! d = Some u → ValidateDenom d = true → 0 ≤ v → 1 < u ≤ one → Dec_ok (v * one) = true →
  ∃ n, NormalizeDecCoin stratos_denoms (mkDec d v) = Ok (mkDec "wei" (n * one)) ∧ 0 ≤ n ≤ v ∧ 2 * Z.abs (one * n - v * u) ≤ one.
Proof.
  intros Hu Hd Hv Hu1 Hk. unfold one in *. unfold NormalizeDecCoin, ConvertDecCoin. change (GetBaseDenom stratos_denoms) with (Ok "wei"). cbv beta iota.
  change (ValidateDenom "wei") with true. change (GetDenomUnit stratos_denoms "wei") with (Some 1). cbn [negb dDenom dAmount].
  rewrite GetDenomUnit_stratos, Hu by done. rewrite bool_decide_eq_false_2 by lia.
  destruct (Dec_Mul_fits v u) as [n Hn]; [apply (Dec_ok_mono _ (v * 10 ^ 18)); [nia|done]|]. rewrite Hn. cbn [mbind res_bind].
  pose proof (Dec_Mul_rounds v u n Hn) as Hr. unfold one in Hr. exists n. assert (0 ≤ n ≤ v) as Hnv by nia.
  rewrite (Dec_Quo_exact n 1 (n * one)); [|done|unfold one; lia|apply (Dec_ok_mono _ (v * 10 ^ 18)); [unfold one; lia|done]].
  unfold NewDecCoinFromDec. change (mustValidateDenom "wei") with (Ok tt). cbn [mbind res_bind].
  rewrite bool_decide_eq_false_2 by (unfold one; lia). done.
Qed.

Lemma truncate_wei d v : ValidateDenom d = true → 0 ≤ v → Int_ok (v / one) = true → Dec_ok v = true →
  ('(coin, _) ← DecCoin_TruncateDecimal (mkDec d v); Ok coin) = Ok (mkCoin d (v / one)).
Proof. intros. by rewrite DecCoin_TruncateDecimal_ok by done. Qed.

(** C37: What [ParseCoinNormalized] makes of an amount, in any case and with spaces
    around and after the amount: an amount of stos with at most 18 decimals becomes
    exactly that many wei; an amount of wei loses its fraction; and an amount of gwei
    becomes the nearest number of wei. *)
Theorem parsed_amounts_are_wei s input int frac sp denom :
  RegisterDenoms no_denoms = Ok s →
  ToLower (TrimSpace input) = amount_chars int frac ++ sp ++ chr denom →
  digits int → digits frac → int ≠ [] → zlen frac ≤ 18 → Forall (fun c => is_space c = true) sp →
  Dec_ok (amount_value int frac * one) = true → Int_ok (amount_value int frac) = true →
  let v := amount_value int frac in
  (denom = "stos" → ParseCoinNormalized s input = Ok (mkCoin "wei" v))
  ∧ (denom = "wei" → ParseCoinNormalized s input = Ok (mkCoin "wei" (v / one)))
  ∧ (denom = "gwei" → ∃ n, ParseCoinNormalized s input = Ok (mkCoin "wei" n) ∧ 2 * Z.abs (10 ^ 9 * n - v) ≤ 10 ^ 9).
Proof.
  rewrite RegisterDenoms_stratos. intros [= <-] E Hi Hf Hne Hl Hsp Hk Hki v. pose proof (amount_value_nonneg int frac Hi Hf) as Hv.
  fold v in Hv, Hk, Hki. assert (Dec_ok v = true) as Hkv by (apply (Dec_ok_mono _ (v * one)); [unfold one; lia|done]).
  assert (∀ x, 0 ≤ x ≤ v → Int_ok x = true) as Hok by (intros x Hx; apply (Int_ok_mono _ v); [lia|done]).
  assert (∀ d u, denom = d → denomUnits stratos_denoms !! d = Some u → ValidateDenom d = true → 1 < u ≤ one →
    ∃ n, ParseCoinNormalized stratos_denoms input = Ok (mkCoin "wei" n) ∧ 2 * Z.abs (one * n - v * u) ≤ one) as Hp.
  { intros d u -> Hu Hd Hu1. unfold ParseCoinNormalized. rewrite (ParseDecCoin_amount input int frac sp d) by done. cbn [mbind res_bind].
    fold v. destruct (normalize_stratos d u v) as (n & -> & Hn & Hr); [done..|]. cbn [mbind res_bind].
    exists n. rewrite truncate_wei; rewrite ?Z.div_mul by done; [done|done|unfold one; lia|by apply Hok|].
    apply (Dec_ok_mono _ (v * one)); [unfold one; lia|done]. }
  split_and!.
  - intros Ed. destruct (Hp _ _ Ed eq_refl eq_refl) as (n & -> & Hn); [done|]. unfold one in Hn. do 2 f_equal. lia.
  - intros ->. unfold ParseCoinNormalized. rewrite (ParseDecCoin_amount input int frac sp "wei") by done. cbn [mbind res_bind]. fold v.
    assert (NormalizeDecCoin stratos_denoms (mkDec "wei" v) = Ok (mkDec "wei" v)) as ->.
    { unfold NormalizeDecCoin, ConvertDecCoin. change (GetBaseDenom stratos_denoms) with (Ok "wei"). cbv beta iota. cbn [dDenom dAmount].
      change (GetDenomUnit stratos_denoms "wei") with (Some 1). change (ValidateDenom "wei") with true. cbn [negb].
      rewrite bool_decide_eq_true_2 by done. unfold NewDecCoinFromDec. change (mustValidateDenom "wei") with (Ok tt).
      cbn [mbind res_bind]. by rewrite bool_decide_eq_false_2 by lia. }
    cbn [mbind res_bind]. apply truncate_wei; [done|done| |done]. apply Hok. unfold one. split; [by apply Z.div_pos|].
    apply Z.div_le_upper_bound; lia.
  - intros Ed. destruct (Hp _ _ Ed eq_refl eq_refl) as (n & -> & Hn); [done|]. exists n. split; [done|]. unfold one in Hn. lia.
Qed.

(** ** Printing and parsing sets *)

(** A character of a printed coin. *)
Definition plain (c : Ascii.ascii) : Prop := is_space c = false ∧ c ≠ comma ∧ (is_letter c = false → lower c = c).

Lemma skip_spaces_plain l : Forall (fun c => is_space c = false) l → skip_spaces l = l.
Proof. intros H. unfold skip_spaces. destruct H as [|c l Hc _]; cbn; [done|]. by rewrite Hc. Qed.

Lemma TrimSpace_plain l : Forall (fun c => is_space c = false) l → TrimSpace l = l.
Proof.
  intros H. unfold TrimSpace. rewrite (skip_spaces_plain l) by done. rewrite skip_spaces_plain by (by apply Forall_reverse).
  apply reverse_involutive.
Qed.

Lemma code_plain c : char_code c = 46 ∨ 48 ≤ char_code c ≤ 57 → plain c.
Proof.
  intros H. unfold plain, is_space, lower. rewrite !bool_decide_eq_false_2 by lia. split_and!; [done| |done].
  intros ->. change (char_code comma) with 44 in H. lia.
Qed.

Lemma digit_plain c : is_digit c = true → plain c.
Proof. intros H%bool_decide_eq_true. apply code_plain. lia. Qed.

Lemma amount_plain int frac : digits int → digits frac → Forall plain (amount_chars int frac).
Proof.
  intros Hi Hf. unfold amount_chars. apply Forall_app. split; [eapply Forall_impl; [|exact Hi]; intros c; apply digit_plain|].
  destruct Hf as [|c frac Hc Hf]; [constructor|]. constructor; [apply code_plain; by left|].
  constructor; [by apply digit_plain|]. eapply Forall_impl; [|exact Hf]. intros x. apply digit_plain.
Qed.

Lemma denom_char_plain c : is_denom_char c = true → is_space c = false ∧ c ≠ comma.
Proof.
  intros H. split; [|intros ->; by vm_compute in H]. unfold is_denom_char, is_letter, is_space in *. fold (char_code c) in H.
  rewrite !bool_decide_eq_false_2; [done|intros E; rewrite E in H; by vm_compute in H|]. intros E.
  rewrite !bool_decide_eq_false_2 in H by lia. done.
Qed.

Lemma lower_amount int frac : digits int → digits frac → ToLower (amount_chars int frac) = amount_chars int frac.
Proof.
  intros Hi Hf. unfold ToLower. rewrite <- (map_id (amount_chars int frac)) at 2. apply map_ext_Forall.
  assert (Forall (fun c => char_code c = 46 ∨ 48 ≤ char_code c ≤ 57) (amount_chars int frac)) as H.
  { assert (∀ l, digits l → Forall (fun c => char_code c = 46 ∨ 48 ≤ char_code c ≤ 57) l) as Hd
      by (intros l Hl; eapply Forall_impl; [|exact Hl]; intros c Hc%bool_decide_eq_true; by right).
    unfold amount_chars. apply Forall_app. split; [by apply Hd|]. destruct frac; [constructor|].
    constructor; [by left|by apply Hd]. }
  eapply Forall_impl; [|exact H]. intros c Hc. cbn beta in *. unfold lower. by rewrite bool_decide_eq_false_2 by lia.
Qed.

(** One printed coin: an amount and a denomination in lower case. *)
Lemma parse_printed int frac d :
  digits int → digits frac → int ≠ [] → zlen frac ≤ 18 → ValidateDenom d = true → ToLower (chr d) = chr d →
  Dec_ok (amount_value int frac) = true →
  ParseDecCoin (amount_chars int frac ++ chr d) = Ok (mkDec d (amount_value int frac))
  ∧ Forall (fun c => is_space c = false ∧ c ≠ comma) (amount_chars int frac ++ chr d).
Proof.
  intros Hi Hf Hne Hl Hd Hlow Hk.
  assert (Forall (fun c => is_space c = false ∧ c ≠ comma) (amount_chars int frac ++ chr d)) as Hpl.
  { apply Forall_app. split.
    - eapply Forall_impl; [|by apply amount_plain]. intros c (? & ? & _). done.
    - destruct (denom_letter d Hd) as (_ & _ & _ & _ & H). eapply Forall_impl; [|exact H]. intros c. apply denom_char_plain. }
  split; [|done]. apply (ParseDecCoin_amount _ int frac [] d); try done.
  rewrite TrimSpace_plain by (eapply Forall_impl; [|exact Hpl]; by intros c []).
  cbn [app]. unfold ToLower in *. rewrite map_app, Hlow. f_equal. by apply lower_amount.
Qed.

(** Parts without commas, joined by commas. *)
Fixpoint joined (parts : list chars) : chars :=
  match parts with
  | [] => []
  | [x] => x
  | x :: parts => x ++ comma :: joined parts
  end.

Lemma concat_commas parts : parts ≠ [] →
  let out := concat (map (fun x => x ++ [comma]) parts) in take (length out - 1) out = joined parts.
Proof.
  intros Hne. cbv zeta. assert (concat (map (fun x => x ++ [comma]) parts) = joined parts ++ [comma]) as ->.
  { induction parts as [|x [|y parts] IH]; [done|by cbn; rewrite app_nil_r|]. rewrite map_cons, concat_cons, IH by done.
    cbn [joined]. rewrite <- !app_assoc. done. }
  rewrite length_app. cbn [length]. by rewrite take_app_length' by lia.
Qed.

Lemma split_joined parts : parts ≠ [] → Forall (Forall (fun c => c ≠ comma)) parts → split_commas (joined parts) = parts.
Proof.
  assert (∀ x r, Forall (fun c => c ≠ comma) x → split_commas (x ++ r) = match split_commas r with y :: ys => (x ++ y) :: ys | [] => [x] end) as Hx.
  { intros x r H. induction H as [|c x Hc Hx IH]; cbn [split_commas app].
    - destruct (split_commas r) eqn:E; [|done]. exfalso. destruct r; cbn in E; [done|]. repeat case_match; done.
    - rewrite bool_decide_eq_false_2 by done. rewrite IH. by destruct (split_commas r). }
  intros Hne H. induction H as [|x parts Hxc Hp IH]; [done|]. destruct parts as [|y parts].
  - cbn [joined]. rewrite <- (app_nil_r x) at 1. rewrite Hx by done. cbn. by rewrite app_nil_r.
  - change (joined (x :: y :: parts)) with (x ++ comma :: joined (y :: parts)). rewrite Hx by done.
    cbn [split_commas]. rewrite bool_decide_eq_true_2 by done. rewrite IH by done. by rewrite app_nil_r.
Qed.

Context (DSort : DecCoins → DecCoins) (DSort_perm : ∀ l, DSort l ≡ₚ l).
Context (DSort_sorted : ∀ l, StronglySorted (fun a b => ¬ dlt (dDenom b) (dDenom a)) (DSort l)).

Lemma sanitize_valid l : dValidate l = Ok tt → sanitizeDecCoins DSort l = l.
Proof.
  rewrite dValidate_units. intros Hv%Validate_valid. unfold sanitizeDecCoins.
  assert (removeZeroDecCoins l = l) as ->.
  { apply units_inj. rewrite units_removeZero. destruct (sorted_removeZero _ (proj1 Hv)).
    apply canonical_unique; try done; [apply Hv|by apply valid_nonzero|]. intros d. by apply amt_removeZero, Hv. }
  destruct l as [|c l]; [done|]. apply units_inj. apply sorted_perm_eq; [by rewrite DSort_perm|apply Hv|].
  pose proof (DSort_sorted (c :: l)) as H. clear - H. induction H as [|x r Hs IH Hx]; cbn [map]; constructor; [done|].
  by apply Forall_map.
Qed.

(** Parsing printed coins, one part for each. *)
Lemma parse_parts (parts : list chars) coins :
  parts ≠ [] → Forall2 (fun p c => ParseDecCoin p = Ok c) parts coins →
  Forall (Forall (fun c => is_space c = false ∧ c ≠ comma)) parts → Forall (fun p => p ≠ []) parts →
  dValidate coins = Ok tt → ParseDecCoins DSort (joined parts) = Ok coins.
Proof.
  intros Hne Hp Hpl Hnn Hv. unfold ParseDecCoins.
  assert (Forall (fun c => is_space c = false) (joined parts) ∧ joined parts ≠ []) as [Hs Hj].
  { clear - Hpl Hnn Hne. induction Hpl as [|x parts Hx Hpl IH]; [done|]. apply Forall_cons_1 in Hnn as [Hxn Hnn].
    assert (Forall (fun c => is_space c = false) x) as Hxs by (eapply Forall_impl; [|exact Hx]; by intros c []).
    destruct parts as [|y parts]; [done|]. cbn [joined]. split; [|by destruct x].
    apply Forall_app. split; [done|]. constructor; [done|]. by apply IH. }
  rewrite TrimSpace_plain by done. rewrite bool_decide_eq_false_2 by done. rewrite split_joined; [|done|].
  - assert (parse_each parts = Ok coins) as ->.
    { clear - Hp. induction Hp as [|p c parts coins Hpc Hp IH]; [done|]. cbn [parse_each]. by rewrite Hpc, IH. }
    cbn [mbind res_bind]. rewrite sanitize_valid by done. by rewrite Hv.
  - eapply Forall_impl; [|exact Hpl]. intros x Hx. eapply Forall_impl; [|exact Hx]. by intros c [].
Qed.

(** What [String] prints for a valid set of decimal coins with denominations in
    lower case, [ParseDecCoins] reads back as the same set. *)
Theorem printed_coins_parse coins :
  dValidate coins = Ok tt → Forall (fun c => ToLower (chr (dDenom c)) = chr (dDenom c) ∧ Dec_ok (dAmount c) = true) coins →
  ParseDecCoins DSort (DecCoins_String coins) = Ok coins.
Proof.
  intros Hv Hc. destruct coins as [|c0 coins]; [done|]. set (l := c0 :: coins) in *.
  assert (Forall (fun c => ParseDecCoin (DecCoin_String c) = Ok c ∧ Forall (fun x => is_space x = false ∧ x ≠ comma) (DecCoin_String c)
                           ∧ DecCoin_String c ≠ []) l) as H.
  { rewrite dValidate_units in Hv. apply Validate_valid in Hv as (_ & Hd & Hp). rewrite !Forall_map in Hd, Hp.
    clearbody l. clear - Hc Hd Hp DL. induction l as [|c l IH]; [constructor|].
    apply Forall_cons_1 in Hc as [[Hlow Hk] Hc], Hd as [Hd Hds], Hp as [Hp Hps]. constructor; [|by apply IH].
    destruct (String_value (dAmount c)) as (int & frac & E & Hi & Hf & Hne & Hl & Ev); [cbn in Hp; lia|].
    unfold DecCoin_String. rewrite E, chr_str. destruct (parse_printed int frac (dDenom c)) as [-> Hpl]; try done; [lia|by rewrite Ev|].
    split_and!; [rewrite Ev; by destruct c|done|]. unfold amount_chars. by destruct int. }
  unfold DecCoins_String. unfold l at 1. cbv iota. fold l.
  pose proof (concat_commas (map DecCoin_String l) ltac:(done)) as E. cbv zeta in E. rewrite map_map in E. rewrite E.
  apply parse_parts; [done|..|done].
  - clearbody l. clear - H. induction H as [|c l (Hc & _) Hl IH]; cbn [map]; constructor; done.
  - apply Forall_map. eapply Forall_impl; [|exact H]. by intros c (_ & ? & _).
  - apply Forall_map. eapply Forall_impl; [|exact H]. by intros c (_ & _ & ?).
Qed.

(** [ParseCoinsNormalized] does not always give a valid set, as its comment says:
    the set is sanitized before its coins are converted, and coins of different
    denominations become coins of the same one.  Whatever positive amounts of gwei and
    wei are given, the result is two coins of wei. *)
Theorem normalized_coins_repeat s x y :
  RegisterDenoms no_denoms = Ok s → digits x → digits y → 0 < digits_value x → 0 < digits_value y →
  Dec_ok (digits_value x * one * one) = true → Dec_ok (digits_value y * one) = true →
  Int_ok (10 ^ 9 * digits_value x) = true → Int_ok (digits_value y) = true →
  ∃ coins, ParseCoinsNormalized DSort s (x ++ chr "gwei," ++ y ++ chr "wei") = Ok coins
    ∧ coins = [mkCoin "wei" (10 ^ 9 * digits_value x); mkCoin "wei" (digits_value y)]
    ∧ Validate coins = Err "duplicate denomination".
Proof.
  rewrite RegisterDenoms_stratos. intros [= <-] Hx Hy Hx0 Hy0 Hkx Hky Hix Hiy. eexists. split; [|split; [reflexivity|]].
  2:{ cbn [Validate Denom]. change (ValidateDenom "wei") with true. cbn [negb]. unfold IsPositive. cbn [Amount].
      by rewrite bool_decide_eq_true_2 by lia. }
  assert (∀ z, amount_value z [] = digits_value z * one) as Ev by (intros z; unfold amount_value; cbn; lia).
  assert (∀ z, amount_chars z [] = z) as Ec by (intros z; apply app_nil_r).
  assert (x ≠ [] ∧ y ≠ []) as [Hxn Hyn] by (split; intros ->; cbn in *; lia).
  set (a := digits_value x) in *. set (b := digits_value y) in *.
  destruct (parse_printed x [] "gwei") as [Ex Px]; try done.
  { constructor. }
  { rewrite Ev. fold a. apply (Dec_ok_mono _ (a * one * one)); [unfold one; lia|done]. }
  destruct (parse_printed y [] "wei") as [Ey Py]; try done; [constructor|by rewrite Ev|]. rewrite Ec, Ev in Ex, Ey. rewrite Ec in Px, Py. fold a in Ex. fold b in Ey.
  unfold ParseCoinsNormalized. change (chr "gwei,") with (chr "gwei" ++ [comma]).
  replace (x ++ (chr "gwei" ++ [comma]) ++ y ++ chr "wei") with (joined [x ++ chr "gwei"; y ++ chr "wei"])
    by (cbn [joined]; by rewrite <- !app_assoc).
  rewrite (parse_parts _ [mkDec "gwei" (a * one); mkDec "wei" (b * one)]).
  - cbn [mbind res_bind NormalizeCoins].
    destruct (normalize_stratos "gwei" (10 ^ 9) (a * one)) as (n & -> & Hn & Hr); [done|done|unfold one; lia|done|done|].
    assert (n = 10 ^ 9 * a) as -> by (unfold one in Hr; lia). cbn [mbind res_bind].
    rewrite DecCoin_TruncateDecimal_ok; cbn [dDenom dAmount]; rewrite ?Z.div_mul by done; [|done|unfold one; lia|done|].
    + cbn [mbind res_bind]. assert (NormalizeDecCoin stratos_denoms (mkDec "wei" (b * one)) = Ok (mkDec "wei" (b * one))) as ->.
      { unfold NormalizeDecCoin, ConvertDecCoin. change (GetBaseDenom stratos_denoms) with (Ok "wei"). cbv beta iota. cbn [dDenom dAmount].
        change (GetDenomUnit stratos_denoms "wei") with (Some 1). change (ValidateDenom "wei") with true. cbn [negb].
        rewrite bool_decide_eq_true_2 by done. unfold NewDecCoinFromDec. change (mustValidateDenom "wei") with (Ok tt).
        cbn [mbind res_bind]. by rewrite bool_decide_eq_false_2 by (unfold one; lia). }
      cbn [mbind res_bind]. rewrite DecCoin_TruncateDecimal_ok; cbn [dDenom dAmount]; rewrite ?Z.div_mul by done; [|done|unfold one; lia|done|done].
      cbn [mbind res_bind]. unfold whole. cbn [dDenom dAmount]. by rewrite !Z.div_mul by done.
    + apply (Dec_ok_mono _ (a * one * one)); [unfold one; lia|done].
  - done.
  - by repeat constructor.
  - by repeat constructor.
  - repeat constructor; by destruct x, y.
  - rewrite dValidate_units. apply Validate_valid. unfold one. split_and!; repeat constructor; cbn; lia || done.
Qed.

(** ** Decimal coins from coins *)

Context (Sort : Coins → Coins) (Sort_perm : ∀ l, Sort l ≡ₚ l).
Context (Sort_sorted : ∀ l, StronglySorted (fun a b => ¬ dlt (Denom b) (Denom a)) (Sort l)).

Lemma fill_slots_ok k coins : Forall (fun c => good_denom (Denom c)) coins → Forall (fun c => 0 < Amount c) coins →
  fill_slots (length coins + k) coins = Ok (map (fun c => Some (mkDec (Denom c) (Amount c * one))) coins ++ replicate k None).
Proof.
  intros Hd Hp. induction coins as [|c coins IH]; [done|]. apply Forall_cons_1 in Hd as [Hc Hd], Hp as [Hpc Hp].
  cbn [fill_slots length Nat.add map app]. unfold NewDecCoinFromCoin, Coin_Validate. unfold good_denom in Hc. rewrite Hc. cbn [negb].
  rewrite bool_decide_eq_false_2 by lia. cbn [mbind res_bind]. by rewrite IH.
Qed.

(** [NewDecCoinsFromCoins] makes room for all its arguments, but fills only the
    places of the coins that are not zero: zero coins leave coins without a
    denomination and with a nil amount at the end of the set. *)
Theorem zero_coins_leave_empty_slots zeros coins :
  Forall (fun c => Amount c = 0) zeros → Validate coins = Ok tt →
  NewDecCoinsFromCoins Sort (zeros ++ coins)
  = Ok (map (fun c => Some (mkDec (Denom c) (Amount c * one))) coins ++ replicate (length zeros) None).
Proof.
  intros Hz Hv. unfold NewDecCoinsFromCoins.
  assert (removeZeroCoins (zeros ++ coins) = removeZeroCoins coins) as E.
  { induction Hz as [|c zeros Hc Hz IH]; [done|]. cbn [app]. unfold removeZeroCoins in *. rewrite filter_cons_False; [done|].
    unfold IsZero. by rewrite bool_decide_eq_true_2. }
  assert (NewCoins Sort (zeros ++ coins) = NewCoins Sort coins) as -> by (unfold NewCoins, sanitizeCoins; by rewrite E).
  apply Validate_valid in Hv. rewrite (NewCoins_valid Sort Sort_perm Sort_sorted) by done. cbn [mbind res_bind].
  rewrite length_app, Nat.add_comm. by apply fill_slots_ok; apply Hv.
Qed.

End DecCoins.

(** ** A concrete decimal type *)

Module DecCoinsDemo.

(** Products and quotients are rounded half to even, as the module documents. *)
Definition round_half_even (z : Z) : Z :=
  let q := Z.abs z / one in
  let r := Z.abs z mod one in
  let up := bool_decide (2 * r > one) || (bool_decide (2 * r = one) && Z.odd q) in
  Z.sgn z * (if up then q + 1 else q).

Fixpoint print_digits (n : nat) (z : Z) : chars :=
  match n with
  | O => []
  | S n => print_digits n (z / 10) ++ [Ascii.ascii_of_nat (48 + Z.to_nat (z mod 10))]
  end.

Definition strip_zeros (l : chars) : chars :=
  match snd (span (fun c => bool_decide (char_code c = 48)) l) with [] => [Ascii.ascii_of_nat 48] | l => l end.

Definition dec_of_chars (s : chars) : res Z :=
  let '(int, rest) := span is_digit s in
  if bool_decide (int = []) then Err "decimal string cannot be empty" else
  match rest with
  | [] => Ok (amount_value int [])
  | c :: frac =>
      if bool_decide (c = dot ∧ frac ≠ [] ∧ zlen frac ≤ 18) && forallb is_digit frac then Ok (amount_value int frac)
      else Err "invalid decimal string"
  end.

Definition fits (z : Z) : bool := bool_decide (Z.abs z < 2 ^ 315).
Definition checked (z : Z) : res Z := if fits z then Ok z else Panic "Int overflow".

Definition dec315 : SdkDec := {|
  Dec_ok := fits;
  Dec_Mul x y := checked (round_half_even (x * y));
  Dec_MulTruncate x y := checked (Z.quot (x * y) one);
  Dec_Quo x y := if bool_decide (y = 0) then Panic "division by zero" else checked (round_half_even (Z.quot (x * one * one) y));
  Dec_QuoTruncate x y := if bool_decide (y = 0) then Panic "division by zero" else checked (Z.quot (x * one) y);
  LegacyNewDecFromStr s := v ← dec_of_chars (chr s); if fits v then Ok v else Err "decimal out of range";
  Dec_String x :=
    str ((if bool_decide (x < 0) then [Ascii.ascii_of_nat 45] else [])
         ++ amount_chars (strip_zeros (print_digits (S (Z.to_nat (Z.log2 (Z.abs x)))) (Z.abs x / one))) (print_digits 18 (Z.abs x)))
|}.

Lemma round_half_even_near z : 2 * Z.abs (one * round_half_even z - z) ≤ one.
Proof.
  unfold round_half_even. pose proof (Z.div_mod (Z.abs z) one ltac:(done)) as E. pose proof (Z.mod_pos_bound (Z.abs z) one eq_refl) as H.
  set (q := Z.abs z / one) in *. set (r := Z.abs z mod one) in *. unfold one in *.
  destruct (bool_decide_reflect (2 * r > 10 ^ 18)); cbn [orb]; [lia|]. destruct (bool_decide_reflect (2 * r = 10 ^ 18)); cbn [andb]; [|lia].
  destruct (Z.odd q); lia.
Qed.

Lemma digits_value_app l c : digits_value (l ++ [c]) = 10 * digits_value l + (char_code c - 48).
Proof. unfold digits_value. by rewrite foldl_app. Qed.

Lemma digit_code z : 0 ≤ z < 10 → char_code (Ascii.ascii_of_nat (48 + Z.to_nat z)) = 48 + z.
Proof.
  intros H. unfold char_code. rewrite Ascii.nat_ascii_embedding by lia. lia.
Qed.

Lemma print_digits_ok n z : 0 ≤ z →
  digits (print_digits n z) ∧ length (print_digits n z) = n ∧ digits_value (print_digits n z) = z mod 10 ^ Z.of_nat n.
Proof.
  revert z. induction n as [|n IH]; intros z Hz; cbn [print_digits]; [split_and!; [constructor|done|by rewrite Z.mod_1_r]|].
  destruct (IH (z / 10)) as (H1 & H2 & H3); [by apply Z.div_pos|]. pose proof (Z.mod_pos_bound z 10 ltac:(done)).
  pose proof (digit_code (z mod 10) ltac:(lia)) as Hc. split_and!.
  - apply Forall_app. split; [done|]. constructor; [|constructor]. apply bool_decide_eq_true. lia.
  - rewrite length_app, H2. cbn. lia.
  - rewrite digits_value_app, H3, Hc. rewrite Nat2Z.inj_succ, Z.pow_succ_r by lia.
    rewrite (Z.rem_mul_r z 10 (10 ^ Z.of_nat n)) by lia. lia.
Qed.

Lemma digits_value_zero c l : char_code c = 48 → digits_value (c :: l) = digits_value l.
Proof. intros H. unfold digits_value. cbn [foldl]. do 2 f_equal. lia. Qed.

Lemma strip_zeros_ok l : digits l → digits (strip_zeros l) ∧ strip_zeros l ≠ [] ∧ digits_value (strip_zeros l) = digits_value l.
Proof.
  intros H. unfold strip_zeros.
  assert (digits (snd (span (fun c => bool_decide (char_code c = 48)) l))
          ∧ digits_value (snd (span (fun c => bool_decide (char_code c = 48)) l)) = digits_value l) as [H1 H2].
  { induction H as [|c l Hc Hl IH]; cbn [span]; [by split; [constructor|]|]. case_bool_decide as E; [|split; [by constructor|done]].
    destruct (span _ l) as [a b]. cbn [snd] in *. by rewrite digits_value_zero. }
  rewrite <- H2. destruct (snd _) as [|c b]; [|done]. split_and!; [by repeat constructor|done|done].
Qed.

Lemma dec315_laws : SdkDecLaws dec315.
Proof.
  assert (∀ x y, Z.abs x ≤ Z.abs y → fits y = true → fits x = true) as Hmono
    by (intros x y H; unfold fits; rewrite !bool_decide_eq_true; lia).
  split; cbn [dec315 Dec_ok Dec_Mul Dec_Quo LegacyNewDecFromStr Dec_String].
  - exact Hmono.
  - intros x y r. unfold checked. destruct (fits _); [|done]. intros [= <-]. apply round_half_even_near.
  - intros x y H. unfold checked. rewrite (Hmono _ (x * y)); [by eexists| |done].
    pose proof (round_half_even_near (x * y)) as Hr. unfold one in Hr. lia.
  - intros x y q Hy E Hq. rewrite bool_decide_eq_false_2 by done.
    assert (Z.quot (x * one * one) y = q * one) as ->.
    { rewrite E. replace (y * q * one) with (q * one * y) by ring. by apply Z.quot_mul. }
    pose proof (round_half_even_near (q * one)) as Hr. assert (round_half_even (q * one) = q) as -> by (unfold one in *; lia).
    unfold checked. by rewrite Hq.
  - intros int frac Hi Hf Hne Hl Hk. rewrite chr_str. unfold dec_of_chars, amount_chars. destruct frac as [|f fs].
    + rewrite app_nil_r. pose proof (span_app is_digit int [] Hi I) as E. rewrite app_nil_r in E. rewrite E.
      rewrite bool_decide_eq_false_2 by done. cbn [mbind res_bind]. by rewrite Hk.
    + rewrite span_app by done. rewrite bool_decide_eq_false_2, bool_decide_eq_true_2 by done. cbn [andb].
      assert (forallb is_digit (f :: fs) = true) as ->; [|cbn [mbind res_bind]; by rewrite Hk].
      apply Is_true_eq_true, forallb_True. eapply Forall_impl; [|exact Hf]. intros c. apply Is_true_eq_left.
  - intros x Hx. rewrite bool_decide_eq_false_2 by lia. rewrite Z.abs_eq by done. cbn [app].
    set (n := S (Z.to_nat (Z.log2 x))). destruct (print_digits_ok n (x / one)) as (H1 & _ & H2); [apply Z.div_pos; done|].
    destruct (strip_zeros_ok _ H1) as (H3 & H4 & H5). destruct (print_digits_ok 18 x Hx) as (F1 & F2 & F3).
    eexists _, _. split; [reflexivity|]. split_and!; [done|done|done|unfold zlen; by rewrite F2|].
    unfold amount_value, zlen. rewrite H5, H2, F2, F3. change (10 ^ (18 - Z.of_nat 18)) with 1. change (10 ^ Z.of_nat 18) with one.
    rewrite (Z.mod_small (x / one)); [pose proof (Z.div_mod x one ltac:(done)); lia|]. split; [by apply Z.div_pos|].
    apply Z.le_lt_trans with x; [apply Z.div_le_upper_bound; [done|unfold one; lia]|].
    destruct (decide (x = 0)) as [->|]; [done|]. pose proof (Z.log2_spec x ltac:(lia)) as [_ Hl]. unfold n.
    eapply Z.lt_le_trans; [exact Hl|]. rewrite Nat2Z.inj_succ, Z2Nat.id by apply Z.log2_nonneg. apply Z.pow_le_mono_l. lia.
Qed.

Import CoinsDemo.

Definition purse : DecCoins := [mkDec "stos" (15 * 10 ^ 17); mkDec "wei" (7 * one)].
Definition price : DecCoins := [mkDec "gwei" 5; mkDec "wei" (3 * one)].

Lemma dec_coins_are_coins_witness :
  Validate (map units purse) = Ok tt ∧ Validate (map units price) = Ok tt
  ∧ @Add (@dec_amounts dec315) (map units purse) (map units price) = (s ← @dAdd dec315 purse price; Ok (map units s))
  ∧ @Sub (@dec_amounts dec315) (map units purse) (map units price) = (s ← @dSub dec315 purse price; Ok (map units s))
  ∧ AmountOf (map units purse) "wei" = dAmountOf purse "wei".
Proof. apply dec_coins_are_coins; reflexivity. Defined.

Lemma truncate_decimal_splits_witness :
  ∃ t ch, @dTruncateDecimal int256 dec315 purse = Ok (t, ch) ∧ Validate t = Ok tt ∧ dValidate ch = Ok tt
    ∧ ∀ d, amt (map units purse) d = amt t d * one + amt (map units ch) d ∧ 0 ≤ amt (map units ch) d < one.
Proof.
  apply (@truncate_decimal_splits int256 dec315 dec315_laws); [reflexivity|]. repeat constructor.
Defined.

Lemma mul_dec_scales_witness :
  ∃ s, @MulDec dec315 purse (10 ^ 17) = Ok s ∧ dValidate s = Ok tt
    ∧ ∀ d, 2 * Z.abs (one * amt (map units s) d - amt (map units purse) d * 10 ^ 17) ≤ one.
Proof. apply (@mul_dec_scales dec315 dec315_laws); [reflexivity|lia|]. repeat constructor. Defined.

Lemma intersect_is_pointwise_witness :
  ∃ s, Intersect purse price = Ok s ∧ dValidate s = Ok tt
    ∧ ∀ d, amt (map units s) d = Z.min (amt (map units purse) d) (amt (map units price) d).
Proof. apply intersect_is_pointwise; reflexivity. Defined.

Lemma parsed_amounts_are_wei_witness :
  @ParseCoinNormalized int256 dec315 stratos_denoms (chr " 1.50 STOS") = Ok (mkCoin "wei" (15 * 10 ^ 17)).
Proof.
  refine (proj1 (@parsed_amounts_are_wei int256 dec315 int256_laws dec315_laws stratos_denoms (chr " 1.50 STOS")
    (chr "1") (chr "50") (chr " ") "stos" RegisterDenoms_stratos _ _ _ _ _ _ _ _) eq_refl).
  all: try done. all: repeat constructor.
Defined.

(** Insertion sort by denomination, on decimal coins. *)
Definition sort_dec (l : DecCoins) : DecCoins := map of_units (sort_coins (map units l)).

Lemma sort_dec_perm l : sort_dec l ≡ₚ l.
Proof.
  unfold sort_dec. rewrite sort_coins_perm. induction l as [|[d a] l IH]; cbn; [done|by rewrite IH].
Qed.

Lemma sort_dec_sorted l : StronglySorted (fun a b => ¬ dlt (dDenom b) (dDenom a)) (sort_dec l).
Proof.
  unfold sort_dec. pose proof (sort_coins_sorted (map units l)) as H. induction H as [|c r Hs IH Hc]; cbn [map]; constructor; [done|].
  by apply Forall_map.
Qed.

Lemma printed_coins_parse_witness : @ParseDecCoins dec315 sort_dec (@DecCoins_String dec315 purse) = Ok purse.
Proof.
  apply (@printed_coins_parse dec315 dec315_laws sort_dec sort_dec_perm sort_dec_sorted); [reflexivity|]. repeat constructor.
Defined.

Lemma normalized_coins_repeat_witness :
  ∃ coins, @ParseCoinsNormalized int256 dec315 sort_dec stratos_denoms (chr "2gwei,3wei") = Ok coins
    ∧ coins = [mkCoin "wei" (10 ^ 9 * 2); mkCoin "wei" 3] ∧ Validate coins = Err "duplicate denomination".
Proof.
  apply (@normalized_coins_repeat int256 dec315 dec315_laws sort_dec sort_dec_perm sort_dec_sorted stratos_denoms (chr "2") (chr "3")
    RegisterDenoms_stratos); repeat constructor.
Defined.

Lemma zero_coins_leave_empty_slots_witness :
  NewDecCoinsFromCoins sort_coins ([mkCoin "gwei" 0] ++ [mkCoin "wei" 4]) = Ok ([Some (mkDec "wei" (4 * one))] ++ [None]).
Proof.
  apply (@zero_coins_leave_empty_slots sort_coins sort_coins_perm sort_coins_sorted [mkCoin "gwei" 0] [mkCoin "wei" 4]);
    [by repeat constructor|reflexivity].
Defined.

End DecCoinsDemo.
