(* ===== verification/Random.v ===== *)
(** * Random: weighted random selection

    Models framework/utils/random.go.  The generator is an argument: the values
    [rng.Intn] and [rng.Float64] return are given to the functions that draw
    them.  Weights are rational numbers; rounding of [float64] is not modelled. *)
From Stdlib Require Import QArith Lqa.
From S2P Require Import Prelude.
Local Open Scope Z_scope.

(** ** Plain random numbers *)

(** [GenerateRandomNumber]: the inner loop skips draws that were taken; [draws]
    are the successive results of [rng.Intn(spread)]. *)
Fixpoint draw_fresh (draws : list Z) (start : Z) (taken : gset Z) : option (Z * list Z) :=
  match draws with
  | [] => None
  | r :: draws =>
      let num := r + start in
      if bool_decide (num ∈ taken) then draw_fresh draws start taken else Some (num, draws)
  end.

Fixpoint draw_numbers (count : nat) (draws : list Z) (start : Z) (taken : gset Z) : option (list Z) :=
  match count with
  | O => Some []
  | S count =>
      '(num, draws) ← draw_fresh draws start taken;
      nums ← draw_numbers count draws start ({[num]} ∪ taken);
      Some (num :: nums)
  end.

(** [Ok None]: the draws given ran out.  [Ok (Some [])] stands for [nil]. *)
Definition GenerateRandomNumber (draws : list Z) (start end_ count : Z) : res (option (list Z)) :=
  let spread := end_ - start in
  if bool_decide (end_ < start) || bool_decide (spread < count) || bool_decide (count = 0) then Ok (Some [])
  else if bool_decide (count < 0) then Panic "makeslice: len out of range"
  else Ok (draw_numbers (Z.to_nat count) draws start ∅).

Definition random_alphabet : bytes :=
  string_bytes "0123456789abcdefghijklmnopqrstuvwxyzABCDEFGHIJKLMNOPQRSTUVWXYZ".

Definition GetRandomString (draws : list Z) (length_ : Z) : res bytes :=
  foldr (fun r acc => b ← index random_alphabet r; l ← acc; Ok (b :: l)) (Ok []) (take (Z.to_nat length_) draws).

(** ** Weights *)

Record indexedWeight := mkIW { iw_index : nat; iw_weight : Q }.

(** [filterAndSum]: the items with a positive weight, with their indices. *)
Fixpoint filterAndSum (i : nat) (items : list Q) (sum : Q) : list indexedWeight * Q :=
  match items with
  | [] => ([], sum)
  | w :: items =>
      if Qle_bool w 0%Q then filterAndSum (S i) items sum
      else let '(l, s) := filterAndSum (S i) items (sum + w)%Q in (mkIW i w :: l, s)
  end.

Fixpoint cumulate (sum cumulated : Q) (weights : list indexedWeight) : list indexedWeight :=
  match weights with
  | [] => []
  | x :: weights =>
      let w := (iw_weight x / sum)%Q in
      mkIW (iw_index x) (w + cumulated)%Q :: cumulate sum (cumulated + w)%Q weights
  end.

Definition normalizeAndCumulateWeights (items : list Q) : list indexedWeight :=
  let '(weights, sum) := filterAndSum 0 items 0%Q in
  if Qeq_bool sum 0%Q then weights else cumulate sum 0%Q weights.

(** [sort.Search(n, f)]: binary search for the first index where [f] holds. *)
Fixpoint search_loop (fuel : nat) (f : nat → bool) (i j : nat) : nat :=
  match fuel with
  | O => i
  | S fuel =>
      if bool_decide (i < j)%nat then
        let h := Nat.div2 (i + j) in
        if f h then search_loop fuel f i h else search_loop fuel f (S h) j
      else i
  end.
Definition Search (n : nat) (f : nat → bool) : nat := search_loop (S n) f 0 n.

(** [WeightedRandomSelect]: the index of the item, [None] for an empty list;
    [intn k] is [rng.Intn(k)], [u] is [rng.Float64()]. *)
Definition WeightedRandomSelect (intn : nat → nat) (u : Q) (items : list Q) : option nat :=
  match items with
  | [] => None
  | _ =>
      let weights := normalizeAndCumulateWeights items in
      match weights with
      | [] => Some (intn (length items))
      | _ =>
          let k := Search (length weights)
                     (fun i => match weights !! i with Some x => Qle_bool u (iw_weight x) | None => true end) in
          let k := if bool_decide (k = length weights) then intn (length weights) else k in
          iw_index <$> weights !! k
      end
  end.

(** One selection of [WeightedRandomSelectMultiple]: the position of the first
    weight where the running sum reaches the drawn value. *)
Fixpoint pick (target cumulated : Q) (weights : list indexedWeight) : option (nat * indexedWeight) :=
  match weights with
  | [] => None
  | x :: weights =>
      let cumulated := (cumulated + iw_weight x)%Q in
      if Qle_bool target cumulated then Some (O, x)
      else (fun '(j, y) => (S j, y)) <$> pick target cumulated weights
  end.

(** [weights[j] = weights[len-1]; weights = weights[:len-1]]. *)
Definition remove_swap (j : nat) (weights : list indexedWeight) : list indexedWeight :=
  let n := length weights in
  let weights := match weights !! (n - 1)%nat with
                 | Some last => if bool_decide (j < n - 1)%nat then <[j := last]> weights else weights
                 | None => weights
                 end in
  take (n - 1) weights.

Fixpoint select_loop (us : list Q) (sum : Q) (weights : list indexedWeight) : list nat :=
  match us with
  | [] => []
  | u :: us =>
      match pick (u * sum)%Q 0%Q weights with
      | None => select_loop us sum weights
      | Some (j, w) =>
          iw_index w ::
          (if bool_decide (1 < length weights)%nat
           then select_loop us (sum - iw_weight w)%Q (remove_swap j weights)
           else select_loop us sum weights)
      end
  end.

(** The indices selected; [us] holds at least [count] values of [rng.Float64()]. *)
Definition WeightedRandomSelectMultiple (us : list Q) (items : list Q) (count : nat) : list nat :=
  let '(weights, sum) := filterAndSum 0 items 0%Q in
  match weights with
  | [] => []
  | _ =>
      let count := if bool_decide (length weights < count)%nat then length weights else count in
      select_loop (take count us) sum weights
  end.

(** ** Distinct numbers *)

Lemma draw_fresh_spec draws start taken num rest :
  draw_fresh draws start taken = Some (num, rest) →
  (num ∉ taken) ∧ (num - start) ∈ draws ∧ (∀ r, r ∈ rest → r ∈ draws).
Proof.
  induction draws as [|r draws IH]; cbn; [done|]. case_bool_decide as Ht.
  - intros H. destruct (IH H) as (? & ? & ?). split_and!; [done|by right|]. intros. right. auto.
  - intros [= <- <-]. split_and!; [done| |].
    + replace (r + start - start) with r by lia. by left.
    + intros. by right.
Qed.

Lemma draw_numbers_spec count draws start taken nums :
  draw_numbers count draws start taken = Some nums →
  length nums = count ∧ NoDup nums ∧ Forall (fun n => (n ∉ taken) ∧ (n - start) ∈ draws) nums.
Proof.
  revert draws taken nums. induction count as [|count IH]; intros draws taken nums; cbn.
  { intros [= <-]. split_and!; [done|constructor|constructor]. }
  destruct (draw_fresh draws start taken) as [[num rest]|] eqn:E; cbn; [|done].
  destruct (draw_numbers count rest start _) as [l|] eqn:El; cbn; [|done]. intros [= <-].
  apply draw_fresh_spec in E as (Hn & Hin & Hsub). apply IH in El as (Hlen & Hnd & Hf).
  rewrite Forall_lookup in Hf. split_and!; [simpl; lia| |].
  - apply list.NoDup_cons. split; [|done]. intros [i Hi]%list_elem_of_lookup.
    destruct (Hf _ _ Hi) as [Hx _]. apply Hx. rewrite elem_of_union. left. by apply elem_of_singleton.
  - constructor; [done|]. rewrite Forall_lookup. intros i x Hx. destruct (Hf _ _ Hx) as [H1 H2].
    split; [|auto]. intros Ht. apply H1. rewrite elem_of_union. by right.
Qed.

(** The values a list of draws still offers. *)
Definition offered (draws : list Z) (start : Z) (taken : gset Z) : gset Z :=
  list_to_set (map (fun r => r + start) draws) ∖ taken.

Lemma draw_fresh_total draws start taken :
  offered draws start taken ≠ ∅ →
  ∃ num rest, draw_fresh draws start taken = Some (num, rest)
    ∧ offered draws start taken ⊆ {[num]} ∪ offered rest start ({[num]} ∪ taken).
Proof.
  unfold offered. induction draws as [|r draws IH]; cbn; [set_solver|]. intros H.
  case_bool_decide as Ht.
  - destruct IH as (num & rest & -> & Hs); [set_solver|]. exists num, rest. split; [done|]. set_solver.
  - exists (r + start), draws. split; [done|]. intros x Hx.
    destruct (decide (x = r + start)); set_solver.
Qed.

Lemma draw_numbers_total count draws start taken :
  (count ≤ size (offered draws start taken))%nat → is_Some (draw_numbers count draws start taken).
Proof.
  revert draws taken. induction count as [|count IH]; intros draws taken Hc; cbn; [by eexists|].
  destruct (draw_fresh_total draws start taken) as (num & rest & -> & Hs).
  { intros E. rewrite E, size_empty in Hc. lia. }
  cbn. apply subseteq_size in Hs. rewrite size_union_alt, size_singleton in Hs.
  destruct (IH rest ({[num]} ∪ taken)) as [l ->]; [|by eexists].
  enough (size (offered rest start ({[num]} ∪ taken) ∖ {[num]}) ≤ size (offered rest start ({[num]} ∪ taken)))%nat by lia.
  apply subseteq_size. set_solver.
Qed.

Lemma offered_size draws start : size (offered draws start ∅) = size (list_to_set draws : gset Z).
Proof.
  unfold offered. rewrite difference_empty_L. induction draws as [|r draws IH]; [done|].
  cbn [map list_to_set]. destruct (decide (r ∈ draws)) as [Hr|Hr].
  - rewrite !subseteq_union_1_L; [done|set_solver|].
    apply singleton_subseteq_l, elem_of_list_to_set, list_elem_of_In, in_map_iff. exists r.
    by rewrite <- list_elem_of_In.
  - rewrite !size_union, !size_singleton, IH; [done|set_solver|].
    apply disjoint_singleton_l. rewrite elem_of_list_to_set, list_elem_of_In, in_map_iff.
    intros (x & Hx & Hin%list_elem_of_In). assert (x = r) as -> by lia. done.
Qed.

(** When the generator draws at least [count] different numbers,
    [GenerateRandomNumber] returns, and what it returns are as many numbers as
    asked for, pairwise different, and in the interval. *)
Theorem random_numbers_distinct draws start end_ count :
  Forall (fun r => 0 ≤ r < end_ - start) draws → 0 < count ≤ end_ - start →
  count ≤ Z.of_nat (size (list_to_set draws : gset Z)) →
  ∃ nums, GenerateRandomNumber draws start end_ count = Ok (Some nums)
    ∧ Z.of_nat (length nums) = count ∧ NoDup nums ∧ Forall (fun n => start ≤ n < end_) nums.
Proof.
  intros Hd Hc Hs. unfold GenerateRandomNumber.
  rewrite !bool_decide_eq_false_2 by lia. cbn [orb].
  destruct (draw_numbers_total (Z.to_nat count) draws start ∅) as [nums H]; [rewrite offered_size; lia|].
  exists nums. rewrite H. split; [done|].
  apply draw_numbers_spec in H as (Hl & Hnd & Hf). split_and!; [lia|done|].
  rewrite Forall_lookup in Hf |- *. rewrite Forall_lookup in Hd. intros i n Hn.
  destruct (Hf _ _ Hn) as [_ [j Hj]%list_elem_of_lookup]. specialize (Hd _ _ Hj). cbn in Hd. lia.
Qed.

(** ** Weighted selection *)

Fixpoint total (l : list indexedWeight) : Q :=
  match l with [] => 0%Q | x :: l => (iw_weight x + total l)%Q end.

Definition positive (l : list indexedWeight) : Prop := Forall (fun x => 0 < iw_weight x)%Q l.

(** The positive weights of the items, with their positions. *)
Definition positives (items : list Q) : list indexedWeight := (filterAndSum 0 items 0%Q).1.

Lemma filterAndSum_fst i items s : (filterAndSum i items s).1 = (filterAndSum i items 0%Q).1.
Proof.
  revert i s. induction items as [|w items IH]; intros i s; cbn; [done|].
  destruct (Qle_bool w 0); [apply IH|]. pose proof (IH (S i) (s + w)%Q) as H1.
  pose proof (IH (S i) (0 + w)%Q) as H2. destruct (filterAndSum (S i) items (s + w)) as [l1 s1],
    (filterAndSum (S i) items (0 + w)) as [l2 s2]. cbn in *. congruence.
Qed.

Lemma filterAndSum_total i items s :
  ((filterAndSum i items s).2 == s + total (filterAndSum i items s).1)%Q.
Proof.
  revert i s. induction items as [|w items IH]; intros i s; cbn; [ring|].
  destruct (Qle_bool w 0); [apply IH|]. pose proof (IH (S i) (s + w)%Q) as H1.
  destruct (filterAndSum (S i) items (s + w)) as [l1 s1]. cbn in *. rewrite H1. ring.
Qed.

Lemma filterAndSum_elems i items s :
  positive (filterAndSum i items s).1 ∧ NoDup (map iw_index (filterAndSum i items s).1)
  ∧ Forall (fun x => (i ≤ iw_index x)%nat ∧ items !! (iw_index x - i)%nat = Some (iw_weight x))
      (filterAndSum i items s).1.
Proof.
  revert i s. induction items as [|w items IH]; intros i s; cbn.
  { split_and!; constructor. }
  destruct (Qle_bool w 0) eqn:E.
  - destruct (IH (S i) s) as (? & ? & Hf). split_and!; [done|done|].
    rewrite Forall_lookup in Hf |- *. intros j x Hx. destruct (Hf _ _ Hx) as [H1 H2].
    split; [lia|]. by replace (iw_index x - i)%nat with (S (iw_index x - S i)) by lia.
  - destruct (IH (S i) (s + w)%Q) as (Hp & Hnd & Hf). destruct (filterAndSum (S i) items (s + w)) as [l s'].
    cbn in *. rewrite Forall_lookup in Hf. split_and!.
    + constructor; [|done]. cbn. apply Qnot_le_lt. intros Hle. apply Qle_bool_iff in Hle. congruence.
    + apply list.NoDup_cons. split; [|done]. intros [j Hj]%list_elem_of_lookup.
      rewrite list_lookup_fmap in Hj. destruct (l !! j) as [x|] eqn:Ex; [|done]. cbn in Hj.
      destruct (Hf _ _ Ex) as [H1 _]. injection Hj as Hj. lia.
    + constructor; [cbn; split; [lia|by rewrite Nat.sub_diag]|]. rewrite Forall_lookup. intros j x Hx.
      destruct (Hf _ _ Hx) as [H1 H2]. split; [lia|].
      by replace (iw_index x - i)%nat with (S (iw_index x - S i)) by lia.
Qed.

Lemma total_nonneg l : positive l → (0 <= total l)%Q.
Proof. induction 1; cbn; lra. Qed.

Lemma total_take_le l k : positive l → (total (take k l) <= total l)%Q.
Proof.
  intros Hp. revert k. induction Hp as [|x l Hx Hp IH]; intros [|k]; cbn; try lra.
  - pose proof (total_nonneg l Hp). lra.
  - specialize (IH k). lra.
Qed.

Lemma total_take_mono l k j : positive l → (k ≤ j)%nat → (total (take k l) <= total (take j l))%Q.
Proof.
  intros Hp. revert k j. induction Hp as [|x l Hx Hp IH]; intros [|k] [|j] Hkj; cbn; try lra; try lia.
  - pose proof (total_nonneg (take j l) ltac:(by apply Forall_take)). lra.
  - specialize (IH k j ltac:(lia)). lra.
Qed.

Lemma cumulate_lookup T c l k x :
  l !! k = Some x → ¬ (T == 0)%Q →
  ∃ y, cumulate T c l !! k = Some (mkIW (iw_index x) y) ∧ (y == c + total (take (k + 1) l) / T)%Q.
Proof.
  revert c k. induction l as [|z l IH]; intros c [|k] Hk HT; try done.
  - injection Hk as ->. eexists. split; [done|]. cbn [Nat.add take total]. rewrite take_0. cbn [total]. field. done.
  - destruct (IH (c + iw_weight z / T)%Q k Hk HT) as (y & E & Hy). exists y. split; [done|].
    rewrite Hy. cbn [Nat.add take total]. field. done.
Qed.

Lemma length_cumulate T c l : length (cumulate T c l) = length l.
Proof. revert c. induction l as [|x l IH]; intros c; cbn; [done|]. by rewrite IH. Qed.

(** Binary search finds the border of a predicate that stays true. *)
Lemma search_loop_border fuel f i j n :
  (j - i < fuel)%nat → (i ≤ j ≤ n)%nat →
  (∀ k, (k < i)%nat → f k = false) → (∀ k, (j ≤ k < n)%nat → f k = true) →
  (∀ k k', (k ≤ k' < n)%nat → f k = true → f k' = true) →
  (search_loop fuel f i j ≤ n)%nat
  ∧ (∀ k, (k < search_loop fuel f i j)%nat → f k = false)
  ∧ (∀ k, (search_loop fuel f i j ≤ k < n)%nat → f k = true).
Proof.
  intros Hf Hij Hi Hj Hm. revert i j Hf Hij Hi Hj.
  induction fuel as [|fuel IH]; intros i j Hf Hij Hi Hj; [lia|]. cbn [search_loop].
  case_bool_decide as Hlt; [|assert (i = j) as -> by lia; split_and!; [lia|done|done]].
  assert (i ≤ Nat.div2 (i + j) < j)%nat as Hh.
  { pose proof (Nat.div2_odd (i + j)). destruct (Nat.odd (i + j)); cbn [Nat.b2n] in *; lia. }
  set (h := Nat.div2 (i + j)) in *. destruct (f h) eqn:Eh; apply IH; try lia; try done.
  - intros k Hk. apply (Hm h k); [lia|done].
  - intros k Hk. destruct (decide (k < i)%nat); [by apply Hi|].
    destruct (f k) eqn:Ek; [|done]. assert (f h = true) by (apply (Hm k h); [lia|done]). congruence.
Qed.

Lemma normalize_cumulate items :
  positives items ≠ [] →
  ¬ (total (positives items) == 0)%Q
  ∧ ∃ T, (T == total (positives items))%Q
    ∧ normalizeAndCumulateWeights items = cumulate T 0%Q (positives items).
Proof.
  intros Hne. pose proof (filterAndSum_total 0 items 0%Q) as Ht.
  destruct (filterAndSum_elems 0 items 0%Q) as (Hp & _ & _).
  unfold normalizeAndCumulateWeights, positives in *.
  destruct (filterAndSum 0 items 0) as [ws T]. cbn in *.
  assert (0 < total ws)%Q as Hpos.
  { destruct Hp as [|x ws Hx Hp]; [done|]. cbn. pose proof (total_nonneg ws Hp). lra. }
  split; [lra|]. exists T. split; [lra|].
  destruct (Qeq_bool T 0) eqn:E; [|done]. apply Qeq_bool_iff in E. lra.
Qed.

Lemma le_share u T c : (0 < T)%Q → (u <= 0 + c / T)%Q ↔ (u * T <= c)%Q.
Proof.
  intros HT. assert (c == c / T * T)%Q as E by (field; lra). set (d := (c / T)%Q) in *. clearbody d.
  split; intros H; nra.
Qed.

Lemma select_by_share intn u items :
  (0 <= u < 1)%Q → positives items ≠ [] →
  ∃ k x, positives items !! k = Some x
    ∧ WeightedRandomSelect intn u items = Some (iw_index x)
    ∧ items !! iw_index x = Some (iw_weight x) ∧ (0 < iw_weight x)%Q
    ∧ (u * total (positives items) <= total (take (k + 1) (positives items)))%Q
    ∧ (k = 0%nat ∨ (total (take k (positives items)) < u * total (positives items))%Q).
Proof.
  intros Hu Hne. destruct (normalize_cumulate items Hne) as (HT0 & T & HT & En).
  destruct (filterAndSum_elems 0 items 0%Q) as (Hp & _ & Hidx). fold (positives items) in Hp, Hidx.
  unfold WeightedRandomSelect. rewrite En. clear En. set (ws := positives items) in *.
  destruct items as [|i0 items']; [done|].
  destruct (cumulate T 0%Q ws) as [|c0 cs] eqn:Ec.
  { apply (f_equal length) in Ec. rewrite length_cumulate in Ec. by destruct ws. }
  rewrite <- Ec, length_cumulate. clear Ec c0 cs.
  set (f := fun i => match cumulate T 0%Q ws !! i with Some x => Qle_bool u (iw_weight x) | None => true end).
  assert (¬ (T == 0)%Q) as HTn by (rewrite HT; done).
  assert (0 < T)%Q as HTp by (pose proof (total_nonneg ws Hp); lra).
  assert (∀ k, (k < length ws)%nat → f k = true ↔ (u * T <= total (take (k + 1) ws))%Q) as Hf.
  { intros k Hk. destruct (lookup_lt_is_Some_2 ws k Hk) as [x Hx]. unfold f.
    destruct (cumulate_lookup T 0%Q ws k x Hx HTn) as (y & -> & Hy). cbn. rewrite Qle_bool_iff, Hy.
    by apply le_share. }
  destruct (search_loop_border (S (length ws)) f 0 (length ws) (length ws)) as (Hle & Hlo & Hhi);
    [lia|lia|lia|lia| |].
  { intros k k' Hk. rewrite !Hf by lia. intros H. eapply Qle_trans; [exact H|]. apply total_take_mono; [done|lia]. }
  fold (Search (length ws) f) in Hle, Hlo, Hhi. set (k := Search (length ws) f) in *.
  assert (k < length ws)%nat as Hk.
  { destruct (decide (k = length ws)) as [E|E]; [|lia]. exfalso.
    assert (length ws ≠ 0%nat) as Hl by (by destruct ws).
    assert (f (length ws - 1)%nat = false) as Hlast by (apply Hlo; lia).
    assert (f (length ws - 1)%nat = true) as Hlast'; [|congruence].
    apply Hf; [lia|]. rewrite take_ge by lia. nra. }
  rewrite bool_decide_eq_false_2 by lia. destruct (lookup_lt_is_Some_2 ws k Hk) as [x Hx].
  destruct (cumulate_lookup T 0%Q ws k x Hx HTn) as (y & -> & _).
  rewrite Forall_lookup in Hidx. destruct (Hidx _ _ Hx) as [_ Hix]. rewrite Nat.sub_0_r in Hix.
  unfold positive in Hp. rewrite Forall_lookup in Hp.
  exists k, x. split_and!; [done|done|done|by eapply Hp|..].
  - rewrite <- HT. apply Hf; [done|]. apply Hhi. lia.
  - destruct (decide (k = 0%nat)) as [|Hk0]; [by left|]. right. rewrite <- HT. apply Qnot_le_lt. intros H.
    assert (f (k - 1)%nat = false) as Hf1 by (apply Hlo; lia).
    assert (f (k - 1)%nat = true); [|congruence]. apply Hf; [lia|]. by replace (k - 1 + 1)%nat with k by lia.
Qed.

(** Weighted selection is by intervals of the running sum: of the items with
    a positive weight, the one chosen is the first whose running sum of weights,
    divided by the whole, reaches the number drawn from [0,1).  So each such
    item is chosen exactly on an interval as long as its share of the weight,
    no other item is ever chosen, and the binary search never misses. *)
Theorem weighted_select_by_share intn u items :
  (0 <= u < 1)%Q → positives items ≠ [] →
  ∃ k x, positives items !! k = Some x
    ∧ WeightedRandomSelect intn u items = Some (iw_index x)
    ∧ items !! iw_index x = Some (iw_weight x) ∧ (0 < iw_weight x)%Q
    ∧ (u * total (positives items) <= total (take (k + 1) (positives items)))%Q
    ∧ (k = 0%nat ∨ (total (take k (positives items)) < u * total (positives items))%Q).
Proof. apply select_by_share. Qed.

(** What users of the selection rely on. *)
Lemma WeightedRandomSelect_some intn u items :
  (0 <= u < 1)%Q → positives items ≠ [] →
  ∃ i, WeightedRandomSelect intn u items = Some i ∧ ∃ w, items !! i = Some w ∧ (0 < w)%Q.
Proof.
  intros Hu Hne. destruct (select_by_share intn u items Hu Hne) as (k & x & _ & E & Hi & Hw & _).
  exists (iw_index x). split; [done|]. by exists (iw_weight x).
Qed.

Lemma positives_nonempty items k w :
  items !! k = Some w → (0 < w)%Q → positives items ≠ [].
Proof.
  unfold positives. generalize 0%nat at 1. revert k. induction items as [|v items IH]; intros k i Hk Hw; [done|].
  cbn. destruct (Qle_bool v 0) eqn:E.
  - destruct k as [|k]; [|by apply (IH k)]. injection Hk as ->. apply Qle_bool_iff in E. lra.
  - by destruct (filterAndSum (S i) items (0 + v)).
Qed.

(** ** Selecting several items *)

Lemma pick_some target c l :
  positive l → (target <= c + total l)%Q → l ≠ [] →
  ∃ j x, pick target c l = Some (j, x) ∧ l !! j = Some x.
Proof.
  intros Hp. revert c. induction Hp as [|x l Hx Hp IH]; intros c Ht Hne; [done|]. cbn in *.
  destruct (Qle_bool target (c + iw_weight x)) eqn:E; [by exists 0%nat, x|].
  destruct (decide (l = [])) as [->|Hl].
  - exfalso. assert (target <= c + iw_weight x)%Q as H by (cbn in Ht; lra). apply Qle_bool_iff in H. congruence.
  - destruct (IH (c + iw_weight x)%Q) as (j & y & -> & Hj); [lra|done|]. by exists (S j), y.
Qed.

Lemma remove_swap_perm j l x : l !! j = Some x → x :: remove_swap j l ≡ₚ l.
Proof.
  intros Hj. pose proof (lookup_lt_Some _ _ _ Hj) as Hlt. unfold remove_swap.
  destruct (exists_last (l := l)) as (l' & last & ->); [by intros ->; simpl in Hlt; lia|].
  rewrite length_app in *. cbn [length] in *. replace (length l' + 1 - 1)%nat with (length l') by lia.
  rewrite list_lookup_middle by done. case_bool_decide as Hlast.
  - rewrite insert_app_l by lia. rewrite lookup_app_l in Hj by lia.
    rewrite take_app_length' by (by rewrite length_insert).
    rewrite <- (take_drop_middle l' j x Hj) at 2.
    rewrite insert_take_drop by lia. rewrite <- !app_assoc. cbn.
    rewrite Permutation_middle. apply Permutation_app_head. constructor. by rewrite Permutation_app_comm.
  - assert (j = length l') as -> by lia. rewrite list_lookup_middle in Hj by done. injection Hj as ->.
    rewrite take_app_length. by rewrite Permutation_app_comm.
Qed.

Lemma total_perm l l' : l ≡ₚ l' → (total l == total l')%Q.
Proof.
  induction 1 as [| x l l' Hp IH | x y l | l1 l2 l3 _ IH1 _ IH2]; cbn.
  - reflexivity.
  - rewrite IH. reflexivity.
  - ring.
  - by rewrite IH1.
Qed.

Lemma select_loop_spec us sum l :
  positive l → NoDup (map iw_index l) → (sum == total l)%Q → Forall (fun u => 0 <= u < 1)%Q us →
  (length us ≤ length l)%nat →
  length (select_loop us sum l) = length us ∧ NoDup (select_loop us sum l)
  ∧ Forall (fun i => i ∈ map iw_index l) (select_loop us sum l).
Proof.
  intros Hp Hnd Hsum Hu. revert sum l Hp Hnd Hsum.
  induction Hu as [|u us Hu Hus IH]; intros sum l Hp Hnd Hsum Hlen; cbn [select_loop].
  { split_and!; [done|constructor|constructor]. }
  cbn [length] in Hlen. pose proof (total_nonneg l Hp) as Hn.
  destruct (pick_some (u * sum)%Q 0%Q l Hp) as (j & x & -> & Hj); [nra|by destruct l; simpl in *; [lia|]|].
  pose proof (remove_swap_perm j l x Hj) as Hperm.
  assert (iw_index x ∈ map iw_index l) as Hx.
  { apply list_elem_of_lookup_2 with j. by rewrite list_lookup_fmap, Hj. }
  case_bool_decide as H1.
  - assert (NoDup (map iw_index (x :: remove_swap j l))) as Hnd' by (by rewrite Hperm).
    apply list.NoDup_cons in Hnd' as [Hx' Hnd'].
    assert (positive (x :: remove_swap j l)) as Hp' by (unfold positive; by rewrite Hperm).
    apply Forall_cons_1 in Hp' as [_ Hp'].
    destruct (IH (sum - iw_weight x)%Q (remove_swap j l)) as (El & Hnd2 & Hin); [done|done| | |].
    { pose proof (total_perm _ _ Hperm) as Ht. cbn in Ht. lra. }
    { apply Permutation_length in Hperm. cbn in Hperm. lia. }
    rewrite Forall_lookup in Hin. cbn [length]. split_and!; [by rewrite El| |].
    + apply list.NoDup_cons. split; [|done]. intros [i Hi]%list_elem_of_lookup. by apply (Hin _ _) in Hi.
    + constructor; [done|]. rewrite Forall_lookup. intros i y Hy. apply (Hin _ _) in Hy.
      rewrite <- Hperm. by right.
  - destruct us as [|u' us]; [|simpl in Hlen; lia]. cbn [select_loop length].
    split_and!; [done|apply NoDup_singleton|by constructor].
Qed.

(** [WeightedRandomSelectMultiple] selects as many items as were asked for,
    or all with a positive weight if there are fewer; no item twice, and only
    items with a positive weight. *)
Theorem weighted_select_multiple_distinct us items count :
  Forall (fun u => 0 <= u < 1)%Q us → (count ≤ length us)%nat →
  let r := WeightedRandomSelectMultiple us items count in
  length r = (count `min` length (positives items))%nat ∧ NoDup r
  ∧ Forall (fun i => ∃ w, items !! i = Some w ∧ (0 < w)%Q) r.
Proof.
  intros Hu Hc. unfold WeightedRandomSelectMultiple.
  pose proof (filterAndSum_total 0 items 0%Q) as Ht.
  destruct (filterAndSum_elems 0 items 0%Q) as (Hp & Hnd & Hidx). unfold positives.
  destruct (filterAndSum 0 items 0) as [l sum]. cbn in Ht, Hp, Hnd, Hidx |- *.
  set (n := if bool_decide (length l < count)%nat then length l else count).
  assert (n = count `min` length l)%nat as En by (unfold n; case_bool_decide; lia).
  assert (match l with [] => [] | _ => select_loop (take n us) sum l end = select_loop (take n us) sum l) as ->.
  { destruct l; [|done]. by replace n with 0%nat by (simpl in En; lia). }
  destruct (select_loop_spec (take n us) sum l Hp Hnd) as (H1 & H2 & H3).
  - lra.
  - by apply Forall_take.
  - rewrite length_take. lia.
  - split_and!; [rewrite H1, length_take; lia|done|].
    rewrite Forall_lookup in H3 |- *. intros k i Hi. specialize (H3 _ _ Hi). cbn in H3.
    apply list_elem_of_lookup in H3 as [j Hj]. rewrite list_lookup_fmap in Hj.
    destruct (l !! j) as [x|] eqn:Ex; [|done]. injection Hj as <-.
    unfold positive in Hp. rewrite Forall_lookup in Hp, Hidx. exists (iw_weight x).
    destruct (Hidx _ _ Ex) as [_ Hix]. rewrite Nat.sub_0_r in Hix. split; [done|by eapply Hp].
Qed.

Module RandomDemo.

Lemma random_numbers_distinct_witness :
  ∃ nums, GenerateRandomNumber [2; 0; 2; 1] 10 13 3 = Ok (Some nums)
    ∧ Z.of_nat (length nums) = 3 ∧ NoDup nums ∧ Forall (fun n => 10 ≤ n < 13) nums.
Proof.
  apply (random_numbers_distinct [2; 0; 2; 1] 10 13 3).
  - repeat constructor; lia.
  - lia.
  - vm_compute. discriminate.
Defined.

Lemma weighted_select_by_share_witness :
  let items := [1 # 1; 0 # 1; 3 # 1]%Q in
  ∃ k x, positives items !! k = Some x
    ∧ WeightedRandomSelect (fun _ => 0%nat) (1 # 2) items = Some (iw_index x)
    ∧ items !! iw_index x = Some (iw_weight x) ∧ (0 < iw_weight x)%Q
    ∧ ((1 # 2) * total (positives items) <= total (take (k + 1) (positives items)))%Q
    ∧ (k = 0%nat ∨ (total (take k (positives items)) < (1 # 2) * total (positives items))%Q).
Proof.
  cbv zeta. apply weighted_select_by_share; [split; [discriminate|reflexivity]|discriminate].
Defined.

Lemma weighted_select_multiple_distinct_witness :
  let r := WeightedRandomSelectMultiple [1 # 2; 1 # 3]%Q [1 # 1; 0 # 1; 3 # 1; 2 # 1]%Q 2 in
  length r = 2%nat ∧ NoDup r ∧ Forall (fun i => ∃ w, [1 # 1; 0 # 1; 3 # 1; 2 # 1]%Q !! i = Some w ∧ (0 < w)%Q) r.
Proof.
  apply (weighted_select_multiple_distinct [1 # 2; 1 # 3]%Q [1 # 1; 0 # 1; 3 # 1; 2 # 1]%Q 2).
  - repeat constructor; discriminate.
  - reflexivity.
Defined.

End RandomDemo.
