(* ===== verification/HashRing.v ===== *)
(** * HashRing: the set of nodes and the list of those online

    Models framework/utils/hashring/hashring.go.  Nodes are kept by value under
    their id; a node object that a caller adds under two ids, and so shares
    between two entries, is outside the model.  The data map and the textual
    form of a node are left out. *)
From Stdlib Require Import QArith.
From S2P Require Import Prelude Random.
Local Open Scope Z_scope.

Record Node := mkNode {
  Host : string; Rest : string; DiskUsage : option Q; (* [None]: not a number *)
  Weight : Q; id : string; onlineIndex : Z
}.

Record nodeKey := mkKey { key_id : string; key_weight : Q }.

Record HashRing := mkRing { nodes : gmap string Node; onlineNodes : list nodeKey }.

Definition New : HashRing := mkRing ∅ [].

Definition set_index (n : Node) (i : Z) : Node :=
  mkNode (Host n) (Rest n) (DiskUsage n) (Weight n) (id n) i.

(** [node.SetDiskUsage]: the first assignment is overwritten by the second, which
    divides by zero when there is no disk. *)
Definition SetDiskUsage (n : Node) (diskSize freeDisk : Z) : Node :=
  let usage := if Z.eqb diskSize 0 then None
               else Some (inject_Z (u64 (diskSize - freeDisk)) / inject_Z diskSize)%Q in
  mkNode (Host n) (Rest n) usage (Weight n) (id n) (onlineIndex n).

Definition Node_IsOnline (n : option Node) : bool :=
  match n with Some n => bool_decide (-1 < onlineIndex n) | None => false end.

(** [node.SetID]: only when it is missing. *)
Definition SetID (n : Node) (ID : string) : Node :=
  if bool_decide (id n = "")
  then mkNode (Host n) (Rest n) (DiskUsage n) (Weight n) ID (onlineIndex n) else n.

(** ** Operations *)

Definition AddNode (r : HashRing) (ID : string) (node : Node) : HashRing :=
  let ID := if bool_decide (ID = "") then id node else ID in
  let w := if Qeq_bool (Weight node) 0 then 1%Q else Weight node in
  let node := mkNode (Host node) (Rest node) (DiskUsage node) w ID (-1) in
  mkRing (<[ID := node]> (nodes r)) (onlineNodes r).

Definition IsOnline (r : HashRing) (ID : string) : bool := Node_IsOnline (nodes r !! ID).

Definition SetOnline (r : HashRing) (ID : string) : HashRing :=
  match nodes r !! ID with
  | None => r
  | Some node =>
      if Node_IsOnline (Some node) then r
      else mkRing (<[ID := set_index node (Z.of_nat (length (onlineNodes r)))]> (nodes r))
                  (onlineNodes r ++ [mkKey (id node) (Weight node)])
  end.

(** [r.removeFromOnlineList(node)] for the node stored under [ID]. *)
Definition removeFromOnlineList (r : HashRing) (ID : string) : res HashRing :=
  match nodes r !! ID with
  | None => Ok r
  | Some node =>
      if negb (Node_IsOnline (Some node)) then Ok r
      else
        r' ← (if bool_decide (length (onlineNodes r) ≤ 1)%nat then Ok (mkRing (nodes r) [])
              else
                match onlineNodes r !! (length (onlineNodes r) - 1)%nat with
                | None => Panic "index out of range"
                | Some lastElement =>
                    r' ← (if bool_decide (key_id lastElement = id node) then Ok r
                          else if bool_decide (onlineIndex node < Z.of_nat (length (onlineNodes r))) then
                            match nodes r !! key_id lastElement with
                            | None => Panic "invalid memory address or nil pointer dereference"
                            | Some other =>
                                Ok (mkRing (<[key_id lastElement := set_index other (onlineIndex node)]> (nodes r))
                                      (<[Z.to_nat (onlineIndex node) := lastElement]> (onlineNodes r)))
                            end
                          else Panic "index out of range");
                    Ok (mkRing (nodes r') (take (length (onlineNodes r') - 1) (onlineNodes r')))
                end);
        Ok (mkRing (alter (fun n => set_index n (-1)) ID (nodes r')) (onlineNodes r'))
  end.

Definition RemoveNode (r : HashRing) (ID : string) : res HashRing :=
  match nodes r !! ID with
  | None => Ok r
  | Some _ => r ← removeFromOnlineList r ID; Ok (mkRing (delete ID (nodes r)) (onlineNodes r))
  end.

Definition SetOffline (r : HashRing) (ID : string) : res HashRing := removeFromOnlineList r ID.

(** A nil node is ignored by [SetDiskUsage]. *)
Definition UpdateNodeDiskUsage (r : HashRing) (ID : string) (diskSize freeDisk : Z) : HashRing :=
  mkRing (alter (fun n => SetDiskUsage n diskSize freeDisk) ID (nodes r)) (onlineNodes r).

Definition NodeCount (r : HashRing) : Z := u32 (Z.of_nat (size (nodes r))).
Definition NodeOkCount (r : HashRing) : Z := u32 (Z.of_nat (length (onlineNodes r))).
Definition GetOnlineNodeIDs (r : HashRing) : list string := map key_id (onlineNodes r).

(** Random selection: the id and the node, [("", None)] when there is none. *)
Definition selected (r : HashRing) (keys : list nodeKey) (k : option nat) : string * option Node :=
  match k with
  | None => ("", None)
  | Some k => match keys !! k with Some key => (key_id key, nodes r !! key_id key) | None => ("", None) end
  end.

Definition RandomNode (intn : nat → nat) (u : Q) (r : HashRing) : string * option Node :=
  selected r (onlineNodes r) (WeightedRandomSelect intn u (map key_weight (onlineNodes r))).

Definition RandomNodeExcludedIDs (intn : nat → nat) (u : Q) (excludedIDs : list string) (r : HashRing)
  : string * option Node :=
  let filteredNodes := filter (fun key => key_id key ∉ (list_to_set excludedIDs : gset string)) (onlineNodes r) in
  selected r filteredNodes (WeightedRandomSelect intn u (map key_weight filteredNodes)).

Definition RandomNodes (us : list Q) (num : nat) (r : HashRing) : list (option Node) :=
  omap (fun k => (fun key => nodes r !! key_id key) <$> onlineNodes r !! k)
    (WeightedRandomSelectMultiple us (map key_weight (onlineNodes r)) num).

(** ** The invariant *)

(** Every key of the online list is that of a node which knows its place in the
    list, and every online node is in the list. *)
Record ring_wf (r : HashRing) : Prop := {
  wf_id : ∀ i n, nodes r !! i = Some n → id n = i ∧ -1 ≤ onlineIndex n;
  wf_listed : ∀ k key, onlineNodes r !! k = Some key →
    ∃ n, nodes r !! key_id key = Some n ∧ onlineIndex n = Z.of_nat k;
  wf_online : ∀ i n, nodes r !! i = Some n → -1 < onlineIndex n →
    ∃ key, onlineNodes r !! Z.to_nat (onlineIndex n) = Some key ∧ key_id key = i
}.

Lemma New_wf : ring_wf New.
Proof. split; cbn; intros *; by rewrite ?lookup_empty. Qed.

Lemma AddNode_wf r ID node :
  ring_wf r → IsOnline r (if bool_decide (ID = "") then id node else ID) = false → ring_wf (AddNode r ID node).
Proof.
  intros [H1 H2 H3] Hoff. unfold AddNode. set (j := if bool_decide (ID = "") then id node else ID) in *.
  cbv zeta. fold j. split; cbn.
  - intros i n. rewrite lookup_insert_Some. intros [[<- <-]|[_ Hn]]; [by cbn|by apply H1].
  - intros k key Hk. destruct (H2 k key Hk) as (n & Hn & Hi). exists n. split; [|done].
    rewrite lookup_insert_ne; [done|]. intros E. unfold IsOnline in Hoff. rewrite E, Hn in Hoff. cbn in Hoff.
    apply bool_decide_eq_false in Hoff. lia.
  - intros i n. rewrite lookup_insert_Some. intros [[<- <-]|[_ Hn]]; [by cbn; lia|by apply H3].
Qed.

Lemma SetOnline_wf r ID : ring_wf r → ring_wf (SetOnline r ID).
Proof.
  intros Hwf. pose proof Hwf as [H1 H2 H3]. unfold SetOnline.
  destruct (nodes r !! ID) as [node|] eqn:E; [|done].
  cbn. case_bool_decide as Hon; [done|]. destruct (H1 _ _ E) as [Hid Hge].
  split; cbn.
  - intros i n. rewrite lookup_insert_Some. intros [[<- <-]|[_ Hn]]; [cbn; split; [done|lia]|by apply H1].
  - intros k key. rewrite lookup_app_Some. intros [Hk|[Hk1 Hk2]].
    + destruct (H2 k key Hk) as (n & Hn & Hi). exists n. split; [|done].
      rewrite lookup_insert_ne; [done|]. intros ->. rewrite E in Hn. injection Hn as ->. lia.
    + apply list_lookup_singleton_Some in Hk2 as [Hk0 <-]. cbn. rewrite Hid, lookup_insert_eq.
      eexists. split; [done|]. cbn. lia.
  - intros i n. rewrite lookup_insert_Some. intros [[<- <-]|[Hne Hn]].
    + intros _. cbn. rewrite Nat2Z.id, lookup_app_r, Nat.sub_diag by lia. by eexists.
    + intros Hi. destruct (H3 i n Hn Hi) as (key & Hk & ?). exists key. split; [|done].
      rewrite lookup_app_l; [done|]. by eapply lookup_lt_Some.
Qed.

(** What taking an online node off the list leaves: the last key moves to the
    freed place, and its node is told. *)
Definition removed (r : HashRing) (ID : string) (node : Node) (lst : nodeKey) (r' : HashRing) : Prop :=
  let L := length (onlineNodes r) in
  let p := onlineIndex node in
  onlineNodes r !! (L - 1)%nat = Some lst
  ∧ (∀ i, nodes r' !! i = if bool_decide (i = ID) then Some (set_index node (-1))
                          else if bool_decide (i = key_id lst) then (fun n => set_index n p) <$> nodes r !! i
                          else nodes r !! i)
  ∧ (∀ k, onlineNodes r' !! k = if bool_decide (k < L - 1)%nat
                                then if bool_decide (k = Z.to_nat p) then Some lst else onlineNodes r !! k
                                else None).

Lemma remove_shape r ID node :
  ring_wf r → nodes r !! ID = Some node → -1 < onlineIndex node →
  ∃ r' lst, removeFromOnlineList r ID = Ok r' ∧ removed r ID node lst r'.
Proof.
  intros [H1 H2 H3] E Hp. destruct (H1 _ _ E) as [Hid _]. destruct (H3 _ _ E Hp) as (key & Hk & Hkey).
  pose proof (lookup_lt_Some _ _ _ Hk) as HL.
  destruct (lookup_lt_is_Some_2 (onlineNodes r) (length (onlineNodes r) - 1)) as [lst Hlst]; [lia|].
  destruct (H2 _ _ Hlst) as (other & Hother & Hoi).
  unfold removeFromOnlineList. rewrite E. cbn [Node_IsOnline]. rewrite bool_decide_eq_true_2 by done. cbn [negb].
  case_bool_decide as HL1.
  - assert (key_id lst = ID) as El.
    { assert (Z.to_nat (onlineIndex node) = length (onlineNodes r) - 1)%nat as Ek by lia. congruence. }
    eexists _, lst. split; [done|]. split_and!; [done|..]; cbn.
    + intros i. rewrite lookup_alter, El. case_bool_decide; [subst i; by rewrite decide_True, E|].
      by rewrite decide_False.
    + intros k. by rewrite bool_decide_eq_false_2 by lia.
  - rewrite Hlst, Hid. case_bool_decide as El; cbn [mbind res_bind].
    + eexists _, lst. split; [done|]. split_and!; [done|..]; cbn.
      * intros i. rewrite lookup_alter, El. case_bool_decide; [subst i; by rewrite decide_True, E|].
        by rewrite decide_False.
      * intros k. rewrite lookup_take. repeat case_decide; repeat case_bool_decide; try done; try lia.
        rewrite El in Hother. assert (other = node) as -> by congruence. lia.
    + rewrite bool_decide_eq_true_2 by lia. rewrite Hother. cbn [mbind res_bind].
      eexists _, lst. split; [done|]. split_and!; [done|..]; cbn.
      * intros i. rewrite lookup_alter. case_bool_decide as Ei.
        -- subst i. by rewrite decide_True, lookup_insert_ne, E.
        -- rewrite decide_False by done. case_bool_decide as Ei2.
           ++ subst i. by rewrite lookup_insert_eq, Hother.
           ++ by rewrite lookup_insert_ne.
      * intros k. rewrite length_insert, lookup_take.
        repeat case_decide; repeat case_bool_decide; try done; try lia.
        -- subst k. by rewrite list_lookup_insert_eq by lia.
        -- by rewrite list_lookup_insert_ne by done.
Qed.

Lemma removed_wf r ID node lst r' :
  ring_wf r → nodes r !! ID = Some node → -1 < onlineIndex node → removed r ID node lst r' → ring_wf r'.
Proof.
  intros [H1 H2 H3] E Hp (Hlst & Hn & Hl). destruct (H1 _ _ E) as [Hid _].
  destruct (H3 _ _ E Hp) as (key & Hk & Hkey). destruct (H2 _ _ Hlst) as (other & Hother & Hoi).
  pose proof (lookup_lt_Some _ _ _ Hk) as HL.
  split.
  - intros i n. rewrite Hn. case_bool_decide as Ei; [intros [= <-]; subst i; split; cbn; [done|lia]|].
    case_bool_decide as Ei2; [|apply H1]. subst i. rewrite Hother. intros [= <-].
    destruct (H1 _ _ Hother). split; cbn; [done|lia].
  - intros k key'. rewrite Hl. case_bool_decide as Hkl; [|done]. case_bool_decide as Hkp.
    + intros [= <-]. rewrite Hn. assert (key_id lst ≠ ID) as Hne.
      { intros El. rewrite El in Hother. assert (other = node) as -> by congruence. lia. }
      rewrite bool_decide_eq_false_2, bool_decide_eq_true_2, Hother by done.
      eexists. split; [done|]. cbn. lia.
    + intros Hk'. destruct (H2 _ _ Hk') as (n & Hn' & Hni). rewrite Hn.
      rewrite bool_decide_eq_false_2 by (intros Ei; rewrite Ei, E in Hn'; injection Hn' as <-; lia).
      rewrite bool_decide_eq_false_2 by (intros Ei; rewrite Ei, Hother in Hn'; injection Hn' as <-; lia).
      by exists n.
  - intros i n. rewrite Hn. case_bool_decide as Ei; [intros [= <-]; cbn; lia|].
    case_bool_decide as Ei2.
    + subst i. rewrite Hother. intros [= <-] _. cbn. exists lst. rewrite Hl.
      assert (Z.to_nat (onlineIndex node) ≠ length (onlineNodes r) - 1)%nat by (intros El; congruence).
      rewrite bool_decide_eq_true_2, bool_decide_eq_true_2 by lia. done.
    + intros Hni Hi. destruct (H3 _ _ Hni Hi) as (key' & Hk' & Hkey'). exists key'. rewrite Hl.
      pose proof (lookup_lt_Some _ _ _ Hk').
      rewrite bool_decide_eq_true_2.
      * rewrite bool_decide_eq_false_2; [done|]. intros El. rewrite El, Hk in Hk'. congruence.
      * assert (Z.to_nat (onlineIndex n) ≠ length (onlineNodes r) - 1)%nat by (intros El; congruence). lia.
Qed.

(** Taking a node off the list succeeds, keeps the ring well formed, and changes
    who is online by that node alone. *)
Lemma removeFromOnlineList_ok r ID :
  ring_wf r → ∃ r', removeFromOnlineList r ID = Ok r' ∧ ring_wf r'
    ∧ (∀ i, IsOnline r' i = IsOnline r i && negb (bool_decide (i = ID)))
    ∧ (∀ i, nodes r' !! i = None ↔ nodes r !! i = None).
Proof.
  intros Hwf. pose proof Hwf as [H1 _ _].
  destruct (nodes r !! ID) as [node|] eqn:E.
  2:{ exists r. unfold removeFromOnlineList. rewrite E. split_and!; try done. intros i.
      case_bool_decide; [subst i; unfold IsOnline; by rewrite E|by rewrite andb_true_r]. }
  destruct (decide (-1 < onlineIndex node)) as [Hp|Hp].
  - destruct (remove_shape r ID node Hwf E Hp) as (r' & lst & Er & Hr).
    exists r'. split_and!; [done|by eapply removed_wf|..]; destruct Hr as (Hlst & Hn & _).
    + intros i. unfold IsOnline. rewrite Hn. case_bool_decide as Ei; cbn; [by rewrite andb_false_r|].
      rewrite andb_true_r. case_bool_decide as Ei2; [|done]. subst i.
      destruct (wf_listed _ Hwf _ _ Hlst) as (other & -> & Hoi). cbn.
      rewrite !bool_decide_eq_true_2 by lia. done.
    + intros i. rewrite Hn. repeat case_bool_decide; [by subst i; rewrite E| |done]. by destruct (nodes r !! i).
  - exists r. unfold removeFromOnlineList. rewrite E. cbn. rewrite bool_decide_eq_false_2 by done.
    split_and!; try done. intros i. case_bool_decide; [|by rewrite andb_true_r]. subst i. unfold IsOnline.
    rewrite E. cbn. by rewrite bool_decide_eq_false_2.
Qed.

(** ** The ring as two sets *)

Inductive ring_op :=
| OpAddNode (ID : string) (node : Node)
| OpRemoveNode (ID : string)
| OpSetOnline (ID : string)
| OpSetOffline (ID : string)
| OpDiskUsage (ID : string) (diskSize freeDisk : Z).

Definition run_op (op : ring_op) (r : HashRing) : res HashRing :=
  match op with
  | OpAddNode ID node => Ok (AddNode r ID node)
  | OpRemoveNode ID => RemoveNode r ID
  | OpSetOnline ID => Ok (SetOnline r ID)
  | OpSetOffline ID => SetOffline r ID
  | OpDiskUsage ID a b => Ok (UpdateNodeDiskUsage r ID a b)
  end.

(** The specification: the nodes known, and those of them online. *)
Record ring_spec := mkSpec { known : gset string; online : gset string }.

Definition add_id (ID : string) (node : Node) : string := if bool_decide (ID = "") then id node else ID.

Definition spec_op (op : ring_op) (s : ring_spec) : ring_spec :=
  match op with
  | OpAddNode ID node => mkSpec ({[add_id ID node]} ∪ known s) (online s)
  | OpRemoveNode ID => mkSpec (known s ∖ {[ID]}) (online s ∖ {[ID]})
  | OpSetOnline ID => mkSpec (known s) (if decide (ID ∈ known s) then {[ID]} ∪ online s else online s)
  | OpSetOffline ID => mkSpec (known s) (online s ∖ {[ID]})
  | OpDiskUsage _ _ _ => s
  end.

(** A node is not added again while it is online. *)
Definition op_allowed (op : ring_op) (s : ring_spec) : Prop :=
  match op with OpAddNode ID node => add_id ID node ∉ online s | _ => True end.

Record refines (r : HashRing) (s : ring_spec) : Prop := {
  ref_wf : ring_wf r;
  ref_known : ∀ i, i ∈ known s ↔ is_Some (nodes r !! i);
  ref_online : ∀ i, i ∈ online s ↔ IsOnline r i = true
}.

Lemma IsOnline_known r i : IsOnline r i = true → is_Some (nodes r !! i).
Proof. unfold IsOnline. destruct (nodes r !! i); [by eexists|done]. Qed.

Lemma AddNode_refines r s ID node :
  refines r s → add_id ID node ∉ online s → refines (AddNode r ID node) (spec_op (OpAddNode ID node) s).
Proof.
  intros [Hwf Hk Ho] Hoff.
  assert (IsOnline r (add_id ID node) = false) as Hoff' by (apply not_true_iff_false; by rewrite <- Ho).
  split; cbn.
  - by apply AddNode_wf.
  - intros i. unfold AddNode. cbn. fold (add_id ID node). rewrite elem_of_union, elem_of_singleton, Hk.
    destruct (decide (add_id ID node = i)) as [<-|Hne].
    + rewrite lookup_insert_eq. split; [by eexists|by left].
    + rewrite lookup_insert_ne by done. intuition congruence.
  - intros i. rewrite Ho. unfold IsOnline, AddNode. cbn. fold (add_id ID node).
    destruct (decide (add_id ID node = i)) as [<-|Hne]; [|by rewrite lookup_insert_ne].
    rewrite lookup_insert_eq. cbn. unfold IsOnline in Hoff'. by rewrite Hoff'.
Qed.

Lemma SetOnline_refines r s ID : refines r s → refines (SetOnline r ID) (spec_op (OpSetOnline ID) s).
Proof.
  intros [Hwf Hk Ho]. split; cbn; [by apply SetOnline_wf|..].
  - intros i. rewrite Hk. unfold SetOnline. destruct (nodes r !! ID) as [node|] eqn:E; [|done].
    cbn. case_bool_decide; [done|]. cbn. destruct (decide (ID = i)) as [<-|Hne].
    + rewrite lookup_insert_eq, E. split; by eexists.
    + by rewrite lookup_insert_ne.
  - intros i. unfold SetOnline. destruct (nodes r !! ID) as [node|] eqn:E.
    + rewrite decide_True by (apply Hk; by eexists). rewrite elem_of_union, elem_of_singleton, Ho.
      unfold IsOnline. cbn. case_bool_decide as Hon; cbn.
      * split; [|by right]. intros [->|?]; [|done]. rewrite E. cbn. by rewrite bool_decide_eq_true_2.
      * destruct (decide (ID = i)) as [<-|Hne].
        -- rewrite lookup_insert_eq. cbn. rewrite bool_decide_eq_true_2 by lia. split; [done|by left].
        -- rewrite lookup_insert_ne by done. intuition congruence.
    + rewrite decide_False by (rewrite Hk, E; by intros [? ?]). apply Ho.
Qed.

Lemma SetOffline_refines r s ID :
  refines r s → ∃ r', removeFromOnlineList r ID = Ok r' ∧ refines r' (mkSpec (known s) (online s ∖ {[ID]})).
Proof.
  intros [Hwf Hk Ho]. destruct (removeFromOnlineList_ok r ID Hwf) as (r' & E & Hwf' & Hon & Hdom).
  exists r'. split; [done|]. split; cbn; [done|..].
  - intros i. rewrite Hk. rewrite <- !not_eq_None_Some. by rewrite Hdom.
  - intros i. rewrite elem_of_difference, elem_of_singleton, Ho, Hon, andb_true_iff, negb_true_iff, bool_decide_eq_false.
    done.
Qed.

Lemma RemoveNode_refines r s ID :
  refines r s → ∃ r', RemoveNode r ID = Ok r' ∧ refines r' (spec_op (OpRemoveNode ID) s).
Proof.
  intros Hr. unfold RemoveNode. destruct (nodes r !! ID) as [node|] eqn:E.
  - destruct (SetOffline_refines r s ID Hr) as (r' & -> & [Hwf Hk Ho]). cbn [mbind res_bind].
    eexists. split; [done|]. cbn in *.
    assert (IsOnline r' ID = false) as Hoff.
    { apply not_true_iff_false. rewrite <- Ho, elem_of_difference, elem_of_singleton. tauto. }
    pose proof Hwf as [H1 H2 H3]. split; [split|..]; cbn.
    + intros i n. rewrite lookup_delete_Some. intros [_ Hn]. by apply H1.
    + intros k key Hkey. destruct (H2 k key Hkey) as (n & Hn & Hi). exists n. split; [|done].
      rewrite lookup_delete_ne; [done|]. intros ->. unfold IsOnline in Hoff. rewrite Hn in Hoff. cbn in Hoff.
      apply bool_decide_eq_false in Hoff. lia.
    + intros i n. rewrite lookup_delete_Some. intros [_ Hn]. by apply H3.
    + intros i. rewrite elem_of_difference, elem_of_singleton, Hk.
      destruct (decide (ID = i)) as [<-|Hne].
      * rewrite lookup_delete_eq. split; [tauto|by intros [? ?]].
      * rewrite lookup_delete_ne by done. intuition congruence.
    + intros i. rewrite Ho. unfold IsOnline. cbn. destruct (decide (ID = i)) as [<-|Hne].
      * rewrite lookup_delete_eq. unfold IsOnline in Hoff. by rewrite Hoff.
      * by rewrite lookup_delete_ne.
  - exists r. split; [done|]. destruct Hr as [Hwf Hk Ho]. split; cbn; [done|..]; intros i;
      rewrite elem_of_difference, elem_of_singleton, ?Hk, ?Ho; split; try tauto; intros Hi; (split; [done|]).
    + intros ->. rewrite E in Hi. by destruct Hi.
    + intros ->. apply IsOnline_known in Hi. rewrite E in Hi. by destruct Hi.
Qed.

(** A change of a node that keeps its id and its place changes neither set. *)
Lemma same_places_refines r s m :
  (∀ i, (onlineIndex <$> m !! i) = (onlineIndex <$> nodes r !! i) ∧ (id <$> m !! i) = (id <$> nodes r !! i)) →
  refines r s → refines (mkRing m (onlineNodes r)) s.
Proof.
  intros Hal [[H1 H2 H3] Hk Ho]. split; [split|..]; cbn.
  - intros i n Hn. destruct (Hal i) as [E1 E2]. rewrite Hn in E1, E2. cbn in E1, E2.
    destruct (nodes r !! i) as [n'|] eqn:E; [|done]. destruct (H1 _ _ E). cbn in *. split; congruence.
  - intros k key Hkey. destruct (H2 k key Hkey) as (n & Hn & Hi). destruct (Hal (key_id key)) as [E1 _].
    rewrite Hn in E1. destruct (m !! key_id key) as [n'|]; [|done]. exists n'. cbn in E1. split; [done|congruence].
  - intros i n Hn Hi. destruct (Hal i) as [E1 _]. rewrite Hn in E1. cbn in E1.
    destruct (nodes r !! i) as [n'|] eqn:E; [|done]. cbn in E1. injection E1 as E1. rewrite E1 in *.
    by apply (H3 i n').
  - intros i. rewrite Hk. destruct (Hal i) as [E1 _]. destruct (m !! i), (nodes r !! i); try done; split; by eexists.
  - intros i. rewrite Ho. unfold IsOnline. cbn. destruct (Hal i) as [E1 _].
    destruct (m !! i), (nodes r !! i); try done. cbn in *. injection E1 as ->. done.
Qed.

Lemma op_refines op r s :
  refines r s → op_allowed op s → ∃ r', run_op op r = Ok r' ∧ refines r' (spec_op op s).
Proof.
  intros Hr Hop. destruct op as [ID node|ID|ID|ID|ID a b]; cbn [run_op].
  - eexists. split; [done|]. by apply AddNode_refines.
  - by apply RemoveNode_refines.
  - eexists. split; [done|]. by apply SetOnline_refines.
  - by apply SetOffline_refines.
  - eexists. split; [done|]. apply same_places_refines; [|done].
    intros i. rewrite lookup_alter. case_decide; [subst i|done]. by destruct (nodes r !! ID).
Qed.

Fixpoint run_ops (ops : list ring_op) (r : HashRing) : res HashRing :=
  match ops with [] => Ok r | op :: ops => r ← run_op op r; run_ops ops r end.
Definition spec_ops (ops : list ring_op) (s : ring_spec) : ring_spec := foldl (fun s op => spec_op op s) s ops.
Fixpoint ops_allowed (ops : list ring_op) (s : ring_spec) : Prop :=
  match ops with [] => True | op :: ops => op_allowed op s ∧ ops_allowed ops (spec_op op s) end.

Lemma run_ops_refines ops r s :
  refines r s → ops_allowed ops s → ∃ r', run_ops ops r = Ok r' ∧ refines r' (spec_ops ops s).
Proof.
  revert r s. induction ops as [|op ops IH]; intros r s Hr Hops; cbn; [by eexists|].
  destruct Hops as [Hop Hops]. destruct (op_refines op r s Hr Hop) as (r1 & -> & Hr1). cbn [mbind res_bind].
  by apply IH.
Qed.

Lemma online_ids r :
  ring_wf r → NoDup (GetOnlineNodeIDs r) ∧ (∀ i, i ∈ GetOnlineNodeIDs r ↔ IsOnline r i = true).
Proof.
  intros [H1 H2 H3]. unfold GetOnlineNodeIDs. split.
  - apply NoDup_alt. intros k k' i. rewrite !list_lookup_fmap.
    destruct (onlineNodes r !! k) as [key|] eqn:E; [|done]. destruct (onlineNodes r !! k') as [key'|] eqn:E'; [|done].
    cbn. intros [= Hi] [= Hi']. destruct (H2 _ _ E) as (n & Hn & Hk), (H2 _ _ E') as (n' & Hn' & Hk').
    rewrite Hi in Hn. rewrite Hi' in Hn'. assert (n = n') as -> by congruence. lia.
  - intros i. rewrite list_elem_of_lookup. setoid_rewrite list_lookup_fmap. unfold IsOnline. split.
    + intros (k & Hk). destruct (onlineNodes r !! k) as [key|] eqn:E; [|done]. injection Hk as <-.
      destruct (H2 _ _ E) as (n & -> & Hi). cbn. apply bool_decide_eq_true. lia.
    + destruct (nodes r !! i) as [n|] eqn:E; [|done]. cbn. intros Hi%bool_decide_eq_true.
      destruct (H3 _ _ E Hi) as (key & Hk & <-). exists (Z.to_nat (onlineIndex n)). by rewrite Hk.
Qed.

(** C31: any sequence of operations, in which a node is not added again while it
    is online, runs without a panic and keeps the ring what it stands for: a set
    of known nodes and a set of online ones, with each online node once in the
    online list, at the index it remembers. *)
Theorem ring_refines_sets ops :
  ops_allowed ops (mkSpec ∅ ∅) →
  let s := spec_ops ops (mkSpec ∅ ∅) in
  ∃ r, run_ops ops New = Ok r ∧ ring_wf r
    ∧ dom (nodes r) = known s ∧ NoDup (GetOnlineNodeIDs r)
    ∧ (∀ i, i ∈ GetOnlineNodeIDs r ↔ i ∈ online s) ∧ (∀ i, IsOnline r i = bool_decide (i ∈ online s)).
Proof.
  intros Hops. assert (refines New (mkSpec ∅ ∅)) as H0.
  { split; [apply New_wf|..]; intros i; cbn; rewrite ?lookup_empty; unfold IsOnline; cbn;
      rewrite ?lookup_empty; cbn; split; intros H; try set_solver; by destruct H. }
  destruct (run_ops_refines ops _ _ H0 Hops) as (r & E & [Hwf Hk Ho]). exists r.
  destruct (online_ids r Hwf) as [Hnd Hids]. split_and!; try done.
  - apply set_eq. intros i. by rewrite elem_of_dom, Hk.
  - intros i. by rewrite Hids, Ho.
  - intros i. case_bool_decide as Hi; [by apply Ho|]. apply not_true_iff_false. by rewrite <- Ho.
Qed.

(** Adding a node again while it is online forgets that it is online: after
    it goes online once more it is in the list twice, and taking it offline
    leaves one entry behind, so the ring still offers a node that is offline. *)
Theorem readding_online_node_breaks_ring node ID :
  ID ≠ "" →
  let ops := [OpAddNode ID node; OpSetOnline ID; OpAddNode ID node; OpSetOnline ID] in
  (∃ r, run_ops ops New = Ok r ∧ GetOnlineNodeIDs r = [ID; ID])
  ∧ (∃ r, run_ops (ops ++ [OpSetOffline ID]) New = Ok r ∧ GetOnlineNodeIDs r = [ID] ∧ IsOnline r ID = false).
Proof.
  intros HID. cbn [run_ops run_op app mbind res_bind].
  set (w := if Qeq_bool (Weight node) 0 then 1%Q else Weight node).
  assert (∀ r, AddNode r ID node
    = mkRing (<[ID := mkNode (Host node) (Rest node) (DiskUsage node) w ID (-1)]> (nodes r)) (onlineNodes r)) as Ha.
  { intros r. unfold AddNode. by rewrite bool_decide_eq_false_2. }
  assert (∀ m l, SetOnline (mkRing (<[ID := mkNode (Host node) (Rest node) (DiskUsage node) w ID (-1)]> m) l) ID
    = mkRing (<[ID := mkNode (Host node) (Rest node) (DiskUsage node) w ID (Z.of_nat (length l))]> m) (l ++ [mkKey ID w])) as Hs.
  { intros m l. unfold SetOnline. cbn. rewrite lookup_insert_eq. cbn. by rewrite insert_insert_eq. }
  rewrite Ha, Hs, Ha, Hs. cbn [nodes onlineNodes New app length]. split; [by eexists|].
  unfold SetOffline, removeFromOnlineList. cbn [nodes onlineNodes]. rewrite lookup_insert_eq.
  cbn [Node_IsOnline onlineIndex length lookup list_lookup Nat.sub id key_id].
  rewrite (bool_decide_eq_true_2 (-1 < _)), (bool_decide_eq_false_2 (2 ≤ 1)%nat), (bool_decide_eq_true_2 (ID = ID))
    by (done || lia).
  cbn [negb mbind res_bind nodes onlineNodes length take Nat.sub]. eexists. split; [done|]. split; [done|].
  unfold IsOnline. cbn [nodes]. by rewrite lookup_alter_eq, lookup_insert_eq.
Qed.

(** ** Selection *)

Lemma selected_online r keys k i n :
  ring_wf r → (∀ key, key ∈ keys → key ∈ onlineNodes r) →
  selected r keys k = (i, Some n) → IsOnline r i = true ∧ nodes r !! i = Some n ∧ i ∈ map key_id keys.
Proof.
  intros Hwf Hsub. unfold selected. destruct k as [k|]; [|done].
  destruct (keys !! k) as [key|] eqn:E; [|done]. intros [= <- Hn].
  pose proof (list_elem_of_lookup_2 _ _ _ E) as Hin.
  destruct (list_elem_of_lookup_1 _ _ (Hsub _ Hin)) as [j Hj].
  destruct (wf_listed _ Hwf _ _ Hj) as (n' & Hn' & Hi). rewrite Hn in Hn'. injection Hn' as <-.
  split_and!; [|done|apply list_elem_of_In, in_map, list_elem_of_In, Hin].
  unfold IsOnline. rewrite Hn. cbn. apply bool_decide_eq_true. lia.
Qed.

(** [RandomNodeExcludedIDs] on a well-formed ring finds a node whenever one
    with a positive weight is online and not excluded, and what it finds is an
    online node that is not excluded. *)
Theorem random_node_online_and_allowed intn u excluded r :
  ring_wf r → (0 <= u < 1)%Q →
  Exists (fun key => (key_id key ∉ excluded) ∧ (0 < key_weight key)%Q) (onlineNodes r) →
  ∃ i n, RandomNodeExcludedIDs intn u excluded r = (i, Some n)
    ∧ IsOnline r i = true ∧ nodes r !! i = Some n ∧ (i ∉ excluded).
Proof.
  intros Hwf Hu Hex. unfold RandomNodeExcludedIDs.
  set (keys := filter (fun key => key_id key ∉ (list_to_set excluded : gset string)) (onlineNodes r)).
  destruct (decide (positives (map key_weight keys) = [])) as [Hnil|Hne].
  { exfalso. apply Exists_exists in Hex as (key & Hin & Hnot & Hw).
    assert (key ∈ keys) as Hk.
    { unfold keys. apply list_elem_of_filter. split; [by rewrite elem_of_list_to_set|by apply list_elem_of_In]. }
    apply list_elem_of_lookup in Hk as [k Hk].
    eapply (positives_nonempty (map key_weight keys) k (key_weight key)); [|done|done].
    by rewrite list_lookup_fmap, Hk. }
  destruct (WeightedRandomSelect_some intn u _ Hu Hne) as (j & -> & w & Hj & _).
  rewrite list_lookup_fmap in Hj. destruct (keys !! j) as [key|] eqn:Ek; [|done].
  assert (∀ k, k ∈ keys → k ∈ onlineNodes r) as Hsub by (intros k; unfold keys; rewrite list_elem_of_filter; tauto).
  destruct (list_elem_of_lookup_1 _ _ (Hsub _ (list_elem_of_lookup_2 _ _ _ Ek))) as [p Hp].
  destruct (wf_listed _ Hwf _ _ Hp) as (n & Hn & _).
  assert (selected r keys (Some j) = (key_id key, Some n)) as Es by (cbn; by rewrite Ek, Hn).
  destruct (selected_online _ _ _ _ _ Hwf Hsub Es) as (? & ? & _). exists (key_id key), n. split_and!; try done.
  apply list_elem_of_lookup_2, list_elem_of_filter in Ek as [Hnot _]. by rewrite elem_of_list_to_set in Hnot.
Qed.

Module RingDemo.

Definition n0 : Node := mkNode "h" "r" None 0 "" 0.
Definition ops : list ring_op :=
  [OpAddNode "a" n0; OpAddNode "b" n0; OpSetOnline "a"; OpSetOnline "b"; OpSetOffline "a"; OpRemoveNode "c"].

Lemma ops_ok : ops_allowed ops (mkSpec ∅ ∅).
Proof. cbn. split_and!; try done; apply (bool_decide_unpack _); vm_compute; done. Qed.

Lemma ring_refines_sets_witness :
  let s := spec_ops ops (mkSpec ∅ ∅) in
  ∃ r, run_ops ops New = Ok r ∧ ring_wf r
    ∧ dom (nodes r) = known s ∧ NoDup (GetOnlineNodeIDs r)
    ∧ (∀ i, i ∈ GetOnlineNodeIDs r ↔ i ∈ online s) ∧ (∀ i, IsOnline r i = bool_decide (i ∈ online s)).
Proof. apply (ring_refines_sets ops). apply ops_ok. Defined.

Lemma readding_online_node_breaks_ring_witness :
  let ops := [OpAddNode "a" n0; OpSetOnline "a"; OpAddNode "a" n0; OpSetOnline "a"] in
  (∃ r, run_ops ops New = Ok r ∧ GetOnlineNodeIDs r = ["a"; "a"])
  ∧ (∃ r, run_ops (ops ++ [OpSetOffline "a"]) New = Ok r ∧ GetOnlineNodeIDs r = ["a"] ∧ IsOnline r "a" = false).
Proof. apply (readding_online_node_breaks_ring n0 "a"). discriminate. Defined.

Definition ring : HashRing := SetOnline (SetOnline (AddNode (AddNode New "a" n0) "b" n0) "a") "b".

Lemma ring_ok : ring_wf ring.
Proof. unfold ring. apply SetOnline_wf, SetOnline_wf, AddNode_wf; [apply AddNode_wf; [apply New_wf|done]|done]. Qed.

Lemma random_node_online_and_allowed_witness :
  ∃ i n, RandomNodeExcludedIDs (fun _ => 0%nat) (1 # 2) ["a"] ring = (i, Some n)
    ∧ IsOnline ring i = true ∧ nodes ring !! i = Some n ∧ (i ∉ ["a"]).
Proof.
  apply (random_node_online_and_allowed (fun _ => 0%nat) (1 # 2) ["a"] ring ring_ok).
  - split; [discriminate|reflexivity].
  - apply Exists_cons_tl, Exists_cons_hd. split; [|reflexivity]. apply (bool_decide_unpack _). vm_compute. done.
Defined.

End RingDemo.
