(* ===== verification/UploadTask.v ===== *)
(** * UploadTask: the upload of a file, slice by slice

    Models pp/task/upload_task.go.  A task keeps, for every destination, the
    slices to send there and their status; [destinations] is a Go map, so every
    loop over it takes the order of its keys, [order], as an argument.  Slices
    are pointers in the code, shared between a destination and nothing else.
    The CRC of the file, the clock and the scheduled job are left out. *)
From Stdlib Require Import QArith Lqa.
From S2P Require Import Prelude.
Local Open Scope Z_scope.

(** ** Data *)

Inductive SliceStatus :=
| SLICE_STATUS_STARTED | SLICE_STATUS_FAILED | SLICE_STATUS_WAITING_FOR_SP
| SLICE_STATUS_REPLACED | SLICE_STATUS_FINISHED.

#[global] Instance SliceStatus_eq_dec : EqDecision SliceStatus.
Proof. solve_decision. Defined.

Definition MAXSLICE : Z := 50.
Definition MAX_UPLOAD_RETRY : Z := 5.

Inductive TaskState := STATE_NOT_STARTED | STATE_RUNNING | STATE_DONE | STATE_PAUSED.

#[global] Instance TaskState_eq_dec : EqDecision TaskState.
Proof. solve_decision. Defined.

Inductive UploadType := NEW_UPLOAD | BACKUP.

(** [protos.SliceHashAddr]: number, hash, and the address in [PpInfo]. *)
Record SliceHashAddr := mkSliceHashAddr { SliceNumber : Z; SliceHash : string; PpP2PAddress : string }.

Record SliceWithStatus := mkSlice {
  slice : SliceHashAddr; Error : option string; fatal : bool; Status : SliceStatus
}.

Record SlicesPerDestination := mkDest { ppInfo : string; slices : list SliceWithStatus; started : bool }.

(** [protos.RspUploadFile] and [protos.RspBackupStatus], as far as they are used. *)
Record RspFile := mkRsp { FileHash : string; TaskId : string; SpP2PAddress : string; rsp_Slices : list SliceHashAddr }.

Record UploadFileTask := mkTask {
  rspUploadFile : option (gmap Z RspFile);   (* [None]: the nil map *)
  rspBackupFile : option RspFile;
  uploadType : UploadType;
  destinations : gmap string SlicesPerDestination;
  state : TaskState;
  pause : bool;
  concurrentUploads : Z;
  fatalError : option string;
  retryCount : Z
}.

(** The fields that are ever set. *)
Record UploadSliceTask := mkSliceTask { tk_rsp : option RspFile; tk_SliceNumber : Z; tk_SliceHash : string }.

Definition set_dests (u : UploadFileTask) d := mkTask (rspUploadFile u) (rspBackupFile u) (uploadType u) d
  (state u) (pause u) (concurrentUploads u) (fatalError u) (retryCount u).
Definition set_state (u : UploadFileTask) s := mkTask (rspUploadFile u) (rspBackupFile u) (uploadType u)
  (destinations u) s (pause u) (concurrentUploads u) (fatalError u) (retryCount u).
Definition set_concurrent (u : UploadFileTask) c := mkTask (rspUploadFile u) (rspBackupFile u) (uploadType u)
  (destinations u) (state u) (pause u) c (fatalError u) (retryCount u).

Definition set_status (st : SliceStatus) (s : SliceWithStatus) : SliceWithStatus :=
  mkSlice (slice s) (Error s) (fatal s) st.
Definition setError (err : string) (fatal : bool) (s : SliceWithStatus) : SliceWithStatus :=
  mkSlice (slice s) (Some err) fatal SLICE_STATUS_FAILED.
Definition new_slice (sl : SliceHashAddr) : SliceWithStatus := mkSlice sl None false SLICE_STATUS_STARTED.

(** ** Creation *)

(** [task.destinations[addr].slices = append(..., sws)], making the destination. *)
Definition place_slice (d : gmap string SlicesPerDestination) (sl : SliceHashAddr) : gmap string SlicesPerDestination :=
  let dest := match d !! PpP2PAddress sl with
              | Some x => x
              | None => mkDest (PpP2PAddress sl) [] false
              end in
  <[PpP2PAddress sl := mkDest (ppInfo dest) (slices dest ++ [new_slice sl]) (started dest)]> d.

Definition CreateUploadFileTask (target : option RspFile) : option UploadFileTask :=
  t ← target;
  Some (mkTask (Some {[0 := t]}) None NEW_UPLOAD (foldl place_slice ∅ (rsp_Slices t))
          STATE_NOT_STARTED false 0 None 0).

Definition CreateBackupFileTask (target : option RspFile) : option UploadFileTask :=
  t ← target;
  Some (mkTask None (Some t) BACKUP (foldl place_slice ∅ (rsp_Slices t)) STATE_NOT_STARTED false 0 None 0).

(** [u.addNewSlice]: the destination will be started again. *)
Definition addNewSlice (d : gmap string SlicesPerDestination) (sl : SliceHashAddr) : gmap string SlicesPerDestination :=
  let dest := match d !! PpP2PAddress sl with
              | Some x => x
              | None => mkDest (PpP2PAddress sl) [] false
              end in
  <[PpP2PAddress sl := mkDest (ppInfo dest) (slices dest ++ [new_slice sl]) false]> d.

(** ** Queries *)

(** The slices of the destinations, in the order the keys are visited. *)
Definition visit (order : list string) (d : gmap string SlicesPerDestination) : list SliceWithStatus :=
  concat (omap (fun a => slices <$> d !! a) order).

Definition IsFinished (order : list string) (u : UploadFileTask) : bool :=
  forallb (fun s => bool_decide (Status s = SLICE_STATUS_FINISHED) || bool_decide (Status s = SLICE_STATUS_REPLACED))
    (visit order (destinations u)).

(** The error of the task, or of the first slice marked fatal; [None] is [nil]. *)
Definition IsFatal (order : list string) (u : UploadFileTask) : option string :=
  match fatalError u with
  | Some e => Some e
  | None => match List.find fatal (visit order (destinations u)) with Some s => Error s | None => None end
  end.

(** [totalCount] and [finishedCount] of [GetUploadProgress]. *)
Definition progress_counts (order : list string) (u : UploadFileTask) : nat * nat :=
  let l := visit order (destinations u) in
  (length (filter (fun s => Status s ≠ SLICE_STATUS_REPLACED) l),
   length (filter (fun s => Status s = SLICE_STATUS_FINISHED) l)).

(** The progress in percent; [float32] rounding is left out. *)
Definition GetUploadProgress (order : list string) (u : UploadFileTask) : Q :=
  let '(totalCount, finishedCount) := progress_counts order u in
  if bool_decide (totalCount = 0)%nat then 0%Q
  else (inject_Z (Z.of_nat finishedCount) / inject_Z (Z.of_nat totalCount) * 100)%Q.

(** [u.rspUploadFile[0].FileHash] panics when the map is nil or has no entry. *)
Definition rsp0 (u : UploadFileTask) : res RspFile :=
  match rspUploadFile u with
  | Some m => match m !! 0 with Some r => Ok r | None => Panic "nil pointer dereference" end
  | None => Panic "nil pointer dereference"
  end.

Definition GetUploadFileHash (u : UploadFileTask) : res string := r ← rsp0 u; Ok (FileHash r).
Definition GetUploadTaskId (u : UploadFileTask) : res string := r ← rsp0 u; Ok (TaskId r).
Definition GetUploadSpP2pAddress (u : UploadFileTask) : res string := r ← rsp0 u; Ok (SpP2PAddress r).

(** Storing into a nil map panics. *)
Definition SetRspUploadFile (u : UploadFileTask) (r : RspFile) : res UploadFileTask :=
  match rspUploadFile u with
  | Some m => Ok (mkTask (Some (<[retryCount u := r]> m)) (rspBackupFile u) (uploadType u) (destinations u)
                    (state u) (pause u) (concurrentUploads u) (fatalError u) (retryCount u))
  | None => Panic "assignment to entry in nil map"
  end.

Definition CanRetry (u : UploadFileTask) : bool := bool_decide (retryCount u < MAX_UPLOAD_RETRY).
Definition UpdateRetryCount (u : UploadFileTask) : UploadFileTask :=
  mkTask (rspUploadFile u) (rspBackupFile u) (uploadType u) (destinations u) (state u) (pause u)
    (concurrentUploads u) (fatalError u) (retryCount u + 1).
Definition Pause (b : bool) (u : UploadFileTask) : UploadFileTask :=
  mkTask (rspUploadFile u) (rspBackupFile u) (uploadType u) (destinations u) (state u) b
    (concurrentUploads u) (fatalError u) (retryCount u).
Definition SetFatalError (err : string) (u : UploadFileTask) : UploadFileTask :=
  mkTask (rspUploadFile u) (rspBackupFile u) (uploadType u) (destinations u) (state u) (pause u)
    (concurrentUploads u) (Some err) (retryCount u).

(** ** Failures and retries *)

Definition needs_new_destination (s : SliceWithStatus) : Prop :=
  Status s = SLICE_STATUS_FAILED ∨ Status s = SLICE_STATUS_STARTED ∨ Status s = SLICE_STATUS_WAITING_FOR_SP.
#[global] Instance needs_new_destination_dec s : Decision (needs_new_destination s) := _.

Definition report_dest (d : SlicesPerDestination) : SlicesPerDestination :=
  mkDest (ppInfo d)
    (map (fun s => if decide (needs_new_destination s) then set_status SLICE_STATUS_WAITING_FOR_SP s else s) (slices d))
    (if existsb (fun s => bool_decide (needs_new_destination s)) (slices d) then false else started d).

(** The slices to place anew, which of them failed, and the task afterwards. *)
Definition SliceFailuresToReport (order : list string) (u : UploadFileTask)
  : list SliceHashAddr * list bool * UploadFileTask :=
  let l := filter needs_new_destination (visit order (destinations u)) in
  (map slice l, map (fun s => bool_decide (Status s = SLICE_STATUS_FAILED)) l,
   set_dests u (report_dest <$> destinations u)).

Definition GetExcludedDestinations (order : list string) (u : UploadFileTask) : list string :=
  omap (fun a => d ← destinations u !! a;
     if existsb (fun s => bool_decide (Status s = SLICE_STATUS_FAILED) || bool_decide (Status s = SLICE_STATUS_WAITING_FOR_SP)
                          || bool_decide (Status s = SLICE_STATUS_REPLACED)) (slices d)
     then Some (ppInfo d) else None) order.

(** The first destination not started, marked started. *)
Fixpoint next_dest (order : list string) (d : gmap string SlicesPerDestination) : option (string * SlicesPerDestination) :=
  match order with
  | [] => None
  | a :: order =>
      match d !! a with
      | Some x => if started x then next_dest order d else Some (a, mkDest (ppInfo x) (slices x) true)
      | None => next_dest order d
      end
  end.

Definition NextDestination (order : list string) (u : UploadFileTask) : option SlicesPerDestination * UploadFileTask :=
  if bool_decide (MAXSLICE ≤ concurrentUploads u) then (None, u)
  else match next_dest order (destinations u) with
       | None => (None, u)
       | Some (a, x) =>
           (Some x, set_concurrent (set_dests u (<[a := x]> (destinations u))) (concurrentUploads u + 1))
       end.

(** Where each slice number is now: later keys of the order win. *)
Definition note_slices (a : string) (m : gmap Z string) (l : list SliceWithStatus) : gmap Z string :=
  foldl (fun m s => if decide (Status s = SLICE_STATUS_REPLACED) then m
                    else <[SliceNumber (slice s) := a]> m) m l.

Definition original_destinations (order : list string) (d : gmap string SlicesPerDestination) : gmap Z string :=
  foldl (fun m a => match d !! a with Some x => note_slices a m (slices x) | None => m end) ∅ order.

(** The first slice with this number becomes [REPLACED]; [None] if there is none. *)
Fixpoint replace_first (n : Z) (l : list SliceWithStatus) : option (list SliceWithStatus) :=
  match l with
  | [] => None
  | s :: l => if decide (SliceNumber (slice s) = n) then Some (set_status SLICE_STATUS_REPLACED s :: l)
              else cons s <$> replace_first n l
  end.

Definition retry_one (orig : gmap Z string) (d : gmap string SlicesPerDestination) (nd : SliceHashAddr)
  : gmap string SlicesPerDestination :=
  match orig !! SliceNumber nd with
  | None => d
  | Some a =>
      match d !! a with
      | None => d
      | Some x =>
          match replace_first (SliceNumber nd) (slices x) with
          | None => d
          | Some l => addNewSlice (<[a := mkDest (ppInfo x) l (started x)]> d) nd
          end
      end
  end.

Definition UpdateSliceDestinationsForRetry (order : list string) (newDestinations : list SliceHashAddr)
    (u : UploadFileTask) : UploadFileTask :=
  if decide (state u = STATE_NOT_STARTED)
  then set_dests u (foldl (retry_one (original_destinations order (destinations u))) (destinations u) newDestinations)
  else u.

(** [SetUploadSliceStatus]: the counter goes down for a replaced slice too. *)
Fixpoint set_status_list (h : string) (st : SliceStatus) (l : list SliceWithStatus) (conc : Z)
  : option (list SliceWithStatus) * Z :=
  match l with
  | [] => (None, conc)
  | s :: l =>
      if decide (SliceHash (slice s) = h) then
        let conc := if bool_decide (st ≠ SLICE_STATUS_STARTED) && bool_decide (Status s = SLICE_STATUS_STARTED)
                    then conc - 1 else conc in
        if decide (Status s = SLICE_STATUS_REPLACED) then
          let '(r, c) := set_status_list h st l conc in (cons s <$> r, c)
        else (Some (set_status st s :: l), conc)
      else let '(r, c) := set_status_list h st l conc in (cons s <$> r, c)
  end.

Fixpoint set_status_dests (h : string) (st : SliceStatus) (order : list string) (u : UploadFileTask) : res UploadFileTask :=
  match order with
  | [] => Err "failed finding the slice in file upload task"
  | a :: order =>
      match destinations u !! a with
      | None => set_status_dests h st order u
      | Some x =>
          match set_status_list h st (slices x) (concurrentUploads u) with
          | (Some l, c) => Ok (set_concurrent (set_dests u (<[a := mkDest (ppInfo x) l (started x)]> (destinations u))) c)
          | (None, c) => set_status_dests h st order (set_concurrent u c)
          end
      end
  end.
Definition SetUploadSliceStatus (order : list string) (sliceHash : string) (st : SliceStatus) (u : UploadFileTask)
  : res UploadFileTask := set_status_dests sliceHash st order u.

(** ** Running the upload *)

Definition CreateUploadSliceTask (s : SliceWithStatus) (u : UploadFileTask) : UploadSliceTask :=
  mkSliceTask (m ← rspUploadFile u; m !! retryCount u) (SliceNumber (slice s)) (SliceHash (slice s)).

(** [tmp h sh]: what [file.GetSliceDataFromTmp] finds. *)
Definition GetReuploadSliceTask (tmp : string → string → option bytes) (s : SliceWithStatus) (u : UploadFileTask)
  : res (string + UploadSliceTask) :=
  match rspBackupFile u with
  | None => Panic "nil pointer dereference"
  | Some r =>
      match tmp (FileHash r) (SliceHash (slice s)) with
      | None => Ok (inl "Failed to find the file slice in temp folder")
      | Some _ => Ok (inr (mkSliceTask None (SliceNumber (slice s)) ""))
      end
  end.

Section Upload.
(** [fn], the function that sends a slice: [None] is success. *)
Context (fn : UploadSliceTask → option string) (tmp : string → string → option bytes).

(** The loop of [uploadSlicesToDestination]: the slices afterwards, whether the
    task paused, and the slices sent. *)
Fixpoint upload_slices (u : UploadFileTask) (l : list SliceWithStatus)
  : res (list SliceWithStatus * bool * list UploadSliceTask) :=
  match l with
  | [] => Ok ([], false, [])
  | s :: l =>
      if pause u then Ok (s :: l, true, [])
      else match fatalError u with
      | Some _ => Ok (s :: l, false, [])
      | None =>
          if decide (Status s = SLICE_STATUS_FINISHED ∨ Status s = SLICE_STATUS_REPLACED) then
            '(l', p, sent) ← upload_slices u l; Ok (s :: l', p, sent)
          else
            tk ← (match uploadType u with
                  | NEW_UPLOAD => _ ← rsp0 u; Ok (inr (CreateUploadSliceTask s u))
                  | BACKUP =>
                      t ← GetReuploadSliceTask tmp s u;
                      match t with
                      | inl e => Ok (inl e)
                      | inr tk => _ ← rsp0 u; Ok (inr tk)
                      end
                  end);
            match tk with
            | inl e => Ok (setError e true s :: l, false, [])
            | inr tk =>
                match fn tk with
                | Some e => Ok (setError e false s :: l, false, [tk])
                | None => '(l', p, sent) ← upload_slices u l; Ok (s :: l', p, tk :: sent)
                end
            end
      end
  end.

Fixpoint upload_dests (order : list string) (u : UploadFileTask) : res (UploadFileTask * list UploadSliceTask) :=
  match order with
  | [] => Ok (u, [])
  | a :: order =>
      match destinations u !! a with
      | None => upload_dests order u
      | Some x =>
          if started x then upload_dests order u
          else
            '(l, paused, sent) ← upload_slices u (slices x);
            let u := set_concurrent (set_dests u (<[a := mkDest (ppInfo x) l true]> (destinations u)))
                       (concurrentUploads u + 1) in
            let u := if (paused : bool) then set_state u STATE_PAUSED else u in
            '(u, sent') ← upload_dests order u;
            Ok (u, sent ++ sent')
      end
  end.

Definition UploadToDestination (order : list string) (u : UploadFileTask) : res (UploadFileTask * list UploadSliceTask) :=
  if decide (state u = STATE_NOT_STARTED) then
    let u := set_state u STATE_RUNNING in
    if bool_decide (concurrentUploads u < MAXSLICE) then
      '(u, sent) ← upload_dests order u;
      Ok (set_state u STATE_DONE, sent)
    else Ok (u, [])
  else if bool_decide (state u = STATE_DONE) && pause u then Ok (set_state u STATE_PAUSED, [])
  else Ok (u, []).

End Upload.

(** ** Visiting all destinations *)

(** An order in which a loop may visit the keys of the map. *)
Definition covers (order : list string) (d : gmap string SlicesPerDestination) : Prop :=
  NoDup order ∧ (∀ a, a ∈ order ↔ is_Some (d !! a)).

Lemma elem_of_visit order d s :
  s ∈ visit order d ↔ ∃ a x, a ∈ order ∧ d !! a = Some x ∧ s ∈ slices x.
Proof.
  induction order as [|a order IH].
  { split; [by intros ?%elem_of_nil|intros (a & x & H & _); by apply elem_of_nil in H]. }
  unfold visit in *. cbn. destruct (d !! a) as [x|] eqn:E; cbn.
  - rewrite elem_of_app, IH. split.
    + intros [Hs|(b & y & ? & ? & ?)]; [exists a, x|exists b, y]; split_and!; try done; by constructor.
    + intros (b & y & Hb & Hy & Hs). apply elem_of_cons in Hb as [->|Hb]; [|right; by exists b, y].
      left. congruence.
  - rewrite IH. split; intros (b & y & Hb & Hy & Hs); exists b, y; split_and!; try done; [by constructor|].
    apply elem_of_cons in Hb as [->|Hb]; [congruence|done].
Qed.

Lemma elem_of_visit_covers order d s :
  covers order d → s ∈ visit order d ↔ ∃ a x, d !! a = Some x ∧ s ∈ slices x.
Proof.
  intros [_ Hc]. rewrite elem_of_visit. split.
  - intros (a & x & _ & ? & ?). by exists a, x.
  - intros (a & x & Hx & ?). exists a, x. split_and!; try done. apply Hc. by eexists.
Qed.

(** ** Failure reports *)

Lemma needs_iff s : needs_new_destination s ↔ ¬ (Status s = SLICE_STATUS_FINISHED ∨ Status s = SLICE_STATUS_REPLACED).
Proof. unfold needs_new_destination. destruct (Status s); intuition congruence. Qed.

Lemma IsFinished_iff order u :
  IsFinished order u = true ↔ filter needs_new_destination (visit order (destinations u)) = [].
Proof.
  unfold IsFinished. induction (visit order (destinations u)) as [|s l IH]; [done|].
  cbn [forallb]. rewrite filter_cons, andb_true_iff, orb_true_iff, !bool_decide_eq_true, IH.
  case_decide as H; rewrite needs_iff in H.
  - split; [tauto|done].
  - split; [tauto|]. intros ->. destruct (Status s); tauto || (exfalso; apply H; intuition congruence).
Qed.

Lemma report_status s :
  Status (if decide (needs_new_destination s) then set_status SLICE_STATUS_WAITING_FOR_SP s else s)
  = if decide (needs_new_destination s) then SLICE_STATUS_WAITING_FOR_SP else Status s.
Proof. by case_decide. Qed.

(** A failure report lists exactly the slices that are neither finished nor
    replaced, with the mark of the ones that failed, so it is empty exactly when
    the upload is finished; afterwards all of them wait for the SP, none is left
    failed or in progress, and their destinations may be started again. *)
Theorem failure_report_complete order u ls fs u' :
  covers order (destinations u) → SliceFailuresToReport order u = (ls, fs, u') →
  length fs = length ls ∧ (ls = [] ↔ IsFinished order u = true)
  ∧ (∀ a x s, destinations u !! a = Some x → s ∈ slices x →
       needs_new_destination s → slice s ∈ ls)
  ∧ (∀ a x', destinations u' !! a = Some x' →
       Forall (fun s => Status s ∈ [SLICE_STATUS_WAITING_FOR_SP; SLICE_STATUS_REPLACED; SLICE_STATUS_FINISHED]) (slices x')
       ∧ (Exists (fun s => Status s = SLICE_STATUS_WAITING_FOR_SP) (slices x') → started x' = false)).
Proof.
  intros Hc [= <- <- <-]. rewrite !length_map. split_and!; [done| | |].
  - rewrite IsFinished_iff. split; [apply map_eq_nil|by intros ->].
  - intros a x s Hx Hs Hn. apply list_elem_of_In, in_map, list_elem_of_In, list_elem_of_filter. split; [done|].
    apply elem_of_visit_covers; [done|]. by exists a, x.
  - intros a x'. cbn. rewrite lookup_fmap. destruct (destinations u !! a) as [x|]; [|done]. intros [= <-]. cbn. split.
    + apply Forall_forall. intros s Hs. apply in_map_iff in Hs as (s0 & <- & _). rewrite report_status.
      case_decide as Hn; [by left|]. rewrite needs_iff in Hn.
      destruct (Status s0); try (exfalso; apply Hn; intuition congruence); repeat ((left; done) || right).
    + rewrite Exists_exists. intros (s & Hs & Hst). apply in_map_iff in Hs as (s0 & <- & Hin).
      rewrite report_status in Hst.
      assert (existsb (fun s => bool_decide (needs_new_destination s)) (slices x) = true) as ->; [|done].
      apply existsb_exists. exists s0. split; [done|]. apply bool_decide_eq_true.
      destruct (decide (needs_new_destination s0)) as [|Hn]; [done|]. right; by right.
Qed.

Lemma progress_counts_finished order u :
  let '(totalCount, finishedCount) := progress_counts order u in
  (finishedCount ≤ totalCount)%nat ∧ (IsFinished order u = true ↔ finishedCount = totalCount).
Proof.
  unfold progress_counts, IsFinished. induction (visit order (destinations u)) as [|s l IH]; [done|].
  destruct IH as [IH1 IH2]. cbn [forallb]. rewrite !filter_cons, andb_true_iff, IH2.
  destruct (Status s); cbn; repeat case_decide; try congruence; cbn [length];
    repeat case_bool_decide; cbn; split; try lia; intuition (congruence || lia).
Qed.

Lemma percent_bounds (f t : nat) :
  (f ≤ t)%nat → t ≠ 0%nat →
  let p := (inject_Z (Z.of_nat f) / inject_Z (Z.of_nat t) * 100)%Q in
  (0 <= p)%Q ∧ (p <= 100)%Q ∧ ((p == 100)%Q ↔ f = t).
Proof.
  intros Hft Ht p.
  assert (0 < inject_Z (Z.of_nat t))%Q as Hpos by (rewrite <- (Zlt_Qlt 0); lia).
  assert (p == inject_Z (100 * Z.of_nat f) / inject_Z (Z.of_nat t))%Q as Hp.
  { unfold p. rewrite inject_Z_mult. field. lra. }
  rewrite Hp. split_and!.
  - apply Qle_shift_div_l; [done|]. rewrite Qmult_0_l, <- (Zle_Qle 0). lia.
  - apply Qle_shift_div_r; [done|]. change 100%Q with (inject_Z 100). rewrite <- inject_Z_mult, <- Zle_Qle. lia.
  - split.
    + intros E. apply (Qmult_inj_r _ _ (inject_Z (Z.of_nat t))) in E; [|lra].
      rewrite Qmult_comm, Qmult_div_r in E by lra. change 100%Q with (inject_Z 100) in E.
      rewrite <- inject_Z_mult, inject_Z_injective in E. lia.
    + intros ->. rewrite inject_Z_mult. change (inject_Z 100) with 100%Q. field. lra.
Qed.

(** The reported progress is a percentage, and an upload is finished exactly
    when it is 100, or when every slice was replaced or there is none, in which
    case the progress stays 0. *)
Theorem finished_iff_full_progress order u :
  let p := GetUploadProgress order u in
  (0 <= p)%Q ∧ (p <= 100)%Q ∧
  (IsFinished order u = true ↔ (p == 100)%Q ∨ (progress_counts order u).1 = 0%nat).
Proof.
  pose proof (progress_counts_finished order u) as H. unfold GetUploadProgress.
  destruct (progress_counts order u) as [t f]. destruct H as [Hle Hfin]. cbn [fst]. rewrite Hfin.
  case_bool_decide as Ht.
  - subst t. split_and!; [lra|lra|]. split; [by right|lia].
  - destruct (percent_bounds f t Hle Ht) as (H1 & H2 & H3). split_and!; [done|done|]. rewrite H3. tauto.
Qed.

(** ** Retrying with new destinations *)

Definition numbers (l : list SliceWithStatus) : list Z := map (fun s => SliceNumber (slice s)) l.

(** The destination [a] is where slice [n] is to be sent. *)
Definition holds (d : gmap string SlicesPerDestination) (n : Z) (a : string) : Prop :=
  ∃ x s, d !! a = Some x ∧ s ∈ slices x ∧ SliceNumber (slice s) = n ∧ Status s ≠ SLICE_STATUS_REPLACED.

(** A slice number occurs at a destination at most once, replaced or not. *)
Definition once_each (d : gmap string SlicesPerDestination) : Prop :=
  map_Forall (fun _ x => NoDup (numbers (slices x))) d.
Definition one_holder (d : gmap string SlicesPerDestination) : Prop :=
  ∀ n a b, holds d n a → holds d n b → a = b.

Definition mentions (d : gmap string SlicesPerDestination) (n : Z) (a : string) : Prop :=
  ∃ x, d !! a = Some x ∧ n ∈ numbers (slices x).

Lemma holds_mentions d n a : holds d n a → mentions d n a.
Proof.
  intros (x & s & Hx & Hs & Hn & _). exists x. split; [done|].
  apply list_elem_of_In, in_map_iff. exists s. by rewrite <- list_elem_of_In.
Qed.

(** [original_destinations] is the holder of each number. *)
Lemma orig_inner_sound a l m n b :
  note_slices a m l !! n = Some b →
  (b = a ∧ ∃ s, s ∈ l ∧ SliceNumber (slice s) = n ∧ Status s ≠ SLICE_STATUS_REPLACED) ∨ m !! n = Some b.
Proof.
  unfold note_slices. revert m. induction l as [|s l IH]; intros m; cbn; [by right|].
  intros [(-> & t & Ht & ?)|H]%IH; [left; split; [done|]; exists t; split; [by right|done]|].
  case_decide as Hs; [by right|]. apply lookup_insert_Some in H as [[<- <-]|[_ H]]; [|by right].
  left. split; [done|]. exists s. by split; [left|].
Qed.

Lemma orig_inner_complete a l m n :
  (is_Some (m !! n) ∨ ∃ s, s ∈ l ∧ SliceNumber (slice s) = n ∧ Status s ≠ SLICE_STATUS_REPLACED) →
  is_Some (note_slices a m l !! n).
Proof.
  unfold note_slices. revert m. induction l as [|s l IH]; intros m; cbn.
  { intros [?|(s & Hs & _)]; [done|by apply elem_of_nil in Hs]. }
  intros H. apply IH. destruct H as [H|(t & Ht & Hn & Hst)].
  - left. case_decide; [done|]. destruct (decide (SliceNumber (slice s) = n)) as [<-|];
      [rewrite lookup_insert_eq; by eexists|by rewrite lookup_insert_ne].
  - apply elem_of_cons in Ht as [->|Ht]; [|right; by exists t].
    left. rewrite decide_False by done. rewrite Hn, lookup_insert_eq. by eexists.
Qed.

Lemma original_sound order d n a : original_destinations order d !! n = Some a → holds d n a.
Proof.
  unfold original_destinations. assert ((∅ : gmap Z string) !! n = Some a → holds d n a) as H0 by done.
  revert H0. generalize (∅ : gmap Z string). induction order as [|b order IH]; intros m H0; cbn; [done|].
  apply IH. destruct (d !! b) as [x|] eqn:E; [|done].
  intros [(-> & s & ? & ? & ?)|H]%orig_inner_sound; [|auto]. by exists x, s.
Qed.

Lemma original_complete order d n a :
  a ∈ order → holds d n a → is_Some (original_destinations order d !! n).
Proof.
  intros Hin (x & s & Hx & Hs & Hn & Hst). unfold original_destinations.
  assert (∀ order m, is_Some (m !! n) → is_Some (foldl (fun m a => match d !! a with Some x => note_slices a m (slices x) | None => m end) m order !! n)) as Hkeep.
  { clear. induction order as [|b order IH]; intros m Hm; cbn; [done|]. apply IH.
    destruct (d !! b); [|done]. apply orig_inner_complete. by left. }
  generalize (∅ : gmap Z string). induction order as [|b order IH]; intros m; [by apply elem_of_nil in Hin|].
  cbn. apply elem_of_cons in Hin as [<-|Hin]; [|by apply IH].
  apply Hkeep. rewrite Hx. apply orig_inner_complete. right. by exists s.
Qed.

Lemma original_iff order d n a :
  covers order d → one_holder d → original_destinations order d !! n = Some a ↔ holds d n a.
Proof.
  intros [_ Hc] Huni. split; [apply original_sound|]. intros H.
  destruct (original_complete order d n a) as [b Hb]; [|done|].
  - apply Hc. destruct H as (x & _ & Hx & _). by eexists.
  - rewrite Hb. f_equal. eapply Huni; [by apply (original_sound order)|done].
Qed.

(** Replacing the only entry of a number leaves it dead and the rest alone. *)
Lemma replace_first_spec n l :
  NoDup (numbers l) → n ∈ numbers l →
  ∃ l', replace_first n l = Some l' ∧ numbers l' = numbers l
    ∧ (∀ s, s ∈ l' → SliceNumber (slice s) = n → Status s = SLICE_STATUS_REPLACED)
    ∧ (∀ s, SliceNumber (slice s) ≠ n → s ∈ l' ↔ s ∈ l).
Proof.
  induction l as [|s l IH]; cbn; [by intros _ ?%elem_of_nil|].
  rewrite list.NoDup_cons. intros [Hs Hnd] Hn. destruct (decide (SliceNumber (slice s) = n)) as [E|E].
  - eexists. split; [done|]. split_and!; [done|..].
    + intros t Ht Htn. apply elem_of_cons in Ht as [->|Ht]; [done|]. exfalso. apply Hs. rewrite E, <- Htn.
      apply list_elem_of_In, in_map_iff. exists t. by rewrite <- list_elem_of_In.
    + intros t Ht. rewrite !elem_of_cons. split; intros [->|?]; auto; exfalso; by apply Ht.
  - apply elem_of_cons in Hn as [->|Hn]; [done|]. destruct (IH Hnd Hn) as (l' & -> & Hnum & Hdead & Hsame).
    eexists. split; [done|]. cbn. split_and!; [f_equal; exact Hnum|..].
    + intros t Ht Htn. apply elem_of_cons in Ht as [->|Ht]; [by congruence|by apply Hdead].
    + intros t Ht. by rewrite !elem_of_cons, Hsame.
Qed.

#[local] Arguments numbers : simpl never.

(** What [retry_one] leaves for a slice held at [a]: the entry there dead, a new
    entry at the end of the new destination, the rest untouched. *)
Record moved (d : gmap string SlicesPerDestination) (nd : SliceHashAddr) (a : string)
    (d' : gmap string SlicesPerDestination) : Prop := {
  mv_x : ∃ x l, d !! a = Some x ∧ d' !! a = Some (mkDest (ppInfo x) l (started x))
    ∧ numbers l = numbers (slices x)
    ∧ (∀ s, s ∈ l → SliceNumber (slice s) = SliceNumber nd → Status s = SLICE_STATUS_REPLACED)
    ∧ (∀ s, SliceNumber (slice s) ≠ SliceNumber nd → s ∈ l ↔ s ∈ slices x);
  mv_y : ∃ y, d' !! PpP2PAddress nd = Some (mkDest (ppInfo y) (slices y ++ [new_slice nd]) false)
    ∧ y = match d !! PpP2PAddress nd with Some x => x | None => mkDest (PpP2PAddress nd) [] false end;
  mv_other : ∀ c, c ≠ a → c ≠ PpP2PAddress nd → d' !! c = d !! c;
  mv_ne : a ≠ PpP2PAddress nd
}.

Lemma retry_one_moves d nd a orig :
  once_each d → holds d (SliceNumber nd) a → ¬ mentions d (SliceNumber nd) (PpP2PAddress nd) →
  orig !! SliceNumber nd = Some a → moved d nd a (retry_one orig d nd).
Proof.
  intros Hone Hh Hfresh Horig. pose proof Hh as (x & s & Hx & Hs & Hsn & Hst).
  unfold retry_one. rewrite Horig, Hx.
  destruct (replace_first_spec (SliceNumber nd) (slices x)) as (l & El & Hnum & Hdead & Hsame).
  { exact (Hone _ _ Hx). }
  { apply list_elem_of_In, in_map_iff. exists s. by rewrite <- list_elem_of_In. }
  rewrite El. assert (a ≠ PpP2PAddress nd) as Hne by (intros ->; by apply Hfresh, holds_mentions).
  unfold addNewSlice. rewrite lookup_insert_ne by done. cbv zeta. split; [..|done].
  - exists x, l. by rewrite lookup_insert_ne, lookup_insert_eq.
  - eexists. rewrite lookup_insert_eq. by split.
  - intros c ? ?. by rewrite !lookup_insert_ne.
Qed.

Lemma moved_once_each d nd a d' :
  once_each d → ¬ mentions d (SliceNumber nd) (PpP2PAddress nd) → moved d nd a d' → once_each d'.
Proof.
  intros Hone Hfresh [(x & l & Hx & Ea & Hnum & _) (y & Eb & ->) Ec Hne] c z Hz.
  destruct (decide (c = PpP2PAddress nd)) as [->|Hc1].
  - rewrite Eb in Hz. injection Hz as <-. cbn. unfold numbers. rewrite map_app. cbn.
    apply list.NoDup_app. split_and!; [|..|apply NoDup_singleton].
    + destruct (d !! PpP2PAddress nd) as [w|] eqn:E; [exact (Hone _ _ E)|constructor].
    + intros n Hn ->%list_elem_of_singleton. apply Hfresh.
      destruct (d !! PpP2PAddress nd) as [w|] eqn:E; [by exists w|by apply elem_of_nil in Hn].
  - destruct (decide (c = a)) as [->|Hc2].
    + rewrite Ea in Hz. injection Hz as <-. cbn. rewrite Hnum. exact (Hone _ _ Hx).
    + rewrite Ec in Hz by done. exact (Hone _ _ Hz).
Qed.

Lemma moved_holds_new d nd a d' :
  moved d nd a d' → holds d' (SliceNumber nd) (PpP2PAddress nd).
Proof.
  intros [_ (y & Eb & _) _ _]. eexists _, (new_slice nd). split; [exact Eb|].
  split_and!; [|done|done]. cbn. apply elem_of_app. right. by left.
Qed.

Lemma moved_holds_only d nd a d' b :
  moved d nd a d' → holds d' (SliceNumber nd) b →
  b = PpP2PAddress nd ∨ (b ≠ a ∧ holds d (SliceNumber nd) b).
Proof.
  intros [(x & l & Hx & Ea & _ & Hdead & _) _ Ec _] (z & t & Hz & Ht & Htn & Htst).
  destruct (decide (b = PpP2PAddress nd)) as [|Hb]; [by left|]. right.
  destruct (decide (b = a)) as [->|Hba].
  - rewrite Ea in Hz. injection Hz as <-. cbn in Ht. by rewrite (Hdead _ Ht Htn) in Htst.
  - rewrite Ec in Hz by done. split; [done|]. by exists z, t.
Qed.

Lemma moved_holds_other d nd a d' n b :
  moved d nd a d' → n ≠ SliceNumber nd → holds d' n b ↔ holds d n b.
Proof.
  intros [(x & l & Hx & Ea & _ & _ & Hsame) (y & Eb & Ey) Ec _] Hn. unfold holds.
  destruct (decide (b = PpP2PAddress nd)) as [->|Hb]; [|destruct (decide (b = a)) as [->|Hba]].
  - rewrite Eb. split.
    + intros (z & t & [= <-] & Ht & Htn & Htst). cbn in Ht. apply elem_of_app in Ht as [Ht|Ht%list_elem_of_singleton].
      * rewrite Ey in Ht. destruct (d !! PpP2PAddress nd) as [w|]; [by exists w, t|by apply elem_of_nil in Ht].
      * subst t. by cbn in Htn.
    + intros (z & t & Hz & Ht & ? & ?). eexists _, t. split; [done|]. cbn. split_and!; try done.
      apply elem_of_app. left. by rewrite Ey, Hz.
  - rewrite Ea, Hx. split; intros (z & t & [= <-] & Ht & Htn & Htst); eexists _, t; (split; [done|]); cbn in *;
      split_and!; try done; apply Hsame; congruence || done.
  - by rewrite Ec.
Qed.

Lemma moved_mentions_other d nd a d' n b :
  moved d nd a d' → n ≠ SliceNumber nd → mentions d' n b ↔ mentions d n b.
Proof.
  intros [(x & l & Hx & Ea & Hnum & _ & _) (y & Eb & Ey) Ec _] Hn. unfold mentions.
  destruct (decide (b = PpP2PAddress nd)) as [->|Hb]; [|destruct (decide (b = a)) as [->|Hba]].
  - rewrite Eb. unfold numbers. split.
    + intros (z & [= <-] & Hz). cbn in Hz. rewrite map_app, elem_of_app, Ey in Hz.
      destruct Hz as [Hz|Hz%list_elem_of_singleton]; [|done].
      destruct (d !! PpP2PAddress nd) as [w|]; [by exists w|by apply elem_of_nil in Hz].
    + intros (z & Hz & Hnz). eexists. split; [done|]. cbn. rewrite map_app, elem_of_app, Ey, Hz. by left.
  - rewrite Ea, Hx. split; intros (z & [= <-] & Hz); eexists; (split; [done|]); cbn in *; congruence.
  - by rewrite Ec.
Qed.

(** Where slice [n] is after the new destinations [news] were taken over. *)
Definition new_place (d : gmap string SlicesPerDestination) (news : list SliceHashAddr) (n : Z) (a : string) : Prop :=
  match List.find (fun nd => bool_decide (SliceNumber nd = n)) news with
  | Some nd => (∃ b, holds d n b) ∧ a = PpP2PAddress nd
  | None => holds d n a
  end.

Lemma retry_fold news d d0 order :
  covers order d0 → one_holder d0 → once_each d →
  NoDup (map SliceNumber news) →
  (∀ nd, nd ∈ news → ¬ mentions d (SliceNumber nd) (PpP2PAddress nd)) →
  (∀ nd a, nd ∈ news → holds d (SliceNumber nd) a ↔ holds d0 (SliceNumber nd) a) →
  let d' := foldl (retry_one (original_destinations order d0)) d news in
  once_each d' ∧ (∀ n a, holds d' n a ↔ new_place d news n a).
Proof.
  intros Hcov Huni. revert d. induction news as [|nd news IH]; intros d Hone Hnd Hfresh Hsame; [done|].
  cbn [map] in Hnd. apply list.NoDup_cons in Hnd as [Hnin Hnd]. cbn [foldl].
  assert (∀ nd', nd' ∈ news → SliceNumber nd' ≠ SliceNumber nd) as Hdiff.
  { intros nd' Hin E. apply Hnin. rewrite <- E. apply list_elem_of_In, in_map, list_elem_of_In, Hin. }
  assert (∀ n, n ≠ SliceNumber nd → new_place d (nd :: news) n = new_place d news n) as Hskip.
  { intros n Hn. unfold new_place. cbn. by rewrite bool_decide_eq_false_2 by congruence. }
  set (o := original_destinations order d0) in *.
  destruct (o !! SliceNumber nd) as [a|] eqn:Eo.
  - assert (holds d (SliceNumber nd) a) as Ha.
    { apply Hsame; [by left|]. by apply (original_iff order). }
    pose proof (retry_one_moves d nd a o Hone Ha (Hfresh nd ltac:(by left)) Eo) as Hmv.
    destruct (IH (retry_one o d nd)) as [H1 H2].
    + eapply moved_once_each; [done|apply Hfresh; by left|done].
    + done.
    + intros nd' Hin. rewrite (moved_mentions_other _ _ _ _ _ _ Hmv) by auto. apply Hfresh. by right.
    + intros nd' b Hin. rewrite (moved_holds_other _ _ _ _ _ _ Hmv) by auto. apply Hsame. by right.
    + split; [done|]. intros n b. rewrite H2. destruct (decide (n = SliceNumber nd)) as [->|Hn].
      * unfold new_place. cbn. rewrite bool_decide_eq_true_2 by done.
        destruct (List.find _ news) as [nd'|] eqn:Ef.
        { apply find_some in Ef as [Hin E%bool_decide_eq_true]. apply list_elem_of_In in Hin. by apply Hdiff in Hin. }
        split.
        -- intros [->|[Hba Hb]]%(moved_holds_only _ _ _ _ _ Hmv); [split; [by exists a|done]|].
           exfalso. apply Hba. apply Hsame in Ha, Hb; try by left. by eapply Huni.
        -- intros [_ ->]. by eapply moved_holds_new.
      * rewrite Hskip by done. unfold new_place. destruct (List.find _ news).
        -- by setoid_rewrite (moved_holds_other _ _ _ _ n _ Hmv Hn).
        -- by rewrite (moved_holds_other _ _ _ _ _ _ Hmv).
  - assert (retry_one o d nd = d) as -> by (unfold retry_one; by rewrite Eo).
    assert (∀ b, ¬ holds d (SliceNumber nd) b) as Hno.
    { intros b Hb. apply Hsame in Hb; [|by left]. apply (original_iff order) in Hb; [|done|done].
      fold o in Hb. congruence. }
    destruct (IH d Hone Hnd) as [H1 H2]; [intros; apply Hfresh; by right|intros; apply Hsame; by right|].
    split; [done|]. intros n b. rewrite H2. destruct (decide (n = SliceNumber nd)) as [->|Hn]; [|by rewrite Hskip].
    unfold new_place. cbn. rewrite bool_decide_eq_true_2 by done.
    destruct (List.find _ news) as [nd'|] eqn:Ef.
    { apply find_some in Ef as [Hin E%bool_decide_eq_true]. apply list_elem_of_In in Hin. by apply Hdiff in Hin. }
    split; [by intros ?%Hno|]. intros [[c Hc] _]. by apply Hno in Hc.
Qed.

(** Taking over the new destinations an SP assigned moves each slice they
    name, if it still had to be sent, from where it was to its new place, and
    moves no other slice: every slice still has at most one destination and is
    lost or doubled by no retry.  The new destination of a slice must not be one
    that had this slice before. *)
Theorem retry_moves_each_slice_once order news u :
  state u = STATE_NOT_STARTED → covers order (destinations u) →
  once_each (destinations u) → one_holder (destinations u) → NoDup (map SliceNumber news) →
  (∀ nd, nd ∈ news → ¬ mentions (destinations u) (SliceNumber nd) (PpP2PAddress nd)) →
  let d' := destinations (UpdateSliceDestinationsForRetry order news u) in
  once_each d' ∧ one_holder d' ∧ (∀ n a, holds d' n a ↔ new_place (destinations u) news n a).
Proof.
  intros Hst Hcov Hone Huni Hnd Hfresh. unfold UpdateSliceDestinationsForRetry. rewrite decide_True by done.
  cbn [destinations set_dests].
  destruct (retry_fold news (destinations u) (destinations u) order Hcov Huni Hone Hnd Hfresh) as [H1 H2]; [done|].
  split_and!; [done| |done]. intros n a b. rewrite !H2. unfold new_place. destruct (List.find _ news).
  - intros [_ ->] [_ ->]. done.
  - apply Huni.
Qed.

(** ** Creation *)

(** A fresh destination: not started, with slices that are all to be sent. *)
Definition fresh_dest (x : SlicesPerDestination) : Prop :=
  started x = false ∧ slices x ≠ [] ∧ Forall (fun s => Status s = SLICE_STATUS_STARTED) (slices x).

Lemma place_slice_fresh d sl : map_Forall (fun _ => fresh_dest) d → map_Forall (fun _ => fresh_dest) (place_slice d sl).
Proof.
  intros Hd a x. unfold place_slice. cbv zeta. rewrite lookup_insert_Some. intros [[<- <-]|[_ Hx]]; [|exact (Hd a x Hx)].
  destruct (d !! PpP2PAddress sl) as [y|] eqn:E; cbn.
  - destruct (Hd _ _ E) as (? & ? & ?). split_and!; [done|by destruct (slices y)|]. cbn.
    apply Forall_app. split; [done|]. by constructor.
  - split_and!; [done|done|by constructor].
Qed.

Lemma created_fresh l d :
  map_Forall (fun _ => fresh_dest) d → map_Forall (fun _ => fresh_dest) (foldl place_slice d l).
Proof. revert d. induction l as [|sl l IH]; intros d Hd; cbn; [done|]. by apply IH, place_slice_fresh. Qed.

Lemma created_nonempty l d : d ≠ ∅ ∨ l ≠ [] → foldl place_slice d l ≠ ∅.
Proof.
  revert d. induction l as [|sl l IH]; intros d; cbn; [by intros [?|?]|]. intros _. apply IH. left.
  apply insert_non_empty.
Qed.

(** A backup task cannot send anything: before the first slice whose data is
    found is sent, the code reads the upload response of the task, which a backup
    task does not have, and panics. *)
Theorem backup_upload_panics fn tmp order t u :
  CreateBackupFileTask (Some t) = Some u → rsp_Slices t ≠ [] →
  (∀ h sh, is_Some (tmp h sh)) → covers order (destinations u) →
  UploadToDestination fn tmp order u = Panic "nil pointer dereference".
Proof.
  cbn. intros [= <-] Hne Htmp [_ Hcov]. unfold UploadToDestination. cbn [state]. rewrite decide_True by done.
  cbn [concurrentUploads set_state]. rewrite bool_decide_eq_true_2 by (unfold MAXSLICE; lia).
  cbn [destinations] in Hcov. destruct order as [|a order].
  { exfalso. destruct (map_choose (foldl place_slice ∅ (rsp_Slices t))) as (i & x & Hi);
      [by apply created_nonempty; right|].
    specialize (Hcov i). rewrite Hi in Hcov. destruct Hcov as [_ H]. by destruct (elem_of_nil i) as [Hf _], (Hf (H ltac:(by eexists))). }
  cbn [upload_dests destinations set_state].
  destruct (proj1 (Hcov a) ltac:(by left)) as [x Hx]. rewrite Hx.
  destruct (created_fresh (rsp_Slices t) ∅ ltac:(apply map_Forall_empty) a x Hx) as (-> & Hs & Hall).
  destruct (slices x) as [|s l]; [done|]. apply Forall_cons_1 in Hall as [Hst _].
  cbn [upload_slices pause fatalError uploadType set_state]. rewrite decide_False by (rewrite Hst; intros [?|?]; done).
  unfold GetReuploadSliceTask. cbn [rspBackupFile set_state].
  destruct (Htmp (FileHash t) (SliceHash (slice s))) as [b ->]. done.
Qed.

Module UploadDemo.

Definition sl (n : Z) (h a : string) : SliceHashAddr := mkSliceHashAddr n h a.
Definition rsp : RspFile := mkRsp "file" "task" "sp" [sl 1 "s1" "pp1"; sl 2 "s2" "pp1"; sl 3 "s3" "pp2"].
Definition two_slices : RspFile := mkRsp "file" "task" "sp" [sl 1 "s1" "pp1"; sl 2 "s2" "pp1"].
Definition dests : gmap string SlicesPerDestination := foldl place_slice ∅ (rsp_Slices rsp).
Definition task : UploadFileTask := mkTask (Some {[0 := rsp]}) None NEW_UPLOAD dests STATE_NOT_STARTED false 0 None 0.

Definition all_sent (_ : UploadSliceTask) : option string := None.
Definition found (_ _ : string) : option bytes := Some [].

Lemma covers_dests : covers ["pp1"; "pp2"] dests.
Proof.
  split; [apply (bool_decide_unpack _); vm_compute; done|]. intros a. rewrite !elem_of_cons, elem_of_nil.
  change dests with (<["pp2" := mkDest "pp2" [new_slice (sl 3 "s3" "pp2")] false]>
    (<["pp1" := mkDest "pp1" [new_slice (sl 1 "s1" "pp1"); new_slice (sl 2 "s2" "pp1")] false]>
      (<["pp1" := mkDest "pp1" [new_slice (sl 1 "s1" "pp1")] false]> (∅ : gmap string SlicesPerDestination)))).
  destruct (decide (a = "pp2")) as [->|H2]; [rewrite lookup_insert_eq; split; [by eexists|auto]|].
  rewrite lookup_insert_ne by done.
  destruct (decide (a = "pp1")) as [->|H1]; [rewrite lookup_insert_eq; split; [by eexists|auto]|].
  rewrite !lookup_insert_ne, lookup_empty by done. split; [intuition|intros [? [=]]].
Qed.

Lemma failure_report_complete_witness :
  ∃ ls fs u', SliceFailuresToReport ["pp1"; "pp2"] task = (ls, fs, u')
  ∧ length fs = length ls ∧ (ls = [] ↔ IsFinished ["pp1"; "pp2"] task = true)
  ∧ (∀ a x s, destinations task !! a = Some x → s ∈ slices x → needs_new_destination s → slice s ∈ ls)
  ∧ (∀ a x', destinations u' !! a = Some x' →
       Forall (fun s => Status s ∈ [SLICE_STATUS_WAITING_FOR_SP; SLICE_STATUS_REPLACED; SLICE_STATUS_FINISHED]) (slices x')
       ∧ (Exists (fun s => Status s = SLICE_STATUS_WAITING_FOR_SP) (slices x') → started x' = false)).
Proof.
  eexists _, _, _. split; [reflexivity|].
  apply (failure_report_complete ["pp1"; "pp2"] task); [apply covers_dests|reflexivity].
Defined.

Lemma backup_upload_panics_witness :
  ∃ u, CreateBackupFileTask (Some rsp) = Some u
    ∧ UploadToDestination all_sent found ["pp1"; "pp2"] u = Panic "nil pointer dereference".
Proof.
  eexists. split; [reflexivity|].
  apply (backup_upload_panics all_sent found ["pp1"; "pp2"] rsp); [reflexivity|discriminate|by eexists|apply covers_dests].
Defined.

(** The number of concurrent uploads goes up once for a destination and down
    once for each of its slices: after a destination with two slices is served,
    the counter is -1, so the limit of [MAXSLICE] is not kept. *)
Theorem concurrent_uploads_drift :
  ∃ u u1 u2 u3 sent, CreateUploadFileTask (Some two_slices) = Some u
    ∧ UploadToDestination all_sent found ["pp1"] u = Ok (u1, sent) ∧ concurrentUploads u1 = 1
    ∧ SetUploadSliceStatus ["pp1"] "s1" SLICE_STATUS_FINISHED u1 = Ok u2
    ∧ SetUploadSliceStatus ["pp1"] "s2" SLICE_STATUS_FINISHED u2 = Ok u3
    ∧ IsFinished ["pp1"] u3 = true ∧ concurrentUploads u3 = -1.
Proof. do 5 eexists. split_and!; reflexivity. Qed.

Lemma holds_dests n a :
  holds dests n a → (n = 1 ∧ a = "pp1") ∨ (n = 2 ∧ a = "pp1") ∨ (n = 3 ∧ a = "pp2").
Proof.
  intros (x & s & Hx & Hs & Hn & _). destruct covers_dests as [_ Hc].
  assert (a ∈ ["pp1"; "pp2"]) as Ha by (apply Hc; by eexists).
  apply elem_of_cons in Ha as [->|Ha]; [|apply list_elem_of_singleton in Ha as ->];
    injection Hx as <-; apply list_elem_of_In in Hs; cbn in Hs.
  - destruct Hs as [<-|[<-|[]]]; cbn in Hn; auto.
  - destruct Hs as [<-|[]]; cbn in Hn; auto.
Qed.

Lemma retry_moves_each_slice_once_witness :
  let news := [sl 2 "s2" "pp3"] in
  let d' := destinations (UpdateSliceDestinationsForRetry ["pp1"; "pp2"] news task) in
  once_each d' ∧ one_holder d' ∧ (∀ n a, holds d' n a ↔ new_place dests news n a).
Proof.
  apply (retry_moves_each_slice_once ["pp1"; "pp2"] [sl 2 "s2" "pp3"] task).
  - reflexivity.
  - apply covers_dests.
  - apply (bool_decide_unpack _). vm_compute. done.
  - intros n a b Ha%holds_dests Hb%holds_dests. intuition congruence.
  - apply NoDup_singleton.
  - intros nd ->%list_elem_of_singleton (x & Hx & _). by vm_compute in Hx.
Defined.

End UploadDemo.
