(* ===== verification/Download.v ===== *)
(** * Download: download tasks and the handlers that drive them

    Models pp/task/download_task.go and, of pp/event, the handlers that start a
    download (query_file_info.go), take its slices (download_slice.go) and ask
    the SP for other sources (download_file_wrong.go, timeout_handler.go).

    A download task is an object that handlers hold a pointer to while the map
    that names it changes, so tasks live in a heap ([tasks]) and the map holds
    addresses.  The package-level maps are the fields of [D].  Those of type
    [AutoCleanMap] lose entries that were not used for an hour: [expire] is a step
    that may come at any time.  What file system, network and protobuf do is an
    [Env], one per call; what handlers send and save is the list [outbox].  Cost
    times, metrics, answers to waiting RPC calls and the percentages shown to the
    user are left out. *)
From S2P Require Import Prelude.

(** ** Messages (generated from sds-msg, the fields the code uses) *)

Record SliceOffset := mkOff { SliceOffsetStart : Z; SliceOffsetEnd : Z }.
Record PPBaseInfo := mkPP { P2PAddress : string; NetworkAddress : string }.

Record DownloadSliceInfo := mkSliceInfo {
  si_SliceHash : string;           (* SliceStorageInfo.SliceHash *)
  si_TaskId : string;
  si_StoragePpInfo : PPBaseInfo;
  si_SliceOffset : SliceOffset
}.

Record RspFileStorageInfo := mkInfo {
  fi_FileHash : string;
  fi_WalletAddress : string;
  fi_SliceInfo : list DownloadSliceInfo;
  fi_ReqId : string;
  fi_TaskId : string;
  fi_FileName : string;
  fi_SavePath : string;
  fi_EncryptionTag : string;
  fi_FileSize : Z;
  fi_TimeStamp : Z;
  fi_success : bool;               (* Result.State *)
  fi_Msg : string
}.

Record RspDownloadSlice := mkRspSlice {
  ds_FileHash : string;
  ds_WalletAddress : string;
  ds_TaskId : string;
  ds_SliceHash : string;           (* SliceInfo *)
  ds_SliceOffset : SliceOffset;
  ds_EncryptedSliceOffset : SliceOffset;
  ds_Data : bytes;
  ds_SliceSize : Z;
  ds_success : bool;
  ds_Msg : string
}.

(** ** State *)

Definition LOCAL_REQID : string := "local".
Definition LOSE_SLICE_MSG : string := "cannot find the file slice".
Definition SpamThresholdSpSignLatency : Z := 60.
Definition ResendFailedDownloadTimeLimit : Z := 120.

(** The sets are maps to bool in which only [true] is ever stored. *)
Record DownloadTask := mkDownloadTask {
  dt_TaskId : string;
  dt_WalletAddress : string;
  dt_FileHash : string;
  sliceInfo : gmap string DownloadSliceInfo;
  FailedSlice : gset string;
  SuccessSlice : gset string;
  FailedPPNodes : gmap string PPBaseInfo;
  SliceCount : Z;
  StartTimestamp : Z
}.

Record DownloadSP := mkSP { RawSize : Z; TotalSize : Z; DownloadedSize : Z }.

(** What a handler does to the outside. *)
Inductive effect :=
  | SavedData (fileHash sliceHash : string) (offset : Z) (data : bytes)  (* file.SaveDownloadedFileData *)
  | SavedProgress (fileHash sliceHash : string)                          (* file.SaveDownloadProgress *)
  | Reported (fileHash sliceHash : string)                               (* ReqReportDownloadResult *)
  | AskedSP (fileHash taskId : string) (failed : gset string) (nodes : gmap string PPBaseInfo) (* ReqDownloadFileWrong *)
  | RetryLater (task : nat)                                              (* taskMonitorClock *)
  | RequestedSlice (fileHash sliceHash : string)                         (* ReqDownloadSlice *)
  | FileDone (fileHash fileName savePath : string)                       (* DoneDownload *)
  | Result (fileHash : string) (success : bool)                          (* DownloadResult *)
  | RemoteDone (key : string)                                            (* file.SetRemoteFileResult *)
  | LocalStarted (fileHash : string)
  | LocalFinished (fileHash : string)
  | SessionClosed (key : string)
  | ConnDropped (key : string)
  | CacheDeleted (fileHash : string).

Record D := mkD {
  tasks : list DownloadTask;
  DownloadTaskMap : gmap string nat;
  DownloadFileMap : gmap string RspFileStorageInfo;
  DownloadSpeedOfProgress : gmap string DownloadSP;
  DownloadSliceProgress : gmap string Z;
  DownloadEncryptedSlices : gmap string bytes;
  SliceSessionMap : gmap string string;
  outbox : list effect
}.

Definition D0 : D := mkD [] ∅ ∅ ∅ ∅ ∅ ∅ [].

(** What the outside answers during one call. *)
Record Env := mkEnv {
  save_ok : RspDownloadSlice → bool;      (* file.SaveDownloadedFileData *)
  IsFileRpcRemote : string → bool;
  CheckDownloadCache : string → bool;     (* the file in the cache has this hash *)
  CheckFileExisting : string → bool;
  CheckSliceExisting : string → string → bool;
  IsVideoStream : string → bool;
  send_ok : string → bool;                (* SendMessageByCachedConn, by key *)
  decryptSliceData : bytes → res bytes;
  uuid : string → string;                 (* the new id for the request of a slice *)
  unix_now : Z
}.

Definition emit (e : effect) (d : D) : D :=
  mkD (tasks d) (DownloadTaskMap d) (DownloadFileMap d) (DownloadSpeedOfProgress d) (DownloadSliceProgress d)
    (DownloadEncryptedSlices d) (SliceSessionMap d) (outbox d ++ [e]).
Definition upd_task (p : nat) (f : DownloadTask → DownloadTask) (d : D) : D :=
  mkD (alter f p (tasks d)) (DownloadTaskMap d) (DownloadFileMap d) (DownloadSpeedOfProgress d)
    (DownloadSliceProgress d) (DownloadEncryptedSlices d) (SliceSessionMap d) (outbox d).
Definition set_taskmap (m : gmap string nat) (d : D) : D :=
  mkD (tasks d) m (DownloadFileMap d) (DownloadSpeedOfProgress d) (DownloadSliceProgress d)
    (DownloadEncryptedSlices d) (SliceSessionMap d) (outbox d).
Definition set_filemap (m : gmap string RspFileStorageInfo) (d : D) : D :=
  mkD (tasks d) (DownloadTaskMap d) m (DownloadSpeedOfProgress d) (DownloadSliceProgress d)
    (DownloadEncryptedSlices d) (SliceSessionMap d) (outbox d).
Definition set_speed (m : gmap string DownloadSP) (d : D) : D :=
  mkD (tasks d) (DownloadTaskMap d) (DownloadFileMap d) m (DownloadSliceProgress d)
    (DownloadEncryptedSlices d) (SliceSessionMap d) (outbox d).
Definition set_progress (m : gmap string Z) (d : D) : D :=
  mkD (tasks d) (DownloadTaskMap d) (DownloadFileMap d) (DownloadSpeedOfProgress d) m
    (DownloadEncryptedSlices d) (SliceSessionMap d) (outbox d).
Definition set_encrypted (m : gmap string bytes) (d : D) : D :=
  mkD (tasks d) (DownloadTaskMap d) (DownloadFileMap d) (DownloadSpeedOfProgress d) (DownloadSliceProgress d)
    m (SliceSessionMap d) (outbox d).
Definition set_session (m : gmap string string) (d : D) : D :=
  mkD (tasks d) (DownloadTaskMap d) (DownloadFileMap d) (DownloadSpeedOfProgress d) (DownloadSliceProgress d)
    (DownloadEncryptedSlices d) m (outbox d).

(** ** Operations of a task *)

Definition DeleteSliceInfo (sliceHash : string) (t : DownloadTask) : DownloadTask :=
  mkDownloadTask (dt_TaskId t) (dt_WalletAddress t) (dt_FileHash t) (delete sliceHash (sliceInfo t))
    (FailedSlice t) (SuccessSlice t) (FailedPPNodes t) (SliceCount t) (StartTimestamp t).

Definition GetNumberOfSliceInfo (t : DownloadTask) : Z := Z.of_nat (size (sliceInfo t)).

Definition GetSliceInfo (sliceHash : string) (t : DownloadTask) : option DownloadSliceInfo := sliceInfo t !! sliceHash.

Definition SetSliceSuccess (sliceHash : string) (t : DownloadTask) : DownloadTask :=
  mkDownloadTask (dt_TaskId t) (dt_WalletAddress t) (dt_FileHash t) (sliceInfo t)
    (FailedSlice t ∖ {[sliceHash]}) ({[sliceHash]} ∪ SuccessSlice t) (FailedPPNodes t) (SliceCount t) (StartTimestamp t).

Definition AddFailedSlice (sliceHash : string) (t : DownloadTask) : DownloadTask :=
  if decide (sliceHash ∈ SuccessSlice t) then t
  else
    mkDownloadTask (dt_TaskId t) (dt_WalletAddress t) (dt_FileHash t) (sliceInfo t)
      ({[sliceHash]} ∪ FailedSlice t) (SuccessSlice t)
      (match sliceInfo t !! sliceHash with
       | None => FailedPPNodes t
       | Some si => <[P2PAddress (si_StoragePpInfo si) := si_StoragePpInfo si]> (FailedPPNodes t)
       end) (SliceCount t) (StartTimestamp t).

Definition NeedRetry (t : DownloadTask) : bool :=
  bool_decide (0 < Z.of_nat (size (FailedSlice t)))
  && bool_decide (Z.of_nat (size (SuccessSlice t)) + Z.of_nat (size (FailedSlice t)) = SliceCount t).

(** [for _, dlSliceInfo := range target.SliceInfo { m[key] = dlSliceInfo }]. *)
Definition add_slices (l : list DownloadSliceInfo) (m : gmap string DownloadSliceInfo) : gmap string DownloadSliceInfo :=
  foldl (fun m s => <[si_SliceHash s := s]> m) m l.

Definition RefreshTask (target : RspFileStorageInfo) (t : DownloadTask) : DownloadTask :=
  mkDownloadTask (dt_TaskId t) (dt_WalletAddress t) (dt_FileHash t) (add_slices (fi_SliceInfo target) (sliceInfo t))
    ∅ (SuccessSlice t) (FailedPPNodes t) (SliceCount t) (StartTimestamp t).

(** ** Operations of the maps *)

Definition new_task (target : RspFileStorageInfo) (now : Z) : DownloadTask :=
  mkDownloadTask (fi_TaskId target) (fi_WalletAddress target) (fi_FileHash target)
    (add_slices (fi_SliceInfo target) ∅) (list_to_set (map si_SliceHash (fi_SliceInfo target))) ∅ ∅
    (zlen (fi_SliceInfo target)) now.

Definition AddDownloadTask (target : RspFileStorageInfo) (now : Z) (d : D) : D :=
  mkD (tasks d ++ [new_task target now])
    (<[fi_FileHash target +:+ fi_WalletAddress target +:+ fi_ReqId target := length (tasks d)]> (DownloadTaskMap d))
    (DownloadFileMap d) (DownloadSpeedOfProgress d) (DownloadSliceProgress d)
    (DownloadEncryptedSlices d) (SliceSessionMap d) (outbox d).

Definition GetDownloadTask (key : string) (d : D) : option nat := DownloadTaskMap d !! key.

Definition GetDownloadTaskWithSliceReqId (fileHash walletAddress sliceReqId : string) (d : D) : option nat :=
  sid ← SliceSessionMap d !! sliceReqId; DownloadTaskMap d !! (fileHash +:+ walletAddress +:+ sid).

Definition CheckDownloadTask (fileHash walletAddress fileReqId : string) (d : D) : bool :=
  bool_decide (is_Some (DownloadTaskMap d !! (fileHash +:+ walletAddress +:+ fileReqId))).

Definition CleanDownloadTask (fileHash sliceHash walletAddress fileReqId : string) (d : D) : D :=
  let key := fileHash +:+ walletAddress +:+ fileReqId in
  match DownloadTaskMap d !! key with
  | None => d
  | Some p =>
      let d := upd_task p (DeleteSliceInfo sliceHash) d in
      match tasks d !! p with
      | Some t => if bool_decide (GetNumberOfSliceInfo t ≤ 0) then set_taskmap (delete key (DownloadTaskMap d)) d else d
      | None => d
      end
  end.

Definition DeleteDownloadTask (fileHash walletAddress fileReqId : string) (d : D) : D :=
  emit (LocalFinished fileHash)
    (set_taskmap (delete (fileHash +:+ walletAddress +:+ fileReqId) (DownloadTaskMap d)) d).

(** The key of a slice in [DownloadSliceProgress]. *)
Definition slice_key (taskId sliceHash reqId : string) : string := taskId +:+ sliceHash +:+ reqId.

(** One round of the loop over the slices of the file. *)
Definition clean_slice (fileHash fileReqId reqId : string) (d : D) (s : DownloadSliceInfo) : D :=
  emit (ConnDropped ("download#" +:+ fileHash +:+ P2PAddress (si_StoragePpInfo s) +:+ fileReqId))
    (set_progress (delete (slice_key (si_TaskId s) (si_SliceHash s) reqId) (DownloadSliceProgress d)) d).

Definition CleanDownloadFileAndConnMap (fileHash fileReqId : string) (d : D) : D :=
  let key := fileHash +:+ fileReqId in
  let d := set_speed (delete key (DownloadSpeedOfProgress d)) d in
  let d := match DownloadFileMap d !! key with
           | Some fInfo => foldl (clean_slice fileHash fileReqId (fi_ReqId fInfo)) d (fi_SliceInfo fInfo)
           | None => d
           end in
  set_filemap (delete key (DownloadFileMap d)) d.

(** Whether the download is over. *)
Definition CheckDownloadOver (e : Env) (fileHash : string) (d : D) : bool * D :=
  let key := fileHash +:+ LOCAL_REQID in
  match DownloadFileMap d !! key with
  | None => (false, emit (Result fileHash false) d)
  | Some fInfo =>
      match DownloadSpeedOfProgress d !! key with
      | None => (false, d)
      | Some sp =>
          if bool_decide (TotalSize sp ≤ DownloadedSize sp) then
            let fName := if bool_decide (fi_FileName fInfo = "") then fileHash else fi_FileName fInfo in
            if CheckDownloadCache e fileHash then
              let d := emit (FileDone fileHash fName (fi_SavePath fInfo)) d in
              let d := CleanDownloadFileAndConnMap fileHash LOCAL_REQID d in
              (true, emit (Result fileHash true) d)
            else (false, emit (Result fileHash false) d)
          else (false, d)
      end
  end.

Definition CheckRemoteDownloadOver (fileHash fileReqId : string) (d : D) : D :=
  CleanDownloadFileAndConnMap fileHash fileReqId (emit (RemoteDone (fileHash +:+ fileReqId)) d).

Definition DownloadProgress (e : Env) (fileHash fileReqId : string) (sz : Z) (d : D) : D :=
  let key := fileHash +:+ fileReqId in
  match DownloadSpeedOfProgress d !! key with
  | None => d
  | Some sp =>
      let sp := mkSP (RawSize sp) (TotalSize sp) (i64 (DownloadedSize sp + i64 sz)) in
      let d := set_speed (<[key := sp]> (DownloadSpeedOfProgress d)) d in
      if bool_decide (TotalSize sp ≤ DownloadedSize sp) then
        if IsFileRpcRemote e key then CheckRemoteDownloadOver fileHash fileReqId d
        else (CheckDownloadOver e fileHash d).2
      else d
  end.

(** ** Retries *)

(** The id of the file request behind a remote request id, "" for none. *)
Definition getFileReqIdFromContext (remoteReqId : string) (d : D) : option string :=
  if bool_decide (remoteReqId = "") then None
  else Some (default remoteReqId (SliceSessionMap d !! remoteReqId)).

Definition CheckAndSendRetryMessage (remoteReqId : string) (p : nat) (d : D) : D :=
  match tasks d !! p with
  | None => d
  | Some t =>
      if NeedRetry t then
        match getFileReqIdFromContext remoteReqId d with
        | None => d
        | Some fileReqId =>
            match DownloadFileMap d !! (dt_FileHash t +:+ fileReqId) with
            | Some fInfo => emit (AskedSP (fi_FileHash fInfo) (dt_TaskId t) (FailedSlice t) (FailedPPNodes t)) d
            | None => d
            end
        end
      else d
  end.

Definition setDownloadSliceSuccess (sliceHash : string) (p : nat) (d : D) : D := upd_task p (SetSliceSuccess sliceHash) d.

Definition setDownloadSliceFail (sliceHash remoteReqId : string) (p : nat) (d : D) : D :=
  CheckAndSendRetryMessage remoteReqId p (upd_task p (AddFailedSlice sliceHash) d).

(** ** Requesting slices *)

Definition createAndRegisterSliceReqId (sliceReqId fileReqId : string) (d : D) : D :=
  set_session (<[sliceReqId := fileReqId]> (SliceSessionMap d)) d.

(** The context of the request inherits the remote id of the message being
    handled. *)
Definition SendReqDownloadSlice (e : Env) (remoteReqId fileHash walletAddress fileReqId : string) (s : DownloadSliceInfo)
    (d : D) : D :=
  let key := "download#" +:+ fileHash +:+ P2PAddress (si_StoragePpInfo s) +:+ fileReqId in
  if send_ok e key then emit (RequestedSlice fileHash (si_SliceHash s)) d
  else match GetDownloadTask (fileHash +:+ walletAddress +:+ fileReqId) d with
       | Some p => setDownloadSliceFail (si_SliceHash s) remoteReqId p d
       | None => d
       end.

Definition request_slice (e : Env) (remoteReqId : string) (target : RspFileStorageInfo) (fileReqId : string)
    (d : D) (s : DownloadSliceInfo) : D :=
  SendReqDownloadSlice e remoteReqId (fi_FileHash target) (fi_WalletAddress target) fileReqId s
    (createAndRegisterSliceReqId (uuid e (si_SliceHash s)) fileReqId d).

(** [uint64] length of a slice of the file. *)
Definition slice_len (s : DownloadSliceInfo) : Z :=
  u64 (SliceOffsetEnd (si_SliceOffset s) - SliceOffsetStart (si_SliceOffset s)).

(** One round of the loop over the slices: a slice that is there already is
    counted, the others are to be requested.  [p] is [None] for a nil task. *)
Definition take_local_slice (e : Env) (target : RspFileStorageInfo) (reqId : string) (p : option nat)
    (d : D) (s : DownloadSliceInfo) : res D :=
  if CheckSliceExisting e (fi_FileHash target) (si_SliceHash s) then
    let d := DownloadProgress e (fi_FileHash target) reqId (slice_len s) d in
    let d := CleanDownloadTask (fi_FileHash target) (si_SliceHash s) (fi_WalletAddress target) reqId d in
    match p with
    | Some p => Ok (setDownloadSliceSuccess (si_SliceHash s) p d)
    | None => Panic "nil pointer dereference"
    end
  else Ok d.

Fixpoint foldl_res {A B} (f : B → A → res B) (b : B) (l : list A) : res B :=
  match l with [] => Ok b | x :: l => b ← f b x; foldl_res f b l end.

Definition report_slice (fileHash : string) (d : D) (s : DownloadSliceInfo) : D :=
  emit (Reported fileHash (si_SliceHash s)) d.

Definition DownloadFileSlices (e : Env) (remoteReqId : string) (target : RspFileStorageInfo) (reqId : string) (d : D)
  : res D :=
  let h := fi_FileHash target in
  let dTask := GetDownloadTask (h +:+ fi_WalletAddress target +:+ reqId) d in
  let fileSize := foldl (fun z s => u64 (z + slice_len s)) 0 (fi_SliceInfo target) in
  let sp := mkSP (i64 (fi_FileSize target)) (i64 fileSize) 0 in
  if CheckFileExisting e h then
    let d := DeleteDownloadTask h (fi_WalletAddress target) (fi_ReqId target) (emit (Result h false) d) in
    Ok (foldl (report_slice h) d (fi_SliceInfo target))
  else
    let d := set_speed (<[h +:+ reqId := sp]> (DownloadSpeedOfProgress d)) d in
    d ← foldl_res (take_local_slice e target reqId dTask) d (fi_SliceInfo target);
    let found := filter (fun s => CheckSliceExisting e h (si_SliceHash s) = true) (fi_SliceInfo target) in
    let needRequest := filter (fun s => CheckSliceExisting e h (si_SliceHash s) = false) (fi_SliceInfo target) in
    let d := foldl (request_slice e remoteReqId target reqId) d needRequest in
    Ok (foldl (report_slice h) d found).

(** ** Handlers

    The arguments of a handler are the message, when it verifies and parses, and
    the remote request id of its context. *)

(** [RspFileStorageInfo] of query_file_info.go; [HasPrefix] as in strings. *)
Definition RspFileStorageInfo_handler (e : Env) (remoteReqId : string) (target : RspFileStorageInfo) (d : D) : res D :=
  if bool_decide (SpamThresholdSpSignLatency < i64 (unix_now e - fi_TimeStamp target)) then Ok d
  else if negb (fi_success target) then Ok (emit (Result (fi_FileHash target) false) d)
  else
    let target := mkInfo (fi_FileHash target) (fi_WalletAddress target) (fi_SliceInfo target) remoteReqId
                    (fi_TaskId target) (fi_FileName target) (fi_SavePath target) (fi_EncryptionTag target)
                    (fi_FileSize target) (fi_TimeStamp target) (fi_success target) (fi_Msg target) in
    let h := fi_FileHash target in
    let d := CleanDownloadFileAndConnMap h remoteReqId d in
    let d := set_filemap (<[h +:+ remoteReqId := target]> (DownloadFileMap d)) d in
    let d := AddDownloadTask target (unix_now e) d in
    if IsVideoStream e h then Ok d
    else
      let d := if String.prefix LOCAL_REQID remoteReqId then emit (LocalStarted h) d else d in
      DownloadFileSlices e remoteReqId target remoteReqId d.

Definition receivedSlice (e : Env) (target : RspDownloadSlice) (fInfo : RspFileStorageInfo) (p : nat) (d : D) : D :=
  let d := if IsFileRpcRemote e (ds_FileHash target +:+ fi_ReqId fInfo) then d
           else emit (SavedProgress (ds_FileHash target) (ds_SliceHash target)) d in
  let d := CleanDownloadTask (ds_FileHash target) (ds_SliceHash target) (ds_WalletAddress target) (fi_ReqId fInfo) d in
  let d := DownloadProgress e (ds_FileHash target) (fi_ReqId fInfo) (ds_SliceSize target) d in
  let d := setDownloadSliceSuccess (ds_SliceHash target) p d in
  emit (Reported (ds_FileHash target) (ds_SliceHash target)) d.

(** Whether the task has the slice already. *)
Definition has_slice (sliceHash : string) (p : nat) (d : D) : bool :=
  match tasks d !! p with Some t => bool_decide (sliceHash ∈ SuccessSlice t) | None => false end.

Definition SaveDownloadFile (target : RspDownloadSlice) (d : D) : D :=
  emit (SavedData (ds_FileHash target) (ds_SliceHash target) (i64 (SliceOffsetStart (ds_SliceOffset target)))
          (ds_Data target)) d.

Definition receiveSliceAndProgress (e : Env) (target : RspDownloadSlice) (fInfo : RspFileStorageInfo) (p : nat) (d : D)
  : D :=
  let key := slice_key (ds_TaskId target) (ds_SliceHash target) (fi_ReqId fInfo) in
  if has_slice (ds_SliceHash target) p d then d
  else if negb (save_ok e target) then
    CleanDownloadFileAndConnMap (fi_FileHash fInfo) (fi_ReqId fInfo)
      (emit (SessionClosed (fi_FileHash fInfo +:+ fi_ReqId fInfo)) d)
  else
    let d := SaveDownloadFile target d in
    let dataLen := zlen (ds_Data target) in
    match DownloadSliceProgress d !! key with
    | Some alreadySize =>
        let alreadySize := u64 (alreadySize + dataLen) in
        if bool_decide (alreadySize = ds_SliceSize target) then
          receivedSlice e target fInfo p (set_progress (delete key (DownloadSliceProgress d)) d)
        else set_progress (<[key := alreadySize]> (DownloadSliceProgress d)) d
    | None =>
        if bool_decide (ds_SliceSize target = dataLen) then receivedSlice e target fInfo p d
        else set_progress (<[key := dataLen]> (DownloadSliceProgress d)) d
    end.

(** [copy(dst[i:j], src)]. *)
Definition copy_range (dst : bytes) (o : SliceOffset) (src : bytes) : res bytes :=
  part ← slice dst (SliceOffsetStart o) (SliceOffsetEnd o);
  Ok (copy_at dst (Z.to_nat (SliceOffsetStart o)) (take (length part) src)).1.

Definition with_data (target : RspDownloadSlice) (data : bytes) : RspDownloadSlice :=
  mkRspSlice (ds_FileHash target) (ds_WalletAddress target) (ds_TaskId target) (ds_SliceHash target)
    (ds_SliceOffset target) (ds_EncryptedSliceOffset target) data (ds_SliceSize target) (ds_success target) (ds_Msg target).

(** The pieces of an encrypted slice are put together in memory.  The stored
    pieces are updated in place, so an error leaves the new piece in them. *)
Definition receiveSliceAndProgressEncrypted (e : Env) (target : RspDownloadSlice) (fInfo : RspFileStorageInfo) (p : nat)
    (d : D) : res D :=
  if has_slice (ds_SliceHash target) p d then Ok d
  else
    let ekey := ds_SliceHash target +:+ fi_ReqId fInfo in
    let key := slice_key (ds_TaskId target) (ds_SliceHash target) (fi_ReqId fInfo) in
    '(dataToDecrypt, dataToDecryptSize, d) ←
      match DownloadEncryptedSlices d !! ekey with
      | Some existing =>
          existing ← copy_range existing (ds_EncryptedSliceOffset target) (ds_Data target);
          Ok (existing, u64 (zlen (ds_Data target) + default 0 (DownloadSliceProgress d !! key)),
              set_encrypted (<[ekey := existing]> (DownloadEncryptedSlices d)) d)
      | None => Ok (ds_Data target, zlen (ds_Data target), d)
      end;
    if bool_decide (ds_SliceSize target ≤ dataToDecryptSize) then
      match decryptSliceData e dataToDecrypt with
      | Ok data =>
          let target := with_data target data in
          if save_ok e target then
            let d := SaveDownloadFile target d in
            let d := set_progress (delete key (DownloadSliceProgress d)) d in
            let d := set_encrypted (delete ekey (DownloadEncryptedSlices d)) d in
            Ok (receivedSlice e target fInfo p d)
          else Ok d
      | Err _ => Ok d
      | Panic m => Panic m
      end
    else
      dataToStore ←
        (if bool_decide (zlen dataToDecrypt < ds_SliceSize target)
         then copy_range (replicate (Z.to_nat (ds_SliceSize target)) Byte.x00) (ds_EncryptedSliceOffset target) dataToDecrypt
         else Ok dataToDecrypt);
      let d := set_encrypted (<[ekey := dataToStore]> (DownloadEncryptedSlices d)) d in
      Ok (set_progress (<[key := dataToDecryptSize]> (DownloadSliceProgress d)) d).

Definition RspDownloadSlice_handler (e : Env) (remoteReqId : string) (target : RspDownloadSlice) (d : D) : res D :=
  match getFileReqIdFromContext remoteReqId d with
  | None => Ok d
  | Some fileReqId =>
      match GetDownloadTask (ds_FileHash target +:+ ds_WalletAddress target +:+ fileReqId) d with
      | None => Ok d
      | Some p =>
          if bool_decide (ds_SliceSize target ≤ 0)
             || (negb (ds_success target) && bool_decide (ds_Msg target = LOSE_SLICE_MSG))
          then Ok (setDownloadSliceFail (ds_SliceHash target) remoteReqId p d)
          else if negb (ds_success target) then Ok d
          else match DownloadFileMap d !! (ds_FileHash target +:+ fileReqId) with
               | None => Ok d
               | Some fInfo =>
                   if bool_decide (fi_EncryptionTag fInfo ≠ "") then receiveSliceAndProgressEncrypted e target fInfo p d
                   else Ok (receiveSliceAndProgress e target fInfo p d)
               end
      end
  end.

(** One round of the loop of [RspDownloadFileWrong]. *)
Definition retry_slice (e : Env) (remoteReqId : string) (target : RspFileStorageInfo) (fileReqId : string) (p : nat)
    (d : D) (s : DownloadSliceInfo) : D :=
  let h := fi_FileHash target in
  if CheckSliceExisting e h (si_SliceHash s) then
    let d := setDownloadSliceSuccess (si_SliceHash s) p d in
    let d := CleanDownloadTask h (si_SliceHash s) (fi_WalletAddress target) fileReqId d in
    DownloadProgress e h fileReqId 0 d
  else
    let d := upd_task p (AddFailedSlice (si_SliceHash s)) d in
    let d := set_progress (<[slice_key (si_TaskId s) (si_SliceHash s) fileReqId := 0]> (DownloadSliceProgress d)) d in
    request_slice e remoteReqId target fileReqId d s.

(** Whether [s] contains [sub], as strings.Contains. *)
Fixpoint contains (sub s : string) : bool :=
  String.prefix sub s || match s with String.EmptyString => false | String.String _ s => contains sub s end.

Definition RspDownloadFileWrong_handler (e : Env) (remoteReqId : string) (target : RspFileStorageInfo) (d : D) : D :=
  match getFileReqIdFromContext remoteReqId d with
  | None => d
  | Some fileReqId =>
      let h := fi_FileHash target in
      let dTask := GetDownloadTask (h +:+ fi_WalletAddress target +:+ fileReqId) d in
      if fi_success target then
        match dTask with
        | None => d
        | Some p =>
            let d := upd_task p (RefreshTask target) d in
            match DownloadSpeedOfProgress d !! (h +:+ fileReqId) with
            | None => d
            | Some _ => foldl (retry_slice e remoteReqId target fileReqId p) d (fi_SliceInfo target)
            end
        end
      else
        let stopped := emit (Result h false) (DeleteDownloadTask h (fi_WalletAddress target) LOCAL_REQID d) in
        match dTask with
        | None => stopped
        | Some p =>
            match tasks d !! p with
            | Some t =>
                if contains "cannot find the task" (fi_Msg target)
                   && bool_decide (unix_now e < i64 (StartTimestamp t + ResendFailedDownloadTimeLimit))
                then emit (RetryLater p) d
                else stopped
            | None => stopped
            end
        end
  end.

(** The timer that [RspDownloadFileWrong] sets, when it fires. *)
Definition RetryLater_job (remoteReqId : string) (p : nat) (d : D) : D := CheckAndSendRetryMessage remoteReqId p d.

(** No answer to a slice request within [DOWNLOAD_SLICE_TIMEOUT]. *)
Definition TimeoutHandler (remoteReqId fileHash walletAddress : string) (d : D) : D :=
  match GetDownloadTask (fileHash +:+ walletAddress +:+ LOCAL_REQID) d with
  | Some p => CheckAndSendRetryMessage remoteReqId p d
  | None => d
  end.

(** The commands of the user; [login] is [setting.CheckLogin()]. *)
Definition ClearFileInfoAndDownloadTask (login : bool) (fileHash fileReqId walletAddress : string) (d : D) : D :=
  if login then
    DeleteDownloadTask fileHash walletAddress ""
      (set_filemap (delete (fileHash +:+ fileReqId) (DownloadFileMap d)) d)
  else d.

Definition ReqClearDownloadTask (walletAddress : string) (d : D) : D :=
  DeleteDownloadTask walletAddress walletAddress "" d.

Definition DownloadSlicePause (login : bool) (fileHash reqID walletAddress : string) (d : D) : D :=
  if login then
    CleanDownloadFileAndConnMap fileHash reqID
      (set_taskmap (delete (fileHash +:+ walletAddress +:+ LOCAL_REQID) (DownloadTaskMap d)) d)
  else d.

Definition DownloadSliceCancel (login : bool) (fileHash reqID walletAddress : string) (d : D) : D :=
  if login then emit (CacheDeleted fileHash) (DownloadSlicePause login fileHash reqID walletAddress d) else d.

(** Entries of the maps that clean themselves go away. *)
Definition expire (taskKey fileKey sliceKey : string) (d : D) : D :=
  set_progress (delete sliceKey (DownloadSliceProgress d))
    (set_filemap (delete fileKey (DownloadFileMap d)) (set_taskmap (delete taskKey (DownloadTaskMap d)) d)).

(** Everything that can happen to the state. *)
Inductive dl_event :=
  | EvInfo (e : Env) (remoteReqId : string) (target : RspFileStorageInfo)
  | EvSlice (e : Env) (remoteReqId : string) (target : RspDownloadSlice)
  | EvWrong (e : Env) (remoteReqId : string) (target : RspFileStorageInfo)
  | EvTimer (remoteReqId : string) (p : nat)
  | EvTimeout (remoteReqId fileHash walletAddress : string)
  | EvClear (login : bool) (fileHash fileReqId walletAddress : string)
  | EvReqClear (walletAddress : string)
  | EvPause (login : bool) (fileHash reqID walletAddress : string)
  | EvCancel (login : bool) (fileHash reqID walletAddress : string)
  | EvExpire (taskKey fileKey sliceKey : string).

Definition run_event (ev : dl_event) (d : D) : res D :=
  match ev with
  | EvInfo e r t => RspFileStorageInfo_handler e r t d
  | EvSlice e r t => RspDownloadSlice_handler e r t d
  | EvWrong e r t => Ok (RspDownloadFileWrong_handler e r t d)
  | EvTimer r p => Ok (RetryLater_job r p d)
  | EvTimeout r h w => Ok (TimeoutHandler r h w d)
  | EvClear b h r w => Ok (ClearFileInfoAndDownloadTask b h r w d)
  | EvReqClear w => Ok (ReqClearDownloadTask w d)
  | EvPause b h r w => Ok (DownloadSlicePause b h r w d)
  | EvCancel b h r w => Ok (DownloadSliceCancel b h r w d)
  | EvExpire k1 k2 k3 => Ok (expire k1 k2 k3 d)
  end.

Inductive reachable : D → Prop :=
  | reachable_init : reachable D0
  | reachable_step ev d d' : reachable d → run_event ev d = Ok d' → reachable d'.

(** ** Invariant *)

(** No slice is both failed and successful, and nodes are filed under their
    address. *)
Definition task_ok (t : DownloadTask) : Prop :=
  FailedSlice t ## SuccessSlice t ∧ map_Forall (fun a n => P2PAddress n = a) (FailedPPNodes t).

Definition wf (d : D) : Prop :=
  Forall task_ok (tasks d) ∧ map_Forall (fun _ p => (p < length (tasks d))%nat) (DownloadTaskMap d).

(** What happens to a task: it stays the same task, and slices it has stay. *)
Definition task_le (t t' : DownloadTask) : Prop :=
  SuccessSlice t ⊆ SuccessSlice t' ∧ dt_TaskId t' = dt_TaskId t ∧ dt_FileHash t' = dt_FileHash t
  ∧ dt_WalletAddress t' = dt_WalletAddress t ∧ SliceCount t' = SliceCount t.

Definition grows (d d' : D) : Prop :=
  (∀ p t, tasks d !! p = Some t → ∃ t', tasks d' !! p = Some t' ∧ task_le t t') ∧ outbox d `prefix_of` outbox d'.

Definition good (d d' : D) : Prop := (wf d → wf d') ∧ grows d d'.

Lemma task_le_refl t : task_le t t.
Proof. by split_and!. Qed.

Lemma good_refl d : good d d.
Proof. split; [done|]. split; [|done]. intros p t E. exists t. split; [done|apply task_le_refl]. Qed.

Lemma good_trans d1 d2 d3 : good d1 d2 → good d2 d3 → good d1 d3.
Proof.
  intros [W1 [T1 O1]] [W2 [T2 O2]]. split; [tauto|]. split; [|by etrans].
  intros p t E. destruct (T1 _ _ E) as (t1 & E1 & L1). destruct (T2 _ _ E1) as (t2 & E2 & L2).
  exists t2. split; [done|]. destruct L1 as (? & ? & ? & ? & ?), L2 as (? & ? & ? & ? & ?).
  split_and!; [by etrans|congruence..].
Qed.

(** Changes that leave the tasks alone. *)
Lemma good_maps d d' :
  tasks d' = tasks d → DownloadTaskMap d' ⊆ DownloadTaskMap d → outbox d `prefix_of` outbox d' → good d d'.
Proof.
  intros Et Em Eo. split.
  - intros [H1 H2]. split; rewrite Et; [done|]. intros k p E. apply (H2 k). by eapply lookup_weaken.
  - split; [|done]. intros p t E. exists t. rewrite Et. split; [done|apply task_le_refl].
Qed.

Lemma good_upd p f d :
  (∀ t, task_ok t → task_ok (f t)) → (∀ t, task_le t (f t)) → good d (upd_task p f d).
Proof.
  intros Hf Hle. split.
  - intros [H1 H2]. split; cbn; [|intros k q E; rewrite length_alter; by apply (H2 k)].
    apply Forall_alter; [done|]. intros t _ Ht. by apply Hf.
  - split; [|done]. intros q t E. cbn. destruct (decide (p = q)) as [->|Hne].
    + exists (f t). rewrite list_lookup_alter_eq, E. split; [done|apply Hle].
    + exists t. rewrite list_lookup_alter_ne by done. split; [done|apply task_le_refl].
Qed.

Lemma prefix_emit {A} (l : list A) x : l `prefix_of` l ++ [x].
Proof. by exists [x]. Qed.

(** The operations as steps from an earlier state [d] through [d1]. *)
Create HintDb dl.

Lemma good_emit d d1 e : good d d1 → good d (emit e d1).
Proof. intros H. eapply good_trans; [exact H|]. apply good_maps; [done|done|apply prefix_emit]. Qed.

Lemma good_set d d1 d2 :
  good d d1 → tasks d2 = tasks d1 → DownloadTaskMap d2 ⊆ DownloadTaskMap d1 → outbox d2 = outbox d1 → good d d2.
Proof. intros H Et Em Eo. eapply good_trans; [exact H|]. apply good_maps; [done|done|by rewrite Eo]. Qed.

Lemma good_filemap d d1 m : good d d1 → good d (set_filemap m d1).
Proof. intros H. by eapply good_set. Qed.
Lemma good_speed d d1 m : good d d1 → good d (set_speed m d1).
Proof. intros H. by eapply good_set. Qed.
Lemma good_progress d d1 m : good d d1 → good d (set_progress m d1).
Proof. intros H. by eapply good_set. Qed.
Lemma good_encrypted d d1 m : good d d1 → good d (set_encrypted m d1).
Proof. intros H. by eapply good_set. Qed.
Lemma good_session d d1 m : good d d1 → good d (set_session m d1).
Proof. intros H. by eapply good_set. Qed.
Lemma good_del d d1 k : good d d1 → good d (set_taskmap (delete k (DownloadTaskMap d1)) d1).
Proof. intros H. eapply good_set; [done|done|apply delete_subseteq|done]. Qed.

Lemma good_upd_via d d1 p f :
  (∀ t, task_ok t → task_ok (f t)) → (∀ t, task_le t (f t)) → good d d1 → good d (upd_task p f d1).
Proof. intros Hf Hle H. eapply good_trans; [exact H|]. by apply good_upd. Qed.

Lemma good_DeleteSliceInfo d d1 p h : good d d1 → good d (upd_task p (DeleteSliceInfo h) d1).
Proof. by apply good_upd_via. Qed.

Lemma good_SetSliceSuccess d d1 p h : good d d1 → good d (upd_task p (SetSliceSuccess h) d1).
Proof.
  apply good_upd_via.
  - intros t [H1 H2]. split; [|done]. cbn. set_solver.
  - intros t. split_and!; cbn; [set_solver|done..].
Qed.

Lemma good_AddFailedSlice d d1 p h : good d d1 → good d (upd_task p (AddFailedSlice h) d1).
Proof.
  apply good_upd_via; intros t; unfold AddFailedSlice; destruct (decide _); try done.
  intros [H1 H2]. split; cbn; [set_solver|]. destruct (sliceInfo t !! h) as [si|]; [|done].
  by apply map_Forall_insert_2.
Qed.

Lemma good_RefreshTask d d1 p target : good d d1 → good d (upd_task p (RefreshTask target) d1).
Proof.
  apply good_upd_via.
  - intros t [H1 H2]. split; cbn; [set_solver|done].
  - intros t. by split_and!.
Qed.

#[local] Hint Resolve good_refl good_emit good_filemap good_speed good_progress good_encrypted good_session good_del
  good_DeleteSliceInfo good_SetSliceSuccess good_AddFailedSlice good_RefreshTask : dl.

(** Split the guards of an operation and close each branch. *)
Ltac good_steps := repeat case_match; eauto 8 with dl.

Lemma good_foldl {A} (f : D → A → D) l d d1 :
  (∀ d1 x, good d d1 → good d (f d1 x)) → good d d1 → good d (foldl f d1 l).
Proof. intros Hf. revert d1. induction l as [|x l IH]; intros d1 H; cbn; [done|]. by apply IH, Hf. Qed.

Lemma good_CleanDownloadTask d d1 h s w r : good d d1 → good d (CleanDownloadTask h s w r d1).
Proof. intros H. unfold CleanDownloadTask. cbv zeta. good_steps. Qed.

Lemma good_DeleteDownloadTask d d1 h w r : good d d1 → good d (DeleteDownloadTask h w r d1).
Proof. intros H. unfold DeleteDownloadTask. eauto with dl. Qed.

Lemma good_CleanDownloadFileAndConnMap d d1 h r : good d d1 → good d (CleanDownloadFileAndConnMap h r d1).
Proof.
  intros H. unfold CleanDownloadFileAndConnMap. cbv zeta. apply good_filemap. case_match; [|eauto with dl].
  apply good_foldl; [|eauto with dl]. intros d2 s H2. unfold clean_slice. eauto with dl.
Qed.
#[local] Hint Resolve good_CleanDownloadTask good_DeleteDownloadTask good_CleanDownloadFileAndConnMap : dl.

Lemma good_CheckDownloadOver d d1 e h : good d d1 → good d (CheckDownloadOver e h d1).2.
Proof. intros H. unfold CheckDownloadOver. cbv zeta. repeat case_match; cbn; eauto 6 with dl. Qed.
#[local] Hint Resolve good_CheckDownloadOver : dl.

Lemma good_DownloadProgress d d1 e h r n : good d d1 → good d (DownloadProgress e h r n d1).
Proof. intros H. unfold DownloadProgress, CheckRemoteDownloadOver. cbv zeta. repeat case_match; eauto 6 with dl. Qed.

Lemma good_CheckAndSendRetryMessage d d1 r p : good d d1 → good d (CheckAndSendRetryMessage r p d1).
Proof. intros H. unfold CheckAndSendRetryMessage. good_steps. Qed.
#[local] Hint Resolve good_DownloadProgress good_CheckAndSendRetryMessage : dl.

Lemma good_request_slice d d1 e r target fr s : good d d1 → good d (request_slice e r target fr d1 s).
Proof.
  intros H. unfold request_slice, SendReqDownloadSlice, createAndRegisterSliceReqId, setDownloadSliceFail. good_steps.
Qed.
#[local] Hint Resolve good_request_slice : dl.

Lemma good_retry_slice d d1 e r target fr p s : good d d1 → good d (retry_slice e r target fr p d1 s).
Proof. intros H. unfold retry_slice, setDownloadSliceSuccess. cbv zeta. case_match; eauto 6 with dl. Qed.

Lemma good_RspDownloadFileWrong d e r target : good d (RspDownloadFileWrong_handler e r target d).
Proof.
  unfold RspDownloadFileWrong_handler. cbv zeta. repeat case_match; eauto 6 with dl.
  apply good_foldl; [intros; by apply good_retry_slice|eauto with dl].
Qed.

Lemma good_AddDownloadTask d d1 target n : good d d1 → good d (AddDownloadTask target n d1).
Proof.
  intros H. eapply good_trans; [exact H|]. split.
  - intros [H1 H2]. split; cbn.
    + apply Forall_app_2; [done|]. constructor; [|done]. by split.
    + rewrite length_app. cbn. apply map_Forall_insert_2; [lia|]. eapply map_Forall_impl; [exact H2|]. cbn. lia.
  - split; [|done]. intros p t E. exists t. cbn. split; [by apply lookup_app_l_Some|apply task_le_refl].
Qed.
#[local] Hint Resolve good_AddDownloadTask : dl.

(** [Ok] with a state that is a good step from [d]. *)
Definition good_res (d : D) (r : res D) : Prop := ∃ d', r = Ok d' ∧ good d d'.

Lemma good_foldl_res {A} (f : D → A → res D) l d d1 :
  (∀ d1 x, good d d1 → good_res d (f d1 x)) → good d d1 → good_res d (foldl_res f d1 l).
Proof.
  intros Hf. revert d1. induction l as [|x l IH]; intros d1 H; cbn; [by exists d1|].
  destruct (Hf d1 x H) as (d2 & -> & H2). cbn. by apply IH.
Qed.

Lemma good_DownloadFileSlices d d1 e r target fr p :
  GetDownloadTask (fi_FileHash target +:+ fi_WalletAddress target +:+ fr) d1 = Some p →
  good d d1 → good_res d (DownloadFileSlices e r target fr d1).
Proof.
  intros Hp H. unfold DownloadFileSlices. cbv zeta. rewrite Hp. case_match.
  { eexists. split; [done|]. apply good_foldl; [intros; apply good_emit; done|eauto with dl]. }
  edestruct (good_foldl_res (take_local_slice e target fr (Some p)) (fi_SliceInfo target) d) as (d2 & E & H2);
    [|apply good_speed; exact H|].
  - intros d2 s H2. unfold take_local_slice, setDownloadSliceSuccess. case_match; eexists; split; eauto with dl.
  - erewrite E. cbn. eexists. split; [done|].
    apply good_foldl; [intros; apply good_emit; done|]. apply good_foldl; [intros; eauto with dl|done].
Qed.

Lemma good_RspFileStorageInfo d e r target : good_res d (RspFileStorageInfo_handler e r target d).
Proof.
  unfold RspFileStorageInfo_handler. cbv zeta. repeat case_match; try (eexists; split; [done|]; eauto 6 with dl).
  all: eapply good_DownloadFileSlices; cbn; [apply lookup_insert_eq|eauto 6 with dl].
Qed.

Lemma good_receivedSlice d d1 e target fInfo p : good d d1 → good d (receivedSlice e target fInfo p d1).
Proof. intros H. unfold receivedSlice, setDownloadSliceSuccess. cbv zeta. case_match; eauto 8 with dl. Qed.
#[local] Hint Resolve good_receivedSlice : dl.

Lemma good_receiveSliceAndProgress d e target fInfo p : good d (receiveSliceAndProgress e target fInfo p d).
Proof. unfold receiveSliceAndProgress, SaveDownloadFile. cbv zeta. good_steps. Qed.

(** An encrypted slice either is handled or panics. *)
Lemma good_receiveSliceAndProgressEncrypted d e target fInfo p :
  match receiveSliceAndProgressEncrypted e target fInfo p d with Ok d' => good d d' | _ => True end.
Proof.
  unfold receiveSliceAndProgressEncrypted. cbv zeta. case_match; [|done|done]. revert H. 
  destruct (has_slice _ _ _); [intros [= <-]; apply good_refl|].
  intros (([dt n] & d1) & Hd & H)%bind_ok.
  assert (good d d1) as H1.
  { destruct (DownloadEncryptedSlices d !! _); [apply bind_ok in Hd as (? & _ & Hd)|]; simplify_eq; eauto with dl. }
  case_bool_decide; [|apply bind_ok in H as (? & _ & H); simplify_eq; eauto with dl].
  repeat case_match; simplify_eq; unfold SaveDownloadFile; eauto 6 with dl.
Qed.

Definition encrypted_download (r : string) (target : RspDownloadSlice) (d : D) : Prop :=
  ∃ fr fInfo, getFileReqIdFromContext r d = Some fr
    ∧ DownloadFileMap d !! (ds_FileHash target +:+ fr) = Some fInfo ∧ fi_EncryptionTag fInfo ≠ "".

Lemma good_RspDownloadSlice d e r target :
  match RspDownloadSlice_handler e r target d with
  | Ok d' => good d d'
  | _ => encrypted_download r target d
  end.
Proof.
  unfold RspDownloadSlice_handler. destruct (getFileReqIdFromContext r d) as [fr|] eqn:Er; [|apply good_refl].
  destruct (GetDownloadTask _ d) as [p|]; [|apply good_refl].
  destruct (bool_decide (ds_SliceSize target ≤ 0) || _).
  { unfold setDownloadSliceFail. eauto with dl. }
  destruct (negb (ds_success target)); [apply good_refl|].
  destruct (DownloadFileMap d !! _) as [fInfo|] eqn:Ef; [|apply good_refl]. case_bool_decide as Ht.
  - pose proof (good_receiveSliceAndProgressEncrypted d e target fInfo p) as H.
    case_match; [done|by exists fr, fInfo..].
  - apply good_receiveSliceAndProgress.
Qed.

(** Every event makes a good step, or is a slice of an encrypted file. *)
Lemma run_event_good ev d :
  good_res d (run_event ev d) ∨ ∃ e r target, ev = EvSlice e r target ∧ encrypted_download r target d.
Proof.
  destruct ev; cbn [run_event].
  2:{ pose proof (good_RspDownloadSlice d e remoteReqId target) as H.
      destruct (RspDownloadSlice_handler _ _ _ _); [left; by eexists|right; by eexists _, _, _..]. }
  1: { left. apply good_RspFileStorageInfo. }
  all: left; eexists; split; [done|].
  - apply good_RspDownloadFileWrong.
  - unfold RetryLater_job. eauto with dl.
  - unfold TimeoutHandler. good_steps.
  - unfold ClearFileInfoAndDownloadTask. good_steps.
  - unfold ReqClearDownloadTask. eauto with dl.
  - unfold DownloadSlicePause. good_steps.
  - unfold DownloadSliceCancel, DownloadSlicePause. good_steps.
  - unfold expire. apply good_progress, good_filemap, good_del, good_refl.
Qed.

Lemma run_event_ok ev d d' : run_event ev d = Ok d' → good d d'.
Proof.
  intros E. destruct (run_event_good ev d) as [(d1 & E1 & H)|(e & r & target & -> & _)]; [congruence|].
  cbn in E. pose proof (good_RspDownloadSlice d e r target) as H. by rewrite E in H.
Qed.

Lemma reachable_wf d : reachable d → wf d.
Proof. induction 1 as [|ev d d' _ IH E]; [by split|]. by apply (run_event_ok _ _ _ E). Qed.

(** Whatever messages, timers, commands and expiries come, in any order: no
    download task ever has a slice both failed and received, every name in the
    task map names a task, and each event either returns, leaving every task with
    its identity, its count and all the slices it had received, and everything
    sent before still sent, or is a slice of an encrypted file. *)
Theorem download_tasks_consistent d ev :
  reachable d →
  wf d
  ∧ ((∃ d', run_event ev d = Ok d' ∧ wf d' ∧ grows d d')
     ∨ ∃ e r target, ev = EvSlice e r target ∧ encrypted_download r target d).
Proof.
  intros H%reachable_wf. split; [done|]. destruct (run_event_good ev d) as [(d' & E & Hw & Hg)|]; [left|by right].
  exists d'. auto.
Qed.

(** ** A download that goes well

    One local, unencrypted download: the SP's answer starts it, and the pieces of
    its slices come in any order and interleaving. *)

Definition hashes (l : list DownloadSliceInfo) : list string := map si_SliceHash l.
Definition sum_len (l : list DownloadSliceInfo) : Z := foldr (fun s z => slice_len s + z) 0 l.

#[local] Arguments sum_len : simpl never.

(** Bytes of a slice among the answers that came. *)
Definition got (sliceHash : string) (xs : list RspDownloadSlice) : Z :=
  foldr (fun x z => if decide (ds_SliceHash x = sliceHash) then zlen (ds_Data x) + z else z) 0 xs.

Lemma got_app h xs ys : got h (xs ++ ys) = got h xs + got h ys.
Proof. unfold got. induction xs as [|x xs IH]; cbn; [done|]. case_decide; lia. Qed.

Lemma got_nonneg h xs : 0 ≤ got h xs.
Proof. unfold got. induction xs as [|x xs IH]; cbn; [done|]. pose proof (zlen_nonneg (ds_Data x)). case_decide; lia. Qed.

Lemma sum_len_perm l k : l ≡ₚ k → sum_len l = sum_len k.
Proof. unfold sum_len. induction 1; cbn; lia. Qed.

Lemma sum_len_app l k : sum_len (l ++ k) = sum_len l + sum_len k.
Proof. unfold sum_len. induction l; cbn; lia. Qed.

Lemma sum_len_cons s l : sum_len (s :: l) = slice_len s + sum_len l.
Proof. done. Qed.

Lemma slice_len_nonneg s : 0 ≤ slice_len s.
Proof. by apply wrapu_range. Qed.

Lemma sum_len_nonneg l : 0 ≤ sum_len l.
Proof. induction l as [|s l IH]; [done|]. rewrite sum_len_cons. pose proof (slice_len_nonneg s). lia. Qed.

Lemma foldl_sum_len l z :
  0 ≤ z → z + sum_len l < 2 ^ 63 → foldl (fun z s => u64 (z + slice_len s)) z l = z + sum_len l.
Proof.
  revert z. induction l as [|s l IH]; intros z Hz Hl; [unfold sum_len; cbn; lia|]. rewrite sum_len_cons in *. cbn [foldl].
  pose proof (sum_len_nonneg l). pose proof (slice_len_nonneg s).
  rewrite wrapu_id by (unfold in_u; lia). rewrite IH by lia. lia.
Qed.

(** The effects that matter to the user, and the slices reported to the SP. *)
Definition saves (l : list effect) : list (string * Z * bytes) :=
  omap (fun e => match e with SavedData _ s o b => Some (s, o, b) | _ => None end) l.
Definition results (l : list effect) : list (string * bool) :=
  omap (fun e => match e with Result h b => Some (h, b) | _ => None end) l.
Definition files_done (l : list effect) : list (string * string * string) :=
  omap (fun e => match e with FileDone h n s => Some (h, n, s) | _ => None end) l.
Definition reports (l : list effect) : list string :=
  omap (fun e => match e with Reported _ s => Some s | _ => None end) l.

(** Cleaning up after a file only removes its entries and closes connections. *)
Lemma clean_slices h fr rq l d :
  let d' := foldl (clean_slice h fr rq) d l in
  tasks d' = tasks d ∧ DownloadTaskMap d' = DownloadTaskMap d ∧ DownloadFileMap d' = DownloadFileMap d
  ∧ DownloadSpeedOfProgress d' = DownloadSpeedOfProgress d ∧ SliceSessionMap d' = SliceSessionMap d
  ∧ (∃ keys, outbox d' = outbox d ++ map ConnDropped keys)
  ∧ (∀ k, DownloadSliceProgress d !! k = None → DownloadSliceProgress d' !! k = None)
  ∧ ∀ s, s ∈ l → DownloadSliceProgress d' !! slice_key (si_TaskId s) (si_SliceHash s) rq = None.
Proof.
  revert d. induction l as [|x l IH]; intros d; cbn.
  { split_and!; try done; [by exists []; rewrite app_nil_r|]. intros s Hs. by apply not_elem_of_nil in Hs. }
  destruct (IH (clean_slice h fr rq d x)) as (E1 & E2 & E3 & E4 & E5 & (keys & E6) & E7 & E8). cbn in *.
  split_and!; try done.
  - exists (("download#" +:+ h +:+ P2PAddress (si_StoragePpInfo x) +:+ fr) :: keys). rewrite E6, <- app_assoc. done.
  - intros k Hk. apply E7. rewrite lookup_delete_None. by right.
  - intros s [->|Hs]%elem_of_cons; [|by apply E8]. apply E7, lookup_delete_eq.
Qed.

Definition task_key (F : RspFileStorageInfo) : string := fi_FileHash F +:+ fi_WalletAddress F +:+ fi_ReqId F.
Definition file_key (F : RspFileStorageInfo) : string := fi_FileHash F +:+ fi_ReqId F.
Definition key_of (F : RspFileStorageInfo) (s : DownloadSliceInfo) : string :=
  slice_key (si_TaskId s) (si_SliceHash s) (fi_ReqId F).

(** What the SP's answer must be like. *)
Record downloadable (F : RspFileStorageInfo) : Prop := {
  dl_local : fi_ReqId F = LOCAL_REQID;
  dl_plain : fi_EncryptionTag F = "";
  dl_hashes : NoDup (hashes (fi_SliceInfo F));
  dl_keys : NoDup (map (key_of F) (fi_SliceInfo F));
  dl_lens : Forall (fun s => 0 < slice_len s) (fi_SliceInfo F);
  dl_total : sum_len (fi_SliceInfo F) < 2 ^ 63
}.

(** An answer with a piece of the slice, which can be saved. *)
Record piece (F : RspFileStorageInfo) (s : DownloadSliceInfo) (x : RspDownloadSlice) : Prop := {
  pc_file : ds_FileHash x = fi_FileHash F;
  pc_wallet : ds_WalletAddress x = fi_WalletAddress F;
  pc_task : ds_TaskId x = si_TaskId s;
  pc_hash : ds_SliceHash x = si_SliceHash s;
  pc_size : ds_SliceSize x = slice_len s;
  pc_data : 0 < zlen (ds_Data x);
  pc_success : ds_success x = true
}.

Record env_fits (F : RspFileStorageInfo) (e : Env) (x : RspDownloadSlice) : Prop := {
  env_save : save_ok e x = true;
  env_local : IsFileRpcRemote e (file_key F) = false;
  env_cache : CheckDownloadCache e (fi_FileHash F) = true
}.

Definition save_of (x : RspDownloadSlice) : string * Z * bytes :=
  (ds_SliceHash x, i64 (SliceOffsetStart (ds_SliceOffset x)), ds_Data x).

(** While slices are missing: [fin] has come, [mis] has not, [xs] is what came. *)
Record running (F : RspFileStorageInfo) (p : nat) (out : list effect) (fin mis : list DownloadSliceInfo)
    (xs : list RspDownloadSlice) (d : D) : Prop := {
  run_perm : fin ++ mis ≡ₚ fi_SliceInfo F;
  run_name : DownloadTaskMap d !! task_key F = Some p;
  run_file : DownloadFileMap d !! file_key F = Some F;
  run_task : ∃ t, tasks d !! p = Some t ∧ dom (sliceInfo t) =@{gset string} list_to_set (hashes mis)
               ∧ SuccessSlice t = list_to_set (hashes fin) ∧ FailedSlice t = list_to_set (hashes mis);
  run_speed : ∃ raw, DownloadSpeedOfProgress d !! file_key F = Some (mkSP raw (sum_len (fi_SliceInfo F)) (sum_len fin));
  run_prog : Forall (fun s => default 0 (DownloadSliceProgress d !! key_of F s) = got (si_SliceHash s) xs
                              ∧ got (si_SliceHash s) xs < slice_len s) mis;
  run_fin : Forall (fun s => got (si_SliceHash s) xs = slice_len s) fin;
  run_out : ∃ evs, outbox d = out ++ evs ∧ saves evs = map save_of xs ∧ results evs = [] ∧ files_done evs = []
              ∧ reports evs ≡ₚ hashes fin;
  run_info : ∀ t, tasks d !! p = Some t → dt_FileHash t = fi_FileHash F ∧ SliceCount t = zlen (fi_SliceInfo F)
               ∧ Forall (fun s => sliceInfo t !! si_SliceHash s = Some s) mis
}.

(** When the last slice has come: everything is saved, nothing is left. *)
Record over (F : RspFileStorageInfo) (p : nat) (out : list effect) (xs : list RspDownloadSlice) (d : D) : Prop := {
  over_name : DownloadTaskMap d !! task_key F = None;
  over_file : DownloadFileMap d !! file_key F = None;
  over_speed : DownloadSpeedOfProgress d !! file_key F = None;
  over_prog : Forall (fun s => DownloadSliceProgress d !! key_of F s = None) (fi_SliceInfo F);
  over_task : ∃ t, tasks d !! p = Some t ∧ sliceInfo t = ∅ ∧ FailedSlice t = ∅
                ∧ SuccessSlice t = list_to_set (hashes (fi_SliceInfo F));
  over_out : ∃ evs, outbox d = out ++ evs ∧ saves evs = map save_of xs
               ∧ results evs = [(fi_FileHash F, true)]
               ∧ files_done evs = [(fi_FileHash F,
                                    if bool_decide (fi_FileName F = "") then fi_FileHash F else fi_FileName F,
                                    fi_SavePath F)]
               ∧ reports evs ≡ₚ hashes (fi_SliceInfo F)
}.

Section Completion.
Context (F : RspFileStorageInfo) (HF : downloadable F).

Lemma run_hashes p out fin mis xs d : running F p out fin mis xs d → NoDup (hashes (fin ++ mis)).
Proof. intros H. unfold hashes. rewrite (run_perm _ _ _ _ _ _ _ H). apply HF. Qed.

Lemma not_fin p out fin s mis xs d :
  running F p out fin (s :: mis) xs d → (si_SliceHash s ∉ hashes fin) ∧ (si_SliceHash s ∉ hashes mis).
Proof.
  intros H%run_hashes. unfold hashes in *. rewrite map_app in H. cbn in H.
  apply list.NoDup_app in H as (_ & H1 & [H2 _]%list.NoDup_cons). split; [|done].
  intros Hin. by apply (H1 _ Hin); left.
Qed.

Lemma set_progress_id d : set_progress (DownloadSliceProgress d) d = d.
Proof. by destruct d. Qed.

(** A piece of a slice the task does not have, in one formula. *)
Lemma receive_plain e x s p d :
  piece F s x → save_ok e x = true → has_slice (ds_SliceHash x) p d = false →
  0 ≤ default 0 (DownloadSliceProgress d !! key_of F s) →
  default 0 (DownloadSliceProgress d !! key_of F s) + zlen (ds_Data x) ≤ slice_len s →
  receiveSliceAndProgress e x F p d
  = let n := default 0 (DownloadSliceProgress d !! key_of F s) + zlen (ds_Data x) in
    if bool_decide (n = slice_len s)
    then receivedSlice e x F p (set_progress (delete (key_of F s) (DownloadSliceProgress d)) (SaveDownloadFile x d))
    else set_progress (<[key_of F s := n]> (DownloadSliceProgress d)) (SaveDownloadFile x d).
Proof.
  intros Hx Hs Hh H0 Hn. unfold receiveSliceAndProgress. cbv zeta. rewrite Hh, Hs. cbn [negb].
  rewrite (pc_task _ _ _ Hx), (pc_hash _ _ _ Hx), (pc_size _ _ _ Hx). fold (key_of F s). cbn.
  destruct (DownloadSliceProgress d !! key_of F s) as [a|] eqn:E; cbn [default from_option id] in *.
  - pose proof (wrapu_range 64 (SliceOffsetEnd (si_SliceOffset s) - SliceOffsetStart (si_SliceOffset s)) ltac:(lia)) as Hr.
    fold (slice_len s) in Hr. pose proof (pc_data _ _ _ Hx). rewrite wrapu_id by (unfold in_u in *; lia). done.
  - rewrite Z.add_0_l. rewrite (bool_decide_ext (slice_len s = _) (zlen (ds_Data x) = slice_len s)) by done.
    case_bool_decide; [|done]. by rewrite delete_id.
Qed.

(** The slice leaves the task, and the task leaves the map with its last slice. *)
Lemma CleanDownloadTask_eq p s mis t d :
  DownloadTaskMap d !! task_key F = Some p → tasks d !! p = Some t →
  dom (sliceInfo t) =@{gset string} list_to_set (hashes (s :: mis)) → si_SliceHash s ∉ hashes mis →
  CleanDownloadTask (fi_FileHash F) (si_SliceHash s) (fi_WalletAddress F) (fi_ReqId F) d
  = (if decide (mis = []) then set_taskmap (delete (task_key F) (DownloadTaskMap d)) else id)
      (upd_task p (DeleteSliceInfo (si_SliceHash s)) d)
  ∧ dom (delete (si_SliceHash s) (sliceInfo t)) =@{gset string} list_to_set (hashes mis).
Proof.
  intros Hn Et Hd Hm.
  assert (dom (delete (si_SliceHash s) (sliceInfo t)) =@{gset string} list_to_set (hashes mis)) as Hdom.
  { rewrite dom_delete_L, Hd. cbn. apply leibniz_equiv. set_solver. }
  split; [|done]. unfold CleanDownloadTask. fold (task_key F). rewrite Hn. cbv zeta.
  cbn [tasks upd_task]. rewrite list_lookup_alter_eq, Et. cbn [fmap option_fmap option_map].
  assert (GetNumberOfSliceInfo (DeleteSliceInfo (si_SliceHash s) t) ≤ 0 ↔ mis = []) as Hz.
  { unfold GetNumberOfSliceInfo. cbn [sliceInfo DeleteSliceInfo].
    rewrite <- (size_dom (D := gset string)), Hdom. destruct mis as [|s' mis].
    - cbn. rewrite size_empty. split; [done|lia].
    - split; [|done]. intros Hle. assert (size (list_to_set (hashes (s' :: mis)) : gset string) = 0%nat) as E0 by lia.
      apply size_empty_inv in E0. cbn in E0. set_solver. }
  rewrite (bool_decide_ext _ _ Hz). case_bool_decide; destruct (decide (mis = [])); done.
Qed.

(** Counting a slice: the download goes on until the last one. *)
Lemma DownloadProgress_eq e raw T n sz d :
  DownloadSpeedOfProgress d !! file_key F = Some (mkSP raw T n) → 0 ≤ n → 0 ≤ sz → n + sz < 2 ^ 63 →
  IsFileRpcRemote e (file_key F) = false →
  DownloadProgress e (fi_FileHash F) (fi_ReqId F) sz d
  = let d' := set_speed (<[file_key F := mkSP raw T (n + sz)]> (DownloadSpeedOfProgress d)) d in
    if bool_decide (T ≤ n + sz) then (CheckDownloadOver e (fi_FileHash F) d').2 else d'.
Proof.
  intros E Hn Hs Hb Hr. unfold DownloadProgress. fold (file_key F). rewrite E. cbv zeta. cbn [RawSize TotalSize DownloadedSize].
  rewrite (wraps_id 64 sz) by (unfold in_s; lia). rewrite wraps_id by (unfold in_s; lia). rewrite Hr. done.
Qed.

Lemma running_perm p out fin mis mis' xs d :
  mis ≡ₚ mis' → running F p out fin mis xs d → running F p out fin mis' xs d.
Proof.
  intros Hp [H1 H2 H3 (t & H4 & H5 & H6 & H7) H8 H9 H10 H11 H12].
  assert (list_to_set (hashes mis) =@{gset string} list_to_set (hashes mis')) as E
    by (apply list_to_set_perm_L; unfold hashes; by rewrite Hp).
  split; try done; [by rewrite <- Hp|exists t; by rewrite <- E|by rewrite <- Hp|].
  intros t' Et'. rewrite <- Hp. by apply H12.
Qed.

Lemma got_piece s x xs :
  piece F s x → got (si_SliceHash s) (xs ++ [x]) = got (si_SliceHash s) xs + zlen (ds_Data x).
Proof. intros Hx. rewrite got_app. cbn. rewrite decide_True by apply Hx. lia. Qed.

Lemma got_other s s' x xs :
  piece F s x → si_SliceHash s' ≠ si_SliceHash s → got (si_SliceHash s') (xs ++ [x]) = got (si_SliceHash s') xs.
Proof. intros Hx Hne. rewrite got_app. cbn. rewrite (pc_hash _ _ _ Hx), decide_False by done. lia. Qed.

Lemma other_slice p out fin s mis xs d s' :
  running F p out fin (s :: mis) xs d → s' ∈ mis → si_SliceHash s' ≠ si_SliceHash s ∧ key_of F s' ≠ key_of F s.
Proof.
  intros H Hin. destruct (not_fin _ _ _ _ _ _ _ H) as [_ Hm]. split.
  - intros E. apply Hm. rewrite <- E. unfold hashes. apply list_elem_of_fmap. by exists s'.
  - pose proof (dl_keys _ HF) as Hk. rewrite <- (run_perm _ _ _ _ _ _ _ H), map_app in Hk. cbn in Hk.
    apply list.NoDup_app in Hk as (_ & _ & [Hk _]%list.NoDup_cons). intros E. apply Hk. rewrite <- E.
    apply list_elem_of_fmap. by exists s'.
Qed.

Lemma other_fin p out fin s mis xs d s' :
  running F p out fin (s :: mis) xs d → s' ∈ fin → si_SliceHash s' ≠ si_SliceHash s.
Proof.
  intros H Hin E. destruct (not_fin _ _ _ _ _ _ _ H) as [Hm _]. apply Hm. rewrite <- E.
  unfold hashes. apply list_elem_of_fmap. by exists s'.
Qed.

(** The other slices do not notice a piece of [s]. *)
Lemma others_keep p out fin s mis xs d x (P : gmap string Z) :
  running F p out fin (s :: mis) xs d → piece F s x →
  (∀ k, k ≠ key_of F s → P !! k = DownloadSliceProgress d !! k) →
  Forall (fun s => default 0 (P !! key_of F s) = got (si_SliceHash s) (xs ++ [x])
                   ∧ got (si_SliceHash s) (xs ++ [x]) < slice_len s) mis
  ∧ Forall (fun s => got (si_SliceHash s) (xs ++ [x]) = slice_len s) fin.
Proof.
  intros H Hx HP. pose proof (run_prog _ _ _ _ _ _ _ H) as [_ Hp]%list.Forall_cons. split; apply list.Forall_forall.
  - intros s' Hin. destruct (other_slice _ _ _ _ _ _ _ s' H Hin) as [Hh Hk].
    rewrite HP, (got_other s s' x) by done. by apply (proj1 (list.Forall_forall _ _) Hp).
  - intros s' Hin. rewrite (got_other s s' x) by (try done; by eapply other_fin).
    by apply (proj1 (list.Forall_forall _ _) (run_fin _ _ _ _ _ _ _ H)).
Qed.

Lemma step_partial p out fin s mis xs d x :
  running F p out fin (s :: mis) xs d → piece F s x →
  let n := default 0 (DownloadSliceProgress d !! key_of F s) + zlen (ds_Data x) in
  n < slice_len s →
  running F p out fin (s :: mis) (xs ++ [x])
    (set_progress (<[key_of F s := n]> (DownloadSliceProgress d)) (SaveDownloadFile x d)).
Proof.
  intros H Hx n Hn. pose proof (run_prog _ _ _ _ _ _ _ H) as [[Hg _] _]%list.Forall_cons.
  edestruct (others_keep p out fin s mis xs d x (<[key_of F s := n]> (DownloadSliceProgress d))) as [Ho1 Ho2];
    [done|done|by intros k Hk; rewrite lookup_insert_ne|].
  destruct H as [H1 H2 H3 H4 H5 _ _ (evs & E & S1 & S2 & S3 & S4) H9]. split; try done.
  - constructor; [|done]. cbn. rewrite lookup_insert_eq, got_piece by done. cbn. unfold n in *. lia.
  - cbn. exists (evs ++ [SavedData (ds_FileHash x) (ds_SliceHash x) (i64 (SliceOffsetStart (ds_SliceOffset x))) (ds_Data x)]).
    rewrite E, <- app_assoc. unfold saves, results, files_done, reports in *. rewrite !omap_app, S1, S2, S3, map_app. cbn.
    split_and!; try done. by rewrite app_nil_r.
Qed.

(** What a task looks like after one more slice. *)
Lemma task_after s mis fin t :
  dom (delete (si_SliceHash s) (sliceInfo t)) =@{gset string} list_to_set (hashes mis) →
  SuccessSlice t = list_to_set (hashes fin) → FailedSlice t = list_to_set (hashes (s :: mis)) →
  si_SliceHash s ∉ hashes mis →
  let t' := SetSliceSuccess (si_SliceHash s) (DeleteSliceInfo (si_SliceHash s) t) in
  dom (sliceInfo t') =@{gset string} list_to_set (hashes mis)
  ∧ SuccessSlice t' = list_to_set (hashes (s :: fin)) ∧ FailedSlice t' = list_to_set (hashes mis).
Proof.
  intros Hd Hs Hf Hm. cbn. split_and!; [done|by rewrite Hs|]. rewrite Hf. cbn. apply leibniz_equiv. set_solver.
Qed.

Lemma lookup_alter2 {A} (f g : A → A) p (l : list A) x :
  l !! p = Some x → alter g p (alter f p l) !! p = Some (g (f x)).
Proof. intros E. by rewrite !list_lookup_alter_eq, E. Qed.

Lemma step_slice p out fin s mis xs d e x :
  running F p out fin (s :: mis) xs d → piece F s x → env_fits F e x →
  default 0 (DownloadSliceProgress d !! key_of F s) + zlen (ds_Data x) = slice_len s → mis ≠ [] →
  running F p out (s :: fin) mis (xs ++ [x])
    (receivedSlice e x F p (set_progress (delete (key_of F s) (DownloadSliceProgress d)) (SaveDownloadFile x d))).
Proof.
  intros H Hx He Hn Hmis. pose proof (run_prog _ _ _ _ _ _ _ H) as [[Hg _] _]%list.Forall_cons.
  destruct (not_fin _ _ _ _ _ _ _ H) as [Hnf Hnm].
  edestruct (others_keep p out fin s mis xs d x (delete (key_of F s) (DownloadSliceProgress d))) as [Ho1 Ho2];
    [done|done|by intros k Hk; rewrite lookup_delete_ne|].
  assert (∀ s', s' ∈ mis → si_SliceHash s' ≠ si_SliceHash s) as Hoth by (intros s' Hs'; by eapply other_slice).
  destruct H as [H1 H2 H3 (t & Et & Hd & Hs & Hf) (raw & H5) _ _ (evs & E & S1 & S2 & S3 & S4) H9].
  assert (sum_len (fi_SliceInfo F) = slice_len s + sum_len fin + sum_len mis) as Hsum.
  { rewrite <- (sum_len_perm _ _ H1), sum_len_app, sum_len_cons. lia. }
  assert (0 < sum_len mis) as Hpos.
  { destruct mis as [|s' mis]; [done|]. rewrite sum_len_cons. pose proof (sum_len_nonneg mis).
    assert (s' ∈ fi_SliceInfo F) as Hin by (rewrite <- H1; set_solver).
    pose proof (proj1 (list.Forall_forall _ _) (dl_lens _ HF) _ Hin). cbn in *. lia. }
  pose proof (dl_total _ HF). pose proof (sum_len_nonneg fin). pose proof (slice_len_nonneg s).
  unfold receivedSlice. cbv zeta. rewrite (pc_file _ _ _ Hx), (pc_hash _ _ _ Hx), (pc_wallet _ _ _ Hx), (pc_size _ _ _ Hx).
  fold (file_key F). rewrite (env_local _ _ _ He).
  edestruct (CleanDownloadTask_eq p s mis t) as [-> Hdom];
    [|exact Et| |done|]; [done|done|].
  rewrite decide_False by done. cbn [id].
  erewrite DownloadProgress_eq; [|exact H5|lia..|apply He].
  rewrite bool_decide_eq_false_2 by lia. cbv zeta. cbn.
  destruct (task_after s mis fin t Hdom Hs Hf Hnm) as (T1 & T2 & T3).
  split; cbn; try done.
  - by rewrite <- H1, Permutation_middle.
  - eexists. by rewrite (lookup_alter2 _ _ _ _ t).
  - exists raw. rewrite lookup_insert_eq. do 2 f_equal. rewrite sum_len_cons. lia.
  - constructor; [|done]. rewrite got_piece by done. lia.
  - eexists. rewrite E, <- !app_assoc. split; [done|]. cbn.
    unfold saves, results, files_done, reports in *. rewrite !omap_app, S1, S2, S3, map_app. cbn.
    split_and!; try done. rewrite S4. by rewrite Permutation_app_comm.
  - intros t'. rewrite (lookup_alter2 _ _ _ _ t) by done. intros [= <-]. destruct (H9 t Et) as (I1 & I2 & I3).
    split_and!; [done|done|]. apply list.Forall_cons in I3 as [_ I3]. apply list.Forall_forall. intros s' Hs'. cbn.
    rewrite lookup_delete_ne by (intros E'; by apply (Hoth s' Hs')). by apply (proj1 (list.Forall_forall _ _) I3).
Qed.

(** The file is complete: it is handed over and all its entries go. *)
Lemma CheckDownloadOver_done e sp d :
  DownloadFileMap d !! file_key F = Some F → DownloadSpeedOfProgress d !! file_key F = Some sp →
  TotalSize sp ≤ DownloadedSize sp → CheckDownloadCache e (fi_FileHash F) = true →
  let d' := (CheckDownloadOver e (fi_FileHash F) d).2 in
  tasks d' = tasks d ∧ DownloadTaskMap d' = DownloadTaskMap d
  ∧ DownloadFileMap d' !! file_key F = None ∧ DownloadSpeedOfProgress d' !! file_key F = None
  ∧ Forall (fun s => DownloadSliceProgress d' !! key_of F s = None) (fi_SliceInfo F)
  ∧ ∃ keys, outbox d' = outbox d ++ FileDone (fi_FileHash F)
        (if bool_decide (fi_FileName F = "") then fi_FileHash F else fi_FileName F) (fi_SavePath F)
        :: map ConnDropped keys ++ [Result (fi_FileHash F) true].
Proof.
  intros Ef Es Hle Hc. unfold CheckDownloadOver. cbv zeta.
  assert (fi_FileHash F +:+ LOCAL_REQID = file_key F) as -> by (unfold file_key; by rewrite (dl_local _ HF)).
  rewrite Ef, Es, bool_decide_eq_true_2, Hc by done.
  unfold CleanDownloadFileAndConnMap. cbv zeta. rewrite <- (dl_local _ HF). fold (file_key F). cbn. rewrite Ef.
  match goal with |- context [foldl ?f ?d0 ?l] =>
    destruct (clean_slices (fi_FileHash F) (fi_ReqId F) (fi_ReqId F) l d0) as (C1 & C2 & C3 & C4 & C5 & (keys & C6) & _ & C8)
  end.
  rewrite C1, C2, C3, C4, C6. cbn. split_and!; try done.
  - apply lookup_delete_eq.
  - apply lookup_delete_eq.
  - apply list.Forall_forall. intros s Hs. by apply C8.
  - exists keys. by rewrite <- !app_assoc.
Qed.

Lemma effects_of_drops keys :
  saves (map ConnDropped keys) = [] ∧ results (map ConnDropped keys) = [] ∧ files_done (map ConnDropped keys) = []
  ∧ reports (map ConnDropped keys) = [].
Proof. unfold saves, results, files_done, reports. by induction keys. Qed.

Lemma step_last p out fin s xs d e x :
  running F p out fin [s] xs d → piece F s x → env_fits F e x →
  default 0 (DownloadSliceProgress d !! key_of F s) + zlen (ds_Data x) = slice_len s →
  over F p out (xs ++ [x])
    (receivedSlice e x F p (set_progress (delete (key_of F s) (DownloadSliceProgress d)) (SaveDownloadFile x d))).
Proof.
  intros H Hx He Hn. destruct (not_fin _ _ _ _ _ _ _ H) as [Hnf Hnm].
  destruct H as [H1 H2 H3 (t & Et & Hd & Hs & Hf) (raw & H5) _ _ (evs & E & S1 & S2 & S3 & S4) _].
  assert (sum_len (fi_SliceInfo F) = sum_len fin + slice_len s) as Hsum.
  { rewrite <- (sum_len_perm _ _ H1), sum_len_app, sum_len_cons. unfold sum_len at 2. cbn. lia. }
  pose proof (dl_total _ HF). pose proof (sum_len_nonneg fin). pose proof (slice_len_nonneg s).
  unfold receivedSlice. cbv zeta. rewrite (pc_file _ _ _ Hx), (pc_hash _ _ _ Hx), (pc_wallet _ _ _ Hx), (pc_size _ _ _ Hx).
  fold (file_key F). rewrite (env_local _ _ _ He).
  edestruct (CleanDownloadTask_eq p s [] t) as [-> Hdom]; [|exact Et| |done|]; [done|done|].
  rewrite decide_True by done.
  erewrite DownloadProgress_eq; [|exact H5|lia..|apply He]. rewrite bool_decide_eq_true_2 by lia. cbv zeta.
  match goal with |- context [CheckDownloadOver e _ ?d0] =>
    destruct (CheckDownloadOver_done e (mkSP raw (sum_len (fi_SliceInfo F)) (sum_len fin + slice_len s)) d0)
      as (C1 & C2 & C3 & C4 & C5 & (keys & C6)); [done|apply lookup_insert_eq|cbn; lia|apply He|];
    set (d4 := (CheckDownloadOver e _ d0).2) in *; clearbody d4
  end.
  destruct (task_after s [] fin t Hdom Hs Hf Hnm) as (T1 & T2 & T3).
  destruct (effects_of_drops keys) as (K1 & K2 & K3 & K4).
  assert (hashes (fi_SliceInfo F) ≡ₚ hashes fin ++ [si_SliceHash s]) as Hall.
  { unfold hashes. rewrite <- H1, map_app. done. }
  split; cbn [emit setDownloadSliceSuccess upd_task tasks DownloadTaskMap DownloadFileMap DownloadSpeedOfProgress
    DownloadSliceProgress outbox]; [|done..| |].
  - rewrite C2. apply lookup_delete_eq.
  - rewrite C1. eexists. cbn. rewrite (lookup_alter2 _ _ _ _ t) by done. split; [done|]. split_and!.
    + apply (dom_empty_inv_L (D := gset string)). done.
    + done.
    + cbn in T2 |- *. rewrite T2. apply leibniz_equiv. rewrite Hall. set_solver.
  - rewrite C6. cbn. rewrite E, <- !app_assoc. eexists. split; [done|]. cbn.
    unfold saves, results, files_done, reports in *. rewrite !omap_app. cbn. rewrite !omap_app, S1, S2, S3, K1, K2, K3, K4, map_app. cbn.
    split_and!; try done. by rewrite S4, Hall.
Qed.

(** Answers do not change which requests belong to which file. *)
Lemma session_clean h r d : SliceSessionMap (CleanDownloadFileAndConnMap h r d) = SliceSessionMap d.
Proof.
  unfold CleanDownloadFileAndConnMap. cbv zeta. cbn. destruct (DownloadFileMap d !! _) as [f|]; [|done].
  by destruct (clean_slices h r (fi_ReqId f) (fi_SliceInfo f) (set_speed (delete (h +:+ r) (DownloadSpeedOfProgress d)) d))
    as (_ & _ & _ & _ & E & _).
Qed.

#[local] Arguments CleanDownloadFileAndConnMap : simpl never.
#[local] Arguments DownloadProgress : simpl never.

Lemma session_progress e h r n d : SliceSessionMap (DownloadProgress e h r n d) = SliceSessionMap d.
Proof.
  unfold DownloadProgress, CheckRemoteDownloadOver, CheckDownloadOver. cbv zeta.
  repeat case_match; cbn; rewrite ?session_clean; done.
Qed.

Lemma session_received e x fInfo p d : SliceSessionMap (receivedSlice e x fInfo p d) = SliceSessionMap d.
Proof.
  unfold receivedSlice. cbv zeta. cbn. rewrite session_progress. unfold CleanDownloadTask. cbv zeta.
  repeat case_match; done.
Qed.

Lemma session_receive e x fInfo p d : SliceSessionMap (receiveSliceAndProgress e x fInfo p d) = SliceSessionMap d.
Proof.
  unfold receiveSliceAndProgress. cbv zeta. repeat case_match; rewrite ?session_received, ?session_clean; done.
Qed.

Definition resolves (r : string) (d : D) : Prop := r ≠ "" ∧ SliceSessionMap d !! r = Some (fi_ReqId F).

Lemma handler_receives p out fin s mis xs d e r x :
  running F p out fin (s :: mis) xs d → piece F s x → env_fits F e x → resolves r d →
  got (si_SliceHash s) xs + zlen (ds_Data x) ≤ slice_len s →
  ∃ d', RspDownloadSlice_handler e r x d = Ok d' ∧ SliceSessionMap d' = SliceSessionMap d
    ∧ (running F p out fin (s :: mis) (xs ++ [x]) d'
       ∨ (mis ≠ [] ∧ running F p out (s :: fin) mis (xs ++ [x]) d')
       ∨ (mis = [] ∧ got (si_SliceHash s) (xs ++ [x]) = slice_len s ∧ over F p out (xs ++ [x]) d')).
Proof.
  intros H Hx He [Hr1 Hr2] Hg. unfold RspDownloadSlice_handler, getFileReqIdFromContext, GetDownloadTask.
  rewrite bool_decide_eq_false_2, Hr2 by done. cbn [default from_option id].
  rewrite (pc_file _ _ _ Hx), (pc_wallet _ _ _ Hx), (pc_success _ _ _ Hx). fold (task_key F) (file_key F).
  rewrite (run_name _ _ _ _ _ _ _ H), (run_file _ _ _ _ _ _ _ H).
  pose proof (pc_data _ _ _ Hx). pose proof (pc_size _ _ _ Hx). pose proof (got_nonneg (si_SliceHash s) xs).
  rewrite (bool_decide_eq_false_2 (ds_SliceSize x ≤ 0)) by lia. cbn [orb andb negb].
  rewrite bool_decide_eq_false_2 by (rewrite (dl_plain _ HF); congruence).
  eexists. split; [done|]. split; [apply session_receive|].
  pose proof (run_prog _ _ _ _ _ _ _ H) as [[Hp _] _]%list.Forall_cons.
  assert (has_slice (ds_SliceHash x) p d = false) as Hh.
  { unfold has_slice. destruct (run_task _ _ _ _ _ _ _ H) as (t & -> & _ & -> & _).
    apply bool_decide_eq_false_2. rewrite (pc_hash _ _ _ Hx), elem_of_list_to_set. by destruct (not_fin _ _ _ _ _ _ _ H). }
  rewrite (receive_plain e x s) by (done || apply He || lia).
  cbv zeta. case_bool_decide as Hn.
  - right. destruct (decide (mis = [])) as [->|Hne].
    + right. split_and!; [done|rewrite got_piece by done; lia|by eapply step_last].
    + left. split; [done|]. by apply step_slice.
  - left. apply step_partial; [done|done|lia].
Qed.

(** The events of a list of answers, each with its environment and request. *)
Definition answers (ps : list (Env * string * RspDownloadSlice)) : list dl_event :=
  map (fun '(e, r, x) => EvSlice e r x) ps.
Definition run_events (es : list dl_event) (d : D) : res D := foldl_res (fun d ev => run_event ev d) d es.

Definition answer_fits (d : D) (a : Env * string * RspDownloadSlice) : Prop :=
  env_fits F a.1.1 a.2 ∧ resolves a.1.2 d ∧ ∃ s, s ∈ fi_SliceInfo F ∧ piece F s a.2.

Lemma run_answers p out ps fin mis xs d :
  mis ≠ [] → running F p out fin mis xs d → Forall (answer_fits d) ps →
  Forall (fun s => got (si_SliceHash s) (xs ++ map snd ps) = slice_len s) (fi_SliceInfo F) →
  ∃ d', run_events (answers ps) d = Ok d' ∧ over F p out (xs ++ map snd ps) d' ∧ SliceSessionMap d' = SliceSessionMap d.
Proof.
  intros Hne H Hps. revert fin mis xs d Hne H Hps. induction ps as [|[[e r] x] ps IH]; intros fin mis xs d Hne H Hps Hall.
  { destruct mis as [|s mis]; [done|]. pose proof (run_prog _ _ _ _ _ _ _ H) as [[_ Hlt] _]%list.Forall_cons.
    assert (s ∈ fi_SliceInfo F) as Hin by (rewrite <- (run_perm _ _ _ _ _ _ _ H); set_solver).
    pose proof (proj1 (list.Forall_forall _ _) Hall s Hin) as E. cbn in E. rewrite app_nil_r in E. lia. }
  apply list.Forall_cons in Hps as [(He & Hr & s & Hs & Hx) Hps]. cbn in He, Hr, Hx.
  pose proof (proj1 (list.Forall_forall _ _) Hall s Hs) as Etot. cbn in Etot.
  rewrite (cons_middle x xs), app_assoc, got_app, got_piece in Etot by done.
  pose proof (got_nonneg (si_SliceHash s) (map snd ps)). pose proof (pc_data _ _ _ Hx).
  assert (s ∈ mis) as Hm.
  { rewrite <- (run_perm _ _ _ _ _ _ _ H) in Hs. apply elem_of_app in Hs as [Hs|]; [|done].
    pose proof (proj1 (list.Forall_forall _ _) (run_fin _ _ _ _ _ _ _ H) s Hs). cbn in *. lia. }
  apply elem_of_Permutation in Hm as [mis' Hm].
  destruct (handler_receives p out fin s mis' xs d e r x) as (d1 & E1 & Es & Hcase);
    [by eapply running_perm|done..|lia|].
  cbn [answers map run_events foldl_res run_event]. rewrite E1, <- Es. cbn [mbind res_bind].
  change (foldl_res _ d1 (map _ ps)) with (run_events (answers ps) d1).
  assert (Forall (answer_fits d1) ps) as Hps'.
  { eapply Forall_impl; [|exact Hps]. intros a (? & [? ?] & ?). split_and!; [done|split; [done|by rewrite Es]|done]. }
  cbn [map snd] in Hall. rewrite (cons_middle x xs), app_assoc in Hall. cbn [map snd]. rewrite (cons_middle x xs), app_assoc.
  destruct Hcase as [Hrun|[[Hne' Hrun]|(-> & Hgot & Hover)]]; [by eapply (IH fin (s :: mis'))|by eapply (IH (s :: fin) mis')|].
  destruct ps as [|[[e' r'] x'] ps]; [exists d1; cbn [map]; by rewrite app_nil_r|]. exfalso.
  apply list.Forall_cons in Hps as [(_ & _ & s' & Hs' & Hx') _]. cbn in Hx'.
  assert (got (si_SliceHash s') (xs ++ [x]) = slice_len s') as E'.
  { pose proof Hs' as Hin. rewrite <- (run_perm _ _ _ _ _ _ _ H), Hm in Hin.
    apply elem_of_app in Hin as [Hin|Hin%list_elem_of_singleton]; [|by subst].
    eapply (proj1 (list.Forall_forall _ _) (proj2 (others_keep p out fin s [] xs d x (DownloadSliceProgress d)
      (running_perm _ _ _ _ _ _ _ Hm H) Hx ltac:(done)))). done. }
  pose proof (proj1 (list.Forall_forall _ _) Hall s' Hs') as Et'. cbn in Et'.
  rewrite got_app in Et'. pose proof (pc_data _ _ _ Hx'). pose proof (got_nonneg (si_SliceHash s') (map snd ps)).
  cbn in Et'. rewrite decide_True in Et' by apply Hx'. fold (got (si_SliceHash s') (map snd ps)) in *. lia.
Qed.

(** ** Starting the download *)

(** The node does not have the file or parts of it, and can send requests. *)
Record startable (e : Env) (d : D) : Prop := {
  st_time : i64 (unix_now e - fi_TimeStamp F) ≤ SpamThresholdSpSignLatency;
  st_success : fi_success F = true;
  st_video : IsVideoStream e (fi_FileHash F) = false;
  st_file : CheckFileExisting e (fi_FileHash F) = false;
  st_slices : Forall (fun s => CheckSliceExisting e (fi_FileHash F) (si_SliceHash s) = false) (fi_SliceInfo F);
  st_send : ∀ k, send_ok e k = true;
  st_prog : Forall (fun s => DownloadSliceProgress d !! key_of F s = None) (fi_SliceInfo F)
}.

Lemma dom_add_slices l m :
  dom (add_slices l m) =@{gset string} list_to_set (hashes l) ∪ dom m.
Proof.
  unfold add_slices. revert m. induction l as [|s l IH]; intros m; cbn; [by rewrite union_empty_l_L|].
  rewrite IH, dom_insert_L. apply leibniz_equiv. set_solver.
Qed.

Lemma add_slices_other l m h : h ∉ hashes l → add_slices l m !! h = m !! h.
Proof.
  unfold add_slices. revert m. induction l as [|s l IH]; intros m Hh; cbn in *; [done|].
  apply not_elem_of_cons in Hh as [Hne Hh]. rewrite IH by done. by rewrite lookup_insert_ne.
Qed.

Lemma add_slices_lookup l m s : s ∈ l → NoDup (hashes l) → add_slices l m !! si_SliceHash s = Some s.
Proof.
  revert m. induction l as [|x l IH]; intros m Hs Hnd; [by apply not_elem_of_nil in Hs|].
  cbn in Hnd. apply list.NoDup_cons in Hnd as [Hx Hnd]. apply elem_of_cons in Hs as [->|Hs]; [|by apply IH].
  change (add_slices (x :: l) m) with (add_slices l (<[si_SliceHash x := x]> m)).
  rewrite add_slices_other by done. apply lookup_insert_eq.
Qed.

Lemma take_local_none e target fr p l d :
  Forall (fun s => CheckSliceExisting e (fi_FileHash target) (si_SliceHash s) = false) l →
  foldl_res (take_local_slice e target fr p) d l = Ok d.
Proof.
  induction 1 as [|s l Hs Hl IH]; cbn [foldl_res]; [done|].
  assert (take_local_slice e target fr p d s = Ok d) as -> by (unfold take_local_slice; by rewrite Hs). exact IH.
Qed.

Lemma request_all e r target fr l d :
  (∀ k, send_ok e k = true) →
  let d' := foldl (request_slice e r target fr) d l in
  tasks d' = tasks d ∧ DownloadTaskMap d' = DownloadTaskMap d ∧ DownloadFileMap d' = DownloadFileMap d
  ∧ DownloadSpeedOfProgress d' = DownloadSpeedOfProgress d ∧ DownloadSliceProgress d' = DownloadSliceProgress d
  ∧ (∀ k, SliceSessionMap d !! k = Some fr → SliceSessionMap d' !! k = Some fr)
  ∧ ∀ s, s ∈ l → SliceSessionMap d' !! uuid e (si_SliceHash s) = Some fr.
Proof.
  intros Hk. revert d. induction l as [|x l IH]; intros d; cbn [foldl].
  { split_and!; try done. intros s Hs. by apply not_elem_of_nil in Hs. }
  assert (request_slice e r target fr d x = emit (RequestedSlice (fi_FileHash target) (si_SliceHash x))
            (createAndRegisterSliceReqId (uuid e (si_SliceHash x)) fr d)) as ->
    by (unfold request_slice, SendReqDownloadSlice; by rewrite Hk).
  match goal with |- context [foldl _ ?d1 l] => destruct (IH d1) as (E1 & E2 & E3 & E4 & E5 & E6 & E7) end.
  cbv zeta. split_and!; try done.
  - intros k Hkk. apply E6. cbn. destruct (decide (k = uuid e (si_SliceHash x))) as [->|Hne];
      [by rewrite lookup_insert_eq|by rewrite lookup_insert_ne].
  - intros s [->|Hs]%elem_of_cons; [|by apply E7]. apply E6. cbn. apply lookup_insert_eq.
Qed.

Lemma filter_all {A} (P : A → Prop) `{∀ x, Decision (P x)} l : Forall P l → filter P l = l.
Proof. induction 1 as [|x l Hx Hl IH]; [done|]. by rewrite filter_cons_True, IH. Qed.
Lemma filter_none {A} (P : A → Prop) `{∀ x, Decision (P x)} l : Forall (fun x => ¬ P x) l → filter P l = [].
Proof. induction 1 as [|x l Hx Hl IH]; [done|]. by rewrite filter_cons_False. Qed.

Lemma start_running e d :
  startable e d →
  ∃ d1, RspFileStorageInfo_handler e LOCAL_REQID F d = Ok d1
    ∧ running F (length (tasks d)) (outbox d1) [] (fi_SliceInfo F) [] d1
    ∧ ∀ s, s ∈ fi_SliceInfo F → SliceSessionMap d1 !! uuid e (si_SliceHash s) = Some LOCAL_REQID.
Proof.
  intros H. unfold RspFileStorageInfo_handler. cbv zeta. rewrite bool_decide_eq_false_2 by (pose proof (st_time _ _ H); lia).
  rewrite (st_success _ _ H). cbn [negb].
  replace (mkInfo _ _ _ LOCAL_REQID _ _ _ _ _ _ _ _) with F
    by (rewrite <- (dl_local _ HF), <- (st_success _ _ H); by destruct F).
  rewrite (st_video _ _ H). change (String.prefix LOCAL_REQID LOCAL_REQID) with true. cbv iota.
  unfold DownloadFileSlices. cbv zeta. rewrite (st_file _ _ H).
  rewrite take_local_none by apply H. cbn [mbind res_bind].
  rewrite (filter_none (fun s => CheckSliceExisting e _ _ = true)), (filter_all (fun s => CheckSliceExisting e _ _ = false));
    [|apply H|eapply Forall_impl; [|apply H]; cbn; intros s ->; done].
  cbn [foldl]. eexists. split; [done|].
  match goal with |- context [foldl (request_slice _ ?r ?t ?fr) ?d0 ?l] =>
    destruct (request_all e r t fr l d0 (st_send _ _ H)) as (E1 & E2 & E3 & E4 & E5 & _ & E7)
  end.
  split; [|done]. clear E7.
  assert (tasks (CleanDownloadFileAndConnMap (fi_FileHash F) LOCAL_REQID d) = tasks d
          ∧ ∀ k, DownloadSliceProgress d !! k = None →
              DownloadSliceProgress (CleanDownloadFileAndConnMap (fi_FileHash F) LOCAL_REQID d) !! k = None) as [Ct Cp].
  { unfold CleanDownloadFileAndConnMap. cbv zeta. cbn. destruct (DownloadFileMap d !! _) as [f|]; [|done].
    match goal with |- context [foldl (clean_slice ?h ?fr ?rq) ?d0 ?l] =>
      destruct (clean_slices h fr rq l d0) as (C1 & _ & _ & _ & _ & _ & C7 & _) end. by rewrite C1. }
  split; rewrite ?E1, ?E2, ?E3, ?E4, ?E5; cbn.
  - done.
  - rewrite Ct. apply lookup_insert_eq.
  - unfold file_key. rewrite (dl_local _ HF). apply lookup_insert_eq.
  - rewrite Ct. exists (new_task F (unix_now e)). rewrite lookup_app_r, Nat.sub_diag by done. split_and!; try done.
    cbn. rewrite dom_add_slices, dom_empty_L, union_empty_r_L. done.
  - eexists. unfold file_key. rewrite (dl_local _ HF). rewrite lookup_insert_eq.
    rewrite foldl_sum_len by (done || apply HF). pose proof (dl_total _ HF). pose proof (sum_len_nonneg (fi_SliceInfo F)).
    rewrite Z.add_0_l, (wraps_id 64 (sum_len _)) by (unfold in_s; lia). done.
  - apply list.Forall_forall. intros s Hs. cbn.
    rewrite Cp by (by apply (proj1 (list.Forall_forall _ _) (st_prog _ _ H))).
    split; [done|]. by apply (proj1 (list.Forall_forall _ _) (dl_lens _ HF)).
  - done.
  - exists []. by rewrite app_nil_r.
  - rewrite Ct. intros t. rewrite lookup_app_r, Nat.sub_diag by done. intros [= <-]. split_and!; [done|done|].
    apply list.Forall_forall. intros s Hs. by apply add_slices_lookup, HF.
Qed.

End Completion.

(** C18: a download works from end to end.  When the SP says where the slices of a
    file are, and then pieces of these slices come in, in any order and however
    interleaved, each slice complete in the end, the node saves every piece where
    it belongs in the order of arrival, reports each slice once, hands the file
    over and announces success exactly once, with the last piece and not before,
    and takes the download out of the maps of tasks, files, speeds and progress.
    The sessions of the requests for the slices stay in [SliceSessionMap].  The
    file is not encrypted and is downloaded for the node itself, which has none of
    its slices yet, can send its requests and save every piece. *)
Theorem download_completes F e d ps :
  downloadable F → startable F e d → fi_SliceInfo F ≠ [] →
  Forall (fun a => env_fits F a.1.1 a.2 ∧ a.1.2 ≠ "" ∧ ∃ s, s ∈ fi_SliceInfo F ∧ piece F s a.2
                   ∧ a.1.2 = uuid e (si_SliceHash s)) ps →
  Forall (fun s => got (si_SliceHash s) (map snd ps) = slice_len s) (fi_SliceInfo F) →
  ∃ d1 d2, RspFileStorageInfo_handler e LOCAL_REQID F d = Ok d1
    ∧ run_events (answers ps) d1 = Ok d2 ∧ over F (length (tasks d)) (outbox d1) (map snd ps) d2
    ∧ ∀ s, s ∈ fi_SliceInfo F → SliceSessionMap d2 !! uuid e (si_SliceHash s) = Some LOCAL_REQID.
Proof.
  intros HF Hst Hne Hps Hall. destruct (start_running F HF e d Hst) as (d1 & E1 & Hrun & Hsess).
  destruct (run_answers F HF (length (tasks d)) (outbox d1) ps [] (fi_SliceInfo F) [] d1) as (d2 & E2 & Ho & Es); try done.
  - eapply Forall_impl; [|exact Hps]. intros [[e' r] x] (? & Hr & s & Hs & Hx & Eu). cbn in *.
    split_and!; [done| |by exists s]. split; [done|]. rewrite (dl_local _ HF), Eu. by apply Hsess.
  - exists d1, d2. split_and!; [done..|]. intros s Hs. rewrite Es. by apply Hsess.
Qed.

(** ** Retries *)

(** An answer that says the slice is not there. *)
Record lost (F : RspFileStorageInfo) (s : DownloadSliceInfo) (x : RspDownloadSlice) : Prop := {
  lost_file : ds_FileHash x = fi_FileHash F;
  lost_wallet : ds_WalletAddress x = fi_WalletAddress F;
  lost_hash : ds_SliceHash x = si_SliceHash s;
  lost_fail : ds_SliceSize x ≤ 0 ∨ (ds_success x = false ∧ ds_Msg x = LOSE_SLICE_MSG)
}.

Lemma size_hashes l : NoDup (hashes l) → Z.of_nat (size (list_to_set (hashes l) : gset string)) = zlen l.
Proof. intros H. rewrite size_list_to_set by done. unfold hashes, zlen. by rewrite length_map. Qed.

(** Failing a slice that is already counted as failed only files its node. *)
Lemma AddFailedSlice_missing F p out fin s mis xs d t :
  downloadable F → running F p out fin (s :: mis) xs d → tasks d !! p = Some t →
  AddFailedSlice (si_SliceHash s) t
  = mkDownloadTask (dt_TaskId t) (dt_WalletAddress t) (dt_FileHash t) (sliceInfo t) (list_to_set (hashes (s :: mis)))
      (list_to_set (hashes fin)) (<[P2PAddress (si_StoragePpInfo s) := si_StoragePpInfo s]> (FailedPPNodes t))
      (SliceCount t) (StartTimestamp t).
Proof.
  intros HF H Et. destruct (run_task _ _ _ _ _ _ _ H) as (t' & Et' & _ & Hs & Hf). simplify_eq.
  destruct (run_info _ _ _ _ _ _ _ H t Et) as (_ & _ & [Hi _]%list.Forall_cons).
  destruct (not_fin F HF _ _ _ _ _ _ _ H) as [Hnf _].
  unfold AddFailedSlice. rewrite decide_False by (rewrite Hs, elem_of_list_to_set; done). rewrite Hi, Hf, Hs. f_equal.
  apply leibniz_equiv. cbn. set_solver.
Qed.

Lemma NeedRetry_running F p out fin s mis xs d t :
  downloadable F → running F p out fin (s :: mis) xs d → tasks d !! p = Some t →
  NeedRetry (AddFailedSlice (si_SliceHash s) t) = true.
Proof.
  intros HF H Et. rewrite (AddFailedSlice_missing F p out fin s mis xs d t HF H Et). unfold NeedRetry. cbn [FailedSlice SuccessSlice SliceCount].
  pose proof (run_hashes F HF _ _ _ _ _ _ H) as Hnd. unfold hashes in Hnd. rewrite map_app in Hnd.
  apply list.NoDup_app in Hnd as (N1 & _ & N2).
  destruct (run_info _ _ _ _ _ _ _ H t Et) as (_ & -> & _).
  rewrite (size_hashes (s :: mis)), (size_hashes fin) by done.
  assert (zlen (fi_SliceInfo F) = zlen fin + zlen (s :: mis)) as ->.
  { unfold zlen. rewrite <- (run_perm _ _ _ _ _ _ _ H), length_app. lia. }
  rewrite !bool_decide_eq_true_2; [done|lia|unfold zlen; cbn; lia].
Qed.

(** When a node answers that it does not have a slice, the SP is asked for
    other sources at once, with exactly the slices that have not come yet, the
    node that failed among the failed nodes, and the download goes on where it
    was. *)
Theorem lost_slice_asks_the_sp F p out fin s mis xs d e r x :
  downloadable F → running F p out fin (s :: mis) xs d → lost F s x → resolves F r d →
  ∃ d' taskId nodes,
    RspDownloadSlice_handler e r x d = Ok d'
    ∧ outbox d' = outbox d ++ [AskedSP (fi_FileHash F) taskId (list_to_set (hashes (s :: mis))) nodes]
    ∧ nodes !! P2PAddress (si_StoragePpInfo s) = Some (si_StoragePpInfo s)
    ∧ running F p out fin (s :: mis) xs d'.
Proof.
  intros HF H Hx [Hr1 Hr2]. destruct (run_task _ _ _ _ _ _ _ H) as (t & Et & Hd & Hs & Hf).
  destruct (run_info _ _ _ _ _ _ _ H t Et) as (Hfile & Hcount & Hinfo).
  pose proof (AddFailedSlice_missing F p out fin s mis xs d t HF H Et) as Ef.
  pose proof (NeedRetry_running F p out fin s mis xs d t HF H Et) as Hneed. rewrite Ef in Hneed.
  unfold RspDownloadSlice_handler, getFileReqIdFromContext, GetDownloadTask.
  rewrite bool_decide_eq_false_2, Hr2 by done. cbn [default from_option id].
  rewrite (lost_file _ _ _ Hx), (lost_wallet _ _ _ Hx), (lost_hash _ _ _ Hx). fold (task_key F).
  rewrite (run_name _ _ _ _ _ _ _ H).
  replace (bool_decide (ds_SliceSize x ≤ 0) || _) with true
    by (destruct (lost_fail _ _ _ Hx) as [?|[-> ->]]; [by rewrite bool_decide_eq_true_2|by rewrite orb_true_r]).
  unfold setDownloadSliceFail, CheckAndSendRetryMessage. cbn [tasks upd_task].
  rewrite list_lookup_alter_eq, Et. cbn [fmap option_fmap option_map]. rewrite Ef, Hneed.
  unfold getFileReqIdFromContext. rewrite bool_decide_eq_false_2 by done. cbn [SliceSessionMap upd_task]. rewrite Hr2.
  cbn [default from_option id DownloadFileMap upd_task dt_FileHash]. rewrite Hfile. fold (file_key F).
  rewrite (run_file _ _ _ _ _ _ _ H). cbn [dt_TaskId FailedSlice FailedPPNodes].
  eexists _, _, _. split; [done|]. split; [done|]. split; [apply lookup_insert_eq|].
  destruct H as [H1 H2 H3 _ H5 H6 H7 (evs & E & S1 & S2 & S3 & S4) H9]. split; cbn; try done.
  - eexists. rewrite list_lookup_alter_eq, Et. cbn. rewrite Ef. by split_and!.
  - eexists. rewrite E, <- app_assoc. split; [done|]. unfold saves, results, files_done, reports in *.
    rewrite !omap_app, S1, S2, S3. cbn. rewrite !app_nil_r. by split_and!.
  - intros t'. rewrite list_lookup_alter_eq, Et. cbn. rewrite Ef. by intros [= <-].
Qed.

(** The request to clear a download forgets the file but not the task, which
    it names without the request id it was stored under: the next command to
    download the same file still finds the task and is refused. *)
Theorem cleared_download_still_running login fileHash walletAddress d :
  CheckDownloadTask fileHash walletAddress LOCAL_REQID
    (ClearFileInfoAndDownloadTask login fileHash LOCAL_REQID walletAddress d)
  = CheckDownloadTask fileHash walletAddress LOCAL_REQID d.
Proof.
  unfold CheckDownloadTask, ClearFileInfoAndDownloadTask, DeleteDownloadTask. destruct login; [|done]. cbn [DownloadTaskMap emit set_taskmap set_filemap].
  rewrite lookup_delete_ne; [done|]. intros E. by do 2 apply (inj _) in E.
Qed.

(** ** Instances that show the hypotheses can hold *)
Module DlDemo.

Definition pp (a : string) : PPBaseInfo := mkPP a a.
Definition sA : DownloadSliceInfo := mkSliceInfo "sliceA" "t1" (pp "ppA") (mkOff 0 3).
Definition sB : DownloadSliceInfo := mkSliceInfo "sliceB" "t2" (pp "ppB") (mkOff 3 5).
Definition info : RspFileStorageInfo :=
  mkInfo "file" "wallet" [sA; sB] LOCAL_REQID "t0" "name" "" "" 5 0 true "".
Definition env : Env :=
  mkEnv (fun _ => true) (fun _ => false) (fun _ => true) (fun _ => false) (fun _ _ => false) (fun _ => false)
    (fun _ => true) Ok (fun h => h +:+ "-id") 10.
Definition part (s : DownloadSliceInfo) (start : Z) (data : bytes) : Env * string * RspDownloadSlice :=
  (env, si_SliceHash s +:+ "-id",
   mkRspSlice "file" "wallet" (si_TaskId s) (si_SliceHash s) (mkOff start (start + zlen data)) (mkOff 0 0) data
     (slice_len s) true "").
Definition parts : list (Env * string * RspDownloadSlice) :=
  [part sA 1 [Byte.x02; Byte.x03]; part sB 3 [Byte.x04; Byte.x05]; part sA 0 [Byte.x01]].

Lemma info_ok : downloadable info.
Proof.
  split; try done; cbn.
  - repeat (constructor; [set_solver|]). constructor.
  - repeat (constructor; [set_solver|]). constructor.
  - repeat constructor.
Qed.

Lemma env_ok : startable info env D0.
Proof. split; try done; cbn; repeat constructor. Qed.

Lemma download_completes_witness :
  ∃ d1 d2, RspFileStorageInfo_handler env LOCAL_REQID info D0 = Ok d1
    ∧ run_events (answers parts) d1 = Ok d2 ∧ over info 0 (outbox d1) (map snd parts) d2
    ∧ ∀ s, s ∈ fi_SliceInfo info → SliceSessionMap d2 !! uuid env (si_SliceHash s) = Some LOCAL_REQID.
Proof.
  apply (download_completes info env D0 parts info_ok env_ok).
  - done.
  - repeat (constructor; [split; [done|]; split; [done|]; first [exists sA; done | exists sB; done |
      exists sA; split; [set_solver|]; done | exists sB; split; [set_solver|]; done]|]). constructor.
  - repeat constructor.
Defined.

Definition lost_answer : RspDownloadSlice :=
  mkRspSlice "file" "wallet" "t1" "sliceA" (mkOff 0 0) (mkOff 0 0) [] 0 false LOSE_SLICE_MSG.

Lemma lost_slice_asks_the_sp_witness :
  ∃ d d' taskId nodes, RspFileStorageInfo_handler env LOCAL_REQID info D0 = Ok d
    ∧ RspDownloadSlice_handler env "sliceA-id" lost_answer d = Ok d'
    ∧ outbox d' = outbox d ++ [AskedSP "file" taskId {["sliceA"; "sliceB"]} nodes]
    ∧ nodes !! "ppA" = Some (pp "ppA").
Proof.
  destruct (start_running info info_ok env D0 env_ok) as (d & E & Hrun & Hsess).
  destruct (lost_slice_asks_the_sp info 0 (outbox d) [] sA [sB] [] d env "sliceA-id" lost_answer)
    as (d' & taskId & nodes & E' & Ho & Hn & _); [apply info_ok|done|split; try done; by left| |].
  - split; [done|]. apply (Hsess sA). set_solver.
  - exists d, d', taskId, nodes. split_and!; [done|done| |done]. rewrite Ho. do 3 f_equal.
Defined.

Lemma download_tasks_consistent_witness :
  ∃ d', run_event (EvInfo env LOCAL_REQID info) D0 = Ok d' ∧ wf d' ∧ grows D0 d'.
Proof.
  destruct (download_tasks_consistent D0 (EvInfo env LOCAL_REQID info) reachable_init) as [_ [H|H]]; [exact H|].
  destruct H as (e & r & t & E & _). discriminate E.
Defined.

End DlDemo.
