(* ===== verification/Paths.v ===== *)
(** * Paths: where a node keeps its slices

    Models pp/file/path.go with what it uses of Go's path/filepath (Unix) and of
    the conversion of strings to runes, on a file system of files and
    directories.  [io_err] says which system calls the operating system refuses,
    for whatever reason; every other call does what it says.

    A slice is stored in a folder named after the first runes of its hash.  The
    hash comes from messages and is not checked before it is made a path. *)
From Stdlib Require Import Ascii.
From S2P Require Import Prelude.

(** ** Runes (the conversions string to []rune and back) *)

(** The size of the first rune of [l] in UTF-8, [None] for a byte that begins no
    valid rune. *)
Definition cont (b : Z) : bool := bool_decide (0x80 ≤ b ≤ 0xBF).
Definition rune_size (l : bytes) : option nat :=
  match map Z_of_byte (take 4 l) with
  | [] => None
  | b0 :: r =>
      if bool_decide (b0 < 0x80) then Some 1%nat
      else if bool_decide (0xC2 ≤ b0 ≤ 0xDF) then
        match r with b1 :: _ => if cont b1 then Some 2%nat else None | _ => None end
      else if bool_decide (0xE0 ≤ b0 ≤ 0xEF) then
        let lo := if bool_decide (b0 = 0xE0) then 0xA0 else 0x80 in
        let hi := if bool_decide (b0 = 0xED) then 0x9F else 0xBF in
        match r with
        | b1 :: b2 :: _ => if bool_decide (lo ≤ b1 ≤ hi) && cont b2 then Some 3%nat else None
        | _ => None
        end
      else if bool_decide (0xF0 ≤ b0 ≤ 0xF4) then
        let lo := if bool_decide (b0 = 0xF0) then 0x90 else 0x80 in
        let hi := if bool_decide (b0 = 0xF4) then 0x8F else 0xBF in
        match r with
        | b1 :: b2 :: b3 :: _ => if bool_decide (lo ≤ b1 ≤ hi) && cont b2 && cont b3 then Some 4%nat else None
        | _ => None
        end
      else None
  end.

(** The runes of a string, each by its encoding; a byte that begins no rune is
    replaced by U+FFFD. *)
Definition RuneError : bytes := [Byte.xef; Byte.xbf; Byte.xbd].
Fixpoint runes_fuel (n : nat) (l : bytes) : list bytes :=
  match n, l with
  | O, _ | _, [] => []
  | S n, _ :: l' =>
      match rune_size l with
      | Some k => take k l :: runes_fuel n (drop k l)
      | None => RuneError :: runes_fuel n l'
      end
  end.
Definition runes (s : string) : list bytes := runes_fuel (length (string_bytes s)) (string_bytes s).

(** [string([]rune(s)[i:j])]. *)
Definition rune_slice (s : string) (i j : nat) : res string :=
  if bool_decide (i ≤ j ≤ length (runes s))%nat
  then Ok (bytes_string (concat (take (j - i) (drop i (runes s)))))
  else Panic "slice bounds out of range".

(** ** path/filepath *)

Definition slash : ascii := "/"%char.

Fixpoint split_on (c : ascii) (s : string) : list string :=
  match s with
  | EmptyString => [EmptyString]
  | String a s =>
      if bool_decide (a = c) then EmptyString :: split_on c s
      else match split_on c s with w :: ws => String a w :: ws | [] => [String a EmptyString] end
  end.

(** One element of a path; [st] holds the elements before it, last first. *)
Definition clean_step (rooted : bool) (st : list string) (c : string) : list string :=
  if bool_decide (c = "" ∨ c = ".") then st
  else if bool_decide (c = "..") then
    match st with
    | top :: st' => if bool_decide (top = "..") then ".." :: st else st'
    | [] => if rooted then [] else [".."]
    end
  else c :: st.

Definition is_rooted (p : string) : bool := match p with String a _ => bool_decide (a = slash) | EmptyString => false end.

Definition Clean (p : string) : string :=
  if bool_decide (p = "") then "."
  else
    let elems := rev (foldl (clean_step (is_rooted p)) [] (split_on slash p)) in
    let body := String.concat "/" elems in
    if is_rooted p then "/" +:+ body else if bool_decide (body = "") then "." else body.

Fixpoint Join (elems : list string) : string :=
  match elems with
  | [] => ""
  | e :: es => if bool_decide (e = "") then Join es else Clean (String.concat "/" elems)
  end.

(** ** The file system *)

Record FS := mkFS { fs_files : gmap string bytes; fs_dirs : gset string }.

Inductive syscall := SysStat | SysMkdir | SysOpen | SysWrite | SysRead | SysRemove | SysRename.

(** Code that reads and changes files: a result and the files after it. *)
Definition M (A : Type) : Type := FS → res A * FS.
#[global] Instance M_ret : MRet M := fun A a fs => (Ok a, fs).
#[global] Instance M_bind : MBind M := fun A B f m fs =>
  match m fs with
  | (Ok a, fs) => f a fs
  | (Err e, fs) => (Err e, fs)
  | (Panic e, fs) => (Panic e, fs)
  end.
Definition lift {A} (r : res A) : M A := fun fs => (r, fs).
Definition get_fs : M FS := fun fs => (Ok fs, fs).
Definition put_fs (fs : FS) : M unit := fun _ => (Ok (), fs).
(** The error of a call as a value: the code looks at it and goes on. *)
Definition catch {A} (m : M A) : M (option A) := fun fs =>
  match m fs with
  | (Ok a, fs) => (Ok (Some a), fs)
  | (Err _, fs) => (Ok None, fs)
  | (Panic e, fs) => (Panic e, fs)
  end.

(** Running the monad. *)
Ltac run_M := unfold mbind, M_bind, mret, M_ret, lift, get_fs, put_fs, catch; cbn beta iota.

Section Paths.
Context (io_err : syscall → string → bool) (rootPath StoragePath DownloadPath : string).

(** Every folder on the way to [p], for [MkdirAll]. *)
Definition MkdirAll (p : string) : M unit :=
  if io_err SysMkdir p then lift (Err "mkdir")
  else fs ← get_fs; put_fs (mkFS (fs_files fs) ({[p]} ∪ fs_dirs fs)).

(** ** path.go *)

Definition TEMP_FOLDER : string := "tmp".

Definition getTmpFolderPath : string := Join [rootPath; TEMP_FOLDER].
Definition GetTmpFileFolderPath (fileHash : string) : string := Join [getTmpFolderPath; fileHash].
Definition GetTmpDownloadPath : string := Join [getTmpFolderPath; "download"].
Definition GetTmpVerifyPath : string := Join [getTmpFolderPath; "verify"].
Definition getDownloadTmpFolderPath (fileHash : string) : string := Join [GetTmpDownloadPath; fileHash].
Definition GetDownloadTmpFilePath (fileHash fileName : string) : string :=
  Join [getDownloadTmpFolderPath fileHash; fileName +:+ ".tmp"].
Definition GetDownloadTmpCsvPath (fileHash fileName : string) : string :=
  Join [getDownloadTmpFolderPath fileHash; fileName +:+ ".csv"].
Definition GetDownloadFilePath (fileName savePath : string) : string := Join [DownloadPath; savePath; fileName].
Definition GetTmpSlicePath (fileHash sliceHash : string) : string := Join [GetTmpFileFolderPath fileHash; sliceHash].

Definition PathExists (p : string) : M bool :=
  if io_err SysStat p then lift (Err "stat")
  else fs ← get_fs; mret (bool_decide (p ∈ fs_dirs fs ∨ is_Some (fs_files fs !! p))).

(** The folder of a hash below [base], made when it is not there. *)
Definition hash_folder (base hash : string) : M string :=
  if bool_decide (String.length hash < 10)%nat then lift (Err "wrong size of slice hash")
  else
    s1 ← lift (rune_slice hash 0 8);
    s2 ← lift (rune_slice hash 8 10);
    let path := Join [base; s1; s2] in
    exist ← PathExists path;
    _ ← (if (exist : bool) then mret () else MkdirAll path);
    mret (Join [path; hash]).

Definition getSlicePath (hash : string) : M string := hash_folder StoragePath hash.
Definition getVerifySlicePath (hash : string) : M string := hash_folder GetTmpVerifyPath hash.

(** ** EscapePath *)

Definition backslash : ascii := ascii_of_nat 92.
Definition quote : ascii := ascii_of_nat 34.

Definition last_is (c : ascii) (s : list ascii) : bool := bool_decide (list.last s = Some c).

(** A parameter of the command line loses the backslash that escapes the space
    behind it. *)
Definition escape_param (is_last : bool) (str : list ascii) : list ascii :=
  match str with
  | [] => [" "%char]
  | _ =>
      let str := if last_is backslash str then removelast str else str in
      str ++ (if is_last then [] else [" "%char])
  end.
Fixpoint escape_params (l : list (list ascii)) : list ascii :=
  match l with
  | [] => []
  | [str] => escape_param true str
  | str :: l => escape_param false str ++ escape_params l
  end.

Fixpoint drop_spaces (l : list ascii) : list ascii :=
  match l with
  | a :: l' => if bool_decide (a = " "%char) then drop_spaces l' else l
  | [] => []
  end.

Definition EscapePath (unix : bool) (param : list string) : res string :=
  let param := map String.list_ascii_of_string param in
  let newStr :=
    if unix then filter (fun a => a ≠ backslash) (escape_params param)
    else concat (map (fun str => str ++ [" "%char]) param) in
  let newStr := rev (drop_spaces (rev newStr)) in
  let newStr := drop_spaces newStr in
  match newStr with
  | [] => Ok ""
  | a :: rest =>
      let newStr := if bool_decide (a = quote) then rest else newStr in
      match newStr with
      | [] => Panic "slice bounds out of range"
      | _ => Ok (String.string_of_list_ascii (if last_is quote newStr then removelast newStr else newStr))
      end
  end.

End Paths.

(** ** Paths as lists of names *)

Definition abs (l : list string) : string := "/" +:+ String.concat "/" l.

Definition has_slash (s : string) : bool := bool_decide (slash ∈ String.list_ascii_of_string s).
(** What [Clean] keeps as it is. *)
Definition name (s : string) : Prop := has_slash s = false ∧ s ≠ "" ∧ s ≠ "." ∧ s ≠ "..".

(** The letters of the hashes that [CalcSliceHash] makes, and some more. *)
Definition alnum (b : byte) : bool :=
  let z := Z_of_byte b in bool_decide (48 ≤ z ≤ 57) || bool_decide (65 ≤ z ≤ 90) || bool_decide (97 ≤ z ≤ 122).

Lemma split_on_slash_app a b : split_on slash (a +:+ String slash b) = split_on slash a ++ split_on slash b.
Proof.
  induction a as [|c a IH]; cbn; [done|].
  change (String c a +:+ String slash b) with (String c (a +:+ String slash b)). cbn [split_on]. case_bool_decide; [by rewrite IH|].
  rewrite IH. destruct (split_on slash a) as [|w ws] eqn:E; [|done].
  exfalso. destruct a as [|c' a']; cbn in E; [done|]. case_bool_decide; [done|]. by destruct (split_on slash a').
Qed.

Lemma split_on_name s : has_slash s = false → split_on slash s = [s].
Proof.
  unfold has_slash. induction s as [|a s IH]; cbn; [done|]. rewrite bool_decide_eq_false. intros H.
  rewrite bool_decide_eq_false_2 by set_solver. rewrite IH; [done|]. apply bool_decide_eq_false. set_solver.
Qed.

Lemma split_on_concat l :
  l ≠ [] → split_on slash (String.concat "/" l) = concat (map (split_on slash) l).
Proof.
  induction l as [|x l IH]; [done|]. intros _. destruct l as [|y l]; [by cbn; rewrite app_nil_r|].
  change (String.concat "/" (x :: y :: l)) with (x +:+ String slash (String.concat "/" (y :: l))).
  rewrite split_on_slash_app, IH by done. done.
Qed.

Lemma Forall_name_split l : Forall name l → concat (map (split_on slash) l) = l.
Proof.
  induction 1 as [|x l [Hx _] H IH]; [done|]. cbn. by rewrite split_on_name, IH.
Qed.

Lemma foldl_clean_names st l : Forall name l → foldl (clean_step true) st l = rev l ++ st.
Proof.
  intros H. revert st. induction H as [|x l (_ & H1 & H2 & H3) H IH]; intros st; [done|]. cbn [foldl rev].
  unfold clean_step at 2. rewrite bool_decide_eq_false_2 by tauto. rewrite bool_decide_eq_false_2 by done.
  rewrite IH. by rewrite <- app_assoc.
Qed.

Lemma foldl_clean_up st n : Forall name st → foldl (clean_step true) st (replicate n "..") = drop n st.
Proof.
  revert st. induction n as [|n IH]; intros st H; [done|]. cbn [replicate foldl]. unfold clean_step at 2.
  rewrite bool_decide_eq_false_2 by (by intros [|]). rewrite bool_decide_eq_true_2 by done.
  destruct H as [|x st (_ & _ & _ & H3) H]; [rewrite IH by constructor; by rewrite drop_nil|].
  rewrite bool_decide_eq_false_2 by done. by apply IH.
Qed.

(** What [Clean] makes of the elements of an absolute path. *)
Lemma split_on_abs l : Forall name l →
  foldl (clean_step true) [] (split_on slash (abs l)) = rev l.
Proof.
  intros H. unfold abs. change ("/" +:+ String.concat "/" l) with ("" +:+ String slash (String.concat "/" l)).
  rewrite split_on_slash_app. destruct l as [|x l]; [done|]. rewrite split_on_concat, Forall_name_split by done.
  cbn [split_on app]. change (foldl (clean_step true) [] (("" : string) :: x :: l))
    with (foldl (clean_step true) [] (x :: l)). by rewrite foldl_clean_names, app_nil_r.
Qed.

Lemma Join_abs l es : Forall name l →
  Join (abs l :: es) = abs (rev (foldl (clean_step true) (rev l) (concat (map (split_on slash) es)))).
Proof.
  intros H. assert (∃ s, String.concat "/" (abs l :: es) = "/" +:+ s) as [s Es].
  { destruct es as [|e es]; [by eexists|]. by eexists (String.concat "/" l +:+ "/" +:+ String.concat "/" (e :: es)). }
  unfold Join. rewrite bool_decide_eq_false_2 by done. unfold Clean.
  rewrite bool_decide_eq_false_2 by (by rewrite Es).
  assert (is_rooted (String.concat "/" (abs l :: es)) = true) as -> by (by rewrite Es).
  rewrite split_on_concat by done. cbn [map concat]. by rewrite foldl_app, split_on_abs.
Qed.

Lemma abs_inj l k : Forall name l → Forall name k → abs l = abs k → l = k.
Proof.
  intros Hl Hk E. apply (f_equal (fun p => foldl (clean_step true) [] (split_on slash p))) in E.
  rewrite !split_on_abs in E by done. by apply (f_equal (@rev string)) in E; rewrite !rev_involutive in E.
Qed.

(** ** Runes of ASCII strings *)

Lemma runes_ascii s :
  Forall (fun b => Z_of_byte b < 128) (string_bytes s) → runes s = map (fun b => [b]) (string_bytes s).
Proof.
  unfold runes. generalize (string_bytes s). intros l H. induction H as [|b l Hb H IH]; [done|].
  cbn [length runes_fuel]. assert (rune_size (b :: l) = Some 1%nat) as ->.
  { unfold rune_size. cbn [take map]. by rewrite bool_decide_eq_true_2. }
  cbn [take drop map]. by rewrite drop_0, IH.
Qed.

Lemma concat_singletons {A} (l : list A) : concat (map (fun x => [x]) l) = l.
Proof. induction l; cbn; [done|]. by f_equal. Qed.

Lemma rune_slice_ascii s i j :
  Forall (fun b => Z_of_byte b < 128) (string_bytes s) → (i ≤ j ≤ length (string_bytes s))%nat →
  rune_slice s i j = Ok (bytes_string (take (j - i) (drop i (string_bytes s)))).
Proof.
  intros H Hij. unfold rune_slice. rewrite runes_ascii by done. rewrite bool_decide_eq_true_2 by (by rewrite length_map).
  by rewrite skipn_map, firstn_map, concat_singletons.
Qed.

Lemma length_string_bytes s : length (string_bytes s) = String.length s.
Proof. unfold string_bytes, String.list_byte_of_string. rewrite length_map. induction s; cbn; congruence. Qed.

Definition plain (s : string) : Prop := Forall (fun b => alnum b = true) (string_bytes s).

Lemma alnum_ascii b : alnum b = true → Z_of_byte b < 128 ∧ Z_of_byte b ≠ 46 ∧ Z_of_byte b ≠ 47.
Proof. unfold alnum. rewrite !orb_true_iff, !bool_decide_eq_true. lia. Qed.

Lemma plain_ascii s : plain s → Forall (fun b => Z_of_byte b < 128) (string_bytes s).
Proof. intros H. eapply Forall_impl; [|exact H]. intros b Hb. by apply alnum_ascii. Qed.

Lemma plain_name s : plain s → s ≠ "" → name s.
Proof.
  unfold plain. intros H Hs. split_and!; [|done|..].
  - apply bool_decide_eq_false. intros Hin. apply (list_elem_of_fmap_2 byte_of_ascii) in Hin.
    rewrite Forall_forall in H. apply list_elem_of_In, H, alnum_ascii in Hin. revert Hin. vm_compute. tauto.
  - intros ->. apply Forall_inv in H. revert H. by vm_compute.
  - intros ->. apply Forall_inv in H. revert H. by vm_compute.
Qed.

(** ** The place of a slice *)

Definition slice_names (hash : string) : list string :=
  [bytes_string (take 8 (string_bytes hash)); bytes_string (take 2 (drop 8 (string_bytes hash))); hash].

Lemma slice_names_ok hash : plain hash → (10 ≤ String.length hash)%nat → Forall name (slice_names hash).
Proof.
  intros H Hl. pose proof (length_string_bytes hash) as E.
  assert (∀ l, Forall (fun b => alnum b = true) l → l ≠ [] → name (bytes_string l)) as Hn.
  { intros l Ha Hne. apply plain_name; [unfold plain; by rewrite string_bytes_string|].
    intros Es. apply Hne. by rewrite <- (string_bytes_string l), Es. }
  constructor; [|constructor; [|constructor; [|constructor]]].
  - apply Hn; [by apply Forall_take|]. intros Ez. apply (f_equal length) in Ez. rewrite length_take in Ez. cbn [length] in Ez. lia.
  - apply Hn; [apply Forall_take; by apply Forall_drop|]. intros Ez. apply (f_equal length) in Ez.
    rewrite length_take, length_drop in Ez. cbn [length] in Ez. lia.
  - apply plain_name; [done|]. intros ->. cbn in Hl. lia.
Qed.

Lemma Join_names l ns : Forall name l → Forall name ns → Join (abs l :: ns) = abs (l ++ ns).
Proof.
  intros Hl Hns. rewrite Join_abs, Forall_name_split, foldl_clean_names by done.
  by rewrite rev_app_distr, !rev_involutive.
Qed.

Lemma hash_folder_plain io_err l hash fs :
  Forall name l → plain hash → (10 ≤ String.length hash)%nat →
  let folder := abs (l ++ take 2 (slice_names hash)) in
  io_err SysStat folder = false → io_err SysMkdir folder = false →
  ∃ fs', hash_folder io_err (abs l) hash fs = (Ok (abs (l ++ slice_names hash)), fs')
    ∧ fs_files fs' = fs_files fs ∧ fs_dirs fs ⊆ fs_dirs fs' ∧ fs_dirs fs' ⊆ {[folder]} ∪ fs_dirs fs.
Proof.
  intros Hl Hp Hlen folder H1 H2. pose proof (length_string_bytes hash) as E.
  pose proof (slice_names_ok hash Hp Hlen) as Hn.
  unfold hash_folder. rewrite bool_decide_eq_false_2 by lia.
  rewrite !rune_slice_ascii by (by apply plain_ascii || lia). rewrite drop_0. change (8 - 0)%nat with 8%nat. change (10 - 8)%nat with 2%nat. run_M.
  rewrite (Join_names l [_; _]) by (done || exact (Forall_take _ 2 _ Hn)).
  change (abs (l ++ [bytes_string (take 8 (string_bytes hash)); bytes_string (take 2 (drop 8 (string_bytes hash)))])) with folder. unfold PathExists. rewrite H1. run_M.
  assert (Join [folder; hash] = abs (l ++ slice_names hash)) as Ej.
  { unfold folder. rewrite (Join_names (l ++ take 2 (slice_names hash)) [hash]).
    - by rewrite <- app_assoc.
    - apply Forall_app. split; [done|]. by apply Forall_take.
    - exact (Forall_drop _ 2 _ Hn). }
  rewrite Ej. case_bool_decide; [eexists; split_and!; [done|done|set_solver|set_solver]|].
  unfold MkdirAll. rewrite H2. run_M. eexists. split_and!; [done|done|set_solver|set_solver].
Qed.

(** A slice whose hash is made of letters and digits (as every hash that
    [CalcSliceHash] computes is) is stored below the storage folder, in the two
    folders named after the first ten characters of the hash, which are made when
    they are not there and no file is touched; different hashes have different
    places. *)
Theorem slice_path_inside io_err l hash fs :
  Forall name l → plain hash → (10 ≤ String.length hash)%nat →
  io_err SysStat (abs (l ++ take 2 (slice_names hash))) = false →
  io_err SysMkdir (abs (l ++ take 2 (slice_names hash))) = false →
  (∃ fs', getSlicePath io_err (abs l) hash fs = (Ok (abs (l ++ slice_names hash)), fs') ∧ fs_files fs' = fs_files fs)
  ∧ ∀ hash', plain hash' → (10 ≤ String.length hash')%nat →
      abs (l ++ slice_names hash') = abs (l ++ slice_names hash) → hash' = hash.
Proof.
  intros Hl Hp Hlen H1 H2. split.
  { destruct (hash_folder_plain io_err l hash fs) as (fs' & E & H3 & _); try done. by exists fs'. }
  intros hash' Hp' Hlen' E.
  apply abs_inj in E; [|apply Forall_app; split; [done|by apply slice_names_ok]..].
  apply app_inv_head in E. unfold slice_names in E. congruence.
Qed.

Lemma plain_by_computation s : forallb alnum (string_bytes s) = true → plain s.
Proof. intros H. apply Forall_forall. intros b Hb. by apply forallb_forall with (x := b) in H. Qed.

Lemma slice_path_inside_witness :
  (∃ fs', getSlicePath (fun _ _ => false) "/sds/storage" "v05ahm50123456" (mkFS ∅ ∅)
          = (Ok "/sds/storage/v05ahm50/12/v05ahm50123456", fs') ∧ fs_files fs' = ∅)
  ∧ ∀ hash', plain hash' → (10 ≤ String.length hash')%nat →
      abs (["sds"; "storage"] ++ slice_names hash') = "/sds/storage/v05ahm50/12/v05ahm50123456" → hash' = "v05ahm50123456".
Proof.
  apply (slice_path_inside (fun _ _ => false) ["sds"; "storage"] "v05ahm50123456" (mkFS ∅ ∅)); try reflexivity.
  - repeat constructor; done.
  - apply plain_by_computation. reflexivity.
  - cbn. lia.
Defined.

(** The hash that names the file with the names [ws] from the root. *)
Fixpoint ups (n : nat) (t : string) : string := match n with O => t | S n => "../" +:+ ups n t end.
Definition escaping_hash (n : nat) (ws : list string) : string := ups n (String.concat "/" ws).

Lemma split_on_ups n t : split_on slash (ups n t) = replicate n ".." ++ split_on slash t.
Proof. induction n as [|n IH]; [done|]. cbn [ups replicate app]. change ("../" +:+ ups n t) with (".." +:+ String slash (ups n t)). by rewrite split_on_slash_app, IH. Qed.

(** A hash from a message can name any file: behind enough "../" it takes
    [getSlicePath] from the storage folder to the root and from there to every
    path, because the hash is joined to the folder without being checked.  (Four
    "../" make it long enough to be taken for a hash.) *)
Theorem slice_path_escapes io_err l ws n fs :
  Forall name l → Forall name ws → ws ≠ [] → Forall (fun b => Z_of_byte b < 128) (string_bytes (String.concat "/" ws)) →
  (4 ≤ n)%nat → (length l ≤ n)%nat →
  (∀ p, io_err SysStat p = false) → (∀ p, io_err SysMkdir p = false) →
  ∃ fs', getSlicePath io_err (abs l) (escaping_hash n ws) fs = (Ok (abs ws), fs').
Proof.
  intros Hl Hws Hne Hasc Hn Hln H1 H2. unfold getSlicePath, hash_folder, escaping_hash.
  destruct n as [|[|[|[|n]]]]; [lia..|]. set (t := String.concat "/" ws). set (h := ups (S (S (S (S n)))) t).
  assert (string_bytes h = string_bytes "../../../../" ++ string_bytes (ups n t)) as Eb by done.
  assert (Forall (fun b => Z_of_byte b < 128) (string_bytes h)) as Hh.
  { rewrite Eb. apply Forall_app. split; [repeat constructor|]. clear -Hasc. induction n as [|n IH]; [done|].
    change (string_bytes (ups (S n) t)) with (string_bytes "../" ++ string_bytes (ups n t)).
    apply Forall_app. split; [repeat constructor|done]. }
  assert (12 ≤ String.length h)%nat as Hlen by (rewrite <- length_string_bytes, Eb, length_app; cbn; lia).
  rewrite bool_decide_eq_false_2 by lia.
  assert (rune_slice h 0 8 = Ok "../../..") as ->
    by (rewrite rune_slice_ascii by (rewrite ?length_string_bytes; (done || lia)); by rewrite Eb).
  assert (rune_slice h 8 10 = Ok "/.") as ->
    by (rewrite rune_slice_ascii by (rewrite ?length_string_bytes; (done || lia)); by rewrite Eb).
  assert (Forall name (rev l)) as Hrl by (by apply List.Forall_rev).
  assert (Join [abs l; "../../.."; "/."] = abs (rev (drop 3 (rev l)))) as Ej.
  { rewrite Join_abs by done. cbn [map concat]. rewrite app_nil_r.
    change (split_on slash "../../.." ++ split_on slash "/.") with (replicate 3 ".." ++ [""; "."]).
    rewrite foldl_app, foldl_clean_up by done. done. }
  assert (Join [abs (rev (drop 3 (rev l))); h] = abs ws) as Ej2.
  { rewrite Join_abs by (apply List.Forall_rev; by apply Forall_drop). rewrite rev_involutive. cbn [map concat]. rewrite app_nil_r.
    unfold h. rewrite split_on_ups. unfold t. rewrite split_on_concat, Forall_name_split by done.
    rewrite foldl_app, foldl_clean_up by (by apply Forall_drop).
    rewrite drop_drop, drop_ge by (rewrite length_rev; lia). by rewrite foldl_clean_names, app_nil_r, rev_involutive. }
  run_M. rewrite Ej. unfold PathExists. rewrite H1. run_M. rewrite Ej2.
  case_bool_decide; [by eexists|]. unfold MkdirAll. rewrite H2. run_M. by eexists.
Qed.

Lemma slice_path_escapes_witness :
  ∃ fs', getSlicePath (fun _ _ => false) "/sds/storage" "../../../../home/u/.ssh/keys" (mkFS ∅ ∅) = (Ok "/home/u/.ssh/keys", fs').
Proof.
  apply (slice_path_escapes (fun _ _ => false) ["sds"; "storage"] ["home"; "u"; ".ssh"; "keys"] 4 (mkFS ∅ ∅)); try done.
  - repeat constructor; done.
  - repeat constructor; done.
  - repeat constructor.
  - cbn. lia.
Defined.

(** A hash of ten bytes need not have ten runes. *)
Example slice_path_runes :
  (getSlicePath (fun _ _ => false) "/sds/storage"
     (bytes_string (concat (replicate 5 [Byte.xc3; Byte.xa9]))) (mkFS ∅ ∅)).1 = Panic "slice bounds out of range".
Proof. reflexivity. Qed.

Example escape_path_spaces : EscapePath true ["my" +:+ String backslash ""; "file.txt"] = Ok "my file.txt".
Proof. reflexivity. Qed.
(** A lone quotation mark is taken off at the front and then looked for at the
    end of nothing. *)
Example escape_path_quote : EscapePath true [String quote ""] = Panic "slice bounds out of range".
Proof. reflexivity. Qed.
