(* ===== verification/Storage.v ===== *)
(** * Storage: slices on disk

    Models pp/file/file.go on the file system of Paths: reading a slice in packets
    of at most [MaxData] bytes, saving pieces at their offsets, the folders for
    slices that are stored, verified and uploaded, and the reading of a downloaded
    file packet by packet.

    [MaxData] is setting.MaxData (3 MiB); the theorems hold for every positive
    size.  The memory-mapped reader (golang.org/x/exp/mmap) is the class [Mmap]:
    [ReadAt] fills a buffer and says whether it filled all of it.  The buffers come
    from a pool and hold whatever was in them before. *)
From S2P Require Import Prelude Paths.

Class Mmap := { mmap_ReadAt : bytes → Z → bytes → bytes * bool }.
Class MmapLaws (L : Mmap) : Prop :=
  ReadAt_in_range data off p : 0 ≤ off → off + zlen p ≤ zlen data →
    mmap_ReadAt data off p = (take (length p) (drop (Z.to_nat off) data), true).

(** [copy(p, data[off:])], the implementation the package documents. *)
Definition copy_mmap : Mmap := {| mmap_ReadAt data off p :=
  let chunk := take (length p) (drop (Z.to_nat off) data) in
  (chunk ++ drop (length chunk) p, bool_decide (0 ≤ off ∧ off + zlen p ≤ zlen data)) |}.
#[global] Instance copy_mmap_laws : MmapLaws copy_mmap.
Proof.
  intros data off p H1 H2. cbn. rewrite bool_decide_eq_true_2 by done. f_equal.
  rewrite (drop_ge p), app_nil_r; [done|]. rewrite length_take, length_drop. unfold zlen in *. lia.
Qed.

(** ** Files *)

(** [WriteAt] fills a gap with zeros; a write of nothing does not even do that. *)
Definition write_at (f : bytes) (off : nat) (d : bytes) : bytes :=
  match d with
  | [] => f
  | _ => let f := f ++ replicate (off - length f) Byte.x00 in take off f ++ d ++ drop (off + length d) f
  end.

Definition with_file (fs : FS) (p : string) (f : bytes) : FS := mkFS (<[p := f]> (fs_files fs)) (fs_dirs fs).

(** What reading a slice in packets gives: size, packets and whether it worked. *)
Definition packets : Type := Z * list bytes * bool.

Section Storage.
Context (io_err : syscall → string → bool) (rootPath StoragePath DownloadPath : string).
Context (MaxData : Z) {L : Mmap} (pool : Z → bytes).

#[local] Abbreviation getSlicePath := (getSlicePath io_err StoragePath).
#[local] Abbreviation getVerifySlicePath := (getVerifySlicePath io_err rootPath).
#[local] Abbreviation GetTmpSlicePath := (GetTmpSlicePath rootPath).
#[local] Abbreviation GetTmpFileFolderPath := (GetTmpFileFolderPath rootPath).
#[local] Abbreviation GetDownloadTmpFilePath := (GetDownloadTmpFilePath rootPath).

(** [os.OpenFile(p, os.O_CREATE|os.O_RDWR, 0600)]: the file's contents. *)
Definition open_create (p : string) : M bytes :=
  fs ← get_fs;
  if io_err SysOpen p || bool_decide (p ∈ fs_dirs fs) then lift (Err "open")
  else match fs_files fs !! p with
       | Some f => mret f
       | None => _ ← put_fs (with_file fs p []); mret []
       end.

Definition open_read (p : string) : M bytes :=
  fs ← get_fs;
  if io_err SysOpen p then lift (Err "open")
  else match fs_files fs !! p with Some f => mret f | None => lift (Err "open") end.

Definition os_ReadFile (p : string) : M bytes :=
  f ← open_read p; if io_err SysRead p then lift (Err "read") else mret f.

Definition os_Remove (p : string) : M unit :=
  fs ← get_fs;
  if io_err SysRemove p || bool_decide (fs_files fs !! p = None) then lift (Err "remove")
  else put_fs (mkFS (delete p (fs_files fs)) (fs_dirs fs)).

(** [fileMg.WriteAt(data, off)] and [Seek] with [Write]. *)
Definition file_WriteAt (p : string) (f data : bytes) (off : Z) : M unit :=
  if bool_decide (off < 0) then lift (Err "negative offset")
  else if io_err SysWrite p then lift (Err "write")
  else fs ← get_fs; put_fs (with_file fs p (write_at f (Z.to_nat off) data)).

(** ** Packets *)

(** The buffers for [size - start] bytes; [fuel] of [size] is enough. *)
Fixpoint buffers_from (fuel : nat) (start size : Z) : list bytes :=
  match fuel with
  | O => []
  | S fuel =>
      if bool_decide (start < size) then
        let stop := if bool_decide (size < start + MaxData) then size else start + MaxData in
        pool (stop - start) :: buffers_from fuel (start + MaxData) size
      else []
  end.
Definition RequestBuffersForSlice (size : Z) : list bytes := buffers_from (Z.to_nat size) 0 size.

Definition GetFileInfo (p : string) : M Z :=
  fs ← get_fs;
  if io_err SysStat p then lift (Err "stat")
  else match fs_files fs !! p with Some f => mret (zlen f) | None => lift (Err "stat") end.

(** The loop of [ReadFileDataToPackets], which stops at the first error. *)
Fixpoint read_packets (data : bytes) (i : Z) (bufs : list bytes) : list bytes * bool :=
  match bufs with
  | [] => ([], true)
  | b :: bufs =>
      let '(b, ok) := mmap_ReadAt data (i * MaxData) b in
      if ok then let '(rest, ok) := read_packets data (i + 1) bufs in (b :: rest, ok) else (b :: bufs, false)
  end.

Definition ReadFileDataToPackets (r : bytes) (path : string) : M packets :=
  info ← catch (GetFileInfo path);
  match info with
  | None => mret (0, [], false)
  | Some size =>
      let '(buffer, ok) := read_packets r 0 (RequestBuffersForSlice size) in mret (size, buffer, ok)
  end.

Definition ReadSliceDataFromTmp (fileHash sliceHash : string) : M packets :=
  let slicePath := GetTmpSlicePath fileHash sliceHash in
  r ← catch (open_read slicePath);
  match r with
  | None => mret (0, [], false)
  | Some r => ReadFileDataToPackets r slicePath
  end.

Definition ReadSliceData (fileHash sliceHash : string) : M packets :=
  slicePath ← catch (getSlicePath sliceHash);
  match slicePath with
  | None => mret (0, [], false)
  | Some slicePath =>
      r ← catch (open_read slicePath);
      match r with
      | Some r => ReadFileDataToPackets r slicePath
      | None =>
          let slicePath := GetTmpSlicePath fileHash sliceHash in
          r ← catch (open_read slicePath);
          match r with
          | Some r => ReadFileDataToPackets r slicePath
          | None => mret (0, [], false)
          end
      end
  end.

(** ** Whole slices *)

Definition GetWholeFileData (filePath : string) : M bytes := os_ReadFile filePath.
Definition GetSliceDataFromTmp (fileHash sliceHash : string) : M bytes := GetWholeFileData (GetTmpSlicePath fileHash sliceHash).
Definition GetSliceData (sliceHash : string) : M bytes := p ← getSlicePath sliceHash; GetWholeFileData p.
Definition GetVerifySliceData (sliceHash : string) : M bytes := p ← getVerifySlicePath sliceHash; GetWholeFileData p.
Definition GetSliceSize (sliceHash : string) : M Z := p ← getSlicePath sliceHash; GetFileInfo p.

(** ** Saving *)

Definition SaveSliceData (data : bytes) (sliceHash : string) (offset : Z) : M unit :=
  slicePath ← getSlicePath sliceHash;
  f ← open_create slicePath;
  file_WriteAt slicePath f data (i64 offset).

Definition SaveVerifySliceData (data : bytes) (sliceHash : string) (offset : Z) : M unit :=
  slicePath ← getVerifySlicePath sliceHash;
  f ← open_create slicePath;
  file_WriteAt slicePath f data (i64 offset).

Definition OpenTmpFile (fileHash fileName : string) : M bytes :=
  let folderPath := Join [GetTmpFileFolderPath fileHash] in
  exist ← PathExists io_err folderPath;
  _ ← (if (exist : bool) then mret () else MkdirAll io_err folderPath);
  open_create (GetTmpSlicePath fileHash fileName).

Definition SaveTmpSliceData (fileHash sliceHash : string) (data : bytes) : M unit :=
  f ← OpenTmpFile fileHash sliceHash;
  file_WriteAt (GetTmpSlicePath fileHash sliceHash) f data 0.

Definition RenameTmpFile (fileHash srcFile dstFile : string) : M unit :=
  let src := GetTmpSlicePath fileHash srcFile in
  let dst := GetTmpSlicePath fileHash dstFile in
  fs ← get_fs;
  match (if io_err SysRename src then None else fs_files fs !! src) with
  | None => lift (Err "rename")
  | Some f => put_fs (with_file (mkFS (delete src (fs_files fs)) (fs_dirs fs)) dst f)
  end.

Definition WriteFile (p : string) (f data : bytes) (offset : Z) : M unit := file_WriteAt p f data offset.

Definition CreateFolderAndReopenFile (folderPath fileName : string) : M bytes :=
  exist ← PathExists io_err folderPath;
  _ ← (if (exist : bool) then mret () else MkdirAll io_err folderPath);
  open_create (Join [folderPath; fileName]).

(** ** Deleting *)

Definition DeleteSlice (sliceHash : string) : M unit := p ← getSlicePath sliceHash; os_Remove p.
Definition DeleteVerifySlice (sliceHash : string) : M unit := p ← getVerifySlicePath sliceHash; os_Remove p.

(** ** Part of a file *)

(** The most [make] can allocate. *)
Definition maxAlloc : Z := 2 ^ 48.

Definition GetFileData (filePath : string) (SliceOffsetStart SliceOffsetEnd : Z) : M bytes :=
  f ← open_read filePath;
  let len := u64 (SliceOffsetEnd - SliceOffsetStart) in
  if bool_decide (maxAlloc < len) then lift (Panic "makeslice: len out of range")
  else
    let start := if bool_decide (i64 SliceOffsetStart < 0) then 0 else i64 SliceOffsetStart in
    let data := take (Z.to_nat len) (drop (Z.to_nat start) f) in
    if io_err SysRead filePath then lift (Err "read")
    else if bool_decide (0 < len) && bool_decide (data = []) then lift (Err "EOF")
    else mret (data ++ replicate (Z.to_nat len - length data) Byte.x00).

(** ** Reading a downloaded file packet by packet *)

Definition LOCAL_TAG : string := "LOCAL".

Record DownloadSlice := mkDownloadSlice { SliceHash : string; SliceFileOffset : Z; SliceSize : Z; Handled : bool }.
Record DownloadFile := mkDownloadFile { df_FileHash : string; df_FileSize : Z; df_FileName : string; df_Slices : list DownloadSlice }.

(** The values of [downloadMap] are of several types, which the readers assert. *)
Inductive dvalue := VInt (z : Z) | VUint64 (z : Z).

(** The two maps forget an entry an hour after its last use; here an entry stays. *)
Record Cache := mkCache { downloadMap : gmap string dvalue; fileInfoMap : gmap string DownloadFile }.

Definition set_downloadMap (k : string) (v : dvalue) (c : Cache) : Cache := mkCache (<[k := v]> (downloadMap c)) (fileInfoMap c).

Definition SetDownloadFileInfo (fileHash : string) (fileInfo : DownloadFile) (c : Cache) : Cache :=
  mkCache (downloadMap c) (<[fileHash := fileInfo]> (fileInfoMap c)).
Definition StartLocalDownload (fileHash : string) (c : Cache) : Cache := set_downloadMap (fileHash +:+ LOCAL_TAG) (VInt 0) c.
Definition FinishLocalDownload (fileHash : string) (c : Cache) : Cache :=
  mkCache (delete (fileHash +:+ LOCAL_TAG) (downloadMap c)) (fileInfoMap c).
Definition IsLocalDownload (fileHash : string) (c : Cache) : bool := bool_decide (is_Some (downloadMap c !! (fileHash +:+ LOCAL_TAG))).
Definition GetFileName (fileHash : string) (c : Cache) : string := default "" (df_FileName <$> fileInfoMap c !! fileHash).

(** Data, start, end and whether the file is finished. *)
Definition cached_packet : Type := option bytes * Z * Z * bool.

Definition ReadDownloadCachedData (fileHash reqid : string) (c : Cache) (fs : FS) : res cached_packet * Cache :=
  let key := fileHash +:+ reqid in
  let '(offsetStart, c) :=
    match downloadMap c !! key with
    | None => (Ok 0, set_downloadMap key (VInt 0) c)
    | Some (VUint64 z) => (Ok z, c)
    | Some (VInt _) => (Panic "interface conversion: interface {} is int, not uint64", c)
    end in
  match offsetStart with
  | Ok offsetStart =>
      match fileInfoMap c !! fileHash with
      | None => (Panic "interface conversion: interface {} is nil, not file.DownloadFile", c)
      | Some fi =>
          let filePath := GetDownloadTmpFilePath fileHash (df_FileName fi) in
          match (GetFileInfo filePath fs).1 with
          | Ok size =>
              if bool_decide (size ≤ offsetStart) then (Ok (None, offsetStart, 0, true), c)
              else
                let offsetEnd := if bool_decide (u64 (offsetStart + MaxData) < size) then u64 (offsetStart + MaxData) else size in
                match (GetFileData filePath offsetStart offsetEnd fs).1 with
                | Ok data => (Ok (Some data, offsetStart, offsetEnd, false), set_downloadMap key (VUint64 offsetEnd) c)
                | Err _ => (Ok (None, offsetStart, offsetEnd, false), c)
                | Panic e => (Panic e, c)
                end
          | Err _ => (Ok (None, offsetStart, 0, false), c)
          | Panic e => (Panic e, c)
          end
      end
  | Err e => (Err e, c)
  | Panic e => (Panic e, c)
  end.

End Storage.

(** ** Writing pieces *)

Lemma lookup_write_at f off d i :
  d ≠ [] →
  write_at f off d !! i =
    if decide (off ≤ i < off + length d)%nat then d !! (i - off)%nat
    else if decide (i < length f)%nat then f !! i
    else if decide (i < off)%nat then Some Byte.x00 else None.
Proof.
  intros Hd. unfold write_at. destruct d as [|b d]; [done|]. set (d' := b :: d) in *. cbv zeta.
  set (g := f ++ replicate (off - length f) Byte.x00).
  assert (length g = Nat.max off (length f)) as Hg by (unfold g; rewrite length_app, length_replicate; lia).
  assert (length (take off g) = off) as Ht by (rewrite length_take; lia).
  assert (∀ j, g !! j = if decide (j < length f)%nat then f !! j else if decide (j < off)%nat then Some Byte.x00 else None) as Hgj.
  { intros j. unfold g. case_decide.
    - by rewrite lookup_app_l.
    - rewrite lookup_app_r by lia. case_decide; [by rewrite lookup_replicate_2 by lia|].
      apply lookup_ge_None_2. rewrite length_replicate. lia. }
  destruct (decide (i < off)%nat) as [H1|H1].
  - rewrite lookup_app_l by lia. rewrite lookup_take, decide_True by lia. rewrite Hgj.
    rewrite (decide_False (P := (off ≤ i < _)%nat)) by lia. repeat case_decide; (done || lia).
  - rewrite lookup_app_r by lia. rewrite Ht. destruct (decide (i < off + length d')%nat) as [H2|H2].
    + rewrite lookup_app_l by lia. by rewrite decide_True by lia.
    + rewrite lookup_app_r by lia. rewrite lookup_drop, decide_False by lia. rewrite Hgj.
      replace (off + length d' + (i - off - length d'))%nat with i by lia. repeat case_decide; (done || lia).
Qed.

Lemma length_write_at f off d :
  d ≠ [] → length (write_at f off d) = Nat.max (length f) (off + length d).
Proof.
  intros Hd. unfold write_at. destruct d as [|b d]; [done|]. cbv zeta.
  rewrite !length_app, length_take, length_drop, length_app, length_replicate. cbn [length]. lia.
Qed.

(** A write at the end of a file. *)
Lemma write_at_end f d : write_at f (length f) d = f ++ d.
Proof.
  unfold write_at. destruct d as [|b d]; [by rewrite app_nil_r|]. cbv zeta. rewrite Nat.sub_diag, app_nil_r.
  by rewrite firstn_all, drop_ge, app_nil_r by (cbn; lia).
Qed.

(** A piece of [c]: where it begins and its bytes. *)
Definition piece_of (c : bytes) (p : Z * bytes) : Prop :=
  0 ≤ p.1 < 2 ^ 63 ∧ p.1 + zlen p.2 ≤ zlen c ∧ p.2 = take (length p.2) (drop (Z.to_nat p.1) c).
Definition in_piece (p : Z * bytes) (i : nat) : Prop := p.1 ≤ Z.of_nat i < p.1 + zlen p.2.
Definition covers (c : bytes) (ps : list (Z * bytes)) : Prop :=
  ∀ i, (i < length c)%nat → ∃ p, p ∈ ps ∧ in_piece p i.

(** [f] is [c] as far as it has been written. *)
Definition agrees (c f : bytes) (written : nat → Prop) : Prop :=
  (length f ≤ length c)%nat ∧ ∀ i, written i → f !! i = c !! i.

Lemma agrees_write c f w p :
  agrees c f w → (∀ i, w i → (i < length c)%nat) → piece_of c p →
  agrees c (write_at f (Z.to_nat p.1) p.2) (fun i => w i ∨ in_piece p i).
Proof.
  intros [Hl Hw] Hwc (Hp & Hlen & Hd). destruct p as [off d]. cbn in *. unfold zlen in *.
  destruct (decide (d = [])) as [->|Hne].
  { split; [done|]. intros i [H|H]; [by apply Hw|]. unfold in_piece, zlen in H. cbn in H. lia. }
  split; [rewrite length_write_at by done; lia|]. intros i Hi. rewrite lookup_write_at by done.
  unfold in_piece, zlen in Hi. cbn in Hi. case_decide as H1.
  - rewrite Hd, lookup_take, decide_True, lookup_drop by lia. f_equal. lia.
  - destruct Hi as [Hi|Hi]; [|lia]. specialize (Hw _ Hi). rewrite decide_True; [done|].
    apply lookup_lt_is_Some. rewrite Hw. apply lookup_lt_is_Some. by apply Hwc.
Qed.

Lemma agrees_all c f w : agrees c f w → (∀ i, (i < length c)%nat → w i) → f = c.
Proof.
  intros [Hl Hw] Hall. apply list_eq. intros i. destruct (decide (i < length c)%nat) as [H|H]; [by apply Hw, Hall|].
  rewrite !lookup_ge_None_2; [done|lia|lia].
Qed.

(** ** Operations when nothing is refused *)

Section StorageOk.
Context (rootPath : string) (l : list string) (MaxData : Z) {L : Mmap} (pool : Z → bytes).
Context (Hl : Forall name l).

#[local] Abbreviation no_err := (fun (_ : syscall) (_ : string) => false).
#[local] Abbreviation SaveSliceData := (SaveSliceData no_err (abs l)).
#[local] Abbreviation GetSliceData := (GetSliceData no_err (abs l)).
#[local] Abbreviation GetSliceSize := (GetSliceSize no_err (abs l)).
#[local] Abbreviation DeleteSlice := (DeleteSlice no_err (abs l)).
#[local] Abbreviation ReadSliceData := (ReadSliceData no_err rootPath (abs l) MaxData pool).

Definition place (hash : string) : string := abs (l ++ slice_names hash).

Definition good_hash (hash : string) : Prop := plain hash ∧ (10 ≤ String.length hash)%nat.

(** The places of slices are no folders. *)
Definition tidy (fs : FS) : Prop := ∀ hash, good_hash hash → place hash ∉ fs_dirs fs.

(** The same files, up to folders. *)
Definition same_files (fs fs' : FS) : Prop := fs_files fs' = fs_files fs ∧ (tidy fs → tidy fs').

Lemma place_inj h1 h2 : good_hash h1 → good_hash h2 → place h1 = place h2 → h1 = h2.
Proof.
  intros [P1 L1] [P2 L2] E. apply abs_inj in E; [|apply Forall_app; split; [done|by apply slice_names_ok]..].
  apply app_inv_head in E. unfold slice_names in E. congruence.
Qed.

Lemma getSlicePath_ok hash fs :
  good_hash hash → ∃ fs', getSlicePath no_err (abs l) hash fs = (Ok (place hash), fs') ∧ same_files fs fs'.
Proof.
  intros [Hp Hlen]. destruct (hash_folder_plain no_err l hash fs) as (fs' & E & H1 & H2 & H3); try done.
  exists fs'. split; [done|]. split; [done|]. intros Ht h2 [Hp2 Hlen2] Hin. apply H3 in Hin.
  apply elem_of_union in Hin as [Hin|Hin]; [|by apply (Ht h2)]. apply elem_of_singleton in Hin.
  apply abs_inj in Hin; [|apply Forall_app; split; [done|]..].
  - apply app_inv_head in Hin. done.
  - by apply slice_names_ok.
  - apply Forall_take. by apply slice_names_ok.
Qed.

Definition contents (fs : FS) (hash : string) : option bytes := fs_files fs !! place hash.

Lemma SaveSliceData_ok data hash off fs :
  good_hash hash → tidy fs → 0 ≤ off < 2 ^ 63 →
  ∃ fs', SaveSliceData data hash off fs = (Ok (), fs') ∧ tidy fs'
    ∧ fs_files fs' = <[place hash := write_at (default [] (contents fs hash)) (Z.to_nat off) data]> (fs_files fs).
Proof.
  intros Hh Ht Ho. unfold Storage.SaveSliceData. destruct (getSlicePath_ok hash fs Hh) as (fs1 & E & Ef & Hd).
  run_M. rewrite E. unfold open_create. run_M. rewrite bool_decide_eq_false_2 by (by apply Hd). cbn [orb].
  unfold contents. rewrite <- Ef. rewrite (wraps_id 64) by (unfold in_s; lia).
  unfold file_WriteAt. destruct (fs_files fs1 !! place hash) as [f|] eqn:Ec; run_M; cbn [default id];
    rewrite bool_decide_eq_false_2 by lia; run_M; eexists; split_and!; try done; try (by apply Hd).
  cbn [with_file fs_files]. by rewrite insert_insert_eq.
Qed.

Lemma GetSliceData_ok hash fs c :
  good_hash hash → contents fs hash = Some c → ∃ fs', GetSliceData hash fs = (Ok c, fs') ∧ same_files fs fs'.
Proof.
  intros Hh Hc. unfold Storage.GetSliceData. destruct (getSlicePath_ok hash fs Hh) as (fs1 & E & Hs).
  run_M. rewrite E. unfold GetWholeFileData, os_ReadFile, open_read. run_M. pose proof Hs as [-> _].
  unfold contents in Hc. rewrite Hc. eexists. by split.
Qed.

Lemma GetSliceSize_ok hash fs c :
  good_hash hash → contents fs hash = Some c → ∃ fs', GetSliceSize hash fs = (Ok (zlen c), fs') ∧ same_files fs fs'.
Proof.
  intros Hh Hc. unfold Storage.GetSliceSize. destruct (getSlicePath_ok hash fs Hh) as (fs1 & E & Hs).
  run_M. rewrite E. unfold GetFileInfo. run_M. pose proof Hs as [-> _].
  unfold contents in Hc. rewrite Hc. eexists. by split.
Qed.

Lemma DeleteSlice_ok hash fs c :
  good_hash hash → contents fs hash = Some c →
  ∃ fs', DeleteSlice hash fs = (Ok (), fs') ∧ fs_files fs' = delete (place hash) (fs_files fs) ∧ (tidy fs → tidy fs').
Proof.
  intros Hh Hc. unfold Storage.DeleteSlice. destruct (getSlicePath_ok hash fs Hh) as (fs1 & E & Ef & Hd).
  run_M. rewrite E. unfold os_Remove. run_M. unfold contents in Hc. rewrite Ef, Hc.
  rewrite bool_decide_eq_false_2 by done. eexists. split; [done|]. cbn. by rewrite ?Ef.
Qed.

(** *** Packets *)

(** [c] cut into packets of [n] bytes. *)
Fixpoint chop_fuel (fuel n : nat) (c : bytes) : list bytes :=
  match fuel, c with
  | O, _ | _, [] => []
  | S fuel, _ => take n c :: chop_fuel fuel n (drop n c)
  end.
Definition chop (n : nat) (c : bytes) : list bytes := chop_fuel (length c) n c.

Lemma chop_fuel_enough f1 f2 n c :
  (0 < n)%nat → (length c ≤ f1)%nat → (length c ≤ f2)%nat → chop_fuel f1 n c = chop_fuel f2 n c.
Proof.
  intros Hn. revert f2 c. induction f1 as [|f1 IH]; intros f2 c H1 H2.
  - assert (c = []) as -> by (apply nil_length_inv; lia). by destruct f2.
  - destruct c as [|b c]; [by destruct f2|]. destruct f2 as [|f2]; [cbn in H2; lia|]. cbn [chop_fuel]. f_equal.
    apply IH; rewrite length_drop; cbn [length] in *; lia.
Qed.

Lemma concat_chop_fuel f n c : (0 < n)%nat → (length c ≤ f)%nat → concat (chop_fuel f n c) = c.
Proof.
  intros Hn. revert c. induction f as [|f IH]; intros c Hf.
  { assert (c = []) as -> by (apply nil_length_inv; lia). done. }
  destruct c as [|b c]; [done|]. cbn [chop_fuel concat].
  rewrite IH by (rewrite length_drop; cbn [length] in *; lia). apply take_drop.
Qed.

Lemma concat_chop n c : (0 < n)%nat → concat (chop n c) = c.
Proof. intros Hn. by apply concat_chop_fuel. Qed.

Context `{!MmapLaws L} (Hpool : ∀ n, 0 ≤ n → zlen (pool n) = n) (HM : 0 < MaxData).

(** Reading fills the buffers with the bytes from where they begin. *)
Lemma read_packets_ok fuel data i :
  0 ≤ i → (length data - Z.to_nat (i * MaxData) ≤ fuel)%nat →
  read_packets MaxData data i (buffers_from MaxData pool fuel (i * MaxData) (zlen data))
  = (chop_fuel fuel (Z.to_nat MaxData) (drop (Z.to_nat (i * MaxData)) data), true).
Proof.
  revert i. induction fuel as [|fuel IH]; intros i Hi Hf; [done|]. cbn [buffers_from]. case_bool_decide as Hlt.
  2: { rewrite drop_ge by (unfold zlen in *; lia). done. }
  set (stop := if bool_decide (zlen data < i * MaxData + MaxData) then zlen data else i * MaxData + MaxData).
  assert (i * MaxData < stop ≤ zlen data ∧ stop - i * MaxData ≤ MaxData
    ∧ (stop = zlen data ∨ stop = i * MaxData + MaxData)) as (Hs1 & Hs2 & Hs3) by (unfold stop; case_bool_decide; lia).
  pose proof (Hpool (stop - i * MaxData) ltac:(lia)) as Hp. cbn [read_packets].
  rewrite ReadAt_in_range by (rewrite ?Hp; lia). cbv zeta.
  replace (i * MaxData + MaxData) with ((i + 1) * MaxData) by lia.
  rewrite (IH (i + 1)) by lia.
  destruct (drop (Z.to_nat (i * MaxData)) data) as [|b rest] eqn:Ed.
  { exfalso. apply (f_equal length) in Ed. rewrite length_drop in Ed. unfold zlen in *. cbn [length] in Ed. lia. }
  cbn [chop_fuel]. rewrite <- Ed. f_equal. f_equal.
  - destruct Hs3 as [Hs3|Hs3].
    + rewrite !take_ge; [done|rewrite length_drop; unfold zlen in *; lia..].
    + f_equal. unfold zlen in *. lia.
  - f_equal. rewrite drop_drop. f_equal. lia.
Qed.

Lemma ReadSliceData_ok fileHash hash fs c :
  good_hash hash → contents fs hash = Some c →
  ∃ fs', ReadSliceData fileHash hash fs = (Ok (zlen c, chop (Z.to_nat MaxData) c, true), fs') ∧ same_files fs fs'.
Proof.
  intros Hh Hc. unfold Storage.ReadSliceData. destruct (getSlicePath_ok hash fs Hh) as (fs1 & E & Hs).
  run_M. rewrite E. unfold open_read. run_M. pose proof Hs as [-> _]. unfold contents in Hc. rewrite Hc.
  unfold ReadFileDataToPackets, GetFileInfo, RequestBuffersForSlice. run_M. rewrite (proj1 Hs), Hc.
  pose proof (read_packets_ok (Z.to_nat (zlen c)) c 0 ltac:(lia)) as Hr.
  change (0 * MaxData) with 0 in Hr. rewrite Hr by (unfold zlen; lia). eexists. split; [|exact Hs]. cbn [Z.to_nat].
  rewrite drop_0. unfold chop, zlen. by rewrite Nat2Z.id.
Qed.

(** ** Saving a slice in pieces *)

Fixpoint save_all (hash : string) (ps : list (Z * bytes)) : M unit :=
  match ps with
  | [] => mret ()
  | (off, data) :: ps => _ ← SaveSliceData data hash off; save_all hash ps
  end.

Lemma save_all_ok hash c ps fs w :
  good_hash hash → tidy fs → Forall (piece_of c) ps →
  agrees c (default [] (contents fs hash)) w → (∀ i, w i → (i < length c)%nat) →
  ∃ fs', save_all hash ps fs = (Ok (), fs') ∧ tidy fs'
    ∧ agrees c (default [] (contents fs' hash)) (fun i => w i ∨ ∃ p, p ∈ ps ∧ in_piece p i)
    ∧ (ps ≠ [] → is_Some (contents fs' hash))
    ∧ ∀ q, q ≠ place hash → fs_files fs' !! q = fs_files fs !! q.
Proof.
  intros Hh Ht Hps. revert fs w Ht. induction Hps as [|p ps Hp Hps IH]; intros fs w Ht Ha Hw.
  { exists fs. split_and!; try done. destruct Ha as [H1 H2]. split; [done|]. intros i [Hi|(p & Hp & _)]; [by apply H2|]. set_solver. }
  destruct p as [off data]. cbn [save_all].
  destruct (SaveSliceData_ok data hash off fs Hh Ht (proj1 Hp)) as (fs1 & E1 & Ht1 & Ef1).
  assert (contents fs1 hash = Some (write_at (default [] (contents fs hash)) (Z.to_nat off) data)) as Ec1
    by (unfold contents at 1; by rewrite Ef1, lookup_insert_eq).
  destruct (IH fs1 (fun i => w i ∨ in_piece (off, data) i) Ht1) as (fs2 & E2 & Ht2 & Ha2 & Hs2 & Hq2).
  { rewrite Ec1. by apply (agrees_write c _ w (off, data)). }
  { intros i [Hi|Hi]; [by apply Hw|]. destruct Hp as (? & ? & _). unfold in_piece, zlen in *. cbn in *. lia. }
  exists fs2. split_and!.
  - run_M. by rewrite E1.
  - done.
  - destruct Ha2 as [H1 H2]. split; [done|]. intros i Hi. apply H2.
    destruct Hi as [Hi|(p & Hin & Hi)]; [by do 2 left|]. apply elem_of_cons in Hin as [->|Hin]; [by left; right|]. right. by exists p.
  - intros _. destruct ps as [|p' ps']; [|by apply Hs2]. cbn [save_all] in E2. injection E2 as <-. by rewrite Ec1.
  - intros q Hq. rewrite Hq2, Ef1 by done. by rewrite lookup_insert_ne.
Qed.

(** The pieces of a slice may be saved in any order, overlap and come more
    than once: when together they cover the slice, what is stored is the slice,
    byte for byte, whatever shorter file was there before; it is read back whole
    and in packets of [MaxData] bytes, and no other file is changed. *)
Theorem pieces_make_the_slice fileHash hash c ps fs :
  good_hash hash → tidy fs → (length (default [] (contents fs hash)) ≤ length c)%nat →
  Forall (piece_of c) ps → covers c ps → ps ≠ [] →
  ∃ fs', save_all hash ps fs = (Ok (), fs')
    ∧ (GetSliceData hash fs').1 = Ok c
    ∧ (GetSliceSize hash fs').1 = Ok (zlen c)
    ∧ (ReadSliceData fileHash hash fs').1 = Ok (zlen c, chop (Z.to_nat MaxData) c, true)
    ∧ concat (chop (Z.to_nat MaxData) c) = c
    ∧ ∀ q, q ≠ place hash → fs_files fs' !! q = fs_files fs !! q.
Proof.
  intros Hh Ht Hlen Hps Hcov Hne.
  destruct (save_all_ok hash c ps fs (fun _ => False) Hh Ht Hps) as (fs' & E & Ht' & Ha & Hs & Hq); [by split|done|].
  destruct (Hs Hne) as [f Hf]. rewrite Hf in Ha. cbn [default id] in Ha.
  assert (f = c) as -> by (apply (agrees_all _ _ _ Ha); intros i Hi; right; by apply Hcov).
  exists fs'. split_and!; [done| | | |apply concat_chop; lia|done].
  - by destruct (GetSliceData_ok hash fs' c Hh Hf) as (fs2 & -> & _).
  - by destruct (GetSliceSize_ok hash fs' c Hh Hf) as (fs2 & -> & _).
  - by destruct (ReadSliceData_ok fileHash hash fs' c Hh Hf) as (fs2 & -> & _).
Qed.
End StorageOk.

Lemma tidy_empty l : tidy l (mkFS ∅ ∅).
Proof. intros h _. set_solver. Qed.

Lemma good_hash_by_computation s : forallb alnum (string_bytes s) && (10 <=? String.length s)%nat = true → good_hash s.
Proof. intros [H1 H2]%andb_true_iff. split; [by apply plain_by_computation|]. by apply Nat.leb_le. Qed.

(** Five bytes in packets of two, the last packet first. *)
Lemma pieces_make_the_slice_witness :
  let b := string_bytes "abcde" in
  ∃ fs', save_all ["sds"] "v05ahm50123456" [(4, drop 4 b); (0, take 2 b); (1, take 3 (drop 1 b))] (mkFS ∅ ∅) = (Ok (), fs')
    ∧ (GetSliceData (fun _ _ => false) "/sds" "v05ahm50123456" fs').1 = Ok b
    ∧ (GetSliceSize (fun _ _ => false) "/sds" "v05ahm50123456" fs').1 = Ok (zlen b)
    ∧ (ReadSliceData (L := copy_mmap) (fun _ _ => false) "/root" "/sds" 2 (fun n => replicate (Z.to_nat n) Byte.x00)
         "f" "v05ahm50123456" fs').1 = Ok (zlen b, chop 2 b, true)
    ∧ concat (chop 2 b) = b
    ∧ ∀ q, q ≠ place ["sds"] "v05ahm50123456" → fs_files fs' !! q = fs_files (mkFS ∅ ∅) !! q.
Proof.
  intros b. apply (pieces_make_the_slice (L := copy_mmap) "/root" ["sds"] 2 (fun n => replicate (Z.to_nat n) Byte.x00)).
  - repeat constructor; done.
  - apply copy_mmap_laws.
  - intros n Hn. unfold zlen. rewrite length_replicate. lia.
  - lia.
  - by apply good_hash_by_computation.
  - apply tidy_empty.
  - vm_compute. lia.
  - constructor; [|constructor; [|constructor; [|constructor]]]; unfold piece_of; cbn [fst snd]; split_and!; try reflexivity; done.
  - intros i Hi. unfold in_piece, zlen. cbn in Hi.
    destruct (decide (i < 2)%nat); [exists (0, take 2 b); split; [set_solver|cbn; lia]|].
    destruct (decide (i < 4)%nat); [exists (1, take 3 (drop 1 b)); split; [set_solver|cbn; lia]|].
    exists (4, drop 4 b); split; [set_solver|cbn; lia].
  - done.
Defined.

(** ** Reading a downloaded file *)

Section Cached.
Context (io_err : syscall → string → bool) (rootPath : string) (MaxData : Z).
Context (fileHash reqid : string).

#[local] Abbreviation ReadCached := (ReadDownloadCachedData io_err rootPath MaxData fileHash reqid).

(** Call after call until the file is finished: the packets with their offsets. *)
Fixpoint read_cached (fuel : nat) (c : Cache) (fs : FS) : res (list (Z * bytes)) :=
  match fuel with
  | O => Err "unfinished"
  | S fuel =>
      match ReadCached c fs with
      | (Ok (_, _, _, true), _) => Ok []
      | (Ok (Some data, start, _, false), c) => rest ← read_cached fuel c fs; Ok ((start, data) :: rest)
      | (Ok (None, _, _, false), _) => Err "no data"
      | (Err e, _) => Err e
      | (Panic e, _) => Panic e
      end
  end.

(** The packets of a file from an offset on. *)
Fixpoint packets_from (fuel : nat) (start : Z) (f : bytes) : list (Z * bytes) :=
  match fuel, f with
  | O, _ | _, [] => []
  | S fuel, _ => (start, take (Z.to_nat MaxData) f) :: packets_from fuel (start + MaxData) (drop (Z.to_nat MaxData) f)
  end.

Lemma snd_packets_from fuel start f : map snd (packets_from fuel start f) = chop_fuel fuel (Z.to_nat MaxData) f.
Proof. revert start f. induction fuel as [|fuel IH]; intros start [|b f]; cbn; try done. by rewrite IH. Qed.

Context (fi : DownloadFile) (f : bytes) (fs : FS).
#[local] Abbreviation path := (GetDownloadTmpFilePath rootPath fileHash (df_FileName fi)).
Context (Hio : ∀ s, io_err s path = false) (Hf : fs_files fs !! path = Some f).
Context (HM : 0 < MaxData ≤ 2 ^ 40) (Hlen : zlen f < 2 ^ 62).

Lemma GetFileData_ok start stop :
  0 ≤ start < stop → stop ≤ zlen f → stop - start ≤ 2 ^ 40 →
  GetFileData io_err path start stop fs = (Ok (take (Z.to_nat (stop - start)) (drop (Z.to_nat start) f)), fs).
Proof.
  intros H1 H2 H3. unfold GetFileData, open_read. run_M. rewrite !Hio, Hf.
  rewrite (wrapu_id 64) by (unfold in_u; lia). rewrite bool_decide_eq_false_2 by (unfold maxAlloc; lia).
  rewrite (wraps_id 64) by (unfold in_s; lia). rewrite (bool_decide_eq_false_2 (start < 0)) by lia.
  assert (length (take (Z.to_nat (stop - start)) (drop (Z.to_nat start) f)) = Z.to_nat (stop - start)) as El
    by (rewrite length_take, length_drop; unfold zlen in *; lia).
  rewrite El, Nat.sub_diag. cbn [replicate]. rewrite app_nil_r.
  rewrite (bool_decide_eq_false_2 (take _ _ = [])); [by rewrite andb_false_r|].
  intros E. rewrite E in El. cbn [length] in El. lia.
Qed.

Lemma read_cached_from fuel start c :
  0 ≤ start ≤ zlen f → (length f - Z.to_nat start < fuel)%nat →
  fileInfoMap c !! fileHash = Some fi →
  (downloadMap c !! (fileHash +:+ reqid) = Some (VUint64 start) ∨ downloadMap c !! (fileHash +:+ reqid) = None ∧ start = 0) →
  read_cached fuel c fs = Ok (packets_from fuel start (drop (Z.to_nat start) f)).
Proof.
  revert start c. induction fuel as [|fuel IH]; intros start c Hs Hfuel Hfi Hd; [lia|].
  cbn [read_cached]. unfold ReadDownloadCachedData.
  set (c1 := if decide (downloadMap c !! (fileHash +:+ reqid) = None) then set_downloadMap (fileHash +:+ reqid) (VInt 0) c else c).
  assert (match downloadMap c !! (fileHash +:+ reqid) with
    | None => (Ok 0, set_downloadMap (fileHash +:+ reqid) (VInt 0) c)
    | Some (VUint64 z) => (Ok z, c)
    | Some (VInt _) => (Panic "interface conversion: interface {} is int, not uint64", c)
    end = (Ok start, c1)) as ->.
  { unfold c1. destruct Hd as [->|[-> ->]]; [by rewrite decide_False|by rewrite decide_True]. }
  assert (fileInfoMap c1 !! fileHash = Some fi) as Hfi1 by (unfold c1; by case_decide). rewrite Hfi1.
  unfold GetFileInfo at 1. run_M. rewrite !Hio, Hf. cbn [fst]. case_bool_decide as Hend.
  { assert (start = zlen f) as -> by lia. rewrite drop_ge by (unfold zlen; lia). done. }
  rewrite (wrapu_id 64) by (unfold in_u; lia).
  set (stop := if bool_decide (start + MaxData < zlen f) then start + MaxData else zlen f).
  assert (start < stop ≤ zlen f ∧ stop - start ≤ MaxData ∧ (stop = zlen f ∨ stop = start + MaxData)) as (H1 & H2 & H3)
    by (unfold stop; case_bool_decide; lia).
  rewrite GetFileData_ok by lia. cbn [fst].
  rewrite (IH stop); [|lia|unfold zlen in *; lia|done|left; apply lookup_insert_eq].
  destruct (drop (Z.to_nat start) f) as [|b rest] eqn:Ed.
  { exfalso. apply (f_equal length) in Ed. rewrite length_drop in Ed. unfold zlen in *. cbn [length] in Ed. lia. }
  cbn [packets_from mbind res_bind]. rewrite <- Ed. rewrite drop_drop. destruct H3 as [E|E].
  - f_equal. f_equal; [rewrite !take_ge; [done|rewrite length_drop; unfold zlen in *; lia..]|].
    rewrite !drop_ge by (unfold zlen in *; lia). by destruct fuel.
  - rewrite E. do 2 f_equal; [do 2 f_equal; lia|]. do 2 f_equal. lia.
Qed.

(** A client that reads a downloaded file gets it packet by packet: from the
    first call on, the calls deliver the consecutive packets of [MaxData] bytes
    with their offsets, whose bytes make the whole file, and then say that the
    file is finished; at most one call per byte and one more are needed. *)
Theorem cached_file_is_streamed c :
  fileInfoMap c !! fileHash = Some fi → downloadMap c !! (fileHash +:+ reqid) = None →
  ∃ ps, read_cached (S (length f)) c fs = Ok ps
    ∧ concat (map snd ps) = f ∧ Forall (fun p => zlen p.2 ≤ MaxData) ps
    ∧ ∀ k p, ps !! k = Some p → p.1 = Z.of_nat k * MaxData.
Proof.
  intros Hfi Hd. exists (packets_from (S (length f)) 0 f). split_and!.
  - rewrite (read_cached_from (S (length f)) 0 c); [done| | |done|by right]; unfold zlen; cbn; lia.
  - rewrite snd_packets_from. apply concat_chop_fuel; lia.
  - assert (∀ n z g, Forall (fun p : Z * bytes => zlen p.2 ≤ MaxData) (packets_from n z g)) as Hs; [|apply Hs].
    induction n as [|n IH]; intros z [|b g]; cbn [packets_from]; [constructor|constructor|constructor|].
    constructor; [|apply IH]. cbn [snd]. unfold zlen. rewrite length_take. lia.
  - assert (∀ n z g k p, packets_from n z g !! k = Some p → p.1 = z + Z.of_nat k * MaxData) as Hk; [|intros k p Hp; by apply Hk in Hp].
    induction n as [|n IH]; intros z [|b g] k p; cbn [packets_from]; try done.
    destruct k as [|k]; cbn [lookup list_lookup]; [intros [= <-]; cbn; lia|]. intros Hp. apply IH in Hp. lia.
Qed.
End Cached.

Lemma cached_file_is_streamed_witness :
  ∃ ps, read_cached (fun _ _ => false) "/r" 2 "hash" "id" 4 (mkCache ∅ {["hash" := mkDownloadFile "hash" 3 "n" []]})
          (mkFS {["/r/tmp/download/hash/n.tmp" := string_bytes "abc"]} ∅) = Ok ps
    ∧ concat (map snd ps) = string_bytes "abc" ∧ Forall (fun p => zlen p.2 ≤ 2) ps
    ∧ ∀ k p, ps !! k = Some p → p.1 = Z.of_nat k * 2.
Proof.
  apply (cached_file_is_streamed (fun _ _ => false) "/r" 2 "hash" "id" (mkDownloadFile "hash" 3 "n" []) (string_bytes "abc"));
    try reflexivity; cbn; lia.
Defined.

(** A read of a downloaded file that fails the first time is not repeated:
    the first call leaves an [int] in the map of offsets, where the next call
    expects a [uint64], so the node panics. *)
Theorem cached_read_retry_panics io_err rootPath MaxData fileHash reqid c fs r c' :
  downloadMap c !! (fileHash +:+ reqid) = None →
  ReadDownloadCachedData io_err rootPath MaxData fileHash reqid c fs = (r, c') →
  (∀ data start stop, r ≠ Ok (Some data, start, stop, false)) →
  ∀ fs', ∃ e, (ReadDownloadCachedData io_err rootPath MaxData fileHash reqid c' fs').1 = Panic e.
Proof.
  intros Hk E Hr fs'. unfold ReadDownloadCachedData in E. rewrite Hk in E.
  assert (downloadMap c' !! (fileHash +:+ reqid) = Some (VInt 0)) as Hc'.
  { repeat case_match; simplify_eq; try (apply lookup_insert_eq). all: try by edestruct Hr. }
  unfold ReadDownloadCachedData. rewrite Hc'. by eexists.
Qed.

Lemma cached_read_retry_panics_witness :
  let c := mkCache ∅ {["hash" := mkDownloadFile "hash" 3 "n" []]} in
  ∃ e, (ReadDownloadCachedData (fun _ _ => false) "/r" 2 "hash" "id"
          (set_downloadMap "hashid" (VInt 0) c) (mkFS ∅ ∅)).1 = Panic e.
Proof.
  intros c. apply (cached_read_retry_panics (fun _ _ => false) "/r" 2 "hash" "id" c (mkFS ∅ ∅) (Ok (None, 0, 0, false))); try reflexivity.
  by intros.
Defined.
