(* ===== verification/Node.v ===== *)
(** * Node: what the handlers of slices share

    The messages of pp/event about slices, the state of a storage node that their
    handlers work on, and the records of cost times (pp/event/download_slice.go,
    pp/event/upload_slice.go, framework/crypto/hash_tools.go).

    The maps of the package are the fields of [N]; those with an expiry (30 minutes
    for cost times, the spam threshold for requests; CleanMap has the map itself)
    keep their entries here, as within that time.  What the handlers send is
    appended to [outbox]. *)
From S2P Require Import Prelude Bytes Paths Storage.

(** ** Hashes of slices *)

(** The content identifiers of ipfs/go-cid and the truncated Keccak-256 of
    multiformats/go-multihash. *)
Class HashLib := {
  cid_Hash : string → bytes;      (* the multihash of a decoded identifier *)
  mh_Sum : bytes → bytes;
  cid_String : bytes → string     (* NewCidV1(Raw, hash) in base32hex *)
}.

Definition CalcSliceHash `{HashLib} (data : bytes) (fileHash : string) (sliceNumber : Z) : res string :=
  let fileKeccak256 := cid_Hash fileHash in
  let sliceKeccak256 := mh_Sum (Uint64ToBytes sliceNumber ++ data) in
  if bool_decide (length fileKeccak256 ≠ length sliceKeccak256)
  then Err "length of fileKeccak256 and sliceKeccak256 doesn't match"
  else
    let x := zip_with (fun a b => byte_of_Z (Z.lxor (Z_of_byte a) (Z_of_byte b))) fileKeccak256 sliceKeccak256 in
    Ok (cid_String (mh_Sum x)).

(** ** Messages (generated from sds-msg, the fields the code uses) *)

Record PPInfo := mkPPInfo { pp_P2PAddress : string; pp_NetworkAddress : string }.
Record SliceStorageInfo := mkSSI { ss_SliceHash : string; ss_SliceSize : Z }.

(** [NoticeFileSliceBackup]; [NoticeFileSliceVerify] has the same fields. *)
Record Notice := mkNotice {
  nt_TaskId : string;
  nt_FileHash : string;
  nt_SliceStorageInfo : SliceStorageInfo;
  nt_SliceNumber : Z;
  nt_PpInfo : PPInfo;
  nt_SpP2PAddress : string;
  nt_DeleteOrigin : bool;
  nt_ToP2PAddress : string;
  nt_TimeStamp : Z
}.

(** [RspTransferDownload] and [RspVerifyDownload]; [Data] may be nil, [Result] is
    nil or a failure. *)
Record RspData := mkRspData {
  rd_TaskId : string;
  rd_Data : option bytes;
  rd_Offset : Z;
  rd_SliceSize : Z;
  rd_failed : bool;
  rd_SpP2PAddress : string;
  rd_SliceHash : string;
  rd_P2PAddress : string;
  rd_SliceNumber : Z
}.

Record RspResult := mkRspResult { rr_TaskId : string; rr_success : bool; rr_SpP2PAddress : string; rr_SliceHash : string }.

(** [ReqReportBackupSliceResult] and [ReqReportVerifyResult]. *)
Record Report := mkReport {
  rp_TaskId : string;
  rp_FileHash : string;
  rp_SliceHash : string;
  rp_success : bool;
  rp_IsReceiver : bool;
  rp_OriginDeleted : bool;
  rp_SliceNumber : Z;
  rp_SliceSize : Z;
  rp_SpP2PAddress : string;
  rp_CostTime : Z;
  rp_OpponentP2PAddress : string
}.

(** The messages of an upload.  [SliceHashAddr]: *)
Record SliceAddr := mkSliceAddr {
  sa_SliceHash : string;
  sa_SliceSize : Z;
  sa_SliceNumber : Z;
  sa_OffsetStart : Z;
  sa_OffsetEnd : Z;
  sa_PpInfo : PPInfo
}.

(** [RspUploadFile] and [RspBackupStatus]. *)
Record RspFile := mkRspFile {
  rf_TaskId : string;
  rf_FileHash : string;
  rf_SpP2PAddress : string;
  rf_TimeStamp : Z;
  rf_Slices : list SliceAddr
}.

(** [ReqUploadFileSlice] and [ReqBackupFileSlice]: a piece of a slice. *)
Record Piece := mkPiece {
  pc_Rsp : RspFile;
  pc_SliceNumber : Z;
  pc_SliceHash : string;
  pc_Data : bytes;
  pc_Start : Z;
  pc_End : Z;
  pc_P2PAddress : string
}.

(** [RspUploadFileSlice] and [RspBackupFileSlice]. *)
Record UploadRsp := mkUploadRsp {
  ur_TaskId : string;
  ur_FileHash : string;
  ur_SliceHash : string;
  ur_Slice : option SliceAddr;
  ur_success : bool;
  ur_SpP2PAddress : string
}.

(** [ReportUploadSliceResult], of a success. *)
Record UploadReport := mkUploadReport {
  up_TaskId : string;
  up_FileHash : string;
  up_SpP2PAddress : string;
  up_Opponent : string;
  up_Slice : SliceAddr;
  up_CostTime : Z
}.

(** The messages of the serving side of a download. *)
Record DownSlice := mkDownSlice { di_SliceNumber : Z; di_TaskId : string; di_SliceHash : string; di_OffsetStart : Z; di_OffsetEnd : Z }.
Record StorageInfo := mkStorageInfo {
  si_TaskId : string;
  si_FileHash : string;
  si_TimeStamp : Z;
  si_EncryptionTag : string;
  si_SpP2PAddress : string;
  si_SliceInfo : list DownSlice
}.
Record ReqSlice := mkReqSlice { rq_Info : StorageInfo; rq_SliceNumber : Z; rq_P2PAddress : string }.

(** [RspDownloadSlice], without the data. *)
Record DownRsp := mkDownRsp {
  dr_P2PAddress : string;
  dr_SliceHash : string;
  dr_OffsetStart : Z;
  dr_OffsetEnd : Z;
  dr_EncryptedStart : Z;
  dr_EncryptedEnd : Z;
  dr_FileHash : string;
  dr_TaskId : string;
  dr_SliceSize : Z;
  dr_IsEncrypted : bool;
  dr_SpP2PAddress : string;
  dr_SliceNumber : Z;
  dr_NeedReport : bool
}.

Inductive out :=
  | ToPP (addr : string) (n : Notice)                  (* ReqTransferDownload to another node *)
  | ToPPVerify (addr : string) (n : Notice)            (* ReqVerifyDownload *)
  | Wrong (n : Notice)                                 (* ReqTransferDownloadWrong to the SP *)
  | Packet (packetId : Z) (m : RspData)                (* RspTransferDownload on the connection *)
  | VerifyPacket (packetId : Z) (m : RspData)          (* RspVerifyDownload *)
  | Refused                                            (* RspTransferDownload: repeated request *)
  | Done (m : RspResult)                               (* RspTransferDownloadResult *)
  | VerifyDone (m : RspResult)                         (* RspVerifyDownloadResult *)
  | ToSP (r : Report)                                  (* ReqReportBackupSliceResult *)
  | ToSPVerify (r : Report)                            (* ReqReportVerifyResult *)
  | PieceOut (packetId : Z) (addr : string) (backup : bool) (m : Piece)
  | Speed (fileHash : string) (size start : Z)         (* UploadSpeedOfProgress *)
  | UploadAnswer (backup : bool) (m : UploadRsp)       (* RspUploadFileSlice, RspBackupFileSlice *)
  | UploadRefused (backup : bool) (msg : string)       (* the same, of a failure *)
  | ToSPUpload (r : UploadReport)                      (* ReqReportUploadSliceResult *)
  | DownPacket (packetId : Z) (m : DownRsp) (data : bytes)
  | DownRefused (m : option DownRsp) (msg : string)    (* RspDownloadSlice, of a failure *)
  | ToSPDownload (m : DownRsp) (costTime : Z)          (* ReqReportDownloadResult *)
  | Closed.                                            (* conn.Close *)

(** ** State *)

Definition TRANSFER_TASK_TIMEOUT_THRESHOLD : Z := 180.
Definition WriteTimeOut : Z := 60.
Definition SliceInvalid : Z := 0.
Definition SliceUpload : Z := 1.
Definition SliceDownload : Z := 2.
Definition SliceBackup : Z := 3.
Definition SliceTransfer : Z := 4.

(** [TransferTask] and [VerifyTask], which have the same fields. *)
Record TransferTask := mkTask {
  tt_TaskId : string;
  tt_IsReceiver : bool;
  tt_DeleteOrigin : bool;
  tt_PpInfo : PPInfo;
  tt_SliceStorageInfo : SliceStorageInfo;
  tt_FileHash : string;
  tt_SliceNum : Z;
  tt_ReceiverP2pAddress : string;
  tt_SpP2pAddress : string;
  tt_AlreadySize : Z;
  tt_LastTouchTime : Z
}.

(** Without [fileHash], which nothing reads. *)
Record TaskSlice := mkTaskSlice {
  ts_TkSliceUID : string;
  ts_SliceType : Z;
  ts_TaskId : string;
  ts_SliceHash : string;
  ts_SpP2pAddress : string;
  ts_OriginDeleted : bool
}.

Record CostTimeStat := mkStat { TotalCostTime : Z; PacketCount : Z }.

(** The maps of uploads and of the serving side of downloads. *)
Record Serving := mkServing {
  UpSendCostTimeMap : gmap string CostTimeStat;
  UpRecvCostTimeMap : gmap string Z;
  uploadSliceSpamCheckMap : gset string;
  backupSliceSpamCheckMap : gset string;
  downloadSliceSpamCheckMap : gset string;
  downloadRspMap : gmap string DownRsp;
  DownloadSliceTaskMap : gset string        (* its values are all true *)
}.

Record N := mkN {
  n_fs : FS;
  transferTaskMap : gmap string TransferTask;
  verifyTaskMap : gmap string TransferTask;
  transferSliceSpamCheckMap : gset string;
  PacketIdMap : gmap Z TaskSlice;
  DownSendCostTimeMap : gmap string CostTimeStat;
  DownRecvCostTimeMap : gmap string Z;
  n_serving : Serving;
  n_packets : nat;                  (* packet ids drawn so far *)
  outbox : list out
}.

Definition N0 (fs : FS) : N := mkN fs ∅ ∅ ∅ ∅ ∅ ∅ (mkServing ∅ ∅ ∅ ∅ ∅ ∅ ∅) 0 [].

Definition set_fs (f : FS) (n : N) : N :=
  mkN f (transferTaskMap n) (verifyTaskMap n) (transferSliceSpamCheckMap n) (PacketIdMap n) (DownSendCostTimeMap n)
    (DownRecvCostTimeMap n) (n_serving n) (n_packets n) (outbox n).
Definition set_tasks (m : gmap string TransferTask) (n : N) : N :=
  mkN (n_fs n) m (verifyTaskMap n) (transferSliceSpamCheckMap n) (PacketIdMap n) (DownSendCostTimeMap n)
    (DownRecvCostTimeMap n) (n_serving n) (n_packets n) (outbox n).
Definition set_verify (m : gmap string TransferTask) (n : N) : N :=
  mkN (n_fs n) (transferTaskMap n) m (transferSliceSpamCheckMap n) (PacketIdMap n) (DownSendCostTimeMap n)
    (DownRecvCostTimeMap n) (n_serving n) (n_packets n) (outbox n).
Definition set_spam (m : gset string) (n : N) : N :=
  mkN (n_fs n) (transferTaskMap n) (verifyTaskMap n) m (PacketIdMap n) (DownSendCostTimeMap n)
    (DownRecvCostTimeMap n) (n_serving n) (n_packets n) (outbox n).
Definition set_packets (m : gmap Z TaskSlice) (k : nat) (n : N) : N :=
  mkN (n_fs n) (transferTaskMap n) (verifyTaskMap n) (transferSliceSpamCheckMap n) m (DownSendCostTimeMap n)
    (DownRecvCostTimeMap n) (n_serving n) k (outbox n).
Definition set_send (m : gmap string CostTimeStat) (n : N) : N :=
  mkN (n_fs n) (transferTaskMap n) (verifyTaskMap n) (transferSliceSpamCheckMap n) (PacketIdMap n) m
    (DownRecvCostTimeMap n) (n_serving n) (n_packets n) (outbox n).
Definition set_recv (m : gmap string Z) (n : N) : N :=
  mkN (n_fs n) (transferTaskMap n) (verifyTaskMap n) (transferSliceSpamCheckMap n) (PacketIdMap n) (DownSendCostTimeMap n)
    m (n_serving n) (n_packets n) (outbox n).
Definition set_serving (s : Serving) (n : N) : N :=
  mkN (n_fs n) (transferTaskMap n) (verifyTaskMap n) (transferSliceSpamCheckMap n) (PacketIdMap n) (DownSendCostTimeMap n)
    (DownRecvCostTimeMap n) s (n_packets n) (outbox n).
Definition emit (o : out) (n : N) : N :=
  mkN (n_fs n) (transferTaskMap n) (verifyTaskMap n) (transferSliceSpamCheckMap n) (PacketIdMap n) (DownSendCostTimeMap n)
    (DownRecvCostTimeMap n) (n_serving n) (n_packets n) (outbox n ++ [o]).

Definition set_up_send (m : gmap string CostTimeStat) (n : N) : N :=
  let s := n_serving n in
  set_serving (mkServing m (UpRecvCostTimeMap s) (uploadSliceSpamCheckMap s) (backupSliceSpamCheckMap s)
                 (downloadSliceSpamCheckMap s) (downloadRspMap s) (DownloadSliceTaskMap s)) n.
Definition set_up_recv (m : gmap string Z) (n : N) : N :=
  let s := n_serving n in
  set_serving (mkServing (UpSendCostTimeMap s) m (uploadSliceSpamCheckMap s) (backupSliceSpamCheckMap s)
                 (downloadSliceSpamCheckMap s) (downloadRspMap s) (DownloadSliceTaskMap s)) n.
Definition set_spams (u b d : gset string) (n : N) : N :=
  let s := n_serving n in
  set_serving (mkServing (UpSendCostTimeMap s) (UpRecvCostTimeMap s) u b d (downloadRspMap s) (DownloadSliceTaskMap s)) n.
Definition set_served (m : gmap string DownRsp) (d : gset string) (n : N) : N :=
  let s := n_serving n in
  set_serving (mkServing (UpSendCostTimeMap s) (UpRecvCostTimeMap s) (uploadSliceSpamCheckMap s) (backupSliceSpamCheckMap s)
                 (downloadSliceSpamCheckMap s) m d) n.

(** File operations on the node's files. *)
Definition run_fs {A} (m : M A) (n : N) : res A * N := let '(r, fs) := m (n_fs n) in (r, set_fs fs n).

(** ** Cost times (download_slice.go) *)

Definition stat0 : CostTimeStat := mkStat 0 0.

Definition StartSendPacket (k : string) (n : N) : N :=
  let before := default stat0 (DownSendCostTimeMap n !! k) in
  set_send (<[k := mkStat (TotalCostTime before) (i64 (PacketCount before + 1))]> (DownSendCostTimeMap n)) n.

Definition FinishSendPacket (k : string) (costTime : Z) (n : N) : N :=
  match DownSendCostTimeMap n !! k with
  | None => n
  | Some before =>
      let after := mkStat (i64 (TotalCostTime before + costTime)) (i64 (PacketCount before - 1)) in
      if bool_decide (0 ≤ PacketCount after) then set_send (<[k := after]> (DownSendCostTimeMap n)) n else n
  end.

(** What [FinishSendPacket] returns, also when it does not store it. *)
Definition finished_stat (k : string) (costTime : Z) (n : N) : CostTimeStat :=
  match DownSendCostTimeMap n !! k with
  | None => stat0
  | Some before => mkStat (i64 (TotalCostTime before + costTime)) (i64 (PacketCount before - 1))
  end.

Definition CheckSendSliceCompletion (k : string) (n : N) : bool :=
  match DownSendCostTimeMap n !! k with
  | Some s => bool_decide (PacketCount s = 0) && bool_decide (0 < TotalCostTime s)
  | None => false
  end.
Definition DeleteRecord (k : string) (n : N) : N := set_send (delete k (DownSendCostTimeMap n)) n.

Definition GetCompletedTotalCostTime (k : string) (n : N) : option Z :=
  match DownSendCostTimeMap n !! k with
  | Some s => if bool_decide (PacketCount s = 0) && bool_decide (0 < TotalCostTime s) then Some (TotalCostTime s) else None
  | None => None
  end.

Definition AddCostTime (k : string) (costTime : Z) (n : N) : Z * N :=
  let total := match DownRecvCostTimeMap n !! k with Some v => i64 (costTime + v) | None => costTime end in
  (total, if bool_decide (0 < costTime) then set_recv (<[k := total]> (DownRecvCostTimeMap n)) n else n).

(** ** What the outside answers during one call *)

Record Env := mkEnv {
  unix_now : Z;
  sp_connected : bool;            (* SpConnValid *)
  reach : string → bool           (* a message to another node goes out *)
}.

Definition SendMessageToSPServer (e : Env) (o : out) (n : N) : N := if sp_connected e then emit o n else n.

(** A packet is noted before it is sent; [packet_id] gives the ids the node draws
    (Ids). *)
Definition new_packet (packet_id : nat → Z) (ts : TaskSlice) (n : N) : Z * N :=
  let packetId := packet_id (n_packets n) in
  (packetId, set_packets (<[packetId := ts]> (PacketIdMap n)) (S (n_packets n)) n).

(** ** Strings as keys *)

Lemma length_string_app (s1 s2 : string) : String.length (s1 +:+ s2) = (String.length s1 + String.length s2)%nat.
Proof. induction s1 as [|c s1 IH]; [done|]. cbn. by rewrite <- IH. Qed.
Lemma string_app_longer a (s1 s2 : string) : String a s1 +:+ s2 ≠ "" +:+ s2.
Proof. intros E. apply (f_equal String.length) in E. rewrite !length_string_app in E. cbn in E. lia. Qed.
