(* ===== verification/Transfer.v ===== *)
(** * Transfer: moving slices between storage nodes

    Models pp/task/transfer_task.go, pp/task/verify_task.go and the handlers of
    pp/event/transfer_slice.go and pp/event/verify_slice.go, with the write hook of
    pp/event/upload_slice.go that all packets of slices share.

    An SP tells a node to fetch a slice from the node that stores it; the storing
    node sends it in packets; the receiver saves them, checks the hash of the whole
    slice, reports to the SP and answers the sender, which reports too and deletes
    its copy when it was asked to.  The same exchange, without keeping the slice,
    verifies that a node still has it.

    A handler takes the state of the node and the outcome of the verification of
    the message, and gives the state after it with the messages sent.  The clock,
    the connections and the ids of packets are arguments.  A panic ends the handler
    and leaves what it has done. *)
From stdpp Require Import pretty.
From S2P Require Import Prelude Bytes Paths Storage Node.

(** ** transfer_task.go *)

Definition AddTransferTask (taskId sliceHash : string) (t : TransferTask) (n : N) : N :=
  set_tasks (<[taskId +:+ sliceHash := t]> (transferTaskMap n)) n.
Definition GetOngoingTransferTaskCnt (n : N) : Z := Z.of_nat (size (transferTaskMap n)).
Definition GetTransferTask (taskId sliceHash : string) (n : N) : option TransferTask := transferTaskMap n !! (taskId +:+ sliceHash).
Definition GetTransferTaskByTaskSliceUID (uid : string) (n : N) : option TransferTask := transferTaskMap n !! uid.
Definition CleanTransferTask (taskId sliceHash : string) (n : N) : N := set_tasks (delete (taskId +:+ sliceHash) (transferTaskMap n)) n.
Definition CleanTransferTaskByTaskSliceUID (uid : string) (n : N) : N := set_tasks (delete uid (transferTaskMap n)) n.

Definition add_size (delta now : Z) (t : TransferTask) : TransferTask :=
  mkTask (tt_TaskId t) (tt_IsReceiver t) (tt_DeleteOrigin t) (tt_PpInfo t) (tt_SliceStorageInfo t) (tt_FileHash t)
    (tt_SliceNum t) (tt_ReceiverP2pAddress t) (tt_SpP2pAddress t) (u64 (tt_AlreadySize t + delta)) now.

Definition AddAlreadySizeToTransferTask (taskId sliceHash : string) (delta now : Z) (n : N) : option TransferTask * N :=
  match transferTaskMap n !! (taskId +:+ sliceHash) with
  | None => (None, n)
  | Some t => let t := add_size delta now t in (Some t, set_tasks (<[taskId +:+ sliceHash := t]> (transferTaskMap n)) n)
  end.

Definition GetTimeoutTransfer (now : Z) (n : N) : list string :=
  map fst (filter (fun kt => tt_LastTouchTime kt.2 + TRANSFER_TASK_TIMEOUT_THRESHOLD < now) (map_to_list (transferTaskMap n))).

(** ** verify_task.go *)

Definition AddVerifyTask (taskId sliceHash : string) (t : TransferTask) (n : N) : N :=
  set_verify (<[taskId +:+ sliceHash := t]> (verifyTaskMap n)) n.
Definition GetVerifyTask (taskId sliceHash : string) (n : N) : option TransferTask := verifyTaskMap n !! (taskId +:+ sliceHash).
Definition AddAlreadySizeToVerifyTask (taskId sliceHash : string) (delta now : Z) (n : N) : option TransferTask * N :=
  match verifyTaskMap n !! (taskId +:+ sliceHash) with
  | None => (None, n)
  | Some t => let t := add_size delta now t in (Some t, set_verify (<[taskId +:+ sliceHash := t]> (verifyTaskMap n)) n)
  end.

Section Node.
Context (io_err : syscall → string → bool) (rootPath StoragePath : string).
Context (MaxData : Z) {L : Mmap} (pool : Z → bytes) {H : HashLib}.
(** The node's address, and the ids it draws for packets (Ids). *)
Context (self : string) (packet_id : nat → Z).

#[local] Abbreviation SaveSliceData := (SaveSliceData io_err StoragePath).
#[local] Abbreviation SaveVerifySliceData := (SaveVerifySliceData io_err rootPath).
#[local] Abbreviation GetSliceSize := (GetSliceSize io_err StoragePath).
#[local] Abbreviation GetSliceData := (GetSliceData io_err StoragePath).
#[local] Abbreviation GetVerifySliceData := (GetVerifySliceData io_err rootPath).
#[local] Abbreviation DeleteSlice := (DeleteSlice io_err StoragePath).
#[local] Abbreviation DeleteVerifySlice := (DeleteVerifySlice io_err rootPath).
#[local] Abbreviation ReadSliceData := (ReadSliceData io_err rootPath StoragePath MaxData pool).

(** Packets of the slice of a task; nothing for no task. *)
Definition slice_packets (t : option TransferTask) (n : N) : Z * list bytes * N :=
  match t with
  | None => (0, [], n)
  | Some t =>
      let '(r, n) := run_fs (ReadSliceData (tt_FileHash t) (ss_SliceHash (tt_SliceStorageInfo t))) n in
      match r with Ok (size, buffer, _) => (size, buffer, n) | _ => (0, [], n) end
  end.
Definition GetTransferSliceData (taskId sliceHash : string) (n : N) : Z * list bytes * N :=
  slice_packets (GetTransferTask taskId sliceHash n) n.
Definition GetVerifySliceData_task (taskId sliceHash : string) (n : N) : Z * list bytes * N :=
  slice_packets (GetVerifyTask taskId sliceHash n) n.

(** Whether the slice is complete. *)
Definition SaveTransferData (e : Env) (target : RspData) (n : N) : res bool * N :=
  match GetTransferTask (rd_TaskId target) (rd_SliceHash target) n with
  | None => (Err "failed getting transfer task", n)
  | Some tTask =>
      let hash := ss_SliceHash (tt_SliceStorageInfo tTask) in
      let data := default [] (rd_Data target) in
      let '(r, n) := run_fs (SaveSliceData data hash (rd_Offset target)) n in
      match r with
      | Ok _ =>
          match AddAlreadySizeToTransferTask (rd_TaskId target) (rd_SliceHash target) (zlen data) (unix_now e) n with
          | (None, n) => (Err "failed to update task", n)
          | (Some tTask, n) =>
              let hash := ss_SliceHash (tt_SliceStorageInfo tTask) in
              let '(r, n) := run_fs (GetSliceSize hash) n in
              match r with
              | Ok sliceSize =>
                  if bool_decide (sliceSize < ss_SliceSize (tt_SliceStorageInfo tTask))
                     || bool_decide (tt_AlreadySize tTask < rd_SliceSize target)
                  then (Ok false, n)
                  else
                    let '(r, n) := run_fs (GetSliceData hash) n in
                    match r with
                    | Ok sliceData =>
                        match CalcSliceHash sliceData (tt_FileHash tTask) (tt_SliceNum tTask) with
                        | Ok sliceHash =>
                            if bool_decide (hash ≠ sliceHash) then (Err "whole slice received, but slice hash doesn't match", n)
                            else (Ok true, n)
                        | Err m => (Err m, n)
                        | Panic m => (Panic m, n)
                        end
                    | Err m => (Err m, n)
                    | Panic m => (Panic m, n)
                    end
              | Err m => (Err m, n)
              | Panic m => (Panic m, n)
              end
          end
      | Err m => (Err m, n)
      | Panic m => (Panic m, n)
      end
  end.

Definition SaveVerifyData (e : Env) (target : RspData) (n : N) : res bool * N :=
  match GetVerifyTask (rd_TaskId target) (rd_SliceHash target) n with
  | None => (Err "failed getting transfer task", n)
  | Some tTask =>
      let hash := ss_SliceHash (tt_SliceStorageInfo tTask) in
      let data := default [] (rd_Data target) in
      let '(r, n) :=
        if bool_decide (rd_SliceNumber target ≠ 0) then run_fs (SaveVerifySliceData data hash (rd_Offset target)) n
        else (Ok (), n) in
      match r with
      | Ok _ =>
          match AddAlreadySizeToVerifyTask (rd_TaskId target) (rd_SliceHash target) (zlen data) (unix_now e) n with
          | (None, n) => (Err "failed to update task", n)
          | (Some tTask, n) =>
              if bool_decide (tt_AlreadySize tTask < rd_SliceSize target) then (Ok false, n)
              else if bool_decide (rd_SliceNumber target ≠ 0) then
                let hash := ss_SliceHash (tt_SliceStorageInfo tTask) in
                let '(r, n) := run_fs (GetVerifySliceData hash) n in
                match r with
                | Ok sliceData =>
                    let calc := CalcSliceHash sliceData (tt_FileHash tTask) (tt_SliceNum tTask) in
                    let '(_, n) := run_fs (DeleteVerifySlice hash) n in
                    match calc with
                    | Ok sliceHash =>
                        if bool_decide (hash ≠ sliceHash)
                        then (Err "verify: the whole slice is received, but the content doesn't pass the validation.", n)
                        else (Ok true, n)
                    | Err m => if bool_decide (hash ≠ "")
                               then (Err "verify: the whole slice is received, but the content doesn't pass the validation.", n)
                               else (Err m, n)
                    | Panic m => (Panic m, n)
                    end
                | Err m => (Err m, n)
                | Panic m => (Panic m, n)
                end
              else (Ok true, n)
          end
      | Err _ => (Ok false, n)
      | Panic m => (Panic m, n)
      end
  end.

(** ** transfer_slice.go *)

Definition SendReportBackupSliceResult (e : Env) (taskId sliceHash spP2pAddress : string) (result originDeleted : bool)
    (costTime : Z) (n : N) : N :=
  match GetTransferTask taskId sliceHash n with
  | None => n
  | Some t =>
      let opponent := if tt_IsReceiver t then pp_P2PAddress (tt_PpInfo t) else tt_ReceiverP2pAddress t in
      SendMessageToSPServer e
        (ToSP (mkReport taskId (tt_FileHash t) (ss_SliceHash (tt_SliceStorageInfo t)) result (tt_IsReceiver t) originDeleted
                 (tt_SliceNum t) (ss_SliceSize (tt_SliceStorageInfo t)) spP2pAddress costTime opponent)) n
  end.

(** [verified] is the outcome of [VerifyMessage] and [UnmarshalData]. *)
Definition NoticeFileSliceBackup (e : Env) (verified : bool) (target : Notice) (n : N) : N :=
  if negb verified then n
  else if bool_decide (pp_P2PAddress (nt_PpInfo target) = self) then n
  else
    let tTask := mkTask (nt_TaskId target) true (nt_DeleteOrigin target) (nt_PpInfo target) (nt_SliceStorageInfo target)
                   (nt_FileHash target) (nt_SliceNumber target) (nt_ToP2PAddress target) (nt_SpP2PAddress target) 0 (unix_now e) in
    let n := AddTransferTask (nt_TaskId target) (ss_SliceHash (nt_SliceStorageInfo target)) tTask n in
    if reach e (pp_NetworkAddress (nt_PpInfo target))
    then emit (ToPP (pp_NetworkAddress (nt_PpInfo target)) target) n
    else SendMessageToSPServer e (Wrong target) n.

Definition transfer_packet (nt : Notice) (data : bytes) (offset sliceSize : Z) : RspData :=
  mkRspData (nt_TaskId nt) (Some data) offset sliceSize false (nt_SpP2PAddress nt) (ss_SliceHash (nt_SliceStorageInfo nt)) self 0.

(** The loop of [ReqTransferDownload] over the packets. *)
Fixpoint send_packets (e : Env) (nt : Notice) (sliceDataLen : Z) (buffer : list bytes) (dataStart dataEnd : Z) (n : N) : N :=
  match buffer with
  | [] => n
  | data :: buffer =>
      let sliceHash := ss_SliceHash (nt_SliceStorageInfo nt) in
      let tkSliceUID := nt_TaskId nt +:+ sliceHash in
      let '(packetId, n) := new_packet packet_id (mkTaskSlice tkSliceUID SliceTransfer (nt_TaskId nt) sliceHash (nt_SpP2PAddress nt) false) n in
      let n := StartSendPacket tkSliceUID n in
      let n := emit (Packet packetId (transfer_packet nt data dataStart sliceDataLen)) n in
      if bool_decide (sliceDataLen < dataEnd) then n
      else
        let n := (AddAlreadySizeToTransferTask (nt_TaskId nt) sliceHash (zlen data) (unix_now e) n).2 in
        send_packets e nt sliceDataLen buffer (dataStart + MaxData) (dataEnd + MaxData) n
  end.

Definition spam_key (nt : Notice) : string :=
  nt_TaskId nt +:+ pretty (i64 (nt_SliceNumber nt)) +:+ nt_ToP2PAddress nt +:+ pretty (nt_TimeStamp nt).

(** [newPp] is the address of the node that asks. *)
Definition ReqTransferDownload (e : Env) (verified : bool) (nt : Notice) (newPp : string) (n : N) : N :=
  if negb verified then n
  else if bool_decide (spam_key nt ∈ transferSliceSpamCheckMap n) then emit Refused n
  else
    let n := set_spam ({[spam_key nt]} ∪ transferSliceSpamCheckMap n) n in
    let tTask := mkTask "" false (nt_DeleteOrigin nt) (nt_PpInfo nt) (nt_SliceStorageInfo nt) (nt_FileHash nt)
                   (nt_SliceNumber nt) newPp (nt_SpP2PAddress nt) 0 (unix_now e) in
    let sliceHash := ss_SliceHash (nt_SliceStorageInfo nt) in
    let n := AddTransferTask (nt_TaskId nt) sliceHash tTask n in
    let '(sliceDataLen, buffer, n) := GetTransferSliceData (nt_TaskId nt) sliceHash n in
    send_packets e nt sliceDataLen buffer 0 MaxData n.

Definition RspTransferDownload (e : Env) (verified : bool) (costTime : Z) (target : RspData) (n : N) : N :=
  if negb verified || rd_failed target || bool_decide (rd_Data target = None) then n
  else
    let '(totalCostTime, n) := AddCostTime (rd_TaskId target +:+ rd_SliceHash target) costTime n in
    match SaveTransferData e target n with
    | (Ok true, n) =>
        let n := SendReportBackupSliceResult e (rd_TaskId target) (rd_SliceHash target) (rd_SpP2PAddress target) true false totalCostTime n in
        emit (Done (mkRspResult (rd_TaskId target) true (rd_SpP2PAddress target) (rd_SliceHash target))) n
    | (_, n) => n
    end.

(** A message whose [Result] is nil makes the handler panic in the state it found, as if
    it had not been [verified]. *)
Definition RspTransferDownloadResult (e : Env) (verified : bool) (target : RspResult) (n : N) : N :=
  if negb verified then n
  else
    match GetCompletedTotalCostTime (rr_TaskId target +:+ rr_SliceHash target) n with
    | None => n
    | Some totalCostTime =>
        if negb (rr_success target) then
          SendReportBackupSliceResult e (rr_TaskId target) (rr_SliceHash target) (rr_SpP2PAddress target) false false totalCostTime n
        else
          let '(deleteOrigin, n) :=
            match GetTransferTask (rr_TaskId target) (rr_SliceHash target) n with
            | Some tTask =>
                if tt_DeleteOrigin tTask then
                  let '(r, n) := run_fs (DeleteSlice (ss_SliceHash (tt_SliceStorageInfo tTask))) n in
                  (is_ok r, n)
                else (false, n)
            | None => (false, n)
            end in
          SendReportBackupSliceResult e (rr_TaskId target) (rr_SliceHash target) (rr_SpP2PAddress target) true deleteOrigin totalCostTime n
    end.

Definition RspReportBackupSliceResult (verified : bool) (taskId sliceHash : string) (n : N) : N :=
  if negb verified then n else CleanTransferTask taskId sliceHash n.

Definition handleBackupTransferSend (tkSlice : TaskSlice) (costTime : Z) (n : N) : N :=
  FinishSendPacket (ts_TkSliceUID tkSlice) costTime n.

(** upload_slice.go and download_slice.go: a packet of an upload, of a download. *)
Definition handleUploadSend (tkSlice : TaskSlice) (costTime : Z) (n : N) : N :=
  let m := UpSendCostTimeMap (n_serving n) in
  match m !! ts_TkSliceUID tkSlice with
  | None => n
  | Some ori =>
      let new := mkStat (i64 (costTime + TotalCostTime ori)) (i64 (PacketCount ori - 1)) in
      if bool_decide (0 ≤ PacketCount new) then set_up_send (<[ts_TkSliceUID tkSlice := new]> m) n else n
  end.

Definition handleDownloadSend (e : Env) (tkSlice : TaskSlice) (costTime : Z) (n : N) : N :=
  let k := ts_TkSliceUID tkSlice in
  let new := finished_stat k costTime n in
  let n := FinishSendPacket k costTime n in
  if bool_decide (PacketCount new = 0) && bool_decide (0 < TotalCostTime new) then
    match downloadRspMap (n_serving n) !! k with
    | None => n
    | Some response =>
        let n := SendMessageToSPServer e (ToSPDownload response (TotalCostTime new)) n in
        let n := set_served (delete k (downloadRspMap (n_serving n))) ({[k]} ∪ DownloadSliceTaskMap (n_serving n)) n in
        DeleteRecord k n
    end
  else n.

(** The write hook: a packet has left the node, [costTime] milliseconds after it
    was queued.  The goroutines it starts work on maps of their own and run before
    the next packet here. *)
Definition HandleSendPacketCostTime (e : Env) (packetId costTime : Z) (n : N) : N :=
  if bool_decide (packetId ≤ 0) || bool_decide (costTime ≤ 0) then n
  else
    match PacketIdMap n !! packetId with
    | None => n
    | Some tkSlice =>
        let n := if bool_decide (ts_TkSliceUID tkSlice ≠ "")
                 then set_packets (delete packetId (PacketIdMap n)) (n_packets n) n else n in
        let slow := bool_decide (WriteTimeOut * 1000 < costTime) in
        let type := ts_SliceType tkSlice in
        let n :=
          if bool_decide (type = SliceUpload) then handleUploadSend tkSlice costTime n
          else if bool_decide (type = SliceDownload) then handleDownloadSend e tkSlice costTime n
          else if bool_decide (type = SliceBackup ∨ type = SliceTransfer) then
            let n := if slow then SendReportBackupSliceResult e (ts_TaskId tkSlice) (ts_SliceHash tkSlice)
                                    (ts_SpP2pAddress tkSlice) false (ts_OriginDeleted tkSlice) costTime n else n in
            handleBackupTransferSend tkSlice costTime n
          else n in
        if slow then emit Closed n else n
    end.

Definition report_timeout (e : Env) (n : N) (uid : string) : N :=
  match GetTransferTaskByTaskSliceUID uid n with
  | None => n
  | Some t =>
      let n := SendReportBackupSliceResult e (tt_TaskId t) (ss_SliceHash (tt_SliceStorageInfo t)) (tt_SpP2pAddress t) false false 0 n in
      CleanTransferTaskByTaskSliceUID uid n
  end.
Definition sendTransferFailureReportToSP (e : Env) (uids : list string) (n : N) : N := foldl (report_timeout e) n uids.
Definition CheckTransferTimeout (e : Env) (n : N) : N := sendTransferFailureReportToSP e (GetTimeoutTransfer (unix_now e) n) n.

(** ** verify_slice.go *)

Definition NoticeFileSliceVerify (e : Env) (verified : bool) (target : Notice) (n : N) : N :=
  if negb verified then n
  else if bool_decide (pp_P2PAddress (nt_PpInfo target) = self) then n
  else
    let tTask := mkTask (nt_TaskId target) true (nt_DeleteOrigin target) (nt_PpInfo target) (nt_SliceStorageInfo target)
                   (nt_FileHash target) (nt_SliceNumber target) (nt_ToP2PAddress target) (nt_SpP2PAddress target) 0 (unix_now e) in
    let n := AddVerifyTask (nt_TaskId target) (ss_SliceHash (nt_SliceStorageInfo target)) tTask n in
    if reach e (pp_NetworkAddress (nt_PpInfo target)) then emit (ToPPVerify (pp_NetworkAddress (nt_PpInfo target)) target) n else n.

Definition verify_packet (nt : Notice) (data : bytes) (offset sliceSize : Z) : RspData :=
  mkRspData (nt_TaskId nt) (Some data) offset sliceSize false (nt_SpP2PAddress nt) (ss_SliceHash (nt_SliceStorageInfo nt)) self
    (nt_SliceNumber nt).

Fixpoint send_verify_packets (e : Env) (nt : Notice) (sliceDataLen : Z) (buffer : list bytes) (dataStart dataEnd : Z) (n : N) : N :=
  match buffer with
  | [] => n
  | data :: buffer =>
      let sliceHash := ss_SliceHash (nt_SliceStorageInfo nt) in
      let tkSliceUID := nt_TaskId nt +:+ sliceHash in
      let '(packetId, n) := new_packet packet_id (mkTaskSlice tkSliceUID SliceTransfer (nt_TaskId nt) sliceHash (nt_SpP2PAddress nt) false) n in
      let n := emit (VerifyPacket packetId (verify_packet nt data dataStart sliceDataLen)) n in
      if bool_decide (sliceDataLen < dataEnd) then n
      else
        let n := (AddAlreadySizeToTransferTask (nt_TaskId nt) sliceHash (zlen data) (unix_now e) n).2 in
        send_verify_packets e nt sliceDataLen buffer (dataStart + MaxData) (dataEnd + MaxData) n
  end.

Definition ReqVerifyDownload (e : Env) (verified : bool) (nt : Notice) (newPp : string) (n : N) : N :=
  if negb verified then n
  else
    let tTask := mkTask "" false (nt_DeleteOrigin nt) (nt_PpInfo nt) (nt_SliceStorageInfo nt) (nt_FileHash nt)
                   (nt_SliceNumber nt) newPp (nt_SpP2PAddress nt) 0 0 in
    let sliceHash := ss_SliceHash (nt_SliceStorageInfo nt) in
    let n := AddVerifyTask (nt_TaskId nt) sliceHash tTask n in
    let '(sliceDataLen, buffer, n) := GetVerifySliceData_task (nt_TaskId nt) sliceHash n in
    send_verify_packets e nt sliceDataLen buffer 0 MaxData n.

Definition SendReportVerifyResult (e : Env) (taskId sliceHash spP2pAddress : string) (result : bool) (sliceSize : Z) (n : N) : N :=
  match GetVerifyTask taskId sliceHash n with
  | None => n
  | Some t =>
      let opponent := if tt_IsReceiver t then pp_P2PAddress (tt_PpInfo t) else tt_ReceiverP2pAddress t in
      SendMessageToSPServer e
        (ToSPVerify (mkReport taskId (tt_FileHash t) (ss_SliceHash (tt_SliceStorageInfo t)) result (tt_IsReceiver t) false
                       (tt_SliceNum t) sliceSize spP2pAddress 0 opponent)) n
  end.

Definition RspVerifyDownload (e : Env) (verified : bool) (target : RspData) (n : N) : N :=
  if negb verified || rd_failed target || bool_decide (rd_Data target = None) then n
  else
    match SaveVerifyData e target n with
    | (Ok true, n) =>
        let n := SendReportVerifyResult e (rd_TaskId target) (rd_SliceHash target) (rd_SpP2PAddress target) true (rd_SliceSize target) n in
        emit (VerifyDone (mkRspResult (rd_TaskId target) true (rd_SpP2PAddress target) (rd_SliceHash target))) n
    | (_, n) => n
    end.

End Node.

(** ** Moving a slice *)

Section Moving.
Context (rootPath : string) (l : list string) (MaxData : Z) {L : Mmap} (pool : Z → bytes) {H : HashLib}.
Context (packet_id : nat → Z).
Context (Hl : Forall name l) `{!MmapLaws L} (Hpool : ∀ n, 0 ≤ n → zlen (pool n) = n) (HM : 0 < MaxData).

#[local] Abbreviation no_err := (fun (_ : syscall) (_ : string) => false).
#[local] Abbreviation SaveTransferData := (SaveTransferData no_err (abs l)).
#[local] Abbreviation RspTransferDownload := (RspTransferDownload no_err (abs l)).
#[local] Abbreviation ReqTransferDownload := (ReqTransferDownload no_err rootPath (abs l) MaxData pool).
#[local] Abbreviation RspTransferDownloadResult := (RspTransferDownloadResult no_err (abs l)).
#[local] Abbreviation send_packets := (send_packets MaxData).
#[local] Abbreviation contents := (contents l).
#[local] Abbreviation tidy := (tidy l).

(** The packets of a slice and their offsets. *)
Definition packet_pieces (c : bytes) : list (Z * bytes) := packets_from MaxData (length c) 0 c.

Lemma packets_from_pieces fuel start c :
  0 ≤ start → zlen c < 2 ^ 62 → (length c - Z.to_nat start ≤ fuel)%nat →
  Forall (fun p => piece_of c p ∧ p.2 ≠ []) (packets_from MaxData fuel start (drop (Z.to_nat start) c))
  ∧ (∀ i, start ≤ Z.of_nat i → (i < length c)%nat →
       ∃ p, p ∈ packets_from MaxData fuel start (drop (Z.to_nat start) c) ∧ in_piece p i).
Proof.
  intros Hs Hc. revert start Hs. induction fuel as [|fuel IH]; intros start Hs Hf.
  { split; [constructor|]. intros i H1 H2. unfold zlen in *. lia. }
  destruct (drop (Z.to_nat start) c) as [|b r] eqn:Ed.
  { split; [constructor|]. intros i H1 H2. apply (f_equal length) in Ed. rewrite length_drop in Ed. cbn [length] in Ed. lia. }
  assert (Z.to_nat start < length c)%nat as Hlt.
  { apply (f_equal length) in Ed. rewrite length_drop in Ed. cbn [length] in Ed. lia. }
  cbn [packets_from]. rewrite <- Ed, drop_drop. replace (Z.to_nat start + Z.to_nat MaxData)%nat with (Z.to_nat (start + MaxData)) by lia.
  destruct (IH (start + MaxData) ltac:(lia) ltac:(lia)) as [IH1 IH2].
  set (d := take (Z.to_nat MaxData) (drop (Z.to_nat start) c)).
  assert (length d = Nat.min (Z.to_nat MaxData) (length c - Z.to_nat start)) as Hd by (unfold d; rewrite length_take, length_drop; lia).
  split.
  - constructor; [|done]. cbn [fst snd]. unfold piece_of, zlen in *. cbn [fst snd]. split_and!; [lia|lia|lia| |].
    + rewrite Hd. unfold d. destruct (Nat.min_spec (Z.to_nat MaxData) (length c - Z.to_nat start)) as [[Hmm ->]|[Hmm ->]]; [done|].
      rewrite !take_ge; [done|rewrite length_drop; lia..].
    + intros E. apply (f_equal length) in E. cbn [length] in E. lia.
  - intros i H1 H2. destruct (decide (Z.of_nat i < start + MaxData)) as [Hi|Hi].
    + exists (start, d). split; [by left|]. unfold in_piece, zlen. cbn [fst snd]. lia.
    + destruct (IH2 i ltac:(lia) H2) as (p & Hp & Hin). exists p. split; [by right|done].
Qed.

Definition total (ps : list (Z * bytes)) : Z := foldr (fun p z => zlen p.2 + z) 0 ps.

Lemma total_app ps qs : total (ps ++ qs) = total ps + total qs.
Proof. unfold total. induction ps as [|p ps IH]; cbn [app foldr]; lia. Qed.

Lemma total_permuted ps qs : ps ≡ₚ qs → total ps = total qs.
Proof.
  unfold total. induction 1 as [|p ps qs _ IH|p q ps|ps qs rs _ IH1 _ IH2]; cbn [foldr]; lia.
Qed.

Lemma total_concat ps : total ps = zlen (concat (map snd ps)).
Proof. unfold total. induction ps as [|p ps IH]; [done|]. cbn [foldr map concat]. rewrite zlen_app. lia. Qed.

Lemma packet_pieces_ok c :
  zlen c < 2 ^ 62 →
  Forall (fun p => piece_of c p ∧ p.2 ≠ []) (packet_pieces c) ∧ covers c (packet_pieces c)
  ∧ total (packet_pieces c) = zlen c ∧ map snd (packet_pieces c) = chop (Z.to_nat MaxData) c.
Proof.
  intros Hc. destruct (packets_from_pieces (length c) 0 c ltac:(lia) Hc ltac:(lia)) as [H1 H2].
  rewrite drop_0 in *. split_and!; [done| | |apply snd_packets_from].
  - intros i Hi. by apply H2; lia.
  - unfold packet_pieces. rewrite total_concat, snd_packets_from. rewrite concat_chop_fuel by lia. done.
Qed.

(** *** The receiver *)

Lemma SaveTransferData_step e m n t c w off d :
  let hash := ss_SliceHash (tt_SliceStorageInfo t) in
  transferTaskMap n !! (rd_TaskId m +:+ rd_SliceHash m) = Some t →
  good_hash hash → tidy (n_fs n) → rd_Data m = Some d → rd_Offset m = off → rd_SliceSize m = zlen c →
  ss_SliceSize (tt_SliceStorageInfo t) = zlen c → zlen c < 2 ^ 62 →
  0 ≤ tt_AlreadySize t → tt_AlreadySize t + zlen d ≤ zlen c →
  agrees c (default [] (contents (n_fs n) hash)) w → (∀ i, w i → (i < length c)%nat) → piece_of c (off, d) →
  ∃ n' t', transferTaskMap n' = <[rd_TaskId m +:+ rd_SliceHash m := t']> (transferTaskMap n)
    ∧ t' = add_size (zlen d) (unix_now e) t ∧ tt_AlreadySize t' = tt_AlreadySize t + zlen d
    ∧ tidy (n_fs n') ∧ outbox n' = outbox n
    ∧ agrees c (default [] (contents (n_fs n') hash)) (fun i => w i ∨ in_piece (off, d) i)
    ∧ (∀ q, q ≠ place l hash → fs_files (n_fs n') !! q = fs_files (n_fs n) !! q)
    ∧ (tt_AlreadySize t + zlen d < zlen c → SaveTransferData e m n = (Ok false, n'))
    ∧ ((∀ i, (i < length c)%nat → w i ∨ in_piece (off, d) i) → tt_AlreadySize t + zlen d = zlen c →
       CalcSliceHash c (tt_FileHash t) (tt_SliceNum t) = Ok hash →
       contents (n_fs n') hash = Some c ∧ SaveTransferData e m n = (Ok true, n')).
Proof.
  intros hash Ht Hh Htidy Hd Ho Hsz Hss Hc Ha0 Ha1 Hag Hw Hp.
  pose proof Hp as (Hoff & _). cbn [fst] in Hoff.
  destruct (SaveSliceData_ok l Hl d hash off (n_fs n) Hh Htidy Hoff) as (fs1 & E1 & T1 & F1).
  set (f1 := write_at (default [] (contents (n_fs n) hash)) (Z.to_nat off) d) in *.
  assert (contents fs1 hash = Some f1) as C1 by (unfold Storage.contents; by rewrite F1, lookup_insert_eq).
  destruct (GetSliceSize_ok l Hl hash fs1 f1 Hh C1) as (fs2 & E2 & F2 & T2).
  assert (contents fs2 hash = Some f1) as C2 by (unfold Storage.contents; by rewrite F2).
  destruct (GetSliceData_ok l Hl hash fs2 f1 Hh C2) as (fs3 & E3 & F3 & T3).
  assert (contents fs3 hash = Some f1) as C3 by (unfold Storage.contents; by rewrite F3).
  set (t' := add_size (zlen d) (unix_now e) t).
  assert (tt_AlreadySize t' = tt_AlreadySize t + zlen d) as At'.
  { unfold t', add_size. cbn [tt_AlreadySize]. pose proof (zlen_nonneg d). apply wrapu_id. unfold in_u. lia. }
  pose proof (agrees_write c _ w (off, d) Hag Hw Hp) as Hag1. cbn [fst snd] in Hag1. fold f1 in Hag1.
  set (key := rd_TaskId m +:+ rd_SliceHash m) in *.
  set (full := bool_decide (zlen f1 < zlen c) || bool_decide (tt_AlreadySize t' < zlen c)).
  exists (set_fs (if full then fs2 else fs3) (set_tasks (<[key := t']> (transferTaskMap n)) (set_fs fs1 n))), t'.
  assert (SaveTransferData e m n = if full then (Ok false, set_fs fs2 (set_tasks (<[key := t']> (transferTaskMap n)) (set_fs fs1 n)))
    else match CalcSliceHash f1 (tt_FileHash t) (tt_SliceNum t) with
         | Ok s => if bool_decide (hash ≠ s)
                   then (Err "whole slice received, but slice hash doesn't match", set_fs fs3 (set_tasks (<[key := t']> (transferTaskMap n)) (set_fs fs1 n)))
                   else (Ok true, set_fs fs3 (set_tasks (<[key := t']> (transferTaskMap n)) (set_fs fs1 n)))
         | Err s => (Err s, set_fs fs3 (set_tasks (<[key := t']> (transferTaskMap n)) (set_fs fs1 n)))
         | Panic s => (Panic s, set_fs fs3 (set_tasks (<[key := t']> (transferTaskMap n)) (set_fs fs1 n)))
         end) as ES.
  { unfold Transfer.SaveTransferData, GetTransferTask. fold key. rewrite Ht, Hd, Ho. cbn [default id]. fold hash.
    unfold run_fs at 1. rewrite E1. unfold AddAlreadySizeToTransferTask. fold key. cbn [transferTaskMap set_fs]. rewrite Ht. fold t'.
    change (ss_SliceHash (tt_SliceStorageInfo t')) with hash. unfold run_fs at 1. cbn [n_fs set_tasks set_fs]. rewrite E2.
    change (ss_SliceSize (tt_SliceStorageInfo t')) with (ss_SliceSize (tt_SliceStorageInfo t)). rewrite Hss, Hsz. fold full.
    destruct full; [done|]. unfold run_fs. cbn [n_fs set_tasks set_fs]. rewrite E3. done. }
  split_and!; try done.
  - by destruct full; auto.
  - destruct full; cbn [n_fs set_fs]; [rewrite C2|rewrite C3]; done.
  - intros q Hq. assert (fs_files fs1 !! q = fs_files (n_fs n) !! q) as <- by (by rewrite F1, lookup_insert_ne).
    destruct full; cbn [n_fs set_fs]; by rewrite ?F3, F2.
  - intros Hlt. rewrite ES. unfold full. rewrite (bool_decide_eq_true_2 (tt_AlreadySize t' < _)) by lia. by rewrite orb_true_r.
  - intros Hall Heq HC. assert (f1 = c) as Efc by (by apply (agrees_all _ _ _ Hag1)).
    assert (full = false) as Hfull.
    { unfold full. rewrite Efc. rewrite !bool_decide_eq_false_2 by lia. done. }
    rewrite ES, Hfull. cbn [n_fs set_fs]. rewrite C3, Efc, HC, bool_decide_eq_false_2 by auto. done.
Qed.

Lemma AddCostTime_frame k cost n :
  let n' := (AddCostTime k cost n).2 in
  transferTaskMap n' = transferTaskMap n ∧ n_fs n' = n_fs n ∧ outbox n' = outbox n.
Proof. unfold AddCostTime. cbn [snd]. by case_bool_decide. Qed.

(** The message that carries a piece of [c]. *)
Definition piece_msg (sender : string) (nt : Notice) (c : bytes) (p : Z * bytes) : RspData :=
  transfer_packet sender nt p.2 p.1 (zlen c).

(** Messages handled one after the other, each at its own time. *)
Definition deliver (qs : list (Env * Z * RspData)) (n : N) : N :=
  foldl (fun n q => RspTransferDownload q.1.1 true q.1.2 q.2 n) n qs.

(** The task a notice makes on the receiving node, up to what has come in. *)
Definition receiving (nt : Notice) (t : TransferTask) : Prop :=
  tt_IsReceiver t = true ∧ tt_SliceStorageInfo t = nt_SliceStorageInfo nt ∧ tt_FileHash t = nt_FileHash nt
  ∧ tt_SliceNum t = nt_SliceNumber nt ∧ tt_PpInfo t = nt_PpInfo nt.

Definition slice_report (nt : Notice) (receiver : bool) (opponent : string) (deleted : bool) (cost : Z) : Report :=
  mkReport (nt_TaskId nt) (nt_FileHash nt) (ss_SliceHash (nt_SliceStorageInfo nt)) true receiver deleted
    (nt_SliceNumber nt) (ss_SliceSize (nt_SliceStorageInfo nt)) (nt_SpP2PAddress nt) cost opponent.
Definition done_msg (nt : Notice) : RspResult :=
  mkRspResult (nt_TaskId nt) true (nt_SpP2PAddress nt) (ss_SliceHash (nt_SliceStorageInfo nt)).

Lemma deliver_ok sender nt c qs ps n t w :
  let hash := ss_SliceHash (nt_SliceStorageInfo nt) in
  map snd qs = map (piece_msg sender nt c) ps → ps ≠ [] → Forall (fun q => sp_connected q.1.1 = true) qs →
  Forall (fun p => piece_of c p ∧ p.2 ≠ []) ps →
  good_hash hash → ss_SliceSize (nt_SliceStorageInfo nt) = zlen c → zlen c < 2 ^ 62 →
  CalcSliceHash c (nt_FileHash nt) (nt_SliceNumber nt) = Ok hash →
  tidy (n_fs n) → transferTaskMap n !! (nt_TaskId nt +:+ hash) = Some t → receiving nt t →
  0 ≤ tt_AlreadySize t → tt_AlreadySize t = zlen c - total ps →
  agrees c (default [] (contents (n_fs n) hash)) w → (∀ i, w i → (i < length c)%nat) →
  (∀ i, (i < length c)%nat → w i ∨ ∃ p, p ∈ ps ∧ in_piece p i) →
  contents (n_fs (deliver qs n)) hash = Some c
  ∧ (∃ cost, outbox (deliver qs n)
       = outbox n ++ [ToSP (slice_report nt true (pp_P2PAddress (nt_PpInfo nt)) false cost); Done (done_msg nt)])
  ∧ ∀ q, q ≠ place l hash → fs_files (n_fs (deliver qs n)) !! q = fs_files (n_fs n) !! q.
Proof.
  intros hash. revert qs n t w. induction ps as [|p ps IH]; intros qs n t w Hqs Hne Hsp Hps Hh Hss Hc HC Htidy Ht Hrec Ha0 Ha Hag Hw Hcov; [done|].
  destruct qs as [|[[e cost] m] qs]; [done|]. cbn [map snd] in Hqs. injection Hqs as -> Hqs.
  apply Forall_cons_iff in Hsp as [Hsp1 Hsp]. apply Forall_cons_iff in Hps as [[Hp Hpne] Hps]. cbn [fst] in Hsp1.
  destruct p as [off d]. cbn [snd] in Hpne. pose proof Hrec as (R1 & R2 & R3 & R4 & R5).
  assert (total ((off, d) :: ps) = zlen d + total ps) as Et by done.
  assert (0 ≤ total ps) as Htot. { rewrite total_concat. apply zlen_nonneg. }
  set (n1 := (AddCostTime (nt_TaskId nt +:+ hash) cost n).2). destruct (AddCostTime_frame (nt_TaskId nt +:+ hash) cost n) as (F1 & F2 & F3).
  fold n1 in F1, F2, F3.
  destruct (SaveTransferData_step e (piece_msg sender nt c (off, d)) n1 t c w off d) as (n' & t' & G1 & G2 & G3 & G4 & G5 & G6 & G7 & G8 & G9);
    rewrite ?F1, ?F2, ?R2; try done.
  { fold hash. lia. }
  rewrite R2 in *. fold hash in G6, G7, G9. unfold piece_msg in G1. cbn [rd_TaskId rd_SliceHash transfer_packet] in G1. fold hash in G1.
  assert (∀ b, SaveTransferData e (piece_msg sender nt c (off, d)) n1 = (Ok b, n') →
    RspTransferDownload e true cost (piece_msg sender nt c (off, d)) n
    = if b then emit (Done (done_msg nt)) (SendReportBackupSliceResult e (nt_TaskId nt) hash (nt_SpP2PAddress nt) true false
                                            (AddCostTime (nt_TaskId nt +:+ hash) cost n).1 n')
      else n') as Hstep.
  { intros b E. unfold Transfer.RspTransferDownload.
    change (rd_failed (piece_msg sender nt c (off, d))) with false. change (rd_Data (piece_msg sender nt c (off, d))) with (Some d).
    rewrite bool_decide_eq_false_2 by done. cbn [negb orb].
    change (rd_TaskId (piece_msg sender nt c (off, d))) with (nt_TaskId nt). change (rd_SliceHash (piece_msg sender nt c (off, d))) with hash.
    change (rd_SpP2PAddress (piece_msg sender nt c (off, d))) with (nt_SpP2PAddress nt).
    rewrite (surjective_pairing (AddCostTime _ _ _)). fold n1. rewrite E. by destruct b. }
  cbn [deliver foldl fst snd]. fold (deliver qs).
  change (transfer_packet sender nt d off (zlen c)) with (piece_msg sender nt c (off, d)).
  destruct ps as [|p' ps'].
  - destruct qs; [|done]. change (total []) with 0 in Et.
    destruct G9 as [G9 E]; [|lia|by rewrite R3, R4|].
    { intros i Hi. destruct (Hcov i Hi) as [Hi'|(p & Hin & Hi')]; [by left|right]. by apply list_elem_of_singleton in Hin as ->. }
    rewrite (Hstep true E). cbn [deliver foldl]. unfold SendReportBackupSliceResult, GetTransferTask. rewrite G1, lookup_insert_eq.
    rewrite G2. cbn [add_size tt_IsReceiver tt_PpInfo tt_FileHash tt_SliceStorageInfo tt_SliceNum]. rewrite R1, R2, R3, R4, R5.
    unfold SendMessageToSPServer. rewrite Hsp1. split_and!; [exact G9| |].
    + eexists. cbn [emit outbox]. rewrite G5, F3, <- app_assoc. done.
    + intros q Hq. cbn [emit n_fs]. rewrite G7, F2 by done. done.
  - assert (0 < total (p' :: ps')) as Hpos.
    { apply Forall_cons_iff in Hps as [[_ Hne'] _]. cbn [total foldr]. fold (total ps').
      assert (0 ≤ total ps') by (rewrite total_concat; apply zlen_nonneg).
      assert (0 < zlen p'.2) by (unfold zlen; destruct p'.2; [done|cbn; lia]). lia. }
    rewrite (Hstep false (G8 ltac:(lia))).
    assert (transferTaskMap n' !! (nt_TaskId nt +:+ hash) = Some t') as Ht' by (by rewrite G1, lookup_insert_eq).
    destruct (IH qs n' t' (fun i => w i ∨ in_piece (off, d) i)) as (K1 & (cost' & K2) & K3); try done.
    + by subst t'.
    + pose proof (zlen_nonneg d); lia.
    + lia.
    + intros i [Hi|Hi]; [by apply Hw|]. destruct Hp as (? & ? & _). unfold in_piece, zlen in *. cbn [fst snd] in *. lia.
    + intros i Hi. destruct (Hcov i Hi) as [Hi'|(p & Hin & Hi')]; [by do 2 left|].
      apply elem_of_cons in Hin as [->|Hin]; [by left; right|]. right. by exists p.
    + unfold deliver in K1, K2, K3. split_and!; [exact K1| |].
      * exists cost'. by rewrite K2, G5, F3.
      * intros q Hq. rewrite K3, G7, F2 by done. done.
Qed.

(** *** The sender *)

Context (Hids : ∀ i j, packet_id i = packet_id j → i = j) (Hpos : ∀ i, 0 < packet_id i).

(** The task a request makes on the sending node. *)
Definition sending (nt : Notice) (newPp : string) (t : TransferTask) : Prop :=
  tt_IsReceiver t = false ∧ tt_DeleteOrigin t = nt_DeleteOrigin nt ∧ tt_SliceStorageInfo t = nt_SliceStorageInfo nt
  ∧ tt_FileHash t = nt_FileHash nt ∧ tt_SliceNum t = nt_SliceNumber nt ∧ tt_ReceiverP2pAddress t = newPp.

Definition uid (nt : Notice) : string := nt_TaskId nt +:+ ss_SliceHash (nt_SliceStorageInfo nt).
Definition packet_note (nt : Notice) : TaskSlice :=
  mkTaskSlice (uid nt) SliceTransfer (nt_TaskId nt) (ss_SliceHash (nt_SliceStorageInfo nt)) (nt_SpP2PAddress nt) false.

(** The packets of the pieces, with the ids from the [k]-th on. *)
Fixpoint numbered (sender : string) (nt : Notice) (c : bytes) (k : nat) (ps : list (Z * bytes)) : list (Z * RspData) :=
  match ps with [] => [] | p :: ps => (packet_id k, piece_msg sender nt c p) :: numbered sender nt c (S k) ps end.

Lemma numbered_snd sender nt c k ps : map snd (numbered sender nt c k ps) = map (piece_msg sender nt c) ps.
Proof. revert k. induction ps as [|p ps IH]; intros k; cbn; [done|]. by rewrite IH. Qed.
Lemma numbered_fst sender nt c k ps : map fst (numbered sender nt c k ps) = map packet_id (seq k (length ps)).
Proof. revert k. induction ps as [|p ps IH]; intros k; cbn; [done|]. by rewrite IH. Qed.

Lemma send_packets_ok e self nt c newPp fuel start n t :
  let ps := packets_from MaxData fuel start (drop (Z.to_nat start) c) in
  let n' := send_packets self packet_id e nt (zlen c) (map snd ps) start (start + MaxData) n in
  let before := default stat0 (DownSendCostTimeMap n !! uid nt) in
  0 ≤ start → zlen c < 2 ^ 62 → (length c - Z.to_nat start ≤ fuel)%nat →
  transferTaskMap n !! uid nt = Some t → sending nt newPp t →
  0 ≤ PacketCount before → PacketCount before + Z.of_nat (length ps) < 2 ^ 63 →
  n_fs n' = n_fs n
  ∧ outbox n' = outbox n ++ map (fun p => Packet p.1 p.2) (numbered self nt c (n_packets n) ps)
  ∧ (∃ t', transferTaskMap n' !! uid nt = Some t' ∧ sending nt newPp t')
  ∧ (ps ≠ [] → DownSendCostTimeMap n' !! uid nt = Some (mkStat (TotalCostTime before) (PacketCount before + Z.of_nat (length ps))))
  ∧ (∀ j, (n_packets n ≤ j < n_packets n + length ps)%nat → PacketIdMap n' !! packet_id j = Some (packet_note nt))
  ∧ (∀ j, (j < n_packets n)%nat → PacketIdMap n' !! packet_id j = PacketIdMap n !! packet_id j).
Proof.
  cbv zeta. intros Hs Hc. revert start n t Hs.
  induction fuel as [|fuel IH]; intros start n t Hs Hf Ht Hsend Hb0 Hb1.
  { cbn. rewrite app_nil_r. split_and!; try done; [by exists t|]. intros j Hj. lia. }
  destruct (drop (Z.to_nat start) c) as [|b r] eqn:Ed.
  { cbn. rewrite app_nil_r. split_and!; try done; [by exists t|]. intros j Hj. lia. }
  cbn [packets_from]. rewrite <- Ed, drop_drop. replace (Z.to_nat start + Z.to_nat MaxData)%nat with (Z.to_nat (start + MaxData)) by lia.
  set (d := take (Z.to_nat MaxData) (drop (Z.to_nat start) c)).
  set (ps := packets_from MaxData fuel (start + MaxData) (drop (Z.to_nat (start + MaxData)) c)) in *.
  set (before := default stat0 (DownSendCostTimeMap n !! uid nt)) in *.
  cbn [packets_from length] in Hb1. rewrite <- Ed, drop_drop in Hb1.
  replace (Z.to_nat start + Z.to_nat MaxData)%nat with (Z.to_nat (start + MaxData)) in Hb1 by lia. fold ps in Hb1.
  cbn [map snd send_packets]. unfold new_packet. fold (uid nt). fold (packet_note nt).
  set (n1 := emit _ (StartSendPacket _ _)).
  assert (DownSendCostTimeMap n1 !! uid nt = Some (mkStat (TotalCostTime before) (PacketCount before + 1))) as D1.
  { unfold n1, StartSendPacket. cbn [emit DownSendCostTimeMap set_send set_packets]. fold before. rewrite lookup_insert_eq.
    do 2 f_equal. apply wraps_id; [lia|]. unfold in_s. lia. }
  assert (PacketIdMap n1 = <[packet_id (n_packets n) := packet_note nt]> (PacketIdMap n)) as P1 by done.
  assert (n_packets n1 = S (n_packets n)) as K1 by done.
  assert (outbox n1 = outbox n ++ [Packet (packet_id (n_packets n)) (piece_msg self nt c (start, d))]) as O1 by done.
  assert (transferTaskMap n1 = transferTaskMap n) as T1 by done. assert (n_fs n1 = n_fs n) as S1 by done.
  clearbody n1. case_bool_decide as Hend.
  - assert (ps = []) as ->.
    { unfold ps. rewrite drop_ge by (unfold zlen in *; lia). by destruct fuel. }
    cbn [numbered map length fst snd]. rewrite D1, T1, P1, O1, S1. split_and!; try done.
    + by exists t.
    + intros j Hj. assert (j = n_packets n) as -> by lia. by rewrite lookup_insert_eq.
    + intros j Hj. rewrite lookup_insert_ne; [done|]. intros E. apply Hids in E. lia.
  - unfold AddAlreadySizeToTransferTask. fold (uid nt). rewrite T1, Ht. cbn [snd].
    set (t1 := add_size _ _ t). set (n2 := set_tasks _ n1).
    destruct (IH (start + MaxData) n2 t1) as (I1 & I2 & I3 & I4 & I5 & I6); try done; try lia.
    + unfold n2. cbn [transferTaskMap set_tasks]. by rewrite lookup_insert_eq.
    + unfold n2. cbn [DownSendCostTimeMap set_tasks]. rewrite D1. cbn. lia.
    + unfold n2. cbn [DownSendCostTimeMap set_tasks]. rewrite D1. cbn [default id PacketCount]. fold ps. lia.
    + fold ps in I1, I2, I3, I4, I5, I6. cbn [numbered map fst snd]. cbn [n2 n_packets set_tasks] in *.
      rewrite K1 in *. split_and!.
      * by rewrite I1.
      * rewrite I2. cbn [n2 outbox set_tasks]. rewrite O1, <- app_assoc. done.
      * exact I3.
      * intros _. cbn [length]. destruct (decide (ps = [])) as [E|E].
        { rewrite E. cbn [send_packets map]. unfold n2. cbn [DownSendCostTimeMap set_tasks]. rewrite D1. done. }
        rewrite (I4 E). unfold n2. cbn [DownSendCostTimeMap set_tasks]. rewrite D1. cbn [default id TotalCostTime PacketCount].
        do 2 f_equal. lia.
      * intros j Hj. cbn [length] in Hj. destruct (decide (j = n_packets n)) as [->|Hne]; [|apply I5; lia].
        rewrite I6 by lia. unfold n2. cbn [PacketIdMap set_tasks]. by rewrite P1, lookup_insert_eq.
      * intros j Hj. rewrite I6 by lia. unfold n2. cbn [PacketIdMap set_tasks]. rewrite P1, lookup_insert_ne; [done|].
        intros E. apply Hids in E. lia.
Qed.

(** The packets leave the node one after the other; [js] are the numbers of their
    ids, each with the milliseconds it took. *)
Definition packets_sent (e : Env) (js : list (nat * Z)) (n : N) : N :=
  foldl (fun n jc => HandleSendPacketCostTime e (packet_id jc.1) jc.2 n) n js.

Lemma packets_sent_ok e nt js n T C :
  uid nt ≠ "" → NoDup (map fst js) → Forall (fun jc => 0 < jc.2 ≤ WriteTimeOut * 1000) js →
  (∀ j, j ∈ map fst js → PacketIdMap n !! packet_id j = Some (packet_note nt)) →
  DownSendCostTimeMap n !! uid nt = Some (mkStat T C) → Z.of_nat (length js) ≤ C < 2 ^ 62 →
  0 ≤ T → T + foldr Z.add 0 (map snd js) < 2 ^ 62 →
  let n' := packets_sent e js n in
  n_fs n' = n_fs n ∧ transferTaskMap n' = transferTaskMap n ∧ outbox n' = outbox n
  ∧ DownSendCostTimeMap n' !! uid nt = Some (mkStat (T + foldr Z.add 0 (map snd js)) (C - Z.of_nat (length js))).
Proof.
  intros Hu. revert n T C. induction js as [|[j cost] js IH]; intros n T C Hnd Hcost Hnote Hstat HC HT Hsum.
  { cbn. split_and!; try done. rewrite Hstat. do 2 f_equal; lia. }
  cbn [map fst snd foldr length] in *. apply list.NoDup_cons in Hnd as [Hj Hnd]. apply Forall_cons_iff in Hcost as [Hc Hcost].
  cbn [snd] in Hc. assert (0 ≤ foldr Z.add 0 (map snd js)) as Hnn.
  { clear -Hcost. induction Hcost as [|[j c] js Hjc _ IH]; cbn in *; lia. }
  cbn [packets_sent foldl fst snd]. fold (packets_sent e js).
  set (n1 := HandleSendPacketCostTime e (packet_id j) cost n).
  assert (n_fs n1 = n_fs n ∧ transferTaskMap n1 = transferTaskMap n ∧ outbox n1 = outbox n
    ∧ PacketIdMap n1 = delete (packet_id j) (PacketIdMap n)
    ∧ DownSendCostTimeMap n1 !! uid nt = Some (mkStat (T + cost) (C - 1))) as (E1 & E2 & E3 & E4 & E5).
  { unfold n1, HandleSendPacketCostTime. rewrite (bool_decide_eq_false_2 (packet_id j ≤ 0)) by (pose proof (Hpos j); lia).
    rewrite (bool_decide_eq_false_2 (cost ≤ 0)) by lia. cbn [orb]. rewrite Hnote by (by left).
    cbn [packet_note ts_TkSliceUID ts_SliceType]. rewrite (bool_decide_eq_true_2 (uid nt ≠ "")) by done.
    rewrite (bool_decide_eq_false_2 (SliceTransfer = SliceUpload)), (bool_decide_eq_false_2 (SliceTransfer = SliceDownload)) by done.
    rewrite (bool_decide_eq_true_2 (SliceTransfer = SliceBackup ∨ SliceTransfer = SliceTransfer)) by (by right).
    rewrite (bool_decide_eq_false_2 (WriteTimeOut * 1000 < cost)) by lia.
    unfold handleBackupTransferSend, FinishSendPacket. cbn [packet_note ts_TkSliceUID DownSendCostTimeMap set_packets]. rewrite Hstat.
    cbn [TotalCostTime PacketCount]. rewrite !(wraps_id 64) by (unfold in_s; lia). rewrite bool_decide_eq_true_2 by lia.
    cbn [n_fs transferTaskMap outbox PacketIdMap DownSendCostTimeMap set_send set_packets]. by rewrite lookup_insert_eq. }
  destruct (IH n1 (T + cost) (C - 1)) as (I1 & I2 & I3 & I4); try done; try lia.
  { intros j' Hj'. rewrite E4, lookup_delete_ne; [apply Hnote; by right|]. intros E. apply Hids in E as ->. by apply Hj. }
  unfold packets_sent in *. rewrite I1, I2, I3, I4, E1, E2, E3. split_and!; try done. do 2 f_equal; lia.
Qed.

Lemma RspTransferDownloadResult_ok e nt newPp n t c cost :
  transferTaskMap n !! uid nt = Some t → sending nt newPp t → sp_connected e = true →
  good_hash (ss_SliceHash (nt_SliceStorageInfo nt)) → contents (n_fs n) (ss_SliceHash (nt_SliceStorageInfo nt)) = Some c →
  DownSendCostTimeMap n !! uid nt = Some (mkStat cost 0) → 0 < cost →
  let n' := RspTransferDownloadResult e true (done_msg nt) n in
  outbox n' = outbox n ++ [ToSP (slice_report nt false newPp (nt_DeleteOrigin nt) cost)]
  ∧ contents (n_fs n') (ss_SliceHash (nt_SliceStorageInfo nt)) = (if nt_DeleteOrigin nt then None else Some c)
  ∧ ∀ q, q ≠ place l (ss_SliceHash (nt_SliceStorageInfo nt)) → fs_files (n_fs n') !! q = fs_files (n_fs n) !! q.
Proof.
  intros Ht (S1 & S2 & S3 & S4 & S5 & S6) Hsp Hh Hc Hstat Hcost. cbv zeta.
  unfold Transfer.RspTransferDownloadResult, GetCompletedTotalCostTime, done_msg. cbn [negb rr_TaskId rr_SliceHash rr_success rr_SpP2PAddress].
  change (nt_TaskId nt +:+ ss_SliceHash (nt_SliceStorageInfo nt)) with (uid nt). rewrite Hstat. cbn [PacketCount TotalCostTime].
  rewrite !bool_decide_eq_true_2 by done. cbn [andb]. unfold GetTransferTask.
  change (nt_TaskId nt +:+ ss_SliceHash (nt_SliceStorageInfo nt)) with (uid nt). rewrite Ht, S2, S3.
  assert (∀ n1 b, transferTaskMap n1 = transferTaskMap n →
    SendReportBackupSliceResult e (nt_TaskId nt) (ss_SliceHash (nt_SliceStorageInfo nt)) (nt_SpP2PAddress nt) true b cost n1
    = emit (ToSP (slice_report nt false newPp b cost)) n1) as Hrep.
  { intros n1 b E. unfold SendReportBackupSliceResult, GetTransferTask.
    change (nt_TaskId nt +:+ ss_SliceHash (nt_SliceStorageInfo nt)) with (uid nt). rewrite E, Ht. unfold SendMessageToSPServer.
    by rewrite Hsp, S1, S3, S4, S5, S6. }
  destruct (nt_DeleteOrigin nt).
  - destruct (DeleteSlice_ok l Hl _ (n_fs n) c Hh Hc) as (fs' & Ed & Ef & _). unfold run_fs. rewrite Ed. cbn [is_ok].
    rewrite (Hrep (set_fs fs' n) true) by done. split_and!; [done| |].
    + unfold Storage.contents. cbn [emit n_fs set_fs]. rewrite Ef. apply lookup_delete_eq.
    + intros q Hq. cbn [emit n_fs set_fs]. rewrite Ef. by apply lookup_delete_ne.
  - by rewrite (Hrep n false).
Qed.

Lemma length_packet_pieces c : zlen c < 2 ^ 62 → (length (packet_pieces c) ≤ length c)%nat.
Proof.
  intros Hc. destruct (packet_pieces_ok c Hc) as (P1 & _ & P3 & _).
  assert (∀ ps, Forall (fun p => piece_of c p ∧ p.2 ≠ []) ps → Z.of_nat (length ps) ≤ total ps) as Hp.
  { induction 1 as [|[o [|b d]] ps [_ Hp] _ IH]; [done|done|]. unfold total, zlen in *. cbn [foldr length snd]. lia. }
  specialize (Hp _ P1). unfold zlen in *. lia.
Qed.

Lemma packet_pieces_nonempty c : zlen c < 2 ^ 62 → c ≠ [] → packet_pieces c ≠ [].
Proof.
  intros Hc Hne E. destruct (packet_pieces_ok c Hc) as (_ & _ & P3 & _). rewrite E in P3. change (total []) with 0 in P3.
  destruct c; [done|]. unfold zlen in P3. cbn [length] in P3. lia.
Qed.

Lemma sum_costs costs :
  Forall (fun ms => 0 < ms ≤ WriteTimeOut * 1000) costs →
  Z.of_nat (length costs) ≤ foldr Z.add 0 costs ≤ 60000 * Z.of_nat (length costs).
Proof. induction 1 as [|x k Hx _ IH]; [done|]. unfold WriteTimeOut in *. cbn [foldr length]. lia. Qed.

Lemma uid_nonempty nt : good_hash (ss_SliceHash (nt_SliceStorageInfo nt)) → uid nt ≠ "".
Proof.
  intros [_ Hh]. unfold uid. destruct (nt_TaskId nt); [|done]. intros E.
  change ("" +:+ ?x) with x in E. rewrite E in Hh. cbn in Hh. lia.
Qed.

(** The notice makes a task on the receiver and a request to the sender. *)
Lemma NoticeFileSliceBackup_ok e self nt n :
  pp_P2PAddress (nt_PpInfo nt) ≠ self → reach e (pp_NetworkAddress (nt_PpInfo nt)) = true →
  let n' := NoticeFileSliceBackup self e true nt n in
  (∃ t, transferTaskMap n' !! uid nt = Some t ∧ receiving nt t ∧ tt_AlreadySize t = 0)
  ∧ n_fs n' = n_fs n ∧ outbox n' = outbox n ++ [ToPP (pp_NetworkAddress (nt_PpInfo nt)) nt].
Proof.
  intros Hs Hr. unfold NoticeFileSliceBackup. cbn [negb]. rewrite bool_decide_eq_false_2 by done. rewrite Hr.
  cbn [emit transferTaskMap AddTransferTask set_tasks]. fold (uid nt). rewrite lookup_insert_eq. split_and!; try done. by eexists.
Qed.

(** The request makes a task on the sender and the packets of the slice. *)
Lemma ReqTransferDownload_ok e self nt newPp n c :
  let hash := ss_SliceHash (nt_SliceStorageInfo nt) in
  good_hash hash → zlen c < 2 ^ 62 → contents (n_fs n) hash = Some c → spam_key nt ∉ transferSliceSpamCheckMap n →
  DownSendCostTimeMap n !! uid nt = None →
  let n' := ReqTransferDownload self packet_id e true nt newPp n in
  let pkts := numbered self nt c (n_packets n) (packet_pieces c) in
  fs_files (n_fs n') = fs_files (n_fs n)
  ∧ outbox n' = outbox n ++ map (fun p => Packet p.1 p.2) pkts
  ∧ (∃ t, transferTaskMap n' !! uid nt = Some t ∧ sending nt newPp t)
  ∧ (packet_pieces c ≠ [] → DownSendCostTimeMap n' !! uid nt = Some (mkStat 0 (Z.of_nat (length (packet_pieces c)))))
  ∧ (∀ j, (n_packets n ≤ j < n_packets n + length (packet_pieces c))%nat → PacketIdMap n' !! packet_id j = Some (packet_note nt)).
Proof.
  intros hash Hh Hc Hcont Hspam Hstat. destruct (packet_pieces_ok c Hc) as (_ & _ & _ & P4).
  pose proof (length_packet_pieces c Hc) as Plen.
  set (t0 := mkTask "" false (nt_DeleteOrigin nt) (nt_PpInfo nt) (nt_SliceStorageInfo nt) (nt_FileHash nt) (nt_SliceNumber nt) newPp
    (nt_SpP2PAddress nt) 0 (unix_now e)).
  set (n0 := AddTransferTask (nt_TaskId nt) hash t0 (set_spam ({[spam_key nt]} ∪ transferSliceSpamCheckMap n) n)).
  destruct (ReadSliceData_ok rootPath l MaxData pool Hl Hpool HM (nt_FileHash nt) hash (n_fs n) c Hh Hcont) as (fs1 & Erd & Efs & _).
  assert (ReqTransferDownload self packet_id e true nt newPp n
    = send_packets self packet_id e nt (zlen c) (map snd (packet_pieces c)) 0 (0 + MaxData) (set_fs fs1 n0)) as E.
  { unfold Transfer.ReqTransferDownload. cbn [negb]. rewrite bool_decide_eq_false_2 by done. fold hash. fold t0. fold n0.
    unfold GetTransferSliceData, GetTransferTask. unfold n0 at 1. cbn [AddTransferTask transferTaskMap set_tasks]. rewrite lookup_insert_eq.
    unfold slice_packets, run_fs. cbn [tt_FileHash tt_SliceStorageInfo t0]. fold hash. change (n_fs n0) with (n_fs n). rewrite Erd.
    by rewrite P4. }
  cbv zeta. rewrite E. unfold packet_pieces at 1 2 3 4 5 6 7 8.
  destruct (send_packets_ok e self nt c newPp (length c) 0 (set_fs fs1 n0) t0) as (Q1 & Q2 & Q3 & Q4 & Q5 & _);
    rewrite ?drop_0 in *; try done; try lia.
  - cbn [set_fs transferTaskMap n0 AddTransferTask set_tasks]. apply lookup_insert_eq.
  - cbn [set_fs DownSendCostTimeMap n0 AddTransferTask set_tasks set_spam]. by rewrite Hstat.
  - cbn [set_fs DownSendCostTimeMap n0 AddTransferTask set_tasks set_spam]. rewrite Hstat. fold (packet_pieces c). cbn. unfold zlen in *. lia.
  - change (DownSendCostTimeMap (set_fs fs1 n0)) with (DownSendCostTimeMap n) in Q4. rewrite Hstat in Q4.
    cbn [default id stat0 TotalCostTime PacketCount] in Q4. split_and!; try done. by rewrite Q1.
Qed.

(** When all packets have left, the receiver's answer completes the transfer. *)
Lemma sender_completes e nt newPp c n k costs t :
  let hash := ss_SliceHash (nt_SliceStorageInfo nt) in
  good_hash hash → contents (n_fs n) hash = Some c → sp_connected e = true →
  transferTaskMap n !! uid nt = Some t → sending nt newPp t →
  DownSendCostTimeMap n !! uid nt = Some (mkStat 0 (Z.of_nat (length costs))) →
  (∀ j, (k ≤ j < k + length costs)%nat → PacketIdMap n !! packet_id j = Some (packet_note nt)) →
  costs ≠ [] → Z.of_nat (length costs) < 2 ^ 40 → Forall (fun ms => 0 < ms ≤ WriteTimeOut * 1000) costs →
  let n' := RspTransferDownloadResult e true (done_msg nt) (packets_sent e (zip (seq k (length costs)) costs) n) in
  outbox n' = outbox n ++ [ToSP (slice_report nt false newPp (nt_DeleteOrigin nt) (foldr Z.add 0 costs))]
  ∧ contents (n_fs n') hash = (if nt_DeleteOrigin nt then None else Some c)
  ∧ ∀ q, q ≠ place l hash → fs_files (n_fs n') !! q = fs_files (n_fs n) !! q.
Proof.
  intros hash Hh Hcont Hsp Ht Hsend Hstat Hnote Hne Hlen Hcosts. cbv zeta. set (js := zip (seq k (length costs)) costs).
  assert (map fst js = seq k (length costs)) as Ef by (unfold js; rewrite fst_zip; [done|rewrite length_seq; lia]).
  assert (map snd js = costs) as Es by (unfold js; rewrite snd_zip; [done|rewrite length_seq; lia]).
  assert (length js = length costs) as El by (by rewrite <- (length_map snd js), Es).
  pose proof (sum_costs costs Hcosts) as Hsum.
  assert (0 < Z.of_nat (length costs)) as Hpl by (destruct costs; [done|cbn [length]; lia]).
  destruct (packets_sent_ok e nt js n 0 (Z.of_nat (length costs))) as (V1 & V2 & V3 & V4);
    rewrite ?Ef, ?Es, ?El; try done; try lia.
  - by apply uid_nonempty.
  - apply NoDup_seq.
  - apply Forall_forall. intros [j ms] Hj. cbn [snd]. apply list_elem_of_In, elem_of_zip_r in Hj.
    rewrite Forall_forall in Hcosts. by apply Hcosts, list_elem_of_In.
  - intros j Hj. apply elem_of_seq in Hj. apply Hnote. lia.
  - rewrite Es, El in V4. replace (Z.of_nat (length costs) - Z.of_nat (length costs)) with 0 in V4 by lia.
    destruct (RspTransferDownloadResult_ok e nt newPp (packets_sent e js n) t c (foldr Z.add 0 costs)) as (W1 & W2 & W3); try done.
    { by rewrite V2. } { by rewrite V1. } { lia. }
    split_and!; [by rewrite W1, V3|exact W2|]. intros q Hq. rewrite W3, V1 by done. done.
Qed.

(** C2: A transfer moves a slice.  A node that is told by the SP to fetch a slice
    asks the node that stores it; that node cuts the slice into packets; in
    whatever order they come in, the receiver ends with exactly the slice and, with
    the last packet, one report to the SP and one answer to the sender; when all
    packets have left the sender and the answer is there, the sender reports too
    and has deleted its slice if and only if it was asked to.  No other file of
    either node is changed. *)
Theorem transfer_moves_the_slice nt c newPp sender receiver eS eR nS nR :
  let hash := ss_SliceHash (nt_SliceStorageInfo nt) in
  good_hash hash → zlen c < 2 ^ 40 → c ≠ [] → ss_SliceSize (nt_SliceStorageInfo nt) = zlen c →
  CalcSliceHash c (nt_FileHash nt) (nt_SliceNumber nt) = Ok hash →
  contents (n_fs nS) hash = Some c → spam_key nt ∉ transferSliceSpamCheckMap nS → DownSendCostTimeMap nS !! uid nt = None →
  sp_connected eS = true →
  tidy (n_fs nR) → contents (n_fs nR) hash = None → pp_P2PAddress (nt_PpInfo nt) ≠ receiver →
  reach eR (pp_NetworkAddress (nt_PpInfo nt)) = true →
  let nR1 := NoticeFileSliceBackup receiver eR true nt nR in
  let nS1 := ReqTransferDownload sender packet_id eS true nt newPp nS in
  outbox nR1 = outbox nR ++ [ToPP (pp_NetworkAddress (nt_PpInfo nt)) nt]
  ∧ ∃ pkts, outbox nS1 = outbox nS ++ map (fun p => Packet p.1 p.2) pkts
    ∧ (∀ qs, map snd qs ≡ₚ map snd pkts → Forall (fun q => sp_connected q.1.1 = true) qs →
         contents (n_fs (deliver qs nR1)) hash = Some c
         ∧ (∃ cost, outbox (deliver qs nR1)
              = outbox nR1 ++ [ToSP (slice_report nt true (pp_P2PAddress (nt_PpInfo nt)) false cost); Done (done_msg nt)])
         ∧ ∀ q, q ≠ place l hash → fs_files (n_fs (deliver qs nR1)) !! q = fs_files (n_fs nR) !! q)
    ∧ (∀ costs, length costs = length pkts → Forall (fun ms => 0 < ms ≤ WriteTimeOut * 1000) costs →
         let nS2 := packets_sent eS (zip (seq (n_packets nS) (length pkts)) costs) nS1 in
         let nS3 := RspTransferDownloadResult eS true (done_msg nt) nS2 in
         outbox nS3 = outbox nS1 ++ [ToSP (slice_report nt false newPp (nt_DeleteOrigin nt) (foldr Z.add 0 costs))]
         ∧ contents (n_fs nS3) hash = (if nt_DeleteOrigin nt then None else Some c)
         ∧ ∀ q, q ≠ place l hash → fs_files (n_fs nS3) !! q = fs_files (n_fs nS) !! q).
Proof.
  intros hash Hh Hlen Hne Hss HC HcS Hspam Hstat HspS HtR HcR Hself Hreach nR1 nS1.
  assert (zlen c < 2 ^ 62) as Hc62 by lia.
  destruct (packet_pieces_ok c Hc62) as (P1 & P2 & P3 & _).
  pose proof (packet_pieces_nonempty c Hc62 Hne) as Pne. pose proof (length_packet_pieces c Hc62) as Plen.
  destruct (NoticeFileSliceBackup_ok eR receiver nt nR Hself Hreach) as ((tR & R1 & R1' & R1'') & R2 & R3). fold nR1 in R1, R2, R3.
  split; [exact R3|].
  destruct (ReqTransferDownload_ok eS sender nt newPp nS c Hh Hc62 HcS Hspam Hstat) as (Q1 & Q2 & (t' & Q3 & Q3') & Q4 & Q5).
  fold nS1 in Q1, Q2, Q3, Q4, Q5. set (pkts := numbered sender nt c (n_packets nS) (packet_pieces c)) in *.
  assert (length pkts = length (packet_pieces c)) as Hpk by (rewrite <- (length_map snd pkts); unfold pkts; by rewrite numbered_snd, length_map).
  exists pkts. split_and!; [exact Q2| |].
  - intros qs Hqs Hsp. unfold pkts in Hqs. rewrite numbered_snd in Hqs. apply Permutation_map_inv in Hqs as (ps & Eps & Hperm).
    rewrite <- R2. eapply (deliver_ok sender nt c qs ps nR1 tR (fun _ => False)); try done.
    + intros ->. by apply Permutation_sym, Permutation_nil in Hperm.
    + by rewrite <- Hperm.
    + by rewrite R2.
    + lia.
    + by rewrite R1'', (total_permuted ps (packet_pieces c)), P3, Z.sub_diag.
    + rewrite R2. unfold hash in HcR. rewrite HcR. split; cbn; [lia|done].
    + intros i Hi. right. destruct (P2 i Hi) as (p & Hin & Hp). exists p. split; [|done]. by rewrite <- Hperm.
  - intros costs Hcl Hcosts. cbv zeta. rewrite <- Hcl. rewrite <- Hpk, <- Hcl in Q4, Q5.
    destruct (sender_completes eS nt newPp c nS1 (n_packets nS) costs t') as (W1 & W2 & W3); try done.
    + unfold Storage.contents in *. by rewrite Q1.
    + by rewrite (Q4 Pne).
    + intros ->. apply Pne, nil_length_inv. cbn [length] in Hcl. lia.
    + unfold zlen in *. lia.
    + split_and!; [exact W1|exact W2|]. intros q Hq. rewrite W3, Q1 by done. done.
Qed.
End Moving.

(** ** Any message, any answer of the operating system *)

(** What a node can be made to do by one message, timer or written packet. *)
Inductive event :=
  | EvNotice (e : Env) (verified : bool) (m : Notice)
  | EvRequest (e : Env) (verified : bool) (m : Notice) (newPp : string)
  | EvPacket (e : Env) (verified : bool) (costTime : Z) (m : RspData)
  | EvResult (e : Env) (verified : bool) (m : RspResult)
  | EvReported (verified : bool) (taskId sliceHash : string)
  | EvSent (e : Env) (packetId costTime : Z)
  | EvTimer (e : Env)
  | EvVerifyNotice (e : Env) (verified : bool) (m : Notice)
  | EvVerifyRequest (e : Env) (verified : bool) (m : Notice) (newPp : string)
  | EvVerifyPacket (e : Env) (verified : bool) (m : RspData).

Section Any.
Context (io_err : syscall → string → bool) (rootPath StoragePath : string).
Context (MaxData : Z) {L : Mmap} (pool : Z → bytes) {H : HashLib} (self : string) (packet_id : nat → Z).

Definition step (ev : event) (n : N) : N :=
  match ev with
  | EvNotice e v m => NoticeFileSliceBackup self e v m n
  | EvRequest e v m newPp => ReqTransferDownload io_err rootPath StoragePath MaxData pool self packet_id e v m newPp n
  | EvPacket e v cost m => RspTransferDownload io_err StoragePath e v cost m n
  | EvResult e v m => RspTransferDownloadResult io_err StoragePath e v m n
  | EvReported v t h => RspReportBackupSliceResult v t h n
  | EvSent e p cost => HandleSendPacketCostTime e p cost n
  | EvTimer e => CheckTransferTimeout e n
  | EvVerifyNotice e v m => NoticeFileSliceVerify self e v m n
  | EvVerifyRequest e v m newPp => ReqVerifyDownload io_err rootPath StoragePath MaxData pool self packet_id e v m newPp n
  | EvVerifyPacket e v m => RspVerifyDownload io_err rootPath e v m n
  end.

(** The messages sent in between satisfy [P]. *)
Definition sends (P : out → Prop) (n n' : N) : Prop := ∃ o, outbox n' = outbox n ++ o ∧ Forall P o.

Lemma sends_refl P n n' : outbox n' = outbox n → sends P n n'.
Proof. intros E. exists []. by rewrite E, app_nil_r. Qed.
Lemma sends_trans P n1 n2 n3 : sends P n1 n2 → sends P n2 n3 → sends P n1 n3.
Proof.
  intros (o1 & E1 & H1) (o2 & E2 & H2). exists (o1 ++ o2). split; [by rewrite E2, E1, app_assoc|]. by apply Forall_app.
Qed.
Lemma sends_emit (P : out → Prop) n o : P o → sends P n (emit o n).
Proof. intros Hp. exists [o]. split; [done|]. by constructor. Qed.

(** A report is about the task of its key. *)
Definition report_of (n : N) (taskId sliceHash : string) (r : bool) (rp : Report) : Prop :=
  rp_success rp = r ∧ rp_TaskId rp = taskId ∧ ∃ t, transferTaskMap n !! (taskId +:+ sliceHash) = Some t ∧ rp_IsReceiver rp = tt_IsReceiver t
    ∧ rp_SliceHash rp = ss_SliceHash (tt_SliceStorageInfo t) ∧ rp_FileHash rp = tt_FileHash t ∧ rp_SliceNumber rp = tt_SliceNum t.

Lemma sends_report P e a b c r d cost n :
  (∀ rp, report_of n a b r rp → P (ToSP rp)) → sends P n (SendReportBackupSliceResult e a b c r d cost n).
Proof.
  intros Hp. unfold SendReportBackupSliceResult, GetTransferTask, SendMessageToSPServer.
  destruct (transferTaskMap n !! (a +:+ b)) as [t|] eqn:E; [|by apply sends_refl].
  destruct (sp_connected e); [|by apply sends_refl]. apply sends_emit, Hp. do 2 (split; [done|]). by exists t.
Qed.

(** Saving a packet says that the slice is complete only when its file has the
    slice's hash. *)
Lemma SaveTransferData_complete e m n n' :
  SaveTransferData io_err StoragePath e m n = (Ok true, n') →
  outbox n' = outbox n
  ∧ ∃ t0 t fs data fs2, transferTaskMap n !! (rd_TaskId m +:+ rd_SliceHash m) = Some t0
    ∧ tt_SliceStorageInfo t = tt_SliceStorageInfo t0
    ∧ transferTaskMap n' !! (rd_TaskId m +:+ rd_SliceHash m) = Some t
    ∧ GetSliceData io_err StoragePath (ss_SliceHash (tt_SliceStorageInfo t)) fs = (Ok data, fs2) ∧ n_fs n' = fs2
    ∧ CalcSliceHash data (tt_FileHash t) (tt_SliceNum t) = Ok (ss_SliceHash (tt_SliceStorageInfo t)).
Proof.
  unfold SaveTransferData, run_fs, AddAlreadySizeToTransferTask. intros E.
  repeat (case_match; simplify_eq/=). split; [done|]. rewrite lookup_insert_eq.
  match goal with E : GetTransferTask _ _ n = Some ?t0 |- _ => exists t0 end.
  eexists _, _, _, _. split; [done|]. split; [|split; [done|]].
  { cbn. match goal with E1 : SaveSliceData _ _ _ _ _ _ = (_, ?fs1), E2 : _ !! _ = Some _, E0 : GetTransferTask _ _ n = Some _ |- _ =>
      cbn in E2; unfold GetTransferTask in E0; rewrite E0 in E2; by injection E2 as -> end. }
  split_and!; [done|done|]. match goal with H : bool_decide _ = false |- _ => apply bool_decide_eq_false, dec_stable in H end. cbn. congruence.
Qed.

Lemma outbox_SaveTransferData e m n : outbox (SaveTransferData io_err StoragePath e m n).2 = outbox n.
Proof. unfold SaveTransferData, run_fs, AddAlreadySizeToTransferTask. repeat (case_match; simplify_eq/=); done. Qed.

Lemma outbox_SaveVerifyData e m n : outbox (SaveVerifyData io_err rootPath e m n).2 = outbox n.
Proof. unfold SaveVerifyData, run_fs, AddAlreadySizeToVerifyTask. repeat (case_match; simplify_eq/=); done. Qed.

Lemma sends_packets (P : out → Prop) e nt len buffer a b n :
  (∀ i m, P (Packet i m)) → sends P n (send_packets MaxData self packet_id e nt len buffer a b n).
Proof.
  intros Hp. revert a b n. induction buffer as [|d buffer IH]; intros a b n; cbn [send_packets]; [by apply sends_refl|].
  unfold new_packet. case_bool_decide.
  - eapply sends_trans; [|by apply sends_emit]. by apply sends_refl.
  - eapply sends_trans; [|apply IH]. eapply sends_trans; [|apply sends_refl].
    + eapply sends_trans; [|by apply sends_emit]. by apply sends_refl.
    + unfold AddAlreadySizeToTransferTask. by case_match.
Qed.

Lemma sends_verify_packets (P : out → Prop) e nt len buffer a b n :
  (∀ i m, P (VerifyPacket i m)) → sends P n (send_verify_packets MaxData self packet_id e nt len buffer a b n).
Proof.
  intros Hp. revert a b n. induction buffer as [|d buffer IH]; intros a b n; cbn [send_verify_packets]; [by apply sends_refl|].
  unfold new_packet. case_bool_decide.
  - eapply sends_trans; [|by apply sends_emit]. by apply sends_refl.
  - eapply sends_trans; [|apply IH]. eapply sends_trans; [|apply sends_refl].
    + eapply sends_trans; [|by apply sends_emit]. by apply sends_refl.
    + unfold AddAlreadySizeToTransferTask. by case_match.
Qed.

Lemma outbox_slice_packets t n : outbox (slice_packets io_err rootPath StoragePath MaxData pool t n).2 = outbox n.
Proof. unfold slice_packets, run_fs. repeat (case_match; simplify_eq/=); done. Qed.

Lemma sends_timer (P : out → Prop) e uids n :
  (∀ rp, rp_success rp = false → P (ToSP rp)) → sends P n (sendTransferFailureReportToSP e uids n).
Proof.
  intros Hp. unfold sendTransferFailureReportToSP. revert n. induction uids as [|u uids IH]; intros n; cbn [foldl]; [by apply sends_refl|].
  eapply sends_trans; [|apply IH]. unfold report_timeout, GetTransferTaskByTaskSliceUID. case_match; [|by apply sends_refl].
  eapply sends_trans; [apply sends_report; intros rp [Hs _]; by apply Hp|by apply sends_refl].
Qed.

Lemma outbox_FinishSendPacket k cost n : outbox (FinishSendPacket k cost n) = outbox n.
Proof. unfold FinishSendPacket. by repeat case_match. Qed.

Lemma outbox_handleUploadSend ts cost n : outbox (handleUploadSend ts cost n) = outbox n.
Proof. unfold handleUploadSend. by repeat case_match. Qed.

Lemma sends_handleDownloadSend (P : out → Prop) e ts cost n :
  (∀ m c, P (ToSPDownload m c)) → sends P n (handleDownloadSend e ts cost n).
Proof.
  intros Hp. unfold handleDownloadSend, SendMessageToSPServer. case_match; [|apply sends_refl, outbox_FinishSendPacket].
  case_match; [|apply sends_refl, outbox_FinishSendPacket]. case_match; [|apply sends_refl, outbox_FinishSendPacket].
  eapply sends_trans; [apply sends_refl, (outbox_FinishSendPacket (ts_TkSliceUID ts) cost)|].
  eapply sends_trans; [apply sends_emit, (Hp d (TotalCostTime (finished_stat (ts_TkSliceUID ts) cost n)))|by apply sends_refl].
Qed.

Lemma sends_hook (P : out → Prop) e p cost n :
  (∀ rp, rp_success rp = false → P (ToSP rp)) → (∀ m c, P (ToSPDownload m c)) → P Closed →
  sends P n (HandleSendPacketCostTime e p cost n).
Proof.
  intros Hp Hd Hc. unfold HandleSendPacketCostTime, handleBackupTransferSend. case_match; [by apply sends_refl|].
  destruct (PacketIdMap n !! p) as [t|]; [|by apply sends_refl]. cbv zeta.
  set (n1 := if bool_decide (ts_TkSliceUID t ≠ "") then _ else n).
  assert (sends P n n1) as Hn1 by (unfold n1; destruct (bool_decide (ts_TkSliceUID t ≠ "")); by apply sends_refl). clearbody n1.
  eapply sends_trans; [exact Hn1|].
  set (n2 := if bool_decide (ts_SliceType t = SliceUpload) then _ else _).
  assert (sends P n1 n2) as Hn2.
  { unfold n2. destruct (bool_decide (ts_SliceType t = SliceUpload)); [apply sends_refl, outbox_handleUploadSend|].
    destruct (bool_decide (ts_SliceType t = SliceDownload)); [by apply sends_handleDownloadSend|].
    destruct (bool_decide (ts_SliceType t = SliceBackup ∨ ts_SliceType t = SliceTransfer)); [|by apply sends_refl].
    eapply sends_trans; [|apply sends_refl, outbox_FinishSendPacket].
    destruct (bool_decide (WriteTimeOut * 1000 < cost)%Z); [|by apply sends_refl]. apply sends_report. intros rp [Hs _]. by apply Hp. }
  clearbody n2. eapply sends_trans; [exact Hn2|].
  destruct (bool_decide (WriteTimeOut * 1000 < cost)%Z); [by apply sends_emit|by apply sends_refl].
Qed.

(** The report of a receiver that has the whole slice. *)
Definition receipt (o : out) : Prop := match o with ToSP rp => rp_success rp = true ∧ rp_IsReceiver rp = true | _ => False end.

(** A packet of its task makes the slice complete: the file stored for it has, at the
    end of the handler, the hash of the slice. *)
Definition checked_receipt (ev : event) (n : N) (rp : Report) : Prop :=
  ∃ e cost m t fs data fs2, ev = EvPacket e true cost m ∧ rp_TaskId rp = rd_TaskId m
    ∧ GetTransferTask (rd_TaskId m) (rd_SliceHash m) n = Some t ∧ rp_SliceHash rp = ss_SliceHash (tt_SliceStorageInfo t)
    ∧ GetSliceData io_err StoragePath (rp_SliceHash rp) fs = (Ok data, fs2) ∧ n_fs (step ev n) = fs2
    ∧ CalcSliceHash data (rp_FileHash rp) (rp_SliceNumber rp) = Ok (rp_SliceHash rp).

(** The answer of a receiver comes in for a task that was made a receiving one after
    the node had sent out the slice itself, every packet of it, under its key. *)
Definition answered_receipt (ev : event) (n : N) (rp : Report) : Prop :=
  ∃ e m cost t, ev = EvResult e true m ∧ rr_success m = true ∧ rp_TaskId rp = rr_TaskId m
    ∧ GetCompletedTotalCostTime (rr_TaskId m +:+ rr_SliceHash m) n = Some cost
    ∧ GetTransferTask (rr_TaskId m) (rr_SliceHash m) n = Some t ∧ tt_IsReceiver t = true.

Lemma packet_receipts e v cost m n : let ev := EvPacket e v cost m in
  sends (fun o => receipt o → match o with ToSP rp => checked_receipt ev n rp ∨ answered_receipt ev n rp | _ => True end)
    n (RspTransferDownload io_err StoragePath e v cost m n).
Proof.
  intros ev. unfold RspTransferDownload at 1. case_match eqn:Ev; [by apply sends_refl|]. destruct (AddCostTime _ cost n) as [tot n1] eqn:Ec.
  pose proof (AddCostTime_frame (rd_TaskId m +:+ rd_SliceHash m) cost n) as (Et & _ & Eo). rewrite Ec in Et, Eo. cbn [snd] in Et, Eo.
  pose proof (outbox_SaveTransferData e m n1) as Es. destruct (SaveTransferData io_err StoragePath e m n1) as [r n2] eqn:Esave. cbn [snd] in Es.
  destruct r as [[|]| |]; try (apply sends_refl; congruence).
  destruct (SaveTransferData_complete e m n1 n2 Esave) as (_ & t0 & t & fs & data & fs2 & H0 & Ht0 & Ht & Hg & Hfs & Hc).
  eapply sends_trans; [|by apply sends_emit]. eapply sends_trans; [apply sends_refl; by rewrite Es|].
  apply sends_report. intros rp (_ & Eid & t' & Ht' & _ & E1 & E2 & E3) _. rewrite Ht in Ht'. injection Ht' as <-. left.
  exists e, cost, m, t0, fs, data, fs2. rewrite E1, E2, E3. split_and!; try done.
  - destruct v; [done|]. by cbn in Ev.
  - unfold GetTransferTask. by rewrite <- Et.
  - by rewrite Ht0.
  - cbn [step ev]. unfold RspTransferDownload. rewrite Ev, Ec, Esave. cbn [emit n_fs]. rewrite <- Hfs.
    unfold SendReportBackupSliceResult, SendMessageToSPServer. by repeat case_match.
Qed.

Lemma result_receipts e v m n : let ev := EvResult e v m in
  sends (fun o => receipt o → match o with ToSP rp => checked_receipt ev n rp ∨ answered_receipt ev n rp | _ => True end)
    n (RspTransferDownloadResult io_err StoragePath e v m n).
Proof.
  intros ev. unfold RspTransferDownloadResult. destruct v; cbn [negb]; [|by apply sends_refl].
  destruct (GetCompletedTotalCostTime _ n) as [tot|] eqn:Ec; [|by apply sends_refl].
  destruct (rr_success m) eqn:Es; cbn [negb].
  2:{ apply sends_report. intros rp (Hr & _) [Hs _]. congruence. }
  assert (∀ n1 b, transferTaskMap n1 = transferTaskMap n → outbox n1 = outbox n →
    sends (fun o => receipt o → match o with ToSP rp => checked_receipt ev n rp ∨ answered_receipt ev n rp | _ => True end) n
      (SendReportBackupSliceResult e (rr_TaskId m) (rr_SliceHash m) (rr_SpP2PAddress m) true b tot n1)) as Hsend.
  { intros n1 b Et Eo. eapply sends_trans; [by apply sends_refl|]. apply sends_report.
    intros rp (_ & Eid & t & Ht & Er & _) [_ Hrec]. right. exists e, m, tot, t. unfold GetTransferTask. rewrite <- Et.
    split_and!; try done. congruence. }
  destruct (GetTransferTask _ _ n) as [t|]; [|by apply Hsend]. destruct (tt_DeleteOrigin t); [|by apply Hsend].
  unfold run_fs. destruct (DeleteSlice _ _ _ _). by apply Hsend.
Qed.


(** ** Deleting *)

(** No file goes away. *)
Definition keeps (fs fs' : FS) : Prop := ∀ q, is_Some (fs_files fs !! q) → is_Some (fs_files fs' !! q).

Lemma keeps_refl fs : keeps fs fs.
Proof. by intros q. Qed.
#[local] Hint Resolve keeps_refl : core.
Lemma keeps_trans fs1 fs2 fs3 : keeps fs1 fs2 → keeps fs2 fs3 → keeps fs1 fs3.
Proof. unfold keeps. auto. Qed.

(** A file operation that deletes nothing. *)
Definition keeping {A} (m : M A) : Prop := ∀ fs, keeps fs (m fs).2.

Lemma keeping_bind {A B} (m : M A) (f : A → M B) : keeping m → (∀ a, keeping (f a)) → keeping (m ≫= f).
Proof.
  intros Hm Hf fs. unfold mbind, M_bind. specialize (Hm fs). destruct (m fs) as [[a|e|e] fs1]; cbn [snd] in *; [|done|done].
  eapply keeps_trans; [exact Hm|apply Hf].
Qed.
Lemma keeping_catch {A} (m : M A) : keeping m → keeping (catch m).
Proof. intros Hm fs. unfold catch. specialize (Hm fs). by destruct (m fs) as [[a|e|e] fs1]. Qed.
Lemma keeping_lift {A} (r : res A) : keeping (lift r).
Proof. intros fs. apply keeps_refl. Qed.
Lemma keeping_ret {A} (a : A) : keeping (mret a : M A).
Proof. intros fs. apply keeps_refl. Qed.
Lemma keeping_get : keeping get_fs.
Proof. intros fs. apply keeps_refl. Qed.

Create HintDb keeping.
#[local] Hint Resolve keeping_lift keeping_ret keeping_get : keeping core.

Lemma keeping_path base hash : keeping (hash_folder io_err base hash).
Proof.
  unfold hash_folder. case_match; [done|]. apply keeping_bind; [done|]. intros s1. apply keeping_bind; [done|]. intros s2.
  apply keeping_bind; [unfold PathExists; case_match; [done|]; by apply keeping_bind|]. intros ex.
  apply keeping_bind; [|done]. destruct ex; [done|]. unfold MkdirAll. by case_match.
Qed.

Lemma keeping_read p : keeping (open_read io_err p).
Proof. apply keeping_bind; [done|]. intros fs. repeat case_match; auto with keeping. Qed.
Lemma keeping_info p : keeping (GetFileInfo io_err p).
Proof. apply keeping_bind; [done|]. intros fs. repeat case_match; auto with keeping. Qed.

Lemma keeping_save path f data off : keeping (file_WriteAt io_err path f data off).
Proof.
  unfold file_WriteAt. repeat (case_match; [done|]). intros fs. run_M. cbn [snd]. intros q Hq. cbn [with_file fs_files].
  destruct (decide (q = path)) as [->|Hne]; [rewrite lookup_insert_eq; by eexists|by rewrite lookup_insert_ne].
Qed.

Lemma keeping_create p : keeping (open_create io_err p).
Proof.
  intros fs. unfold open_create. run_M. case_match; [done|]. case_match; [done|]. cbn [snd]. intros q Hq. cbn [with_file fs_files].
  destruct (decide (q = p)) as [->|Hne]; [rewrite lookup_insert_eq; by eexists|by rewrite lookup_insert_ne].
Qed.
#[local] Hint Resolve keeping_path keeping_read keeping_info keeping_save keeping_create : keeping.

Lemma keeping_packets r p : keeping (ReadFileDataToPackets io_err MaxData pool r p).
Proof. unfold ReadFileDataToPackets. apply keeping_bind; [apply keeping_catch; auto with keeping|]. intros [sz|]; [|done]. by destruct (read_packets _ _ _ _). Qed.
#[local] Hint Resolve keeping_packets : keeping.

Lemma keeping_ReadSliceData f h : keeping (ReadSliceData io_err rootPath StoragePath MaxData pool f h).
Proof.
  unfold ReadSliceData. apply keeping_bind; [apply keeping_catch, keeping_path|]. intros [p|]; [|done].
  apply keeping_bind; [apply keeping_catch, keeping_read|]. intros [r|]; [apply keeping_packets|].
  apply keeping_bind; [apply keeping_catch, keeping_read|]. intros [r|]; [apply keeping_packets|done].
Qed.
Lemma keeping_SaveSliceData d h o : keeping (SaveSliceData io_err StoragePath d h o).
Proof. apply keeping_bind; [apply keeping_path|]. intros p. apply keeping_bind; auto with keeping. Qed.
Lemma keeping_SaveVerifySliceData d h o : keeping (SaveVerifySliceData io_err rootPath d h o).
Proof. apply keeping_bind; [apply keeping_path|]. intros p. apply keeping_bind; auto with keeping. Qed.
Lemma keeping_GetSliceSize h : keeping (GetSliceSize io_err StoragePath h).
Proof. apply keeping_bind; auto with keeping. Qed.
Lemma keeping_os_ReadFile p : keeping (os_ReadFile io_err p).
Proof. apply keeping_bind; auto with keeping. intros f. by case_match. Qed.
Lemma keeping_GetSliceData h : keeping (GetSliceData io_err StoragePath h).
Proof. apply keeping_bind; [apply keeping_path|]. intros p. apply keeping_os_ReadFile. Qed.
Lemma keeping_GetVerifySliceData h : keeping (GetVerifySliceData io_err rootPath h).
Proof. apply keeping_bind; [apply keeping_path|]. intros p. apply keeping_os_ReadFile. Qed.

Create HintDb keeping_ops.
#[local] Hint Resolve keeping_ReadSliceData keeping_SaveSliceData keeping_SaveVerifySliceData keeping_GetSliceSize keeping_GetSliceData
  keeping_GetVerifySliceData : keeping_ops.

Lemma keeps_run {A} (m : M A) n r n' : run_fs m n = (r, n') → keeping m → keeps (n_fs n) (n_fs n').
Proof. unfold run_fs. intros E Hm. specialize (Hm (n_fs n)). destruct (m (n_fs n)) as [x fs]. by simplify_eq/=. Qed.

(** Follow the runs of file operations. *)
Ltac keep_runs :=
  repeat match goal with
  | E : run_fs ?m ?n = (_, ?n') |- keeps _ (n_fs ?n') =>
      eapply keeps_trans; [|apply (keeps_run _ _ _ _ E); auto with keeping_ops nocore]; clear E
  end.

Lemma fs_packets e nt len buffer a b n : n_fs (send_packets MaxData self packet_id e nt len buffer a b n) = n_fs n.
Proof.
  revert a b n. induction buffer as [|d buffer IH]; intros a b n; cbn [send_packets]; [done|].
  unfold new_packet. case_bool_decide; [done|]. rewrite IH. unfold AddAlreadySizeToTransferTask. by case_match.
Qed.
Lemma fs_verify_packets e nt len buffer a b n : n_fs (send_verify_packets MaxData self packet_id e nt len buffer a b n) = n_fs n.
Proof.
  revert a b n. induction buffer as [|d buffer IH]; intros a b n; cbn [send_verify_packets]; [done|].
  unfold new_packet. case_bool_decide; [done|]. rewrite IH. unfold AddAlreadySizeToTransferTask. by case_match.
Qed.
Lemma keeps_slice_packets t n : keeps (n_fs n) (n_fs (slice_packets io_err rootPath StoragePath MaxData pool t n).2).
Proof.
  unfold slice_packets. destruct t as [t|]; [|done]. destruct (run_fs _ n) as [r n'] eqn:E.
  apply keeps_run in E; [|auto with keeping_ops]. by repeat case_match.
Qed.

Lemma keeps_SaveTransferData e m n : keeps (n_fs n) (n_fs (SaveTransferData io_err StoragePath e m n).2).
Proof.
  unfold SaveTransferData, AddAlreadySizeToTransferTask. repeat (case_match; simplify_eq/=); try done; keep_runs; cbn [set_tasks n_fs]; keep_runs; done.
Qed.

Lemma fs_report e a b c r d cost n : n_fs (SendReportBackupSliceResult e a b c r d cost n) = n_fs n.
Proof. unfold SendReportBackupSliceResult, SendMessageToSPServer. by repeat case_match. Qed.
Lemma fs_timer e uids n : n_fs (sendTransferFailureReportToSP e uids n) = n_fs n.
Proof.
  unfold sendTransferFailureReportToSP. revert n. induction uids as [|u uids IH]; intros n; cbn [foldl]; [done|].
  rewrite IH. unfold report_timeout. case_match; [|done]. cbn [CleanTransferTaskByTaskSliceUID set_tasks n_fs]. apply fs_report.
Qed.
Lemma fs_FinishSendPacket k cost n : n_fs (FinishSendPacket k cost n) = n_fs n.
Proof. unfold FinishSendPacket. by repeat case_match. Qed.
Lemma fs_hook e p cost n : n_fs (HandleSendPacketCostTime e p cost n) = n_fs n.
Proof.
  unfold HandleSendPacketCostTime, handleBackupTransferSend, handleUploadSend, handleDownloadSend, SendMessageToSPServer.
  repeat case_match; cbn [emit n_fs DeleteRecord set_send set_served set_serving set_up_send]; rewrite ?fs_FinishSendPacket, ?fs_report; done.
Qed.

(** Removing a slice takes away the file of its path. *)
Lemma Remove_at base h fs q :
  is_Some (fs_files fs !! q) → fs_files ((p ← hash_folder io_err base h; os_Remove io_err p) fs).2 !! q = None →
  ∃ fs1, hash_folder io_err base h fs = (Ok q, fs1).
Proof.
  intros Hq. pose proof (keeping_path base h fs q Hq) as Hk. unfold os_Remove. unfold mbind, M_bind.
  destruct (hash_folder io_err base h fs) as [[p|m|m] fs1]; cbn [snd] in *; [|rewrite eq_None_not_Some; done..].
  unfold get_fs. cbn. case_match; [rewrite eq_None_not_Some; done|]. cbn. destruct (decide (p = q)) as [->|Hne]; [by eexists|].
  rewrite lookup_delete_ne by done. rewrite eq_None_not_Some; done.
Qed.

Lemma DeleteSlice_removes h fs q :
  is_Some (fs_files fs !! q) → fs_files (DeleteSlice io_err StoragePath h fs).2 !! q = None →
  ∃ fs1, getSlicePath io_err StoragePath h fs = (Ok q, fs1).
Proof. apply Remove_at. Qed.

(** Checking a slice takes away the copy that was made to verify it. *)
Lemma SaveVerifyData_removes e m n q :
  is_Some (fs_files (n_fs n) !! q) → fs_files (n_fs (SaveVerifyData io_err rootPath e m n).2) !! q = None →
  ∃ t fs fs', GetVerifyTask (rd_TaskId m) (rd_SliceHash m) n = Some t
    ∧ getVerifySlicePath io_err rootPath (ss_SliceHash (tt_SliceStorageInfo t)) fs = (Ok q, fs').
Proof.
  intros Hq Hgone. unfold SaveVerifyData in Hgone. destruct (GetVerifyTask _ _ n) as [t0|] eqn:E0; [|rewrite eq_None_not_Some in Hgone; done].
  destruct (if bool_decide (rd_SliceNumber m ≠ 0) then _ else _) as [r1 n1] eqn:E1.
  assert (keeps (n_fs n) (n_fs n1) ∧ verifyTaskMap n1 = verifyTaskMap n) as [K1 V1].
  { case_bool_decide; [|by simplify_eq]. split; [by apply (keeps_run _ _ _ _ E1); auto with keeping_ops|].
    unfold run_fs in E1. destruct (SaveVerifySliceData _ _ _ _ _ _). by simplify_eq/=. }
  apply K1 in Hq. destruct r1 as [[]| |]; cbn [snd] in Hgone; try (rewrite eq_None_not_Some in Hgone; done).
  unfold AddAlreadySizeToVerifyTask in Hgone. unfold GetVerifyTask in E0. rewrite V1, E0 in Hgone.
  case_bool_decide; [rewrite eq_None_not_Some in Hgone; done|]. case_bool_decide; [|rewrite eq_None_not_Some in Hgone; done].
  cbn [add_size tt_SliceStorageInfo] in Hgone. set (n2 := set_verify _ n1) in Hgone. change (n_fs n1) with (n_fs n2) in Hq.
  destruct (run_fs (GetVerifySliceData _ _ _) n2) as [r3 n3] eqn:E3.
  apply (keeps_run _ _ _ _ E3) in Hq; [|auto with keeping_ops].
  destruct r3 as [d| |]; cbn [snd] in Hgone; try (rewrite eq_None_not_Some in Hgone; done).
  unfold run_fs in Hgone. destruct (DeleteVerifySlice _ _ _ (n_fs n3)) as [r4 fs4] eqn:E4.
  edestruct (Remove_at (GetTmpVerifyPath rootPath) (ss_SliceHash (tt_SliceStorageInfo t0)) (n_fs n3) q) as [fs' Hp]; [done| |by exists t0, (n_fs n3), fs'].
  unfold DeleteVerifySlice, getVerifySlicePath in E4. rewrite E4. by repeat case_match.
Qed.

End Any.

(** ** Time-outs *)

(** The report of a task that timed out, and the tasks that did. *)
Definition timeout_report (t : TransferTask) : out :=
  ToSP (mkReport (tt_TaskId t) (tt_FileHash t) (ss_SliceHash (tt_SliceStorageInfo t)) false (tt_IsReceiver t) false (tt_SliceNum t)
          (ss_SliceSize (tt_SliceStorageInfo t)) (tt_SpP2pAddress t) 0
          (if tt_IsReceiver t then pp_P2PAddress (tt_PpInfo t) else tt_ReceiverP2pAddress t)).
Definition own_key (t : TransferTask) : string := tt_TaskId t +:+ ss_SliceHash (tt_SliceStorageInfo t).
Definition timed_out (now : Z) (t : TransferTask) : Prop := (tt_LastTouchTime t + TRANSFER_TASK_TIMEOUT_THRESHOLD < now)%Z.

#[global] Instance timed_out_dec now t : Decision (timed_out now t).
Proof. unfold timed_out. apply _. Defined.

Lemma elem_of_GetTimeoutTransfer now n u :
  u ∈ GetTimeoutTransfer now n ↔ ∃ t, transferTaskMap n !! u = Some t ∧ timed_out now t.
Proof.
  unfold GetTimeoutTransfer. rewrite list_elem_of_fmap. split.
  - intros ([k t] & -> & Hin). apply list_elem_of_filter in Hin as [Ht Hin]. apply elem_of_map_to_list in Hin. by exists t.
  - intros (t & Hu & Ht). exists (u, t). split; [done|]. apply list_elem_of_filter. split; [done|]. by apply elem_of_map_to_list.
Qed.
Lemma NoDup_GetTimeoutTransfer now n : NoDup (GetTimeoutTransfer now n).
Proof.
  unfold GetTimeoutTransfer. pose proof (NoDup_fst_map_to_list (transferTaskMap n)) as Hd.
  induction (map_to_list (transferTaskMap n)) as [|[k t] l IH]; [constructor|]. cbn in Hd. apply list.NoDup_cons in Hd as [Hk Hd].
  rewrite filter_cons. case_decide; [|by apply IH]. cbn. constructor; [|by apply IH]. contradict Hk.
  apply list_elem_of_fmap in Hk as ([k' t'] & -> & Hin). apply list_elem_of_fmap. exists (k', t'). split; [done|].
  by apply list_elem_of_filter in Hin as [_ Hin].
Qed.

(** The timer takes away the tasks of the list. *)
Lemma timer_tasks e uids n : transferTaskMap (sendTransferFailureReportToSP e uids n) = foldr delete (transferTaskMap n) (reverse uids).
Proof.
  unfold sendTransferFailureReportToSP. revert n. induction uids as [|u uids IH]; intros n; cbn [foldl]; [done|].
  rewrite IH, reverse_cons, foldr_snoc. f_equal. unfold report_timeout, GetTransferTaskByTaskSliceUID.
  destruct (transferTaskMap n !! u) eqn:E; [|by rewrite delete_id].
  cbn [CleanTransferTaskByTaskSliceUID set_tasks transferTaskMap]. f_equal.
  unfold SendReportBackupSliceResult, SendMessageToSPServer. by repeat case_match.
Qed.

Lemma timer_keeps_fresh e n uids :
  uids ≡ₚ GetTimeoutTransfer (unix_now e) n →
  transferTaskMap (sendTransferFailureReportToSP e uids n) = filter (fun kt => ¬ timed_out (unix_now e) kt.2) (transferTaskMap n).
Proof.
  intros Hp. rewrite timer_tasks. apply map_eq. intros k. apply option_eq. intros t. rewrite map_lookup_filter_Some. cbn [snd].
  rewrite lookup_foldr_delete_Some, elem_of_reverse, Hp, elem_of_GetTimeoutTransfer. naive_solver.
Qed.

(** When the timer runs, every transfer that was not touched for more than 180
    seconds is reported to the SP as failed, once and with its own slice, and is
    forgotten; the other transfers stay; in whatever order the map is walked.  This
    needs the tasks to be stored under their own id and slice, as the receiver of a
    slice stores them, and a connection to the SP. *)
Theorem timed_out_transfers_are_reported e n uids :
  (∀ k t, transferTaskMap n !! k = Some t → k = own_key t) → sp_connected e = true →
  uids ≡ₚ GetTimeoutTransfer (unix_now e) n →
  let n' := sendTransferFailureReportToSP e uids n in
  transferTaskMap n' = filter (fun kt => ¬ timed_out (unix_now e) kt.2) (transferTaskMap n)
  ∧ ∃ ts, outbox n' = outbox n ++ map timeout_report ts
    ∧ Forall2 (fun u t => transferTaskMap n !! u = Some t) uids ts
    ∧ NoDup uids ∧ ∀ u t, transferTaskMap n !! u = Some t → timed_out (unix_now e) t → u ∈ uids.
Proof.
  intros Hkey Hsp Hp n'. split; [by apply timer_keeps_fresh|].
  assert (NoDup uids) as Hd by (rewrite Hp; apply NoDup_GetTimeoutTransfer).
  assert (∀ u, u ∈ uids → is_Some (transferTaskMap n !! u)) as Hin.
  { intros u. rewrite Hp, elem_of_GetTimeoutTransfer. intros (t & -> & _). by eexists. }
  assert (∀ u t, transferTaskMap n !! u = Some t → timed_out (unix_now e) t → u ∈ uids) as Hall.
  { intros u t Hu Ht. rewrite Hp. apply elem_of_GetTimeoutTransfer. by exists t. }
  assert (∃ ts, outbox n' = outbox n ++ map timeout_report ts ∧ Forall2 (fun u t => transferTaskMap n !! u = Some t) uids ts) as (ts & ? & ?);
    [|by exists ts].
  clear Hp Hall. subst n'. unfold sendTransferFailureReportToSP. revert n Hkey Hin. induction uids as [|u uids IH]; intros n Hkey Hin; cbn [foldl].
  - exists []. cbn [map]. by rewrite app_nil_r.
  - apply list.NoDup_cons in Hd as [Hu Hd]. destruct (Hin u) as [t Ht]; [set_solver|].
    assert (transferTaskMap (report_timeout e n u) = delete u (transferTaskMap n) ∧ outbox (report_timeout e n u) = outbox n ++ [timeout_report t]) as [Em Eo].
    { pose proof (Hkey u t Ht) as Ek. unfold report_timeout, GetTransferTaskByTaskSliceUID, SendReportBackupSliceResult, GetTransferTask, SendMessageToSPServer.
      unfold own_key in Ek. rewrite Ht, <- Ek, Ht, Hsp. done. }
    destruct (IH Hd (report_timeout e n u)) as (ts & E1 & E2).
    { intros k x. rewrite Em, lookup_delete_Some. intros [_ Hx]. by apply Hkey. }
    { intros u' Hu'. rewrite Em, lookup_delete_ne by (intros ->; done). apply Hin. set_solver. }
    exists (t :: ts). rewrite E1, Eo, <- app_assoc. split; [done|]. constructor; [done|].
    eapply Forall2_impl; [|exact E2]. cbn. intros u' t'. rewrite Em, lookup_delete_Some. by intros [_ ?].
Qed.

(** The task of the sender is touched by its packets. *)
Lemma send_packets_tasks MaxData self packet_id e nt len buffer a b n t :
  transferTaskMap n = {[nt_TaskId nt +:+ ss_SliceHash (nt_SliceStorageInfo nt) := t]} →
  ∃ s d, transferTaskMap (send_packets MaxData self packet_id e nt len buffer a b n)
    = {[nt_TaskId nt +:+ ss_SliceHash (nt_SliceStorageInfo nt)
        := mkTask (tt_TaskId t) (tt_IsReceiver t) (tt_DeleteOrigin t) (tt_PpInfo t) (tt_SliceStorageInfo t) (tt_FileHash t)
             (tt_SliceNum t) (tt_ReceiverP2pAddress t) (tt_SpP2pAddress t) s d]} ∧ (d = tt_LastTouchTime t ∨ d = unix_now e).
Proof.
  revert a b n t. induction buffer as [|x buffer IH]; intros a b n t Hn; cbn [send_packets].
  - exists (tt_AlreadySize t), (tt_LastTouchTime t). destruct t. auto.
  - unfold new_packet. case_bool_decide.
    + exists (tt_AlreadySize t), (tt_LastTouchTime t). destruct t. auto.
    + edestruct (fun a b n => IH a b n (add_size (zlen x) (unix_now e) t)) as (s & d & E & Hd); [|exists s, d; split; [exact E|]].
      * unfold AddAlreadySizeToTransferTask. cbn [emit StartSendPacket set_send set_packets transferTaskMap]. rewrite Hn, lookup_singleton_eq.
        cbn [snd set_tasks transferTaskMap emit set_send set_packets]. apply insert_singleton_eq.
      * cbn in Hd. naive_solver.
Qed.

(** A node that sends a slice never reports that the transfer timed out: it
    stores its task without the task's id, so that the report, which looks the task
    up again by that id, finds nothing.  The task is forgotten and the SP hears
    nothing, whatever the time. *)
Theorem senders_time_out_silently io_err rootPath StoragePath MaxData `{L : Mmap} pool self packet_id e e' nt newPp n :
  transferTaskMap n = ∅ → nt_TaskId nt ≠ "" → spam_key nt ∉ transferSliceSpamCheckMap n →
  (unix_now e + TRANSFER_TASK_TIMEOUT_THRESHOLD < unix_now e')%Z →
  let n1 := ReqTransferDownload io_err rootPath StoragePath MaxData pool self packet_id e true nt newPp n in
  let n2 := CheckTransferTimeout e' n1 in
  is_Some (GetTransferTask (nt_TaskId nt) (ss_SliceHash (nt_SliceStorageInfo nt)) n1)
  ∧ transferTaskMap n2 = ∅ ∧ outbox n2 = outbox n1.
Proof.
  intros Hn Htask Hspam Hlate n1 n2. set (key := nt_TaskId nt +:+ ss_SliceHash (nt_SliceStorageInfo nt)).
  assert (∃ t, transferTaskMap n1 = {[key := t]} ∧ tt_TaskId t = "" ∧ tt_SliceStorageInfo t = nt_SliceStorageInfo nt
               ∧ tt_LastTouchTime t = unix_now e) as (t & Et & Eid & Es & El).
  { unfold n1, ReqTransferDownload. cbn [negb]. rewrite bool_decide_eq_false_2 by done. unfold GetTransferSliceData.
    destruct (slice_packets _ _ _ _ _ _ _) as [[len buffer] n3] eqn:E.
    assert (transferTaskMap n3 = {[key := mkTask "" false (nt_DeleteOrigin nt) (nt_PpInfo nt) (nt_SliceStorageInfo nt) (nt_FileHash nt)
                   (nt_SliceNumber nt) newPp (nt_SpP2PAddress nt) 0 (unix_now e)]}) as E3.
    { revert E. unfold slice_packets, run_fs, AddTransferTask. cbn [set_tasks set_spam transferTaskMap]. rewrite Hn.
      repeat case_match; intros; by simplify_eq/=. }
    edestruct (send_packets_tasks MaxData self packet_id e nt len buffer 0 MaxData) as (s & d & Ep & Hd); [exact E3|].
    eexists. split; [exact Ep|]. cbn in Hd |- *. naive_solver. }
  assert (GetTimeoutTransfer (unix_now e') n1 = [key]) as Eu.
  { unfold GetTimeoutTransfer. rewrite Et, map_to_list_singleton. cbn. rewrite decide_True by (cbn; lia). done. }
  split; [unfold GetTransferTask; rewrite Et; fold key; rewrite lookup_singleton_eq; by eexists|].
  unfold n2, CheckTransferTimeout. rewrite Eu. unfold sendTransferFailureReportToSP, report_timeout, GetTransferTaskByTaskSliceUID. cbn [foldl].
  rewrite Et, lookup_singleton_eq. cbn [CleanTransferTaskByTaskSliceUID set_tasks transferTaskMap outbox].
  unfold SendReportBackupSliceResult, GetTransferTask. rewrite Et, Eid, Es, lookup_singleton_ne.
  - rewrite Et, delete_singleton_eq. done.
  - unfold key. destruct (nt_TaskId nt); [done|]. intros E. by apply string_app_longer in E.
Qed.

(** ** Two nodes *)

(** A hash with what the hypotheses ask of it: the sum of the bytes, as a name. *)
Definition sum_hash : HashLib := {|
  cid_Hash _ := [Byte.x00];
  mh_Sum b := [byte_of_Z (foldr Z.add 0 (map Z_of_byte b))];
  cid_String b := "v05ahm50123" +:+ pretty (foldr Z.add 0 (map Z_of_byte b))
|}.

Definition w_data : bytes := string_bytes "abcd".
Definition w_hash : string := match CalcSliceHash (H := sum_hash) w_data "file" 1 with Ok h => h | _ => "" end.
Definition w_notice : Notice :=
  mkNotice "task" "file" (mkSSI w_hash 4) 1 (mkPPInfo "nodeS" "netS") "sp" true "nodeR" 7.
Definition w_env (now : Z) : Env := mkEnv now true (fun _ => true).
Definition w_pool (n : Z) : bytes := replicate (Z.to_nat n) Byte.x00.
Definition w_ids (n : nat) : Z := Z.of_nat n + 1.
Definition w_no_err (_ : syscall) (_ : string) : bool := false.
Definition w_nS : N := N0 (SaveSliceData w_no_err "/sds" w_data w_hash 0 (mkFS ∅ ∅)).2.

Lemma transfer_moves_the_slice_witness :
  let nR1 := NoticeFileSliceBackup "nodeR" (w_env 100) true w_notice (N0 (mkFS ∅ ∅)) in
  let nS1 := ReqTransferDownload (L := copy_mmap) w_no_err "/root" "/sds" 3 w_pool "nodeS" w_ids (w_env 100) true w_notice "nodeR" w_nS in
  outbox nR1 = [ToPP "netS" w_notice]
  ∧ ∃ pkts, outbox nS1 = map (fun p => Packet p.1 p.2) pkts
    ∧ contents ["sds"] (n_fs (deliver (H := sum_hash) ["sds"] (map (fun p => (w_env 100, 5, p.2)) (reverse pkts)) nR1)) w_hash = Some w_data.
Proof.
  intros nR1 nS1.
  edestruct (transfer_moves_the_slice (H := sum_hash) (L := copy_mmap) "/root" ["sds"] 3 w_pool w_ids) with
    (nt := w_notice) (c := w_data) (newPp := "nodeR") (sender := "nodeS") (receiver := "nodeR") (eS := w_env 100) (eR := w_env 100)
    (nS := w_nS) (nR := N0 (mkFS ∅ ∅)) as (E1 & pkts & E2 & E3 & _).
  1: repeat constructor; done.
  1: apply copy_mmap_laws.
  1: intros n Hn; unfold zlen, w_pool; rewrite length_replicate; lia.
  1: lia.
  1: unfold w_ids; lia.
  1: unfold w_ids; lia.
  1: by apply good_hash_by_computation.
  1: done.
  1: done.
  1: done.
  1: reflexivity.
  1: vm_compute; reflexivity.
  1: done.
  1: done.
  1: done.
  1: apply tidy_empty.
  1: done.
  1: done.
  1: done.
  split; [exact E1|]. exists pkts. split; [exact E2|]. eapply E3.
  - rewrite map_map. cbn. by rewrite reverse_Permutation.
  - apply Forall_fmap, Forall_true. done.
Defined.

Definition w_packet : RspData := transfer_packet "nodeS" w_notice w_data 0 4.
Definition w_nR : N := NoticeFileSliceBackup "nodeR" (w_env 100) true w_notice (N0 (mkFS ∅ ∅)).


(** The sender after its one packet of the slice, and the answer to it. *)
Definition w_sent : N :=
  HandleSendPacketCostTime (w_env 101) 1 5
    (ReqTransferDownload (L := copy_mmap) w_no_err "/root" "/sds" 30 w_pool "nodeS" w_ids (w_env 100) true w_notice "nodeR" w_nS).
Definition w_result : event := EvResult (w_env 102) true (mkRspResult "task" true "sp" w_hash).


(** The sender is told to fetch the slice back under the same task before the answer to
    its packets comes in: it reports to have received what it never got. *)
Example receipt_without_a_packet :
  let back := mkNotice "task" "file" (mkSSI w_hash 4) 1 (mkPPInfo "nodeT" "netT") "sp" true "nodeS" 8 in
  let n := NoticeFileSliceBackup "nodeS" (w_env 101) true back w_sent in
  let n' := step (L := copy_mmap) (H := sum_hash) w_no_err "/root" "/sds" 30 w_pool "nodeS" w_ids w_result n in
  match head (reverse (outbox n')) with Some (ToSP rp) => rp_success rp && rp_IsReceiver rp | _ => false end = true.
Proof. vm_compute. reflexivity. Qed.

Lemma timed_out_transfers_are_reported_witness :
  let n' := sendTransferFailureReportToSP (w_env 281) ["task" +:+ w_hash] w_nR in
  transferTaskMap n' = filter (fun kt => ¬ timed_out 281 kt.2) (transferTaskMap w_nR)
  ∧ ∃ ts, outbox n' = outbox w_nR ++ map timeout_report ts
    ∧ Forall2 (fun u t => transferTaskMap w_nR !! u = Some t) ["task" +:+ w_hash] ts
    ∧ NoDup ["task" +:+ w_hash] ∧ ∀ u t, transferTaskMap w_nR !! u = Some t → timed_out 281 t → u ∈ ["task" +:+ w_hash].
Proof.
  apply (timed_out_transfers_are_reported (w_env 281) w_nR ["task" +:+ w_hash]).
  - intros k t. unfold w_nR, NoticeFileSliceBackup. cbn [negb w_notice nt_PpInfo pp_P2PAddress]. 
    rewrite bool_decide_eq_false_2 by done. cbn. rewrite lookup_insert_Some, lookup_empty. intros [[<- <-]|[_ ?]]; done.
  - done.
  - vm_compute. reflexivity.
Defined.

Lemma senders_time_out_silently_witness :
  let n1 := ReqTransferDownload (L := copy_mmap) w_no_err "/root" "/sds" 3 w_pool "nodeS" w_ids (w_env 100) true w_notice "nodeR" w_nS in
  let n2 := CheckTransferTimeout (w_env 281) n1 in
  is_Some (GetTransferTask "task" w_hash n1) ∧ transferTaskMap n2 = ∅ ∧ outbox n2 = outbox n1.
Proof.
  apply (senders_time_out_silently (L := copy_mmap) w_no_err "/root" "/sds" 3 w_pool "nodeS" w_ids (w_env 100) (w_env 281) w_notice "nodeR" w_nS).
  - reflexivity.
  - done.
  - done.
  - done.
Defined.
