(* ===== verification/UploadSlice.v ===== *)
(** * UploadSlice: the pieces of an upload and the serving of a download

    Models pp/event/upload_slice.go and the serving side of
    pp/event/download_slice.go, with the builders of their messages in
    pp/requests/requests.go.

    The node that uploads a file reads each slice from its temporary folder and
    sends it in pieces to a storage node.  The storage node saves the pieces, checks
    the hash of the slice when the file has its size, answers and reports to the SP;
    the answer makes the uploading node mark the slice as finished and report too.
    Backups of slices go the same way with messages of their own.  A storage node
    serves a slice of a download in packets and reports when the last one has left.

    Conventions as in Transfer: a handler takes the node and the outcome of the
    verification of its message; a nil pointer or an index out of range is a panic,
    which leaves what was done before it. *)
From stdpp Require Import pretty.
From S2P Require Import Prelude Bytes UploadTask Paths Storage Node Transfer.

(** [for _, slice = range slices { if slice.SliceNumber == number { break } }]: the
    last slice when none has the number, nil when there is none. *)
Fixpoint find_slice {A} (num : A → Z) (number : Z) (slice : option A) (l : list A) : option A :=
  match l with
  | [] => slice
  | s :: l => if bool_decide (num s = number) then Some s else find_slice num number (Some s) l
  end.

Definition slice_of (number : Z) (r : RspFile) : option SliceAddr := find_slice sa_SliceNumber number None (rf_Slices r).

Definition nil_panic : res unit := Panic "invalid memory address or nil pointer dereference".

(** Bytes of a slice, [uint64] arithmetic on its offsets. *)
Definition msg_size (slice : SliceAddr) : Z := u64 (sa_OffsetEnd slice - sa_OffsetStart slice).

(** ** The storage node *)

Section Store.
Context (io_err : syscall → string → bool) (rootPath StoragePath : string).
Context (MaxData : Z) {L : Mmap} (pool : Z → bytes) {H : HashLib}.
Context (self : string) (packet_id : nat → Z).

#[local] Abbreviation SaveSliceData := (SaveSliceData io_err StoragePath).
#[local] Abbreviation GetSliceSize := (GetSliceSize io_err StoragePath).
#[local] Abbreviation GetSliceData := (GetSliceData io_err StoragePath).
#[local] Abbreviation DeleteSlice := (DeleteSlice io_err StoragePath).
#[local] Abbreviation ReadSliceData := (ReadSliceData io_err rootPath StoragePath MaxData pool).
#[local] Abbreviation ReadSliceDataFromTmp := (ReadSliceDataFromTmp io_err rootPath MaxData pool).

Definition upload_spam_key (p : Piece) : string :=
  rf_TaskId (pc_Rsp p) +:+ pretty (i64 (pc_SliceNumber p)) +:+ pretty (i64 (pc_Start p)) +:+ pc_P2PAddress p
    +:+ pretty (rf_TimeStamp (pc_Rsp p)).
Definition backup_spam_key (p : Piece) : string :=
  rf_TaskId (pc_Rsp p) +:+ pretty (i64 (pc_SliceNumber p)) +:+ pc_P2PAddress p +:+ pretty (rf_TimeStamp (pc_Rsp p)).

(** The key of the cost times of a slice. *)
Definition tk_slice (taskId : string) (number : Z) : string := taskId +:+ pretty number.

(** "add up costTime" *)
Definition add_up_cost (k : string) (costTime : Z) (n : N) : Z * N :=
  let m := UpRecvCostTimeMap (n_serving n) in
  let total := match m !! k with Some v => i64 (costTime + v) | None => costTime end in
  (total, set_up_recv (<[k := total]> m) n).
Definition drop_up_cost (k : string) (n : N) : N := set_up_recv (delete k (UpRecvCostTimeMap (n_serving n))) n.

(** [RspUploadFileSliceData] and [RspBackupFileSliceData]. *)
Definition upload_answer (p : Piece) : UploadRsp :=
  mkUploadRsp (rf_TaskId (pc_Rsp p)) (rf_FileHash (pc_Rsp p)) (pc_SliceHash p) (slice_of (pc_SliceNumber p) (pc_Rsp p)) true
    (rf_SpP2PAddress (pc_Rsp p)).

Definition with_hash (h : string) (s : SliceAddr) : SliceAddr :=
  mkSliceAddr h (sa_SliceSize s) (sa_SliceNumber s) (sa_OffsetStart s) (sa_OffsetEnd s) (sa_PpInfo s).

(** The end of both handlers: when the file has the size of the slice, check its
    hash; [backup] tells them apart: a file with a wrong hash is deleted only after
    an upload, and the reports name different opponents and slices. *)
Definition finish_slice (e : Env) (backup : bool) (p : Piece) (slice : SliceAddr) (totalCostTime : Z) (n : N) : res unit * N :=
  let hash := pc_SliceHash p in
  let k := tk_slice (rf_TaskId (pc_Rsp p)) (pc_SliceNumber p) in
  let '(r, n) := run_fs (GetSliceSize hash) n in
  match r with
  | Panic m => (Panic m, n)
  | Err _ => (Ok (), n)
  | Ok sliceSize =>
      if bool_decide (sliceSize = i64 (msg_size slice)) then
        let '(r, n) := run_fs (GetSliceData hash) n in
        match r with
        | Panic m => (Panic m, n)
        | Err _ => (Ok (), n)
        | Ok sliceData =>
            match CalcSliceHash sliceData (rf_FileHash (pc_Rsp p)) (pc_SliceNumber p) with
            | Ok sliceHash =>
                if bool_decide (sliceHash = hash) then
                  let n := emit (UploadAnswer backup (upload_answer p)) n in
                  let report := if backup
                    then mkUploadReport (rf_TaskId (pc_Rsp p)) (rf_FileHash (pc_Rsp p)) (rf_SpP2PAddress (pc_Rsp p)) self slice totalCostTime
                    else mkUploadReport (rf_TaskId (pc_Rsp p)) (rf_FileHash (pc_Rsp p)) (rf_SpP2PAddress (pc_Rsp p)) (pc_P2PAddress p)
                           (with_hash hash slice) totalCostTime in
                  let n := SendMessageToSPServer e (ToSPUpload report) n in
                  (Ok (), drop_up_cost k n)
                else if backup then (Ok (), n)
                else
                  let '(r, n) := run_fs (DeleteSlice hash) n in
                  (match r with Panic m => Panic m | _ => Ok () end, n)
            | Err _ => (Ok (), n)
            | Panic m => (Panic m, n)
            end
        end
      else (Ok (), n)
  end.

Definition ReqUploadFileSlice (e : Env) (verified : bool) (costTime : Z) (p : Piece) (n : N) : res unit * N :=
  if negb verified then (Ok (), n)
  else
    match slice_of (pc_SliceNumber p) (pc_Rsp p) with
    | None => (nil_panic, n)
    | Some slice =>
        if bool_decide (sa_SliceSize slice < pc_Start p) || bool_decide (pc_Start p `mod` MaxData ≠ 0)
        then (Ok (), emit (UploadRefused false "the offset of the piece in slice is wrong") n)
        else if bool_decide (upload_spam_key p ∈ uploadSliceSpamCheckMap (n_serving n))
        then (Ok (), emit (UploadRefused false "repeated upload slice request, refused") n)
        else
          let s := n_serving n in
          let n := set_spams ({[upload_spam_key p]} ∪ uploadSliceSpamCheckMap s) (backupSliceSpamCheckMap s) (downloadSliceSpamCheckMap s) n in
          if bool_decide (pp_P2PAddress (sa_PpInfo slice) ≠ self)
          then (Ok (), emit (UploadRefused false "mismatch between p2p address in the request and node p2p address.") n)
          else
            let '(totalCostTime, n) := add_up_cost (tk_slice (rf_TaskId (pc_Rsp p)) (pc_SliceNumber p)) costTime n in
            let n := emit (Speed (rf_FileHash (pc_Rsp p)) (u64 (pc_End p - pc_Start p))
                             (u64 ((pc_SliceNumber p - 1) * 33554432 + pc_Start p))) n in
            let '(r, n) := run_fs (GetSliceSize (pc_SliceHash p)) n in
            match r with
            | Panic m => (Panic m, n)
            | _ =>
                let sliceSize := match r with Ok size => size | _ => 0 end in
                if bool_decide (pc_Start p < u64 sliceSize) then
                  if bool_decide (pc_End p ≠ msg_size slice) then (Ok (), n)
                  else finish_slice e false p slice totalCostTime n
                else
                  let '(r, n) := run_fs (SaveSliceData (pc_Data p) (pc_SliceHash p) (pc_Start p)) n in
                  match r with
                  | Panic m => (Panic m, n)
                  | Err _ => (Ok (), n)
                  | Ok _ => finish_slice e false p slice totalCostTime n
                  end
            end
    end.

Definition ReqBackupFileSlice (e : Env) (verified : bool) (costTime : Z) (p : Piece) (n : N) : res unit * N :=
  if negb verified then (Ok (), n)
  else if bool_decide (backup_spam_key p ∈ backupSliceSpamCheckMap (n_serving n))
  then (Ok (), emit (UploadRefused true "repeated backup slice request, refused") n)
  else
    let s := n_serving n in
    let n := set_spams (uploadSliceSpamCheckMap s) ({[backup_spam_key p]} ∪ backupSliceSpamCheckMap s) (downloadSliceSpamCheckMap s) n in
    match slice_of (pc_SliceNumber p) (pc_Rsp p) with
    | None => (nil_panic, n)
    | Some slice =>
        if bool_decide (pp_P2PAddress (sa_PpInfo slice) ≠ self)
        then (Ok (), emit (UploadRefused true "mismatch between p2p address in the request and node p2p address.") n)
        else
          let '(totalCostTime, n) := add_up_cost (tk_slice (rf_TaskId (pc_Rsp p)) (pc_SliceNumber p)) costTime n in
          let n := emit (Speed (rf_FileHash (pc_Rsp p)) (zlen (pc_Data p)) (u64 ((pc_SliceNumber p - 1) * 33554432 + pc_Start p))) n in
          let '(r, n) := run_fs (SaveSliceData (pc_Data p) (pc_SliceHash p) (pc_Start p)) n in
          match r with
          | Panic m => (Panic m, n)
          | Err _ => (Ok (), n)
          | Ok _ => finish_slice e true p slice totalCostTime n
          end
    end.

Definition GetOngoingUploadTaskCount (n : N) : Z := Z.of_nat (size (UpRecvCostTimeMap (n_serving n))).

(** ** The uploading node *)

(** [task.UploadSliceTask]; [Type] is [BACKUP] or not. *)
Record SliceTask := mkSliceTask {
  st_RspUploadFile : option RspFile;
  st_RspBackupFile : option RspFile;
  st_SliceNumber : Z;
  st_SliceHash : string;
  st_backup : bool
}.

(** [SendMessageByCachedConn] *)
Definition sendSlice (e : Env) (packetId : Z) (addr : string) (backup : bool) (p : Piece) (n : N) : res unit * N :=
  if reach e addr then (Ok (), emit (PieceOut packetId addr backup p) n) else (Err "failed to send", n).

(** [ReqUploadFileSliceData] reads the owner's address of [RspUploadFile];
    [RspBackupFile] has been read by the time a piece is made. *)
Definition make_piece (tk : SliceTask) (start stop : Z) (data : bytes) : option Piece :=
  r ← (if st_backup tk then st_RspBackupFile tk else st_RspUploadFile tk);
  Some (mkPiece r (st_SliceNumber tk) (st_SliceHash tk) data start stop self).

Definition send_piece (e : Env) (packetId : Z) (addr : string) (tk : SliceTask) (start stop : Z) (data : bytes) (n : N) : res unit * N :=
  match make_piece tk start stop data with
  | None => (nil_panic, n)
  | Some p => sendSlice e packetId addr (st_backup tk) p n
  end.

(** The loop of [uploadSlice] over the packets of the slice; [ctStat] lives across
    its rounds. *)
Fixpoint upload_pieces (e : Env) (addr uid : string) (tk : SliceTask) (tkDataLen : Z) (data : list bytes) (dataStart dataEnd : Z)
    (ctStat : CostTimeStat) (n : N) : res unit * N :=
  match data with
  | [] => (Ok (), n)
  | packet :: data =>
      let '(packetId, n) := new_packet packet_id (mkTaskSlice uid SliceUpload "" "" "" false) n in
      let ctStat := default ctStat (UpSendCostTimeMap (n_serving n) !! uid) in
      let ctStat := mkStat (TotalCostTime ctStat) (i64 (PacketCount ctStat + 1)) in
      let n := set_up_send (<[uid := ctStat]> (UpSendCostTimeMap (n_serving n))) n in
      if bool_decide (dataEnd ≤ tkDataLen) then
        match send_piece e packetId addr tk dataStart dataEnd packet n with
        | (Ok _, n) => upload_pieces e addr uid tk tkDataLen data (dataStart + MaxData) (dataEnd + MaxData) ctStat n
        | r => r
        end
      else send_piece e packetId addr tk dataStart (u64 tkDataLen) packet n
  end.

Definition uploadSlice (e : Env) (slice : option SliceAddr) (tk : SliceTask) (fileHash taskId : string) (n : N) : res unit * N :=
  match slice with
  | None => (nil_panic, n)
  | Some slice =>
      let tkDataLen := i64 (msg_size slice) in
      let addr := pp_NetworkAddress (sa_PpInfo slice) in
      let uid := tk_slice taskId (st_SliceNumber tk) in
      let '(r, n) := run_fs (ReadSliceDataFromTmp fileHash (st_SliceHash tk)) n in
      match r with
      | Panic m => (Panic m, n)
      | Err m => (Err m, n)
      | Ok (_, _, false) => (Err "failed to get slice data from tmp", n)
      | Ok (_, data, true) =>
          if bool_decide (tkDataLen ≤ MaxData) then
            let '(packetId, n) := new_packet packet_id (mkTaskSlice uid SliceUpload "" "" "" false) n in
            let n := set_up_send (<[uid := mkStat 0 1]> (UpSendCostTimeMap (n_serving n))) n in
            match data with
            | [] => (Panic "index out of range [0] with length 0", n)
            | d :: _ => send_piece e packetId addr tk 0 (u64 tkDataLen) d n
            end
          else
            let n := set_up_send (<[uid := stat0]> (UpSendCostTimeMap (n_serving n))) n in
            upload_pieces e addr uid tk tkDataLen data 0 MaxData stat0 n
      end
  end.

Definition UploadFileSlice (e : Env) (tk : SliceTask) (n : N) : res unit * N :=
  match st_RspUploadFile tk with
  | None => (nil_panic, n)
  | Some r => uploadSlice e (slice_of (st_SliceNumber tk) r) tk (rf_FileHash r) (rf_TaskId r) n
  end.
Definition BackupFileSlice (e : Env) (tk : SliceTask) (n : N) : res unit * N :=
  match st_RspBackupFile tk with
  | None => (nil_panic, n)
  | Some r => uploadSlice e (slice_of (st_SliceNumber tk) r) tk (rf_FileHash r) (rf_TaskId r) n
  end.

(** The uploading node also has its upload tasks and the progress of its files;
    [un_log] is what it does besides sending. *)
Record UploadProgress := mkProgress { pg_Total : Z; pg_HasUpload : Z }.
Inductive action := CleanUpConnMap (fileHash : string) | ScheduleReqBackupStatus (fileHash : string) | NewDestinations (fileHash : string).
Record UN := mkUN {
  un_node : N;
  UploadFileTaskMap : gmap string UploadFileTask;
  UploadProgressMap : gmap string UploadProgress;
  un_log : list action
}.

Definition set_node (n : N) (u : UN) : UN := mkUN n (UploadFileTaskMap u) (UploadProgressMap u) (un_log u).
Definition set_task (fileHash : string) (t : UploadFileTask) (u : UN) : UN :=
  mkUN (un_node u) (<[fileHash := t]> (UploadFileTaskMap u)) (UploadProgressMap u) (un_log u).

(** The cost of a slice whose packets have all left. *)
Definition completed_cost (k : string) (n : N) : option Z :=
  match UpSendCostTimeMap (n_serving n) !! k with
  | Some s => if bool_decide (PacketCount s = 0) && bool_decide (0 < TotalCostTime s) then Some (TotalCostTime s) else None
  | None => None
  end.
Definition drop_send_cost (k : string) (n : N) : N := set_up_send (delete k (UpSendCostTimeMap (n_serving n))) n.

(** [order] is the order in which the map of destinations is walked. *)
Definition RspUploadFileSlice (e : Env) (order : list string) (verified : bool) (target : UploadRsp) (u : UN) : res unit * UN :=
  if negb verified || negb (ur_success target) then (Ok (), u)
  else
    match ur_Slice target with
    | None => (Ok (), u)
    | Some slice =>
        let k := tk_slice (ur_TaskId target) (sa_SliceNumber slice) in
        match completed_cost k (un_node u) with
        | None => (Ok (), u)
        | Some cost =>
            match UploadFileTaskMap u !! ur_FileHash target with
            | None => (Ok (), u)
            | Some fileTask =>
                match SetUploadSliceStatus order (ur_SliceHash target) SLICE_STATUS_FINISHED fileTask with
                | Ok fileTask =>
                    let u := set_task (ur_FileHash target) fileTask u in
                    let report := mkUploadReport (ur_TaskId target) (ur_FileHash target) (ur_SpP2PAddress target)
                                    (pp_P2PAddress (sa_PpInfo slice)) (with_hash (ur_SliceHash target) slice) cost in
                    (Ok (), set_node (drop_send_cost k (SendMessageToSPServer e (ToSPUpload report) (un_node u))) u)
                | Err _ => (Ok (), u)
                | Panic m => (Panic m, u)
                end
            end
        end
    end.

(** The log line of the handler reads [target.Slice] before anything is checked. *)
Definition RspBackupFileSlice (e : Env) (verified : bool) (target : UploadRsp) (n : N) : res unit * N :=
  if negb verified then (Ok (), n)
  else
    match ur_Slice target with
    | None => (nil_panic, n)
    | Some slice =>
        if negb (ur_success target) then (Ok (), n)
        else
          let k := tk_slice (ur_TaskId target) (sa_SliceNumber slice) in
          match completed_cost k n with
          | None => (Ok (), n)
          | Some cost =>
              let report := mkUploadReport (ur_TaskId target) (ur_FileHash target) (ur_SpP2PAddress target) self slice cost in
              (Ok (), drop_send_cost k (SendMessageToSPServer e (ToSPUpload report) n))
          end
    end.

(** [RspUploadSlicesWrong]: the slices of the answer as the task keeps them. *)
Definition task_slice (s : SliceAddr) : SliceHashAddr := mkSliceHashAddr (sa_SliceNumber s) (sa_SliceHash s) (pp_P2PAddress (sa_PpInfo s)).
Definition task_rsp (r : RspFile) : UploadTask.RspFile := mkRsp (rf_FileHash r) (rf_TaskId r) (rf_SpP2PAddress r) (map task_slice (rf_Slices r)).

Definition RspUploadSlicesWrong (order : list string) (verified success : bool) (msg : string) (r : RspFile) (u : UN) : res unit * UN :=
  if negb verified then (Ok (), u)
  else
    match UploadFileTaskMap u !! rf_FileHash r with
    | None => (Ok (), u)
    | Some t =>
        if negb success then (Ok (), set_task (rf_FileHash r) (SetFatalError msg t) u)
        else if bool_decide (rf_Slices r = [])
        then (Ok (), set_task (rf_FileHash r) (SetFatalError "No new slices in RspUploadSlicesWrong for file" t) u)
        else
          let t := UpdateSliceDestinationsForRetry order (map task_slice (rf_Slices r)) t in
          match SetRspUploadFile t (task_rsp r) with
          | Ok t => (Ok (), let u := set_task (rf_FileHash r) t u in
                            mkUN (un_node u) (UploadFileTaskMap u) (UploadProgressMap u) (un_log u ++ [NewDestinations (rf_FileHash r)]))
          | Err m => (Err m, u)
          | Panic m => (Panic m, set_task (rf_FileHash r) t u)
          end
    end.

Definition UploadSpeedOfProgress (verified : bool) (fileHash : string) (SliceSize : Z) (u : UN) : UN :=
  if negb verified then u
  else
    match UploadProgressMap u !! fileHash with
    | None => u
    | Some p =>
        let p := mkProgress (pg_Total p) (i64 (pg_HasUpload p + i64 SliceSize)) in
        if bool_decide (pg_Total p ≤ pg_HasUpload p)
        then mkUN (un_node u) (UploadFileTaskMap u) (delete fileHash (UploadProgressMap u))
               (un_log u ++ [CleanUpConnMap fileHash; ScheduleReqBackupStatus fileHash])
        else mkUN (un_node u) (UploadFileTaskMap u) (<[fileHash := p]> (UploadProgressMap u)) (un_log u)
    end.

(** ** The serving side of a download *)

(** [verifyDownloadSliceHash] *)
Definition verifyDownloadSliceHash (fileHash : string) (number : Z) (slice : DownSlice) (buffers : list bytes) : bool :=
  match CalcSliceHash (concat buffers) fileHash number with
  | Ok sliceHash => bool_decide (di_SliceHash slice = sliceHash)
  | _ => false
  end.

(** [raw_size] is the field of the protobuf message [EncryptedSlice] that [data]
    encodes, if it does. *)
Context (raw_size : bytes → option Z).

(** [GetDownloadSlice] and [RspDownloadSliceData]: the answer and the packets. *)
Definition RspDownloadSliceData (target : ReqSlice) (slice : DownSlice) (n : N) : res (option (DownRsp * list bytes)) * N :=
  let info := rq_Info target in
  let '(r, n) := run_fs (ReadSliceData (si_FileHash info) (di_SliceHash slice)) n in
  match r with
  | Panic m => (Panic m, n)
  | Err _ => (Ok None, n)
  | Ok (_, _, false) => (Ok None, n)
  | Ok (sz, buffers, true) =>
      let encrypted := bool_decide (si_EncryptionTag info ≠ "") in
      let rawSize := if encrypted then default (u64 sz) (raw_size (concat buffers)) else u64 sz in
      (Ok (Some (mkDownRsp (rq_P2PAddress target) (di_SliceHash slice) (di_OffsetStart slice) (di_OffsetEnd slice) 0 0
                   (si_FileHash info) (di_TaskId slice) rawSize encrypted (si_SpP2PAddress info) (rq_SliceNumber target) false, buffers)), n)
  end.

(** [RspDownloadSliceDataSplit] *)
Definition RspDownloadSliceDataSplit (rsp : DownRsp) (dataStart dataEnd offsetStart offsetEnd : Z) (last : bool) : DownRsp :=
  let sliceEnd := if last then dr_OffsetEnd rsp else offsetEnd in
  let encEnd := if last then dr_SliceSize rsp else dataEnd in
  mkDownRsp (dr_P2PAddress rsp) (dr_SliceHash rsp)
    (if dr_IsEncrypted rsp then dr_OffsetStart rsp else offsetStart) (if dr_IsEncrypted rsp then dr_OffsetEnd rsp else sliceEnd)
    dataStart encEnd (dr_FileHash rsp) (dr_TaskId rsp) (dr_SliceSize rsp) (dr_IsEncrypted rsp) (dr_SpP2PAddress rsp)
    (dr_SliceNumber rsp) last.

Definition down_uid (rsp : DownRsp) : string := dr_TaskId rsp +:+ dr_SliceHash rsp.

Fixpoint serve_packets (rsp : DownRsp) (data : list bytes) (dataStart dataEnd offsetStart offsetEnd : Z) (n : N) : N :=
  match data with
  | [] => n
  | packet :: data =>
      let '(packetId, n) := new_packet packet_id (mkTaskSlice (down_uid rsp) SliceDownload "" "" "" false) n in
      let n := StartSendPacket (down_uid rsp) n in
      if bool_decide (dataEnd < dr_SliceSize rsp) then
        let n := emit (DownPacket packetId (RspDownloadSliceDataSplit rsp dataStart dataEnd offsetStart offsetEnd false) packet) n in
        serve_packets rsp data (u64 (dataStart + MaxData)) (u64 (dataEnd + MaxData)) (u64 (offsetStart + MaxData))
          (u64 (offsetEnd + MaxData)) n
      else emit (DownPacket packetId (RspDownloadSliceDataSplit rsp dataStart 0 offsetStart 0 true) packet) n
  end.

Definition splitSendDownloadSliceData (target : ReqSlice) (n : N) : res unit * N :=
  let info := rq_Info target in
  match find_slice di_SliceNumber (rq_SliceNumber target) None (si_SliceInfo info) with
  | None => (nil_panic, n)
  | Some slice =>
      match RspDownloadSliceData target slice n with
      | (Panic m, n) => (Panic m, n)
      | (Err m, n) => (Err m, n)
      | (Ok None, n) => (Ok (), n)
      | (Ok (Some (rsp, data)), n) =>
          (Ok (),
           if bool_decide ((di_TaskId slice +:+ di_SliceHash slice) ∈ DownloadSliceTaskMap (n_serving n))
           then emit (DownRefused (Some rsp) "duplicate request for the same slice in the same download task") n
           else if negb (verifyDownloadSliceHash (si_FileHash info) (rq_SliceNumber target) slice data)
           then emit (DownRefused (Some rsp) "slice hash validation failed") n
           else if bool_decide (dr_SliceSize rsp = 0) then emit (DownRefused (Some rsp) "cannot find the file slice") n
           else
             let n := set_served (<[down_uid rsp := rsp]> (downloadRspMap (n_serving n))) (DownloadSliceTaskMap (n_serving n)) n in
             serve_packets rsp data 0 MaxData (dr_OffsetStart rsp) (u64 (dr_OffsetStart rsp + MaxData)) n)
      end
  end.

Definition download_spam_key (r : ReqSlice) : string :=
  si_TaskId (rq_Info r) +:+ pretty (i64 (rq_SliceNumber r)) +:+ rq_P2PAddress r +:+ pretty (si_TimeStamp (rq_Info r)).

Definition ReqDownloadSlice (verified : bool) (target : ReqSlice) (n : N) : res unit * N :=
  if negb verified then (Ok (), n)
  else if bool_decide (download_spam_key target ∈ downloadSliceSpamCheckMap (n_serving n))
  then (Ok (), emit (DownRefused None "repeated download slice request, refused") n)
  else
    let s := n_serving n in
    let n := set_spams (uploadSliceSpamCheckMap s) (backupSliceSpamCheckMap s)
               ({[download_spam_key target]} ∪ downloadSliceSpamCheckMap s) n in
    splitSendDownloadSliceData target n.

Definition GetOngoingDownloadTaskCount (n : N) : Z := Z.of_nat (size (downloadRspMap (n_serving n))).
End Store.

(** ** Strings as keys *)

Lemma string_app_inv_r (s1 s2 t : string) : s1 +:+ t = s2 +:+ t → s1 = s2.
Proof.
  revert s2. induction s1 as [|a s1 IH]; intros [|b s2] E; [done| | |].
  - apply (f_equal String.length) in E. rewrite !length_string_app in E. cbn in E. lia.
  - apply (f_equal String.length) in E. rewrite !length_string_app in E. cbn in E. lia.
  - cbn in E. injection E as -> E. f_equal. by apply IH.
Qed.

(** ** An upload stores the slice *)

Section Uploading.
Context (rootPath : string) (l : list string) (MaxData : Z) {L : Mmap} (pool : Z → bytes) {H : HashLib}.
Context (packet_id : nat → Z).
Context (Hl : Forall name l) `{!MmapLaws L} (Hpool : ∀ n, 0 ≤ n → zlen (pool n) = n) (HM : 0 < MaxData).
Context (Hids : ∀ i j, packet_id i = packet_id j → i = j) (Hpos : ∀ i, 0 < packet_id i).

#[local] Abbreviation no_err := (fun (_ : syscall) (_ : string) => false).
#[local] Abbreviation contents := (contents l).
#[local] Abbreviation tidy := (tidy l).
#[local] Abbreviation place := (place l).

(** The piece of [c] from [off] on. *)
Definition piece (tk : SliceTask) (r : RspFile) (from : string) (c : bytes) (p : Z * bytes) : Piece :=
  mkPiece r (st_SliceNumber tk) (st_SliceHash tk) p.2 p.1 (Z.min (p.1 + MaxData) (zlen c)) from.

(** Pieces reach the storage node one after the other, each with the time it took. *)
Definition receive (self : string) (e : Env) (ps : list (Z * Piece)) (n : N) : N :=
  foldl (fun n cp => (ReqUploadFileSlice no_err (abs l) MaxData self e true cp.1 cp.2 n).2) n ps.

(** What the storage node holds of the slice before the piece at [off] comes. *)
Definition stored_up_to (c : bytes) (hash : string) (off : Z) (fs : FS) : Prop :=
  contents fs hash = if bool_decide (off = 0) then None else Some (take (Z.to_nat off) c).

Lemma upload_key_inj p q :
  pc_Rsp p = pc_Rsp q → pc_SliceNumber p = pc_SliceNumber q → pc_P2PAddress p = pc_P2PAddress q →
  0 ≤ pc_Start p < 2 ^ 62 → 0 ≤ pc_Start q < 2 ^ 62 → upload_spam_key p = upload_spam_key q → pc_Start p = pc_Start q.
Proof.
  unfold upload_spam_key. intros -> -> -> Hp Hq E. do 2 apply (inj (String.append _)) in E.
  apply string_app_inv_r, (inj pretty) in E. rewrite !(wraps_id 64) in E by (unfold in_s; lia). done.
Qed.

Lemma GetSliceSize_absent hash fs :
  good_hash hash → contents fs hash = None →
  ∃ fs' m, GetSliceSize no_err (abs l) hash fs = (Err m, fs') ∧ same_files l fs fs'.
Proof.
  intros Hh Hc. unfold GetSliceSize. destruct (getSlicePath_ok l Hl hash fs Hh) as (fs1 & E & Hs).
  run_M. rewrite E. unfold GetFileInfo. run_M. pose proof Hs as [-> _].
  unfold Storage.contents in Hc. rewrite Hc. eexists _, _. by split.
Qed.

(** The slice [c] that task [tk] sends to the node [store] on the answer [r] of the
    SP. *)
Record upload_of (tk : SliceTask) (r : RspFile) (slice : SliceAddr) (c : bytes) (store : string) : Prop := {
  uo_slice : slice_of (st_SliceNumber tk) r = Some slice;
  uo_number : sa_SliceNumber slice = st_SliceNumber tk;
  uo_size : msg_size slice = zlen c;
  uo_bound : zlen c ≤ sa_SliceSize slice;
  uo_store : pp_P2PAddress (sa_PpInfo slice) = store;
  uo_hash : good_hash (st_SliceHash tk);
  uo_calc : CalcSliceHash c (rf_FileHash r) (st_SliceNumber tk) = Ok (st_SliceHash tk);
  uo_nonempty : c ≠ [];
  uo_short : zlen c < 2 ^ 40
}.

Definition final_report (tk : SliceTask) (r : RspFile) (slice : SliceAddr) (from : string) (cost : Z) : UploadReport :=
  mkUploadReport (rf_TaskId r) (rf_FileHash r) (rf_SpP2PAddress r) from (with_hash (st_SliceHash tk) slice) cost.

(** The end of the handler, with the file as it is after a piece. *)
Lemma finish_slice_ok e tk r slice c store from p stop cost n :
  upload_of tk r slice c store → sp_connected e = true → 0 ≤ stop ≤ zlen c →
  contents (n_fs n) (st_SliceHash tk) = Some (take (Z.to_nat stop) c) →
  let '(res, n') := finish_slice no_err (abs l) store e false (piece tk r from c p) slice cost n in
  res = Ok () ∧ same_files l (n_fs n) (n_fs n')
  ∧ uploadSliceSpamCheckMap (n_serving n') = uploadSliceSpamCheckMap (n_serving n)
  ∧ outbox n' = outbox n ++ (if bool_decide (stop = zlen c)
                              then [UploadAnswer false (upload_answer (piece tk r from c p)); ToSPUpload (final_report tk r slice from cost)]
                              else []).
Proof.
  intros [U1 U0 U2 U3 U4 U5 U6 U7 U8] Hsp Hstop Hc. unfold finish_slice, run_fs.
  cbn [piece pc_SliceHash pc_Rsp pc_SliceNumber pc_P2PAddress].
  destruct (GetSliceSize_ok l Hl _ (n_fs n) _ U5 Hc) as (fs1 & -> & Hs1).
  assert (zlen (take (Z.to_nat stop) c) = stop) as -> by (unfold zlen in *; rewrite length_take; lia).
  rewrite U2, (wraps_id 64) by (unfold in_s; unfold zlen in *; lia). case_bool_decide as Hend.
  2: { rewrite app_nil_r. by split_and!. }
  subst stop. rewrite take_ge in Hc by (unfold zlen; lia).
  cbn [set_fs n_fs]. destruct (GetSliceData_ok l Hl _ fs1 c U5) as (fs2 & -> & Hs2).
  { unfold Storage.contents. by rewrite (proj1 Hs1). }
  rewrite U6, bool_decide_eq_true_2 by done. unfold SendMessageToSPServer. rewrite Hsp.
  cbn [drop_up_cost set_up_recv set_serving emit set_fs n_fs n_serving outbox uploadSliceSpamCheckMap].
  split_and!; [done| |done|by rewrite <- app_assoc].
  destruct Hs1 as [E1 T1], Hs2 as [E2 T2]. split; [by rewrite E2, E1|auto].
Qed.

Definition piece_key (tk : SliceTask) (r : RspFile) (from : string) (off : Z) : string :=
  upload_spam_key (mkPiece r (st_SliceNumber tk) (st_SliceHash tk) [] off 0 from).

(** One piece, where the file ends. *)
Lemma receive_piece e tk r slice c store from off d cost n :
  upload_of tk r slice c store → sp_connected e = true →
  0 ≤ off < zlen c → off mod MaxData = 0 → d = take (Z.to_nat MaxData) (drop (Z.to_nat off) c) →
  tidy (n_fs n) → stored_up_to c (st_SliceHash tk) off (n_fs n) →
  piece_key tk r from off ∉ uploadSliceSpamCheckMap (n_serving n) →
  let '(res, n') := ReqUploadFileSlice no_err (abs l) MaxData store e true cost (piece tk r from c (off, d)) n in
  res = Ok () ∧ tidy (n_fs n') ∧ contents (n_fs n') (st_SliceHash tk) = Some (take (Z.to_nat (off + zlen d)) c)
  ∧ (∀ q, q ≠ place (st_SliceHash tk) → fs_files (n_fs n') !! q = fs_files (n_fs n) !! q)
  ∧ uploadSliceSpamCheckMap (n_serving n') = {[piece_key tk r from off]} ∪ uploadSliceSpamCheckMap (n_serving n)
  ∧ ∃ sp total, outbox n' = outbox n ++ Speed (rf_FileHash r) (zlen d) sp
      :: (if bool_decide (off + zlen d = zlen c)
          then [UploadAnswer false (upload_answer (piece tk r from c (off, d))); ToSPUpload (final_report tk r slice from total)]
          else []).
Proof.
  intros U Hsp Hoff Hmod Hd Ht Hst Hkey. pose proof U as [U1 U0 U2 U3 U4 U5 U6 U7 U8].
  assert (zlen d = Z.min MaxData (zlen c - off)) as Hzd by (subst d; unfold zlen in *; rewrite length_take, length_drop; lia).
  unfold ReqUploadFileSlice. cbn [negb piece pc_Start pc_End pc_Data pc_Rsp pc_SliceNumber pc_SliceHash pc_P2PAddress fst snd]. rewrite U1.
  rewrite (bool_decide_eq_false_2 (sa_SliceSize slice < off)), (bool_decide_eq_false_2 (off `mod` MaxData ≠ 0)) by (lia || auto). cbn [orb].
  change (upload_spam_key _) with (piece_key tk r from off). rewrite (bool_decide_eq_false_2 (_ ∈ _)) by done. rewrite U4.
  rewrite (bool_decide_eq_false_2 (store ≠ store)) by auto. unfold add_up_cost.
  match goal with |- context [emit (Speed ?a ?b ?x) ?m] => set (n1 := emit (Speed a b x) m) end.
  assert (∃ sp, outbox n1 = outbox n ++ [Speed (rf_FileHash r) (zlen d) sp]) as (sp & O1).
  { eexists. unfold n1. cbn [emit outbox set_up_recv set_spams set_serving]. repeat f_equal. rewrite (wrapu_id 64) by (unfold in_u; lia). lia. }
  assert (uploadSliceSpamCheckMap (n_serving n1) = {[piece_key tk r from off]} ∪ uploadSliceSpamCheckMap (n_serving n)) as S1 by done.
  assert (n_fs n1 = n_fs n) as F1 by done. clearbody n1.
  match goal with |- context [finish_slice _ _ _ _ _ _ _ ?x _] => set (tot := x); clearbody tot end.
  set (hash := st_SliceHash tk) in *. unfold run_fs. rewrite F1. set (f0 := default [] (contents (n_fs n) hash)).
  assert (f0 = take (Z.to_nat off) c) as Hf0.
  { unfold f0, stored_up_to in *. rewrite Hst. case_bool_decide as E; [by rewrite E|done]. }
  assert (length f0 = Z.to_nat off) as Hlf0 by (rewrite Hf0, length_take; unfold zlen in *; lia).
  assert (∃ r1 fs1, GetSliceSize no_err (abs l) hash (n_fs n) = (r1, fs1) ∧ same_files l (n_fs n) fs1
    ∧ (r1 = Ok off ∨ (off = 0 ∧ ∃ m, r1 = Err m))) as (r1 & fs1 & -> & Hs1 & Hr1).
  { unfold stored_up_to in Hst. case_bool_decide as E.
    - destruct (GetSliceSize_absent hash (n_fs n) U5 Hst) as (fs1 & m & E1 & Hs1). eexists _, fs1. split_and!; [done|done|]. right. by split; [|exists m].
    - destruct (GetSliceSize_ok l Hl hash (n_fs n) _ U5 Hst) as (fs1 & E1 & Hs1). eexists _, fs1. split_and!; [done|done|]. left. f_equal.
      unfold zlen in *. rewrite length_take. lia. }
  assert ((match r1 with Ok size => size | _ => 0 end) = off) as Hsz by (destruct Hr1 as [->|[-> [m ->]]]; done).
  assert (∀ m, r1 ≠ Panic m) as Hnp by (intros m; destruct Hr1 as [->|[_ [m' ->]]]; done).
  destruct (SaveSliceData_ok l Hl d hash off fs1 U5 (proj2 Hs1 Ht) ltac:(lia)) as (fs2 & Es2 & Ht2 & Ef2).
  assert (contents fs2 hash = Some (take (Z.to_nat (off + zlen d)) c)) as Hc2.
  { unfold Storage.contents. rewrite Ef2, lookup_insert_eq. f_equal. unfold Storage.contents. rewrite (proj1 Hs1).
    change (fs_files (n_fs n) !! Storage.place l hash) with (contents (n_fs n) hash). fold f0. rewrite <- Hlf0, write_at_end, Hf0.
    assert (d = take (Z.to_nat (zlen d)) (drop (Z.to_nat off) c)) as Hd'.
    { rewrite Hd at 1. rewrite Hzd. unfold zlen in *. destruct (Z.min_spec MaxData (Z.of_nat (length c) - off)) as [[Hm ->]|[Hm ->]]; [done|].
      rewrite !take_ge; [done|rewrite length_drop; lia..]. }
    rewrite Hd' at 1. rewrite take_take_drop. f_equal. unfold zlen. lia. }
  set (n2 := set_fs fs2 (set_fs fs1 n1)).
  pose proof (finish_slice_ok e tk r slice c store from (off, d) (off + zlen d) tot n2 U Hsp ltac:(lia) Hc2) as Hfin.
  rewrite Hsz, (bool_decide_eq_false_2 (off < u64 off)) by (rewrite (wrapu_id 64); unfold in_u; lia).
  change (n_fs (set_fs fs1 n1)) with fs1. rewrite Es2. fold n2.
  destruct (finish_slice _ _ _ _ _ _ _ tot n2) as [res n']. destruct Hfin as (-> & [G1 G2] & G3 & G4).
  destruct r1 as [sz|m|m]; [| |by destruct (Hnp m)]; (split_and!;
    [done|by apply G2|unfold Storage.contents; by rewrite G1
    |intros q Hq; rewrite G1; cbn [n2 set_fs n_fs]; rewrite Ef2, lookup_insert_ne by done; by rewrite (proj1 Hs1)
    |by rewrite G3|exists sp, tot; rewrite G4; cbn [n2 set_fs outbox]; rewrite O1, <- app_assoc; done]).
Qed.

Definition answer (tk : SliceTask) (r : RspFile) : UploadRsp :=
  mkUploadRsp (rf_TaskId r) (rf_FileHash r) (st_SliceHash tk) (slice_of (st_SliceNumber tk) r) true (rf_SpP2PAddress r).
Definition is_speed (o : out) : Prop := match o with Speed _ _ _ => True | _ => False end.

Lemma piece_key_inj tk r from o1 o2 : 0 ≤ o1 < 2 ^ 62 → 0 ≤ o2 < 2 ^ 62 → piece_key tk r from o1 = piece_key tk r from o2 → o1 = o2.
Proof. intros H1 H2. by apply (upload_key_inj (mkPiece _ _ _ _ _ _ _) (mkPiece _ _ _ _ _ _ _)). Qed.

(** The pieces from [start] on, in order. *)
Lemma receive_ok e tk r slice c store from fuel start costs n :
  upload_of tk r slice c store → sp_connected e = true →
  let ps := packets_from MaxData fuel start (drop (Z.to_nat start) c) in
  0 ≤ start < zlen c → start mod MaxData = 0 → (length c - Z.to_nat start ≤ fuel)%nat → length costs = length ps →
  tidy (n_fs n) → stored_up_to c (st_SliceHash tk) start (n_fs n) →
  (∀ off, start ≤ off < zlen c → piece_key tk r from off ∉ uploadSliceSpamCheckMap (n_serving n)) →
  let n' := receive store e (zip costs (map (piece tk r from c) ps)) n in
  contents (n_fs n') (st_SliceHash tk) = Some c
  ∧ (∀ q, q ≠ place (st_SliceHash tk) → fs_files (n_fs n') !! q = fs_files (n_fs n) !! q)
  ∧ ∃ sps total, Forall is_speed sps
      ∧ outbox n' = outbox n ++ sps ++ [UploadAnswer false (answer tk r); ToSPUpload (final_report tk r slice from total)].
Proof.
  intros U Hsp. cbv zeta. pose proof U as [_ _ _ _ _ _ _ _ Hshort].
  revert start costs n. induction fuel as [|fuel IH]; intros start costs n Hs Hmod Hf Hcosts Ht Hst Hkeys.
  { unfold zlen in *. lia. }
  destruct (drop (Z.to_nat start) c) as [|b rest] eqn:Ed.
  { apply (f_equal length) in Ed. rewrite length_drop in Ed. unfold zlen in *. cbn [length] in Ed. lia. }
  cbn [packets_from] in *. rewrite <- Ed, drop_drop in *.
  replace (Z.to_nat start + Z.to_nat MaxData)%nat with (Z.to_nat (start + MaxData)) in * by lia.
  set (d := take (Z.to_nat MaxData) (drop (Z.to_nat start) c)) in *.
  destruct costs as [|cost costs]; [done|]. cbn [length map] in *. injection Hcosts as Hcosts.
  pose proof (receive_piece e tk r slice c store from start d cost n U Hsp Hs Hmod eq_refl Ht Hst (Hkeys start ltac:(lia))) as Hp.
  set (rest' := map (piece tk r from c) _). change (zip (cost :: costs) (piece tk r from c (start, d) :: rest')) with ((cost, piece tk r from c (start, d)) :: zip costs rest').
  cbn [receive foldl fst snd].
  destruct (ReqUploadFileSlice _ _ _ _ _ _ cost _ n) as [res n1]. destruct Hp as (_ & P1 & P2 & P3 & P4 & sp & tot & P5). cbn [snd].
  change (foldl _ n1 (zip costs rest')) with (receive store e (zip costs rest') n1). subst rest'.
  assert (zlen d = Z.min MaxData (zlen c - start)) as Hzd by (unfold d, zlen in *; rewrite length_take, length_drop; lia).
  destruct (decide (start + MaxData < zlen c)) as [Hmore|Hlast].
  - rewrite (bool_decide_eq_false_2 (_ = zlen c)) in P5 by lia.
    destruct (IH (start + MaxData) costs n1) as (I1 & I2 & sps & tot' & I3 & I4); try done; try lia.
    + rewrite Z.add_mod, Hmod, Z_mod_same_full by lia. done.
    + unfold stored_up_to. rewrite P2, bool_decide_eq_false_2 by lia. do 2 f_equal. lia.
    + intros off Hoff. rewrite P4, not_elem_of_union, not_elem_of_singleton. split; [|apply Hkeys; lia].
      intros E. apply piece_key_inj in E; lia.
    + split_and!; [done|by intros q Hq; rewrite I2, P3|]. exists (Speed (rf_FileHash r) (zlen d) sp :: sps), tot'.
      split; [by constructor|]. rewrite I4, P5, <- app_assoc. done.
  - rewrite (bool_decide_eq_true_2 (_ = zlen c)) in P5 by lia.
    assert (drop (Z.to_nat (start + MaxData)) c = []) as E0 by (apply drop_ge; unfold zlen in *; lia).
    rewrite E0 in *. replace (packets_from MaxData fuel (start + MaxData) []) with (@nil (Z * bytes)) by (by destruct fuel).
    cbn [map]. replace (zip costs []) with (@nil (Z * Piece)) by (by destruct costs). cbn [receive foldl].
    split_and!; [|done|].
    + rewrite P2. f_equal. apply take_ge. unfold zlen in *. lia.
    + exists [Speed (rf_FileHash r) (zlen d) sp], tot. split; [by repeat constructor|]. rewrite P5. done.
Qed.

(** *** The uploading node *)

Lemma ReadSliceDataFromTmp_ok fileHash hash fs c :
  fs_files fs !! GetTmpSlicePath rootPath fileHash hash = Some c →
  ReadSliceDataFromTmp no_err rootPath MaxData pool fileHash hash fs = (Ok (zlen c, chop (Z.to_nat MaxData) c, true), fs).
Proof.
  intros Hc. unfold ReadSliceDataFromTmp, open_read. run_M. rewrite Hc.
  unfold ReadFileDataToPackets, GetFileInfo, RequestBuffersForSlice. run_M. rewrite Hc.
  pose proof (read_packets_ok MaxData pool Hpool HM (Z.to_nat (zlen c)) c 0 ltac:(lia)) as Hr.
  change (0 * MaxData) with 0 in Hr. rewrite Hr by (unfold zlen; lia). cbn [Z.to_nat].
  rewrite drop_0. unfold chop, zlen. by rewrite Nat2Z.id.
Qed.

(** The pieces with the ids of their packets, from the [k]-th id on. *)
Fixpoint with_ids (k : nat) (ps : list Piece) : list (Z * Piece) :=
  match ps with [] => [] | p :: ps => (packet_id k, p) :: with_ids (S k) ps end.

Lemma with_ids_snd k ps : map snd (with_ids k ps) = ps.
Proof. revert k. induction ps as [|p ps IH]; intros k; cbn; [done|]. by rewrite IH. Qed.
Lemma length_with_ids k ps : length (with_ids k ps) = length ps.
Proof. revert k. induction ps as [|p ps IH]; intros k; cbn; [done|]. by rewrite IH. Qed.

Definition upload_note (uid : string) : TaskSlice := mkTaskSlice uid SliceUpload "" "" "" false.

Lemma upload_pieces_ok e addr uid tk r self c fuel start ct n :
  let ps := packets_from MaxData fuel start (drop (Z.to_nat start) c) in
  st_RspUploadFile tk = Some r → st_backup tk = false → reach e addr = true →
  0 ≤ start → zlen c < 2 ^ 40 → (length c - Z.to_nat start ≤ fuel)%nat →
  UpSendCostTimeMap (n_serving n) !! uid = Some ct → 0 ≤ PacketCount ct → PacketCount ct + Z.of_nat (length ps) < 2 ^ 62 →
  ∃ n', upload_pieces MaxData self packet_id e addr uid tk (zlen c) (map snd ps) start (start + MaxData) ct n = (Ok (), n')
    ∧ outbox n' = outbox n ++ map (fun p => PieceOut p.1 addr false p.2) (with_ids (n_packets n) (map (piece tk r self c) ps))
    ∧ UpSendCostTimeMap (n_serving n') !! uid = Some (mkStat (TotalCostTime ct) (PacketCount ct + Z.of_nat (length ps)))
    ∧ (∀ j, (n_packets n ≤ j < n_packets n + length ps)%nat → PacketIdMap n' !! packet_id j = Some (upload_note uid))
    ∧ (∀ j, (j < n_packets n)%nat → PacketIdMap n' !! packet_id j = PacketIdMap n !! packet_id j).
Proof.
  cbv zeta. intros Hr Hb Hreach Hs Hc. revert start ct n Hs.
  induction fuel as [|fuel IH]; intros start ct n Hs Hf Hct Hct0 Hct1.
  { cbn [packets_from map upload_pieces]. exists n. rewrite app_nil_r. split_and!; try done; [|intros; cbn in *; lia].
    rewrite Hct. destruct ct. cbn. do 2 f_equal. lia. }
  destruct (drop (Z.to_nat start) c) as [|b rest] eqn:Ed.
  { cbn [packets_from map upload_pieces]. exists n. rewrite app_nil_r. split_and!; try done; [|intros; cbn in *; lia].
    rewrite Hct. destruct ct. cbn. do 2 f_equal. lia. }
  assert (start < zlen c) as Hlt.
  { apply (f_equal length) in Ed. rewrite length_drop in Ed. unfold zlen. cbn [length] in Ed. lia. }
  cbn [packets_from] in *. rewrite <- Ed, drop_drop in *.
  replace (Z.to_nat start + Z.to_nat MaxData)%nat with (Z.to_nat (start + MaxData)) in * by lia.
  set (d := take (Z.to_nat MaxData) (drop (Z.to_nat start) c)) in *.
  set (ps := packets_from MaxData fuel (start + MaxData) (drop (Z.to_nat (start + MaxData)) c)) in *.
  cbn [length map snd upload_pieces with_ids] in *. unfold new_packet. fold (upload_note uid).
  cbn [n_serving set_packets]. rewrite Hct. cbn [default id].
  set (ct' := mkStat (TotalCostTime ct) (i64 (PacketCount ct + 1))).
  assert (PacketCount ct' = PacketCount ct + 1) as Hct' by (unfold ct'; cbn; apply wraps_id; [lia|unfold in_s; lia]).
  match goal with |- context [set_up_send ?m ?x] => set (n1 := set_up_send m x) end.
  assert (UpSendCostTimeMap (n_serving n1) !! uid = Some ct') as M1 by (unfold n1; cbn; by rewrite lookup_insert_eq).
  assert (PacketIdMap n1 = <[packet_id (n_packets n) := upload_note uid]> (PacketIdMap n)) as P1 by done.
  assert (n_packets n1 = S (n_packets n)) as K1 by done. assert (outbox n1 = outbox n) as O1 by done. clearbody n1.
  assert (∀ stop, send_piece self e (packet_id (n_packets n)) addr tk start stop d n1
    = (Ok (), emit (PieceOut (packet_id (n_packets n)) addr false (mkPiece r (st_SliceNumber tk) (st_SliceHash tk) d start stop self)) n1)) as Hsend.
  { intros stop. unfold send_piece, make_piece. rewrite Hb, Hr. cbn. unfold sendSlice. by rewrite Hreach. }
  case_bool_decide as Hend.
  - rewrite Hsend. set (n2 := emit _ n1).
    destruct (IH (start + MaxData) ct' n2) as (n' & I1 & I2 & I3 & I4 & I5); try done; try lia.
    { fold ps. lia. }
    fold ps in I1, I2, I3, I4, I5. exists n'. cbn [n2 emit n_packets] in I2, I4, I5. rewrite K1 in *. split_and!.
    + exact I1.
    + rewrite I2. cbn [n2 emit outbox map fst snd]. rewrite O1, <- app_assoc. cbn [app]. do 3 f_equal. unfold piece. cbn [fst snd]. f_equal. lia.
    + rewrite I3. cbn [ct' TotalCostTime]. do 2 f_equal. lia.
    + intros j Hj. destruct (decide (j = n_packets n)) as [->|Hne]; [|apply I4; lia].
      rewrite I5 by lia. cbn [n2 emit PacketIdMap]. by rewrite P1, lookup_insert_eq.
    + intros j Hj. rewrite I5 by lia. cbn [n2 emit PacketIdMap]. rewrite P1, lookup_insert_ne; [done|]. intros E. apply Hids in E. lia.
  - assert (ps = []) as ->.
    { unfold ps. rewrite drop_ge by (unfold zlen in *; lia). by destruct fuel. }
    rewrite Hsend. eexists. split; [done|]. cbn [emit outbox n_serving PacketIdMap map with_ids length fst snd]. split_and!.
    + rewrite O1. do 3 f_equal. unfold piece. cbn [fst snd]. f_equal. rewrite (wrapu_id 64) by (unfold in_u; lia). lia.
    + rewrite M1. f_equal. unfold ct' in *. cbn [PacketCount] in Hct'. f_equal. rewrite Hct'. cbn. lia.
    + intros j Hj. assert (j = n_packets n) as -> by lia. by rewrite P1, lookup_insert_eq.
    + intros j Hj. rewrite P1, lookup_insert_ne; [done|]. intros E. apply Hids in E. lia.
Qed.

Definition upload_uid (tk : SliceTask) (r : RspFile) : string := tk_slice (rf_TaskId r) (st_SliceNumber tk).

Lemma UploadFileSlice_ok e tk r slice c store self n :
  upload_of tk r slice c store → st_RspUploadFile tk = Some r → st_backup tk = false →
  reach e (pp_NetworkAddress (sa_PpInfo slice)) = true →
  fs_files (n_fs n) !! GetTmpSlicePath rootPath (rf_FileHash r) (st_SliceHash tk) = Some c →
  let ps := packet_pieces MaxData c in
  ∃ n', UploadFileSlice no_err rootPath MaxData pool self packet_id e tk n = (Ok (), n')
    ∧ outbox n' = outbox n ++ map (fun p => PieceOut p.1 (pp_NetworkAddress (sa_PpInfo slice)) false p.2)
                                (with_ids (n_packets n) (map (piece tk r self c) ps))
    ∧ UpSendCostTimeMap (n_serving n') !! upload_uid tk r = Some (mkStat 0 (Z.of_nat (length ps)))
    ∧ (∀ j, (n_packets n ≤ j < n_packets n + length ps)%nat → PacketIdMap n' !! packet_id j = Some (upload_note (upload_uid tk r))).
Proof.
  intros [U1 U0 U2 U3 U4 U5 U6 U7 U8] Hr Hb Hreach Htmp ps. unfold UploadFileSlice. rewrite Hr, U1. unfold uploadSlice, run_fs.
  rewrite (ReadSliceDataFromTmp_ok _ _ _ c Htmp), U2, (wraps_id 64) by (unfold in_s, zlen in *; lia).
  fold (upload_uid tk r). set (n0 := set_fs (n_fs n) n).
  destruct (packet_pieces_ok MaxData HM c ltac:(lia)) as (_ & _ & _ & Echop). fold ps in Echop.
  pose proof (length_packet_pieces MaxData HM c ltac:(lia)) as Hlen. fold ps in Hlen.
  case_bool_decide as Hsmall.
  - assert (ps = [(0, c)]) as Eps.
    { unfold ps, packet_pieces. destruct c as [|b c]; [done|]. cbn [length packets_from]. 
      rewrite take_ge, drop_ge by (unfold zlen in *; cbn [length] in *; lia). by destruct (length c). }
    rewrite Eps in *. rewrite <- Echop. cbn [map snd]. unfold new_packet. fold (upload_note (upload_uid tk r)).
    unfold send_piece, make_piece. rewrite Hb, Hr. cbn [mbind option_bind]. unfold sendSlice. rewrite Hreach. eexists. split; [done|].
    cbn [emit outbox set_up_send set_serving set_packets n_serving UpSendCostTimeMap PacketIdMap with_ids map fst snd length].
    split_and!.
    + cbn [n0 set_fs outbox n_packets]. do 3 f_equal. unfold piece. cbn [fst snd]. f_equal. rewrite (wrapu_id 64) by (unfold in_u, zlen in *; lia). lia.
    + by rewrite lookup_insert_eq.
    + intros j Hj. cbn [n0 set_fs n_packets] in *. assert (j = n_packets n) as -> by lia. by rewrite lookup_insert_eq.
  - rewrite <- Echop. match goal with |- context [set_up_send ?m n0] => set (n1 := set_up_send m n0) end.
    destruct (upload_pieces_ok e (pp_NetworkAddress (sa_PpInfo slice)) (upload_uid tk r) tk r self c (length c) 0 stat0 n1)
      as (n' & I1 & I2 & I3 & I4 & _); try done; try lia.
    + unfold n1. cbn. by rewrite lookup_insert_eq.
    + cbn [Z.to_nat]. rewrite drop_0. change (packets_from MaxData (length c) 0 c) with ps. cbn. unfold zlen in *. lia.
    + cbn [Z.to_nat] in I1, I2, I3, I4. rewrite drop_0 in I1, I2, I3, I4. change (packets_from MaxData (length c) 0 c) with ps in I1, I2, I3, I4.
      exists n'. split_and!; [exact I1|exact I2|rewrite I3; done|exact I4].
Qed.

(** The packets of an upload leave the node; [js] are the numbers of their ids with
    the milliseconds each took. *)
Lemma upload_sent_ok e tk r js n T C :
  let uid := upload_uid tk r in
  uid ≠ "" → NoDup (map fst js) → Forall (fun jc => 0 < jc.2 ≤ WriteTimeOut * 1000) js →
  (∀ j, j ∈ map fst js → PacketIdMap n !! packet_id j = Some (upload_note uid)) →
  UpSendCostTimeMap (n_serving n) !! uid = Some (mkStat T C) → Z.of_nat (length js) ≤ C < 2 ^ 62 →
  0 ≤ T → T + foldr Z.add 0 (map snd js) < 2 ^ 62 →
  let n' := packets_sent packet_id e js n in
  outbox n' = outbox n
  ∧ UpSendCostTimeMap (n_serving n') !! uid = Some (mkStat (T + foldr Z.add 0 (map snd js)) (C - Z.of_nat (length js))).
Proof.
  intros uid Hu. revert n T C. induction js as [|[j cost] js IH]; intros n T C Hnd Hcost Hnote Hstat HC HT Hsum.
  { cbn. split; [done|]. rewrite Hstat. do 2 f_equal; lia. }
  cbn [map fst snd foldr length] in *. apply list.NoDup_cons in Hnd as [Hj Hnd]. apply Forall_cons_iff in Hcost as [Hc Hcost].
  cbn [snd] in Hc. assert (0 ≤ foldr Z.add 0 (map snd js)) as Hnn.
  { clear -Hcost. induction Hcost as [|[j c] js Hjc _ IH]; cbn in *; lia. }
  cbn [packets_sent foldl fst snd]. fold (packets_sent packet_id e js).
  set (n1 := HandleSendPacketCostTime e (packet_id j) cost n).
  assert (outbox n1 = outbox n ∧ PacketIdMap n1 = delete (packet_id j) (PacketIdMap n)
    ∧ UpSendCostTimeMap (n_serving n1) !! uid = Some (mkStat (T + cost) (C - 1))) as (E3 & E4 & E5).
  { unfold n1, HandleSendPacketCostTime. rewrite (bool_decide_eq_false_2 (packet_id j ≤ 0)) by (pose proof (Hpos j); lia).
    rewrite (bool_decide_eq_false_2 (cost ≤ 0)) by lia. cbn [orb]. rewrite Hnote by (by left).
    cbn [upload_note ts_TkSliceUID ts_SliceType]. rewrite (bool_decide_eq_true_2 (uid ≠ "")) by done.
    rewrite (bool_decide_eq_true_2 (SliceUpload = SliceUpload)) by done.
    rewrite (bool_decide_eq_false_2 (WriteTimeOut * 1000 < cost)) by lia.
    unfold handleUploadSend. cbn [upload_note ts_TkSliceUID n_serving set_packets]. rewrite Hstat.
    cbn [TotalCostTime PacketCount]. rewrite !(wraps_id 64) by (unfold in_s; lia). rewrite bool_decide_eq_true_2 by lia.
    cbn [outbox PacketIdMap n_serving UpSendCostTimeMap set_up_send set_serving set_packets]. rewrite lookup_insert_eq.
    split_and!; [done|done|]. do 2 f_equal. lia. }
  destruct (IH n1 (T + cost) (C - 1)) as (I3 & I4); try done; try lia.
  { intros j' Hj'. rewrite E4, lookup_delete_ne; [apply Hnote; by right|]. intros E. apply Hids in E as ->. by apply Hj. }
  unfold packets_sent in *. rewrite I3, I4, E3. split; [done|]. do 2 f_equal; lia.
Qed.

(** The answer finds all packets gone and the slice in its task. *)
Lemma RspUploadFileSlice_ok e order tk r slice c store k costs u t t' :
  upload_of tk r slice c store → rf_TaskId r ≠ "" → sp_connected e = true →
  UploadFileTaskMap u !! rf_FileHash r = Some t → SetUploadSliceStatus order (st_SliceHash tk) SLICE_STATUS_FINISHED t = Ok t' →
  UpSendCostTimeMap (n_serving (un_node u)) !! upload_uid tk r = Some (mkStat 0 (Z.of_nat (length costs))) →
  (∀ j, (k ≤ j < k + length costs)%nat → PacketIdMap (un_node u) !! packet_id j = Some (upload_note (upload_uid tk r))) →
  costs ≠ [] → Z.of_nat (length costs) < 2 ^ 40 → Forall (fun ms => 0 < ms ≤ WriteTimeOut * 1000) costs →
  let n2 := packets_sent packet_id e (zip (seq k (length costs)) costs) (un_node u) in
  let '(res, u') := RspUploadFileSlice e order true (answer tk r) (set_node n2 u) in
  res = Ok () ∧ UploadFileTaskMap u' = <[rf_FileHash r := t']> (UploadFileTaskMap u)
  ∧ UpSendCostTimeMap (n_serving (un_node u')) !! upload_uid tk r = None
  ∧ outbox (un_node u') = outbox (un_node u) ++ [ToSPUpload (final_report tk r slice store (foldr Z.add 0 costs))].
Proof.
  intros [U1 U0 U2 U3 U4 U5 U6 U7 U8] Htask Hsp Ht Hset Hstat Hnote Hne Hlen Hcosts. cbv zeta.
  set (js := zip (seq k (length costs)) costs).
  assert (map fst js = seq k (length costs)) as Ef by (unfold js; rewrite fst_zip; [done|rewrite length_seq; lia]).
  assert (map snd js = costs) as Es by (unfold js; rewrite snd_zip; [done|rewrite length_seq; lia]).
  assert (length js = length costs) as El by (by rewrite <- (length_map snd js), Es).
  pose proof (sum_costs costs Hcosts) as Hsum.
  assert (0 < Z.of_nat (length costs)) as Hpl by (destruct costs; [done|cbn [length]; lia]).
  destruct (upload_sent_ok e tk r js (un_node u) 0 (Z.of_nat (length costs))) as (V3 & V4);
    rewrite ?Ef, ?Es, ?El; try done; try lia.
  - unfold upload_uid, tk_slice. by destruct (rf_TaskId r).
  - apply NoDup_seq.
  - apply Forall_forall. intros [j ms] Hj. cbn [snd]. apply list_elem_of_In, elem_of_zip_r in Hj.
    rewrite Forall_forall in Hcosts. by apply Hcosts, list_elem_of_In.
  - intros j Hj. apply elem_of_seq in Hj. apply Hnote. lia.
  - rewrite Es, El, Z.sub_diag in V4. set (n2 := packets_sent packet_id e js (un_node u)) in *.
    unfold RspUploadFileSlice, answer. cbn [negb orb ur_success ur_Slice ur_TaskId ur_FileHash ur_SliceHash ur_SpP2PAddress]. rewrite U1, U0.
    fold (upload_uid tk r). unfold completed_cost. cbn [set_node un_node UploadFileTaskMap]. rewrite V4. cbn [PacketCount TotalCostTime].
    rewrite (bool_decide_eq_true_2 (0 = 0)), (bool_decide_eq_true_2 (0 < _)) by lia. cbn [andb]. rewrite Ht, Hset.
    unfold SendMessageToSPServer. rewrite Hsp. cbn [set_node set_task un_node UploadFileTaskMap drop_send_cost set_up_send set_serving emit n_serving UpSendCostTimeMap outbox].
    split_and!; [done|done|apply lookup_delete_eq|]. rewrite V3, U4. done.
Qed.

(** C3: An upload stores the slice.  The uploading node cuts the slice into pieces;
    a storage node that receives them in this order ends with exactly the slice,
    answers once, reports to the SP once, and no other file of it changes; when all
    packets have left the uploading node and the answer is there, that node marks
    the slice as finished in its task and reports it with the time all packets
    took. *)
Theorem upload_stores_the_slice eU eS order tk r slice c store self u nS t t' :
  upload_of tk r slice c store → rf_TaskId r ≠ "" → st_RspUploadFile tk = Some r → st_backup tk = false →
  reach eU (pp_NetworkAddress (sa_PpInfo slice)) = true → sp_connected eU = true → sp_connected eS = true →
  fs_files (n_fs (un_node u)) !! GetTmpSlicePath rootPath (rf_FileHash r) (st_SliceHash tk) = Some c →
  UploadFileTaskMap u !! rf_FileHash r = Some t → SetUploadSliceStatus order (st_SliceHash tk) SLICE_STATUS_FINISHED t = Ok t' →
  tidy (n_fs nS) → contents (n_fs nS) (st_SliceHash tk) = None →
  (∀ off, 0 ≤ off < zlen c → piece_key tk r self off ∉ uploadSliceSpamCheckMap (n_serving nS)) →
  let nU := un_node u in
  let '(sent, nU1) := UploadFileSlice no_err rootPath MaxData pool self packet_id eU tk nU in
  sent = Ok ()
  ∧ ∃ pkts, outbox nU1 = outbox nU ++ map (fun p => PieceOut p.1 (pp_NetworkAddress (sa_PpInfo slice)) false p.2) pkts
    ∧ (∀ costs, length costs = length pkts →
         let nS1 := receive store eS (zip costs (map snd pkts)) nS in
         contents (n_fs nS1) (st_SliceHash tk) = Some c
         ∧ (∀ q, q ≠ place (st_SliceHash tk) → fs_files (n_fs nS1) !! q = fs_files (n_fs nS) !! q)
         ∧ ∃ sps total, Forall is_speed sps
             ∧ outbox nS1 = outbox nS ++ sps ++ [UploadAnswer false (answer tk r); ToSPUpload (final_report tk r slice self total)])
    ∧ (∀ costs, length costs = length pkts → Forall (fun ms => 0 < ms ≤ WriteTimeOut * 1000) costs →
         let nU2 := packets_sent packet_id eU (zip (seq (n_packets nU) (length pkts)) costs) nU1 in
         let '(res, u') := RspUploadFileSlice eU order true (answer tk r) (set_node nU2 u) in
         res = Ok () ∧ UploadFileTaskMap u' = <[rf_FileHash r := t']> (UploadFileTaskMap u)
         ∧ outbox (un_node u') = outbox nU1 ++ [ToSPUpload (final_report tk r slice store (foldr Z.add 0 costs))]).
Proof.
  intros U Htask Hr Hb Hreach HspU HspS Htmp Ht Hset Htidy Hnone Hkeys nU.
  pose proof U as [U1 U0 U2 U3 U4 U5 U6 U7 U8].
  destruct (UploadFileSlice_ok eU tk r slice c store self nU U Hr Hb Hreach Htmp) as (nU1 & -> & O1 & M1 & P1).
  split; [done|]. set (ps := packet_pieces MaxData c) in *. exists (with_ids (n_packets nU) (map (piece tk r self c) ps)).
  rewrite with_ids_snd, length_with_ids, length_map. split_and!; [exact O1| |].
  - intros costs Hcosts. unfold ps, packet_pieces in *.
    pose proof (receive_ok eS tk r slice c store self (length c) 0 costs nS U HspS) as HR. cbv zeta in HR.
    change (Z.to_nat 0) with 0%nat in HR. rewrite drop_0 in HR.
    apply HR; try done; try lia. split; [done|]. destruct c; [done|]. unfold zlen. cbn [length]. lia.
  - intros costs Hcosts Hf.
    pose proof (RspUploadFileSlice_ok eU order tk r slice c store (n_packets nU) costs (set_node nU1 u) t t' U Htask HspU Ht Hset) as HR.
    cbn [set_node un_node UploadFileTaskMap] in HR. rewrite <- Hcosts.
    pose proof (length_packet_pieces MaxData HM c ltac:(lia)) as Hl1. pose proof (packet_pieces_nonempty MaxData HM c ltac:(lia) U7) as Hl2.
    cbv zeta in HR. specialize (HR ltac:(rewrite M1, Hcosts; done) ltac:(rewrite Hcosts; exact P1)).
    change (set_node ?x (set_node nU1 u)) with (set_node x u) in HR. cbv zeta.
    destruct (RspUploadFileSlice _ _ _ _ _) as [res u']. destruct HR as (R1 & R2 & _ & R3); [| | |].
    { intros ->. apply Hl2, nil_length_inv. symmetry. exact Hcosts. }
    { unfold ps, zlen in *. lia. }
    { done. }
    { by split_and!. }
Qed.

(** *** Backups *)

Definition receive_backup (self : string) (e : Env) (ps : list (Z * Piece)) (n : N) : N :=
  foldl (fun n cp => (ReqBackupFileSlice no_err (abs l) self e true cp.1 cp.2 n).2) n ps.

(** The answer to a request that is refused: nothing but the failure. *)
Definition refusal : UploadRsp := mkUploadRsp "" "" "" None false "".

Lemma repeated_backups store e ps n :
  Forall (fun cp => backup_spam_key cp.2 ∈ backupSliceSpamCheckMap (n_serving n)) ps →
  n_fs (receive_backup store e ps n) = n_fs n
  ∧ outbox (receive_backup store e ps n) = outbox n ++ replicate (length ps) (UploadRefused true "repeated backup slice request, refused").
Proof.
  revert n. induction ps as [|[cost p] ps IH]; intros n Hps; cbn [receive_backup foldl length replicate fst snd].
  { by rewrite app_nil_r. }
  apply Forall_cons_iff in Hps as [Hp Hps]. unfold ReqBackupFileSlice at 2 4. cbn [negb]. cbn [snd] in Hp.
  rewrite (bool_decide_eq_true_2 (_ ∈ _)) by done. cbn [snd]. set (n1 := emit _ n).
  destruct (IH n1) as [I1 I2]; [done|]. unfold receive_backup in *. rewrite I1, I2. split; [done|].
  cbn [n1 emit outbox]. by rewrite <- app_assoc.
Qed.

(** A backup of a slice that needs more than one piece never gets there: the
    key of the check against repeated requests does not contain the offset of the
    piece, so the storage node keeps the first piece and refuses all others, and
    never answers; and the handler of the refusal at the other end panics, because
    it reads the slice of a message that has none. *)
Theorem big_backups_are_refused e tk r slice c store from costs n :
  upload_of tk r slice c store → MaxData < zlen c → tidy (n_fs n) → contents (n_fs n) (st_SliceHash tk) = None →
  let ps := map (piece tk r from c) (packet_pieces MaxData c) in
  length costs = length ps →
  Forall (fun p => backup_spam_key p ∉ backupSliceSpamCheckMap (n_serving n)) ps →
  let n' := receive_backup store e (zip costs ps) n in
  contents (n_fs n') (st_SliceHash tk) = Some (take (Z.to_nat MaxData) c)
  ∧ (∃ size sp, outbox n' = outbox n ++ Speed (rf_FileHash r) size sp
        :: replicate (length ps - 1) (UploadRefused true "repeated backup slice request, refused"))
  ∧ ∀ eU self nU, RspBackupFileSlice self eU true refusal nU = (nil_panic, nU).
Proof.
  intros U Hbig Ht Hnone ps Hcosts Hkeys n'. pose proof U as [U1 U0 U2 U3 U4 U5 U6 U7 U8].
  assert (∃ more, packet_pieces MaxData c = (0, take (Z.to_nat MaxData) c) :: more) as [more Em].
  { unfold packet_pieces. destruct c as [|b c']; [done|]. cbn [length packets_from]. by eexists. }
  subst n' ps. rewrite Em in *. cbn [map length] in *.
  set (d := take (Z.to_nat MaxData) c) in *. destruct costs as [|cost costs]; [done|]. cbn [length] in Hcosts. injection Hcosts as Hcosts.
  apply Forall_cons_iff in Hkeys as [Hkey _]. set (p0 := piece tk r from c (0, d)) in *.
  change (zip (cost :: costs) (p0 :: ?x)) with ((cost, p0) :: zip costs x). cbn [receive_backup foldl fst snd].
  assert (length d = Z.to_nat MaxData) as Hd by (unfold d, zlen in *; rewrite length_take; lia).
  assert (∃ n1 sz sp, ReqBackupFileSlice no_err (abs l) store e true cost p0 n = (Ok (), n1)
    ∧ contents (n_fs n1) (st_SliceHash tk) = Some d
    ∧ backup_spam_key p0 ∈ backupSliceSpamCheckMap (n_serving n1) ∧ outbox n1 = outbox n ++ [Speed (rf_FileHash r) sz sp])
    as (n1 & sz & sp & -> & C1 & B1 & O1).
  { unfold ReqBackupFileSlice. cbn [negb]. rewrite (bool_decide_eq_false_2 (_ ∈ _)) by done.
    cbn [p0 piece pc_SliceNumber pc_Rsp pc_SliceHash pc_Data pc_Start fst snd]. rewrite U1, U4, (bool_decide_eq_false_2 (store ≠ store)) by auto.
    unfold add_up_cost, run_fs. cbn [emit set_up_recv set_spams set_serving n_fs].
    destruct (SaveSliceData_ok l Hl d (st_SliceHash tk) 0 (n_fs n) U5 Ht ltac:(lia)) as (fs1 & -> & Ht1 & Ef1).
    assert (contents fs1 (st_SliceHash tk) = Some d) as Hc1.
    { unfold Storage.contents. rewrite Ef1, lookup_insert_eq. f_equal. rewrite Hnone. cbn [default Z.to_nat].
      change 0%nat with (length (@nil byte)). by rewrite write_at_end. }
    unfold finish_slice, run_fs. cbn [set_fs n_fs]. change (pc_SliceHash p0) with (st_SliceHash tk).
    destruct (GetSliceSize_ok l Hl _ fs1 _ U5 Hc1) as (fs2 & -> & Hs2).
    rewrite U2, (wraps_id 64), bool_decide_eq_false_2 by (unfold in_s, zlen in *; lia).
    eexists _, _, _. split_and!; [done| |by apply elem_of_union_l, elem_of_singleton|done].
    cbn [set_fs n_fs]. unfold Storage.contents. by rewrite (proj1 Hs2). }
  cbn [snd]. fold (receive_backup store e (zip costs (map (piece tk r from c) more)) n1).
  destruct (repeated_backups store e (zip costs (map (piece tk r from c) more)) n1) as [R1 R2].
  { apply Forall_forall. intros [c1 p1] Hin. apply list_elem_of_In, elem_of_zip_r, list_elem_of_fmap in Hin as (q & -> & _). exact B1. }
  split_and!; [by rewrite R1| |done]. exists sz, sp. rewrite R2, O1, <- app_assoc. cbn [app].
  assert (length (zip costs (map (piece tk r from c) more)) = (S (length (map (piece tk r from c) more)) - 1)%nat) as ->; [|done].
  rewrite length_zip_with. lia.
Qed.

(** A piece that comes late is lost: when the stored file already reaches beyond
    the start of a piece and the piece is not the last of its slice, the storage
    node does not save it, whatever its bytes and whatever the file holds at that
    place (a later piece leaves zeros there); it only tells the speed. *)
Theorem late_pieces_are_dropped e cost p slice store f n :
  good_hash (pc_SliceHash p) → slice_of (pc_SliceNumber p) (pc_Rsp p) = Some slice → pp_P2PAddress (sa_PpInfo slice) = store →
  contents (n_fs n) (pc_SliceHash p) = Some f → zlen f < 2 ^ 63 → pc_Start p < zlen f → pc_End p ≠ msg_size slice →
  let '(res, n') := ReqUploadFileSlice no_err (abs l) MaxData store e true cost p n in
  res = Ok () ∧ fs_files (n_fs n') = fs_files (n_fs n)
  ∧ ∃ o, outbox n' = outbox n ++ [o] ∧ match o with Speed _ _ _ | UploadRefused _ _ => True | _ => False end.
Proof.
  intros Hh Hslice Hstore Hf Hlen Hlate Hend. unfold ReqUploadFileSlice. cbn [negb]. rewrite Hslice.
  destruct (bool_decide _ || bool_decide _); [split_and!; [done|done|by eexists]|].
  destruct (bool_decide (upload_spam_key p ∈ _)); [split_and!; [done|done|by eexists]|].
  rewrite (bool_decide_eq_false_2 (_ ≠ store)) by auto. unfold add_up_cost, run_fs. cbn [emit set_up_recv set_spams set_serving n_fs].
  destruct (GetSliceSize_ok l Hl _ (n_fs n) f Hh Hf) as (fs1 & -> & Hs1).
  rewrite (bool_decide_eq_true_2 (_ < _)) by (rewrite (wrapu_id 64) by (unfold in_u, zlen in *; lia); lia).
  rewrite (bool_decide_eq_true_2 (pc_End p ≠ _)) by done. split_and!; [done|exact (proj1 Hs1)|by eexists].
Qed.
(** *** Serving a download *)

Lemma lookup_packets_from fuel z f k :
  (length f ≤ fuel)%nat →
  packets_from MaxData fuel z f !! k
  = if decide (Z.of_nat k * MaxData < zlen f) then Some (z + Z.of_nat k * MaxData, take (Z.to_nat MaxData) (drop (k * Z.to_nat MaxData) f)) else None.
Proof.
  revert z f k. induction fuel as [|fuel IH]; intros z [|b f] k Hf; cbn [packets_from length] in *; try lia.
  - rewrite decide_False by (unfold zlen; cbn; lia). done.
  - rewrite decide_False by (unfold zlen; cbn; lia). done.
  - destruct k as [|k].
    + rewrite decide_True by (unfold zlen; cbn [length]; lia). cbn [lookup list_lookup Nat.mul]. rewrite drop_0. do 2 f_equal. lia.
    + cbn [lookup list_lookup]. rewrite IH by (rewrite length_drop; cbn [length]; lia).
      rewrite drop_drop. replace (Z.to_nat MaxData + k * Z.to_nat MaxData)%nat with (S k * Z.to_nat MaxData)%nat by lia.
      unfold zlen. rewrite length_drop. cbn [length]. repeat case_decide; try lia; [|done]. do 2 f_equal. lia.
Qed.

(** The message of the packet [p] of the slice [c]. *)
Definition served (rsp : DownRsp) (c : bytes) (p : Z * bytes) : DownRsp :=
  if bool_decide (p.1 + MaxData < zlen c)
  then RspDownloadSliceDataSplit rsp p.1 (p.1 + MaxData) (dr_OffsetStart rsp + p.1) (dr_OffsetStart rsp + p.1 + MaxData) false
  else RspDownloadSliceDataSplit rsp p.1 0 (dr_OffsetStart rsp + p.1) 0 true.
Definition down_note (uid : string) : TaskSlice := mkTaskSlice uid SliceDownload "" "" "" false.

Fixpoint served_packets (rsp : DownRsp) (c : bytes) (k : nat) (ps : list (Z * bytes)) : list (Z * DownRsp * bytes) :=
  match ps with [] => [] | p :: ps => (packet_id k, served rsp c p, p.2) :: served_packets rsp c (S k) ps end.

Lemma snd_served_packets rsp c k ps : map snd (served_packets rsp c k ps) = map snd ps.
Proof. revert k. induction ps as [|p ps IH]; intros k; cbn; [done|]. by rewrite IH. Qed.
Lemma lookup_served_packets rsp c k ps j : served_packets rsp c k ps !! j = (fun p => (packet_id (k + j), served rsp c p, p.2)) <$> ps !! j.
Proof.
  revert k j. induction ps as [|p ps IH]; intros k [|j]; cbn; [done|done|by rewrite Nat.add_0_r|].
  rewrite IH. by rewrite Nat.add_succ_r.
Qed.
Lemma length_served_packets rsp c k ps : length (served_packets rsp c k ps) = length ps.
Proof. revert k. induction ps as [|p ps IH]; intros k; cbn; [done|]. by rewrite IH. Qed.

Lemma serve_packets_ok rsp c fuel start n :
  let ps := packets_from MaxData fuel start (drop (Z.to_nat start) c) in
  let n' := serve_packets MaxData packet_id rsp (map snd ps) start (start + MaxData) (dr_OffsetStart rsp + start)
              (dr_OffsetStart rsp + start + MaxData) n in
  let before := default stat0 (DownSendCostTimeMap n !! down_uid rsp) in
  dr_SliceSize rsp = zlen c → 0 ≤ dr_OffsetStart rsp < 2 ^ 60 → MaxData < 2 ^ 60 →
  0 ≤ start → zlen c < 2 ^ 60 → (length c - Z.to_nat start ≤ fuel)%nat →
  0 ≤ PacketCount before → PacketCount before + Z.of_nat (length ps) < 2 ^ 62 →
  outbox n' = outbox n ++ map (fun p => DownPacket p.1.1 p.1.2 p.2) (served_packets rsp c (n_packets n) ps)
  ∧ n_serving n' = n_serving n
  ∧ (ps ≠ [] → DownSendCostTimeMap n' !! down_uid rsp = Some (mkStat (TotalCostTime before) (PacketCount before + Z.of_nat (length ps))))
  ∧ (∀ j, (n_packets n ≤ j < n_packets n + length ps)%nat → PacketIdMap n' !! packet_id j = Some (down_note (down_uid rsp)))
  ∧ (∀ j, (j < n_packets n)%nat → PacketIdMap n' !! packet_id j = PacketIdMap n !! packet_id j).
Proof.
  cbv zeta. intros Hsz Ho HM2 Hs Hc. revert start n Hs. induction fuel as [|fuel IH]; intros start n Hs Hf Hb0 Hb1.
  { cbn. rewrite app_nil_r. split_and!; try done. intros j Hj. lia. }
  destruct (drop (Z.to_nat start) c) as [|b r] eqn:Ed.
  { cbn. rewrite app_nil_r. split_and!; try done. intros j Hj. lia. }
  assert (start < zlen c) as Hlt.
  { apply (f_equal length) in Ed. rewrite length_drop in Ed. unfold zlen. cbn [length] in Ed. lia. }
  cbn [packets_from] in *. rewrite <- Ed, drop_drop in *.
  replace (Z.to_nat start + Z.to_nat MaxData)%nat with (Z.to_nat (start + MaxData)) in * by lia.
  set (d := take (Z.to_nat MaxData) (drop (Z.to_nat start) c)) in *.
  set (ps := packets_from MaxData fuel (start + MaxData) (drop (Z.to_nat (start + MaxData)) c)) in *.
  set (before := default stat0 (DownSendCostTimeMap n !! down_uid rsp)) in *.
  cbn [length map snd serve_packets served_packets] in *. unfold new_packet. fold (down_note (down_uid rsp)).
  set (n1 := StartSendPacket _ _).
  assert (DownSendCostTimeMap n1 !! down_uid rsp = Some (mkStat (TotalCostTime before) (PacketCount before + 1))) as D1.
  { unfold n1, StartSendPacket. cbn [DownSendCostTimeMap set_send set_packets]. fold before. rewrite lookup_insert_eq.
    do 2 f_equal. apply wraps_id; [lia|]. unfold in_s. lia. }
  assert (PacketIdMap n1 = <[packet_id (n_packets n) := down_note (down_uid rsp)]> (PacketIdMap n)) as P1 by done.
  assert (n_packets n1 = S (n_packets n)) as K1 by done. assert (outbox n1 = outbox n) as O1 by done.
  assert (n_serving n1 = n_serving n) as S1 by done. clearbody n1. rewrite Hsz.
  assert (served rsp c (start, d) = if bool_decide (start + MaxData < zlen c) then RspDownloadSliceDataSplit rsp start (start + MaxData)
            (dr_OffsetStart rsp + start) (dr_OffsetStart rsp + start + MaxData) false
          else RspDownloadSliceDataSplit rsp start 0 (dr_OffsetStart rsp + start) 0 true) as E1 by done.
  destruct (decide (start + MaxData < zlen c)) as [Hmore|Hlast].
  - rewrite (bool_decide_eq_true_2 (start + MaxData < zlen c)) in E1 |- * by done. set (n2 := emit _ n1).
    rewrite !(wrapu_id 64) by (unfold in_u; lia).
    destruct (IH (start + MaxData) n2) as (I1 & I2 & I3 & I4 & I5); try lia.
    { unfold n2. cbn [DownSendCostTimeMap emit]. rewrite D1. cbn. lia. }
    { unfold n2. cbn [DownSendCostTimeMap emit]. rewrite D1. cbn [default id PacketCount]. fold ps. lia. }
    rewrite Z.add_assoc in I1, I2, I3, I4, I5. fold ps in I1, I2, I3, I4, I5. cbn [n2 emit n_packets] in I1, I4, I5. rewrite K1 in *. split_and!.
    + rewrite I1. cbn [n2 emit outbox map fst snd]. rewrite O1, <- app_assoc. cbn [app]. do 3 f_equal. by rewrite E1.
    + rewrite I2. done.
    + intros _. rewrite I3.
      * unfold n2. cbn [DownSendCostTimeMap emit]. rewrite D1. cbn [default id TotalCostTime PacketCount]. do 2 f_equal. lia.
      * intros E. apply (f_equal (lookup 0%nat)) in E. unfold ps in E. rewrite lookup_packets_from in E by (rewrite length_drop; lia).
        rewrite decide_True in E; [done|]. unfold zlen in *. rewrite length_drop. lia.
    + intros j Hj. destruct (decide (j = n_packets n)) as [->|Hne]; [|apply I4; lia].
      rewrite I5 by lia. cbn [n2 emit PacketIdMap]. by rewrite P1, lookup_insert_eq.
    + intros j Hj. rewrite I5 by lia. cbn [n2 emit PacketIdMap]. rewrite P1, lookup_insert_ne; [done|]. intros E. apply Hids in E. lia.
  - assert (ps = []) as ->.
    { unfold ps. rewrite drop_ge by (unfold zlen in *; lia). by destruct fuel. }
    rewrite (bool_decide_eq_false_2 (start + MaxData < zlen c)) in E1 |- * by done.
    cbn [emit outbox n_serving DownSendCostTimeMap PacketIdMap map served_packets length fst snd]. rewrite O1, D1, P1, E1. split_and!; try done.
    + intros j Hj. assert (j = n_packets n) as -> by lia. by rewrite lookup_insert_eq.
    + intros j Hj. rewrite lookup_insert_ne; [done|]. intros E. apply Hids in E. lia.
Qed.

(** The packets of a served slice leave the node. *)
Lemma download_sent_ok e rsp js n T :
  let uid := down_uid rsp in
  uid ≠ "" → sp_connected e = true → js ≠ [] → NoDup (map fst js) → Forall (fun jc => 0 < jc.2 ≤ WriteTimeOut * 1000) js →
  (∀ j, j ∈ map fst js → PacketIdMap n !! packet_id j = Some (down_note uid)) →
  downloadRspMap (n_serving n) !! uid = Some rsp →
  DownSendCostTimeMap n !! uid = Some (mkStat T (Z.of_nat (length js))) → Z.of_nat (length js) < 2 ^ 62 →
  0 ≤ T → T + foldr Z.add 0 (map snd js) < 2 ^ 62 →
  let n' := packets_sent packet_id e js n in
  outbox n' = outbox n ++ [ToSPDownload rsp (T + foldr Z.add 0 (map snd js))]
  ∧ uid ∈ DownloadSliceTaskMap (n_serving n') ∧ downloadRspMap (n_serving n') !! uid = None ∧ DownSendCostTimeMap n' !! uid = None.
Proof.
  intros uid Hu Hsp. revert n T. induction js as [|[j cost] js IH]; intros n T Hne Hnd Hcost Hnote Hrsp Hstat HC HT Hsum; [done|].
  cbn [map fst snd foldr length] in *. apply list.NoDup_cons in Hnd as [Hj Hnd]. apply Forall_cons_iff in Hcost as [Hc Hcost].
  cbn [snd] in Hc. assert (0 ≤ foldr Z.add 0 (map snd js)) as Hnn.
  { clear -Hcost. induction Hcost as [|[j c] js Hjc _ IH]; cbn in *; lia. }
  cbn [packets_sent foldl fst snd]. fold (packets_sent packet_id e js).
  set (n1 := HandleSendPacketCostTime e (packet_id j) cost n).
  set (n0 := set_packets (delete (packet_id j) (PacketIdMap n)) (n_packets n) n).
  assert (n1 = handleDownloadSend e (down_note uid) cost n0) as E1.
  { unfold n1, HandleSendPacketCostTime. rewrite (bool_decide_eq_false_2 (packet_id j ≤ 0)) by (pose proof (Hpos j); lia).
    rewrite (bool_decide_eq_false_2 (cost ≤ 0)) by lia. cbn [orb]. rewrite Hnote by (by left).
    cbn [down_note ts_TkSliceUID ts_SliceType]. rewrite (bool_decide_eq_true_2 (uid ≠ "")) by done.
    rewrite (bool_decide_eq_false_2 (SliceDownload = SliceUpload)), (bool_decide_eq_true_2 (SliceDownload = SliceDownload)) by done.
    by rewrite (bool_decide_eq_false_2 (WriteTimeOut * 1000 < cost)) by lia. }
  unfold handleDownloadSend, finished_stat, FinishSendPacket in E1. cbn [down_note ts_TkSliceUID DownSendCostTimeMap n0 set_packets] in E1.
  rewrite Hstat in E1. cbn [TotalCostTime PacketCount] in E1. rewrite !(wraps_id 64) in E1 by (unfold in_s; lia).
  rewrite (bool_decide_eq_true_2 (0 ≤ _)) in E1 by lia. rewrite (bool_decide_eq_true_2 (0 < T + cost)) in E1 by lia.
  destruct js as [|jc js'].
  - cbn [length] in E1. rewrite (bool_decide_eq_true_2 (_ = 0)) in E1 by lia. cbn [andb set_send n_serving n0 set_packets] in E1. rewrite Hrsp in E1.
    unfold SendMessageToSPServer in E1. rewrite Hsp in E1. cbn [packets_sent foldl map foldr]. rewrite E1.
    cbn [DeleteRecord set_send set_served set_serving emit n_serving DownloadSliceTaskMap downloadRspMap DownSendCostTimeMap outbox n0 set_packets].
    split_and!; [by rewrite Z.add_0_r|by apply elem_of_union_l, elem_of_singleton|apply lookup_delete_eq|apply lookup_delete_eq].
  - rewrite (bool_decide_eq_false_2 (_ = 0)) in E1 by (cbn [length]; lia). cbn [andb] in E1.
    destruct (IH n1 (T + cost)) as (I1 & I2 & I3 & I4); try done; try lia.
    + intros j' Hj'. rewrite E1. cbn [set_send PacketIdMap n0 set_packets]. rewrite lookup_delete_ne; [apply Hnote; by right|].
      intros E. apply Hids in E as ->. by apply Hj.
    + by rewrite E1.
    + rewrite E1. cbn [set_send DownSendCostTimeMap n0 set_packets]. rewrite lookup_insert_eq. do 2 f_equal. lia.
    + unfold packets_sent in *. split_and!; [|done|done|done]. rewrite I1, E1. cbn [set_send outbox n0 set_packets]. do 3 f_equal. lia.
Qed.

(** The answer to a request for a slice of a plain file. *)
Definition plain_rsp (target : ReqSlice) (slice : DownSlice) (c : bytes) : DownRsp :=
  mkDownRsp (rq_P2PAddress target) (di_SliceHash slice) (di_OffsetStart slice) (di_OffsetEnd slice) 0 0 (si_FileHash (rq_Info target))
    (di_TaskId slice) (zlen c) false (si_SpP2PAddress (rq_Info target)) (rq_SliceNumber target) false.

(** A storage node serves the slice it was asked for: the packets it sends carry
    the stored slice, in order, each with its place in the file, and the last one,
    and only it, asks for a report; when all packets have left the node, it reports
    the slice and the time to the SP, once, and remembers the slice as served, so
    that a second request of the same task is refused. *)
Theorem download_is_served raw_size target slice c n :
  let info := rq_Info target in
  find_slice di_SliceNumber (rq_SliceNumber target) None (si_SliceInfo info) = Some slice → si_EncryptionTag info = "" →
  good_hash (di_SliceHash slice) → contents (n_fs n) (di_SliceHash slice) = Some c → c ≠ [] → zlen c < 2 ^ 40 → MaxData < 2 ^ 60 →
  0 ≤ di_OffsetStart slice < 2 ^ 60 → CalcSliceHash c (si_FileHash info) (rq_SliceNumber target) = Ok (di_SliceHash slice) →
  download_spam_key target ∉ downloadSliceSpamCheckMap (n_serving n) →
  (di_TaskId slice +:+ di_SliceHash slice) ∉ DownloadSliceTaskMap (n_serving n) →
  DownSendCostTimeMap n !! (di_TaskId slice +:+ di_SliceHash slice) = None →
  let '(res, n1) := ReqDownloadSlice no_err rootPath (abs l) MaxData pool packet_id raw_size true target n in
  res = Ok ()
  ∧ ∃ pkts, outbox n1 = outbox n ++ map (fun p => DownPacket p.1.1 p.1.2 p.2) pkts
    ∧ concat (map snd pkts) = c
    ∧ (∀ k id m d, pkts !! k = Some (id, m, d) →
         id = packet_id (n_packets n + k) ∧ dr_SliceHash m = di_SliceHash slice
         ∧ dr_OffsetStart m = di_OffsetStart slice + Z.of_nat k * MaxData
         ∧ dr_NeedReport m = bool_decide (S k = length pkts)
         ∧ dr_OffsetEnd m = if bool_decide (S k = length pkts) then di_OffsetEnd slice else di_OffsetStart slice + (Z.of_nat k + 1) * MaxData)
    ∧ ∀ e costs, sp_connected e = true → length costs = length pkts → Forall (fun ms => 0 < ms ≤ WriteTimeOut * 1000) costs →
        let n2 := packets_sent packet_id e (zip (seq (n_packets n) (length pkts)) costs) n1 in
        outbox n2 = outbox n1 ++ [ToSPDownload (plain_rsp target slice c) (foldr Z.add 0 costs)]
        ∧ (di_TaskId slice +:+ di_SliceHash slice) ∈ DownloadSliceTaskMap (n_serving n2).
Proof.
  intros info Hslice Hplain Hh Hc Hne Hlen HM2 Ho Hcalc Hspam Hserved Hstat. unfold ReqDownloadSlice. cbn [negb].
  rewrite (bool_decide_eq_false_2 (_ ∈ _)) by done. unfold splitSendDownloadSliceData. fold info. rewrite Hslice.
  unfold RspDownloadSliceData, run_fs. fold info. cbn [set_spams set_serving n_fs].
  destruct (ReadSliceData_ok rootPath l MaxData pool Hl Hpool HM (si_FileHash info) (di_SliceHash slice) (n_fs n) c Hh Hc) as (fs1 & -> & Hs1).
  rewrite Hplain, (bool_decide_eq_false_2 ("" ≠ "")) by auto. rewrite (wrapu_id 64) by (unfold in_u; pose proof (zlen_nonneg c); lia).
  change (mkDownRsp _ _ _ _ 0 0 _ _ _ _ _ _ _) with (plain_rsp target slice c). set (rsp := plain_rsp target slice c).
  cbn [set_fs set_spams set_serving n_serving DownloadSliceTaskMap]. rewrite (bool_decide_eq_false_2 (_ ∈ DownloadSliceTaskMap _)) by done.
  unfold verifyDownloadSliceHash. rewrite concat_chop, Hcalc, (bool_decide_eq_true_2 (di_SliceHash slice = _)) by (done || lia). cbn [negb].
  rewrite (bool_decide_eq_false_2 (dr_SliceSize rsp = 0)) by (change (zlen c ≠ 0); destruct c; [done|]; unfold zlen; cbn [length]; lia).
  match goal with |- context [set_served ?a ?b ?m] => set (n0 := set_served a b m) end.
  destruct (packet_pieces_ok MaxData HM c ltac:(lia)) as (_ & _ & _ & Echop). rewrite <- Echop.
  pose proof (length_packet_pieces MaxData HM c ltac:(lia)) as Hl1. pose proof (packet_pieces_nonempty MaxData HM c ltac:(lia) Hne) as Hl2.
  pose proof (serve_packets_ok rsp c (length c) 0 n0) as HS. cbv zeta in HS. change (Z.to_nat 0) with 0%nat in HS. rewrite drop_0 in HS.
  rewrite Z.add_0_r, Z.add_0_l in HS. change (packets_from MaxData (length c) 0 c) with (packet_pieces MaxData c) in HS.
  rewrite (wrapu_id 64) by (unfold in_u; cbn; lia). set (ps := packet_pieces MaxData c) in *.
  change (DownSendCostTimeMap n0) with (DownSendCostTimeMap n) in HS. change (down_uid rsp) with (di_TaskId slice +:+ di_SliceHash slice) in HS.
  rewrite Hstat in HS. cbn [default id stat0 PacketCount TotalCostTime] in HS.
  destruct HS as (S1 & S2 & S3 & S4 & _); try done; try (unfold zlen in *; lia).
  set (n1 := serve_packets MaxData packet_id rsp (map snd ps) 0 MaxData (dr_OffsetStart rsp) (dr_OffsetStart rsp + MaxData) n0) in *.
  split; [done|]. exists (served_packets rsp c (n_packets n) ps). rewrite snd_served_packets, length_served_packets. split_and!.
  - exact S1.
  - rewrite Echop. apply concat_chop. lia.
  - intros k id m d Hk. rewrite lookup_served_packets in Hk. destruct (ps !! k) as [p|] eqn:Ep; [|done]. cbn in Hk. injection Hk as <- <- <-.
    assert (bool_decide (S k = length ps) = negb (bool_decide (p.1 + MaxData < zlen c)) ∧ p.1 = Z.of_nat k * MaxData) as [El Ek].
    { pose proof Ep as Ep1. unfold ps, packet_pieces in Ep1. rewrite lookup_packets_from in Ep1 by lia.
      destruct (decide (Z.of_nat k * MaxData < zlen c)) as [Hkk|]; [|done]. injection Ep1 as <-. cbn [fst]. split; [|lia].
      pose proof (lookup_packets_from (length c) 0 c (S k) ltac:(lia)) as En. change (packets_from MaxData (length c) 0 c) with ps in En.
      case_bool_decide as E1.
      - rewrite lookup_ge_None_2 in En by lia. destruct (decide (Z.of_nat (S k) * MaxData < zlen c)); [done|]. rewrite bool_decide_eq_false_2 by lia. done.
      - apply lookup_lt_Some in Ep. destruct (lookup_lt_is_Some_2 ps (S k) ltac:(lia)) as [x Ex]. rewrite Ex in En.
        destruct (decide (Z.of_nat (S k) * MaxData < zlen c)); [|done]. rewrite bool_decide_eq_true_2 by lia. done. }
    unfold served. destruct (bool_decide (p.1 + MaxData < zlen c)); cbn [negb] in El; rewrite El; cbn; rewrite Ek; split_and!; (done || lia).
  - intros e costs Hsp Hcosts Hf. set (js := zip (seq (n_packets n) (length ps)) costs).
    assert (map fst js = seq (n_packets n) (length ps)) as Ef by (unfold js; rewrite fst_zip; [done|rewrite length_seq; lia]).
    assert (map snd js = costs) as Es by (unfold js; rewrite snd_zip; [done|rewrite length_seq; lia]).
    assert (length js = length ps) as Ej by (by rewrite <- (length_map snd js), Es).
    pose proof (sum_costs costs Hf) as Hsum.
    destruct (download_sent_ok e rsp js n1 0) as (R1 & R2 & _); rewrite ?Ef, ?Es, ?Ej; try done; try (unfold zlen in *; lia).
    + change (down_uid rsp) with (di_TaskId slice +:+ di_SliceHash slice). destruct Hh as [_ Hh]. destruct (di_TaskId slice); [|done].
      intros E. change ("" +:+ ?x) with x in E. rewrite E in Hh. cbn in Hh. lia.
    + intros E. rewrite E in Ej. by destruct ps.
    + apply NoDup_seq.
    + apply Forall_forall. intros [j ms] Hj. cbn [snd]. apply list_elem_of_In, elem_of_zip_r in Hj.
      rewrite Forall_forall in Hf. by apply Hf, list_elem_of_In.
    + intros j Hj. apply elem_of_seq in Hj. apply S4. change (n_packets n0) with (n_packets n). lia.
    + rewrite S2. cbn. by rewrite lookup_insert_eq.
    + change (down_uid rsp) with (di_TaskId slice +:+ di_SliceHash slice). rewrite S3 by done. done.
    + cbv zeta. rewrite R1, Es. split; [done|exact R2].
Qed.

(** A storage node that does not have a slice does not say so: when neither the
    storage nor the temporary folder has the file, a request for the slice is
    dropped without an answer, although the other end has a message for exactly
    this case and waits for it until its time is up. *)
Theorem lost_slices_are_not_answered raw_size target slice n :
  find_slice di_SliceNumber (rq_SliceNumber target) None (si_SliceInfo (rq_Info target)) = Some slice →
  good_hash (di_SliceHash slice) → contents (n_fs n) (di_SliceHash slice) = None →
  fs_files (n_fs n) !! GetTmpSlicePath rootPath (si_FileHash (rq_Info target)) (di_SliceHash slice) = None →
  download_spam_key target ∉ downloadSliceSpamCheckMap (n_serving n) →
  let '(res, n1) := ReqDownloadSlice no_err rootPath (abs l) MaxData pool packet_id raw_size true target n in
  res = Ok () ∧ outbox n1 = outbox n ∧ PacketIdMap n1 = PacketIdMap n.
Proof.
  intros Hslice Hh Hc Htmp Hspam. unfold ReqDownloadSlice. cbn [negb]. rewrite (bool_decide_eq_false_2 (_ ∈ _)) by done.
  unfold splitSendDownloadSliceData. rewrite Hslice. unfold RspDownloadSliceData, run_fs. cbn [set_spams set_serving n_fs].
  unfold ReadSliceData. destruct (getSlicePath_ok l Hl (di_SliceHash slice) (n_fs n) Hh) as (fs1 & E & Hs). run_M. rewrite E.
  unfold open_read. run_M. pose proof Hs as [-> _]. unfold Storage.contents in Hc. rewrite Hc. run_M. rewrite (proj1 Hs), Htmp. done.
Qed.
End Uploading.

(** ** Any piece, any answer of the operating system *)

Section AnyPiece.
Context (io_err : syscall → string → bool) (StoragePath : string) (MaxData : Z) {H : HashLib} (self : string).

(** The slice of the piece [p] is stored with its hash, in a node that has just
    read it. *)
Definition checked (p : Piece) (n : N) : Prop :=
  ∃ fs data fs2, GetSliceData io_err StoragePath (pc_SliceHash p) fs = (Ok data, fs2) ∧ n_fs n = fs2
    ∧ CalcSliceHash data (rf_FileHash (pc_Rsp p)) (pc_SliceNumber p) = Ok (pc_SliceHash p).

(** [o] tells a peer or the SP that the slice is stored. *)
Definition says_stored (o : out) : Prop := match o with UploadAnswer _ _ | ToSPUpload _ => True | _ => False end.

Lemma finish_slice_sends e backup p slice cost n :
  let n' := (finish_slice io_err StoragePath self e backup p slice cost n).2 in
  sends (fun o => says_stored o → checked p n') n n'.
Proof.
  cbv zeta. unfold finish_slice, run_fs. destruct (GetSliceSize _ _ _ _) as [[sz|m|m] fs1]; try (by apply sends_refl).
  case_match; [|by apply sends_refl]. cbn [set_fs n_fs].
  destruct (GetSliceData io_err StoragePath (pc_SliceHash p) fs1) as [[data|m|m] fs2] eqn:Eg; try (by apply sends_refl).
  destruct (CalcSliceHash _ _ _) as [h|m|m] eqn:Ec; try (by apply sends_refl).
  destruct (decide (h = pc_SliceHash p)) as [->|Hne]; [rewrite (bool_decide_eq_true_2 (_ = _)) by done|rewrite (bool_decide_eq_false_2 (_ = pc_SliceHash p)) by done].
  - assert (∀ n', n_fs n' = fs2 → checked p n') as Hc by (intros n' <-; by exists fs1, data, (n_fs n')).
    eapply sends_trans; [apply (sends_emit _ (set_fs fs2 (set_fs fs1 n)))|].
    + intros _. apply Hc. unfold SendMessageToSPServer. by case_match.
    + unfold SendMessageToSPServer. case_match; [|by apply sends_refl].
      eapply sends_trans; [apply sends_emit|by apply sends_refl]. intros _. by apply Hc.
  - destruct backup; [by apply sends_refl|]. destruct (DeleteSlice _ _ _ _) as [r fs3]. by apply sends_refl.
Qed.

(** A storage node answers that it has a slice, or reports it to the SP, only
    when the file stored for the slice has, at that moment, the slice's hash:
    whatever pieces of uploads and backups come in from whomever, and whatever the
    operating system refuses. *)
Theorem stored_uploads_are_checked (backup : bool) e v cost p n :
  let n' := ((if backup then ReqBackupFileSlice io_err StoragePath self else ReqUploadFileSlice io_err StoragePath MaxData self) e v cost p n).2 in
  sends (fun o => says_stored o → checked p n') n n'.
Proof.
  cbv zeta. destruct backup.
  - unfold ReqBackupFileSlice. case_match; [by apply sends_refl|]. case_match; [by apply sends_emit|].
    case_match; [|by apply sends_refl]. case_match; [eapply sends_trans; [|by apply sends_emit]; by apply sends_refl|].
    unfold add_up_cost, run_fs. destruct (SaveSliceData _ _ _ _ _ _) as [[[]|m|m] fs1];
      try (by eapply sends_trans; [|by apply sends_emit]; apply sends_refl).
    eapply sends_trans; [|apply finish_slice_sends]. eapply sends_trans; [|by apply sends_emit]; by apply sends_refl.
  - unfold ReqUploadFileSlice. case_match; [by apply sends_refl|]. case_match; [|by apply sends_refl]. case_match; [by apply sends_emit|].
    case_match; [by apply sends_emit|]. case_match; [eapply sends_trans; [|by apply sends_emit]; by apply sends_refl|].
    unfold add_up_cost, run_fs. destruct (GetSliceSize _ _ _ _) as [r fs1].
    assert (∀ (P : out → Prop) a b c n1 n2, sends P n1 n2 → outbox n1 = outbox n ++ [Speed a b c] → P (Speed a b c) → sends P n n2) as Hspeed.
    { intros P a b c n1 n2 Hs E Hp. eapply sends_trans; [|exact Hs]. exists [Speed a b c]. split; [exact E|]. by constructor. }
    destruct r as [sz|m|m]; [| |by eapply Hspeed; [by apply sends_refl|reflexivity|]].
    all: case_match; [case_match; [by eapply Hspeed; [by apply sends_refl|reflexivity|]|by eapply Hspeed; [apply finish_slice_sends|reflexivity|]]|].
    all: destruct (SaveSliceData _ _ _ _ _ _) as [[[]|m'|m'] fs2]; try (by eapply Hspeed; [by apply sends_refl|reflexivity|]).
    all: by eapply Hspeed; [apply finish_slice_sends|reflexivity|].
Qed.
End AnyPiece.

(** ** Two nodes *)

Definition w_slice (n : Z) : SliceAddr := mkSliceAddr w_hash n 1 10 (10 + n) (mkPPInfo "nodeS" "netS").
Definition w_rsp (n : Z) : RspFile := mkRspFile "task" "file" "sp" 7 [w_slice n].
Definition w_tk (backup : bool) : SliceTask :=
  mkSliceTask (if backup then None else Some (w_rsp 4)) (if backup then Some (w_rsp 4) else None) 1 w_hash backup.
Definition w_task : UploadFileTask :=
  UploadTask.mkTask (Some {[0 := task_rsp (w_rsp 4)]}) None NEW_UPLOAD (foldl place_slice ∅ [task_slice (w_slice 4)]) STATE_RUNNING false 1 None 0.
Definition w_finished : UploadFileTask :=
  match SetUploadSliceStatus ["nodeS"] w_hash SLICE_STATUS_FINISHED w_task with Ok t => t | _ => w_task end.
Definition w_un : UN :=
  mkUN (N0 (mkFS {[GetTmpSlicePath "/root" "file" w_hash := w_data]} ∅)) {["file" := w_task]} ∅ [].

Lemma w_upload_of backup : upload_of (H := sum_hash) (w_tk backup) (w_rsp 4) (w_slice 4) w_data "nodeS".
Proof.
  split; try reflexivity; try done. by apply good_hash_by_computation.
Qed.

Lemma upload_stores_the_slice_witness :
  let '(sent, nU1) := UploadFileSlice (L := copy_mmap) w_no_err "/root" 3 w_pool "nodeU" w_ids (w_env 100) (w_tk false) (un_node w_un) in
  sent = Ok ()
  ∧ ∃ pkts, outbox nU1 = map (fun p => PieceOut p.1 "netS" false p.2) pkts
    ∧ ∀ costs, length costs = length pkts →
        contents ["sds"] (n_fs (receive (H := sum_hash) ["sds"] 3 "nodeS" (w_env 100) (zip costs (map snd pkts)) (N0 (mkFS ∅ ∅)))) w_hash = Some w_data.
Proof.
  assert (SetUploadSliceStatus ["nodeS"] w_hash SLICE_STATUS_FINISHED w_task = Ok w_finished) as Hset by (vm_compute; reflexivity).
  pose proof (upload_stores_the_slice (H := sum_hash) (L := copy_mmap) "/root" ["sds"] 3 w_pool w_ids
    ltac:(repeat constructor; done) ltac:(intros n Hn; unfold zlen, w_pool; rewrite length_replicate; lia) ltac:(lia)
    ltac:(unfold w_ids; lia) ltac:(unfold w_ids; lia) (w_env 100) (w_env 100) ["nodeS"] (w_tk false) (w_rsp 4) (w_slice 4) w_data "nodeS" "nodeU" w_un
    (N0 (mkFS ∅ ∅)) w_task w_finished (w_upload_of false)) as T.
  specialize (T ltac:(done) eq_refl eq_refl eq_refl eq_refl eq_refl).
  specialize (T (lookup_singleton_eq _ _) (lookup_singleton_eq _ _) Hset).
  specialize (T ltac:(apply tidy_empty) eq_refl ltac:(intros; apply not_elem_of_empty)). cbv zeta in T.
  destruct (UploadFileSlice _ _ _ _ _ _ _ _ _) as [sent nU1]. destruct T as (T1 & pkts & T2 & T3 & _). split; [exact T1|].
  exists pkts. split; [exact T2|]. intros costs Hcosts. exact (proj1 (T3 costs Hcosts)).
Defined.

Lemma big_backups_are_refused_witness :
  let ps := map (piece 3 (w_tk true) (w_rsp 4) "nodeU" w_data) (packet_pieces 3 w_data) in
  let n' := receive_backup (H := sum_hash) ["sds"] "nodeS" (w_env 100) (zip [5; 6] ps) (N0 (mkFS ∅ ∅)) in
  contents ["sds"] (n_fs n') w_hash = Some (take 3 w_data)
  ∧ (∃ size sp, outbox n' = Speed "file" size sp :: replicate 1 (UploadRefused true "repeated backup slice request, refused"))
  ∧ ∀ eU self nU, RspBackupFileSlice self eU true refusal nU = (nil_panic, nU).
Proof.
  apply (big_backups_are_refused (H := sum_hash) ["sds"] 3 ltac:(repeat constructor; done) ltac:(lia) (w_env 100) (w_tk true) (w_rsp 4) (w_slice 4)
    w_data "nodeS" "nodeU" [5; 6] (N0 (mkFS ∅ ∅)) (w_upload_of true)).
  - reflexivity.
  - apply tidy_empty.
  - reflexivity.
  - reflexivity.
  - apply Forall_forall. intros. apply not_elem_of_empty.
Defined.

(** The second piece is here, the first comes late. *)
Definition w_late : Piece := mkPiece (w_rsp 4) 1 w_hash (take 3 w_data) 0 3 "nodeU".
Definition w_second : N := N0 (mkFS {[place ["sds"] w_hash := [Byte.x00; Byte.x00; Byte.x00; Byte.x64]]} ∅).

Lemma late_pieces_are_dropped_witness :
  let '(res, n') := ReqUploadFileSlice (H := sum_hash) w_no_err "/sds" 3 "nodeS" (w_env 100) true 5 w_late w_second in
  res = Ok () ∧ fs_files (n_fs n') = fs_files (n_fs w_second)
  ∧ ∃ o, outbox n' = [] ++ [o] ∧ match o with Speed _ _ _ | UploadRefused _ _ => True | _ => False end.
Proof.
  apply (late_pieces_are_dropped (H := sum_hash) ["sds"] 3 ltac:(repeat constructor; done) (w_env 100) 5 w_late (w_slice 4) "nodeS"
    [Byte.x00; Byte.x00; Byte.x00; Byte.x64] w_second).
  - by apply good_hash_by_computation.
  - reflexivity.
  - reflexivity.
  - apply lookup_singleton_eq.
  - done.
  - done.
  - done.
Defined.

Definition w_request : ReqSlice := mkReqSlice (mkStorageInfo "dtask" "file" 7 "" "sp" [mkDownSlice 1 "stask" w_hash 10 14]) 1 "nodeD".

Lemma download_is_served_witness :
  let '(res, n1) := ReqDownloadSlice (L := copy_mmap) (H := sum_hash) w_no_err "/root" "/sds" 3 w_pool w_ids (fun _ => None) true w_request w_nS in
  res = Ok () ∧ ∃ pkts, outbox n1 = map (fun p => DownPacket p.1.1 p.1.2 p.2) pkts ∧ concat (map snd pkts) = w_data.
Proof.
  pose proof (download_is_served (H := sum_hash) (L := copy_mmap) "/root" ["sds"] 3 w_pool w_ids
    ltac:(repeat constructor; done) ltac:(intros n Hn; unfold zlen, w_pool; rewrite length_replicate; lia) ltac:(lia)
    ltac:(unfold w_ids; lia) ltac:(unfold w_ids; lia) (fun _ => None) w_request (mkDownSlice 1 "stask" w_hash 10 14) w_data w_nS) as T.
  assert (contents ["sds"] (n_fs w_nS) w_hash = Some w_data) as Hc by (vm_compute; reflexivity).
  specialize (T eq_refl eq_refl ltac:(by apply good_hash_by_computation) Hc ltac:(done) ltac:(done) ltac:(done)).
  specialize (T ltac:(done) eq_refl ltac:(apply not_elem_of_empty) ltac:(apply not_elem_of_empty) eq_refl). cbv zeta in T.
  destruct (ReqDownloadSlice _ _ _ _ _ _ _ _ _ _) as [res n1]. destruct T as (T1 & pkts & T2 & T3 & _).
  split; [exact T1|]. by exists pkts.
Defined.

Lemma lost_slices_are_not_answered_witness :
  let '(res, n1) := ReqDownloadSlice (L := copy_mmap) (H := sum_hash) w_no_err "/root" "/sds" 3 w_pool w_ids (fun _ => None) true w_request
                      (N0 (mkFS ∅ ∅)) in
  res = Ok () ∧ outbox n1 = [] ∧ PacketIdMap n1 = ∅.
Proof.
  apply (lost_slices_are_not_answered (H := sum_hash) (L := copy_mmap) "/root" ["sds"] 3 w_pool w_ids ltac:(repeat constructor; done) (fun _ => None) w_request
    (mkDownSlice 1 "stask" w_hash 10 14) (N0 (mkFS ∅ ∅))).
  - reflexivity.
  - by apply good_hash_by_computation.
  - reflexivity.
  - reflexivity.
  - apply not_elem_of_empty.
Defined.
