(* ===== verification/Rlp.v ===== *)
(** * Rlp: the RLP format and the functions on encoded values

    RLP (framework/crypto/rlp) writes a value as a tag, which holds its kind and
    its size, and its content.  The file has

    - the format itself, as a function [rlp] on trees of byte strings;
    - the integers and tags of encode.go ([putint], [intsize], [headsize],
      [puthead]);
    - the functions on encoded values of raw.go ([Split] and its variants,
      [CountValues], [AppendUint64]) and the iterator of iterator.go.

    A function that returns several values and an error is a [res]; where the code
    uses the values it gets beside an error, the definition says so. *)
From S2P Require Import Prelude Bytes.

#[local] Infix "|||" := Z.lor (at level 50, left associativity) : Z_scope.

(** ** The format *)

Inductive item :=
  | Str (b : bytes)
  | Lst (l : list item).

(** Number of bytes of an integer in base 256, none for zero, and the integer in
    as many bytes. *)
Definition be_len (z : Z) : nat := if bool_decide (z ≤ 0) then 0%nat else Z.to_nat (Z.log2 z / 8 + 1).
Definition be_bytes (z : Z) : bytes := be_encode (be_len z) z.

Definition tag (smalltag largetag size : Z) : bytes :=
  if bool_decide (size < 56) then [byte_of_Z (smalltag + size)]
  else byte_of_Z (largetag + Z.of_nat (be_len size)) :: be_bytes size.

Definition small_byte (b : bytes) : bool :=
  match b with [x] => bool_decide (Z_of_byte x < 128) | _ => false end.

Definition rlp_string (b : bytes) : bytes := if small_byte b then b else tag 0x80 0xB7 (zlen b) ++ b.
Definition rlp_list (content : bytes) : bytes := tag 0xC0 0xF7 (zlen content) ++ content.

Fixpoint rlp (it : item) : bytes :=
  match it with
  | Str b => rlp_string b
  | Lst l => rlp_list (concat (map rlp l))
  end.

(** ** Errors and kinds (decode.go) *)

Definition EOL := "rlp: end of list".
Definition ErrExpectedString := "rlp: expected String or Byte".
Definition ErrExpectedList := "rlp: expected List".
Definition ErrCanonInt := "rlp: non-canonical integer format".
Definition ErrCanonSize := "rlp: non-canonical size information".
Definition ErrElemTooLarge := "rlp: element is larger than containing list".
Definition ErrValueTooLarge := "rlp: value size exceeds available input length".
Definition ErrMoreThanOneValue := "rlp: input contains more than one value".
Definition errUintOverflow := "rlp: uint overflow".
Definition io_ErrUnexpectedEOF := "unexpected EOF".
Definition io_EOF := "EOF".

Inductive Kind := KByte | KString | KList.
#[global] Instance Kind_eq_dec : EqDecision Kind.
Proof. solve_decision. Defined.

(** ** Integers and tags (encode.go) *)

(** The bytes [putint] writes; its result is their number. *)
Definition putint (i : Z) : bytes :=
  let at_ k := byte_of_Z (i ≫ k) in
  if bool_decide (i < 1 ≪ 8) then [byte_of_Z i]
  else if bool_decide (i < 1 ≪ 16) then [at_ 8; byte_of_Z i]
  else if bool_decide (i < 1 ≪ 24) then [at_ 16; at_ 8; byte_of_Z i]
  else if bool_decide (i < 1 ≪ 32) then [at_ 24; at_ 16; at_ 8; byte_of_Z i]
  else if bool_decide (i < 1 ≪ 40) then [at_ 32; at_ 24; at_ 16; at_ 8; byte_of_Z i]
  else if bool_decide (i < 1 ≪ 48) then [at_ 40; at_ 32; at_ 24; at_ 16; at_ 8; byte_of_Z i]
  else if bool_decide (i < 1 ≪ 56) then [at_ 48; at_ 40; at_ 32; at_ 24; at_ 16; at_ 8; byte_of_Z i]
  else [at_ 56; at_ 48; at_ 40; at_ 32; at_ 24; at_ 16; at_ 8; byte_of_Z i].

(** The loop of [intsize] ends after at most eight shifts of a [uint64]. *)
Fixpoint intsize_loop (fuel : nat) (size i : Z) : Z :=
  match fuel with
  | O => size
  | S fuel => let i := i ≫ 8 in if bool_decide (i = 0) then size else intsize_loop fuel (size + 1) i
  end.
Definition intsize (i : Z) : Z := intsize_loop 8 1 i.

Definition headsize (size : Z) : Z := if bool_decide (size < 56) then 1 else 1 + intsize size.

(** The bytes [puthead] writes; its result is their number.  [put_head] is the
    effect on a buffer, which panics when there is no room. *)
Definition puthead (smalltag largetag size : Z) : bytes :=
  if bool_decide (size < 56) then [byte_of_Z (u8 (smalltag + size))]
  else let sizebytes := putint size in byte_of_Z (u8 (largetag + zlen sizebytes)) :: sizebytes.

Definition put_head (buf : bytes) (pos : nat) (smalltag largetag size : Z) : res (bytes * nat) :=
  let head := puthead smalltag largetag size in
  if bool_decide (pos + length head ≤ length buf)%nat then Ok (copy_at buf pos head) else Panic "index out of range".

(** ** Functions on encoded values (raw.go) *)

Definition ListSize (contentSize : Z) : Z := u64 (headsize contentSize + contentSize).
Definition IntSize (x : Z) : Z := if bool_decide (x < 0x80) then 1 else 1 + intsize x.

Definition byte_at (b : bytes) (i : nat) : Z := Z_of_byte (nth i b Byte.x00).

Definition readSize (b : bytes) (slen : Z) : res Z :=
  if bool_decide (slen > zlen b) then Err io_ErrUnexpectedEOF
  else
    let x := byte_at b in
    let s :=
      match slen with
      | 1 => x 0%nat
      | 2 => x 0%nat ≪ 8 ||| x 1%nat
      | 3 => x 0%nat ≪ 16 ||| x 1%nat ≪ 8 ||| x 2%nat
      | 4 => x 0%nat ≪ 24 ||| x 1%nat ≪ 16 ||| x 2%nat ≪ 8 ||| x 3%nat
      | 5 => x 0%nat ≪ 32 ||| x 1%nat ≪ 24 ||| x 2%nat ≪ 16 ||| x 3%nat ≪ 8 ||| x 4%nat
      | 6 => x 0%nat ≪ 40 ||| x 1%nat ≪ 32 ||| x 2%nat ≪ 24 ||| x 3%nat ≪ 16 ||| x 4%nat ≪ 8 ||| x 5%nat
      | 7 => x 0%nat ≪ 48 ||| x 1%nat ≪ 40 ||| x 2%nat ≪ 32 ||| x 3%nat ≪ 24 ||| x 4%nat ≪ 16 ||| x 5%nat ≪ 8 ||| x 6%nat
      | 8 => x 0%nat ≪ 56 ||| x 1%nat ≪ 48 ||| x 2%nat ≪ 40 ||| x 3%nat ≪ 32 ||| x 4%nat ≪ 24 ||| x 5%nat ≪ 16
             ||| x 6%nat ≪ 8 ||| x 7%nat
      | _ => 0
      end in
    if bool_decide (s < 56) || bool_decide (x 0%nat = 0) then Err ErrCanonSize else Ok s.

Definition readKind (buf : bytes) : res (Kind * Z * Z) :=
  match buf with
  | [] => Err io_ErrUnexpectedEOF
  | b0 :: rest =>
      let b := Z_of_byte b0 in
      '(k, tagsize, contentsize) ←
        (if bool_decide (b < 0x80) then Ok (KByte, 0, 1)
         else if bool_decide (b < 0xB8) then
           let contentsize := b - 0x80 in
           if bool_decide (contentsize = 1) && bool_decide (zlen buf > 1) && bool_decide (byte_at buf 1 < 128)
           then Err ErrCanonSize else Ok (KString, 1, contentsize)
         else if bool_decide (b < 0xC0) then size ← readSize rest (b - 0xB7); Ok (KString, b - 0xB7 + 1, size)
         else if bool_decide (b < 0xF8) then Ok (KList, 1, b - 0xC0)
         else size ← readSize rest (b - 0xF7); Ok (KList, b - 0xF7 + 1, size));
      if bool_decide (contentsize > u64 (zlen buf - tagsize)) then Err ErrValueTooLarge
      else Ok (k, tagsize, contentsize)
  end.

Definition Split (b : bytes) : res (Kind * bytes * bytes) :=
  '(k, ts, cs) ← readKind b;
  content ← slice b ts (u64 (ts + cs));
  rest ← slice b (u64 (ts + cs)) (zlen b);
  Ok (k, content, rest).

Definition SplitString (b : bytes) : res (bytes * bytes) :=
  '(k, content, rest) ← Split b;
  if bool_decide (k = KList) then Err ErrExpectedString else Ok (content, rest).

Definition SplitUint64 (b : bytes) : res (Z * bytes) :=
  '(content, rest) ← SplitString b;
  if bool_decide (zlen content = 0) then Ok (0, rest)
  else if bool_decide (zlen content = 1) then
    if bool_decide (byte_at content 0 = 0) then Err ErrCanonInt else Ok (byte_at content 0, rest)
  else if bool_decide (zlen content > 8) then Err errUintOverflow
  else match readSize content (u8 (zlen content)) with
       | Ok x => Ok (x, rest)
       | Err _ => Err ErrCanonInt
       | Panic m => Panic m
       end.

Definition SplitList (b : bytes) : res (bytes * bytes) :=
  '(k, content, rest) ← Split b;
  if bool_decide (k ≠ KList) then Err ErrExpectedList else Ok (content, rest).

(** The loop of [CountValues]; every value has at least one byte. *)
Fixpoint count_values (fuel : nat) (i : Z) (b : bytes) : res Z :=
  match b, fuel with
  | [], _ => Ok i
  | _, O => Panic "out of fuel"
  | _, S fuel =>
      '(_, tagsize, size) ← readKind b;
      b ← slice b (u64 (tagsize + size)) (zlen b);
      count_values fuel (i + 1) b
  end.
Definition CountValues (b : bytes) : res Z := count_values (length b) 0 b.

Definition AppendUint64 (b : bytes) (i : Z) : bytes :=
  let at_ k := byte_of_Z (i ≫ k) in
  let tag_ t := byte_of_Z t in
  if bool_decide (i = 0) then b ++ [tag_ 0x80]
  else if bool_decide (i < 128) then b ++ [byte_of_Z i]
  else if bool_decide (i < 1 ≪ 8) then b ++ [tag_ 0x81; byte_of_Z i]
  else if bool_decide (i < 1 ≪ 16) then b ++ [tag_ 0x82; at_ 8; byte_of_Z i]
  else if bool_decide (i < 1 ≪ 24) then b ++ [tag_ 0x83; at_ 16; at_ 8; byte_of_Z i]
  else if bool_decide (i < 1 ≪ 32) then b ++ [tag_ 0x84; at_ 24; at_ 16; at_ 8; byte_of_Z i]
  else if bool_decide (i < 1 ≪ 40) then b ++ [tag_ 0x85; at_ 32; at_ 24; at_ 16; at_ 8; byte_of_Z i]
  else if bool_decide (i < 1 ≪ 48) then b ++ [tag_ 0x86; at_ 40; at_ 32; at_ 24; at_ 16; at_ 8; byte_of_Z i]
  else if bool_decide (i < 1 ≪ 56) then b ++ [tag_ 0x87; at_ 48; at_ 40; at_ 32; at_ 24; at_ 16; at_ 8; byte_of_Z i]
  else b ++ [tag_ 0x88; at_ 56; at_ 48; at_ 40; at_ 32; at_ 24; at_ 16; at_ 8; byte_of_Z i].

(** ** The iterator (iterator.go)

    When the tag ahead cannot be read, [Next] uses the zero sizes that come with
    the error. *)

Record listIterator := mkIterator { it_data : bytes; it_next : bytes; it_err : option string }.

Definition NewListIterator (data : bytes) : res listIterator :=
  '(k, t, c) ← readKind data;
  if bool_decide (k ≠ KList) then Err ErrExpectedList
  else content ← slice data t (u64 (t + c)); Ok (mkIterator content [] None).

Definition Next (it : listIterator) : res (bool * listIterator) :=
  match it_data it with
  | [] => Ok (false, it)
  | _ =>
      let '(t, c, err) := match readKind (it_data it) with
                          | Ok (_, t, c) => (t, c, None)
                          | Err e | Panic e => (0, 0, Some e)
                          end in
      next ← slice (it_data it) 0 (u64 (t + c));
      data ← slice (it_data it) (u64 (t + c)) (zlen (it_data it));
      Ok (true, mkIterator data next err)
  end.

(** ** Lemmas *)

Lemma item_nested_ind (P : item → Prop) :
  (∀ b, P (Str b)) → (∀ l, Forall P l → P (Lst l)) → ∀ it, P it.
Proof.
  intros Hs Hl. fix IH 1. intros [b|l]; [apply Hs|]. apply Hl.
  induction l as [|it l IHl]; constructor; [apply IH|apply IHl].
Qed.

Lemma be_len_unique z n : 256 ^ Z.of_nat n ≤ z < 256 ^ Z.of_nat (S n) → be_len z = S n.
Proof.
  intros Hz. assert (0 < 256 ^ Z.of_nat n) by lia. unfold be_len.
  rewrite (bool_decide_eq_false_2 (z ≤ 0)) by lia.
  change 256 with (2 ^ 8) in Hz. rewrite <- !Z.pow_mul_r in Hz by lia.
  assert (8 * Z.of_nat n ≤ Z.log2 z) by (apply Z.log2_le_pow2; lia).
  assert (Z.log2 z < 8 * Z.of_nat (S n)) by (apply Z.log2_lt_pow2; lia).
  assert (Z.log2 z / 8 = Z.of_nat n) as ->; [|lia].
  symmetry. apply (Z.div_unique _ _ _ (Z.log2 z - 8 * Z.of_nat n)); lia.
Qed.

Lemma be_len_zero z : z ≤ 0 → be_len z = O.
Proof. intros. unfold be_len. by rewrite bool_decide_eq_true_2. Qed.

Lemma be_len_pos z : 0 < z → ∃ n, be_len z = S n ∧ 256 ^ Z.of_nat n ≤ z < 256 ^ Z.of_nat (S n).
Proof.
  intros Hz. pose proof (Z.log2_nonneg z). pose proof (Z.log2_spec z Hz) as [Hl Hu].
  exists (Z.to_nat (Z.log2 z / 8)). unfold be_len. rewrite (bool_decide_eq_false_2 (z ≤ 0)) by lia.
  assert (0 ≤ Z.log2 z / 8) by (apply Z.div_pos; lia). split; [lia|].
  rewrite Nat2Z.inj_succ, Z2Nat.id by lia. change 256 with (2 ^ 8). rewrite <- !Z.pow_mul_r by lia.
  pose proof (Z.div_mod (Z.log2 z) 8). pose proof (Z.mod_pos_bound (Z.log2 z) 8). split.
  - etrans; [|exact Hl]. apply Z.pow_le_mono_r; lia.
  - eapply Z.lt_le_trans; [exact Hu|]. apply Z.pow_le_mono_r; lia.
Qed.

Lemma be_len_le z n : z < 256 ^ Z.of_nat n → (be_len z ≤ n)%nat.
Proof.
  intros Hz. destruct (decide (z ≤ 0)); [rewrite be_len_zero by done; lia|].
  destruct (be_len_pos z) as (m & -> & Hm & _); [lia|].
  destruct (decide (S m ≤ n)%nat); [done|]. exfalso.
  assert (256 ^ Z.of_nat n ≤ 256 ^ Z.of_nat m) by (apply Z.pow_le_mono_r; lia). lia.
Qed.

Lemma be_decode_bytes z : 0 ≤ z → be_decode (be_bytes z) = z.
Proof.
  intros Hz. unfold be_bytes. rewrite be_decode_encode. apply Z.mod_small. split; [done|].
  destruct (decide (z = 0)) as [->|]; [rewrite be_len_zero; simpl; lia|].
  destruct (be_len_pos z) as (m & -> & Hm); lia.
Qed.

Lemma be_decode_cons x l : be_decode (x :: l) = Z_of_byte x * 256 ^ zlen l + be_decode l.
Proof. change (x :: l) with ([x] ++ l). rewrite be_decode_app. f_equal. Qed.

(** An integer without a leading zero byte is in as many bytes as it needs. *)
Lemma be_bytes_decode x l : Z_of_byte x ≠ 0 → be_bytes (be_decode (x :: l)) = x :: l.
Proof.
  intros Hx. unfold be_bytes. rewrite (be_len_unique _ (length l)).
  { apply (be_encode_decode (x :: l)). }
  pose proof (Z_of_byte_range x). rewrite be_decode_cons. pose proof (be_decode_bound l) as Hl. unfold zlen in *.
  rewrite Nat2Z.inj_succ, Z.pow_succ_r by lia. nia.
Qed.

Lemma be_bytes_nonzero z : 0 < z → ∃ x l, be_bytes z = x :: l ∧ Z_of_byte x ≠ 0.
Proof.
  intros Hz. unfold be_bytes. destruct (be_len_pos z) as (n & -> & Hn); [done|]. cbn [be_encode]. do 2 eexists. split; [done|].
  rewrite Z_of_byte_of_Z. rewrite Nat2Z.inj_succ, Z.pow_succ_r in Hn by lia.
  assert (1 ≤ z / 256 ^ Z.of_nat n) by (apply Z.div_le_lower_bound; lia).
  assert (z / 256 ^ Z.of_nat n < 256) by (apply Z.div_lt_upper_bound; lia). rewrite Z.mod_small; lia.
Qed.

Lemma zlen_be_bytes z : zlen (be_bytes z) = Z.of_nat (be_len z).
Proof. apply zlen_be_encode. Qed.

(** Evaluation of the constants [1 ≪ k] and [256 ^ n]. *)
Ltac consts :=
  repeat match goal with
  | H : context [1 ≪ ?k] |- _ => let v := eval vm_compute in (1 ≪ k) in change (1 ≪ k) with v in H
  | |- context [256 ^ Z.of_nat ?n] =>
      let v := eval vm_compute in (256 ^ Z.of_nat n) in
      match v with Z0 => idtac | Zpos _ => idtac end; change (256 ^ Z.of_nat n) with v
  end.

(** An integer between [256 ^ n] and [256 ^ (n + 1)] in its bytes, written out. *)
Ltac explicit_bytes n :=
  rewrite (be_len_unique _ n) by (consts; lia);
  cbn [be_encode]; consts; rewrite ?Z.shiftr_div_pow2 by lia; repeat f_equal; by rewrite ?Z.div_1_r.

(** [putint] writes an integer in as many bytes as it needs, but zero in one. *)
Lemma putint_ok i : 1 ≤ i < 2 ^ 64 → putint i = be_bytes i.
Proof.
  intros Hi. unfold putint, be_bytes. cbv zeta.
  case_bool_decide; [explicit_bytes 0%nat|]. case_bool_decide; [explicit_bytes 1%nat|].
  case_bool_decide; [explicit_bytes 2%nat|]. case_bool_decide; [explicit_bytes 3%nat|].
  case_bool_decide; [explicit_bytes 4%nat|]. case_bool_decide; [explicit_bytes 5%nat|].
  case_bool_decide; [explicit_bytes 6%nat|]. explicit_bytes 7%nat.
Qed.

Lemma AppendUint64_putint b i :
  128 ≤ i → AppendUint64 b i = b ++ byte_of_Z (0x80 + zlen (putint i)) :: putint i.
Proof.
  intros. unfold AppendUint64, putint. cbv zeta.
  rewrite (bool_decide_eq_false_2 (i = 0)), (bool_decide_eq_false_2 (i < 128)) by lia.
  repeat (case_bool_decide; [done|]). done.
Qed.

Lemma be_bytes_small i : 1 ≤ i < 256 → be_bytes i = [byte_of_Z i].
Proof.
  intros. unfold be_bytes. rewrite (be_len_unique _ 0) by (simpl; lia). cbn [be_encode]. by rewrite Z.div_1_r.
Qed.

Lemma small_byte_be_bytes i : 0 ≤ i → small_byte (be_bytes i) = bool_decide (1 ≤ i < 128).
Proof.
  intros Hi. destruct (decide (1 ≤ i < 256)) as [Hb|Hb].
  - rewrite be_bytes_small by done. cbn [small_byte]. rewrite Z_of_byte_of_Z, Z.mod_small by lia. apply bool_decide_ext. lia.
  - rewrite bool_decide_eq_false_2 by lia. destruct (decide (i = 0)) as [->|Hne]; [done|].
    destruct (be_len_pos i) as (n & E & Hn); [lia|]. unfold be_bytes. rewrite E.
    destruct n as [|n]; [simpl in *; lia|]. done.
Qed.

(** The encoding of an integer, as a tag and its bytes. *)
Lemma rlp_int i : 0 ≤ i < 2 ^ 64 → ¬ 1 ≤ i < 128 →
  rlp_string (be_bytes i) = byte_of_Z (0x80 + Z.of_nat (be_len i)) :: be_bytes i.
Proof.
  intros Hi Hs. unfold rlp_string. rewrite small_byte_be_bytes, bool_decide_eq_false_2 by lia.
  unfold tag. rewrite zlen_be_bytes. rewrite bool_decide_eq_true_2; [done|].
  pose proof (be_len_le i 8). simpl in *. lia.
Qed.

Lemma AppendUint64_ok b i : in_u 64 i → AppendUint64 b i = b ++ rlp_string (be_bytes i).
Proof.
  intros Hi. unfold in_u in Hi. destruct (decide (i < 128)).
  - unfold AppendUint64. cbv zeta. case_bool_decide; [by subst|]. rewrite bool_decide_eq_true_2 by done.
    unfold rlp_string. by rewrite small_byte_be_bytes, bool_decide_eq_true_2, be_bytes_small by lia.
  - rewrite AppendUint64_putint, putint_ok, rlp_int, zlen_be_bytes by lia. done.
Qed.

Lemma intsize_loop_ok fuel : ∀ size i,
  1 ≤ i < 256 ^ Z.of_nat fuel → intsize_loop fuel size i = size - 1 + Z.of_nat (be_len i).
Proof.
  induction fuel as [|fuel IH]; intros size i Hi; [simpl in Hi; lia|]. cbn [intsize_loop].
  rewrite Z.shiftr_div_pow2 by lia. change (2 ^ 8) with 256.
  rewrite Nat2Z.inj_succ, Z.pow_succ_r in Hi by lia. case_bool_decide as Hz.
  - rewrite (be_len_unique i 0); [lia|]. apply Z.div_small_iff in Hz; simpl; lia.
  - assert (1 ≤ i / 256) by (pose proof (Z.div_pos i 256); lia).
    rewrite IH by (split; [done|apply Z.div_lt_upper_bound; lia]).
    destruct (be_len_pos (i / 256)) as (n & En & Hn); [lia|]. rewrite En, (be_len_unique i (S n)); [lia|].
    rewrite (Nat2Z.inj_succ (S n)), (Nat2Z.inj_succ n) in *. rewrite !Z.pow_succ_r in * by lia.
    pose proof (Z.div_mod i 256). pose proof (Z.mod_pos_bound i 256). lia.
Qed.

Lemma intsize_ok i : 1 ≤ i < 2 ^ 64 → intsize i = Z.of_nat (be_len i).
Proof. intros. unfold intsize. rewrite intsize_loop_ok; [lia|]. done. Qed.

Lemma puthead_ok small large size :
  0 ≤ small ≤ 0xC0 → 0 ≤ large ≤ 0xF7 → 0 ≤ size < 2 ^ 64 → puthead small large size = tag small large size.
Proof.
  intros Hs Hl Hsize. unfold puthead, tag. case_bool_decide.
  - by rewrite wrapu_id by (unfold in_u; lia).
  - rewrite putint_ok, zlen_be_bytes by lia. pose proof (be_len_le size 8). simpl in *.
    by rewrite wrapu_id by (unfold in_u; lia).
Qed.

Lemma headsize_ok small large size : 0 ≤ size < 2 ^ 64 → headsize size = zlen (tag small large size).
Proof.
  intros. unfold headsize, tag. case_bool_decide; [done|]. rewrite intsize_ok by lia.
  unfold zlen. cbn [length]. rewrite Nat2Z.inj_succ. fold (zlen (be_bytes size)). rewrite zlen_be_bytes. lia.
Qed.

(** ** Reading tags *)

Lemma readSize_sum b slen :
  1 ≤ slen ≤ 8 → slen ≤ zlen b →
  readSize b slen = if bool_decide (be_decode (take (Z.to_nat slen) b) < 56) || bool_decide (byte_at b 0 = 0)
                    then Err ErrCanonSize else Ok (be_decode (take (Z.to_nat slen) b)).
Proof.
  intros Hs Hb. unfold readSize. rewrite bool_decide_eq_false_2 by lia. cbv zeta.
  match goal with |- (if bool_decide (?s < 56) || _ then _ else _) = _ => assert (s = be_decode (take (Z.to_nat slen) b)) as ->; [|done] end.
  assert (slen = 1 ∨ slen = 2 ∨ slen = 3 ∨ slen = 4 ∨ slen = 5 ∨ slen = 6 ∨ slen = 7 ∨ slen = 8) as Hc by lia.
  unfold zlen in Hb.
  destruct_or! Hc; subst slen; repeat (destruct b as [|? b]; cbn [length] in Hb; [lia|]);
    match goal with |- context [Z.to_nat ?z] => let v := eval vm_compute in (Z.to_nat z) in change (Z.to_nat z) with v end;
    unfold byte_at, be_decode; cbn [nth take foldl];
    repeat match goal with x : byte |- _ => pose proof (Z_of_byte_range x); generalize dependent (Z_of_byte x); clear x; intros end.
  all: rewrite take_0; cbn [foldl]; rewrite <- ?Z.lor_assoc.
  all: repeat match goal with |- context [?a ≪ ?n ||| ?c] =>
         lazymatch c with context [_ ||| _] => fail | _ => rewrite (lor_shiftl_add a c n) by lia end end; lia.
Qed.

(** [readSize] reads exactly the integers of at least 56 in their bytes. *)
Lemma readSize_ok s rest : 56 ≤ s < 2 ^ 64 → readSize (be_bytes s ++ rest) (Z.of_nat (be_len s)) = Ok s.
Proof.
  intros Hs. pose proof (be_len_le s 8) as Hl. destruct (be_len_pos s) as (n & En & Hn); [lia|].
  pose proof (zlen_be_bytes s) as Hz. pose proof (zlen_nonneg rest).
  rewrite readSize_sum by (rewrite ?zlen_app; simpl in *; lia).
  rewrite Nat2Z.id, take_app_length' by (unfold zlen in Hz; lia). rewrite be_decode_bytes by lia.
  rewrite bool_decide_eq_false_2 by lia. destruct (be_bytes_nonzero s) as (x & l & -> & Hx); [lia|].
  by rewrite (bool_decide_eq_false_2 (byte_at _ _ = 0)).
Qed.

Lemma readSize_inv b slen s :
  1 ≤ slen ≤ 8 → readSize b slen = Ok s →
  56 ≤ s < 2 ^ 64 ∧ slen = Z.of_nat (be_len s) ∧ ∃ rest, b = be_bytes s ++ rest.
Proof.
  intros Hs. destruct (decide (slen ≤ zlen b)) as [Hb|Hb]; [|unfold readSize; by rewrite bool_decide_eq_true_2 by lia].
  rewrite readSize_sum by done. case_bool_decide as H56; [done|]. case_bool_decide as H0; [done|]. intros [= <-].
  assert (be_bytes (be_decode (take (Z.to_nat slen) b)) = take (Z.to_nat slen) b) as E.
  { destruct b as [|x b]; [unfold zlen in Hb; simpl in Hb; lia|].
    destruct (Z.to_nat slen) as [|m] eqn:Em; [lia|]. cbn [take]. by apply be_bytes_decode. }
  pose proof (zlen_be_bytes (be_decode (take (Z.to_nat slen) b))) as Hl. rewrite E in Hl.
  unfold zlen in *. rewrite length_take in Hl. split_and!; [lia| |lia|].
  - pose proof (be_decode_bound (take (Z.to_nat slen) b)) as [_ Hd]. unfold zlen in Hd. rewrite length_take in Hd.
    eapply Z.lt_le_trans; [exact Hd|]. change (2 ^ 64) with (256 ^ 8). apply Z.pow_le_mono_r; lia.
  - exists (drop (Z.to_nat slen) b). by rewrite E, take_drop.
Qed.

(** A value as its kind and content; a single byte below 128 is of kind [KByte]
    and of no other. *)
Definition kind_tag (k : Kind) (size : Z) : bytes :=
  match k with KByte => [] | KString => tag 0x80 0xB7 size | KList => tag 0xC0 0xF7 size end.
Definition encoded (k : Kind) (content : bytes) : bytes := kind_tag k (zlen content) ++ content.
Definition fits_kind (k : Kind) (content : bytes) : Prop :=
  match k with KByte => small_byte content = true | KString => small_byte content = false | KList => True end.

(** What the first byte says: the value is this byte, or its size, or the number of
    bytes of the size. *)
Inductive first_byte := FSelf | FShort (k : Kind) (size : Z) | FLong (k : Kind) (slen : Z).
Definition classify (b : Z) : first_byte :=
  if bool_decide (b < 0x80) then FSelf
  else if bool_decide (b < 0xB8) then FShort KString (b - 0x80)
  else if bool_decide (b < 0xC0) then FLong KString (b - 0xB7)
  else if bool_decide (b < 0xF8) then FShort KList (b - 0xC0)
  else FLong KList (b - 0xF7).

Lemma zlen_cons {A} (x : A) l : zlen (x :: l) = 1 + zlen l.
Proof. unfold zlen. cbn [length]. lia. Qed.

Lemma zlen_kind_tag k size :
  k ≠ KByte → zlen (kind_tag k size) = if bool_decide (size < 56) then 1 else 1 + Z.of_nat (be_len size).
Proof.
  intros. assert (∀ s l, zlen (tag s l size) = if bool_decide (size < 56) then 1 else 1 + Z.of_nat (be_len size)) as H'.
  { intros. unfold tag. case_bool_decide; [done|]. by rewrite zlen_cons, zlen_be_bytes. }
  destruct k; [done|apply H'..].
Qed.

(** The first byte of a tag, and what follows it. *)
Lemma kind_tag_short k size : k ≠ KByte → 0 ≤ size < 56 →
  ∃ b, kind_tag k size = [b] ∧ classify (Z_of_byte b) = FShort k size.
Proof.
  intros Hk Hs. destruct k; [done|..]; cbn [kind_tag]; unfold tag; rewrite bool_decide_eq_true_2 by lia;
    eexists; (split; [done|]); rewrite Z_of_byte_of_Z, Z.mod_small by lia; unfold classify; repeat (case_bool_decide; try lia); f_equal; lia.
Qed.

Lemma kind_tag_long k size : k ≠ KByte → 56 ≤ size < 2 ^ 64 →
  ∃ b, kind_tag k size = b :: be_bytes size ∧ classify (Z_of_byte b) = FLong k (Z.of_nat (be_len size)).
Proof.
  intros Hk Hs. pose proof (be_len_le size 8) as H8. destruct (be_len_pos size) as (n & En & _); [lia|].
  assert (1 ≤ Z.of_nat (be_len size) ≤ 8) by (simpl in *; lia). clear H8 En.
  destruct k; [done|..]; cbn [kind_tag]; unfold tag; rewrite (bool_decide_eq_false_2 (size < 56)) by lia;
    eexists; (split; [done|]); rewrite Z_of_byte_of_Z, Z.mod_small by lia; unfold classify; repeat (case_bool_decide; try lia); f_equal; lia.
Qed.

Lemma classify_self b : classify (Z_of_byte b) = FSelf ↔ Z_of_byte b < 128.
Proof. unfold classify. repeat case_bool_decide; split; try done; lia. Qed.

Lemma byte_eq b z : Z_of_byte b = z → b = byte_of_Z z.
Proof. intros <-. by rewrite byte_of_Z_of_byte. Qed.

Lemma classify_short b k size : classify (Z_of_byte b) = FShort k size → k ≠ KByte ∧ 0 ≤ size < 56 ∧ kind_tag k size = [b].
Proof.
  pose proof (Z_of_byte_range b). unfold classify. repeat case_bool_decide; try done; intros [= <- <-]; (split_and!; [done|lia..|]);
    cbn [kind_tag]; unfold tag; rewrite bool_decide_eq_true_2 by lia; f_equal; symmetry; apply byte_eq; lia.
Qed.

Lemma classify_long b k slen : classify (Z_of_byte b) = FLong k slen →
  k ≠ KByte ∧ 1 ≤ slen ≤ 8 ∧ ∀ size, 56 ≤ size → Z.of_nat (be_len size) = slen → kind_tag k size = b :: be_bytes size.
Proof.
  pose proof (Z_of_byte_range b). unfold classify. repeat case_bool_decide; try done; intros [= <- <-]; (split_and!; [done|lia..|]);
    intros size Hs Hl; cbn [kind_tag]; unfold tag; rewrite bool_decide_eq_false_2 by lia; f_equal; symmetry; apply byte_eq; lia.
Qed.

Lemma readKind_classify b rest :
  readKind (b :: rest) =
    '(k, tagsize, contentsize) ←
      match classify (Z_of_byte b) with
      | FSelf => Ok (KByte, 0, 1)
      | FShort k size => if bool_decide (k = KString) && bool_decide (size = 1) && small_byte (take 1 rest)
                         then Err ErrCanonSize else Ok (k, 1, size)
      | FLong k slen => size ← readSize rest slen; Ok (k, slen + 1, size)
      end;
    if bool_decide (contentsize > u64 (zlen (b :: rest) - tagsize)) then Err ErrValueTooLarge else Ok (k, tagsize, contentsize).
Proof.
  unfold readKind, classify. destruct (bool_decide (Z_of_byte b < 0x80)); [done|].
  destruct (bool_decide (Z_of_byte b < 0xB8)).
  - f_equal. rewrite (bool_decide_eq_true_2 (KString = KString)) by done. cbn [andb].
    assert (bool_decide (zlen (b :: rest) > 1) && bool_decide (byte_at (b :: rest) 1 < 128) = small_byte (take 1 rest)) as E.
    { destruct rest as [|x rest]; [done|]. cbn [take]. rewrite take_0. unfold byte_at. cbn [nth small_byte].
      rewrite (bool_decide_eq_true_2 (_ > 1)); [done|]. rewrite !zlen_cons. pose proof (zlen_nonneg rest). lia. }
    by rewrite <- E, andb_assoc.
  - destruct (bool_decide (Z_of_byte b < 0xC0)); [done|]. by destruct (bool_decide (Z_of_byte b < 0xF8)).
Qed.

Lemma readKind_encoded k c rest :
  fits_kind k c → zlen (encoded k c ++ rest) < 2 ^ 63 →
  readKind (encoded k c ++ rest) = Ok (k, zlen (kind_tag k (zlen c)), zlen c).
Proof.
  intros Hk Hz. unfold encoded in *. rewrite <- app_assoc in *. rewrite !zlen_app in Hz.
  pose proof (zlen_nonneg c) as Hc. pose proof (zlen_nonneg rest) as Hr. pose proof (zlen_nonneg (kind_tag k (zlen c))).
  destruct (decide (k = KByte)) as [->|Hne].
  { destruct c as [|x [|]]; try done. cbn [fits_kind small_byte] in Hk. apply bool_decide_eq_true in Hk.
    cbn [kind_tag app]. rewrite readKind_classify. replace (classify (Z_of_byte x)) with FSelf by (symmetry; by apply classify_self).
    cbn [mbind res_bind]. cbn [kind_tag] in *. rewrite !zlen_cons, !zlen_nil in *. rewrite wrapu_id by (unfold in_u; lia).
    rewrite bool_decide_eq_false_2 by lia. done. }
  destruct (decide (zlen c < 56)) as [Hs|Hs].
  - destruct (kind_tag_short k (zlen c)) as (b & Eb & Cb); [done|lia|]. rewrite Eb in *. cbn [app]. rewrite readKind_classify, Cb.
    destruct (bool_decide (k = KString) && bool_decide (zlen c = 1) && small_byte (take 1 (c ++ rest))) eqn:E.
    + exfalso. rewrite !andb_true_iff, !bool_decide_eq_true in E. destruct E as [[-> E1] E2].
      destruct c as [|x [|y c]]; rewrite ?zlen_cons, ?zlen_nil in E1; [lia| |pose proof (zlen_nonneg c); lia].
      cbn [fits_kind take app] in *. rewrite take_0 in E2. congruence.
    + cbn [mbind res_bind]. rewrite !zlen_cons, !zlen_app, zlen_nil in *. rewrite wrapu_id by (unfold in_u; lia).
      rewrite bool_decide_eq_false_2 by lia. done.
  - destruct (kind_tag_long k (zlen c)) as (b & Eb & Cb); [done|lia|]. rewrite Eb in *. cbn [app]. rewrite readKind_classify, Cb.
    rewrite readSize_ok by lia. cbn [mbind res_bind]. rewrite !zlen_cons, !zlen_app, zlen_be_bytes in *.
    rewrite wrapu_id by (unfold in_u; lia). rewrite bool_decide_eq_false_2 by lia. do 3 f_equal. lia.
Qed.

Lemma readKind_inv b k ts cs :
  zlen b < 2 ^ 63 → readKind b = Ok (k, ts, cs) →
  ∃ c rest, b = encoded k c ++ rest ∧ fits_kind k c ∧ ts = zlen (kind_tag k (zlen c)) ∧ cs = zlen c.
Proof.
  intros Hz. destruct b as [|b0 rest]; [done|]. rewrite zlen_cons in Hz. rewrite readKind_classify, bind_ok.
  pose proof (zlen_nonneg rest). intros ([[k' ts'] cs'] & E & Hfit). revert Hfit. case_bool_decide as Hle; [done|]. intros [= -> -> ->].
  rewrite zlen_cons in Hle. destruct (classify (Z_of_byte b0)) as [|k' size|k' slen] eqn:Cb.
  - injection E as <- <- <-. exists [b0], rest. split_and!; [done| |done..].
    cbn [fits_kind small_byte]. apply bool_decide_eq_true. by apply classify_self.
  - apply classify_short in Cb as (Hk & Hs & Et). destruct (_ && _ && _) eqn:Ec; [done|]. injection E as <- <- <-.
    rewrite wrapu_id in Hle by (unfold in_u; lia).
    destruct (split_len rest (Z.to_nat size) (length rest - Z.to_nat size)) as (c & rest' & -> & Hc & _); [unfold zlen in *; lia|].
    exists c, rest'. assert (zlen c = size) as <- by (unfold zlen; lia). unfold encoded. rewrite Et. split_and!; [done| |done..].
    destruct k' as [| |]; [done| |done]. cbn [fits_kind]. destruct (small_byte c) eqn:Es; [|done]. exfalso.
    destruct c as [|x [|]]; try done. cbn [app take] in Ec. rewrite take_0 in Ec.
    rewrite Es, !bool_decide_eq_true_2 in Ec by done. done.
  - apply classify_long in Cb as (Hk & Hs & Et). apply bind_ok in E as (size & E & [= <- <- <-]).
    apply readSize_inv in E as (H56 & -> & rest' & ->); [|done]. rewrite zlen_app, zlen_be_bytes in *. pose proof (zlen_nonneg rest').
    rewrite wrapu_id in Hle by (unfold in_u; lia).
    destruct (split_len rest' (Z.to_nat size) (length rest' - Z.to_nat size)) as (c & rest & -> & Hc & _); [unfold zlen in *; lia|].
    assert (zlen c = size) as <- by (unfold zlen; lia). exists c, rest. unfold encoded. rewrite Et by lia.
    split_and!; [by rewrite <- !app_assoc| |by rewrite zlen_cons, zlen_be_bytes; lia|done].
    destruct k'; [done| |done]. cbn [fits_kind]. destruct c as [|x [|]]; try done. rewrite zlen_cons, zlen_nil in *. lia.
Qed.

Lemma slice_tail a c : slice (a ++ c) (zlen a) (zlen (a ++ c)) = Ok c.
Proof. rewrite <- (app_nil_r c) at 1. apply slice_mid; [done|]. apply zlen_app. Qed.

Lemma readKind_no_panic b e : readKind b ≠ Panic e.
Proof.
  destruct b as [|b rest]; [done|]. rewrite readKind_classify.
  assert (∀ l n e', readSize l n ≠ Panic e') as Hs by (intros; unfold readSize; case_go).
  destruct (classify _) as [|k size|k slen]; cbn [mbind res_bind].
  - by case_bool_decide.
  - destruct (_ && _ && _); cbn [mbind res_bind]; [done|by case_bool_decide].
  - destruct (readSize rest slen) eqn:E; cbn [mbind res_bind]; [by case_bool_decide|done|by apply Hs in E].
Qed.

(** What [Split] and [Next] do with a value that [readKind] has read. *)
Lemma split_encoded k c rest :
  zlen (encoded k c ++ rest) < 2 ^ 63 →
  let ts := zlen (kind_tag k (zlen c)) in let cs := zlen c in let b := encoded k c ++ rest in
  slice b ts (u64 (ts + cs)) = Ok c ∧ slice b 0 (u64 (ts + cs)) = Ok (encoded k c) ∧ slice b (u64 (ts + cs)) (zlen b) = Ok rest.
Proof.
  intros Hz. cbv zeta. pose proof (zlen_nonneg c). pose proof (zlen_nonneg (kind_tag k (zlen c))).
  rewrite zlen_app in Hz. pose proof (zlen_nonneg rest). unfold encoded in *. rewrite zlen_app in Hz.
  rewrite wrapu_id by (unfold in_u; lia). split_and!.
  - rewrite <- app_assoc. by apply slice_mid.
  - apply slice_head. by rewrite zlen_app.
  - rewrite <- zlen_app. apply slice_tail.
Qed.

Lemma Split_ok k c rest :
  fits_kind k c → zlen (encoded k c ++ rest) < 2 ^ 63 → Split (encoded k c ++ rest) = Ok (k, c, rest).
Proof.
  intros Hk Hz. unfold Split. rewrite readKind_encoded by done. destruct (split_encoded k c rest Hz) as (H1 & _ & H2).
  cbn [mbind res_bind]. by rewrite H1, H2.
Qed.

Lemma Split_inv b k c rest :
  zlen b < 2 ^ 63 → Split b = Ok (k, c, rest) → b = encoded k c ++ rest ∧ fits_kind k c.
Proof.
  intros Hz. unfold Split. destruct (readKind b) as [[[k' ts] cs]|e|e] eqn:E; [|done..].
  pose proof E as E'. apply readKind_inv in E as (c' & rest' & -> & Hk & -> & ->); [|done].
  destruct (split_encoded k' c' rest' Hz) as (H1 & _ & H2). cbn [mbind res_bind]. rewrite H1, H2. by intros [= -> -> ->].
Qed.

(** [Split] accepts exactly the encoded values: it gives back kind, content and
    rest precisely when the input is the encoding of that content, in the one form
    the format allows, followed by the rest; it never panics. *)
Theorem split_exact b k c rest :
  zlen b < 2 ^ 63 →
  (Split b = Ok (k, c, rest) ↔ b = encoded k c ++ rest ∧ fits_kind k c) ∧ (∀ e, Split b ≠ Panic e).
Proof.
  intros Hz. split; [split; [by apply Split_inv|intros [-> Hk]; by apply Split_ok]|].
  intros e. unfold Split. destruct (readKind b) as [[[k' ts] cs]|e'|e'] eqn:E; [|done|by apply readKind_no_panic in E].
  apply readKind_inv in E as (c' & rest' & -> & Hk & -> & ->); [|done].
  destruct (split_encoded k' c' rest' Hz) as (H1 & _ & H2). cbn [mbind res_bind]. by rewrite H1, H2.
Qed.

Definition string_kind (c : bytes) : Kind := if small_byte c then KByte else KString.

Lemma rlp_string_encoded c : rlp_string c = encoded (string_kind c) c ∧ fits_kind (string_kind c) c.
Proof. unfold rlp_string, encoded, string_kind. by destruct (small_byte c) eqn:E. Qed.

Lemma fits_string_kind k c : k ≠ KList → fits_kind k c → k = string_kind c.
Proof. unfold string_kind. destruct k; cbn [fits_kind]; [by intros _ ->..|done]. Qed.

Lemma SplitString_exact b c rest : zlen b < 2 ^ 63 → SplitString b = Ok (c, rest) ↔ b = rlp_string c ++ rest.
Proof.
  intros Hz. destruct (rlp_string_encoded c) as [E Hk]. rewrite E. unfold SplitString. split.
  - intros ([[k c'] rest'] & Hs & H)%bind_ok. case_bool_decide; [done|]. injection H as -> ->.
    apply Split_inv in Hs as [-> Hk']; [|done]. by rewrite (fits_string_kind k c).
  - intros ->. rewrite Split_ok by done. cbn [mbind res_bind].
    rewrite bool_decide_eq_false_2; [done|]. unfold string_kind. by destruct (small_byte c).
Qed.

(** [SplitUint64] reads exactly what [AppendUint64] writes: it gives an integer
    and the rest precisely when the input is the encoding of the integer in the
    least number of bytes, followed by the rest.  Every other input is an error. *)
Theorem uint64_exact b x rest :
  zlen b < 2 ^ 63 → SplitUint64 b = Ok (x, rest) ↔ in_u 64 x ∧ b = AppendUint64 [] x ++ rest.
Proof.
  intros Hz. unfold SplitUint64. split.
  - intros ([c rest'] & Hs & H)%bind_ok. apply SplitString_exact in Hs; [|done]. subst b.
    assert (in_u 64 x → c = be_bytes x → rest' = rest →
            in_u 64 x ∧ rlp_string c ++ rest' = AppendUint64 [] x ++ rest) as Hdone.
    { intros Hx -> ->. split; [done|]. by rewrite AppendUint64_ok. }
    unfold in_u in *. revert H. case_bool_decide as H0; [intros [= <- <-]; apply Hdone; [lia| |done]|].
    { destruct c; [done|rewrite zlen_cons in H0; pose proof (zlen_nonneg c); lia]. }
    case_bool_decide as H1.
    { destruct c as [|y [|]]; [done| |rewrite !zlen_cons in H1; pose proof (zlen_nonneg l); lia].
      unfold byte_at. cbn [nth]. case_bool_decide as Hy; [done|]. intros [= <- <-].
      pose proof (Z_of_byte_range y). apply Hdone; [lia| |done]. rewrite be_bytes_small by lia. by rewrite byte_of_Z_of_byte. }
    case_bool_decide as H8; [done|]. pose proof (zlen_nonneg c). rewrite wrapu_id by (unfold in_u; lia).
    destruct (readSize c (zlen c)) as [s|e|e] eqn:E; [|done..]. intros [= <- <-].
    apply readSize_inv in E as (Hs & Hl & rest'' & ->); [|lia]. apply Hdone; [lia| |done].
    rewrite zlen_app, zlen_be_bytes in Hl. destruct rest''; [by rewrite app_nil_r|rewrite zlen_cons in Hl; pose proof (zlen_nonneg rest''); lia].
  - intros [Hx ->]. rewrite AppendUint64_ok in * by done. cbn [app] in *.
    rewrite (proj2 (SplitString_exact _ (be_bytes x) rest Hz)) by done. cbn [mbind res_bind]. unfold in_u in Hx.
    rewrite zlen_be_bytes. destruct (decide (x = 0)) as [->|H0]; [done|].
    destruct (be_len_pos x) as (n & En & Hn); [lia|]. rewrite En. rewrite bool_decide_eq_false_2 by lia.
    destruct (be_bytes_nonzero x) as (y & l & Ey & Hy); [lia|].
    destruct n as [|n].
    + rewrite bool_decide_eq_true_2 by lia. rewrite be_bytes_small by (simpl in Hn; lia). unfold byte_at. cbn [nth].
      rewrite Z_of_byte_of_Z, Z.mod_small by (simpl in Hn; lia). by rewrite bool_decide_eq_false_2.
    + pose proof (be_len_le x 8) as H8. rewrite En in H8. rewrite !bool_decide_eq_false_2 by (simpl in *; lia).
      rewrite wrapu_id by (unfold in_u; simpl in *; lia). rewrite <- En, <- (app_nil_r (be_bytes x)).
      rewrite readSize_ok; [done|]. split; [|lia]. assert (256 ^ 1 ≤ 256 ^ Z.of_nat (S n)) by (apply Z.pow_le_mono_r; lia). lia.
Qed.

Lemma rlp_encoded it : ∃ k c, rlp it = encoded k c ∧ fits_kind k c ∧ rlp it ≠ [].
Proof.
  destruct it as [b|l]; cbn [rlp].
  - destruct (rlp_string_encoded b) as [E Hk]. do 2 eexists. split_and!; [exact E|exact Hk|].
    unfold rlp_string. destruct (small_byte b) eqn:Eb; [by destruct b|]. unfold tag. by case_bool_decide.
  - exists KList, (concat (map rlp l)). split_and!; [done..|]. unfold rlp_list, tag. by case_bool_decide.
Qed.

Lemma encoded_nonempty k c : fits_kind k c → encoded k c ≠ [].
Proof.
  intros Hk E. apply (f_equal zlen) in E. unfold encoded in E. rewrite zlen_app, zlen_nil in E. pose proof (zlen_nonneg c).
  pose proof (zlen_nonneg (kind_tag k (zlen c))).
  destruct (decide (k = KByte)) as [->|Hne]; [by destruct c as [|? [|]]|]. rewrite (zlen_kind_tag k) in * by done. case_bool_decide; lia.
Qed.

Lemma values_nil vs : Forall (uncurry fits_kind) vs → [] = concat (map (uncurry encoded) vs) → vs = [].
Proof.
  destruct vs as [|[k c] vs]; [done|]. intros [Hk _]%Forall_cons_iff E. apply encoded_nonempty in Hk.
  cbn [map concat uncurry] in E. by destruct (encoded k c).
Qed.

(** [CountValues] counts: on a sequence of encoded values it is their number, it
    is an error on any other input, and it never panics or runs on. *)
Theorem count_values_exact b n :
  zlen b < 2 ^ 63 →
  (CountValues b = Ok n ↔
   ∃ vs, b = concat (map (uncurry encoded) vs) ∧ Forall (uncurry fits_kind) vs ∧ n = zlen vs) ∧ (∀ e, CountValues b ≠ Panic e).
Proof.
  intros Hz. unfold CountValues.
  assert (∀ fuel i b, (length b ≤ fuel)%nat → zlen b < 2 ^ 63 →
    (count_values fuel i b = Ok n ↔
     ∃ vs, b = concat (map (uncurry encoded) vs) ∧ Forall (uncurry fits_kind) vs ∧ n = i + zlen vs)
    ∧ (∀ e, count_values fuel i b ≠ Panic e)) as H; [|by apply (H (length b) 0 b)].
  clear b Hz. induction fuel as [|fuel IH]; intros i b Hf Hz.
  { destruct b; [|simpl in Hf; lia]. split; [|done]. split; [intros [= <-]; exists []; split_and!; [done..|rewrite zlen_nil; lia]|].
    intros (vs & E & Hv & ->). rewrite (values_nil vs) by done. by rewrite zlen_nil, Z.add_0_r. }
  assert (∀ k c rest, b = encoded k c ++ rest → fits_kind k c → count_values (S fuel) i b = count_values fuel (i + 1) rest
          ∧ (length rest ≤ fuel)%nat ∧ zlen rest < 2 ^ 63) as Hstep.
  { intros k c rest -> Hk. pose proof (encoded_nonempty k c Hk) as Hne. destruct (split_encoded k c rest Hz) as (_ & _ & H2).
    pose proof (readKind_encoded k c rest Hk Hz) as Hr. rewrite zlen_app in Hz. pose proof (zlen_nonneg (encoded k c)).
    split; [|rewrite length_app in Hf; destruct (encoded k c); [done|simpl in Hf; lia]].
    cbn [count_values]. destruct (encoded k c ++ rest) eqn:E; [by destruct (encoded k c)|]. rewrite Hr. cbn [mbind res_bind]. by rewrite H2. }
  destruct (readKind b) as [[[k ts] cs]|e|e] eqn:E; [|destruct b as [|x b]|by apply readKind_no_panic in E].
  - destruct (readKind_inv b k ts cs Hz E) as (c & rest & Eb & Hk & _). destruct (Hstep k c rest Eb Hk) as (-> & Hf' & Hz').
    destruct (IH (i + 1) rest Hf' Hz') as [IH1 IH2]. split; [|done]. rewrite IH1. split.
    + intros (vs & -> & Hv & ->). exists ((k, c) :: vs). split_and!; [done|by constructor|rewrite zlen_cons; lia].
    + intros ([|[k' c'] vs] & E' & Hv & ->). { cbn in E'. subst b. apply encoded_nonempty in Hk. by destruct (encoded k c). }
      apply Forall_cons_iff in Hv as [Hk' Hv]. cbn [map concat uncurry] in E'. rewrite Eb in E'.
      pose proof (Split_ok k c rest Hk) as H1. pose proof (Split_ok k' c' (concat (map (uncurry encoded) vs)) Hk') as H2.
      rewrite <- E', <- Eb in *. specialize (H1 Hz). rewrite H2 in H1 by done. injection H1 as -> -> <-.
      exists vs. split_and!; [done..|]. rewrite zlen_cons. lia.
  - split; [|done]. split; [intros [= <-]; exists []; split_and!; [done..|rewrite zlen_nil; lia]|].
    intros (vs & E' & Hv & ->). rewrite (values_nil vs) by done. by rewrite zlen_nil, Z.add_0_r.
  - cbn [count_values]. rewrite E. split; [|done]. split; [done|]. intros ([|[k c] vs] & E' & Hv & ->); [done|].
    apply Forall_cons_iff in Hv as [Hv _]. cbn [map concat uncurry] in E'. exfalso. rewrite E' in E, Hz. by rewrite readKind_encoded in E.
Qed.

(** What a loop [for it.Next() { ... it.Value() ... }] sees. *)
Fixpoint values_seen (fuel : nat) (it : listIterator) : res (list bytes * listIterator) :=
  match fuel with
  | O => Ok ([], it)
  | S fuel =>
      '(more, it) ← Next it;
      if (more : bool) then ('(vs, it') ← values_seen fuel it; Ok (it_next it :: vs, it')) else Ok ([], it)
  end.

(** An iterator over an encoded list gives the encodings of its elements, in
    order, and ends; over a list whose contents are not encoded values it does not
    end: at the place that cannot be read, every call of [Next] answers that there
    is one more value. *)
Theorem iterator_yields_elements l data e :
  zlen (rlp (Lst l)) < 2 ^ 63 → data ≠ [] → readKind data = Err e →
  (∃ it it', NewListIterator (rlp (Lst l)) = Ok it ∧ values_seen (S (length l)) it = Ok (map rlp l, it') ∧ it_data it' = [] ∧ it_err it' = None)
  ∧ ∀ it, it_data it = data → Next it = Ok (true, mkIterator data [] (Some e)).
Proof.
  intros Hz Hne Hd. split.
  - cbn [rlp] in Hz. set (c := concat (map rlp l)) in *. exists (mkIterator c [] None).
    assert (∀ l next, zlen (concat (map rlp l)) < 2 ^ 63 → ∃ it', values_seen (S (length l)) (mkIterator (concat (map rlp l)) next None) = Ok (map rlp l, it')
      ∧ it_data it' = [] ∧ it_err it' = None) as H.
    { clear. induction l as [|it l IH]; intros next Hz; [by eexists|]. cbn [length map concat] in *.
      destruct (rlp_encoded it) as (k & c & E & Hk & Hnil). rewrite E in Hz |- *. destruct (split_encoded k c (concat (map rlp l)) Hz) as (_ & H1 & H2).
      pose proof (readKind_encoded k c (concat (map rlp l)) Hk Hz) as Hr. rewrite zlen_app in Hz. pose proof (zlen_nonneg (encoded k c)).
      destruct (IH (encoded k c)) as (it' & Hit & ?); [lia|]. exists it'. split; [|done].
      change (values_seen (S (S (length l))) ?x) with
        ('(more, it) ← Next x; if (more : bool) then ('(vs, it') ← values_seen (S (length l)) it; Ok (it_next it :: vs, it')) else Ok ([], it)).
      unfold Next at 1. cbn [it_data].
      destruct (encoded k c ++ concat (map rlp l)) eqn:E'; [rewrite E in Hnil; by destruct (encoded k c)|].
      rewrite Hr, H1, H2. cbn [mbind res_bind]. rewrite Hit. done. }
    assert (rlp_list c = encoded KList c ++ []) as E by by rewrite app_nil_r.
    destruct (H l []) as (it' & Hit & Hd1 & Hd2). { unfold rlp_list in Hz. rewrite zlen_app in Hz. pose proof (zlen_nonneg (tag 0xC0 0xF7 (zlen c))). fold c. lia. }
    exists it'. split_and!; [|done..]. cbn [rlp]. fold c. unfold NewListIterator. rewrite E in *.
    rewrite readKind_encoded by done. cbn [mbind res_bind]. rewrite bool_decide_eq_false_2 by auto.
    destruct (split_encoded KList c [] Hz) as (H1 & _). by rewrite H1.
  - intros it <-. unfold Next. rewrite Hd. destruct (it_data it) as [|x d] eqn:Ed; [done|].
    change (u64 (0 + 0)) with 0. pose proof (slice_head [] (x :: d) 0 eq_refl) as H1. cbn [app] in H1. rewrite H1. cbn [mbind res_bind].
    pose proof (slice_tail [] (x :: d)) as H2. cbn [app] in H2. rewrite zlen_nil in H2. by rewrite H2.
Qed.

(** Concrete inputs. *)
Module RlpDemo.

Definition dog := string_bytes "dog".
Definition cat := string_bytes "cat".
Definition two : item := Lst [Str cat; Str dog].

Lemma split_exact_witness :
  (Split (rlp two ++ [Byte.x05]) = Ok (KList, rlp (Str cat) ++ rlp (Str dog), [Byte.x05])
   ↔ rlp two ++ [Byte.x05] = encoded KList (rlp (Str cat) ++ rlp (Str dog)) ++ [Byte.x05] ∧ fits_kind KList (rlp (Str cat) ++ rlp (Str dog)))
  ∧ (∀ e, Split (rlp two ++ [Byte.x05]) ≠ Panic e).
Proof. apply split_exact. reflexivity. Defined.

Lemma uint64_exact_witness :
  SplitUint64 (AppendUint64 [] 1024 ++ dog) = Ok (1024, dog) ↔ in_u 64 1024 ∧ AppendUint64 [] 1024 ++ dog = AppendUint64 [] 1024 ++ dog.
Proof. apply uint64_exact. reflexivity. Defined.

Lemma count_values_exact_witness :
  (CountValues (rlp (Str cat) ++ rlp two) = Ok 2 ↔
   ∃ vs, rlp (Str cat) ++ rlp two = concat (map (uncurry encoded) vs) ∧ Forall (uncurry fits_kind) vs ∧ 2 = zlen vs)
  ∧ (∀ e, CountValues (rlp (Str cat) ++ rlp two) ≠ Panic e).
Proof. apply count_values_exact. reflexivity. Defined.

Lemma iterator_yields_elements_witness :
  (∃ it it' : listIterator, NewListIterator (rlp two) = Ok it ∧ values_seen 3 it = Ok ([rlp (Str cat); rlp (Str dog)], it') ∧ it_data it' = [] ∧ it_err it' = None)
  ∧ ∀ it : listIterator, it_data it = [Byte.x83] → Next it = Ok (true, mkIterator [Byte.x83] [] (Some ErrValueTooLarge)).
Proof. apply (iterator_yields_elements [Str cat; Str dog]); [reflexivity|discriminate|reflexivity]. Defined.

End RlpDemo.
