(* ===== verification/RlpEncode.v ===== *)
(** * RlpEncode: the RLP encoder

    The encoder of framework/crypto/rlp collects the content of a value in one
    byte string, without the tags of lists, and keeps the tags aside, because the
    size of a list is known only when its elements have been written
    ([encBuffer] of encbuffer.go).  The output is put together at the end: into a
    byte slice ([makeBytes]), to a writer ([writeTo]) or piece by piece
    ([encReader]).

    The writers of encode.go are built from the Go type of a value.  [gotype] has
    the types that the package can write, [val] their values: a nil slice, pointer
    or interface is [None], the value of an interface carries its type.  A struct
    has the fields that [ProcessFields] of internal/rlpstruct keeps, each with its
    tags.  Types with methods of their own ([EncodeRLP]), [big.Int] values that are
    not behind a pointer and recursive types are left out. *)
From S2P Require Import Prelude Bytes Rlp.

(** ** The buffer (encbuffer.go) *)

Record listhead := mkHead { offset : Z; size : Z }.
Record encBuffer := mkBuf { str : bytes; lheads : list listhead; lhsize : Z }.

Definition reset (buf : encBuffer) : encBuffer := mkBuf [] [] 0.
Definition append (b : bytes) (buf : encBuffer) : encBuffer := mkBuf (str buf ++ b) (lheads buf) (lhsize buf).
Definition buf_size (buf : encBuffer) : Z := zlen (str buf) + lhsize buf.

Definition head_encode (head : listhead) : bytes := puthead 0xC0 0xF7 (size head).

(** The loop of [copyTo]: the destination, the place in [str] and the place in the
    destination. *)
Fixpoint copy_heads (s : bytes) (heads : list listhead) (dst : bytes) (strpos : Z) (pos : nat) : res (bytes * Z * nat) :=
  match heads with
  | [] => Ok (dst, strpos, pos)
  | head :: heads =>
      piece ← slice s strpos (offset head);
      let '(dst, n) := copy_at dst pos piece in
      '(dst, k) ← put_head dst (pos + n) 0xC0 0xF7 (size head);
      copy_heads s heads dst (strpos + Z.of_nat n) (pos + n + k)
  end.

Definition copyTo (w : encBuffer) (dst : bytes) : res bytes :=
  '(dst, strpos, pos) ← copy_heads (str w) (lheads w) dst 0 0;
  piece ← slice (str w) strpos (zlen (str w));
  Ok (copy_at dst pos piece).1.

Definition makeBytes (w : encBuffer) : res bytes := copyTo w (replicate (Z.to_nat (buf_size w)) Byte.x00).

(** [AppendToBytes] of an [EncoderBuffer]; the methods of the type pass on to those
    of the buffer. *)
Definition AppendToBytes (w : encBuffer) (dst : bytes) : res bytes :=
  out ← copyTo w (replicate (Z.to_nat (buf_size w)) Byte.x00); Ok (dst ++ out).

Section Writer.

(** An [io.Writer]: the number of bytes written and the error. *)
Context {W : Type} (Write : bytes → W → Z * option string * W).

Fixpoint write_heads (s : bytes) (heads : list listhead) (strpos : Z) (w : W) : res Z * W :=
  match heads with
  | [] => (Ok strpos, w)
  | head :: heads =>
      let put_tag strpos w :=
        match Write (head_encode head) w with
        | (_, Some e, w) => (Err e, w)
        | (_, None, w) => write_heads s heads strpos w
        end in
      if bool_decide (offset head - strpos > 0) then
        match slice s strpos (offset head) with
        | Ok piece => match Write piece w with
                      | (_, Some e, w) => (Err e, w)
                      | (n, None, w) => put_tag (strpos + n) w
                      end
        | Err m => (Err m, w)
        | Panic m => (Panic m, w)
        end
      else put_tag strpos w
  end.

Definition writeTo (buf : encBuffer) (w : W) : res unit * W :=
  match write_heads (str buf) (lheads buf) 0 w with
  | (Ok strpos, w) =>
      if bool_decide (strpos < zlen (str buf)) then
        match slice (str buf) strpos (zlen (str buf)) with
        | Ok piece => match Write piece w with
                      | (_, Some e, w) => (Err e, w)
                      | (_, None, w) => (Ok (), w)
                      end
        | Err m => (Err m, w)
        | Panic m => (Panic m, w)
        end
      else (Ok (), w)
  | (Err e, w) => (Err e, w)
  | (Panic m, w) => (Panic m, w)
  end.

End Writer.

(** ** Writing values *)

Definition writeBool (b : bool) : encBuffer → encBuffer := append [if b then Byte.x01 else Byte.x80].

Definition writeUint64 (i : Z) : encBuffer → encBuffer :=
  append (if bool_decide (i = 0) then [Byte.x80]
          else if bool_decide (i < 128) then [byte_of_Z i]
          else let s := putint i in byte_of_Z (u8 (0x80 + zlen s)) :: s).

Definition encodeStringHeader (size : Z) : encBuffer → encBuffer :=
  append (if bool_decide (size < 56) then [byte_of_Z (u8 (0x80 + size))]
          else let s := putint size in byte_of_Z (u8 (0xB7 + zlen s)) :: s).

Definition writeBytes (b : bytes) (buf : encBuffer) : encBuffer :=
  if bool_decide (zlen b = 1) && bool_decide (byte_at b 0 ≤ 0x7F) then append (take 1 b) buf
  else append b (encodeStringHeader (zlen b) buf).

(** [BitLen] and [Bits] of a [big.Int], the latter in words of 64 bits, lowest
    first. *)
Definition BitLen (a : Z) : Z := if bool_decide (a = 0) then 0 else Z.log2 a + 1.
Fixpoint Bits (fuel : nat) (a : Z) : list Z :=
  match fuel with
  | O => []
  | S fuel => if bool_decide (a = 0) then [] else u64 a :: Bits fuel (a ≫ 64)
  end.

(** The loops of [writeBigInt] fill a buffer from its end: [acc] is its filled part,
    [index] the number of bytes before it. *)
Fixpoint put_word (j : nat) (d : Z) (index : nat) (acc : bytes) : nat * bytes :=
  match j, index with
  | S j, S index => put_word j (d ≫ 8) index (byte_of_Z d :: acc)
  | _, _ => (index, acc)
  end.
Fixpoint put_words (words : list Z) (index : nat) (acc : bytes) : nat * bytes :=
  match words with
  | [] => (index, acc)
  | d :: words => let '(index, acc) := put_word 8 d index acc in put_words words index acc
  end.

(** The sign is ignored. *)
Definition writeBigInt (i : Z) (w : encBuffer) : encBuffer :=
  let i := Z.abs i in
  let bitlen := BitLen i in
  if bool_decide (bitlen ≤ 64) then writeUint64 i w
  else
    let length := Z.land (bitlen + 7) (-8) ≫ 3 in
    let w := encodeStringHeader length w in
    let '(index, buf) := put_words (Bits (Z.to_nat bitlen) i) (Z.to_nat length) [] in
    append (replicate index Byte.x00 ++ buf) w.

Definition list_begin (buf : encBuffer) : nat * encBuffer :=
  (length (lheads buf), mkBuf (str buf) (lheads buf ++ [mkHead (zlen (str buf)) (lhsize buf)]) (lhsize buf)).

Definition listEnd (index : nat) (buf : encBuffer) : res encBuffer :=
  match lheads buf !! index with
  | None => Panic "index out of range"
  | Some lh =>
      let lh := mkHead (offset lh) (buf_size buf - offset lh - size lh) in
      Ok (mkBuf (str buf) (<[index := lh]> (lheads buf))
            (lhsize buf + (if bool_decide (size lh < 56) then 1 else 1 + intsize (size lh))))
  end.

(** ** The reader of an encoded value *)

Record encReader := mkReader {
  r_buf : option encBuffer;
  lhpos : nat;
  r_strpos : Z;
  piece : option bytes
}.

Definition next (r : encReader) : res (option bytes * encReader) :=
  match r_buf r with
  | None => Ok (None, r)
  | Some buf =>
      match piece r with
      | Some p => Ok (Some p, r)
      | None =>
          match lheads buf !! lhpos r with
          | Some head =>
              let sizebefore := offset head - r_strpos r in
              if bool_decide (sizebefore > 0) then
                p ← slice (str buf) (r_strpos r) (offset head);
                Ok (Some p, mkReader (r_buf r) (lhpos r) (r_strpos r + sizebefore) (piece r))
              else Ok (Some (head_encode head), mkReader (r_buf r) (S (lhpos r)) (r_strpos r) (piece r))
          | None =>
              if bool_decide (r_strpos r < zlen (str buf)) then
                p ← slice (str buf) (r_strpos r) (zlen (str buf));
                Ok (Some p, mkReader (r_buf r) (lhpos r) (zlen (str buf)) (piece r))
              else Ok (None, r)
          end
      end
  end.

(** [Read] into [room] bytes: what it has copied and whether it is at the end.  An
    iteration of its loop takes one piece; there are at most two for each list and
    one more. *)
Fixpoint read_loop (fuel : nat) (room : nat) (acc : bytes) (r : encReader) : res (bytes * bool * encReader) :=
  match fuel with
  | O => Panic "out of fuel"
  | S fuel =>
      '(p, r) ← next r;
      match p with
      | None => Ok (acc, true, mkReader None (lhpos r) (r_strpos r) None)
      | Some p =>
          let nn := Nat.min room (length p) in
          if bool_decide (nn < length p)%nat
          then Ok (acc ++ take nn p, false, mkReader (r_buf r) (lhpos r) (r_strpos r) (Some (drop nn p)))
          else read_loop fuel (room - nn) (acc ++ p) (mkReader (r_buf r) (lhpos r) (r_strpos r) None)
      end
  end.
Definition pieces_left (r : encReader) : nat :=
  match r_buf r with Some buf => 2 * length (lheads buf) + 3 | None => 1 end%nat.
Definition Read (room : nat) (r : encReader) : res (bytes * bool * encReader) := read_loop (pieces_left r) room [] r.

(** ** Struct tags (internal/rlpstruct)

    The options of a field are the parts of its [rlp] tag, cut at commas and
    trimmed. *)

Record Tags := mkTags { NilKind : Kind; NilOK : bool; Optional : bool; Tail : bool; Ignored : bool }.
Definition noTags : Tags := mkTags KByte false false false false.

Inductive gotype :=
  | TRawValue
  | TBigIntPtr
  | TPtr (t : gotype)
  | TUint (bits : Z)
  | TBool
  | TString
  | TSlice (t : gotype)
  | TArray (n : nat) (t : gotype)
  | TStruct (fields : list (Tags * gotype))
  | TInterface
  | TOther.

Definition isByte (t : gotype) : bool := match t with TUint bits => bool_decide (bits = 8) | _ => false end.
Definition isByteArray (t : gotype) : bool := match t with TSlice t | TArray _ t => isByte t | TRawValue => true | _ => false end.

Definition DefaultNilValue (t : gotype) : Kind :=
  match t with
  | TUint _ | TString | TBool => KString
  | _ => if isByteArray t then KString else KList
  end.

Definition typeNilKind (t : gotype) (tags : Tags) : Kind := if NilOK tags then NilKind tags else DefaultNilValue t.

Record Field := mkField { f_Name : string; f_Index : nat; f_Exported : bool; f_Type : gotype; f_Tag : list string }.

Definition is_ptr (t : gotype) : bool := match t with TPtr _ | TBigIntPtr => true | _ => false end.
Definition is_slice (t : gotype) : bool := match t with TSlice _ | TRawValue => true | _ => false end.
(** The type behind a pointer; [big.Int] is a struct. *)
Definition ptr_elem (t : gotype) : gotype := match t with TPtr t => t | TBigIntPtr => TStruct [] | _ => t end.

Definition tag_option (field : Field) (lastPublic : nat) (ts : Tags) (t : string) : res Tags :=
  if bool_decide (t = "") then Ok ts
  else if bool_decide (t = "-") then Ok (mkTags (NilKind ts) (NilOK ts) (Optional ts) (Tail ts) true)
  else if bool_decide (t = "nil") || bool_decide (t = "nilString") || bool_decide (t = "nilList") then
    if negb (is_ptr (f_Type field)) then Err "field is not a pointer"
    else Ok (mkTags (if bool_decide (t = "nil") then DefaultNilValue (ptr_elem (f_Type field))
                     else if bool_decide (t = "nilString") then KString else KList)
               true (Optional ts) (Tail ts) (Ignored ts))
  else if bool_decide (t = "optional") then
    if Tail ts then Err "also has tail tag" else Ok (mkTags (NilKind ts) (NilOK ts) true (Tail ts) (Ignored ts))
  else if bool_decide (t = "tail") then
    if bool_decide (f_Index field ≠ lastPublic) then Err "must be on last field"
    else if Optional ts then Err "also has optional tag"
    else if negb (is_slice (f_Type field)) then Err "field type is not slice"
    else Ok (mkTags (NilKind ts) (NilOK ts) (Optional ts) true (Ignored ts))
  else Err "unknown tag".

Fixpoint tag_options (field : Field) (lastPublic : nat) (ts : Tags) (l : list string) : res Tags :=
  match l with
  | [] => Ok ts
  | t :: l => ts ← tag_option field lastPublic ts t; tag_options field lastPublic ts l
  end.
Definition parseTag (field : Field) (lastPublic : nat) : res Tags := tag_options field lastPublic noTags (f_Tag field).

Definition lastPublicField (fields : list Field) : nat :=
  foldl (fun last f => if f_Exported f then f_Index f else last) 0%nat fields.

Fixpoint gather (lastPublic : nat) (fields : list Field) : res (list (Tags * gotype)) :=
  match fields with
  | [] => Ok []
  | field :: fields =>
      if negb (f_Exported field) then gather lastPublic fields
      else
        ts ← parseTag field lastPublic;
        l ← gather lastPublic fields;
        Ok (if Ignored ts then l else (ts, f_Type field) :: l)
  end.

Fixpoint optional_consistent (anyOptional : bool) (fields : list (Tags * gotype)) : bool :=
  match fields with
  | [] => true
  | (ts, _) :: fields =>
      if Optional ts || Tail ts then optional_consistent true fields
      else if anyOptional then false else optional_consistent anyOptional fields
  end.

Definition ProcessFields (allFields : list Field) : res (list (Tags * gotype)) :=
  fields ← gather (lastPublicField allFields) allFields;
  if optional_consistent false fields then Ok fields else Err "must be optional because preceding field is optional".

(** ** Values and their writers (encode.go) *)

Inductive val :=
  | VRaw (o : option bytes)
  | VBig (o : option Z)
  | VPtr (o : option val)
  | VUint (z : Z)
  | VBool (b : bool)
  | VStr (b : bytes)
  | VBytes (o : option bytes)
  | VByteArray (b : bytes)
  | VSlice (o : option (list val))
  | VArray (l : list val)
  | VStruct (l : list val)
  | VInterface (o : option (gotype * val)).

(** [reflect.Value.IsZero]. *)
Fixpoint IsZero (v : val) : bool :=
  match v with
  | VRaw o | VBytes o => bool_decide (o = None)
  | VBig o => bool_decide (o = None)
  | VPtr o => match o with None => true | Some _ => false end
  | VUint z => bool_decide (z = 0)
  | VBool b => negb b
  | VStr b => bool_decide (b = [])
  | VByteArray b => forallb (fun x => bool_decide (x = Byte.x00)) b
  | VSlice o => match o with None => true | Some _ => false end
  | VArray l | VStruct l => forallb IsZero l
  | VInterface o => match o with None => true | Some _ => false end
  end.

Definition ErrNegativeBigInt := "rlp: cannot encode negative big.Int".
Definition errNotSerializable := "rlp: type is not RLP-serializable".

(** The error of [makeWriter], which a type gives before any value is written. *)
Fixpoint writerErr (t : gotype) : res unit :=
  match t with
  | TPtr t => writerErr t
  | TSlice t | TArray _ t => if isByte t then Ok () else writerErr t
  | TStruct fields => foldr (fun '(_, t) r => _ ← writerErr t; r) (Ok ()) fields
  | TOther => Err errNotSerializable
  | _ => Ok ()
  end.

Definition nil_byte (k : Kind) : byte := if bool_decide (k = KString) then Byte.x80 else Byte.xc0.

Definition writeBigIntPtr (o : option Z) (w : encBuffer) : res encBuffer :=
  match o with
  | None => Ok (append [Byte.x80] w)
  | Some i => if bool_decide (i < 0) then Err ErrNegativeBigInt else Ok (writeBigInt i w)
  end.

(** [makeByteArrayWriter] and [writeString]. *)
Definition writeByteArray (n : nat) (b : bytes) (w : encBuffer) : encBuffer :=
  match n with
  | O => append [Byte.x80] w
  | 1%nat => if bool_decide (byte_at b 0 ≤ 0x7f) then append (take 1 b) w else append (byte_of_Z 0x81 :: take 1 b) w
  | _ => append b (encodeStringHeader (zlen b) w)
  end.
Definition writeString (s : bytes) (w : encBuffer) : encBuffer :=
  if bool_decide (zlen s = 1) && bool_decide (byte_at s 0 ≤ 0x7f) then append (take 1 s) w
  else append s (encodeStringHeader (zlen s) w).

Fixpoint write_all (l : list (encBuffer → res encBuffer)) (w : encBuffer) : res encBuffer :=
  match l with
  | [] => Ok w
  | f :: l => w ← f w; write_all l w
  end.

(** A list around what the writers write. *)
Definition write_list (l : list (encBuffer → res encBuffer)) (w : encBuffer) : res encBuffer :=
  let '(lh, w) := list_begin w in w ← write_all l w; listEnd lh w.

(** [makeSliceWriter] *)
Definition writeSlice (ts : Tags) (l : list (encBuffer → res encBuffer)) (w : encBuffer) : res encBuffer :=
  if Tail ts then write_all l w
  else match l with [] => Ok (append [Byte.xc0] w) | _ => write_list l w end.

Fixpoint firstOptionalField (fields : list (Tags * gotype)) : nat :=
  match fields with
  | [] => O
  | (ts, _) :: fields => if Optional ts then O else S (firstOptionalField fields)
  end.

(** The number of fields to write: the loop over [lastField] of the writer of a
    struct with optional fields, where [k] is [lastField + 1]. *)
Fixpoint fields_to_write (first k : nat) (vs : list val) : nat :=
  match k with
  | O => O
  | S lastField =>
      if bool_decide (first ≤ lastField)%nat && IsZero (nth lastField vs (VBool false))
      then fields_to_write first lastField vs else k
  end.

Definition mismatch {A} : res A := Panic "reflect: call of method on value of another kind".

(** The writer that [makeWriter] gives for a type, applied to a value. *)
Fixpoint write (v : val) (t : gotype) (ts : Tags) (w : encBuffer) : res encBuffer :=
  match t, v with
  | TRawValue, VRaw o => Ok (append (default [] o) w)
  | TBigIntPtr, VBig o => writeBigIntPtr o w
  | TPtr t, VPtr o =>
      match o with
      | Some v => write v t noTags w
      | None => Ok (append [nil_byte (typeNilKind t ts)] w)
      end
  | TUint _, VUint z => Ok (writeUint64 z w)
  | TBool, VBool b => Ok (writeBool b w)
  | TString, VStr s => Ok (writeString s w)
  | TSlice t, VBytes o => if isByte t then Ok (writeBytes (default [] o) w) else mismatch
  | TArray n t, VByteArray b => if isByte t then Ok (writeByteArray n b w) else mismatch
  | TSlice t, VSlice o =>
      if isByte t then mismatch
      else writeSlice ts (match o with Some l => map (fun v => write v t noTags) l | None => [] end) w
  | TArray _ t, VArray l => if isByte t then mismatch else writeSlice ts (map (fun v => write v t noTags) l) w
  | TStruct fields, VStruct l =>
      let writers := zip_with (fun f '(ts, t) => f t ts) (map write l) fields in
      let n := length fields in
      let first := firstOptionalField fields in
      write_list (take (if bool_decide (first = n) then n else fields_to_write first n l) writers) w
  | TInterface, VInterface o =>
      match o with
      | None => Ok (append [Byte.xc0] w)
      | Some (t, v) => _ ← writerErr t; write v t noTags w
      end
  | _, _ => mismatch
  end.

Definition encode (t : gotype) (v : val) (w : encBuffer) : res encBuffer := _ ← writerErr t; write v t noTags w.

Definition EncodeToBytes (t : gotype) (v : val) : res bytes := buf ← encode t v (mkBuf [] [] 0); makeBytes buf.

Definition EncodeToReader (t : gotype) (v : val) : res (Z * encReader) :=
  buf ← encode t v (mkBuf [] [] 0); Ok (buf_size buf, mkReader (Some buf) 0 0 None).

(** [Encode] to a writer that is no buffer of the package. *)
Definition Encode {W} (Write : bytes → W → Z * option string * W) (w : W) (t : gotype) (v : val) : res unit * W :=
  match encode t v (mkBuf [] [] 0) with
  | Ok buf => writeTo Write buf w
  | Err e => (Err e, w)
  | Panic m => (Panic m, w)
  end.

(** ** What the encoding is

    The rules of the package's documentation, on top of [rlp_string] and
    [rlp_list]: [enc] does without buffer, list tags kept aside or special cases
    for short strings. *)

Fixpoint concat_res (l : list (res bytes)) : res bytes :=
  match l with
  | [] => Ok []
  | r :: l => b ← r; c ← concat_res l; Ok (b ++ c)
  end.

Fixpoint enc (v : val) (t : gotype) (ts : Tags) : res bytes :=
  match t, v with
  | TRawValue, VRaw o => Ok (default [] o)
  | TBigIntPtr, VBig o =>
      match o with
      | None => Ok (rlp_string [])
      | Some i => if bool_decide (i < 0) then Err ErrNegativeBigInt else Ok (rlp_string (be_bytes i))
      end
  | TPtr t, VPtr o =>
      match o with
      | Some v => enc v t noTags
      | None => Ok (if bool_decide (typeNilKind t ts = KString) then rlp_string [] else rlp_list [])
      end
  | TUint _, VUint z => Ok (rlp_string (be_bytes z))
  | TBool, VBool b => Ok (rlp_string (be_bytes (if b then 1 else 0)))
  | TString, VStr s => Ok (rlp_string s)
  | TSlice t, VBytes o => if isByte t then Ok (rlp_string (default [] o)) else mismatch
  | TArray _ t, VByteArray b => if isByte t then Ok (rlp_string b) else mismatch
  | TSlice t, VSlice o =>
      if isByte t then mismatch
      else
        c ← concat_res (match o with Some l => map (fun v => enc v t noTags) l | None => [] end);
        Ok (if Tail ts then c else rlp_list c)
  | TArray _ t, VArray l =>
      if isByte t then mismatch
      else c ← concat_res (map (fun v => enc v t noTags) l); Ok (if Tail ts then c else rlp_list c)
  | TStruct fields, VStruct l =>
      let fs := zip_with (fun f '(ts, t) => f t ts) (map enc l) fields in
      let n := length fields in
      let first := firstOptionalField fields in
      c ← concat_res (take (if bool_decide (first = n) then n else fields_to_write first n l) fs);
      Ok (rlp_list c)
  | TInterface, VInterface o =>
      match o with
      | None => Ok (rlp_list [])
      | Some (t, v) => _ ← writerErr t; enc v t noTags
      end
  | _, _ => mismatch
  end.

(** A value of a type. *)
Definition uint_bits (bits : Z) : bool :=
  bool_decide (bits = 8) || bool_decide (bits = 16) || bool_decide (bits = 32) || bool_decide (bits = 64).

Fixpoint has_type (v : val) (t : gotype) : bool :=
  match t, v with
  | TRawValue, VRaw _ | TBigIntPtr, VBig _ | TBool, VBool _ | TString, VStr _ => true
  | TPtr t, VPtr o => match o with Some v => has_type v t | None => true end
  | TUint bits, VUint z => uint_bits bits && bool_decide (0 ≤ z < 2 ^ bits)
  | TSlice t, VBytes _ => isByte t
  | TArray n t, VByteArray b => isByte t && bool_decide (length b = n)
  | TSlice t, VSlice o => negb (isByte t) && match o with Some l => forallb (fun v => has_type v t) l | None => true end
  | TArray n t, VArray l => negb (isByte t) && bool_decide (length l = n) && forallb (fun v => has_type v t) l
  | TStruct fields, VStruct l =>
      bool_decide (length l = length fields) && forallb id (zip_with (fun h '(_, t) => h t) (map has_type l) fields)
  | TInterface, VInterface o => match o with Some (t, v) => has_type v t | None => true end
  | _, _ => false
  end.

(** ** Lemmas *)

(** The buffer as a sequence of contents and tags: [Open] is the tag of a list that
    has not ended, with what [list_begin] stored in it. *)
Inductive tok := Data (b : bytes) | Head (n : Z) | Open (n : Z).

Fixpoint str_of (ts : list tok) : bytes :=
  match ts with [] => [] | Data b :: ts => b ++ str_of ts | _ :: ts => str_of ts end.
Fixpoint heads_of (off : Z) (ts : list tok) : list listhead :=
  match ts with
  | [] => []
  | Data b :: ts => heads_of (off + zlen b) ts
  | (Head n | Open n) :: ts => mkHead off n :: heads_of off ts
  end.
Fixpoint lhsize_of (ts : list tok) : Z :=
  match ts with [] => 0 | Head n :: ts => zlen (puthead 0xC0 0xF7 n) + lhsize_of ts | _ :: ts => lhsize_of ts end.
Fixpoint bytes_of (ts : list tok) : bytes :=
  match ts with [] => [] | Data b :: ts => b ++ bytes_of ts | Head n :: ts => puthead 0xC0 0xF7 n ++ bytes_of ts | Open _ :: ts => bytes_of ts end.
Definition is_open (t : tok) : bool := match t with Open _ => true | _ => false end.
Definition closed (ts : list tok) : Prop := Forall (fun t => is_open t = false) ts.

Definition buf_of (ts : list tok) : encBuffer := mkBuf (str_of ts) (heads_of 0 ts) (lhsize_of ts).

Lemma str_of_app a b : str_of (a ++ b) = str_of a ++ str_of b.
Proof. induction a as [|[] a IH]; cbn [app str_of]; rewrite ?IH, ?app_assoc; done. Qed.
Lemma lhsize_of_app a b : lhsize_of (a ++ b) = lhsize_of a + lhsize_of b.
Proof. induction a as [|[] a IH]; cbn [app lhsize_of]; lia. Qed.
Lemma bytes_of_app a b : bytes_of (a ++ b) = bytes_of a ++ bytes_of b.
Proof. induction a as [|[] a IH]; cbn [app bytes_of]; rewrite ?IH, ?app_assoc; done. Qed.
Lemma heads_of_app a b off : heads_of off (a ++ b) = heads_of off a ++ heads_of (off + zlen (str_of a)) b.
Proof.
  revert off. induction a as [|[] a IH]; intros off; cbn [app heads_of str_of].
  - by rewrite zlen_nil, Z.add_0_r.
  - rewrite IH, zlen_app. do 2 f_equal. lia.
  - by rewrite IH.
  - by rewrite IH.
Qed.
Lemma zlen_bytes_of ts : closed ts → zlen (bytes_of ts) = zlen (str_of ts) + lhsize_of ts.
Proof. induction 1 as [|[] ts Ht _ IH]; cbn [bytes_of str_of lhsize_of]; rewrite ?zlen_app, ?zlen_nil; try done; lia. Qed.

Lemma append_buf_of ts b : append b (buf_of ts) = buf_of (ts ++ [Data b]).
Proof.
  unfold append, buf_of. cbn [str lheads lhsize]. rewrite str_of_app, heads_of_app, lhsize_of_app. cbn [str_of heads_of lhsize_of].
  by rewrite !app_nil_r, Z.add_0_r.
Qed.

Lemma list_begin_buf_of ts :
  list_begin (buf_of ts) = (length (heads_of 0 ts), buf_of (ts ++ [Open (lhsize_of ts)])).
Proof.
  unfold list_begin, buf_of. cbn [str lheads lhsize]. rewrite str_of_app, heads_of_app, lhsize_of_app. cbn [str_of heads_of lhsize_of].
  by rewrite app_nil_r, !Z.add_0_r, Z.add_0_l.
Qed.

Lemma zlen_puthead n : 0 ≤ n < 2 ^ 64 → zlen (puthead 0xC0 0xF7 n) = if bool_decide (n < 56) then 1 else 1 + intsize n.
Proof. intros. rewrite puthead_ok by lia. rewrite <- (headsize_ok 0xC0 0xF7) by done. done. Qed.

Lemma listEnd_buf_of ts cs :
  closed cs → zlen (bytes_of cs) < 2 ^ 64 →
  listEnd (length (heads_of 0 ts)) (buf_of (ts ++ Open (lhsize_of ts) :: cs)) = Ok (buf_of (ts ++ Head (zlen (bytes_of cs)) :: cs)).
Proof.
  intros Hc Hz. unfold listEnd, buf_of, buf_size. cbn [str lheads lhsize].
  rewrite !heads_of_app, !str_of_app, !lhsize_of_app, !zlen_app. cbn [str_of heads_of lhsize_of].
  rewrite lookup_app_r, Nat.sub_diag by done. cbn [lookup list_lookup offset size]. do 2 f_equal.
  - rewrite insert_app_r_alt, Nat.sub_diag by done. cbn [insert list_insert]. do 3 f_equal. rewrite zlen_bytes_of by done. lia.
  - rewrite Z.add_0_l. replace (zlen (str_of ts) + zlen (str_of cs) + (lhsize_of ts + lhsize_of cs) - zlen (str_of ts) - lhsize_of ts)
      with (zlen (bytes_of cs)) by (rewrite zlen_bytes_of by done; lia).
    pose proof (zlen_nonneg (bytes_of cs)). rewrite zlen_puthead by lia. lia.
Qed.

(** [f] writes [b] at the end of any buffer. *)
Definition writes (f : encBuffer → res encBuffer) (b : bytes) : Prop :=
  ∀ ts, ∃ cs, closed cs ∧ bytes_of cs = b ∧ f (buf_of ts) = Ok (buf_of (ts ++ cs)).

Lemma writes_append b : writes (fun w => Ok (append b w)) b.
Proof.
  intros ts. exists [Data b]. split_and!; [by repeat constructor|cbn; by rewrite app_nil_r|by rewrite append_buf_of].
Qed.

Lemma writes_append_eq b b' : b = b' → writes (fun w => Ok (append b w)) b'.
Proof. intros <-. apply writes_append. Qed.

Lemma writes_seq f g b c : writes f b → writes g c → writes (fun w => w ← f w; g w) (b ++ c).
Proof.
  intros Hf Hg ts. destruct (Hf ts) as (cs & Hc & Eb & Ef). destruct (Hg (ts ++ cs)) as (ds & Hd & Ec & Eg).
  exists (cs ++ ds). split_and!; [by apply Forall_app|by rewrite bytes_of_app, Eb, Ec|]. rewrite Ef. cbn [mbind res_bind].
  by rewrite Eg, app_assoc.
Qed.

Lemma writes_list l c : writes (write_all l) c → zlen c < 2 ^ 64 → writes (write_list l) (rlp_list c).
Proof.
  intros Hw Hz ts. unfold write_list. rewrite list_begin_buf_of. destruct (Hw (ts ++ [Open (lhsize_of ts)])) as (cs & Hc & <- & E).
  exists (Head (zlen (bytes_of cs)) :: cs). split_and!.
  - by constructor.
  - cbn [bytes_of]. unfold rlp_list. rewrite puthead_ok; [done|lia..|]. pose proof (zlen_nonneg (bytes_of cs)). lia.
  - rewrite E. cbn [mbind res_bind]. rewrite <- app_assoc. cbn [app]. by apply listEnd_buf_of.
Qed.

Lemma string_header size : 0 ≤ size < 2 ^ 64 →
  (if bool_decide (size < 56) then [byte_of_Z (u8 (0x80 + size))]
   else let s := putint size in byte_of_Z (u8 (0xB7 + zlen s)) :: s) = tag 0x80 0xB7 size.
Proof. intros. rewrite <- (puthead_ok 0x80 0xB7 size) by lia. done. Qed.

Lemma writes_string_header b :
  zlen b < 2 ^ 64 → small_byte b = false → writes (fun w => Ok (append b (encodeStringHeader (zlen b) w))) (rlp_string b).
Proof.
  intros Hz Hs. pose proof (zlen_nonneg b). unfold rlp_string. rewrite Hs.
  apply (writes_seq (fun w => Ok (encodeStringHeader (zlen b) w)) (fun w => Ok (append b w))); [|apply writes_append].
  unfold encodeStringHeader. rewrite string_header by lia. apply writes_append.
Qed.

Lemma small_byte_check b : bool_decide (zlen b = 1) && bool_decide (byte_at b 0 ≤ 0x7F) = small_byte b.
Proof.
  destruct b as [|x [|y b]]; [done| |].
  - cbn [small_byte]. rewrite bool_decide_eq_true_2 by done. unfold byte_at. cbn [nth andb]. apply bool_decide_ext. lia.
  - rewrite bool_decide_eq_false_2; [done|]. rewrite !zlen_cons. pose proof (zlen_nonneg b). lia.
Qed.

Lemma take_1_small b : small_byte b = true → take 1 b = b.
Proof. by destruct b as [|x [|]]. Qed.

Lemma writes_writeBytes b : zlen b < 2 ^ 64 → writes (fun w => Ok (writeBytes b w)) (rlp_string b).
Proof.
  intros Hz. unfold writeBytes. rewrite small_byte_check. destruct (small_byte b) eqn:Hs; [|by apply writes_string_header].
  apply writes_append_eq. rewrite take_1_small by done. unfold rlp_string. by rewrite Hs.
Qed.

Lemma writes_writeString b : zlen b < 2 ^ 64 → writes (fun w => Ok (writeString b w)) (rlp_string b).
Proof. apply writes_writeBytes. Qed.

Lemma writes_writeByteArray n b :
  length b = n → zlen b < 2 ^ 64 → writes (fun w => Ok (writeByteArray n b w)) (rlp_string b).
Proof.
  intros <- Hz. destruct b as [|x [|y b]]; cbn [length writeByteArray].
  - by apply writes_append.
  - unfold byte_at. cbn [nth]. unfold rlp_string. cbn [small_byte take].
    case_bool_decide as Hx; [rewrite bool_decide_eq_true_2 by lia; apply writes_append|].
    rewrite bool_decide_eq_false_2 by lia. apply writes_append.
  - by apply writes_string_header.
Qed.

Lemma writeUint64_bytes i : in_u 64 i → writeUint64 i = append (rlp_string (be_bytes i)).
Proof.
  intros Hi. unfold writeUint64. f_equal. pose proof (AppendUint64_ok [] i Hi) as E. cbn [app] in E. rewrite <- E. unfold in_u in Hi.
  destruct (decide (i < 128)).
  - unfold AppendUint64. cbv zeta. case_bool_decide; [done|]. by rewrite bool_decide_eq_true_2.
  - rewrite AppendUint64_putint, !bool_decide_eq_false_2 by lia. cbv zeta. rewrite putint_ok, zlen_be_bytes by lia. cbn [app].
    pose proof (be_len_le i 8). simpl in *. by rewrite wrapu_id by (unfold in_u; lia).
Qed.

(** *** Big integers *)

Lemma be_len_div a : 0 ≤ a → be_len (a / 256) = pred (be_len a).
Proof.
  intros Ha. destruct (decide (a < 256)) as [Hs|Hs].
  - rewrite Z.div_small by lia. rewrite (be_len_zero 0) by done.
    destruct (decide (a = 0)) as [->|Hne]; [done|]. by rewrite (be_len_unique a 0) by (simpl; lia).
  - destruct (be_len_pos a) as (n & -> & Hn); [lia|]. destruct n as [|n]; [simpl in Hn; lia|]. cbn [pred].
    rewrite !(Nat2Z.inj_succ), !Z.pow_succ_r in Hn by lia.
    apply be_len_unique. rewrite Nat2Z.inj_succ, Z.pow_succ_r by lia.
    split; [apply Z.div_le_lower_bound; lia|apply Z.div_lt_upper_bound; lia].
Qed.

Lemma be_len_shift8 a m : 0 ≤ a → be_len (a / 256 ^ Z.of_nat m) = (be_len a - m)%nat.
Proof.
  intros Ha. induction m as [|m IH]; [rewrite Z.div_1_r; lia|].
  rewrite Nat2Z.inj_succ, Z.pow_succ_r, Z.mul_comm, <- Z.div_div by lia.
  rewrite be_len_div by (apply Z.div_pos; lia). rewrite IH. lia.
Qed.

Lemma byte_of_Z_mod z : byte_of_Z (z mod 256) = byte_of_Z z.
Proof. unfold byte_of_Z. by rewrite Z.mod_mod by lia. Qed.

Lemma put_word_ok i j : ∀ d index k,
  (∀ r, (r < j)%nat → byte_of_Z (d / 256 ^ Z.of_nat r) = byte_of_Z (i / 256 ^ Z.of_nat (k + r))) →
  put_word j d index (be_encode k i) = ((index - Nat.min j index)%nat, be_encode (k + Nat.min j index) i).
Proof.
  induction j as [|j IH]; intros d index k Hd; [cbn [put_word Nat.min]; by rewrite Nat.sub_0_r, Nat.add_0_r|].
  destruct index as [|index]; cbn [put_word Nat.min]; [by rewrite Nat.add_0_r|].
  pose proof (Hd O) as H0. rewrite Nat.add_0_r, Z.pow_0_r, Z.div_1_r in H0.
  rewrite H0 by lia. change (byte_of_Z (i / 256 ^ Z.of_nat k) :: be_encode k i) with (be_encode (S k) i).
  rewrite IH; [f_equal; f_equal; lia|]. intros r Hr. rewrite Z.shiftr_div_pow2 by lia. change (2 ^ 8) with 256.
  specialize (Hd (S r)). rewrite Nat2Z.inj_succ, Z.pow_succ_r, <- Z.div_div in Hd by lia. rewrite Hd by lia. do 3 f_equal. lia.
Qed.

Lemma byte_of_word b r : (r < 8)%nat → byte_of_Z (u64 b / 256 ^ Z.of_nat r) = byte_of_Z (b / 256 ^ Z.of_nat r).
Proof.
  intros Hr. rewrite <- (byte_of_Z_mod (_ / _)), <- (byte_of_Z_mod (b / _)). f_equal. unfold wrapu.
  change 256 with (2 ^ 8). rewrite <- Z.pow_mul_r by lia. apply Z.bits_inj'. intros n Hn.
  rewrite !Z.testbit_mod_pow2, !Z.div_pow2_bits, Z.testbit_mod_pow2 by lia.
  destruct (Z.ltb_spec n 8); [|done]. cbn [andb]. destruct (Z.ltb_spec (n + 8 * Z.of_nat r) 64); [done|lia].
Qed.

Lemma put_words_nothing ws acc : put_words ws 0 acc = (0%nat, acc).
Proof. by induction ws. Qed.

Lemma put_words_ok i fuel : ∀ k, 0 ≤ i →
  let a := i / 256 ^ Z.of_nat k in
  a < 2 ^ Z.of_nat fuel → put_words (Bits fuel a) (be_len a) (be_encode k i) = (0%nat, be_encode (k + be_len a) i).
Proof.
  induction fuel as [|fuel IH]; intros k Hi a Ha; assert (0 ≤ a) as Ha0 by (apply Z.div_pos; lia).
  { assert (a = 0) as -> by (simpl in Ha; lia). cbn [Bits put_words]. rewrite be_len_zero by done. by rewrite Nat.add_0_r. }
  cbn [Bits]. case_bool_decide as H0. { rewrite H0, (be_len_zero 0) by done. cbn [put_words]. by rewrite Nat.add_0_r. }
  cbn [put_words]. rewrite put_word_ok; cycle 1.
  { intros r Hr. rewrite byte_of_word by done. unfold a. rewrite Z.div_div, <- Z.pow_add_r, <- Nat2Z.inj_add by lia. done. }
  destruct (decide (be_len a ≤ 8)%nat).
  { rewrite Nat.min_r by done. rewrite Nat.sub_diag. apply put_words_nothing. }
  rewrite Nat.min_l by lia. rewrite Z.shiftr_div_pow2 by lia. change (2 ^ 64) with (256 ^ Z.of_nat 8).
  pose proof (be_len_shift8 a 8 Ha0) as El. unfold a in *. rewrite Z.div_div, <- Z.pow_add_r, <- Nat2Z.inj_add in * by lia.
  rewrite <- El, IH; [|done|].
  - f_equal. f_equal. rewrite El. lia.
  - rewrite Nat2Z.inj_add, Z.pow_add_r, <- Z.div_div by lia. rewrite Nat2Z.inj_succ, Z.pow_succ_r in Ha by lia.
    change (256 ^ Z.of_nat 8) with (2 ^ 64). apply Z.div_lt_upper_bound; [lia|].
    assert (0 < 2 ^ Z.of_nat fuel) by lia. nia.
Qed.

Lemma writes_writeBigInt i :
  0 ≤ i → zlen (rlp_string (be_bytes i)) < 2 ^ 64 → writes (fun w => Ok (writeBigInt i w)) (rlp_string (be_bytes i)).
Proof.
  intros Hi Hz. unfold writeBigInt. rewrite Z.abs_eq by done. cbv zeta. unfold BitLen.
  destruct (decide (i = 0)) as [->|H0]; [apply writes_append|]. rewrite (bool_decide_eq_false_2 (i = 0)) by done.
  pose proof (Z.log2_spec i) as Hl. case_bool_decide as H64.
  { rewrite writeUint64_bytes; [apply writes_append|]. split; [done|]. destruct Hl as [_ Hl]; [lia|].
    eapply Z.lt_le_trans; [exact Hl|]. apply Z.pow_le_mono_r; lia. }
  assert (Z.land (Z.log2 i + 1 + 7) (-8) ≫ 3 = zlen (be_bytes i)) as ->.
  { rewrite Z.shiftr_land. change (-8 ≫ 3) with (-1). rewrite Z.land_m1_r, Z.shiftr_div_pow2 by lia. change (2 ^ 3) with 8.
    rewrite zlen_be_bytes. unfold be_len. rewrite (bool_decide_eq_false_2 (i ≤ 0)) by lia.
    rewrite Z2Nat.id by (pose proof (Z.div_pos (Z.log2 i) 8); lia).
    replace (Z.log2 i + 1 + 7) with (Z.log2 i + 1 * 8) by lia. by rewrite Z.div_add by lia. }
  pose proof (put_words_ok i (Z.to_nat (Z.log2 i + 1)) 0 Hi) as Hp. cbv zeta in Hp. rewrite Z.div_1_r in Hp.
  assert (Z.to_nat (zlen (be_bytes i)) = be_len i) as -> by (rewrite zlen_be_bytes; lia).
  cbn [be_encode Nat.add] in Hp. rewrite Hp by (rewrite Z2Nat.id by lia; lia). cbn [replicate app].
  assert (small_byte (be_bytes i) = false) as Hs.
  { rewrite small_byte_be_bytes by done. apply bool_decide_eq_false_2. intros [_ Hsmall].
    assert (Z.log2 i < 7) by (apply Z.log2_lt_pow2; lia). lia. }
  apply writes_string_header; [|done]. unfold rlp_string in Hz. rewrite Hs, zlen_app in Hz.
  pose proof (zlen_nonneg (tag 0x80 0xB7 (zlen (be_bytes i)))). lia.
Qed.

(** *** Values *)

Lemma val_nested_ind (P : val → Prop) :
  (∀ o, P (VRaw o)) → (∀ o, P (VBig o)) → P (VPtr None) → (∀ v, P v → P (VPtr (Some v))) →
  (∀ z, P (VUint z)) → (∀ b, P (VBool b)) → (∀ b, P (VStr b)) → (∀ o, P (VBytes o)) → (∀ b, P (VByteArray b)) →
  P (VSlice None) → (∀ l, Forall P l → P (VSlice (Some l))) → (∀ l, Forall P l → P (VArray l)) → (∀ l, Forall P l → P (VStruct l)) →
  P (VInterface None) → (∀ t v, P v → P (VInterface (Some (t, v)))) → ∀ v, P v.
Proof.
  intros H1 H2 H3 H4 H5 H6 H7 H8 H9 H10 H11 H12 H13 H14 H15. fix IH 1.
  assert (∀ l, Forall P l) as Hall by (induction l; constructor; [apply IH|done]).
  intros [o|o|[v|]|z|b|b|o|b|[l|]|l|l|[[t v]|]];
    [apply H1|apply H2|apply H4, IH|apply H3|apply H5|apply H6|apply H7|apply H8|apply H9|apply H11, Hall|apply H10|apply H12, Hall
    |apply H13, Hall|apply H15, IH|apply H14].
Qed.

Lemma writes_all fs rs c :
  Forall2 (fun f r => ∀ b, r = Ok b → zlen b < 2 ^ 63 → writes f b) fs rs → concat_res rs = Ok c → zlen c < 2 ^ 63 →
  writes (write_all fs) c.
Proof.
  intros H. revert c. induction H as [|f r fs rs Hf _ IH]; intros c; cbn [concat_res].
  - intros [= <-] _ ts. exists []. split_and!; [constructor|done|]. by rewrite app_nil_r.
  - intros (b & Eb & (c' & Ec & [= <-])%bind_ok)%bind_ok Hz. rewrite zlen_app in Hz.
    pose proof (zlen_nonneg b). pose proof (zlen_nonneg c'). apply (writes_seq f (write_all fs)); [apply Hf|apply IH]; done || lia.
Qed.

Lemma zlen_rlp_list c : zlen c < zlen (rlp_list c).
Proof.
  unfold rlp_list. rewrite zlen_app. pose proof (zlen_kind_tag KList (zlen c)) as H. cbn [kind_tag] in H. rewrite H by done.
  case_bool_decide; lia.
Qed.
Lemma zlen_rlp_string c : zlen c ≤ zlen (rlp_string c).
Proof.
  unfold rlp_string. destruct (small_byte c); [lia|]. rewrite zlen_app. pose proof (zlen_nonneg (tag 0x80 0xB7 (zlen c))). lia.
Qed.

Lemma writes_slice ts fs rs b :
  Forall2 (fun f r => ∀ b, r = Ok b → zlen b < 2 ^ 63 → writes f b) fs rs →
  (c ← concat_res rs; Ok (if Tail ts then c else rlp_list c)) = Ok b → zlen b < 2 ^ 63 → writes (writeSlice ts fs) b.
Proof.
  intros H (c & Hc & [= <-])%bind_ok Hz. unfold writeSlice. destruct (Tail ts); [by eapply writes_all|].
  pose proof (zlen_rlp_list c). destruct fs as [|f fs].
  - inversion H; subst. injection Hc as <-. apply writes_append.
  - apply writes_list; [|lia]. eapply writes_all; [done..|lia].
Qed.

Lemma Forall2_map_r {A B C} (R : B → C → Prop) (f : A → B) (g : A → C) l :
  Forall (fun x => R (f x) (g x)) l → Forall2 R (map f l) (map g l).
Proof. induction 1; constructor; auto. Qed.

Lemma uint_bits_range bits z : uint_bits bits = true → 0 ≤ z < 2 ^ bits → in_u 64 z.
Proof.
  unfold uint_bits, in_u. rewrite !orb_true_iff, !bool_decide_eq_true. intros Hb Hz. split; [lia|].
  eapply Z.lt_le_trans; [apply Hz|]. apply Z.pow_le_mono_r; lia.
Qed.

Lemma write_ok v : ∀ t ts b,
  has_type v t = true → enc v t ts = Ok b → zlen b < 2 ^ 63 → writes (write v t ts) b.
Proof.
  assert (∀ l t, Forall (fun v => ∀ t ts b, has_type v t = true → enc v t ts = Ok b → zlen b < 2 ^ 63 → writes (write v t ts) b) l →
    forallb (fun v => has_type v t) l = true →
    Forall2 (fun f r => ∀ b, r = Ok b → zlen b < 2 ^ 63 → writes f b)
      (map (fun v => write v t noTags) l) (map (fun v => enc v t noTags) l)) as Hlist.
  { intros l t Hl Ht. apply Forall2_map_r. rewrite forallb_forall in Ht. rewrite Forall_forall in *.
    intros x Hx b Eb Hb. eapply Hl; [done| |done|done]. by apply Ht. }
  induction v as [o|o| |v IH|z|b|s|o|b| |l IH|l IH|l IH| |t' v IH] using val_nested_ind;
    intros t ts b' Ht E Hz; destruct t; try discriminate; cbn [write enc has_type] in *.
  - injection E as <-. apply writes_append.
  - destruct o as [i|]; cbn [writeBigIntPtr]; [|injection E as <-; apply writes_append].
    case_bool_decide; [done|]. injection E as <-. apply writes_writeBigInt; lia.
  - injection E as <-. apply writes_append_eq. unfold nil_byte. by case_bool_decide.
  - by apply IH.
  - injection E as <-. apply andb_true_iff in Ht as [Hb Hr]. apply bool_decide_eq_true in Hr.
    rewrite writeUint64_bytes by by eapply uint_bits_range. apply writes_append.
  - injection E as <-. apply writes_append_eq. by destruct b.
  - injection E as <-. apply writes_writeString. pose proof (zlen_rlp_string s). lia.
  - destruct (isByte t); [|done]. injection E as <-. apply writes_writeBytes. pose proof (zlen_rlp_string (default [] o)). lia.
  - apply andb_true_iff in Ht as [Hb Hl]. rewrite Hb in *. apply bool_decide_eq_true in Hl. injection E as <-.
    apply writes_writeByteArray; [done|]. pose proof (zlen_rlp_string b). lia.
  - destruct (isByte t); [done|]. eapply writes_slice; [|exact E|done]. constructor.
  - destruct (isByte t); [done|]. eapply writes_slice; [|exact E|done]. by apply Hlist.
  - destruct (isByte t); [done|]. apply andb_true_iff in Ht as [_ Ht]. eapply writes_slice; [|exact E|done]. by apply Hlist.
  - apply bind_ok in E as (c & Ec & [= <-]). pose proof (zlen_rlp_list c). apply writes_list; [|lia].
    eapply writes_all; [|exact Ec|lia]. apply Forall2_take. apply andb_true_iff in Ht as [_ Ht]. clear - IH Ht.
    revert fields Ht. induction IH as [|v l Hv _ IHl]; intros [|[ts t] fields] Ht; try by constructor.
    cbn [map zip_with forallb] in *. apply andb_true_iff in Ht as [Ht Hl]. constructor; [|by apply IHl].
    intros b Eb Hb. by apply Hv.
  - injection E as <-. apply writes_append.
  - apply bind_ok in E as ([] & -> & E). cbn [mbind res_bind]. by apply IH.
Qed.

(** *** The output *)

Lemma copy_heads_ok ts : ∀ done_ pend out tl,
  closed ts → length tl = length (pend ++ bytes_of ts) →
  ∃ d r out' tl', copy_heads (done_ ++ pend ++ str_of ts) (heads_of (zlen done_ + zlen pend) ts) (out ++ tl) (zlen done_) (length out)
                    = Ok (out' ++ tl', zlen d, length out')
    ∧ done_ ++ pend ++ str_of ts = d ++ r ∧ out' ++ r = out ++ pend ++ bytes_of ts ∧ length tl' = length r.
Proof.
  induction ts as [|[b|n|n] ts IH]; intros done_ pend out tl Hc Hl; cbn [str_of heads_of bytes_of copy_heads] in *.
  - exists done_, pend, out, tl. rewrite !app_nil_r in *. split_and!; done.
  - apply Forall_cons_iff in Hc as [_ Hc]. destruct (IH done_ (pend ++ b) out tl Hc) as (d & r & out' & tl' & H1 & H2 & H3 & H4).
    { by rewrite <- app_assoc. }
    rewrite zlen_app, Z.add_assoc, <- !app_assoc in *. exists d, r, out', tl'. split_and!; [done|exact H2|exact H3|done].
  - apply Forall_cons_iff in Hc as [_ Hc]. cbn [offset size]. rewrite slice_mid by done. cbn [mbind res_bind].
    rewrite !length_app in Hl. destruct (split_len tl _ _ Hl) as (t1 & t23 & -> & L1 & L23).
    destruct (split_len t23 _ _ L23) as (t2 & t3 & -> & L2 & L3).
    rewrite copy_at_mid by done. unfold put_head. rewrite bool_decide_eq_true_2 by (rewrite !length_app; lia).
    rewrite (app_assoc out pend), <- length_app. rewrite copy_at_mid by done. cbn [mbind res_bind].
    destruct (IH (done_ ++ pend) [] ((out ++ pend) ++ puthead 0xC0 0xF7 n) t3 Hc L3) as (d & r & out' & tl' & H1 & H2 & H3 & H4).
    rewrite zlen_nil, Z.add_0_r, zlen_app in H1. cbn [app] in *. rewrite <- !app_assoc in *. rewrite !length_app in *.
    exists d, r, out', tl'. split_and!; [|done..]. rewrite Nat.add_assoc in H1. exact H1.
  - apply Forall_cons_iff in Hc as [Hc _]. done.
Qed.

Lemma copyTo_ok ts dst : closed ts → length dst = length (bytes_of ts) → copyTo (buf_of ts) dst = Ok (bytes_of ts).
Proof.
  intros Hc Hl. unfold copyTo, buf_of. cbn [str lheads].
  destruct (copy_heads_ok ts [] [] [] dst Hc Hl) as (d & r & out & tl & H1 & H2 & H3 & H4). cbn [app zlen length] in *.
  change (zlen []) with 0 in H1. rewrite Z.add_0_l in H1. rewrite H1. cbn [mbind res_bind]. rewrite H2, slice_tail. cbn [mbind res_bind].
  rewrite <- (app_nil_r tl), copy_at_mid by done. cbn [fst]. by rewrite app_nil_r, H3.
Qed.

Lemma buf_size_ok ts : closed ts → buf_size (buf_of ts) = zlen (bytes_of ts).
Proof. intros. unfold buf_size, buf_of. cbn [str lhsize]. by rewrite zlen_bytes_of. Qed.

Lemma makeBytes_ok ts : closed ts → makeBytes (buf_of ts) = Ok (bytes_of ts).
Proof.
  intros Hc. unfold makeBytes. apply copyTo_ok; [done|]. rewrite length_replicate, buf_size_ok by done. unfold zlen. lia.
Qed.

(** A writer that takes everything, and the bytes it got. *)
Definition collect (b : bytes) (w : bytes) : Z * option string * bytes := (zlen b, None, w ++ b).

Lemma write_heads_ok ts : ∀ done_ pend w,
  closed ts →
  ∃ d r w', write_heads collect (done_ ++ pend ++ str_of ts) (heads_of (zlen done_ + zlen pend) ts) (zlen done_) w = (Ok (zlen d), w')
    ∧ done_ ++ pend ++ str_of ts = d ++ r ∧ w' ++ r = w ++ pend ++ bytes_of ts.
Proof.
  induction ts as [|[b|n|n] ts IH]; intros done_ pend w Hc; cbn [str_of heads_of bytes_of write_heads] in *.
  - exists done_, pend, w. rewrite !app_nil_r. done.
  - apply Forall_cons_iff in Hc as [_ Hc]. destruct (IH done_ (pend ++ b) w Hc) as (d & r & w' & H1 & H2 & H3).
    rewrite zlen_app, Z.add_assoc, <- !app_assoc in *. exists d, r, w'. done.
  - apply Forall_cons_iff in Hc as [_ Hc]. cbn [offset size]. unfold head_encode. cbn [size].
    destruct (IH (done_ ++ pend) [] (w ++ pend ++ puthead 0xC0 0xF7 n) Hc) as (d & r & w' & H1 & H2 & H3).
    rewrite zlen_nil, Z.add_0_r, zlen_app in H1. cbn [app] in *. rewrite <- !app_assoc in *.
    exists d, r, w'. split_and!; [|done..]. rewrite slice_mid by done. case_bool_decide as Hp.
    + cbn [collect]. by rewrite <- app_assoc.
    + assert (pend = []) as -> by (destruct pend; [done|rewrite zlen_cons in Hp; pose proof (zlen_nonneg pend); lia]).
      cbn [collect app] in *. rewrite zlen_nil, !Z.add_0_r in *. exact H1.
  - apply Forall_cons_iff in Hc as [Hc _]. done.
Qed.

Lemma writeTo_ok ts w : closed ts → writeTo collect (buf_of ts) w = (Ok (), w ++ bytes_of ts).
Proof.
  intros Hc. unfold writeTo, buf_of. cbn [str lheads].
  destruct (write_heads_ok ts [] [] w Hc) as (d & r & w' & H1 & H2 & H3). change (zlen []) with 0 in H1. cbn [app] in *.
  rewrite Z.add_0_l in H1. rewrite H1, H2, slice_tail. rewrite <- H3. case_bool_decide as Hp; [done|].
  rewrite zlen_app in Hp. destruct r; [by rewrite app_nil_r|]. rewrite zlen_cons in Hp. pose proof (zlen_nonneg r). lia.
Qed.

(** *** The reader gives the pieces of the output one after the other *)

Definition nonempty (b : bytes) : list bytes := match b with [] => [] | _ => [b] end.

Fixpoint pieces (pend : bytes) (ts : list tok) : list bytes :=
  match ts with
  | [] => nonempty pend
  | Data b :: ts => pieces (pend ++ b) ts
  | Head n :: ts => nonempty pend ++ puthead 0xC0 0xF7 n :: pieces [] ts
  | Open _ :: ts => pieces pend ts
  end.

Lemma concat_nonempty b : concat (nonempty b) = b.
Proof. destruct b; [done|]. cbn. by rewrite app_nil_r. Qed.
Lemma concat_pieces ts : ∀ pend, concat (pieces pend ts) = pend ++ bytes_of ts.
Proof.
  induction ts as [|[b|n|n] ts IH]; intros pend; cbn [pieces bytes_of].
  - by rewrite concat_nonempty, app_nil_r.
  - by rewrite IH, app_assoc.
  - rewrite concat_app, concat_nonempty. cbn [concat]. by rewrite IH.
  - apply IH.
Qed.
Lemma length_pieces ts : ∀ pend off, (length (pieces pend ts) ≤ 2 * length (heads_of off ts) + 1)%nat.
Proof.
  assert (∀ b, (length (nonempty b) ≤ 1)%nat) as Hn by (intros []; simpl; lia).
  induction ts as [|[b|n|n] ts IH]; intros pend off; cbn [pieces heads_of length].
  - specialize (Hn pend). lia.
  - apply IH.
  - rewrite length_app. cbn [length]. specialize (Hn pend). specialize (IH [] off). lia.
  - specialize (IH pend off). lia.
Qed.

(** The reader stands in a buffer, with these pieces of its content left. *)
Definition stands (buf : encBuffer) (pos : nat) (spos : Z) (ps : list bytes) : Prop :=
  ∃ hs done_ pend ts, closed ts ∧ str buf = done_ ++ pend ++ str_of ts ∧ lheads buf = hs ++ heads_of (zlen done_ + zlen pend) ts
    ∧ pos = length hs ∧ spos = zlen done_ ∧ ps = pieces pend ts.

Definition reader_at (r : encReader) (ps : list bytes) : Prop :=
  match r_buf r with
  | None => piece r = None ∧ ps = []
  | Some buf => ∃ qs, stands buf (lhpos r) (r_strpos r) qs
      ∧ ps = match piece r with Some q => q :: qs | None => qs end
      ∧ match piece r with Some q => q ≠ [] | None => True end
  end.

Lemma puthead_nonempty n : puthead 0xC0 0xF7 n ≠ [].
Proof. unfold puthead. by case_bool_decide. Qed.

(** The next piece of a buffer; the reader then stands behind it. *)
Lemma next_stands ts : ∀ buf pos done_ pend hs,
  closed ts → str buf = done_ ++ pend ++ str_of ts → lheads buf = hs ++ heads_of (zlen done_ + zlen pend) ts → pos = length hs →
  match pieces pend ts with
  | [] => next (mkReader (Some buf) pos (zlen done_) None) = Ok (None, mkReader (Some buf) pos (zlen done_) None)
  | p :: ps => p ≠ [] ∧ ∃ pos' spos', next (mkReader (Some buf) pos (zlen done_) None) = Ok (Some p, mkReader (Some buf) pos' spos' None)
               ∧ stands buf pos' spos' ps
  end.
Proof.
  induction ts as [|[b|n|n] ts IH]; intros buf pos done_ pend hs Hc Hs Hh Hp; cbn [str_of heads_of pieces] in *.
  - unfold next. cbn [r_buf piece lhpos r_strpos]. rewrite Hh, app_nil_r, lookup_ge_None_2 by lia. rewrite Hs, app_nil_r.
    destruct pend as [|x pend]; cbn [nonempty].
    + rewrite app_nil_r, bool_decide_eq_false_2 by lia. done.
    + split; [done|]. exists pos, (zlen (str buf)). rewrite slice_tail, bool_decide_eq_true_2 by (rewrite zlen_app, zlen_cons; pose proof (zlen_nonneg pend); lia).
      cbn [mbind res_bind]. rewrite Hs, app_nil_r. split; [done|]. exists hs, (done_ ++ x :: pend), [], [].
      rewrite Hh, Hs. cbn [str_of heads_of app]. rewrite !app_nil_r. split_and!; done.
  - apply Forall_cons_iff in Hc as [_ Hc]. apply (IH buf pos done_ (pend ++ b) hs Hc); [|by rewrite zlen_app, Z.add_assoc|done].
    by rewrite <- app_assoc.
  - apply Forall_cons_iff in Hc as [_ Hc]. unfold next. cbn [r_buf piece lhpos r_strpos].
    rewrite Hh, lookup_app_r, Hp, Nat.sub_diag by lia. cbn [lookup list_lookup offset].
    destruct pend as [|x pend]; cbn [nonempty app].
    + split; [apply puthead_nonempty|]. rewrite zlen_nil, bool_decide_eq_false_2 by lia. do 2 eexists. split; [done|].
      exists (hs ++ [mkHead (zlen done_) n]), done_, [], ts. rewrite zlen_nil, Z.add_0_r in *. rewrite Hh, length_app. cbn [length app].
      rewrite <- app_assoc. cbn [app]. split_and!; [done..|lia|done|done].
    + split; [done|]. rewrite bool_decide_eq_true_2 by (rewrite zlen_cons; pose proof (zlen_nonneg pend); lia).
      rewrite Hs, slice_mid by done. cbn [mbind res_bind]. do 2 eexists. split; [done|].
      exists hs, (done_ ++ x :: pend), [], (Head n :: ts). cbn [str_of heads_of pieces nonempty app].
      rewrite Hh, Hs, zlen_nil, Z.add_0_r, zlen_app. split_and!; [by constructor|by rewrite <- app_assoc|done|done|lia|done].
  - apply Forall_cons_iff in Hc as [Hc _]. done.
Qed.

Lemma next_at r ps : reader_at r ps →
  match ps with
  | [] => next r = Ok (None, r)
  | p :: ps => p ≠ [] ∧ ∃ r', next r = Ok (Some p, r') ∧ ∀ o, match o with Some q => q ≠ [] | None => True end →
                 reader_at (mkReader (r_buf r') (lhpos r') (r_strpos r') o) (match o with Some q => q :: ps | None => ps end)
  end.
Proof.
  destruct r as [[buf|] pos spos pc]; unfold reader_at; cbn [r_buf piece lhpos r_strpos].
  - intros (qs & Hq & -> & Hpc). destruct pc as [q|].
    + split; [done|]. exists (mkReader (Some buf) pos spos (Some q)). split; [done|]. cbn [r_buf piece lhpos r_strpos].
      intros o Ho. exists qs. by destruct o.
    + destruct Hq as (hs & d & pend & ts & Hc & Hs & Hh & Hp & -> & ->).
      pose proof (next_stands ts buf pos d pend hs Hc Hs Hh Hp) as H. destruct (pieces pend ts) as [|p ps]; [done|].
      destruct H as (Hne & pos' & spos' & E & Hst). split; [done|]. eexists. split; [exact E|]. cbn [r_buf piece lhpos r_strpos].
      intros o Ho. exists ps. by destruct o.
  - by intros [-> ->].
Qed.

Lemma enc_read_loop_ok fuel : ∀ ps room acc r, reader_at r ps → (length ps < fuel)%nat →
  ∃ r' ps', read_loop fuel room acc r = Ok (acc ++ take room (concat ps), bool_decide (length (concat ps) ≤ room)%nat, r')
    ∧ reader_at r' ps' ∧ concat ps' = drop room (concat ps) ∧ pieces_left r' = (if bool_decide (length (concat ps) ≤ room)%nat then 1%nat else pieces_left r)
    ∧ (length ps' ≤ length ps)%nat.
Proof.
  induction fuel as [|fuel IH]; intros ps room acc r Hr Hf; [lia|]. cbn [read_loop]. pose proof (next_at r ps Hr) as Hn.
  destruct ps as [|p ps].
  - rewrite Hn. cbn [mbind res_bind concat]. eexists _, []. rewrite take_nil, app_nil_r, drop_nil, bool_decide_eq_true_2 by (simpl; lia).
    split_and!; done.
  - destruct Hn as (Hne & r' & E & Hr'). rewrite E. cbn [mbind res_bind concat length] in *. rewrite length_app.
    assert (r_buf r' = r_buf r) as Eb.
    { unfold next in E. destruct (r_buf r) as [buf|] eqn:Er; [|by destruct r; simplify_eq/=].
      repeat (case_match || case_bool_decide); simplify_eq/=; try congruence;
        match goal with H : _ ≫= _ = Ok _ |- _ => apply bind_ok in H as (? & ? & ?); by simplify_eq/= end. }
    case_bool_decide as Hfit.
    + rewrite bool_decide_eq_false_2 by lia. assert (Nat.min room (length p) = room) as -> by lia.
      exists (mkReader (r_buf r') (lhpos r') (r_strpos r') (Some (drop room p))), (drop room p :: ps).
      rewrite take_app_le by lia. split_and!; [done| | | |done].
      * apply (Hr' (Some (drop room p))). intros Ed. apply (f_equal length) in Ed. rewrite length_drop in Ed. cbn [length] in Ed. lia.
      * cbn [concat]. by rewrite drop_app_le by lia.
      * unfold pieces_left. cbn [r_buf]. by rewrite Eb.
    + assert (Nat.min room (length p) = length p) as -> by lia.
      destruct (IH ps (room - length p)%nat (acc ++ p) _ (Hr' None I)) as (r'' & ps' & E' & Hr'' & Ec & Hl & Hle); [lia|].
      exists r'', ps'. rewrite E', Ec. rewrite take_app_ge, drop_app_ge by lia. rewrite <- app_assoc. split_and!; [|done|done| |lia].
      * do 3 f_equal. apply bool_decide_ext. lia.
      * rewrite Hl. unfold pieces_left. cbn [r_buf]. rewrite Eb.
        rewrite (bool_decide_ext _ (length p + length (concat ps) ≤ room)%nat) by lia. done.
Qed.

(** *** Errors: a writer fails exactly when the rules do *)

Definition agrees (f : encBuffer → res encBuffer) (r : res bytes) : Prop :=
  ∀ w, match r with
       | Ok _ => ∃ w', f w = Ok w' ∧ (length (lheads w) ≤ length (lheads w'))%nat
       | Err e => f w = Err e
       | Panic m => f w = Panic m
       end.

Lemma agrees_append (f : encBuffer → encBuffer) b : (∀ w, lheads (f w) = lheads w) → agrees (fun w => Ok (f w)) (Ok b).
Proof. intros Hf w. exists (f w). by rewrite Hf. Qed.

Lemma rlp_agrees_all fs rs : Forall2 agrees fs rs → agrees (write_all fs) (concat_res rs).
Proof.
  induction 1 as [|f r fs rs Hf _ IH]; intros w; cbn [concat_res write_all]; [by eexists|]. specialize (Hf w).
  destruct r as [b|e|m]; [|by rewrite Hf..]. destruct Hf as (w' & -> & Hle). cbn [mbind res_bind]. specialize (IH w').
  destruct (concat_res rs) as [c|e|m]; cbn [mbind res_bind]; [|done..]. destruct IH as (w'' & -> & Hle'). exists w''. split; [done|lia].
Qed.

Lemma agrees_list l r : agrees (write_all l) r → agrees (write_list l) (c ← r; Ok (rlp_list c)).
Proof.
  intros H w. unfold write_list, list_begin. set (w1 := mkBuf _ _ _). specialize (H w1).
  destruct r as [c|e|m]; cbn [mbind res_bind]; [|by rewrite H..]. destruct H as (w' & -> & Hle). cbn [mbind res_bind].
  unfold w1 in Hle. cbn [lheads] in Hle. rewrite length_app in Hle. cbn [length] in Hle. unfold listEnd.
  destruct (lookup_lt_is_Some_2 (lheads w') (length (lheads w))) as [lh ->]; [lia|]. eexists. split; [done|]. cbn [lheads].
  rewrite length_insert. lia.
Qed.

Lemma agrees_slice ts l rs :
  Forall2 agrees l rs → agrees (writeSlice ts l) (c ← concat_res rs; Ok (if Tail ts then c else rlp_list c)).
Proof.
  intros H. unfold writeSlice. destruct (Tail ts).
  - apply rlp_agrees_all in H. intros w. specialize (H w). by destruct (concat_res rs).
  - pose proof (agrees_list l _ (rlp_agrees_all _ _ H)) as Hl. destruct H; [intros w; by eexists|exact Hl].
Qed.

Lemma writeBigInt_heads i w : lheads (writeBigInt i w) = lheads w.
Proof. unfold writeBigInt. cbv zeta. case_bool_decide; [done|]. by destruct (put_words _ _ _). Qed.
Lemma writeBytes_heads b w : lheads (writeBytes b w) = lheads w.
Proof. unfold writeBytes. by case_match. Qed.
Lemma writeByteArray_heads n b w : lheads (writeByteArray n b w) = lheads w.
Proof. unfold writeByteArray. by repeat case_match. Qed.

Lemma write_agrees v : ∀ t ts, agrees (write v t ts) (enc v t ts).
Proof.
  induction v as [o|o| |v IH|z|b|s|o|b| |l IH|l IH|l IH| |t' v IH] using val_nested_ind;
    intros t ts; destruct t; try (by intros w); cbn [write enc].
  - by apply (agrees_append (append (default [] o))).
  - destruct o as [i|]; cbn [writeBigIntPtr]; [|by apply (agrees_append (append [Byte.x80]))].
    case_bool_decide; [by intros w|]. apply agrees_append. apply writeBigInt_heads.
  - by apply (agrees_append (append [nil_byte (typeNilKind t ts)])).
  - apply IH.
  - by apply (agrees_append (writeUint64 z)).
  - by apply (agrees_append (writeBool b)).
  - apply (agrees_append (writeString s)). apply writeBytes_heads.
  - destruct (isByte t); [|by intros w]. apply agrees_append. apply writeBytes_heads.
  - destruct (isByte t); [|by intros w]. apply agrees_append. apply writeByteArray_heads.
  - destruct (isByte t); [by intros w|]. by apply agrees_slice.
  - destruct (isByte t); [by intros w|]. apply agrees_slice, Forall2_map_r. eapply Forall_impl; [|exact IH]. intros v Hv. apply Hv.
  - destruct (isByte t); [by intros w|]. apply agrees_slice, Forall2_map_r. eapply Forall_impl; [|exact IH]. intros v Hv. apply Hv.
  - apply agrees_list, rlp_agrees_all, Forall2_take. clear - IH. revert fields.
    induction IH as [|v l Hv _ IHl]; intros [|[ts t] fields]; cbn [map zip_with]; by constructor.
  - by apply (agrees_append (append [Byte.xc0])).
  - intros w. destruct (writerErr t') as [[]|e|m]; cbn [mbind res_bind]; [apply IH|done..].
Qed.

Lemma gotype_nested_ind (P : gotype → Prop) :
  P TRawValue → P TBigIntPtr → (∀ t, P t → P (TPtr t)) → (∀ bits, P (TUint bits)) → P TBool → P TString →
  (∀ t, P t → P (TSlice t)) → (∀ n t, P t → P (TArray n t)) → (∀ fs, Forall (fun f => P f.2) fs → P (TStruct fs)) →
  P TInterface → P TOther → ∀ t, P t.
Proof.
  intros H1 H2 H3 H4 H5 H6 H7 H8 H9 H10 H11. fix IH 1.
  intros [| |t|bits| | |t|n t|fs| |]; [apply H1|apply H2|apply H3, IH|apply H4|apply H5|apply H6|apply H7, IH|apply H8, IH| |apply H10|apply H11].
  apply H9. induction fs as [|[ts t] fs IHfs]; constructor; [apply IH|apply IHfs].
Qed.

Lemma writerErr_no_panic t m : writerErr t ≠ Panic m.
Proof.
  induction t as [| |t IH|bits| | |t IH|n t IH|fs IH| |] using gotype_nested_ind; cbn [writerErr]; try done.
  - by destruct (isByte t).
  - by destruct (isByte t).
  - induction IH as [|[ts t] fs Ht _ IHfs]; cbn [foldr]; [done|]. cbn [snd] in Ht. destruct (writerErr t); cbn [mbind res_bind]; congruence.
Qed.

Lemma concat_res_no_panic rs m : Forall (fun r => r ≠ Panic m) rs → concat_res rs ≠ Panic m.
Proof.
  induction 1 as [|r rs Hr _ IH]; cbn [concat_res]; [done|]. destruct r; cbn [mbind res_bind]; [|congruence..].
  destruct (concat_res rs); cbn [mbind res_bind]; congruence.
Qed.

Lemma bind_no_panic {A B} (r : res A) (f : A → res B) m : (∀ m', r ≠ Panic m') → (∀ a, f a ≠ Panic m) → r ≫= f ≠ Panic m.
Proof. intros Hr Hf. destruct r as [a|e|m']; cbn [mbind res_bind]; [apply Hf|done|by destruct (Hr m')]. Qed.

Lemma enc_no_panic v : ∀ t ts m, has_type v t = true → enc v t ts ≠ Panic m.
Proof.
  assert (∀ l t, Forall (fun v => ∀ t ts m, has_type v t = true → enc v t ts ≠ Panic m) l → forallb (fun v => has_type v t) l = true →
    ∀ m, concat_res (map (fun v => enc v t noTags) l) ≠ Panic m) as Hlist.
  { intros l t Hl Ht m. apply concat_res_no_panic. rewrite forallb_forall in Ht. rewrite Forall_forall in *.
    intros r (x & <- & Hx)%in_map_iff. apply Hl; [done|]. by apply Ht. }
  induction v as [o|o| |v IH|z|b|s|o|b| |l IH|l IH|l IH| |t' v IH] using val_nested_ind;
    intros t ts m Ht; destruct t; try discriminate; cbn [enc has_type] in *; try done.
  - destruct o; [by case_bool_decide|done].
  - by apply IH.
  - by destruct (isByte t).
  - by destruct (isByte t).
  - by destruct (isByte t).
  - destruct (isByte t); [done|]. apply bind_no_panic; [by apply Hlist|done].
  - destruct (isByte t); [done|]. apply andb_true_iff in Ht as [_ Ht]. apply bind_no_panic; [by apply Hlist|done].
  - apply andb_true_iff in Ht as [_ Ht]. apply bind_no_panic; [|done]. intros m'. apply concat_res_no_panic, Forall_take. clear - IH Ht.
    revert fields Ht. induction IH as [|v l Hv _ IHl]; intros [|[ts t] fields] Ht; cbn [map zip_with forallb] in *; try by constructor.
    apply andb_true_iff in Ht as [Ht Hl]. constructor; [by apply Hv|by apply IHl].
  - apply bind_no_panic; [apply writerErr_no_panic|]. intros []. by apply IH.
Qed.

(** What the encoding of a value of a type is. *)
Definition encoding (t : gotype) (v : val) : res bytes := _ ← writerErr t; enc v t noTags.

Lemma encode_ok t v b : has_type v t = true → encoding t v = Ok b → zlen b < 2 ^ 63 → writes (encode t v) b.
Proof.
  unfold encoding, encode. intros Ht ([] & -> & E)%bind_ok Hz. cbn [mbind res_bind]. by apply write_ok.
Qed.

Lemma EncodeToBytes_ok t v b : has_type v t = true → encoding t v = Ok b → zlen b < 2 ^ 63 → EncodeToBytes t v = Ok b.
Proof.
  intros Ht E Hz. destruct (encode_ok t v b Ht E Hz []) as (cs & Hc & <- & Ew). cbn [app] in Ew.
  change (buf_of []) with (mkBuf [] [] 0) in Ew. unfold EncodeToBytes. rewrite Ew. cbn [mbind res_bind]. by apply makeBytes_ok.
Qed.

(** The answers of a sequence of calls of [Read] with this much room, and what they
    are when a byte string is handed out in order. *)
Fixpoint reads (rooms : list nat) (r : encReader) : res (list (bytes * bool)) :=
  match rooms with
  | [] => Ok []
  | n :: rooms => '(b, eof, r) ← Read n r; l ← reads rooms r; Ok ((b, eof) :: l)
  end.
Fixpoint cut (rooms : list nat) (b : bytes) : list (bytes * bool) :=
  match rooms with
  | [] => []
  | n :: rooms => (take n b, bool_decide (length b ≤ n)%nat) :: cut rooms (drop n b)
  end.

Lemma enc_reads_ok rooms : ∀ r ps, reader_at r ps → (length ps < pieces_left r)%nat → reads rooms r = Ok (cut rooms (concat ps)).
Proof.
  induction rooms as [|n rooms IH]; intros r ps Hr Hf; [done|]. cbn [reads cut]. unfold Read.
  destruct (enc_read_loop_ok (pieces_left r) ps n [] r Hr Hf) as (r' & ps' & -> & Hr' & Ec & Hl & Hle). cbn [mbind res_bind app].
  rewrite (IH r' ps' Hr'), Ec; [done|]. rewrite Hl. case_bool_decide; [|lia]. revert Hl. unfold pieces_left, reader_at in *.
  destruct (r_buf r') as [buf|]; [lia|]. destruct Hr' as [_ ->]. simpl. lia.
Qed.

(** C16: The encoder implements the encoding rules.  With its list tags kept aside,
    it gives the encoding of every value of every type in the three forms: as a
    byte slice, to a writer, and through a reader that hands out exactly the
    encoding, in order, whatever the sizes of the reads, and says that it is at the
    end when all has been read; and where the rules have no encoding, it reports
    their error. *)
Theorem encoder_implements_rlp t v :
  match encoding t v with
  | Ok b => has_type v t = true → zlen b < 2 ^ 63 →
      EncodeToBytes t v = Ok b
      ∧ (∀ w, Encode collect w t v = (Ok (), w ++ b))
      ∧ ∃ r, EncodeToReader t v = Ok (zlen b, r) ∧ ∀ rooms, reads rooms r = Ok (cut rooms b)
  | Err e => EncodeToBytes t v = Err e ∧ (∀ w, Encode collect w t v = (Err e, w)) ∧ EncodeToReader t v = Err e
  | Panic _ => has_type v t = true → False
  end.
Proof.
  destruct (encoding t v) as [b|e|m] eqn:E.
  - intros Ht Hz. destruct (encode_ok t v b Ht E Hz []) as (cs & Hc & <- & Ew). cbn [app] in Ew.
    change (buf_of []) with (mkBuf [] [] 0) in Ew. unfold EncodeToBytes, Encode, EncodeToReader. rewrite Ew. cbn [mbind res_bind].
    rewrite makeBytes_ok, buf_size_ok by done. split_and!; [done|intros w; by apply writeTo_ok|]. eexists. split; [done|]. intros rooms.
    rewrite (enc_reads_ok rooms _ (pieces [] cs)); [by rewrite concat_pieces| |].
    + exists (pieces [] cs). cbn [piece]. split_and!; [|done|done]. exists [], [], [], cs. split_and!; done.
    + unfold pieces_left. cbn [r_buf buf_of lheads]. pose proof (length_pieces cs [] 0). lia.
  - assert (∀ w, encode t v w = Err e) as Hw.
    { intros w. unfold encoding, encode in *. destruct (writerErr t) as [[]|e'|m]; cbn [mbind res_bind] in *; [|congruence..].
      pose proof (write_agrees v t noTags w) as Ha. by rewrite E in Ha. }
    unfold EncodeToBytes, Encode, EncodeToReader. rewrite Hw. done.
  - intros Ht. revert E. unfold encoding. apply bind_no_panic; [apply writerErr_no_panic|]. intros []. by apply enc_no_panic.
Qed.

(** ** Struct tags *)

Fixpoint tail_last (fields : list (Tags * gotype)) : bool :=
  match fields with
  | [] => true
  | (ts, _) :: fields => (negb (Tail ts) || bool_decide (fields = [])) && tail_last fields
  end.

Definition field_ok (f : Tags * gotype) : Prop :=
  Ignored f.1 = false ∧ (Tail f.1 = true → is_slice f.2 = true ∧ Optional f.1 = false)
  ∧ (NilOK f.1 = true → is_ptr f.2 = true ∧ NilKind f.1 ≠ KByte).

Lemma last_public_after fields : ∀ acc,
  let last := foldl (fun last f => if f_Exported f then f_Index f else last) acc fields in
  (Forall (fun f => f_Exported f = false) fields ∧ last = acc) ∨ last ∈ map f_Index fields.
Proof.
  induction fields as [|f fields IH]; intros acc; cbn [foldl map]; [by left|].
  destruct (IH (if f_Exported f then f_Index f else acc)) as [[Hf E]|H]; [|right; by constructor].
  destruct (f_Exported f) eqn:Ef; [right; rewrite E; by constructor|left]. split; [by constructor|done].
Qed.

Lemma gather_unexported last fields : Forall (fun f => f_Exported f = false) fields → gather last fields = Ok [].
Proof. induction 1 as [|f fields Hf _ IH]; cbn [gather]; [done|]. by rewrite Hf. Qed.

(** The options of one field: what holds of the tags of a field and of its place. *)
Lemma tag_options_ok f last opts : ∀ ts0 ts,
  tag_options f last ts0 opts = Ok ts →
  ((Tail ts0 = true → is_slice (f_Type f) = true ∧ Optional ts0 = false ∧ f_Index f = last) ∧ (NilOK ts0 = true → is_ptr (f_Type f) = true ∧ NilKind ts0 ≠ KByte)) →
  (Tail ts = true → is_slice (f_Type f) = true ∧ Optional ts = false ∧ f_Index f = last)
  ∧ (NilOK ts = true → is_ptr (f_Type f) = true ∧ NilKind ts ≠ KByte).
Proof.
  induction opts as [|o opts IH]; intros ts0 ts'; cbn [tag_options]; [by intros [= <-]|].
  intros (ts1 & H1 & H2)%bind_ok H0. apply (IH ts1 ts' H2). clear - H1 H0. unfold tag_option in H1.
  destruct H0 as [Ht Hn]. case_go; split; intros ?; simplify_eq/=; try (by auto).
  all: try (destruct (is_ptr (f_Type f)); [|done]; split; [done|]; unfold DefaultNilValue; repeat case_match; done).
  all: try (destruct (is_slice (f_Type f)); done). all: try congruence.
Qed.

(** C39: The fields that [ProcessFields] accepts are as the codec needs them: a field
    that absorbs the rest of the list is a slice, not optional, and no field follows
    it; a field that may be nil is a pointer; after an optional field all are
    optional or absorb the rest; none is marked as ignored. *)
Theorem processed_fields_consistent allFields fields :
  NoDup (map f_Index allFields) → ProcessFields allFields = Ok fields →
  optional_consistent false fields = true ∧ tail_last fields = true ∧ Forall field_ok fields.
Proof.
  unfold ProcessFields. intros Hnd (fs & Hg & E)%bind_ok. destruct (optional_consistent false fs) eqn:Ho; [|done]. injection E as <-.
  split; [done|]. clear Ho. revert fs Hg Hnd. unfold lastPublicField. generalize 0%nat.
  induction allFields as [|f fs IH]; intros acc l; cbn [gather foldl map]; [by intros [= <-]|].
  intros Hg [Hf Hnd]%list.NoDup_cons. destruct (f_Exported f); cbn [negb] in Hg; [|by eapply IH].
  apply bind_ok in Hg as (ts & Hp & (l' & Hl & [= <-])%bind_ok). destruct (IH _ l' Hl Hnd) as [IH1 IH2].
  destruct (Ignored ts) eqn:Ei; [done|]. unfold parseTag in Hp. apply tag_options_ok in Hp as [Ht Hn]; [|done].
  split; [|constructor; [|done]].
  - cbn [tail_last]. rewrite IH1, andb_true_r. destruct (Tail ts); [cbn [negb orb]|done]. destruct (Ht eq_refl) as (_ & _ & El).
    destruct (last_public_after fs (f_Index f)) as [[Hu _]|Hin]; [|by rewrite <- El in Hin].
    rewrite gather_unexported in Hl by done. by injection Hl as <-.
  - split; [done|]. split; [|done]. intros H. by destruct (Ht H) as (? & ? & _).
Qed.

Module RlpEncodeDemo.

Definition optional := mkTags KByte false true false false.
Definition tail := mkTags KByte false false true false.

Lemma processed_fields_consistent_witness :
  optional_consistent false [(optional, TBool); (tail, TSlice TBool)] = true ∧ tail_last [(optional, TBool); (tail, TSlice TBool)] = true
  ∧ Forall field_ok [(optional, TBool); (tail, TSlice TBool)].
Proof.
  apply (processed_fields_consistent
    [mkField "A" 0 true TBool ["optional"]; mkField "b" 1 false TString []; mkField "C" 2 true TOther ["-"]; mkField "D" 3 true (TSlice TBool) ["tail"]]);
    [|vm_compute; reflexivity].
  cbn [map f_Index]. repeat (apply list.NoDup_cons; split; [set_solver by lia|]). constructor.
Defined.

End RlpEncodeDemo.
