(* ===== verification/RlpDecode.v ===== *)
(** * RlpDecode: the RLP decoder

    [Stream] (framework/crypto/rlp/decode.go) reads RLP values from its input one
    after the other, keeps the limits of the lists it is in and of the whole input,
    and caches the tag of the value ahead.  The decoders, built from the Go type of
    the value they fill, are on top of it.

    A method of [Stream] is a function of the stream to its result and the new
    stream, in a state and error monad: a failed call leaves the stream where it
    stopped.  The input is a byte slice behind a [bytes.Reader].  A decoder fills a
    fresh value.  Loops over the elements of a list and the recursion of
    [decodeInterface] take fuel; [decoding_ends] proves that one more than the
    length of the input is enough. *)
From S2P Require Import Prelude Bytes Rlp RlpEncode.

(** ** Streams *)

Record Stream := mkStream {
  s_r : bytes;              (* the rest of the input *)
  remaining : Z;
  s_size : Z;
  kinderr : option string;
  stack : list Z;           (* what is left of the open lists, the innermost first *)
  s_kind : option Kind;     (* [None] is -1 *)
  byteval : byte;
  limited : bool
}.

Definition SM (A : Type) := Stream → res A * Stream.
#[global] Instance SM_ret : MRet SM := fun A a s => (Ok a, s).
#[global] Instance SM_bind : MBind SM := fun A B f m s =>
  match m s with
  | (Ok a, s) => f a s
  | (Err e, s) => (Err e, s)
  | (Panic e, s) => (Panic e, s)
  end.

Definition fail {A} (e : string) : SM A := fun s => (Err e, s).
Definition modify (f : Stream → Stream) : SM unit := fun s => (Ok (), f s).
Definition gets {A} (f : Stream → A) : SM A := fun s => (Ok (f s), s).

Definition set_kind (k : option Kind) (s : Stream) : Stream :=
  mkStream (s_r s) (remaining s) (s_size s) (kinderr s) (stack s) k (byteval s) (limited s).
Definition set_input (r : bytes) (s : Stream) : Stream :=
  mkStream r (remaining s) (s_size s) (kinderr s) (stack s) (s_kind s) (byteval s) (limited s).
Definition set_stack (st : list Z) (s : Stream) : Stream :=
  mkStream (s_r s) (remaining s) (s_size s) (kinderr s) st (s_kind s) (byteval s) (limited s).
Definition set_remaining (n : Z) (s : Stream) : Stream :=
  mkStream (s_r s) n (s_size s) (kinderr s) (stack s) (s_kind s) (byteval s) (limited s).
Definition set_byteval (b : byte) (s : Stream) : Stream :=
  mkStream (s_r s) (remaining s) (s_size s) (kinderr s) (stack s) (s_kind s) b (limited s).
Definition set_ahead (k : Kind) (size : Z) (err : option string) (s : Stream) : Stream :=
  mkStream (s_r s) (remaining s) size err (stack s) (Some k) (byteval s) (limited s).
Definition set_size (n : Z) (s : Stream) : Stream :=
  mkStream (s_r s) (remaining s) n (kinderr s) (stack s) (s_kind s) (byteval s) (limited s).

Definition errNotInList := "rlp: call of ListEnd outside of any list".
Definition errNotAtEOL := "rlp: call of ListEnd not positioned at EOL".

(** [Reset] to a [bytes.Reader], whose length is the limit when none is given, and
    [NewListStream]. *)
Definition Reset (r : bytes) (inputLimit : Z) : Stream :=
  mkStream r (if bool_decide (inputLimit > 0) then inputLimit else zlen r) 0 None [] None Byte.x00 true.
Definition NewListStream (r : bytes) (len : Z) : Stream := set_size len (set_kind (Some KList) (Reset r len)).

(** The limit of the innermost list, if any. *)
Definition listLimit (s : Stream) : option Z := head (stack s).

Definition willRead (n : Z) : SM unit := fun s =>
  let s := set_kind None s in
  let limit_input s :=
    if limited s then
      if bool_decide (n > remaining s) then (Err ErrValueTooLarge, s) else (Ok (), set_remaining (u64 (remaining s - n)) s)
    else (Ok (), s) in
  match stack s with
  | limit :: st => if bool_decide (n > limit) then (Err ErrElemTooLarge, s) else limit_input (set_stack (u64 (limit - n) :: st) s)
  | [] => limit_input s
  end.

(** [readFull] into a buffer of [n] bytes: a [bytes.Reader] gives what is there
    ([r_Read] is the loop over its [Read]). *)
Definition r_Read (n : Z) : SM bytes := fun s =>
  if bool_decide (n ≤ zlen (s_r s)) then (Ok (take (Z.to_nat n) (s_r s)), set_input (drop (Z.to_nat n) (s_r s)) s)
  else (Err io_ErrUnexpectedEOF, set_input [] s).
Definition r_ReadByte : SM byte := fun s =>
  match s_r s with
  | b :: r => (Ok b, set_input r s)
  | [] => (Err io_ErrUnexpectedEOF, s)
  end.

Definition readFull (n : Z) : SM bytes := willRead n ;; r_Read n.
Definition readByte : SM byte := willRead 1 ;; r_ReadByte.

Definition readUint (size : Z) : SM Z :=
  if bool_decide (size = 0) then modify (set_kind None) ;; mret 0
  else if bool_decide (size = 1) then b ← readByte; mret (Z_of_byte b)
  else if bool_decide (size > 8) then fun s => (Panic "slice bounds out of range", s)
  else
    buffer ← readFull size;
    if bool_decide (byte_at buffer 0 = 0) then fail ErrCanonSize else mret (be_decode buffer).

(** Kind, size and error of [readKind]. *)
Definition size_of (k : Kind) (m : SM Z) : SM (Kind * Z * option string) := fun s =>
  match m s with
  | (Ok size, s) => (Ok (k, size, if bool_decide (size < 56) then Some ErrCanonSize else None), s)
  | (Err e, s) => (Ok (k, 0, Some e), s)
  | (Panic e, s) => (Panic e, s)
  end.

Definition stream_readKind : SM (Kind * Z * option string) := fun s =>
  match readByte s with
  | (Err e, s) =>
      let e := if bool_decide (stack s = []) && (bool_decide (e = io_ErrUnexpectedEOF) || bool_decide (e = ErrValueTooLarge))
               then io_EOF else e in
      (Ok (KByte, 0, Some e), s)
  | (Panic e, s) => (Panic e, s)
  | (Ok b0, s) =>
      let b := Z_of_byte b0 in
      let s := set_byteval Byte.x00 s in
      if bool_decide (b < 0x80) then (Ok (KByte, 0, None), set_byteval b0 s)
      else if bool_decide (b < 0xB8) then (Ok (KString, b - 0x80, None), s)
      else if bool_decide (b < 0xC0) then size_of KString (readUint (b - 0xB7)) s
      else if bool_decide (b < 0xF8) then (Ok (KList, b - 0xC0, None), s)
      else size_of KList (readUint (b - 0xF7)) s
  end.

(** The limit of the list is the one before the tag has been read. *)
Definition stream_Kind : SM (Kind * Z) := fun s =>
  match s_kind s with
  | Some k => (match kinderr s with None => Ok (k, s_size s) | Some e => Err e end, s)
  | None =>
      let limit := listLimit s in
      if bool_decide (limit = Some 0) then (Err EOL, s)
      else
        match stream_readKind s with
        | (Ok (k, size, err), s) =>
            let err :=
              match err with
              | Some e => Some e
              | None => if match limit with Some l => bool_decide (size > l) | None => false end then Some ErrElemTooLarge
                        else if limited s && bool_decide (size > remaining s) then Some ErrValueTooLarge
                        else None
              end in
            (match err with None => Ok (k, size) | Some e => Err e end, set_ahead k size err s)
        | (Err e, s) => (Err e, s)
        | (Panic e, s) => (Panic e, s)
        end
  end.

Definition rearm : SM unit := modify (set_kind None).

Definition stream_Bytes : SM bytes :=
  '(kind, size) ← stream_Kind;
  match kind with
  | KByte => rearm ;; b ← gets byteval; mret [b]
  | KString => b ← readFull size; if bool_decide (size = 1) && bool_decide (byte_at b 0 < 128) then fail ErrCanonSize else mret b
  | KList => fail ErrExpectedString
  end.

(** [ReadBytes] into a buffer of [n] bytes. *)
Definition ReadBytes (n : nat) : SM bytes :=
  '(kind, size) ← stream_Kind;
  match kind with
  | KByte => if bool_decide (n ≠ 1%nat) then fail "input value has wrong size"
             else b ← gets byteval; rearm ;; mret [b]
  | KString =>
      if bool_decide (Z.of_nat n ≠ size) then fail "input value has wrong size"
      else b ← readFull (Z.of_nat n); if bool_decide (size = 1) && bool_decide (byte_at b 0 < 128) then fail ErrCanonSize else mret b
  | KList => fail ErrExpectedString
  end.

Definition Raw : SM bytes :=
  '(kind, size) ← stream_Kind;
  match kind with
  | KByte => rearm ;; b ← gets byteval; mret [b]
  | KString => content ← readFull size; mret (puthead 0x80 0xB7 size ++ content)
  | KList => content ← readFull size; mret (puthead 0xC0 0xF7 size ++ content)
  end.

(** The integer of an RLP string, with the error of a size adjusted. *)
Definition checked_uint (size : Z) : SM Z := fun s =>
  match readUint size s with
  | (Ok v, s) => if bool_decide (size > 0) && bool_decide (v < 128) then (Err ErrCanonSize, s) else (Ok v, s)
  | (Err e, s) => (Err (if bool_decide (e = ErrCanonSize) then ErrCanonInt else e), s)
  | r => r
  end.

Definition stream_uint (maxbits : Z) : SM Z :=
  '(kind, size) ← stream_Kind;
  match kind with
  | KByte => b ← gets byteval;
             if bool_decide (Z_of_byte b = 0) then fail ErrCanonInt else rearm ;; mret (Z_of_byte b)
  | KString =>
      if bool_decide (size > maxbits `div` 8) then fail errUintOverflow
      else checked_uint size
  | KList => fail ErrExpectedString
  end.

Definition stream_Bool : SM bool :=
  num ← stream_uint 8;
  if bool_decide (num = 0) then mret false else if bool_decide (num = 1) then mret true else fail "rlp: invalid boolean value".

Definition stream_List : SM Z :=
  '(kind, size) ← stream_Kind;
  if bool_decide (kind ≠ KList) then fail ErrExpectedList
  else
    modify (fun s => set_stack (size :: match stack s with limit :: st => u64 (limit - size) :: st | [] => [] end) s) ;;
    modify (fun s => set_size 0 (set_kind None s)) ;;
    mret size.

Definition ListEnd : SM unit := fun s =>
  match stack s with
  | [] => (Err errNotInList, s)
  | limit :: st => if bool_decide (limit > 0) then (Err errNotAtEOL, s) else (Ok (), set_size 0 (set_kind None (set_stack st s)))
  end.

Definition MoreDataInList (s : Stream) : bool := bool_decide (default 0 (listLimit s) > 0).

(** The bytes of a big integer: the cases of [decodeBigInt]. *)
Definition bigint_buffer (kind : Kind) (size : Z) : SM bytes :=
  match kind with
  | KList => fail ErrExpectedString
  | KByte => b ← gets byteval; rearm ;; mret [b]
  | KString =>
      if bool_decide (size = 0) then rearm ;; mret []
      else if bool_decide (size ≤ 32) then
        b ← readFull size; if bool_decide (size = 1) && bool_decide (byte_at b 0 < 128) then fail ErrCanonSize else mret b
      else readFull size
  end.

Definition stream_BigInt : SM Z :=
  '(kind, size) ← stream_Kind;
  buffer ← bigint_buffer kind size;
  if bool_decide (zlen buffer > 0) && bool_decide (byte_at buffer 0 = 0) then fail ErrCanonInt else mret (be_decode buffer).

(** ** Decoders *)

Definition wrapStreamError (e : string) : string :=
  if bool_decide (e = ErrCanonInt) then "rlp: non-canonical integer (leading zero bytes)"
  else if bool_decide (e = ErrExpectedList) then "rlp: expected input list"
  else if bool_decide (e = ErrExpectedString) then "rlp: expected input string or byte"
  else if bool_decide (e = errUintOverflow) then "rlp: input string too long"
  else if bool_decide (e = errNotAtEOL) then "rlp: input list has too many elements"
  else e.
Definition wrapped {A} (m : SM A) : SM A := fun s =>
  match m s with
  | (Err e, s) => (Err (wrapStreamError e), s)
  | r => r
  end.

(** The zero value of a type. *)
Fixpoint zero (t : gotype) : val :=
  match t with
  | TRawValue => VRaw None
  | TBigIntPtr => VBig None
  | TPtr _ => VPtr None
  | TUint _ => VUint 0
  | TBool => VBool false
  | TString => VStr []
  | TSlice t => if isByte t then VBytes None else VSlice None
  | TArray n t => if isByte t then VByteArray (replicate n Byte.x00) else VArray (replicate n (zero t))
  | TStruct fields => VStruct (map (fun '(_, t) => zero t) fields)
  | TInterface | TOther => VInterface None
  end.

Definition out_of_fuel {A} : SM A := fun s => (Panic "out of fuel", s).

Fixpoint decodeSliceElems (fuel : nat) (elemdec : SM val) : SM (list val) :=
  match fuel with
  | O => out_of_fuel
  | S fuel => fun s =>
      match elemdec s with
      | (Ok v, s) => (l ← decodeSliceElems fuel elemdec; mret (v :: l)) s
      | (Err e, s) => if bool_decide (e = EOL) then (Ok [], s) else (Err e, s)
      | (Panic e, s) => (Panic e, s)
      end
  end.

Definition decodeListSlice (fuel : nat) (elemdec : SM val) : SM val :=
  size ← wrapped stream_List;
  if bool_decide (size = 0) then ListEnd ;; mret (VSlice (Some []))
  else l ← decodeSliceElems fuel elemdec; ListEnd ;; mret (VSlice (Some l)).

Fixpoint decode_array (n : nat) (elemdec : SM val) : SM (list val) :=
  match n with
  | O => mret []
  | S n => fun s =>
      match elemdec s with
      | (Ok v, s) => (l ← decode_array n elemdec; mret (v :: l)) s
      | (Err e, s) => (Err (if bool_decide (e = EOL) then "rlp: input list has too few elements" else e), s)
      | (Panic e, s) => (Panic e, s)
      end
  end.

Definition decodeListArray (n : nat) (elemdec : SM val) : SM val :=
  wrapped stream_List ;;
  l ← decode_array n elemdec;
  wrapped ListEnd ;; mret (VArray l).

Definition decodeByteArray (n : nat) : SM val :=
  '(kind, size) ← stream_Kind;
  match kind with
  | KByte =>
      if bool_decide (n = 0%nat) then fail "rlp: input string too long"
      else if bool_decide (1 < n)%nat then fail "rlp: input string too short"
      else b ← gets byteval; rearm ;; mret (VByteArray [b])
  | KString =>
      if bool_decide (Z.of_nat n < size) then fail "rlp: input string too long"
      else if bool_decide (Z.of_nat n > size) then fail "rlp: input string too short"
      else
        b ← readFull (Z.of_nat n);
        if bool_decide (size = 1) && bool_decide (byte_at b 0 < 128) then fail (wrapStreamError ErrCanonSize) else mret (VByteArray b)
  | KList => fail (wrapStreamError ErrExpectedString)
  end.

(** The loop over the fields of a struct. *)
Fixpoint decode_fields (fields : list (Tags * gotype)) (decs : list (SM val)) : SM (list val) :=
  match fields, decs with
  | (ts, t) :: fields, dec :: decs => fun s =>
      match dec s with
      | (Ok v, s) => (l ← decode_fields fields decs; mret (v :: l)) s
      | (Err e, s) =>
          if bool_decide (e = EOL) then
            if Optional ts then (Ok (zero t :: map (fun '(_, t) => zero t) fields), s) else (Err "rlp: too few elements", s)
          else (Err e, s)
      | (Panic e, s) => (Panic e, s)
      end
  | _, _ => mret []
  end.

Definition decodeStruct (fields : list (Tags * gotype)) (decs : list (SM val)) : SM val :=
  wrapped stream_List ;;
  l ← decode_fields fields decs;
  wrapped ListEnd ;; mret (VStruct l).

(** Values of an interface: byte slices and slices of interfaces. *)
Definition iface_bytes (b : bytes) : val := VInterface (Some (TSlice (TUint 8), VBytes (Some b))).
Definition iface_list (v : val) : val := VInterface (Some (TSlice TInterface, v)).

Fixpoint decodeInterface (fuel : nat) : SM val :=
  match fuel with
  | O => out_of_fuel
  | S fuel =>
      '(kind, _) ← stream_Kind;
      if bool_decide (kind = KList)
      then v ← decodeListSlice fuel (decodeInterface fuel); mret (iface_list v)
      else b ← stream_Bytes; mret (iface_bytes b)
  end.

(** [makeNilPtrDecoder] *)
Definition decodeNilPtr (nilKind : Kind) (dec : SM val) : SM val :=
  '(kind, size) ← wrapped stream_Kind;
  if bool_decide (kind ≠ KByte) && bool_decide (size = 0) then
    if bool_decide (kind ≠ nilKind) then fail "rlp: wrong kind of empty value"
    else rearm ;; mret (VPtr None)
  else v ← dec; mret (VPtr (Some v)).

(** The decoder that [makeDecoder] gives for a type. *)
Fixpoint decode (fuel : nat) (t : gotype) (ts : Tags) : SM val :=
  match t with
  | TRawValue => b ← Raw; mret (VRaw (Some b))
  | TBigIntPtr => z ← wrapped stream_BigInt; mret (VBig (Some z))
  | TPtr t =>
      if NilOK ts then decodeNilPtr (typeNilKind t ts) (decode fuel t noTags)
      else v ← decode fuel t noTags; mret (VPtr (Some v))
  | TUint bits => z ← wrapped (stream_uint bits); mret (VUint z)
  | TBool => b ← wrapped stream_Bool; mret (VBool b)
  | TString => b ← wrapped stream_Bytes; mret (VStr b)
  | TSlice t =>
      if isByte t then b ← wrapped stream_Bytes; mret (VBytes (Some b))
      else if Tail ts then l ← decodeSliceElems fuel (decode fuel t noTags); mret (VSlice (Some l))
      else decodeListSlice fuel (decode fuel t noTags)
  | TArray n t => if isByte t then decodeByteArray n else decodeListArray n (decode fuel t noTags)
  | TStruct fields => decodeStruct fields (map (fun '(ts, t) => decode fuel t ts) fields)
  | TInterface => decodeInterface fuel
  | TOther => fail errNotSerializable
  end.

(** [DecodeBytes] into a fresh value of the type; the types without a decoder are
    those without a writer. *)
Definition DecodeBytes (t : gotype) (b : bytes) : res val :=
  _ ← writerErr t;
  match decode (S (length b)) t noTags (Reset b (zlen b)) with
  | (Ok v, s) => if bool_decide (zlen (s_r s) > 0) then Err ErrMoreThanOneValue else Ok v
  | (Err e, _) => Err e
  | (Panic m, _) => Panic m
  end.

(** ** Lemmas *)

Lemma bind_eq {A B} (m : SM A) (f : A → SM B) s :
  (m ≫= f) s = match m s with (Ok a, s) => f a s | (Err e, s) => (Err e, s) | (Panic e, s) => (Panic e, s) end.
Proof. done. Qed.

Lemma sm_bind_inv {A B} (m : SM A) (f : A → SM B) s b s' :
  (m ≫= f) s = (Ok b, s') → ∃ a s1, m s = (Ok a, s1) ∧ f a s1 = (Ok b, s').
Proof. rewrite bind_eq. destruct (m s) as [[a|e|e] s1]; [by eauto|done..]. Qed.

(** *** Reading from the input

    [spend n st] are the limits after [n] more bytes have been read; the limit of
    the innermost list wraps around as in the code. *)
Definition spend (n : Z) (st : list Z) : list Z := match st with [] => [] | l :: st => u64 (l - n) :: st end.
Definition room (n : Z) (st : list Z) : Prop := match st with [] => True | l :: _ => n ≤ l end.

(** The input and the limits of a stream over a byte slice; [Pos] when no tag has
    been read ahead. *)
Record Str (s : Stream) (r : bytes) (st : list Z) : Prop := {
  str_r : s_r s = r;
  str_stack : stack s = st;
  str_limited : limited s = true;
  str_remaining : remaining s = zlen r;
  str_len : zlen r < 2 ^ 63;
  str_limits : Forall (in_u 64) st
}.
Definition Pos (s : Stream) (r : bytes) (st : list Z) : Prop := Str s r st ∧ s_kind s = None.

Lemma spend_limits n st : Forall (in_u 64) st → Forall (in_u 64) (spend n st).
Proof. destruct 1; constructor; [by apply wrapu_range|done]. Qed.

Lemma spend_spend n m st : spend m (spend n st) = spend (n + m) st.
Proof.
  destruct st as [|l st]; [done|]. cbn [spend]. f_equal. unfold wrapu. rewrite Zminus_mod_idemp_l. f_equal. lia.
Qed.

Lemma spend_0 st : Forall (in_u 64) st → spend 0 st = st.
Proof. destruct 1 as [|l st Hl _]; [done|]. cbn [spend]. by rewrite Z.sub_0_r, wrapu_id. Qed.

Lemma room_spend n m st : Forall (in_u 64) st → 0 ≤ n → 0 ≤ m → room (n + m) st → room m (spend n st).
Proof. destruct 1 as [|l st Hl _]; [done|]. cbn [room spend]. unfold in_u in Hl. intros. rewrite wrapu_id by (unfold in_u; lia). lia. Qed.

#[global] Instance room_dec n st : Decision (room n st).
Proof. destruct st; simpl; apply _. Defined.

Lemma willRead_eq s r st n :
  Str s r st → 0 ≤ n →
  willRead n s =
    let s0 := set_kind None s in
    if bool_decide (room n st) then
      let s1 := match st with [] => s0 | _ => set_stack (spend n st) s0 end in
      if bool_decide (n ≤ zlen r) then (Ok (), set_remaining (zlen r - n) s1) else (Err ErrValueTooLarge, s1)
    else (Err ErrElemTooLarge, s0).
Proof.
  intros [Hr Hst Hl Hrem Hlen Hlim] Hn. unfold willRead. cbn [set_kind stack set_stack limited remaining]. rewrite Hst.
  destruct st as [|l st]; cbn [room spend].
  - rewrite (bool_decide_eq_true_2 True) by done. cbn [set_kind limited remaining]. rewrite Hl, Hrem.
    case_bool_decide; [rewrite bool_decide_eq_false_2 by lia; done|]. rewrite bool_decide_eq_true_2 by lia. by rewrite wrapu_id by (unfold in_u; lia).
  - case_bool_decide as Hgt; [rewrite bool_decide_eq_false_2 by lia; done|]. rewrite (bool_decide_eq_true_2 (n ≤ l)) by lia.
    cbn [set_kind set_stack limited remaining]. rewrite Hl, Hrem.
    case_bool_decide; [rewrite bool_decide_eq_false_2 by lia; done|]. rewrite bool_decide_eq_true_2 by lia. by rewrite wrapu_id by (unfold in_u; lia).
Qed.

Lemma readFull_ok s c rest st :
  Str s (c ++ rest) st → room (zlen c) st →
  ∃ s', readFull (zlen c) s = (Ok c, s') ∧ Pos s' rest (spend (zlen c) st) ∧ byteval s' = byteval s.
Proof.
  intros HS Hroom. unfold readFull. rewrite bind_eq. pose proof (zlen_nonneg c). pose proof (zlen_nonneg rest).
  rewrite (willRead_eq s _ st) by done. cbv zeta. destruct HS as [Hr Hst Hl Hrem Hlen Hlim]. rewrite zlen_app in *.
  rewrite (bool_decide_eq_true_2 (room _ _)), (bool_decide_eq_true_2 (_ ≤ _ + _)) by (done || lia).
  set (s1 := match st with [] => _ | _ => _ end).
  assert (s_r s1 = c ++ rest ∧ stack s1 = spend (zlen c) st ∧ limited s1 = true ∧ s_kind s1 = None ∧ byteval s1 = byteval s) as (E1 & E2 & E3 & E4 & E5)
    by (subst s1; destruct st; cbn; done).
  unfold r_Read. cbn [set_remaining s_r]. rewrite E1, zlen_app, bool_decide_eq_true_2 by lia.
  rewrite take_app_length', drop_app_length' by (unfold zlen; lia). eexists. split; [done|]. split; [|done].
  split; [|done]. constructor; cbn; [done|done|done|lia|lia|by apply spend_limits].
Qed.

Lemma readFull_inv s r st n c s' :
  Str s r st → 0 ≤ n → readFull n s = (Ok c, s') →
  zlen c = n ∧ room n st ∧ ∃ rest, r = c ++ rest ∧ Pos s' rest (spend n st) ∧ byteval s' = byteval s.
Proof.
  intros HS Hn. unfold readFull. rewrite bind_eq. rewrite (willRead_eq s r st n) by done. cbv zeta.
  case_bool_decide as Hroom; [|done]. case_bool_decide as Hle; [|done]. destruct HS as [Hr Hst Hl Hrem Hlen Hlim].
  set (s1 := match st with [] => _ | _ => _ end).
  assert (s_r s1 = r ∧ stack s1 = spend n st ∧ limited s1 = true ∧ s_kind s1 = None ∧ byteval s1 = byteval s) as (E1 & E2 & E3 & E4 & E5)
    by (subst s1; destruct st; cbn; done).
  unfold r_Read. cbn [set_remaining s_r]. rewrite E1, bool_decide_eq_true_2 by done. intros [= <- <-].
  assert (zlen (take (Z.to_nat n) r) = n) as Ez by (unfold zlen in *; rewrite length_take; lia).
  split; [done|]. split; [done|]. exists (drop (Z.to_nat n) r). rewrite take_drop. split; [done|]. split; [|done]. split; [|done].
  constructor; cbn; [done|done|done| |unfold zlen in *; rewrite length_drop; lia|by apply spend_limits].
  unfold zlen in *. rewrite length_drop. lia.
Qed.

(** Reading one byte is reading a buffer of one. *)
Lemma readByte_full s r st : Str s r st →
  readByte s = match readFull 1 s with (Ok c, s') => (Ok (nth 0 c Byte.x00), s') | (Err e, s') => (Err e, s') | (Panic e, s') => (Panic e, s') end.
Proof.
  intros HS. unfold readByte, readFull. rewrite !bind_eq. rewrite (willRead_eq s r st 1) by done. cbv zeta.
  case_bool_decide; [|done]. case_bool_decide as Hle; [|done]. destruct HS as [Hr Hst Hl Hrem Hlen Hlim].
  set (s1 := match st with [] => _ | _ => _ end). assert (s_r s1 = r) as E1 by (subst s1; by destruct st).
  unfold r_Read, r_ReadByte. cbn [set_remaining s_r]. rewrite E1, bool_decide_eq_true_2 by done.
  destruct r as [|b r]; [rewrite zlen_nil in Hle; lia|]. change (Z.to_nat 1) with 1%nat. cbn [take drop nth]. by rewrite drop_0.
Qed.

Lemma byte_at_head c : byte_at c 0 = Z_of_byte (nth 0 c Byte.x00).
Proof. done. Qed.

Lemma be_decode_single b : be_decode [b] = Z_of_byte b.
Proof. unfold be_decode. cbn [foldl]. lia. Qed.

Lemma zlen_1 {A} (c : list A) : zlen c = 1 → ∃ x, c = [x].
Proof. destruct c as [|x [|y c]]; rewrite ?zlen_cons, ?zlen_nil; intros; [lia|by eauto|pose proof (zlen_nonneg c); lia]. Qed.

Lemma readUint_ok s v x st :
  1 ≤ v < 2 ^ 64 → Str s (be_bytes v ++ x) st → room (Z.of_nat (be_len v)) st →
  ∃ s', readUint (Z.of_nat (be_len v)) s = (Ok v, s') ∧ Pos s' x (spend (Z.of_nat (be_len v)) st) ∧ byteval s' = byteval s.
Proof.
  intros Hv HS Hroom. rewrite <- zlen_be_bytes in Hroom |- *. destruct (readFull_ok s _ x st HS Hroom) as (s' & E & HP & Hb). exists s'.
  split; [|done]. unfold readUint. pose proof (be_len_le v 8) as H8. destruct (be_len_pos v) as (n & En & _); [lia|].
  assert (1 ≤ zlen (be_bytes v) ≤ 8) by (rewrite zlen_be_bytes; simpl in *; lia). rewrite (bool_decide_eq_false_2 (_ = 0)) by lia.
  destruct (be_bytes_nonzero v) as (y & l & Ey & Hy); [lia|]. case_bool_decide as H1.
  - rewrite bind_eq, (readByte_full s _ st HS), <- H1, E. destruct (zlen_1 _ H1) as [b Eb]. rewrite Eb. cbn [nth]. cbv [mret SM_ret].
    do 2 f_equal. rewrite <- be_decode_single, <- Eb. apply be_decode_bytes. lia.
  - rewrite (bool_decide_eq_false_2 (_ > 8)) by lia. rewrite bind_eq, E, Ey. unfold byte_at. cbn [nth].
    rewrite bool_decide_eq_false_2 by done. cbv [mret SM_ret]. rewrite <- Ey. by rewrite be_decode_bytes by lia.
Qed.

Lemma readUint_inv s r st n v s' :
  1 ≤ n ≤ 8 → Str s r st → readUint n s = (Ok v, s') →
  ∃ c rest, r = c ++ rest ∧ zlen c = n ∧ be_decode c = v ∧ (1 ≤ v → c = be_bytes v) ∧ in_u 64 v ∧ room n st
            ∧ Pos s' rest (spend n st) ∧ byteval s' = byteval s ∧ (1 < n → 128 ≤ v).
Proof.
  intros Hn HS. unfold readUint. rewrite (bool_decide_eq_false_2 (n = 0)), (bool_decide_eq_false_2 (n > 8)) by lia.
  assert (∀ c, zlen c = n → in_u 64 (be_decode c)) as Hu.
  { intros c Hc. pose proof (be_decode_bound c). rewrite Hc in *. split; [lia|]. eapply Z.lt_le_trans; [apply H|].
    change (2 ^ 64) with (256 ^ 8). apply Z.pow_le_mono_r; lia. }
  case_bool_decide as H1.
  - intros (b & s1 & E & [= <- <-])%sm_bind_inv. rewrite (readByte_full s r st HS) in E.
    destruct (readFull 1 s) as [[c|e|e] s2] eqn:E2; [|done..]. injection E as <- <-. subst n.
    apply (readFull_inv s r st) in E2 as (Hc & Hroom & rest & -> & HP & Hb); [|done|lia]. destruct (zlen_1 c Hc) as [b ->]. cbn [nth].
    specialize (Hu [b] Hc). rewrite be_decode_single in Hu. exists [b], rest. rewrite be_decode_single. split_and!; try done; try lia.
    intros Hv. pose proof (Z_of_byte_range b). by rewrite be_bytes_small, byte_of_Z_of_byte by lia.
  - intros (c & s1 & E & H)%sm_bind_inv. apply (readFull_inv s r st) in E as (Hc & Hroom & rest & -> & HP & Hb); [|done|lia].
    revert H. case_bool_decide as H0; [done|]. intros [= <- <-]. exists c, rest. destruct c as [|x c]; [rewrite zlen_nil in Hc; lia|].
    unfold byte_at in H0. cbn [nth] in H0. rewrite zlen_cons in Hc. split_and!; try done.
    + by rewrite zlen_cons.
    + intros _. by rewrite be_bytes_decode.
    + apply Hu. by rewrite zlen_cons.
    + intros _. rewrite be_decode_cons. pose proof (Z_of_byte_range x). pose proof (be_decode_bound c).
      assert (256 ^ 1 ≤ 256 ^ zlen c) by (apply Z.pow_le_mono_r; lia). nia.
Qed.

(** *** Tags *)

Definition tagbytes (k : Kind) (size : Z) (b : byte) : bytes := match k with KByte => [b] | _ => kind_tag k size end.
Definition tag_ok (k : Kind) (size : Z) (b : byte) : Prop :=
  match k with KByte => size = 0 ∧ Z_of_byte b < 128 | _ => 0 ≤ size < 2 ^ 64 end.

Lemma readKind_cases s :
  stream_readKind s =
    match readByte s with
    | (Ok b0, s) =>
        match classify (Z_of_byte b0) with
        | FSelf => (Ok (KByte, 0, None), set_byteval b0 (set_byteval Byte.x00 s))
        | FShort k size => (Ok (k, size, None), set_byteval Byte.x00 s)
        | FLong k slen => size_of k (readUint slen) (set_byteval Byte.x00 s)
        end
    | (Err e, s) => (Ok (KByte, 0, Some (if bool_decide (stack s = []) && (bool_decide (e = io_ErrUnexpectedEOF) || bool_decide (e = ErrValueTooLarge))
                                         then io_EOF else e)), s)
    | (Panic e, s) => (Panic e, s)
    end.
Proof.
  unfold stream_readKind, classify. destruct (readByte s) as [[b|e|e] s1]; [|done..]. by repeat case_bool_decide.
Qed.

Lemma Str_byteval b s r st : Str s r st → Str (set_byteval b s) r st.
Proof. by intros [? ? ? ? ? ?]. Qed.

Lemma readByte_ok s b rest st : Str s (b :: rest) st → room 1 st →
  ∃ s', readByte s = (Ok b, s') ∧ Pos s' rest (spend 1 st).
Proof.
  intros HS Hr. rewrite (readByte_full s _ st HS). destruct (readFull_ok s [b] rest st HS Hr) as (s' & E & HP & _).
  change (zlen [b]) with 1 in *. rewrite E. by exists s'.
Qed.

Lemma readByte_inv s r st b s' : Str s r st → readByte s = (Ok b, s') → room 1 st ∧ ∃ rest, r = b :: rest ∧ Pos s' rest (spend 1 st).
Proof.
  intros HS. rewrite (readByte_full s _ st HS). destruct (readFull 1 s) as [[c|e|e] s1] eqn:E; [|done..]. intros [= <- <-].
  apply (readFull_inv s r st) in E as (Hc & Hroom & rest & -> & HP & _); [|done|lia]. destruct (zlen_1 c Hc) as [x ->]. split; [done|]. by exists rest.
Qed.

Lemma readKind_ok s k size b x st :
  Str s (tagbytes k size b ++ x) st → tag_ok k size b → room (zlen (tagbytes k size b)) st →
  ∃ s', stream_readKind s = (Ok (k, size, None), s') ∧ Str s' x (spend (zlen (tagbytes k size b)) st) ∧ (k = KByte → byteval s' = b).
Proof.
  intros HS Hok Hroom. rewrite readKind_cases. destruct (decide (k = KByte)) as [->|Hk].
  { destruct Hok as [-> Hb]. cbn [tagbytes app] in *. destruct (readByte_ok s b x st HS Hroom) as (s1 & -> & [HP _]).
    rewrite (proj2 (classify_self b)) by done. eexists. split; [done|]. split; [by apply Str_byteval, Str_byteval|done]. }
  assert (tagbytes k size b = kind_tag k size) as Et by (by destruct k). assert (0 ≤ size < 2 ^ 64) as Hs by (by destruct k).
  rewrite Et in *. clear Et Hok. rewrite zlen_kind_tag in * by done. destruct (decide (size < 56)).
  - destruct (kind_tag_short k size) as (b' & Eb & Cb); [done|lia|]. rewrite Eb in HS. rewrite bool_decide_eq_true_2 in * by done.
    destruct (readByte_ok s b' x st HS Hroom) as (s1 & -> & [HP _]). rewrite Cb. eexists. split; [done|]. split; [by apply Str_byteval|done].
  - destruct (kind_tag_long k size) as (b' & Eb & Cb); [done|lia|]. rewrite Eb in HS. rewrite bool_decide_eq_false_2 in * by lia.
    assert (room 1 st) as Hroom1 by (destruct st; simpl in *; lia).
    destruct (readByte_ok s b' _ st HS Hroom1) as (s1 & -> & [HP _]). rewrite Cb. unfold size_of.
    destruct (readUint_ok (set_byteval Byte.x00 s1) size x (spend 1 st)) as (s2 & -> & [HP2 _] & _); [lia|by apply Str_byteval| |].
    { apply room_spend; [by destruct HS|lia..|done]. }
    rewrite bool_decide_eq_false_2 by done. eexists. split; [done|]. rewrite spend_spend in HP2. split; [done|done].
Qed.

Lemma readKind_stream_inv s r st k size s' :
  Str s r st → stream_readKind s = (Ok (k, size, None), s') →
  ∃ x, r = tagbytes k size (byteval s') ++ x ∧ tag_ok k size (byteval s') ∧ Str s' x (spend (zlen (tagbytes k size (byteval s'))) st).
Proof.
  intros HS. rewrite readKind_cases. destruct (readByte s) as [[b|e|e] s1] eqn:E; [|done..].
  apply (readByte_inv s r st) in E as (Hroom & rest & -> & [HP _]); [|done]. destruct (classify (Z_of_byte b)) as [|k' n|k' n] eqn:Cb.
  - intros [= <- <- <-]. exists rest. cbn [set_byteval byteval tagbytes tag_ok]. apply classify_self in Cb.
    split_and!; [done..|]. by apply Str_byteval, Str_byteval.
  - intros [= -> -> <-]. apply classify_short in Cb as (Hk & Hs & Et). exists rest.
    assert (∀ b0, tagbytes k size b0 = [b]) as Eb by (by destruct k). rewrite Eb. split_and!; [done| |by apply Str_byteval].
    destruct k; [done|cbn [tag_ok]; lia..].
  - apply classify_long in Cb as (Hk & Hn & Et). unfold size_of. destruct (readUint n _) as [[v|e|e] s2] eqn:Eu; [|done..].
    case_bool_decide as H56; [done|]. intros [= -> -> <-].
    apply (readUint_inv _ rest (spend 1 st)) in Eu as (c & x & -> & Hc & _ & Hbe & Hu & _ & [HP2 _] & Hb & _); [|done|by apply Str_byteval].
    unfold in_u in Hu. specialize (Hbe ltac:(lia)). subst c. rewrite zlen_be_bytes in Hc. specialize (Et size ltac:(lia) Hc).
    assert (∀ b0, tagbytes k size b0 = b :: be_bytes size) as Eb by (by destruct k). exists x. rewrite Eb. split_and!; [done| |].
    + destruct k; [done|cbn [tag_ok]; lia..].
    + rewrite zlen_cons, zlen_be_bytes, Hc, <- spend_spend. done.
Qed.

(** *** The tag ahead *)

(** A stream whose tag has been read: [r] is the input from the tag on, [st] the
    limits before it. *)
Definition Cached (s : Stream) (k : Kind) (size : Z) (r : bytes) (st : list Z) : Prop :=
  s_kind s = Some k ∧ kinderr s = None ∧ s_size s = size ∧ tag_ok k size (byteval s)
  ∧ ∃ x, r = tagbytes k size (byteval s) ++ x ∧ Str s x (spend (zlen (tagbytes k size (byteval s))) st) ∧ size ≤ zlen x.

(** The stream is before a value, whether its tag has been read ahead or not. *)
Definition View (s : Stream) (r : bytes) (st : list Z) : Prop :=
  (Pos s r st ∨ ∃ k size, Cached s k size r st) ∧ Forall (in_u 64) st ∧ zlen r < 2 ^ 63.

Lemma Pos_View s r st : Pos s r st → View s r st.
Proof. intros [HS Hk]. split; [left; by split|]. by destruct HS. Qed.

Lemma tag_unique k size b x k' size' b' x' :
  tagbytes k size b ++ x = tagbytes k' size' b' ++ x' → tag_ok k size b → tag_ok k' size' b' → zlen (tagbytes k size b ++ x) < 2 ^ 63 →
  k = k' ∧ size = size' ∧ x = x' ∧ (k = KByte → b = b').
Proof.
  intros E Ht Ht' Hz. set (s := Reset (tagbytes k size b ++ x) 0).
  assert (Str s (tagbytes k size b ++ x) []) as HS by (constructor; cbn; done).
  destruct (readKind_ok s k size b x [] HS Ht I) as (s1 & E1 & [R1 _ _ _ _ _] & B1). rewrite E in HS.
  destruct (readKind_ok s k' size' b' x' [] HS Ht' I) as (s2 & E2 & [R2 _ _ _ _ _] & B2). rewrite E1 in E2. injection E2 as -> -> ->.
  split_and!; [done..|congruence|]. intros Hk. rewrite <- B1, <- B2 by done. done.
Qed.

Lemma kind_inv s r st k size s1 : View s r st → stream_Kind s = (Ok (k, size), s1) → Cached s1 k size r st.
Proof.
  intros [[[HS Hk]|(k' & size' & Hk & He & Hs & Hrest)] _]; unfold stream_Kind; rewrite Hk; cycle 1.
  { rewrite He. intros [= -> <- <-]. rewrite Hs. done. }
  case_bool_decide; [done|]. destruct (stream_readKind s) as [[[[k' size'] err]|e|e] s2] eqn:E; [|done..].
  destruct err as [e|]; [done|]. destruct (match listLimit s with Some l => _ | None => false end); [done|].
  destruct (limited s2 && _) eqn:El; [done|]. intros [= -> -> <-].
  apply (readKind_stream_inv s r st) in E as (x & -> & Ht & HS2); [|done].
  split_and!; [done..|]. cbn [set_ahead byteval]. exists x. split; [done|]. destruct HS2 as [? ? Hl2 Hr2 ? ?].
  rewrite Hl2, Hr2 in El. cbn [andb] in El. apply bool_decide_eq_false in El. split; [by constructor|lia].
Qed.

Lemma kind_ok s k size b x st :
  View s (tagbytes k size b ++ x) st → tag_ok k size b → size ≤ zlen x → room (zlen (tagbytes k size b) + size) st →
  ∃ s1, stream_Kind s = (Ok (k, size), s1) ∧ Cached s1 k size (tagbytes k size b ++ x) st ∧ (k = KByte → byteval s1 = b).
Proof.
  intros [[[HS Hk]|(k' & size' & Hk & He & Hs & Ht' & x' & Ex & HS & Hsz)] [Hlim Hz]] Ht Hx Hroom; unfold stream_Kind; rewrite Hk; cycle 1.
  { rewrite He, Hs. destruct (tag_unique _ _ _ _ _ _ _ _ Ex Ht Ht' Hz) as (<- & <- & <- & Hb). exists s.
    split; [done|]. split; [|by intros ->; rewrite Hb]. split_and!; [done..|]. by exists x. }
  assert (1 ≤ zlen (tagbytes k size b)) as H1.
  { destruct k; [done|..]; cbn [tagbytes]; rewrite zlen_kind_tag by done; case_bool_decide; lia. }
  assert (0 ≤ size) as H0 by (destruct k; cbn [tag_ok] in Ht; lia).
  assert (room (zlen (tagbytes k size b)) st) as Hroom1 by (destruct st; simpl in *; lia).
  destruct (readKind_ok s k size b x st HS Ht Hroom1) as (s1 & -> & HS1 & Hb).
  unfold listLimit. rewrite (str_stack _ _ _ HS). rewrite bool_decide_eq_false_2; cycle 1.
  { destruct st as [|l st]; [done|]. cbn [head room] in *. intros [= ->]. lia. }
  assert (match head st with Some l => bool_decide (size > l) | None => false end = false) as ->.
  { destruct st as [|l st]; [done|]. cbn [head room] in *. apply bool_decide_eq_false_2. lia. }
  rewrite (str_remaining _ _ _ HS1). rewrite (bool_decide_eq_false_2 (size > zlen x)) by lia. rewrite andb_false_r.
  eexists. split; [done|]. split; [|done]. split_and!; [done..| |].
  - cbn [set_ahead byteval]. destruct k; [|done..]. by rewrite Hb.
  - cbn [set_ahead byteval]. exists x. destruct HS1. assert (tagbytes k size (byteval s1) = tagbytes k size b) as ->.
    { destruct k; [|done..]. by rewrite Hb. }
    split; [done|]. split; [by constructor|done].
Qed.

(** *** What a method reads *)

(** [m] reads [b] and gives [a], wherever [b] is; [m] reads only what [φ] allows for
    its result. *)
Definition reads_as {A} (m : SM A) (b : bytes) (a : A) : Prop :=
  ∀ s rest st, View s (b ++ rest) st → room (zlen b) st → ∃ s', m s = (Ok a, s') ∧ Pos s' rest (spend (zlen b) st).
Definition reads_only {A} (m : SM A) (φ : A → bytes → Prop) : Prop :=
  ∀ s r st a s', View s r st → m s = (Ok a, s') → ∃ b rest, r = b ++ rest ∧ φ a b ∧ Pos s' rest (spend (zlen b) st).

Lemma reads_as_map {A B} (m : SM A) (f : A → B) b a : reads_as m b a → reads_as (x ← m; mret (f x)) b (f a).
Proof. intros H s rest st HV Hr. destruct (H s rest st HV Hr) as (s' & E & HP). exists s'. by rewrite bind_eq, E. Qed.
Lemma reads_as_wrapped {A} (m : SM A) b a : reads_as m b a → reads_as (wrapped m) b a.
Proof. intros H s rest st HV Hr. destruct (H s rest st HV Hr) as (s' & E & HP). exists s'. unfold wrapped. by rewrite E. Qed.
Lemma reads_only_map {A B} (m : SM A) (f : A → B) φ ψ :
  reads_only m φ → (∀ a b, φ a b → ψ (f a) b) → reads_only (x ← m; mret (f x)) ψ.
Proof.
  intros H Hf s r st a s' HV (x & s1 & E & [= <- <-])%sm_bind_inv. destruct (H s r st x s1 HV E) as (b & rest & Er & Hx & HP). eauto 10.
Qed.
Lemma wrapped_inv {A} (m : SM A) s a s' : wrapped m s = (Ok a, s') → m s = (Ok a, s').
Proof. unfold wrapped. by destruct (m s) as [[?|?|?] ?]. Qed.
Lemma reads_only_wrapped {A} (m : SM A) φ : reads_only m φ → reads_only (wrapped m) φ.
Proof. intros H s r st a s' HV E. by apply (H s r st), wrapped_inv. Qed.

(** After the tag: the content of a string or list, and the position behind it. *)
Lemma cached_readFull s k size r st c s' :
  Cached s k size r st → k ≠ KByte → readFull size s = (Ok c, s') →
  zlen c = size ∧ ∃ rest, r = encoded k c ++ rest ∧ Pos s' rest (spend (zlen (encoded k c)) st).
Proof.
  intros (Hk & He & Hs & Ht & x & -> & HS & Hx) Hne E.
  assert (0 ≤ size) as H0 by (destruct k; cbn [tag_ok] in Ht; lia).
  pose proof (readFull_inv s x _ size c s' HS H0 E) as (Hc & _ & rest & -> & HP & _). split; [done|]. exists rest.
  assert (tagbytes k size (byteval s) = kind_tag k size) as Et by (by destruct k). rewrite Et in *. unfold encoded. rewrite Hc, app_assoc.
  split; [done|]. rewrite spend_spend in HP. by rewrite zlen_app, Hc.
Qed.

Lemma cached_readFull_ok s k c rest st :
  Cached s k (zlen c) (encoded k c ++ rest) st → k ≠ KByte → room (zlen (encoded k c)) st → Forall (in_u 64) st →
  ∃ s', readFull (zlen c) s = (Ok c, s') ∧ Pos s' rest (spend (zlen (encoded k c)) st).
Proof.
  intros (Hk & He & Hs & Ht & x & Ex & HS & Hx) Hne Hroom Hlim.
  assert (tagbytes k (zlen c) (byteval s) = kind_tag k (zlen c)) as Et by (by destruct k). rewrite Et in *. unfold encoded in *.
  rewrite <- app_assoc in Ex. apply (inj (app _)) in Ex. subst x. rewrite zlen_app in Hroom |- *.
  pose proof (zlen_nonneg c). pose proof (zlen_nonneg (kind_tag k (zlen c))).
  destruct (readFull_ok s c rest _ HS) as (s' & E & HP & _); [by apply room_spend|]. exists s'. by rewrite spend_spend in HP.
Qed.

(** Single bytes *)
Lemma cached_byte s size r st :
  Cached s KByte size r st →
  ∃ rest, r = encoded KByte [byteval s] ++ rest ∧ fits_kind KByte [byteval s]
    ∧ Pos (set_kind None s) rest (spend (zlen (encoded KByte [byteval s])) st).
Proof.
  intros (Hk & He & Hs & [-> Hb] & x & -> & [? ? ? ? ? ?] & Hx). exists x. split_and!; [done| |by constructor].
  cbn [fits_kind small_byte]. by apply bool_decide_eq_true_2.
Qed.

Definition ksize (k : Kind) (c : bytes) : Z := match k with KByte => 0 | _ => zlen c end.

Lemma kind_encoded s k c rest st :
  View s (encoded k c ++ rest) st → fits_kind k c → room (zlen (encoded k c)) st →
  ∃ s1, stream_Kind s = (Ok (k, ksize k c), s1) ∧ Cached s1 k (ksize k c) (encoded k c ++ rest) st ∧ (k = KByte → c = [byteval s1]).
Proof.
  intros HV Hf Hr. pose proof (zlen_nonneg c). pose proof (zlen_nonneg rest). pose proof HV as [_ [Hlim Hz]].
  destruct (decide (k = KByte)) as [->|Hk].
  - destruct c as [|b [|]]; try done. cbn [fits_kind small_byte] in Hf. apply bool_decide_eq_true in Hf.
    destruct (kind_ok s KByte 0 b rest st) as (s1 & E & HC & Hb); [done|done|lia|done|]. exists s1. rewrite Hb by done. done.
  - assert (tagbytes k (zlen c) Byte.x00 = kind_tag k (zlen c)) as Et by (by destruct k).
    assert (ksize k c = zlen c) as Ek by (by destruct k). unfold encoded in *. rewrite <- app_assoc in *. rewrite !zlen_app in *.
    pose proof (zlen_nonneg (kind_tag k (zlen c))).
    destruct (kind_ok s k (zlen c) Byte.x00 (c ++ rest) st) as (s1 & E & HC & _).
    + by rewrite Et.
    + destruct k; [done|cbn [tag_ok]; lia..].
    + rewrite zlen_app. lia.
    + by rewrite Et.
    + exists s1. rewrite Ek. rewrite Et in HC. done.
Qed.

(** A check that a string of one byte does not hold a byte below 128. *)
Lemma canon_check c : bool_decide (zlen c = 1) && bool_decide (byte_at c 0 < 128) = small_byte c.
Proof.
  rewrite <- small_byte_check. f_equal. apply bool_decide_ext. lia.
Qed.

(** *** Strings *)

Lemma Bytes_ok c : reads_as stream_Bytes (rlp_string c) c.
Proof.
  intros s rest st HV Hr. destruct (rlp_string_encoded c) as [E Hf]. rewrite E in *.
  destruct (kind_encoded s _ c rest st HV Hf Hr) as (s1 & Ek & HC & Hb). unfold stream_Bytes. rewrite bind_eq, Ek.
  unfold string_kind in *. destruct (small_byte c) eqn:Hs; cbn [ksize] in *.
  - pose proof (cached_byte _ _ _ _ HC) as (rest' & Er & _ & HP). rewrite (Hb eq_refl) in *. apply (inj (app _)) in Er as <-. by eexists.
  - destruct HV as [_ [Hlim _]]. destruct (cached_readFull_ok s1 KString c rest st HC) as (s' & Ef & HP); [done..|].
    rewrite bind_eq, Ef, canon_check, Hs. by exists s'.
Qed.

Lemma Bytes_only : reads_only stream_Bytes (fun c b => b = rlp_string c).
Proof.
  intros s r st c s' HV ([k size] & s1 & Ek & E)%sm_bind_inv. apply (kind_inv s r st) in Ek as HC; [|done].
  assert (∀ c, fits_kind (string_kind c) c ∧ rlp_string c = encoded (string_kind c) c) as Hs by (intros; by destruct (rlp_string_encoded c0)).
  destruct k; [| |done].
  - injection E as <- <-. destruct (cached_byte _ _ _ _ HC) as (rest & -> & Hf & HP). exists (encoded KByte [byteval s1]), rest.
    split_and!; [done| |done]. destruct (Hs [byteval s1]) as [_ ->]. by rewrite <- (fits_string_kind KByte).
  - apply sm_bind_inv in E as (c' & s2 & Ef & E). destruct (cached_readFull _ _ _ _ _ _ _ HC ltac:(done) Ef) as (<- & rest & -> & HP).
    rewrite canon_check in E. destruct (small_byte c') eqn:Es; [done|]. injection E as -> ->. exists (encoded KString c), rest.
    split_and!; [done| |done]. destruct (Hs c) as [_ ->]. by rewrite <- (fits_string_kind KString).
Qed.

Lemma Raw_ok k c : fits_kind k c → zlen c < 2 ^ 63 → reads_as Raw (encoded k c) (encoded k c).
Proof.
  intros Hf Hz s rest st HV Hr. destruct (kind_encoded s _ c rest st HV Hf Hr) as (s1 & Ek & HC & Hb). unfold Raw. rewrite bind_eq, Ek.
  pose proof (zlen_nonneg c). destruct HV as [_ [Hlim _]]. destruct (decide (k = KByte)) as [->|Hk].
  - pose proof (cached_byte _ _ _ _ HC) as (rest' & Er & _ & HP). rewrite (Hb eq_refl) in *. apply (inj (app _)) in Er as <-. by eexists.
  - assert (ksize k c = zlen c) as Es by (by destruct k). rewrite Es in *.
    destruct (cached_readFull_ok s1 k c rest st HC) as (s' & Ef & HP); [done..|]. exists s'.
    destruct k; [done|..]; rewrite bind_eq, Ef; (split; [|done]); cbv [mret SM_ret]; rewrite puthead_ok by lia; done.
Qed.

Lemma Raw_only : reads_only Raw (fun c b => b = c ∧ ∃ k c', c = encoded k c').
Proof.
  intros s r st c s' HV ([k size] & s1 & Ek & E)%sm_bind_inv. apply (kind_inv s r st) in Ek as HC; [|done].
  destruct (decide (k = KByte)) as [->|Hk].
  - injection E as <- <-. destruct (cached_byte _ _ _ _ HC) as (rest & -> & Hf & HP). exists (encoded KByte [byteval s1]), rest.
    split_and!; [done..| |done]. by exists KByte, [byteval s1].
  - destruct k; [done|..]; apply sm_bind_inv in E as (c' & s2 & Ef & [= <- <-]);
      destruct (cached_readFull _ _ _ _ _ _ _ HC Hk Ef) as (Hc & rest & -> & HP); destruct HC as (_ & _ & _ & Ht & _); cbn [tag_ok] in Ht;
      rewrite puthead_ok by lia; eexists _, rest; split; [done| |done|..]; (split; [|done]); unfold encoded, kind_tag; rewrite Hc;
      (split; [done|]); [exists KString, c'|exists KList, c']; unfold encoded, kind_tag; by rewrite Hc.
Qed.

(** *** Integers *)

Lemma string_kind_int v : 0 ≤ v → string_kind (be_bytes v) = if bool_decide (1 ≤ v < 128) then KByte else KString.
Proof. intros. unfold string_kind. by rewrite small_byte_be_bytes. Qed.

Lemma cached_uint_ok s v rest st :
  0 ≤ v < 2 ^ 64 → small_byte (be_bytes v) = false → Cached s KString (zlen (be_bytes v)) (encoded KString (be_bytes v) ++ rest) st →
  room (zlen (encoded KString (be_bytes v))) st → Forall (in_u 64) st →
  ∃ s', checked_uint (zlen (be_bytes v)) s = (Ok v, s') ∧ Pos s' rest (spend (zlen (encoded KString (be_bytes v))) st).
Proof.
  intros Hv Hs HC Hr Hlim. unfold checked_uint. rewrite small_byte_be_bytes in Hs by lia. apply bool_decide_eq_false in Hs.
  destruct HC as (Hk & He & Hsz & Ht & x & Ex & HS & Hx). cbn [tagbytes] in *. unfold encoded in *. rewrite <- app_assoc in Ex.
  apply (inj (app _)) in Ex as <-. rewrite zlen_app in *. destruct (decide (v = 0)) as [->|H0].
  - cbn [be_bytes] in *. unfold readUint. cbn [bool_decide]. change (zlen (be_bytes 0)) with 0 in *. rewrite (bool_decide_eq_true_2 (0 = 0)) by done.
    cbn. eexists. split; [done|]. rewrite Z.add_0_r. split; [|done]. by destruct HS.
  - rewrite zlen_be_bytes in *. destruct (readUint_ok s v rest _ ltac:(lia) HS) as (s' & -> & HP & _).
    { apply room_spend; [done|apply zlen_nonneg|lia|done]. }
    rewrite (bool_decide_eq_false_2 (v < 128)), andb_false_r by lia. exists s'. by rewrite spend_spend in HP.
Qed.

Lemma uint_ok bits v :
  uint_bits bits = true → 0 ≤ v < 2 ^ bits → reads_as (stream_uint bits) (rlp_string (be_bytes v)) v.
Proof.
  intros Hb Hv s rest st HV Hr. pose proof (uint_bits_range bits v Hb Hv) as Hu. unfold in_u in Hu.
  destruct (rlp_string_encoded (be_bytes v)) as [E Hf]. rewrite E in *.
  destruct (kind_encoded s _ _ rest st HV Hf Hr) as (s1 & Ek & HC & Hbv). unfold stream_uint. rewrite bind_eq, Ek.
  destruct HV as [_ [Hlim _]]. unfold string_kind in *. destruct (small_byte (be_bytes v)) eqn:Hs; cbn [ksize] in *.
  - pose proof (cached_byte _ _ _ _ HC) as (rest' & Er & _ & HP). rewrite small_byte_be_bytes in Hs by lia. apply bool_decide_eq_true in Hs.
    rewrite (Hbv eq_refl) in *. apply (inj (app _)) in Er as <-. specialize (Hbv eq_refl). rewrite be_bytes_small in Hbv by lia. injection Hbv as Hbv.
    rewrite bind_eq. cbv [gets]. rewrite <- Hbv, Z_of_byte_of_Z, Z.mod_small by lia. rewrite bool_decide_eq_false_2 by lia.
    eexists. rewrite Hbv. by split.
  - assert (zlen (be_bytes v) ≤ bits `div` 8) as Hle.
    { rewrite zlen_be_bytes. unfold uint_bits in Hb. rewrite !orb_true_iff, !bool_decide_eq_true in Hb.
      assert (∀ n, v < 256 ^ Z.of_nat n → Z.of_nat (be_len v) ≤ Z.of_nat n) as Hn by (intros n Hn; apply be_len_le in Hn; lia).
      destruct_or! Hb; subst bits; [apply (Hn 1%nat)|apply (Hn 2%nat)|apply (Hn 4%nat)|apply (Hn 8%nat)]; simpl; lia. }
    rewrite bool_decide_eq_false_2 by lia. by apply cached_uint_ok.
Qed.

Lemma uint_only bits :
  uint_bits bits = true → reads_only (stream_uint bits) (fun v b => 0 ≤ v < 2 ^ bits ∧ b = rlp_string (be_bytes v)).
Proof.
  intros Hbits s r st v s' HV ([k size] & s1 & Ek & E)%sm_bind_inv. apply (kind_inv s r st) in Ek as HC; [|done].
  assert (8 ≤ bits ∧ bits = 8 * (bits `div` 8) ∧ bits `div` 8 ≤ 8) as (H8 & Hdiv & Hmax).
  { unfold uint_bits in Hbits. rewrite !orb_true_iff, !bool_decide_eq_true in Hbits. destruct_or! Hbits; subst bits; split_and!; (done || lia). }
  assert (2 ^ 8 ≤ 2 ^ bits) by (apply Z.pow_le_mono_r; lia).
  destruct k; [| |done].
  - rewrite bind_eq in E. cbv [gets] in E. case_bool_decide as H0; [done|]. injection E as <- <-.
    destruct (cached_byte _ _ _ _ HC) as (rest & -> & Hf & HP). exists (encoded KByte [byteval s1]), rest.
    pose proof (Z_of_byte_range (byteval s1)). split_and!; [done|lia|lia| |done]. rewrite be_bytes_small, byte_of_Z_of_byte by lia.
    unfold rlp_string. by rewrite Hf.
  - revert E. case_bool_decide as Hle; [done|]. unfold checked_uint. destruct (readUint size s1) as [[w|e|e] s2] eqn:Eu; [|done..].
    destruct (bool_decide (size > 0) && bool_decide (w < 128)) eqn:Ec; [done|]. intros [= -> ->].
    destruct HC as (Hk & He & Hs & Ht & x & -> & HS & Hx). cbn [tag_ok tagbytes] in *. destruct (decide (size = 0)) as [->|H0].
    + unfold readUint in Eu. rewrite bool_decide_eq_true_2 in Eu by done. injection Eu as <- <-. eexists _, x. split_and!; [done|lia|lia|done|].
      split; [|done]. by destruct HS.
    + pose proof (readUint_inv s1 x _ size v s' ltac:(lia) HS Eu) as (c & rest & -> & Hc & Hw & Hbe & Hu & _ & HP & _ & H128).
      rewrite (bool_decide_eq_true_2 (size > 0)) in Ec by lia. cbn [andb] in Ec. apply bool_decide_eq_false in Ec. rewrite (Hbe ltac:(lia)) in *.
      exists (rlp_string (be_bytes v)), rest.
      assert (rlp_string (be_bytes v) = kind_tag KString size ++ be_bytes v) as Er.
      { unfold rlp_string. rewrite small_byte_be_bytes, bool_decide_eq_false_2 by lia. by rewrite <- Hc. }
      rewrite Er, <- app_assoc. split_and!; [done|lia| |done|].
      * pose proof (be_decode_bound (be_bytes v)) as Hbd. rewrite be_decode_bytes, Hc in Hbd by lia. eapply Z.lt_le_trans; [apply Hbd|].
        change 256 with (2 ^ 8). rewrite <- Z.pow_mul_r by lia. apply Z.pow_le_mono_r; lia.
      * rewrite spend_spend in HP. by rewrite zlen_app, Hc.
Qed.

Lemma bigint_buffer_ok s c rest st :
  Cached s (string_kind c) (ksize (string_kind c) c) (rlp_string c ++ rest) st → (string_kind c = KByte → c = [byteval s]) →
  room (zlen (rlp_string c)) st → Forall (in_u 64) st →
  ∃ s', bigint_buffer (string_kind c) (ksize (string_kind c) c) s = (Ok c, s') ∧ Pos s' rest (spend (zlen (rlp_string c)) st).
Proof.
  intros HC Hb Hr Hlim. destruct (rlp_string_encoded c) as [E Hf]. rewrite E in *. unfold string_kind in *.
  destruct (small_byte c) eqn:Hs; cbn [ksize bigint_buffer] in *.
  - pose proof (cached_byte _ _ _ _ HC) as (rest' & Er & _ & HP). rewrite (Hb eq_refl) in *. apply (inj (app _)) in Er as <-. by eexists.
  - destruct (cached_readFull_ok s KString c rest st HC) as (s' & Ef & HP); [done..|]. case_bool_decide as H0.
    + destruct c; [|rewrite zlen_cons in H0; pose proof (zlen_nonneg c); lia].
      destruct HC as (Hk & He & Hsz & Ht & x & Ex & HS & Hx). cbn [tagbytes] in *. unfold encoded in *.
      rewrite <- app_assoc in Ex. apply (inj (app _)) in Ex as <-. rewrite app_nil_r in *. eexists. split; [done|]. split; [|done]. by destruct HS.
    + case_bool_decide; [|by exists s']. rewrite bind_eq, Ef, canon_check, Hs. by exists s'.
Qed.

Lemma bigint_buffer_inv s k size r st c s' :
  Cached s k size r st → bigint_buffer k size s = (Ok c, s') → ∃ rest, r = rlp_string c ++ rest ∧ Pos s' rest (spend (zlen (rlp_string c)) st).
Proof.
  intros HC. assert (∀ c k, k ≠ KList → fits_kind k c → rlp_string c = encoded k c) as Hs.
  { intros c0 k0 Hk Hf. destruct (rlp_string_encoded c0) as [-> _]. by rewrite <- (fits_string_kind k0). }
  destruct k; cbn [bigint_buffer]; [| |done].
  - intros [= <- <-]. destruct (cached_byte _ _ _ _ HC) as (rest & -> & Hf & HP). exists rest. by rewrite (Hs _ KByte).
  - case_bool_decide as H0.
    + intros [= <- <-]. destruct HC as (Hk & He & Hsz & Ht & x & -> & HS & Hx). subst size. rewrite H0 in *. exists x.
      split; [done|]. split; [|done]. by destruct HS.
    + assert (∀ c s', readFull size s = (Ok c, s') → small_byte c = false → ∃ rest, r = rlp_string c ++ rest ∧ Pos s' rest (spend (zlen (rlp_string c)) st)) as Hd.
      { intros c0 s0 Ef Hc. destruct (cached_readFull _ _ _ _ _ _ _ HC ltac:(done) Ef) as (_ & rest & -> & HP). exists rest. by rewrite (Hs _ KString). }
      case_bool_decide as H32.
      * intros (b & s1 & Ef & E)%sm_bind_inv. pose proof (cached_readFull _ _ _ _ _ _ _ HC ltac:(done) Ef) as (<- & _).
        rewrite canon_check in E. destruct (small_byte b) eqn:Eb; [done|]. injection E as -> ->. by apply Hd.
      * intros Ef. apply Hd; [done|]. pose proof (cached_readFull _ _ _ _ _ _ _ HC ltac:(done) Ef) as (<- & _).
        destruct c as [|x [|]]; try done. rewrite zlen_cons, zlen_nil in H32. lia.
Qed.

Lemma BigInt_ok v : 0 ≤ v → reads_as stream_BigInt (rlp_string (be_bytes v)) v.
Proof.
  intros Hv s rest st HV Hr. destruct (rlp_string_encoded (be_bytes v)) as [E Hf]. rewrite E in HV, Hr.
  destruct (kind_encoded s _ _ rest st HV Hf Hr) as (s1 & Ek & HC & Hb). unfold stream_BigInt. rewrite bind_eq, Ek.
  destruct HV as [_ [Hlim _]]. rewrite <- E in Hr, HC. destruct (bigint_buffer_ok s1 _ rest st HC Hb Hr Hlim) as (s' & Eb & HP).
  rewrite bind_eq, Eb. exists s'. split; [|done]. rewrite be_decode_bytes by done.
  destruct (decide (v = 0)) as [->|H0]; [done|]. destruct (be_bytes_nonzero v) as (x & l & -> & Hx); [lia|].
  unfold byte_at. cbn [nth]. by rewrite (bool_decide_eq_false_2 (Z_of_byte x = 0)), andb_false_r.
Qed.

Lemma BigInt_only : reads_only stream_BigInt (fun v b => 0 ≤ v ∧ b = rlp_string (be_bytes v)).
Proof.
  intros s r st v s' HV ([k size] & s1 & Ek & (c & s2 & Eb & E)%sm_bind_inv)%sm_bind_inv. apply (kind_inv s r st) in Ek as HC; [|done].
  destruct (bigint_buffer_inv _ _ _ _ _ _ _ HC Eb) as (rest & -> & HP).
  destruct (bool_decide (zlen c > 0) && bool_decide (byte_at c 0 = 0)) eqn:Ec; [done|]. injection E as <- <-.
  exists (rlp_string c), rest. pose proof (be_decode_bound c). split_and!; [done|lia| |done]. f_equal.
  destruct c as [|x c]; [done|]. symmetry. apply be_bytes_decode. rewrite zlen_cons, bool_decide_eq_true_2 in Ec by (pose proof (zlen_nonneg c); lia).
  cbn [andb] in Ec. by apply bool_decide_eq_false in Ec.
Qed.

Lemma Bool_ok (b : bool) : reads_as stream_Bool (rlp_string (be_bytes (if b then 1 else 0))) b.
Proof.
  intros s rest st HV Hr. destruct (uint_ok 8 (if b then 1 else 0) eq_refl ltac:(destruct b; lia) s rest st HV Hr) as (s' & E & HP).
  exists s'. split; [|done]. unfold stream_Bool. rewrite bind_eq, E. by destruct b.
Qed.

Lemma Bool_only : reads_only stream_Bool (fun b bs => bs = rlp_string (be_bytes (if b then 1 else 0))).
Proof.
  intros s r st b s' HV (v & s1 & E & H)%sm_bind_inv. destruct (uint_only 8 eq_refl s r st v s1 HV E) as (bs & rest & -> & [Hv ->] & HP).
  revert H. case_bool_decide as H0; [intros [= <- <-]|case_bool_decide as H1; [intros [= <- <-]|done]]; subst v; eauto 10.
Qed.

Lemma ByteArray_ok c : reads_as (decodeByteArray (length c)) (rlp_string c) (VByteArray c).
Proof.
  intros s rest st HV Hr. destruct (rlp_string_encoded c) as [E Hf]. rewrite E in *.
  destruct (kind_encoded s _ c rest st HV Hf Hr) as (s1 & Ek & HC & Hb). unfold decodeByteArray. rewrite bind_eq, Ek.
  unfold string_kind in *. destruct (small_byte c) eqn:Hs; cbn [ksize] in *.
  - pose proof (cached_byte _ _ _ _ HC) as (rest' & Er & _ & HP). specialize (Hb eq_refl). rewrite Hb in *. apply (inj (app _)) in Er as <-. by eexists.
  - destruct HV as [_ [Hlim _]]. destruct (cached_readFull_ok s1 KString c rest st HC) as (s' & Ef & HP); [done..|].
    change (Z.of_nat (length c)) with (zlen c). rewrite !bool_decide_eq_false_2 by lia. rewrite bind_eq, Ef, canon_check, Hs. by exists s'.
Qed.

Lemma ByteArray_only n : reads_only (decodeByteArray n) (fun v b => ∃ c, v = VByteArray c ∧ length c = n ∧ b = rlp_string c).
Proof.
  intros s r st v s' HV ([k size] & s1 & Ek & E)%sm_bind_inv. apply (kind_inv s r st) in Ek as HC; [|done].
  assert (∀ c k, k ≠ KList → fits_kind k c → rlp_string c = encoded k c) as Hs.
  { intros c0 k0 Hk Hf. destruct (rlp_string_encoded c0) as [-> _]. by rewrite <- (fits_string_kind k0). }
  destruct k; [| |done].
  - revert E. case_bool_decide; [done|]. case_bool_decide; [done|]. intros [= <- <-].
    destruct (cached_byte _ _ _ _ HC) as (rest & -> & Hf & HP). exists (encoded KByte [byteval s1]), rest.
    split_and!; [done| |done]. exists [byteval s1]. split_and!; [done|simpl; lia|by rewrite (Hs _ KByte)].
  - revert E. case_bool_decide as H1; [done|]. case_bool_decide as H2; [done|]. assert (Z.of_nat n = size) as Hn by lia. rewrite Hn in *.
    intros (c & s2 & Ef & E)%sm_bind_inv. destruct (cached_readFull _ _ _ _ _ _ _ HC ltac:(done) Ef) as (<- & rest & -> & HP).
    rewrite canon_check in E. destruct (small_byte c) eqn:Es; [done|]. injection E as <- <-. exists (encoded KString c), rest.
    split_and!; [done| |done]. exists c. split_and!; [done|unfold zlen in Hn; lia|by rewrite (Hs _ KString)].
Qed.

(** *** Lists *)

Lemma List_ok s c rest st :
  View s (rlp_list c ++ rest) st → room (zlen (rlp_list c)) st →
  ∃ s', stream_List s = (Ok (zlen c), s') ∧ Pos s' (c ++ rest) (zlen c :: spend (zlen (rlp_list c)) st).
Proof.
  intros HV Hr. change (rlp_list c) with (encoded KList c) in *. destruct (kind_encoded s _ c rest st HV I Hr) as (s1 & Ek & HC & _).
  unfold stream_List. rewrite bind_eq, Ek. cbn [ksize] in *. rewrite bool_decide_eq_false_2 by auto. eexists. split; [done|].
  destruct HC as (Hk & He & Hsz & Ht & x & Ex & [Hr' Hst Hl Hrem Hlen Hlim] & Hx). cbn [tagbytes tag_ok] in *. unfold encoded in *.
  rewrite <- app_assoc in Ex. apply (inj (app _)) in Ex as <-. split; [|done]. constructor; cbn; [done| |done|done|done|].
  - f_equal. rewrite Hst. destruct st as [|l st]; [done|]. cbn [spend]. rewrite zlen_app.
    destruct HV as [_ [[Hin _]%Forall_cons_iff _]]. f_equal. unfold wrapu. rewrite Zminus_mod_idemp_l. f_equal. cbn [kind_tag]. lia.
  - constructor; [by unfold in_u|]. apply spend_limits. by destruct HV as [_ [? _]].
Qed.

Lemma List_inv s r st size s' :
  View s r st → stream_List s = (Ok size, s') →
  ∃ x, r = kind_tag KList size ++ x ∧ 0 ≤ size ≤ zlen x ∧ size < 2 ^ 64 ∧ Pos s' x (size :: spend (zlen (kind_tag KList size) + size) st).
Proof.
  intros HV ([k size'] & s1 & Ek & E)%sm_bind_inv. apply (kind_inv s r st) in Ek as HC; [|done]. revert E. case_bool_decide as Hk; [done|].
  assert (k = KList) as -> by (by destruct k). intros [= <- <-].
  destruct HC as (_ & He & Hsz & Ht & x & -> & [Hr' Hst Hl Hrem Hlen Hlim] & Hx). cbn [tagbytes tag_ok] in *. exists x.
  split_and!; [done|lia|lia|lia|]. split; [|done]. constructor; cbn; [done| |done|done|done|].
  - f_equal. rewrite Hst. destruct st as [|l st]; [done|]. cbn [spend]. f_equal. unfold wrapu. rewrite Zminus_mod_idemp_l. f_equal. cbn [kind_tag]. lia.
  - constructor; [by unfold in_u|]. apply spend_limits. by destruct HV as [_ [? _]].
Qed.

Lemma ListEnd_ok s r st : Pos s r (0 :: st) → ∃ s', ListEnd s = (Ok (), s') ∧ Pos s' r st.
Proof.
  intros [[Hr Hst Hl Hrem Hlen Hlim] Hk]. unfold ListEnd. rewrite Hst. cbn. eexists. split; [done|]. split; [|done].
  apply Forall_cons_iff in Hlim as [_ Hlim]. by constructor.
Qed.

Lemma ListEnd_inv s r l st s' : Pos s r (l :: st) → ListEnd s = (Ok (), s') → l = 0 ∧ Pos s' r st.
Proof.
  intros [[Hr Hst Hl Hrem Hlen Hlim] Hk]. unfold ListEnd. rewrite Hst. case_bool_decide as H0; [done|]. intros [= <-].
  apply Forall_cons_iff in Hlim as [Hl0 Hlim]. unfold in_u in Hl0. split; [lia|]. split; [|done]. by constructor.
Qed.

(** At the end of a list every decoder that starts with a tag reports [EOL]. *)
Lemma kind_eol s r st : Pos s r (0 :: st) → stream_Kind s = (Err EOL, s).
Proof. intros [[? Hst ? ? ? ?] Hk]. unfold stream_Kind, listLimit. by rewrite Hk, Hst. Qed.
