(* ===== verification/RlpCodec.v ===== *)
(** * RlpCodec: encoder and decoder of RLP together

    What [EncodeToBytes] writes, [DecodeBytes] reads back; what [DecodeBytes]
    accepts is what [EncodeToBytes] would write; and [DecodeBytes] ends on every
    input.

    A value is not always read back as it was: a nil slice comes back as an empty
    one and a nil big integer as zero, because both have the same encoding.
    [norm] identifies them.  A few values are not read back at all, see
    [readable]. *)
From S2P Require Import Prelude Bytes Rlp RlpEncode RlpDecode.

(** ** Types and values that come back *)

(** A field that takes the remaining elements of a list. *)
Definition absorbs (t : gotype) (ts : Tags) : bool :=
  Tail ts && match t with TSlice t => negb (isByte t) | _ => false end.

Definition tags_fit (t : gotype) (ts : Tags) : bool :=
  (negb (Tail ts) || (absorbs t ts && negb (Optional ts))) && (negb (NilOK ts) || bool_decide (NilKind ts ≠ KByte)).

(** The types of the package, with the tags of structs as [ProcessFields] leaves
    them; only slices of other types than bytes absorb. *)
Fixpoint wf_type (t : gotype) : bool :=
  match t with
  | TPtr t | TSlice t | TArray _ t => wf_type t
  | TUint bits => uint_bits bits
  | TStruct fields =>
      optional_consistent false fields && tail_last fields
      && forallb (fun '(ts, t) => tags_fit t ts) fields && forallb id (map (fun '(_, t) => wf_type t) fields)
  | TOther => false
  | _ => true
  end.

Fixpoint norm (v : val) : val :=
  match v with
  | VBig o => VBig (Some (default 0 o))
  | VPtr o => VPtr (match o with Some v => Some (norm v) | None => None end)
  | VBytes o => VBytes (Some (default [] o))
  | VSlice o => VSlice (Some (match o with Some l => map norm l | None => [] end))
  | VArray l => VArray (map norm l)
  | VStruct l => VStruct (map norm l)
  | VInterface o => VInterface (Some (match o with Some (t, v) => (t, norm v) | None => (TSlice TInterface, VSlice (Some [])) end))
  | v => v
  end.

Definition is_value (b : bytes) : bool := match Split b with Ok (_, _, []) => true | _ => false end.
Definition empty_value (r : res bytes) : bool :=
  match r with Ok b => bool_decide (b = [Byte.x80]) || bool_decide (b = [Byte.xc0]) | _ => false end.
Definition iface_type (t : gotype) : bool :=
  match t with TSlice (TUint bits) => bool_decide (bits = 8) | TSlice TInterface => true | _ => false end.

Definition fields_written (fields : list (Tags * gotype)) (l : list val) : nat :=
  let n := length fields in
  let first := firstOptionalField fields in
  if bool_decide (first = n) then n else fields_to_write first n l.

(** Values that come back: raw values are encoded values; big integers are not
    negative; a nil pointer needs a tag that allows it, and with this tag a pointer
    to a value that is written as an empty string or list does not come back;
    interfaces hold byte slices or slices of interfaces.  The fields of a struct
    that are not written are not concerned. *)
Fixpoint readable (v : val) (t : gotype) (ts : Tags) : bool :=
  match t, v with
  | TRawValue, VRaw o => match o with Some b => is_value b | None => false end
  | TBigIntPtr, VBig o => bool_decide (0 ≤ default 0 o)
  | TPtr t, VPtr o =>
      match o with
      | Some v => readable v t noTags && (negb (NilOK ts) || negb (empty_value (enc v t noTags)))
      | None => NilOK ts
      end
  | TSlice t, VSlice o => match o with Some l => forallb (fun v => readable v t noTags) l | None => true end
  | TArray _ t, VArray l => forallb (fun v => readable v t noTags) l
  | TStruct fields, VStruct l =>
      forallb id (take (fields_written fields l) (zip_with (fun f '(ts, t) => f t ts) (map readable l) fields))
  | TInterface, VInterface o => match o with Some (t, v) => iface_type t && readable v t noTags | None => true end
  | _, _ => true
  end.

(** ** Lemmas *)

Lemma is_value_spec b : zlen b < 2 ^ 63 → is_value b = true → ∃ k c, b = encoded k c ∧ fits_kind k c.
Proof.
  intros Hz. unfold is_value. destruct (Split b) as [[[k c] rest]|e|e] eqn:E; [|done..]. destruct rest; [|done]. intros _.
  apply Split_inv in E as [-> Hf]; [|done]. exists k, c. by rewrite app_nil_r.
Qed.

Lemma zero_spec v : ∀ t, has_type v t = true → IsZero v = true → v = zero t.
Proof.
  assert (∀ l t, Forall (fun v => ∀ t, has_type v t = true → IsZero v = true → v = zero t) l →
    forallb (fun v => has_type v t) l = true → forallb IsZero l = true → l = replicate (length l) (zero t)) as Hl.
  { clear v. intros l t IH Ht Hz. induction IH as [|v l Hv _ IH]; [done|]. cbn [forallb length replicate] in *.
    apply andb_true_iff in Ht as [Ht Ht'], Hz as [Hz Hz']. f_equal; [by apply Hv|by apply IH]. }
  induction v as [o|o| |v IH|z|b|s|o|b| |l IH|l IH|l IH| |t' v IH] using val_nested_ind;
    intros t Ht Hz; destruct t; try discriminate; cbn [has_type IsZero zero] in *; try done.
  - apply bool_decide_eq_true in Hz. by subst.
  - apply bool_decide_eq_true in Hz. by subst.
  - apply bool_decide_eq_true in Hz. by subst.
  - by destruct b.
  - apply bool_decide_eq_true in Hz. by subst.
  - rewrite Ht. apply bool_decide_eq_true in Hz. by subst.
  - apply andb_true_iff in Ht as [-> <-%bool_decide_eq_true]. f_equal. induction b as [|x b IH]; [done|]. cbn [forallb length replicate] in *.
    apply andb_true_iff in Hz as [->%bool_decide_eq_true Hz]. f_equal. by apply IH.
  - by destruct (isByte t).
  - destruct (isByte t); [done|]. apply andb_true_iff in Ht as [<-%bool_decide_eq_true Ht]. f_equal. by apply Hl.
  - apply andb_true_iff in Ht as [Hlen%bool_decide_eq_true Ht]. f_equal. clear Hl. revert fields Hlen Ht.
    induction IH as [|v l Hv _ IH]; intros [|[ts t] fields] Hlen Ht; try done. cbn [map zip_with forallb length] in *.
    apply andb_true_iff in Ht as [Ht Ht'], Hz as [Hz Hz']. f_equal; [by apply Hv|]. apply IH; [done|lia|done].
Qed.

(** *** The end of a list *)

Definition at_eol {A} (m : SM A) : Prop := ∀ s r st, Pos s r (0 :: st) → m s = (Err EOL, s).

Lemma at_eol_kind {A} (f : Kind * Z → SM A) : at_eol (p ← stream_Kind; f p).
Proof. intros s r st HP. by rewrite bind_eq, (kind_eol s r st HP). Qed.
Lemma at_eol_bind {A B} (m : SM A) (f : A → SM B) : at_eol m → at_eol (m ≫= f).
Proof. intros H s r st HP. by rewrite bind_eq, (H s r st HP). Qed.
Lemma at_eol_wrapped {A} (m : SM A) : at_eol m → at_eol (wrapped m).
Proof. intros H s r st HP. unfold wrapped. by rewrite (H s r st HP). Qed.

Lemma decode_at_eol fuel t : ∀ ts, (0 < fuel)%nat → wf_type t = true → absorbs t ts = false → at_eol (decode fuel t ts).
Proof.
  assert (∀ A (m : SM A), at_eol m → at_eol (wrapped m)) as Hw by (intros; by apply at_eol_wrapped).
  assert (at_eol stream_List ∧ at_eol stream_Bytes ∧ at_eol Raw ∧ at_eol stream_BigInt) as (H1 & H2 & H3 & H4)
    by (split_and!; apply at_eol_kind).
  induction t as [| |t IH|bits| | |t IH|n t IH|fs IH| |] using gotype_nested_ind; intros ts Hf Ht Ha; cbn [decode wf_type] in *.
  - by apply at_eol_bind.
  - by apply at_eol_bind, Hw.
  - destruct (NilOK ts); [apply at_eol_bind, Hw; intros s r st; apply kind_eol|apply at_eol_bind; by apply IH].
  - apply at_eol_bind, Hw, at_eol_kind.
  - apply at_eol_bind, Hw, at_eol_bind, at_eol_kind.
  - by apply at_eol_bind, Hw.
  - unfold absorbs in Ha. destruct (isByte t); [by apply at_eol_bind, Hw|]. cbn [negb] in Ha. rewrite andb_true_r in Ha. rewrite Ha.
    by apply at_eol_bind, Hw.
  - destruct (isByte t); [apply at_eol_kind|by apply at_eol_bind, Hw].
  - by apply at_eol_bind, Hw.
  - destruct fuel; [lia|]. apply at_eol_kind.
  - done.
Qed.

(** *** Elements *)

(** [m] reads the rest [c] of the innermost list and stops at its end. *)
Definition reads_to_end {A} (m : SM A) (c : bytes) (a : A) : Prop :=
  ∀ s rest st, Pos s (c ++ rest) (zlen c :: st) → ∃ s', m s = (Ok a, s') ∧ Pos s' rest (0 :: st).

Lemma spend_top (b c : bytes) st : zlen (b ++ c) < 2 ^ 64 → spend (zlen b) (zlen (b ++ c) :: st) = zlen c :: st.
Proof.
  intros. cbn [spend]. rewrite zlen_app in *. pose proof (zlen_nonneg b). pose proof (zlen_nonneg c).
  rewrite wrapu_id by (unfold in_u; lia). f_equal. lia.
Qed.

Lemma elems_ok dec bs : ∀ fuel vs,
  at_eol dec → Forall2 (fun b v => b ≠ [] ∧ reads_as dec b v) bs vs → zlen (concat bs) < 2 ^ 63 → (length (concat bs) < fuel)%nat →
  reads_to_end (decodeSliceElems fuel dec) (concat bs) vs.
Proof.
  intros fuel vs He H. revert fuel. induction H as [|b v bs vs [Hne Hb] _ IH]; intros fuel Hz Hf s rest st HP; (destruct fuel as [|fuel]; [lia|]);
    cbn [concat decodeSliceElems] in *.
  - cbn [app] in *. rewrite (He s rest st HP). by exists s.
  - assert (0 < length b)%nat as H1 by (destruct b; [done|simpl; lia]). rewrite length_app in Hf.
    rewrite <- app_assoc in HP. destruct (Hb s (concat bs ++ rest) (zlen (b ++ concat bs) :: st)) as (s1 & E & HP1).
    { by apply Pos_View. }
    { cbn [room]. rewrite zlen_app. pose proof (zlen_nonneg (concat bs)). lia. }
    rewrite E. rewrite spend_top in HP1 by lia. rewrite zlen_app in Hz. pose proof (zlen_nonneg b).
    destruct (IH fuel ltac:(lia) ltac:(lia) s1 rest st HP1) as (s2 & E2 & HP2). exists s2. by rewrite bind_eq, E2.
Qed.

Lemma listslice_ok fuel dec c l :
  zlen c < 2 ^ 63 → (c = [] → l = []) → reads_to_end (decodeSliceElems fuel dec) c l →
  reads_as (decodeListSlice fuel dec) (rlp_list c) (VSlice (Some l)).
Proof.
  intros Hz Hl Hd s rest st HV Hr. destruct (List_ok s c rest st HV Hr) as (s1 & E1 & HP1). unfold decodeListSlice.
  rewrite bind_eq. unfold wrapped. rewrite E1. pose proof (zlen_nonneg c). case_bool_decide as H0.
  - assert (c = []) as -> by (destruct c; [done|rewrite zlen_cons in H0; pose proof (zlen_nonneg c); lia]). rewrite Hl by done.
    cbn [app] in HP1. destruct (ListEnd_ok s1 rest _ HP1) as (s2 & E2 & HP2). rewrite bind_eq, E2. by exists s2.
  - destruct (Hd s1 rest _ HP1) as (s2 & E2 & HP2). rewrite bind_eq, E2. destruct (ListEnd_ok s2 rest _ HP2) as (s3 & E3 & HP3).
    rewrite bind_eq, E3. by exists s3.
Qed.

Lemma array_ok dec bs vs :
  Forall2 (fun b v => reads_as dec b v) bs vs → zlen (concat bs) < 2 ^ 63 →
  reads_to_end (decode_array (length vs) dec) (concat bs) vs.
Proof.
  induction 1 as [|b v bs vs Hb _ IH]; intros Hz s rest st HP; cbn [concat decode_array length] in *; [by exists s|].
  rewrite <- app_assoc in HP. destruct (Hb s (concat bs ++ rest) (zlen (b ++ concat bs) :: st)) as (s1 & E & HP1).
  { by apply Pos_View. }
  { cbn [room]. rewrite zlen_app. pose proof (zlen_nonneg (concat bs)). lia. }
  rewrite E. rewrite spend_top in HP1 by lia. rewrite zlen_app in Hz. pose proof (zlen_nonneg b).
  destruct (IH ltac:(lia) s1 rest st HP1) as (s2 & E2 & HP2). exists s2. by rewrite bind_eq, E2.
Qed.

(** A list around what [m] reads to its end: arrays and structs. *)
Lemma in_list_ok {A B} (m : SM A) (f : A → B) c a :
  reads_to_end m c a → reads_as (wrapped stream_List ;; l ← m; wrapped ListEnd ;; mret (f l)) (rlp_list c) (f a).
Proof.
  intros Hm s rest st HV Hr. destruct (List_ok s c rest st HV Hr) as (s1 & E1 & HP1). rewrite bind_eq. unfold wrapped at 1. rewrite E1.
  destruct (Hm s1 rest _ HP1) as (s2 & E2 & HP2). rewrite bind_eq, E2. destruct (ListEnd_ok s2 rest _ HP2) as (s3 & E3 & HP3).
  rewrite bind_eq. unfold wrapped. rewrite E3. by exists s3.
Qed.

(** *** Values come back *)

Definition back (fuel : nat) (v : val) (t : gotype) (ts : Tags) (b : bytes) : Prop :=
  if absorbs t ts then ∃ v', reads_to_end (decode fuel t ts) b v' ∧ norm v' = norm v
  else (∃ k c, b = encoded k c ∧ fits_kind k c) ∧ ∃ v', reads_as (decode fuel t ts) b v' ∧ norm v' = norm v.

Definition comes_back (v : val) : Prop := ∀ t ts b fuel,
  wf_type t = true → tags_fit t ts = true → has_type v t = true → readable v t ts = true →
  enc v t ts = Ok b → zlen b < 2 ^ 63 → (length b < fuel)%nat → back fuel v t ts b.

Lemma tags_fit_optional t ts : tags_fit t ts = true → Optional ts = true → absorbs t ts = false.
Proof. unfold tags_fit, absorbs. destruct (Tail ts); [|done]. intros [H _]%andb_true_iff Ho. rewrite Ho, andb_false_r in H. done. Qed.
Lemma tags_fit_tail t ts : tags_fit t ts = true → Tail ts = true → absorbs t ts = true.
Proof. unfold tags_fit. intros [H _]%andb_true_iff Ht. rewrite Ht in H. cbn [negb orb] in H. by apply andb_true_iff in H as [? _]. Qed.
Lemma absorbs_slice t ts : absorbs t ts = true → ∃ t', t = TSlice t' ∧ isByte t' = false ∧ Tail ts = true.
Proof.
  unfold absorbs. intros [Ht H]%andb_true_iff. destruct t; try done. exists t. by destruct (isByte t).
Qed.

Lemma zeros_spec l : ∀ fields : list (Tags * gotype),
  length l = length fields → forallb id (zip_with (fun h '(_, t) => h t) (map has_type l) fields) = true → Forall (fun v => IsZero v = true) l →
  map (fun '(_, t) => zero t) fields = l.
Proof.
  induction l as [|v l IH]; intros [|[ts t] fields] Hl Ht Hz; try done. cbn [map zip_with forallb length] in *.
  apply andb_true_iff in Ht as [Ht Ht']. apply Forall_cons_iff in Hz as [Hv Hz]. f_equal; [symmetry; by apply zero_spec|].
  apply IH; [lia|done|done].
Qed.

Lemma fields_back fuel l : ∀ fields k c,
  (0 < fuel)%nat → Forall comes_back l → length l = length fields → tail_last fields = true →
  forallb (fun '(ts, t) => tags_fit t ts) fields = true → forallb id (map (fun '(_, t) => wf_type t) fields) = true →
  forallb id (zip_with (fun h '(_, t) => h t) (map has_type l) fields) = true →
  forallb id (take k (zip_with (fun f '(ts, t) => f t ts) (map readable l) fields)) = true →
  concat_res (take k (zip_with (fun f '(ts, t) => f t ts) (map enc l) fields)) = Ok c → zlen c < 2 ^ 63 → (length c < fuel)%nat →
  Forall (fun v => IsZero v = true) (drop k l) → Forall (fun '(ts, _) => Optional ts || Tail ts = true) (drop k fields) →
  ∃ l', reads_to_end (decode_fields fields (map (fun '(ts, t) => decode fuel t ts) fields)) c l' ∧ map norm l' = map norm l.
Proof.
  induction l as [|v l IH]; intros [|[ts t] fields] k c Hf HP Hl Htl Hfit Hwf Hty Hrd He Hz Hlen Hzero Hopt; try done.
  { cbn [map zip_with] in He. rewrite take_nil in He. injection He as <-. exists []. split; [|done]. intros s rest st Hs. by exists s. }
  cbn [map zip_with forallb length tail_last] in *. apply andb_true_iff in Hty as [Htv Hty], Hwf as [Hwt Hwf], Hfit as [Hft Hfit], Htl as [Htt Htl].
  apply Forall_cons_iff in HP as [HPv HP]. destruct k as [|k]; cbn [take drop map concat_res forallb] in *.
  - injection He as <-. apply Forall_cons_iff in Hzero as [Hzv Hzero], Hopt as [Ho _]. destruct (Optional ts) eqn:Eo.
    + exists (v :: l). split; [|done]. intros s rest st Hs. cbn [decode_fields].
      rewrite (decode_at_eol fuel t ts Hf Hwt (tags_fit_optional _ _ Hft Eo) s rest st Hs). rewrite bool_decide_eq_true_2, Eo by done. exists s. split; [|done].
      do 2 f_equal. f_equal; [symmetry; by apply zero_spec|]. apply zeros_spec; [lia|done|done].
    + cbn [orb] in Ho. pose proof (tags_fit_tail _ _ Hft Ho) as Ha. apply absorbs_slice in Ha as (t' & -> & Hb & Ht). rewrite Ht in Htt.
      cbn [negb orb] in Htt. apply bool_decide_eq_true in Htt as ->. destruct l; [|done]. exists [VSlice (Some [])].
      split; [|rewrite (zero_spec v _ Htv Hzv); cbn [zero]; by rewrite Hb].
      intros s rest st Hs. cbn [decode_fields decode wf_type] in *. rewrite Hb, Ht.
      assert (reads_to_end (decodeSliceElems fuel (decode fuel t' noTags)) [] []) as Hel.
      { apply (elems_ok _ []); [by apply decode_at_eol|constructor|done|simpl; lia]. }
      destruct (Hel s rest st Hs) as (s' & E & HP').
      rewrite bind_eq, E. exists s'. split; [done|done].
  - apply andb_true_iff in Hrd as [Hrv Hrd]. apply bind_ok in He as (b & Eb & (c' & Ec & [= <-])%bind_ok).
    rewrite zlen_app, length_app in *. pose proof (zlen_nonneg b). pose proof (zlen_nonneg c').
    pose proof (HPv t ts b fuel Hwt Hft Htv Hrv Eb ltac:(lia) ltac:(lia)) as Hback. unfold back in Hback.
    destruct (absorbs t ts) eqn:Ha.
    + apply absorbs_slice in Ha as (t' & -> & Hb & Ht). rewrite Ht in Htt. cbn [negb orb] in Htt. apply bool_decide_eq_true in Htt as ->.
      destruct l; [|done]. cbn [map zip_with] in Ec. rewrite take_nil in Ec. injection Ec as <-. rewrite app_nil_r.
      destruct Hback as (v' & Hr & Hn). exists [v']. split; [|cbn [map]; by rewrite Hn]. intros s rest st Hs. cbn [decode_fields map].
      destruct (Hr s rest st Hs) as (s' & E & HP'). rewrite E. by exists s'.
    + destruct Hback as (_ & v' & Hr & Hn).
      destruct (IH fields k c' Hf HP ltac:(lia) Htl Hfit Hwf Hty Hrd Ec ltac:(lia) ltac:(lia) Hzero Hopt) as (l' & Hl' & Hn').
      exists (v' :: l'). split; [|cbn [map]; by rewrite Hn, Hn']. intros s rest st Hs. cbn [decode_fields map]. rewrite <- app_assoc in Hs.
      destruct (Hr s (c' ++ rest) (zlen (b ++ c') :: st)) as (s1 & E & HP1).
      { by apply Pos_View. }
      { cbn [room]. rewrite zlen_app. lia. }
      rewrite E. rewrite spend_top in HP1 by (rewrite zlen_app; lia). destruct (Hl' s1 rest st HP1) as (s2 & E2 & HP2). exists s2. by rewrite bind_eq, E2.
Qed.

(** The fields that are not written are zero and may be missing. *)
Lemma fields_to_write_spec first vs k : (k ≤ length vs)%nat → (first ≤ k)%nat →
  let n := fields_to_write first k vs in
  (first ≤ n ≤ k)%nat ∧ Forall (fun v => IsZero v = true) (drop n (take k vs)).
Proof.
  induction k as [|k IH]; intros Hk Hf; cbn [fields_to_write]; [split; [lia|done]|].
  destruct (bool_decide (first ≤ k)%nat && IsZero _) eqn:E.
  - apply andb_true_iff in E as [E1%bool_decide_eq_true E2]. destruct (IH ltac:(lia) E1) as [Hn Hz]. split; [lia|].
    destruct (lookup_lt_is_Some_2 vs k) as [v Hv]; [lia|]. rewrite (take_S_r _ _ v) by done.
    rewrite drop_app_le by (rewrite length_take; lia). apply Forall_app. split; [done|]. constructor; [|done].
    rewrite <- E2. f_equal. symmetry. by apply nth_lookup_Some.
  - split; [lia|]. rewrite drop_ge by (rewrite length_take; lia). done.
Qed.

Lemma optional_consistent_after fields :
  (∀ any, optional_consistent any fields = true → any = true → Forall (fun '(ts, _) => Optional ts || Tail ts = true) fields)
  ∧ (optional_consistent false fields = true → Forall (fun '(ts, _) => Optional ts || Tail ts = true) (drop (firstOptionalField fields) fields)).
Proof.
  assert (∀ fs any, optional_consistent any fs = true → any = true → Forall (fun '(ts, _) => Optional ts || Tail ts = true) fs) as H1.
  { induction fs as [|[ts t] fs IH]; intros any Ho ->; [done|]. cbn [optional_consistent] in Ho.
    destruct (Optional ts || Tail ts) eqn:E; [|done]. constructor; [done|]. by apply (IH true). }
  split; [apply H1|]. induction fields as [|[ts t] fields IH]; [done|]. cbn [optional_consistent firstOptionalField].
  destruct (Optional ts) eqn:Eo; cbn [orb drop].
  - intros Ho. constructor; [by rewrite Eo|]. by apply (H1 fields true).
  - destruct (Tail ts); [|done]. intros Ho. apply Forall_drop. by apply (H1 fields true).
Qed.

Lemma firstOptionalField_le fields : (firstOptionalField fields ≤ length fields)%nat.
Proof. induction fields as [|[ts t] fields IH]; cbn [firstOptionalField length]; [lia|]. destruct (Optional ts); lia. Qed.

Lemma fields_written_spec fields l :
  length l = length fields → optional_consistent false fields = true →
  let n := fields_written fields l in
  Forall (fun v => IsZero v = true) (drop n l) ∧ Forall (fun '(ts, _) => Optional ts || Tail ts = true) (drop n fields).
Proof.
  intros Hl Ho. cbv zeta. unfold fields_written. pose proof (firstOptionalField_le fields) as Hle.
  case_bool_decide as Hf; [by rewrite !drop_ge by lia|].
  destruct (fields_to_write_spec (firstOptionalField fields) l (length fields)) as [Hn Hz]; [lia..|].
  rewrite (take_ge l) in Hz by lia. split; [done|]. apply optional_consistent_after in Ho.
  replace (fields_to_write (firstOptionalField fields) (length fields) l)
    with (firstOptionalField fields + (fields_to_write (firstOptionalField fields) (length fields) l - firstOptionalField fields))%nat by lia.
  rewrite <- drop_drop. by apply Forall_drop.
Qed.

Lemma back_single fuel v t ts b k c v' :
  absorbs t ts = false → b = encoded k c → fits_kind k c → reads_as (decode fuel t ts) b v' → norm v' = norm v → back fuel v t ts b.
Proof. intros Ha -> Hf Hr Hn. unfold back. rewrite Ha. split; eauto. Qed.

Lemma back_string fuel v t ts c v' :
  absorbs t ts = false → reads_as (decode fuel t ts) (rlp_string c) v' → norm v' = norm v → back fuel v t ts (rlp_string c).
Proof. intros Ha Hr Hn. destruct (rlp_string_encoded c) as [E Hf]. by eapply back_single. Qed.

Lemma back_list fuel v t ts c v' :
  absorbs t ts = false → reads_as (decode fuel t ts) (rlp_list c) v' → norm v' = norm v → back fuel v t ts (rlp_list c).
Proof. intros Ha Hr Hn. by apply (back_single fuel v t ts (rlp_list c) KList c v'). Qed.

Lemma back_noTags fuel v t b : back fuel v t noTags b →
  (∃ k c, b = encoded k c ∧ fits_kind k c) ∧ ∃ v', reads_as (decode fuel t noTags) b v' ∧ norm v' = norm v.
Proof. done. Qed.

Lemma tags_fit_noTags t : tags_fit t noTags = true.
Proof. done. Qed.

Lemma Cached_View s k size r st s0 : View s0 r st → Cached s k size r st → View s r st.
Proof. intros [_ [Hl Hz]] HC. split; [right; eauto|done]. Qed.

Lemma empty_encoded k c : k ≠ KByte → zlen c = 0 → empty_value (Ok (encoded k c)) = true.
Proof.
  intros Hk Hc. assert (c = []) as -> by (destruct c; [done|rewrite zlen_cons in Hc; pose proof (zlen_nonneg c); lia]). by destruct k.
Qed.

Lemma nilptr_nil k dec : k ≠ KByte → reads_as (decodeNilPtr k dec) (encoded k []) (VPtr None).
Proof.
  intros Hk s rest st HV Hr. assert (fits_kind k []) as Hf by (by destruct k). destruct (kind_encoded s k [] rest st HV Hf Hr) as (s1 & Ek & HC & _).
  unfold decodeNilPtr. rewrite bind_eq. unfold wrapped. rewrite Ek. rewrite (bool_decide_eq_true_2 (k ≠ KByte)) by done.
  assert (ksize k [] = 0) as Es by (by destruct k). rewrite Es in *. cbn [andb]. rewrite bool_decide_eq_true_2, bool_decide_eq_false_2 by auto.
  eexists. split; [done|]. destruct HC as (_ & _ & _ & _ & x & Ex & [? ? ? ? ? ?] & _).
  assert (tagbytes k 0 (byteval s1) = encoded k []) as Et by (by destruct k). rewrite Et in *. apply (inj (app _)) in Ex as <-. by split; [constructor|].
Qed.

Lemma nilptr_some nk dec k c v :
  fits_kind k c → empty_value (Ok (encoded k c)) = false → reads_as dec (encoded k c) v →
  reads_as (decodeNilPtr nk dec) (encoded k c) (VPtr (Some v)).
Proof.
  intros Hf He Hd s rest st HV Hr. destruct (kind_encoded s k c rest st HV Hf Hr) as (s1 & Ek & HC & _).
  unfold decodeNilPtr. rewrite bind_eq. unfold wrapped. rewrite Ek.
  assert (bool_decide (k ≠ KByte) && bool_decide (ksize k c = 0) = false) as ->.
  { destruct (decide (k = KByte)) as [->|Hk]; [done|]. rewrite (bool_decide_eq_true_2 (k ≠ KByte)) by done. cbn [andb].
    apply bool_decide_eq_false_2. intros H0. rewrite empty_encoded in He; [done|done|]. by destruct k. }
  destruct (Hd s1 rest st (Cached_View _ _ _ _ _ _ HV HC) Hr) as (s2 & E2 & HP). rewrite bind_eq, E2. by exists s2.
Qed.

Lemma interface_list fuel c l :
  zlen c < 2 ^ 63 → (c = [] → l = []) → reads_to_end (decodeSliceElems fuel (decodeInterface fuel)) c l →
  reads_as (decodeInterface (S fuel)) (rlp_list c) (iface_list (VSlice (Some l))).
Proof.
  intros Hz Hl Hd s rest st HV Hr. destruct (kind_encoded s KList c rest st HV I Hr) as (s1 & Ek & HC & _).
  cbn [decodeInterface]. rewrite bind_eq, Ek. rewrite bool_decide_eq_true_2 by done.
  destruct (listslice_ok fuel _ c l Hz Hl Hd s1 rest st (Cached_View _ _ _ _ _ _ HV HC) Hr) as (s2 & E2 & HP). rewrite bind_eq, E2. by exists s2.
Qed.

Lemma interface_bytes fuel c : reads_as (decodeInterface (S fuel)) (rlp_string c) (iface_bytes c).
Proof.
  intros s rest st HV Hr. pose proof (rlp_string_encoded c) as [E Hf]. rewrite E in HV, Hr.
  destruct (kind_encoded s _ c rest st HV Hf Hr) as (s1 & Ek & HC & _). cbn [decodeInterface]. rewrite bind_eq, Ek.
  rewrite bool_decide_eq_false_2 by (unfold string_kind; by destruct (small_byte c)). rewrite <- E in *.
  assert (View s1 (rlp_string c ++ rest) st) as HV1 by (split; [right; eauto|by destruct HV]).
  destruct (Bytes_ok c s1 rest st HV1 Hr) as (s2 & E2 & HP). rewrite bind_eq, E2. by exists s2.
Qed.

Lemma elements_back fuel t l c :
  Forall comes_back l → wf_type t = true → forallb (fun v => has_type v t) l = true → forallb (fun v => readable v t noTags) l = true →
  concat_res (map (fun v => enc v t noTags) l) = Ok c → zlen c < 2 ^ 63 → (length c < fuel)%nat →
  ∃ bs vs, c = concat bs ∧ Forall2 (fun b v => b ≠ [] ∧ reads_as (decode fuel t noTags) b v) bs vs ∧ map norm vs = map norm l.
Proof.
  intros Hl Hwf Ht Hr. revert c. induction Hl as [|v l Hv _ IH]; intros c He Hz Hf; cbn [map forallb concat_res] in *.
  { injection He as <-. by exists [], []. }
  apply andb_true_iff in Ht as [Ht Ht'], Hr as [Hr Hr']. apply bind_ok in He as (b & Eb & (c' & Ec & [= <-])%bind_ok).
  rewrite zlen_app, length_app in *. pose proof (zlen_nonneg b). pose proof (zlen_nonneg c').
  destruct (IH Ht' Hr' c' Ec ltac:(lia) ltac:(lia)) as (bs & vs & -> & H2 & Hn).
  destruct (back_noTags _ _ _ _ (Hv t noTags b fuel Hwf (tags_fit_noTags t) Ht Hr Eb ltac:(lia) ltac:(lia))) as ((k & x & -> & Hfit) & v' & Hrd & Hnv).
  exists (encoded k x :: bs), (v' :: vs). split_and!; [done| |cbn [map]; by rewrite Hnv, Hn]. constructor; [|done]. split; [|done].
  by apply encoded_nonempty.
Qed.

Lemma slice_back fuel t ts o b :
  Forall comes_back (default [] o) → wf_type t = true → isByte t = false → tags_fit (TSlice t) ts = true →
  forallb (fun v => has_type v t) (default [] o) = true → forallb (fun v => readable v t noTags) (default [] o) = true →
  (c ← concat_res (map (fun v => enc v t noTags) (default [] o)); Ok (if Tail ts then c else rlp_list c)) = Ok b →
  zlen b < 2 ^ 63 → (length b < fuel)%nat → back fuel (VSlice o) (TSlice t) ts b.
Proof.
  intros Hl Hwf Hb Hfit Ht Hr (c & Ec & [= <-])%bind_ok Hz Hf.
  assert (zlen c < 2 ^ 63 ∧ (length c < fuel)%nat) as [Hzc Hfc].
  { destruct (Tail ts); [done|]. pose proof (zlen_rlp_list c). unfold zlen in *. lia. }
  destruct (elements_back fuel t _ c Hl Hwf Ht Hr Ec Hzc Hfc) as (bs & vs & -> & H2 & Hn).
  assert (at_eol (decode fuel t noTags)) as He by (apply decode_at_eol; [lia|done|done]).
  pose proof (elems_ok _ bs fuel vs He H2 Hzc Hfc) as Hel.
  assert (norm (VSlice (Some vs)) = norm (VSlice o)) as Hnv by (cbn [norm]; rewrite Hn; by destruct o).
  unfold back, absorbs. rewrite Hb. cbn [negb decode]. rewrite Hb, andb_true_r. destruct (Tail ts).
  - exists (VSlice (Some vs)). split; [|done]. intros s rest st HP. destruct (Hel s rest st HP) as (s' & E & HP'). rewrite bind_eq, E. by exists s'.
  - split; [by exists KList, (concat bs)|]. exists (VSlice (Some vs)). split; [|done]. apply listslice_ok; [done| |done].
    destruct H2 as [|b v bs vs [Hne _] _]; [done|]. cbn [concat]. by destruct b.
Qed.

Lemma reads_to_end_slice (m : SM (list val)) c v :
  zlen c < 2 ^ 63 → reads_to_end (l ← m; mret (VSlice (Some l))) c v → ∃ l, v = VSlice (Some l) ∧ reads_to_end m c l.
Proof.
  intros Hz H. assert (∀ s rest st, Pos s (c ++ rest) (zlen c :: st) → ∃ l s', v = VSlice (Some l) ∧ m s = (Ok l, s') ∧ Pos s' rest (0 :: st)) as H'.
  { intros s rest st HP. destruct (H s rest st HP) as (s' & (l & s1 & E & [= <- <-])%sm_bind_inv & HP'). eauto. }
  pose proof (zlen_nonneg c).
  destruct (H' (set_stack [zlen c] (Reset c 0)) [] []) as (l & _ & -> & _).
  { split; [|done]. rewrite app_nil_r. constructor; cbn; [done|done|done|done|done|]. constructor; [unfold in_u; lia|done]. }
  exists l. split; [done|]. intros s rest st HP. destruct (H' s rest st HP) as (l2 & s' & [= <-] & E & HP'). by exists s'.
Qed.

Lemma absorbs_other t ts : (∀ t0, t ≠ TSlice t0) → absorbs t ts = false.
Proof. intros Hne. unfold absorbs. destruct t; try apply andb_false_r. by edestruct Hne. Qed.

Lemma pointer_back v fuel t ts b :
  comes_back v → wf_type t = true → has_type v t = true → readable (VPtr (Some v)) (TPtr t) ts = true →
  enc v t noTags = Ok b → zlen b < 2 ^ 63 → (length b < fuel)%nat → back fuel (VPtr (Some v)) (TPtr t) ts b.
Proof.
  intros IH Hwf Ht [Hr Hne]%andb_true_iff E Hz Hf. rewrite E in Hne.
  destruct (back_noTags _ _ _ _ (IH t noTags b fuel Hwf (tags_fit_noTags t) Ht Hr E Hz Hf)) as ((k & c & -> & Hfit') & v' & Hrd & Hn).
  eapply (back_single _ _ _ _ _ k c (VPtr (Some v'))); [by apply absorbs_other|done|done| |cbn [norm]; by rewrite Hn]. cbn [decode].
  destruct (NilOK ts); [|by apply (reads_as_map _ (fun v => VPtr (Some v)))]. cbn [negb orb] in Hne. apply nilptr_some; [done| |done].
  by destruct (empty_value _).
Qed.

Lemma nil_back fuel t ts : NilOK ts = true → NilKind ts ≠ KByte →
  back fuel (VPtr None) (TPtr t) ts (if bool_decide (typeNilKind t ts = KString) then rlp_string [] else rlp_list []).
Proof.
  intros Hn Hk. assert (typeNilKind t ts = NilKind ts) as Et by (unfold typeNilKind; by rewrite Hn). rewrite Et.
  assert ((if bool_decide (NilKind ts = KString) then rlp_string [] else rlp_list []) = encoded (NilKind ts) []) as -> by (by destruct (NilKind ts)).
  eapply (back_single _ _ _ _ _ (NilKind ts) []); [by apply absorbs_other|done|by destruct (NilKind ts)| |done]. cbn [decode]. rewrite Hn, Et.
  by apply nilptr_nil.
Qed.

Lemma array_back fuel n t ts l b :
  Forall comes_back l → wf_type t = true → isByte t = false → tags_fit (TArray n t) ts = true → length l = n →
  forallb (fun v => has_type v t) l = true → forallb (fun v => readable v t noTags) l = true →
  (c ← concat_res (map (fun v => enc v t noTags) l); Ok (if Tail ts then c else rlp_list c)) = Ok b →
  zlen b < 2 ^ 63 → (length b < fuel)%nat → back fuel (VArray l) (TArray n t) ts b.
Proof.
  intros IH Hwf Eb Hfit Hn Ht Hr E Hz Hf.
  assert (Tail ts = false) as Etl by (destruct (Tail ts) eqn:Et; [by apply tags_fit_tail in Hfit; [rewrite absorbs_other in Hfit|]|done]).
  rewrite Etl in E. apply bind_ok in E as (c & Ec & [= <-]). pose proof (zlen_rlp_list c).
  destruct (elements_back fuel t l c IH Hwf Ht Hr Ec) as (bs & vs & -> & H2 & Hnv); [lia|unfold zlen in *; lia|].
  eapply (back_list _ _ _ _ _ (VArray vs)); [by apply absorbs_other| |cbn [norm]; by rewrite Hnv]. cbn [decode]. rewrite Eb.
  assert (n = length vs) as -> by (apply (f_equal length) in Hnv; rewrite !length_map in Hnv; lia).
  apply (in_list_ok _ VArray), array_ok; [|lia]. eapply Forall2_impl; [|exact H2]. by intros ? ? [_ ?].
Qed.

Lemma interface_slice_back fuel ts o c :
  comes_back (VSlice o) → has_type (VSlice o) (TSlice TInterface) = true → readable (VSlice o) (TSlice TInterface) noTags = true →
  concat_res (match o with Some l => map (fun v => enc v TInterface noTags) l | None => [] end) = Ok c →
  zlen (rlp_list c) < 2 ^ 63 → (length (rlp_list c) < S fuel)%nat →
  back (S fuel) (VInterface (Some (TSlice TInterface, VSlice o))) TInterface ts (rlp_list c).
Proof.
  intros IH Ht Hr Ec Hz Hf. pose proof (zlen_rlp_list c) as Hc. set (tail := mkTags KByte false false true false).
  assert (back fuel (VSlice o) (TSlice TInterface) tail c) as Hback.
  { apply IH; [done|done|done|done| |lia|unfold zlen in *; lia]. cbn [enc isByte Tail tail]. by rewrite Ec. }
  cbn [back absorbs Tail tail isByte negb andb] in Hback. destruct Hback as (v' & Hrd & Hn).
  apply reads_to_end_slice in Hrd as (l & -> & Hrd); [|lia].
  eapply (back_list _ _ _ _ _ (iface_list (VSlice (Some l)))); [by apply absorbs_other|apply interface_list; [lia| |done]|].
  2:{ change (VInterface (Some (TSlice TInterface, norm (VSlice (Some l)))) = VInterface (Some (TSlice TInterface, norm (VSlice o)))). by rewrite Hn. }
  intros ->. destruct fuel as [|fuel]; [simpl in Hf; lia|].
  assert (reads_to_end (decodeSliceElems (S fuel) (decodeInterface (S fuel))) [] []) as Hnil
    by (apply (elems_ok _ []); [apply at_eol_kind|constructor|done|simpl; lia]).
  assert (Pos (set_stack [0] (Reset [] 0)) ([] ++ []) [zlen (@nil byte)]) as HP by (split; [constructor; cbn; try done; by repeat constructor|done]).
  destruct (Hrd _ _ _ HP) as (s1 & E1 & _). destruct (Hnil _ _ _ HP) as (s2 & E2 & _). congruence.
Qed.

Lemma value_comes_back v : comes_back v.
Proof.
  unfold comes_back.
  induction v as [o|o| |v IH|z|b|s|o|b| |l IH|l IH|l IH| |t' v IH] using val_nested_ind;
    intros t ts b' fuel Hwf Hfit Ht Hr E Hz Hf; destruct t; try discriminate; cbn [enc has_type readable wf_type] in *.
  - destruct o as [b|]; [|done]. injection E as <-. cbn [default] in *. destruct (is_value_spec b Hz Hr) as (k & c & -> & Hfit').
    eapply back_single; [by apply absorbs_other|done|done| |done]. apply (reads_as_map _ (fun b => VRaw (Some b))), Raw_ok; [done|].
    unfold encoded in Hz. rewrite zlen_app in Hz. pose proof (zlen_nonneg (kind_tag k (zlen c))). lia.
  - apply bool_decide_eq_true in Hr. assert (b' = rlp_string (be_bytes (default 0 o))) as ->.
    { destruct o as [i|]; [change (0 ≤ i) in Hr|by injection E as <-]. rewrite bool_decide_eq_false_2 in E by lia. by injection E as <-. }
    eapply back_string; [by apply absorbs_other|apply (reads_as_map _ (fun z => VBig (Some z))), reads_as_wrapped, BigInt_ok; done|done].
  - injection E as <-. unfold tags_fit in Hfit. rewrite Hr in Hfit. cbn [negb orb] in Hfit. apply andb_true_iff in Hfit as [_ Hk].
    apply nil_back; [done|]. by apply bool_decide_eq_true in Hk.
  - by apply pointer_back.
  - injection E as <-. apply andb_true_iff in Ht as [Hb Hv%bool_decide_eq_true]. eapply back_string; [by apply absorbs_other| |done].
    apply (reads_as_map _ VUint), reads_as_wrapped. by apply uint_ok.
  - injection E as <-. eapply back_string; [by apply absorbs_other| |done]. apply (reads_as_map _ VBool), reads_as_wrapped, Bool_ok.
  - injection E as <-. eapply back_string; [by apply absorbs_other| |done]. apply (reads_as_map _ VStr), reads_as_wrapped, Bytes_ok.
  - rewrite Ht in E. injection E as <-. eapply (back_string _ _ _ _ _ (VBytes (Some (default [] o)))); [|cbn [decode]; rewrite Ht|done].
    + unfold absorbs. rewrite Ht. apply andb_false_r.
    + apply (reads_as_map _ (fun b => VBytes (Some b))), reads_as_wrapped, Bytes_ok.
  - apply andb_true_iff in Ht as [Hb Hn%bool_decide_eq_true]. rewrite Hb in E. injection E as <-. subst n.
    eapply back_string; [by apply absorbs_other|cbn [decode]; rewrite Hb; apply ByteArray_ok|done].
  - apply andb_true_iff in Ht as [Hb _]. destruct (isByte t) eqn:Eb; [done|]. by apply (slice_back _ _ _ None).
  - apply andb_true_iff in Ht as [Hb Ht]. destruct (isByte t) eqn:Eb; [done|]. by apply (slice_back _ _ _ (Some l)).
  - apply andb_true_iff in Ht as [[Hb Hn%bool_decide_eq_true]%andb_true_iff Ht]. destruct (isByte t) eqn:Eb; [done|]. by apply array_back.
  - apply andb_true_iff in Ht as [Hl%bool_decide_eq_true Ht]. apply andb_true_iff in Hwf as [[[Ho Htl]%andb_true_iff Hfits]%andb_true_iff Hwf].
    fold (fields_written fields l) in E. apply bind_ok in E as (c & Ec & [= <-]). pose proof (zlen_rlp_list c).
    destruct (fields_written_spec fields l Hl Ho) as [Hz0 Hopt].
    destruct (fields_back fuel l fields (fields_written fields l) c) as (l' & Hrd & Hn); try done; [lia|lia|unfold zlen in *; lia|].
    eapply (back_list _ _ _ _ _ (VStruct l')); [by apply absorbs_other| |cbn [norm]; by rewrite Hn]. by apply (in_list_ok _ VStruct).
  - injection E as <-. destruct fuel as [|[|fuel]]; [lia|simpl in Hf; lia|].
    eapply (back_list _ _ _ _ _ (iface_list (VSlice (Some [])))); [by apply absorbs_other| |done]. apply interface_list; [done|done|].
    apply (elems_ok _ []); [apply at_eol_kind|constructor|done|simpl; lia].
  - apply andb_true_iff in Hr as [Hi Hr]. apply bind_ok in E as ([] & Ew & E). destruct fuel as [|fuel]; [lia|].
    destruct t' as [| | | | | |t'| | | |]; try done. cbn [iface_type] in Hi. destruct t' as [| | |bits| | | | | | |]; try done.
    + apply bool_decide_eq_true in Hi as ->. destruct v; try discriminate. injection E as <-.
      eapply back_string; [by apply absorbs_other|apply interface_bytes|done].
    + destruct v as [| | | | | | | |o| | |]; try discriminate. cbn [enc has_type readable isByte Tail noTags] in *.
      apply bind_ok in E as (c & Ec & [= <-]). by apply interface_slice_back.
Qed.

Lemma Reset_Pos b : zlen b < 2 ^ 63 → Pos (Reset b (zlen b)) b [].
Proof.
  intros. pose proof (zlen_nonneg b). split; [|done]. constructor; cbn; try done. case_bool_decide; lia.
Qed.

(** C14: What the encoder writes, the decoder reads back: for every type of the
    package and every value of it that can come back and has an encoding,
    [EncodeToBytes] gives the encoding, and decoding it ends without an error and
    gives the value, with nil slices turned into empty ones. *)
Theorem decode_encode t v b :
  wf_type t = true → has_type v t = true → readable v t noTags = true → encoding t v = Ok b → zlen b < 2 ^ 63 →
  EncodeToBytes t v = Ok b ∧ ∃ v', DecodeBytes t b = Ok v' ∧ norm v' = norm v.
Proof.
  intros Hwf Ht Hr E Hz. split; [by apply EncodeToBytes_ok|]. unfold encoding in E. apply bind_ok in E as ([] & Ew & E).
  destruct (back_noTags _ _ _ _ (value_comes_back v t noTags b (S (length b)) Hwf (tags_fit_noTags t) Ht Hr E Hz ltac:(lia))) as (_ & v' & Hrd & Hn).
  exists v'. split; [|done]. unfold DecodeBytes. rewrite Ew. cbn [mbind res_bind].
  destruct (Hrd (Reset b (zlen b)) [] []) as (s & -> & [[Hs _ _ _ _ _] _]); [|done|].
  { rewrite app_nil_r. by apply Pos_View, Reset_Pos. }
  by rewrite Hs.
Qed.

(** ** Decoding ends *)

(** What is left to read: a tag that has been read ahead counts as one byte. *)
Definition mu (s : Stream) : nat := (length (s_r s) + match s_kind s with Some _ => 1 | None => 0 end)%nat.

(** A decoder, given a stream with less than [N] left: it takes something from the
    stream, or it reports an error; [EOL] only when it has not touched the stream
    and its tag had not been read.  It never panics, so that it never runs out of
    fuel. *)
Definition good {A} (N : nat) (m : SM A) : Prop := ∀ s, (mu s < N)%nat →
  match m s with
  | (Ok _, s') => s_kind s' = None ∧ (mu s' < mu s)%nat
  | (Err e, s') => e = EOL → s' = s ∧ (s_kind s = None ∨ kinderr s ≠ None)
  | (Panic _, _) => False
  end.
(** What follows in the same list. *)
Definition nice {A} (N : nat) (m : SM A) : Prop := ∀ s, s_kind s = None → (mu s < N)%nat →
  match m s with
  | (Ok _, s') => s_kind s' = None ∧ (mu s' ≤ mu s)%nat
  | (Err e, _) => e ≠ EOL
  | (Panic _, _) => False
  end.
(** What reads a content whose tag has been read. *)
Definition body {A} (m : SM A) : Prop := ∀ s,
  match m s with
  | (Ok _, s') => s_kind s' = None ∧ (length (s_r s') ≤ length (s_r s))%nat
  | (Err e, _) => e ≠ EOL
  | (Panic _, _) => False
  end.

Lemma willRead_body n : body (willRead n) ∧ ∀ s s', willRead n s = (Ok (), s') → s_r s' = s_r s.
Proof.
  split.
  - intros s. unfold willRead. destruct (stack (set_kind None s)); cbn; repeat (case_match || case_bool_decide); simplify_eq/=; done.
  - intros s s'. unfold willRead. destruct (stack (set_kind None s)); cbn; repeat (case_match || case_bool_decide); intros; simplify_eq/=; done.
Qed.

Lemma readFull_body n : body (readFull n).
Proof.
  intros s. unfold readFull. rewrite bind_eq. destruct (willRead_body n) as [Hb Hr]. specialize (Hb s).
  destruct (willRead n s) as [[[]|e|e] s1] eqn:E; [|done..]. rewrite <- (Hr s s1 E). unfold r_Read. case_bool_decide; [|done]. cbn.
  split; [apply Hb|]. rewrite length_drop. lia.
Qed.

Lemma readByte_body s :
  match readByte s with
  | (Ok _, s') => s_kind s' = None ∧ (length (s_r s') + 1 = length (s_r s))%nat
  | (Err e, _) => e ≠ EOL
  | (Panic _, _) => False
  end.
Proof.
  unfold readByte. rewrite bind_eq. destruct (willRead_body 1) as [Hb Hr]. specialize (Hb s).
  destruct (willRead 1 s) as [[[]|e|e] s1] eqn:E; [|done..]. rewrite <- (Hr s s1 E). unfold r_ReadByte. destruct (s_r s1) as [|b r] eqn:Er; [done|].
  cbn. split; [apply Hb|lia].
Qed.

Lemma body_bind {A B} (m : SM A) (f : A → SM B) : body m → (∀ a, body (f a)) → body (m ≫= f).
Proof.
  intros Hm Hf s. rewrite bind_eq. specialize (Hm s). destruct (m s) as [[a|e|e] s1]; [|done..]. specialize (Hf a s1).
  destruct (f a s1) as [[b|e|e] s2]; [|done..]. split; [apply Hf|lia].
Qed.
Lemma body_rearm {A} (a : A) : body (rearm ;; mret a).
Proof. by intros s. Qed.
Lemma body_fail {A} e : e ≠ EOL → body (fail e : SM A).
Proof. by intros He s. Qed.

(** After reading, a check on what was read. *)
Lemma body_then {A} (m : SM A) {B} (f : A → SM B) :
  body m → (∀ a s, (∃ b, f a s = (Ok b, s)) ∨ ∃ e, f a s = (Err e, s) ∧ e ≠ EOL) → body (m ≫= f).
Proof.
  intros Hm Hf s. rewrite bind_eq. specialize (Hm s). destruct (m s) as [[a|e|e] s1]; [|done..].
  destruct (Hf a s1) as [[b ->]|(e & -> & He)]; done.
Qed.

Lemma readUint_body n : n ≤ 8 → body (readUint n).
Proof.
  intros Hn. unfold readUint. case_bool_decide; [by intros s|]. case_bool_decide.
  - intros s. rewrite bind_eq. pose proof (readByte_body s) as Hb. destruct (readByte s) as [[b|e|e] s1]; [|done..]. cbn. split; [apply Hb|lia].
  - rewrite bool_decide_eq_false_2 by lia. apply body_then; [apply readFull_body|]. intros a s. case_bool_decide; [right|left]; eauto.
Qed.

Lemma readKind_total s :
  ∃ k size err s', stream_readKind s = (Ok (k, size, err), s') ∧ err ≠ Some EOL ∧ (err = None → (length (s_r s') + 1 ≤ length (s_r s))%nat).
Proof.
  rewrite readKind_cases. pose proof (readByte_body s) as Hb. destruct (readByte s) as [[b|e|e] s1]; [| |done].
  - destruct (classify (Z_of_byte b)) as [|k n|k n] eqn:Cb.
    + do 4 eexists. split; [done|]. split; [done|]. intros _. cbn. lia.
    + do 4 eexists. split; [done|]. split; [done|]. intros _. cbn. lia.
    + apply classify_long in Cb as (_ & Hn & _). unfold size_of. pose proof (readUint_body n ltac:(lia) (set_byteval Byte.x00 s1)) as Hu.
      destruct (readUint n _) as [[v|e|e] s2]; [| |done]; do 4 eexists; (split; [done|]).
      * split; [by case_bool_decide|]. intros _. cbn in Hu. lia.
      * split; [congruence|done].
  - do 4 eexists. split; [done|]. split; [|done]. case_match; [done|congruence].
Qed.

Lemma kind_total s :
  match stream_Kind s with
  | (Ok (k, _), s') => s_kind s' = Some k ∧ kinderr s' = None ∧ (mu s' ≤ mu s)%nat
  | (Err e, s') => e = EOL → s' = s ∧ (s_kind s = None ∨ kinderr s ≠ None)
  | (Panic _, _) => False
  end.
Proof.
  unfold stream_Kind. destruct (s_kind s) as [k|] eqn:Ek; [destruct (kinderr s) eqn:Ee; [by auto|done]|].
  case_bool_decide; [by auto|]. destruct (readKind_total s) as (k & size & err & s' & -> & He & Hl).
  destruct err as [e|]; [intros ->; done|]. specialize (Hl eq_refl). unfold mu. rewrite Ek.
  destruct (match listLimit s with Some l => _ | None => false end); [done|]. destruct (limited s' && _); [done|]. cbn. split_and!; [done..|lia].
Qed.

(** A decoder that reads a tag and then its content. *)
Lemma good_kind {A} N (f : Kind * Z → SM A) : (∀ p, body (f p)) → good N (p ← stream_Kind; f p).
Proof.
  intros Hf s Hs. rewrite bind_eq. pose proof (kind_total s) as Hk. destruct (stream_Kind s) as [[[k size]|e|e] s1]; [|done..].
  destruct Hk as (Hk & He & Hmu). specialize (Hf (k, size) s1). destruct (f (k, size) s1) as [[a|e|e] s2]; [|by intros ->|done].
  destruct Hf as [Hn Hl]. split; [done|]. unfold mu in *. rewrite Hn, Hk in *. lia.
Qed.

Lemma wrap_EOL e : wrapStreamError e = EOL → e = EOL.
Proof. unfold wrapStreamError. repeat case_bool_decide; done. Qed.

Lemma good_wrapped {A} N (m : SM A) : good N m → good N (wrapped m).
Proof.
  intros Hm s Hs. specialize (Hm s Hs). unfold wrapped. destruct (m s) as [[a|e|e] s1]; [done| |done].
  intros He. by apply Hm, wrap_EOL.
Qed.

Lemma good_bind {A B} N (m : SM A) (f : A → SM B) : good N m → (∀ a, nice N (f a)) → good N (m ≫= f).
Proof.
  intros Hm Hf s Hs. specialize (Hm s Hs). rewrite bind_eq. destruct (m s) as [[a|e|e] s1]; [|done..]. destruct Hm as [Hk Hmu].
  specialize (Hf a s1 Hk ltac:(lia)). destruct (f a s1) as [[b|e|e] s2]; [|by intros ->|done]. split; [apply Hf|lia].
Qed.

Lemma nice_bind {A B} N (m : SM A) (f : A → SM B) : nice N m → (∀ a, nice N (f a)) → nice N (m ≫= f).
Proof.
  intros Hm Hf s Hk Hs. specialize (Hm s Hk Hs). rewrite bind_eq. destruct (m s) as [[a|e|e] s1]; [|done..].
  specialize (Hf a s1 (proj1 Hm) ltac:(lia)). destruct (f a s1) as [[b|e|e] s2]; [|done..]. split; [apply Hf|lia].
Qed.
Lemma nice_ret {A} N (a : A) : nice N (mret a).
Proof. by intros s Hk Hs. Qed.
Lemma nice_wrapped {A} N (m : SM A) : nice N m → nice N (wrapped m).
Proof. intros Hm s Hk Hs. specialize (Hm s Hk Hs). unfold wrapped. destruct (m s) as [[a|e|e] s1]; [done| |done]. intros He. by apply Hm, wrap_EOL. Qed.
Lemma nice_ListEnd N : nice N ListEnd.
Proof.
  intros s Hk Hs. unfold ListEnd. destruct (stack s); [done|]. case_bool_decide; [done|]. cbn. split; [done|]. unfold mu. cbn. rewrite Hk. lia.
Qed.

Lemma good_List N : good N stream_List.
Proof. apply good_kind. intros [k size]. case_bool_decide; [by intros s|]. by intros s. Qed.

(** The elements of a list. *)
Lemma nice_elems N dec fuel : good N dec → ∀ s, s_kind s = None → (mu s < N)%nat → (mu s < fuel)%nat →
  match decodeSliceElems fuel dec s with
  | (Ok _, s') => s_kind s' = None ∧ (mu s' ≤ mu s)%nat
  | (Err e, _) => e ≠ EOL
  | (Panic _, _) => False
  end.
Proof.
  intros Hd. induction fuel as [|fuel IH]; intros s Hk HN Hf; [lia|]. cbn [decodeSliceElems]. specialize (Hd s HN) as Hd'.
  destruct (dec s) as [[v|e|e] s1]; [| |done].
  - destruct Hd' as [Hk1 Hmu]. rewrite bind_eq. specialize (IH s1 Hk1 ltac:(lia) ltac:(lia)).
    destruct (decodeSliceElems fuel dec s1) as [[l|e|e] s2]; [|done..]. cbn. split; [apply IH|lia].
  - case_bool_decide as He; [|done]. destruct (Hd' He) as [-> _]. done.
Qed.

Lemma nice_array N dec n : good N dec → nice N (decode_array n dec).
Proof.
  intros Hd. induction n as [|n IH]; cbn [decode_array]; [apply nice_ret|]. intros s Hk HN. specialize (Hd s HN) as Hd'.
  destruct (dec s) as [[v|e|e] s1]; [|by case_bool_decide|done]. destruct Hd' as [Hk1 Hmu]. rewrite bind_eq.
  specialize (IH s1 Hk1 ltac:(lia)). destruct (decode_array n dec s1) as [[l|e|e] s2]; [|done..]. cbn. split; [apply IH|lia].
Qed.

Lemma nice_listslice N dec fuel size :
  (N ≤ fuel)%nat → good N dec →
  nice N (if bool_decide (size = 0) then ListEnd ;; mret (VSlice (Some [])) else l ← decodeSliceElems fuel dec; ListEnd ;; mret (VSlice (Some l))).
Proof.
  intros Hf Hd. case_bool_decide.
  - apply nice_bind; [apply nice_ListEnd|]. intros _. apply nice_ret.
  - apply nice_bind.
    + intros s Hk HN. apply (nice_elems N); [done..|lia].
    + intros l. apply nice_bind; [apply nice_ListEnd|]. intros _. apply nice_ret.
Qed.

Lemma good_listslice N dec fuel : (N ≤ fuel)%nat → good N dec → good N (decodeListSlice fuel dec).
Proof. intros Hf Hd. apply good_bind; [apply good_wrapped, good_List|]. intros size. by apply nice_listslice. Qed.

Lemma nice_fields N fuel fields :
  Forall (fun f => if absorbs f.2 f.1 then nice N (decode fuel f.2 f.1) else good N (decode fuel f.2 f.1)) fields →
  nice N (decode_fields fields (map (fun '(ts, t) => decode fuel t ts) fields)).
Proof.
  induction 1 as [|[ts t] fields Hf _ IH]; cbn [map decode_fields fst snd] in *; [apply nice_ret|]. intros s Hk HN.
  assert (match decode fuel t ts s with
          | (Ok _, s') => s_kind s' = None ∧ (mu s' ≤ mu s)%nat
          | (Err e, s') => e = EOL → s' = s
          | (Panic _, _) => False
          end) as Hd.
  { destruct (absorbs t ts); [specialize (Hf s Hk HN)|specialize (Hf s HN)]; destruct (decode fuel t ts s) as [[v|e|e] s1]; try done.
    - split; [apply Hf|lia].
    - intros He. by apply Hf. }
  destruct (decode fuel t ts s) as [[v|e|e] s1]; [| |done].
  - rewrite bind_eq. specialize (IH s1 (proj1 Hd) ltac:(lia)).
    destruct (decode_fields fields _ s1) as [[l|e|e] s2]; [|done..]. cbn. split; [apply IH|lia].
  - case_bool_decide as He; [|done]. specialize (Hd He) as ->. by destruct (Optional ts).
Qed.

Lemma body_checked_uint size : size ≤ 8 → body (checked_uint size).
Proof.
  intros Hs s. unfold checked_uint. pose proof (readUint_body size Hs s) as Hu.
  destruct (readUint size s) as [[v|e|e] s1]; [by destruct (_ && _)|by case_bool_decide|done].
Qed.

Lemma good_uint N bits : uint_bits bits = true → good N (stream_uint bits).
Proof.
  intros Hb. apply good_kind. intros [k size]. assert (bits `div` 8 ≤ 8).
  { unfold uint_bits in Hb. rewrite !orb_true_iff, !bool_decide_eq_true in Hb. destruct_or! Hb; subst bits; done. }
  destruct k; [|case_bool_decide; [by intros s|apply body_checked_uint; lia]|by intros s].
  intros s. rewrite bind_eq. cbv [gets]. by case_bool_decide.
Qed.

(** Reading a content of this size and checking that it is in canonical form. *)
Lemma body_canon {A} size e (f : bytes → A) :
  e ≠ EOL → body (b ← readFull size; if bool_decide (size = 1) && bool_decide (byte_at b 0 < 128) then fail e else mret (f b)).
Proof.
  intros He. apply body_then; [apply readFull_body|]. intros a s. destruct (_ && _); [right; by exists e|left; by eexists].
Qed.

Lemma good_Bytes N : good N stream_Bytes.
Proof. apply good_kind. intros [k size]. destruct k; [by intros s|by apply (body_canon _ _ id)|by intros s]. Qed.

Lemma good_Raw N : good N Raw.
Proof.
  apply good_kind. intros [k size]. destruct k; [by intros s|..];
    (apply body_then; [apply readFull_body|]; intros a s; left; by eexists).
Qed.

Lemma good_BigInt N : good N stream_BigInt.
Proof.
  apply good_kind. intros [k size]. apply body_then.
  - destruct k; cbn [bigint_buffer]; [by intros s| |by intros s]. case_bool_decide; [by intros s|].
    case_bool_decide; [by apply (body_canon _ _ id)|apply readFull_body].
  - intros a s. destruct (_ && _); [right; by eexists|left; by eexists].
Qed.

Lemma good_ByteArray N n : good N (decodeByteArray n).
Proof.
  apply good_kind. intros [k size]. destruct k.
  - case_bool_decide; [by intros s|]. case_bool_decide; by intros s.
  - case_bool_decide; [by intros s|]. case_bool_decide; [by intros s|]. assert (Z.of_nat n = size) as -> by lia. by apply body_canon.
  - by intros s.
Qed.

Lemma good_NilPtr N nk dec : good N dec → good N (decodeNilPtr nk dec).
Proof.
  intros Hd s HN. unfold decodeNilPtr. rewrite bind_eq. unfold wrapped. pose proof (kind_total s) as Hk.
  destruct (stream_Kind s) as [[[k size]|e|e] s1]; [|intros He; by apply Hk, wrap_EOL|done]. destruct Hk as (Hk & He & Hmu).
  destruct (_ && _).
  - case_bool_decide; [by intros ?|]. cbn. split; [done|]. unfold mu in *. cbn. rewrite Hk in Hmu. lia.
  - specialize (Hd s1 ltac:(lia)). rewrite bind_eq. destruct (dec s1) as [[v|e|e] s2]; [cbn; split; [apply Hd|lia]| |done].
    intros Hx. destruct (Hd Hx) as [_ [Hn|Hn]]; congruence.
Qed.

(** The tag has been read, so that less than the fuel is left for the elements. *)
Lemma good_Interface fuel : good fuel (decodeInterface fuel).
Proof.
  induction fuel as [|fuel IH]; intros s HN; [lia|]. cbn [decodeInterface]. rewrite bind_eq. pose proof (kind_total s) as Hk.
  destruct (stream_Kind s) as [[[k size]|e|e] s1]; [|done..]. destruct Hk as (Hk & He & Hmu). case_bool_decide as Hl.
  - unfold decodeListSlice. rewrite !bind_eq. pose proof (good_wrapped _ _ (good_List (S fuel)) s1 ltac:(lia)) as HL.
    destruct (wrapped stream_List s1) as [[n|e|e] s2]; [| |done].
    + destruct HL as [Hk2 Hmu2]. pose proof (nice_listslice fuel _ fuel n ltac:(lia) IH s2 Hk2 ltac:(lia)) as Hd.
      match type of Hd with context [(if ?c then ?x else ?y) s2] => destruct ((if c then x else y) s2) as [[v|e|e] s3] end;
        [cbn; split; [apply Hd|lia]|by intros ->|done].
    + intros Hx. destruct (HL Hx) as [_ [?|?]]; congruence.
  - pose proof (good_Bytes (S fuel) s1 ltac:(lia)) as Hd. rewrite bind_eq. destruct (stream_Bytes s1) as [[b|e|e] s2]; [cbn; split; [apply Hd|lia]| |done].
    intros Hx. destruct (Hd Hx) as [_ [?|?]]; congruence.
Qed.

Lemma good_decode fuel t : ∀ ts, wf_type t = true → tags_fit t ts = true →
  if absorbs t ts then nice fuel (decode fuel t ts) else good fuel (decode fuel t ts).
Proof.
  assert (∀ A B N (m : SM A) (f : A → B), good N m → good N (x ← m; mret (f x))) as Hmap.
  { intros. apply good_bind; [done|]. intros a. apply nice_ret. }
  induction t as [| |t IH|bits| | |t IH|n t IH|fs IH| |] using gotype_nested_ind; intros ts Hwf Hfit; cbn [wf_type] in Hwf;
    try (rewrite absorbs_other by done); cbn [decode].
  - apply Hmap, good_Raw.
  - apply Hmap, good_wrapped, good_BigInt.
  - specialize (IH noTags Hwf (tags_fit_noTags t)). cbn in IH. destruct (NilOK ts); [by apply good_NilPtr|by apply Hmap].
  - by apply Hmap, good_wrapped, good_uint.
  - apply Hmap, good_wrapped. apply good_bind; [by apply good_uint|]. intros v. by repeat case_bool_decide; intros s.
  - apply Hmap, good_wrapped, good_Bytes.
  - specialize (IH noTags Hwf (tags_fit_noTags t)). cbn in IH. unfold absorbs. destruct (isByte t); cbn [negb].
    { rewrite andb_false_r. apply Hmap, good_wrapped, good_Bytes. }
    rewrite andb_true_r. destruct (Tail ts); [|by apply good_listslice].
    apply nice_bind; [intros s Hk HN; by apply (nice_elems fuel)|]. intros l. apply nice_ret.
  - specialize (IH noTags Hwf (tags_fit_noTags t)). cbn in IH. destruct (isByte t); [apply good_ByteArray|].
    apply good_bind; [apply good_wrapped, good_List|]. intros _. apply nice_bind; [by apply nice_array|]. intros l.
    apply nice_bind; [apply nice_wrapped, nice_ListEnd|]. intros _. apply nice_ret.
  - apply andb_true_iff in Hwf as [[_ Hfits]%andb_true_iff Hwf].
    apply good_bind; [apply good_wrapped, good_List|]. intros _. apply nice_bind.
    + apply nice_fields. clear Hfit. induction IH as [|[ts' t] fs Ht _ IHfs]; [done|]. cbn [forallb map fst snd] in *.
      apply andb_true_iff in Hfits as [Hf Hfits], Hwf as [Hw Hwf]. constructor; [by apply Ht|by apply IHfs].
    + intros l. apply nice_bind; [apply nice_wrapped, nice_ListEnd|]. intros _. apply nice_ret.
  - apply good_Interface.
  - done.
Qed.

(** C30: Decoding ends on every input: with fuel one above the length of the input,
    no loop of the decoder runs out of it, and no decoder panics; the result is a
    value or an error. *)
Theorem decoding_ends t b e : wf_type t = true → DecodeBytes t b ≠ Panic e.
Proof.
  intros Hwf. unfold DecodeBytes. destruct (writerErr t) as [[]|e'|e'] eqn:Ew; cbn [mbind res_bind]; [|done|by apply writerErr_no_panic in Ew].
  pose proof (good_decode (S (length b)) t noTags Hwf (tags_fit_noTags t)) as Hd. cbn in Hd.
  specialize (Hd (Reset b (zlen b))). unfold mu in Hd. cbn in Hd. specialize (Hd ltac:(lia)).
  destruct (decode _ t noTags _) as [[v|e'|e'] s]; [by case_bool_decide|done|done].
Qed.

(** ** The decoder accepts only encodings *)

(** Types without optional fields: a zero field that was written although it could
    have been left out is read, but not written again. *)
Fixpoint strict (t : gotype) : bool :=
  match t with
  | TPtr t | TSlice t | TArray _ t => strict t
  | TStruct fields => forallb (fun '(ts, _) => negb (Optional ts)) fields && forallb id (map (fun '(_, t) => strict t) fields)
  | _ => true
  end.

(** What a decoder gives has the bytes that it has read as its encoding; [taking] is
    the same for what reads some elements of a list. *)
Definition only {A} (N : nat) (m : SM A) (φ : A → bytes → Prop) : Prop := ∀ s r st a s',
  View s r st → (mu s < N)%nat → m s = (Ok a, s') → ∃ b rest, r = b ++ rest ∧ φ a b ∧ Pos s' rest (spend (zlen b) st).
Definition taking {A} (N : nat) (m : SM A) (ψ : A → bytes → Prop) : Prop := ∀ s x l st a s',
  Pos s x (l :: st) → (mu s < N)%nat → m s = (Ok a, s') → ∃ c rest, x = c ++ rest ∧ ψ a c ∧ Pos s' rest (spend (zlen c) (l :: st)).

Lemma reads_only_only {A} N (m : SM A) φ : reads_only m φ → only N m φ.
Proof. intros H s r st a s' HV _ E. by apply (H s r st). Qed.
Lemma only_map {A B} N (m : SM A) (f : A → B) φ ψ : only N m φ → (∀ a b, φ a b → ψ (f a) b) → only N (x ← m; mret (f x)) ψ.
Proof.
  intros H Hf s r st a s' HV HN (x & s1 & E & [= <- <-])%sm_bind_inv. destruct (H s r st x s1 HV HN E) as (b & rest & Er & Hx & HP). eauto 10.
Qed.
Lemma only_taking {A} N (m : SM A) φ : only N m φ → taking N m φ.
Proof. intros H s x l st a s' HP HN E. by apply (H s x (l :: st)); [apply Pos_View|..]. Qed.
Lemma taking_map {A B} N (m : SM A) (f : A → B) φ ψ : taking N m φ → (∀ a b, φ a b → ψ (f a) b) → taking N (x ← m; mret (f x)) ψ.
Proof.
  intros H Hf s r l st a s' HV HN (x & s1 & E & [= <- <-])%sm_bind_inv. destruct (H s r l st x s1 HV HN E) as (b & rest & Er & Hx & HP). eauto 10.
Qed.

(** One element and then the others. *)
Lemma taking_cons {A B C} N (m : SM A) (n : SM B) (f : A → B → C) φ ψ χ s x l st a s1 c s' :
  taking N m φ → taking N n ψ → (∀ a b c d, φ a c → ψ b d → χ (f a b) (c ++ d)) →
  Pos s x (l :: st) → (mu s < N)%nat → (mu s1 ≤ mu s)%nat → m s = (Ok a, s1) → (b ← n; mret (f a b)) s1 = (Ok c, s') →
  ∃ d rest, x = d ++ rest ∧ χ c d ∧ Pos s' rest (spend (zlen d) (l :: st)).
Proof.
  intros Hm Hn Hf HP HN Hmu E1 (b & s2 & E2 & [= <- <-])%sm_bind_inv. destruct (Hm s x l st a s1 HP HN E1) as (c1 & r1 & -> & H1 & HP1).
  cbn [spend] in HP1. destruct (Hn s1 r1 _ _ b s2 HP1 ltac:(lia) E2) as (c2 & r2 & -> & H2 & HP2). exists (c1 ++ c2), r2.
  split_and!; [by rewrite app_assoc|by apply Hf|]. change (u64 (l - zlen c1) :: st) with (spend (zlen c1) (l :: st)) in HP2.
  by rewrite spend_spend, <- zlen_app in HP2.
Qed.

Lemma taking_nil {A} N (a : A) ψ : ψ a [] → taking N (mret a) ψ.
Proof.
  intros Ha s x l st a' s' HP HN [= <- <-]. exists [], x. split_and!; [done..|]. rewrite zlen_nil, spend_0; [done|]. by destruct HP as [[] _].
Qed.

Lemma elems_taking N dec φ fuel :
  good N dec → only N dec φ → taking N (decodeSliceElems fuel dec) (fun vs c => ∃ bs, c = concat bs ∧ Forall2 φ vs bs).
Proof.
  intros Hg Ho. induction fuel as [|fuel IH]; intros s x l st vs s' HP HN; [done|]. cbn [decodeSliceElems]. specialize (Hg s HN) as Hg'.
  destruct (dec s) as [[v|e|e] s1] eqn:E; [| |done].
  - intros E2. eapply (taking_cons N dec _ cons φ _ (fun vs c => ∃ bs, c = concat bs ∧ Forall2 φ vs bs));
      [by apply only_taking|exact IH| |done|done| |exact E|exact E2]; [|lia].
    intros a b c d Ha (bs & -> & Hbs). exists (c :: bs). split; [done|by constructor].
  - case_bool_decide as He; [|done]. destruct (Hg' He) as [-> _]. intros [= <- <-]. eapply (taking_nil N [] (fun vs c => ∃ bs, c = concat bs ∧ Forall2 φ vs bs)); [by exists []|done..].
Qed.

Lemma array_taking N dec φ n :
  good N dec → only N dec φ → taking N (decode_array n dec) (fun vs c => ∃ bs, c = concat bs ∧ Forall2 φ vs bs ∧ length vs = n).
Proof.
  intros Hg Ho. induction n as [|n IH]; cbn [decode_array]; [apply taking_nil; by exists []|]. intros s x l st vs s' HP HN. specialize (Hg s HN) as Hg'.
  destruct (dec s) as [[v|e|e] s1] eqn:E; [|done..].
  intros E2. eapply (taking_cons N dec _ cons φ _ (fun vs c => ∃ bs, c = concat bs ∧ Forall2 φ vs bs ∧ length vs = S n));
    [by apply only_taking|exact IH| |done|done| |exact E|exact E2]; [|lia].
  intros a b c d Ha (bs & -> & Hbs & Hl). exists (c :: bs). split_and!; [done|by constructor|by rewrite <- Hl].
Qed.

(** The limit of a list is used up exactly at its end, wrap-around or not. *)
Lemma limit_used size n : in_u 64 size → 0 ≤ n < 2 ^ 63 → u64 (size - n) = 0 → n = size.
Proof.
  unfold in_u, wrapu. intros Hs Hn H. apply Z.mod_divide in H as [q Hq]; [|done]. assert (q = 0) as -> by nia. lia.
Qed.

Lemma list_only {A B} N (m : Z → SM A) (f : A → B) (e1 e2 : ∀ X, SM X → SM X) ψ :
  (∀ X (y : SM X) s a s', e1 X y s = (Ok a, s') → y s = (Ok a, s')) → (∀ X (y : SM X) s a s', e2 X y s = (Ok a, s') → y s = (Ok a, s')) →
  (∀ size, taking N (m size) ψ) →
  only (S N) (size ← e1 _ stream_List; a ← m size; e2 _ ListEnd ;; mret (f a)) (fun v b => ∃ a c, v = f a ∧ b = rlp_list c ∧ ψ a c).
Proof.
  intros H1 H2 Hm s r st v s' HV HN (size & s1 & E1 & (a & s2 & E2 & ([] & s3 & E3 & [= <- <-])%sm_bind_inv)%sm_bind_inv)%sm_bind_inv.
  apply H1 in E1. apply H2 in E3. pose proof (good_List (S N) s HN) as Hmu. rewrite E1 in Hmu.
  destruct (List_inv s r st size s1 HV E1) as (x & -> & Hsz & H64 & HP1).
  destruct (Hm size s1 x _ _ a s2 HP1 ltac:(lia) E2) as (c & rest & -> & Hψ & HP2). cbn [spend] in HP2.
  destruct (ListEnd_inv _ _ _ _ _ HP2 E3) as [H0 HP3].
  assert (zlen c < 2 ^ 63) as Hc.
  { destruct HP1 as [[_ _ _ _ Hlen _] _]. rewrite zlen_app in Hlen. pose proof (zlen_nonneg rest). lia. }
  pose proof (zlen_nonneg c). apply limit_used in H0; [|unfold in_u; lia|lia]. subst size.
  exists (rlp_list c), rest. split_and!; [by unfold rlp_list; rewrite <- app_assoc|by exists a, c|]. by unfold rlp_list; rewrite zlen_app.
Qed.

Lemma only_weaken {A} N (m : SM A) φ : only (S N) m φ → only N m φ.
Proof. intros H s r st a s' HV HN. apply (H s r st); [done|lia]. Qed.

Lemma only_ext {A} N (m m' : SM A) φ : (∀ s, m s = m' s) → only N m' φ → only N m φ.
Proof. intros He H s r st a s' HV HN E. rewrite He in E. by apply (H s r st). Qed.

Definition elements_of (φ : val → bytes → Prop) (vs : list val) (c : bytes) : Prop := ∃ bs, c = concat bs ∧ Forall2 φ vs bs.

Lemma listslice_only N dec φ fuel : good N dec → only N dec φ →
  only (S N) (decodeListSlice fuel dec) (fun v b => ∃ vs c, v = VSlice (Some vs) ∧ b = rlp_list c ∧ elements_of φ vs c).
Proof.
  intros Hg Ho. eapply (only_ext _ _ (size ← wrapped stream_List; l ← (if bool_decide (size = 0) then mret [] else decodeSliceElems fuel dec);
                                      ListEnd ;; mret (VSlice (Some l)))).
  - intros s. unfold decodeListSlice. rewrite !bind_eq. destruct (wrapped stream_List s) as [[n|e|e] s1]; [|done..]. by case_bool_decide.
  - apply (list_only N _ (fun l => VSlice (Some l)) (fun X => wrapped) (fun X (y : SM X) => y)); [intros; by apply wrapped_inv|done|].
    intros n. case_bool_decide; [apply taking_nil; by exists []|by apply elems_taking].
Qed.

Definition is_encoding (t : gotype) (ts : Tags) (v : val) (b : bytes) : Prop := enc v t ts = Ok b ∧ has_type v t = true.

Lemma elements_encoding t vs c : elements_of (is_encoding t noTags) vs c →
  concat_res (map (fun v => enc v t noTags) vs) = Ok c ∧ forallb (fun v => has_type v t) vs = true.
Proof.
  intros (bs & -> & H). induction H as [|v b vs bs [He Ht] _ [IH1 IH2]]; [done|]. cbn [map concat_res concat forallb].
  rewrite He. cbn [mbind res_bind]. rewrite IH1, Ht. done.
Qed.

Lemma nilptr_only N nk dec φ :
  nk ≠ KByte → good N dec → only N dec φ →
  only N (decodeNilPtr nk dec) (fun v b => (v = VPtr None ∧ b = encoded nk []) ∨ ∃ v', v = VPtr (Some v') ∧ φ v' b).
Proof.
  intros Hnk Hg Ho s r st v s' HV HN ([k size] & s1 & Ek & E)%sm_bind_inv. apply wrapped_inv in Ek. pose proof (kind_total s) as Hmu. rewrite Ek in Hmu.
  destruct Hmu as (_ & _ & Hmu). apply (kind_inv s r st) in Ek as HC; [|done].
  destruct (bool_decide (k ≠ KByte) && bool_decide (size = 0)) eqn:Ec.
  - apply andb_true_iff in Ec as [Hk%bool_decide_eq_true H0%bool_decide_eq_true]. revert E. case_bool_decide as Hkk; [done|]. intros [= <- <-].
    assert (k = nk) as -> by (destruct (decide (k = nk)); done). subst size.
    destruct HC as (_ & _ & _ & _ & x & -> & [? ? ? ? ? ?] & _). assert (tagbytes nk 0 (byteval s1) = encoded nk []) as Et by (by destruct nk).
    rewrite Et in *. exists (encoded nk []), x. split_and!; [done|by left|]. by split; [constructor|].
  - apply sm_bind_inv in E as (v' & s2 & E & [= <- <-]).
    destruct (Ho s1 r st v' s2) as (b & rest & -> & Hφ & HP); [by eapply Cached_View|lia|done|]. exists b, rest. split_and!; [done|right; eauto|done].
Qed.

Lemma interface_only fuel : only fuel (decodeInterface fuel) (is_encoding TInterface noTags).
Proof.
  induction fuel as [|fuel IH]; intros s r st v s' HV HN; [lia|]. cbn [decodeInterface]. intros ([k size] & s1 & Ek & E)%sm_bind_inv.
  pose proof (kind_total s) as Hmu. rewrite Ek in Hmu. destruct Hmu as (Hk & _ & Hmu). apply (kind_inv s r st) in Ek as HC; [|done].
  pose proof (Cached_View _ _ _ _ _ _ HV HC) as HV1. revert E. case_bool_decide as Hl.
  - intros (w & s2 & E & [= <- <-])%sm_bind_inv.
    destruct (listslice_only fuel _ _ fuel (good_Interface fuel) IH s1 r st w s2 HV1 ltac:(lia) E) as (b & rest & -> & (vs & c & -> & -> & Hel) & HP).
    exists (rlp_list c), rest. split_and!; [done| |done]. destruct (elements_encoding _ _ _ Hel) as [He Ht].
    split; cbn [enc has_type iface_list writerErr isByte mbind res_bind]; [|done]. by rewrite He.
  - intros (b & s2 & E & [= <- <-])%sm_bind_inv. destruct (Bytes_only s1 r st b s2 HV1 E) as (bs & rest & -> & -> & HP).
    exists (rlp_string b), rest. done.
Qed.

Lemma fields_taking N fuel fields :
  forallb (fun '(ts, _) => negb (Optional ts)) fields = true →
  Forall (fun f => if absorbs f.2 f.1 then nice N (decode fuel f.2 f.1) ∧ taking N (decode fuel f.2 f.1) (is_encoding f.2 f.1)
                   else good N (decode fuel f.2 f.1) ∧ only N (decode fuel f.2 f.1) (is_encoding f.2 f.1)) fields →
  taking N (decode_fields fields (map (fun '(ts, t) => decode fuel t ts) fields))
    (fun l c => concat_res (zip_with (fun f '(ts, t) => f t ts) (map enc l) fields) = Ok c
                ∧ forallb id (zip_with (fun h '(_, t) => h t) (map has_type l) fields) = true ∧ length l = length fields).
Proof.
  intros Hs H. induction H as [|[ts t] fields Hf _ IH]; cbn [map decode_fields forallb fst snd] in *; [by apply taking_nil|].
  apply andb_true_iff in Hs as [Ho Hs]. specialize (IH Hs). intros s x l st vs s' HP HN.
  assert (taking N (decode fuel t ts) (is_encoding t ts)
          ∧ match decode fuel t ts s with (Ok _, s1) => (mu s1 ≤ mu s)%nat | _ => True end) as [Htk Hmu].
  { destruct (absorbs t ts); destruct Hf as [Hg Hf]; (split; [first [done|by apply only_taking]|]).
    - specialize (Hg s (proj2 HP) HN). destruct (decode fuel t ts s) as [[v|e|e] s1]; [lia|done|done].
    - specialize (Hg s HN). destruct (decode fuel t ts s) as [[v|e|e] s1]; [lia|done|done]. }
  destruct (decode fuel t ts s) as [[v|e|e] s1] eqn:E; [| |done].
  - intros E2. eapply (taking_cons N (decode fuel t ts) _ cons (is_encoding t ts) _
      (fun l c => concat_res (zip_with (fun f '(ts, t) => f t ts) (map enc l) ((ts, t) :: fields)) = Ok c
                  ∧ forallb id (zip_with (fun h '(_, t) => h t) (map has_type l) ((ts, t) :: fields)) = true ∧ length l = length ((ts, t) :: fields)));
      [done|exact IH| |done|done|done|exact E|exact E2].
    intros w ws c d [He Ht] (Hes & Hts & Hl). cbn [map zip_with concat_res forallb length]. rewrite He. cbn [mbind res_bind]. rewrite Hes. cbn [mbind res_bind].
    cbn. rewrite Ht, Hts. split_and!; [done|done|lia].
  - case_bool_decide; [|done]. by destruct (Optional ts).
Qed.

Lemma firstOptionalField_none fields : forallb (fun '(ts, _) => negb (Optional ts)) fields = true → firstOptionalField fields = length fields.
Proof.
  induction fields as [|[ts t] fields IH]; [done|]. cbn [forallb firstOptionalField length]. intros [Ho H]%andb_true_iff.
  destruct (Optional ts); [done|]. by rewrite IH.
Qed.

Lemma slice_only fuel t ts :
  isByte t = false → good fuel (decode fuel t noTags) → only fuel (decode fuel t noTags) (is_encoding t noTags) →
  if absorbs (TSlice t) ts then taking fuel (decode fuel (TSlice t) ts) (is_encoding (TSlice t) ts)
  else only fuel (decode fuel (TSlice t) ts) (is_encoding (TSlice t) ts).
Proof.
  intros Eb Hg IH. unfold absorbs. cbn [decode]. rewrite Eb. cbn [negb]. rewrite andb_true_r. destruct (Tail ts) eqn:Et.
  - eapply taking_map; [by apply (elems_taking fuel _ (is_encoding t noTags))|]. intros vs c Hel. destruct (elements_encoding _ _ _ Hel) as [He Ht].
    split; cbn [enc has_type]; rewrite Eb; [|done]. rewrite He. cbn [mbind res_bind]. by rewrite Et.
  - intros s r st v s' HV HN E. destruct (listslice_only fuel _ _ fuel Hg IH s r st v s' HV ltac:(lia) E) as (b & rest & -> & (vs & c & -> & -> & Hel) & HP).
    exists (rlp_list c), rest. split_and!; [done| |done]. destruct (elements_encoding _ _ _ Hel) as [He Ht].
    split; cbn [enc has_type]; rewrite Eb; [|done]. rewrite He. cbn [mbind res_bind]. by rewrite Et.
Qed.

Lemma array_only fuel n t ts :
  isByte t = false → Tail ts = false → good fuel (decode fuel t noTags) → only fuel (decode fuel t noTags) (is_encoding t noTags) →
  only fuel (decodeListArray n (decode fuel t noTags)) (is_encoding (TArray n t) ts).
Proof.
  intros Eb Etl Hg IH. apply only_weaken. intros s r st v s' HV HN E.
  destruct (list_only fuel (fun _ => decode_array n (decode fuel t noTags)) VArray (fun X => wrapped) (fun X => wrapped) _
              (fun X y => wrapped_inv y) (fun X y => wrapped_inv y) (fun _ => array_taking fuel _ _ n Hg IH) s r st v s' HV HN E)
    as (b & rest & -> & (vs & c & -> & -> & (bs & -> & H2 & Hl)) & HP).
  exists (rlp_list (concat bs)), rest. split_and!; [done| |done]. destruct (elements_encoding t vs (concat bs)) as [He Ht]; [by exists bs|].
  split; cbn [enc has_type]; rewrite Eb; [rewrite He; cbn [mbind res_bind]; by rewrite Etl|]. rewrite Ht. cbn [negb andb]. by rewrite bool_decide_eq_true_2.
Qed.

Lemma struct_only fuel fs ts :
  forallb (fun '(ts, _) => negb (Optional ts)) fs = true →
  Forall (fun f => if absorbs f.2 f.1 then nice fuel (decode fuel f.2 f.1) ∧ taking fuel (decode fuel f.2 f.1) (is_encoding f.2 f.1)
                   else good fuel (decode fuel f.2 f.1) ∧ only fuel (decode fuel f.2 f.1) (is_encoding f.2 f.1)) fs →
  only fuel (decode fuel (TStruct fs) ts) (is_encoding (TStruct fs) ts).
Proof.
  intros Ho Hfs. apply only_weaken. intros s r st v s' HV HN E.
  destruct (list_only fuel (fun _ => decode_fields fs (map (fun '(ts, t) => decode fuel t ts) fs)) VStruct (fun X => wrapped) (fun X => wrapped) _
              (fun X y => wrapped_inv y) (fun X y => wrapped_inv y) (fun _ => fields_taking fuel fuel fs Ho Hfs) s r st v s' HV HN E)
    as (b & rest & -> & (vs & c & -> & -> & (He & Ht & Hl)) & HP).
  exists (rlp_list c), rest. split_and!; [done| |done]. split; cbn [enc has_type].
  - rewrite firstOptionalField_none, bool_decide_eq_true_2 by done. rewrite take_ge; [by rewrite He|]. rewrite length_zip_with, length_map. lia.
  - rewrite Ht, andb_true_r. by apply bool_decide_eq_true_2.
Qed.

Lemma pointer_only fuel t ts :
  NilOK ts = true → NilKind ts ≠ KByte → good fuel (decode fuel t noTags) → only fuel (decode fuel t noTags) (is_encoding t noTags) →
  only fuel (decodeNilPtr (typeNilKind t ts) (decode fuel t noTags)) (is_encoding (TPtr t) ts).
Proof.
  intros En Hk Hg IH. assert (typeNilKind t ts = NilKind ts) as Et by (unfold typeNilKind; by rewrite En). rewrite Et.
  intros s r st v s' HV HN E. destruct (nilptr_only fuel _ _ _ Hk Hg IH s r st v s' HV HN E) as (b & rest & -> & H & HP).
  exists b, rest. split_and!; [done| |done]. destruct H as [[-> ->]|(v' & -> & [He Ht])]; [|by split]. split; [|done]. cbn [enc]. rewrite Et.
  by destruct (NilKind ts).
Qed.

Lemma decode_only fuel t : ∀ ts, wf_type t = true → tags_fit t ts = true → strict t = true →
  if absorbs t ts then taking fuel (decode fuel t ts) (is_encoding t ts) else only fuel (decode fuel t ts) (is_encoding t ts).
Proof.
  induction t as [| |t IH|bits| | |t IH|n t IH|fs IH| |] using gotype_nested_ind; intros ts Hwf Hfit Hst; cbn [wf_type strict] in Hwf, Hst;
    try (rewrite absorbs_other by done);
    try (specialize (IH noTags Hwf (tags_fit_noTags t) Hst); cbn in IH; pose proof (good_decode fuel t noTags Hwf (tags_fit_noTags t)) as Hg; cbn in Hg).
  - eapply only_map; [apply reads_only_only, Raw_only|]. by intros a b [-> _].
  - eapply only_map; [apply reads_only_only, reads_only_wrapped, BigInt_only|]. intros z b [Hz ->]. split; [|done]. cbn [enc].
    by rewrite bool_decide_eq_false_2 by lia.
  - cbn [decode]. destruct (NilOK ts) eqn:En; [|eapply only_map; [exact IH|done]]. apply pointer_only; [done| |done|done].
    unfold tags_fit in Hfit. rewrite En in Hfit. cbn [negb orb] in Hfit. apply andb_true_iff in Hfit as [_ H]. by apply bool_decide_eq_true in H.
  - eapply only_map; [apply reads_only_only, reads_only_wrapped, uint_only, Hwf|]. intros v b [Hv ->]. split; [done|]. cbn [has_type].
    rewrite Hwf. by apply bool_decide_eq_true_2.
  - eapply only_map; [apply reads_only_only, reads_only_wrapped, Bool_only|]. by intros v b ->.
  - eapply only_map; [apply reads_only_only, reads_only_wrapped, Bytes_only|]. by intros v b ->.
  - destruct (isByte t) eqn:Eb; [|by apply slice_only]. unfold absorbs. cbn [decode]. rewrite Eb. cbn [negb]. rewrite andb_false_r.
    eapply only_map; [apply reads_only_only, reads_only_wrapped, Bytes_only|]. intros v b ->. split; cbn [enc has_type]; by rewrite Eb.
  - cbn [decode]. destruct (isByte t) eqn:Eb; [|apply array_only; [done| |done|done]].
    + intros s r st v s' HV HN E. destruct (ByteArray_only n s r st v s' HV E) as (b & rest & -> & (c & -> & Hl & ->) & HP).
      exists (rlp_string c), rest. split_and!; [done| |done]. split; cbn [enc has_type]; rewrite Eb; [done|]. by apply bool_decide_eq_true_2.
    + destruct (Tail ts) eqn:Et; [|done]. apply tags_fit_tail in Hfit; [|done]. by rewrite absorbs_other in Hfit.
  - apply andb_true_iff in Hwf as [[_ Hfits]%andb_true_iff Hwf]. apply andb_true_iff in Hst as [Ho Hst]. apply struct_only; [done|].
    clear - IH Hfits Hwf Hst. induction IH as [|[ts' t] fs Ht _ IHfs]; [done|]. cbn [forallb map fst snd] in *.
    apply andb_true_iff in Hfits as [Hf Hfits], Hwf as [Hw Hwf], Hst as [Hs Hst]. constructor; [|by apply IHfs]. cbn [fst snd].
    pose proof (good_decode fuel t ts' Hw Hf) as Hg. specialize (Ht ts' Hw Hf Hs). by destruct (absorbs t ts').
  - intros s r st a s' HV HN E. destruct (interface_only fuel s r st a s' HV HN E) as (b & rest & -> & [He Ht] & HP). exists b, rest.
    split_and!; [done|split; [by destruct a|done]|done].
  - done.
Qed.

(** C15: The decoder accepts nothing but encodings: for every type without optional
    fields, when decoding an input gives a value, encoding the value gives back
    exactly the input.  So a value has one encoding that is accepted, and no two
    inputs are read as the same value. *)
Theorem decoded_is_canonical t b v :
  wf_type t = true → strict t = true → zlen b < 2 ^ 63 → DecodeBytes t b = Ok v → has_type v t = true ∧ EncodeToBytes t v = Ok b.
Proof.
  intros Hwf Hst Hz. unfold DecodeBytes. intros ([] & Ew & E)%bind_ok.
  pose proof (decode_only (S (length b)) t noTags Hwf (tags_fit_noTags t) Hst) as Ho. cbn in Ho.
  destruct (decode _ t noTags _) as [[w|e|e] s] eqn:Ed; [|done..].
  destruct (Ho (Reset b (zlen b)) b [] w s) as (c & rest & Eb & [He Ht] & [[Hr _ _ _ _ _] _]); [by apply Pos_View, Reset_Pos|unfold mu; cbn; lia|done|].
  revert E. rewrite Hr. case_bool_decide as Hrest; [done|]. intros [= ->].
  assert (rest = []) as -> by (destruct rest; [done|rewrite zlen_cons in Hrest; pose proof (zlen_nonneg rest); lia]). rewrite app_nil_r in Eb. subst c.
  split; [done|]. apply EncodeToBytes_ok; [done| |done]. unfold encoding. by rewrite Ew.
Qed.

(** ** A list that does not fit *)

(** An element that is larger than what its list has left is not always refused:
    the size is compared with the room before the tag was read.  For an inner list
    that exceeds the room by at most the length of its tag, [List] succeeds, and the
    room of the outer list wraps around to almost 2^64.  (The outer list can then not
    be ended, so that the input is refused later.) *)
Theorem oversized_list_wraps s size x l st :
  Pos s (kind_tag KList size ++ x) (l :: st) → 0 ≤ size ≤ zlen x →
  zlen (kind_tag KList size) ≤ l → size ≤ l → l < zlen (kind_tag KList size) + size →
  ∃ s', stream_List s = (Ok size, s') ∧ stack s' = [size; 2 ^ 64 + l - zlen (kind_tag KList size) - size] ++ st.
Proof.
  intros [HS Hk] Hsize Ht Hs Hl. pose proof (zlen_nonneg x). pose proof (str_limits _ _ _ HS) as [Hin _]%Forall_cons_iff. unfold in_u in Hin.
  assert (size < 2 ^ 64) by lia. assert (tag_ok KList size Byte.x00) as Hok by (cbn [tag_ok]; lia).
  destruct (readKind_ok s KList size Byte.x00 x (l :: st) HS Hok Ht) as (s1 & E1 & HS1 & _). cbn [tagbytes] in HS1.
  unfold stream_List. rewrite bind_eq. unfold stream_Kind. rewrite Hk. unfold listLimit. rewrite (str_stack _ _ _ HS). cbn [head].
  assert (1 ≤ zlen (kind_tag KList size)) by (rewrite zlen_kind_tag by done; case_bool_decide; lia).
  rewrite bool_decide_eq_false_2 by (intros [= ->]; lia). rewrite E1, (bool_decide_eq_false_2 (size > l)) by lia.
  rewrite (str_remaining _ _ _ HS1), (bool_decide_eq_false_2 (size > zlen x)), andb_false_r by lia.
  rewrite bool_decide_eq_false_2 by auto. eexists. split; [done|]. cbn. rewrite (str_stack _ _ _ HS1). cbn [spend]. f_equal. f_equal.
  cbn [kind_tag] in *. set (t := zlen (tag 0xC0 0xF7 size)) in *. rewrite (wrapu_id 64 (l - t)) by (unfold in_u; lia). unfold wrapu.
  replace (l - t - size) with (2 ^ 64 + l - t - size + -1 * 2 ^ 64) by lia. rewrite Z.mod_add by done. apply Z.mod_small. lia.
Qed.

(** ** Concrete inputs *)

Module RlpCodecDemo.

Import RlpEncodeDemo.

Definition nilable := mkTags KString true false false false.

Definition person : gotype :=
  TStruct [(noTags, TUint 64); (noTags, TString); (optional, TPtr (TUint 8)); (tail, TSlice TBool)].
Definition ann : val :=
  VStruct [VUint 1024; VStr (string_bytes "ann"); VPtr (Some (VUint 3)); VSlice (Some [VBool true; VBool false])].
Definition node : gotype := TStruct [(noTags, TArray 2 (TUint 8)); (nilable, TPtr TString); (noTags, TInterface)].
Definition node_bytes : bytes := [Byte.xc6; Byte.x82; Byte.x01; Byte.x02; Byte.x80; Byte.xc1; Byte.xc0].

Lemma decode_encode_witness :
  EncodeToBytes person ann = Ok ([Byte.xca; Byte.x82; Byte.x04; Byte.x00; Byte.x83] ++ string_bytes "ann" ++ [Byte.x03; Byte.x01; Byte.x80])
  ∧ ∃ v', DecodeBytes person ([Byte.xca; Byte.x82; Byte.x04; Byte.x00; Byte.x83] ++ string_bytes "ann" ++ [Byte.x03; Byte.x01; Byte.x80]) = Ok v'
          ∧ norm v' = norm ann.
Proof. apply decode_encode; vm_compute; reflexivity. Defined.

Lemma decoding_ends_witness : DecodeBytes node (node_bytes ++ [Byte.xf9]) ≠ Panic "out of fuel".
Proof. apply decoding_ends. reflexivity. Defined.

Definition node_val : val :=
  VStruct [VByteArray [Byte.x01; Byte.x02]; VPtr None;
           iface_list (VSlice (Some [iface_list (VSlice (Some []))]))].

Lemma decoded_is_canonical_witness : has_type node_val node = true ∧ EncodeToBytes node node_val = Ok node_bytes.
Proof. apply decoded_is_canonical; vm_compute; reflexivity. Defined.

Lemma oversized_list_wraps_witness :
  ∃ s', stream_List (set_stack [1] (Reset [Byte.xc1; Byte.x05] 2)) = (Ok 1, s') ∧ stack s' = [1; 2 ^ 64 + 1 - 1 - 1] ++ [].
Proof.
  apply (oversized_list_wraps _ 1 [Byte.x05] 1 []); [|vm_compute; split; discriminate|vm_compute; discriminate|lia|reflexivity].
  split; [|reflexivity]. constructor; try reflexivity. constructor; [unfold in_u; lia|constructor].
Defined.

End RlpCodecDemo.
