(* ===== verification/Server.v ===== *)
(** * Server: accepting connections and running handlers

    Models framework/core/server.go, conn_pool.go, tasks.go and the parts of conn.go
    that start, serve and close a connection (Start, handleLoop, Close).  The
    goroutines are the events of a step function: the accept loop, the three loops
    of every connection, the workers of the task pool and a call of Stop; a run is
    any sequence of events, and an event that cannot happen in a state leaves it
    unchanged.  What the loops read and write is modelled in [Conn]; here a message
    is a number, with a flag for whether a handler is registered for its type.

    The listener is one; counters do not reach 2^63.  Logs and metrics are left out.
    The fields [received], [executed] and [dropped] record what happened. *)
From S2P Require Import Prelude.

(** ** The task pool *)

Definition DefTaskPoolCount : nat := 200.
Definition TaskSize : nat := 1024.

(** A queued call: the connection, the message and its place in the stream. *)
Record job := mkJob { j_conn : Z; j_msg : Z }.
#[global] Instance job_eq_dec : EqDecision job.
Proof. solve_decision. Defined.

Record task := mkTask { callbackChan : list job; alive : bool }.

Definition makeTaskPool (count : nat) : list task :=
  replicate (if bool_decide (count ≤ 0)%nat then DefTaskPoolCount else count) (mkTask [] true).

(** FNV-1a of hash/fnv over the eight bytes of the id, in little-endian order. *)
Definition fnv32a (bs : list Z) : Z := foldl (fun h b => u32 (Z.lxor h b * 16777619)) 2166136261 bs.
Definition id_bytes (id : Z) : list Z := map (fun i => Z.land (Z.shiftr (u64 id) (8 * i)) 255) [0; 1; 2; 3; 4; 5; 6; 7].
Definition job_index (count : nat) (id : Z) : nat :=
  Z.to_nat (Z.land (fnv32a (id_bytes id)) (u32 (Z.of_nat count - 1))).

(** [task.job]: queued if there is room. *)
Definition task_job (t : task) (j : job) : task * bool :=
  if bool_decide (length (callbackChan t) < TaskSize)%nat then (mkTask (callbackChan t ++ [j]) (alive t), true) else (t, false).

Definition Job (tasks : list task) (j : job) : res (list task * bool) :=
  let i := job_index (length tasks) (j_conn j) in
  match tasks !! i with
  | None => Panic "index out of range"
  | Some t => let '(t', ok) := task_job t j in Ok (<[i := t']> tasks, ok)
  end.

(** One turn of [task.start]: a call that panics is recovered outside the loop, so
    that the goroutine ends. *)
Definition task_turn (t : task) (panics : bool) : option (job * task) :=
  if alive t then
    match callbackChan t with
    | [] => None
    | j :: rest => Some (j, mkTask rest (negb panics))
    end
  else None.

(** ** The connection pool *)

Record connPool := mkPool { pool_conns : gset Z; connCnt : Z }.
Definition newConnPool : connPool := mkPool ∅ 0.
Definition pool_Store (p : connPool) (id : Z) : connPool := mkPool ({[id]} ∪ pool_conns p) (connCnt p + 1).
Definition pool_Delete (p : connPool) (id : Z) : connPool := mkPool (pool_conns p ∖ {[id]}) (connCnt p - 1).
(** The type assertion on a missing value panics before the flag is looked at. *)
Definition pool_Load (p : connPool) (id : Z) : res Z :=
  if bool_decide (id ∈ pool_conns p) then Ok id else Panic "interface conversion: interface {} is nil".
Definition pool_Count (p : connPool) : Z := connCnt p.

(** ** Connections *)

Inductive loop := LRead | LWrite | LHandle.
#[global] Instance loop_eq_dec : EqDecision loop.
Proof. solve_decision. Defined.

(** A connection: whether Start has returned, the loops that run, whether Close has
    been entered and whether its first call has returned, whether the socket is closed,
    and the queue of handleLoop. *)
Record ServerConn := mkConn {
  started : bool;
  loops : list loop;
  once : bool;
  finished : bool;
  sock_closed : bool;
  handlerCh : list (Z * bool)
}.
Definition new_conn : ServerConn := mkConn false [] false false false [].

Record Server := mkServer {
  maxConnections : Z;
  bufferSize : nat;
  lis : bool;
  conns : option connPool;
  netID : Z;
  objs : gmap Z ServerConn;
  accepting : bool;
  goroutine : Z;
  wg : Z;
  ctx_done : bool;
  tasks : list task;
  received : list job;
  executed : list job;
  dropped : list job
}.

Definition CreateServer (max : Z) (buf : nat) : Server :=
  mkServer max buf false (Some newConnPool) 0 ∅ false 0 0 false (makeTaskPool 0) [] [] [].

Definition ConnsSize (s : Server) : Z := match conns s with None => 0 | Some p => pool_Count p end.

(** Updates. *)
Definition set_conn (s : Server) (id : Z) (c : ServerConn) : Server :=
  mkServer (maxConnections s) (bufferSize s) (lis s) (conns s) (netID s) (<[id := c]> (objs s)) (accepting s) (goroutine s) (wg s)
    (ctx_done s) (tasks s) (received s) (executed s) (dropped s).
Definition set_conns (s : Server) (p : option connPool) : Server :=
  mkServer (maxConnections s) (bufferSize s) (lis s) p (netID s) (objs s) (accepting s) (goroutine s) (wg s)
    (ctx_done s) (tasks s) (received s) (executed s) (dropped s).
Definition set_accepting (s : Server) (b : bool) : Server :=
  mkServer (maxConnections s) (bufferSize s) (lis s) (conns s) (netID s) (objs s) b (goroutine s) (wg s)
    (ctx_done s) (tasks s) (received s) (executed s) (dropped s).
Definition add_counts (s : Server) (g w : Z) : Server :=
  mkServer (maxConnections s) (bufferSize s) (lis s) (conns s) (netID s) (objs s) (accepting s) (goroutine s + g) (wg s + w)
    (ctx_done s) (tasks s) (received s) (executed s) (dropped s).
Definition set_work (s : Server) (ts : list task) (r e d : list job) : Server :=
  mkServer (maxConnections s) (bufferSize s) (lis s) (conns s) (netID s) (objs s) (accepting s) (goroutine s) (wg s)
    (ctx_done s) ts r e d.

(** ** Accepting *)

(** Start registers the listener, unless the server was stopped before. *)
Definition Server_Start (s : Server) : Server :=
  if ctx_done s then s else
  mkServer (maxConnections s) (bufferSize s) true (conns s) (netID s) (objs s) (accepting s) (goroutine s) (wg s)
    (ctx_done s) (tasks s) (received s) (executed s) (dropped s).

(** Accept returns a connection, and the limit is tested. *)
Definition accept (s : Server) : Server :=
  if negb (lis s) || accepting s then s
  else if bool_decide (maxConnections s ≠ 0) && bool_decide (ConnsSize s >= maxConnections s) then s
  else set_accepting s true.

(** The rest of the iteration: the connection gets an id and is stored, which
    dereferences the pool. *)
Definition store (s : Server) : res Server :=
  if negb (accepting s) then Ok s
  else match conns s with
  | None => Panic "nil pointer dereference"
  | Some p =>
      Ok (mkServer (maxConnections s) (bufferSize s) (lis s) (Some (pool_Store p (netID s))) (netID s + 1)
            (<[netID s := new_conn]> (objs s)) false (goroutine s + 1) (wg s + 1)
            (ctx_done s) (tasks s) (received s) (executed s) (dropped s))
  end.

(** The delay in milliseconds before the next Accept when the process has too many
    open files; it is kept from one failure to the next. *)
Definition next_delay (tempDelay : Z) : Z :=
  let d := if bool_decide (tempDelay = 0) then 5 else tempDelay * 2 in
  if bool_decide (d >= 1000) then 1000 else d.

(** ** Closing *)

(** Close up to the wait for the loops: the first call does the work. *)
Definition Close (s : Server) (id : Z) : Server :=
  match objs s !! id with
  | None => s
  | Some c =>
      let s := add_counts s (-1) 0 in
      if once c then s
      else
        let s := match conns s with None => s | Some p => set_conns s (Some (pool_Delete p id)) end in
        set_conn s id (mkConn (started c) (loops c) true (finished c) true (handlerCh c))
  end.

(** The rest of the first call of Close, when all loops are done: the channels are
    closed, and what is left in them is lost. *)
Definition close_rest (s : Server) (id : Z) : Server :=
  match objs s !! id with
  | Some c =>
      if once c && negb (finished c) && bool_decide (loops c = []) then
        let s := set_conn s id (mkConn (started c) [] true true true []) in
        let s := set_work s (tasks s) (received s) (executed s) (dropped s ++ map (fun '(m, _) => mkJob id m) (handlerCh c)) in
        add_counts s (-1) (-1)
      else s
  | None => s
  end.

(** ** Serving *)

Inductive handshake_result := HsFailed | HsForOther | HsDone.

(** ServerConn.Start: after the handshake of a connection that carries messages, the
    three loops are started.  The handshake does not succeed on a closed socket. *)
Definition Conn_Start (s : Server) (id : Z) (r : handshake_result) : Server :=
  match objs s !! id with
  | Some c =>
      if started c then s
      else
        let start (ls : list loop) := set_conn s id (mkConn true ls (once c) (finished c) (sock_closed c) (handlerCh c)) in
        match r with
        | HsFailed | HsForOther => Close (start []) id
        | HsDone => if sock_closed c then s else add_counts (start [LRead; LWrite; LHandle]) 3 0
        end
  | None => s
  end.

(** A loop returns: its deferred call counts it off and closes the connection. *)
Definition loop_returns (s : Server) (id : Z) (l : loop) : Server :=
  match objs s !! id with
  | Some c =>
      if bool_decide (l ∈ loops c) then
        Close (set_conn s id (mkConn (started c) (filter (fun x => x ≠ l) (loops c)) (once c) (finished c) (sock_closed c) (handlerCh c))) id
      else s
  | None => s
  end.

(** readLoop hands a message over, when there is room in the channel. *)
Definition deliver (s : Server) (id m : Z) (has_handler : bool) : Server :=
  match objs s !! id with
  | Some c =>
      if bool_decide (LRead ∈ loops c) && bool_decide (length (handlerCh c) < bufferSize s)%nat then
        let s := set_conn s id (mkConn (started c) (loops c) (once c) (finished c) (sock_closed c) (handlerCh c ++ [(m, has_handler)])) in
        set_work s (tasks s) (received s ++ [mkJob id m]) (executed s) (dropped s)
      else s
  | None => s
  end.

(** One turn of handleLoop that takes a message. *)
Definition handle_turn (s : Server) (id : Z) : res Server :=
  match objs s !! id with
  | Some c =>
      match bool_decide (LHandle ∈ loops c), handlerCh c with
      | true, (m, has_handler) :: rest =>
          let s := set_conn s id (mkConn (started c) (loops c) (once c) (finished c) (sock_closed c) rest) in
          let j := mkJob id m in
          if (has_handler : bool) then
            '(ts, ok) ← Job (tasks s) j;
            Ok (set_work s ts (received s) (executed s) (if (ok : bool) then dropped s else dropped s ++ [j]))
          else Ok (set_work s (tasks s) (received s) (executed s) (dropped s ++ [j]))
      | _, _ => Ok s
      end
  | None => Ok s
  end.

(** A worker runs the next call. *)
Definition work (s : Server) (i : nat) (panics : bool) : Server :=
  match tasks s !! i with
  | Some t =>
      match task_turn t panics with
      | Some (j, t') => set_work s (<[i := t']> (tasks s)) (received s) (executed s ++ [j]) (dropped s)
      | None => s
      end
  | None => s
  end.

(** Stop up to its wait: no more connections, all sockets closed, the pool dropped. *)
Definition close_socket (c : ServerConn) : ServerConn := mkConn (started c) (loops c) (once c) (finished c) true (handlerCh c).
Definition Stop (s : Server) : res Server :=
  match conns s with
  | None => Panic "nil pointer dereference"
  | Some p =>
      Ok (mkServer (maxConnections s) (bufferSize s) false None (netID s)
            (map_imap (fun id c => Some (if bool_decide (id ∈ pool_conns p) then close_socket c else c)) (objs s))
            (accepting s) (goroutine s) (wg s) true (tasks s) (received s) (executed s) (dropped s))
  end.

(** The channel done of Stop is closed: nothing is left to wait for. *)
Definition wg_done (s : Server) : bool := bool_decide (wg s = 0).

(** The wait of Stop: the cases of its select that are ready, after a time in nanoseconds. *)
Inductive wait_end := AllFinished | TimedOut.
Definition stop_timeout : Z := 30 * 10 ^ 9.
Definition wait_ends (elapsed : Z) (s : Server) : list wait_end :=
  (if wg_done s then [AllFinished] else []) ++ (if bool_decide (stop_timeout ≤ elapsed) then [TimedOut] else []).

Definition Unicast (s : Server) (id : Z) : res Z :=
  match conns s with
  | None => Panic "nil pointer dereference"
  | Some p => pool_Load p id
  end.

(** ** Runs *)

Inductive event :=
| EListen
| EAccept
| EStore
| EHandshake (id : Z) (r : handshake_result)
| EReturn (id : Z) (l : loop)
| EClose (id : Z)
| ECloseRest (id : Z)
| EDeliver (id m : Z) (has_handler : bool)
| EHandle (id : Z)
| EWork (i : nat) (panics : bool)
| EStop.

Definition step (s : Server) (e : event) : res Server :=
  match e with
  | EListen => Ok (Server_Start s)
  | EAccept => Ok (accept s)
  | EStore => store s
  | EHandshake id r => Ok (Conn_Start s id r)
  | EReturn id l => Ok (loop_returns s id l)
  | EClose id => Ok (Close s id)
  | ECloseRest id => Ok (close_rest s id)
  | EDeliver id m h => Ok (deliver s id m h)
  | EHandle id => handle_turn s id
  | EWork i p => Ok (work s i p)
  | EStop => Stop s
  end.

Fixpoint run (s : Server) (l : list event) : res Server :=
  match l with
  | [] => Ok s
  | e :: l => s' ← step s e; run s' l
  end.

(** The n-th failure of Accept in the life of the server waits 5 * 2^(n-1) milliseconds,
    but never more than a second. *)
Theorem accept_delay_doubles n :
  Nat.iter (S n) next_delay 0 = Z.min 1000 (5 * 2 ^ Z.of_nat n).
Proof.
  induction n as [|n IH]; [done|]. change (Nat.iter (S (S n)) next_delay 0) with (next_delay (Nat.iter (S n) next_delay 0)).
  rewrite IH, Nat2Z.inj_succ, Z.pow_succ_r by lia. assert (0 < 2 ^ Z.of_nat n) by (apply Z.pow_pos_nonneg; lia). unfold next_delay.
  rewrite (bool_decide_eq_false_2 (Z.min 1000 (5 * 2 ^ Z.of_nat n) = 0)) by lia. case_bool_decide; lia.
Qed.

(** ** Connections and counters *)

Lemma run_invariant (P : Server → Prop) s l s' :
  (∀ s e s', P s → step s e = Ok s' → P s') → P s → run s l = Ok s' → P s'.
Proof.
  intros Hstep. revert s. induction l as [|e l IH]; intros s Hs; cbn [run]; [by intros [= <-]|].
  intros (s1 & E & H)%bind_ok. by eapply IH, H; eapply Hstep.
Qed.

Definition open_at (s : Server) (id : Z) : Prop := ∃ c, objs s !! id = Some c ∧ once c = false.
Definition live_at (s : Server) (id : Z) : Prop := ∃ c, objs s !! id = Some c ∧ finished c = false.

(** A connection that is done was closed, and runs no loop; a connection that was not
    started runs none either. *)
Definition conn_ok (c : ServerConn) : Prop :=
  (once c = true → sock_closed c = true) ∧ (finished c = true → once c = true ∧ loops c = []) ∧ (started c = false → loops c = []).

Record conns_inv (s : Server) : Prop := {
  ci_ids : ∀ id c, objs s !! id = Some c → 0 ≤ id < netID s;
  ci_next : 0 ≤ netID s;
  ci_conn : ∀ id c, objs s !! id = Some c → conn_ok c;
  ci_pool : ∀ p, conns s = Some p → connCnt p = Z.of_nat (size (pool_conns p)) ∧ ∀ id, id ∈ pool_conns p ↔ open_at s id;
  ci_max : ∀ p, conns s = Some p → 0 < maxConnections s →
    connCnt p ≤ maxConnections s ∧ (accepting s = true → connCnt p < maxConnections s);
  ci_live : ∃ L : gset Z, wg s = Z.of_nat (size L) ∧ ∀ id, id ∈ L ↔ live_at s id;
  ci_stop : conns s = None ↔ ctx_done s = true
}.

Lemma init_conns_inv max buf : conns_inv (CreateServer max buf).
Proof.
  split; cbn; try done.
  - intros p [= <-]. split; [done|]. intros id. split; [by intros ?%elem_of_empty|]. by intros (c & H & _).
  - intros p [= <-] H. cbn. lia.
  - exists ∅. split; [done|]. intros id. split; [by intros ?%elem_of_empty|]. by intros (c & H & _).
Qed.

(** Changing one connection without closing or finishing it. *)
Lemma set_conn_inv s id c c' : conns_inv s → objs s !! id = Some c → once c' = once c → finished c' = finished c → conn_ok c' →
  conns_inv (set_conn s id c').
Proof.
  intros [Hid Hn Hc Hp Hm (L & Hw & HL) Hs] E Ho Hf Hk.
  assert (∀ x, open_at (set_conn s id c') x ↔ open_at s x) as Hopen.
  { intros x. unfold open_at. cbn. destruct (decide (id = x)) as [<-|Hne].
    - rewrite lookup_insert_eq, E. split; intros (y & [= <-] & ?); eexists; (split; [done|congruence]).
    - by rewrite lookup_insert_ne by done. }
  assert (∀ x, live_at (set_conn s id c') x ↔ live_at s x) as Hlive.
  { intros x. unfold live_at. cbn. destruct (decide (id = x)) as [<-|Hne].
    - rewrite lookup_insert_eq, E. split; intros (y & [= <-] & ?); eexists; (split; [done|congruence]).
    - by rewrite lookup_insert_ne by done. }
  split; cbn; try done.
  - intros x y. rewrite lookup_insert_Some. intros [[<- _]|[_ H]]; by eapply Hid.
  - intros x y. rewrite lookup_insert_Some. intros [[_ <-]|[_ H]]; [done|by eapply Hc].
  - intros p Ep. destruct (Hp p Ep) as [H1 H2]. split; [done|]. intros x. by rewrite H2, Hopen.
  - exists L. split; [done|]. intros x. by rewrite HL, Hlive.
Qed.

(** Fields that the invariant does not mention. *)
Lemma counts_inv s g : conns_inv s → conns_inv (add_counts s g 0).
Proof. intros [Hid Hn Hc Hp Hm (L & Hw & HL) Hs]. split; cbn; try done. exists L. split; [lia|done]. Qed.
Lemma work_inv s ts r e d : conns_inv s → conns_inv (set_work s ts r e d).
Proof. intros [Hid Hn Hc Hp Hm HL Hs]. by split. Qed.

Lemma Close_inv s id : conns_inv s → conns_inv (Close s id).
Proof.
  intros Hi. unfold Close. destruct (objs s !! id) as [c|] eqn:E; [|done]. destruct (once c) eqn:Eo; [by apply counts_inv|].
  destruct Hi as [Hid Hn Hc Hp Hm (L & Hw & HL) Hs].
  assert (∀ y s', objs s' = <[id := mkConn (started c) (loops c) true (finished c) true (handlerCh c)]> (objs s) →
    live_at s' y ↔ live_at s y) as Hlive.
  { intros y s' Es. unfold live_at. rewrite Es. destruct (decide (id = y)) as [<-|Hne].
    - rewrite lookup_insert_eq, E. split; intros (z & [= <-] & ?); eexists; (split; [done|done]).
    - by rewrite lookup_insert_ne by done. }
  assert (∀ y s', objs s' = <[id := mkConn (started c) (loops c) true (finished c) true (handlerCh c)]> (objs s) →
    open_at s' y ↔ open_at s y ∧ y ≠ id) as Hopen.
  { intros y s' Es. unfold open_at. rewrite Es. destruct (decide (id = y)) as [<-|Hne].
    - rewrite lookup_insert_eq. split; [by intros (z & [= <-] & ?)|tauto].
    - rewrite lookup_insert_ne by done. split; [intros ?; split; [done|congruence]|by intros [? _]]. }
  assert (conn_ok (mkConn (started c) (loops c) true (finished c) true (handlerCh c))) as Hk.
  { destruct (Hc id c E) as (_ & H2 & H3). split_and!; cbn; [done|intros H; by destruct (H2 H)|done]. }
  assert (open_at s id) as Ho by (by exists c).
  change (conns (add_counts s (-1) 0)) with (conns s). destruct (conns s) as [p|] eqn:Ep; split; cbn; try done.
  all: try (intros x y; rewrite lookup_insert_Some; intros [[<- <-]|[_ H]]; [by eauto|by eauto]).
  all: try (by rewrite Ep).
  all: try (exists L; split; [lia|]; intros x; rewrite HL; symmetry; by apply Hlive).
  - intros q [= <-]. destruct (Hp p eq_refl) as [H1 H2]. split.
    + cbn. rewrite size_difference, size_singleton by (intros x ->%elem_of_singleton; by apply H2).
      assert (size (pool_conns p) ≠ 0)%nat; [|lia]. intros H0%size_empty_inv.
      pose proof (proj2 (H2 id) Ho) as Hin. rewrite H0 in Hin. by apply elem_of_empty in Hin.
    + intros x. cbn. rewrite elem_of_difference, elem_of_singleton, H2. symmetry. by apply Hopen.
  - intros q [= <-] Hx. cbn. destruct (Hm p eq_refl Hx) as [H1 H2]. split; [lia|]. intros Ha. specialize (H2 Ha). lia.
  - rewrite <- Hs. split; discriminate.
Qed.

Lemma close_rest_inv s id : conns_inv s → conns_inv (close_rest s id).
Proof.
  intros Hi. unfold close_rest. destruct (objs s !! id) as [c|] eqn:E; [|done].
  destruct (once c && negb (finished c) && bool_decide (loops c = [])) eqn:Eg; [|done].
  apply andb_prop in Eg as [[Eo Ef%negb_true_iff]%andb_prop _].
  destruct Hi as [Hid Hn Hc Hp Hm (L & Hw & HL) Hs]. split; cbn; try done.
  - intros x y. rewrite lookup_insert_Some. intros [[<- _]|[_ H]]; by eapply Hid.
  - intros x y. rewrite lookup_insert_Some. intros [[_ <-]|[_ H]]; [done|by eapply Hc].
  - intros p Ep. destruct (Hp p Ep) as [H1 H2]. split; [done|]. intros x. rewrite H2. unfold open_at. cbn.
    destruct (decide (id = x)) as [<-|Hne]; [|by rewrite lookup_insert_ne].
    rewrite lookup_insert_eq, E. split; intros (y & [= <-] & ?); cbn in *; congruence.
  - assert (id ∈ L) as Hin by (apply HL; by exists c). exists (L ∖ {[id]}). split.
    + rewrite size_difference, size_singleton by (by intros x ->%elem_of_singleton).
      assert (size L ≠ 0)%nat; [|lia]. intros H0%size_empty_inv. rewrite H0 in Hin. by apply elem_of_empty in Hin.
    + intros x. rewrite elem_of_difference, elem_of_singleton, HL. unfold live_at. cbn. destruct (decide (id = x)) as [<-|Hne].
      * rewrite lookup_insert_eq. split; [tauto|]. by intros (y & [= <-] & ?).
      * rewrite lookup_insert_ne by done. split; [by intros [? _]|]. intros ?. split; [done|congruence].
Qed.

Lemma store_inv s s' : conns_inv s → store s = Ok s' → conns_inv s'.
Proof.
  intros Hi. unfold store. destruct (accepting s) eqn:Ea; cbn [negb]; [|by intros [= <-]].
  destruct Hi as [Hid Hn Hc Hp Hm (L & Hw & HL) Hs]. destruct (conns s) as [p|] eqn:Ep; [|done]. intros [= <-].
  assert (objs s !! netID s = None) as Efresh.
  { destruct (objs s !! netID s) as [c|] eqn:E; [|done]. apply Hid in E. lia. }
  split; cbn; try done.
  - intros x y. rewrite lookup_insert_Some. intros [[<- _]|[_ H]]; [lia|]. apply Hid in H. lia.
  - lia.
  - intros x y. rewrite lookup_insert_Some. intros [[_ <-]|[_ H]]; [by split_and!|by eapply Hc].
  - intros q [= <-]. destruct (Hp p eq_refl) as [H1 H2]. cbn.
    assert (netID s ∉ pool_conns p) as Hni by (intros (c & E & _)%H2; by rewrite Efresh in E). split.
    + rewrite size_union, size_singleton by (by apply disjoint_singleton_l). lia.
    + intros x. rewrite elem_of_union, elem_of_singleton, H2. unfold open_at. cbn. destruct (decide (netID s = x)) as [<-|Hne].
      * rewrite lookup_insert_eq. split; [intros _; by eexists|by left].
      * rewrite lookup_insert_ne by done. split; [intros [?|?]; [congruence|done]|by right].
  - intros q [= <-] Hx. destruct (Hm p eq_refl Hx) as [H1 H2]. cbn. specialize (H2 Ea). split; [lia|done].
  - exists ({[netID s]} ∪ L). assert (netID s ∉ L) as Hni by (intros (c & E & _)%HL; by rewrite Efresh in E). split.
    + rewrite size_union, size_singleton by (by apply disjoint_singleton_l). lia.
    + intros x. rewrite elem_of_union, elem_of_singleton, HL. unfold live_at. cbn. destruct (decide (netID s = x)) as [<-|Hne].
      * rewrite lookup_insert_eq. split; [intros _; by eexists|by left].
      * rewrite lookup_insert_ne by done. split; [intros [?|?]; [congruence|done]|by right].
  - rewrite <- Hs. split; discriminate.
Qed.

Lemma Stop_inv s s' : conns_inv s → Stop s = Ok s' → conns_inv s'.
Proof.
  intros Hi. unfold Stop. destruct Hi as [Hid Hn Hc Hp Hm (L & Hw & HL) Hs]. destruct (conns s) as [p|] eqn:Ep; [|done]. intros [= <-].
  split; cbn; try done.
  - intros x y. rewrite map_lookup_imap. intros (c & E & _)%bind_Some. by eapply Hid.
  - intros x y. rewrite map_lookup_imap. intros (c & E & [= <-])%bind_Some. destruct (Hc x c E) as (H1 & H2 & H3).
    case_bool_decide; by split_and!.
  - exists L. split; [done|]. intros x. rewrite HL. unfold live_at. cbn. rewrite map_lookup_imap.
    destruct (objs s !! x) as [c|]; cbn; [|split; by intros (y & ? & _)].
    split; intros (y & [= <-] & H); (eexists; split; [done|]); by case_bool_decide.
Qed.

Lemma conns_step s e s' : conns_inv s → step s e = Ok s' → conns_inv s'.
Proof.
  intros Hi. destruct e as [| | |id r|id l|id|id|id m h|id|i p|]; cbn [step].
  - intros [= <-]. unfold Server_Start. destruct (ctx_done s) eqn:E; [done|]. destruct Hi as [Hid Hn Hc Hp Hm HL Hs].
    split; cbn; try done. by rewrite E in Hs.
  - intros [= <-]. unfold accept. destruct (negb (lis s) || accepting s); [done|].
    destruct (_ && _) eqn:Eg; [done|]. destruct Hi as [Hid Hn Hc Hp Hm HL Hs]. split; cbn; try done.
    intros p Ep Hx. destruct (Hm p Ep Hx) as [H1 H2]. split; [done|]. intros _.
    rewrite bool_decide_eq_true_2 in Eg by lia. apply bool_decide_eq_false in Eg. unfold ConnsSize in Eg. rewrite Ep in Eg. unfold pool_Count in Eg. lia.
  - by apply store_inv.
  - intros [= <-]. unfold Conn_Start. destruct (objs s !! id) as [c|] eqn:E; [|done]. destruct (started c) eqn:Es; [done|].
    destruct (ci_conn _ Hi id c E) as (H1 & H2 & H3). destruct r.
    1,2: apply Close_inv; eapply set_conn_inv; [done|done|done|done|]; split_and!; cbn; [done|intros H; by destruct (H2 H)|done].
    destruct (sock_closed c) eqn:Ek; [done|]. apply counts_inv. eapply set_conn_inv; [done|done|done|done|].
    split_and!; cbn; [|intros H; destruct (H2 H) as [Ho _]; by specialize (H1 Ho)|done]. by intros H%H1.
  - intros [= <-]. unfold loop_returns. destruct (objs s !! id) as [c|] eqn:E; [|done]. case_bool_decide; [|done].
    destruct (ci_conn _ Hi id c E) as (H1 & H2 & H3). apply Close_inv. eapply set_conn_inv; [done|done|done|done|].
    split_and!; cbn; [done| |]; [intros Hf; destruct (H2 Hf) as [? ->]|intros Hf; rewrite (H3 Hf)]; done.
  - intros [= <-]. by apply Close_inv.
  - intros [= <-]. by apply close_rest_inv.
  - intros [= <-]. unfold deliver. destruct (objs s !! id) as [c|] eqn:E; [|done]. destruct (_ && _); [|done].
    apply work_inv. eapply set_conn_inv; [done|done|done|done|]. by apply (ci_conn _ Hi id c E).
  - unfold handle_turn. destruct (objs s !! id) as [c|] eqn:E; [|by intros [= <-]]. destruct (bool_decide _); [|by intros [= <-]].
    destruct (handlerCh c) as [|[m hh] rest]; [by intros [= <-]|].
    assert (conns_inv (set_conn s id (mkConn (started c) (loops c) (once c) (finished c) (sock_closed c) rest))) as H'
      by (eapply set_conn_inv; [done|done|done|done|]; by apply (ci_conn _ Hi id c E)).
    destruct hh; [|intros [= <-]; by apply work_inv]. intros ([ts ok] & _ & [= <-])%bind_ok. by apply work_inv.
  - intros [= <-]. unfold work. destruct (tasks s !! i) as [t|]; [|done]. destruct (task_turn t p) as [[j t']|]; [|done]. by apply work_inv.
  - by apply Stop_inv.
Qed.

(** C34: In every state that is reached the server holds at most maxConnections connections,
    its pool has exactly the open ones and counts them; the group that Stop waits for is empty
    exactly when all connections are closed with their loops.  So the wait of Stop goes on
    exactly while less than 30 seconds have passed and a connection is not closed; after that
    it may end with connections that are not. *)
Theorem connections_are_counted max buf l s :
  run (CreateServer max buf) l = Ok s →
  (0 < max → ConnsSize s ≤ max)
  ∧ (∀ p, conns s = Some p → ConnsSize s = Z.of_nat (size (pool_conns p)) ∧ ∀ id, id ∈ pool_conns p ↔ open_at s id)
  ∧ 0 ≤ wg s
  ∧ (wg_done s = true ↔ ∀ id c, objs s !! id = Some c → finished c = true ∧ once c = true ∧ loops c = [])
  ∧ ∀ elapsed, (AllFinished ∈ wait_ends elapsed s ↔ ∀ id c, objs s !! id = Some c → finished c = true ∧ once c = true ∧ loops c = [])
               ∧ (wait_ends elapsed s = [] ↔ elapsed < stop_timeout ∧ ∃ id c, objs s !! id = Some c ∧ finished c = false).
Proof.
  intros H. assert (maxConnections s = max) as Em.
  { revert H. apply (run_invariant (fun s => maxConnections s = max)); [|done]. clear. intros s e s' Es E.
    rewrite <- Es. clear Es. destruct e; cbn [step] in E; unfold store, Stop, handle_turn, Server_Start, accept, Conn_Start, loop_returns, Close, close_rest, deliver, work in E; cbv zeta in E; repeat case_match; simplify_eq/=; try done.
    all: apply bind_ok in E as ([ts ok] & _ & E); by injection E as <-. }
  pose proof (run_invariant conns_inv _ l s (λ s e s', conns_step s e s') (init_conns_inv max buf) H) as [Hid Hn Hc Hp Hm (L & Hw & HL) Hs].
  assert (wg_done s = true ↔ ∀ id c, objs s !! id = Some c → finished c = true ∧ once c = true ∧ loops c = []) as Hdone.
  { unfold wg_done. rewrite bool_decide_eq_true. split.
    + intros H0 id c E. assert (L = ∅) as EL by (apply leibniz_equiv, size_empty_inv; lia).
      destruct (finished c) eqn:Ef; [split; [done|by apply (Hc id c E)]|]. exfalso.
      assert (id ∈ L) as Hin by (apply HL; by exists c). rewrite EL in Hin. by apply elem_of_empty in Hin.
    + intros Hall. rewrite Hw. assert (L = ∅) as ->; [|done]. apply set_eq. intros id. split; [|by intros ?%elem_of_empty].
      intros (c & E & Hf)%HL. destruct (Hall id c E) as [? _]. congruence. }
  split_and!; [| |lia|done|].
  - intros Hx. unfold ConnsSize. destruct (conns s) as [p|]; [|lia]. rewrite <- Em. apply Hm; [done|by rewrite Em].
  - intros p Ep. unfold ConnsSize. rewrite Ep. by apply Hp.
  - intros elapsed. unfold wait_ends. rewrite <- Hdone. split.
    { rewrite elem_of_app. destruct (wg_done s); [by split; [|left; left]|]. split; [|done]. intros [?%elem_of_nil|Hin]; [done|].
      case_bool_decide; [by apply list_elem_of_singleton in Hin|by apply elem_of_nil in Hin]. }
    destruct (wg_done s) eqn:Ed.
    + split; [done|]. intros [_ (id & c & E & Hf)]. destruct (proj1 Hdone eq_refl id c E) as [? _]. congruence.
    + unfold wg_done in Ed. apply bool_decide_eq_false in Ed. assert (∃ id c, objs s !! id = Some c ∧ finished c = false) as Hex.
      { destruct (decide (L = ∅)) as [->|Hne]; [by rewrite size_empty in Hw|]. apply set_choose_L in Hne as [id (c & E & Hf)%HL]. by exists id, c. }
      case_bool_decide; cbn; (split; [done || (intros _; split; [lia|done])|]); [|done]. intros [? _]. lia.
Qed.

(** ** The order of messages *)

Lemma job_index_lt id : (job_index DefTaskPoolCount id < DefTaskPoolCount)%nat.
Proof.
  unfold job_index. change (u32 (Z.of_nat DefTaskPoolCount - 1)) with (Z.of_N 199).
  assert (0 ≤ fnv32a (id_bytes id)) as H0.
  { unfold fnv32a, id_bytes. cbn [map foldl]. apply (wrapu_range 32). lia. }
  rewrite <- (Z2N.id (fnv32a (id_bytes id))) by done. rewrite <- N2Z.inj_land, <- Z_N_nat, N2Z.id.
  pose proof (N.land_le_r (Z.to_N (fnv32a (id_bytes id))) 199). unfold DefTaskPoolCount. lia.
Qed.

(** What concerns one connection. *)
Definition of_conn (id : Z) (l : list job) : list job := filter (fun j => j_conn j = id) l.
Definition chan (s : Server) (id : Z) : list job :=
  match objs s !! id with Some c => map (fun '(m, _) => mkJob id m) (handlerCh c) | None => [] end.
Definition queued (s : Server) (id : Z) : list job :=
  match tasks s !! job_index (length (tasks s)) id with Some t => of_conn id (callbackChan t) | None => [] end.

Record order_inv (s : Server) : Prop := {
  oi_len : length (tasks s) = DefTaskPoolCount;
  oi_idx : ∀ i t, tasks s !! i = Some t → Forall (fun j => job_index DefTaskPoolCount (j_conn j) = i) (callbackChan t);
  oi_order : ∀ id, of_conn id (executed s) ++ queued s id ++ chan s id `sublist_of` of_conn id (received s);
  oi_all : ∀ id, of_conn id (received s) ≡ₚ of_conn id (executed s) ++ queued s id ++ chan s id ++ of_conn id (dropped s)
}.

Lemma of_conn_app id l k : of_conn id (l ++ k) = of_conn id l ++ of_conn id k.
Proof. unfold of_conn. induction l as [|j l IH]; cbn [app]; [done|]. rewrite !filter_cons, IH. by case_decide. Qed.
Lemma of_conn_own id m : of_conn id [mkJob id m] = [mkJob id m].
Proof. unfold of_conn. by rewrite filter_cons_True. Qed.
Lemma of_conn_other id j : j_conn j ≠ id → of_conn id [j] = [].
Proof. intros H. unfold of_conn. by rewrite filter_cons_False. Qed.
Lemma of_conn_chan id x (l : list (Z * bool)) : of_conn id (map (fun '(m, _) => mkJob x m) l) = if decide (x = id) then map (fun '(m, _) => mkJob x m) l else [].
Proof.
  unfold of_conn. induction l as [|[m h] l IH]; cbn [map]; [by case_decide|]. rewrite filter_cons. cbn [j_conn]. rewrite IH. by case_decide.
Qed.

(** Nothing that concerns messages changes. *)
Lemma same_order s s' : order_inv s → tasks s' = tasks s → received s' = received s → executed s' = executed s → dropped s' = dropped s →
  (∀ id, chan s' id = chan s id) → order_inv s'.
Proof.
  intros [Hl Hi Ho Ha] E1 E2 E3 E4 E5. assert (∀ id, queued s' id = queued s id) as E6 by (intros id; unfold queued; by rewrite E1).
  split; [by rewrite E1|by rewrite E1|..]; intros id; rewrite ?E2, ?E3, ?E4, ?E5, ?E6; [apply Ho|apply Ha].
Qed.

Lemma chan_set s id c x : chan (set_conn s id c) x = if decide (id = x) then map (fun '(m, _) => mkJob id m) (handlerCh c) else chan s x.
Proof.
  unfold chan. cbn. case_decide as E; [subst x; by rewrite lookup_insert_eq|by rewrite lookup_insert_ne].
Qed.

Lemma chan_same s id c c' x : objs s !! id = Some c → handlerCh c' = handlerCh c → chan (set_conn s id c') x = chan s x.
Proof. intros E H. rewrite chan_set. case_decide as Ex; [|done]. subst x. unfold chan. by rewrite E, H. Qed.

Lemma Close_order s id : order_inv s → order_inv (Close s id).
Proof.
  intros H. apply (same_order s); [done|..]; unfold Close; destruct (objs s !! id) as [c|] eqn:E; try done; destruct (once c); try done.
  1-4: by destruct (conns (add_counts s (-1) 0)).
  intros x. cbv zeta. destruct (conns (add_counts s (-1) 0)); rewrite chan_set; (case_decide as Ex; [subst x; unfold chan; by rewrite E|done]).
Qed.

Lemma init_order max buf : order_inv (CreateServer max buf).
Proof.
  assert (∀ i t, tasks (CreateServer max buf) !! i = Some t → t = mkTask [] true) as Ht
    by (intros i t; change (tasks _) with (replicate DefTaskPoolCount (mkTask [] true)); by intros [-> _]%lookup_replicate).
  assert (∀ id, queued (CreateServer max buf) id = [] ∧ chan (CreateServer max buf) id = []) as Hq.
  { intros id. split; [|done]. unfold queued. destruct (tasks _ !! _) as [t|] eqn:E; [|done]. by rewrite (Ht _ _ E). }
  split; [done| |intros id; destruct (Hq id) as [-> ->]; done..].
  intros i t ->%Ht. constructor.
Qed.

Lemma deliver_order s id m h : order_inv s → order_inv (deliver s id m h).
Proof.
  intros Hi. pose proof Hi as [Hl Hx Ho Ha]. unfold deliver. destruct (objs s !! id) as [c|] eqn:E; [|done]. destruct (_ && _); [|done].
  set (s' := set_work _ _ _ _ _).
  assert (∀ x, chan s' x = chan s x ++ if decide (x = id) then [mkJob id m] else []) as Ec.
  { intros x. unfold s', chan. cbn. case_decide as Hd.
    - subst x. rewrite lookup_insert_eq, E. cbn [handlerCh]. by rewrite map_app.
    - by rewrite lookup_insert_ne, app_nil_r by done. }
  assert (∀ x, of_conn x (received s') = of_conn x (received s) ++ if decide (x = id) then [mkJob id m] else []) as Er.
  { intros x. unfold s'. cbn [received set_work]. rewrite of_conn_app. f_equal. case_decide as Hd; [subst x; apply of_conn_own|by apply of_conn_other]. }
  split; [done|done|..]; intros x; rewrite Er, Ec; change (queued s' x) with (queued s x).
  - change (executed s') with (executed s). rewrite !app_assoc. apply sublist_app; [|done]. rewrite <- !app_assoc. apply Ho.
  - change (executed s') with (executed s). change (dropped s') with (dropped s). rewrite (Ha x).
    rewrite <- !app_assoc. do 3 apply Permutation_app_head. apply Permutation_app_comm.
Qed.

Lemma Ok_inj {A} (a b : A) : Ok a = Ok b → a = b.
Proof. congruence. Qed.

Lemma task_lookup_queued s id t : length (tasks s) = DefTaskPoolCount → tasks s !! job_index DefTaskPoolCount id = Some t →
  queued s id = of_conn id (callbackChan t).
Proof. intros Hl E. unfold queued. by rewrite Hl, E. Qed.

(** A job is queued at the end, or refused. *)
Lemma Job_ok s j : length (tasks s) = DefTaskPoolCount →
  ∃ t ok, tasks s !! job_index DefTaskPoolCount (j_conn j) = Some t
    ∧ Job (tasks s) j = Ok (<[job_index DefTaskPoolCount (j_conn j) := mkTask (callbackChan t ++ if (ok : bool) then [j] else []) (alive t)]> (tasks s), ok).
Proof.
  intros Hl. unfold Job. rewrite Hl. destruct (lookup_lt_is_Some_2 (tasks s) (job_index DefTaskPoolCount (j_conn j))) as [t Et].
  { rewrite Hl. apply job_index_lt. }
  exists t. rewrite Et. unfold task_job. case_bool_decide; [by exists true|]. exists false. rewrite app_nil_r. by destruct t.
Qed.

Lemma handle_order s id s' : order_inv s → handle_turn s id = Ok s' → order_inv s'.
Proof.
  intros Hi. pose proof Hi as [Hl Hx Ho Ha]. unfold handle_turn. destruct (objs s !! id) as [c|] eqn:E; [|by intros [= <-]].
  destruct (bool_decide _); [|by intros [= <-]]. destruct (handlerCh c) as [|[m hh] rest] eqn:Ech; [by intros [= <-]|]. cbv zeta.
  set (s1 := set_conn s id _).
  assert (∀ x, chan s x = (if decide (x = id) then [mkJob id m] else []) ++ chan s1 x) as Ec.
  { intros x. unfold s1. rewrite chan_set. unfold chan. case_decide as H1; case_decide as H2; try congruence.
    - subst x. by rewrite E, Ech.
    - done. }
  assert (∀ x, of_conn x [mkJob id m] = if decide (x = id) then [mkJob id m] else []) as Eo.
  { intros x. case_decide as H; [subst x; apply of_conn_own|by apply of_conn_other]. }
  (* the message is queued, or dropped *)
  enough (∀ ts ok, (if ok : bool then ∃ t, tasks s !! job_index DefTaskPoolCount id = Some t
      ∧ ts = <[job_index DefTaskPoolCount id := mkTask (callbackChan t ++ [mkJob id m]) (alive t)]> (tasks s) else ts = tasks s) →
    order_inv (set_work s1 ts (received s1) (executed s1) (if ok : bool then dropped s1 else dropped s1 ++ [mkJob id m]))) as Hgoal.
  { destruct hh; [|intros [= <-]; by apply (Hgoal (tasks s) false)].
    destruct (Job_ok s (mkJob id m) Hl) as (t & ok & Et & EJ). cbn [j_conn] in Et, EJ. change (tasks s1) with (tasks s). rewrite EJ. cbn [mbind res_bind].
    intros <-%Ok_inj. apply Hgoal. destruct ok; [by exists t|].
    rewrite app_nil_r. rewrite list_insert_id; [done|]. rewrite Et. by destruct t. }
  intros ts ok Hts. set (s2 := set_work s1 ts _ _ _).
  assert (∀ x, queued s2 x = queued s x ++ if ok then (if decide (x = id) then [mkJob id m] else []) else []) as Eq.
  { intros x. destruct ok; [|subst ts; by rewrite app_nil_r]. destruct Hts as (t & Et & ->). unfold queued, s2, s1. cbn [tasks set_work].
    rewrite length_insert, Hl. destruct (decide (job_index DefTaskPoolCount id = job_index DefTaskPoolCount x)) as [Ei|Ei].
    - rewrite <- Ei, list_lookup_insert_eq by (rewrite Hl; apply job_index_lt). rewrite Et. cbn [callbackChan]. by rewrite of_conn_app, Eo.
    - rewrite list_lookup_insert_ne by done. rewrite decide_False by congruence. by rewrite app_nil_r. }
  split.
  - destruct ok; [|by subst ts]. destruct Hts as (t & _ & ->). cbn. by rewrite length_insert.
  - destruct ok; [|by subst ts]. destruct Hts as (t & Et & ->). cbn [s2 tasks set_work]. intros i t'.
    rewrite list_lookup_insert_Some. intros [(<- & <- & _)|[_ H]]; [|by apply Hx]. cbn [callbackChan]. apply Forall_app. split; [by eapply Hx|].
    by repeat constructor.
  - intros x. specialize (Ho x). rewrite Ec in Ho. rewrite Eq. change (chan s2 x) with (chan s1 x).
    change (executed s2) with (executed s). change (received s2) with (received s). destruct ok; [by rewrite <- !app_assoc|].
    rewrite app_nil_r. etrans; [|exact Ho]. do 2 (apply sublist_app; [done|]). by apply sublist_inserts_l.
  - intros x. specialize (Ha x). rewrite Ec in Ha. rewrite Eq. change (chan s2 x) with (chan s1 x).
    change (executed s2) with (executed s). change (received s2) with (received s).
    destruct ok; cbn [s2 dropped set_work]; [by rewrite <- !app_assoc in *|].
    rewrite of_conn_app, Eo, app_nil_r, Ha. do 2 apply Permutation_app_head. rewrite <- !app_assoc.
    rewrite (app_assoc (chan s1 x)). change (dropped s1) with (dropped s). by rewrite (Permutation_app_comm (if decide (x = id) then _ else _)), <- !app_assoc.
Qed.

Lemma work_order s i p : order_inv s → order_inv (work s i p).
Proof.
  intros Hi. pose proof Hi as [Hl Hx Ho Ha]. unfold work. destruct (tasks s !! i) as [t|] eqn:Et; [|done].
  unfold task_turn. destruct (alive t); [|done]. destruct (callbackChan t) as [|j rest] eqn:Eq; [done|].
  set (s' := set_work _ _ _ _ _). pose proof (Hx i t Et) as Hj. rewrite Eq in Hj. apply Forall_cons_1 in Hj as [Hj Hrest].
  assert (∀ x, queued s x = of_conn x [j] ++ queued s' x) as Eqd.
  { intros x. unfold queued, s'. cbn [tasks set_work]. rewrite length_insert, Hl.
    destruct (decide (i = job_index DefTaskPoolCount x)) as [->|Hne].
    - rewrite list_lookup_insert_eq by (by eapply lookup_lt_Some). rewrite Et, Eq. cbn [callbackChan]. by rewrite <- of_conn_app.
    - rewrite list_lookup_insert_ne by done. rewrite of_conn_other by congruence. done. }
  assert (∀ x, of_conn x (executed s') = of_conn x (executed s) ++ of_conn x [j]) as Ee by (intros x; apply of_conn_app).
  split.
  - cbn. by rewrite length_insert.
  - cbn [s' tasks set_work]. intros k t'. rewrite list_lookup_insert_Some. intros [(<- & <- & _)|[_ H]]; [done|by apply Hx].
  - intros x. specialize (Ho x). rewrite Eqd in Ho. rewrite Ee. change (chan s' x) with (chan s x). change (received s') with (received s).
    by rewrite <- !app_assoc in *.
  - intros x. specialize (Ha x). rewrite Eqd in Ha. rewrite Ee. change (chan s' x) with (chan s x). change (received s') with (received s).
    change (dropped s') with (dropped s). by rewrite <- !app_assoc in *.
Qed.

Lemma close_rest_order s id : order_inv s → order_inv (close_rest s id).
Proof.
  intros Hi. pose proof Hi as [Hl Hx Ho Ha]. unfold close_rest. destruct (objs s !! id) as [c|] eqn:E; [|done].
  destruct (_ && _); [|done]. cbv zeta. set (s' := add_counts _ _ _).
  assert (∀ x, chan s' x = if decide (x = id) then [] else chan s x) as Ec.
  { intros x. unfold s', chan. cbn. case_decide as Hd; [subst x; by rewrite lookup_insert_eq|by rewrite lookup_insert_ne]. }
  assert (∀ x, of_conn x (dropped s') = of_conn x (dropped s) ++ if decide (x = id) then chan s x else []) as Ed.
  { intros x. unfold s'. cbn [dropped add_counts set_work set_conn]. rewrite of_conn_app, of_conn_chan. f_equal.
    repeat case_decide; try congruence. subst x. unfold chan. by rewrite E. }
  split; [done|done|..]; intros x; specialize (Ho x); specialize (Ha x); rewrite Ec; change (queued s' x) with (queued s x);
    change (executed s') with (executed s); change (received s') with (received s).
  - case_decide; [|done]. etrans; [|exact Ho]. do 2 (apply sublist_app; [done|]). apply sublist_nil_l.
  - rewrite Ed. case_decide; [|by rewrite app_nil_r]. rewrite Ha. do 2 apply Permutation_app_head. cbn [app]. apply Permutation_app_comm.
Qed.

Lemma order_step s e s' : conns_inv s → order_inv s → step s e = Ok s' → order_inv s'.
Proof.
  intros Hc Hi. destruct e as [| | |id r|id l|id|id|id m h|id|i p|]; cbn [step].
  - intros <-%Ok_inj. unfold Server_Start. destruct (ctx_done s); [done|]. by apply (same_order s).
  - intros <-%Ok_inj. unfold accept. repeat case_match; try done; by apply (same_order s).
  - unfold store. destruct (accepting s); cbn [negb]; [|by intros <-%Ok_inj]. destruct (conns s) as [p|]; [|done]. intros <-%Ok_inj.
    apply (same_order s); try done. intros x. unfold chan. cbn. destruct (decide (netID s = x)) as [<-|Hne]; [|by rewrite lookup_insert_ne].
    rewrite lookup_insert_eq. destruct (objs s !! netID s) as [c|] eqn:E; [|done]. apply (ci_ids _ Hc) in E. lia.
  - intros <-%Ok_inj. unfold Conn_Start. destruct (objs s !! id) as [c|] eqn:E; [|done]. destruct (started c); [done|]. cbv zeta.
    destruct r; [apply Close_order|apply Close_order|destruct (sock_closed c); [done|]];
      (apply (same_order s); [done..|]); intros x; by apply (chan_same s id c).
  - intros <-%Ok_inj. unfold loop_returns. destruct (objs s !! id) as [c|] eqn:E; [|done]. case_bool_decide; [|done].
    apply Close_order, (same_order s); try done. intros x. by apply (chan_same s id c).
  - intros <-%Ok_inj. by apply Close_order.
  - intros <-%Ok_inj. by apply close_rest_order.
  - intros <-%Ok_inj. by apply deliver_order.
  - by apply handle_order.
  - intros <-%Ok_inj. by apply work_order.
  - unfold Stop. destruct (conns s) as [p|]; [|done]. intros <-%Ok_inj. apply (same_order s); try done. intros x. unfold chan. cbn.
    rewrite map_lookup_imap. destruct (objs s !! x) as [c|]; [|done]. cbn. by case_bool_decide.
Qed.

Definition server_inv (s : Server) : Prop := conns_inv s ∧ order_inv s.

Lemma reachable_inv max buf l s : run (CreateServer max buf) l = Ok s → server_inv s.
Proof.
  apply (run_invariant server_inv); [|split; [apply init_conns_inv|apply init_order]].
  intros s0 e s' [Hc Ho] E. split; [by eapply conns_step|by eapply order_step].
Qed.

(** C22: The handlers of a connection run in the order in which its messages were
    received, each at most once, whatever the workers and loops do in between; and a
    message whose handler has not run is waiting, or was dropped because it has no
    handler, because the queue of its worker was full, or because the connection was
    closed first. *)
Theorem handlers_run_in_order max buf l s id :
  run (CreateServer max buf) l = Ok s →
  of_conn id (executed s) `sublist_of` of_conn id (received s)
  ∧ of_conn id (received s) ≡ₚ of_conn id (executed s) ++ queued s id ++ chan s id ++ of_conn id (dropped s).
Proof.
  intros [_ [_ _ Ho Ha]]%reachable_inv. split; [|apply Ha]. etrans; [|apply (Ho id)]. by apply sublist_inserts_r.
Qed.

(** ** Workers that end *)

(** The goroutine of a worker ends when a handler panics, and no other is started:
    from then on no message of any connection that is served by this worker is handled,
    whatever happens. *)
Theorem panicked_worker_stays_dead max buf l s i t l' s' :
  run (CreateServer max buf) l = Ok s → tasks s !! i = Some t → alive t = false → run s l' = Ok s' →
  ∀ id, job_index DefTaskPoolCount id = i → of_conn id (executed s') = of_conn id (executed s).
Proof.
  intros H Et Ed Hr id Ei.
  enough (server_inv s' ∧ (∃ t', tasks s' !! i = Some t' ∧ alive t' = false) ∧ of_conn id (executed s') = of_conn id (executed s)) by tauto.
  revert Hr. apply (run_invariant (fun s' => server_inv s' ∧ (∃ t', tasks s' !! i = Some t' ∧ alive t' = false) ∧ of_conn id (executed s') = of_conn id (executed s))).
  2:{ split_and!; [by eapply reachable_inv|by exists t|done]. }
  clear H Et Ed t. intros s1 e s2 ([Hc Ho] & (t & Et & Ed) & E) Hs.
  split; [split; [by eapply conns_step|by eapply order_step]|]. rewrite <- E. clear E.
  assert (tasks s2 = tasks s1 ∧ executed s2 = executed s1 → (∃ t', tasks s2 !! i = Some t' ∧ alive t' = false) ∧ of_conn id (executed s2) = of_conn id (executed s1)) as Hsame
    by (intros [-> ->]; split; [by exists t|done]).
  destruct e as [| | |x r|x lo|x|x|x m h|x|k p|]; cbn [step] in Hs.
  1-8, 11: apply Hsame; revert Hs; clear.
  - unfold Server_Start. intros <-%Ok_inj. by case_match.
  - unfold accept. intros <-%Ok_inj. by repeat case_match.
  - unfold store. repeat case_match; try done; by intros <-%Ok_inj.
  - unfold Conn_Start, Close. intros <-%Ok_inj. cbv zeta. by repeat case_match.
  - unfold loop_returns, Close. intros <-%Ok_inj. cbv zeta. by repeat case_match.
  - unfold Close. intros <-%Ok_inj. cbv zeta. by repeat case_match.
  - unfold close_rest. intros <-%Ok_inj. cbv zeta. by repeat case_match.
  - unfold deliver. intros <-%Ok_inj. cbv zeta. by repeat case_match.
  - unfold Stop. repeat case_match; try done; by intros <-%Ok_inj.
  - unfold handle_turn in Hs. destruct (objs s1 !! x) as [c|]; [|apply Hsame; by apply Ok_inj in Hs as <-].
    destruct (bool_decide _); [|apply Hsame; by apply Ok_inj in Hs as <-].
    destruct (handlerCh c) as [|[m hh] rest]; [apply Hsame; by apply Ok_inj in Hs as <-|]. cbv zeta in Hs.
    destruct hh; [|apply Hsame; by apply Ok_inj in Hs as <-].
    destruct (Job_ok s1 (mkJob x m) (oi_len _ Ho)) as (t' & ok & Et' & EJ). cbn [j_conn] in Et', EJ.
    change (tasks (set_conn s1 _ _)) with (tasks s1) in Hs. rewrite EJ in Hs. cbn [mbind res_bind] in Hs. apply Ok_inj in Hs as <-.
    split; [|done]. cbn [tasks set_work]. destruct (decide (job_index DefTaskPoolCount x = i)) as [Exi|Hne].
    + rewrite Exi in *. rewrite list_lookup_insert_eq by (by eapply lookup_lt_Some). eexists. split; [done|]. cbn. congruence.
    + rewrite list_lookup_insert_ne by done. by exists t.
  - apply Ok_inj in Hs as <-. unfold work. destruct (tasks s1 !! k) as [t'|] eqn:Et'; [|split; [by exists t|done]].
    unfold task_turn. destruct (alive t') eqn:Ea; [|split; [by exists t|done]]. assert (k ≠ i) as Hne by congruence.
    destruct (callbackChan t') as [|j rest] eqn:Eq; [split; [by exists t|done]|]. cbn [tasks executed set_work]. split.
    + rewrite list_lookup_insert_ne by done. by exists t.
    + pose proof (oi_idx _ Ho k t' Et') as Hj. rewrite Eq in Hj. apply Forall_cons_1 in Hj as [Hj _].
      rewrite of_conn_app, of_conn_other, app_nil_r by congruence. done.
Qed.

(** The mask of [Job] is not one less than a power of two: of the 200 workers only
    the 32 whose number has none of the bits 8, 16 and 32 ever get a call. *)
Theorem few_workers_are_used id :
  job_index DefTaskPoolCount id ∈ filter (fun i => Z.land (Z.of_nat i) 56 = 0) (seq 0 DefTaskPoolCount)
  ∧ length (filter (fun i => Z.land (Z.of_nat i) 56 = 0) (seq 0 DefTaskPoolCount)) = 32%nat.
Proof.
  split; [|vm_compute; reflexivity]. apply list_elem_of_filter. split.
  - unfold job_index. change (u32 (Z.of_nat DefTaskPoolCount - 1)) with 199. rewrite Z2Nat.id by (apply Z.land_nonneg; by right).
    rewrite <- Z.land_assoc. change (Z.land 199 56) with 0. apply Z.land_0_r.
  - apply elem_of_seq. pose proof (job_index_lt id). lia.
Qed.

(** ** Panics *)

(** A run panics only in two ways: the accept loop stores a connection after Stop has
    dropped the pool, or Stop is called twice.  The first happens when Stop is called
    between Accept and Store: *)
Theorem panics_come_from_stop s e msg : server_inv s → step s e = Panic msg → conns s = None ∧ (e = EStop ∨ e = EStore ∧ accepting s = true).
Proof.
  intros [Hc Ho]. destruct e as [| | |x r|x lo|x|x|x m h|x|k p|]; cbn [step]; try done.
  - unfold store. destruct (accepting s); cbn [negb]; [|done]. destruct (conns s); [done|]. intros _. split; [done|by right].
  - unfold handle_turn. repeat case_match; try done. subst. cbv zeta.
    destruct (Job_ok s (mkJob x z) (oi_len _ Ho)) as (t & ok & _ & EJ). change (tasks (set_conn s _ _)) with (tasks s). rewrite EJ. done.
  - unfold Stop. destruct (conns s); [done|]. intros _. split; [done|by left].
Qed.

(** The flag that [Load] returns for a missing connection is never seen: Unicast to a
    connection that was closed panics instead of being dropped. *)
Theorem unicast_to_closed_panics max buf l s id :
  run (CreateServer max buf) l = Ok s → ctx_done s = false →
  (open_at s id → Unicast s id = Ok id) ∧ (¬ open_at s id → Unicast s id = Panic "interface conversion: interface {} is nil").
Proof.
  intros [Hc _]%reachable_inv Hd. unfold Unicast, pool_Load. destruct (conns s) as [p|] eqn:Ep.
  - destruct (ci_pool _ Hc p Ep) as [_ H]. split; intros Ho; rewrite <- H in Ho; case_bool_decide; done.
  - apply (ci_stop _ Hc) in Ep. congruence.
Qed.

(** Every connection that is only used for a handshake, or whose handshake fails,
    leaves the count of goroutines one too low. *)
Theorem goroutine_count_drifts max buf l s r :
  run (CreateServer max buf) l = Ok s → accepting s = true → ctx_done s = false → r ≠ HsDone →
  ∃ s', run s [EStore; EHandshake (netID s) r; ECloseRest (netID s)] = Ok s' ∧ goroutine s' = goroutine s - 1 ∧ wg s' = wg s ∧ ConnsSize s' = ConnsSize s.
Proof.
  intros [Hc _]%reachable_inv Ha Hd Hr. destruct (conns s) as [p|] eqn:Ep; [|apply (ci_stop _ Hc) in Ep; congruence].
  cbn [run step]. unfold store. rewrite Ha, Ep. cbn [negb mbind res_bind]. set (s1 := mkServer _ _ _ _ _ _ _ _ _ _ _ _ _ _).
  assert (objs s1 !! netID s = Some new_conn) as E1 by (unfold s1; cbn; apply lookup_insert_eq).
  assert (Conn_Start s1 (netID s) r = Close (set_conn s1 (netID s) (mkConn true [] false false false [])) (netID s)) as ->
    by (unfold Conn_Start; rewrite E1; cbn [started new_conn]; by destruct r).
  unfold Close. cbn [objs set_conn]. rewrite lookup_insert_eq. cbn [once]. unfold close_rest. cbn.
  rewrite lookup_insert_eq. cbn. eexists. split; [reflexivity|]. cbn. unfold ConnsSize. rewrite Ep. cbn.
  unfold pool_Count. lia.
Qed.

(** ** The end of Stop *)

(** A connection that was started and runs no loop has been closed. *)
Definition idle_closed (s : Server) : Prop :=
  ∀ id c, objs s !! id = Some c → started c = true → loops c = [] → once c = true.

Lemma Close_objs s id c : objs s !! id = Some c →
  objs (Close s id) = <[id := mkConn (started c) (loops c) true (finished c) (if once c then sock_closed c else true) (handlerCh c)]> (objs s).
Proof.
  intros E. unfold Close. rewrite E. cbv zeta. destruct (once c) eqn:Eo.
  - cbn. rewrite insert_id; [done|]. rewrite E. f_equal. destruct c; cbn in *; congruence.
  - by destruct (conns (add_counts s (-1) 0)).
Qed.

Lemma idle_step s e s' : idle_closed s → step s e = Ok s' → idle_closed s'.
Proof.
  intros Hi.
  assert (∀ id c s1, objs s1 = <[id := c]> (objs s) → (started c = true → loops c = [] → once c = true) → idle_closed s1) as Hset.
  { intros id c s1 E H x y. rewrite E, lookup_insert_Some. intros [[_ <-]|[_ Hy]]; [done|by eapply Hi]. }
  destruct e as [| | |id r|id l|id|id|id m h|id|i p|]; cbn [step].
  - intros <-%Ok_inj. unfold Server_Start. by case_match.
  - intros <-%Ok_inj. unfold accept. by repeat case_match.
  - unfold store. repeat case_match; try done; intros <-%Ok_inj; [done|]. by eapply Hset.
  - intros <-%Ok_inj. unfold Conn_Start. destruct (objs s !! id) as [c|] eqn:E; [|done]. destruct (started c); [done|]. cbv zeta.
    destruct r; [| |destruct (sock_closed c); [done|by eapply Hset]];
      (eapply (Hset id); [erewrite Close_objs; [|apply lookup_insert_eq]; cbn; apply insert_insert_eq|done]).
  - intros <-%Ok_inj. unfold loop_returns. destruct (objs s !! id) as [c|] eqn:E; [|done]. case_bool_decide; [|done].
    eapply (Hset id); [erewrite Close_objs; [|apply lookup_insert_eq]; cbn; apply insert_insert_eq|done].
  - intros <-%Ok_inj. destruct (objs s !! id) as [c|] eqn:E; [|unfold Close; by rewrite E].
    eapply (Hset id); [by apply Close_objs|done].
  - intros <-%Ok_inj. unfold close_rest. repeat case_match; try done. by eapply Hset.
  - intros <-%Ok_inj. unfold deliver. destruct (objs s !! id) as [c|] eqn:E; [|done]. destruct (_ && _); [|done].
    eapply (Hset id); [done|]. by apply (Hi id c E).
  - unfold handle_turn. destruct (objs s !! id) as [c|] eqn:E; [|by intros <-%Ok_inj].
    destruct (bool_decide _); [|by intros <-%Ok_inj]. destruct (handlerCh c) as [|[m hh] rest]; [by intros <-%Ok_inj|]. cbv zeta.
    destruct hh; [intros ([ts ok] & _ & <-%Ok_inj)%bind_ok|intros <-%Ok_inj]; (eapply (Hset id); [done|]; by apply (Hi id c E)).
  - intros <-%Ok_inj. unfold work. by repeat case_match.
  - unfold Stop. destruct (conns s) as [p|]; [|done]. intros <-%Ok_inj x y. cbn. rewrite map_lookup_imap.
    intros (c & E & [= <-])%bind_Some. specialize (Hi x c E). by case_bool_decide.
Qed.

(** The connection's Start fails or has returned, its loops return, and Close ends. *)
Definition shut (id : Z) : list event := [EHandshake id HsFailed; EReturn id LRead; EReturn id LWrite; EReturn id LHandle; ECloseRest id].

Lemma loop_returns_objs s id l c : objs s !! id = Some c →
  ∃ c', objs (loop_returns s id l) = <[id := c']> (objs s) ∧ loops c' = filter (fun x => x ≠ l) (loops c) ∧ started c' = started c ∧ finished c' = finished c.
Proof.
  intros E. unfold loop_returns. rewrite E. case_bool_decide as Hl.
  - eexists. split; [erewrite Close_objs; [|apply lookup_insert_eq]; cbn; apply insert_insert_eq|done].
  - exists c. split; [symmetry; by apply insert_id|]. split_and!; try done. symmetry. clear E. induction (loops c) as [|x ls IH]; [done|].
    rewrite filter_cons_True by set_solver. f_equal. apply IH. set_solver.
Qed.

Lemma run_events_app s l1 l2 s1 : run s l1 = Ok s1 → run s (l1 ++ l2) = run s1 l2.
Proof.
  revert s. induction l1 as [|e l1 IH]; intros s; cbn [run app]; [by intros <-%Ok_inj|]. intros (s' & E & H)%bind_ok. rewrite E. by apply IH.
Qed.

Lemma shut_ok s id c : conns_inv s → idle_closed s → objs s !! id = Some c →
  ∃ s', run s (shut id) = Ok s' ∧ conns_inv s' ∧ idle_closed s' ∧ ∃ c', objs s' = <[id := c']> (objs s) ∧ finished c' = true.
Proof.
  intros Hc Hi E. unfold shut. cbn [run]. set (s0 := Conn_Start s id HsFailed).
  assert (∃ c0, objs s0 = <[id := c0]> (objs s) ∧ started c0 = true) as (c0 & E0 & Hs0).
  { unfold s0, Conn_Start. rewrite E. destruct (started c) eqn:Es; [exists c; by rewrite insert_id|].
    eexists. split; [erewrite Close_objs; [|apply lookup_insert_eq]; cbn; apply insert_insert_eq|done]. }
  cbn [step mbind res_bind]. fold s0.
  destruct (loop_returns_objs s0 id LRead c0) as (c1 & E1 & L1 & S1 & F1); [rewrite E0; apply lookup_insert_eq|].
  set (s1 := loop_returns s0 id LRead) in *.
  destruct (loop_returns_objs s1 id LWrite c1) as (c2 & E2 & L2 & S2 & F2); [rewrite E1; apply lookup_insert_eq|].
  set (s2 := loop_returns s1 id LWrite) in *.
  destruct (loop_returns_objs s2 id LHandle c2) as (c3 & E3 & L3 & S3 & F3); [rewrite E2; apply lookup_insert_eq|].
  set (s3 := loop_returns s2 id LHandle) in *.
  assert (run s [EHandshake id HsFailed; EReturn id LRead; EReturn id LWrite; EReturn id LHandle] = Ok s3) as Hrun by done.
  assert (conns_inv s3) as Hc3 by (by apply (run_invariant conns_inv s _ s3 (λ s e s', conns_step s e s') Hc Hrun)).
  assert (idle_closed s3) as Hi3 by (by apply (run_invariant idle_closed s _ s3 (λ s e s', idle_step s e s') Hi Hrun)).
  assert (objs s3 = <[id := c3]> (objs s)) as Eo by (by rewrite E3, E2, E1, E0, !insert_insert_eq).
  assert (loops c3 = []) as Hl3.
  { rewrite L3, L2, L1. clear. induction (loops c0) as [|[] ls IH]; [done|..]; rewrite !filter_cons; repeat case_decide; try done; exact IH. }
  assert (once c3 = true) as Ho3 by (apply (Hi3 id); [rewrite Eo; apply lookup_insert_eq|congruence|done]).
  exists (close_rest s3 id). split; [done|]. split; [by apply close_rest_inv|]. split; [by apply (idle_step s3 (ECloseRest id))|].
  unfold close_rest. rewrite Eo, lookup_insert_eq, Ho3, Hl3. rewrite bool_decide_eq_true_2 by done. cbn [andb].
  destruct (finished c3) eqn:Ef3; cbn [negb andb]; [by exists c3|]. eexists. split; [cbn; rewrite Eo; apply insert_insert_eq|done].
Qed.

Lemma shut_all ids : ∀ s, conns_inv s → idle_closed s → Forall (fun id => is_Some (objs s !! id)) ids →
  ∃ s', run s (concat (map shut ids)) = Ok s' ∧ conns_inv s'
    ∧ ∀ id c, objs s' !! id = Some c → finished c = true ∨ (id ∉ ids) ∧ objs s !! id = Some c.
Proof.
  induction ids as [|id ids IH]; intros s Hc Hi Hids; cbn [map concat].
  { exists s. split_and!; [done|done|]. intros id c E. right. split; [apply not_elem_of_nil|done]. }
  apply Forall_cons_1 in Hids as [[c E] Hids]. destruct (shut_ok s id c Hc Hi E) as (s1 & R1 & Hc1 & Hi1 & c1 & E1 & F1).
  destruct (IH s1 Hc1 Hi1) as (s2 & R2 & Hc2 & H2).
  { eapply Forall_impl; [|exact Hids]. intros x [y Ey]. rewrite E1. destruct (decide (id = x)) as [<-|]; [rewrite lookup_insert_eq|rewrite lookup_insert_ne by done]; by eexists. }
  exists s2. split_and!; [by rewrite (run_events_app _ _ _ s1)|done|]. intros x y Ey. destruct (H2 x y Ey) as [?|[Hx Ex]]; [by left|].
  rewrite E1, lookup_insert_Some in Ex. destruct Ex as [[<- <-]|[Hne Ex]]; [by left|]. right. split; [|done].
  rewrite elem_of_cons. intros [->|?]; done.
Qed.

(** From every state that can be reached, once the handshakes in progress fail and the
    loops return, which a closed socket makes them do, the connections finish and the wait of
    Stop ends: no further event of the network, of the handlers or of the workers is needed. *)
Theorem stop_can_end max buf l s s1 :
  run (CreateServer max buf) l = Ok s → Stop s = Ok s1 →
  ∃ ids s2, run s1 (concat (map shut ids)) = Ok s2 ∧ wg_done s2 = true.
Proof.
  intros Hrun Hs. pose proof (reachable_inv _ _ _ _ Hrun) as [Hc _].
  assert (idle_closed s) as Hi by (revert Hrun; apply (run_invariant idle_closed); [intros ? ? ?; apply idle_step|]; intros id c H; done).
  pose proof (Stop_inv s s1 Hc Hs) as Hc1. pose proof (idle_step s EStop s1 Hi Hs) as Hi1.
  destruct (shut_all (elements (dom (objs s1) : gset Z)) s1 Hc1 Hi1) as (s2 & R2 & Hc2 & H2).
  { apply Forall_forall. intros id Hid%list_elem_of_In%elem_of_elements. by apply elem_of_dom. }
  exists (elements (dom (objs s1) : gset Z)), s2. split; [done|]. destruct (ci_live _ Hc2) as (L & Hw & HL). apply bool_decide_eq_true.
  rewrite Hw. assert (L = ∅) as ->; [|done]. apply set_eq. intros id. split; [|by intros ?%elem_of_empty].
  intros (c & Ec & Hf)%HL. destruct (H2 id c Ec) as [?|[Hn E]]; [congruence|]. exfalso. apply Hn, elem_of_elements, elem_of_dom. by eexists.
Qed.

(** ** A run *)

Module ServerDemo.

(** Two connections, the second only for a handshake; two messages of the first are
    handled, the second of them with a panic. *)
Definition setup : list event :=
  [EListen; EAccept; EStore; EHandshake 0 HsDone; EAccept; EStore; EHandshake 1 HsForOther; ECloseRest 1].
Definition traffic : list event :=
  [EDeliver 0 7 true; EDeliver 0 8 true; EDeliver 0 9 false; EHandle 0; EHandle 0; EHandle 0;
   EWork (job_index DefTaskPoolCount 0) false; EWork (job_index DefTaskPoolCount 0) true].

Definition after (l : list event) : Server := match run (CreateServer 2 4) l with Ok s => s | _ => CreateServer 2 4 end.

Lemma connections_are_counted_witness :
  (0 < 2 → ConnsSize (after setup) ≤ 2)
  ∧ (∀ p, conns (after setup) = Some p → ConnsSize (after setup) = Z.of_nat (size (pool_conns p)) ∧ ∀ id, id ∈ pool_conns p ↔ open_at (after setup) id)
  ∧ 0 ≤ wg (after setup)
  ∧ (wg_done (after setup) = true ↔ ∀ id c, objs (after setup) !! id = Some c → finished c = true ∧ once c = true ∧ loops c = [])
  ∧ ∀ elapsed, (AllFinished ∈ wait_ends elapsed (after setup) ↔ ∀ id c, objs (after setup) !! id = Some c → finished c = true ∧ once c = true ∧ loops c = [])
               ∧ (wait_ends elapsed (after setup) = [] ↔ elapsed < stop_timeout ∧ ∃ id c, objs (after setup) !! id = Some c ∧ finished c = false).
Proof. apply (connections_are_counted 2 4 setup). vm_compute. reflexivity. Defined.

Lemma handlers_run_in_order_witness :
  of_conn 0 (executed (after (setup ++ traffic))) `sublist_of` of_conn 0 (received (after (setup ++ traffic)))
  ∧ of_conn 0 (received (after (setup ++ traffic)))
    ≡ₚ of_conn 0 (executed (after (setup ++ traffic))) ++ queued (after (setup ++ traffic)) 0
       ++ chan (after (setup ++ traffic)) 0 ++ of_conn 0 (dropped (after (setup ++ traffic))).
Proof. apply (handlers_run_in_order 2 4 (setup ++ traffic)). vm_compute. reflexivity. Defined.

Definition more : list event := [EDeliver 0 10 true; EHandle 0; EWork (job_index DefTaskPoolCount 0) false].

Lemma panicked_worker_stays_dead_witness :
  of_conn 0 (executed (after (setup ++ traffic ++ more))) = of_conn 0 (executed (after (setup ++ traffic))).
Proof.
  apply (panicked_worker_stays_dead 2 4 (setup ++ traffic) (after (setup ++ traffic)) (job_index DefTaskPoolCount 0) (mkTask [] false) more);
    try (vm_compute; reflexivity).
Defined.

Lemma unicast_to_closed_panics_witness :
  (open_at (after setup) 1 → Unicast (after setup) 1 = Ok 1)
  ∧ (¬ open_at (after setup) 1 → Unicast (after setup) 1 = Panic "interface conversion: interface {} is nil").
Proof. apply (unicast_to_closed_panics 2 4 setup); vm_compute; reflexivity. Defined.

Lemma goroutine_count_drifts_witness :
  ∃ s', run (after [EListen; EAccept]) [EStore; EHandshake 0 HsForOther; ECloseRest 0] = Ok s'
    ∧ goroutine s' = 0 - 1 ∧ wg s' = 0 ∧ ConnsSize s' = 0.
Proof. apply (goroutine_count_drifts 2 4 [EListen; EAccept] (after [EListen; EAccept]) HsForOther); try (vm_compute; reflexivity). done. Defined.

Lemma panics_come_from_stop_witness :
  conns (after [EListen; EAccept; EStop]) = None
  ∧ (EStore = EStop ∨ EStore = EStore ∧ accepting (after [EListen; EAccept; EStop]) = true).
Proof.
  apply (panics_come_from_stop (after [EListen; EAccept; EStop]) EStore "nil pointer dereference"); [|vm_compute; reflexivity].
  apply (reachable_inv 2 4 [EListen; EAccept; EStop]). vm_compute. reflexivity.
Defined.

Lemma stop_can_end_witness :
  ∃ ids s2, run (after (setup ++ [EStop])) (concat (map shut ids)) = Ok s2 ∧ wg_done s2 = true.
Proof. apply (stop_can_end 2 4 setup (after setup)); vm_compute; reflexivity. Defined.

End ServerDemo.
