(* ===== verification/Verification.v ===== *)
(** * Verification: which messages a node acts on

    Models pp/event/verification.go and event_handle.go: the verifier and the handler
    registered for every message type, and what each verifier checks; the request
    records that responses are paired with (pp/p2pserver/sp_peers.go); and the key an
    SP signs with (GetSpPubkey of pp/requests/requests.go).

    A message that an SP has signed is passed on from node to node inside other
    messages, so that a node which is asked for something can check that an SP wanted
    it.  Protobuf, bech32 and reflection are behind [Wire]; hashes and signatures are
    [NodeCrypto] of [Message].  Expiry of the request records, after an hour, is left
    out. *)
From S2P Require Import Prelude Header Message.

(** ** Messages *)

(** The messages that carry an SP's signature: RspUploadFile, RspBackupStatus,
    NoticeFileSliceBackup and RspFileStorageInfo.  Fields that the checks do not look at
    are [Content]. *)
Record SpMsg := mkSpMsg {
  SpP2PAddress : string;
  NodeSign : option bytes;
  MsgReqId : string;
  Content : bytes
}.

(** What a body is decoded into: one of these messages, or a message with fields, some
    of which hold one (nil is [None]). *)
Inductive target :=
| TSigned (type : string) (m : SpMsg)
| TCarrier (fields : list (string * option SpMsg)).

(** Protobuf for the type of a handler's message, and bech32. *)
Class Wire := {
  Unmarshal : MsgId → bytes → option target;
  Marshal : string → SpMsg → option bytes;
  P2PPubKeyFromBech32 : string → option bytes
}.

(** What a verifier looks at: the message with its context, the map of SPs with their
    keys, and the records of requests. *)
Record vctx := mkVctx { MsgBody : bytes; HeadReqId : Z; SrcP2pAddr : string }.
Record vstate := mkVstate { SPMap : gmap string string; requestInfoMap : gmap Z Z }.

(** ** Requests and responses *)

(** [reqId & 0x7FFFFFFFFFFFFF00 | type], an int64. *)
Definition request_key (reqId msgType : Z) : Z := Z.lor (Z.land reqId 0x7FFFFFFFFFFFFF00) msgType.

Definition StoreRequestInfo (s : vstate) (reqId reqMsgType : Z) : vstate :=
  mkVstate (SPMap s) (<[request_key reqId reqMsgType := reqMsgType]> (requestInfoMap s)).

Definition LoadRequestInfo (s : vstate) (reqId rspMsgType : Z) : Z * bool :=
  match requestInfoMap s !! request_key reqId (GetReqIdFromRspId rspMsgType) with
  | Some t => (t, true)
  | None => (msg_id MSG_ID_INVALID, false)
  end.

Definition verifyReqId (s : vstate) (c : vctx) (msgTypeId : Z) : res unit :=
  if snd (LoadRequestInfo s (HeadReqId c) msgTypeId) then Ok tt else Err "no previous request for this rsp found".

Definition verifySpP2pAddress (s : vstate) (c : vctx) : res unit :=
  match SPMap s !! SrcP2pAddr c with
  | Some _ => Ok tt
  | None => Err "source p2p address is not in the SP list"
  end.

Section Verification.
Context {NC : NodeCrypto} {W : Wire}.

(** ** Signatures of SPs *)

Definition GetSpPubkey (s : vstate) (spP2pAddr : string) : res bytes :=
  match SPMap s !! spP2pAddr with
  | None => Err "couldn't find sp info"
  | Some key => match P2PPubKeyFromBech32 key with Some pub => Ok pub | None => Err "error decoding P2P pubKey" end
  end.

(** The check that verifyRspUploadFile, verifyRspBackupStatus, verifyNoticeFileSliceBackup
    and verifyRspFileStorageInfo have in common; the last also clears the request id.
    [errors.Wrap] of a nil error is nil. *)
Definition verify_signed (s : vstate) (type : string) (clear_req : bool) (msg : option SpMsg) : res unit :=
  match msg with
  | None => Err "msg is empty"
  | Some m =>
      match NodeSign m with
      | None => Err "key information is missing"
      | Some nodeSign =>
          if bool_decide (SpP2PAddress m = EmptyString) then Err "key information is missing"
          else
            pub ← GetSpPubkey s (SpP2PAddress m);
            if negb (VerifyP2pAddrBytes pub (SpP2PAddress m)) then Ok tt
            else
              let m' := mkSpMsg (SpP2PAddress m) None (if clear_req then EmptyString else MsgReqId m) (Content m) in
              match Marshal type m' with
              | None => Err "failed encoding sp's sign message"
              | Some msgBytes =>
                  if VerifyP2pSignBytes pub nodeSign (CalcHashBytes msgBytes) then Ok tt
                  else Err "failed verifying sp's signature"
              end
      end
  end.

Definition verifyRspUploadFile (s : vstate) (msg : option SpMsg) : res unit := verify_signed s "RspUploadFile" false msg.
Definition verifyRspBackupStatus (s : vstate) (msg : option SpMsg) : res unit := verify_signed s "RspBackupStatus" false msg.
Definition verifyNoticeFileSliceBackup (s : vstate) (msg : option SpMsg) : res unit := verify_signed s "NoticeFileSliceBackup" false msg.
Definition verifyRspFileStorageInfo (s : vstate) (msg : option SpMsg) : res unit := verify_signed s "RspFileStorageInfo" true msg.

(** [reflect.ValueOf(target).Elem().FieldByName(name)]: [None] when there is no such
    field; the signed messages have none of the fields that are asked for. *)
Definition FieldByName (t : target) (name : string) : option (option SpMsg) :=
  match t with
  | TSigned _ _ => None
  | TCarrier fields => snd <$> head (filter (fun f => fst f = name) fields)
  end.

Definition carried (t : target) (name : string) (check : option SpMsg → res unit) : res unit :=
  match FieldByName t name with
  | Some field => check field
  | None => Err "field is not found in the message"
  end.

(** [reflect.TypeOf(target) == reflect.TypeOf(&protos.T{})]. *)
Definition is_type (t : target) (type : string) : option SpMsg :=
  match t with TSigned ty m => if bool_decide (ty = type) then Some m else None | TCarrier _ => None end.

Definition unmarshal (c : vctx) (msgType : MsgId) : res target :=
  match Unmarshal msgType (MsgBody c) with Some t => Ok t | None => Err "protobuf Unmarshal error" end.

(** ** Verifiers *)

Definition RspUploadFileVerifier (s : vstate) (c : vctx) (msgType : MsgId) : res unit :=
  _ ← verifyReqId s c (msg_id msgType);
  t ← unmarshal c msgType;
  match is_type t "RspUploadFile" with
  | Some m => _ ← verifySpP2pAddress s c; verifyRspUploadFile s (Some m)
  | None => carried t "RspUploadFile" (verifyRspUploadFile s)
  end.

Definition RspUploadFileWithNoReqIdVerifier (s : vstate) (c : vctx) (msgType : MsgId) : res unit :=
  t ← unmarshal c msgType;
  carried t "RspUploadFile" (verifyRspUploadFile s).

Definition RspBackupStatusVerifier (s : vstate) (c : vctx) (msgType : MsgId) : res unit :=
  _ ← verifyReqId s c (msg_id msgType);
  t ← unmarshal c msgType;
  match is_type t "RspBackupStatus" with
  | Some m => verifyRspBackupStatus s (Some m)
  | None => carried t "RspBackupFile" (verifyRspBackupStatus s)
  end.

Definition RspBackupStatusWithNoReqIdVerifier (s : vstate) (c : vctx) (msgType : MsgId) : res unit :=
  t ← unmarshal c msgType;
  carried t "RspBackupFile" (verifyRspBackupStatus s).

Definition NoticeFileSliceBackupVerifier (s : vstate) (c : vctx) (msgType : MsgId) : res unit :=
  t ← unmarshal c msgType;
  match is_type t "NoticeFileSliceBackup" with
  | Some m => verifyNoticeFileSliceBackup s (Some m)
  | None => carried t "NoticeFileSliceBackup" (verifyNoticeFileSliceBackup s)
  end.

Definition RspFileStorageInfoVerifier (s : vstate) (c : vctx) (msgType : MsgId) : res unit :=
  _ ← verifyReqId s c (msg_id msgType);
  t ← unmarshal c msgType;
  match is_type t "RspFileStorageInfo" with
  | Some m => _ ← verifySpP2pAddress s c; verifyRspFileStorageInfo s (Some m)
  | None => carried t "RspFileStorageInfo" (verifyRspFileStorageInfo s)
  end.

Definition RspFileStorageInfoWithNoReqIdVerifier (s : vstate) (c : vctx) (msgType : MsgId) : res unit :=
  t ← unmarshal c msgType;
  carried t "RspFileStorageInfo" (verifyRspFileStorageInfo s).

Definition PpRspVerifier (s : vstate) (c : vctx) (msgType : MsgId) : res unit := verifyReqId s c (msg_id msgType).

Definition SpRspVerifier (s : vstate) (c : vctx) (msgType : MsgId) : res unit :=
  _ ← verifySpP2pAddress s c; verifyReqId s c (msg_id msgType).

Definition SpAddressVerifier (s : vstate) (c : vctx) (msgType : MsgId) : res unit := verifySpP2pAddress s c.

(** ** The table of events *)

Inductive VerifierFunc :=
| VSpRsp | VSpAddress | VPpRsp
| VRspUploadFile | VRspUploadFileNoReqId
| VRspBackupStatus | VRspBackupStatusNoReqId
| VNoticeFileSliceBackup
| VRspFileStorageInfo | VRspFileStorageInfoNoReqId.

Definition run_verifier (v : VerifierFunc) : vstate → vctx → MsgId → res unit :=
  match v with
  | VSpRsp => SpRspVerifier
  | VSpAddress => SpAddressVerifier
  | VPpRsp => PpRspVerifier
  | VRspUploadFile => RspUploadFileVerifier
  | VRspUploadFileNoReqId => RspUploadFileWithNoReqIdVerifier
  | VRspBackupStatus => RspBackupStatusVerifier
  | VRspBackupStatusNoReqId => RspBackupStatusWithNoReqIdVerifier
  | VNoticeFileSliceBackup => NoticeFileSliceBackupVerifier
  | VRspFileStorageInfo => RspFileStorageInfoVerifier
  | VRspFileStorageInfoNoReqId => RspFileStorageInfoWithNoReqIdVerifier
  end.

(** The handlers and the verifiers by message id. *)
Record Events := mkEvents { handlers : gmap Z string; verifierMap : gmap Z (option VerifierFunc) }.

Definition registerEvent (e : Events) (msgType : MsgId) (hf : string) (vf : option VerifierFunc) : Events :=
  mkEvents (<[msg_id msgType := hf]> (handlers e)) (<[msg_id msgType := vf]> (verifierMap e)).

Definition event_table : list (MsgId * string * option VerifierFunc) :=
  [
   (MSG_ID_RSP_GET_SPLIST, "RspGetSPList", Some VSpRsp);
   (MSG_ID_RSP_GET_PPSTATUS, "RspGetPPStatus", Some VSpRsp);
   (MSG_ID_RSP_GET_PPDOWNGRADEINFO, "RspGetPPDowngradeInfo", Some VSpRsp);
   (MSG_ID_RSP_GET_WALLETOZ, "RspGetWalletOz", Some VSpRsp);
   (MSG_ID_RSP_REPORT_NODESTATUS, "RspReportNodeStatus", Some VSpRsp);
   (MSG_ID_RSP_REGISTER, "RspRegister", Some VSpRsp);
   (MSG_ID_RSP_ACTIVATE_PP, "RspActivate", Some VSpRsp);
   (MSG_ID_RSP_UPDATE_STAKE_PP, "RspUpdateDeposit", Some VSpRsp);
   (MSG_ID_RSP_DEACTIVATE_PP, "RspDeactivate", Some VSpRsp);
   (MSG_ID_NOTICE_UNBONDING_PP, "NoticeUnbondingPP", Some VSpRsp);
   (MSG_ID_RSP_PREPAY, "RspPrepay", Some VSpRsp);
   (MSG_ID_RSP_MINING, "RspMining", Some VSpRsp);
   (MSG_ID_RSP_START_MAINTENANCE, "RspStartMaintenance", Some VSpRsp);
   (MSG_ID_RSP_STOP_MAINTENANCE, "RspStopMaintenance", Some VSpRsp);
   (MSG_ID_RSP_FIND_MY_FILELIST, "RspFindMyFileList", Some VSpRsp);
   (MSG_ID_RSP_UPLOAD_FILE, "RspUploadFile", Some VRspUploadFile);
   (MSG_ID_RSP_REPORT_UPLOAD_SLICE_RESULT, "RspReportUploadSliceResult", Some VSpRsp);
   (MSG_ID_RSP_REGISTER_NEWPP, "RspRegisterNewPP", Some VSpRsp);
   (MSG_ID_RSP_REPORT_DOWNLOAD_RESULT, "RspReportDownloadResult", Some VSpRsp);
   (MSG_ID_RSP_UPLOAD_SLICES_WRONG, "RspUploadSlicesWrong", Some VRspUploadFileNoReqId);
   (MSG_ID_RSP_REPORT_BACKUP_SLICE_RESULT, "RspReportBackupSliceResult", Some VSpRsp);
   (MSG_ID_RSP_FILE_BACKUP_STATUS, "RspBackupStatus", Some VRspBackupStatus);
   (MSG_ID_RSP_FILE_STORAGEINFO, "RspFileStorageInfo", Some VRspFileStorageInfo);
   (MSG_ID_RSP_FILE_REPLICA_INFO, "RspFileReplicaInfo", Some VSpRsp);
   (MSG_ID_RSP_FILE_STATUS, "RspFileStatus", Some VSpRsp);
   (MSG_ID_RSP_DOWNLOAD_FILE_WRONG, "RspDownloadFileWrong", Some VRspFileStorageInfo);
   (MSG_ID_RSP_SHARELINK, "RspShareLink", Some VSpRsp);
   (MSG_ID_RSP_SHARE_FILE, "RspShareFile", Some VSpRsp);
   (MSG_ID_RSP_GET_SHAREFILE, "RspGetShareFile", Some VRspFileStorageInfo);
   (MSG_ID_RSP_DELETE_SHARE, "RspDeleteShare", Some VSpRsp);
   (MSG_ID_RSP_SP_LATENCY_CHECK, "RspSpLatencyCheck", Some VSpRsp);
   (MSG_ID_RSP_DELETE_FILE, "RspDeleteFile", Some VSpRsp);
   (MSG_ID_RSP_CLEAR_EXPIRED_SHARE_LINKS, "RspClearExpiredShareLinks", Some VSpRsp);
   (MSG_ID_NOTICE_ACTIVATED_SP, "NoticeActivatedPP", Some VSpAddress);
   (MSG_ID_NOTICE_STATE_CHANGE_PP, "NoticeUpdatedDeposit", Some VSpAddress);
   (MSG_ID_NOTICE_ACTIVATE_PP, "NoticeDeactivatedPP", Some VSpAddress);
   (MSG_ID_RSP_STATE_CHANGE_PP, "RspStateChange", Some VSpAddress);
   (MSG_ID_REQ_UPLOAD_FILESLICE, "ReqUploadFileSlice", Some VRspUploadFileNoReqId);
   (MSG_ID_RSP_UPLOAD_FILESLICE, "RspUploadFileSlice", Some VPpRsp);
   (MSG_ID_REQ_BACKUP_FILESLICE, "ReqBackupFileSlice", Some VRspBackupStatusNoReqId);
   (MSG_ID_RSP_BACKUP_FILESLICE, "RspBackupFileSlice", Some VPpRsp);
   (MSG_ID_REQ_DOWNLOAD_SLICE, "ReqDownloadSlice", Some VRspFileStorageInfoNoReqId);
   (MSG_ID_RSP_DOWNLOAD_SLICE, "RspDownloadSlice", Some VPpRsp);
   (MSG_ID_REQ_TRANSFER_DOWNLOAD, "ReqTransferDownload", Some VNoticeFileSliceBackup);
   (MSG_ID_RSP_TRANSFER_DOWNLOAD, "RspTransferDownload", None);
   (MSG_ID_REQ_VERIFY_DOWNLOAD, "ReqVerifyDownload", None);
   (MSG_ID_RSP_VERIFY_DOWNLOAD, "RspVerifyDownload", None);
   (MSG_ID_RSP_VERIFY_RESULT, "RspVerifyDownloadResult", None);
   (MSG_ID_REQ_CLEAR_DOWNLOAD_TASK, "ReqClearDownloadTask", None);
   (MSG_ID_UPLOAD_SPEED_OF_PROGRESS, "UploadSpeedOfProgress", None);
   (MSG_ID_NOTICE_FILESLICE_BACKUP, "NoticeFileSliceBackup", Some VNoticeFileSliceBackup);
   (MSG_ID_NOTICE_FILESLICE_VERIFY, "NoticeFileSliceVerify", None);
   (MSG_ID_NOTICE_SP_UNDERMAINTENANCE, "NoticeSpUnderMaintenance", Some VSpAddress);
   (MSG_ID_NOTICE_RELOCATE_SP, "NoticeRelocateSp", Some VSpAddress);
   (MSG_ID_RSP_TRANSFER_DOWNLOAD_RESULT, "RspTransferDownloadResult", None);
   (MSG_ID_RSP_VERIFY_DOWNLOAD_RESULT, "RspVerifyDownloadResult", None);
   (MSG_ID_RSP_BADVERSION, "RspBadVersion", None);
   (MSG_ID_REQ_GET_HDINFO, "ReqGetHDInfo", None);
   (MSG_ID_RSP_GET_HDINFO, "RspGetHDInfo", None)
  ].

Definition RegisterAllEventHandlers : Events :=
  foldl (fun e '(t, hf, vf) => registerEvent e t hf vf) (mkEvents ∅ ∅) event_table.

Definition VerifyMessage (e : Events) (s : vstate) (c : vctx) (msgType : MsgId) : res unit :=
  match verifierMap e !! msg_id msgType with
  | Some (Some v) => run_verifier v s c msgType
  | _ => Ok tt
  end.

(** The message type that a handler passes to VerifyMessage first thing, if it calls it:
    all handlers call it for their own type but the four named here. *)
Definition verify_call (msgType : MsgId) (hf : string) : option MsgId :=
  if bool_decide (hf ∈ ["NoticeUnbondingPP"; "NoticeActivatedPP"; "NoticeDeactivatedPP"]) then None
  else if bool_decide (hf = "RspVerifyDownloadResult") then Some MSG_ID_RSP_TRANSFER_DOWNLOAD_RESULT
  else Some msgType.

(** The handler of a message type is run and gets past its check. *)
Definition acts_on (e : Events) (s : vstate) (c : vctx) (msgType : MsgId) : bool :=
  match handlers e !! msg_id msgType with
  | None => false
  | Some hf =>
      match verify_call msgType hf with
      | None => true
      | Some t => match VerifyMessage e s c t with Ok _ => true | _ => false end
      end
  end.

(** ** Requests and responses *)

Definition id_mask : Z := 0x7FFFFFFFFFFFFF00.

Lemma request_key_inj a b t t' : 0 ≤ t < 256 → 0 ≤ t' < 256 →
  request_key a t = request_key b t' ↔ Z.land a id_mask = Z.land b id_mask ∧ t = t'.
Proof.
  assert (∀ x, 0 ≤ x < 256 → Z.land x 255 = x) as Hlow.
  { intros x Hx. change 255 with (Z.ones 8). rewrite Z.land_ones by lia. apply Z.mod_small. done. }
  assert (∀ c x, 0 ≤ x < 256 → Z.land (request_key c x) id_mask = Z.land c id_mask ∧ Z.land (request_key c x) 255 = x) as Hk.
  { intros c x Hx. unfold request_key. fold id_mask. rewrite !Z.land_lor_distr_l, <- !Z.land_assoc, Z.land_diag. split.
    - rewrite <- (Hlow x Hx), <- Z.land_assoc. change (Z.land 255 id_mask) with 0. by rewrite Z.land_0_r, Z.lor_0_r.
    - change (Z.land id_mask 255) with 0. by rewrite Z.land_0_r, Z.lor_0_l, Hlow. }
  intros Ht Ht'. split; [|intros [E ->]; unfold request_key; fold id_mask; by rewrite E].
  intros E. destruct (Hk a t Ht) as [<- E1], (Hk b t' Ht') as [<- E2]. rewrite E in E1 |- *. split; [done|congruence].
Qed.

(** The records after a node has sent requests. *)
Definition sent (l : list (Z * MsgId)) (s : vstate) : vstate := foldl (fun s '(id, t) => StoreRequestInfo s id (msg_id t)) s l.

Lemma sent_lookup l : ∀ s k,
  is_Some (requestInfoMap (sent l s) !! k) ↔ is_Some (requestInfoMap s !! k) ∨ ∃ id t, (id, t) ∈ l ∧ request_key id (msg_id t) = k.
Proof.
  induction l as [|[id t] l IH]; intros s k; cbn [sent foldl].
  - split; [by left|]. intros [?|(id & t & H & _)]; [done|]. by apply elem_of_nil in H.
  - unfold sent in IH. rewrite IH. cbn [StoreRequestInfo requestInfoMap]. rewrite lookup_insert_is_Some. split.
    + intros [[E|[_ H]]|(id' & t' & H & E)]; [right|by left|right].
      * exists id, t. split; [by left|done].
      * exists id', t'. split; [by right|done].
    + intros [H|(id' & t' & [[= -> ->]|H]%elem_of_cons & E)].
      * destruct (decide (request_key id (msg_id t) = k)); [left; by left|left; by right].
      * left. by left.
      * right. by exists id', t'.
Qed.

Lemma msg_id_byte t : 0 ≤ msg_id t < 256.
Proof. pose proof (msg_id_range t). assert (NUMBER_MESSAGE_TYPES ≤ 256) by (vm_compute; discriminate). lia. Qed.

Lemma GetReqIdFromRspId_byte id : 0 ≤ GetReqIdFromRspId id < 256.
Proof. unfold GetReqIdFromRspId. destruct (msg_of_id id) as [[]|]; apply msg_id_byte. Qed.

(** A response is accepted exactly when a request was sent that has its id, up to the
    lowest byte, and the type that it answers. *)
Theorem responses_answer_requests l sps c t :
  verifyReqId (sent l (mkVstate sps ∅)) c (msg_id t) = Ok tt
  ↔ ∃ reqId r, (reqId, r) ∈ l ∧ msg_id r = GetReqIdFromRspId (msg_id t) ∧ Z.land reqId id_mask = Z.land (HeadReqId c) id_mask.
Proof.
  unfold verifyReqId, LoadRequestInfo. set (k := request_key _ _). pose proof (sent_lookup l (mkVstate sps ∅) k) as H.
  cbn [requestInfoMap] in H. rewrite lookup_empty in H.
  trans (is_Some (requestInfoMap (sent l (mkVstate sps ∅)) !! k)).
  - destruct (requestInfoMap _ !! k); cbn [snd]; split; try done; by intros [? ?].
  - rewrite H. split.
    + intros [[? ?]|(id & r & Hin & E)]; [done|]. apply request_key_inj in E as [E1 E2]; [|apply msg_id_byte|apply GetReqIdFromRspId_byte].
      by exists id, r.
    + intros (id & r & Hin & E1 & E2). right. exists id, r. split; [done|].
      apply request_key_inj; [apply msg_id_byte|apply GetReqIdFromRspId_byte|done].
Qed.

(** ** What the verifiers guarantee *)

Definition from_sp (s : vstate) (c : vctx) : Prop := is_Some (SPMap s !! SrcP2pAddr c).
Definition answered (s : vstate) (c : vctx) (t : MsgId) : Prop := verifyReqId s c (msg_id t) = Ok tt.

(** The message has the SP's signature over everything but the signature (and the request
    id). *)
Definition has_signature (pub : bytes) (type : string) (clear_req : bool) (m : SpMsg) : Prop :=
  ∃ sig b, NodeSign m = Some sig ∧ Marshal type (mkSpMsg (SpP2PAddress m) None (if clear_req then EmptyString else MsgReqId m) (Content m)) = Some b
    ∧ VerifyP2pSignBytes pub sig (CalcHashBytes b) = true.

(** The message names a known SP and has its signature; when the key in the map of SPs is not
    that of the address, any signature will do. *)
Definition signed_by_sp (s : vstate) (type : string) (clear_req : bool) (m : SpMsg) : Prop :=
  SpP2PAddress m ≠ EmptyString ∧ ∃ key pub, SPMap s !! SpP2PAddress m = Some key ∧ P2PPubKeyFromBech32 key = Some pub
    ∧ (has_signature pub type clear_req m ∨ is_Some (NodeSign m) ∧ VerifyP2pAddrBytes pub (SpP2PAddress m) = false).

(** The keys in the map of SPs are those of their addresses. *)
Definition keys_match (s : vstate) : Prop :=
  ∀ addr key pub, SPMap s !! addr = Some key → P2PPubKeyFromBech32 key = Some pub → VerifyP2pAddrBytes pub addr = true.

Lemma verify_signed_exact s type clear m : verify_signed s type clear (Some m) = Ok tt ↔ signed_by_sp s type clear m.
Proof.
  unfold verify_signed, signed_by_sp, has_signature, GetSpPubkey. destruct (NodeSign m) as [sig|] eqn:En.
  2:{ split; [done|]. intros (_ & key & pub & _ & _ & [(sig & b & ? & _)|[[? ?] _]]); done. }
  case_bool_decide as He. { split; [done|]. by intros [? _]. }
  destruct (SPMap s !! SpP2PAddress m) as [key|] eqn:Ek.
  2:{ split; [done|]. by intros (_ & key & pub & ? & _). }
  destruct (P2PPubKeyFromBech32 key) as [pub|] eqn:Ep.
  2:{ split; [done|]. intros (_ & key' & pub & [= <-] & E & _). congruence. }
  cbn [mbind res_bind]. destruct (VerifyP2pAddrBytes pub (SpP2PAddress m)) eqn:Ea; cbn [negb]; cbv zeta.
  2:{ split; [|done]. intros _. split; [done|]. exists key, pub. split_and!; [done..|]. right. by split. }
  destruct (Marshal type _) as [b|] eqn:Em.
  - destruct (VerifyP2pSignBytes pub sig (CalcHashBytes b)) eqn:Ev; split; try done.
    + intros _. split; [done|]. exists key, pub. split_and!; [done..|]. left. by exists sig, b.
    + intros (_ & key' & pub' & [= <-] & E & [(sig' & b' & [= <-] & [= <-] & Ev')|[_ Ea']]); congruence.
  - split; [done|]. intros (_ & key' & pub' & [= <-] & E & [(sig' & b' & _ & ? & _)|[_ Ea']]); congruence.
Qed.

(** With matching keys only the signature counts. *)
Lemma signed_with_matching_keys s type clear m : keys_match s → signed_by_sp s type clear m →
  ∃ key pub, SPMap s !! SpP2PAddress m = Some key ∧ P2PPubKeyFromBech32 key = Some pub ∧ has_signature pub type clear m.
Proof.
  intros Hk (_ & key & pub & E1 & E2 & [?|[_ E3]]); [by exists key, pub|]. by rewrite (Hk _ _ _ E1 E2) in E3.
Qed.

Definition own (s : vstate) (c : vctx) (t : MsgId) (type : string) (clear : bool) : Prop :=
  ∃ m, Unmarshal t (MsgBody c) = Some (TSigned type m) ∧ signed_by_sp s type clear m.
Definition inside (s : vstate) (c : vctx) (t : MsgId) (type field : string) (clear : bool) : Prop :=
  ∃ fields m, Unmarshal t (MsgBody c) = Some (TCarrier fields) ∧ FieldByName (TCarrier fields) field = Some (Some m) ∧ signed_by_sp s type clear m.

(** What each verifier stands for. *)
Definition guarantee (v : VerifierFunc) (s : vstate) (c : vctx) (t : MsgId) : Prop :=
  match v with
  | VSpRsp => from_sp s c ∧ answered s c t
  | VSpAddress => from_sp s c
  | VPpRsp => answered s c t
  | VRspUploadFile => answered s c t ∧ (from_sp s c ∧ own s c t "RspUploadFile" false ∨ inside s c t "RspUploadFile" "RspUploadFile" false)
  | VRspUploadFileNoReqId => inside s c t "RspUploadFile" "RspUploadFile" false
  | VRspBackupStatus => answered s c t ∧ (own s c t "RspBackupStatus" false ∨ inside s c t "RspBackupStatus" "RspBackupFile" false)
  | VRspBackupStatusNoReqId => inside s c t "RspBackupStatus" "RspBackupFile" false
  | VNoticeFileSliceBackup => own s c t "NoticeFileSliceBackup" false ∨ inside s c t "NoticeFileSliceBackup" "NoticeFileSliceBackup" false
  | VRspFileStorageInfo => answered s c t ∧ (from_sp s c ∧ own s c t "RspFileStorageInfo" true ∨ inside s c t "RspFileStorageInfo" "RspFileStorageInfo" true)
  | VRspFileStorageInfoNoReqId => inside s c t "RspFileStorageInfo" "RspFileStorageInfo" true
  end.

Lemma bind_unit (a b : res unit) : (_ ← a; b) = Ok tt ↔ a = Ok tt ∧ b = Ok tt.
Proof. destruct a as [[]| |]; cbn; split; try done; by intros []. Qed.

Lemma from_sp_exact s c : verifySpP2pAddress s c = Ok tt ↔ from_sp s c.
Proof. unfold verifySpP2pAddress, from_sp. destruct (SPMap s !! SrcP2pAddr c); split; try done. Qed.

(** A message inside another one. *)
Lemma carried_exact s c t type field clear :
  (tg ← unmarshal c t; carried tg field (verify_signed s type clear)) = Ok tt ↔ inside s c t type field clear.
Proof.
  unfold unmarshal, inside, carried. destruct (Unmarshal t (MsgBody c)) as [tg|]; cbn [mbind res_bind].
  2:{ split; [done|]. by intros (fields & m & ? & _). }
  destruct tg as [ty m|fields]. { split; [done|]. by intros (fields & m' & ? & _). }
  destruct (FieldByName (TCarrier fields) field) as [[m|]|] eqn:Ef.
  - rewrite verify_signed_exact. split; [intros H; by exists fields, m|]. intros (fields' & m' & [= <-] & E & H).
    rewrite Ef in E. by injection E as <-.
  - split; [done|]. intros (fields' & m' & [= <-] & E & _). congruence.
  - split; [done|]. intros (fields' & m' & [= <-] & E & _). congruence.
Qed.

(** A signed message, alone or inside another one; [extra] is what is checked besides in the
    first case. *)
Lemma own_or_carried s c t type field clear (extra : res unit) :
  (tg ← unmarshal c t;
   match is_type tg type with
   | Some m => _ ← extra; verify_signed s type clear (Some m)
   | None => carried tg field (verify_signed s type clear)
   end) = Ok tt
  ↔ extra = Ok tt ∧ own s c t type clear ∨ inside s c t type field clear.
Proof.
  rewrite <- carried_exact. unfold unmarshal, own. destruct (Unmarshal t (MsgBody c)) as [tg|]; cbn [mbind res_bind].
  2:{ split; [done|]. intros [(_ & m & ? & _)|?]; done. }
  destruct tg as [ty m|fields]; cbn [is_type].
  - case_bool_decide as E.
    + subst ty. rewrite bind_unit, verify_signed_exact. split.
      * intros [H1 H2]. left. split; [done|]. by exists m.
      * intros [(H1 & m' & [= <-] & H2)|H]; [done|]. by cbn in H.
    + split; [by right|]. intros [(_ & m' & [= -> <-] & _)|H]; done.
  - split; [by right|]. intros [(_ & m' & ? & _)|H]; done.
Qed.

Lemma run_verifier_exact v s c t : run_verifier v s c t = Ok tt ↔ guarantee v s c t.
Proof.
  pose proof (own_or_carried s c t) as Ho.
  destruct v; cbn [run_verifier guarantee]; unfold answered; rewrite <- ?from_sp_exact.
  - apply bind_unit.
  - done.
  - done.
  - rewrite <- Ho. apply bind_unit.
  - by apply carried_exact.
  - unfold RspBackupStatusVerifier. rewrite bind_unit. pose proof (Ho "RspBackupStatus" "RspBackupFile" false (Ok tt)) as H.
    cbn [mbind res_bind] in H. unfold verifyRspBackupStatus. rewrite H. tauto.
  - by apply carried_exact.
  - pose proof (Ho "NoticeFileSliceBackup" "NoticeFileSliceBackup" false (Ok tt)) as H. cbn [mbind res_bind] in H.
    unfold NoticeFileSliceBackupVerifier, verifyNoticeFileSliceBackup. rewrite H. tauto.
  - rewrite <- Ho. apply bind_unit.
  - by apply carried_exact.
Qed.

(** ** The table *)

Lemma table_registered : Forall (fun '(t, hf, vf) =>
  handlers RegisterAllEventHandlers !! msg_id t = Some hf ∧ verifierMap RegisterAllEventHandlers !! msg_id t = Some vf) event_table.
Proof. repeat (constructor; [split; vm_compute; reflexivity|]). constructor. Qed.

Lemma table_elem t hf vf : (t, hf, vf) ∈ event_table →
  handlers RegisterAllEventHandlers !! msg_id t = Some hf ∧ verifierMap RegisterAllEventHandlers !! msg_id t = Some vf.
Proof.
  intros H. pose proof table_registered as Ht. rewrite Forall_forall in Ht. specialize (Ht (t, hf, vf)). apply Ht. by apply list_elem_of_In.
Qed.


(** The messages that an order must carry are signed, when the keys match. *)
Corollary orders_are_signed s c t type field clear : keys_match s → own s c t type clear ∨ inside s c t type field clear →
  ∃ m key pub, SPMap s !! SpP2PAddress m = Some key ∧ P2PPubKeyFromBech32 key = Some pub ∧ has_signature pub type clear m.
Proof.
  intros Hk [(m & _ & H)|(fields & m & _ & _ & H)]; exists m; by apply (signed_with_matching_keys s).
Qed.

(** Three notices change the state of the node whoever sends them: their handlers never
    call the verification, although verifiers are registered for them. *)
Theorem unverified_notices s c :
  acts_on RegisterAllEventHandlers s c MSG_ID_NOTICE_UNBONDING_PP = true
  ∧ acts_on RegisterAllEventHandlers s c MSG_ID_NOTICE_ACTIVATED_SP = true
  ∧ acts_on RegisterAllEventHandlers s c MSG_ID_NOTICE_ACTIVATE_PP = true.
Proof. split_and!; vm_compute; reflexivity. Qed.

(** When the key in the map of SPs is not that of the address, the error is made from a
    nil error, which gives nil: the message is accepted without a look at the signature. *)
Theorem mismatched_key_accepts_anything s type clear m key pub sig :
  SpP2PAddress m ≠ EmptyString → NodeSign m = Some sig → SPMap s !! SpP2PAddress m = Some key → P2PPubKeyFromBech32 key = Some pub →
  VerifyP2pAddrBytes pub (SpP2PAddress m) = false → verify_signed s type clear (Some m) = Ok tt.
Proof.
  intros He En Ek Ep Ev. unfold verify_signed, GetSpPubkey. rewrite En, bool_decide_eq_false_2, Ek, Ep by done.
  cbn [mbind res_bind]. by rewrite Ev.
Qed.

End Verification.

(** ** An SP, its signature and a request for a slice *)

Module VerificationDemo.

(** A toy signature: the key followed by the message; an address is its key. *)
Definition toy_crypto : NodeCrypto := {|
  CalcHashBytes := fun b => take 32 b;
  VerifyP2pAddrBytes := fun pub addr => bool_decide (pub = string_bytes addr);
  VerifyP2pSignBytes := fun pub sig msg => bool_decide (sig = pub ++ msg)
|}.

Definition order : SpMsg := mkSpMsg "sp1" (Some (string_bytes "sp1upload")) "" (string_bytes "upload").

Definition toy_wire : Wire := {|
  Unmarshal := fun t b => match t with MSG_ID_REQ_UPLOAD_FILESLICE => Some (TCarrier [("RspUploadFile", Some order)]) | _ => None end;
  Marshal := fun _ m => Some (Content m);
  P2PPubKeyFromBech32 := fun s => Some (string_bytes s)
|}.

Definition state : vstate := mkVstate {["sp1" := "sp1"]} ∅.
Definition request : vctx := mkVctx [] 256 "pp7".


(** The handler does act on it. *)
Lemma request_is_acted_on :
  acts_on (NC := toy_crypto) (W := toy_wire) RegisterAllEventHandlers state request MSG_ID_REQ_UPLOAD_FILESLICE = true.
Proof. vm_compute. reflexivity. Qed.

Definition forged : SpMsg := mkSpMsg "sp1" (Some []) "" (string_bytes "delete").

Lemma mismatched_key_accepts_anything_witness :
  verify_signed (NC := toy_crypto) (W := toy_wire) (mkVstate {["sp1" := "old"]} ∅) "RspUploadFile" false (Some forged) = Ok tt.
Proof.
  apply (@mismatched_key_accepts_anything toy_crypto toy_wire _ _ _ _ "old" (string_bytes "old") []); try reflexivity. discriminate.
Defined.

End VerificationDemo.
