(* ===== verification/P2pServer.v ===== *)
(** * P2pServer: the connections that a node opens

    Models pp/p2pserver (client.go, reconnect.go, sp_peers.go): the connection to the main
    SP, the map of client connections by address, the cache of connections by task, the
    choice of an SP to connect to with the waiting times of SPs under maintenance, and the
    sending of messages; and UploadPause of pp/event/upload_file.go, which closes cached
    connections.

    A client connection is an object in [clients]; maps hold its number.  What the network
    does is an argument: [up] says which addresses can be connected to, [valid_addr] which
    have an IP address and a port.  The port of the node in the configuration is a number.  The messages that
    are handed to a connection are recorded in [outbox].  Expiry of the maintenance records,
    when one has not been used for ten minutes, is left out. *)
From S2P Require Import Prelude Header Message Verification.

Record ClientConn := mkClient { c_name : string; c_open : bool }.

(** A protobuf message with the slice data it carries, which SendMessage takes out. *)
Record Pb := mkPb { Data : bytes; Rest : bytes }.

Record sent_msg := mkSent { o_conn : Z; o_cmd : Z; o_req : Z; o_body : Pb; o_data : bytes }.

Record lastReconnectRecord := mkRecord { SpAddr : string; RecTime : Z; NextAllowableReconnectInSec : Z }.

Record P2pServer := mkP2p {
  clients : gmap Z ClientConn;
  nextClient : Z;
  mainSpConn : option Z;
  connMap : gmap string Z;
  cachedConnMap : gmap string Z;
  offlineChan : list bool;
  SPMaintenanceMap : gmap string lastReconnectRecord;
  optimalSpNetworkAddr : string;
  requests : vstate;
  outbox : list sent_msg
}.

Definition MIN_RECONNECT_INTERVAL_THRESHOLD : Z := 60.
Definition MAX_RECONNECT_INTERVAL_THRESHOLD : Z := 600.
Definition RECONNECT_INTERVAL_MULTIPLIER : Z := 2.

(** Updates. *)
Definition set_clients (p : P2pServer) (cs : gmap Z ClientConn) (n : Z) : P2pServer :=
  mkP2p cs n (mainSpConn p) (connMap p) (cachedConnMap p) (offlineChan p) (SPMaintenanceMap p) (optimalSpNetworkAddr p) (requests p) (outbox p).
Definition set_main (p : P2pServer) (m : option Z) : P2pServer :=
  mkP2p (clients p) (nextClient p) m (connMap p) (cachedConnMap p) (offlineChan p) (SPMaintenanceMap p) (optimalSpNetworkAddr p) (requests p) (outbox p).
Definition set_connMap (p : P2pServer) (m : gmap string Z) : P2pServer :=
  mkP2p (clients p) (nextClient p) (mainSpConn p) m (cachedConnMap p) (offlineChan p) (SPMaintenanceMap p) (optimalSpNetworkAddr p) (requests p) (outbox p).
Definition set_cache (p : P2pServer) (m : gmap string Z) : P2pServer :=
  mkP2p (clients p) (nextClient p) (mainSpConn p) (connMap p) m (offlineChan p) (SPMaintenanceMap p) (optimalSpNetworkAddr p) (requests p) (outbox p).
Definition set_offline (p : P2pServer) (l : list bool) : P2pServer :=
  mkP2p (clients p) (nextClient p) (mainSpConn p) (connMap p) (cachedConnMap p) l (SPMaintenanceMap p) (optimalSpNetworkAddr p) (requests p) (outbox p).
Definition set_maintenance (p : P2pServer) (m : gmap string lastReconnectRecord) : P2pServer :=
  mkP2p (clients p) (nextClient p) (mainSpConn p) (connMap p) (cachedConnMap p) (offlineChan p) m (optimalSpNetworkAddr p) (requests p) (outbox p).
Definition set_optimal (p : P2pServer) (a : string) : P2pServer :=
  mkP2p (clients p) (nextClient p) (mainSpConn p) (connMap p) (cachedConnMap p) (offlineChan p) (SPMaintenanceMap p) a (requests p) (outbox p).
Definition set_sent (p : P2pServer) (r : vstate) (o : list sent_msg) : P2pServer :=
  mkP2p (clients p) (nextClient p) (mainSpConn p) (connMap p) (cachedConnMap p) (offlineChan p) (SPMaintenanceMap p) (optimalSpNetworkAddr p) r o.

Definition initClient (sps : gmap string string) : P2pServer :=
  mkP2p ∅ 0 None ∅ ∅ [] ∅ EmptyString (mkVstate sps ∅) [].

(** ** Closing *)

Definition SpConnValid (p : P2pServer) : bool := bool_decide (is_Some (mainSpConn p)).

Definition name_of (p : P2pServer) (id : Z) : option string := c_name <$> clients p !! id.

Definition GetSpName (p : P2pServer) : string :=
  match mainSpConn p ≫= name_of p with None => "{NA} Invalid SpConn" | Some n => n end.

(** The callback of a connection that closes: the entry under its name goes, and the main
    SP is lost if it has the same name; the channel holds two notices, further ones are
    dropped.  A notice says whether it was the main SP; its address is only logged. *)
Definition onClose (p : P2pServer) (cc : ClientConn) : P2pServer :=
  let p := set_connMap p (delete (c_name cc) (connMap p)) in
  let '(p, isSp) :=
    if SpConnValid p && bool_decide (GetSpName p = c_name cc) then (set_main p None, true) else (p, false) in
  if bool_decide (length (offlineChan p) < 2)%nat then set_offline p (offlineChan p ++ [isSp]) else p.

(** ClientClose and Close: the first call does the work. *)
Definition ClientClose (p : P2pServer) (id : Z) : P2pServer :=
  match clients p !! id with
  | Some cc =>
      if c_open cc then
        let p := onClose p cc in set_clients p (<[id := mkClient (c_name cc) false]> (clients p)) (nextClient p)
      else p
  | None => p
  end.

(** ** Connecting *)

Section Connecting.
Context (valid_addr up : string → bool).

(** The connection is entered in the maps before it is started; a connection that cannot
    be started closes itself.  An address without host and port gives a nil connection. *)
Definition newClient (p : P2pServer) (server : string) (spconn : bool) : res (P2pServer * Z) :=
  if negb (valid_addr server) then Panic "nil pointer dereference"
  else
    let id := nextClient p in
    let p := set_clients p (<[id := mkClient server true]> (clients p)) (id + 1) in
    let p := if spconn then set_main p (Some id) else p in
    let p := set_connMap p (<[server := id]> (connMap p)) in
    Ok (if up server then p else ClientClose p id, id).

Definition NewClientToMainSp (p : P2pServer) (server : string) : res P2pServer :=
  '(p, _) ← newClient p server true; Ok p.
Definition NewClientToAlternativeSp (p : P2pServer) (server : string) : res (P2pServer * Z) := newClient p server false.
Definition NewClientToPp (p : P2pServer) (server : string) : res (P2pServer * Z) := newClient p server false.

Definition GetClientConn (p : P2pServer) (networkAddr : string) : option Z := connMap p !! networkAddr.

(** ** Maintenance of SPs *)

(** Times in seconds. *)
Definition canReconnect (now : Z) (l : lastReconnectRecord) : bool :=
  bool_decide (RecTime l + NextAllowableReconnectInSec l < now).

Definition RecordSpMaintenance (p : P2pServer) (now : Z) (spP2pAddress : string) : P2pServer * bool :=
  match SPMaintenanceMap p !! spP2pAddress with
  | Some lastRecord =>
      if negb (canReconnect now lastRecord) then (p, false)
      else
        let next := Z.min MAX_RECONNECT_INTERVAL_THRESHOLD (NextAllowableReconnectInSec lastRecord * RECONNECT_INTERVAL_MULTIPLIER) in
        (set_maintenance p (<[spP2pAddress := mkRecord spP2pAddress now next]> (SPMaintenanceMap p)), true)
  | None =>
      (set_maintenance p (<[spP2pAddress := mkRecord spP2pAddress now MIN_RECONNECT_INTERVAL_THRESHOLD]> (SPMaintenanceMap p)), true)
  end.

Definition CanConnectToSp (p : P2pServer) (now : Z) (p2pAddress : string) : bool :=
  match SPMaintenanceMap p !! p2pAddress with
  | Some lastRecord => negb (bool_decide (SpAddr lastRecord = p2pAddress) && negb (canReconnect now lastRecord))
  | None => true
  end.

(** The loop over the SPs in random order; an SP has a P2P address and a network address. *)
Fixpoint try_sps (p : P2pServer) (now : Z) (sps : list (string * string)) : res (P2pServer * bool) :=
  match sps with
  | [] => Ok (p, false)
  | (p2p, net) :: sps =>
      if negb (CanConnectToSp p now p2p) then try_sps p now sps
      else
        p ← NewClientToMainSp p net;
        if SpConnValid p then Ok (p, true)
        else try_sps (fst (RecordSpMaintenance p now p2p)) now sps
  end.

(** [spList] is the list of known SPs in the order of the draw.  The result says whether
    there is a new connection. *)
Definition ConnectToSP (p : P2pServer) (now : Z) (spList : list (string * string)) : res (P2pServer * res bool) :=
  if SpConnValid p then Ok (p, Ok false)
  else if bool_decide (spList = []) then Ok (p, Err "there are no known SP nodes")
  else
    p ← (if bool_decide (optimalSpNetworkAddr p = EmptyString) then Ok p
         else p' ← NewClientToMainSp p (optimalSpNetworkAddr p); Ok (set_optimal p' EmptyString));
    if SpConnValid p then Ok (p, Ok true)
    else
      '(p, found) ← try_sps p now spList;
      Ok (p, if (found : bool) then Ok true else Err "couldn't connect to any SP node").

(** A better SP: it is connected to when the present connection has been closed. *)
Definition ConfirmOptSP (p : P2pServer) (spNetworkAddr : string) : P2pServer :=
  if bool_decide (GetSpName p = spNetworkAddr) then p
  else
    let p := set_optimal p spNetworkAddr in
    match mainSpConn p with Some id => ClientClose p id | None => p end.

(** ** Sending *)

Definition is_open (p : P2pServer) (id : Z) : bool := match clients p !! id with Some c => c_open c | None => false end.

(** The types whose data travels outside of the protobuf body. *)
Definition takes_data (cmd : Z) : bool :=
  match msg_of_id cmd with
  | Some MSG_ID_REQ_UPLOAD_FILESLICE | Some MSG_ID_REQ_BACKUP_FILESLICE | Some MSG_ID_RSP_DOWNLOAD_SLICE
  | Some MSG_ID_RSP_TRANSFER_DOWNLOAD | Some MSG_ID_RSP_VERIFY_DOWNLOAD => true
  | _ => false
  end.

(** [ctxReq] is the request id of the context, 0 if it has none; [fresh] the id that would be
    generated.  The data is taken out of the caller's message, which the result gives back;
    a closed connection refuses the message. *)
Definition SendMessage (p : P2pServer) (conn : Z) (pb : Pb) (cmd : MsgType) (ctxReq fresh : Z) : P2pServer * Pb * res unit :=
  let data := if takes_data (Id cmd) then Data pb else [] in
  let pb := if takes_data (Id cmd) then mkPb [] (Rest pb) else pb in
  let reqId := if bool_decide (ctxReq = 0) then fresh else ctxReq in
  let p := if String.prefix "Req" (Name cmd) then set_sent p (StoreRequestInfo (requests p) reqId (Id cmd)) (outbox p) else p in
  if is_open p conn then (set_sent p (requests p) (outbox p ++ [mkSent conn (Id cmd) reqId pb data]), pb, Ok tt)
  else (p, pb, Err "server has been closed").

Definition SendMessageToSPServer (p : P2pServer) (pb : Pb) (cmd : MsgType) (ctxReq fresh : Z) : P2pServer :=
  match mainSpConn p with Some id => (SendMessage p id pb cmd ctxReq fresh).1.1 | None => p end.

Definition StoreConnToCache (p : P2pServer) (key : string) (conn : Z) : P2pServer := set_cache p (<[key := conn]> (cachedConnMap p)).
Definition LoadConnFromCache (p : P2pServer) (key : string) : option Z := cachedConnMap p !! key.
Definition DeleteConnFromCache (p : P2pServer) (key : string) : P2pServer := set_cache p (delete key (cachedConnMap p)).

Definition SendMessageByCachedConn (p : P2pServer) (key netAddr : string) (pb : Pb) (cmd : MsgType) (ctxReq fresh fresh' : Z) :
    res (P2pServer * Pb * res unit) :=
  let '(p, pb, r) :=
    match LoadConnFromCache p key with
    | Some conn => SendMessage p conn pb cmd ctxReq fresh
    | None => (p, pb, Err "not in cache")
    end in
  match r with
  | Ok _ => Ok (p, pb, Ok tt)
  | _ =>
      '(p, conn) ← NewClientToPp p netAddr;
      let '(p, pb, r) := SendMessage p conn pb cmd ctxReq fresh' in
      match r with
      | Ok _ => Ok (StoreConnToCache p key conn, pb, Ok tt)
      | e => Ok (p, pb, e)
      end
  end.

(** A message that is passed on: [msgBuf] has its header and data already. *)
Definition write_to (p : P2pServer) (conn : Z) (cmd : MsgType) (reqId : Z) (pb : Pb) (data : bytes) : P2pServer * res unit :=
  if is_open p conn then (set_sent p (requests p) (outbox p ++ [mkSent conn (Id cmd) reqId pb data]), Ok tt)
  else (p, Err "server has been closed").

(** [parentReq] is the id of the request that the context is a part of, if there is one. *)
Definition TransferSendMessageToPPServ (p : P2pServer) (addr : string) (headCmd headReq ctxReq : Z) (parentReq : option Z) (fresh : Z) (pb : Pb) (data : bytes) :
    res (P2pServer * res unit) :=
  match GetMsgTypeFromId init headCmd with
  | None => Ok (p, Err "invalid message type")
  | Some cmd =>
      let generated (id : Z) := if bool_decide (id = 0) then fresh else id in
      let is_req := String.prefix "Req" (Name cmd) in
      let p := if is_req then set_sent p (StoreRequestInfo (requests p) (generated ctxReq) (Id cmd)) (outbox p) else p in
      let head := if is_req then generated ctxReq else headReq in
      let req := if bool_decide (head = 0) then generated (default ctxReq parentReq) else head in
      match connMap p !! addr with
      | Some conn => Ok (write_to p conn cmd req pb data)
      | None => '(p, conn) ← NewClientToPp p addr; Ok (write_to p conn cmd req pb data)
      end
  end.

(** A message for the SP is passed on when there is, or can be made, a connection to one;
    the context's id stands in for a missing one. *)
Definition TransferSendMessageToSPServer (p : P2pServer) (now : Z) (spList : list (string * string)) (cmd : MsgType) (headReq ctxReq fresh : Z) (pb : Pb) (data : bytes) : res P2pServer :=
  '(p, r) ← ConnectToSP p now spList;
  let req := if bool_decide (headReq = 0) then (if bool_decide (ctxReq = 0) then fresh else ctxReq) else headReq in
  Ok match r with
     | Ok _ => match mainSpConn p with Some id => (write_to p id cmd req pb data).1 | None => p end
     | _ => p
     end.

(** ** The cache *)

Definition CleanUpConnMap (p : P2pServer) (fileHash : string) : P2pServer :=
  foldl (fun p k => if String.prefix fileHash k then DeleteConnFromCache p k else p) p (map fst (map_to_list (cachedConnMap p))).

(** The callback is applied to the connections with the prefix, and then to all. *)
Definition RangeCachedConn (p : P2pServer) (prefix : string) (rf : P2pServer → string → Z → P2pServer) : P2pServer :=
  let p := foldl (fun p '(k, v) => if String.prefix prefix k then rf p k v else p) p (map_to_list (cachedConnMap p)) in
  foldl (fun p '(k, v) => rf p k v) p (map_to_list (cachedConnMap p)).

Definition UploadPause (p : P2pServer) (fileHash : string) : P2pServer :=
  let p := RangeCachedConn p ("upload#" +:+ fileHash) (fun p _ conn => ClientClose p conn) in
  CleanUpConnMap p fileHash.

(** ** Invariant *)

Definition open_as (p : P2pServer) (id : Z) (n : string) : Prop := clients p !! id = Some (mkClient n true).

(** The entries of the map are open connections under their names; the main SP is open; the
    waiting times are between one and ten minutes. *)
Record p2p_ok (p : P2pServer) : Prop := {
  ok_ids : ∀ id c, clients p !! id = Some c → id < nextClient p;
  ok_map : ∀ n id, connMap p !! n = Some id → open_as p id n;
  ok_main : ∀ id, mainSpConn p = Some id → ∃ n, open_as p id n;
  ok_wait : ∀ a r, SPMaintenanceMap p !! a = Some r → SpAddr r = a ∧ MIN_RECONNECT_INTERVAL_THRESHOLD ≤ NextAllowableReconnectInSec r ≤ MAX_RECONNECT_INTERVAL_THRESHOLD
}.

(** What closing does to the fields that matter. *)
Lemma ClientClose_effect p id n : p2p_ok p → open_as p id n →
  let p' := ClientClose p id in
  clients p' = <[id := mkClient n false]> (clients p) ∧ nextClient p' = nextClient p ∧ connMap p' = delete n (connMap p)
  ∧ mainSpConn p' = (if bool_decide (mainSpConn p ≫= name_of p = Some n) then None else mainSpConn p)
  ∧ SPMaintenanceMap p' = SPMaintenanceMap p ∧ cachedConnMap p' = cachedConnMap p ∧ outbox p' = outbox p ∧ requests p' = requests p
  ∧ optimalSpNetworkAddr p' = optimalSpNetworkAddr p.
Proof.
  intros Hp E. cbv zeta. unfold ClientClose. rewrite E. cbn [c_open c_name]. unfold onClose. cbn [c_name].
  set (p1 := set_connMap p _).
  assert ((SpConnValid p1 && bool_decide (GetSpName p1 = n)) = bool_decide (mainSpConn p ≫= name_of p = Some n)) as ->.
  { unfold SpConnValid, GetSpName. change (mainSpConn p1) with (mainSpConn p). change (name_of p1) with (name_of p).
    destruct (mainSpConn p) as [m|] eqn:Em; [|by rewrite bool_decide_eq_false_2 by (by intros [? ?])].
    destruct (ok_main _ Hp m Em) as [n' En]. cbn [mbind option_bind]. unfold name_of. rewrite En. cbn.
    repeat case_bool_decide; try done; congruence. }
  destruct (bool_decide _); cbn [fst snd]; case_bool_decide; by split_and!.
Qed.

Lemma ClientClose_closed p id : (∀ n, ¬ open_as p id n) → ClientClose p id = p.
Proof. intros H. unfold ClientClose. destruct (clients p !! id) as [[n []]|] eqn:E; try done. by destruct (H n). Qed.

Lemma open_dec p id : (∃ n, open_as p id n) ∨ ∀ n, ¬ open_as p id n.
Proof.
  unfold open_as. destruct (clients p !! id) as [[n []]|]; [left; by exists n|right..]; intros n'; congruence.
Qed.

Lemma ClientClose_ok p id : p2p_ok p → p2p_ok (ClientClose p id).
Proof.
  intros Hp. destruct (open_dec p id) as [[n E]|H]; [|by rewrite ClientClose_closed].
  destruct (ClientClose_effect p id n Hp E) as (Ec & En & Em & Es & Ew & _). destruct Hp as [Hi Hm Hs Hw]. split.
  - rewrite Ec, En. intros x c. rewrite lookup_insert_Some. intros [[<- _]|[_ Hx]]; by eapply Hi.
  - rewrite Em. intros n' x. rewrite lookup_delete_Some. intros [Hne Hx]. unfold open_as. rewrite Ec. apply Hm in Hx.
    rewrite lookup_insert_ne; [done|]. intros ->. unfold open_as in *. congruence.
  - rewrite Es. intros x. case_bool_decide as Hc; [done|]. intros Hx. destruct (Hs x Hx) as [n' En']. exists n'. unfold open_as. rewrite Ec.
    rewrite lookup_insert_ne; [done|]. intros ->. apply Hc. rewrite Hx. cbn. unfold name_of. by rewrite E.
  - by rewrite Ew.
Qed.

(** A new connection, open unless it could not be started. *)
Lemma newClient_ok p server spconn p' id : p2p_ok p → newClient p server spconn = Ok (p', id) →
  p2p_ok p' ∧ id = nextClient p ∧ nextClient p' = id + 1 ∧ cachedConnMap p' = cachedConnMap p ∧ outbox p' = outbox p ∧ requests p' = requests p
  ∧ SPMaintenanceMap p' = SPMaintenanceMap p ∧ optimalSpNetworkAddr p' = optimalSpNetworkAddr p
  ∧ (∀ x, x ≠ id → clients p' !! x = clients p !! x)
  ∧ if up server then open_as p' id server ∧ mainSpConn p' = (if spconn then Some id else mainSpConn p)
    else clients p' !! id = Some (mkClient server false) ∧ (if spconn then mainSpConn p' = None else True).
Proof.
  intros Hp. unfold newClient. destruct (valid_addr server); cbn [negb]; [|done]. cbv zeta.
  set (p1 := set_connMap _ _). intros E. injection E as <- <-.
  assert (∀ x c, clients p !! x = Some c → x ≠ nextClient p) as Hfresh by (intros x c Hx ->; apply (ok_ids _ Hp) in Hx; lia).
  assert (clients p1 = <[nextClient p := mkClient server true]> (clients p)) as Ec by (unfold p1; by destruct spconn).
  assert (connMap p1 = <[server := nextClient p]> (connMap p)) as Em by (unfold p1; by destruct spconn).
  assert (mainSpConn p1 = if spconn then Some (nextClient p) else mainSpConn p) as Es by (unfold p1; by destruct spconn).
  assert (nextClient p1 = nextClient p + 1) as En by (unfold p1; by destruct spconn).
  assert (cachedConnMap p1 = cachedConnMap p ∧ outbox p1 = outbox p ∧ requests p1 = requests p ∧ SPMaintenanceMap p1 = SPMaintenanceMap p
    ∧ optimalSpNetworkAddr p1 = optimalSpNetworkAddr p) as (F1 & F2 & F3 & F4 & F5) by (unfold p1; by destruct spconn).
  assert (open_as p1 (nextClient p) server) as Ho by (unfold open_as; rewrite Ec; apply lookup_insert_eq).
  assert (∀ x, x ≠ nextClient p → clients p1 !! x = clients p !! x) as Hother by (intros x Hx; rewrite Ec; by apply lookup_insert_ne).
  assert (p2p_ok p1) as Hp1.
  { destruct Hp as [Hi Hm Hs Hw]. split.
    - rewrite Ec, En. intros x c. rewrite lookup_insert_Some. intros [[<- _]|[_ Hx]]; [lia|]. apply Hi in Hx. lia.
    - rewrite Em. intros n x. rewrite lookup_insert_Some. intros [[<- <-]|[_ Hx]]; [done|]. apply Hm in Hx. unfold open_as in *. rewrite Hother; [done|]. by eapply Hfresh.
    - rewrite Es. intros x. destruct spconn; [intros [= <-]; by exists server|]. intros Hx. destruct (Hs x Hx) as [n Hn]. exists n.
      unfold open_as in *. rewrite Hother; [done|]. by eapply Hfresh.
    - by rewrite F4. }
  destruct (up server).
  - by split_and!.
  - destruct (ClientClose_effect p1 (nextClient p) server Hp1 Ho) as (G1 & G2 & G3 & G4 & G5 & G6 & G7 & G8 & G9).
    split_and!; try congruence.
    + by apply ClientClose_ok.
    + intros x Hx. rewrite G1, lookup_insert_ne by done. by apply Hother.
    + rewrite G1. apply lookup_insert_eq.
    + destruct spconn; [|done]. rewrite G4, Es. cbn. rewrite bool_decide_eq_true_2; [done|]. unfold name_of. by rewrite Ho.
Qed.

Lemma SpConnValid_main p : SpConnValid p = true ↔ ∃ id, mainSpConn p = Some id.
Proof. unfold SpConnValid. rewrite bool_decide_eq_true. split; [by intros [x ?]; exists x|by intros [x ?]; exists x]. Qed.

(** ** Choosing an SP *)

Lemma RecordSpMaintenance_ok p now a : p2p_ok p →
  p2p_ok (fst (RecordSpMaintenance p now a)) ∧ ∀ a', a' ≠ a → SPMaintenanceMap (fst (RecordSpMaintenance p now a)) !! a' = SPMaintenanceMap p !! a'.
Proof.
  intros Hp. pose proof Hp as [Hi Hm Hs Hw]. unfold RecordSpMaintenance.
  assert (∀ r, SpAddr r = a → 60 ≤ NextAllowableReconnectInSec r ≤ 600 →
    p2p_ok (set_maintenance p (<[a := r]> (SPMaintenanceMap p)))
    ∧ ∀ a', a' ≠ a → SPMaintenanceMap (set_maintenance p (<[a := r]> (SPMaintenanceMap p))) !! a' = SPMaintenanceMap p !! a') as Hset.
  { intros r Ea Hr. split; [|intros a' Ha; by apply lookup_insert_ne]. split; try done. cbn. intros x y. rewrite lookup_insert_Some.
    intros [[<- <-]|[_ Hx]]; [done|by apply Hw]. }
  destruct (SPMaintenanceMap p !! a) as [r|] eqn:E.
  - destruct (canReconnect now r); cbn [negb fst]; [|done]. destruct (Hw a r E) as [_ Hr]. apply Hset; [done|].
    unfold MIN_RECONNECT_INTERVAL_THRESHOLD, MAX_RECONNECT_INTERVAL_THRESHOLD, RECONNECT_INTERVAL_MULTIPLIER in *. cbn. lia.
  - apply Hset; [done|]. by cbn.
Qed.

Lemma NewClientToMainSp_ok p net p' : p2p_ok p → mainSpConn p = None → NewClientToMainSp p net = Ok p' →
  p2p_ok p' ∧ SPMaintenanceMap p' = SPMaintenanceMap p
  ∧ if up net then ∃ id, mainSpConn p' = Some id ∧ open_as p' id net else mainSpConn p' = None.
Proof.
  intros Hp Hn. unfold NewClientToMainSp. intros ([p1 id] & E & [= <-])%bind_ok.
  destruct (newClient_ok p net true p1 id Hp E) as (Hp1 & -> & _ & _ & _ & _ & Ew & _ & _ & H). split_and!; [done|done|].
  destruct (up net); [destruct H as [Ho Hm]; by exists (nextClient p)|by apply H].
Qed.
(** An SP that could not be connected to has to wait. *)
Lemma RecordSpMaintenance_waits p now a : p2p_ok p → CanConnectToSp p now a = true →
  CanConnectToSp (fst (RecordSpMaintenance p now a)) now a = false.
Proof.
  intros Hp. unfold CanConnectToSp, RecordSpMaintenance.
  assert (∀ n, 60 ≤ n → canReconnect now (mkRecord a now n) = false) as Hc.
  { intros n Hn. unfold canReconnect. cbn. apply bool_decide_eq_false. lia. }
  destruct (SPMaintenanceMap p !! a) as [r|] eqn:E.
  - destruct (ok_wait _ Hp a r E) as [-> Hr]. rewrite bool_decide_eq_true_2 by done. destruct (canReconnect now r); cbn [negb andb]; [|done].
    intros _. cbn [fst SPMaintenanceMap set_maintenance]. rewrite lookup_insert_eq. cbn [SpAddr]. rewrite bool_decide_eq_true_2 by done.
    rewrite Hc; [done|]. unfold MIN_RECONNECT_INTERVAL_THRESHOLD, MAX_RECONNECT_INTERVAL_THRESHOLD, RECONNECT_INTERVAL_MULTIPLIER in *. lia.
  - intros _. cbn [fst SPMaintenanceMap set_maintenance]. rewrite lookup_insert_eq. cbn [SpAddr]. rewrite bool_decide_eq_true_2 by done. by rewrite Hc.
Qed.

Lemma CanConnectToSp_same p p' now a : SPMaintenanceMap p' !! a = SPMaintenanceMap p !! a → CanConnectToSp p' now a = CanConnectToSp p now a.
Proof. intros E. unfold CanConnectToSp. by rewrite E. Qed.

Lemma try_sps_ok sps now : ∀ p,
  p2p_ok p → mainSpConn p = None → NoDup (map fst sps) → Forall (fun '(_, net) => valid_addr net = true) sps →
  ∃ p' found, try_sps p now sps = Ok (p', found) ∧ p2p_ok p'
    ∧ (∀ a, a ∉ map fst sps → SPMaintenanceMap p' !! a = SPMaintenanceMap p !! a)
    ∧ if (found : bool) then ∃ id p2p net, mainSpConn p' = Some id ∧ open_as p' id net ∧ up net = true ∧ (p2p, net) ∈ sps ∧ CanConnectToSp p now p2p = true
      else mainSpConn p' = None ∧ ∀ p2p net, (p2p, net) ∈ sps → CanConnectToSp p' now p2p = false ∧ (CanConnectToSp p now p2p = true → up net = false).
Proof.
  induction sps as [|[p2p net] sps IH]; intros p Hp Hn Hnd Hv; cbn [try_sps].
  { exists p, false. split_and!; [done|done|done|done|]. intros p2p net H. by apply elem_of_nil in H. }
  cbn [map fst] in Hnd. apply list.NoDup_cons in Hnd as [Hni Hnd]. apply Forall_cons_1 in Hv as [Hva Hv].
  destruct (CanConnectToSp p now p2p) eqn:Ec; cbn [negb].
  - assert (∃ p1, NewClientToMainSp p net = Ok p1) as [p1 E1].
    { unfold NewClientToMainSp, newClient. rewrite Hva. cbn [negb]. cbv zeta. cbn [mbind res_bind]. by eexists. }
    rewrite E1. cbn [mbind res_bind]. destruct (NewClientToMainSp_ok p net p1 Hp Hn E1) as (Hp1 & Ew & H). destruct (up net) eqn:Eu.
    + destruct H as (id & Em & Ho). assert (SpConnValid p1 = true) as -> by (apply SpConnValid_main; by exists id).
      exists p1, true. split_and!; [done|done|intros a _; by rewrite Ew|]. exists id, p2p, net. split_and!; try done. by left.
    + assert (SpConnValid p1 = false) as -> by (unfold SpConnValid; rewrite H; apply bool_decide_eq_false; by intros [? ?]).
      destruct (RecordSpMaintenance_ok p1 now p2p Hp1) as [Hp2 Hsame]. set (p2 := fst (RecordSpMaintenance p1 now p2p)) in *.
      assert (CanConnectToSp p2 now p2p = false) as Hwait.
      { apply RecordSpMaintenance_waits; [done|]. rewrite <- Ec. apply CanConnectToSp_same. by rewrite Ew. }
      assert (mainSpConn p2 = None) as Hn2 by (unfold p2, RecordSpMaintenance; by repeat case_match).
      destruct (IH p2 Hp2 Hn2 Hnd Hv) as (p' & found & E & Hp' & Hs & H'). exists p', found. split_and!; [done|done| |].
      * intros a Ha. apply not_elem_of_cons in Ha as [Ha1 Ha2]. rewrite Hs, Hsame, Ew by done. done.
      * assert (∀ q n, (q, n) ∈ sps → CanConnectToSp p2 now q = CanConnectToSp p now q) as Hq.
        { intros q n Hin. apply CanConnectToSp_same. rewrite Hsame, Ew; [done|]. intros ->. apply Hni. apply list_elem_of_fmap. by exists (p2p, n). }
        destruct found.
        { destruct H' as (id & q & n & ? & ? & ? & Hin & Hc). exists id, q, n. split_and!; try done; [by right|]. by rewrite <- (Hq q n). }
        destruct H' as [Hm H']. split; [done|]. intros q n [[= -> ->]|Hin]%elem_of_cons.
        { split; [|by intros _]. rewrite <- Hwait. apply CanConnectToSp_same. by apply Hs. }
        destruct (H' q n Hin) as [H1 H2]. split; [done|]. by rewrite <- (Hq q n).
  - destruct (IH p Hp Hn Hnd Hv) as (p' & found & E & Hp' & Hs & H'). exists p', found. split_and!; [done|done| |].
    + intros a Ha. apply not_elem_of_cons in Ha as [_ Ha]. by apply Hs.
    + destruct found.
      { destruct H' as (id & q & n & ? & ? & ? & Hin & Hc). exists id, q, n. split_and!; try done. by right. }
      destruct H' as [Hm H']. split; [done|]. intros q n [[= -> ->]|Hin]%elem_of_cons; [|by apply H'].
      split; [|congruence]. rewrite <- Ec. apply CanConnectToSp_same. by apply Hs.
Qed.

(** C24: Without a connection to an SP, ConnectToSP finds one whenever there is one: it
    connects to the SP that was found best or to one that is not waiting and that can be
    reached; and when it gives up, none of the SPs that were not waiting can be reached, and
    all of them are waiting now. *)
Theorem connect_finds_an_sp p now spList :
  p2p_ok p → mainSpConn p = None → spList ≠ [] → NoDup (map fst spList) → Forall (fun '(_, net) => valid_addr net = true) spList →
  optimalSpNetworkAddr p = EmptyString ∨ valid_addr (optimalSpNetworkAddr p) = true →
  ∃ p' r, ConnectToSP p now spList = Ok (p', r) ∧ p2p_ok p'
    ∧ match r with
      | Ok new => new = true ∧ ∃ id net, mainSpConn p' = Some id ∧ open_as p' id net ∧ up net = true
          ∧ (net = optimalSpNetworkAddr p ∨ ∃ p2p, (p2p, net) ∈ spList ∧ CanConnectToSp p now p2p = true)
      | Err _ => mainSpConn p' = None
          ∧ ∀ p2p net, (p2p, net) ∈ spList → CanConnectToSp p' now p2p = false ∧ (CanConnectToSp p now p2p = true → up net = false)
      | Panic _ => False
      end.
Proof.
  intros Hp Hn Hne Hnd Hv Hopt. unfold ConnectToSP.
  assert (SpConnValid p = false) as -> by (unfold SpConnValid; rewrite Hn; apply bool_decide_eq_false; by intros [? ?]).
  rewrite bool_decide_eq_false_2 by done.
  (* the SP that was found best *)
  assert (∃ p1, (if bool_decide (optimalSpNetworkAddr p = EmptyString) then Ok p
     else p' ← NewClientToMainSp p (optimalSpNetworkAddr p); Ok (set_optimal p' EmptyString)) = Ok p1 ∧ p2p_ok p1
     ∧ SPMaintenanceMap p1 = SPMaintenanceMap p
     ∧ (mainSpConn p1 = None ∨ ∃ id, mainSpConn p1 = Some id ∧ open_as p1 id (optimalSpNetworkAddr p) ∧ up (optimalSpNetworkAddr p) = true)) as (p1 & -> & Hp1 & Ew & H1).
  { case_bool_decide as Eo; [exists p; split_and!; try done; by left|]. destruct Hopt as [?|Hva]; [done|].
    assert (∃ p1, NewClientToMainSp p (optimalSpNetworkAddr p) = Ok p1) as [p1 E1].
    { unfold NewClientToMainSp, newClient. rewrite Hva. cbn [negb]. cbv zeta. cbn [mbind res_bind]. by eexists. }
    rewrite E1. cbn [mbind res_bind]. eexists. split; [done|]. destruct (NewClientToMainSp_ok _ _ _ Hp Hn E1) as (Hp1 & Ew & H).
    split; [destruct Hp1; by split|]. split; [done|]. destruct (up (optimalSpNetworkAddr p)); [|by left]. right.
    destruct H as (id & ? & ?). by exists id. }
  cbn [mbind res_bind]. destruct H1 as [H1|(id & Hm & Ho & Hu)].
  - assert (SpConnValid p1 = false) as -> by (unfold SpConnValid; rewrite H1; apply bool_decide_eq_false; by intros [? ?]).
    destruct (try_sps_ok spList now p1 Hp1 H1 Hnd Hv) as (p' & found & -> & Hp' & _ & H). cbn [mbind res_bind].
    assert (∀ a, CanConnectToSp p1 now a = CanConnectToSp p now a) as Hc by (intros a; apply CanConnectToSp_same; by rewrite Ew).
    destruct found.
    + exists p', (Ok true). split_and!; try done. destruct H as (id & q & n & ? & ? & ? & ? & ?). exists id, n. split_and!; try done.
      right. exists q. by rewrite <- Hc.
    + eexists p', (Err _). split_and!; try done; [by apply H|]. intros q n Hin. destruct (proj2 H q n Hin) as [? ?]. split; [done|]. by rewrite <- Hc.
  - assert (SpConnValid p1 = true) as -> by (apply SpConnValid_main; by exists id).
    exists p1, (Ok true). split_and!; try done. exists id, (optimalSpNetworkAddr p). split_and!; try done. by left.
Qed.

(** ** Sending *)

(** What a call of SendMessage adds. *)
Lemma SendMessage_effect p conn pb cmd ctxReq fresh :
  let reqId := if bool_decide (ctxReq = 0) then fresh else ctxReq in
  let '(p', pb', r) := SendMessage p conn pb cmd ctxReq fresh in
  clients p' = clients p ∧ nextClient p' = nextClient p ∧ connMap p' = connMap p ∧ mainSpConn p' = mainSpConn p
  ∧ SPMaintenanceMap p' = SPMaintenanceMap p ∧ cachedConnMap p' = cachedConnMap p
  ∧ pb' = (if takes_data (Id cmd) then mkPb [] (Rest pb) else pb)
  ∧ requests p' = (if String.prefix "Req" (Name cmd) then StoreRequestInfo (requests p) reqId (Id cmd) else requests p)
  ∧ if is_open p conn then r = Ok tt ∧ outbox p' = outbox p ++ [mkSent conn (Id cmd) reqId pb' (if takes_data (Id cmd) then Data pb else [])]
    else (∃ e, r = Err e) ∧ outbox p' = outbox p.
Proof.
  cbv zeta. unfold SendMessage. destruct (String.prefix "Req" (Name cmd)); cbv zeta.
  - change (is_open (set_sent p _ _) conn) with (is_open p conn). destruct (is_open p conn); cbn; split_and!; eauto.
  - destruct (is_open p conn); cbn; split_and!; eauto.
Qed.

Lemma same_ok p p' : p2p_ok p → clients p' = clients p → nextClient p' = nextClient p → connMap p' = connMap p → mainSpConn p' = mainSpConn p →
  SPMaintenanceMap p' = SPMaintenanceMap p → p2p_ok p'.
Proof. intros [Hi Hm Hs Hw] E1 E2 E3 E4 E5. split; unfold open_as; rewrite ?E1, ?E2, ?E3, ?E4, ?E5; done. Qed.

(** A message sent over a cached connection is handed over exactly once when no error is
    reported, to an open connection that is then the one in the cache, and not at all when an
    error is; and for a request the response to it will be let through. *)
Theorem cached_send_delivers_once p key netAddr pb cmd ctxReq fresh fresh' p' pb' r :
  p2p_ok p → SendMessageByCachedConn p key netAddr pb cmd ctxReq fresh fresh' = Ok (p', pb', r) →
  p2p_ok p'
  ∧ match r with
    | Ok _ => ∃ m, outbox p' = outbox p ++ [m] ∧ is_open p' (o_conn m) = true ∧ cachedConnMap p' !! key = Some (o_conn m) ∧ o_cmd m = Id cmd
        ∧ (String.prefix "Req" (Name cmd) = true → requestInfoMap (requests p') !! request_key (o_req m) (Id cmd) = Some (Id cmd))
    | _ => outbox p' = outbox p
    end.
Proof.
  intros Hp. unfold SendMessageByCachedConn.
  (* the second attempt *)
  assert (∀ q pbq, p2p_ok q → outbox q = outbox p →
    ('(q, conn) ← NewClientToPp q netAddr;
     let '(q, pb, r) := SendMessage q conn pbq cmd ctxReq fresh' in
     match r with Ok _ => Ok (StoreConnToCache q key conn, pb, Ok tt) | e => Ok (q, pb, e) end) = Ok (p', pb', r) →
    p2p_ok p'
    ∧ match r with
      | Ok _ => ∃ m, outbox p' = outbox p ++ [m] ∧ is_open p' (o_conn m) = true ∧ cachedConnMap p' !! key = Some (o_conn m) ∧ o_cmd m = Id cmd
          ∧ (String.prefix "Req" (Name cmd) = true → requestInfoMap (requests p') !! request_key (o_req m) (Id cmd) = Some (Id cmd))
      | _ => outbox p' = outbox p
      end) as Hnew.
  { intros q pbq Hq Eq ([q1 conn] & E & E')%bind_ok. destruct (newClient_ok q netAddr false q1 conn Hq E) as (Hq1 & _ & _ & _ & Eo & _).
    pose proof (SendMessage_effect q1 conn pbq cmd ctxReq fresh') as H. cbv zeta in H.
    destruct (SendMessage q1 conn pbq cmd ctxReq fresh') as [[q2 pb2] r2]. destruct H as (G1 & G2 & G3 & G4 & G5 & G6 & G7 & G8 & H).
    destruct (is_open q1 conn) eqn:Eop.
    - destruct H as [-> Eo2]. injection E' as <- <- <-. split; [by apply (same_ok q1)|].
      eexists. cbn [outbox StoreConnToCache set_cache]. split; [by rewrite Eo2, Eo, Eq|]. cbn [o_conn o_cmd o_req]. split_and!.
      + unfold is_open in *. cbn. by rewrite G1.
      + cbn. apply lookup_insert_eq.
      + done.
      + intros Hr. cbn. rewrite G8, Hr. apply lookup_insert_eq.
    - destruct H as [[e ->] Eo2]. injection E' as <- <- <-. split; [by apply (same_ok q1)|]. by rewrite Eo2, Eo, Eq. }
  unfold LoadConnFromCache. destruct (cachedConnMap p !! key) as [conn|] eqn:Ec; [|by apply (Hnew p pb)].
  pose proof (SendMessage_effect p conn pb cmd ctxReq fresh) as H. cbv zeta in H.
  destruct (SendMessage p conn pb cmd ctxReq fresh) as [[p1 pb1] r1]. destruct H as (G1 & G2 & G3 & G4 & G5 & G6 & G7 & G8 & H).
  assert (p2p_ok p1) as Hp1 by (by apply (same_ok p)). destruct (is_open p conn) eqn:Eop.
  - destruct H as [-> Eo]. intros E. injection E as <- <- <-. split; [done|]. eexists. split; [done|]. cbn [o_conn o_cmd o_req]. split_and!.
    + unfold is_open in *. by rewrite G1.
    + by rewrite G6.
    + done.
    + intros Hr. rewrite G8, Hr. apply lookup_insert_eq.
  - destruct H as [[e ->] Eo]. by apply (Hnew p1 pb1).
Qed.

(** SendMessage takes the data out of the caller's message before it writes.  When the
    cached connection has been closed, the message that the second attempt sends over a new
    connection, with success, has no data. *)
Theorem stale_connection_loses_data p key netAddr pb cmd ctxReq fresh fresh' conn :
  p2p_ok p → cachedConnMap p !! key = Some conn → is_open p conn = false → valid_addr netAddr = true → up netAddr = true →
  takes_data (Id cmd) = true →
  ∃ p' pb' m, SendMessageByCachedConn p key netAddr pb cmd ctxReq fresh fresh' = Ok (p', pb', Ok tt)
    ∧ outbox p' = outbox p ++ [m] ∧ o_data m = [] ∧ Data (o_body m) = [].
Proof.
  intros Hp Ec Eo Hva Hup Hd. unfold SendMessageByCachedConn, LoadConnFromCache. rewrite Ec.
  pose proof (SendMessage_effect p conn pb cmd ctxReq fresh) as H. cbv zeta in H.
  destruct (SendMessage p conn pb cmd ctxReq fresh) as [[p1 pb1] r1]. rewrite Eo, Hd in H.
  destruct H as (G1 & G2 & G3 & G4 & G5 & G6 & G7 & G8 & [e ->] & Ho). assert (p2p_ok p1) as Hp1 by (by apply (same_ok p)).
  assert (∃ q id, NewClientToPp p1 netAddr = Ok (q, id)) as (q & id & En) by (unfold NewClientToPp, newClient; rewrite Hva; cbn [negb]; by eexists _, _).
  rewrite En. cbn [mbind res_bind]. destruct (newClient_ok p1 netAddr false q id Hp1 En) as (Hq & _ & _ & _ & Eq & _ & _ & _ & _ & H).
  rewrite Hup in H. destruct H as [Hopen _].
  pose proof (SendMessage_effect q id pb1 cmd ctxReq fresh') as H. cbv zeta in H.
  destruct (SendMessage q id pb1 cmd ctxReq fresh') as [[q2 pb2] r2]. assert (is_open q id = true) as Eqo by (unfold is_open; by rewrite Hopen).
  rewrite Eqo, Hd in H. destruct H as (_ & _ & _ & _ & _ & _ & E7 & _ & -> & Ho2).
  eexists _, _, _. split; [reflexivity|]. cbn. rewrite Ho2, Eq, Ho. split; [done|]. subst pb1 pb2. done.
Qed.

(** ** Closing of the wrong connections *)

(** Closing never opens a connection, and keeps the cache. *)
Lemma ClientClose_open p id j : is_open (ClientClose p id) j = is_open p j && negb (bool_decide (j = id)).
Proof.
  unfold is_open, ClientClose. case_bool_decide as Hj; [subst j|]; destruct (clients p !! id) as [[n []]|] eqn:E; cbn [c_open]; cbn [set_clients clients];
    rewrite ?E, ?lookup_insert_eq, ?lookup_insert_ne by done; cbn; rewrite ?andb_true_r; try done.
  unfold onClose. destruct (_ && _); case_bool_decide; done.
Qed.

Lemma ClientClose_cache p id : cachedConnMap (ClientClose p id) = cachedConnMap p.
Proof.
  unfold ClientClose. destruct (clients p !! id) as [[n []]|]; cbn [c_open]; try done. cbn [set_clients cachedConnMap].
  unfold onClose. destruct (_ && _); case_bool_decide; done.
Qed.

(** A loop that closes some of the connections of a list. *)
Lemma close_all_spec (f : string → bool) (l : list (string * Z)) : ∀ p,
  let p' := foldl (fun p '(k, v) => if f k then ClientClose p v else p) p l in
  cachedConnMap p' = cachedConnMap p
  ∧ (∀ j, is_open p j = false → is_open p' j = false)
  ∧ (∀ k j, (k, j) ∈ l → f k = true → is_open p' j = false)
  ∧ (p2p_ok p → p2p_ok p').
Proof.
  induction l as [|[k v] l IH]; intros p; cbv zeta in *; cbn [foldl].
  { split_and!; try done. by intros k j ?%elem_of_nil. }
  set (p1 := if f k then ClientClose p v else p). destruct (IH p1) as (H1 & H2 & H3 & H4). split_and!.
  - rewrite H1. unfold p1. destruct (f k); [apply ClientClose_cache|done].
  - intros j Hj. apply H2. unfold p1. destruct (f k); [by rewrite ClientClose_open, Hj|done].
  - intros k' j [[= -> ->]|Hin]%elem_of_cons Hf; [|by eapply H3]. apply H2. unfold p1. rewrite Hf, ClientClose_open, bool_decide_eq_true_2 by done.
    by rewrite andb_false_r.
  - intros Hp. apply H4. unfold p1. destruct (f k); [by apply ClientClose_ok|done].
Qed.

(** What pausing removes from the cache. *)
Lemma CleanUpConnMap_spec p fileHash :
  clients (CleanUpConnMap p fileHash) = clients p
  ∧ (∀ k, String.prefix fileHash k = false → cachedConnMap (CleanUpConnMap p fileHash) !! k = cachedConnMap p !! k)
  ∧ (p2p_ok p → p2p_ok (CleanUpConnMap p fileHash)).
Proof.
  unfold CleanUpConnMap. generalize (map fst (map_to_list (cachedConnMap p))) as l. intros l. revert p.
  induction l as [|k l IH]; intros p; cbn [foldl]; [done|].
  set (p1 := if String.prefix fileHash k then DeleteConnFromCache p k else p). destruct (IH p1) as (H1 & H2 & H3).
  assert (clients p1 = clients p) as E1 by (unfold p1; by destruct (String.prefix _ _)). split_and!; [by rewrite H1| |].
  - intros k' Hk. rewrite H2 by done. unfold p1. destruct (String.prefix fileHash k) eqn:E; [|done]. apply lookup_delete_ne. congruence.
  - intros Hp. apply H3. unfold p1. destruct (String.prefix _ _); [|done]. by apply (same_ok p).
Qed.

(** Pausing the upload of one file closes the cached connections of all transfers, and
    leaves those of uploads in the cache, also the ones of the file itself: a key begins with
    upload# and not with the hash. *)
Theorem pause_closes_all_transfers p fileHash :
  p2p_ok p →
  let p' := UploadPause p fileHash in
  p2p_ok p'
  ∧ (∀ key conn, cachedConnMap p !! key = Some conn → is_open p' conn = false)
  ∧ ∀ key, String.prefix fileHash key = false → cachedConnMap p' !! key = cachedConnMap p !! key.
Proof.
  intros Hp. cbv zeta. unfold UploadPause, RangeCachedConn.
  destruct (close_all_spec (String.prefix ("upload#" +:+ fileHash)) (map_to_list (cachedConnMap p)) p) as (H1 & _ & _ & H4).
  set (p1 := foldl _ p _) in *. specialize (H4 Hp).
  destruct (close_all_spec (const true) (map_to_list (cachedConnMap p1)) p1) as (G1 & _ & G3 & G4). cbn [const] in *.
  set (p2 := foldl _ p1 _) in *. specialize (G4 H4). destruct (CleanUpConnMap_spec p2 fileHash) as (F1 & F2 & F3). split_and!; [by apply F3| |].
  - intros key conn E. unfold is_open. rewrite F1. apply (G3 key); [|done]. apply elem_of_map_to_list. by rewrite H1.
  - intros key Hk. by rewrite F2, G1, H1.
Qed.

(** Connections are told apart by their address.  When a second connection to the
    address of the main SP closes, the node forgets its main SP although that connection is
    open. *)
Theorem closing_a_twin_loses_the_main_sp p main twin n :
  p2p_ok p → mainSpConn p = Some main → open_as p main n → open_as p twin n → twin ≠ main →
  let p' := ClientClose p twin in SpConnValid p' = false ∧ is_open p' main = true ∧ connMap p' !! n = None.
Proof.
  intros Hp Em Ho Ht Hne. cbv zeta. destruct (ClientClose_effect p twin n Hp Ht) as (_ & _ & Ec & Es & _). split_and!.
  - assert (mainSpConn p ≫= name_of p = Some n) as E by (rewrite Em; cbn; unfold name_of; by rewrite Ho).
    unfold SpConnValid. rewrite Es, (bool_decide_eq_true_2 _ E). apply bool_decide_eq_false. by intros [? ?].
  - rewrite ClientClose_open. unfold is_open. rewrite Ho. cbn. by rewrite bool_decide_eq_false_2 by done.
  - rewrite Ec. apply lookup_delete_eq.
Qed.
End Connecting.

(** ** Two SPs, an upload and a pause *)

Module P2pServerDemo.

Definition valid (a : string) : bool := String.prefix "10." a.
Definition reachable (a : string) : bool := negb (bool_decide (a = "10.0.0.1:18081"%string)).
Definition sps : list (string * string) := [("sp1", "10.0.0.1:18081"); ("sp2", "10.0.0.2:18081")]%string.
Definition start : P2pServer := initClient ∅.

Lemma start_ok : p2p_ok start.
Proof. split; by intros *. Qed.

Lemma connect_finds_an_sp_witness :
  ∃ p' r, ConnectToSP valid reachable start 1000 sps = Ok (p', r) ∧ p2p_ok p'
    ∧ match r with
      | Ok new => new = true ∧ ∃ id net, mainSpConn p' = Some id ∧ open_as p' id net ∧ reachable net = true
          ∧ (net = optimalSpNetworkAddr start ∨ ∃ p2p, (p2p, net) ∈ sps ∧ CanConnectToSp start 1000 p2p = true)
      | Err _ => mainSpConn p' = None
          ∧ ∀ p2p net, (p2p, net) ∈ sps → CanConnectToSp p' 1000 p2p = false ∧ (CanConnectToSp start 1000 p2p = true → reachable net = false)
      | Panic _ => False
      end.
Proof.
  apply (connect_finds_an_sp valid reachable start 1000 sps); [apply start_ok|reflexivity|discriminate| | |by left].
  - apply (bool_decide_unpack _). vm_compute. exact I.
  - by repeat constructor.
Defined.

(** The first SP cannot be reached, has to wait, and the second is the main SP. *)
Lemma second_sp_is_chosen :
  (fun '(p, r) => (GetSpName p, CanConnectToSp p 1060 "sp1", CanConnectToSp p 1061 "sp1", r)) <$> ConnectToSP valid reachable start 1000 sps
  = Ok ("10.0.0.2:18081"%string, false, true, Ok true).
Proof. vm_compute. reflexivity. Qed.

Definition slice : Pb := mkPb (string_bytes "ABC") (string_bytes "slice 1").
Definition upload_slice : MsgType := mkMsgType (msg_id MSG_ID_REQ_UPLOAD_FILESLICE) "ReqUpLFS".
Definition key : string := "upload#v05file1stsds1".
Definition dest : string := "10.0.0.9:18082".

Definition after_upload : res P2pServer :=
  '(p, _, _) ← SendMessageByCachedConn valid reachable start key dest slice upload_slice 0 512 768; Ok p.
Definition uploading : P2pServer := match after_upload with Ok p => p | _ => start end.

Lemma cached_send_delivers_once_witness :
  ∃ p' pb' r, SendMessageByCachedConn valid reachable start key dest slice upload_slice 0 512 768 = Ok (p', pb', r) ∧ p2p_ok p'
  ∧ match r with
    | Ok _ => ∃ m, outbox p' = outbox start ++ [m] ∧ is_open p' (o_conn m) = true ∧ cachedConnMap p' !! key = Some (o_conn m) ∧ o_cmd m = Id upload_slice
        ∧ (String.prefix "Req" (Name upload_slice) = true → requestInfoMap (requests p') !! request_key (o_req m) (Id upload_slice) = Some (Id upload_slice))
    | _ => outbox p' = outbox start
    end.
Proof.
  destruct (SendMessageByCachedConn valid reachable start key dest slice upload_slice 0 512 768) as [[[p' pb'] r]| |] eqn:E;
    [|vm_compute in E; discriminate E..].
  exists p', pb', r. split; [reflexivity|].
  exact (cached_send_delivers_once valid reachable start key dest slice upload_slice 0 512 768 p' pb' r start_ok E).
Defined.

Lemma uploading_ok : p2p_ok uploading.
Proof.
  split.
  - intros id c. change (clients uploading) with ({[0 := mkClient dest true]} : gmap Z ClientConn). change (nextClient uploading) with 1.
    rewrite lookup_singleton_Some. lia.
  - intros n id. change (connMap uploading) with ({[dest := 0]} : gmap string Z). rewrite lookup_singleton_Some. by intros [<- <-].
  - by intros id [=].
  - by intros a r.
Qed.

Lemma pause_closes_all_transfers_witness :
  let p' := UploadPause uploading "v05other" in
  p2p_ok p' ∧ (∀ key conn, cachedConnMap uploading !! key = Some conn → is_open p' conn = false)
  ∧ ∀ key, String.prefix "v05other" key = false → cachedConnMap p' !! key = cachedConnMap uploading !! key.
Proof. exact (pause_closes_all_transfers uploading "v05other" uploading_ok). Defined.

(** After another file's upload was paused, a slice of this one is sent without its data. *)
Definition paused : P2pServer := UploadPause uploading "v05other".

Lemma paused_ok : p2p_ok paused.
Proof.
  split.
  - intros id c. replace (clients paused) with ({[0 := mkClient dest false]} : gmap Z ClientConn) by (vm_compute; reflexivity).
    replace (nextClient paused) with 1 by (vm_compute; reflexivity). rewrite lookup_singleton_Some. lia.
  - intros n id. replace (connMap paused) with (∅ : gmap string Z) by (vm_compute; reflexivity). by rewrite lookup_empty.
  - intros id. by replace (mainSpConn paused) with (None : option Z) by (vm_compute; reflexivity).
  - intros a r. replace (SPMaintenanceMap paused) with (∅ : gmap string lastReconnectRecord) by (vm_compute; reflexivity). by rewrite lookup_empty.
Qed.

Lemma stale_connection_loses_data_witness :
  ∃ p' pb' m, SendMessageByCachedConn valid reachable paused key dest slice upload_slice 0 1024 1280 = Ok (p', pb', Ok tt)
    ∧ outbox p' = outbox paused ++ [m] ∧ o_data m = [] ∧ Data (o_body m) = [].
Proof.
  apply (stale_connection_loses_data valid reachable paused key dest slice upload_slice 0 1024 1280 0); try (vm_compute; reflexivity).
  exact paused_ok.
Defined.

(** Measuring the latency of an SP opens a connection to it; when it is then chosen as the
    main SP there is a second one. *)
Definition two_conns : P2pServer :=
  mkP2p {[0 := mkClient "10.0.0.2:18081" true; 1 := mkClient "10.0.0.2:18081" true]} 2 (Some 0) {["10.0.0.2:18081" := 1]} ∅ [] ∅ EmptyString (mkVstate ∅ ∅) [].

Lemma closing_a_twin_loses_the_main_sp_witness :
  let p' := ClientClose two_conns 1 in SpConnValid p' = false ∧ is_open p' 0 = true ∧ connMap p' !! "10.0.0.2:18081"%string = None.
Proof.
  apply (closing_a_twin_loses_the_main_sp two_conns 0 1 "10.0.0.2:18081"); try (vm_compute; reflexivity); [|discriminate].
  split.
  - intros id c. change (nextClient two_conns) with 2. change (clients two_conns) with ({[0 := mkClient "10.0.0.2:18081" true; 1 := mkClient "10.0.0.2:18081" true]} : gmap Z ClientConn).
    rewrite lookup_insert_Some, lookup_singleton_Some. lia.
  - intros n id. change (connMap two_conns) with ({["10.0.0.2:18081"%string := 1]} : gmap string Z). rewrite lookup_singleton_Some. by intros [<- <-].
  - intros id [= <-]. by exists "10.0.0.2:18081"%string.
  - by intros a r.
Defined.

End P2pServerDemo.
