(* ===== verification/RpcUpload.v ===== *)
(** * RpcUpload: uploads through the RPC interface

    Models RequestUpload, UploadData, UploadSign and ResultHook of pp/namespace/api.go, the
    goroutine that fetches the slices of a file from the client, CacheRemoteFileData and the
    channels between the two (pp/file/file_rpc.go), and the client's side, put of
    example/rpcclient/rpc_client.go, up to the signature.

    [step] is one step of a session for one file: of the client, of the call that it waits for,
    of the goroutine, a hand-over on the channel of results, or a time-out.  A schedule is a
    list of such events; a step that is blocked gives nothing.  The mutex of the results is
    held by a sender until its result has been taken.

    [MaxSliceSize] is setting.MaxSliceSize (2^25) and [SAFE] is FILE_DATA_SAFE_SIZE (3,500,000);
    the theorems hold for all sizes with the bounds they state.  The number of slices is
    computed in floating point, which is exact for a slice size that is a power of two and
    files below 2^53 bytes.  Base64 and JSON between client and node are left out; decoded data
    is never nil.  Signatures are checked by the parameters [VerifyWalletAddr] and
    [VerifyWalletSign]. *)
From S2P Require Import Prelude Paths Storage Node.

(** ** Data *)

Inductive Return := UPLOAD_DATA | SUCCESS | TIME_OUT | SIGNATURE_FAILURE | CONFLICT_WITH_ANOTHER_SESSION | SESSION_STOPPED | INTERNAL_DATA_FAILURE.
Record Result := mkResult { r_Return : Return; r_OffsetStart : Z; r_OffsetEnd : Z }.
Definition plain_result (r : Return) : Result := mkResult r 0 0.

Record DataWithOffset := mkData { pk_Data : bytes; pk_Offset : Z }.
Record fileUploadOffset := mkOffset { PacketFileOffset : Z; SliceFileOffset : Z }.
Record SliceHashAddr := mkSHA { sh_SliceHash : string; sh_SliceSize : Z; sh_SliceNumber : Z; sh_Start : Z; sh_End : Z }.
Record SignatureInfo := mkSig { sg_Address : string; sg_Pubkey : string; sg_Signature : string; sg_Seq : string; sg_ReqTime : Z }.
Record ReqUploadFile := mkReqUp { ru_FileHash : string; ru_FileName : string; ru_FileSize : Z; ru_Slices : list SliceHashAddr; ru_Signature : SignatureInfo }.

Definition NUMBER_OF_UPLOAD_CHAN_BUFFER : nat := 5.

(** ** The channels of results *)

(** A map from file keys to unbuffered channels, and the mutex, with what its holder is
    sending where. *)
Record Hub := mkHub { rpcFileEventChan : gmap string Z; nextChan : Z; fileEventMutex : option (Z * Result) }.
Definition hub0 : Hub := mkHub ∅ 0 None.

(** What waits for the mutex is blocked: no result. *)
Definition SubscribeRemoteFileEvent (h : Hub) (key : string) : option (Hub * Z) :=
  match fileEventMutex h with
  | Some _ => None
  | None => Some (mkHub (<[key := nextChan h]> (rpcFileEventChan h)) (nextChan h + 1) None, nextChan h)
  end.
Definition UnsubscribeRemoteFileEvent (h : Hub) (key : string) : option Hub :=
  match fileEventMutex h with
  | Some _ => None
  | None => Some (mkHub (delete key (rpcFileEventChan h)) (nextChan h) None)
  end.
(** The call up to the point where it returns an error ([false]) or waits for the receiver. *)
Definition SetRemoteFileResult (h : Hub) (key : string) (r : Result) : option (Hub * bool) :=
  match fileEventMutex h with
  | Some _ => None
  | None =>
      match rpcFileEventChan h !! key with
      | Some ch => Some (mkHub (rpcFileEventChan h) (nextChan h) (Some (ch, r)), true)
      | None => Some (h, false)
      end
  end.
(** The receiver of channel [ch] takes the result. *)
Definition receive (h : Hub) (ch : Z) : option (Hub * Result) :=
  match fileEventMutex h with
  | Some (c, r) => if bool_decide (c = ch) then Some (mkHub (rpcFileEventChan h) (nextChan h) None, r) else None
  | None => None
  end.

(** ** The session *)

(** What comes after a result that is sent once. *)
Inductive afterwards := ThenSign | ThenReturn.

(** Where the goroutine is; [slices] are those that it has. *)
Inductive fetcher :=
  | FIdle
  | FAsk (n : Z) (tries : nat) (slices : list SliceHashAddr)
  | FAsking (n : Z) (slices : list SliceHashAddr)
  | FOpen (n : Z) (slices : list SliceHashAddr)
  | FRead (n : Z) (slices : list SliceHashAddr) (read writeOffset : Z)
  | FHash (n : Z) (slices : list SliceHashAddr)
  | FResult (r : Result) (k : afterwards) (slices : list SliceHashAddr)
  | FSending (k : afterwards) (slices : list SliceHashAddr)
  | FSubscribeSign (slices : list SliceHashAddr)
  | FSign (slices : list SliceHashAddr)
  | FSigned (slices : list SliceHashAddr) (s : SignatureInfo)
  | FEnd.

Inductive method := MRequestUpload | MUploadData | MUploadSign.

(** Where the call is that the client waits for. *)
Inductive call :=
  | KSend (data : bytes) (fo : fileUploadOffset)
  | KDecide (fo : fileUploadOffset)
  | KSubscribe (m : method)
  | KWait (m : method) (ch : Z)
  | KGot (m : method) (r : Result)
  | KSendSign.

Inductive client := CStart | CAsked (s e : Z) | CWaiting (k : call) | CSign | CDone (r : Return) | CFailed.

Record world := mkWorld {
  hub : Hub;
  rpcUploadDataChan : option (list DataWithOffset);
  rpcFileUploadSign : bool;
  uploadOffset : option fileUploadOffset;
  node_fs : FS;
  fetch : fetcher;
  cl : client;
  toSp : list ReqUploadFile
}.

Inductive event := EClient | ECall | EDeliver | ECallTimeout | EFetch | EFetchTimeout.

Definition w_hub (w : world) (h : Hub) : world :=
  mkWorld h (rpcUploadDataChan w) (rpcFileUploadSign w) (uploadOffset w) (node_fs w) (fetch w) (cl w) (toSp w).
Definition w_data (w : world) (d : option (list DataWithOffset)) : world :=
  mkWorld (hub w) d (rpcFileUploadSign w) (uploadOffset w) (node_fs w) (fetch w) (cl w) (toSp w).
Definition w_signchan (w : world) (b : bool) : world :=
  mkWorld (hub w) (rpcUploadDataChan w) b (uploadOffset w) (node_fs w) (fetch w) (cl w) (toSp w).
Definition w_offset (w : world) (o : option fileUploadOffset) : world :=
  mkWorld (hub w) (rpcUploadDataChan w) (rpcFileUploadSign w) o (node_fs w) (fetch w) (cl w) (toSp w).
Definition w_fs (w : world) (f : FS) : world :=
  mkWorld (hub w) (rpcUploadDataChan w) (rpcFileUploadSign w) (uploadOffset w) f (fetch w) (cl w) (toSp w).
Definition w_fetch (w : world) (f : fetcher) : world :=
  mkWorld (hub w) (rpcUploadDataChan w) (rpcFileUploadSign w) (uploadOffset w) (node_fs w) f (cl w) (toSp w).
Definition w_cl (w : world) (c : client) : world :=
  mkWorld (hub w) (rpcUploadDataChan w) (rpcFileUploadSign w) (uploadOffset w) (node_fs w) (fetch w) c (toSp w).
Definition w_sent (w : world) (r : ReqUploadFile) : world :=
  mkWorld (hub w) (rpcUploadDataChan w) (rpcFileUploadSign w) (uploadOffset w) (node_fs w) (fetch w) (cl w) (toSp w ++ [r]).

(** ** Slices *)

(** [uint64] arithmetic; the start is also the number of bytes before the slice. *)
Definition GetSliceOffset (sliceNumber sliceCount sliceSize fileSize : Z) : Z * Z :=
  (u64 ((sliceNumber - 1) * sliceSize), if bool_decide (sliceNumber = sliceCount) then fileSize else u64 (sliceNumber * sliceSize)).

(** ** A result that nobody takes

    The calls and goroutines of any number of sessions share the hub.  [chans] are the channels
    on which a call waits; each was made for one call. *)

Record sessions := mkSessions { shared : Hub; chans : gset Z }.

Inductive hub_event :=
| HSubscribe (key : string)              (* a call of that file *)
| HUnsubscribe (key : string)
| HSet (key : string) (r : Result)       (* a result for that file *)
| HDeliver (ch : Z)                      (* the waiting call takes it *)
| HTimeout (ch : Z).                     (* the call gives up *)

(** No result: the operation waits for the mutex, or there is nothing to do. *)
Definition hub_step (s : sessions) (e : hub_event) : option sessions :=
  match e with
  | HSubscribe key => '(h, ch) ← SubscribeRemoteFileEvent (shared s) key; Some (mkSessions h ({[ch]} ∪ chans s))
  | HUnsubscribe key => h ← UnsubscribeRemoteFileEvent (shared s) key; Some (mkSessions h (chans s))
  | HSet key r => '(h, _) ← SetRemoteFileResult (shared s) key r; Some (mkSessions h (chans s))
  | HDeliver ch => if decide (ch ∈ chans s) then '(h, _) ← receive (shared s) ch; Some (mkSessions h (chans s ∖ {[ch]})) else None
  | HTimeout ch => if decide (ch ∈ chans s) then Some (mkSessions (shared s) (chans s ∖ {[ch]})) else None
  end.

Fixpoint hub_run (s : sessions) (es : list hub_event) : option sessions :=
  match es with [] => Some s | e :: es => s ← hub_step s e; hub_run s es end.

(** A channel is waited on by the call it was made for, and never again. *)
Definition chans_ok (s : sessions) : Prop := ∀ ch, ch ∈ chans s → ch < nextChan (shared s).
Definition abandoned (ch : Z) (s : sessions) : Prop := chans_ok s ∧ ch < nextChan (shared s) ∧ ch ∉ chans s.

Lemma hub_step_chans s e s' : hub_step s e = Some s' → nextChan (shared s) ≤ nextChan (shared s')
  ∧ ∀ ch, ch ∈ chans s' → ch ∈ chans s ∨ nextChan (shared s) ≤ ch < nextChan (shared s').
Proof.
  destruct e as [key|key|key r|ch|ch]; cbn; unfold SubscribeRemoteFileEvent, UnsubscribeRemoteFileEvent, SetRemoteFileResult, receive; intros E;
    repeat (case_match; simplify_eq; cbn in *; try done); simplify_eq; cbn; (split; [lia|]); intros c; set_solver by lia.
Qed.

Lemma abandoned_stays ch es : ∀ s s', abandoned ch s → hub_run s es = Some s' → abandoned ch s'.
Proof.
  induction es as [|e es IH]; intros s s' (H1 & H2 & H3); cbn [hub_run]; [intros [= <-]; by split_and!|].
  destruct (hub_step s e) as [s1|] eqn:E; [|done]. apply IH. apply hub_step_chans in E as [E1 E2]. split_and!; [|lia|].
  - intros c [Hc|Hc]%E2; [apply H1 in Hc|]; lia.
  - intros [?|?]%E2; [done|lia].
Qed.

Lemma chans_ok_run es : ∀ s s', chans_ok s → hub_run s es = Some s' → chans_ok s'.
Proof.
  induction es as [|e es IH]; intros s s' H1; cbn [hub_run]; [by intros [= <-]|].
  destruct (hub_step s e) as [s1|] eqn:E; [|done]. apply IH. apply hub_step_chans in E as [E1 E2]. intros c [Hc|Hc]%E2; [apply H1 in Hc|]; lia.
Qed.

(** Every operation of every session waits. *)
Definition blocked (s : sessions) : Prop :=
  ∀ e, (∀ ch, e ≠ HTimeout ch) → hub_step s e = None.

Lemma held_mutex_blocks s ch r : fileEventMutex (shared s) = Some (ch, r) → ch ∉ chans s → blocked s.
Proof.
  intros E Hc e He. destruct e as [key|key|key x|c|c]; cbn; unfold SubscribeRemoteFileEvent, UnsubscribeRemoteFileEvent, SetRemoteFileResult, receive; rewrite ?E; try done.
  - case_decide; [|done]. rewrite bool_decide_eq_false_2 by (by intros ->). done.
  - by destruct (He c).
Qed.

Lemma held_for_ever ch r es : ∀ s s', fileEventMutex (shared s) = Some (ch, r) → ch ∉ chans s → hub_run s es = Some s' → shared s' = shared s ∧ ch ∉ chans s'.
Proof.
  induction es as [|e es IH]; intros s s' E Hc; cbn [hub_run]; [by intros [= <-]|].
  destruct (hub_step s e) as [s1|] eqn:Es; [|done]. assert (shared s1 = shared s ∧ ch ∉ chans s1) as [E1 Hc1].
  { destruct e as [key|key|key x|c|c]; try by rewrite (held_mutex_blocks s ch r E Hc) in Es. cbn in Es. case_decide; simplify_eq. cbn. split; [done|set_solver]. }
  cbn. intros H2. destruct (IH s1 s') as [E2 Hc2]; [by rewrite E1|done|done|]. split; [congruence|done].
Qed.

(** C40: A call times out and its channel stays in the map.  Whenever later a result for its file
    comes, with whatever happens before, it takes the mutex; and after that, whatever is tried,
    by any number of sessions and of any files, nothing but time-outs ever happens: no call can
    subscribe or unsubscribe, no result can be reported or received. *)
Theorem timed_out_call_blocks_all_sessions es0 ch es1 s1 key r es2 s2 :
  hub_run (mkSessions hub0 ∅) (es0 ++ HTimeout ch :: es1) = Some s1 → rpcFileEventChan (shared s1) !! key = Some ch →
  hub_run s1 (HSet key r :: es2) = Some s2 → shared s2 = mkHub (rpcFileEventChan (shared s1)) (nextChan (shared s1)) (Some (ch, r)) ∧ blocked s2.
Proof.
  assert (∀ es es' s s', hub_run s (es ++ es') = Some s' → ∃ m, hub_run s es = Some m ∧ hub_run m es' = Some s') as Happ.
  { induction es as [|e es IH]; intros es' s s'; cbn; [by eexists|]. destruct (hub_step s e); [apply IH|done]. }
  intros (s & H0 & H1)%Happ Hk H2. assert (chans_ok s) as Hs by (by apply (chans_ok_run es0 (mkSessions hub0 ∅)); [intros c; set_solver|]).
  cbn in H1. destruct (decide (ch ∈ chans s)) as [Hc|]; [|done]. cbn in H1.
  assert (abandoned ch s1) as (_ & _ & Hn).
  { eapply abandoned_stays; [|exact H1]. split_and!; cbn; [intros c Hc'; apply Hs; set_solver|by apply Hs|set_solver]. }
  cbn in H2. unfold SetRemoteFileResult in H2. destruct (fileEventMutex (shared s1)); [done|]. rewrite Hk in H2. cbn in H2.
  set (s1' := mkSessions _ _) in H2. destruct (held_for_ever ch r es2 s1' s2 eq_refl Hn H2) as [E Hn2]. split; [exact E|]. by apply (held_mutex_blocks s2 ch r); [rewrite E|].
Qed.

(** ** A session *)

Section Session.
Context `{HL : HashLib} (io_err : syscall → string → bool) (rootPath : string).
Context (VerifyWalletAddr : string → string → bool) (VerifyWalletSign : string → string → string → bool).
Context (GetFileUploadWalletSignMessage : string → string → string → Z → string) (valid_pubkey valid_hex : string → bool).
Context (MaxSliceSize SAFE : Z).
(** The parameters of the client's call, the client's file, and the names that are drawn
    for temporary files.  The client signs each kind of call. *)
Context (fileHash fileName : string) (fileSize : Z) (sig : method → SignatureInfo) (uuid : Z → string).
Context (client_io_err : syscall → string → bool) (filePath : string) (client_fs : FS).

Definition sliceCount : Z := (fileSize + MaxSliceSize - 1) / MaxSliceSize.
Definition sliceOffset (n : Z) : Z * Z := GetSliceOffset n sliceCount MaxSliceSize fileSize.

Definition authorised (s : SignatureInfo) : bool :=
  VerifyWalletAddr (sg_Pubkey s) (sg_Address s)
  && VerifyWalletSign (sg_Pubkey s) (sg_Signature s) (GetFileUploadWalletSignMessage fileHash (sg_Address s) (sg_Seq s) (sg_ReqTime s)).

(** ** The API *)

(** A range that is too long is asked for in parts. *)
Definition ResultHook (r : Result) (o : option fileUploadOffset) : Result * option fileUploadOffset :=
  match r_Return r with
  | UPLOAD_DATA =>
      let start := r_OffsetStart r in
      let stop := r_OffsetEnd r in
      let f := if bool_decide (SAFE < u64 (stop - start)) then mkOffset (u64 (start + SAFE)) stop else mkOffset stop stop in
      (mkResult UPLOAD_DATA start (PacketFileOffset f), Some f)
  | _ => (r, o)
  end.

(** What the client does with an answer. *)
Definition put_answer (m : method) (r : Result) : client :=
  match m with
  | MUploadSign => CDone (r_Return r)
  | _ => match r_Return r with
         | UPLOAD_DATA => CAsked (r_OffsetStart r) (r_OffsetEnd r)
         | SUCCESS => CSign
         | x => CDone x
         end
  end.

(** The next call of the client, up to the first point where it can wait. *)
Definition client_step (w : world) : option world :=
  match cl w with
  | CStart =>
      if negb (authorised (sig MRequestUpload)) then Some (w_cl w (CDone SIGNATURE_FAILURE))
      else match uploadOffset w with
           | Some _ => Some (w_cl w (CDone CONFLICT_WITH_ANOTHER_SESSION))
           | None => Some (w_cl w (CWaiting (KSubscribe MRequestUpload)))
           end
  | CAsked s e =>
      match fst (GetFileData client_io_err filePath s e client_fs) with
      | Ok data =>
          if negb (authorised (sig MUploadData)) then Some (w_cl w (CDone SIGNATURE_FAILURE))
          else match uploadOffset w with
               | None => Some (w_cl w (CDone SESSION_STOPPED))
               | Some fo => Some (w_cl w (CWaiting (KSend data fo)))
               end
      | _ => Some (w_cl w CFailed)
      end
  | CSign =>
      if negb (authorised (sig MUploadSign)) then Some (w_cl w (CDone SIGNATURE_FAILURE))
      else Some (w_cl w (CWaiting KSendSign))
  | _ => None
  end.

(** SendFileDataBack: data for which nobody has asked yet is dropped; a full channel makes
    the call wait. *)
Definition SendFileDataBack (w : world) (p : DataWithOffset) : option world :=
  match rpcUploadDataChan w with
  | None => Some w
  | Some buf => if bool_decide (length buf < NUMBER_OF_UPLOAD_CHAN_BUFFER)%nat then Some (w_data w (Some (buf ++ [p]))) else None
  end.

(** The first part of UploadData after the data has been passed on: the next part of the
    range, if there is one. *)
Definition upload_next (w : world) (fo : fileUploadOffset) : world :=
  let ask (e : Z) := w_cl (w_offset w (Some (mkOffset e (SliceFileOffset fo)))) (CAsked (PacketFileOffset fo) e) in
  if bool_decide (SAFE < u64 (SliceFileOffset fo - PacketFileOffset fo)) then ask (u64 (PacketFileOffset fo + SAFE))
  else if bool_decide (PacketFileOffset fo < SliceFileOffset fo) then ask (SliceFileOffset fo)
  else w_cl w (CWaiting (KSubscribe MUploadData)).

(** SetFileUploadSign: without a channel nothing is sent; with one the call waits until the
    goroutine takes the signature. *)
Definition send_sign (w : world) : option world :=
  if negb (rpcFileUploadSign w) then Some (w_cl w (CWaiting (KSubscribe MUploadSign)))
  else match fetch w with
       | FSign slices => Some (w_fetch (w_cl w (CWaiting (KSubscribe MUploadSign))) (FSigned slices (sig MUploadSign)))
       | _ => None
       end.

(** The result has been received: all calls but UploadSign give their channel up. *)
Definition answer (w : world) (m : method) (r : Result) : option world :=
  match m with
  | MUploadSign => Some (w_cl w (put_answer m r))
  | _ =>
      match UnsubscribeRemoteFileEvent (hub w) fileHash with
      | None => None
      | Some h => let '(r, o) := ResultHook r (uploadOffset w) in Some (w_cl (w_offset (w_hub w h) o) (put_answer m r))
      end
  end.

Definition call_step (w : world) : option world :=
  match cl w with
  | CWaiting (KSend data fo) =>
      match SendFileDataBack w (mkData data (PacketFileOffset fo)) with
      | Some w => Some (w_cl w (CWaiting (KDecide fo)))
      | None => None
      end
  | CWaiting (KDecide fo) => Some (upload_next w fo)
  | CWaiting KSendSign => send_sign w
  | CWaiting (KSubscribe m) =>
      match SubscribeRemoteFileEvent (hub w) fileHash with
      | None => None
      | Some (h, ch) =>
          let w := w_cl (w_hub w h) (CWaiting (KWait m ch)) in
          Some (match m with MRequestUpload => w_fetch w (if bool_decide (sliceCount < 1) then FResult (plain_result SUCCESS) ThenSign [] else FAsk 1 0 []) | _ => w end)
      end
  | CWaiting (KGot m r) => answer w m r
  | _ => None
  end.

(** ** The goroutine *)

(** All its returns: the session is over. *)
Definition fetch_return (w : world) : world := w_fetch (w_offset w None) FEnd.

Definition continue (w : world) (k : afterwards) (slices : list SliceHashAddr) : world :=
  match k with ThenSign => w_fetch w (FSubscribeSign slices) | ThenReturn => fetch_return w end.

(** One iteration of the loop of CacheRemoteFileData. *)
Definition cache_packet (w : world) (n : Z) (slices : list SliceHashAddr) (read writeOffset : Z) : option world :=
  let '(start, stop) := sliceOffset n in
  let path := GetTmpSlicePath rootPath fileHash (uuid n) in
  match rpcUploadDataChan w with
  | None => Some (w_data w (Some []))
  | Some [] => None
  | Some (p :: buf) =>
      let w := w_data w (Some buf) in
      if bool_decide (pk_Offset p ≠ u64 (start + read + zlen (pk_Data p))) then Some (fetch_return w)
      else
        let '(r, fs) := WriteFile io_err path (default [] (fs_files (node_fs w) !! path)) (pk_Data p) writeOffset (node_fs w) in
        let w := w_fs w fs in
        match r with
        | Ok _ =>
            let read := read + zlen (pk_Data p) in
            if bool_decide (u64 (stop - start) ≤ read) then Some (w_fetch (w_data w None) (FHash n slices))
            else Some (w_fetch w (FRead n slices read (writeOffset + zlen (pk_Data p))))
        | _ => Some (fetch_return w)
        end
  end.

(** A whole slice is there. *)
Definition finish_slice (w : world) (n : Z) (slices : list SliceHashAddr) : world :=
  let '(start, stop) := sliceOffset n in
  let name := uuid n in
  let failure (w : world) := w_fetch w (FResult (plain_result INTERNAL_DATA_FAILURE) ThenReturn slices) in
  let '(r, fs) := GetSliceDataFromTmp io_err rootPath fileHash name (node_fs w) in
  let w := w_fs w fs in
  match r with
  | Ok rawData =>
      match CalcSliceHash rawData fileHash n with
      | Ok sliceHash =>
          let slices := slices ++ [mkSHA sliceHash (u64 (stop - start)) n start stop] in
          let '(r, fs) := RenameTmpFile io_err rootPath fileHash name sliceHash (node_fs w) in
          let w := w_fs w fs in
          match r with
          | Ok _ =>
              if bool_decide (n = sliceCount) then w_fetch (w_offset w None) (FResult (plain_result SUCCESS) ThenSign slices)
              else w_fetch w (FAsk (n + 1) 0 slices)
          | _ => failure w
          end
      | _ => failure w
      end
  | _ => failure w
  end.

(** RequestUploadFile and SendMessageToSPServer. *)
Definition request_upload (w : world) (slices : list SliceHashAddr) (s : SignatureInfo) : world :=
  if valid_pubkey (sg_Pubkey (sig MRequestUpload)) && valid_hex (sg_Signature s)
  then fetch_return (w_sent w (mkReqUp fileHash fileName fileSize slices s))
  else w_fetch w (FResult (plain_result INTERNAL_DATA_FAILURE) ThenReturn slices).

Definition fetch_step (w : world) : option world :=
  match fetch w with
  | FIdle | FEnd => None
  | FAsk n tries slices =>
      let '(start, stop) := sliceOffset n in
      match SetRemoteFileResult (hub w) fileHash (mkResult UPLOAD_DATA start stop) with
      | None => None
      | Some (h, true) => Some (w_fetch (w_hub w h) (FAsking n slices))
      | Some (h, false) => Some (w_fetch (w_hub w h) (if bool_decide (4 ≤ tries)%nat then FOpen n slices else FAsk n (S tries) slices))
      end
  | FAsking _ _ | FSending _ _ | FSign _ => None
  | FOpen n slices =>
      let '(r, fs) := OpenTmpFile io_err rootPath fileHash (uuid n) (node_fs w) in
      let w := w_fs w fs in
      Some match r with Ok _ => w_fetch w (FRead n slices 0 0) | _ => fetch_return w end
  | FRead n slices read writeOffset => cache_packet w n slices read writeOffset
  | FHash n slices => Some (finish_slice w n slices)
  | FResult r k slices =>
      match SetRemoteFileResult (hub w) fileHash r with
      | None => None
      | Some (h, true) => Some (w_fetch (w_hub w h) (FSending k slices))
      | Some (h, false) => Some (continue (w_hub w h) k slices)
      end
  | FSubscribeSign slices => Some (w_fetch (w_signchan w true) (FSign slices))
  | FSigned slices s => Some (request_upload w slices s)
  end.

(** ** Steps *)

Definition deliver (w : world) : option world :=
  match cl w with
  | CWaiting (KWait m ch) =>
      match receive (hub w) ch with
      | None => None
      | Some (h, r) =>
          let w := w_cl (w_hub w h) (CWaiting (KGot m r)) in
          match fetch w with
          | FAsking n slices => Some (w_fetch w (FOpen n slices))
          | FSending k slices => Some (continue w k slices)
          | _ => None
          end
      end
  | _ => None
  end.

Definition step (w : world) (e : event) : option world :=
  match e with
  | EClient => client_step w
  | ECall => call_step w
  | EDeliver => deliver w
  | ECallTimeout => match cl w with CWaiting (KWait m ch) => Some (w_cl w (CDone TIME_OUT)) | _ => None end
  | EFetch => fetch_step w
  | EFetchTimeout => match fetch w with FRead _ _ _ _ | FSign _ => Some (fetch_return w) | _ => None end
  end.

Fixpoint run (w : world) (es : list event) : option world :=
  match es with
  | [] => Some w
  | e :: es => match step w e with Some w => run w es | None => None end
  end.

Definition session0 (fs : FS) : world := mkWorld hub0 None false None fs FIdle CStart [].


(** ** What is sent to the SP is the file

    The client's file is [content]; the names of temporary files are new and differ from the
    names of slices; different slices have different names. *)

Section Honest.
Context (content : bytes).
Context (H_content : fs_files client_fs !! filePath = Some content) (H_size : zlen content = fileSize).
Context (H_bounds : 0 < MaxSliceSize < 2 ^ 53 ∧ 0 < SAFE < 2 ^ 48 ∧ fileSize < 2 ^ 53).

Definition tmp_path (n : Z) : string := GetTmpSlicePath rootPath fileHash (uuid n).
Definition slice_path (h : string) : string := GetTmpSlicePath rootPath fileHash h.

Definition lo (n : Z) : Z := (n - 1) * MaxSliceSize.
Definition hi (n : Z) : Z := if bool_decide (n = sliceCount) then fileSize else n * MaxSliceSize.
Definition part (a b : Z) : bytes := take (Z.to_nat (b - a)) (drop (Z.to_nat a) content).
Definition piece (n : Z) : bytes := part (lo n) (hi n).

(** The number of a slice. *)
Definition number (n : Z) : Prop := 1 ≤ n ≤ sliceCount.

Context (H_new : ∀ m n, number m → number n → tmp_path m = tmp_path n → m = n).
Context (H_names : ∀ m n h, number m → number n → CalcSliceHash (piece n) fileHash n = Ok h → tmp_path m ≠ slice_path h).
Context (H_distinct : ∀ i j h h', 1 ≤ i < j → j ≤ sliceCount → CalcSliceHash (piece i) fileHash i = Ok h →
  CalcSliceHash (piece j) fileHash j = Ok h' → slice_path h ≠ slice_path h').

Lemma size_nonneg : 0 ≤ fileSize.
Proof. rewrite <- H_size. unfold zlen. lia. Qed.

Lemma count_bounds : (sliceCount - 1) * MaxSliceSize < fileSize ≤ sliceCount * MaxSliceSize ∨ (sliceCount = 0 ∧ fileSize = 0).
Proof.
  pose proof size_nonneg. unfold sliceCount. destruct (decide (fileSize = 0)) as [->|Hne].
  - right. split; [|done]. apply Z.div_small. lia.
  - left. pose proof (Z.mul_div_le (fileSize + MaxSliceSize - 1) MaxSliceSize ltac:(lia)).
    pose proof (Z.mul_succ_div_gt (fileSize + MaxSliceSize - 1) MaxSliceSize ltac:(lia)). nia.
Qed.

Lemma slice_bounds n : 1 ≤ n ≤ sliceCount → 0 ≤ lo n < hi n ∧ hi n ≤ fileSize ∧ hi n - lo n ≤ MaxSliceSize.
Proof.
  intros Hn. unfold lo, hi. pose proof size_nonneg. destruct count_bounds as [Hc|[Hc _]]; [|lia].
  case_bool_decide; [subst n; nia|]. split; [nia|]. split; [|nia].
  assert (n ≤ sliceCount - 1) by lia. assert (n * MaxSliceSize ≤ (sliceCount - 1) * MaxSliceSize) by (apply Z.mul_le_mono_nonneg_r; lia). lia.
Qed.

Lemma hi_lo n : n < sliceCount → hi n = lo (n + 1).
Proof. intros Hn. unfold hi, lo. rewrite bool_decide_eq_false_2 by lia. f_equal. lia. Qed.

Lemma hi_mono n : 1 ≤ n < sliceCount → hi n ≤ hi (n + 1).
Proof. intros Hn. rewrite hi_lo by lia. pose proof (slice_bounds (n + 1) ltac:(lia)). lia. Qed.

Lemma u64_id x : 0 ≤ x < 2 ^ 64 → u64 x = x.
Proof. intros Hx. unfold u64, wrapu. apply Z.mod_small. done. Qed.

Lemma sliceOffset_eq n : 1 ≤ n ≤ sliceCount → sliceOffset n = (lo n, hi n).
Proof.
  intros Hn. pose proof (slice_bounds n Hn) as (H1 & H2 & _). unfold sliceOffset, GetSliceOffset. fold (lo n). rewrite (u64_id (lo n)) by lia. f_equal.
  unfold hi in *. case_bool_decide; [done|]. apply u64_id. lia.
Qed.

Lemma part_length a b : 0 ≤ a ≤ b → b ≤ fileSize → zlen (part a b) = b - a.
Proof. intros Hab Hb. unfold part, zlen in *. rewrite length_take, length_drop. lia. Qed.

Lemma part_app a b c : 0 ≤ a ≤ b → b ≤ c → part a c = part a b ++ part b c.
Proof.
  intros Hab Hbc. unfold part. replace (Z.to_nat (c - a)) with (Z.to_nat (b - a) + Z.to_nat (c - b))%nat by lia.
  rewrite <- (take_drop (Z.to_nat (b - a)) (take (Z.to_nat (b - a) + Z.to_nat (c - b)) (drop (Z.to_nat a) content))).
  rewrite take_take, Nat.min_l by lia. f_equal. rewrite skipn_firstn_comm, drop_drop. f_equal; [lia|]. f_equal. lia.
Qed.

(** The client's data for a range that it is asked for. *)
Lemma client_reads s e data : 0 ≤ s ≤ e → e ≤ fileSize → fst (GetFileData client_io_err filePath s e client_fs) = Ok data → data = part s e.
Proof.
  intros Hs He. unfold GetFileData, open_read. run_M. destruct (client_io_err SysOpen filePath); [done|]. rewrite H_content. cbn beta iota zeta.
  rewrite (u64_id (e - s)) by lia. assert (i64 s = s) as Ei by (unfold i64, wraps; rewrite Z.mod_small; lia). rewrite !Ei.
  destruct (bool_decide (maxAlloc < _)); [done|]. rewrite (bool_decide_eq_false_2 (s < 0)) by lia.
  destruct (client_io_err SysRead filePath); [done|]. destruct (_ && _); [done|]. cbn [fst]. intros [= <-].
  fold (part s e). pose proof (part_length s e ltac:(lia) He) as E. unfold zlen in E.
  replace (Z.to_nat (e - s) - length (part s e))%nat with 0%nat by lia. cbn. by rewrite app_nil_r.
Qed.

(** *** The invariant *)

Definition res_ok (lim : Z) (r : Result) : Prop := r_Return r = UPLOAD_DATA → 0 ≤ r_OffsetStart r ≤ r_OffsetEnd r ∧ r_OffsetEnd r ≤ lim.
Definition packet_ok (lim : Z) (p : DataWithOffset) : Prop := ∃ s, 0 ≤ s ≤ pk_Offset p ∧ pk_Offset p ≤ lim ∧ pk_Data p = part s (pk_Offset p).
Definition offset_ok (lim : Z) (fo : fileUploadOffset) : Prop := 0 ≤ PacketFileOffset fo ≤ SliceFileOffset fo ∧ SliceFileOffset fo ≤ lim.

Definition client_ok (lim : Z) (o : option fileUploadOffset) (c : client) : Prop :=
  match c with
  | CAsked s e => 0 ≤ s ≤ e ∧ e ≤ lim ∧ e - s ≤ SAFE ∧ ∀ fo, o = Some fo → PacketFileOffset fo = e
  | CWaiting (KSend data fo) => offset_ok lim fo ∧ packet_ok lim (mkData data (PacketFileOffset fo))
  | CWaiting (KDecide fo) => offset_ok lim fo
  | CWaiting (KGot m r) => res_ok lim r
  | _ => True
  end.

(** What is between client and goroutine is within the file up to the end of the slice that
    is being fetched, and data belongs where its offset says. *)
Record io_ok (lim : Z) (w : world) : Prop := {
  io_mutex : ∀ c r, fileEventMutex (hub w) = Some (c, r) → res_ok lim r;
  io_chan : ∀ buf, rpcUploadDataChan w = Some buf → Forall (packet_ok lim) buf;
  io_offset : ∀ fo, uploadOffset w = Some fo → offset_ok lim fo;
  io_client : client_ok lim (uploadOffset w) (cl w)
}.

Definition limit (f : fetcher) : Z :=
  match f with
  | FIdle => 0
  | FAsk n _ _ | FAsking n _ | FOpen n _ | FRead n _ _ _ | FHash n _ => hi n
  | _ => fileSize
  end.

Definition slice_ok (n : Z) (s : SliceHashAddr) : Prop :=
  CalcSliceHash (piece n) fileHash n = Ok (sh_SliceHash s) ∧ s = mkSHA (sh_SliceHash s) (hi n - lo n) n (lo n) (hi n).
(** The first [k] slices, as they are announced and as they are stored. *)
Definition slices_ok (k : Z) (slices : list SliceHashAddr) : Prop := Forall2 slice_ok (seqZ 1 k) slices.
Definition cached (k : Z) (fs : FS) : Prop :=
  ∀ i h, 1 ≤ i ≤ k → CalcSliceHash (piece i) fileHash i = Ok h → fs_files fs !! slice_path h = Some (piece i).
Definition fresh (n : Z) (fs : FS) : Prop := ∀ m, number m → n ≤ m → fs_files fs !! tmp_path m = None.

Definition before (n : Z) (slices : list SliceHashAddr) (fs : FS) : Prop :=
  1 ≤ n ≤ sliceCount ∧ slices_ok (n - 1) slices ∧ cached (n - 1) fs.

Definition fetch_ok (fs : FS) (f : fetcher) : Prop :=
  match f with
  | FIdle => fresh 1 fs
  | FAsk n _ slices | FAsking n slices | FOpen n slices => before n slices fs ∧ fresh n fs
  | FRead n slices read writeOffset =>
      before n slices fs ∧ fresh (n + 1) fs ∧ writeOffset = read ∧ 0 ≤ read ∧ lo n + read ≤ hi n
      ∧ fs_files fs !! tmp_path n = Some (part (lo n) (lo n + read))
  | FHash n slices => before n slices fs ∧ fresh (n + 1) fs ∧ fs_files fs !! tmp_path n = Some (piece n)
  | FResult r k slices => r_Return r ≠ UPLOAD_DATA ∧ (k = ThenSign → slices_ok sliceCount slices ∧ cached sliceCount fs)
  | FSending k slices => k = ThenSign → slices_ok sliceCount slices ∧ cached sliceCount fs
  | FSubscribeSign slices | FSign slices | FSigned slices _ => slices_ok sliceCount slices ∧ cached sliceCount fs
  | FEnd => True
  end.

(** The goroutine is started once. *)
Definition starting (c : client) : bool :=
  match c with CStart | CWaiting (KSubscribe MRequestUpload) => true | _ => false end.

Record session_ok (w : world) : Prop := {
  so_start : starting (cl w) = true → fetch w = FIdle;
  so_io : io_ok (limit (fetch w)) w;
  so_fetch : fetch_ok (node_fs w) (fetch w);
  so_sent : ∀ r, r ∈ toSp w → fetch w = FEnd ∧ ru_FileHash r = fileHash ∧ ru_FileSize r = fileSize
    ∧ slices_ok sliceCount (ru_Slices r) ∧ cached sliceCount (node_fs w)
}.

Lemma res_ok_mono a b r : a ≤ b → res_ok a r → res_ok b r.
Proof. intros Hab H E. destruct (H E). lia. Qed.
Lemma packet_ok_mono a b p : a ≤ b → packet_ok a p → packet_ok b p.
Proof. intros Hab (s & ? & ? & ?). exists s. split_and!; try done; lia. Qed.
Lemma offset_ok_mono a b fo : a ≤ b → offset_ok a fo → offset_ok b fo.
Proof. unfold offset_ok. lia. Qed.
Lemma client_ok_mono a b o c : a ≤ b → client_ok a o c → client_ok b o c.
Proof.
  intros Hab. destruct c as [| | [] | | |]; cbn; try done.
  - intros (? & ? & ? & ?). split_and!; try done; lia.
  - intros [? ?]. split; [by eapply offset_ok_mono|by eapply packet_ok_mono].
  - by apply offset_ok_mono.
  - by apply res_ok_mono.
Qed.

(** The part of a state that [io_ok] speaks of. *)
Lemma io_ok_mono a b w w' : a ≤ b → hub w' = hub w → rpcUploadDataChan w' = rpcUploadDataChan w → uploadOffset w' = uploadOffset w → cl w' = cl w →
  io_ok a w → io_ok b w'.
Proof.
  intros Hab E1 E2 E3 E4 [H1 H2 H3 H4]. split; rewrite ?E1, ?E2, ?E3, ?E4.
  - intros c r E. apply (res_ok_mono a); [done|by apply (H1 c)].
  - intros buf E. exact (Forall_impl _ (fun p => packet_ok_mono a _ p Hab) (H2 _ E)).
  - intros fo E. apply (offset_ok_mono a); [done|by apply H3].
  - by apply (client_ok_mono a).
Qed.

(** A session that is over. *)
Lemma client_ok_deleted lim o c : client_ok lim o c → client_ok lim None c.
Proof. destruct c as [| | [] | | |]; cbn; try done. intros (? & ? & ? & ?). split_and!; (done || lia). Qed.

Lemma io_ok_return a w : a ≤ fileSize → io_ok a w → io_ok fileSize (fetch_return w).
Proof.
  intros Ha [H1 H2 H3 H4]. split; cbn.
  - intros c r E. apply (res_ok_mono a); [done|by apply (H1 c)].
  - intros buf E. exact (Forall_impl _ (fun p => packet_ok_mono a _ p Ha) (H2 _ E)).
  - done.
  - apply (client_ok_mono a); [done|]. by eapply client_ok_deleted.
Qed.

Lemma limit_le w : fetch_ok (node_fs w) (fetch w) → limit (fetch w) ≤ fileSize.
Proof.
  pose proof size_nonneg. destruct (fetch w) as [|n ? ?|n ?|n ?|n ? ? ?|n ?| | | | | |]; cbn; try lia.
  all: intros [(Hn & _) _]; pose proof (slice_bounds n Hn); lia.
Qed.

(** *** Every step keeps it *)

Lemma by_call w w' : session_ok w → fetch w' = fetch w → node_fs w' = node_fs w → toSp w' = toSp w → io_ok (limit (fetch w)) w' →
  (starting (cl w') = true → starting (cl w) = true) → session_ok w'.
Proof. intros [Ht _ Hf Hs] E1 E2 E3 Hio Hc. split; rewrite ?E1, ?E2, ?E3; try done. auto. Qed.

Lemma w_cl_io lim w c : io_ok lim w → client_ok lim (uploadOffset w) c → io_ok lim (w_cl w c).
Proof. intros [H1 H2 H3 H4] Hc. by split. Qed.

Lemma by_cl w c : session_ok w → client_ok (limit (fetch w)) (uploadOffset w) c → starting c = false → session_ok (w_cl w c).
Proof. intros Hw Hc Hs. apply (by_call w); try done; [by apply w_cl_io; [apply so_io|]|]. cbn. by rewrite Hs. Qed.

Lemma client_step_ok w w' : session_ok w → client_step w = Some w' → session_ok w'.
Proof.
  intros Hw E. pose proof (so_io _ Hw) as Hio. pose proof (io_client _ _ Hio) as Hc. pose proof (limit_le w (so_fetch _ Hw)) as Hlim.
  unfold client_step in E. destruct (cl w) as [|s e| | | |] eqn:Ecl; try done.
  - apply (by_call w); try done; repeat case_match; simplify_eq; try done; try (by apply w_cl_io); by rewrite Ecl.
  - destruct Hc as (Hs & He & Hn & Hfo). destruct (fst _) as [data| |] eqn:Er;
      [|injection E as <-; by apply by_cl..].
    destruct (authorised _); cbn [negb] in E; [|injection E as <-; by apply by_cl].
    destruct (uploadOffset w) as [fo|] eqn:Eo; injection E as <-; apply (by_call w); try done; apply w_cl_io; try done.
    rewrite Eo. cbn. split; [by apply (io_offset _ _ Hio)|]. exists s. cbn. rewrite (Hfo fo eq_refl).
    split_and!; [lia..|]. apply (client_reads s e); [lia..|done].
  - destruct (authorised _); injection E as <-; by apply by_cl.
Qed.

Lemma ResultHook_ok lim r o : lim ≤ fileSize → res_ok lim r → (∀ fo, o = Some fo → offset_ok lim fo) →
  let '(r', o') := ResultHook r o in
  (∀ fo, o' = Some fo → offset_ok lim fo)
  ∧ (r_Return r' = UPLOAD_DATA → 0 ≤ r_OffsetStart r' ≤ r_OffsetEnd r' ∧ r_OffsetEnd r' ≤ lim ∧ r_OffsetEnd r' - r_OffsetStart r' ≤ SAFE
     ∧ ∀ fo, o' = Some fo → PacketFileOffset fo = r_OffsetEnd r').
Proof.
  intros Hl Hr Ho. unfold ResultHook. destruct (r_Return r) eqn:Er; try (split; [done|by rewrite Er]).
  destruct (Hr Er) as [H1 H2]. rewrite (u64_id (r_OffsetEnd r - r_OffsetStart r)) by lia. case_bool_decide as Hd; cbn.
  - rewrite (u64_id (r_OffsetStart r + SAFE)) by lia. split; [intros fo [= <-]; unfold offset_ok; cbn; lia|].
    intros _. split_and!; try lia. by intros fo [= <-].
  - split; [intros fo [= <-]; unfold offset_ok; cbn; lia|]. intros _. split_and!; try lia. by intros fo [= <-].
Qed.

Lemma answer_ok w m r w' : session_ok w → cl w = CWaiting (KGot m r) → answer w m r = Some w' → session_ok w'.
Proof.
  intros Hw Ecl E. pose proof (so_io _ Hw) as Hio. pose proof (io_client _ _ Hio) as Hc. rewrite Ecl in Hc. cbn in Hc.
  pose proof (limit_le w (so_fetch _ Hw)) as Hlim. unfold answer in E. destruct m; [..|injection E as <-; by apply by_cl].
  all: unfold UnsubscribeRemoteFileEvent in E; destruct (fileEventMutex (hub w)); [done|];
    pose proof (ResultHook_ok _ r (uploadOffset w) Hlim Hc (io_offset _ _ Hio)) as H; destruct (ResultHook r (uploadOffset w)) as [r' o'];
    injection E as <-; destruct H as [H1 H2]; apply (by_call w); try done; [|cbn; by destruct (r_Return r')];
    split; cbn; try done; [by apply (io_chan _ _ Hio)|]; destruct (r_Return r') eqn:Er; try done; by apply H2.
Qed.

Lemma upload_next_ok w fo : session_ok w → cl w = CWaiting (KDecide fo) → session_ok (upload_next w fo).
Proof.
  intros Hw Ecl. pose proof (so_io _ Hw) as Hio. pose proof (io_client _ _ Hio) as Hc. rewrite Ecl in Hc. cbn in Hc.
  pose proof (limit_le w (so_fetch _ Hw)) as Hlim. destruct Hc as [H1 H2]. unfold upload_next.
  assert (∀ e, PacketFileOffset fo ≤ e ≤ SliceFileOffset fo → e - PacketFileOffset fo ≤ SAFE →
    session_ok (w_cl (w_offset w (Some (mkOffset e (SliceFileOffset fo)))) (CAsked (PacketFileOffset fo) e))) as Hask.
  { intros e He Hn. apply (by_call w); try done. destruct Hio as [G1 G2 _ _]. split; cbn; try done.
    - intros ? [= <-]. unfold offset_ok. cbn. lia.
    - split_and!; try lia. by intros ? [= <-]. }
  rewrite (u64_id (SliceFileOffset fo - _)) by lia. case_bool_decide; [rewrite u64_id by lia; apply Hask; lia|].
  case_bool_decide; [apply Hask; lia|]. by apply by_cl.
Qed.

Lemma call_step_ok w w' : session_ok w → call_step w = Some w' → session_ok w'.
Proof.
  intros Hw E. pose proof (so_io _ Hw) as Hio. pose proof (io_client _ _ Hio) as Hc. unfold call_step in E.
  destruct (cl w) as [| |[data fo|fo|m|m ch|m r|]| | |] eqn:Ecl; try done.
  - destruct Hc as [Ho Hp]. unfold SendFileDataBack in E. destruct (rpcUploadDataChan w) as [buf|] eqn:Eb.
    + case_bool_decide; [|done]. injection E as <-. apply (by_call w); try done. destruct Hio as [G1 G2 G3 _]. split; cbn; try done.
      intros ? [= <-]. apply Forall_app. split; [by apply G2|]. by repeat constructor.
    + injection E as <-. by apply by_cl.
  - injection E as <-. by apply upload_next_ok.
  - unfold SubscribeRemoteFileEvent in E. destruct (fileEventMutex (hub w)) eqn:Em; [done|]. injection E as <-.
    destruct Hio as [_ G2 G3 _].
    assert (∀ l, io_ok l w → io_ok l (w_cl (w_hub w (mkHub (<[fileHash:=nextChan (hub w)]> (rpcFileEventChan (hub w))) (nextChan (hub w) + 1) None)) (CWaiting (KWait m (nextChan (hub w)))))) as Hl
      by (intros l [? ? ? ?]; by split).
    destruct m; [|by apply (by_call w); [..|apply Hl, so_io|]|by apply (by_call w); [..|apply Hl, so_io|]].
    destruct Hw as [Ht Hio Hf Hs]. specialize (Ht ltac:(by rewrite Ecl)). rewrite Ht in *. cbn [limit] in Hio.
    assert (toSp w = []) as E0 by (destruct (toSp w) as [|r l]; [done|]; by destruct (Hs r ltac:(by left))).
    pose proof size_nonneg as H0. split; cbn [cl w_cl w_fetch w_hub fetch node_fs toSp].
    + done.
    + case_bool_decide; cbn [limit]; [by eapply (io_ok_mono 0); [..|apply Hl]|]. pose proof (slice_bounds 1 ltac:(lia)).
      eapply (io_ok_mono 0); [..|by apply Hl]; try done. lia.
    + case_bool_decide.
      * split; [done|]. intros _. assert (sliceCount = 0) as -> by (destruct count_bounds as [Hc'|[-> _]]; [nia|done]).
        split; [by constructor|]. intros i h Hi. lia.
      * split; [|done]. split; [lia|]. split; [by constructor|]. intros i h Hi. lia.
    + rewrite E0. by intros r ?%elem_of_nil.
  - by eapply answer_ok.
  - unfold send_sign in E. destruct (rpcFileUploadSign w); cbn [negb] in E; [|injection E as <-; by apply by_cl].
    destruct (fetch w) eqn:Ef; try done. injection E as <-. destruct Hw as [Ht Hio' Hf Hs]. rewrite Ef in *. split; cbn; try done.
    + apply (io_ok_mono fileSize fileSize (w_cl w (CWaiting (KSubscribe MUploadSign)))); try done. by apply w_cl_io.
    + intros r Hr. by destruct (Hs r Hr).
Qed.
(** Files: what the operations of the goroutine do. *)
Lemma cached_other k p f fs dirs : cached k fs → (∀ i h, 1 ≤ i ≤ k → CalcSliceHash (piece i) fileHash i = Ok h → p ≠ slice_path h) →
  cached k (mkFS (<[p := f]> (fs_files fs)) dirs).
Proof. intros Hc Hp i h Hi E. cbn. rewrite lookup_insert_ne by (by eapply Hp). by apply Hc. Qed.

(** A new temporary file. *)
Lemma OpenTmpFile_new n fs r fs' : fs_files fs !! tmp_path n = None → OpenTmpFile io_err rootPath fileHash (uuid n) fs = (r, fs') →
  match r with
  | Ok f => f = [] ∧ fs_files fs' = <[tmp_path n := []]> (fs_files fs)
  | _ => fs_files fs' = fs_files fs
  end.
Proof.
  intros Hn. unfold OpenTmpFile. fold (tmp_path n). set (folder := Join _).
  assert (∀ fs1, fs_files fs1 = fs_files fs → open_create io_err (tmp_path n) fs1 = (r, fs') →
    match r with Ok f => f = [] ∧ fs_files fs' = <[tmp_path n := []]> (fs_files fs) | _ => fs_files fs' = fs_files fs end) as Ho.
  { intros fs1 E1. unfold open_create. run_M. destruct (_ || _); [by intros [= <- <-]|]. rewrite E1, Hn. intros [= <- <-]. split; [done|]. cbn. by rewrite E1. }
  unfold PathExists. destruct (io_err SysStat folder); [by intros [= <- <-]|]. run_M. destruct (bool_decide _); [by apply Ho|].
  unfold MkdirAll. destruct (io_err SysMkdir folder); run_M; [by intros [= <- <-]|]. by apply Ho.
Qed.

Lemma nothing_sent w : session_ok w → fetch w ≠ FEnd → toSp w = [].
Proof. intros Hw Hne. destruct (toSp w) as [|r l] eqn:E; [done|]. destruct (so_sent _ Hw r ltac:(rewrite E; by left)). done. Qed.

Lemma by_fetch w w' : session_ok w → fetch w ≠ FIdle → fetch w ≠ FEnd → cl w' = cl w → toSp w' = toSp w →
  io_ok (limit (fetch w')) w' → fetch_ok (node_fs w') (fetch w') → session_ok w'.
Proof.
  intros Hw H1 H2 Ec Es Hio Hf. split; try done.
  - rewrite Ec. intros Hs. by destruct (H1 (so_start _ Hw Hs)).
  - rewrite Es, (nothing_sent w) by done. by intros r ?%elem_of_nil.
Qed.

(** The goroutine returns. *)
Lemma by_return w w' : session_ok w → fetch w ≠ FIdle → fetch w ≠ FEnd → cl w' = cl w → toSp w' = toSp w → io_ok fileSize w' → session_ok (fetch_return w').
Proof. intros Hw H1 H2 Ec Es Hio. apply (by_fetch w); try done. by apply (io_ok_return fileSize). Qed.

Lemma io_weaken w w' : session_ok w → hub w' = hub w → rpcUploadDataChan w' = rpcUploadDataChan w → uploadOffset w' = uploadOffset w → cl w' = cl w → io_ok fileSize w'.
Proof. intros Hw E1 E2 E3 E4. apply (io_ok_mono (limit (fetch w)) fileSize w); try done; [by apply limit_le, so_fetch|by apply so_io]. Qed.

Lemma mutex_io lim w ch r f : io_ok lim w → res_ok lim r →
  io_ok lim (w_fetch (w_hub w (mkHub (rpcFileEventChan (hub w)) (nextChan (hub w)) (Some (ch, r)))) f).
Proof. intros [H1 H2 H3 H4] Hr. split; try done. cbn. by intros c r' [= <- <-]. Qed.

Lemma ask_ok w n tries slices w' : session_ok w → fetch w = FAsk n tries slices → fetch_step w = Some w' → session_ok w'.
Proof.
  intros Hw Ef. unfold fetch_step. rewrite Ef. pose proof (so_io _ Hw) as Hio. pose proof (so_fetch _ Hw) as Hf. rewrite Ef in Hio, Hf.
  pose proof Hf as [(Hn & _) _]. rewrite sliceOffset_eq by done. pose proof (slice_bounds n Hn) as Hb. unfold SetRemoteFileResult.
  destruct (fileEventMutex (hub w)) eqn:Em; [done|]. destruct (rpcFileEventChan (hub w) !! fileHash) as [ch|]; intros [= <-].
  - apply (by_fetch w); rewrite ?Ef; try done. apply mutex_io; [done|]. intros _. cbn. lia.
  - apply (by_fetch w); rewrite ?Ef; try done; cbn; case_bool_decide; try done; by apply (io_ok_mono (hi n) (hi n) w).
Qed.

Lemma open_ok w n slices w' : session_ok w → fetch w = FOpen n slices → fetch_step w = Some w' → session_ok w'.
Proof.
  intros Hw Ef. unfold fetch_step. rewrite Ef. pose proof (so_io _ Hw) as Hio. pose proof (so_fetch _ Hw) as Hf. rewrite Ef in Hio, Hf.
  destruct Hf as [(Hn & Hs & Hc) Hfr]. pose proof (slice_bounds n Hn) as Hb.
  destruct (OpenTmpFile io_err rootPath fileHash (uuid n) (node_fs w)) as [r fs'] eqn:Eo.
  pose proof (OpenTmpFile_new n (node_fs w) r fs' (Hfr n Hn ltac:(lia)) Eo) as Hr. intros [= <-]. destruct r as [f| |].
  - destruct Hr as [-> Er]. apply (by_fetch w); rewrite ?Ef; try done; [by apply (io_ok_mono (hi n) (hi n) w)|].
    cbn [fetch_ok fetch w_fetch w_fs node_fs]. split_and!; try done; try lia.
    + split_and!; [lia..|done|]. intros i h Hi E. rewrite Er, lookup_insert_ne; [by apply Hc|]. apply (H_names n i); unfold number; try done; lia.
    + intros m Hnm Hm. rewrite Er, lookup_insert_ne; [apply Hfr; [done|lia]|]. intros E%H_new; [lia|done..].
    + rewrite Er, lookup_insert_eq. unfold part. by replace (lo n + 0 - lo n) with 0 by lia.
  - apply (by_return w); rewrite ?Ef; try done. by apply (io_weaken w).
  - apply (by_return w); rewrite ?Ef; try done. by apply (io_weaken w).
Qed.

Lemma cache_packet_ok w n slices read writeOffset w' :
  session_ok w → fetch w = FRead n slices read writeOffset → cache_packet w n slices read writeOffset = Some w' → session_ok w'.
Proof.
  intros Hw Ef. unfold cache_packet. pose proof (so_io _ Hw) as Hio. pose proof (so_fetch _ Hw) as Hf. rewrite Ef in Hio, Hf. cbn [limit] in Hio.
  destruct Hf as ((Hn & Hs & Hc) & Hfr & -> & H0 & Hle & Hp). rewrite sliceOffset_eq by done. fold (tmp_path n). pose proof (slice_bounds n Hn) as Hb.
  destruct (rpcUploadDataChan w) as [[|p buf]|] eqn:Eb; [done| |].
  2: { intros [= <-]. apply (by_fetch w); rewrite ?Ef; try done; cbn [limit fetch_ok fetch w_data node_fs]; rewrite Ef; [|by split_and!]. destruct Hio as [? ? ? ?]. split; try done. cbn. by intros ? [= <-]. }
  pose proof (io_chan _ _ Hio _ Eb) as Hbuf. apply Forall_cons_1 in Hbuf as [(s & Hs1 & Hs2 & Ed) Hbuf].
  assert (io_ok (hi n) (w_data w (Some buf))) as Hio'.
  { destruct Hio as [? ? ? ?]. split; try done. cbn. by intros ? [= <-]. }
  assert (session_ok (fetch_return (w_data w (Some buf)))) as Hret.
  { apply (by_return w); rewrite ?Ef; try done. apply (io_ok_mono (hi n) fileSize (w_data w (Some buf))); try done. lia. }
  case_bool_decide as Hoff; [by intros [= <-]|].
  (* the packet continues the slice *)
  rewrite Ed, part_length in Hoff by lia. rewrite u64_id in Hoff by lia. assert (s = lo n + read) as -> by lia.
  unfold WriteFile, file_WriteAt. cbn [node_fs w_data]. rewrite Hp, (bool_decide_eq_false_2 (read < 0)) by lia. cbn [default from_option id].
  assert (∀ fs, fs_files fs = fs_files (node_fs w) → session_ok (fetch_return (w_fs (w_data w (Some buf)) fs))) as Hret2.
  { intros fs _. apply (by_return w); rewrite ?Ef; try done. apply (io_ok_mono (hi n) fileSize (w_data w (Some buf))); try done. lia. }
  destruct (io_err SysWrite (tmp_path n)); run_M; [intros [= <-]; by apply Hret2|].
  assert (write_at (part (lo n) (lo n + read)) (Z.to_nat read) (pk_Data p) = part (lo n) (pk_Offset p)) as ->.
  { pose proof (part_length (lo n) (lo n + read) ltac:(lia) ltac:(lia)) as El. unfold zlen in El.
    replace (Z.to_nat read) with (length (part (lo n) (lo n + read))) by lia. rewrite write_at_end, Ed. symmetry. apply part_app; lia. }
  set (fs' := with_file (node_fs w) (tmp_path n) (part (lo n) (pk_Offset p))).
  assert (before n slices fs' ∧ fresh (n + 1) fs' ∧ fs_files fs' !! tmp_path n = Some (part (lo n) (pk_Offset p))) as (Hbe & Hfr' & Hp').
  { split; [split_and!; [lia|lia|done|]|split].
    - apply cached_other; [done|]. intros i h Hi E. apply (H_names n i); unfold number; try done; lia.
    - intros m Hnm Hm. unfold fs'. cbn [fs_files with_file]. rewrite lookup_insert_ne; [by apply Hfr|]. intros E%H_new; [lia|done..].
    - unfold fs'. cbn [fs_files with_file]. apply lookup_insert_eq. }
  assert (zlen (pk_Data p) = pk_Offset p - (lo n + read)) as El by (rewrite Ed; apply part_length; lia). rewrite El, u64_id by lia.
  case_bool_decide as Hd; intros [= <-]; apply (by_fetch w); rewrite ?Ef; try done.
  - cbn [limit fetch w_fetch w_data]. destruct Hio as [? ? ? ?]. by split.
  - cbn [fetch_ok fetch w_fetch w_data w_fs node_fs]. split_and!; try done. unfold piece. rewrite Hp'. do 2 f_equal. lia.
  - cbn [limit fetch w_fetch w_data]. by apply (io_ok_mono (hi n) (hi n) (w_data w (Some buf))).
  - cbn [fetch_ok fetch w_fetch w_data w_fs node_fs]. split_and!; try done; try lia. rewrite Hp'. do 2 f_equal. lia.
Qed.

Lemma slices_ok_snoc n slices s : 1 ≤ n → slices_ok (n - 1) slices → slice_ok n s → slices_ok n (slices ++ [s]).
Proof.
  intros Hn H Hs. unfold slices_ok. replace n with ((n - 1) + 1) at 1 by lia. rewrite seqZ_app by lia.
  apply Forall2_app; [done|]. replace (1 + (n - 1)) with n by lia. constructor; [done|constructor].
Qed.

(** The temporary file of a slice gets its name. *)
Lemma rename_cached n h fs : 1 ≤ n ≤ sliceCount → cached (n - 1) fs → CalcSliceHash (piece n) fileHash n = Ok h →
  cached n (with_file (mkFS (delete (tmp_path n) (fs_files fs)) (fs_dirs fs)) (slice_path h) (piece n)).
Proof.
  intros Hn Hc Eh i h' Hi E. cbn [fs_files with_file]. destruct (decide (i = n)) as [->|Hne].
  - rewrite Eh in E. injection E as <-. apply lookup_insert_eq.
  - rewrite lookup_insert_ne by (intros Eq; by apply (H_distinct i n h' h); [lia|lia|..]).
    rewrite lookup_delete_ne by (apply (H_names n i); unfold number; try done; lia). apply Hc; [lia|done].
Qed.

Lemma finish_part_ok w n slices : session_ok w → fetch w = FHash n slices → session_ok (finish_slice w n slices).
Proof.
  intros Hw Ef. pose proof (so_io _ Hw) as Hio. pose proof (so_fetch _ Hw) as Hf. rewrite Ef in Hio, Hf. cbn [limit] in Hio.
  destruct Hf as ((Hn & Hs & Hc) & Hfr & Hp). pose proof (slice_bounds n Hn) as Hb. unfold finish_slice. rewrite sliceOffset_eq by done.
  assert (∀ fs k, k = ThenReturn → session_ok (w_fetch (w_fs w fs) (FResult (plain_result INTERNAL_DATA_FAILURE) k slices))) as Hfail.
  { intros fs k ->. apply (by_fetch w); rewrite ?Ef; try done. by apply (io_weaken w). }
  unfold GetSliceDataFromTmp, GetWholeFileData, os_ReadFile, open_read. fold (tmp_path n). run_M.
  destruct (io_err SysOpen (tmp_path n)); [by apply Hfail|]. rewrite Hp. destruct (io_err SysRead (tmp_path n)); [by apply Hfail|].
  destruct (CalcSliceHash (piece n) fileHash n) as [h| |] eqn:Eh; [|by apply Hfail..].
  unfold RenameTmpFile. fold (tmp_path n) (slice_path h). run_M. cbn [node_fs w_fs]. destruct (io_err SysRename (tmp_path n)); [by apply (Hfail (node_fs w))|].
  rewrite Hp. rewrite u64_id by lia. set (fs' := with_file _ (slice_path h) (piece n)). set (s := mkSHA h _ _ _ _).
  assert (slices_ok n (slices ++ [s])) as Hs' by (apply slices_ok_snoc; [lia|done|]; by split).
  assert (cached n fs') as Hc' by (by apply rename_cached).
  case_bool_decide as Hd; apply (by_fetch w); rewrite ?Ef; try done.
  - cbn [limit fetch w_fetch]. pose proof (io_weaken w (w_fs w fs') Hw ltac:(done) ltac:(done) ltac:(done) ltac:(done)) as [? ? ? ?]. split; try done.
    cbn. by eapply client_ok_deleted.
  - subst n. by split.
  - cbn [limit fetch w_fetch]. apply (io_ok_mono (hi n) _ w); try done. by apply hi_mono; lia.
  - cbn [fetch_ok fetch w_fetch w_fs node_fs]. split; [split_and!; [lia..| |]|].
    + by replace (n + 1 - 1) with n by lia.
    + by replace (n + 1 - 1) with n by lia.
    + intros m Hnm Hm. unfold fs'. cbn [fs_files with_file]. rewrite lookup_insert_ne by (apply not_eq_sym; by apply (H_names m n)).
      rewrite lookup_delete_ne by (intros E%H_new; [lia|done..]). by apply Hfr.
Qed.

Lemma continue_ok w w' k slices : session_ok w → fetch w ≠ FIdle → fetch w ≠ FEnd → cl w' = cl w → toSp w' = toSp w → io_ok fileSize w' →
  (k = ThenSign → slices_ok sliceCount slices ∧ cached sliceCount (node_fs w')) → session_ok (continue w' k slices).
Proof.
  intros Hw H1 H2 Ec Es Hio Hk. destruct k; cbn [continue]; [|by apply (by_return w)].
  apply (by_fetch w); try done; [|by apply Hk]. by apply (io_ok_mono fileSize fileSize w').
Qed.

Lemma request_upload_ok w slices s : session_ok w → fetch w = FSigned slices s → session_ok (request_upload w slices s).
Proof.
  intros Hw Ef. pose proof (so_fetch _ Hw) as Hf. rewrite Ef in Hf. unfold request_upload. destruct (_ && _).
  - split.
    + intros Hs. by rewrite (so_start _ Hw Hs) in Ef.
    + apply (io_ok_return fileSize); [done|]. by apply (io_weaken w).
    + done.
    + cbn [toSp fetch_return w_fetch w_offset w_sent]. rewrite (nothing_sent w Hw) by (by rewrite Ef).
      intros r [->|[]%elem_of_nil]%elem_of_cons. destruct Hf. split_and!; done.
  - apply (by_fetch w); rewrite ?Ef; try done. by apply (io_weaken w).
Qed.

Lemma fetch_step_ok w w' : session_ok w → fetch_step w = Some w' → session_ok w'.
Proof.
  intros Hw E. pose proof (so_io _ Hw) as Hio. pose proof (so_fetch _ Hw) as Hf. destruct (fetch w) as [|n t sl|n sl|n sl|n sl rd wo|n sl|r k sl|k sl|sl|sl|sl s|] eqn:Ef.
  all: try (by apply (ask_ok w n t sl)); try (by apply (open_ok w n sl)); unfold fetch_step in E; rewrite Ef in E; try done.
  - by apply (cache_packet_ok w n sl rd wo).
  - injection E as <-. by apply finish_part_ok.
  - destruct Hf as [Hr Hk]. unfold SetRemoteFileResult in E. destruct (fileEventMutex (hub w)) eqn:Em; [done|].
    destruct (rpcFileEventChan (hub w) !! fileHash) as [ch|]; injection E as <-.
    + apply (by_fetch w); rewrite ?Ef; try done. by apply mutex_io.
    + apply (continue_ok w); rewrite ?Ef; try done. by apply (io_weaken w).
  - injection E as <-. apply (by_fetch w); rewrite ?Ef; try done. by apply (io_weaken w).
  - injection E as <-. by apply request_upload_ok.
Qed.

Lemma deliver_result_ok w w' : session_ok w → deliver w = Some w' → session_ok w'.
Proof.
  intros Hw E. unfold deliver in E. destruct (cl w) as [| |[| | |m ch| |]| | |] eqn:Ecl; try done. unfold receive in E.
  destruct (fileEventMutex (hub w)) as [[c r]|] eqn:Em; [|done]. case_bool_decide; [|done]. cbv zeta in E. cbn [fetch w_cl w_hub] in E.
  pose proof (so_io _ Hw) as Hio. pose proof (io_mutex _ _ Hio c r Em) as Hr. pose proof (so_fetch _ Hw) as Hf.
  set (w1 := w_cl _ _) in E.
  assert (session_ok w1) as H1.
  { apply (by_call w); try done. destruct Hio as [? ? ? ?]. by split. }
  destruct (fetch w) as [|n t sl|n sl|n sl|n sl rd wo|n sl|r' k sl|k sl|sl|sl|sl s|] eqn:Ef; try done; injection E as <-.
  - apply (by_fetch w1); try done; unfold w1; cbn [fetch w_cl w_hub]; rewrite ?Ef; try done.
    apply (io_ok_mono (hi n) (hi n) w1); try done. pose proof (so_io _ H1) as G. unfold w1 in G |- *. cbn [fetch w_cl w_hub] in G. by rewrite Ef in G.
  - apply (continue_ok w1); try done; unfold w1; cbn [fetch w_cl w_hub]; rewrite ?Ef; try done. by apply (io_weaken w1).
Qed.

Lemma step_ok w e w' : session_ok w → step w e = Some w' → session_ok w'.
Proof.
  intros Hw. destruct e; cbn [step].
  - by apply client_step_ok.
  - by apply call_step_ok.
  - by apply deliver_result_ok.
  - destruct (cl w) as [| |[]| | |] eqn:Ecl; try done. intros [= <-]. by apply by_cl.
  - by apply fetch_step_ok.
  - destruct (fetch w) eqn:Ef; try done; intros [= <-]; apply (by_return w); rewrite ?Ef; try done; by apply (io_weaken w).
Qed.

Lemma run_ok es : ∀ w w', session_ok w → run w es = Some w' → session_ok w'.
Proof.
  induction es as [|e es IH]; intros w w' Hw; cbn [run]; [by intros [= <-]|].
  destruct (step w e) as [w1|] eqn:E; [|done]. apply IH. by eapply step_ok.
Qed.

Lemma session0_ok fs : fresh 1 fs → session_ok (session0 fs).
Proof. intros Hf. split; try done. by intros r ?%elem_of_nil. Qed.

(** The slices make the file. *)
Lemma pieces_concat k : 0 ≤ k ≤ sliceCount → concat (piece <$> seqZ 1 k) = part 0 (if bool_decide (k = 0) then 0 else hi k).
Proof.
  intros Hk. destruct Hk as [Hk1 Hk2]. revert Hk2. revert k Hk1. apply (natlike_ind (fun k => k ≤ sliceCount → concat (piece <$> seqZ 1 k) = part 0 (if bool_decide (k = 0) then 0 else hi k))).
  { intros _. done. }
  intros k Hk IH Hle. unfold Z.succ in *. rewrite seqZ_app by lia. rewrite fmap_app, concat_app, IH by lia. cbn [fmap list_fmap seqZ]. rewrite (bool_decide_eq_false_2 (k + 1 = 0)) by lia.
  change (seqZ (1 + k) 1) with [1 + k]. cbn. rewrite app_nil_r. replace (1 + k) with (k + 1) by lia.
  pose proof (slice_bounds (k + 1) ltac:(lia)) as Hb. case_bool_decide as H0.
  - subst k. unfold piece. assert (lo (0 + 1) = 0) as -> by (unfold lo; lia). done.
  - unfold piece. rewrite hi_lo by lia. symmetry. apply part_app; lia.
Qed.

Lemma pieces_are_content : concat (piece <$> seqZ 1 sliceCount) = content.
Proof.
  assert (0 ≤ sliceCount) by (pose proof size_nonneg; destruct count_bounds; [nia|lia]).
  rewrite pieces_concat by lia. unfold part. rewrite drop_0. case_bool_decide as H0.
  - assert (fileSize = 0) as E by (pose proof size_nonneg; destruct count_bounds as [?|[_ ?]]; [nia|done]).
    destruct content; [done|]. unfold zlen in H_size. cbn in H_size. lia.
  - unfold hi. rewrite bool_decide_eq_true_2 by done. apply take_ge. unfold zlen in H_size. lia.
Qed.

(** A request that is the file: its slices in order, each with its number, place and hash, and
    each stored on the node under its hash. *)
Definition announces (fs : FS) (r : ReqUploadFile) : Prop :=
  ru_FileHash r = fileHash ∧ ru_FileSize r = fileSize
  ∧ ∃ parts, concat parts = content
    ∧ sh_SliceNumber <$> ru_Slices r = seqZ 1 sliceCount
    ∧ Forall2 (fun p s =>
        CalcSliceHash p fileHash (sh_SliceNumber s) = Ok (sh_SliceHash s)
        ∧ sh_SliceSize s = zlen p ∧ p = take (Z.to_nat (sh_End s - sh_Start s)) (drop (Z.to_nat (sh_Start s)) content)
        ∧ zlen p ≤ MaxSliceSize ∧ fs_files fs !! slice_path (sh_SliceHash s) = Some p) parts (ru_Slices r).

Lemma sent_announces w r : session_ok w → r ∈ toSp w → announces (node_fs w) r.
Proof.
  intros Hw Hr. destruct (so_sent _ Hw r Hr) as (_ & E1 & E2 & Hs & Hc). split_and!; try done.
  exists (piece <$> seqZ 1 sliceCount). split; [apply pieces_are_content|]. unfold slices_ok in Hs. split.
  - symmetry. apply list_eq_Forall2. apply Forall2_fmap_r. refine (Forall2_impl _ _ Hs). intros n s [_ ->]. done.
  - apply Forall2_fmap_l. apply Forall2_same_length_lookup_2; [by eapply Forall2_length|]. intros j n s Hn Es.
    destruct (Forall2_lookup_lr _ _ _ _ _ _ Hs Hn Es) as [Eh ->]. apply lookup_seqZ in Hn as [-> Hj]. cbn [sh_SliceHash sh_SliceSize sh_SliceNumber sh_Start sh_End].
    pose proof (slice_bounds (1 + Z.of_nat j) ltac:(lia)) as Hb. assert (zlen (piece (1 + Z.of_nat j)) = hi (1 + Z.of_nat j) - lo (1 + Z.of_nat j)) as El by (apply part_length; lia).
    split_and!; [done|done|done|lia|]. apply (Hc (1 + Z.of_nat j)); [lia|done].
Qed.

(** C4: Whatever the schedule of client, call and goroutine, and whatever times out or fails
    on the node, the client is only asked for parts of its file of a safe size, and a request
    that goes to the SP announces the file: its slices in order, each with its number, place
    and hash, and each stored on the node under its hash. *)
Theorem announced_slices_are_the_file fs es w :
  (∀ n, number n → fs_files fs !! tmp_path n = None) → run (session0 fs) es = Some w →
  (∀ s e, cl w = CAsked s e → 0 ≤ s ≤ e ∧ e ≤ fileSize ∧ e - s ≤ SAFE)
  ∧ ∀ r, r ∈ toSp w → ru_FileHash r = fileHash ∧ ru_FileSize r = fileSize
    ∧ ∃ parts, concat parts = content
      ∧ sh_SliceNumber <$> ru_Slices r = seqZ 1 sliceCount
      ∧ Forall2 (fun p s =>
          CalcSliceHash p fileHash (sh_SliceNumber s) = Ok (sh_SliceHash s)
          ∧ sh_SliceSize s = zlen p ∧ p = take (Z.to_nat (sh_End s - sh_Start s)) (drop (Z.to_nat (sh_Start s)) content)
          ∧ zlen p ≤ MaxSliceSize ∧ fs_files (node_fs w) !! slice_path (sh_SliceHash s) = Some p) parts (ru_Slices r).
Proof.
  intros Hfs Hrun. pose proof (run_ok es _ w (session0_ok fs (fun m Hm _ => Hfs m Hm)) Hrun) as Hw. split.
  { intros s e Ecl. pose proof (io_client _ _ (so_io _ Hw)) as Hc. rewrite Ecl in Hc. pose proof (limit_le w (so_fetch _ Hw)). destruct Hc as (? & ? & ? & _). lia. }
  intros r Hr. by apply sent_announces.
Qed.

(** *** A session that completes *)

Section NoFailures.
Context (H_io : ∀ c p, io_err c p = false) (H_cio : ∀ c p, client_io_err c p = false).
Context (H_auth : ∀ m, authorised (sig m) = true) (H_key : valid_pubkey (sg_Pubkey (sig MRequestUpload)) = true) (H_hex : valid_hex (sg_Signature (sig MUploadSign)) = true).
Context (H_hash : ∀ n, 1 ≤ n ≤ sliceCount → ∃ h, CalcSliceHash (piece n) fileHash n = Ok h).
(** No folder has the name of a temporary file. *)
Context (H_folder : ∀ n, number n → tmp_path n ≠ Join [GetTmpFileFolderPath rootPath fileHash]).

Definition reaches (w w' : world) : Prop := ∃ es, run w es = Some w'.

Lemma reaches_refl w : reaches w w.
Proof. by exists []. Qed.
Lemma reaches_step w e w1 w' : step w e = Some w1 → reaches w1 w' → reaches w w'.
Proof. intros E [es Hes]. exists (e :: es). cbn [run]. by rewrite E. Qed.
Lemma reaches_trans w w1 w2 : reaches w w1 → reaches w1 w2 → reaches w w2.
Proof.
  intros [es E] H2. revert w E. induction es as [|e es IH]; cbn [run]; intros w E; [by injection E as ->|].
  destruct (step w e) as [w'|] eqn:Es; [|done]. by apply (reaches_step w e w'), IH.
Qed.

(** The client reads what it is asked for. *)
Lemma client_can_read s e : 0 ≤ s < e → e ≤ fileSize → e - s ≤ SAFE → fst (GetFileData client_io_err filePath s e client_fs) = Ok (part s e).
Proof.
  intros Hs He Hn. unfold GetFileData, open_read. rewrite !H_cio. run_M. rewrite H_content. cbn beta iota zeta.
  rewrite (u64_id (e - s)) by lia. assert (i64 s = s) as Ei by (unfold i64, wraps; rewrite Z.mod_small; lia). rewrite !Ei.
  rewrite (bool_decide_eq_false_2 (maxAlloc < _)) by (unfold maxAlloc; lia). rewrite (bool_decide_eq_false_2 (s < 0)) by lia.
  fold (part s e). pose proof (part_length s e ltac:(lia) He) as E. unfold zlen in E.
  rewrite (bool_decide_eq_false_2 (part s e = [])) by (intros E0; rewrite E0 in E; cbn in E; lia). rewrite andb_false_r. cbn [fst].
  replace (Z.to_nat (e - s) - length (part s e))%nat with 0%nat by lia. cbn. by rewrite app_nil_r.
Qed.

(** Between two steps of the goroutine the mutex is free and nobody has signed. *)
Definition quiet (w : world) : Prop :=
  session_ok w ∧ fileEventMutex (hub w) = None ∧ rpcFileUploadSign w = false ∧ ∀ m, number m → tmp_path m ∉ fs_dirs (node_fs w).

(** The client has been asked for the next part of slice [n]. *)
Definition asked_part (n : Z) (slices : list SliceHashAddr) (read e : Z) (w : world) : Prop :=
  quiet w ∧ fetch w = FRead n slices read read ∧ rpcUploadDataChan w = Some [] ∧ cl w = CAsked (lo n + read) e
  ∧ uploadOffset w = Some (mkOffset e (hi n)) ∧ lo n + read < e ≤ hi n.
(** The call waits for a result. *)
Definition waiting (w : world) : Prop :=
  ∃ m ch, m ≠ MUploadSign ∧ cl w = CWaiting (KWait m ch) ∧ rpcFileEventChan (hub w) !! fileHash = Some ch.

(** One part: the client sends it, the goroutine writes it, and the next is asked for or the
    slice is there. *)
Lemma part_round n slices read e w : asked_part n slices read e w →
  ∃ w', reaches w w'
    ∧ ((∃ e', e < hi n ∧ asked_part n slices (e - lo n) e' w') ∨ (quiet w' ∧ fetch w' = FHash n slices ∧ rpcUploadDataChan w' = None ∧ waiting w')).
Proof.
  intros ((Hw & Hm & Hsg & Hdirs) & Ef & Eb & Ecl & Eo & He). pose proof (so_fetch _ Hw) as Hf. rewrite Ef in Hf.
  destruct Hf as ((Hn & Hs & Hc) & Hfr & _ & H0 & Hle & Hp). pose proof (slice_bounds n Hn) as Hb.
  pose proof (io_client _ _ (so_io _ Hw)) as Hcl. rewrite Ecl in Hcl. destruct Hcl as (_ & _ & Hsafe & _).
  set (data := part (lo n + read) e). set (fo := mkOffset e (hi n)).
  assert (zlen data = e - (lo n + read)) as El by (apply part_length; lia).
  (* the call *)
  set (w1 := w_cl w (CWaiting (KSend data fo))).
  assert (step w EClient = Some w1) as E1.
  { cbn [step]. unfold client_step. rewrite Ecl, client_can_read by lia. rewrite H_auth, Eo. done. }
  set (w2 := w_cl (w_data w1 (Some [mkData data e])) (CWaiting (KDecide fo))).
  assert (step w1 ECall = Some w2) as E2.
  { cbn [step call_step cl w1 w_cl]. unfold SendFileDataBack. change (rpcUploadDataChan w1) with (rpcUploadDataChan w). rewrite Eb. done. }
  (* the goroutine *)
  set (fs' := with_file (node_fs w) (tmp_path n) (write_at (part (lo n) (lo n + read)) (Z.to_nat read) data)).
  set (f3 := if bool_decide (hi n - lo n ≤ read + zlen data) then FHash n slices else FRead n slices (read + zlen data) (read + zlen data)).
  set (w3 := w_fetch (w_data (w_fs w2 fs') (if bool_decide (hi n - lo n ≤ read + zlen data) then None else Some [])) f3).
  assert (step w2 EFetch = Some w3) as E3.
  { cbn [step]. unfold fetch_step. change (fetch w2) with (fetch w). rewrite Ef. unfold cache_packet. rewrite sliceOffset_eq by done. fold (tmp_path n).
    cbn [rpcUploadDataChan w2 w_cl w_data pk_Offset pk_Data]. rewrite (u64_id (lo n + read + zlen data)) by lia.
    rewrite (bool_decide_eq_false_2 (e ≠ _)) by (intros Hne; apply Hne; lia). unfold WriteFile, file_WriteAt. cbn [node_fs w_data w2 w_cl w1]. rewrite Hp, H_io, (bool_decide_eq_false_2 (read < 0)) by lia.
    run_M. cbn [default from_option id]. fold fs'. rewrite (u64_id (hi n - lo n)) by lia. unfold w3, f3. by case_bool_decide. }
  assert (session_ok w1) as Hw1 by (by eapply step_ok). assert (session_ok w2) as Hw2 by (by eapply step_ok). assert (session_ok w3) as Hw3 by (by eapply step_ok).
  assert (step w3 ECall = Some (upload_next w3 fo)) as E4 by done. assert (session_ok (upload_next w3 fo)) as Hw4 by (by eapply step_ok).
  destruct (decide (e = hi n)) as [->|Hne].
  - (* the last part *)
    assert (f3 = FHash n slices ∧ rpcUploadDataChan w3 = None) as [Ef3 Ed3].
    { unfold w3, f3. cbn [rpcUploadDataChan w_fetch w_data]. by rewrite (bool_decide_eq_true_2 (hi n - lo n ≤ read + zlen data)) by lia. }
    assert (upload_next w3 fo = w_cl w3 (CWaiting (KSubscribe MUploadData))) as E4'.
    { unfold upload_next. cbn [SliceFileOffset PacketFileOffset fo]. rewrite Z.sub_diag. change (u64 0) with 0.
      by rewrite (bool_decide_eq_false_2 (SAFE < 0)), (bool_decide_eq_false_2 (hi n < hi n)) by lia. }
    set (w4 := upload_next w3 fo) in *. destruct (step w4 ECall) as [w5|] eqn:E5.
    2: { rewrite E4' in E5. cbn [step call_step cl w_cl] in E5. unfold SubscribeRemoteFileEvent in E5. by rewrite (Hm : fileEventMutex (hub (w_cl w3 _)) = None) in E5. }
    assert (session_ok w5) as Hw5 by (by apply (step_ok w4 ECall)). exists w5. split.
    { eapply reaches_step, reaches_step, reaches_step, reaches_step, reaches_step, reaches_refl; [exact E1|exact E2|exact E3|exact E4|exact E5]. }
    right. rewrite E4' in E5. cbn [step call_step cl w_cl] in E5. unfold SubscribeRemoteFileEvent in E5. change (hub (w_cl w3 _)) with (hub w) in E5. rewrite Hm in E5. injection E5 as <-.
    split_and!; try done. exists MUploadData, (nextChan (hub w)). split_and!; [done|done|by apply lookup_insert_eq].
  - (* there is more *)
    assert (f3 = FRead n slices (e - lo n) (e - lo n) ∧ rpcUploadDataChan w3 = Some []) as [Ef3 Ed3].
    { unfold w3, f3. cbn [rpcUploadDataChan w_fetch w_data]. rewrite (bool_decide_eq_false_2 (hi n - lo n ≤ read + zlen data)) by lia.
      by replace (read + zlen data) with (e - lo n) by lia. }
    set (e' := if bool_decide (SAFE < hi n - e) then e + SAFE else hi n).
    assert (e < e' ≤ hi n) as He' by (unfold e'; case_bool_decide; lia).
    assert (upload_next w3 fo = w_cl (w_offset w3 (Some (mkOffset e' (hi n)))) (CAsked e e')) as E4'.
    { unfold upload_next, e'. cbn [SliceFileOffset PacketFileOffset fo]. rewrite (u64_id (hi n - e)) by lia. case_bool_decide; [by rewrite u64_id by lia|].
      by rewrite (bool_decide_eq_true_2 (e < hi n)) by lia. }
    exists (upload_next w3 fo). split.
    { eapply reaches_step, reaches_step, reaches_step, reaches_step, reaches_refl; [exact E1|exact E2|exact E3|exact E4]. }
    left. exists e'. split; [lia|]. rewrite E4' in Hw4 |- *. split; [by split_and!|]. split_and!; try done; try lia. cbn. f_equal. lia.
Qed.

Lemma slice_parts n slices k : ∀ read e w, hi n - (lo n + read) ≤ Z.of_nat k → asked_part n slices read e w →
  ∃ w', reaches w w' ∧ quiet w' ∧ fetch w' = FHash n slices ∧ rpcUploadDataChan w' = None ∧ waiting w'.
Proof.
  induction k as [|k IH]; intros read e w Hk Ha.
  { destruct Ha as (_ & _ & _ & _ & _ & He). lia. }
  destruct (part_round n slices read e w Ha) as (w1 & H1 & [(e' & Hlt & H2)|H2]); [|by exists w1].
  destruct (IH (e - lo n) e' w1) as (w2 & H3 & H4); [|done|].
  - destruct Ha as (_ & _ & _ & _ & _ & He). lia.
  - exists w2. split; [by eapply reaches_trans|done].
Qed.

Definition at_slice (n : Z) (slices : list SliceHashAddr) (w : world) : Prop :=
  quiet w ∧ fetch w = FAsk n 0 slices ∧ rpcUploadDataChan w = None ∧ waiting w.

(** The client is asked for the slice. *)
Lemma slice_asked n slices w : at_slice n slices w → ∃ w' e, reaches w w' ∧ asked_part n slices 0 e w'.
Proof.
  intros ((Hw & Hm & Hsg & Hdirs) & Ef & Eb & (m & ch & Hms & Ecl & Ech)). pose proof (so_fetch _ Hw) as Hf. rewrite Ef in Hf.
  destruct Hf as [(Hn & Hs & Hc) Hfr]. pose proof (slice_bounds n Hn) as Hb. set (r := mkResult UPLOAD_DATA (lo n) (hi n)).
  set (w1 := w_fetch (w_hub w (mkHub (rpcFileEventChan (hub w)) (nextChan (hub w)) (Some (ch, r)))) (FAsking n slices)).
  assert (step w EFetch = Some w1) as E1.
  { cbn [step]. unfold fetch_step. rewrite Ef, sliceOffset_eq by done. unfold SetRemoteFileResult. by rewrite Hm, Ech. }
  set (w2 := w_fetch (w_cl (w_hub w1 (mkHub (rpcFileEventChan (hub w)) (nextChan (hub w)) None)) (CWaiting (KGot m r))) (FOpen n slices)).
  assert (step w1 EDeliver = Some w2) as E2.
  { cbn [step]. unfold deliver. change (cl w1) with (cl w). rewrite Ecl. unfold receive. cbn [hub w1 w_fetch w_hub fileEventMutex]. by rewrite bool_decide_eq_true_2 by done. }
  assert (session_ok w1) as Hw1 by (by apply (step_ok w EFetch)). assert (session_ok w2) as Hw2 by (by apply (step_ok w1 EDeliver)).
  (* the temporary file *)
  destruct (OpenTmpFile io_err rootPath fileHash (uuid n) (node_fs w)) as [ro fs'] eqn:Eo.
  assert ((∃ f, ro = Ok f) ∧ ∀ m, number m → tmp_path m ∉ fs_dirs fs') as [[f ->] Hdirs'].
  { revert Eo. unfold OpenTmpFile. fold (tmp_path n). set (folder := Join _).
    assert (∀ fs1, fs_files fs1 = fs_files (node_fs w) → (∀ m, number m → tmp_path m ∉ fs_dirs fs1) → open_create io_err (tmp_path n) fs1 = (ro, fs') →
      (∃ f, ro = Ok f) ∧ ∀ m, number m → tmp_path m ∉ fs_dirs fs') as Ho.
    { intros fs1 E0 Hd. unfold open_create. run_M. rewrite H_io, (bool_decide_eq_false_2 (tmp_path n ∈ _)) by (by apply Hd). cbn [orb].
      rewrite E0, (Hfr n) by (done || lia). intros [= <- <-]. split; [by eexists|done]. }
    unfold PathExists. rewrite H_io. run_M. destruct (bool_decide _); [by apply Ho|]. unfold MkdirAll. rewrite H_io. run_M. apply Ho; [done|].
    intros k Hk. cbn [fs_dirs]. rewrite elem_of_union, elem_of_singleton. intros [E0|E0]; [by apply (H_folder k)|by apply (Hdirs k)]. }
  set (w3 := w_fetch (w_fs w2 fs') (FRead n slices 0 0)).
  assert (step w2 EFetch = Some w3) as E3.
  { cbn [step]. unfold fetch_step. change (fetch w2) with (FOpen n slices). cbv beta iota. change (node_fs w2) with (node_fs w). by rewrite Eo. }
  assert (session_ok w3) as Hw3 by (by apply (step_ok w2 EFetch)). set (w4 := w_data w3 (Some [])).
  assert (step w3 EFetch = Some w4) as E4.
  { cbn [step]. unfold fetch_step. change (fetch w3) with (FRead n slices 0 0). cbv beta iota. unfold cache_packet. rewrite sliceOffset_eq by done.
    change (rpcUploadDataChan w3) with (rpcUploadDataChan w). by rewrite Eb. }
  assert (session_ok w4) as Hw4 by (by apply (step_ok w3 EFetch)).
  (* the answer *)
  set (e := if bool_decide (SAFE < hi n - lo n) then lo n + SAFE else hi n).
  assert (lo n < e ≤ hi n) as He by (unfold e; case_bool_decide; lia).
  set (h := mkHub (delete fileHash (rpcFileEventChan (hub w))) (nextChan (hub w)) None).
  set (w5 := w_cl (w_offset (w_hub w4 h) (Some (mkOffset e (hi n)))) (CAsked (lo n) e)).
  assert (step w4 ECall = Some w5) as E5.
  { cbn [step]. unfold call_step. change (cl w4) with (CWaiting (KGot m r)). cbv beta iota. unfold answer.
    assert (ResultHook r (uploadOffset w4) = (mkResult UPLOAD_DATA (lo n) e, Some (mkOffset e (hi n)))) as Er.
    { unfold ResultHook, e. cbn [r_Return r r_OffsetStart r_OffsetEnd]. rewrite (u64_id (hi n - lo n)) by lia. case_bool_decide; [by rewrite u64_id by lia|done]. }
    rewrite Er. destruct m; done. }
  assert (session_ok w5) as Hw5 by (by apply (step_ok w4 ECall)).
  exists w5, e. split.
  { eapply reaches_step, reaches_step, reaches_step, reaches_step, reaches_step, reaches_refl; [exact E1|exact E2|exact E3|exact E4|exact E5]. }
  split; [by split_and!|]. split_and!; try done; try lia. cbn. f_equal. lia.
Qed.

(** The slice gets its name, and the next one follows or the client is told. *)
Lemma slice_named n slices w : quiet w → fetch w = FHash n slices → rpcUploadDataChan w = None → waiting w →
  ∃ w' slices', reaches w w' ∧ quiet w' ∧ rpcUploadDataChan w' = None ∧ waiting w'
    ∧ if bool_decide (n = sliceCount) then fetch w' = FResult (plain_result SUCCESS) ThenSign slices' else fetch w' = FAsk (n + 1) 0 slices'.
Proof.
  intros (Hw & Hm & Hsg & Hdirs) Ef Eb Hwait. pose proof (so_fetch _ Hw) as Hf. rewrite Ef in Hf. destruct Hf as ((Hn & Hs & Hc) & Hfr & Hp).
  assert (step w EFetch = Some (finish_slice w n slices)) as E by (cbn [step]; unfold fetch_step; by rewrite Ef).
  assert (session_ok (finish_slice w n slices)) as Hw1 by (by apply (step_ok w EFetch)). exists (finish_slice w n slices).
  destruct (H_hash n Hn) as [h Eh]. eexists. split; [by eapply reaches_step, reaches_refl|].
  revert Hw1. unfold finish_slice. rewrite sliceOffset_eq by done. unfold GetSliceDataFromTmp, GetWholeFileData, os_ReadFile, open_read. fold (tmp_path n). run_M.
  rewrite !H_io, Hp, Eh. unfold RenameTmpFile. fold (tmp_path n) (slice_path h). run_M. cbn [node_fs w_fs]. rewrite H_io, Hp.
  case_bool_decide; intros Hw1; split_and!; try done; by split_and!.
Qed.

Lemma slices_done k : ∀ n slices w, sliceCount - n ≤ Z.of_nat k → at_slice n slices w →
  ∃ w' slices', reaches w w' ∧ quiet w' ∧ waiting w' ∧ fetch w' = FResult (plain_result SUCCESS) ThenSign slices'.
Proof.
  induction k as [|k IH]; intros n slices w Hk Ha.
  all: pose proof (so_fetch _ (proj1 (proj1 Ha))) as Hf; rewrite (proj1 (proj2 Ha)) in Hf; destruct Hf as [(Hn & _) _].
  all: destruct (slice_asked n slices w Ha) as (w1 & e & H1 & Hp);
    destruct (slice_parts n slices (Z.to_nat (hi n - lo n)) 0 e w1 ltac:(pose proof (slice_bounds n Hn); lia) Hp) as (w2 & H2 & Hq & Ef & Eb & Hwait);
    destruct (slice_named n slices w2 Hq Ef Eb Hwait) as (w3 & sl & H3 & Hq3 & Eb3 & Hw3 & Ef3).
  all: case_bool_decide as Hd; [exists w3, sl; split; [by eapply reaches_trans, reaches_trans|done]|].
  { lia. }
  destruct (IH (n + 1) sl w3) as (w4 & sl4 & H4 & ?); [lia|done|]. exists w4, sl4. split; [|done]. by eapply reaches_trans, reaches_trans, reaches_trans.
Qed.

(** The end of a session: the client is told, signs, and the goroutine sends the request. *)
Lemma success_sent slices w : quiet w → waiting w → fetch w = FResult (plain_result SUCCESS) ThenSign slices →
  ∃ w1 w2, reaches w w1 ∧ cl w1 = CSign ∧ toSp w1 = [] ∧ reaches w1 w2 ∧ toSp w2 = [mkReqUp fileHash fileName fileSize slices (sig MUploadSign)].
Proof.
  intros (Hw & Hm & Hsg & Hdirs) (m & ch & Hms & Ecl & Ech) Ef. set (r := plain_result SUCCESS).
  set (w1 := w_fetch (w_hub w (mkHub (rpcFileEventChan (hub w)) (nextChan (hub w)) (Some (ch, r)))) (FSending ThenSign slices)).
  assert (step w EFetch = Some w1) as E1.
  { cbn [step]. unfold fetch_step. rewrite Ef. unfold SetRemoteFileResult. by rewrite Hm, Ech. }
  set (w2 := w_fetch (w_cl (w_hub w1 (mkHub (rpcFileEventChan (hub w)) (nextChan (hub w)) None)) (CWaiting (KGot m r))) (FSubscribeSign slices)).
  assert (step w1 EDeliver = Some w2) as E2.
  { cbn [step]. unfold deliver. change (cl w1) with (cl w). rewrite Ecl. unfold receive. cbn [hub w1 w_fetch w_hub fileEventMutex]. by rewrite bool_decide_eq_true_2 by done. }
  set (w3 := w_fetch (w_signchan w2 true) (FSign slices)). assert (step w2 EFetch = Some w3) as E3 by done.
  set (h := mkHub (delete fileHash (rpcFileEventChan (hub w))) (nextChan (hub w)) None).
  set (w4 := w_cl (w_offset (w_hub w3 h) (uploadOffset w)) CSign).
  assert (step w3 ECall = Some w4) as E4.
  { cbn [step]. unfold call_step. change (cl w3) with (CWaiting (KGot m r)). cbv beta iota. unfold answer. destruct m; done. }
  set (w5 := w_cl w4 (CWaiting KSendSign)).
  assert (step w4 EClient = Some w5) as E5.
  { cbn [step]. unfold client_step. change (cl w4) with CSign. cbv beta iota. by rewrite H_auth. }
  set (w6 := w_fetch (w_cl w5 (CWaiting (KSubscribe MUploadSign))) (FSigned slices (sig MUploadSign))). assert (step w5 ECall = Some w6) as E6 by done.
  assert (step w6 EFetch = Some (fetch_return (w_sent w6 (mkReqUp fileHash fileName fileSize slices (sig MUploadSign))))) as E7.
  { cbn [step]. unfold fetch_step. change (fetch w6) with (FSigned slices (sig MUploadSign)). cbv beta iota. unfold request_upload. by rewrite H_key, H_hex. }
  pose proof (nothing_sent w Hw ltac:(by rewrite Ef)) as E0. exists w4. eexists. split.
  { eapply reaches_step, reaches_step, reaches_step, reaches_step, reaches_refl; [exact E1|exact E2|exact E3|exact E4]. }
  split; [done|]. split; [exact E0|]. split; [eapply reaches_step, reaches_step, reaches_step, reaches_refl; [exact E5|exact E6|exact E7]|].
  cbn [toSp fetch_return w_fetch w_offset w_sent w6 w5 w4 w3 w2 w1 w_cl w_hub w_signchan]. by rewrite E0.
Qed.

(** C25: When nothing fails, there is a schedule in which the client is told of the success,
    before anything has gone to the SP, and signs; then one request goes to the SP, with this
    signature, and it announces the client's file: all its slices, each stored on the node. *)
Theorem session_can_complete fs :
  (∀ n, number n → fs_files fs !! tmp_path n = None) → (∀ n, number n → tmp_path n ∉ fs_dirs fs) →
  ∃ es1 w1 es2 w2 r, run (session0 fs) es1 = Some w1 ∧ cl w1 = CSign ∧ toSp w1 = []
    ∧ run w1 es2 = Some w2 ∧ toSp w2 = [r] ∧ ru_Signature r = sig MUploadSign ∧ ru_FileName r = fileName ∧ announces (node_fs w2) r.
Proof.
  intros Hfs Hdirs. set (w0 := session0 fs). assert (session_ok w0) as Hw0 by (apply session0_ok; intros m ? _; by apply Hfs).
  set (w1 := w_cl w0 (CWaiting (KSubscribe MRequestUpload))).
  assert (step w0 EClient = Some w1) as E1 by (cbn [step client_step cl w0 session0]; by rewrite H_auth).
  assert (session_ok w1) as Hw1 by (by apply (step_ok w0 EClient)).
  destruct (step w1 ECall) as [w2|] eqn:E2; [|done]. assert (session_ok w2) as Hw2 by (by apply (step_ok w1 ECall)).
  assert (quiet w2 ∧ rpcUploadDataChan w2 = None ∧ waiting w2
    ∧ fetch w2 = if bool_decide (sliceCount < 1) then FResult (plain_result SUCCESS) ThenSign [] else FAsk 1 0 []) as (Hq & Eb & Hwait & Ef).
  { injection E2 as <-. split; [by split_and!|]. split; [done|]. split; [|done]. exists MRequestUpload, 0. split_and!; [done|done|by apply lookup_insert_eq]. }
  assert (∃ w3 slices, reaches w2 w3 ∧ quiet w3 ∧ waiting w3 ∧ fetch w3 = FResult (plain_result SUCCESS) ThenSign slices) as (w3 & slices & H3 & Hq3 & Hwait3 & Ef3).
  { case_bool_decide; [exists w2, []; split; [apply reaches_refl|done]|]. by apply (slices_done (Z.to_nat (sliceCount - 1)) 1 []); [lia|]. }
  destruct (success_sent slices w3 Hq3 Hwait3 Ef3) as (w4 & w5 & H4 & Hcl & H0 & [es2 H5] & Er).
  assert (reaches w0 w4) as [es Hes] by (eapply reaches_step, reaches_step; [exact E1|exact E2|by eapply reaches_trans]).
  exists es, w4, es2, w5. eexists. split_and!; [done..|exact Er|done|done|]. apply sent_announces; [|rewrite Er; by left].
  apply (run_ok es2 w4); [|done]. by apply (run_ok es w0).
Qed.
End NoFailures.
End Honest.

(** The steps of a session are steps of the hub. *)
Definition waits (c : client) : gset Z := match c with CWaiting (KWait _ ch) => {[ch]} | _ => ∅ end.

Lemma session_uses_hub w e w' : step w e = Some w' → ∃ es, hub_run (mkSessions (hub w) (waits (cl w))) es = Some (mkSessions (hub w') (waits (cl w'))).
Proof.
  assert (∀ w w', hub w' = hub w → waits (cl w') = waits (cl w) → ∃ es, hub_run (mkSessions (hub w) (waits (cl w))) es = Some (mkSessions (hub w') (waits (cl w')))) as Hsame
    by (intros ? ? -> ->; by exists []).
  destruct e; cbn [step].
  - unfold client_step. destruct (cl w) eqn:Ec; try done; intros E; repeat (case_match; simplify_eq; try done); rewrite <- Ec; apply Hsame; try done; by rewrite Ec.
  - unfold call_step. destruct (cl w) as [| |k| | |] eqn:Ec; try done. destruct k as [d fo|fo|m|m ch|m r|]; try done.
    + unfold SendFileDataBack. intros E. rewrite <- Ec. apply Hsame; repeat (case_match; simplify_eq; try done); by rewrite Ec.
    + intros [= <-]. unfold upload_next. rewrite <- Ec. apply Hsame; repeat case_match; try done; by rewrite Ec.
    + destruct (SubscribeRemoteFileEvent (hub w) fileHash) as [[h ch]|] eqn:E; [|done]. intros [= <-]. exists [HSubscribe fileHash]. cbn. rewrite E. cbn.
      rewrite union_empty_r_L. by destruct m.
    + unfold answer. destruct m; [| |intros [= <-]; rewrite <- Ec; apply Hsame; [done|by rewrite Ec]].
      all: destruct (UnsubscribeRemoteFileEvent (hub w) fileHash) as [h|] eqn:E; [|done]; destruct (ResultHook r (uploadOffset w)) as [r' o]; intros [= <-];
        exists [HUnsubscribe fileHash]; cbn; rewrite E; cbn; unfold put_answer; by destruct (r_Return r').
    + unfold send_sign. intros E. rewrite <- Ec. apply Hsame; repeat (case_match; simplify_eq; try done); by rewrite Ec.
  - unfold deliver. destruct (cl w) as [| |k| | |] eqn:Ec; try done. destruct k as [d fo|fo|m|m ch|m r|]; try done.
    destruct (receive (hub w) ch) as [[h r]|] eqn:E; [|done]. intros E'. exists [HDeliver ch]. cbn. rewrite decide_True by set_solver. rewrite E. cbn.
    assert (hub w' = h ∧ waits (cl w') = ∅) as [-> ->] by (cbn in E'; unfold continue in E'; repeat (case_match; simplify_eq; try done)). do 2 f_equal. set_solver.
  - destruct (cl w) as [| |k| | |] eqn:Ec; try done. destruct k as [d fo|fo|m|m ch|m r|]; try done. intros [= <-]. exists [HTimeout ch]. cbn. rewrite decide_True by set_solver. by rewrite difference_diag_L.
  - unfold fetch_step, cache_packet, finish_slice, request_upload, continue.
    destruct (fetch w) as [|n tries sl|n sl|n sl|n sl read off|n sl|r k sl|k sl|sl|sl|sl s|] eqn:Ef; try done.
    + destruct (sliceOffset n) as [a b]. destruct (SetRemoteFileResult _ _ _) as [[h ok]|] eqn:E; [|done]. intros E'. exists [HSet fileHash (mkResult UPLOAD_DATA a b)]. cbn. rewrite E.
      destruct ok; by simplify_eq.
    + intros E. apply Hsame; repeat (case_match; simplify_eq; try done).
    + intros E. apply Hsame; repeat (case_match; simplify_eq; try done).
    + intros E. apply Hsame; repeat (case_match; simplify_eq; try done).
    + destruct (SetRemoteFileResult _ _ _) as [[h ok]|] eqn:E; [|done]. intros E'. exists [HSet fileHash r]. cbn. rewrite E. destruct ok; destruct k; by simplify_eq.
    + intros [= <-]. by apply Hsame.
    + intros E. apply Hsame; repeat (case_match; simplify_eq; try done).
  - destruct (fetch w); try done; intros [= <-]; by apply Hsame.
Qed.

End Session.

(** ** The limit of uploads at the same time

    RequestUpload counts itself and waits when the count has reached the limit; a goroutine
    that ends counts itself off and passes its place to a call that waits.  The channel [wait]
    is unbuffered: a goroutine that nobody waits for stays. *)

Definition MAX_NUMBER_FILE_UPLOAD_AT_SAME_TIME : Z := 20.

Record slots := mkSlots { nfup : Z; at_wait : nat; active : nat; leaving : nat }.
Inductive slot_event := SRequest | SFinish | SPass.

Definition slot_step (s : slots) (e : slot_event) : option slots :=
  match e with
  | SRequest =>
      let n := nfup s + 1 in
      Some (if bool_decide (MAX_NUMBER_FILE_UPLOAD_AT_SAME_TIME ≤ n) then mkSlots n (S (at_wait s)) (active s) (leaving s)
            else mkSlots n (at_wait s) (S (active s)) (leaving s))
  | SFinish => match active s with S a => Some (mkSlots (nfup s - 1) (at_wait s) a (S (leaving s))) | O => None end
  | SPass => match at_wait s, leaving s with S w, S l => Some (mkSlots (nfup s) w (S (active s)) l) | _, _ => None end
  end.

Fixpoint slot_run (s : slots) (es : list slot_event) : option slots :=
  match es with [] => Some s | e :: es => match slot_step s e with Some s => slot_run s es | None => None end end.

Definition slots0 : slots := mkSlots 0 0 0 0.

Lemma slot_run_app es1 es2 s : slot_run s (es1 ++ es2) = match slot_run s es1 with Some s => slot_run s es2 | None => None end.
Proof. revert s. induction es1 as [|e es1 IH]; intros s; cbn; [done|]. destruct (slot_step s e); [apply IH|done]. Qed.

(** What the counters count. *)
Lemma slots_counted es : ∀ s s', slot_run s es = Some s' → nfup s = Z.of_nat (active s + at_wait s) → nfup s' = Z.of_nat (active s' + at_wait s').
Proof.
  induction es as [|e es IH]; intros s s'; cbn; [by intros [= <-]|]. destruct (slot_step s e) as [s1|] eqn:E; [|done]. intros Hr Hn. apply (IH s1); [done|].
  destruct s as [n w a l], e; cbn in *.
  - injection E as <-. case_bool_decide; cbn; lia.
  - destruct a; [done|]. injection E as <-. cbn. lia.
  - destruct w, l; try done. injection E as <-. cbn. lia.
Qed.

Lemma finished_uploads_stay k : ∀ l, slot_run (mkSlots 0 0 0 l) (concat (replicate k [SRequest; SFinish])) = Some (mkSlots 0 0 0 (k + l)).
Proof. induction k as [|k IH]; intros l; [done|]. cbn [replicate concat app]. change (slot_run (mkSlots 0 0 0 (S l)) (concat (replicate k [SRequest; SFinish])) = Some (mkSlots 0 0 0 (S k + l))). rewrite IH. do 2 f_equal. lia. Qed.

Lemma places_are_passed k : ∀ n a l, 19 ≤ n →
  slot_run (mkSlots n 0 a (k + l)) (concat (replicate k [SRequest; SPass])) = Some (mkSlots (n + Z.of_nat k) 0 (a + k) l).
Proof.
  induction k as [|k IH]; intros n a l Hn. { cbn. by rewrite Z.add_0_r, Nat.add_0_r. }
  cbn [replicate concat app slot_run slot_step nfup at_wait active leaving]. rewrite bool_decide_eq_true_2 by (unfold MAX_NUMBER_FILE_UPLOAD_AT_SAME_TIME; lia).
  cbn [slot_step at_wait leaving Nat.add nfup active]. rewrite IH by lia. do 2 f_equal; lia.
Qed.

(** The limit is not kept: every upload that has ended without a call waiting leaves a
    goroutine that lets one call over the limit pass, so after k uploads 19 + k can be active
    at the same time, with none waiting. *)
Theorem upload_limit_is_not_kept (k : nat) :
  ∃ es s, slot_run slots0 es = Some s ∧ active s = (19 + k)%nat ∧ at_wait s = 0%nat.
Proof.
  exists (concat (replicate k [SRequest; SFinish]) ++ replicate 19 SRequest ++ concat (replicate k [SRequest; SPass])).
  eexists. rewrite slot_run_app. unfold slots0. rewrite finished_uploads_stay, slot_run_app, Nat.add_0_r.
  assert (slot_run (mkSlots 0 0 0 k) (replicate 19 SRequest) = Some (mkSlots 19 0 19 k)) as -> by (vm_compute; reflexivity).
  replace k with (k + 0)%nat at 1 by lia. rewrite places_are_passed by lia. done.
Qed.

(** ** A file of ten bytes in three slices *)

Module RpcUploadDemo.

(** A toy hash: number and data of the slice, padded. *)
Definition toy_hash : HashLib := {|
  cid_Hash := fun _ => replicate 20 Byte.x00;
  mh_Sum := fun b => take 20 (b ++ replicate 20 Byte.x00);
  cid_String := fun b => "v" +:+ bytes_string b
|}.

Definition no_err (c : syscall) (p : string) : bool := false.
Definition data : bytes := string_bytes "ABCDEFGHIJ".
Definition names (n : Z) : string := match n with 1 => "u1" | 2 => "u2" | _ => "u3" end.
Definition signed (m : method) : SignatureInfo := mkSig "st1" "stpub1" "00" "1" 0.
Definition client_files : FS := mkFS {["/home/a.txt" := data]} ∅.
Definition node_files : FS := mkFS ∅ ∅.
Definition yes2 (a b : string) : bool := true.
Definition yes3 (a b c : string) : bool := true.
Definition yes (a : string) : bool := true.
Definition message (a b c : string) (t : Z) : string := a.

Abbreviation demo_run := (run (HL := toy_hash) no_err "/sds" yes2 yes3 message yes yes 4 3 "file" "a.txt" 10 signed names no_err "/home/a.txt" client_files).
Abbreviation demo_path := (tmp_path "/sds" "file" names).

Lemma small_numbers n : number 4 10 n → n = 1 ∨ n = 2 ∨ n = 3.
Proof. unfold number, sliceCount. change ((10 + 4 - 1) / 4) with 3. lia. Qed.

Ltac small := repeat match goal with H : number 4 10 _ |- _ => apply small_numbers in H; destruct H as [-> | [-> | ->]] end.

Lemma session_can_complete_witness : ∃ es1 w1 es2 w2 r, demo_run (session0 node_files) es1 = Some w1 ∧ cl w1 = CSign ∧ toSp w1 = []
  ∧ demo_run w1 es2 = Some w2 ∧ toSp w2 = [r] ∧ ru_Signature r = signed MUploadSign ∧ ru_FileName r = "a.txt"
  ∧ announces (HL := toy_hash) "/sds" 4 "file" 10 data (node_fs w2) r.
Proof.
  apply (@session_can_complete toy_hash no_err "/sds" yes2 yes3 message yes yes 4 3 "file" "a.txt" 10 signed names no_err "/home/a.txt" client_files data);
    try reflexivity; try (split; lia); try (split_and!; lia).
  - intros m n Hm Hn E. small; try reflexivity; vm_compute in E; discriminate E.
  - intros m n h Hm Hn. small; vm_compute; intros [= <-]; discriminate.
  - intros i j h h' Hi Hj. assert (j ≤ 3) by exact Hj. assert (i = 1 ∧ j = 2 ∨ i = 1 ∧ j = 3 ∨ i = 2 ∧ j = 3) as [[-> ->]|[[-> ->]|[-> ->]]] by lia;
      vm_compute; intros [= <-] [= <-]; discriminate.
  - intros n Hn. change (number 4 10 n) in Hn. small; eexists; vm_compute; reflexivity.
  - intros n Hn. small; vm_compute; discriminate.
  - intros n _. apply not_elem_of_empty.
Defined.

Definition schedule : list event :=
  let part_of_slice := [EClient; ECall; EFetch; ECall] in
  let ask := [EFetch; EDeliver; EFetch; EFetch; ECall] in
  [EClient; ECall] ++ ask ++ part_of_slice ++ part_of_slice ++ [ECall; EFetch]
  ++ ask ++ part_of_slice ++ part_of_slice ++ [ECall; EFetch]
  ++ ask ++ part_of_slice ++ [ECall; EFetch]
  ++ [EFetch; EDeliver; EFetch; ECall; EClient; ECall; EFetch].

Definition final : world := match demo_run (session0 node_files) schedule with Some w => w | None => session0 node_files end.

Lemma announced_slices_are_the_file_witness :
  (∀ s e, cl final = CAsked s e → 0 ≤ s ≤ e ∧ e ≤ 10 ∧ e - s ≤ 3)
  ∧ ∀ r, r ∈ toSp final → ru_FileHash r = "file" ∧ ru_FileSize r = 10
    ∧ ∃ parts, concat parts = data
      ∧ sh_SliceNumber <$> ru_Slices r = seqZ 1 (sliceCount 4 10)
      ∧ Forall2 (fun p s =>
          CalcSliceHash (H := toy_hash) p "file" (sh_SliceNumber s) = Ok (sh_SliceHash s)
          ∧ sh_SliceSize s = zlen p ∧ p = take (Z.to_nat (sh_End s - sh_Start s)) (drop (Z.to_nat (sh_Start s)) data)
          ∧ zlen p ≤ 4 ∧ fs_files (node_fs final) !! slice_path "/sds" "file" (sh_SliceHash s) = Some p) parts (ru_Slices r).
Proof.
  apply (@announced_slices_are_the_file toy_hash no_err "/sds" yes2 yes3 message yes yes 4 3 "file" "a.txt" 10 signed names no_err "/home/a.txt" client_files data)
    with (fs := node_files) (es := schedule) (w := final).
  - reflexivity.
  - reflexivity.
  - split_and!; lia.
  - intros m n Hm Hn E. small; try reflexivity; vm_compute in E; discriminate E.
  - intros m n h Hm Hn. small; vm_compute; intros [= <-]; discriminate.
  - intros i j h h' Hi Hj. assert (j ≤ 3) by exact Hj. assert (i = 1 ∧ j = 2 ∨ i = 1 ∧ j = 3 ∨ i = 2 ∧ j = 3) as [[-> ->]|[[-> ->]|[-> ->]]] by lia;
      vm_compute; intros [= <-] [= <-]; discriminate.
  - intros n _. apply lookup_empty.
  - vm_compute. reflexivity.
Defined.

(** There is a request in the end. *)
Lemma final_sent : length (toSp final) = 1%nat.
Proof. vm_compute. reflexivity. Qed.

(** The client answers before the goroutine has opened its channel: the data is dropped, and
    the session fails although every part did what it should. *)
Example early_data_is_lost :
  (fun w => (fetch w, cl w, toSp w)) <$> demo_run (session0 node_files)
    [EClient; ECall; EFetch; EDeliver; ECall; EClient; ECall; ECall; EFetch; EFetch; EClient; ECall; EFetch; ECall; ECall; ECallTimeout]
  = Some (FEnd, CDone TIME_OUT, []).
Proof. vm_compute. reflexivity. Qed.

(** A call of one file times out, and its result comes when a call of another file waits. *)
Lemma timed_out_call_blocks_all_sessions_witness : ∃ s1 s2,
  hub_run (mkSessions hub0 ∅) ([HSubscribe "file"] ++ HTimeout 0 :: [HSubscribe "other"]) = Some s1
  ∧ hub_run s1 [HSet "file" (plain_result SUCCESS); HTimeout 1] = Some s2
  ∧ shared s2 = mkHub (rpcFileEventChan (shared s1)) (nextChan (shared s1)) (Some (0, plain_result SUCCESS)) ∧ blocked s2.
Proof.
  eexists _, _. split; [vm_compute; reflexivity|]. split; [vm_compute; reflexivity|].
  eapply (timed_out_call_blocks_all_sessions [HSubscribe "file"] 0 [HSubscribe "other"] _ "file" (plain_result SUCCESS) [HTimeout 1]); vm_compute; reflexivity.
Defined.

End RpcUploadDemo.
