(* ===== verification/RpcDownload.v ===== *)
(** * RpcDownload: downloads through the RPC interface

    Models the reading of a file that is being downloaded, slice by slice in the order in which
    they come in: UpdateDownloadSlices, WaitDownloadSlice, CheckRemoteFileDownloadComplete and
    NextRemoteDownloadPacket (pp/file/file.go), SaveDownloadedFileData and SaveDownloadProgress
    as the download task calls them, DownloadData, DownloadedFileInfo and the end of
    RequestDownload (pp/namespace/api.go), and the client, get of
    example/rpcclient/rpc_client.go.

    A session has one file and one request id.  The information about the file is stored
    before the first call.  [SlicesToDownload] holds pointers, which the copies of the record
    share; the record is always stored back, so the slices are kept by value, and
    [CurrentSlice] is the index of one.  A call that waits for a slice is in [Waiting] until
    SaveDownloadProgress finds its channel; a call up to that point is one step.  A slice that
    cannot be saved is not a step.  Base64 and JSON are left out. *)
From S2P Require Import Prelude Paths Storage.

Record DownloadFileSlice := mkDFS { CurrentSlice : option nat; CurrentSliceOffset : Z; SlicesToDownload : list DownloadSlice }.
Definition no_slices : DownloadFileSlice := mkDFS None 0 [].

(** What a call of NextRemoteDownloadPacket gives. *)
Inductive packet := Packet (data : option bytes) (start stop : Z) (finished : bool) | Blocked | PacketPanic.

Inductive Answer := A_DOWNLOAD_OK (start stop : Z) (data : bytes) | A_DL_OK_ASK_INFO | A_SUCCESS | A_FILE_REQ_FAILURE | A_GENERIC_ERR.

Inductive getter := GRequest | GData | GInfo | GWaiting (first : bool) | GDone (r : Answer) | GFailed.

Record dworld := mkD {
  downloadEntry : option DownloadFileSlice;
  csvFile : list string;
  dfs : FS;
  clientFile : bytes;
  get_state : getter
}.

(** A call of the client; the task saves a slice, or records it; and another result for the
    file, which query_file_info.go sets when the SP answers.  [readable] tells whether the
    CSV file can be opened and read then, [written] whether the line gets into it. *)
Inductive devent :=
  | DCall (readable : bool)
  | DSave (i : nat)
  | DProgress (i : nat) (written readable : bool)
  | DWake (ok readable : bool).

Section Download.
Context (io_err : syscall → string → bool) (rootPath : string) (MaxData : Z).
Context (fileHash : string) (fi : DownloadFile).
(** The data that the download task gets for a slice. *)
Context (slice_data : DownloadSlice → bytes).

Definition filePath : string := GetDownloadTmpFilePath rootPath fileHash (df_FileName fi).

(** ** The slices that are there *)

Definition new_slice (s : DownloadSlice) : DownloadSlice := mkDownloadSlice (SliceHash s) (SliceFileOffset s) (SliceSize s) false.

(** One line of the CSV file. *)
Definition add_line (st : list DownloadSlice * bool) (line : string) : list DownloadSlice * bool :=
  let '(known, updated) := st in
  if existsb (fun s => bool_decide (SliceHash s = line)) known then st
  else (known ++ map new_slice (filter (fun s => SliceHash s = line) (df_Slices fi)), true).

(** rangeCsvFile goes over no line when the file cannot be opened or read; nobody looks at its
    result. *)
Definition rangeCsvFile (readable : bool) (csv : list string) : list string := if readable then csv else [].

Definition UpdateDownloadSlices (readable : bool) (d : DownloadFileSlice) (csv : list string) : DownloadFileSlice * bool :=
  let '(known, updated) := foldl add_line (SlicesToDownload d, false) (rangeCsvFile readable csv) in
  (mkDFS (CurrentSlice d) (CurrentSliceOffset d) known, updated).

Definition CheckRemoteFileDownloadComplete (d : DownloadFileSlice) : bool :=
  bool_decide (foldl (fun size s => if Handled s then u64 (size + SliceSize s) else size) 0 (SlicesToDownload d) = df_FileSize fi).

(** The first slice that has not been handled becomes the current one. *)
Fixpoint first_unhandled (i : nat) (l : list DownloadSlice) : option (nat * DownloadSlice) :=
  match l with
  | [] => None
  | s :: l => if Handled s then first_unhandled (S i) l else Some (i, s)
  end.

Definition handled (s : DownloadSlice) : DownloadSlice := mkDownloadSlice (SliceHash s) (SliceFileOffset s) (SliceSize s) true.

Definition chooseCurrentSlice (d : DownloadFileSlice) : DownloadFileSlice * bool :=
  match first_unhandled 0 (SlicesToDownload d) with
  | Some (i, s) => (mkDFS (Some i) (SliceFileOffset s) (<[i := handled s]> (SlicesToDownload d)), true)
  | None => (d, false)
  end.

Definition current (d : DownloadFileSlice) : option DownloadSlice := i ← CurrentSlice d; SlicesToDownload d !! i.

Definition needs_slice (d : DownloadFileSlice) : bool :=
  match current d with
  | None => true
  | Some s => bool_decide (CurrentSliceOffset d = u64 (SliceSize s + SliceFileOffset s))
  end.

(** The next packet of the current slice. *)
Definition read_packet (d : DownloadFileSlice) (fs : FS) : packet * DownloadFileSlice :=
  match current d with
  | None => (PacketPanic, d)
  | Some s =>
      let start := CurrentSliceOffset d in
      let sliceEnd := u64 (SliceFileOffset s + SliceSize s) in
      match fst (GetFileInfo io_err filePath fs) with
      | Ok size =>
          if bool_decide (size ≤ start) then (Packet None start 0 true, d)
          else
            let stop := if bool_decide (u64 (start + MaxData) < sliceEnd) then u64 (start + MaxData) else sliceEnd in
            match fst (GetFileData io_err filePath start stop fs) with
            | Ok data => (Packet (Some data) start stop false, mkDFS (CurrentSlice d) stop (SlicesToDownload d))
            | Err _ => (Packet None start stop false, d)
            | Panic _ => (PacketPanic, d)
            end
      | _ => (Packet None start 0 false, d)
      end
  end.

(** NextRemoteDownloadPacket: the call waits when there is no new slice and the file is not
    complete. *)
Definition NextRemoteDownloadPacket (readable : bool) (w : dworld) : packet * DownloadFileSlice :=
  let d := default no_slices (downloadEntry w) in
  if negb (needs_slice d) then read_packet d (dfs w)
  else
    let '(d, found) := chooseCurrentSlice d in
    if found then read_packet d (dfs w)
    else
      let '(d, updated) := UpdateDownloadSlices readable d (csvFile w) in
      if updated then let '(d, _) := chooseCurrentSlice d in read_packet d (dfs w)
      else if CheckRemoteFileDownloadComplete d then (Packet None 0 0 true, d)
      else (Blocked, d).

(** The rest of the call after a result has come on its channel. *)
Definition resume (ok readable : bool) (w : dworld) : packet * DownloadFileSlice :=
  let d := default no_slices (downloadEntry w) in
  let d := if ok then fst (UpdateDownloadSlices readable d (csvFile w)) else d in
  let '(d, _) := chooseCurrentSlice d in read_packet d (dfs w).

(** ** The API and the client *)

(** RequestDownload, from the point where the first slice is announced, and DownloadData. *)
Definition api_answer (first : bool) (p : packet) : option Answer :=
  match p with
  | Packet (Some data) start stop finished =>
      if finished && negb first then Some A_DL_OK_ASK_INFO else Some (A_DOWNLOAD_OK start stop data)
  | Packet None _ _ finished =>
      if first then Some A_FILE_REQ_FAILURE else if finished then Some A_DL_OK_ASK_INFO else Some A_GENERIC_ERR
  | _ => None
  end.

(** What the client does with an answer: the file it writes to and its next call. *)
Definition get_answer (file : bytes) (a : Answer) : bytes * getter :=
  match a with
  | A_DOWNLOAD_OK start stop data =>
      if bool_decide (zlen data = i64 (u64 (stop - start))) then (write_at file (Z.to_nat start) data, GData) else (file, GFailed)
  | A_DL_OK_ASK_INFO => (file, GInfo)
  | a => (file, GDone a)
  end.

Definition answered (w : dworld) (first : bool) (p : packet * DownloadFileSlice) : dworld :=
  let '(p, d) := p in
  match p with
  | Blocked => mkD (Some d) (csvFile w) (dfs w) (clientFile w) (GWaiting first)
  | _ =>
      match api_answer first p with
      | Some a => let '(file, g) := get_answer (clientFile w) a in mkD (Some d) (csvFile w) (dfs w) file g
      | None => mkD (Some d) (csvFile w) (dfs w) (clientFile w) GFailed
      end
  end.

(** ** The download task *)

(** A file that cannot be opened is tried again after its folder has been made. *)
Definition SaveDownloadedFileData (data : bytes) (offset : Z) : M unit :=
  let fileName := if bool_decide (df_FileName fi = "") then fileHash else df_FileName fi in
  let tmpFilePath := GetDownloadTmpFilePath rootPath fileHash fileName in
  f ← catch (open_create io_err tmpFilePath);
  f ← match f with
      | Some f => mret f
      | None => CreateFolderAndReopenFile io_err (getDownloadTmpFolderPath rootPath fileHash) (fileName +:+ ".tmp")
      end;
  WriteFile io_err tmpFilePath f data offset.

(** SetDownloadSliceResult: a call that waits goes on. *)
Definition SetDownloadSliceResult (ok readable : bool) (w : dworld) : dworld :=
  match get_state w with
  | GWaiting first => answered w first (resume ok readable w)
  | _ => w
  end.

(** SaveDownloadProgress: a line in the CSV file, when it can be opened and written (a line is
    written whole or not at all), and a result in any case. *)
Definition SaveDownloadProgress (written readable : bool) (w : dworld) (hash : string) : dworld :=
  SetDownloadSliceResult true readable
    (mkD (downloadEntry w) (csvFile w ++ (if written then [hash] else [])) (dfs w) (clientFile w) (get_state w)).

Definition dstep (w : dworld) (e : devent) : option dworld :=
  match e with
  | DCall readable =>
      match get_state w with
      | GRequest => Some (answered w true (NextRemoteDownloadPacket readable w))
      | GData => Some (answered w false (NextRemoteDownloadPacket readable w))
      | GInfo => Some (mkD (downloadEntry w) (csvFile w) (dfs w) (clientFile w) (GDone A_SUCCESS))
      | _ => None
      end
  | DSave i =>
      match df_Slices fi !! i with
      | Some s =>
          match SaveDownloadedFileData (slice_data s) (SliceFileOffset s) (dfs w) with
          | (Ok _, fs) => Some (mkD (downloadEntry w) (csvFile w) fs (clientFile w) (get_state w))
          | _ => None
          end
      | None => None
      end
  | DProgress i written readable =>
      match df_Slices fi !! i with
      | Some s => Some (SaveDownloadProgress written readable w (SliceHash s))
      | None => None
      end
  | DWake ok readable => Some (SetDownloadSliceResult ok readable w)
  end.

Fixpoint drun (w : dworld) (es : list devent) : option dworld :=
  match es with
  | [] => Some w
  | e :: es => match dstep w e with Some w => drun w es | None => None end
  end.

Definition start_download (fs : FS) : dworld := mkD None [] fs [] GRequest.

(** ** The client gets the file

    The slices of the file cover [content], and the task gets the right data for each. *)

Section Whole.
Context (content : bytes).

Definition in_slice (s : DownloadSlice) (j : nat) : Prop := SliceFileOffset s ≤ Z.of_nat j < SliceFileOffset s + SliceSize s.
Definition slice_of_content (s : DownloadSlice) : Prop :=
  0 ≤ SliceFileOffset s ∧ 0 < SliceSize s ∧ SliceFileOffset s + SliceSize s ≤ zlen content
  ∧ slice_data s = take (Z.to_nat (SliceSize s)) (drop (Z.to_nat (SliceFileOffset s)) content).
Definition total (l : list DownloadSlice) : Z := foldr (fun s z => SliceSize s + z) 0 l.

Context (H_slices : Forall slice_of_content (df_Slices fi)) (H_hashes : NoDup (SliceHash <$> df_Slices fi)).
Context (H_cover : ∀ j, (j < length content)%nat → ∃ s, s ∈ df_Slices fi ∧ in_slice s j).
Context (H_total : total (df_Slices fi) = zlen content) (H_fileSize : df_FileSize fi = zlen content).
Context (H_bounds : 0 < MaxData ≤ 2 ^ 40 ∧ zlen content < 2 ^ 62) (H_name : df_FileName fi ≠ EmptyString).

(** A schedule in which the task records each slice once, after it has saved it, with nothing
    refused for the CSV file, and no other result is set; with [reads] the calls of the client
    can read the CSV file, too. *)
Fixpoint orderly (reads : bool) (saved recorded : gset nat) (es : list devent) : Prop :=
  match es with
  | [] => True
  | DCall readable :: es => (reads = true → readable = true) ∧ orderly reads saved recorded es
  | DSave i :: es => orderly reads ({[i]} ∪ saved) recorded es
  | DProgress i written readable :: es =>
      written = true ∧ readable = true ∧ (i ∈ saved) ∧ (i ∉ recorded) ∧ orderly reads saved ({[i]} ∪ recorded) es
  | DWake _ _ :: es => False
  end.

(** What a slice is, but for being handled. *)
Definition slice_key (s : DownloadSlice) : string * Z * Z := (SliceHash s, SliceFileOffset s, SliceSize s).
Definition tmp_file (w : dworld) : bytes := default [] (fs_files (dfs w) !! filePath).

(** The files and records of the task. *)
Record task_ok (saved recorded : gset nat) (w : dworld) : Prop := {
  to_length : (length (tmp_file w) ≤ length content)%nat;
  to_saved : ∀ i s j, i ∈ saved → df_Slices fi !! i = Some s → in_slice s j → tmp_file w !! j = content !! j;
  to_recorded : recorded ⊆ saved;
  to_csv : ∀ h, h ∈ csvFile w ↔ ∃ i s, i ∈ recorded ∧ df_Slices fi !! i = Some s ∧ SliceHash s = h
}.

(** The cursor of the session. *)
Record cursor_ok (csv : list string) (d : DownloadFileSlice) : Prop := {
  co_known : ∀ k, k ∈ SlicesToDownload d → SliceHash k ∈ csv ∧ ∃ s, s ∈ df_Slices fi ∧ slice_key k = slice_key s;
  co_nodup : NoDup (SliceHash <$> SlicesToDownload d);
  co_current : ∀ i, CurrentSlice d = Some i → ∃ s, SlicesToDownload d !! i = Some s ∧ Handled s = true
    ∧ SliceFileOffset s ≤ CurrentSliceOffset d ≤ SliceFileOffset s + SliceSize s
}.

(** The bytes that have been read. *)
Definition delivered (d : DownloadFileSlice) (j : nat) : Prop :=
  ∃ i s, SlicesToDownload d !! i = Some s ∧ Handled s = true
    ∧ SliceFileOffset s ≤ Z.of_nat j < (if bool_decide (CurrentSlice d = Some i) then CurrentSliceOffset d else SliceFileOffset s + SliceSize s).

Definition all_handled (d : DownloadFileSlice) : Prop := Forall (fun s => Handled s = true) (SlicesToDownload d) ∧ needs_slice d = true.

(** Some call of the system fails. *)
Definition refused : Prop := ∃ c p, io_err c p = true.

Record download_ok (reads : bool) (saved recorded : gset nat) (w : dworld) : Prop := {
  wo_task : task_ok saved recorded w;
  wo_cursor : cursor_ok (csvFile w) (default no_slices (downloadEntry w));
  wo_client : agrees content (clientFile w) (delivered (default no_slices (downloadEntry w)));
  wo_state : match get_state w with
    | GRequest => downloadEntry w = None
    | GData => True
    | GWaiting _ => let d := default no_slices (downloadEntry w) in
        all_handled d ∧ (reads = true → ∀ h, h ∈ csvFile w → h ∈ SliceHash <$> SlicesToDownload d) ∧ CheckRemoteFileDownloadComplete d = false
    | GInfo | GDone A_SUCCESS => clientFile w = content
    | GDone _ | GFailed => refused ∨ content = []
    end
}.

Lemma key_bounds k s : s ∈ df_Slices fi → slice_key k = slice_key s → 0 ≤ SliceFileOffset k ∧ 0 < SliceSize k ∧ SliceFileOffset k + SliceSize k ≤ zlen content.
Proof. intros Hs [= _ E1 E2]. apply (proj1 (list.Forall_forall _ _) H_slices) in Hs as (? & ? & ? & _). rewrite E1, E2. lia. Qed.

Lemma key_in_slice k s j : slice_key k = slice_key s → in_slice k j → in_slice s j.
Proof. intros [= _ E1 E2]. unfold in_slice. by rewrite E1, E2. Qed.

(** The current slice of a good cursor. *)
Lemma current_some csv d : cursor_ok csv d → match CurrentSlice d with Some i => ∃ s, current d = Some s | None => current d = None end.
Proof. intros Hd. unfold current. destruct (CurrentSlice d) as [i|] eqn:E; [|done]. destruct (co_current _ _ Hd i E) as (s & Hs & _). cbn. by exists s. Qed.

Lemma delivered_bound csv d j : cursor_ok csv d → delivered d j → (j < length content)%nat.
Proof.
  intros Hd (i & s & Hs & _ & Hj). assert (s ∈ SlicesToDownload d) as Hin by (by eapply list_elem_of_lookup_2).
  destruct (co_known _ _ Hd s Hin) as [_ (s' & Hs' & Ek)]. pose proof (key_bounds s s' Hs' Ek). unfold zlen in *.
  case_bool_decide as Hc; [destruct (co_current _ _ Hd i Hc) as (s2 & Hs2 & _ & Hb); rewrite Hs in Hs2; injection Hs2 as <-|]; lia.
Qed.

(** *** New slices *)

Definition known_of (csv : list string) (l : list DownloadSlice) : Prop :=
  (∀ k, k ∈ l → SliceHash k ∈ csv ∧ ∃ s, s ∈ df_Slices fi ∧ slice_key k = slice_key s) ∧ NoDup (SliceHash <$> l).

Lemma hash_inj s s' : s ∈ df_Slices fi → s' ∈ df_Slices fi → SliceHash s = SliceHash s' → s = s'.
Proof.
  intros [i Hi]%list_elem_of_lookup [i' Hi']%list_elem_of_lookup E.
  assert (i = i') as <- by (eapply (NoDup_lookup _ _ _ (SliceHash s)); [exact H_hashes|by rewrite list_lookup_fmap, Hi|by rewrite list_lookup_fmap, Hi', E]).
  congruence.
Qed.

(** The slices with a given hash are one slice. *)
Lemma filter_no_hash h l : (∀ y, y ∈ l → SliceHash y ≠ h) → filter (fun x => SliceHash x = h) l = [].
Proof.
  induction l as [|x l IH]; [done|]. intros H. rewrite filter_cons, decide_False by (apply H; by left). apply IH. intros y Hy. apply H. by right.
Qed.

Lemma filter_hash s l : NoDup (SliceHash <$> l) → s ∈ l → filter (fun x => SliceHash x = SliceHash s) l = [s].
Proof.
  induction l as [|x l IH]; [by intros _ ?%elem_of_nil|]. cbn [fmap list_fmap]. intros [Hx Hnd]%list.NoDup_cons Hs.
  assert (∀ y, y ∈ l → SliceHash y ≠ SliceHash x) as Hin by (intros y Hy E; apply Hx; rewrite <- E; by apply list_elem_of_fmap_2).
  rewrite filter_cons. apply elem_of_cons in Hs as [->|Hs].
  - rewrite decide_True by done. f_equal. by apply filter_no_hash.
  - rewrite decide_False by (apply not_eq_sym; by apply Hin). by apply IH.
Qed.

Lemma existsb_hash h l : existsb (fun s => bool_decide (SliceHash s = h)) l = bool_decide (h ∈ SliceHash <$> l).
Proof.
  apply eq_true_iff_eq. rewrite existsb_exists, bool_decide_eq_true, list_elem_of_fmap. split.
  - intros (s & Hs & E%bool_decide_eq_true). exists s. split; [done|]. by apply list_elem_of_In.
  - intros (s & -> & Hs). exists s. split; [by apply list_elem_of_In|]. by apply bool_decide_eq_true.
Qed.

(** What the lines of the CSV file add. *)
Lemma add_lines csv lines : (∀ h, h ∈ csv → ∃ s, s ∈ df_Slices fi ∧ SliceHash s = h) → ∀ known u, known_of csv known → lines ⊆ csv →
  ∃ ext, foldl add_line (known, u) lines = (known ++ ext, u || bool_decide (ext ≠ []))
    ∧ known_of csv (known ++ ext) ∧ Forall (fun s => Handled s = false) ext ∧ ∀ h, h ∈ lines → h ∈ SliceHash <$> known ++ ext.
Proof.
  intros Hcsv. induction lines as [|h lines IH]; intros known u Hk Hsub; cbn [foldl].
  { exists []. rewrite app_nil_r. split_and!; try done; [by rewrite bool_decide_eq_false_2, orb_false_r by (by intros [])|by intros h ?%elem_of_nil]. }
  assert (h ∈ csv ∧ lines ⊆ csv) as [Hhc Hsub'] by (split; [apply Hsub; by left|intros x Hx; apply Hsub; by right]).
  unfold add_line at 2. rewrite existsb_hash. case_bool_decide as Hh.
  - destruct (IH known u Hk Hsub') as (ext & E & H1 & H2 & H3). exists ext. split_and!; try done.
    intros h' [->|Hh']%elem_of_cons; [|by apply H3]. rewrite fmap_app. apply elem_of_app. by left.
  - destruct (Hcsv h Hhc) as (s & Hs & <-). rewrite (filter_hash s _ H_hashes Hs). cbn [map].
    assert (known_of csv (known ++ [new_slice s])) as Hk'.
    { destruct Hk as [Hk Hnd]. split.
      - intros k [Hin|Hin]%elem_of_app; [by apply Hk|]. apply list_elem_of_singleton in Hin as ->. split; [done|]. by exists s.
      - rewrite fmap_app. apply list.NoDup_app. split_and!; [done| |cbn; apply list.NoDup_singleton]. intros x Hx Hx'. cbn in Hx'. apply list_elem_of_singleton in Hx' as ->. done. }
    destruct (IH (known ++ [new_slice s]) true Hk' Hsub') as (ext & E & H1 & H2 & H3). exists (new_slice s :: ext).
    rewrite E, <- app_assoc. cbn [app] in *. rewrite <- app_assoc in H1, H3. cbn [app] in H1, H3. split_and!; try done.
    + rewrite (bool_decide_eq_true_2 (new_slice s :: ext ≠ [])) by done. by rewrite orb_true_r.
    + by constructor.
    + intros h' [->|Hh']%elem_of_cons; [|by apply H3]. rewrite fmap_app. apply elem_of_app. right. cbn. by left.
Qed.

Lemma update_ok csv d : (∀ h, h ∈ csv → ∃ s, s ∈ df_Slices fi ∧ SliceHash s = h) → cursor_ok csv d →
  ∃ ext, UpdateDownloadSlices true d csv = (mkDFS (CurrentSlice d) (CurrentSliceOffset d) (SlicesToDownload d ++ ext), bool_decide (ext ≠ []))
    ∧ cursor_ok csv (mkDFS (CurrentSlice d) (CurrentSliceOffset d) (SlicesToDownload d ++ ext))
    ∧ Forall (fun s => Handled s = false) ext ∧ ∀ h, h ∈ csv → h ∈ SliceHash <$> SlicesToDownload d ++ ext.
Proof.
  intros Hcsv [H1 H2 H3]. destruct (add_lines csv csv Hcsv (SlicesToDownload d) false) as (ext & E & [H4 H5] & H6 & H7); [by split|done|].
  exists ext. unfold UpdateDownloadSlices, rangeCsvFile. rewrite E. split_and!; try done. split; try done. cbn. intros i Hi.
  destruct (H3 i Hi) as (s & Hs & ?). exists s. split; [|done]. by apply lookup_app_l_Some.
Qed.

(** New slices are not delivered, and those that were stay. *)
Lemma delivered_ext d ext j : Forall (fun s => Handled s = false) ext →
  delivered (mkDFS (CurrentSlice d) (CurrentSliceOffset d) (SlicesToDownload d ++ ext)) j ↔ delivered d j.
Proof.
  intros Hext. unfold delivered. cbn. split.
  - intros (i & s & Hs & Hh & Hj). exists i, s. split; [|done]. apply lookup_app_Some in Hs as [Hs|[_ Hs]]; [done|].
    apply (proj1 (list.Forall_forall _ _) Hext) in Hs || (apply list_elem_of_lookup_2 in Hs; apply (proj1 (list.Forall_forall _ _) Hext) in Hs). congruence.
  - intros (i & s & Hs & Hh & Hj). exists i, s. split; [by apply lookup_app_l_Some|done].
Qed.

(** *** Choosing *)

Lemma first_unhandled_spec l : ∀ i, match first_unhandled i l with
  | Some (n, s) => (i ≤ n)%nat ∧ l !! (n - i)%nat = Some s ∧ Handled s = false
  | None => Forall (fun s => Handled s = true) l
  end.
Proof.
  induction l as [|s l IH]; intros i; cbn [first_unhandled]; [constructor|]. destruct (Handled s) eqn:Eh.
  - specialize (IH (S i)). destruct (first_unhandled (S i) l) as [[n s']|]; [|by constructor]. destruct IH as (H1 & H2 & H3). split; [lia|].
    replace (n - i)%nat with (S (n - S i)) by lia. done.
  - rewrite Nat.sub_diag. split_and!; [lia|done|done].
Qed.

Lemma choose_none d d' : chooseCurrentSlice d = (d', false) → d' = d ∧ Forall (fun s => Handled s = true) (SlicesToDownload d).
Proof.
  unfold chooseCurrentSlice. pose proof (first_unhandled_spec (SlicesToDownload d) 0) as H. destruct (first_unhandled 0 (SlicesToDownload d)) as [[i s]|]; [done|]. by intros [= <-].
Qed.

Lemma choose_ext d ext d' : ext ≠ [] → Forall (fun s => Handled s = false) ext → chooseCurrentSlice (mkDFS (CurrentSlice d) (CurrentSliceOffset d) (SlicesToDownload d ++ ext)) ≠ (d', false).
Proof. intros Hne Hext [_ [_ H]%Forall_app]%choose_none. destruct ext as [|x ext]; [done|]. inversion H. inversion Hext. congruence. Qed.

Lemma fmap_insert_same {B} (f : DownloadSlice → B) (l : list DownloadSlice) (i : nat) s s' : l !! i = Some s → f s' = f s → f <$> <[i := s']> l = f <$> l.
Proof.
  intros Hi E. rewrite list_fmap_insert, E. apply list_insert_id. by rewrite list_lookup_fmap, Hi.
Qed.

(** A slice that is chosen is taken from its beginning; nothing is delivered by that. *)
Lemma choose_ok csv d d' : cursor_ok csv d → needs_slice d = true → chooseCurrentSlice d = (d', true) →
  cursor_ok csv d' ∧ (∀ j, delivered d' j ↔ delivered d j) ∧ SliceHash <$> SlicesToDownload d' = SliceHash <$> SlicesToDownload d
  ∧ ∃ i s, CurrentSlice d' = Some i ∧ SlicesToDownload d' !! i = Some s ∧ CurrentSliceOffset d' = SliceFileOffset s.
Proof.
  intros Hd Hneed. unfold chooseCurrentSlice. pose proof (first_unhandled_spec (SlicesToDownload d) 0) as H.
  destruct (first_unhandled 0 (SlicesToDownload d)) as [[i s]|]; [|done]. intros [= <-]. destruct H as (_ & Hi & Hh). rewrite Nat.sub_0_r in Hi.
  destruct Hd as [H1 H2 H3]. assert ((i < length (SlicesToDownload d))%nat) as Hlt by (by eapply lookup_lt_Some).
  assert (∀ k, k ∈ <[i:=handled s]> (SlicesToDownload d) → k = handled s ∨ k ∈ SlicesToDownload d) as Hin.
  { intros k [n Hn]%list_elem_of_lookup. apply list_lookup_insert_Some in Hn as [(_ & <- & _)|[_ Hn]]; [by left|right]. by eapply list_elem_of_lookup_2. }
  assert (s ∈ SlicesToDownload d) as Hs by (by eapply list_elem_of_lookup_2).
  destruct (H1 s Hs) as [_ (s0 & Hs0 & Ek)]. pose proof (key_bounds s s0 Hs0 Ek) as Hb.
  split_and!.
  - split; cbn.
    + intros k [->|Hk]%Hin; [by apply (H1 s)|by apply H1].
    + by rewrite (fmap_insert_same SliceHash _ i s).
    + intros n [= <-]. exists (handled s). split; [by apply list_lookup_insert_eq|]. cbn. lia.
  - intros j. unfold delivered. cbn [SlicesToDownload CurrentSlice CurrentSliceOffset]. split.
    + intros (n & t & Hn & Ht & Hj). apply list_lookup_insert_Some in Hn as [(<- & <- & _)|[Hne Hn]].
      * rewrite bool_decide_eq_true_2 in Hj by done. cbn in Hj. lia.
      * rewrite bool_decide_eq_false_2 in Hj by congruence. exists n, t. do 2 (split; [done|]). case_bool_decide as Hc; [|done].
        destruct (H3 n Hc) as (t' & Ht' & _ & Hb'). rewrite Hn in Ht'. injection Ht' as <-. revert Hneed. unfold needs_slice, current. rewrite Hc. cbn. rewrite Hn.
        intros E%bool_decide_eq_true. assert (t ∈ SlicesToDownload d) as Hin' by (by eapply list_elem_of_lookup_2).
        destruct (H1 t Hin') as [_ (t0 & Ht0 & Ek0)]. pose proof (key_bounds t t0 Ht0 Ek0). rewrite (wrapu_id 64) in E by (unfold in_u; lia). lia.
    + intros (n & t & Hn & Ht & Hj). assert (n ≠ i) as Hne by congruence. exists n, t. split; [by rewrite list_lookup_insert_ne|]. split; [done|].
      rewrite bool_decide_eq_false_2 by congruence. case_bool_decide as Hc; [|done]. destruct (H3 n Hc) as (t' & Ht' & _ & Hb'). rewrite Hn in Ht'. injection Ht' as <-. lia.
  - cbn. by apply (fmap_insert_same SliceHash _ i s).
  - exists i, (handled s). cbn. split_and!; [done|by apply list_lookup_insert_eq|done].
Qed.

(** *** Reading *)

Lemma agrees_weaken c f (P Q : nat → Prop) : agrees c f P → (∀ j, Q j → P j) → agrees c f Q.
Proof. intros [H1 H2] H. split; [done|]. intros j Hj. by apply H2, H. Qed.

(** A slice with something left to read. *)
Definition reading (w : dworld) (d : DownloadFileSlice) : Prop :=
  ∃ i s, CurrentSlice d = Some i ∧ SlicesToDownload d !! i = Some s ∧ CurrentSliceOffset d < SliceFileOffset s + SliceSize s
    ∧ ∀ j, in_slice s j → tmp_file w !! j = content !! j.

Lemma GetFileData_part f fs start stop : fs_files fs !! filePath = Some f → 0 ≤ start < stop → stop ≤ zlen f → stop - start ≤ 2 ^ 40 → zlen f < 2 ^ 62 →
  (refused ∧ ∃ e, fst (GetFileData io_err filePath start stop fs) = Err e)
  ∨ fst (GetFileData io_err filePath start stop fs) = Ok (take (Z.to_nat (stop - start)) (drop (Z.to_nat start) f)).
Proof.
  intros Hf H1 H2 H3 H4. unfold GetFileData, open_read. run_M. rewrite Hf. destruct (io_err SysOpen filePath) eqn:Eo; [left; split; [by eexists _, _|by eexists]|].
  rewrite (wrapu_id 64) by (unfold in_u; lia). rewrite bool_decide_eq_false_2 by (unfold maxAlloc; lia).
  rewrite (wraps_id 64) by (unfold in_s; lia). rewrite (bool_decide_eq_false_2 (start < 0)) by lia.
  destruct (io_err SysRead filePath) eqn:Er; [left; split; [by eexists _, _|by eexists]|].
  assert (length (take (Z.to_nat (stop - start)) (drop (Z.to_nat start) f)) = Z.to_nat (stop - start)) as El by (rewrite length_take, length_drop; unfold zlen in *; lia).
  rewrite (bool_decide_eq_false_2 (take _ _ = [])) by (intros E; rewrite E in El; cbn [length] in El; lia). rewrite andb_false_r. right. cbn [fst].
  rewrite El, Nat.sub_diag. cbn [replicate]. by rewrite app_nil_r.
Qed.

Definition bytes_at (start stop : Z) : bytes := take (Z.to_nat (stop - start)) (drop (Z.to_nat start) content).

Lemma read_packet_ok w d : cursor_ok (csvFile w) d → (length (tmp_file w) ≤ length content)%nat → reading w d →
  (refused ∧ ∃ x, read_packet d (dfs w) = (Packet None (CurrentSliceOffset d) x false, d))
  ∨ ∃ stop, CurrentSliceOffset d < stop ≤ zlen content ∧ 0 ≤ CurrentSliceOffset d
      ∧ let d' := mkDFS (CurrentSlice d) stop (SlicesToDownload d) in
        read_packet d (dfs w) = (Packet (Some (bytes_at (CurrentSliceOffset d) stop)) (CurrentSliceOffset d) stop false, d')
        ∧ cursor_ok (csvFile w) d' ∧ ∀ j, delivered d' j ↔ delivered d j ∨ CurrentSliceOffset d ≤ Z.of_nat j < stop.
Proof.
  intros Hd Hlen (i & s & Hi & Hs & Hlt & Htmp). destruct (co_current _ _ Hd i Hi) as (s' & Hs' & Hh & Hge & _). rewrite Hs in Hs'. injection Hs' as <-.
  assert (s ∈ SlicesToDownload d) as Hin by (by eapply list_elem_of_lookup_2). destruct (co_known _ _ Hd s Hin) as [_ (s0 & Hs0 & Ek)].
  pose proof (key_bounds s s0 Hs0 Ek) as Hb. set (start := CurrentSliceOffset d) in *.
  (* the temporary file has the slice *)
  assert ((Z.to_nat (SliceFileOffset s + SliceSize s) ≤ length (tmp_file w))%nat) as Hl.
  { assert (is_Some (tmp_file w !! Z.to_nat (SliceFileOffset s + SliceSize s - 1))) as Hsome; [|apply lookup_lt_is_Some in Hsome; lia].
    rewrite Htmp by (unfold in_slice; lia). apply lookup_lt_is_Some. unfold zlen in *. lia. }
  assert (∃ f, fs_files (dfs w) !! filePath = Some f ∧ tmp_file w = f) as (f & Hf & Ef).
  { unfold tmp_file in *. destruct (fs_files (dfs w) !! filePath) as [f|]; [by exists f|]. cbn in Hl. lia. }
  rewrite Ef in *. assert (∀ a b, SliceFileOffset s ≤ a → b ≤ SliceFileOffset s + SliceSize s → a ≤ b →
    take (Z.to_nat (b - a)) (drop (Z.to_nat a) f) = bytes_at a b) as Hpart.
  { intros a b H1 H2 H3. apply list_eq. intros k. unfold bytes_at. rewrite !lookup_take, !lookup_drop. case_decide; [|done]. apply Htmp. unfold in_slice. lia. }
  assert (current d = Some s) as Ecur by (unfold current; by rewrite Hi).
  unfold read_packet. rewrite Ecur. fold start. rewrite (wrapu_id 64 (SliceFileOffset s + SliceSize s)) by (unfold in_u; lia).
  rewrite (wrapu_id 64 (start + MaxData)) by (unfold in_u; lia). unfold GetFileInfo. run_M. rewrite Hf.
  destruct (io_err SysStat filePath) eqn:Est; cbn [fst]; [left; split; [by eexists _, _|by eexists]|]. rewrite bool_decide_eq_false_2 by (unfold zlen in *; lia).
  set (stop := if bool_decide (start + MaxData < SliceFileOffset s + SliceSize s) then start + MaxData else SliceFileOffset s + SliceSize s).
  assert (start < stop ≤ SliceFileOffset s + SliceSize s ∧ stop - start ≤ MaxData) as [Hst1 Hst2] by (unfold stop; case_bool_decide; lia).
  destruct (GetFileData_part f (dfs w) start stop Hf) as [[Href [e E]]|E]; [lia|unfold zlen in *; lia|lia|unfold zlen in *; lia|rewrite E; left; split; [done|by eexists]|].
  right. exists stop. split; [lia|]. split; [lia|]. cbv zeta. rewrite E, Hpart by lia. split; [done|]. split.
  - destruct Hd as [H1 H2 H3]. split; try done. cbn. intros n Hn. rewrite Hi in Hn. injection Hn as <-. exists s. split_and!; [done|done|lia|lia].
  - intros j. unfold delivered. cbn [SlicesToDownload CurrentSlice CurrentSliceOffset]. split.
    + intros (n & t & Hn & Ht & Hj). case_bool_decide as Hc.
      * rewrite Hi in Hc. injection Hc as <-. rewrite Hs in Hn. injection Hn as <-. destruct (decide (Z.of_nat j < start)); [left|right; lia].
        exists i, s. split; [done|]. split; [done|]. rewrite bool_decide_eq_true_2 by done. fold start. lia.
      * left. exists n, t. split; [done|]. split; [done|]. by rewrite bool_decide_eq_false_2.
    + intros [(n & t & Hn & Ht & Hj)|Hj].
      * exists n, t. split; [done|]. split; [done|]. case_bool_decide as Hc; [|done]. fold start in Hj. lia.
      * exists i, s. split; [done|]. split; [done|]. rewrite bool_decide_eq_true_2 by done. lia.
Qed.

Lemma task_same saved recorded w w' : dfs w' = dfs w → csvFile w' = csvFile w → task_ok saved recorded w → task_ok saved recorded w'.
Proof. intros E1 E2 [H1 H2 H3 H4]. split; unfold tmp_file in *; by rewrite ?E1, ?E2. Qed.

(** What an answer does to a session. *)
Lemma answered_ok reads saved recorded w d first : task_ok saved recorded w → cursor_ok (csvFile w) d → agrees content (clientFile w) (delivered d) → reading w d →
  download_ok reads saved recorded (answered w first (read_packet d (dfs w))).
Proof.
  intros Ht Hd Hc Hr. destruct (read_packet_ok w d Hd (to_length _ _ _ Ht) Hr) as [[Href [x E]]|(stop & Hst & Hs0 & E & Hd' & Hdel)].
  - rewrite E. unfold answered, api_answer. destruct first; split; try done; [by apply (task_same _ _ w)|by left|by apply (task_same _ _ w)|by left].
  - cbv zeta in *. rewrite E. unfold answered, api_answer. cbn [andb]. unfold get_answer.
    set (start := CurrentSliceOffset d) in *. set (data := bytes_at start stop).
    assert (zlen data = stop - start) as El by (unfold data, bytes_at, zlen in *; rewrite length_take, length_drop; lia).
    rewrite bool_decide_eq_true_2 by (rewrite (wrapu_id 64), (wraps_id 64) by (unfold in_u, in_s; lia); lia).
    split; [by apply (task_same _ _ w)|done| |done]. cbn [clientFile downloadEntry default from_option id].
    apply (agrees_weaken _ _ (fun j => delivered d j ∨ in_piece (start, data) j)).
    + apply (agrees_write content (clientFile w) (delivered d) (start, data)); [done|by intros j; apply (delivered_bound (csvFile w))|].
      assert (Z.to_nat (stop - start) = length data) as En by (unfold zlen in El; lia).
      unfold piece_of. cbn [fst snd]. split; [lia|]. split; [unfold zlen in *; lia|]. rewrite <- En. done.
    + intros j [Hj|Hj]%Hdel; [by left|right]. unfold in_piece. cbn [fst snd]. lia.
Qed.

(** *** A call *)

Lemma csv_slices saved recorded w : task_ok saved recorded w → ∀ h, h ∈ csvFile w → ∃ s, s ∈ df_Slices fi ∧ SliceHash s = h.
Proof. intros Ht h (i & s & _ & Hs & E)%(to_csv _ _ _ Ht). exists s. split; [by eapply list_elem_of_lookup_2|done]. Qed.

(** A slice that the cursor knows has been saved. *)
Lemma cursor_reads saved recorded w d i s : task_ok saved recorded w → cursor_ok (csvFile w) d →
  CurrentSlice d = Some i → SlicesToDownload d !! i = Some s → CurrentSliceOffset d < SliceFileOffset s + SliceSize s → reading w d.
Proof.
  intros Ht Hd Hi Hs Hlt. exists i, s. do 3 (split; [done|]). assert (s ∈ SlicesToDownload d) as Hin by (by eapply list_elem_of_lookup_2).
  destruct (co_known _ _ Hd s Hin) as [(i1 & s1 & Hi1 & Hs1 & E1)%(to_csv _ _ _ Ht) (s0 & Hs0 & Ek)].
  assert (s1 = s0) as -> by (apply hash_inj; [by eapply list_elem_of_lookup_2|done|rewrite E1; by injection Ek]).
  intros j Hj. eapply (to_saved _ _ _ Ht i1 s0); [by apply (to_recorded _ _ _ Ht)|done|by eapply key_in_slice].
Qed.

Lemma needs_slice_end csv d i s : cursor_ok csv d → needs_slice d = true → CurrentSlice d = Some i → SlicesToDownload d !! i = Some s →
  CurrentSliceOffset d = SliceFileOffset s + SliceSize s.
Proof.
  intros Hd Hneed Hi Hs. assert (s ∈ SlicesToDownload d) as Hin by (by eapply list_elem_of_lookup_2). destruct (co_known _ _ Hd s Hin) as [_ (s0 & Hs0 & Ek)].
  pose proof (key_bounds s s0 Hs0 Ek). revert Hneed. unfold needs_slice, current. rewrite Hi. cbn. rewrite Hs. rewrite bool_decide_eq_true, (wrapu_id 64) by (unfold in_u; lia). lia.
Qed.

Lemma no_need_reads saved recorded w d : task_ok saved recorded w → cursor_ok (csvFile w) d → needs_slice d = false → reading w d.
Proof.
  intros Ht Hd Hneed. destruct (CurrentSlice d) as [i|] eqn:Hi; [|by unfold needs_slice, current in Hneed; rewrite Hi in Hneed].
  destruct (co_current _ _ Hd i Hi) as (s & Hs & _ & Hb). apply (cursor_reads saved recorded w d i s); try done.
  assert (s ∈ SlicesToDownload d) as Hin by (by eapply list_elem_of_lookup_2). destruct (co_known _ _ Hd s Hin) as [_ (s0 & Hs0 & Ek)].
  pose proof (key_bounds s s0 Hs0 Ek). revert Hneed. unfold needs_slice, current. rewrite Hi. cbn. rewrite Hs. rewrite bool_decide_eq_false, (wrapu_id 64) by (unfold in_u; lia). lia.
Qed.

Lemma needs_slice_ext d ext : (∀ i, CurrentSlice d = Some i → is_Some (SlicesToDownload d !! i)) →
  needs_slice (mkDFS (CurrentSlice d) (CurrentSliceOffset d) (SlicesToDownload d ++ ext)) = needs_slice d.
Proof.
  intros H. unfold needs_slice, current. cbn. destruct (CurrentSlice d) as [i|]; [|done]. destruct (H i eq_refl) as [s Hs]. cbn. by rewrite Hs, (lookup_app_l_Some _ _ _ _ Hs).
Qed.

(** With a slice that was chosen the call is answered. *)
Lemma chosen_ok reads saved recorded w d d' first : task_ok saved recorded w → cursor_ok (csvFile w) d → agrees content (clientFile w) (delivered d) → needs_slice d = true →
  chooseCurrentSlice d = (d', true) → download_ok reads saved recorded (answered w first (read_packet d' (dfs w))).
Proof.
  intros Ht Hd Hc Hneed E. destruct (choose_ok _ _ _ Hd Hneed E) as (Hd' & Hdel & _ & i & s & Hi & Hs & Ho). apply answered_ok; try done.
  - apply (agrees_weaken _ _ _ _ Hc). intros j. apply Hdel.
  - apply (cursor_reads saved recorded w d' i s); try done. assert (s ∈ SlicesToDownload d') as Hin by (by eapply list_elem_of_lookup_2).
    destruct (co_known _ _ Hd' s Hin) as [_ (s0 & Hs0 & Ek)]. pose proof (key_bounds s s0 Hs0 Ek). lia.
Qed.

(** New slices are read at once. *)
Lemma updated_ok reads saved recorded w d ext first : task_ok saved recorded w → cursor_ok (csvFile w) d → agrees content (clientFile w) (delivered d) → needs_slice d = true →
  let e := mkDFS (CurrentSlice d) (CurrentSliceOffset d) (SlicesToDownload d ++ ext) in
  cursor_ok (csvFile w) e → Forall (fun s => Handled s = false) ext → ext ≠ [] →
  download_ok reads saved recorded (answered w first (let '(d, _) := chooseCurrentSlice e in read_packet d (dfs w))).
Proof.
  intros Ht Hd Hc Hneed e He Hext Hne. assert (needs_slice e = true) as Hneed'.
  { unfold e. rewrite needs_slice_ext; [done|]. intros i Hi. destruct (co_current _ _ Hd i Hi) as (s & Hs & _). by exists s. }
  destruct (chooseCurrentSlice e) as [d' found] eqn:Ech. destruct found.
  - apply (chosen_ok reads saved recorded w e d'); try done. apply (agrees_weaken _ _ _ _ Hc). intros j. by apply delivered_ext.
  - exfalso. by apply (choose_ext d ext d').
Qed.

(** *** All slices *)

Definition key_total (l : list (string * Z * Z)) : Z := foldr (fun k z => k.2 + z) 0 l.

Lemma total_keys l : total l = key_total (slice_key <$> l).
Proof. induction l as [|s l IH]; [done|]. cbn. unfold key_total in IH. by rewrite <- IH. Qed.

Lemma key_total_perm l l' : l ≡ₚ l' → key_total l = key_total l'.
Proof. induction 1; cbn; unfold key_total in *; lia. Qed.

Lemma key_total_app l l' : key_total (l ++ l') = key_total l + key_total l'.
Proof. induction l as [|k l IH]; [done|]. cbn. unfold key_total in *. lia. Qed.

Lemma known_keys csv d : cursor_ok csv d → ∃ rest, slice_key <$> df_Slices fi ≡ₚ (slice_key <$> SlicesToDownload d) ++ rest.
Proof.
  intros [H1 H2 _]. apply submseteq_Permutation, NoDup_submseteq.
  - apply (NoDup_fmap_1 (fun k => k.1.1)). rewrite <- list_fmap_compose. exact H2.
  - intros k (s & -> & Hs)%list_elem_of_fmap. destruct (H1 s Hs) as [_ (s0 & Hs0 & ->)]. by apply list_elem_of_fmap_2.
Qed.

Lemma foldl_total l : ∀ acc, Forall (fun s => Handled s = true) l → Forall (fun s => 0 < SliceSize s) l → 0 ≤ acc → acc + total l < 2 ^ 64 →
  foldl (fun size s => if Handled s then u64 (size + SliceSize s) else size) acc l = acc + total l.
Proof.
  induction l as [|s l IH]; intros acc Hh Hp Ha Hb; cbn [foldl total foldr] in *; [lia|]. inversion Hh as [|? ? Es Hh']; inversion Hp as [|? ? Ep Hp']; subst.
  assert (0 ≤ total l) by (clear - Hp'; induction Hp'; cbn; unfold total in *; lia). fold (total l) in *. rewrite Es, (wrapu_id 64) by (unfold in_u; lia). rewrite IH; try done; lia.
Qed.

(** A file that is complete has been delivered. *)
Lemma complete_delivered csv d : cursor_ok csv d → all_handled d → CheckRemoteFileDownloadComplete d = true → ∀ j, (j < length content)%nat → delivered d j.
Proof.
  intros Hd [Hh Hneed] Hcomp j Hj. destruct (known_keys csv d Hd) as [rest Hperm].
  assert (Forall (fun k : string * Z * Z => 0 < k.2) ((slice_key <$> SlicesToDownload d) ++ rest)) as [Hp1 Hp2]%Forall_app.
  { rewrite <- Hperm. apply Forall_fmap. refine (Forall_impl _ _ H_slices). intros s (_ & ? & _). done. }
  assert (0 ≤ key_total rest) as Hr by (clear - Hp2; induction Hp2; cbn; unfold key_total in *; lia).
  pose proof (key_total_perm _ _ Hperm) as Et. rewrite key_total_app, <- !total_keys, H_total in Et.
  unfold CheckRemoteFileDownloadComplete in Hcomp. apply bool_decide_eq_true in Hcomp. rewrite foldl_total in Hcomp; [|done|exact (proj1 (Forall_fmap slice_key (fun k => 0 < k.2) (SlicesToDownload d)) Hp1)|done|lia].
  assert (rest = []) as ->. { destruct Hp2 as [|k rest Hk Hp2]; [done|]. exfalso. assert (0 ≤ key_total rest) by (clear - Hp2; induction Hp2; cbn; unfold key_total in *; lia). cbn in Et. unfold key_total in *. lia. }
  destruct (H_cover j Hj) as (s & Hs & Hin). assert (slice_key s ∈ slice_key <$> SlicesToDownload d) as (k & Ek & Hk)%list_elem_of_fmap.
  { rewrite app_nil_r in Hperm. rewrite <- Hperm. by apply list_elem_of_fmap_2. }
  pose proof Hk as [i Hi]%list_elem_of_lookup. exists i, k. split; [done|]. split; [by apply (proj1 (list.Forall_forall _ _) Hh)|].
  apply (key_in_slice s k j Ek) in Hin. unfold in_slice in Hin. case_bool_decide as Hc; [|done]. rewrite (needs_slice_end csv d i k); done.
Qed.

(** A call of NextRemoteDownloadPacket. *)
Lemma next_ok reads r saved recorded w first : (reads = true → r = true) → download_ok reads saved recorded w → (first = true → downloadEntry w = None) →
  download_ok reads saved recorded (answered w first (NextRemoteDownloadPacket r w)).
Proof.
  intros Hreads [Ht Hd Hc _] Hfirst. unfold NextRemoteDownloadPacket. set (d := default no_slices (downloadEntry w)) in *. destruct (needs_slice d) eqn:Hneed; cbn [negb].
  2: { apply answered_ok; try done. by apply (no_need_reads saved recorded). }
  destruct (chooseCurrentSlice d) as [d1 found] eqn:Ech. destruct found; [by apply (chosen_ok reads saved recorded w d d1)|].
  assert (d1 = d ∧ Forall (fun s => Handled s = true) (SlicesToDownload d)) as [-> Hall] by (by apply choose_none).
  assert (∃ ext, UpdateDownloadSlices r d (csvFile w) = (mkDFS (CurrentSlice d) (CurrentSliceOffset d) (SlicesToDownload d ++ ext), bool_decide (ext ≠ []))
    ∧ cursor_ok (csvFile w) (mkDFS (CurrentSlice d) (CurrentSliceOffset d) (SlicesToDownload d ++ ext))
    ∧ Forall (fun s => Handled s = false) ext ∧ (reads = true → ∀ h, h ∈ csvFile w → h ∈ SliceHash <$> SlicesToDownload d ++ ext)) as (ext & Eu & He & Hext & Hcsv).
  { destruct r; [destruct (update_ok (csvFile w) d (csv_slices _ _ _ Ht) Hd) as (ext & ? & ? & ? & ?); by exists ext|].
    exists []. rewrite app_nil_r. split_and!; [done| |done|intros E; by specialize (Hreads E)]. by destruct d. }
  rewrite Eu. case_bool_decide as Hne.
  { by apply (updated_ok reads saved recorded w d ext). }
  subst ext. rewrite app_nil_r in *. set (e := mkDFS (CurrentSlice d) (CurrentSliceOffset d) (SlicesToDownload d)) in *.
  assert (all_handled e) as Hah by (by split). assert (agrees content (clientFile w) (delivered e)) as Hce by exact Hc.
  destruct (CheckRemoteFileDownloadComplete e) eqn:Ecomp.
  - assert (clientFile w = content) as Efile by (eapply agrees_all; [exact Hce|]; by apply (complete_delivered (csvFile w))).
    unfold answered, api_answer. destruct first; split; try done; try (by apply (task_same _ _ w)). right.
    unfold e, d in Ecomp. rewrite (Hfirst eq_refl) in Ecomp. apply bool_decide_eq_true in Ecomp. cbn in Ecomp. rewrite H_fileSize in Ecomp. unfold zlen in Ecomp. by destruct content.
  - unfold answered. split; try done. by apply (task_same _ _ w).
Qed.

(** *** The task *)

Lemma save_ok data off fs x fs' : SaveDownloadedFileData data off fs = (Ok x, fs') →
  fs_files fs' !! filePath = Some (write_at (default [] (fs_files fs !! filePath)) (Z.to_nat off) data).
Proof.
  unfold SaveDownloadedFileData. rewrite bool_decide_eq_false_2 by done. fold filePath.
  assert (∀ f fs1, fs_files fs1 !! filePath = Some f → default [] (fs_files fs !! filePath) = f → WriteFile io_err filePath f data off fs1 = (Ok x, fs') →
    fs_files fs' !! filePath = Some (write_at (default [] (fs_files fs !! filePath)) (Z.to_nat off) data)) as Hw.
  { intros f fs1 H1 -> . unfold WriteFile, file_WriteAt. run_M. destruct (bool_decide (off < 0)); [done|]. destruct (io_err SysWrite filePath); [done|].
    intros [= _ <-]. cbn [with_file fs_files]. by rewrite lookup_insert_eq. }
  assert (∀ fs1 f fs2, fs_files fs1 = fs_files fs → open_create io_err filePath fs1 = (Ok f, fs2) → fs_files fs2 !! filePath = Some f ∧ default [] (fs_files fs !! filePath) = f) as Ho.
  { intros fs1 f fs2 E. unfold open_create. run_M. destruct (_ || _); [done|]. rewrite <- E. destruct (fs_files fs1 !! filePath) as [f0|] eqn:Ef; [by intros [= <- <-]|].
    intros [= <- <-]. cbn [with_file fs_files]. by rewrite lookup_insert_eq. }
  run_M. destruct (open_create io_err filePath fs) as [[f|e|e] fs1] eqn:E1; [|idtac|done].
  - destruct (Ho fs f fs1 eq_refl E1) as [H1 H2]. by apply Hw.
  - assert (fs1 = fs) as ->.
    { revert E1. unfold open_create. run_M. destruct (_ || _); [by intros [= _ <-]|]. by destruct (fs_files fs !! filePath). }
    unfold CreateFolderAndReopenFile, PathExists. run_M. destruct (io_err SysStat _); [done|]. case_bool_decide.
    + fold filePath. destruct (open_create io_err (Join _) fs) as [[f|e'|e'] fs2] eqn:E2; [|done..]. destruct (Ho fs f fs2 eq_refl E2) as [H1 H2]. by apply Hw.
    + unfold MkdirAll. run_M. destruct (io_err SysMkdir _); [done|]. run_M. match goal with |- context [open_create io_err ?p ?fs0] => destruct (open_create io_err p fs0) as [[f|e'|e'] fs2] eqn:E2; [|done..] end.
      destruct (Ho (mkFS (fs_files fs) ({[getDownloadTmpFolderPath rootPath fileHash]} ∪ fs_dirs fs)) f fs2 eq_refl E2) as [H1 H2]. by apply Hw.
Qed.

Definition in_saved (saved : gset nat) (j : nat) : Prop := ∃ i s, i ∈ saved ∧ df_Slices fi !! i = Some s ∧ in_slice s j.

Lemma slice_piece s : s ∈ df_Slices fi → piece_of content (SliceFileOffset s, slice_data s) ∧ zlen (slice_data s) = SliceSize s.
Proof.
  intros Hs. apply (proj1 (list.Forall_forall _ _) H_slices) in Hs as (H1 & H2 & H3 & H4).
  assert (length (slice_data s) = Z.to_nat (SliceSize s)) as El by (rewrite H4, length_take, length_drop; unfold zlen in *; lia).
  unfold piece_of, zlen in *. cbn [fst snd]. rewrite El. split_and!; [lia|lia|lia|done|lia].
Qed.

Lemma task_save saved recorded w i s fs' x : task_ok saved recorded w → df_Slices fi !! i = Some s →
  SaveDownloadedFileData (slice_data s) (SliceFileOffset s) (dfs w) = (Ok x, fs') →
  ∀ e c g, task_ok ({[i]} ∪ saved) recorded (mkD e (csvFile w) fs' c g).
Proof.
  intros [H1 H2 H3 H4] Hs E%save_ok e c g. destruct (slice_piece s) as [Hp Hz]; [by eapply list_elem_of_lookup_2|].
  assert (agrees content (tmp_file w) (in_saved saved)) as Ha by (split; [done|]; intros j (i' & s' & ? & ? & ?); by eapply H2).
  destruct (agrees_write content (tmp_file w) (in_saved saved) (SliceFileOffset s, slice_data s) Ha) as [G1 G2]; [|exact Hp|].
  { intros j (i' & s' & _ & Hs' & Hj). apply list_elem_of_lookup_2 in Hs'. apply (proj1 (list.Forall_forall _ _) H_slices) in Hs' as (? & ? & ? & _). unfold in_slice, zlen in *. lia. }
  cbn [fst snd] in *. split; unfold tmp_file; cbn [dfs csvFile]; rewrite ?E; cbn [default]; try done; [|set_solver].
  intros i' s' j [->%elem_of_singleton|Hi']%elem_of_union Hs' Hj; apply G2; [right|left; by exists i', s'].
  rewrite Hs in Hs'. injection Hs' as <-. unfold in_piece. cbn [fst snd]. rewrite Hz. done.
Qed.

Lemma cursor_more csv csv' d : csv ⊆ csv' → cursor_ok csv d → cursor_ok csv' d.
Proof. intros Hsub [H1 H2 H3]. split; try done. intros k Hk. destruct (H1 k Hk) as [? ?]. split; [by apply Hsub|done]. Qed.

(** A line for a slice that has not been recorded is new to every cursor. *)
Lemma line_is_new saved recorded w d i s : task_ok saved recorded w → cursor_ok (csvFile w) d → df_Slices fi !! i = Some s → i ∉ recorded → SliceHash s ∉ SliceHash <$> SlicesToDownload d.
Proof.
  intros Ht Hd Hs Hi (k & E & Hk)%list_elem_of_fmap. destruct (co_known _ _ Hd k Hk) as [(i1 & s1 & Hi1 & Hs1 & E1)%(to_csv _ _ _ Ht) _].
  apply Hi. replace i with i1; [done|]. eapply (NoDup_lookup _ _ _ (SliceHash s)); [exact H_hashes|by rewrite list_lookup_fmap, Hs1; cbn; rewrite E1, E|by rewrite list_lookup_fmap, Hs].
Qed.

Lemma progress_ok reads saved recorded w i s : download_ok reads saved recorded w → df_Slices fi !! i = Some s → i ∈ saved → i ∉ recorded →
  download_ok reads saved ({[i]} ∪ recorded) (SaveDownloadProgress true true w (SliceHash s)).
Proof.
  intros [Ht Hd Hc Hst] Hs Hsv Hrec. unfold SaveDownloadProgress, SetDownloadSliceResult. set (w1 := mkD (downloadEntry w) (csvFile w ++ [SliceHash s]) (dfs w) (clientFile w) (get_state w)). cbv zeta.
  assert (task_ok saved ({[i]} ∪ recorded) w1) as Ht1.
  { destruct Ht as [H1 H2 H3 H4]. split; try done; [set_solver|]. intros h. cbn [csvFile w1]. rewrite elem_of_app, list_elem_of_singleton, H4. split.
    - intros [(i' & s' & ? & ? & ?)| ->]; [exists i', s'|exists i, s]; set_solver.
    - intros (i' & s' & [->%elem_of_singleton|?]%elem_of_union & Hs' & E); [right; congruence|left; by exists i', s']. }
  assert (cursor_ok (csvFile w1) (default no_slices (downloadEntry w1))) as Hd1 by (eapply cursor_more; [|exact Hd]; intros h Hh; apply elem_of_app; by left).
  change (get_state w1) with (get_state w). destruct (get_state w) as [| | |first|r|] eqn:Eg;
    try (split; [done..|unfold w1; cbn [get_state clientFile]; rewrite ?Eg; exact Hst]).
  destruct Hst as ((Hall & Hneed) & Hin & _). unfold resume. set (d := default no_slices (downloadEntry w1)) in *.
  destruct (update_ok (csvFile w1) d (csv_slices _ _ _ Ht1) Hd1) as (ext & Eu & He & Hext & Hcsv). rewrite Eu. cbn [fst].
  apply (updated_ok reads saved ({[i]} ∪ recorded) w1 d ext); try done. intros ->. rewrite app_nil_r in Hcsv.
  apply (line_is_new saved recorded w d i s Ht Hd Hs Hrec), Hcsv. cbn. apply elem_of_app. right. by apply list_elem_of_singleton.
Qed.

(** *** Runs *)

Lemma drun_ok reads es : ∀ saved recorded w w', download_ok reads saved recorded w → orderly reads saved recorded es → drun w es = Some w' → ∃ saved recorded, download_ok reads saved recorded w'.
Proof.
  induction es as [|e es IH]; intros saved recorded w w' Hw Ho; cbn [drun]; [intros [= <-]; by exists saved, recorded|].
  destruct (dstep w e) as [w1|] eqn:E; [|done]. destruct e as [r|i|i wr r|ok r]; cbn [dstep orderly] in *; [| | |done].
  - destruct Ho as [Hr Ho]. assert (download_ok reads saved recorded w1) as Hw1; [|by apply (IH saved recorded)].
    pose proof Hw as [Ht Hd Hc Hst]. destruct (get_state w) eqn:Eg; try done; injection E as <-; [by apply next_ok..|].
    split; try done. by apply (task_same _ _ w).
  - destruct (df_Slices fi !! i) as [s|] eqn:Es; [|done]. destruct (SaveDownloadedFileData _ _ _) as [[x|e|e] fs'] eqn:Ef; [|done..]. injection E as <-.
    apply (IH ({[i]} ∪ saved) recorded); [|done]. destruct Hw as [Ht Hd Hc Hst]. split; try done. by eapply task_save.
  - destruct (df_Slices fi !! i) as [s|] eqn:Es; [|done]. injection E as <-. destruct Ho as (-> & -> & H1 & H2 & Ho). apply (IH saved ({[i]} ∪ recorded)); [|done]. by apply progress_ok.
Qed.

Lemma start_download_ok reads fs : fs_files fs !! filePath = None → download_ok reads ∅ ∅ (start_download fs).
Proof.
  intros Hf. split; cbn [start_download downloadEntry csvFile clientFile get_state default from_option]; [| |split; [cbn; lia|]|done].
  - split; unfold tmp_file; cbn [dfs csvFile start_download]; rewrite ?Hf; cbn [default]; try done; try (cbn; lia).
    all: try (intros i s j Hi; set_solver).
    intros h. split; [by intros ?%elem_of_nil|]. intros (i & s & Hi & _). set_solver.
  - split; cbn; try done; [by intros k ?%elem_of_nil|constructor].
  - intros j (i & s & Hs & _). done.
Qed.


(** *** The download ends *)

Definition handled_total (l : list DownloadSlice) : Z := foldr (fun s z => (if Handled s then SliceSize s else 0) + z) 0 l.
(** What is left of the current slice, and of the file. *)
Definition slice_rest (d : DownloadFileSlice) : Z := match current d with Some s => SliceFileOffset s + SliceSize s - CurrentSliceOffset d | None => 0 end.
Definition todo (d : DownloadFileSlice) : Z := zlen content - handled_total (SlicesToDownload d) + slice_rest d.

Lemma handled_total_app l l' : handled_total (l ++ l') = handled_total l + handled_total l'.
Proof. induction l as [|s l IH]; [done|]. cbn. unfold handled_total in *. lia. Qed.

Lemma handled_total_none l : Forall (fun s => Handled s = false) l → handled_total l = 0.
Proof. induction 1 as [|s l Hs _ IH]; [done|]. cbn. rewrite Hs. unfold handled_total in *. lia. Qed.

Lemma handled_total_choose l : ∀ i s, l !! i = Some s → Handled s = false → handled_total (<[i := handled s]> l) = handled_total l + SliceSize s.
Proof.
  induction l as [|t l IH]; intros [|i] s Hs Hh; try done.
  - injection Hs as ->. cbn. rewrite Hh. unfold handled_total. lia.
  - change (<[S i := handled s]> (t :: l)) with (t :: <[i := handled s]> l). specialize (IH i s Hs Hh). unfold handled_total in *. cbn [foldr]. lia.
Qed.

Lemma cursor_sizes csv d : cursor_ok csv d → Forall (fun s => 0 < SliceSize s) (SlicesToDownload d) ∧ total (SlicesToDownload d) ≤ zlen content.
Proof.
  intros Hd. split.
  - apply list.Forall_forall. intros s Hs. destruct (co_known _ _ Hd s Hs) as [_ (s0 & Hs0 & Ek)]. by destruct (key_bounds s s0 Hs0 Ek) as (_ & ? & _).
  - destruct (known_keys csv d Hd) as [rest Hperm]. pose proof (key_total_perm _ _ Hperm) as Et. rewrite key_total_app, <- !total_keys, H_total in Et.
    assert (Forall (fun k : string * Z * Z => 0 < k.2) ((slice_key <$> SlicesToDownload d) ++ rest)) as [_ Hp]%Forall_app.
    { rewrite <- Hperm. apply Forall_fmap. refine (Forall_impl _ _ H_slices). intros s (_ & ? & _). done. }
    assert (0 ≤ key_total rest) by (clear - Hp; induction Hp; cbn; unfold key_total in *; lia). lia.
Qed.

Lemma todo_nonneg csv d : cursor_ok csv d → 0 ≤ todo d.
Proof.
  intros Hd. destruct (cursor_sizes csv d Hd) as [Hp Ht]. unfold todo.
  assert (handled_total (SlicesToDownload d) ≤ total (SlicesToDownload d)) by (clear - Hp; induction Hp as [|s l ? _ ?]; cbn; [done|]; unfold handled_total, total in *; destruct (Handled s); lia).
  assert (0 ≤ slice_rest d); [|lia]. unfold slice_rest, current. destruct (CurrentSlice d) as [i|] eqn:Hi; [|done]. cbn. destruct (co_current _ _ Hd i Hi) as (s & -> & _ & Hb). lia.
Qed.

(** When every slice is known and handled, the file is complete. *)
Lemma all_known_complete csv d : cursor_ok csv d → Forall (fun s => Handled s = true) (SlicesToDownload d) →
  (∀ s, s ∈ df_Slices fi → SliceHash s ∈ SliceHash <$> SlicesToDownload d) → CheckRemoteFileDownloadComplete d = true.
Proof.
  intros Hd Hh Hall. destruct (cursor_sizes csv d Hd) as [Hp Ht]. unfold CheckRemoteFileDownloadComplete. apply bool_decide_eq_true.
  rewrite foldl_total, H_fileSize by (try done; lia). assert (zlen content ≤ total (SlicesToDownload d)); [|lia].
  assert (slice_key <$> df_Slices fi ⊆+ slice_key <$> SlicesToDownload d) as [rest Hperm]%submseteq_Permutation.
  { apply NoDup_submseteq.
    - apply (NoDup_fmap_1 (fun k => k.1.1)). rewrite <- list_fmap_compose. exact H_hashes.
    - intros k (s & -> & Hs)%list_elem_of_fmap. destruct (proj1 (list_elem_of_fmap _ _ _) (Hall s Hs)) as (t & Et & Ht').
      destruct (co_known _ _ Hd t Ht') as [_ (s0 & Hs0 & Ek)]. assert (s0 = s) as -> by (apply hash_inj; [done|done|rewrite Et; by injection Ek]).
      rewrite <- Ek. by apply list_elem_of_fmap_2. }
  pose proof (key_total_perm _ _ Hperm) as Et. rewrite key_total_app, <- !total_keys, H_total in Et.
  assert (Forall (fun k : string * Z * Z => 0 < k.2) ((slice_key <$> df_Slices fi) ++ rest)) as [_ Hr]%Forall_app by (rewrite <- Hperm; by apply Forall_fmap).
  assert (0 ≤ key_total rest) by (clear - Hr; induction Hr; cbn; unfold key_total in *; lia). lia.
Qed.

Lemma todo_choose csv d d' : cursor_ok csv d → needs_slice d = true → chooseCurrentSlice d = (d', true) → todo d' = todo d.
Proof.
  intros Hd Hneed. unfold chooseCurrentSlice. pose proof (first_unhandled_spec (SlicesToDownload d) 0) as H. destruct (first_unhandled 0 (SlicesToDownload d)) as [[i s]|]; [|done].
  intros [= <-]. destruct H as (_ & Hi & Hh). rewrite Nat.sub_0_r in Hi. assert (slice_rest d = 0) as E0.
  { unfold slice_rest, current. destruct (CurrentSlice d) as [n|] eqn:En; [|done]. cbn. destruct (co_current _ _ Hd n En) as (t & Ht & _). rewrite Ht. rewrite (needs_slice_end csv d n t); try done. lia. }
  unfold todo. cbn [SlicesToDownload]. rewrite (handled_total_choose _ i s Hi Hh), E0. unfold slice_rest, current. cbn.
  rewrite list_lookup_insert_eq by (by eapply lookup_lt_Some). cbn. lia.
Qed.

Lemma csv_answered w first p : csvFile (answered w first p) = csvFile w.
Proof. destruct p as [p d]. unfold answered. destruct (api_answer first p) as [a|]; [destruct (get_answer (clientFile w) a)|]; by destruct p. Qed.

(** Without failures a slice that is being read gives bytes. *)
Lemma reading_live w d first : ¬ refused → cursor_ok (csvFile w) d → (length (tmp_file w) ≤ length content)%nat → reading w d →
  ∃ d', downloadEntry (answered w first (read_packet d (dfs w))) = Some d' ∧ get_state (answered w first (read_packet d (dfs w))) = GData ∧ todo d' < todo d.
Proof.
  intros Hno Hd Hl Hr. destruct (read_packet_ok w d Hd Hl Hr) as [[? _]|(stop & Hst & Hs0 & E & Hd' & _)]; [done|]. cbv zeta in *. rewrite E. unfold answered, api_answer. cbn [andb]. unfold get_answer.
  set (start := CurrentSliceOffset d) in *. assert (zlen (bytes_at start stop) = stop - start) as El by (unfold bytes_at, zlen in *; rewrite length_take, length_drop; lia).
  rewrite bool_decide_eq_true_2 by (rewrite (wrapu_id 64), (wraps_id 64) by (unfold in_u, in_s; lia); lia).
  eexists. split; [done|]. split; [done|]. destruct Hr as (i & s & Hi & Hs & _). unfold todo, slice_rest, current. cbn [SlicesToDownload CurrentSlice CurrentSliceOffset]. rewrite Hi. cbn [mbind option_bind]. rewrite Hs. fold start. lia.
Qed.

Lemma chosen_live saved recorded w d d' first : ¬ refused → task_ok saved recorded w → cursor_ok (csvFile w) d → needs_slice d = true → chooseCurrentSlice d = (d', true) →
  ∃ d1, downloadEntry (answered w first (read_packet d' (dfs w))) = Some d1 ∧ get_state (answered w first (read_packet d' (dfs w))) = GData ∧ todo d1 < todo d.
Proof.
  intros Hno Ht Hd Hneed E. rewrite <- (todo_choose _ d d' Hd Hneed E). destruct (choose_ok _ _ _ Hd Hneed E) as (Hd' & _ & _ & i & s & Hi & Hs & Ho).
  apply reading_live; [done|done|apply Ht|]. apply (cursor_reads saved recorded w d' i s); try done. assert (s ∈ SlicesToDownload d') as Hin by (by eapply list_elem_of_lookup_2).
  destruct (co_known _ _ Hd' s Hin) as [_ (s0 & Hs0 & Ek)]. pose proof (key_bounds s s0 Hs0 Ek). lia.
Qed.

Definition all_recorded (w : dworld) : Prop := ∀ s, s ∈ df_Slices fi → SliceHash s ∈ csvFile w.
Definition dentry (w : dworld) : DownloadFileSlice := default no_slices (downloadEntry w).

(** A call when every slice has been recorded: more bytes, or the end. *)
Lemma call_live saved recorded w first : ¬ refused → all_recorded w → download_ok true saved recorded w →
  let w' := answered w first (NextRemoteDownloadPacket true w) in
  get_state w' = GData ∧ todo (dentry w') < todo (dentry w) ∨ (first = false → get_state w' = GInfo) ∧ ∃ d', SlicesToDownload d' = SlicesToDownload (dentry w) ∧ CheckRemoteFileDownloadComplete d' = true.
Proof.
  intros Hno Hrec [Ht Hd Hc _]. unfold NextRemoteDownloadPacket. fold (dentry w) in *. set (d := dentry w) in *. destruct (needs_slice d) eqn:Hneed; cbn [negb].
  2: { destruct (reading_live w d first Hno Hd (to_length _ _ _ Ht)) as (d' & E1 & E2 & E3); [by apply (no_need_reads saved recorded)|]. left. split; [done|]. unfold dentry at 1. by rewrite E1. }
  destruct (chooseCurrentSlice d) as [d1 found] eqn:Ech. destruct found.
  { destruct (chosen_live saved recorded w d d1 first Hno Ht Hd Hneed Ech) as (d' & E1 & E2 & E3). left. split; [done|]. unfold dentry at 1. by rewrite E1. }
  assert (d1 = d ∧ Forall (fun s => Handled s = true) (SlicesToDownload d)) as [-> Hall] by (by apply choose_none).
  destruct (update_ok (csvFile w) d (csv_slices _ _ _ Ht) Hd) as (ext & Eu & He & Hext & Hcsv). rewrite Eu. case_bool_decide as Hne.
  - left. set (e := mkDFS (CurrentSlice d) (CurrentSliceOffset d) (SlicesToDownload d ++ ext)) in *. assert (needs_slice e = true) as Hneed'.
    { unfold e. rewrite needs_slice_ext; [done|]. intros i Hi. destruct (co_current _ _ Hd i Hi) as (s & Hs & _). by exists s. }
    assert (todo e = todo d) as Et.
    { unfold todo. cbn [e SlicesToDownload]. rewrite handled_total_app, (handled_total_none ext Hext). unfold slice_rest, current.
      cbn [SlicesToDownload CurrentSlice CurrentSliceOffset e]. destruct (CurrentSlice d) as [i|] eqn:Hi; cbn [mbind option_bind]; [|lia].
      destruct (co_current _ _ Hd i Hi) as (s & Hs & _). rewrite Hs, (lookup_app_l_Some _ _ _ _ Hs). lia. }
    destruct (chooseCurrentSlice e) as [d' found] eqn:Ech'. destruct found.
    + destruct (chosen_live saved recorded w e d' first Hno Ht He Hneed' Ech') as (d2 & E1 & E2 & E3). split; [done|]. unfold dentry at 1. rewrite E1, <- Et. exact E3.
    + exfalso. by apply (choose_ext d ext d').
  - subst ext. rewrite app_nil_r in *. set (e := mkDFS (CurrentSlice d) (CurrentSliceOffset d) (SlicesToDownload d)) in *. right.
    assert (CheckRemoteFileDownloadComplete e = true) as Ecomp by (apply (all_known_complete (csvFile w)); [done|done|]; intros s Hs; by apply Hcsv, Hrec).
    rewrite Ecomp. split; [by intros ->|by exists e].
Qed.

Lemma calls_finish n : ∀ saved recorded w, ¬ refused → all_recorded w → download_ok true saved recorded w → get_state w = GData → todo (dentry w) < Z.of_nat n →
  ∃ k w', (k ≤ n + 1)%nat ∧ drun w (replicate k (DCall true)) = Some w' ∧ get_state w' = GDone A_SUCCESS.
Proof.
  induction n as [|n IH]; intros saved recorded w Hno Hrec Hw Hg Hn; [pose proof (todo_nonneg _ _ (wo_cursor _ _ _ _ Hw)); unfold dentry in *; lia|].
  pose proof (next_ok true true saved recorded w false ltac:(done) Hw) as Hw'. specialize (Hw' ltac:(done)). set (w1 := answered w false (NextRemoteDownloadPacket true w)) in *.
  assert (all_recorded w1) as Hrec1 by (intros s Hs; unfold w1; rewrite csv_answered; by apply Hrec).
  destruct (call_live saved recorded w false Hno Hrec Hw) as [[E1 E2]|[E1 _]]; fold w1 in E1.
  - fold w1 in E2. destruct (IH saved recorded w1 Hno Hrec1 Hw' E1) as (k & w' & Hk & Hr & Hs); [lia|]. exists (S k), w'. split; [lia|]. split; [|done].
    cbn [replicate drun dstep]. rewrite Hg. done.
  - specialize (E1 eq_refl). exists 2%nat. eexists. split; [lia|]. cbn [replicate drun dstep]. rewrite Hg. fold w1. cbn [dstep]. rewrite E1. by split.
Qed.

Lemma handled_total_elem l : ∀ i s, Forall (fun s => 0 < SliceSize s) l → l !! i = Some s → Handled s = true → SliceSize s ≤ handled_total l.
Proof.
  assert (∀ l, Forall (fun s => 0 < SliceSize s) l → 0 ≤ handled_total l) as Hnn by (induction 1 as [|s l' ? _ ?]; cbn; [done|]; unfold handled_total in *; destruct (Handled s); lia).
  induction l as [|t l IH]; intros [|i] s Hp Hs Hh; try done; inversion Hp; subst; cbn in *.
  - injection Hs as ->. rewrite Hh. specialize (Hnn l). unfold handled_total in *. specialize (Hnn ltac:(done)). lia.
  - specialize (IH i s ltac:(done) Hs Hh). unfold handled_total in *. destruct (Handled t); lia.
Qed.

Lemma todo_bound csv d : cursor_ok csv d → todo d ≤ zlen content.
Proof.
  intros Hd. destruct (cursor_sizes csv d Hd) as [Hp _]. unfold todo, slice_rest, current. destruct (CurrentSlice d) as [i|] eqn:Hi; cbn [mbind option_bind].
  - destruct (co_current _ _ Hd i Hi) as (s & Hs & Hh & Hb). rewrite Hs. pose proof (handled_total_elem _ i s Hp Hs Hh). lia.
  - assert (0 ≤ handled_total (SlicesToDownload d)); [|lia]. clear - Hp. induction Hp as [|s l ? _ ?]; cbn; [done|]. unfold handled_total in *. destruct (Handled s); lia.
Qed.

(** The lines of a run stay. *)
Lemma csv_result ok r w : csvFile (SetDownloadSliceResult ok r w) = csvFile w.
Proof. unfold SetDownloadSliceResult. destruct (get_state w); by rewrite ?csv_answered. Qed.

Lemma dstep_csv w e w' : dstep w e = Some w' → csvFile w ⊆ csvFile w' ∧ ∀ i r s, e = DProgress i true r → df_Slices fi !! i = Some s → SliceHash s ∈ csvFile w'.
Proof.
  destruct e as [r|i|i wr r|ok r]; cbn [dstep].
  - destruct (get_state w); try done; intros [= <-]; rewrite ?csv_answered; by split.
  - destruct (df_Slices fi !! i); [|done]. destruct (SaveDownloadedFileData _ _ _) as [[]]; [|done..]. intros [= <-]. by split.
  - destruct (df_Slices fi !! i) as [s|] eqn:Es; [|done]. intros [= <-]. unfold SaveDownloadProgress. rewrite csv_result. cbn [csvFile].
    split; [intros h Hh; apply elem_of_app; by left|]. intros i' r' s' [= <- -> _] Hs'. rewrite Es in Hs'. injection Hs' as <-. apply elem_of_app. right. by apply list_elem_of_singleton.
  - intros [= <-]. by rewrite csv_result.
Qed.

Lemma drun_csv es : ∀ w w', drun w es = Some w' → csvFile w ⊆ csvFile w' ∧ ∀ i r s, DProgress i true r ∈ es → df_Slices fi !! i = Some s → SliceHash s ∈ csvFile w'.
Proof.
  induction es as [|e es IH]; intros w w'; cbn [drun]; [intros [= <-]; split; [done|]; by intros i r s ?%elem_of_nil|].
  destruct (dstep w e) as [w1|] eqn:E; [|done]. intros Hr. destruct (IH w1 w' Hr) as [H1 H2]. destruct (dstep_csv w e w1 E) as [H3 H4]. split; [by etrans|].
  intros i r s [<-|Hi]%elem_of_cons Hs; [by apply H1, (H4 i r)|by apply (H2 i r)].
Qed.

(** A download through the RPC interface ends with success, when no call of the system
    fails and the file is not empty: once the task has recorded every slice, however the
    client's calls and the task have interleaved before, the client is done after at most
    as many further calls as the file has bytes, and three. *)
Theorem client_download_ends fs es w : (∀ c p, io_err c p = false) → content ≠ [] → fs_files fs !! filePath = None → orderly true ∅ ∅ es → drun (start_download fs) es = Some w →
  (∀ i, (i < length (df_Slices fi))%nat → DProgress i true true ∈ es) →
  ∃ n w', (n ≤ length content + 3)%nat ∧ drun w (replicate n (DCall true)) = Some w' ∧ get_state w' = GDone A_SUCCESS.
Proof.
  intros Hio Hne Hf Ho Hr Hall. assert (¬ refused) as Hno by (intros (c & p & E); by rewrite Hio in E).
  destruct (drun_ok true es ∅ ∅ _ w (start_download_ok true fs Hf) Ho Hr) as (saved & recorded & Hw).
  assert (all_recorded w) as Hrec. { intros s [i Hi]%list_elem_of_lookup. apply (proj2 (drun_csv es _ w Hr) i true s); [|done]. apply Hall. by eapply lookup_lt_Some. }
  pose proof Hw as [Ht Hd Hc Hst]. pose proof (todo_bound _ _ Hd) as Htd. fold (dentry w) in Htd. destruct (get_state w) as [| | |first|r|] eqn:Eg.
  - destruct (call_live saved recorded w true Hno Hrec Hw) as [[E1 E2]|[_ (d' & E1 & E2)]].
    + pose proof (next_ok true true saved recorded w true ltac:(done) Hw (fun _ => Hst)) as Hw1. set (w1 := answered w true (NextRemoteDownloadPacket true w)) in *.
      assert (all_recorded w1) as Hrec1 by (intros s Hs; unfold w1; rewrite csv_answered; by apply Hrec).
      destruct (calls_finish (length content) saved recorded w1 Hno Hrec1 Hw1 E1) as (k & w' & Hk & Hr' & Hs); [unfold zlen in *; lia|].
      exists (S k), w'. split; [lia|]. split; [|done]. cbn [replicate drun dstep]. by rewrite Eg.
    + exfalso. unfold dentry in E1. rewrite Hst in E1. unfold CheckRemoteFileDownloadComplete in E2. rewrite E1 in E2. apply bool_decide_eq_true in E2. cbn in E2.
      rewrite H_fileSize in E2. unfold zlen in E2. by destruct content.
  - destruct (calls_finish (S (length content)) saved recorded w Hno Hrec Hw Eg) as (k & w' & Hk & Hr' & Hs); [unfold zlen in *; lia|]. exists k, w'. split; [lia|done].
  - exists 1%nat. eexists. split; [lia|]. cbn [replicate drun dstep]. rewrite Eg. by split.
  - exfalso. cbv zeta in Hst. destruct Hst as ((Hh & _) & Hin & E). rewrite (all_known_complete (csvFile w)) in E; [done|done|done|]. intros s Hs. by apply Hin, Hrec.
  - destruct r; try (exfalso; by destruct Hst). exists 0%nat, w. split; [lia|]. by split.
  - exfalso. by destruct Hst.
Qed.
End Whole.
End Download.

(** ** A file in two slices *)

Module RpcDownloadDemo.
Definition body : bytes := [Byte.x68; Byte.x65; Byte.x6c; Byte.x6c; Byte.x6f].
Definition s1 : DownloadSlice := mkDownloadSlice "v1" 0 3 false.
Definition s2 : DownloadSlice := mkDownloadSlice "v2" 3 2 false.
Definition info : DownloadFile := mkDownloadFile "fh" 5 "hello" [s1; s2].
Definition part_of_body (s : DownloadSlice) : bytes := take (Z.to_nat (SliceSize s)) (drop (Z.to_nat (SliceFileOffset s)) body).
Definition fine (c : syscall) (p : string) : bool := false.
Definition disk : FS := mkFS ∅ ∅.
Definition runs (es : list devent) : option dworld := drun fine "/sds" 2 "fh" info part_of_body (start_download disk) es.

(** The second slice comes first; the client waits for the other one. *)
Definition schedule : list devent :=
  [DCall false; DSave 1; DProgress 1 true true; DCall false; DSave 0; DProgress 0 true true; DCall true; DCall true; DCall true].

Example session_succeeds : match runs schedule with Some w => get_state w = GDone A_SUCCESS ∧ clientFile w = body | None => False end.
Proof. vm_compute. by split. Qed.

(** A line that is written twice ends the download with the file cut short: the call that waits
    wakes up, there is nothing new to choose, and the slice that it reads again is at the end
    of the temporary file. *)
Example recorded_twice : match runs [DSave 0; DProgress 0 true true; DCall true; DCall true; DCall true; DProgress 0 true true; DCall true] with
  Some w => get_state w = GDone A_SUCCESS ∧ clientFile w = take 3 body | None => False end.
Proof. vm_compute. by split. Qed.

(** So does a line that does not get into the CSV file, or that cannot be read when the call wakes
    up, and a second answer of the SP about the file: here the beginning of the file is missing. *)
Definition to_the_end : list devent := [DSave 1; DProgress 1 true true; DCall true; DCall true; DSave 0].
Definition cut_short (e : devent) : Prop := match runs (to_the_end ++ [e; DCall true]) with
  Some w => get_state w = GDone A_SUCCESS ∧ clientFile w = replicate 3 Byte.x00 ++ drop 3 body | None => False end.
Example unrecorded_slices_are_lost :
  cut_short (DProgress 0 false true) ∧ cut_short (DProgress 0 true false) ∧ cut_short (DWake true true) ∧ cut_short (DWake false true).
Proof. vm_compute. repeat split. Qed.

Lemma slices_of_body : Forall (slice_of_content part_of_body body) (df_Slices info).
Proof. repeat constructor; unfold zlen; cbn; lia. Qed.

Lemma hashes_differ : NoDup (SliceHash <$> df_Slices info).
Proof. apply (bool_decide_eq_true_1 _). reflexivity. Qed.

Lemma slices_cover : ∀ j, (j < length body)%nat → ∃ s, s ∈ df_Slices info ∧ in_slice s j.
Proof.
  intros j Hj. cbn in Hj. destruct (decide (j < 3)%nat); [exists s1|exists s2]; (split; [cbn; set_solver|unfold in_slice; cbn; lia]).
Qed.

Lemma schedule_orderly : orderly false ∅ ∅ schedule.
Proof. cbn. set_solver. Qed.


(** The client makes its first call when both slices are there. *)
Definition arrived : list devent := [DSave 1; DProgress 1 true true; DSave 0; DProgress 0 true true].

Lemma client_download_ends_witness : ∃ w n w', runs arrived = Some w ∧ (n ≤ 8)%nat
  ∧ drun fine "/sds" 2 "fh" info part_of_body w (replicate n (DCall true)) = Some w' ∧ get_state w' = GDone A_SUCCESS.
Proof.
  assert (orderly true ∅ ∅ arrived) as Ho by (cbn; set_solver).
  assert (∀ i, (i < length (df_Slices info))%nat → DProgress i true true ∈ arrived) as Hall.
  { intros [|[|i]] Hi; cbn in Hi; [|..|lia]; unfold arrived; set_solver. }
  destruct (runs arrived) as [w|] eqn:E; [|exfalso; revert E; vm_compute; discriminate].
  destruct (client_download_ends fine "/sds" 2 "fh" info part_of_body body slices_of_body hashes_differ slices_cover
    eq_refl eq_refl ltac:(unfold zlen; cbn; lia) ltac:(done) disk arrived w ltac:(done) ltac:(done) eq_refl Ho E Hall) as (n & w' & H1 & H2 & H3).
  by exists w, n, w'.
Defined.
End RpcDownloadDemo.
