(* ===== verification/BigMath.v ===== *)
(** * BigMath: arithmetic on big and on 64-bit integers

    Models framework/crypto/math: the functions on big.Int of big.go, which work on the 64-bit
    words of a number, and the checked arithmetic of integer.go.  A big.Int is a [Z]; a
    function that changes its argument in place returns what the argument holds afterwards.
    Reading and printing numbers is in [Hex]. *)
From S2P Require Import Prelude Bytes Rlp RlpEncode.

(** ** The words of a number *)

(** [Bits] of a big.Int: the words of the absolute value, lowest first. *)
Definition words (x : Z) : list Z := Bits (Z.to_nat (BitLen (Z.abs x))) (Z.abs x).

Fixpoint words_value (ws : list Z) : Z := match ws with [] => 0 | w :: ws => w + 2 ^ 64 * words_value ws end.

(** ** big.go *)

Definition BigPow (a b : Z) : Z := if bool_decide (b ≤ 0) then 1 else a ^ b.
Definition tt255 : Z := BigPow 2 255.
Definition tt256 : Z := BigPow 2 256.
Definition tt256m1 : Z := tt256 - 1.

Definition BigMax (x y : Z) : Z := if bool_decide (x < y) then y else x.
Definition BigMin (x y : Z) : Z := if bool_decide (x > y) then y else x.

(** The loop of FirstBitSet; [Bit] reads negative numbers in two's complement. *)
Fixpoint first_bit (fuel : nat) (i : Z) (v : Z) : Z :=
  match fuel with
  | O => BitLen (Z.abs v)
  | S fuel => if Z.testbit v i then i else first_bit fuel (i + 1) v
  end.
Definition FirstBitSet (v : Z) : Z := first_bit (Z.to_nat (BitLen (Z.abs v))) 0 v.

(** The buffer is filled from its end; what is not reached stays. *)
Definition ReadBits (x : Z) (buf : bytes) : bytes :=
  let '(i, filled) := put_words (words x) (length buf) [] in take i buf ++ filled.

Definition PaddedBigBytes (x : Z) (n : nat) : bytes :=
  if bool_decide (Z.of_nat n ≤ BitLen (Z.abs x) / 8) then be_bytes (Z.abs x) else ReadBits x (replicate n Byte.x00).

Definition bigEndianByteAt (x : Z) (n : nat) : byte :=
  match words x !! (n / 8)%nat with
  | None => Byte.x00
  | Some word => byte_of_Z (word ≫ (8 * Z.of_nat (n mod 8)))
  end.

Definition Byte (x : Z) (padlength n : nat) : byte :=
  if bool_decide (padlength ≤ n)%nat then Byte.x00 else bigEndianByteAt x (padlength - 1 - n).

Definition U256 (x : Z) : Z := Z.land x tt256m1.
Definition U256Bytes (x : Z) : bytes := PaddedBigBytes (U256 x) 32.
Definition S256 (x : Z) : Z := if bool_decide (x < tt255) then x else x - tt256.

(** The bits of one word, then the words: the result so far and the base. *)
Fixpoint exp_word (i : nat) (word result base : Z) : Z * Z :=
  match i with
  | O => (result, base)
  | S i =>
      let result := if bool_decide (Z.land word 1 = 1) then U256 (result * base) else result in
      exp_word i (word ≫ 1) result (U256 (base * base))
  end.
Fixpoint exp_words (ws : list Z) (result base : Z) : Z * Z :=
  match ws with
  | [] => (result, base)
  | word :: ws => let '(result, base) := exp_word 64 word result base in exp_words ws result base
  end.

(** The result and what the variable [base] of the caller holds afterwards. *)
Definition Exp (base exponent : Z) : Z * Z := exp_words (words exponent) 1 base.

(** ** integer.go *)

Definition not64 (x : Z) : Z := Z.lxor x (2 ^ 64 - 1).
(** [bits.Sub64] and [bits.Add64] without a carry in: the highest bit tells the carry out. *)
Definition Sub64 (x y : Z) : Z * Z :=
  let diff := u64 (x - y) in (diff, Z.lor (Z.land (not64 x) y) (Z.land (not64 (Z.lxor x y)) diff) ≫ 63).
Definition Add64 (x y : Z) : Z * Z :=
  let sum := u64 (x + y) in (sum, Z.lor (Z.land x y) (Z.ldiff (Z.lor x y) sum) ≫ 63).
Definition SafeSub (x y : Z) : Z * bool := let '(diff, borrowOut) := Sub64 x y in (diff, bool_decide (borrowOut ≠ 0)).
Definition SafeAdd (x y : Z) : Z * bool := let '(sum, carryOut) := Add64 x y in (sum, bool_decide (carryOut ≠ 0)).
(** [bits.Mul64], by halves of 32 bits. *)
Definition Mul64 (x y : Z) : Z * Z :=
  let mask32 := 2 ^ 32 - 1 in
  let x0 := Z.land x mask32 in
  let x1 := x ≫ 32 in
  let y0 := Z.land y mask32 in
  let y1 := y ≫ 32 in
  let w0 := u64 (x0 * y0) in
  let t := u64 (x1 * y0 + (w0 ≫ 32)) in
  let w1 := u64 (Z.land t mask32 + x0 * y1) in
  let w2 := t ≫ 32 in
  (u64 (x1 * y1 + w2 + (w1 ≫ 32)), u64 (x * y)).
Definition SafeMul (x y : Z) : Z * bool := let '(hi, lo) := Mul64 x y in (lo, bool_decide (hi ≠ 0)).

(** ** Words *)

Lemma words_value_Bits fuel : ∀ a, 0 ≤ a < 2 ^ Z.of_nat fuel → words_value (Bits fuel a) = a.
Proof.
  induction fuel as [|fuel IH]; intros a Ha; cbn [Bits]; [cbn in *; lia|]. case_bool_decide as H0; [by subst|]. cbn [words_value].
  rewrite Z.shiftr_div_pow2 by lia. rewrite IH; [unfold wrapu; pose proof (Z.div_mod a (2 ^ 64)); lia|]. split; [apply Z.div_pos; lia|].
  rewrite Nat2Z.inj_succ, Z.pow_succ_r in Ha by lia. apply Z.div_lt_upper_bound; [lia|]. assert (0 < 2 ^ Z.of_nat fuel) by lia. nia.
Qed.

Lemma BitLen_bound a : 0 ≤ a → 0 ≤ a < 2 ^ Z.of_nat (Z.to_nat (BitLen a)).
Proof.
  intros Ha. split; [done|]. unfold BitLen. case_bool_decide as H0; [by subst|]. pose proof (Z.log2_nonneg a). rewrite Z2Nat.id by lia.
  pose proof (Z.log2_spec a). lia.
Qed.

Lemma words_value_words x : words_value (words x) = Z.abs x.
Proof. apply words_value_Bits, BitLen_bound. lia. Qed.

Lemma Bits_range fuel : ∀ a, Forall (in_u 64) (Bits fuel a).
Proof. induction fuel as [|fuel IH]; intros a; cbn [Bits]; [constructor|]. case_bool_decide; constructor; [by apply wrapu_range|apply IH]. Qed.

Lemma words_range x : Forall (in_u 64) (words x).
Proof. apply Bits_range. Qed.

(** ** Bytes of a number *)

Lemma put_words_some i fuel : ∀ k n, 0 ≤ i → i / 256 ^ Z.of_nat k < 2 ^ Z.of_nat fuel →
  ∃ m, put_words (Bits fuel (i / 256 ^ Z.of_nat k)) n (be_encode k i) = ((n - m)%nat, be_encode (k + m) i) ∧ (m ≤ n)%nat ∧ (m = n ∨ i < 256 ^ Z.of_nat (k + m)).
Proof.
  induction fuel as [|fuel IH]; intros k n Hi Ha; set (a := i / 256 ^ Z.of_nat k) in *; assert (0 ≤ a) as Ha0 by (apply Z.div_pos; lia).
  { exists O. rewrite Nat.sub_0_r, Nat.add_0_r. split; [done|]. split; [lia|right]. assert (a = 0) as E by (simpl in Ha; lia). apply Z.div_small_iff in E; lia. }
  cbn [Bits]. case_bool_decide as H0.
  { exists O. rewrite Nat.sub_0_r, Nat.add_0_r. split; [done|]. split; [lia|right]. apply Z.div_small_iff in H0; lia. }
  cbn [put_words]. rewrite put_word_ok; cycle 1.
  { intros r Hr. rewrite byte_of_word by done. unfold a. rewrite Z.div_div, <- Z.pow_add_r, <- Nat2Z.inj_add by lia. done. }
  destruct (decide (n ≤ 8)%nat).
  { exists n. rewrite Nat.min_r by done. rewrite Nat.sub_diag, put_words_nothing. split; [done|]. split; [lia|by left]. }
  rewrite Nat.min_l by lia. rewrite Z.shiftr_div_pow2 by lia. change (2 ^ 64) with (256 ^ Z.of_nat 8). unfold a in *.
  assert (i / 256 ^ Z.of_nat k / 256 ^ Z.of_nat 8 < 2 ^ Z.of_nat fuel) as Hlt.
  { apply Z.div_lt_upper_bound; [lia|]. rewrite Nat2Z.inj_succ, Z.pow_succ_r in Ha by lia. assert (0 < 2 ^ Z.of_nat fuel) by lia. change (256 ^ Z.of_nat 8) with (2 ^ 64). nia. }
  rewrite Z.div_div, <- Z.pow_add_r, <- Nat2Z.inj_add in * by lia.
  destruct (IH (k + 8)%nat (n - 8)%nat Hi Hlt) as (m & E & Hm & Hor). exists (8 + m)%nat. rewrite E. split; [f_equal; [lia|f_equal; lia]|]. split; [lia|].
  destruct Hor as [->|Hor]; [left; lia|right]. replace (k + (8 + m))%nat with (k + 8 + m)%nat by lia. done.
Qed.

Lemma be_encode_small m z n : 0 ≤ z < 256 ^ Z.of_nat m → be_encode (n + m) z = replicate n Byte.x00 ++ be_encode m z.
Proof.
  intros Hz. induction n as [|n IH]; [done|]. cbn [Nat.add be_encode replicate app]. rewrite IH. f_equal.
  rewrite Z.div_small; [done|]. split; [lia|]. eapply Z.lt_le_trans; [apply Hz|]. apply Z.pow_le_mono_r; lia.
Qed.

(** ReadBits fills the end of the buffer with the number, as far as there is room. *)
Lemma ReadBits_bytes x buf : ∃ m, ReadBits x buf = take (length buf - m) buf ++ be_encode m (Z.abs x) ∧ (m ≤ length buf)%nat ∧ (m = length buf ∨ Z.abs x < 256 ^ Z.of_nat m).
Proof.
  unfold ReadBits, words. destruct (put_words_some (Z.abs x) (Z.to_nat (BitLen (Z.abs x))) 0 (length buf)) as (m & E & Hm & Hor); [lia|rewrite Z.div_1_r; apply BitLen_bound; lia|].
  rewrite Z.div_1_r in E. cbn [be_encode Nat.add] in E. rewrite E. by exists m.
Qed.

Lemma ReadBits_zeros x n : ReadBits x (replicate n Byte.x00) = be_encode n (Z.abs x).
Proof.
  destruct (ReadBits_bytes x (replicate n Byte.x00)) as (m & -> & Hm & Hor). rewrite length_replicate in *. rewrite take_replicate, Nat.min_l by lia.
  destruct Hor as [->|Hlt]; [by rewrite Nat.sub_diag|]. replace n with (n - m + m)%nat at 2 by lia. rewrite be_encode_small; [done|lia].
Qed.

Lemma lookup_be_encode p z : ∀ n, (n < p)%nat → be_encode p z !! n = Some (byte_of_Z (z / 256 ^ Z.of_nat (p - 1 - n))).
Proof.
  induction p as [|p IH]; intros [|n] Hn; [lia|lia| |]; cbn [be_encode]; [cbn [lookup list_lookup]; do 4 f_equal; lia|].
  change (be_encode p z !! n = Some (byte_of_Z (z / 256 ^ Z.of_nat (S p - 1 - S n)))). rewrite IH by lia. do 5 f_equal. lia.
Qed.

Lemma lookup_Bits fuel : ∀ a k, 0 ≤ a < 2 ^ Z.of_nat fuel →
  Bits fuel a !! k = if bool_decide (a / 2 ^ (64 * Z.of_nat k) = 0) then None else Some (u64 (a / 2 ^ (64 * Z.of_nat k))).
Proof.
  induction fuel as [|fuel IH]; intros a k Ha; cbn [Bits].
  { assert (a = 0) as -> by (cbn in Ha; lia). by rewrite Z.div_0_l by lia. }
  case_bool_decide as H0; [subst; by rewrite Z.div_0_l by lia|]. destruct k as [|k].
  { rewrite Z.mul_0_r, Z.pow_0_r, Z.div_1_r. by rewrite (bool_decide_eq_false_2 (a = 0)). }
  change ((u64 a :: Bits fuel (a ≫ 64)) !! S k) with (Bits fuel (a ≫ 64) !! k). rewrite Z.shiftr_div_pow2 by lia. rewrite IH.
  - rewrite Z.div_div, <- Z.pow_add_r by lia. by replace (64 + 64 * Z.of_nat k) with (64 * Z.of_nat (S k)) by lia.
  - split; [apply Z.div_pos; lia|]. rewrite Nat2Z.inj_succ, Z.pow_succ_r in Ha by lia. apply Z.div_lt_upper_bound; [lia|]. assert (0 < 2 ^ Z.of_nat fuel) by lia. nia.
Qed.

Lemma bigEndianByteAt_byte x n : bigEndianByteAt x n = byte_of_Z (Z.abs x / 256 ^ Z.of_nat n).
Proof.
  unfold bigEndianByteAt, words. rewrite lookup_Bits by (apply BitLen_bound; lia). pose proof (Nat.div_mod n 8 ltac:(done)) as En. pose proof (Nat.mod_upper_bound n 8 ltac:(done)) as Hr.
  assert (256 ^ Z.of_nat n = 2 ^ (64 * Z.of_nat (n / 8)) * 256 ^ Z.of_nat (n mod 8)) as E.
  { rewrite !pow256, <- Z.pow_add_r by lia. f_equal. lia. }
  rewrite E, <- Z.div_div by lia. case_bool_decide as H0; [by rewrite H0, Z.div_0_l by lia|].
  rewrite Z.shiftr_div_pow2 by lia. rewrite <- pow256. by rewrite byte_of_word.
Qed.

(** The functions that take a number apart word by word give its big-endian bytes:
    PaddedBigBytes of the absolute value, in [n] bytes or as many as it needs, and Byte each
    byte of it, at every width. *)
Theorem padded_bytes_are_big_endian x n :
  PaddedBigBytes x n = be_encode (Nat.max n (be_len (Z.abs x))) (Z.abs x)
  ∧ be_decode (PaddedBigBytes x n) = Z.abs x
  ∧ ∀ p i, (i < p)%nat → be_encode p (Z.abs x) !! i = Some (Byte x p i).
Proof.
  assert (PaddedBigBytes x n = be_encode (Nat.max n (be_len (Z.abs x))) (Z.abs x)) as E.
  { unfold PaddedBigBytes. destruct (decide (x = 0)) as [->|Hx].
    - change (BitLen (Z.abs 0) / 8) with 0. change (be_len (Z.abs 0)) with O. rewrite Nat.max_0_r. case_bool_decide; [by replace n with O by lia|apply ReadBits_zeros].
    - pose proof (Z.log2_nonneg (Z.abs x)) as Hl. assert (0 ≤ Z.log2 (Z.abs x) / 8) as Hd by (apply Z.div_pos; lia).
      assert (be_len (Z.abs x) = Z.to_nat (Z.log2 (Z.abs x) / 8 + 1)) as El by (unfold be_len; by rewrite bool_decide_eq_false_2 by lia).
      unfold BitLen. rewrite (bool_decide_eq_false_2 (Z.abs x = 0)) by lia. case_bool_decide as Hn.
      + unfold be_bytes. rewrite Nat.max_r; [done|]. rewrite El. assert ((Z.log2 (Z.abs x) + 1) / 8 ≤ Z.log2 (Z.abs x) / 8 + 1); [|lia].
        replace (Z.log2 (Z.abs x) / 8 + 1) with ((Z.log2 (Z.abs x) + 1 * 8) / 8) by (by rewrite Z.div_add). apply Z.div_le_mono; lia.
      + rewrite ReadBits_zeros, Nat.max_l; [done|]. rewrite El. assert (Z.log2 (Z.abs x) / 8 ≤ (Z.log2 (Z.abs x) + 1) / 8) by (apply Z.div_le_mono; lia). lia. }
  split; [done|]. split.
  - rewrite E, be_decode_encode. apply Z.mod_small. split; [lia|]. destruct (decide (x = 0)) as [->|Hx]; [apply Z.pow_pos_nonneg; lia|].
    destruct (be_len_pos (Z.abs x)) as (k & Ek & Hk); [lia|]. eapply Z.lt_le_trans; [apply Hk|]. apply Z.pow_le_mono_r; lia.
  - intros p i Hi. rewrite lookup_be_encode by done. unfold Byte. rewrite bool_decide_eq_false_2 by lia. by rewrite bigEndianByteAt_byte.
Qed.

(** ** 256-bit arithmetic *)

Lemma U256_mod x : U256 x = x mod 2 ^ 256.
Proof. unfold U256. change tt256m1 with (Z.ones 256). by rewrite Z.land_ones by lia. Qed.

(** U256 and S256 are the two readings of a 256-bit number. *)
Lemma S256_U256 x : S256 (U256 x) = wraps 256 x.
Proof.
  rewrite U256_mod. unfold S256, wraps. change tt255 with (2 ^ (256 - 1)). change tt256 with (2 ^ 256).
  assert (0 < 2 ^ (256 - 1)) as Hh by lia. assert (2 ^ 256 = 2 * 2 ^ (256 - 1)) as -> by reflexivity. generalize dependent (2 ^ (256 - 1)). intros h Hh.
  pose proof (Z.mod_pos_bound x (2 * h) ltac:(lia)) as Hb. pose proof (Z.div_mod x (2 * h) ltac:(lia)) as Hx. set (r := x mod (2 * h)) in *. set (q := x / (2 * h)) in *. case_bool_decide.
  - replace (x + h) with (r + h + q * (2 * h)) by lia. rewrite Z.mod_add, Z.mod_small by lia. lia.
  - replace (x + h) with (r - h + (q + 1) * (2 * h)) by lia. rewrite Z.mod_add, Z.mod_small by lia. lia.
Qed.

Lemma U256Bytes_bytes x : U256Bytes x = be_encode 32 (x mod 2 ^ 256).
Proof.
  pose proof (Z.mod_pos_bound x (2 ^ 256) ltac:(lia)) as Hb. assert ((be_len (x mod 2 ^ 256) ≤ 32)%nat) as Hl by (apply be_len_le; change (256 ^ Z.of_nat 32) with (2 ^ 256); lia).
  unfold U256Bytes, PaddedBigBytes. rewrite U256_mod, Z.abs_eq by lia. case_bool_decide as Hn; [|rewrite ReadBits_zeros, Z.abs_eq by lia; done].
  unfold be_bytes. f_equal. destruct (decide (x mod 2 ^ 256 = 0)) as [E|E]; [rewrite E in Hn; change (BitLen 0 / 8) with 0 in Hn; lia|].
  assert (256 ≤ BitLen (x mod 2 ^ 256)) as Hbl by (pose proof (Z.div_mod (BitLen (x mod 2 ^ 256)) 8 ltac:(lia)); pose proof (Z.mod_pos_bound (BitLen (x mod 2 ^ 256)) 8 ltac:(lia)); lia).
  unfold BitLen in Hbl. rewrite bool_decide_eq_false_2 in Hbl by done. unfold be_len in *. rewrite bool_decide_eq_false_2 in * by lia.
  assert (Z.log2 (x mod 2 ^ 256) < 256) by (apply Z.log2_lt_pow2; lia). replace (Z.log2 (x mod 2 ^ 256)) with 255 by lia. done.
Qed.

Definition cong (a b : Z) : Prop := a mod 2 ^ 256 = b mod 2 ^ 256.
#[local] Instance cong_equiv : Equivalence cong.
Proof. split; red; unfold cong; congruence. Qed.
#[local] Instance cong_mul : Proper (cong ==> cong ==> cong) Z.mul.
Proof. intros a a' Ha b b' Hb. unfold cong in *. by rewrite Z.mul_mod, Ha, Hb, <- Z.mul_mod by lia. Qed.
#[local] Instance cong_pow : Proper (cong ==> eq ==> cong) Z.pow.
Proof. intros a a' Ha n ? <-. unfold cong in *. destruct (decide (n < 0)); [by rewrite (Z.pow_neg_r a n), (Z.pow_neg_r a' n) by done|]. by rewrite <- (Z.mod_pow_l a), <- (Z.mod_pow_l a'), Ha. Qed.
Lemma cong_U256 a : cong (U256 a) a.
Proof. unfold cong. by rewrite U256_mod, Z.mod_mod by lia. Qed.

Lemma land_1_odd w : bool_decide (Z.land w 1 = 1) = Z.odd w.
Proof.
  change 1 with (Z.ones 1). rewrite Z.land_ones by lia. change (2 ^ 1) with 2. rewrite Zmod_odd. change (Z.ones 1) with 1. by destruct (Z.odd w).
Qed.

(** One word: squaring and multiplying. *)
Lemma exp_word_ok n : ∀ word result base, 0 ≤ word < 2 ^ Z.of_nat n → 0 ≤ result < 2 ^ 256 →
  let '(r, b) := exp_word n word result base in cong r (result * base ^ word) ∧ cong b (base ^ 2 ^ Z.of_nat n) ∧ 0 ≤ r < 2 ^ 256.
Proof.
  induction n as [|n IH]; intros word result base Hw Hr; cbn [exp_word].
  { assert (word = 0) as -> by (cbn in Hw; lia). change (2 ^ Z.of_nat 0) with 1. rewrite Z.pow_0_r, Z.mul_1_r, Z.pow_1_r. done. }
  rewrite land_1_odd. set (r1 := if Z.odd word then U256 (result * base) else result).
  assert (0 ≤ r1 < 2 ^ 256) as Hr1 by (unfold r1; destruct (Z.odd word); [rewrite U256_mod; apply Z.mod_pos_bound; lia|done]).
  rewrite Nat2Z.inj_succ, Z.pow_succ_r in Hw by lia.
  specialize (IH (word ≫ 1) r1 (U256 (base * base))). rewrite Z.shiftr_div_pow2 in * by lia. change (2 ^ 1) with 2 in *.
  pose proof (Z.div_mod word 2 ltac:(lia)) as Ew. rewrite Zmod_odd in Ew.
  destruct (exp_word n (word / 2) r1 (U256 (base * base))) as [r b]. destruct IH as (H1 & H2 & H3); [split; [apply Z.div_pos; lia|apply Z.div_lt_upper_bound; lia]|done|].
  split; [|split; [|done]].
  - rewrite H1, cong_U256. assert (0 ≤ word / 2) by (apply Z.div_pos; lia). rewrite <- Z.pow_2_r, <- Z.pow_mul_r by lia. unfold r1. destruct (Z.odd word).
    + rewrite cong_U256. replace word with (2 * (word / 2) + 1) at 2 by lia. rewrite Z.pow_add_r, Z.pow_1_r by lia. by replace (result * base * base ^ (2 * (word / 2))) with (result * (base ^ (2 * (word / 2)) * base)) by ring.
    + by replace word with (2 * (word / 2)) at 2 by lia.
  - rewrite H2, cong_U256. rewrite <- Z.pow_2_r, <- Z.pow_mul_r by lia. rewrite Nat2Z.inj_succ, Z.pow_succ_r by lia. done.
Qed.

Lemma words_value_nonneg ws : Forall (in_u 64) ws → 0 ≤ words_value ws.
Proof. induction 1 as [|w ws Hw _ IH]; cbn [words_value]; unfold in_u in *; lia. Qed.

Lemma exp_words_ok ws : Forall (in_u 64) ws → ∀ result base, 0 ≤ result < 2 ^ 256 →
  let '(r, b) := exp_words ws result base in cong r (result * base ^ words_value ws) ∧ cong b (base ^ 2 ^ (64 * zlen ws)) ∧ 0 ≤ r < 2 ^ 256.
Proof.
  induction 1 as [|w ws Hw Hws IH]; intros result base Hr; cbn [exp_words words_value].
  { rewrite Z.pow_0_r, Z.mul_1_r, (@zlen_nil Z), Z.mul_0_r, Z.pow_0_r, Z.pow_1_r. done. }
  pose proof (exp_word_ok 64 w result base Hw Hr) as H. destruct (exp_word 64 w result base) as [r1 b1]. destruct H as (H1 & H2 & H3).
  specialize (IH r1 b1 H3). destruct (exp_words ws r1 b1) as [r b]. destruct IH as (G1 & G2 & G3). pose proof (words_value_nonneg ws Hws) as Hv. split; [|split; [|done]].
  - rewrite G1, H1, H2. change (Z.of_nat 64) with 64. rewrite <- Z.pow_mul_r by lia. rewrite <- Z.mul_assoc, <- Z.pow_add_r by (unfold in_u in Hw; lia). done.
  - rewrite G2, H2. change (Z.of_nat 64) with 64. pose proof (zlen_nonneg ws). rewrite <- Z.pow_mul_r, <- Z.pow_add_r by lia. unfold zlen in *. cbn [length]. by replace (64 * Z.of_nat (S (length ws))) with (64 + 64 * Z.of_nat (length ws)) by lia.
Qed.

(** Exp computes the power of its base, for any sign and size of the base, modulo 2^256,
    by squaring over the words of the exponent.  It also changes the caller's base, to a
    power of itself, unless the exponent is zero. *)
Theorem Exp_is_power base exponent :
  (Exp base exponent).1 = base ^ Z.abs exponent mod 2 ^ 256
  ∧ (Exp base exponent).2 mod 2 ^ 256 = base ^ 2 ^ (64 * zlen (words exponent)) mod 2 ^ 256.
Proof.
  unfold Exp. pose proof (exp_words_ok (words exponent) (words_range exponent) 1 base ltac:(lia)) as H. destruct (exp_words (words exponent) 1 base) as [r b].
  destruct H as (H1 & H2 & H3). rewrite words_value_words, Z.mul_1_l in H1. split; [|exact H2]. cbn [fst]. rewrite <- H1. symmetry. by apply Z.mod_small.
Qed.

(** The base of [Exp 3 5] is not 3 any more. *)
Example Exp_changes_base : (Exp 3 5).1 = 243 ∧ (Exp 3 5).2 ≠ 3.
Proof. split; vm_compute; done. Qed.

(** ** Bits *)

Lemma first_bit_spec v fuel : ∀ i, 0 ≤ i → i + Z.of_nat fuel = BitLen (Z.abs v) → (∀ k, 0 ≤ k < i → Z.testbit v k = false) →
  (∃ k, 0 ≤ k < BitLen (Z.abs v) ∧ Z.testbit v k = true) → let r := first_bit fuel i v in 0 ≤ r ∧ Z.testbit v r = true ∧ ∀ k, 0 ≤ k < r → Z.testbit v k = false.
Proof.
  induction fuel as [|fuel IH]; intros i Hi Hf Hlow (k & Hk & Hb); cbn [first_bit].
  { rewrite Hlow in Hb by lia. done. }
  destruct (Z.testbit v i) eqn:E; [done|]. apply IH; [lia|lia| |by exists k]. intros k' Hk'. destruct (decide (k' = i)) as [->|]; [done|]. apply Hlow. lia.
Qed.

Lemma pow2_divides v r : 0 ≤ r → (2 ^ r | v) ↔ ∀ k, 0 ≤ k < r → Z.testbit v k = false.
Proof.
  intros Hr. rewrite <- Z.mod_divide by lia. rewrite <- Z.land_ones by lia. split.
  - intros E k Hk. rewrite <- (andb_true_r (Z.testbit v k)), <- (Z.ones_spec_low r k) by lia. rewrite <- Z.land_spec, E. apply Z.bits_0.
  - intros H. apply Z.bits_inj'. intros k Hk. rewrite Z.land_spec, Z.bits_0. destruct (decide (k < r)); [by rewrite H by lia|]. rewrite Z.ones_spec_high by lia. by rewrite andb_false_r.
Qed.

(** A number has a bit below its length. *)
Lemma some_bit v : v ≠ 0 → ∃ k, 0 ≤ k < BitLen (Z.abs v) ∧ Z.testbit v k = true.
Proof.
  intros Hv. assert (0 ≤ BitLen (Z.abs v)) as Hbl by (unfold BitLen; case_bool_decide; [done|]; pose proof (Z.log2_nonneg (Z.abs v)); lia).
  destruct (decide (Exists (fun k => Z.testbit v k = true) (seqZ 0 (BitLen (Z.abs v))))) as [(k & Hk%elem_of_seqZ & E)%list.Exists_exists|Hno]; [exists k; split; [lia|done]|].
  exfalso. assert ((2 ^ BitLen (Z.abs v) | v)) as [q Hq].
  - apply pow2_divides; [done|]. intros k Hk. destruct (Z.testbit v k) eqn:E; [|done]. exfalso. apply Hno, list.Exists_exists. exists k. split; [|done]. apply elem_of_seqZ. lia.
  - destruct (BitLen_bound (Z.abs v)) as [_ Hb]; [lia|]. rewrite Z2Nat.id in Hb by done.
    assert (1 ≤ Z.abs q) by (destruct (decide (q = 0)) as [->|]; lia). apply (f_equal Z.abs) in Hq. rewrite Z.abs_mul, (Z.abs_eq (2 ^ _)) in Hq by lia. nia.
Qed.

(** FirstBitSet counts the factors two. *)
Lemma FirstBitSet_spec v k : v ≠ 0 → 0 ≤ k → (2 ^ k | v) ↔ k ≤ FirstBitSet v.
Proof.
  intros Hv Hk. destruct (first_bit_spec v (Z.to_nat (BitLen (Z.abs v))) 0) as (H1 & H2 & H3); [done| |lia|by apply some_bit|].
  { unfold BitLen. case_bool_decide; [done|]. pose proof (Z.log2_nonneg (Z.abs v)). lia. }
  fold (FirstBitSet v) in *. rewrite pow2_divides by done. split.
  - intros H. apply Z.nlt_ge. intros Hlt. rewrite H in H2; [done|lia].
  - intros Hle j Hj. apply H3. lia.
Qed.

(** ** Checked arithmetic *)

Lemma high_bit v : 0 ≤ v < 2 ^ 64 → Z.testbit v 63 = bool_decide (2 ^ 63 ≤ v).
Proof.
  intros Hv. rewrite Z.testbit_odd, Z.shiftr_div_pow2 by lia. case_bool_decide; [|by rewrite Z.div_small by lia].
  replace (v / 2 ^ 63) with 1; [done|]. apply (Z.div_unique _ _ _ (v - 2 ^ 63)); lia.
Qed.

Lemma shiftr_63 v : 0 ≤ v < 2 ^ 64 → bool_decide (v ≫ 63 ≠ 0) = Z.testbit v 63.
Proof.
  intros Hv. rewrite high_bit by done. rewrite Z.shiftr_div_pow2 by lia. apply bool_decide_ext. split; intros H; [|intros E; apply Z.div_small_iff in E; lia].
  apply Z.nlt_ge. intros Hlt. apply H, Z.div_small. lia.
Qed.

Lemma log2_u64 x : in_u 64 x ↔ 0 ≤ x ∧ Z.log2 x < 64.
Proof.
  unfold in_u. split; intros [H1 H2]; (split; [done|]); destruct (decide (x = 0)) as [->|]; try done; by apply Z.log2_lt_pow2; [lia|].
Qed.

Lemma lor_u64 a b : in_u 64 a → in_u 64 b → in_u 64 (Z.lor a b).
Proof. rewrite !log2_u64. intros [? ?] [? ?]. split; [by apply Z.lor_nonneg|]. rewrite Z.log2_lor by done. lia. Qed.

Lemma lxor_u64 a b : in_u 64 a → in_u 64 b → in_u 64 (Z.lxor a b).
Proof. rewrite !log2_u64. intros [? ?] [? ?]. split; [by apply Z.lxor_nonneg|]. pose proof (Z.log2_lxor a b). lia. Qed.

Lemma land_u64 a b : in_u 64 a → in_u 64 b → in_u 64 (Z.land a b).
Proof. rewrite !log2_u64. intros [? ?] [? ?]. split; [apply Z.land_nonneg; by left|]. pose proof (Z.log2_land a b). lia. Qed.

Lemma ldiff_u64 a b : in_u 64 a → in_u 64 b → in_u 64 (Z.ldiff a b).
Proof.
  unfold in_u. intros Ha Hb. assert (Z.ldiff a b ≫ 64 = 0) as E by (rewrite Z.shiftr_ldiff, Z.shiftr_div_pow2, Z.div_small by lia; apply Z.ldiff_0_l).
  rewrite Z.shiftr_div_pow2 in E by lia. apply Z.div_small_iff in E; lia.
Qed.

Lemma not64_u64 x : in_u 64 x → in_u 64 (not64 x).
Proof. intros Hx. apply lxor_u64; [done|]. unfold in_u. lia. Qed.

Lemma not64_bit x : Z.testbit (not64 x) 63 = negb (Z.testbit x 63).
Proof. unfold not64. change (2 ^ 64 - 1) with (Z.ones 64). rewrite Z.lxor_spec, (Z.ones_spec_low 64 63) by lia. by destruct (Z.testbit x 63). Qed.

Lemma mod_once k m r : 0 ≤ r < m → k = r ∨ k = r + m ∨ k = r - m → k mod m = r.
Proof.
  intros Hr [-> | [-> | ->]]; [by apply Z.mod_small| |].
  - replace (r + m) with (r + 1 * m) by lia. rewrite Z.mod_add by lia. by apply Z.mod_small.
  - replace (r - m) with (r + (-1) * m) by lia. rewrite Z.mod_add by lia. by apply Z.mod_small.
Qed.

(** The schoolbook product by halves: no step overflows. *)
Lemma Mul64_spec x y : in_u 64 x → in_u 64 y → Mul64 x y = (x * y / 2 ^ 64, x * y mod 2 ^ 64).
Proof.
  intros Hx Hy. unfold Mul64. change (2 ^ 32 - 1) with (Z.ones 32). rewrite !Z.land_ones, !Z.shiftr_div_pow2 by lia.
  assert (∀ z, in_u 64 z → 0 ≤ z mod 2 ^ 32 < 2 ^ 32 ∧ 0 ≤ z / 2 ^ 32 < 2 ^ 32 ∧ z = 2 ^ 32 * (z / 2 ^ 32) + z mod 2 ^ 32) as Hh.
  { intros z Hz. unfold in_u in Hz. split; [apply Z.mod_pos_bound; lia|]. split; [split; [apply Z.div_pos; lia|apply Z.div_lt_upper_bound; lia]|apply Z.div_mod; lia]. }
  destruct (Hh x Hx) as (Hx0 & Hx1 & Ex). destruct (Hh y Hy) as (Hy0 & Hy1 & Ey).
  set (x0 := x mod 2 ^ 32) in *. set (x1 := x / 2 ^ 32) in *. set (y0 := y mod 2 ^ 32) in *. set (y1 := y / 2 ^ 32) in *.
  assert (∀ a b, 0 ≤ a < 2 ^ 32 → 0 ≤ b < 2 ^ 32 → 0 ≤ a * b ≤ (2 ^ 32 - 1) * (2 ^ 32 - 1)) as Hm by (intros a b Ha Hb; split; [nia|apply Z.mul_le_mono_nonneg; lia]).
  pose proof (Hm x0 y0 Hx0 Hy0). pose proof (Hm x1 y0 Hx1 Hy0). pose proof (Hm x0 y1 Hx0 Hy1). pose proof (Hm x1 y1 Hx1 Hy1).
  rewrite (wrapu_id 64 (x0 * y0)) by (unfold in_u; lia). destruct (Hh (x0 * y0)) as (Ha1 & Ha2 & Ea); [unfold in_u; lia|].
  rewrite (wrapu_id 64 (x1 * y0 + _)) by (unfold in_u; lia). set (t := x1 * y0 + x0 * y0 / 2 ^ 32) in *. destruct (Hh t) as (Ht1 & Ht2 & Et); [unfold in_u, t; lia|].
  rewrite (wrapu_id 64 (t mod 2 ^ 32 + _)) by (unfold in_u; lia). set (w := t mod 2 ^ 32 + x0 * y1) in *. destruct (Hh w) as (Hw1 & Hw2 & Ew); [unfold in_u, w; lia|].
  assert (x * y = 2 ^ 64 * (x1 * y1 + t / 2 ^ 32 + w / 2 ^ 32) + (2 ^ 32 * (w mod 2 ^ 32) + x0 * y0 mod 2 ^ 32)) as E.
  { rewrite Ex, Ey. replace ((2 ^ 32 * x1 + x0) * (2 ^ 32 * y1 + y0)) with (2 ^ 64 * (x1 * y1) + 2 ^ 32 * (x1 * y0) + 2 ^ 32 * (x0 * y1) + x0 * y0) by ring.
    assert (t = x1 * y0 + x0 * y0 / 2 ^ 32) as Dt by done. assert (w = t mod 2 ^ 32 + x0 * y1) as Dw by done. clearbody t w. clear - Ea Et Ew Dt Dw. lia. }
  assert (x * y / 2 ^ 64 = x1 * y1 + t / 2 ^ 32 + w / 2 ^ 32) as Eq by (symmetry; eapply Z.div_unique; [|exact E]; left; lia).
  rewrite Eq. f_equal. apply wrapu_id. unfold in_u. rewrite <- Eq. unfold in_u in *. split; [apply Z.div_pos; [nia|lia]|apply Z.div_lt_upper_bound; nia].
Qed.

(** SafeAdd, SafeSub and SafeMul give the result modulo 2^64 and tell exactly when it is not
    the true one, with the carries of math/bits computed as that package does. *)
Theorem safe_arithmetic_exact x y : in_u 64 x → in_u 64 y →
  SafeAdd x y = (u64 (x + y), bool_decide (2 ^ 64 ≤ x + y)) ∧ SafeSub x y = (u64 (x - y), bool_decide (x < y)) ∧ SafeMul x y = (u64 (x * y), bool_decide (2 ^ 64 ≤ x * y)).
Proof.
  intros Hx Hy. pose proof (wrapu_range 64 (x + y) ltac:(lia)) as Hs. pose proof (wrapu_range 64 (x - y) ltac:(lia)) as Hd. split; [|split].
  - unfold SafeAdd, Add64. f_equal. rewrite shiftr_63 by (apply lor_u64; [by apply land_u64|apply ldiff_u64; [by apply lor_u64|done]]).
    rewrite !Z.lor_spec, Z.land_spec, Z.ldiff_spec, Z.lor_spec, !high_bit by done. unfold in_u in *.
    assert (u64 (x + y) = x + y ∨ u64 (x + y) = x + y - 2 ^ 64 ∧ 2 ^ 64 ≤ x + y) as Hc.
    { destruct (decide (x + y < 2 ^ 64)); [left; apply wrapu_id; unfold in_u; lia|right]. split; [|lia]. unfold wrapu. apply mod_once; lia. }
    repeat case_bool_decide; cbn; try done; lia.
  - unfold SafeSub, Sub64. f_equal. rewrite shiftr_63 by (apply lor_u64; [apply land_u64; [by apply not64_u64|done]|apply land_u64; [apply not64_u64; by apply lxor_u64|done]]).
    rewrite Z.lor_spec, !Z.land_spec, !not64_bit, Z.lxor_spec, !high_bit by done. unfold in_u in *.
    assert (u64 (x - y) = x - y ∧ y ≤ x ∨ u64 (x - y) = x - y + 2 ^ 64 ∧ x < y) as Hc.
    { destruct (decide (y ≤ x)); [left; split; [apply wrapu_id; unfold in_u; lia|done]|right]. split; [|lia]. unfold wrapu. apply mod_once; lia. }
    repeat case_bool_decide; cbn; try done; lia.
  - unfold SafeMul. rewrite Mul64_spec by done. f_equal. apply bool_decide_ext. unfold in_u in *. split; intros H.
    + apply Z.nlt_ge. intros Hlt. apply H, Z.div_small. nia.
    + intros E. apply Z.div_small_iff in E; [|lia]. nia.
Qed.

Lemma safe_arithmetic_exact_witness : SafeAdd (2 ^ 64 - 1) 2 = (1, true) ∧ SafeSub (2 ^ 64 - 1) 2 = (2 ^ 64 - 3, false) ∧ SafeMul (2 ^ 64 - 1) 2 = (2 ^ 64 - 2, true).
Proof. destruct (safe_arithmetic_exact (2 ^ 64 - 1) 2) as (H1 & H2 & H3); [unfold in_u; lia|unfold in_u; lia|]. rewrite H1, H2, H3. split_and!; reflexivity. Defined.
