(* ===== verification/Hex.v ===== *)
(** * Hex: hexadecimal text

    Models framework/crypto/ethereum/common/hexutil (hexutil.go and the types of json.go), the
    functions on bytes of common/bytes.go, and the reading and printing of numbers of
    framework/crypto/math, with the parts of encoding/hex, strconv and math/big that they use.
    Text is a list of bytes.  A value that comes together with an error is left out, but for
    encoding/hex, whose callers use it; a method that sets its receiver returns the new value,
    and an error leaves the receiver as it is. *)
From S2P Require Import Prelude Bytes Rlp RlpEncode BigMath.

Inductive decError :=
  | ErrEmptyString | ErrSyntax | ErrMissingPrefix | ErrOddLength | ErrEmptyNumber | ErrLeadingZero
  | ErrUint64Range | ErrUintRange | ErrBig256Range
  | ErrWrongLength (len want : nat)          (* fmt.Errorf of UnmarshalFixedText *)
  | ErrNonString                             (* errNonString *)
  | UnmarshalTypeError (e : decError).       (* wrapTypeError *)

Abbreviation result A := (decError + A)%type.

(** ** encoding/hex *)

Inductive hexError := InvalidByteError | ErrLength.

Definition fromHexChar (c : byte) : option Z :=
  let z := Z_of_byte c in
  if bool_decide (48 ≤ z ≤ 57) then Some (z - 48)
  else if bool_decide (97 ≤ z ≤ 102) then Some (z - 87)
  else if bool_decide (65 ≤ z ≤ 70) then Some (z - 55)
  else None.

Definition hexChar (d : Z) : byte := byte_of_Z (if bool_decide (d < 10) then 48 + d else 87 + d).

Definition hex_encode (b : bytes) : bytes := flat_map (fun c => [hexChar (Z_of_byte c / 16); hexChar (Z_of_byte c mod 16)]) b.

(** The bytes up to the first error. *)
Fixpoint hex_decode (src : bytes) : bytes * option hexError :=
  match src with
  | [] => ([], None)
  | [c] => ([], Some (match fromHexChar c with None => InvalidByteError | Some _ => ErrLength end))
  | p :: q :: src =>
      match fromHexChar p, fromHexChar q with
      | Some a, Some b => let '(d, e) := hex_decode src in (byte_of_Z (a * 16 + b) :: d, e)
      | _, _ => ([], Some InvalidByteError)
      end
  end.

(** ** strconv and big.Int: digits *)

(** The digits of a number, the highest first. *)
Fixpoint digits (fuel : nat) (base n : Z) : list Z :=
  match fuel with
  | O => []
  | S fuel => if bool_decide (n < base) then [n] else digits fuel base (n / base) ++ [n mod base]
  end.
Definition digits_of (base n : Z) : list Z := digits (S (Z.to_nat (Z.log2 n))) base n.
Definition value (base : Z) (ds : list Z) : Z := foldl (fun acc d => acc * base + d) 0 ds.

(** Text(base) of a number that is not negative, and AppendUint. *)
Definition text (base n : Z) : bytes := map hexChar (digits_of base n).

Definition digit_in (base : Z) (c : byte) : option Z :=
  match fromHexChar c with Some d => if bool_decide (d < base) then Some d else None | None => None end.

(** The loop of strconv.ParseUint(s, base, 64): an overflow is reported before a later bad
    digit. *)
Fixpoint parse_uint (base n : Z) (s : bytes) : result Z :=
  match s with
  | [] => inr n
  | c :: s =>
      match digit_in base c with
      | None => inl ErrSyntax
      | Some d =>
          if bool_decide ((2 ^ 64 - 1) / base + 1 ≤ n) then inl ErrUint64Range
          else
            let n := u64 (n * base) in
            let n1 := u64 (n + d) in
            if bool_decide (n1 < n) then inl ErrUint64Range else parse_uint base n1 s
      end
  end.
Definition ParseUint (base : Z) (s : bytes) : result Z := match s with [] => inl ErrSyntax | _ => parse_uint base 0 s end.

(** big.Int.SetString(s, base): a sign, then digits. *)
Definition scan (base : Z) (s : bytes) : option Z :=
  match s with
  | [] => None
  | _ => ds ← mapM (digit_in base) s; Some (value base ds)
  end.
Definition SetString (base : Z) (s : bytes) : option Z :=
  match s with
  | Byte.x2d :: s => v ← scan base s; Some (- v)
  | Byte.x2b :: s => scan base s
  | _ => scan base s
  end.

(** ** hexutil.go *)

Definition prefix : bytes := [Byte.x30; Byte.x78].

Definition has0xPrefix (input : bytes) : bool :=
  match input with
  | a :: b :: _ => bool_decide (a = Byte.x30) && (bool_decide (b = Byte.x78) || bool_decide (b = Byte.x58))
  | _ => false
  end.

Definition mapError (e : hexError) : decError := match e with InvalidByteError => ErrSyntax | ErrLength => ErrOddLength end.

Definition Decode (input : bytes) : result bytes :=
  if bool_decide (length input = 0)%nat then inl ErrEmptyString
  else if negb (has0xPrefix input) then inl ErrMissingPrefix
  else match hex_decode (drop 2 input) with (b, None) => inr b | (_, Some e) => inl (mapError e) end.

Definition must {A} (r : result A) : res A := match r with inr a => Ok a | inl _ => Panic "err" end.
Definition MustDecode (input : bytes) : res bytes := must (Decode input).

Definition Encode (b : bytes) : bytes := prefix ++ hex_encode b.

Definition checkNumber (input : bytes) : result bytes :=
  if bool_decide (length input = 0)%nat then inl ErrEmptyString
  else if negb (has0xPrefix input) then inl ErrMissingPrefix
  else
    let input := drop 2 input in
    match input with
    | [] => inl ErrEmptyNumber
    | c :: rest => if bool_decide (rest ≠ []) && bool_decide (c = Byte.x30) then inl ErrLeadingZero else inr input
    end.

Definition DecodeUint64 (input : bytes) : result Z := match checkNumber input with inl e => inl e | inr raw => ParseUint 16 raw end.
Definition MustDecodeUint64 (input : bytes) : res Z := must (DecodeUint64 input).
Definition EncodeUint64 (i : Z) : bytes := prefix ++ text 16 i.

Definition badNibble : Z := 2 ^ 64 - 1.
Definition decodeNibble (c : byte) : Z :=
  let z := Z_of_byte c in
  if bool_decide (48 ≤ z ≤ 57) then z - 48
  else if bool_decide (65 ≤ z ≤ 70) then z - 65 + 10
  else if bool_decide (97 ≤ z ≤ 102) then z - 97 + 10
  else badNibble.

Definition bigWordNibbles : nat := 16.

(** The inner loop: one word. *)
Fixpoint nibbles_word (word : Z) (raw : bytes) : result Z :=
  match raw with
  | [] => inr word
  | c :: raw =>
      let nib := decodeNibble c in
      if bool_decide (nib = badNibble) then inl ErrSyntax else nibbles_word (u64 (u64 (word * 16) + nib)) raw
  end.

(** The outer loop takes words from the end of the text. *)
Fixpoint nibbles_words (n : nat) (raw : bytes) (stop : nat) : result (list Z) :=
  match n with
  | O => inr []
  | S n =>
      let start := (stop - bigWordNibbles)%nat in
      match nibbles_word 0 (take (stop - start) (drop start raw)) with
      | inl e => inl e
      | inr w => match nibbles_words n raw start with inl e => inl e | inr ws => inr (w :: ws) end
      end
  end.

Definition decode_big (raw : bytes) : result Z :=
  if bool_decide (64 < length raw)%nat then inl ErrBig256Range
  else match nibbles_words (length raw / bigWordNibbles + 1) raw (length raw) with inl e => inl e | inr ws => inr (words_value ws) end.

Definition DecodeBig (input : bytes) : result Z := match checkNumber input with inl e => inl e | inr raw => decode_big raw end.
Definition MustDecodeBig (input : bytes) : res Z := must (DecodeBig input).

Definition EncodeBig (n : Z) : bytes :=
  if bool_decide (n = 0) then prefix ++ [Byte.x30]
  else if bool_decide (0 < n) then prefix ++ text 16 n
  else Byte.x2d :: prefix ++ text 16 (- n).

(** ** json.go *)

Definition bytesHave0xPrefix (input : bytes) : bool := has0xPrefix input.

Definition checkText (input : bytes) (wantPrefix : bool) : result bytes :=
  if bool_decide (length input = 0)%nat then inr []
  else
    let checked := if bytesHave0xPrefix input then inr (drop 2 input) else if wantPrefix then inl ErrMissingPrefix else inr input in
    match checked with
    | inl e => inl e
    | inr input => if bool_decide (length input mod 2 ≠ 0)%nat then inl ErrOddLength else inr input
    end.

Definition checkNumberText (input : bytes) : result bytes :=
  if bool_decide (length input = 0)%nat then inr []
  else if negb (bytesHave0xPrefix input) then inl ErrMissingPrefix
  else
    let input := drop 2 input in
    match input with
    | [] => inl ErrEmptyNumber
    | c :: rest => if bool_decide (rest ≠ []) && bool_decide (c = Byte.x30) then inl ErrLeadingZero else inr input
    end.

Definition quote : byte := Byte.x22.
Definition isString (input : bytes) : bool :=
  bool_decide (2 ≤ length input)%nat && bool_decide (input !! 0%nat = Some quote) && bool_decide (input !! (length input - 1)%nat = Some quote).

(** The lengths that UnmarshalFixedText compares are not a [decError] in the code, so they are
    not wrapped. *)
Definition wrapTypeError {A} (r : result A) : result A :=
  match r with inr a => inr a | inl (ErrWrongLength l w) => inl (ErrWrongLength l w) | inl e => inl (UnmarshalTypeError e) end.

(** The text between the quotes. *)
Definition UnmarshalJSON {A} (unmarshalText : bytes → result A) (input : bytes) : result A :=
  if negb (isString input) then inl ErrNonString else wrapTypeError (unmarshalText (take (length input - 2) (drop 1 input))).

Definition Bytes_MarshalText (b : bytes) : bytes := prefix ++ hex_encode b.
Definition Bytes_UnmarshalText (input : bytes) : result bytes :=
  match checkText input true with
  | inl e => inl e
  | inr raw => match hex_decode raw with (b, None) => inr b | (_, Some e) => inl (mapError e) end
  end.

(** [out] has [n] bytes; all of them are set, or none. *)
Definition UnmarshalFixed (wantPrefix : bool) (input : bytes) (n : nat) : result bytes :=
  match checkText input wantPrefix with
  | inl e => inl e
  | inr raw =>
      if bool_decide (length raw / 2 ≠ n)%nat then inl (ErrWrongLength (length raw) (n * 2))
      else if existsb (fun c => bool_decide (decodeNibble c = badNibble)) raw then inl ErrSyntax
      else inr (fst (hex_decode raw))
  end.
Definition UnmarshalFixedText (input : bytes) (n : nat) : result bytes := UnmarshalFixed true input n.
Definition UnmarshalFixedUnprefixedText (input : bytes) (n : nat) : result bytes := UnmarshalFixed false input n.

Definition Big_MarshalText (n : Z) : bytes := EncodeBig n.
Definition Big_UnmarshalText (input : bytes) : result Z := match checkNumberText input with inl e => inl e | inr raw => decode_big raw end.

Definition Uint64_MarshalText (i : Z) : bytes := prefix ++ text 16 i.
Definition Uint64_UnmarshalText (input : bytes) : result Z :=
  match checkNumberText input with
  | inl e => inl e
  | inr raw => if bool_decide (16 < length raw)%nat then inl ErrUint64Range else nibbles_word 0 raw
  end.

(** [uint] has 64 bits. *)
Definition Uint_UnmarshalText (input : bytes) : result Z :=
  match Uint64_UnmarshalText input with inl ErrUint64Range => inl ErrUintRange | r => r end.

(** ** common/bytes.go *)

Definition Bytes2Hex (d : bytes) : bytes := hex_encode d.
Definition Hex2Bytes (str : bytes) : bytes := fst (hex_decode str).
Definition FromHex (s : bytes) : bytes :=
  let s := if has0xPrefix s then drop 2 s else s in
  let s := if bool_decide (length s mod 2 = 1)%nat then Byte.x30 :: s else s in
  Hex2Bytes s.

Definition isHexCharacter (c : byte) : bool :=
  let z := Z_of_byte c in bool_decide (48 ≤ z ≤ 57) || bool_decide (97 ≤ z ≤ 102) || bool_decide (65 ≤ z ≤ 70).
Definition isHex (str : bytes) : bool := if bool_decide (length str mod 2 ≠ 0)%nat then false else forallb isHexCharacter str.

Definition Hex2BytesFixed (str : bytes) (flen : nat) : bytes :=
  let h := fst (hex_decode str) in
  if bool_decide (length h = flen) then h
  else if bool_decide (flen < length h)%nat then drop (length h - flen) h
  else fst (copy_at (replicate flen Byte.x00) (flen - length h) h).

Definition ParseHexOrString (str : bytes) : result bytes :=
  match Decode str with inl ErrMissingPrefix => inr str | r => r end.

Definition RightPadBytes (s : bytes) (l : nat) : bytes :=
  if bool_decide (l ≤ length s)%nat then s else fst (copy_at (replicate l Byte.x00) 0 s).
Definition LeftPadBytes (s : bytes) (l : nat) : bytes :=
  if bool_decide (l ≤ length s)%nat then s else fst (copy_at (replicate l Byte.x00) (l - length s) s).

Fixpoint TrimLeftZeroes (s : bytes) : bytes :=
  match s with
  | [] => []
  | b :: s' => if bool_decide (b = Byte.x00) then TrimLeftZeroes s' else s
  end.

(** The loop of TrimRightZeroes moves [idx] down from the length. *)
Fixpoint trim_right_idx (s : bytes) (idx : nat) : nat :=
  match idx with
  | O => O
  | S i => if bool_decide (s !! i = Some Byte.x00) then trim_right_idx s i else idx
  end.
Definition TrimRightZeroes (s : bytes) : bytes := take (trim_right_idx s (length s)) s.

(** ** framework/crypto/math *)

Definition ParseUint64 (s : bytes) : option Z :=
  if bool_decide (s = []) then Some 0
  else match (if has0xPrefix s then ParseUint 16 (drop 2 s) else ParseUint 10 s) with inr v => Some v | inl _ => None end.
Definition MustParseUint64 (s : bytes) : res Z := match ParseUint64 s with Some v => Ok v | None => Panic "invalid unsigned 64 bit integer" end.

Definition ParseBig256 (s : bytes) : option Z :=
  if bool_decide (s = []) then Some 0
  else
    v ← (if has0xPrefix s then SetString 16 (drop 2 s) else SetString 10 s);
    if bool_decide (256 < BitLen (Z.abs v)) then None else Some v.
Definition MustParseBig256 (s : bytes) : res Z := match ParseBig256 s with Some v => Ok v | None => Panic "invalid 256 bit integer" end.

(** [%#x] and [%#d]; a nil pointer prints as zero. *)
Definition format_hex (n : Z) : bytes := if bool_decide (n < 0) then Byte.x2d :: prefix ++ text 16 (- n) else prefix ++ text 16 n.
Definition format_dec (n : Z) : bytes := if bool_decide (n < 0) then Byte.x2d :: text 10 (- n) else text 10 n.
Definition HexOrDecimal64_MarshalText (i : Z) : bytes := format_hex i.
Definition HexOrDecimal64_UnmarshalText (input : bytes) : option Z := ParseUint64 input.
Definition HexOrDecimal256_MarshalText (i : option Z) : bytes := match i with None => prefix ++ [Byte.x30] | Some i => format_hex i end.
Definition HexOrDecimal256_UnmarshalText (input : bytes) : option Z := ParseBig256 input.
Definition Decimal256_String (i : option Z) : bytes := match i with None => [Byte.x30] | Some i => format_dec i end.
Definition Decimal256_UnmarshalText (input : bytes) : option Z := ParseBig256 input.

(** ** Digits *)

Definition lower (c : byte) : byte := match fromHexChar c with Some d => hexChar d | None => c end.

Lemma fromHexChar_hexChar d : 0 ≤ d < 16 → fromHexChar (hexChar d) = Some d.
Proof.
  intros Hd. unfold fromHexChar, hexChar. destruct (decide (d < 10)).
  - rewrite (bool_decide_eq_true_2 (d < 10)), Z_of_byte_of_Z, Z.mod_small by lia. rewrite bool_decide_eq_true_2 by lia. f_equal. lia.
  - rewrite (bool_decide_eq_false_2 (d < 10)), Z_of_byte_of_Z, Z.mod_small by lia. rewrite bool_decide_eq_false_2, bool_decide_eq_true_2 by lia. f_equal. lia.
Qed.

Lemma fromHexChar_range c d : fromHexChar c = Some d → 0 ≤ d < 16.
Proof. unfold fromHexChar. repeat case_bool_decide; intros [= <-]; lia. Qed.

Lemma decodeNibble_from c : decodeNibble c = match fromHexChar c with Some d => d | None => badNibble end.
Proof. unfold decodeNibble, fromHexChar. repeat case_bool_decide; try done; lia. Qed.

Lemma decodeNibble_bad c : decodeNibble c = badNibble ↔ fromHexChar c = None.
Proof.
  rewrite decodeNibble_from. destruct (fromHexChar c) as [d|] eqn:E; [|done]. apply fromHexChar_range in E. unfold badNibble. split; [lia|done].
Qed.

Lemma isHexCharacter_from c : isHexCharacter c = bool_decide (is_Some (fromHexChar c)).
Proof.
  unfold isHexCharacter, fromHexChar. repeat case_bool_decide; cbn [orb]; try done; try lia; exfalso; naive_solver.
Qed.

Lemma digit_in_16 c : digit_in 16 c = fromHexChar c.
Proof. unfold digit_in. destruct (fromHexChar c) as [d|] eqn:E; [|done]. apply fromHexChar_range in E. by rewrite bool_decide_eq_true_2 by lia. Qed.

Lemma digit_in_range base c d : digit_in base c = Some d → 0 ≤ d < base.
Proof. unfold digit_in. destruct (fromHexChar c) eqn:E; [|done]. apply fromHexChar_range in E. case_bool_decide; [|done]. intros [= <-]. lia. Qed.

Lemma mapM_app {A B} (f : A → option B) l1 l2 : mapM f (l1 ++ l2) = (ds1 ← mapM f l1; ds2 ← mapM f l2; Some (ds1 ++ ds2)).
Proof.
  induction l1 as [|x l1 IH]; cbn [app mapM]; [by destruct (mapM f l2)|]. destruct (f x); cbn; [|done]. rewrite IH. destruct (mapM f l1); cbn; [|done]. by destruct (mapM f l2).
Qed.

Lemma value_app base ds1 ds2 : value base (ds1 ++ ds2) = value base ds1 * base ^ zlen ds2 + value base ds2.
Proof.
  unfold value. rewrite foldl_app. generalize (foldl (fun acc d => acc * base + d) 0 ds1). intros n. 
  assert (∀ m, foldl (fun acc d => acc * base + d) m ds2 = m * base ^ zlen ds2 + foldl (fun acc d => acc * base + d) 0 ds2) as H; [|apply H].
  induction ds2 as [|d ds2 IH]; intros m; cbn [foldl]; [rewrite (@zlen_nil Z); lia|]. rewrite IH, (IH (0 * base + d)).
  replace (zlen (d :: ds2)) with (Z.succ (zlen ds2)) by (unfold zlen; cbn [length]; lia). rewrite Z.pow_succ_r by apply zlen_nonneg. lia.
Qed.

Lemma value_snoc base ds d : value base (ds ++ [d]) = value base ds * base + d.
Proof. unfold value. by rewrite foldl_app. Qed.

Lemma value_bound base ds : 1 < base → Forall (fun d => 0 ≤ d < base) ds → 0 ≤ value base ds < base ^ zlen ds.
Proof.
  intros Hb. induction ds as [|d ds IH] using rev_ind; intros H; [rewrite (@zlen_nil Z), Z.pow_0_r; cbn; lia|]. apply Forall_app in H as [H1 H2%Forall_inv]. cbn beta in H2. specialize (IH H1).
  rewrite value_snoc, zlen_app. change (zlen [d]) with 1. pose proof (zlen_nonneg ds).
  rewrite Z.pow_add_r, Z.pow_1_r by lia. split; [apply Z.add_nonneg_nonneg; [apply Z.mul_nonneg_nonneg|]; lia|].
  assert ((value base ds + 1) * base ≤ base ^ zlen ds * base) by (apply Z.mul_le_mono_nonneg_r; lia). lia.
Qed.

Lemma digits_ok base fuel : 2 ≤ base → ∀ n, (fuel ≠ 0)%nat → 0 ≤ n < 2 ^ Z.of_nat fuel →
  value base (digits fuel base n) = n ∧ Forall (fun d => 0 ≤ d < base) (digits fuel base n) ∧ ∃ d ds, digits fuel base n = d :: ds ∧ (0 < n → 0 < d) ∧ (n = 0 → ds = []).
Proof.
  intros Hb. induction fuel as [|fuel IH]; intros n Hf Hn; [done|]. cbn [digits]. case_bool_decide as Hlt.
  { split; [done|]. split; [by constructor; [lia|]|]. by exists n, []. }
  rewrite Nat2Z.inj_succ, Z.pow_succ_r in Hn by lia. pose proof (Z.div_mod n base ltac:(lia)) as Hd. pose proof (Z.mod_pos_bound n base ltac:(lia)) as Hm.
  assert (0 < n / base) as Hq by (apply Z.div_str_pos; lia).
  assert (0 ≤ n / base < 2 ^ Z.of_nat fuel) as Hr by (split; [lia|]; apply Z.div_lt_upper_bound; [lia|]; nia).
  destruct (IH (n / base)) as (H1 & H2 & d & ds & E & H3 & _); [destruct fuel; [cbn in Hr; lia|done]|done|].
  split; [rewrite value_snoc, H1; lia|]. split; [apply Forall_app; split; [done|by constructor; [lia|]]|]. exists d, (ds ++ [n mod base]). rewrite E. split; [done|]. split; [intros _; by apply H3|lia].
Qed.

Lemma digits_of_ok base n : 2 ≤ base → 0 ≤ n →
  value base (digits_of base n) = n ∧ Forall (fun d => 0 ≤ d < base) (digits_of base n) ∧ ∃ d ds, digits_of base n = d :: ds ∧ (0 < n → 0 < d) ∧ (n = 0 → ds = []).
Proof.
  intros Hb Hn. apply digits_ok; [done|done|]. split; [done|]. pose proof (Z.log2_nonneg n). rewrite Nat2Z.inj_succ, Z2Nat.id by done.
  destruct (decide (n = 0)) as [->|]; [done|]. apply Z.log2_spec. lia.
Qed.

(** Digits without a leading zero are those of the number. *)
Definition canonical (ds : list Z) : Prop := match ds with [] => False | d :: rest => rest = [] ∨ d ≠ 0 end.

Lemma digits_unique base ds : 2 ≤ base → Forall (fun d => 0 ≤ d < base) ds → canonical ds → ∀ fuel, (fuel ≠ 0)%nat → value base ds < 2 ^ Z.of_nat fuel → digits fuel base (value base ds) = ds.
Proof.
  intros Hb. induction ds as [|d ds IH] using rev_ind; intros Hds Hc fuel Hf Hv; [done|]. apply Forall_app in Hds as [H1 H2%Forall_inv]. cbn beta in H2. rewrite value_snoc in *.
  destruct fuel as [|fuel]; [done|]. pose proof (value_bound base ds ltac:(lia) H1) as Hvb. cbn [digits]. destruct ds as [|d0 ds].
  { cbn [app]. change (value base []) with 0. rewrite bool_decide_eq_true_2 by lia. f_equal. }
  destruct Hc as [Hc|Hc]; [by destruct ds|]. assert (0 < value base (d0 :: ds)) as Hpos.
  { change (d0 :: ds) with ([d0] ++ ds). inversion H1; subst. rewrite value_app. pose proof (value_bound base ds ltac:(lia) ltac:(done)). change (value base [d0]) with (0 * base + d0). assert (0 < base ^ zlen ds) by (apply Z.pow_pos_nonneg; [lia|apply zlen_nonneg]). nia. }
  rewrite bool_decide_eq_false_2 by nia. replace (value base (d0 :: ds) * base + d) with (d + value base (d0 :: ds) * base) by lia.
  rewrite Z.div_add, Z.mod_add, Z.div_small, Z.mod_small, Z.add_0_l by lia. rewrite Nat2Z.inj_succ, Z.pow_succ_r in Hv by lia. rewrite IH; [done|done|by right| |nia].
  destruct fuel; [|done]. exfalso. change (2 ^ Z.of_nat 0) with 1 in Hv. nia.
Qed.

Lemma digits_of_value base ds : 2 ≤ base → Forall (fun d => 0 ≤ d < base) ds → canonical ds → digits_of base (value base ds) = ds.
Proof.
  intros Hb Hds Hc. apply digits_unique; try done. pose proof (value_bound base ds ltac:(lia) Hds) as [Hv _]. pose proof (Z.log2_nonneg (value base ds)). rewrite Nat2Z.inj_succ, Z2Nat.id by done.
  destruct (decide (value base ds = 0)) as [->|]; [done|]. apply Z.log2_spec. lia.
Qed.

(** ** Bytes as text *)

(** Induction over pairs. *)
Lemma pairs_ind (Q : bytes → Prop) : Q [] → (∀ c, Q [c]) → (∀ p q l, Q l → Q (p :: q :: l)) → ∀ l, Q l.
Proof.
  intros H0 H1 H2 l. assert (Q l ∧ ∀ c, Q (c :: l)) as [H _]; [|done]. induction l as [|c l [IH1 IH2]]; [by split|]. split; [apply IH2|]. intros p. by apply H2.
Qed.

Lemma hex_pair b : hex_encode [b] = [hexChar (Z_of_byte b / 16); hexChar (Z_of_byte b mod 16)].
Proof. done. Qed.

Lemma hex_decode_encode b : hex_decode (hex_encode b) = (b, None).
Proof.
  induction b as [|c b IH]; [done|]. change (hex_encode (c :: b)) with (hexChar (Z_of_byte c / 16) :: hexChar (Z_of_byte c mod 16) :: hex_encode b). cbn [hex_decode].
  pose proof (Z_of_byte_range c) as Hc. pose proof (Z.div_mod (Z_of_byte c) 16 ltac:(lia)). pose proof (Z.mod_pos_bound (Z_of_byte c) 16 ltac:(lia)).
  rewrite !fromHexChar_hexChar by lia. rewrite IH. do 2 f_equal. rewrite <- (byte_of_Z_of_byte c) at 3. f_equal. lia.
Qed.

(** What is decoded is the text, in lower case. *)
Lemma hex_decode_exact src : match hex_decode src with
  | (b, None) => isHex src = true ∧ hex_encode b = map lower src ∧ length b = (length src / 2)%nat
  | (_, Some InvalidByteError) => forallb isHexCharacter src = false
  | (_, Some ErrLength) => (length src mod 2 = 1)%nat
  end.
Proof.
  induction src as [|c|p q src IH] using pairs_ind; [done| |].
  - cbn [hex_decode]. destruct (fromHexChar c) eqn:E; [done|]. cbn [forallb]. rewrite isHexCharacter_from, E. by rewrite bool_decide_eq_false_2 by (by intros [? ?]).
  - cbn [hex_decode]. destruct (fromHexChar p) as [a|] eqn:Ep; [destruct (fromHexChar q) as [b|] eqn:Eq|].
    + destruct (hex_decode src) as [d [[]|]].
      * cbn [forallb]. rewrite IH, !andb_false_r. done.
      * cbn [length]. replace (S (S (length src))) with (length src + 1 * 2)%nat by lia. by rewrite Nat.Div0.mod_add.
      * destruct IH as (H1 & H2 & H3). unfold isHex in *. cbn [length forallb map].
        assert ((S (S (length src)) mod 2 = length src mod 2)%nat ∧ (S (S (length src)) / 2 = S (length src / 2))%nat) as [-> ->].
        { replace (S (S (length src))) with (length src + 1 * 2)%nat by lia. rewrite Nat.Div0.mod_add, Nat.div_add by lia. split; [done|lia]. }
        rewrite H3. split; [|split; [|done]].
        -- destruct (bool_decide _); [done|]. rewrite !isHexCharacter_from, Ep, Eq, H1. by rewrite !bool_decide_eq_true_2 by eauto.
        -- change (hex_encode (byte_of_Z (a * 16 + b) :: d)) with (hex_encode [byte_of_Z (a * 16 + b)] ++ hex_encode d). rewrite hex_pair, H2. unfold lower. rewrite Ep, Eq.
           apply fromHexChar_range in Ep, Eq. rewrite Z_of_byte_of_Z, Z.mod_small by lia. replace (a * 16 + b) with (b + a * 16) by lia.
           rewrite Z.div_add, Z.mod_add, Z.div_small, Z.mod_small by lia. done.
    + cbn [forallb]. rewrite !isHexCharacter_from, Eq. rewrite (bool_decide_eq_false_2 (is_Some None)) by (by intros [? ?]). cbn [andb]. by rewrite andb_false_r.
    + cbn [forallb]. rewrite !isHexCharacter_from, Ep. by rewrite (bool_decide_eq_false_2 (is_Some None)) by (by intros [? ?]).
Qed.

Lemma hex_encode_hex b : length (hex_encode b) = (2 * length b)%nat ∧ Forall (fun c => is_Some (fromHexChar c)) (hex_encode b).
Proof.
  induction b as [|c b [IH1 IH2]]; [by split|]. change (hex_encode (c :: b)) with (hexChar (Z_of_byte c / 16) :: hexChar (Z_of_byte c mod 16) :: hex_encode b).
  pose proof (Z_of_byte_range c) as Hc. pose proof (Z.div_mod (Z_of_byte c) 16 ltac:(lia)). pose proof (Z.mod_pos_bound (Z_of_byte c) 16 ltac:(lia)). split; [cbn [length]; lia|].
  constructor; [|constructor; [|done]]; rewrite fromHexChar_hexChar by lia; eauto.
Qed.

Lemma isHex_decodes src : isHex src = true → ∃ b, hex_decode src = (b, None).
Proof.
  intros H. pose proof (hex_decode_exact src) as He. unfold isHex in H. destruct (bool_decide _) eqn:E; [done|]. apply bool_decide_eq_false in E.
  destruct (hex_decode src) as [b [[]|]]; [congruence|lia|by exists b].
Qed.

Lemma prefix_drop l : has0xPrefix (prefix ++ l) = true ∧ drop 2 (prefix ++ l) = l.
Proof. done. Qed.

(** Byte strings survive their text: Decode, the method UnmarshalText and UnmarshalFixedText
    read what Encode writes; Decode accepts exactly the texts with prefix and an even number
    of hexadecimal digits, and what it returns is encoded as the same text in lower case. *)
Theorem hex_bytes_exact b input :
  Decode (Encode b) = inr b ∧ Bytes_UnmarshalText (Bytes_MarshalText b) = inr b ∧ UnmarshalFixedText (Encode b) (length b) = inr b
  ∧ (is_ok (must (Decode input)) = has0xPrefix input && isHex (drop 2 input))
  ∧ (Decode input = inr b → Encode b = prefix ++ map lower (drop 2 input)).
Proof.
  destruct (hex_encode_hex b) as [Hl Hh]. assert (checkText (Encode b) true = inr (hex_encode b)) as Ec.
  { unfold checkText, Encode. rewrite bool_decide_eq_false_2 by done. unfold bytesHave0xPrefix. destruct (prefix_drop (hex_encode b)) as [-> ->].
    rewrite bool_decide_eq_false_2; [done|]. rewrite Hl, Nat.mul_comm. intros H. apply H. apply Nat.Div0.mod_mul. }
  split; [|split; [|split; [|split]]].
  - unfold Decode, Encode. rewrite bool_decide_eq_false_2 by done. destruct (prefix_drop (hex_encode b)) as [-> ->]. cbn [negb]. by rewrite hex_decode_encode.
  - unfold Bytes_UnmarshalText. change (Bytes_MarshalText b) with (Encode b). by rewrite Ec, hex_decode_encode.
  - unfold UnmarshalFixedText, UnmarshalFixed. rewrite Ec, hex_decode_encode. rewrite bool_decide_eq_false_2 by (rewrite Hl, Nat.mul_comm, Nat.div_mul by done; by intros []).
    assert (existsb (fun c => bool_decide (decodeNibble c = badNibble)) (hex_encode b) = false) as ->; [|done].
    clear -Hh. induction Hh as [|c l [d Hc] _ IH]; [done|]. cbn [existsb]. rewrite IH, orb_false_r. apply bool_decide_eq_false. rewrite decodeNibble_bad. congruence.
  - unfold Decode. case_bool_decide as H0; [by destruct input|]. destruct (has0xPrefix input); [cbn [negb andb]|done]. destruct (isHex (drop 2 input)) eqn:Eh.
    + apply isHex_decodes in Eh as [d ->]. done.
    + pose proof (hex_decode_exact (drop 2 input)) as He. destruct (hex_decode (drop 2 input)) as [d [e|]]; [done|]. destruct He as (He & _). congruence.
  - unfold Decode. case_bool_decide as H0; [done|]. destruct (has0xPrefix input); [cbn [negb]|done]. pose proof (hex_decode_exact (drop 2 input)) as He.
    destruct (hex_decode (drop 2 input)) as [d [e|]]; [done|]. intros [= <-]. destruct He as (_ & He & _). unfold Encode. by rewrite He.
Qed.

(** ** Numbers *)

Definition digits_in (base : Z) (raw : bytes) : option (list Z) := mapM (digit_in base) raw.

Lemma digits_in_range base raw ds : digits_in base raw = Some ds → Forall (fun d => 0 ≤ d < base) ds ∧ length ds = length raw.
Proof.
  intros H%mapM_Some. induction H as [|c d raw ds Hc _ [IH1 IH2]]; [by split|]. split; [constructor; [by eapply digit_in_range|done]|cbn [length]; lia].
Qed.

Lemma digits_in_text base n : 2 ≤ base ≤ 16 → 0 ≤ n → digits_in base (text base n) = Some (digits_of base n).
Proof.
  intros Hb Hn. unfold text, digits_in. destruct (digits_of_ok base n) as (_ & Hf & _); [lia|done|]. apply mapM_Some. induction Hf as [|d ds Hd _ IH]; cbn [map]; constructor; [|done].
  unfold digit_in. rewrite fromHexChar_hexChar by lia. by rewrite bool_decide_eq_true_2 by lia.
Qed.

(** Digits back to text. *)
Lemma text_digits raw ds : digits_in 16 raw = Some ds → map hexChar ds = map lower raw.
Proof.
  intros H%mapM_Some. induction H as [|c d raw ds Hc _ IH]; [done|]. cbn [map]. rewrite IH. f_equal. rewrite digit_in_16 in Hc. unfold lower. by rewrite Hc.
Qed.

(** One word: no more than sixteen digits, so nothing overflows. *)
Lemma nibbles_word_value raw : ∀ word k, 0 ≤ word < 16 ^ Z.of_nat k → (k + length raw ≤ 16)%nat →
  nibbles_word word raw = match digits_in 16 raw with Some ds => inr (word * 16 ^ zlen raw + value 16 ds) | None => inl ErrSyntax end.
Proof.
  induction raw as [|c raw IH]; intros word k Hw Hk; cbn [nibbles_word].
  { unfold digits_in. cbn [mapM mret]. rewrite (@zlen_nil byte), Z.pow_0_r. change (value 16 []) with 0. unfold mret, option_ret.
    f_equal. unfold value. cbn [foldl]. lia. }
  cbn [length] in Hk. unfold digits_in. cbn [mapM]. rewrite digit_in_16. destruct (fromHexChar c) as [d|] eqn:E.
  - pose proof (fromHexChar_range c d E) as Hd. rewrite decodeNibble_from, E, bool_decide_eq_false_2 by (unfold badNibble; lia).
    assert (word * 16 + d < 16 ^ Z.of_nat (S k)) as Hlt by (rewrite Nat2Z.inj_succ, Z.pow_succ_r by lia; lia).
    assert (16 ^ Z.of_nat (S k) ≤ 2 ^ 64) as Hle by (change (2 ^ 64) with (16 ^ 16); apply Z.pow_le_mono_r; lia).
    rewrite !(wrapu_id 64) by (unfold in_u; lia || (rewrite wrapu_id by (unfold in_u; lia); unfold in_u; lia)).
    rewrite (IH _ (S k)) by lia. unfold digits_in. destruct (mapM (digit_in 16) raw) as [ds|] eqn:Em; [|done]. cbn [mbind option_bind]. unfold mret, option_ret. f_equal.
    assert (length ds = length raw) as El by (by apply (digits_in_range 16 raw)). 
    change (d :: ds) with ([d] ++ ds). rewrite value_app. change (value 16 [d]) with (0 * 16 + d). unfold zlen. cbn [length]. rewrite Nat2Z.inj_succ, Z.pow_succ_r, El by lia. lia.
  - rewrite decodeNibble_from, E, bool_decide_eq_true_2 by done. done.
Qed.

(** The words of the text, from its end. *)
Lemma nibbles_words_value raw n : ∀ stop, (stop ≤ 16 * n)%nat → (stop ≤ length raw)%nat →
  match digits_in 16 (take stop raw) with
  | Some ds => ∃ ws, nibbles_words n raw stop = inr ws ∧ words_value ws = value 16 ds
  | None => nibbles_words n raw stop = inl ErrSyntax
  end.
Proof.
  induction n as [|n IH]; intros stop Hn Hs.
  { assert (stop = 0%nat) as -> by lia. cbn. by exists []. }
  cbn [nibbles_words]. unfold bigWordNibbles. set (start := (stop - 16)%nat).
  assert (take stop raw = take start raw ++ take (stop - start) (drop start raw)) as ->.
  { rewrite take_take_drop. f_equal. lia. }
  set (word := take (stop - start) (drop start raw)). assert (length word = stop - start)%nat as Hlw by (unfold word; rewrite length_take, length_drop; lia).
  unfold digits_in in *. rewrite mapM_app. rewrite (nibbles_word_value word 0 0) by lia. unfold digits_in. specialize (IH start ltac:(lia) ltac:(lia)).
  destruct (mapM (digit_in 16) word) as [ds2|] eqn:E2; cbn [mbind option_bind].
  - destruct (mapM (digit_in 16) (take start raw)) as [ds1|] eqn:E1; cbn [mbind option_bind]; [|by rewrite IH]. destruct IH as (ws & -> & Hv). eexists. split; [done|]. cbn [words_value].
    rewrite Hv, value_app. assert (length ds2 = length word) as El by (by apply (digits_in_range 16 word)). destruct (decide (16 ≤ stop)%nat).
    + assert (zlen ds2 = 16) as -> by (unfold zlen; lia). change (2 ^ 64) with (16 ^ 16). lia.
    + assert (start = 0%nat) as E0 by (unfold start; lia). rewrite E0 in E1. cbn in E1. injection E1 as <-. change (value 16 []) with 0. lia.
  - by destruct (mapM (digit_in 16) (take start raw)).
Qed.

Lemma decode_big_value raw : (length raw ≤ 64)%nat → decode_big raw = match digits_in 16 raw with Some ds => inr (value 16 ds) | None => inl ErrSyntax end.
Proof.
  intros Hl. unfold decode_big. rewrite bool_decide_eq_false_2 by lia. pose proof (nibbles_words_value raw (length raw / bigWordNibbles + 1) (length raw)) as H.
  rewrite (take_ge raw) in H by lia. unfold bigWordNibbles in *. pose proof (Nat.div_mod_eq (length raw) 16). pose proof (Nat.mod_upper_bound (length raw) 16 ltac:(done)).
  specialize (H ltac:(lia) ltac:(lia)). destruct (digits_in 16 raw) as [ds|]; [destruct H as (ws & -> & ->)|rewrite H]; done.
Qed.

Lemma parse_uint_value base raw ds : 2 ≤ base ≤ 16 → digits_in base raw = Some ds → ∀ n, 0 ≤ n < 2 ^ 64 →
  parse_uint base n raw = if bool_decide (n * base ^ zlen ds + value base ds < 2 ^ 64) then inr (n * base ^ zlen ds + value base ds) else inl ErrUint64Range.
Proof.
  intros Hb H%mapM_Some. induction H as [|c d raw ds Hc Hrest IH]; intros n Hn; cbn [parse_uint].
  { rewrite (@zlen_nil Z), Z.pow_0_r. change (value base []) with 0. rewrite bool_decide_eq_true_2 by lia. f_equal. lia. }
  rewrite Hc. apply digit_in_range in Hc. assert (Forall (fun d => 0 ≤ d < base) ds) as Hds by (apply (digits_in_range base raw); by apply mapM_Some).
  pose proof (value_bound base ds ltac:(lia) Hds) as Hv. pose proof (zlen_nonneg ds) as Hz. assert (0 < base ^ zlen ds) as Hp by (apply Z.pow_pos_nonneg; lia).
  assert (n * base ^ zlen (d :: ds) + value base (d :: ds) = (n * base + d) * base ^ zlen ds + value base ds) as E.
  { change (d :: ds) with ([d] ++ ds). rewrite value_app. change (value base [d]) with (0 * base + d). unfold zlen in *. cbn [app length]. rewrite Nat2Z.inj_succ, Z.pow_succ_r by lia. lia. }
  rewrite E. pose proof (Z.div_mod (2 ^ 64 - 1) base ltac:(lia)) as Hd. pose proof (Z.mod_pos_bound (2 ^ 64 - 1) base ltac:(lia)) as Hm.
  destruct (decide (n * base < 2 ^ 64)) as [H1|H1].
  - rewrite bool_decide_eq_false_2 by nia. rewrite (wrapu_id 64 (n * base)) by (unfold in_u; nia). destruct (decide (n * base + d < 2 ^ 64)) as [H2|H2].
    + rewrite (wrapu_id 64 (n * base + d)) by (unfold in_u; nia). rewrite bool_decide_eq_false_2 by lia. apply IH. nia.
    + rewrite bool_decide_eq_true_2; [rewrite bool_decide_eq_false_2; [done|nia]|]. unfold wrapu. rewrite (mod_once _ _ (n * base + d - 2 ^ 64)) by lia. lia.
  - rewrite bool_decide_eq_true_2 by nia. rewrite bool_decide_eq_false_2; [done|nia].
Qed.

(** A bad digit is always an error. *)
Lemma parse_uint_bad base raw : digits_in base raw = None → ∀ n v, parse_uint base n raw ≠ inr v.
Proof.
  induction raw as [|c raw IH]; intros H n v; [done|]. unfold digits_in in *. cbn [mapM] in H. cbn [parse_uint]. destruct (digit_in base c); [|done]. cbn [mbind option_bind] in H.
  destruct (mapM (digit_in base) raw); [done|]. case_bool_decide; [done|]. case_bool_decide; [done|]. by apply IH.
Qed.

Lemma hexChar_zero d : 0 ≤ d < 16 → hexChar d = Byte.x30 → d = 0.
Proof. intros Hd E. pose proof (fromHexChar_hexChar d Hd) as H. rewrite E in H. by injection H. Qed.

Lemma fromHexChar_zero c : fromHexChar c = Some 0 → c = Byte.x30.
Proof. unfold fromHexChar. repeat case_bool_decide; intros [= E]; try lia. apply Z_of_byte_inj. change (Z_of_byte Byte.x30) with 48. lia. Qed.

(** The text of a number passes the checks. *)
Lemma text_16 n : 0 ≤ n → ∃ c rest, text 16 n = c :: rest ∧ (rest = [] ∨ c ≠ Byte.x30).
Proof.
  intros Hn. unfold text. destruct (digits_of_ok 16 n) as (_ & Hf & d & ds & E & H1 & H2); [lia|done|]. rewrite E in *. exists (hexChar d), (map hexChar ds). split; [done|].
  destruct (decide (n = 0)) as [H0|H0]; [left; by rewrite (H2 H0)|right]. inversion Hf; subst. intros H%hexChar_zero; lia.
Qed.

Lemma checkNumber_text n : 0 ≤ n → checkNumber (prefix ++ text 16 n) = inr (text 16 n) ∧ checkNumberText (prefix ++ text 16 n) = inr (text 16 n).
Proof.
  intros Hn. unfold checkNumber, checkNumberText, bytesHave0xPrefix. rewrite !bool_decide_eq_false_2 by done. destruct (prefix_drop (text 16 n)) as [-> ->]. cbn [negb].
  destruct (text_16 n Hn) as (c & rest & -> & H). assert ((bool_decide (rest ≠ []) && bool_decide (c = Byte.x30)) = false) as ->; [|done].
  apply andb_false_iff. rewrite !bool_decide_eq_false. destruct H as [->|]; [left; by intros []|by right].
Qed.

Lemma checkNumber_inv input raw : checkNumber input = inr raw → raw = drop 2 input ∧ checkNumberText input = inr raw ∧ ∃ c rest, raw = c :: rest ∧ (rest = [] ∨ c ≠ Byte.x30).
Proof.
  unfold checkNumber, checkNumberText, bytesHave0xPrefix. case_bool_decide; [done|]. destruct (negb (has0xPrefix input)); [done|]. destruct (drop 2 input) as [|c rest]; [done|].
  destruct (bool_decide (rest ≠ []) && bool_decide (c = Byte.x30)) eqn:E; [done|]. intros [= <-]. split; [done|]. split; [done|]. exists c, rest. split; [done|].
  apply andb_false_iff in E. rewrite !bool_decide_eq_false in E. destruct E as [E|E]; [left; by apply dec_stable|by right].
Qed.

Lemma canonical_digits c rest ds : rest = [] ∨ c ≠ Byte.x30 → digits_in 16 (c :: rest) = Some ds → canonical ds.
Proof.
  intros H Hd%mapM_Some. inversion Hd as [|? d ? ds' Hc Hr]; subst. rewrite digit_in_16 in Hc. destruct H as [->|H]; [left; by inversion Hr|right]. intros ->. by apply H, fromHexChar_zero.
Qed.

Lemma EncodeBig_text n : 0 ≤ n → EncodeBig n = prefix ++ text 16 n.
Proof. intros Hn. unfold EncodeBig. case_bool_decide; [by subst|]. by rewrite bool_decide_eq_true_2 by lia. Qed.

(** A number below [16 ^ k] has at most [k] digits. *)
Lemma length_text n k : 0 ≤ n < 16 ^ Z.of_nat k → (1 ≤ k)%nat → (length (text 16 n) ≤ k)%nat.
Proof.
  intros Hn Hk. unfold text. rewrite length_map. destruct (digits_of_ok 16 n) as (Hv & Hf & d & ds & E & H1 & H2); [lia|lia|]. rewrite E in *.
  destruct (decide (n = 0)) as [H0|H0]; [rewrite (H2 H0); cbn; lia|]. apply Nat.nlt_ge. intros Hlt. cbn [length] in Hlt.
  change (d :: ds) with ([d] ++ ds) in Hv. rewrite value_app in Hv. change (value 16 [d]) with (0 * 16 + d) in Hv.
  pose proof (value_bound 16 ds ltac:(lia) (Forall_inv_tail Hf)) as Hb. assert (16 ^ Z.of_nat k ≤ 16 ^ zlen ds) by (apply Z.pow_le_mono_r; unfold zlen; lia).
  specialize (H1 ltac:(lia)). nia.
Qed.

Lemma ParseUint_text n : in_u 64 n → ParseUint 16 (text 16 n) = inr n.
Proof.
  intros Hn. unfold in_u in Hn. destruct (digits_of_ok 16 n) as (Hv & _); [lia|lia|]. pose proof (digits_in_text 16 n ltac:(lia) ltac:(lia)) as Hd. unfold ParseUint.
  destruct (text_16 n) as (c & rest & E & _); [lia|]. rewrite E in *. rewrite (parse_uint_value 16 _ _ ltac:(lia) Hd 0) by lia. rewrite Z.mul_0_l, Z.add_0_l, Hv. by rewrite bool_decide_eq_true_2 by lia.
Qed.

(** Numbers survive their text, and the text is unique: DecodeBig reads what EncodeBig writes
    for every number of 256 bits, DecodeUint64 what EncodeUint64 writes, the methods of the
    JSON types likewise; and a text that DecodeBig or DecodeUint64 accepts is, in lower case,
    the one that is written for its number.  DecodeBig collects digits into machine words. *)
Theorem hex_numbers_exact :
  (∀ n, 0 ≤ n < 2 ^ 256 → DecodeBig (EncodeBig n) = inr n ∧ Big_UnmarshalText (Big_MarshalText n) = inr n)
  ∧ (∀ n, in_u 64 n → DecodeUint64 (EncodeUint64 n) = inr n ∧ Uint64_UnmarshalText (Uint64_MarshalText n) = inr n)
  ∧ (∀ input n, DecodeBig input = inr n → 0 ≤ n < 2 ^ 256 ∧ EncodeBig n = prefix ++ map lower (drop 2 input))
  ∧ (∀ input n, DecodeUint64 input = inr n → in_u 64 n ∧ EncodeUint64 n = prefix ++ map lower (drop 2 input)).
Proof.
  split; [|split; [|split]].
  - intros n Hn. unfold DecodeBig, Big_UnmarshalText, Big_MarshalText. rewrite EncodeBig_text by lia. destruct (checkNumber_text n) as [-> ->]; [lia|].
    rewrite decode_big_value by (apply (length_text n 64); [exact Hn|lia]). rewrite digits_in_text by lia. destruct (digits_of_ok 16 n) as (-> & _); [lia|lia|done].
  - intros n Hn. unfold in_u in Hn. unfold DecodeUint64, Uint64_UnmarshalText, Uint64_MarshalText, EncodeUint64. destruct (checkNumber_text n) as [-> ->]; [lia|].
    destruct (digits_of_ok 16 n) as (Hv & _); [lia|lia|]. pose proof (digits_in_text 16 n ltac:(lia) ltac:(lia)) as Hd. split.
    + by apply ParseUint_text.
    + pose proof (length_text n 16 Hn ltac:(lia)) as Hl. rewrite bool_decide_eq_false_2 by lia. rewrite (nibbles_word_value _ 0 0) by lia. rewrite Hd, Hv. by rewrite Z.mul_0_l, Z.add_0_l.
  - intros input n. unfold DecodeBig. destruct (checkNumber input) as [|raw] eqn:Ec; [done|]. apply checkNumber_inv in Ec as (-> & _ & c & rest & Er & Hc).
    destruct (decide (64 < length (drop 2 input))%nat) as [Hl|Hl]; [unfold decode_big; by rewrite bool_decide_eq_true_2|]. rewrite decode_big_value by lia.
    destruct (digits_in 16 (drop 2 input)) as [ds|] eqn:Ed; [|done]. intros [= <-]. destruct (digits_in_range _ _ _ Ed) as [Hf Hlen]. pose proof (value_bound 16 ds ltac:(lia) Hf) as Hb. split.
    + split; [lia|]. eapply Z.lt_le_trans; [apply Hb|]. change (2 ^ 256) with (16 ^ 64). apply Z.pow_le_mono_r; unfold zlen; lia.
    + rewrite EncodeBig_text by lia. f_equal. rewrite <- (text_digits _ _ Ed). unfold text. f_equal. apply digits_of_value; [lia|done|]. rewrite Er in Ed. by eapply canonical_digits.
  - intros input n. unfold DecodeUint64. destruct (checkNumber input) as [|raw] eqn:Ec; [done|]. apply checkNumber_inv in Ec as (-> & _ & c & rest & Er & Hc).
    unfold ParseUint. destruct (drop 2 input) as [|c' rest'] eqn:Edr; [done|]. rewrite <- Edr in *. destruct (digits_in 16 (drop 2 input)) as [ds|] eqn:Ed; [|intros H; by apply parse_uint_bad in H].
    rewrite (parse_uint_value 16 _ _ ltac:(lia) Ed 0) by lia. case_bool_decide as Hb; [|done]. intros [= <-]. rewrite Z.mul_0_l, Z.add_0_l in *. destruct (digits_in_range _ _ _ Ed) as [Hf Hlen].
    pose proof (value_bound 16 ds ltac:(lia) Hf) as Hb'. split; [unfold in_u; lia|]. unfold EncodeUint64. f_equal. rewrite <- (text_digits _ _ Ed). unfold text. f_equal. apply digits_of_value; [lia|done|].
    rewrite Er in Ed. by eapply canonical_digits.
Qed.

Lemma checkNumberText_nonempty input : input ≠ [] → checkNumberText input = checkNumber input.
Proof. intros H. unfold checkNumberText, checkNumber, bytesHave0xPrefix. destruct input; done. Qed.

(** The two decoders of 64-bit numbers accept the same texts, but for the empty one; they may
    give different errors. *)
Lemma uint64_decoders_agree input n : input ≠ [] → DecodeUint64 input = inr n ↔ Uint64_UnmarshalText input = inr n.
Proof.
  intros Hi. unfold DecodeUint64, Uint64_UnmarshalText. rewrite checkNumberText_nonempty by done. destruct (checkNumber input) as [e|raw] eqn:Ec; [done|].
  apply checkNumber_inv in Ec as (_ & _ & c & rest & Er & Hc). unfold ParseUint. destruct raw as [|c0 rest0]; [done|]. rewrite Er in *. clear Er. set (raw := c :: rest) in *.
  destruct (digits_in 16 raw) as [ds|] eqn:Ed.
  - rewrite (parse_uint_value 16 _ _ ltac:(lia) Ed 0), Z.mul_0_l, Z.add_0_l by lia. destruct (digits_in_range _ _ _ Ed) as [Hf Hl]. destruct (decide (16 < length raw)%nat) as [H16|H16].
    + rewrite (bool_decide_eq_true_2 (16 < length raw)%nat) by done. rewrite bool_decide_eq_false_2; [done|]. assert (canonical ds) as Hcan by (by eapply canonical_digits).
      destruct ds as [|d ds]; [done|]. destruct Hcan as [->|Hd]; [cbn [length] in Hl; lia|]. change (d :: ds) with ([d] ++ ds). rewrite value_app. change (value 16 [d]) with (0 * 16 + d).
      pose proof (value_bound 16 ds ltac:(lia) (Forall_inv_tail Hf)). pose proof (Forall_inv Hf) as Hd0. cbn beta in Hd0.
      assert (16 ^ 16 ≤ 16 ^ zlen ds) by (apply Z.pow_le_mono_r; unfold zlen; cbn [length] in Hl; lia). change (2 ^ 64) with (16 ^ 16). nia.
    + rewrite (bool_decide_eq_false_2 (16 < length raw)%nat) by done. rewrite (nibbles_word_value _ 0 0) by lia. rewrite Ed, Z.mul_0_l, Z.add_0_l. rewrite bool_decide_eq_true_2; [done|].
      pose proof (value_bound 16 ds ltac:(lia) Hf). eapply Z.lt_le_trans; [apply H|]. change (2 ^ 64) with (16 ^ 16). apply Z.pow_le_mono_r; unfold zlen; lia.
  - split; [intros H; by apply parse_uint_bad in H|]. case_bool_decide; [done|]. rewrite (nibbles_word_value _ 0 0) by lia. by rewrite Ed.
Qed.

(** ** Numbers of framework/crypto/math *)

Lemma SetString_digits base c s : is_Some (digit_in base c) → SetString base (c :: s) = scan base (c :: s).
Proof.
  intros [d Hd]. unfold digit_in in Hd. destruct (fromHexChar c) eqn:E; [|done]. clear Hd. destruct c; try reflexivity; exfalso; by vm_compute in E.
Qed.

Lemma scan_text base n : 2 ≤ base ≤ 16 → 0 ≤ n → ∃ c s, text base n = c :: s ∧ is_Some (digit_in base c) ∧ Forall (fun c => is_Some (digit_in base c)) s ∧ scan base (text base n) = Some n ∧ SetString base (text base n) = Some n.
Proof.
  intros Hb Hn. destruct (digits_of_ok base n) as (Hv & Hf & d & ds & E & _ & _); [lia|done|]. pose proof (digits_in_text base n Hb Hn) as Hd.
  assert (Forall (fun c => is_Some (digit_in base c)) (text base n)) as Hc.
  { unfold digits_in in Hd. apply mapM_Some in Hd. clear -Hd. induction Hd; constructor; [eauto|done]. }
  unfold text in *. rewrite E in *. cbn [map] in *. exists (hexChar d), (map hexChar ds). inversion Hc as [|? ? Hc1 Hc2]; subst. split; [done|]. split; [done|]. split; [done|].
  assert (scan base (hexChar d :: map hexChar ds) = Some (value base (d :: ds))) as Es by (unfold scan; unfold digits_in in Hd; by rewrite Hd). split; [done|]. by rewrite SetString_digits.
Qed.

Lemma no_prefix base n : 2 ≤ base ≤ 16 → 0 ≤ n → has0xPrefix (text base n) = false.
Proof.
  intros Hb Hn. destruct (scan_text base n Hb Hn) as (c & s & -> & _ & Hs & _). destruct s as [|c2 s]; [done|]. inversion Hs as [|? ? [d Hd] _]; subst.
  cbn [has0xPrefix]. rewrite (bool_decide_eq_false_2 (c2 = Byte.x78)), (bool_decide_eq_false_2 (c2 = Byte.x58)) by (intros ->; by vm_compute in Hd). by rewrite andb_false_r.
Qed.

Lemma BitLen_256 n : Z.abs n < 2 ^ 256 → BitLen (Z.abs n) ≤ 256.
Proof. intros H. unfold BitLen. case_bool_decide; [lia|]. assert (Z.log2 (Z.abs n) < 256) by (apply Z.log2_lt_pow2; lia). lia. Qed.

(** The number types of the math package read what they print: HexOrDecimal64 for every
    64-bit number, HexOrDecimal256 for every number of 256 bits that is not negative, and
    Decimal256 for negative ones too. *)
Theorem math_numbers_roundtrip n : Z.abs n < 2 ^ 256 →
  Decimal256_UnmarshalText (Decimal256_String (Some n)) = Some n
  ∧ (0 ≤ n → HexOrDecimal256_UnmarshalText (HexOrDecimal256_MarshalText (Some n)) = Some n)
  ∧ (in_u 64 n → HexOrDecimal64_UnmarshalText (HexOrDecimal64_MarshalText n) = Some n).
Proof.
  intros Hn. pose proof (BitLen_256 n Hn) as Hl. split; [|split].
  - unfold Decimal256_UnmarshalText, Decimal256_String, ParseBig256, format_dec. destruct (decide (n < 0)) as [Hneg|Hneg]; [rewrite !(bool_decide_eq_true_2 (n < 0)) by done|rewrite !(bool_decide_eq_false_2 (n < 0)) by done].
    + destruct (scan_text 10 (- n)) as (c & s & E & _ & _ & Hs & _); [lia|lia|]. rewrite bool_decide_eq_false_2 by done.
      change (has0xPrefix (Byte.x2d :: text 10 (- n))) with (match text 10 (- n) with b :: _ => bool_decide (Byte.x2d = Byte.x30) && (bool_decide (b = Byte.x78) || bool_decide (b = Byte.x58)) | [] => false end).
      rewrite (bool_decide_eq_false_2 (Byte.x2d = Byte.x30)) by done. rewrite E at 1. cbn [andb]. cbn [SetString]. rewrite Hs. cbn [mbind option_bind]. rewrite Z.opp_involutive. by rewrite bool_decide_eq_false_2 by lia.
    + destruct (scan_text 10 n) as (c & s & E & _ & _ & _ & Hs); [lia|lia|]. rewrite no_prefix by lia. rewrite Hs. rewrite (bool_decide_eq_false_2 (text 10 n = [])) by (by rewrite E).
      cbn [mbind option_bind]. by rewrite bool_decide_eq_false_2 by lia.
  - intros H0. unfold HexOrDecimal256_UnmarshalText, HexOrDecimal256_MarshalText, ParseBig256, format_hex. rewrite (bool_decide_eq_false_2 (n < 0)) by lia. rewrite bool_decide_eq_false_2 by done.
    destruct (prefix_drop (text 16 n)) as [-> ->]. destruct (scan_text 16 n) as (c & s & E & _ & _ & _ & Hs); [lia|lia|]. rewrite Hs. cbn [mbind option_bind]. by rewrite bool_decide_eq_false_2 by lia.
  - intros H0. unfold in_u in H0. unfold HexOrDecimal64_UnmarshalText, HexOrDecimal64_MarshalText, ParseUint64, format_hex. rewrite (bool_decide_eq_false_2 (n < 0)) by lia. rewrite bool_decide_eq_false_2 by done.
    destruct (prefix_drop (text 16 n)) as [-> ->]. by rewrite ParseUint_text.
Qed.

Lemma math_numbers_roundtrip_witness : Decimal256_UnmarshalText (Decimal256_String (Some (-255))) = Some (-255)
  ∧ HexOrDecimal64_UnmarshalText (HexOrDecimal64_MarshalText 255) = Some 255.
Proof.
  split; [apply (math_numbers_roundtrip (-255)); lia|]. apply (math_numbers_roundtrip 255); [lia|unfold in_u; lia].
Defined.

(** A negative HexOrDecimal256 is printed as -0x5, which is not read; 0x-5 is. *)
Example negative_hex_is_lost :
  HexOrDecimal256_UnmarshalText (HexOrDecimal256_MarshalText (Some (-5))) = None ∧ HexOrDecimal256_UnmarshalText (prefix ++ [Byte.x2d; Byte.x35]) = Some (-5).
Proof. split; vm_compute; reflexivity. Qed.

(** The number with the most digits is read, one more is not; an empty text is zero for the JSON
    types only; the bytes before a bad digit are kept by Hex2Bytes. *)
Example hex_boundaries :
  DecodeUint64 (prefix ++ replicate 16 Byte.x66) = inr (2 ^ 64 - 1) ∧ DecodeUint64 (prefix ++ replicate 17 Byte.x66) = inl ErrUint64Range
  ∧ Uint64_UnmarshalText [] = inr 0 ∧ DecodeUint64 [] = inl ErrEmptyString ∧ Decode prefix = inr [] ∧ DecodeBig prefix = inl ErrEmptyNumber
  ∧ Hex2Bytes [Byte.x34; Byte.x31; Byte.x7a; Byte.x7a] = [Byte.x41].
Proof. split_and!; vm_compute; reflexivity. Qed.

(** ** Padding *)

Lemma LeftPadBytes_pad s l : LeftPadBytes s l = replicate (l - length s) Byte.x00 ++ s.
Proof.
  unfold LeftPadBytes. case_bool_decide; [by replace (l - length s)%nat with 0%nat by lia|]. rewrite copy_at_fits by (rewrite length_replicate; lia). cbn [fst].
  rewrite take_replicate, drop_replicate. replace (l - (l - length s + length s))%nat with 0%nat by lia. cbn [replicate]. rewrite app_nil_r. f_equal. f_equal. lia.
Qed.

Lemma RightPadBytes_pad s l : RightPadBytes s l = s ++ replicate (l - length s) Byte.x00.
Proof.
  unfold RightPadBytes. case_bool_decide; [replace (l - length s)%nat with 0%nat by lia; by rewrite app_nil_r|]. rewrite copy_at_fits by (rewrite length_replicate; lia). cbn [fst take app Nat.add].
  by rewrite drop_replicate.
Qed.

Lemma TrimLeftZeroes_zeros n s : TrimLeftZeroes (replicate n Byte.x00 ++ s) = TrimLeftZeroes s.
Proof. induction n as [|n IH]; [done|]. cbn [replicate app TrimLeftZeroes]. by rewrite bool_decide_eq_true_2. Qed.

Lemma be_decode_zeros n s : be_decode (replicate n Byte.x00 ++ s) = be_decode s.
Proof. rewrite be_decode_app. replace (be_decode (replicate n Byte.x00)) with 0; [lia|]. induction n as [|n IH]; [done|]. exact IH. Qed.

Lemma TrimLeftZeroes_value s : be_decode (TrimLeftZeroes s) = be_decode s.
Proof. induction s as [|b s IH]; [done|]. cbn [TrimLeftZeroes]. case_bool_decide; [subst|done]. rewrite IH. symmetry. apply (be_decode_zeros 1 s). Qed.

(** Hex2BytesFixed gives the last bytes, padded to the width: as a number, the rest of the
    division by the width. *)
Lemma Hex2BytesFixed_value b flen : Hex2BytesFixed (hex_encode b) flen = be_encode flen (be_decode b).
Proof.
  unfold Hex2BytesFixed. rewrite hex_decode_encode. cbn [fst]. case_bool_decide as H1; [subst; by rewrite be_encode_decode|]. case_bool_decide as H2.
  - rewrite <- (take_drop (length b - flen) b) at 3. rewrite be_decode_app.
    assert (length (drop (length b - flen) b) = flen) as El by (rewrite length_drop; lia). unfold zlen. rewrite El.
    rewrite <- be_encode_mod with (k := flen) by lia. replace (be_decode (take (length b - flen) b) * 256 ^ Z.of_nat flen + be_decode (drop (length b - flen) b)) with
      (be_decode (drop (length b - flen) b) + be_decode (take (length b - flen) b) * 256 ^ Z.of_nat flen) by lia.
    rewrite Z.mod_add by lia. rewrite be_encode_mod by lia. rewrite <- (be_encode_decode (drop (length b - flen) b)) at 1. by rewrite El.
  - rewrite copy_at_fits by (rewrite length_replicate; lia). cbn [fst]. rewrite take_replicate, drop_replicate. replace (flen - (flen - length b + length b))%nat with 0%nat by lia.
    rewrite app_nil_r, Nat.min_l by lia. replace flen with (flen - length b + length b)%nat at 2 by lia. rewrite be_encode_small by apply be_decode_bound. by rewrite be_encode_decode.
Qed.
