(* ===== verification/Curve.v ===== *)
(** * Curve: the elliptic curve secp256k1

    Models BitCurve of framework/crypto/ethereum/secp256k1/curve.go: addition and doubling in
    Jacobian coordinates, the test for points, and the encoding of points.  A big.Int is a
    [Z]; the local variables that the code updates in place are names for their successive
    values.  ScalarMult is C code and not modelled.

    The reference is the addition of points by chords and tangents.  The theorems hold for every
    odd prime [P], [BitCurve] being meant for any curve of this kind. *)
From Stdlib Require Import Znumtheory Field Setoid Morphisms.
From S2P Require Import Prelude Bytes Rlp RlpEncode BigMath.

Record BitCurve := mkCurve { P : Z; N : Z; B : Z; Gx : Z; Gy : Z; BitSize : nat }.

(** The values are those of SEC 2; N is the order of the base point. *)
Definition theCurve : BitCurve := mkCurve
  0xFFFFFFFFFFFFFFFFFFFFFFFFFFFFFFFFFFFFFFFFFFFFFFFFFFFFFFFEFFFFFC2F
  0xFFFFFFFFFFFFFFFFFFFFFFFFFFFFFFFEBAAEDCE6AF48A03BBFD25E8CD0364141
  7
  0x79BE667EF9DCBBAC55A06295CE870B07029BFCDB2DCE28D959F2815B16F81798
  0x483ADA7726A3C4655DA4FBFC0E1108A8FD17B448A68554199C47D08FFB10D4B8
  256.

(** ** big.Int.ModInverse

    Euclid's algorithm with one coefficient; [None] is the nil that is returned when there is no
    inverse.  A step at least halves the product of the two remainders, so twice the length of
    the modulus is enough fuel. *)
Fixpoint egcd (fuel : nat) (r0 r1 s0 s1 : Z) : Z * Z :=
  match fuel with
  | O => (r0, s0)
  | S fuel => if bool_decide (r1 = 0) then (r0, s0) else egcd fuel r1 (r0 mod r1) s1 (s0 - r0 / r1 * s1)
  end.
Definition ModInverse (g n : Z) : option Z :=
  let '(d, s) := egcd (Z.to_nat (2 * Z.log2 n + 2)) n (g mod n) 0 1 in
  if bool_decide (d = 1) then Some (s mod n) else None.

(** ** curve.go *)

Definition readBits (x : Z) (buf : bytes) : bytes := ReadBits x buf.

Section Curve.
Context (C : BitCurve).

Definition IsOnCurve (x y : Z) : bool :=
  let y2 := (y * y) mod P C in
  let x3 := x * x * x in
  let x3 := (x3 + B C) mod P C in
  bool_decide (x3 = y2).

Definition affineFromJacobian (p : Z * Z * Z) : res (Z * Z) :=
  let '(x, y, z) := p in
  if bool_decide (z = 0) then Ok (0, 0)
  else
    match ModInverse z (P C) with
    | None => Panic "nil pointer"
    | Some zinv =>
        let zinvsq := zinv * zinv in
        let xOut := (x * zinvsq) mod P C in
        let zinvsq := zinvsq * zinv in
        let yOut := (y * zinvsq) mod P C in
        Ok (xOut, yOut)
    end.

(** [if h.Sign() == -1 { h.Add(h, P) }] *)
Definition lift_sign (h : Z) : Z := if bool_decide (h < 0) then h + P C else h.

Definition addJacobian (p1 p2 : Z * Z * Z) : Z * Z * Z :=
  let '(x1, y1, z1) := p1 in
  let '(x2, y2, z2) := p2 in
  let z1z1 := (z1 * z1) mod P C in
  let z2z2 := (z2 * z2) mod P C in
  let u1 := (x1 * z2z2) mod P C in
  let u2 := (x2 * z1z1) mod P C in
  let h := lift_sign (u2 - u1) in
  let i := h ≪ 1 in
  let i := i * i in
  let j := h * i in
  let s1 := (y1 * z2 * z2z2) mod P C in
  let s2 := (y2 * z1 * z1z1) mod P C in
  let r := lift_sign (s2 - s1) in
  let r := r ≪ 1 in
  let v := u1 * i in
  let x3 := (r * r - j - v - v) mod P C in
  let v := v - x3 in
  let y3 := r * v in
  let s1 := (s1 * j) ≪ 1 in
  let y3 := (y3 - s1) mod P C in
  let z3 := z1 + z2 in
  let z3 := lift_sign (z3 * z3 - z1z1) in
  let z3 := lift_sign (z3 - z2z2) in
  let z3 := (z3 * h) mod P C in
  (x3, y3, z3).

Definition doubleJacobian (p : Z * Z * Z) : Z * Z * Z :=
  let '(x, y, z) := p in
  let a := x * x in
  let b := y * y in
  let c := b * b in
  let d := x + b in
  let d := d * d in
  let d := d - a in
  let d := d - c in
  let d := d * 2 in
  let e := 3 * a in
  let f := e * e in
  let x3 := 2 * d in
  let x3 := (f - x3) mod P C in
  let y3 := d - x3 in
  let y3 := e * y3 in
  let y3 := (y3 - 8 * c) mod P C in
  let z3 := y * z in
  let z3 := (2 * z3) mod P C in
  (x3, y3, z3).

Definition Add (x1 y1 x2 y2 : Z) : res (Z * Z) :=
  if bool_decide (x1 = 0) && bool_decide (y1 = 0) then Ok (x2, y2)
  else if bool_decide (x2 = 0) && bool_decide (y2 = 0) then Ok (x1, y1)
  else if bool_decide (x1 = x2) && bool_decide (y1 = y2) then affineFromJacobian (doubleJacobian (x1, y1, 1))
  else affineFromJacobian (addJacobian (x1, y1, 1) (x2, y2, 1)).

Definition Double (x1 y1 : Z) : res (Z * Z) := affineFromJacobian (doubleJacobian (x1, y1, 1)).

Definition byteLen : nat := ((BitSize C + 7) / 8)%nat.

Definition Marshal (x y : Z) : bytes :=
  Byte.x04 :: readBits x (replicate byteLen Byte.x00) ++ readBits y (replicate byteLen Byte.x00).

Definition Unmarshal (data : bytes) : option (Z * Z) :=
  if bool_decide (length data ≠ 1 + 2 * byteLen)%nat then None
  else
    match data with
    | flag :: rest => if bool_decide (flag ≠ Byte.x04) then None else Some (be_decode (take byteLen rest), be_decode (drop byteLen rest))
    | [] => None
    end.

(** ** Euclid's algorithm *)

Lemma egcd_ok n g fuel : ∀ r0 r1 s0 s1, 0 ≤ r1 ≤ r0 → r0 * r1 < 2 ^ Z.of_nat fuel → (n | s0 * g - r0) → (n | s1 * g - r1) →
  let '(d, s) := egcd fuel r0 r1 s0 s1 in d = Z.gcd r0 r1 ∧ (n | s * g - d).
Proof.
  induction fuel as [|fuel IH]; intros r0 r1 s0 s1 Hr Hf H0 H1; cbn [egcd].
  { assert (r1 = 0) as -> by (cbn in Hf; nia). rewrite Z.gcd_0_r, Z.abs_eq by lia. done. }
  case_bool_decide as E; [subst r1; rewrite Z.gcd_0_r, Z.abs_eq by lia; done|].
  pose proof (Z.mod_pos_bound r0 r1 ltac:(lia)) as Hm. pose proof (Z.div_mod r0 r1 ltac:(lia)) as Hd. rewrite Nat2Z.inj_succ, Z.pow_succ_r in Hf by lia.
  assert (1 ≤ r0 / r1) as Hq by (apply Z.div_le_lower_bound; lia).
  specialize (IH r1 (r0 mod r1) s1 (s0 - r0 / r1 * s1)). destruct (egcd fuel _ _ _ _) as [d s]. rewrite Z.gcd_comm, <- Z.gcd_mod, Z.gcd_comm by lia. apply IH; [lia|nia|done|].
  replace ((s0 - r0 / r1 * s1) * g - r0 mod r1) with ((s0 * g - r0) - r0 / r1 * (s1 * g - r1)) by lia. apply Z.divide_sub_r; [done|by apply Z.divide_mul_r].
Qed.

(** ModInverse finds the inverse when there is one. *)
Lemma ModInverse_ok g n : 1 < n → Z.gcd g n = 1 → ∃ i, ModInverse g n = Some i ∧ 0 ≤ i < n ∧ (i * g) mod n = 1.
Proof.
  intros Hn Hg. unfold ModInverse. pose proof (Z.mod_pos_bound g n ltac:(lia)) as Hm. pose proof (Z.log2_spec n ltac:(lia)) as Hl. pose proof (Z.log2_nonneg n) as Hl0.
  pose proof (egcd_ok n g (Z.to_nat (2 * Z.log2 n + 2)) n (g mod n) 0 1) as H. destruct (egcd _ _ _ _ _) as [d s]. destruct H as [Hd Hs].
  - lia.
  - rewrite Z2Nat.id by lia. replace (2 * Z.log2 n + 2) with (Z.succ (Z.log2 n) + Z.succ (Z.log2 n)) by lia. rewrite Z.pow_add_r by lia. nia.
  - rewrite Z.mul_0_l, Z.sub_0_l. by apply Z.divide_opp_r, Z.divide_refl.
  - rewrite Z.mul_1_l. exists (g / n). pose proof (Z.div_mod g n ltac:(lia)). lia.
  - assert (d = 1) as ->. { rewrite Hd, Z.gcd_comm, Z.gcd_mod, Z.gcd_comm by lia. done. }
    rewrite bool_decide_eq_true_2 by done. exists (s mod n). split; [done|]. split; [apply Z.mod_pos_bound; lia|].
    rewrite Z.mul_mod_idemp_l by lia. destruct Hs as [q Hq]. replace (s * g) with (1 + q * n) by lia. rewrite Z.mod_add, Z.mod_small by lia. done.
Qed.

(** ** The field of the curve *)

Section Prime.
Context (H_prime : Z.prime (P C)) (H_odd : 2 < P C).

Definition eqm (a b : Z) : Prop := (P C | a - b).
Definition inv (a : Z) : Z := default 0 (ModInverse (a mod P C) (P C)).
Definition fdiv (a b : Z) : Z := a * inv b.
#[local] Infix "≡p" := eqm (at level 70).

Lemma eqm_iff a b : a ≡p b ↔ a mod P C = b mod P C.
Proof. unfold eqm. rewrite <- Z.mod_divide, Z.cong_iff_0 by lia. done. Qed.

#[local] Instance eqm_equiv : Equivalence eqm.
Proof. split; red; intros *; rewrite ?eqm_iff; congruence. Qed.
#[local] Instance eqm_add : Proper (eqm ==> eqm ==> eqm) Z.add.
Proof. intros a a' Ha b b' Hb. rewrite eqm_iff in *. by rewrite Z.add_mod, Ha, Hb, <- Z.add_mod by lia. Qed.
#[local] Instance eqm_mul : Proper (eqm ==> eqm ==> eqm) Z.mul.
Proof. intros a a' Ha b b' Hb. rewrite eqm_iff in *. by rewrite Z.mul_mod, Ha, Hb, <- Z.mul_mod by lia. Qed.
#[local] Instance eqm_opp : Proper (eqm ==> eqm) Z.opp.
Proof. intros a a' Ha. replace (- a) with (-1 * a) by lia. replace (- a') with (-1 * a') by lia. by apply eqm_mul. Qed.
#[local] Instance eqm_sub : Proper (eqm ==> eqm ==> eqm) Z.sub.
Proof. intros a a' Ha b b' Hb. unfold Z.sub. by rewrite Ha, Hb. Qed.
#[local] Instance eqm_inv : Proper (eqm ==> eqm) inv.
Proof. intros a a' Ha. unfold inv. rewrite eqm_iff in Ha. by rewrite Ha. Qed.
#[local] Instance eqm_fdiv : Proper (eqm ==> eqm ==> eqm) fdiv.
Proof. intros a a' Ha b b' Hb. unfold fdiv. by rewrite Ha, Hb. Qed.

Lemma eqm_mod a : a mod P C ≡p a.
Proof. rewrite eqm_iff. by rewrite Z.mod_mod by lia. Qed.
Lemma lift_sign_eqm h : lift_sign h ≡p h.
Proof. unfold lift_sign. case_bool_decide; [|done]. rewrite eqm_iff. replace (h + P C) with (h + 1 * P C) by lia. by rewrite Z.mod_add by lia. Qed.
Lemma eqm_range a b : 0 ≤ a < P C → 0 ≤ b < P C → a ≡p b → a = b.
Proof. rewrite eqm_iff. intros Ha Hb. by rewrite !Z.mod_small by done. Qed.
Lemma shiftl_1 a : a ≪ 1 = 2 * a.
Proof. rewrite Z.shiftl_mul_pow2 by lia. lia. Qed.

Lemma inverse_found a : ¬ a ≡p 0 → ∃ i, ModInverse a (P C) = Some i ∧ 0 ≤ i < P C ∧ i * a ≡p 1.
Proof.
  intros Ha. destruct (ModInverse_ok a (P C)) as (i & E & Hi & H1); [lia| |exists i; split; [done|]; split; [done|]; apply eqm_iff; by rewrite H1, Z.mod_small by lia].
  rewrite Z.gcd_comm. apply Z.coprime_prime_l; [done|].
  intros Hd. apply Ha. unfold eqm. by rewrite Z.sub_0_r.
Qed.

Lemma inv_l a : ¬ a ≡p 0 → inv a * a ≡p 1.
Proof.
  intros Ha. assert (¬ a mod P C ≡p 0) as Ha' by (by rewrite eqm_mod). destruct (inverse_found (a mod P C) Ha') as (i & E & _ & H). unfold inv. rewrite E. cbn [default from_option id].
  by rewrite eqm_mod in H.
Qed.

Lemma Fp_ring : ring_theory 0 1 Z.add Z.mul Z.sub Z.opp eqm.
Proof. constructor; intros; apply eqm_iff; f_equal; ring. Qed.

Lemma Fp_field : field_theory 0 1 Z.add Z.mul Z.sub Z.opp fdiv inv eqm.
Proof.
  constructor; [exact Fp_ring| |done|exact inv_l]. rewrite eqm_iff. rewrite Z.mod_small, Z.mod_0_l by lia. lia.
Qed.

Add Field Fp : Fp_field.

Lemma mul_nonzero a b : ¬ a ≡p 0 → ¬ b ≡p 0 → ¬ a * b ≡p 0.
Proof. intros Ha Hb H. apply Ha. assert (a ≡p a * b * inv b) as -> by (field; done). rewrite H. ring. Qed.

Lemma two_nonzero : ¬ 2 ≡p 0.
Proof. rewrite eqm_iff. rewrite Z.mod_small, Z.mod_0_l by lia. lia. Qed.

Lemma two_is : 2 = 1 + 1.
Proof. done. Qed.

(** ** Points *)

Inductive point := Infinity | Affine (x y : Z).

(** (0, 0) stands for the point at infinity. *)
Definition decode (p : Z * Z) : point := if bool_decide (p = (0, 0)) then Infinity else Affine p.1 p.2.

(** The third point on a line of slope [l], reflected. *)
Definition third (l x1 y1 x2 : Z) : Z * Z := let x3 := (l * l - x1 - x2) mod P C in (x3, (l * (x1 - x3) - y1) mod P C).
Definition chord (x1 y1 x2 y2 : Z) : Z * Z := third (fdiv (y2 - y1) (x2 - x1)) x1 y1 x2.
Definition tangent (x y : Z) : Z * Z := third (fdiv (3 * (x * x)) (2 * y)) x y x.

Definition plus (p q : point) : point :=
  match p, q with
  | Infinity, q => q
  | p, Infinity => p
  | Affine x1 y1, Affine x2 y2 =>
      if bool_decide (x1 = x2) then
        if bool_decide (y1 = y2 ∧ y1 ≠ 0) then let '(x3, y3) := tangent x1 y1 in Affine x3 y3 else Infinity
      else let '(x3, y3) := chord x1 y1 x2 y2 in Affine x3 y3
  end.

(** The affine coordinates of Jacobian ones. *)
Definition ax (p : Z * Z * Z) : Z := let '(x, y, z) := p in fdiv x (z * z) mod P C.
Definition ay (p : Z * Z * Z) : Z := let '(x, y, z) := p in fdiv y (z * z * z) mod P C.
Definition az (p : Z * Z * Z) : Z := p.2.

Lemma affine_ok p : ¬ az p ≡p 0 → affineFromJacobian p = Ok (ax p, ay p).
Proof.
  destruct p as [[x y] z]. intros Hz. unfold az in Hz. cbn [snd] in Hz. unfold affineFromJacobian. rewrite bool_decide_eq_false_2 by (intros ->; by apply Hz).
  destruct (inverse_found z Hz) as (i & -> & _ & Hi). assert (i ≡p inv z) as Ei by (assert (i ≡p i * z * inv z) as -> by (field; done); rewrite Hi; ring).
  cbv zeta. do 2 f_equal; apply eqm_iff; rewrite Ei; unfold fdiv; field; done.
Qed.

(** *** Chords *)

(** Gives a reduced value a name and keeps what it is congruent to. *)
Ltac name_mod t x := let H := fresh "H" x in set (x := t); first [assert (H := eqm_mod _ : x ≡p _) | assert (H := lift_sign_eqm _ : x ≡p _)]; clearbody x.

(** The formulas that addJacobian computes. *)
Lemma addJacobian_formula x1 y1 z1 x2 y2 z2 :
  let u := x1 * (z2 * z2) in let h := x2 * (z1 * z1) - u in let t := y1 * (z2 * z2 * z2) in let s := y2 * (z1 * z1 * z1) - t in
  let '(x3, y3, z3) := addJacobian (x1, y1, z1) (x2, y2, z2) in
  let X := (1 + 1) * (1 + 1) * (s * s - h * h * h - (1 + 1) * (u * (h * h))) in
  x3 ≡p X ∧ y3 ≡p (1 + 1) * s * ((1 + 1) * (1 + 1) * (u * (h * h)) - X) - (1 + 1) * ((1 + 1) * ((1 + 1) * (t * (h * h * h)))) ∧ z3 ≡p (1 + 1) * (z1 * z2 * h).
Proof.
  intros u h t s. unfold addJacobian. cbv zeta.
  name_mod ((z1 * z1) mod P C) zz1. name_mod ((z2 * z2) mod P C) zz2. name_mod ((x1 * zz2) mod P C) u1. name_mod ((x2 * zz1) mod P C) u2.
  name_mod (lift_sign (u2 - u1)) h1. name_mod ((y1 * z2 * zz2) mod P C) s1. name_mod ((y2 * z1 * zz1) mod P C) s2. name_mod (lift_sign (s2 - s1)) r1.
  rewrite !shiftl_1, !two_is.
  assert (zz1 ≡p z1 * z1) as E1 by done. assert (zz2 ≡p z2 * z2) as E2 by done. assert (u1 ≡p u) as Eu by (rewrite Hu1, E2; done).
  assert (h1 ≡p h) as Eh by (rewrite Hh1, Hu2, E1, Eu; done). assert (s1 ≡p t) as Es by (rewrite Hs1, E2; unfold t; ring). assert (r1 ≡p s) as Er by (rewrite Hr1, Hs2, E1, Es; unfold s; ring).
  clearbody u h t s. split; [|split].
  - rewrite eqm_mod, Er, Eh, Eu. ring.
  - rewrite !eqm_mod, Er, Eh, Eu, Es. ring.
  - rewrite eqm_mod, !lift_sign_eqm, E1, E2, Eh. ring.
Qed.

Lemma addJacobian_chord x1 y1 z1 x2 y2 z2 : ¬ z1 ≡p 0 → ¬ z2 ≡p 0 → let p := (x1, y1, z1) in let q := (x2, y2, z2) in ax p ≠ ax q →
  let r := addJacobian p q in ¬ az r ≡p 0 ∧ (ax r, ay r) = chord (ax p) (ay p) (ax q) (ay q).
Proof.
  intros Hz1 Hz2 p q Hne. assert (¬ x2 * (z1 * z1) - x1 * (z2 * z2) ≡p 0) as Hh.
  { intros E. apply Hne. unfold ax, p, q. apply eqm_iff.
    assert (fdiv x2 (z2 * z2) ≡p fdiv ((x2 * (z1 * z1) - x1 * (z2 * z2)) + x1 * (z2 * z2)) (z1 * z1 * (z2 * z2))) as -> by (field; done).
    rewrite E. field. done. }
  pose proof (addJacobian_formula x1 y1 z1 x2 y2 z2) as H. fold p q in H. cbv zeta in *. destruct (addJacobian p q) as [[x3 y3] z3]. destruct H as (Hx & Hy & Hz).
  assert (¬ 1 + 1 ≡p 0) as H2 by exact two_nonzero.
  assert (¬ z3 ≡p 0) as Hz3 by (rewrite Hz; apply mul_nonzero; [done|]; apply mul_nonzero; [by apply mul_nonzero|done]).
  split; [done|]. unfold chord, third. cbn [ax ay p q].
  assert (¬ fdiv x2 (z2 * z2) - fdiv x1 (z1 * z1) ≡p 0) as Hd.
  { intros E. apply Hh. assert (x2 * (z1 * z1) - x1 * (z2 * z2) ≡p (fdiv x2 (z2 * z2) - fdiv x1 (z1 * z1)) * (z1 * z1 * (z2 * z2))) as -> by (field; done). rewrite E. ring. }
  assert (fdiv x3 (z3 * z3) mod P C = (fdiv (fdiv y2 (z2 * z2 * z2) mod P C - fdiv y1 (z1 * z1 * z1) mod P C) (fdiv x2 (z2 * z2) mod P C - fdiv x1 (z1 * z1) mod P C)
    * fdiv (fdiv y2 (z2 * z2 * z2) mod P C - fdiv y1 (z1 * z1 * z1) mod P C) (fdiv x2 (z2 * z2) mod P C - fdiv x1 (z1 * z1) mod P C) - fdiv x1 (z1 * z1) mod P C - fdiv x2 (z2 * z2) mod P C) mod P C) as Ex.
  { apply eqm_iff. rewrite !eqm_mod, Hx, Hz. field. split_and!; try done. }
  f_equal; [exact Ex|]. rewrite <- Ex. apply eqm_iff. rewrite !eqm_mod, Hx, Hy, Hz. field. split_and!; try done.
Qed.

(** *** Tangents *)

Lemma doubleJacobian_formula x y z : let d := (1 + 1) * (1 + 1) * (x * (y * y)) in let e := (1 + (1 + 1)) * (x * x) in
  let '(x3, y3, z3) := doubleJacobian (x, y, z) in
  let X := e * e - (1 + 1) * d in x3 ≡p X ∧ y3 ≡p e * (d - X) - (1 + 1) * ((1 + 1) * ((1 + 1) * (y * y * (y * y)))) ∧ z3 ≡p (1 + 1) * (y * z).
Proof.
  intros d e. unfold doubleJacobian. cbv zeta. change 3 with (1 + (1 + 1)). change 8 with ((1 + 1) * ((1 + 1) * (1 + 1))). rewrite !two_is. unfold d, e. split; [|split]; rewrite !eqm_mod; ring.
Qed.

Lemma doubleJacobian_tangent x y z : ¬ z ≡p 0 → ¬ y ≡p 0 → let p := (x, y, z) in let r := doubleJacobian p in ¬ az r ≡p 0 ∧ (ax r, ay r) = tangent (ax p) (ay p).
Proof.
  intros Hz Hy p r. pose proof (doubleJacobian_formula x y z) as H. fold p r in H. cbv zeta in *. destruct r as [[x3 y3] z3]. destruct H as (Ex & Ey & Ez).
  assert (¬ 1 + 1 ≡p 0) as H2 by exact two_nonzero. assert (¬ z3 ≡p 0) as Hz3 by (rewrite Ez; apply mul_nonzero; [done|]; by apply mul_nonzero).
  split; [done|]. unfold tangent, third. cbn [ax ay p]. change 3 with (1 + (1 + 1)). rewrite !two_is.
  assert (¬ fdiv y (z * z * z) ≡p 0) as Hd.
  { intros E. apply Hy. assert (y ≡p fdiv y (z * z * z) * (z * z * z)) as -> by (field; done). rewrite E. ring. }
  set (l := fdiv _ ((1 + 1) * _)). assert (l ≡p fdiv ((1 + (1 + 1)) * (x * x)) ((1 + 1) * (y * z))) as El by (unfold l; rewrite !eqm_mod; field; done). clearbody l.
  assert (fdiv x3 (z3 * z3) mod P C = (l * l - fdiv x (z * z) mod P C - fdiv x (z * z) mod P C) mod P C) as Ax by (apply eqm_iff; rewrite !eqm_mod, Ex, Ez, El; field; done).
  f_equal; [exact Ax|]. rewrite <- Ax. apply eqm_iff. rewrite !eqm_mod, Ex, Ey, Ez, El. field. done.
Qed.

(** *** The curve is closed *)

Definition on (x y : Z) : Prop := y * y ≡p x * x * x + B C.

Lemma IsOnCurve_on x y : IsOnCurve x y = true ↔ on x y.
Proof. unfold IsOnCurve, on. rewrite bool_decide_eq_true, eqm_iff. split; by intros ->. Qed.

Lemma on_proper x x' y y' : x ≡p x' → y ≡p y' → on x y → on x' y'.
Proof. intros Ex Ey. unfold on. by rewrite Ex, Ey. Qed.

(** The difference of curve and line, at the third point. *)
Lemma on_third l x1 y1 x2 : let f x := x * x * x + B C - (l * (x - x1) + y1) * (l * (x - x1) + y1) in let x3 := l * l - x1 - x2 in
  f x3 ≡p 0 → let '(x, y) := third l x1 y1 x2 in on x y.
Proof.
  cbv zeta. intros E. unfold third, on. rewrite !eqm_mod.
  assert ((l * (x1 - (l * l - x1 - x2)) - y1) * (l * (x1 - (l * l - x1 - x2)) - y1) ≡p (l * l - x1 - x2) * (l * l - x1 - x2) * (l * l - x1 - x2) + B C
    - ((l * l - x1 - x2) * (l * l - x1 - x2) * (l * l - x1 - x2) + B C - (l * (l * l - x1 - x2 - x1) + y1) * (l * (l * l - x1 - x2 - x1) + y1))) as -> by ring.
  rewrite E. ring.
Qed.

Lemma on_chord x1 y1 x2 y2 : ¬ x2 - x1 ≡p 0 → on x1 y1 → on x2 y2 → let '(x, y) := chord x1 y1 x2 y2 in on x y.
Proof.
  intros Hne H1 H2. unfold on in H1, H2. unfold chord. set (l := fdiv (y2 - y1) (x2 - x1)). assert (l * (x2 - x1) ≡p y2 - y1) as El by (unfold l; field; done). clearbody l.
  apply on_third. set (f := fun x => x * x * x + B C - (l * (x - x1) + y1) * (l * (x - x1) + y1)). change (f (l * l - x1 - x2) ≡p 0).
  assert (f x1 ≡p 0) as F1 by (unfold f; rewrite <- H1; ring). assert (f x2 ≡p 0) as F2 by (unfold f; rewrite El, <- H2; ring).
  assert (f (l * l - x1 - x2) ≡p fdiv (f x1 * (x2 - (l * l - x1 - x2)) + f x2 * ((l * l - x1 - x2) - x1)) (x2 - x1)) as -> by (unfold f; field; done).
  rewrite F1, F2. field. done.
Qed.

Lemma on_tangent x y : ¬ y ≡p 0 → on x y → let '(x', y') := tangent x y in on x' y'.
Proof.
  intros Hy H. unfold on in H. unfold tangent. change 3 with (1 + (1 + 1)). rewrite two_is. assert (¬ 1 + 1 ≡p 0) as H2 by exact two_nonzero.
  set (l := fdiv _ _). assert (l * ((1 + 1) * y) ≡p (1 + (1 + 1)) * (x * x)) as El by (unfold l; field; done). clearbody l.
  apply on_third. set (f := fun z => z * z * z + B C - (l * (z - x) + y) * (l * (z - x) + y)). change (f (l * l - x - x) ≡p 0).
  assert (f x ≡p 0) as F1 by (unfold f; rewrite <- H; ring).
  assert (f (l * l - x - x) ≡p ((1 + (1 + 1)) * (x * x) - l * ((1 + 1) * y)) * (l * l - x - x - x) + f x) as -> by (unfold f; ring).
  rewrite El, F1. ring.
Qed.

(** *** Addition *)

(** What the code takes for a point: (0, 0), or reduced coordinates on the curve. *)
Definition valid (p : Z * Z) : Prop := p = (0, 0) ∨ 0 ≤ p.1 < P C ∧ 0 ≤ p.2 < P C ∧ IsOnCurve p.1 p.2 = true.

Section Group.
Context (H_B : ¬ B C ≡p 0).

(** (0, 0) is not on the curve. *)
Lemma on_not_zero x y : on x y → (x, y) ≠ (0, 0).
Proof. intros H [= -> ->]. apply H_B. unfold on in H. assert (B C ≡p 0 * 0 * 0 + B C) as -> by ring. rewrite <- H. ring. Qed.

Lemma decode_on x y : on x y → decode (x, y) = Affine x y.
Proof. intros H. unfold decode. by rewrite bool_decide_eq_false_2 by (by apply on_not_zero). Qed.

Lemma third_range l x1 y1 x2 : let '(x, y) := third l x1 y1 x2 in 0 ≤ x < P C ∧ 0 ≤ y < P C.
Proof. split; apply Z.mod_pos_bound; lia. Qed.

Lemma third_valid l x1 y1 x2 : (let '(x, y) := third l x1 y1 x2 in on x y) → valid (third l x1 y1 x2) ∧ decode (third l x1 y1 x2) = Affine (third l x1 y1 x2).1 (third l x1 y1 x2).2.
Proof.
  pose proof (third_range l x1 y1 x2) as Hr. destruct (third l x1 y1 x2) as [x y]. intros Hon. split; [|by apply decode_on]. right. cbn [fst snd]. rewrite IsOnCurve_on. destruct Hr. by split; [|split].
Qed.

Lemma affine_1 x y : 0 ≤ x < P C → 0 ≤ y < P C → ax (x, y, 1) = x ∧ ay (x, y, 1) = y.
Proof.
  intros Hx Hy. unfold ax, ay. assert (¬ 1 ≡p 0) by (rewrite eqm_iff, Z.mod_small, Z.mod_0_l by lia; lia).
  split; (apply eqm_range; [apply Z.mod_pos_bound; lia|done|]; rewrite eqm_mod; field; done).
Qed.

Lemma one_nonzero : ¬ 1 ≡p 0.
Proof. rewrite eqm_iff, Z.mod_small, Z.mod_0_l by lia. lia. Qed.

Lemma eqm_zero y : 0 ≤ y < P C → y ≠ 0 → ¬ y ≡p 0.
Proof. intros Hy H E. apply H, eqm_range; [done|lia|done]. Qed.

(** Doubling a point. *)
Lemma double_ok x y : 0 ≤ x < P C → 0 ≤ y < P C → on x y →
  ∃ p, affineFromJacobian (doubleJacobian (x, y, 1)) = Ok p ∧ valid p ∧ decode p = if bool_decide (y ≠ 0) then Affine (tangent x y).1 (tangent x y).2 else Infinity.
Proof.
  intros Hx Hy Hon. case_bool_decide as H0.
  - destruct (doubleJacobian_tangent x y 1 one_nonzero (eqm_zero y Hy H0)) as [Hz E]. destruct (affine_1 x y Hx Hy) as [E1 E2]. cbv zeta in *. rewrite E1, E2 in E.
    exists (tangent x y). rewrite affine_ok, E by done. split; [done|]. apply third_valid, on_tangent; [by apply eqm_zero|done].
  - assert (y = 0) as -> by lia. exists (0, 0). unfold doubleJacobian, affineFromJacobian. cbv zeta. rewrite (bool_decide_eq_true_2 (2 * (0 * 1) mod P C = 0)) by (apply Z.mod_0_l; lia).
    split; [done|]. split; [by left|done].
Qed.

(** Points that lie on top of each other add up to infinity. *)
Lemma add_opposite x y1 y2 : affineFromJacobian (addJacobian (x, y1, 1) (x, y2, 1)) = Ok (0, 0).
Proof.
  assert ((addJacobian (x, y1, 1) (x, y2, 1)).2 = 0) as E.
  { unfold addJacobian. cbv zeta. cbn [snd]. rewrite Z.sub_diag. change (lift_sign 0) with 0. rewrite Z.mul_0_r. apply Z.mod_0_l. lia. }
  destruct (addJacobian (x, y1, 1) (x, y2, 1)) as [[x3 y3] z3]. cbn [snd] in E. by subst z3.
Qed.

Lemma add_distinct x1 y1 x2 y2 : 0 ≤ x1 < P C → 0 ≤ y1 < P C → 0 ≤ x2 < P C → 0 ≤ y2 < P C → x1 ≠ x2 → on x1 y1 → on x2 y2 →
  ∃ p, affineFromJacobian (addJacobian (x1, y1, 1) (x2, y2, 1)) = Ok p ∧ valid p ∧ decode p = Affine (chord x1 y1 x2 y2).1 (chord x1 y1 x2 y2).2.
Proof.
  intros Hx1 Hy1 Hx2 Hy2 Hne H1 H2. destruct (affine_1 x1 y1 Hx1 Hy1) as [E1 E2]. destruct (affine_1 x2 y2 Hx2 Hy2) as [E3 E4].
  destruct (addJacobian_chord x1 y1 1 x2 y2 1 one_nonzero one_nonzero) as [Hz E]; [by rewrite E1, E3|]. cbv zeta in *. rewrite E1, E2, E3, E4 in E.
  exists (chord x1 y1 x2 y2). rewrite affine_ok, E by done. split; [done|]. apply third_valid, on_chord; [|done|done].
  intros H. apply Hne, eqm_range; [done|done|]. assert (x1 ≡p x2 - (x2 - x1)) as -> by ring. rewrite H. ring.
Qed.

(** C12: Add, which works in Jacobian coordinates, is the addition of points by chords and
    tangents: for points of the curve, or (0, 0), it returns a point of the curve, or (0, 0),
    which is the sum, for distinct points, for a point and itself, for a point and its
    opposite, and with the point at infinity. *)
Theorem add_is_group_law x1 y1 x2 y2 : valid (x1, y1) → valid (x2, y2) →
  ∃ p, Add x1 y1 x2 y2 = Ok p ∧ valid p ∧ decode p = plus (decode (x1, y1)) (decode (x2, y2)).
Proof.
  intros V1 V2. unfold Add. destruct V1 as [[= -> ->]|(Hx1 & Hy1 & H1)]; [by exists (x2, y2)|]. destruct V2 as [[= -> ->]|(Hx2 & Hy2 & H2)].
  { rewrite IsOnCurve_on in H1. cbn [fst snd] in *. exists (x1, y1). assert ((bool_decide (x1 = 0) && bool_decide (y1 = 0)) = false) as ->.
    - apply andb_false_iff. rewrite !bool_decide_eq_false. apply on_not_zero in H1. destruct (decide (x1 = 0)); [right|by left]. congruence.
    - split; [done|]. split; [right; cbn [fst snd]; rewrite IsOnCurve_on; by split; [|split]|]. by rewrite decode_on. }
  rewrite !IsOnCurve_on in *. cbn [fst snd] in *. rewrite !decode_on by done.
  assert (∀ x y, on x y → (bool_decide (x = 0) && bool_decide (y = 0)) = false) as Hnz.
  { intros x y H%on_not_zero. apply andb_false_iff. rewrite !bool_decide_eq_false. destruct (decide (x = 0)); [right|by left]. congruence. }
  rewrite (Hnz x1 y1), (Hnz x2 y2) by done. cbn [plus]. destruct (decide (x1 = x2)) as [<-|Hne].
  - rewrite (bool_decide_eq_true_2 (x1 = x1)) by done. cbn [andb]. destruct (decide (y1 = y2)) as [<-|Hne].
    + rewrite (bool_decide_eq_true_2 (y1 = y1)) by done. destruct (double_ok x1 y1) as (p & E & Hv & Hd); try done. exists p. split; [done|]. split; [done|]. rewrite Hd.
      destruct (decide (y1 = 0)) as [H0|H0]; [rewrite !bool_decide_eq_false_2 by naive_solver; done|]. rewrite !bool_decide_eq_true_2 by done. by destruct (tangent x1 y1).
    + rewrite !bool_decide_eq_false_2 by naive_solver. exists (0, 0). rewrite add_opposite. split; [done|]. split; [by left|done].
  - rewrite (bool_decide_eq_false_2 (x1 = x2)) by done. cbn [andb]. destruct (add_distinct x1 y1 x2 y2) as (p & E & Hv & Hd); try done. exists p. split; [done|]. split; [done|].
    rewrite Hd. by destruct (chord x1 y1 x2 y2).
Qed.

(** Double adds a point to itself. *)
Lemma Double_doubles x y : valid (x, y) → ∃ p, Double x y = Ok p ∧ valid p ∧ decode p = plus (decode (x, y)) (decode (x, y)).
Proof.
  intros [[= -> ->]|(Hx & Hy & H)].
  - exists (0, 0). unfold Double, doubleJacobian, affineFromJacobian. cbv zeta. rewrite (bool_decide_eq_true_2 (2 * (0 * 1) mod P C = 0)) by (apply Z.mod_0_l; lia).
    split; [done|]. split; [by left|done].
  - rewrite IsOnCurve_on in H. cbn [fst snd] in *. destruct (double_ok x y) as (p & E & Hv & Hd); try done. exists p. split; [done|]. split; [done|]. rewrite Hd, decode_on by done.
    cbn [plus]. rewrite (bool_decide_eq_true_2 (x = x)) by done. destruct (decide (y = 0)) as [->|H0]; [by rewrite !bool_decide_eq_false_2 by naive_solver|].
    rewrite !bool_decide_eq_true_2 by done. by destruct (tangent x y).
Qed.
End Group.
End Prime.

(** ** Encoding *)

(** Unmarshal reads the point that Marshal wrote, for coordinates of the size of the field,
    and whatever Unmarshal reads is what Marshal writes: the encoding is one to one. *)
Theorem marshal_roundtrip x y data :
  (0 ≤ x < 256 ^ Z.of_nat byteLen → 0 ≤ y < 256 ^ Z.of_nat byteLen → Unmarshal (Marshal x y) = Some (x, y))
  ∧ (Unmarshal data = Some (x, y) → Marshal x y = data).
Proof.
  assert (Marshal x y = Byte.x04 :: be_encode byteLen (Z.abs x) ++ be_encode byteLen (Z.abs y)) as Em by (unfold Marshal, readBits; by rewrite !ReadBits_zeros).
  split.
  - intros Hx Hy. rewrite Em. unfold Unmarshal. cbn [length]. rewrite length_app, !length_be_encode. rewrite !Z.abs_eq by lia.
    rewrite bool_decide_eq_false_2 by lia. rewrite bool_decide_eq_false_2 by (by intros []). rewrite take_app_length', drop_app_length' by (by rewrite length_be_encode).
    by rewrite !be_decode_encode, !Z.mod_small by lia.
  - unfold Unmarshal. case_bool_decide as Hl; [done|]. destruct data as [|flag rest]; [done|]. case_bool_decide as Hf; [done|]. intros [= <- <-]. cbn [length] in Hl.
    rewrite Em. pose proof (be_decode_bound (take byteLen rest)). pose proof (be_decode_bound (drop byteLen rest)). rewrite !Z.abs_eq by lia.
    subst flag. f_equal.
    assert (length (take byteLen rest) = byteLen) as E1 by (rewrite length_take; lia). assert (length (drop byteLen rest) = byteLen) as E2 by (rewrite length_drop; lia).
    rewrite <- E1 at 1. rewrite be_encode_decode. rewrite <- E2 at 2. rewrite be_encode_decode. apply take_drop.
Qed.
End Curve.

(** ** The curve itself, and one small enough to look at *)

Module CurveDemo.
(** The base point is on the curve, and its double is the one of SEC 2's test data. *)
Example base_point : IsOnCurve theCurve (Gx theCurve) (Gy theCurve) = true
  ∧ Double theCurve (Gx theCurve) (Gy theCurve) = Ok (0xC6047F9441ED7D6D3045406E95C07CD85C778E4B8CEF3CA7ABAC09B95C709EE5, 0x1AE168FEA63DC339A3C58419466CEAEEF7F632653266D0E1236431A950CFE52A).
Proof. split; vm_compute; reflexivity. Qed.

Definition small : BitCurve := mkCurve 17 18 7 1 5 8.

Lemma prime_17 : Z.prime 17.
Proof. apply prime_alt, prime_intro; [lia|]. intros n Hn. apply Zgcd_1_rel_prime. assert (In n (map Z.of_nat (seq 1 16))) as Hin by (apply in_map_iff; exists (Z.to_nat n); split; [lia|apply in_seq; lia]). revert n Hin Hn. cbn. intros n Hin _. repeat destruct Hin as [<-|Hin]; try reflexivity. done. Qed.

Lemma add_is_group_law_witness : ∃ p, Add small 1 5 2 7 = Ok p ∧ valid small p ∧ decode p = plus small (Affine 1 5) (Affine 2 7).
Proof.
  apply (add_is_group_law small prime_17 eq_refl); [intros [q Hq]; cbn in Hq; lia|right; cbn; split; [lia|split; [lia|reflexivity]]..].
Defined.
End CurveDemo.
