(* ===== verification/Handles.v ===== *)
(** * Handles: addresses, file handles, share links and node ids

    Models framework/types: wallet and P2P addresses as bech32 and as hexadecimal text
    (address.go, bech32/bech32.go, pubkey.go), file handles and share links (datamesh.go), node
    ids (network_id.go) and the checks of addresses against keys (verify.go).

    Strings are bytes.  The two address types differ in their prefix only and share their
    definitions.  Class [Bech32Lib] stands for github.com/cosmos/btcutil/bech32, [CidLib] for
    github.com/ipfs/go-cid, [Keys] for the key types.  JSON and YAML around a string are left
    out. *)
From S2P Require Import Prelude Bytes Rlp RlpEncode BigMath Hex Keccak Sponge.

(** ** The libraries *)

(** [ConvertBits8to5] pads, [ConvertBits5to8] does not; [bech_Decode] has the limit 1023. *)
Class Bech32Lib := {
  bech_Encode : bytes → bytes → option bytes;
  bech_Decode : bytes → option (bytes * bytes);
  ConvertBits8to5 : bytes → option bytes;
  ConvertBits5to8 : bytes → option bytes
}.

(** What is encoded with a prefix in lower case, and not too long, is decoded. *)
Class Bech32Laws (L : Bech32Lib) : Prop := {
  convert_back data groups : ConvertBits8to5 data = Some groups → ConvertBits5to8 groups = Some data;
  decode_encoded hrp groups s : Forall (fun c => 97 ≤ Z_of_byte c ≤ 122) hrp → bech_Encode hrp groups = Some s → (length s ≤ 1023)%nat → bech_Decode s = Some (hrp, groups);
  encoded_prefix hrp groups s : bech_Encode hrp groups = Some s → ∃ rest, s = hrp ++ Byte.x31 :: rest
}.

(** Version, hash type and hash length of a content id. *)
Class CidLib := { cid_Decode : bytes → option (Z * Z * Z) }.

(** The address of a public key and the check of a signature. *)
Class Keys := {
  ed25519_Address : bytes → bytes;
  secp256k1_Address : bytes → bytes;
  ed25519_Verify : bytes → bytes → bytes → bool;   (* key, message, signature *)
  secp256k1_Verify : bytes → bytes → bytes → bool
}.

(** ** strings.Split and strings.TrimSpace *)

Fixpoint split_on (sep : byte) (s : bytes) : list bytes :=
  match s with
  | [] => [[]]
  | c :: s =>
      if bool_decide (c = sep) then [] :: split_on sep s
      else match split_on sep s with w :: ws => (c :: w) :: ws | [] => [[c]] end
  end.

(** Whether TrimSpace leaves nothing, for ASCII text. *)
Definition is_space (c : byte) : bool := let z := Z_of_byte c in bool_decide (9 ≤ z ≤ 13) || bool_decide (z = 32).
Definition blank (s : bytes) : bool := forallb is_space s.

Definition slash : byte := Byte.x2f.
Definition underscore : byte := Byte.x5f.

(** ** bech32.go *)

Section Handles.
Context {L : Bech32Lib} {CL : CidLib} {K : Keys} {IO : SpongeIO}.

Definition ConvertAndEncode (hrp data : bytes) : option bytes := converted ← ConvertBits8to5 data; bech_Encode hrp converted.
Definition DecodeAndConvert (bech : bytes) : option (bytes * bytes) :=
  '(hrp, data) ← bech_Decode bech; converted ← ConvertBits5to8 data; Some (hrp, converted).

(** ** address.go *)

Definition MaxAddrLen : nat := 255.
Definition WalletAddressPrefix : bytes := string_bytes "st".
Definition WalletPubKeyPrefix : bytes := string_bytes "stpub".
Definition P2PPubkeyPrefix : bytes := string_bytes "stsdspub".
Definition P2PAddressPrefix : bytes := string_bytes "stsds".

Definition GetFromBech32 (s prefix : bytes) : res bytes :=
  if bool_decide (length s = 0)%nat then Err "decoding Bech32 address failed: must provide a non empty address"
  else
    match DecodeAndConvert s with
    | None => Err "decoding bech32 failed"
    | Some (hrp, bz) => if bool_decide (hrp ≠ prefix) then Err "invalid Bech32 prefix" else Ok bz
    end.

Definition VerifyAddressFormat (bz : bytes) : res unit :=
  if bool_decide (length bz = 0)%nat then Err "addresses cannot be empty"
  else if bool_decide (MaxAddrLen < length bz)%nat then Err "address max length" else Ok tt.

(** WalletAddressFromBech32 and P2PAddressFromBech32. *)
Definition AddressFromBech32 (prefix address : bytes) : res bytes :=
  if blank address then Err "address is empty"
  else bz ← GetFromBech32 address prefix; _ ← VerifyAddressFormat bz; Ok bz.
Definition WalletAddressFromBech32 : bytes → res bytes := AddressFromBech32 WalletAddressPrefix.
Definition P2PAddressFromBech32 : bytes → res bytes := AddressFromBech32 P2PAddressPrefix.

(** addrBytesToBech32, and the methods String. *)
Definition addrBytesToBech32 (prefix addr : bytes) : bytes :=
  if bool_decide (length addr = 0)%nat then [] else default [] (ConvertAndEncode prefix addr).
Definition WalletAddress_String : bytes → bytes := addrBytesToBech32 WalletAddressPrefix.
Definition P2PAddress_String : bytes → bytes := addrBytesToBech32 P2PAddressPrefix.

Definition Address_Empty (aa : bytes) : bool := bool_decide (length aa = 0)%nat.
Definition Address_Equals (aa aa2 : bytes) : bool :=
  if Address_Empty aa && Address_Empty aa2 then true else bool_decide (aa = aa2).

(** UnmarshalJSON and UnmarshalYAML, from the string on. *)
Definition Address_Unmarshal (prefix s : bytes) : res bytes := if bool_decide (s = []) then Ok [] else AddressFromBech32 prefix s.

(** WalletAddressFromHex and P2PAddressFromHex. *)
Definition AddressFromHex (s : bytes) : bytes :=
  let s := if has0xPrefix s then drop 2 s else s in
  let s := if bool_decide (length s mod 2 = 1)%nat then Byte.x30 :: s else s in
  fst (hex_decode s).

(** The loop of Hex: a letter is in upper case when its half byte of the hash is above 7. *)
Fixpoint checksum_case (hash : bytes) (i : nat) (result : bytes) : res bytes :=
  match result with
  | [] => Ok []
  | c :: result =>
      match hash !! (i / 2)%nat with
      | None => Panic "index out of range"
      | Some h =>
          let hashByte := if bool_decide (i mod 2 = 0)%nat then Z_of_byte h ≫ 4 else Z.land (Z_of_byte h) 0xf in
          let c := if bool_decide (57 < Z_of_byte c) && bool_decide (7 < hashByte) then byte_of_Z (Z_of_byte c - 32) else c in
          rest ← checksum_case hash (S i) result; Ok (c :: rest)
      end
  end.

Definition Address_Hex (aa : bytes) : res bytes :=
  let unchecksummed := hex_encode aa in
  hash ← sum_with NewKeccak256 unchecksummed;
  result ← checksum_case hash 0 unchecksummed;
  Ok (prefix ++ result).

(** ** pubkey.go *)

(** The prefix is not looked at. *)
Definition PubKeyFromBech32 (s : bytes) : option bytes := '(_, key) ← DecodeAndConvert s; Some key.
Definition WalletPubKeyToBech32 (pubkey : bytes) : option bytes := ConvertAndEncode WalletPubKeyPrefix pubkey.
Definition P2PPubKeyToBech32 (pubkey : bytes) : option bytes := ConvertAndEncode P2PPubkeyPrefix pubkey.

(** ** verify.go *)

Definition VerifyWalletSignBytes (pubkey signature message : bytes) : bool := secp256k1_Verify pubkey message signature.
Definition VerifyP2pSignBytes (pubkey signature message : bytes) : bool := ed25519_Verify pubkey message signature.

Definition VerifyP2pAddrBytes (pubkey p2pAddr : bytes) : bool :=
  match P2PAddressFromBech32 p2pAddr with Ok address2 => Address_Equals (ed25519_Address pubkey) address2 | _ => false end.
Definition VerifyWalletAddrBytes (pubkey walletAddr : bytes) : bool :=
  match WalletAddressFromBech32 walletAddr with Ok address2 => Address_Equals (secp256k1_Address pubkey) address2 | _ => false end.
Definition VerifyWalletAddr (walletPubkey walletAddr : bytes) : bool :=
  match PubKeyFromBech32 walletPubkey with Some pk => VerifyWalletAddrBytes pk walletAddr | None => false end.
Definition VerifyWalletSign (walletPubkey signature message : bytes) : bool :=
  match PubKeyFromBech32 walletPubkey with
  | None => false
  | Some pk => match hex_decode signature with (sig, None) => VerifyWalletSignBytes pk sig message | _ => false end
  end.

(** ** hash_tools.go: ValidateHash *)

Definition VALID_CID : Z * Z * Z := (1, 0x1b, 20).
Definition ValidateHash (hash : bytes) : bool := match cid_Decode hash with Some p => bool_decide (p = VALID_CID) | None => false end.

(** ** datamesh.go *)

Definition DATA_MESH_PROTOCOL : bytes := string_bytes "sdm://".
Definition SHARED_DATA_MESH_PROTOCOL : bytes := string_bytes "sds://".
Definition FileHandleLength : Z := 88.
Definition NormalShareLinkV2Length : nat := 16 + 1 * (1 + 10) + 1 + 6.
Definition NormalShareLinkV1Length : nat := 16 + 0 * (1 * 10) + 1 + 6.

Record DataMeshId := mkDataMeshId { Owner : bytes; Hash : bytes }.

Definition DataMeshIdFromString (idString : bytes) : res DataMeshId :=
  head ← slice idString 0 6;
  if bool_decide (head ≠ DATA_MESH_PROTOCOL) then Err "invalid data mesh id prefix"
  else
    sep ← slice idString 47 48;
    if bool_decide (sep ≠ [slash]) then Err "invalid data mesh id"
    else
      tail ← slice idString 6 (zlen idString);
      match split_on slash tail with
      | [owner; hash] =>
          _ ← WalletAddressFromBech32 owner;
          if negb (ValidateHash hash) then Err "failed to decode hash" else Ok (mkDataMeshId owner hash)
      | _ => Err "invalid data mesh id, no owner or no hash"
      end.

Definition DataMeshId_String (d : DataMeshId) : bytes := DATA_MESH_PROTOCOL ++ Owner d ++ [slash] ++ Hash d.

Record FileHandle := mkFileHandle { fh_protocol : bytes; fh_walletAddress : bytes; fh_fileHash : bytes; fh_fileName : bytes }.

Definition ParseFileHandle (handle : bytes) : res FileHandle :=
  if bool_decide (handle = []) || bool_decide (zlen handle < FileHandleLength) then Err "handle is null or length is not correct"
  else
    sep1 ← slice handle 3 6;
    sep2 ← slice handle 47 48;
    if bool_decide (sep1 ≠ string_bytes "://") || bool_decide (sep2 ≠ [slash]) then Err "format error"
    else
      protocol ← slice handle 0 3;
      walletAddress ← slice handle 6 47;
      fileHash ← slice handle 48 88;
      fileName ← (if bool_decide (FileHandleLength + 1 < zlen handle) then slice handle 89 (zlen handle) else Ok []);
      if bool_decide (protocol ≠ string_bytes "sdm") || bool_decide (zlen walletAddress < 41) || bool_decide (zlen fileHash < 40) then Err "file handle parse fail"
      else Ok (mkFileHandle protocol walletAddress fileHash fileName).

Record ShareDataMeshId := mkShare { Link : bytes; Password : bytes }.

(** [uuid] has 16 bytes, chosen at random. *)
Definition GenerateNormalShareLinkV2 (uuid : bytes) : bytes :=
  let dst := hex_encode uuid in take 16 dst ++ [underscore] ++ take 10 (drop 16 dst) ++ [underscore] ++ take 6 (drop 26 dst).

Definition SetShareLink (shareId randCode : bytes) : ShareDataMeshId :=
  if bool_decide (randCode = []) then mkShare shareId [] else mkShare (randCode ++ [underscore] ++ shareId) [].

Definition ParseShareLink (s : bytes) : res ShareDataMeshId :=
  head ← slice s 0 6;
  if bool_decide (head ≠ SHARED_DATA_MESH_PROTOCOL) then Err "invalid get shared file link prefix"
  else
    tail ← slice s 6 (zlen s);
    match split_on slash tail with
    | [] => Err "wrong share link: empty"
    | [link] => Ok (mkShare link [])
    | link :: password :: _ => Ok (mkShare link password)
    end.

Definition Share_Parse (s : ShareDataMeshId) : bytes * bytes :=
  if bool_decide (Link s = []) then ([], [])
  else
    match cid_Decode (Link s) with
    | Some _ => (Link s, [])
    | None =>
        if bool_decide (length (Link s) = NormalShareLinkV2Length) then (Link s, [])
        else if bool_decide (length (Link s) = NormalShareLinkV1Length) then
          match split_on underscore (Link s) with a0 :: a1 :: _ => (a1, a0) | _ => ([], []) end
        else ([], [])
    end.

Definition Share_String (s : ShareDataMeshId) : bytes := SHARED_DATA_MESH_PROTOCOL ++ Link s.

(** ** network_id.go *)

Definition NetworkIDPrefix : bytes := string_bytes "snode:".
Definition at_sign : byte := Byte.x40.
Record NetworkID := mkNetworkID { P2pAddress : bytes; NetworkAddress : bytes }.
Definition NetworkID_String (n : NetworkID) : bytes := NetworkIDPrefix ++ P2pAddress n ++ [at_sign] ++ NetworkAddress n.
Definition IDFromString (idString : bytes) : res NetworkID :=
  head ← slice idString 0 6;
  if bool_decide (head ≠ NetworkIDPrefix) then Err "invalid network ID prefix"
  else
    tail ← slice idString 6 (zlen idString);
    match split_on at_sign tail with
    | p2p :: addr :: _ => Ok (mkNetworkID p2p addr)
    | _ => Err "invalid network ID. No P2P address or network address detected"
    end.
End Handles.

(** ** Text *)

Lemma split_on_none sep s : sep ∉ s → split_on sep s = [s].
Proof.
  induction s as [|c s IH]; intros H; [done|]. cbn [split_on]. rewrite bool_decide_eq_false_2 by (intros ->; apply H; by left). rewrite IH; [done|]. intros H'. apply H. by right.
Qed.

Lemma split_on_app sep a b : sep ∉ a → split_on sep (a ++ sep :: b) = a :: split_on sep b.
Proof.
  induction a as [|c a IH]; intros H; cbn [app split_on]; [by rewrite bool_decide_eq_true_2|]. rewrite bool_decide_eq_false_2 by (intros ->; apply H; by left).
  rewrite IH; [done|]. intros H'. apply H. by right.
Qed.

(** ** Addresses *)

Section AddressesOk.
Context {L : Bech32Lib} {HL : Bech32Laws L} {IO : SpongeIO} {HIO : SpongeIOLaws IO}.

Definition lower_letters (p : bytes) : Prop := Forall (fun c => 97 ≤ Z_of_byte c ≤ 122) p.

Lemma ConvertAndEncode_decode hrp data s : lower_letters hrp → ConvertAndEncode hrp data = Some s → (length s ≤ 1023)%nat → DecodeAndConvert s = Some (hrp, data).
Proof.
  intros Hp E Hl. unfold ConvertAndEncode in E. destruct (ConvertBits8to5 data) as [g|] eqn:Eg; [|done]. cbn in E. unfold DecodeAndConvert. rewrite (decode_encoded hrp g s) by done. cbn.
  by rewrite (convert_back data g).
Qed.

Lemma encoded_not_blank hrp data s : lower_letters hrp → hrp ≠ [] → ConvertAndEncode hrp data = Some s → blank s = false ∧ length s ≠ 0%nat.
Proof.
  intros Hp Hne E. unfold ConvertAndEncode in E. destruct (ConvertBits8to5 data) as [g|] eqn:Eg; [|done]. cbn in E. apply encoded_prefix in E as [rest ->].
  destruct Hp as [|c p Hc Hp]; [done|]. split; [|done]. cbn [app blank forallb]. assert (is_space c = false) as ->; [|done]. unfold is_space. by rewrite !bool_decide_eq_false_2 by lia.
Qed.

(** An address survives its bech32 text: for both kinds of address, what String gives for
    the bytes of an address is read back by the function of that kind, and refused by the
    other one, whenever the library can encode it and the text is not too long. *)
Theorem addresses_roundtrip p q a s :
  p = WalletAddressPrefix ∧ q = P2PAddressPrefix ∨ p = P2PAddressPrefix ∧ q = WalletAddressPrefix →
  (0 < length a ≤ MaxAddrLen)%nat → ConvertAndEncode p a = Some s → (length s ≤ 1023)%nat →
  addrBytesToBech32 p a = s ∧ AddressFromBech32 p s = Ok a ∧ Address_Unmarshal p s = Ok a ∧ AddressFromBech32 q s = Err "invalid Bech32 prefix".
Proof.
  intros Hpq Ha E Hs. assert (lower_letters p ∧ p ≠ [] ∧ p ≠ q) as (Hp & Hne & Hd).
  { destruct Hpq as [[-> ->]|[-> ->]]; (split; [repeat constructor; vm_compute; done|]; split; done). }
  destruct (encoded_not_blank p a s Hp Hne E) as [Hb Hz]. pose proof (ConvertAndEncode_decode p a s Hp E Hs) as Hdec.
  assert (AddressFromBech32 p s = Ok a) as Hok.
  { unfold AddressFromBech32, GetFromBech32. rewrite Hb, (bool_decide_eq_false_2 (length s = 0)%nat), Hdec, (bool_decide_eq_false_2 (p ≠ p)) by (try done; by intros []). cbn [mbind res_bind].
    unfold VerifyAddressFormat. by rewrite !bool_decide_eq_false_2 by lia. }
  split; [|split; [done|split]].
  - unfold addrBytesToBech32. rewrite bool_decide_eq_false_2 by lia. by rewrite E.
  - unfold Address_Unmarshal. rewrite bool_decide_eq_false_2; [done|]. by intros ->.
  - unfold AddressFromBech32, GetFromBech32. by rewrite Hb, (bool_decide_eq_false_2 (length s = 0)%nat), Hdec, (bool_decide_eq_true_2 (p ≠ q)) by done.
Qed.

(** A letter in upper case is the same digit. *)
Lemma upper_digit d : 0 ≤ d < 16 → 57 < Z_of_byte (hexChar d) → fromHexChar (byte_of_Z (Z_of_byte (hexChar d) - 32)) = Some d.
Proof.
  intros Hd. unfold hexChar. destruct (decide (d < 10)); [rewrite bool_decide_eq_true_2 by done|rewrite bool_decide_eq_false_2 by done]; rewrite Z_of_byte_of_Z, Z.mod_small by lia; intros H; [lia|].
  unfold fromHexChar. rewrite Z_of_byte_of_Z, Z.mod_small by lia. rewrite !bool_decide_eq_false_2, bool_decide_eq_true_2 by lia. f_equal. lia.
Qed.

Lemma checksum_case_digits hash ds : ∀ i, Forall (fun d => 0 ≤ d < 16) ds → (i + length ds ≤ 2 * length hash)%nat →
  ∃ r, checksum_case hash i (map hexChar ds) = Ok r ∧ Forall2 (fun d c => fromHexChar c = Some d) ds r.
Proof.
  induction ds as [|d ds IH]; intros i Hds Hl; cbn [map checksum_case]; [by exists []|]. cbn [length] in Hl. inversion Hds as [|? ? Hd Hds']; subst.
  destruct (hash !! (i / 2)%nat) as [h|] eqn:Eh.
  - destruct (IH (S i) Hds' ltac:(lia)) as (r & -> & Hr). cbn [mbind res_bind]. eexists. split; [done|]. constructor; [|done].
    destruct (bool_decide (57 < Z_of_byte (hexChar d))) eqn:Eu; cbn [andb]; [|by apply fromHexChar_hexChar].
    apply bool_decide_eq_true in Eu. destruct (bool_decide (7 < _)); [by apply upper_digit|by apply fromHexChar_hexChar].
  - apply lookup_ge_None in Eh. pose proof (Nat.div_mod_eq i 2). pose proof (Nat.mod_upper_bound i 2 ltac:(done)). lia.
Qed.

(** Text with the same digits decodes alike. *)
Lemma hex_decode_digits b r : Forall2 (fun d c => fromHexChar c = Some d) (flat_map (fun c => [Z_of_byte c / 16; Z_of_byte c mod 16]) b) r → hex_decode r = (b, None) ∧ length r = (2 * length b)%nat.
Proof.
  revert r. induction b as [|c b IH]; intros r H; cbn [flat_map app] in H; [inversion H; by subst|]. inversion H as [|? p ? r1 Hp H1]; subst. inversion H1 as [|? q ? r2 Hq H2]; subst.
  destruct (IH r2 H2) as [E El]. cbn [hex_decode]. rewrite Hp, Hq, E. split; [|cbn [length]; lia]. do 2 f_equal. rewrite <- (byte_of_Z_of_byte c) at 3. f_equal.
  pose proof (Z.div_mod (Z_of_byte c) 16 ltac:(lia)). lia.
Qed.

Lemma hex_encode_digits b : hex_encode b = map hexChar (flat_map (fun c => [Z_of_byte c / 16; Z_of_byte c mod 16]) b).
Proof. induction b as [|c b IH]; [done|]. cbn [flat_map app map]. by rewrite <- IH. Qed.

Lemma nibbles_range b : Forall (fun d => 0 ≤ d < 16) (flat_map (fun c => [Z_of_byte c / 16; Z_of_byte c mod 16]) b).
Proof.
  induction b as [|c b IH]; [constructor|]. cbn [flat_map app]. pose proof (Z_of_byte_range c). constructor; [|constructor; [|done]]; [|apply Z.mod_pos_bound; lia].
  split; [apply Z.div_pos; lia|apply Z.div_lt_upper_bound; lia].
Qed.

Lemma checksum_case_long hash : ∀ r i, (2 * length hash < i + length r)%nat → (i ≤ 2 * length hash)%nat → checksum_case hash i r = Panic "index out of range".
Proof.
  induction r as [|c r IH]; intros i H1 H2; cbn [length] in H1; [lia|]. cbn [checksum_case]. destruct (hash !! (i / 2)%nat) as [h|] eqn:Eh; [|done].
  apply lookup_lt_Some in Eh. pose proof (Nat.div_mod_eq i 2). pose proof (Nat.mod_upper_bound i 2 ltac:(done)). rewrite IH by lia. done.
Qed.

(** The hexadecimal text of an address, with the case of its letters taken from the Keccak
    hash, is read back as the address, and has the digits of the plain text; an address of
    more than 32 bytes, which the checks of addresses let pass, makes Hex panic. *)
Theorem hex_addresses_roundtrip a :
  ((length a ≤ 32)%nat → ∃ r, Address_Hex a = Ok (prefix ++ r) ∧ map lower r = hex_encode a ∧ AddressFromHex (prefix ++ r) = a)
  ∧ ((32 < length a)%nat → Address_Hex a = Panic "index out of range").
Proof.
  destruct (one_shot_hashes (hex_encode a) 0) as (_ & _ & _ & _ & Ek & _ & _ & _ & Hlen). unfold Address_Hex. cbv zeta. rewrite Ek. cbn [mbind res_bind]. set (hash := sponge 136 Byte.x01 32 (hex_encode a)) in *.
  assert (length hash = 32)%nat as Hh by apply Hlen. destruct (hex_encode_hex a) as [Hl _]. split; intros Ha.
  - rewrite hex_encode_digits. assert (length (flat_map (fun c => [Z_of_byte c / 16; Z_of_byte c mod 16]) a) = (2 * length a)%nat) as Hd by (rewrite <- Hl, hex_encode_digits; by rewrite length_map).
    destruct (checksum_case_digits hash _ 0 (nibbles_range a)) as (r & -> & Hr); [lia|]. exists r. split; [done|]. destruct (hex_decode_digits a r Hr) as [Ed El]. split.
    + clear -Hr. induction Hr as [|d c ds r Hc _ IH]; [done|]. cbn [map]. rewrite IH. f_equal. unfold lower. by rewrite Hc.
    + unfold AddressFromHex. destruct (prefix_drop r) as [-> ->]. rewrite bool_decide_eq_false_2; [by rewrite Ed|]. rewrite El, Nat.mul_comm, Nat.Div0.mod_mul. done.
  - rewrite checksum_case_long by lia. done.
Qed.
End AddressesOk.

(** ** Handles *)

Section HandlesOk.
Context {L : Bech32Lib} {CL : CidLib}.

Lemma slice_at a b c i j : i = zlen a → j = zlen a + zlen b → slice (a ++ b ++ c) i j = Ok b.
Proof. intros -> ->. by apply slice_mid. Qed.

(** The parts of a handle that is long enough. *)
Lemma handle_parts a b c d e g : length a = 3%nat → length b = 3%nat → length c = 41%nat → length d = 1%nat → length e = 40%nat →
  ParseFileHandle (a ++ b ++ c ++ d ++ e ++ g) =
    if bool_decide (b ≠ string_bytes "://") || bool_decide (d ≠ [slash]) then Err "format error"
    else if bool_decide (a ≠ string_bytes "sdm") then Err "file handle parse fail" else Ok (mkFileHandle a c e (drop 1 g)).
Proof.
  intros Ha Hb Hc Hd He. unfold ParseFileHandle, FileHandleLength. set (h := a ++ b ++ c ++ d ++ e ++ g). assert (length h = 88 + length g)%nat as Hh by (unfold h; rewrite !length_app; lia).
  rewrite (bool_decide_eq_false_2 (h = [])) by (intros E; rewrite E in Hh; cbn in Hh; lia). rewrite (bool_decide_eq_false_2 (zlen h < 88)) by (unfold zlen; lia). cbn [orb].
  assert (∀ x y z i j, h = x ++ y ++ z → i = zlen x → j = zlen x + zlen y → slice h i j = Ok y) as Hsl by (intros x y z i j -> -> ->; by apply slice_mid).
  rewrite (Hsl a b (c ++ d ++ e ++ g) 3 6), (Hsl (a ++ b ++ c) d (e ++ g) 47 48) by (unfold h, zlen; rewrite ?length_app, <- ?app_assoc; (done || lia)). cbn [mbind res_bind].
  destruct (bool_decide (b ≠ _) || _); [done|].
  rewrite (Hsl [] a (b ++ c ++ d ++ e ++ g) 0 3), (Hsl (a ++ b) c (d ++ e ++ g) 6 47), (Hsl (a ++ b ++ c ++ d) e g 48 88) by (unfold h, zlen; rewrite ?length_app, <- ?app_assoc; (done || (cbn; lia))).
  cbn [mbind res_bind]. rewrite (bool_decide_eq_false_2 (zlen c < 41)), (bool_decide_eq_false_2 (zlen e < 40)) by (unfold zlen; lia). rewrite !orb_false_r.
  assert ((if bool_decide (88 + 1 < zlen h) then slice h 89 (zlen h) else Ok []) = Ok (drop 1 g)) as ->; [|done].
  case_bool_decide as Hn; [|rewrite drop_ge; [done|unfold zlen in Hn; lia]].
  destruct g as [|x g]; [unfold zlen in Hn; cbn in Hh; lia|]. apply (Hsl (a ++ b ++ c ++ d ++ e ++ [x]) g []); [unfold h; rewrite <- ?app_assoc; cbn; by rewrite app_nil_r|unfold zlen; rewrite !length_app; cbn; lia|].
  unfold zlen. rewrite Hh, !length_app. cbn. lia.
Qed.

(** ParseFileHandle takes a handle apart: it accepts sdm://, 41 characters, a slash and 40
    characters, whatever follows, and gives back these parts and, as the name, what follows
    but for its first character; and it accepts nothing else. *)
Theorem file_handles_exact handle f :
  ParseFileHandle handle = Ok f ↔
  ∃ tail, handle = DATA_MESH_PROTOCOL ++ fh_walletAddress f ++ [slash] ++ fh_fileHash f ++ tail
    ∧ length (fh_walletAddress f) = 41%nat ∧ length (fh_fileHash f) = 40%nat ∧ fh_protocol f = string_bytes "sdm" ∧ fh_fileName f = drop 1 tail.
Proof.
  split.
  - intros H. assert ((88 ≤ length handle)%nat) as E0.
    { revert H. unfold ParseFileHandle. destruct (bool_decide (handle = []) || bool_decide (zlen handle < FileHandleLength)) eqn:E0; [done|].
      apply orb_false_iff in E0 as [_ E0]. apply bool_decide_eq_false in E0. unfold FileHandleLength, zlen in *. lia. }
    revert H.
    assert (∃ a b c d e g, handle = a ++ b ++ c ++ d ++ e ++ g ∧ length a = 3%nat ∧ length b = 3%nat ∧ length c = 41%nat ∧ length d = 1%nat ∧ length e = 40%nat) as (a & b & c & d & e & g & -> & Ha & Hb & Hc & Hd & He).
    { exists (take 3 handle), (take 3 (drop 3 handle)), (take 41 (drop 6 handle)), (take 1 (drop 47 handle)), (take 40 (drop 48 handle)), (drop 88 handle).
      rewrite !length_take, !length_drop. split; [|lia]. rewrite <- (take_drop 3 handle) at 1. f_equal. rewrite <- (take_drop 3 (drop 3 handle)) at 1. rewrite drop_drop. f_equal.
      rewrite <- (take_drop 41 (drop _ handle)) at 1. rewrite drop_drop. f_equal. rewrite <- (take_drop 1 (drop _ handle)) at 1. rewrite drop_drop. f_equal.
      rewrite <- (take_drop 40 (drop _ handle)) at 1. rewrite drop_drop. done. }
    rewrite handle_parts by done. case_match eqn:E1; [done|]. apply orb_false_iff in E1 as [E1 E2]. apply bool_decide_eq_false in E1, E2. apply dec_stable in E1, E2. case_bool_decide as E3; [done|].
    intros [= <-]. exists g. cbn [fh_walletAddress fh_fileHash fh_protocol fh_fileName]. rewrite E1, E2, E3. split; [done|]. done.
  - intros (tail & -> & H1 & H2 & H3 & H4). change DATA_MESH_PROTOCOL with (string_bytes "sdm" ++ string_bytes "://"). rewrite <- app_assoc. rewrite handle_parts by done.
    rewrite (bool_decide_eq_false_2 (string_bytes "://" ≠ _)), (bool_decide_eq_false_2 ([slash] ≠ _)), (bool_decide_eq_false_2 (string_bytes "sdm" ≠ _)) by (by intros []).
    cbn [orb]. f_equal. rewrite <- H4, <- H3. by destruct f.
Qed.

(** Text after a protocol of six characters. *)
Lemma slice_rest p s : length p = 6%nat → slice (p ++ s) 0 6 = Ok p ∧ slice (p ++ s) 6 (zlen (p ++ s)) = Ok s.
Proof.
  intros Hp. split; [apply slice_head; unfold zlen; lia|]. rewrite <- (app_nil_r s) at 1. apply slice_mid; [unfold zlen; lia|]. by rewrite zlen_app.
Qed.

Lemma slice_short s j : zlen s < j → slice s 0 j = Panic "slice bounds out of range".
Proof. intros H. unfold slice. rewrite bool_decide_eq_false_2; [done|]. lia. Qed.

(** Ids survive their text. *)
Lemma data_mesh_id_roundtrip d w : slash ∉ Owner d → slash ∉ Hash d → length (Owner d) = 41%nat → WalletAddressFromBech32 (Owner d) = Ok w → ValidateHash (Hash d) = true →
  DataMeshIdFromString (DataMeshId_String d) = Ok d.
Proof.
  intros Ho Hh Hl Hw Hv. unfold DataMeshIdFromString, DataMeshId_String. destruct (slice_rest DATA_MESH_PROTOCOL (Owner d ++ [slash] ++ Hash d)) as [E1 E2]; [done|]. rewrite E1. cbn [mbind res_bind].
  rewrite bool_decide_eq_false_2 by (by intros []). rewrite app_assoc. rewrite (slice_mid (DATA_MESH_PROTOCOL ++ Owner d) [slash] (Hash d) 47 48) by (unfold zlen; rewrite length_app, Hl; done).
  cbn [mbind res_bind]. rewrite bool_decide_eq_false_2 by (by intros []). rewrite <- app_assoc, E2. cbn [mbind res_bind]. change ([slash] ++ Hash d) with (slash :: Hash d).
  rewrite split_on_app, split_on_none by done. rewrite Hw. cbn [mbind res_bind]. rewrite Hv. by destruct d.
Qed.

Lemma network_id_roundtrip n : at_sign ∉ P2pAddress n → at_sign ∉ NetworkAddress n → IDFromString (NetworkID_String n) = Ok n.
Proof.
  intros H1 H2. unfold IDFromString, NetworkID_String. destruct (slice_rest NetworkIDPrefix (P2pAddress n ++ [at_sign] ++ NetworkAddress n)) as [E1 E2]; [done|]. rewrite E1, E2. cbn [mbind res_bind].
  rewrite bool_decide_eq_false_2 by (by intros []). change ([at_sign] ++ NetworkAddress n) with (at_sign :: NetworkAddress n). rewrite split_on_app, split_on_none by done. by destruct n.
Qed.

(** A string that is too short makes all three readers panic. *)
Lemma short_ids_panic s : zlen s < 6 → DataMeshIdFromString s = Panic "slice bounds out of range" ∧ ParseShareLink s = Panic "slice bounds out of range" ∧ IDFromString s = Panic "slice bounds out of range".
Proof. intros H. unfold DataMeshIdFromString, ParseShareLink, IDFromString. by rewrite slice_short by done. Qed.

Lemma generated_link uuid : length uuid = 16%nat → length (GenerateNormalShareLinkV2 uuid) = NormalShareLinkV2Length ∧ slash ∉ GenerateNormalShareLinkV2 uuid.
Proof.
  intros Hu. destruct (hex_encode_hex uuid) as [Hl Hh]. unfold GenerateNormalShareLinkV2. set (dst := hex_encode uuid) in *. split; [rewrite !length_app, !length_take, !length_drop; cbn [length]; unfold NormalShareLinkV2Length; lia|].
  assert (slash ∉ dst) as Hs by (intros Hin; apply (proj1 (list.Forall_forall _ _) Hh) in Hin as [d Hd]; by vm_compute in Hd).
  assert (∀ n m, slash ∉ take n (drop m dst)) as Hp by (intros n m Hin; apply Hs; apply list_elem_of_lookup in Hin as [i Hi]; rewrite lookup_take, lookup_drop in Hi; case_decide; [|done]; by eapply list_elem_of_lookup_2).
  rewrite !elem_of_app, !list_elem_of_singleton. pose proof (Hp 16%nat 0%nat). pose proof (Hp 10%nat 16%nat). pose proof (Hp 6%nat 26%nat). rewrite drop_0 in *. intros [?|[?|[?|[?|?]]]]; done.
Qed.

(** Share links survive their text: a link that GenerateNormalShareLinkV2 makes, and a link of
    the first version, made of a code and an id, are taken apart again into the id and the code
    they were made of, from the text that is given to the user. *)
Theorem share_links_roundtrip uuid shareId randCode :
  length uuid = 16%nat → length shareId = 16%nat → length randCode = 6%nat →
  underscore ∉ shareId → underscore ∉ randCode → slash ∉ shareId → slash ∉ randCode → cid_Decode (Link (SetShareLink shareId randCode)) = None →
  (∃ s, ParseShareLink (Share_String (SetShareLink (GenerateNormalShareLinkV2 uuid) [])) = Ok s ∧ Share_Parse s = (GenerateNormalShareLinkV2 uuid, []))
  ∧ ∃ s, ParseShareLink (Share_String (SetShareLink shareId randCode)) = Ok s ∧ Share_Parse s = (shareId, randCode).
Proof.
  intros Hu Hi Hr U1 U2 S1 S2 Hcid. assert (∀ link, slash ∉ link → ParseShareLink (Share_String (mkShare link [])) = Ok (mkShare link [])) as Hp.
  { intros link Hl. unfold ParseShareLink, Share_String. cbn [Link]. destruct (slice_rest SHARED_DATA_MESH_PROTOCOL link) as [E1 E2]; [done|]. rewrite E1, E2. cbn [mbind res_bind].
    rewrite bool_decide_eq_false_2 by (by intros []). by rewrite split_on_none. }
  destruct (generated_link uuid Hu) as [Gl Gs]. split.
  - exists (mkShare (GenerateNormalShareLinkV2 uuid) []). split; [by apply Hp|]. unfold Share_Parse. cbn [Link]. rewrite bool_decide_eq_false_2 by (intros E; by rewrite E in Gl).
    destruct (cid_Decode (GenerateNormalShareLinkV2 uuid)); [done|].
    by rewrite (bool_decide_eq_true_2 _ Gl).
  - assert (SetShareLink shareId randCode = mkShare (randCode ++ [underscore] ++ shareId) []) as Es by (unfold SetShareLink; by rewrite bool_decide_eq_false_2 by (by intros ->)).
    rewrite Es in *. cbn [Link] in Hcid. exists (mkShare (randCode ++ [underscore] ++ shareId) []). split.
    + apply Hp. rewrite !elem_of_app, list_elem_of_singleton. by intros [?|[?|?]].
    + assert (length (randCode ++ [underscore] ++ shareId) = 23%nat) as Hl by (rewrite !length_app; cbn [length]; lia). unfold Share_Parse. cbn [Link].
      rewrite bool_decide_eq_false_2 by (intros E; rewrite E in Hl; done). rewrite Hcid, bool_decide_eq_false_2 by (by rewrite Hl). rewrite bool_decide_eq_true_2 by done.
      change ([underscore] ++ shareId) with (underscore :: shareId). by rewrite split_on_app, split_on_none.
Qed.
End HandlesOk.

(** ** Examples *)

Module HandlesDemo.
(** A text format with the laws: prefix, 1, data. *)
Fixpoint until_one (s : bytes) : option (bytes * bytes) :=
  match s with
  | [] => None
  | c :: s => if bool_decide (c = Byte.x31) then Some ([], s) else '(h, d) ← until_one s; Some (c :: h, d)
  end.
#[local] Instance plain_bech : Bech32Lib := {| bech_Encode := fun hrp g => Some (hrp ++ Byte.x31 :: g); bech_Decode := until_one; ConvertBits8to5 := Some; ConvertBits5to8 := Some |}.

#[local] Instance plain_laws : Bech32Laws plain_bech.
Proof.
  split; cbn.
  - by intros data groups [= ->].
  - intros hrp groups s Hp [= <-] _. induction Hp as [|c p Hc _ IH]; cbn [app until_one]; [done|]. rewrite bool_decide_eq_false_2 by (intros ->; change (Z_of_byte Byte.x31) with 49 in Hc; lia).
    by rewrite IH.
  - intros hrp groups s [= <-]. by exists groups.
Qed.

#[local] Instance no_cid : CidLib := {| cid_Decode := fun _ => None |}.

Lemma addresses_roundtrip_witness : AddressFromBech32 WalletAddressPrefix (string_bytes "st1abc") = Ok (string_bytes "abc").
Proof.
  apply (addresses_roundtrip WalletAddressPrefix P2PAddressPrefix (string_bytes "abc") (string_bytes "st1abc")); [by left|cbn; unfold MaxAddrLen; lia|reflexivity|cbn; lia].
Defined.

Definition uuid : bytes := string_bytes "0123456789abcdef".

Lemma share_links_roundtrip_witness : ∃ s, ParseShareLink (string_bytes "sds://abc123_0123456789abcdef") = Ok s ∧ Share_Parse s = (string_bytes "0123456789abcdef", string_bytes "abc123").
Proof.
  destruct (share_links_roundtrip uuid (string_bytes "0123456789abcdef") (string_bytes "abc123")) as [_ H]; try reflexivity; [apply (bool_decide_eq_true_1 _); reflexivity..|exact H].
Defined.

(** A file handle with a name; the character before the name is not looked at. *)
Example handle_example : ParseFileHandle (string_bytes "sdm://st1ck59ngv4e5t7xhrhewqtqkhdv9d8xkyfpf8a2n/v05ahm51atjqkpte7gnqa94bl3p731odvvdvfvo8?a.txt")
  = Ok (mkFileHandle (string_bytes "sdm") (string_bytes "st1ck59ngv4e5t7xhrhewqtqkhdv9d8xkyfpf8a2n") (string_bytes "v05ahm51atjqkpte7gnqa94bl3p731odvvdvfvo8") (string_bytes "a.txt")).
Proof. vm_compute. reflexivity. Qed.

(** A well-known address in the case of its checksum. *)
#[local] Existing Instance unaligned_io.
Lemma hex_addresses_roundtrip_witness : Address_Hex (replicate 33 Byte.x00) = Panic "index out of range".
Proof. apply (hex_addresses_roundtrip (replicate 33 Byte.x00)). cbn. lia. Defined.

Example eip55 : Address_Hex (AddressFromHex (string_bytes "0x5aaeb6053f3e94c9b9a09f33669435e7ef1beaed")) = Ok (string_bytes "0x5aAeb6053F3E94C9b9A09f33669435E7Ef1BeAed").
Proof. vm_compute. reflexivity. Qed.
End HandlesDemo.
