(* ===== verification/HdPath.v ===== *)
(** * HdPath: derivation paths

    Models framework/crypto/ethereum/common/hd.go: reading and printing the paths of
    hierarchical keys, and the two iterators over accounts, with the reading of numbers of
    math/big in base 0.  An iterator keeps its path and returns it, the same slice each time;
    the model gives the values at the time of the call.  JSON around the text is left out. *)
From S2P Require Import Prelude Bytes Rlp RlpEncode BigMath Hex Handles.

Definition hardened_bit : Z := 0x80000000.
Abbreviation DerivationPath := (list Z).
Definition DefaultRootDerivationPath : DerivationPath := [hardened_bit + 44; hardened_bit + 60; hardened_bit + 0; 0].

(** ** big.Int.SetString(s, 0) *)

(** The digits and separators of nat.scan: [prev] tells whether the last character was a
    digit ('0'), a separator ('_') or neither ('.').  It gives the digits, the last [prev],
    whether a separator was misplaced, and the text that is left. *)
Inductive scan_prev := PNone | PDigit | PSep.
Fixpoint scan_digits (base : Z) (prev : scan_prev) (inval : bool) (ds : list Z) (s : bytes) : list Z * scan_prev * bool * bytes :=
  match s with
  | [] => (ds, prev, inval, [])
  | c :: s' =>
      if bool_decide (c = underscore) then scan_digits base PSep (inval || match prev with PDigit => false | _ => true end) ds s'
      else match digit_in base c with
           | Some d => scan_digits base PDigit inval (ds ++ [d]) s'
           | None => (ds, prev, inval, s)
           end
  end.

(** The base that a prefix stands for, what is before the digits and the text after it. *)
Definition scan_prefix (s : bytes) : Z * bool * scan_prev * bytes :=
  match s with
  | Byte.x30 :: c :: s' =>
      match c with
      | Byte.x62 | Byte.x42 => (2, false, PDigit, s')
      | Byte.x6f | Byte.x4f => (8, false, PDigit, s')
      | Byte.x78 | Byte.x58 => (16, false, PDigit, s')
      | _ => (8, true, PDigit, c :: s')
      end
  | _ => (10, false, PNone, s)
  end.

(** The whole text has to be used; an octal prefix alone is zero. *)
Definition scan_base0 (s : bytes) : option Z :=
  let '(base, octal, prev, s) := scan_prefix s in
  let '(ds, prev, inval, rest) := scan_digits base prev false [] s in
  if inval || match prev with PSep => true | _ => false end then None
  else if bool_decide (rest ≠ []) then None
  else if bool_decide (ds = []) then (if octal then Some 0 else None)
  else Some (value base ds).

Definition SetString0 (s : bytes) : option Z :=
  match s with
  | Byte.x2d :: s => v ← scan_base0 s; Some (- v)
  | Byte.x2b :: s => scan_base0 s
  | _ => scan_base0 s
  end.

(** ** strings *)

(** TrimSpace, for ASCII text. *)
Fixpoint trim_left (s : bytes) : bytes := match s with [] => [] | c :: s' => if is_space c then trim_left s' else s end.
Definition TrimSpace (s : bytes) : bytes := rev (trim_left (rev (trim_left s))).

Definition apostrophe : byte := Byte.x27.
Definition HasSuffix (s : bytes) (c : byte) : bool := bool_decide (s !! (length s - 1)%nat = Some c).
Definition TrimSuffix (s : bytes) : bytes := take (length s - 1) s.

(** ** hd.go *)

Definition parse_component (component : bytes) : res Z :=
  let component := TrimSpace component in
  let '(value, component) := if HasSuffix component apostrophe then (hardened_bit, TrimSpace (TrimSuffix component)) else (0, component) in
  match SetString0 component with
  | None => Err "invalid component"
  | Some bigval =>
      let max := (2 ^ 32 - 1) - value in
      if bool_decide (bigval < 0) || bool_decide (max < bigval) then
        (if bool_decide (value = 0) then Err "component out of allowed range" else Err "component out of allowed hardened range")
      else Ok (u32 (value + u32 bigval))
  end.

Fixpoint parse_components (result : DerivationPath) (components : list bytes) : res DerivationPath :=
  match components with
  | [] => Ok result
  | c :: components => v ← parse_component c; parse_components (result ++ [v]) components
  end.

Definition ParseDerivationPath (path : bytes) : res DerivationPath :=
  match split_on slash path with
  | [] => Err "empty derivation path"
  | first :: rest =>
      if bool_decide (TrimSpace first = []) then Err "ambiguous path"
      else
        let '(result, components) := if bool_decide (TrimSpace first = string_bytes "m") then ([], rest) else (DefaultRootDerivationPath, first :: rest) in
        if bool_decide (components = []) then Err "empty derivation path" else parse_components result components
  end.

(** One component in text. *)
Definition component_text (component : Z) : bytes :=
  if bool_decide (hardened_bit ≤ component) then text 10 (component - hardened_bit) ++ [apostrophe] else text 10 component.
Definition DerivationPath_String (path : DerivationPath) : bytes :=
  foldl (fun result component => result ++ [slash] ++ component_text component) (string_bytes "m") path.

(** The iterators: the path that an iterator keeps, and one call of it.  [None] is an index out
    of range. *)
Definition bump (i : nat) (d : Z) (path : DerivationPath) : option DerivationPath := v ← path !! i; Some (<[i := u32 (v + d)]> path).
Definition DefaultIterator (base : DerivationPath) : option DerivationPath := if bool_decide (base = []) then None else bump (length base - 1) (-1) base.
Definition default_next (path : DerivationPath) : option DerivationPath := bump (length path - 1) 1 path.
Definition LedgerLiveIterator (base : DerivationPath) : option DerivationPath := bump 2 (-1) base.
Definition ledger_next (path : DerivationPath) : option DerivationPath := bump 2 1 path.

(** The [n]-th call. *)
Fixpoint calls (next : DerivationPath → option DerivationPath) (n : nat) (path : DerivationPath) : option DerivationPath :=
  match n with O => next path | S n => path ← next path; calls next n path end.

Example parse_examples :
  ParseDerivationPath (string_bytes "m/44'/60'/0'/0") = Ok DefaultRootDerivationPath
  ∧ ParseDerivationPath (string_bytes " m / 0x2C' / 60 ' / 0b0' / 07") = Ok [hardened_bit + 44; hardened_bit + 60; hardened_bit; 7]
  ∧ ParseDerivationPath (string_bytes "0") = Ok (DefaultRootDerivationPath ++ [0])
  ∧ ParseDerivationPath (string_bytes "m") = Err "empty derivation path" ∧ ParseDerivationPath (string_bytes "/44'") = Err "ambiguous path"
  ∧ ParseDerivationPath (string_bytes "m/2147483648'") = Err "component out of allowed hardened range" ∧ ParseDerivationPath (string_bytes "m/-1") = Err "component out of allowed range"
  ∧ ParseDerivationPath (string_bytes "m/1_") = Err "invalid component" ∧ ParseDerivationPath (string_bytes "m/08") = Err "invalid component".
Proof. split_and!; vm_compute; reflexivity. Qed.

(** ** Numbers in base 0 *)

Lemma scan_prefix_other c s : c ≠ Byte.x30 → scan_prefix (c :: s) = (10, false, PNone, c :: s).
Proof. intros H. destruct c; done. Qed.

Lemma scan_digits_text base s : Forall (fun c => is_Some (digit_in base c)) s → ∀ prev ds0, ∃ ds, digits_in base s = Some ds
  ∧ scan_digits base prev false ds0 s = (ds0 ++ ds, match s with [] => prev | _ => PDigit end, false, []).
Proof.
  induction 1 as [|c s [d Hd] Hs IH]; intros prev ds0; cbn [scan_digits]; [exists []; by rewrite app_nil_r|].
  rewrite bool_decide_eq_false_2 by (intros ->; by vm_compute in Hd). rewrite Hd. destruct (IH PDigit (ds0 ++ [d])) as (ds & E & ->). exists (d :: ds). split.
  - unfold digits_in in *. cbn [mapM]. rewrite Hd. cbn [mbind option_bind]. by rewrite E.
  - rewrite <- app_assoc. by destruct s.
Qed.

Lemma SetString0_text n : 0 ≤ n → SetString0 (text 10 n) = Some n.
Proof.
  intros Hn. pose proof (scan_text 10 n ltac:(lia) Hn) as (c & s & E & Hc & Hs & _ & _). pose proof (digits_in_text 10 n ltac:(lia) Hn) as Hd. destruct (digits_of_ok 10 n) as (Hv & _); [lia|done|].
  assert (SetString0 (text 10 n) = scan_base0 (text 10 n)) as ->.
  { rewrite E. destruct Hc as [d Hd']. clear -Hd'. unfold digit_in in Hd'. destruct (fromHexChar c) eqn:Ef; [|done]. clear Hd'. destruct c; try reflexivity; exfalso; by vm_compute in Ef. }
  destruct (decide (n = 0)) as [->|H0]; [reflexivity|]. assert (c ≠ Byte.x30) as Hc0.
  { intros ->. unfold text in E. destruct (digits_of_ok 10 n) as (_ & Hf & d & ds & E' & Hpos & _); [lia|done|]. rewrite E' in E. cbn [map] in E. injection E as E1 _.
    pose proof (Forall_inv (eq_ind _ (Forall _) Hf _ E')) as Hr. cbn beta in Hr. apply hexChar_zero in E1; lia. }
  unfold scan_base0. rewrite E, scan_prefix_other by done. rewrite <- E. assert (Forall (fun c => is_Some (digit_in 10 c)) (text 10 n)) as Hall by (rewrite E; by constructor).
  destruct (scan_digits_text 10 (text 10 n) Hall PNone []) as (ds & Ed & ->). rewrite Hd in Ed. injection Ed as <-. rewrite E at 1. cbn [orb app]. rewrite bool_decide_eq_false_2 by (by intros []).
  rewrite bool_decide_eq_false_2; [by rewrite Hv|]. intros E0. rewrite E0 in Hv. cbn in Hv. lia.
Qed.

(** ** Text *)

Lemma trim_left_none s : Forall (fun c => is_space c = false) s → trim_left s = s.
Proof. intros [|c s' Hc _]; [done|]. cbn [trim_left]. by rewrite Hc. Qed.

Lemma TrimSpace_none s : Forall (fun c => is_space c = false) s → TrimSpace s = s.
Proof. intros H. unfold TrimSpace. rewrite (trim_left_none s H). rewrite trim_left_none by (by apply Forall_rev). apply rev_involutive. Qed.

Lemma digit_char c : is_Some (digit_in 10 c) → is_space c = false ∧ c ≠ slash ∧ c ≠ apostrophe.
Proof.
  intros [d H]. unfold digit_in in H. destruct (fromHexChar c) as [x|] eqn:E; [|done]. clear H. split; [|split; intros ->; by vm_compute in E].
  unfold is_space. unfold fromHexChar in E. rewrite !bool_decide_eq_false_2; [done|intros H; rewrite H in E; by vm_compute in E|]. intros H. revert E. repeat case_bool_decide; try lia; done.
Qed.

Lemma text_chars n : 0 ≤ n → Forall (fun c => is_space c = false ∧ c ≠ slash ∧ c ≠ apostrophe) (text 10 n) ∧ text 10 n ≠ [].
Proof.
  intros Hn. destruct (scan_text 10 n ltac:(lia) Hn) as (c & s & -> & Hc & Hs & _). split; [|done]. constructor; [by apply digit_char|]. refine (Forall_impl _ _ Hs). apply digit_char.
Qed.

Lemma component_chars v : in_u 32 v → Forall (fun c => is_space c = false ∧ c ≠ slash) (component_text v).
Proof.
  unfold in_u. intros Hv. unfold component_text. case_bool_decide as Hh.
  - apply Forall_app. split; [|by repeat constructor]. refine (Forall_impl _ _ (proj1 (text_chars (v - hardened_bit) _))); [by intros c (? & ? & ?)|lia].
  - refine (Forall_impl _ _ (proj1 (text_chars v _))); [by intros c (? & ? & ?)|lia].
Qed.

Lemma HasSuffix_snoc s c : HasSuffix (s ++ [c]) c = true ∧ TrimSuffix (s ++ [c]) = s.
Proof.
  unfold HasSuffix, TrimSuffix. rewrite length_app. cbn [length]. replace (length s + 1 - 1)%nat with (length s) by lia. split; [|apply take_app_length]. apply bool_decide_eq_true.
  by rewrite lookup_app_r, Nat.sub_diag by lia.
Qed.

Lemma HasSuffix_none s : Forall (fun c => c ≠ apostrophe) s → HasSuffix s apostrophe = false.
Proof. intros H. apply bool_decide_eq_false. intros E. apply list_elem_of_lookup_2 in E. by apply (proj1 (list.Forall_forall _ _) H) in E. Qed.

Lemma parse_component_text v : in_u 32 v → parse_component (component_text v) = Ok v.
Proof.
  intros Hv. assert (TrimSpace (component_text v) = component_text v) as Et by (apply TrimSpace_none; refine (Forall_impl _ _ (component_chars v Hv)); by intros c [? ?]).
  unfold parse_component. cbv zeta. rewrite Et. unfold in_u in Hv. unfold component_text. destruct (decide (hardened_bit ≤ v)) as [Hh|Hh]; [rewrite !(bool_decide_eq_true_2 (hardened_bit ≤ v)) by done|rewrite !(bool_decide_eq_false_2 (hardened_bit ≤ v)) by done].
  - destruct (HasSuffix_snoc (text 10 (v - hardened_bit)) apostrophe) as [-> ->]. rewrite TrimSpace_none by (refine (Forall_impl _ _ (proj1 (text_chars (v - hardened_bit) _))); [by intros c (? & ? & ?)|lia]).
    rewrite SetString0_text by lia. unfold hardened_bit in *. rewrite (bool_decide_eq_false_2 (v - 2147483648 < 0)), (bool_decide_eq_false_2 (2 ^ 32 - 1 - 2147483648 < v - 2147483648)) by lia. cbn [orb].
    rewrite !(wrapu_id 32) by (unfold in_u; rewrite ?wrapu_id by (unfold in_u; lia); lia). f_equal. lia.
  - rewrite HasSuffix_none by (refine (Forall_impl _ _ (proj1 (text_chars v _))); [by intros c (? & ? & ?)|lia]). rewrite SetString0_text by lia.
    rewrite (bool_decide_eq_false_2 (v < 0)), (bool_decide_eq_false_2 (2 ^ 32 - 1 - 0 < v)) by lia. cbn [orb]. rewrite !(wrapu_id 32) by (unfold in_u; rewrite ?wrapu_id by (unfold in_u; lia); lia). f_equal.
Qed.

Lemma String_flat path : DerivationPath_String path = string_bytes "m" ++ flat_map (fun c => slash :: component_text c) path.
Proof.
  unfold DerivationPath_String. generalize (string_bytes "m") as acc. induction path as [|c path IH]; intros acc; cbn [foldl flat_map]; [by rewrite app_nil_r|]. rewrite IH. rewrite <- !app_assoc. done.
Qed.

Lemma split_String path : Forall (in_u 32) path → ∀ a, slash ∉ a → split_on slash (a ++ flat_map (fun c => slash :: component_text c) path) = a :: map component_text path.
Proof.
  induction 1 as [|v path Hv _ IH]; intros a Ha; cbn [flat_map map]; [rewrite app_nil_r; by apply split_on_none|]. cbn [app]. rewrite split_on_app by done. rewrite IH; [done|].
  intros Hin. by apply (proj1 (list.Forall_forall _ _) (component_chars v Hv)) in Hin as [_ ?].
Qed.

Lemma parse_components_text path : Forall (in_u 32) path → ∀ result, parse_components result (map component_text path) = Ok (result ++ path).
Proof.
  induction 1 as [|v path Hv _ IH]; intros result; cbn [map parse_components]; [by rewrite app_nil_r|]. rewrite parse_component_text by done. cbn [mbind res_bind]. rewrite IH. by rewrite <- app_assoc.
Qed.

(** A derivation path survives its text: ParseDerivationPath reads what String prints for
    every path, hardened components and the largest numbers included, but for the empty path,
    which is refused. *)
Theorem derivation_paths_roundtrip path : Forall (in_u 32) path →
  ParseDerivationPath (DerivationPath_String path) = if bool_decide (path = []) then Err "empty derivation path" else Ok path.
Proof.
  intros Hp. unfold ParseDerivationPath. rewrite String_flat, split_String by (try done; apply (bool_decide_eq_true_1 _); reflexivity). change (TrimSpace (string_bytes "m")) with (string_bytes "m").
  rewrite bool_decide_eq_false_2 by done. rewrite bool_decide_eq_true_2 by done. destruct path as [|v path]; [done|]. rewrite (bool_decide_eq_false_2 (map component_text (v :: path) = [])) by done.
  rewrite (bool_decide_eq_false_2 (v :: path = [])) by done. by rewrite parse_components_text.
Qed.

Lemma derivation_paths_roundtrip_witness : ParseDerivationPath (DerivationPath_String [2 ^ 32 - 1; 0; 10]) = Ok [2 ^ 32 - 1; 0; 10].
Proof. rewrite (derivation_paths_roundtrip [2 ^ 32 - 1; 0; 10]); [reflexivity|]. repeat constructor; unfold in_u; lia. Defined.

(** ** Iterators *)

Lemma calls_bump i n : ∀ path v, path !! i = Some v → calls (bump i 1) n path = Some (<[i := u32 (v + Z.of_nat n + 1)]> path).
Proof.
  induction n as [|n IH]; intros path v Hv; cbn [calls].
  - unfold bump. rewrite Hv. cbn [mbind option_bind]. do 2 f_equal. f_equal. lia.
  - assert (bump i 1 path = Some (<[i := u32 (v + 1)]> path)) as -> by (unfold bump; by rewrite Hv). cbn [mbind option_bind]. assert (i < length path)%nat as Hi by (by eapply lookup_lt_Some). rewrite (IH _ (u32 (v + 1))) by (by apply list_lookup_insert_eq).
    rewrite list_insert_insert_eq. do 2 f_equal. unfold wrapu. rewrite <- Z.add_assoc, Z.add_mod_idemp_l by lia. f_equal. lia.
Qed.

Lemma calls_default n : ∀ path, calls default_next n path = calls (bump (length path - 1) 1) n path.
Proof.
  induction n as [|n IH]; intros path; cbn [calls]; [done|]. change (default_next path) with (bump (length path - 1) 1 path). destruct (bump (length path - 1) 1 path) as [p|] eqn:E; cbn [mbind option_bind]; [|done]. cbn [mbind option_bind]. rewrite IH.
  unfold bump in E. destruct (path !! (length path - 1)%nat); [|done]. injection E as <-. by rewrite length_insert.
Qed.

(** The [n]-th path of the iterators is the base with [n] added to the last component, or to the
    third one, modulo 2^32: the first one is the base, and the numbers run on into the hardened
    ones.  A base that is too short makes them panic. *)
Lemma iterators_count front v n base w : in_u 32 v → in_u 32 w → base !! 2%nat = Some w →
  (p ← DefaultIterator (front ++ [v]); calls default_next n p) = Some (front ++ [u32 (v + Z.of_nat n)])
  ∧ (p ← LedgerLiveIterator base; calls ledger_next n p) = Some (<[2%nat := u32 (w + Z.of_nat n)]> base).
Proof.
  intros Hv Hw Hb. assert (∀ x, u32 (u32 (x + -1) + Z.of_nat n + 1) = u32 (x + Z.of_nat n)) as Hx.
  { intros x. unfold wrapu. rewrite <- Z.add_assoc, Z.add_mod_idemp_l by lia. f_equal. lia. }
  split.
  - unfold DefaultIterator. rewrite bool_decide_eq_false_2 by (by destruct front). rewrite length_app. cbn [length]. replace (length front + 1 - 1)%nat with (length front) by lia.
    assert (bump (length front) (-1) (front ++ [v]) = Some (<[length front := u32 (v + -1)]> (front ++ [v]))) as -> by (unfold bump; by rewrite lookup_app_r, Nat.sub_diag by lia).
    cbn [mbind option_bind]. rewrite calls_default, length_insert, length_app. cbn [length]. replace (length front + 1 - 1)%nat with (length front) by lia.
    rewrite (calls_bump _ n _ (u32 (v + -1))) by (apply list_lookup_insert_eq; rewrite length_app; cbn; lia). rewrite list_insert_insert_eq, Hx. f_equal. 
    rewrite <- (Nat.add_0_r (length front)). by rewrite insert_app_r.
  - unfold LedgerLiveIterator. assert (bump 2 (-1) base = Some (<[2%nat := u32 (w + -1)]> base)) as -> by (unfold bump; by rewrite Hb). cbn [mbind option_bind]. unfold ledger_next. rewrite (calls_bump 2 n _ (u32 (w + -1))) by (apply list_lookup_insert_eq; by eapply lookup_lt_Some).
    by rewrite list_insert_insert_eq, Hx.
Qed.
