(* ===== verification/Tx.v ===== *)
(** * Tx: transactions for the chain

    Models tx-client: collecting the signers of a list of messages, signing in mode direct and
    building the bytes of a transaction (tx/tx_builder.go, tx.go, direct.go, mode_handler.go,
    config.go, tx_config.go), the data of signatures (types/auth, types/tx/signing), the
    messages before they are signed (types/broadcast.go) and the report of volumes
    (tx/msg_builder.go).  Protobuf and the signature schemes are behind class [TxLib]; what the
    chain answers is an argument.

    [SetSignatures] changes the transaction it is given, and the code goes on with the same
    object under two names ([unsignedTx] and [signedTx]); the object is passed along here, and
    [BuildTxBytes] returns it beside the bytes, because the callers build twice.  Account numbers
    and sequences are written into the keys of the messages; they are overwritten before every
    use, so the changed keys are not returned. *)
From Stdlib Require Import Sorted.
From S2P Require Import Prelude Bytes Rlp RlpEncode BigMath Hex Sponge Handles Coins.

(** ** Data *)

Record Any := mkAny { TypeUrl : string; Value : bytes }.

Definition SignatureSecp256k1 : Z := 0.
Definition SignatureEd25519 : Z := 1.

Record SignatureKey := mkSigKey {
  AccountNum : Z; AccountSequence : Z; Address : string; PrivateKey : bytes; KeyType : Z }.
Record UnsignedMsg := mkUMsg { Msg : Any; SignatureKeys : list SignatureKey; MsgType : string }.
Record UnsignedMsgBytes := mkUMsgBytes { bMsg : bytes; bSignatureKeys : list SignatureKey; bType : string }.

Definition SIGN_MODE_DIRECT : Z := 1.

(** [SignatureData]; [NilData] is the nil interface, the bits are left as they are. *)
Inductive SignatureData :=
  | NilData
  | SingleSignatureData (SignMode : Z) (Signature : bytes)
  | MultiSignatureData (BitArray : bytes) (Signatures : list SignatureData).

Inductive ModeInfo := ModeNil | ModeSingle (mode : Z) | ModeMulti (bits : bytes) (infos : list ModeInfo).

(** SignatureDescriptor_Data; [DescNil] has no sum. *)
Inductive Descriptor :=
  | DescNil
  | DescSingle (mode : Z) (sig : bytes)
  | DescMulti (bits : bytes) (sigs : list Descriptor).

Record SignatureV2 := mkSig2 { sPubKey : Any; sData : SignatureData; sSequence : Z }.

Record SignerInfo := mkSigner { PublicKey : Any; sModeInfo : ModeInfo; Sequence : Z }.
Record Fee := mkFee { FeeAmount : list (string * string); GasLimit : Z }.
Record AuthInfo := mkAuth { SignerInfos : list SignerInfo; AFee : Fee }.
Record TxBody := mkBody { Messages : list Any; Memo : string }.
Record Tx := mkTx { Body : option TxBody; Auth : option AuthInfo; Signatures : list bytes }.
Record SignDoc := mkDoc { BodyBytes : bytes; AuthInfoBytes : bytes; ChainId : string; AccountNumber : Z }.

Record SignerData := mkSignerData { sdChainID : string; sdAccountNumber : Z; sdSequence : Z }.
Record TxFee := mkTxFee { TFee : Coin; Gas : Z; Simulate : bool }.

(** An account on the chain: number and sequence. *)
Record BaseAccount := mkAccount { accNumber : Z; accSequence : Z }.

Inductive Scheme := Ed25519 | Secp256k1.

(** What the libraries do: protobuf, and keys.  [verify] is how the chain checks a signature;
    [wf_ed25519] tells the 64-byte keys whose second half belongs to the first. *)
Class TxLib := {
  marshal_TxBody : TxBody → res bytes;
  marshal_AuthInfo : option AuthInfo → res bytes;
  marshal_SignDoc : SignDoc → res bytes;
  marshal_Tx : Tx → res bytes;
  marshal_Any : Any → res bytes;
  unmarshal_Any : bytes → res Any;
  marshal_MultiSignature : list bytes → res bytes;
  any_pubkey : Scheme → bytes → res Any;
  ed25519_Sign : bytes → bytes → bytes;
  secp256k1_PubKey : bytes → option bytes;
  secp256k1_Sign : bytes → bytes → res bytes;
  wf_ed25519 : bytes → bool;
  verify : Any → bytes → bytes → bool
}.

Class TxLibLaws (L : TxLib) : Prop := {
  ed25519_correct k a m : wf_ed25519 k = true → any_pubkey Ed25519 (drop 32 k) = Ok a →
    verify a m (ed25519_Sign k m) = true;
  secp256k1_correct k p a m s : secp256k1_PubKey k = Some p → any_pubkey Secp256k1 p = Ok a →
    secp256k1_Sign k m = Ok s → verify a m s = true;
  any_roundtrip a b : marshal_Any a = Ok b → unmarshal_Any b = Ok a
}.

Section Tx.
Context {L : TxLib}.

(** ** types/broadcast.go *)

Definition ToBytes (u : UnsignedMsg) : res UnsignedMsgBytes :=
  msgBz ← marshal_Any (Msg u); Ok (mkUMsgBytes msgBz (SignatureKeys u) (MsgType u)).
Definition FromBytes (u : UnsignedMsgBytes) : res UnsignedMsg :=
  msgAny ← unmarshal_Any (bMsg u); Ok (mkUMsg msgAny (bSignatureKeys u) (bType u)).

(** ** types/auth/tx/sigs.go and types/tx/signing/signature.go *)

Definition panic_of {A} (m : res A) : res A := match m with Err e => Panic e | m => m end.

Fixpoint SignatureDataToModeInfoAndSig (data : SignatureData) : res (ModeInfo * bytes) :=
  match data with
  | NilData => Ok (ModeNil, [])
  | SingleSignatureData mode sig => Ok (ModeSingle mode, sig)
  | MultiSignatureData bits ds =>
      l ← (fix go ds := match ds with [] => Ok [] | d :: ds => x ← SignatureDataToModeInfoAndSig d; l ← go ds; Ok (x :: l) end) ds;
      sig ← panic_of (marshal_MultiSignature (map snd l));
      Ok (ModeMulti bits (map fst l), sig)
  end.

Fixpoint SignatureDataToProto (data : SignatureData) : res Descriptor :=
  match data with
  | NilData => Panic "unexpected case"
  | SingleSignatureData mode sig => Ok (DescSingle mode sig)
  | MultiSignatureData bits ds =>
      l ← (fix go ds := match ds with [] => Ok [] | d :: ds => x ← SignatureDataToProto d; l ← go ds; Ok (x :: l) end) ds;
      Ok (DescMulti bits l)
  end.

Fixpoint SignatureDataFromProto (desc : Descriptor) : res SignatureData :=
  match desc with
  | DescNil => Panic "unexpected case"
  | DescSingle mode sig => Ok (SingleSignatureData mode sig)
  | DescMulti bits ds =>
      l ← (fix go ds := match ds with [] => Ok [] | d :: ds => x ← SignatureDataFromProto d; l ← go ds; Ok (x :: l) end) ds;
      Ok (MultiSignatureData bits l)
  end.

(** ** Sign modes (handler_map.go, mode_handler.go, config.go, direct.go) *)

Inductive SignModeHandler := signModeDirectHandler.
Definition Modes (h : SignModeHandler) : list Z := [SIGN_MODE_DIRECT].

Record SignModeHandlerMap := mkModes {
  defaultMode : Z; modes : list Z; signModeHandlers : gmap Z SignModeHandler }.

Fixpoint add_modes (h : SignModeHandler) (ms : list Z) (acc : gmap Z SignModeHandler * list Z) : res (gmap Z SignModeHandler * list Z) :=
  match ms with
  | [] => Ok acc
  | m :: ms =>
      match acc.1 !! m with
      | Some _ => Panic "duplicate sign mode handler"
      | None => add_modes h ms (<[m := h]> acc.1, acc.2 ++ [m])
      end
  end.
Fixpoint add_handlers (hs : list SignModeHandler) (acc : gmap Z SignModeHandler * list Z) : res (gmap Z SignModeHandler * list Z) :=
  match hs with [] => Ok acc | h :: hs => acc ← add_modes h (Modes h) acc; add_handlers hs acc end.
Definition NewSignModeHandlerMap (mode : Z) (hs : list SignModeHandler) : res SignModeHandlerMap :=
  '(m, ms) ← add_handlers hs (∅, []); Ok (mkModes mode ms m).

Fixpoint handlers_of (ms : list Z) : res (list SignModeHandler) :=
  match ms with
  | [] => Ok []
  | m :: ms =>
      if bool_decide (m = SIGN_MODE_DIRECT) then hs ← handlers_of ms; Ok (signModeDirectHandler :: hs)
      else Panic "unsupported sign mode"
  end.
Definition makeSignModeHandler (ms : list Z) : res SignModeHandlerMap :=
  match ms with
  | [] => Panic "no sign modes enabled"
  | m :: _ => hs ← handlers_of ms; NewSignModeHandlerMap m hs
  end.
Definition NewTxConfig (enabledSignModes : list Z) : res SignModeHandlerMap := makeSignModeHandler enabledSignModes.

Definition CreateTxConfigAndTxBuilder : res (SignModeHandlerMap * Tx) :=
  txConfig ← NewTxConfig [SIGN_MODE_DIRECT]; Ok (txConfig, mkTx None None []).

Definition DirectSignBytes (bodyBytes authInfoBytes : bytes) (chainID : string) (accnum : Z) : res bytes :=
  marshal_SignDoc (mkDoc bodyBytes authInfoBytes chainID accnum).

Definition direct_GetSignBytes (mode : Z) (data : SignerData) (tx : Tx) : res bytes :=
  if bool_decide (mode ≠ SIGN_MODE_DIRECT) then Err "expected SIGN_MODE_DIRECT"
  else
    let txBodyToSign := match Body tx with Some b => b | None => mkBody [] EmptyString end in
    bodyBz ← marshal_TxBody txBodyToSign;
    authInfoBz ← marshal_AuthInfo (Auth tx);
    DirectSignBytes bodyBz authInfoBz (sdChainID data) (sdAccountNumber data).

Definition GetSignBytes (h : SignModeHandlerMap) (mode : Z) (data : SignerData) (tx : Tx) : res bytes :=
  match signModeHandlers h !! mode with
  | None => Err "can't verify sign mode"
  | Some signModeDirectHandler => direct_GetSignBytes mode data tx
  end.

(** ** Keys (tx.go) *)

Inductive PrivKey := Ed25519PrivKey (Key : bytes) | Secp256k1PrivKey (Key : bytes).

Definition secp256k1_Generate (bz : bytes) : PrivKey := Secp256k1PrivKey (copy_at (replicate 32 Byte.x00) 0 bz).1.

(** PubKey().Bytes(): a secp256k1 key that is not valid has the nil interface as its public key. *)
Definition PubKey_Bytes (priv : PrivKey) : res bytes :=
  match priv with
  | Ed25519PrivKey k =>
      half ← slice k 32 (zlen k);
      if forallb (fun b => bool_decide (b = Byte.x00)) half
      then Panic "Expected ed25519 PrivKey to include concatenated pubkey bytes"
      else Ok (copy_at (replicate 32 Byte.x00) 0 half).1
  | Secp256k1PrivKey k => match secp256k1_PubKey k with Some p => Ok p | None => Panic "nil pointer" end
  end.

Definition Sign (priv : PrivKey) (msg : bytes) : res bytes :=
  match priv with Ed25519PrivKey k => Ok (ed25519_Sign k msg) | Secp256k1PrivKey k => secp256k1_Sign k msg end.

Definition getPackedPubKeyAnyByPrivKey (priv : PrivKey) : res Any :=
  p ← PubKey_Bytes priv;
  match priv with Secp256k1PrivKey _ => any_pubkey Secp256k1 p | Ed25519PrivKey _ => any_pubkey Ed25519 p end.

Definition SignWithPrivKey (signMode : Z) (signerData : SignerData) (tx : Tx) (priv : PrivKey)
    (txConfig : SignModeHandlerMap) (accSeq : Z) : res SignatureV2 :=
  signBytes ← GetSignBytes txConfig signMode signerData tx;
  signature ← Sign priv signBytes;
  pubKeyAny ← getPackedPubKeyAnyByPrivKey priv;
  Ok (mkSig2 pubKeyAny (SingleSignatureData signMode signature) accSeq).

(** ** tx_builder.go *)

Fixpoint raw_signatures (sigs : list SignatureV2) : res (list SignerInfo * list bytes) :=
  match sigs with
  | [] => Ok ([], [])
  | sig :: sigs =>
      '(modeInfo, raw) ← SignatureDataToModeInfoAndSig (sData sig);
      '(infos, raws) ← raw_signatures sigs;
      Ok (mkSigner (sPubKey sig) modeInfo (sSequence sig) :: infos, raw :: raws)
  end.

(** The new contents of the transaction it is given. *)
Definition SetSignatures (tx : Tx) (signatures : list SignatureV2) : res Tx :=
  '(signerInfos, rawSigs) ← raw_signatures signatures;
  match Auth tx with
  | None => Panic "nil pointer"
  | Some auth => Ok (mkTx (Body tx) (Some (mkAuth signerInfos (AFee auth))) rawSigs)
  end.

Definition invalid_key (k : SignatureKey) : bool :=
  bool_decide (Address k = EmptyString) || bool_decide (PrivateKey k = []).
Definition filterInvalidSignatures (msgs : list UnsignedMsg) : list UnsignedMsg :=
  filter (fun msg => existsb invalid_key (SignatureKeys msg) = false) msgs.

(** One query for each account; an account that cannot be fetched is left out. *)
Definition fetchAllAccountInfos (QueryAccount : string → res BaseAccount) (msgs : list UnsignedMsg) : gmap string BaseAccount :=
  let accountsToFetch : gset string := list_to_set (map Address (concat (map SignatureKeys msgs))) in
  list_to_map (omap (fun a => match QueryAccount a with Ok info => Some (a, info) | _ => None end) (elements accountsToFetch)).

Definition update_key (accountInfos : gmap string BaseAccount) (k : SignatureKey) : option SignatureKey :=
  info ← accountInfos !! Address k;
  Some (mkSigKey (accNumber info) (accSequence info) (Address k) (PrivateKey k) (KeyType k)).
Definition updateSignatureKeys (msgs : list UnsignedMsg) (accountInfos : gmap string BaseAccount) : list UnsignedMsg :=
  omap (fun msg => ks ← mapM (update_key accountInfos) (SignatureKeys msg); Some (mkUMsg (Msg msg) ks (MsgType msg))) msgs.

(** The keys to sign with: the first one of every address, in order. *)
Fixpoint new_signers (signersSeen : gset string) (keys : list SignatureKey) : list SignatureKey :=
  match keys with
  | [] => []
  | k :: keys =>
      if bool_decide (Address k ∈ signersSeen) then new_signers signersSeen keys
      else k :: new_signers ({[Address k]} ∪ signersSeen) keys
  end.
Definition signaturesToDo (msgs : list UnsignedMsg) : list SignatureKey := new_signers ∅ (concat (map SignatureKeys msgs)).

Definition priv_key (k : SignatureKey) : PrivKey :=
  if bool_decide (KeyType k = SignatureEd25519) then Ed25519PrivKey (PrivateKey k) else secp256k1_Generate (PrivateKey k).

(** First round: the infos of all signers, with empty signatures. *)
Fixpoint first_round (txConfig : SignModeHandlerMap) (keys : list SignatureKey) (sigsV2 : list SignatureV2) (tx : Tx) : res Tx :=
  match keys with
  | [] => Ok tx
  | k :: keys =>
      if bool_decide (KeyType k = SignatureEd25519) && bool_decide (length (PrivateKey k) ≠ 64%nat)
      then Err "ed25519 private key has wrong length"
      else
        pubKeyAny ← getPackedPubKeyAnyByPrivKey (priv_key k);
        let sigsV2 := sigsV2 ++ [mkSig2 pubKeyAny (SingleSignatureData (defaultMode txConfig) []) (AccountSequence k)] in
        tx ← SetSignatures tx sigsV2;
        first_round txConfig keys sigsV2 tx
  end.

(** Second round: every signer signs; [tx] is the object behind [unsignedTx] and [signedTx]. *)
Fixpoint second_round (txConfig : SignModeHandlerMap) (chainId : string) (keys : list SignatureKey) (tx : Tx) : res Tx :=
  match keys with
  | [] => Ok tx
  | k :: keys =>
      let signerData := mkSignerData chainId (AccountNum k) (AccountSequence k) in
      sigV2 ← SignWithPrivKey (defaultMode txConfig) signerData tx (priv_key k) txConfig (AccountSequence k);
      tx ← SetSignatures tx [sigV2];
      second_round txConfig chainId keys tx
  end.

(** Without a signer [signedTx] stays nil, whose encoding is empty. *)
Definition buildAndSignStdTx (txConfig : SignModeHandlerMap) (unsignedTx : Tx) (chainId : string) (unsignedMsgs : list UnsignedMsg) : res (bytes * Tx) :=
  match unsignedMsgs with
  | [] => Err "cannot build tx: no msgs to sign"
  | _ =>
      let keys := signaturesToDo unsignedMsgs in
      tx ← first_round txConfig keys [] unsignedTx;
      tx ← second_round txConfig chainId keys tx;
      match keys with
      | [] => Ok ([], tx)
      | _ => txBytes ← marshal_Tx tx; Ok (txBytes, tx)
      end
  end.

Definition BuildTxBytes (QueryAccount : string → res BaseAccount) (txConfig : SignModeHandlerMap) (unsignedTx : Tx)
    (chainId : string) (unsignedMsgs : list UnsignedMsg) : res (bytes * Tx) :=
  let filteredMsgs := filterInvalidSignatures unsignedMsgs in
  let accountInfos := fetchAllAccountInfos QueryAccount filteredMsgs in
  let updatedMsgs := updateSignatureKeys filteredMsgs accountInfos in
  match updatedMsgs with
  | [] => Err "no available account to sign transaction"
  | _ => buildAndSignStdTx txConfig unsignedTx chainId updatedMsgs
  end.

Definition setMsgInfosToTxBuilder (unsignedTx : Tx) (txMsgs : list Any) (fee : Coin) (gas : Z) (memo : string) : Tx :=
  mkTx (Some (mkBody txMsgs memo))
       (Some (mkAuth [] (mkFee [(Denom fee, bytes_string (format_dec (Amount fee)))] gas)))
       (Signatures unsignedTx).

Definition set_GasLimit (gas : Z) (tx : Tx) : res Tx :=
  match Auth tx with
  | None => Panic "nil pointer"
  | Some auth => Ok (mkTx (Body tx) (Some (mkAuth (SignerInfos auth) (mkFee (FeeAmount (AFee auth)) gas))) (Signatures tx))
  end.

(** [GasUsed] simulates a transaction on the chain, [None] being a response without gas info;
    [adjust] is the product with the gas adjustment, cut to an integer of 64 bits. *)
Definition CreateAndSimulateMultiMsgTx (QueryAccount : string → res BaseAccount) (GasUsed : bytes → res (option Z)) (adjust : Z → Z)
    (msgs : list Any) (txFee : TxFee) (memo : string) (signatureKeys : list SignatureKey) (chainId : string) : res bytes :=
  '(txConfig, tx) ← CreateTxConfigAndTxBuilder;
  let tx := setMsgInfosToTxBuilder tx msgs (TFee txFee) (Gas txFee) memo in
  let unsignedMsgs := map (fun msg => mkUMsg msg signatureKeys (TypeUrl msg)) msgs in
  '(txBytes, tx) ← BuildTxBytes QueryAccount txConfig tx chainId unsignedMsgs;
  if Simulate txFee then
    gasInfo ← GasUsed txBytes;
    match gasInfo with
    | None => Panic "nil pointer"
    | Some used =>
        tx ← set_GasLimit (adjust used) tx;
        '(txBytes, _) ← BuildTxBytes QueryAccount txConfig tx chainId unsignedMsgs;
        Ok txBytes
    end
  else Ok txBytes.

Definition CreateAndSimulateTx (QueryAccount : string → res BaseAccount) (GasUsed : bytes → res (option Z)) (adjust : Z → Z)
    (msg : Any) (txFee : TxFee) (memo : string) (signatureKeys : list SignatureKey) (chainId : string) : res bytes :=
  CreateAndSimulateMultiMsgTx QueryAccount GasUsed adjust [msg] txFee memo signatureKeys chainId.

(** ** Round trips *)

(** Induction on signature data through the lists in it. *)
Lemma SignatureData_rect' (P : SignatureData → Prop) :
  P NilData → (∀ m s, P (SingleSignatureData m s)) → (∀ bits ds, Forall P ds → P (MultiSignatureData bits ds)) → ∀ d, P d.
Proof.
  intros H1 H2 H3. fix IH 1. intros [|m s|bits ds]; [done|apply H2|apply H3].
  induction ds as [|d ds IHds]; constructor; [apply IH|apply IHds].
Qed.

Fixpoint no_nil (d : SignatureData) : bool :=
  match d with
  | NilData => false
  | SingleSignatureData _ _ => true
  | MultiSignatureData _ ds => (fix go ds := match ds with [] => true | d :: ds => no_nil d && go ds end) ds
  end.

(** Signature data without nil is turned into its descriptor and back, however deeply
    multi-signatures are nested; with nil in it the conversion panics. *)
Theorem signature_data_roundtrip d :
  if no_nil d then ∃ p, SignatureDataToProto d = Ok p ∧ SignatureDataFromProto p = Ok d
  else SignatureDataToProto d = Panic "unexpected case".
Proof.
  induction d as [|m s|bits ds IH] using SignatureData_rect'; [done|by exists (DescSingle m s)|].
  set (to := fix go ds := match ds with [] => Ok [] | d :: ds => x ← SignatureDataToProto d; l ← go ds; Ok (x :: l) end).
  set (from := fix go ds := match ds with [] => Ok [] | d :: ds => x ← SignatureDataFromProto d; l ← go ds; Ok (x :: l) end).
  set (all := fix go ds := match ds with [] => true | d :: ds => no_nil d && go ds end).
  assert (if all ds then ∃ l, to ds = Ok l ∧ from l = Ok ds else to ds = Panic "unexpected case") as H.
  { induction IH as [|d ds Hd _ IHds]; [by exists []|]. cbn [all to]. destruct (no_nil d); cbn [andb].
    - destruct Hd as (p & -> & Hp). cbn [mbind res_bind]. destruct (all ds); [|by rewrite IHds].
      destruct IHds as (l & -> & Hl). exists (p :: l). cbn [mbind res_bind from]. by rewrite Hp, Hl.
    - by rewrite Hd. }
  cbn [no_nil SignatureDataToProto]. fold to all. destruct (all ds).
  - destruct H as (l & -> & Hl). exists (DescMulti bits l). split; [done|]. cbn [SignatureDataFromProto]. fold from. by rewrite Hl.
  - by rewrite H.
Qed.

(** A message that is handed over as bytes is the message that comes out. *)
Theorem unsigned_msg_roundtrip {LL : TxLibLaws L} u b : ToBytes u = Ok b → FromBytes b = Ok u.
Proof.
  unfold ToBytes, FromBytes. intros (m & Hm & [= <-])%bind_ok. cbn. rewrite (any_roundtrip _ _ Hm). by destruct u.
Qed.

(** ** Signing *)

(** The configuration that [CreateTxConfigAndTxBuilder] makes. *)
Definition direct_config : SignModeHandlerMap := mkModes 1 [1] {[1 := signModeDirectHandler]}.

Lemma direct_config_created : CreateTxConfigAndTxBuilder = Ok (direct_config, mkTx None None []).
Proof. reflexivity. Qed.

Lemma GetSignBytes_direct data tx : GetSignBytes direct_config SIGN_MODE_DIRECT data tx = direct_GetSignBytes SIGN_MODE_DIRECT data tx.
Proof. reflexivity. Qed.

(** What a transaction keeps while it is signed. *)
Definition same_content (tx tx' : Tx) : Prop := Body tx' = Body tx ∧ AFee <$> Auth tx' = AFee <$> Auth tx.

Lemma same_content_refl tx : same_content tx tx.
Proof. done. Qed.
Lemma same_content_trans a b c : same_content a b → same_content b c → same_content a c.
Proof. intros [H1 H2] [H3 H4]. split; by etrans. Qed.

Lemma SetSignatures_content tx sigs tx' : SetSignatures tx sigs = Ok tx' → same_content tx tx'.
Proof.
  unfold SetSignatures. intros ([infos raws] & _ & H)%bind_ok. destruct (Auth tx) as [a|] eqn:E; [|done]. injection H as <-.
  split; [done|]. by rewrite E.
Qed.

Lemma SetSignatures_one tx p m s q auth : Auth tx = Some auth →
  SetSignatures tx [mkSig2 p (SingleSignatureData m s) q] = Ok (mkTx (Body tx) (Some (mkAuth [mkSigner p (ModeSingle m) q] (AFee auth))) [s]).
Proof. unfold SetSignatures. cbn. by intros ->. Qed.

Lemma first_round_content cfg keys : ∀ sigs tx tx', first_round cfg keys sigs tx = Ok tx' → same_content tx tx'.
Proof.
  induction keys as [|k keys IH]; intros sigs tx tx'; cbn [first_round]; [intros [= <-]; apply same_content_refl|].
  destruct (_ && _); [done|]. intros (p & _ & (t & Ht & H)%bind_ok)%bind_ok. eapply same_content_trans; [by eapply SetSignatures_content|by eapply IH].
Qed.

Lemma second_round_content cfg chain keys : ∀ tx tx', second_round cfg chain keys tx = Ok tx' → same_content tx tx'.
Proof.
  induction keys as [|k keys IH]; intros tx tx'; cbn [second_round]; [intros [= <-]; apply same_content_refl|].
  intros (p & _ & (t & Ht & H)%bind_ok)%bind_ok. eapply same_content_trans; [by eapply SetSignatures_content|by eapply IH].
Qed.

(** The rule of the chain for transactions in mode direct: the signers in their order, each with
    its public key, its sequence and a signature of the transaction as it is. *)
Definition signed_by (chainId : string) (tx : Tx) (k : SignatureKey) (info : SignerInfo) (sig : bytes) : Prop :=
  getPackedPubKeyAnyByPrivKey (priv_key k) = Ok (PublicKey info) ∧ Sequence info = AccountSequence k
  ∧ sModeInfo info = ModeSingle SIGN_MODE_DIRECT
  ∧ ∃ doc, direct_GetSignBytes SIGN_MODE_DIRECT (mkSignerData chainId (AccountNum k) (AccountSequence k)) tx = Ok doc
           ∧ verify (PublicKey info) doc sig = true.

Definition well_signed (chainId : string) (keys : list SignatureKey) (tx : Tx) : Prop :=
  ∃ auth, Auth tx = Some auth ∧ Forall3 (signed_by chainId tx) keys (SignerInfos auth) (Signatures tx).

(** A key that is what its type says. *)
Definition good_key (k : SignatureKey) : Prop := KeyType k = SignatureEd25519 → length (PrivateKey k) = 64%nat ∧ wf_ed25519 (PrivateKey k) = true.

Lemma drop_copy_half (k : bytes) : length k = 64%nat → (copy_at (replicate 32 Byte.x00) 0 (drop 32 k)).1 = drop 32 k.
Proof. intros H. unfold copy_at. cbn [fst]. rewrite length_replicate, length_drop, H. cbn. rewrite firstn_all2 by (rewrite length_drop, H; done). by rewrite app_nil_r. Qed.

Lemma Sign_verifies {LL : TxLibLaws L} k p m s : good_key k →
  getPackedPubKeyAnyByPrivKey (priv_key k) = Ok p → Sign (priv_key k) m = Ok s → verify p m s = true.
Proof.
  intros Hg. unfold getPackedPubKeyAnyByPrivKey, priv_key. case_bool_decide as Ht.
  - destruct (Hg Ht) as [Hlen Hwf]. intros (h & (half & Hs & Hh)%bind_ok & H)%bind_ok [= <-].
    assert (half = drop 32 (PrivateKey k)) as ->.
    { unfold slice, zlen in Hs. rewrite Hlen in Hs. rewrite bool_decide_eq_true_2 in Hs by lia. inversion Hs. apply firstn_all2. rewrite length_drop, Hlen. cbn. lia. }
    destruct (forallb _ _); [done|]. rewrite drop_copy_half in Hh by done. inversion Hh. subst h. by eapply ed25519_correct.
  - unfold secp256k1_Generate, PubKey_Bytes, Sign. intros (p' & Hp & H)%bind_ok Hs. destruct (secp256k1_PubKey _) eqn:E; [|done]. injection Hp as <-.
    by eapply secp256k1_correct.
Qed.

(** One signer: the signature is over the transaction as it is in the end. *)
Lemma one_signer {LL : TxLibLaws L} chain k tx tx1 tx2 auth : good_key k → Auth tx = Some auth →
  first_round direct_config [k] [] tx = Ok tx1 → second_round direct_config chain [k] tx1 = Ok tx2 → well_signed chain [k] tx2.
Proof.
  intros Hg Ha. cbn [first_round second_round app]. destruct (_ && _); [done|]. intros (p & Hp & (t & Ht & [= <-])%bind_ok)%bind_ok.
  rewrite (SetSignatures_one _ _ _ _ _ _ Ha) in Ht. injection Ht as <-.
  intros (sig & Hsig & (t & Ht & [= <-])%bind_ok)%bind_ok. apply bind_ok in Hsig as (doc & Hdoc & (s & Hs & (p' & Hp' & [= <-])%bind_ok)%bind_ok).
  rewrite Hp in Hp'. injection Hp' as <-. erewrite SetSignatures_one in Ht by done. injection Ht as <-. eexists. split; [done|]. cbn.
  constructor; [|constructor]. split_and!; [done..|]. exists doc. split; [exact Hdoc|by eapply Sign_verifies].
Qed.

(** However many signers there are, the infos and signatures of the last one are left. *)
Lemma second_round_one cfg chain keys : ∀ tx tx', keys ≠ [] → second_round cfg chain keys tx = Ok tx' →
  length (Signatures tx') = 1%nat ∧ ∃ auth, Auth tx' = Some auth ∧ length (SignerInfos auth) = 1%nat.
Proof.
  induction keys as [|k keys IH]; intros tx tx' Hne; [done|]. cbn [second_round]. intros (p & Hp & (t & Ht & H)%bind_ok)%bind_ok.
  destruct keys as [|k' keys]; [|by apply (IH t)]. injection H as <-. apply bind_ok in Hp as (doc & _ & (s & _ & (p' & _ & [= <-])%bind_ok)%bind_ok).
  unfold SetSignatures in Ht. cbn in Ht. destruct (Auth tx) as [a|]; [|done]. injection Ht as <-. split; [done|]. by eexists.
Qed.

(** The messages that [BuildTxBytes] collects the signers from. *)
Definition signable (QueryAccount : string → res BaseAccount) (msgs : list UnsignedMsg) : list UnsignedMsg :=
  let filtered := filterInvalidSignatures msgs in updateSignatureKeys filtered (fetchAllAccountInfos QueryAccount filtered).

Lemma BuildTxBytes_ok Q cfg tx chain msgs b tx' : BuildTxBytes Q cfg tx chain msgs = Ok (b, tx') →
  let keys := signaturesToDo (signable Q msgs) in
  signable Q msgs ≠ [] ∧ (if keys is [] then b = [] else marshal_Tx tx' = Ok b)
  ∧ ∃ tx1, first_round cfg keys [] tx = Ok tx1 ∧ second_round cfg chain keys tx1 = Ok tx'.
Proof.
  unfold BuildTxBytes. fold (signable Q msgs). destruct (signable Q msgs) as [|m ms] eqn:E; [done|]. unfold buildAndSignStdTx.
  intros (tx1 & H1 & (tx2 & H2 & H)%bind_ok)%bind_ok. split; [done|]. destruct (signaturesToDo (m :: ms)) as [|k keys].
  - injection H as <- <-. by eauto.
  - apply bind_ok in H as (b' & Hb & [= <- <-]). by eauto.
Qed.

(** C9: Whenever [BuildTxBytes] returns a transaction, it has the messages, memo and fee it was
    given, also the messages that were set aside because a key or an account is missing; and if
    there is a signer, the transaction is signed as the chain demands exactly when there is only
    one: with several signers, [SetSignatures] leaves only the last of them. *)
Theorem only_one_signer_can_sign {LL : TxLibLaws L} Q tx chain msgs b tx' auth :
  Auth tx = Some auth → BuildTxBytes Q direct_config tx chain msgs = Ok (b, tx') →
  Forall good_key (signaturesToDo (signable Q msgs)) →
  same_content tx tx'
  ∧ (signaturesToDo (signable Q msgs) ≠ [] →
     marshal_Tx tx' = Ok b
     ∧ (well_signed chain (signaturesToDo (signable Q msgs)) tx' ↔ length (signaturesToDo (signable Q msgs)) = 1%nat)).
Proof.
  intros Ha (_ & Hb & tx1 & H1 & H2)%BuildTxBytes_ok Hg. split.
  { eapply same_content_trans; [by eapply first_round_content|by eapply second_round_content]. }
  intros Hne. destruct (signaturesToDo (signable Q msgs)) as [|k keys] eqn:E; [done|]. split; [done|]. split.
  - intros (a & Ea & H). destruct (second_round_one _ _ _ _ _ Hne H2) as (Hl & a' & Ea' & _). apply Forall3_length_lr in H. lia.
  - destruct keys; [|done]. intros _. apply Forall_inv in Hg. by eapply one_signer.
Qed.

(** ** One signer *)

Lemma fetch_known Q msgs a info : a ∈ map Address (concat (map SignatureKeys msgs)) → Q a = Ok info →
  fetchAllAccountInfos Q msgs !! a = Some info.
Proof.
  intros Ha HQ. unfold fetchAllAccountInfos. set (s := list_to_set _ : gset string). apply elem_of_list_to_map_1.
  - assert (NoDup (elements s)) as Hn by apply NoDup_elements. induction Hn as [|x l Hx Hn IH]; cbn; [constructor|].
    destruct (Q x); [|done..]. cbn. constructor; [|done]. intros ([x' i'] & Hf & Hin)%list_elem_of_fmap. cbn in Hf. subst x'.
    apply list_elem_of_omap in Hin as (y & Hy & Hq). destruct (Q y); by simplify_eq.
  - apply list_elem_of_omap. exists a. split; [by apply elem_of_elements, elem_of_list_to_set|by rewrite HQ].
Qed.

Lemma new_signers_seen seen ks : Forall (fun k => Address k ∈ seen) ks → new_signers seen ks = [].
Proof. induction 1 as [|k ks Hk _ IH]; [done|]. cbn. by rewrite bool_decide_eq_true_2. Qed.

(** A message all of whose keys are those of one address. *)
Definition keys_of (addr : string) (msg : UnsignedMsg) : Prop :=
  Forall (fun k => Address k = addr ∧ PrivateKey k ≠ []) (SignatureKeys msg).

Definition with_account (acc : BaseAccount) (k : SignatureKey) : SignatureKey :=
  mkSigKey (accNumber acc) (accSequence acc) (Address k) (PrivateKey k) (KeyType k).

Lemma filter_keeps addr msgs : addr ≠ EmptyString → Forall (keys_of addr) msgs → filterInvalidSignatures msgs = msgs.
Proof.
  intros Ha. unfold filterInvalidSignatures. induction 1 as [|m ms Hm _ IH]; [done|]. rewrite filter_cons_True; [by rewrite IH|].
  induction Hm as [|k ks [<- Hk] _ IHk]; [done|]. cbn. unfold invalid_key. by rewrite !bool_decide_eq_false_2.
Qed.

Lemma update_keys infos addr acc ks : infos !! addr = Some acc → Forall (fun k => Address k = addr ∧ PrivateKey k ≠ []) ks →
  mapM (update_key infos) ks = Some (map (with_account acc) ks).
Proof. intros Hi. induction 1 as [|k ks [Hk _] _ IH]; [done|].
  change (mapM (update_key infos) (k :: ks)) with (y ← update_key infos k; z ← mapM (update_key infos) ks; Some (y :: z)).
  rewrite IH. unfold update_key. rewrite Hk, Hi. cbn. unfold with_account. by rewrite Hk.
Qed.

Lemma signable_one Q addr acc msgs m ms k ks : addr ≠ EmptyString → Q addr = Ok acc → Forall (keys_of addr) msgs →
  msgs = m :: ms → SignatureKeys m = k :: ks →
  signable Q msgs ≠ [] ∧ signaturesToDo (signable Q msgs) = [with_account acc k].
Proof.
  intros Ha HQ Hall Em Ek. unfold signable. rewrite (filter_keeps addr) by done.
  assert (fetchAllAccountInfos Q msgs !! addr = Some acc) as Hf.
  { apply fetch_known; [|done]. subst msgs. cbn. rewrite Ek. cbn. apply Forall_inv in Hall. unfold keys_of in Hall. rewrite Ek in Hall. apply Forall_inv in Hall as [-> _]. left. }
  assert (updateSignatureKeys msgs (fetchAllAccountInfos Q msgs)
    = map (fun m => mkUMsg (Msg m) (map (with_account acc) (SignatureKeys m)) (MsgType m)) msgs) as ->.
  { generalize (fetchAllAccountInfos Q msgs) Hf. clear Hf Em. intros infos Hf. unfold updateSignatureKeys. induction Hall as [|x l Hx _ IH]; [done|]. cbn.
    rewrite (update_keys infos addr acc) by done. cbn. by rewrite IH. }
  subst msgs. split; [done|]. unfold signaturesToDo. cbn. rewrite Ek. cbn. rewrite bool_decide_eq_false_2 by set_solver. f_equal. apply new_signers_seen.
  pose proof (Forall_inv Hall) as Hm. pose proof (Forall_inv_tail Hall) as Hms. cbn beta in Hm. unfold keys_of in Hm. rewrite Ek in Hm. pose proof (Forall_inv_tail Hm) as Hks. apply Forall_inv in Hm as [Hk _]. rewrite Hk. apply Forall_app. split.
  - apply Forall_map. revert Hks. apply Forall_impl. intros k' [H _]. cbn. rewrite H. set_solver.
  - clear Hall Hf. induction Hms as [|x l Hx _ IH]; [constructor|]. cbn. apply Forall_app. split; [|exact IH]. apply Forall_map. revert Hx. apply Forall_impl. intros k' [H _]. cbn. rewrite H. set_solver.
Qed.

(** Protobuf can encode every message that is built. *)
Record encodes : Prop := {
  enc_body b : ∃ x, marshal_TxBody b = Ok x;
  enc_auth a : ∃ x, marshal_AuthInfo a = Ok x;
  enc_doc d : ∃ x, marshal_SignDoc d = Ok x;
  enc_tx t : ∃ x, marshal_Tx t = Ok x
}.

(** A key that can sign: it has a public key, and signs every message. *)
Definition usable (k : SignatureKey) : Prop :=
  good_key k ∧ (∃ p, getPackedPubKeyAnyByPrivKey (priv_key k) = Ok p) ∧ ∀ m, ∃ s, Sign (priv_key k) m = Ok s.

Lemma rounds_run chain k tx auth : encodes → usable k → Auth tx = Some auth →
  ∃ tx1 tx2, first_round direct_config [k] [] tx = Ok tx1 ∧ second_round direct_config chain [k] tx1 = Ok tx2.
Proof.
  intros He (Hg & (p & Hp) & Hs) Ha. cbn [first_round second_round app].
  replace (_ && _) with false by (symmetry; apply andb_false_iff; destruct (decide (KeyType k = SignatureEd25519)) as [Ht|Ht]; [right|left]; apply bool_decide_eq_false_2; [destruct (Hg Ht); lia|done]).
  rewrite Hp. cbn [mbind res_bind]. rewrite (SetSignatures_one _ _ _ _ _ _ Ha). cbn [mbind res_bind]. match goal with |- ∃ _ _, Ok ?t = _ ∧ _ => exists t end.
  unfold SignWithPrivKey. change (defaultMode direct_config) with SIGN_MODE_DIRECT. rewrite GetSignBytes_direct. unfold direct_GetSignBytes. rewrite bool_decide_eq_false_2 by auto.
  edestruct (enc_body He) as [x1 ->]. cbn [mbind res_bind]. edestruct (enc_auth He) as [x2 ->]. cbn [mbind res_bind]. unfold DirectSignBytes. edestruct (enc_doc He) as [x3 ->]. cbn [mbind res_bind].
  destruct (Hs x3) as [s ->]. cbn [mbind res_bind]. rewrite Hp. cbn [mbind res_bind]. erewrite SetSignatures_one; [|reflexivity]. by eexists.
Qed.

(** Messages of one usable address are signed. *)
Lemma BuildTxBytes_one {LL : TxLibLaws L} Q tx chain addr acc msgs m ms k ks auth :
  encodes → addr ≠ EmptyString → Q addr = Ok acc → Forall (keys_of addr) msgs → msgs = m :: ms → SignatureKeys m = k :: ks →
  usable k → Auth tx = Some auth →
  ∃ b tx', BuildTxBytes Q direct_config tx chain msgs = Ok (b, tx') ∧ same_content tx tx' ∧ marshal_Tx tx' = Ok b
           ∧ well_signed chain [with_account acc k] tx'.
Proof.
  intros He Ha HQ Hall Em Ek Hu Hauth. destruct (signable_one Q addr acc msgs m ms k ks) as [Hne Hkeys]; [done..|].
  destruct (rounds_run chain (with_account acc k) tx auth He Hu Hauth) as (tx1 & tx2 & H1 & H2). destruct (enc_tx He tx2) as [b Hb].
  exists b, tx2. unfold BuildTxBytes. fold (signable Q msgs). unfold buildAndSignStdTx. destruct (signable Q msgs) as [|u us]; [done|].
  rewrite Hkeys, H1. cbn [mbind res_bind]. rewrite H2. cbn [mbind res_bind]. rewrite Hb. cbn [mbind res_bind]. split; [done|]. split; [|split; [done|]].
  - eapply same_content_trans; [by eapply first_round_content|by eapply second_round_content].
  - eapply one_signer; [apply Hu|done..].
Qed.

(** A transaction with the messages of one signer whose account the chain knows is built: it
    has the given messages, memo and fee, the gas limit that was asked for or the adjusted gas of
    a simulation, and the one signature the chain demands, over the transaction as it is sent. *)
Theorem simulated_tx_is_signed {LL : TxLibLaws L} Q GasUsed adjust msgs fee memo k chain acc used :
  encodes → msgs ≠ [] → Address k ≠ EmptyString → PrivateKey k ≠ [] → usable k → Q (Address k) = Ok acc →
  (∀ b, GasUsed b = Ok (Some used)) →
  ∃ b tx, CreateAndSimulateMultiMsgTx Q GasUsed adjust msgs fee memo [k] chain = Ok b
    ∧ marshal_Tx tx = Ok b
    ∧ Body tx = Some (mkBody msgs memo)
    ∧ AFee <$> Auth tx = Some (mkFee [(Denom (TFee fee), bytes_string (format_dec (Amount (TFee fee))))]
                                    (if Simulate fee then adjust used else Gas fee))
    ∧ well_signed chain [with_account acc k] tx.
Proof.
  intros He Hm Ha Hp Hu HQ Hg. unfold CreateAndSimulateMultiMsgTx. rewrite direct_config_created. cbn [mbind res_bind].
  set (tx0 := setMsgInfosToTxBuilder _ _ _ _ _). set (umsgs := map _ msgs).
  assert (Forall (keys_of (Address k)) umsgs) as Hall by (apply Forall_map, Forall_forall; intros; repeat constructor; done).
  destruct umsgs as [|u us] eqn:E; [by destruct msgs|]. assert (SignatureKeys u = [k]) as Hk by (destruct msgs; [done|]; cbn in E; by simplify_eq).
  destruct (BuildTxBytes_one Q tx0 chain (Address k) acc (u :: us) u us k [] _ He Ha HQ Hall eq_refl Hk Hu eq_refl) as (b1 & tx1 & -> & [Hb1 Hf1] & Hm1 & Hw1).
  cbn [mbind res_bind]. destruct (Simulate fee); [|by exists b1, tx1]. rewrite Hg. cbn [mbind res_bind].
  destruct (Auth tx1) as [auth1|] eqn:E1; [|done]. injection Hf1 as Hf1. unfold set_GasLimit. rewrite E1. cbn [mbind res_bind].
  set (tx2 := mkTx _ _ _).
  destruct (BuildTxBytes_one Q tx2 chain (Address k) acc (u :: us) u us k [] _ He Ha HQ Hall eq_refl Hk Hu eq_refl) as (b2 & tx3 & -> & [Hb3 Hf3] & Hm3 & Hw3).
  exists b2, tx3. split_and!; [done|done| |..]; [by rewrite Hb3|rewrite Hf3; cbn; by rewrite Hf1|done].
Qed.

End Tx.

(** ** The report of volumes (BuildVolumeReportMsg of msg_builder.go) *)

Record Traffic := mkTraffic { Volume : Z; WalletAddress : string }.
Record BLSSignatureInfo := mkBls { PubKeys : list bytes; BlsSignature : bytes; TxData : bytes }.
Record MsgVolumeReport := mkReport {
  WalletVolumes : list (string * string); Reporter : string; Epoch : string; ReportReference : string;
  ReporterOwner : string; BLSSignature : BLSSignatureInfo }.

Section Volumes.
Context {BL : Bech32Lib} (marshal_report : MsgVolumeReport → res bytes).
(** The order in which the map is iterated over. *)
Context (iter : gmap string Z → list (string * Z)).

Definition aggregatedVolume (traffic : list Traffic) : gmap string Z :=
  foldl (fun m t => <[WalletAddress t := u64 (default 0 (m !! WalletAddress t) + Volume t)]> m) ∅ traffic.

Fixpoint wallet_volumes (l : list (string * Z)) : res (list (string * string)) :=
  match l with
  | [] => Ok []
  | (w, volume) :: l =>
      _ ← WalletAddressFromBech32 (string_bytes w);
      rest ← wallet_volumes l;
      Ok ((w, bytes_string (format_dec volume)) :: rest)
  end.

(** sort.SliceStable by wallet address. *)
Fixpoint insert_volume (x : string * string) (l : list (string * string)) : list (string * string) :=
  match l with
  | [] => [x]
  | y :: l => if decide (dlt y.1 x.1) then y :: insert_volume x l else x :: y :: l
  end.
Definition sort_volumes (l : list (string * string)) : list (string * string) := foldr insert_volume [] l.

Definition BuildVolumeReportMsg (traffic : list Traffic) (reporterAddress reporterOwnerAddress : bytes) (epoch : Z)
    (reportReference : string) (blsTxDataHash blsSignature : bytes) (blsPubKeys : list bytes) : res (MsgVolumeReport * bytes) :=
  nodesVolume ← wallet_volumes (iter (aggregatedVolume traffic));
  let msg := mkReport (sort_volumes nodesVolume) (bytes_string (P2PAddress_String reporterAddress)) (bytes_string (format_dec epoch))
               reportReference (bytes_string (WalletAddress_String reporterOwnerAddress)) (mkBls blsPubKeys blsSignature blsTxDataHash) in
  msgBytes ← marshal_report msg;
  Ok (msg, msgBytes).

(** The volume of a wallet: the sum of its records. *)
Definition volume_of (w : string) (traffic : list Traffic) : Z :=
  foldr (fun t v => (if decide (WalletAddress t = w) then Volume t else 0) + v) 0 traffic.

Lemma aggregated_lookup w traffic :
  aggregatedVolume traffic !! w = if decide (w ∈ map WalletAddress traffic) then Some (u64 (volume_of w traffic)) else None.
Proof.
  unfold aggregatedVolume. cut (∀ m : gmap string Z, (∀ v, m !! w = Some v → in_u 64 v) →
    foldl (fun m t => <[WalletAddress t := u64 (default 0 (m !! WalletAddress t) + Volume t)]> m) m traffic !! w
    = if decide (w ∈ map WalletAddress traffic) then Some (u64 (default 0 (m !! w) + volume_of w traffic)) else m !! w).
  { intros H. rewrite H by (intros v; by rewrite lookup_empty). by rewrite lookup_empty. }
  induction traffic as [|t traffic IH]; intros m Hm; cbn [foldl map volume_of foldr]; [by rewrite decide_False by apply not_elem_of_nil|].
  destruct (decide (WalletAddress t = w)) as [<-|Hne].
  - rewrite IH; rewrite lookup_insert_eq; [|intros v [= <-]; by apply wrapu_range]. cbn [default from_option]. rewrite (decide_True _ _ (list_elem_of_here _ _)).
    unfold id. assert (∀ a b c, u64 (u64 (a + b) + c) = u64 (a + (b + c))) as Hw by (intros; unfold wrapu; rewrite Zplus_mod_idemp_l; f_equal; lia).
    destruct (decide _) as [Hin|Hin]; [by rewrite Hw|].
    fold (volume_of (WalletAddress t) traffic). replace (volume_of (WalletAddress t) traffic) with 0; [by rewrite Z.add_0_r|].
    clear -Hin. induction traffic as [|t' traffic IH]; [done|]. cbn in *. rewrite decide_False by (intros E; apply Hin; rewrite E; left). fold (volume_of (WalletAddress t) traffic). rewrite <- IH; [done|]. intros H. apply Hin. by right.
  - rewrite IH; rewrite lookup_insert_ne by done; [|done]. rewrite Z.add_0_l. destruct (decide (w ∈ map WalletAddress traffic)) as [H|H].
    + by rewrite decide_True by (by right).
    + rewrite decide_False; [done|]. by intros [E|E]%elem_of_cons.
Qed.

Lemma insert_volume_perm x l : insert_volume x l ≡ₚ x :: l.
Proof. induction l as [|y l IH]; cbn; [done|]. case_decide; [|done]. rewrite IH. constructor. Qed.

Lemma sort_volumes_perm l : sort_volumes l ≡ₚ l.
Proof. induction l as [|x l IH]; cbn; [done|]. by rewrite insert_volume_perm, IH. Qed.

Lemma insert_volume_sorted x l : x.1 ∉ l.*1 → StronglySorted dlt l.*1 → StronglySorted dlt (insert_volume x l).*1.
Proof.
  induction l as [|y l IH]; intros Hx Hs; cbn; [repeat constructor|]. cbn in Hx, Hs. apply StronglySorted_inv in Hs as [Hs Hy].
  apply not_elem_of_cons in Hx as [Hxy Hx]. case_decide as Hc; cbn.
  - constructor; [by apply IH|]. rewrite insert_volume_perm. cbn. by constructor.
  - assert (dlt x.1 y.1) as Hlt.
    { pose proof (compare_cases y.1 x.1) as H. destruct (String.compare _ _) eqn:E; [by rewrite H in Hxy|done|done]. }
    constructor; [by constructor|]. constructor; [done|]. revert Hy. apply Forall_impl. intros z. by apply dlt_trans.
Qed.

Lemma sort_volumes_sorted l : NoDup l.*1 → StronglySorted dlt (sort_volumes l).*1.
Proof.
  induction l as [|x l IH]; cbn; [constructor|]. intros H. inversion H as [|? ? Hx Hn]; subst. apply insert_volume_sorted; [|by apply IH].
  by rewrite sort_volumes_perm.
Qed.

Lemma wallet_volumes_ok l : Forall (fun wv => is_ok (WalletAddressFromBech32 (string_bytes wv.1)) = true) l →
  wallet_volumes l = Ok (map (fun wv => (wv.1, bytes_string (format_dec wv.2))) l).
Proof.
  induction 1 as [|[w v] l Hw _ IH]; [done|]. cbn [wallet_volumes]. cbn in Hw. destruct (WalletAddressFromBech32 _); [|done..].
  cbn [mbind res_bind]. by rewrite IH.
Qed.

Lemma wallet_volumes_bad l : Exists (fun wv => is_ok (WalletAddressFromBech32 (string_bytes wv.1)) = false) l → is_ok (wallet_volumes l) = false.
Proof.
  induction 1 as [[w v] l Hw|[w v] l _ IH]; cbn [wallet_volumes].
  - cbn in Hw. by destruct (WalletAddressFromBech32 _).
  - destruct (WalletAddressFromBech32 _); [|done..]. cbn [mbind res_bind]. by destruct (wallet_volumes l).
Qed.

(** In whatever order the map is gone through, the report of volumes lists every wallet of the
    traffic once, in the order of the addresses, with the sum of its volumes modulo 2^64; and
    there is no report when one address is not valid. *)
Theorem volume_report_exact traffic reporter owner epoch reference hash sig keys :
  (∀ m, iter m ≡ₚ map_to_list m) → (∀ msg, is_ok (marshal_report msg) = true) →
  if forallb (fun t => is_ok (WalletAddressFromBech32 (string_bytes (WalletAddress t)))) traffic
  then ∃ msg b, BuildVolumeReportMsg traffic reporter owner epoch reference hash sig keys = Ok (msg, b)
    ∧ StronglySorted dlt (WalletVolumes msg).*1
    ∧ (∀ w v, (w, v) ∈ WalletVolumes msg ↔ w ∈ map WalletAddress traffic ∧ v = bytes_string (format_dec (u64 (volume_of w traffic))))
  else is_ok (BuildVolumeReportMsg traffic reporter owner epoch reference hash sig keys) = false.
Proof.
  intros Hi Hm. unfold BuildVolumeReportMsg. pose proof (Hi (aggregatedVolume traffic)) as Hp.
  assert (∀ w v, (w, v) ∈ iter (aggregatedVolume traffic) ↔ w ∈ map WalletAddress traffic ∧ v = u64 (volume_of w traffic)) as Hin.
  { intros w v. rewrite Hp, elem_of_map_to_list, aggregated_lookup. destruct (decide _); naive_solver. }
  destruct (forallb _ traffic) eqn:E.
  - rewrite wallet_volumes_ok.
    2: { apply Forall_forall. intros [w v] [Hw _]%list_elem_of_In%Hin. apply list_elem_of_fmap in Hw as (t & -> & Ht). rewrite forallb_forall in E. by apply E, list_elem_of_In. }
    cbn [mbind res_bind]. match goal with |- context [marshal_report ?m] => specialize (Hm m); destruct (marshal_report m) as [b| |] eqn:Eb; [|done..] end.
    cbn [mbind res_bind]. eexists _, b. split; [done|]. cbn [WalletVolumes]. split.
    + apply sort_volumes_sorted. rewrite <- list_fmap_compose. cbn. change (NoDup (iter (aggregatedVolume traffic)).*1). rewrite Hp. apply NoDup_fst_map_to_list.
    + intros w v. rewrite sort_volumes_perm, list_elem_of_fmap. split.
      * intros ([w' v'] & [= -> ->] & [Hw ->]%Hin). done.
      * intros [Hw ->]. exists (w, u64 (volume_of w traffic)). split; [done|]. by apply Hin.
  - assert (is_ok (wallet_volumes (iter (aggregatedVolume traffic))) = false) as H.
    { apply wallet_volumes_bad. assert (∃ t, t ∈ traffic ∧ is_ok (WalletAddressFromBech32 (string_bytes (WalletAddress t))) = false) as (t & Ht & Hw).
      { clear -E. induction traffic as [|t traffic IH]; [done|]. cbn in E. apply andb_false_iff in E as [E|E]; [by exists t; split; [left|]|].
        destruct (IH E) as (t' & Ht & Hw). exists t'. split; [by right|done]. }
      apply Exists_exists. exists (WalletAddress t, u64 (volume_of (WalletAddress t) traffic)). split; [|done]. apply list_elem_of_In, Hin. split; [|done]. by apply list_elem_of_fmap_2. }
    by destruct (wallet_volumes _).
Qed.
End Volumes.

(** ** Examples *)

Module TxDemo.
(** Encodings that keep everything that matters, and signatures of the form public key and message. *)
Definition enc_any (a : Any) : bytes := flat_map (fun c => [Byte.x01; c]) (string_bytes (TypeUrl a)) ++ Byte.x00 :: Value a.
Fixpoint dec_any (fuel : nat) (b : bytes) : option (bytes * bytes) :=
  match fuel, b with
  | S fuel, Byte.x01 :: c :: b => '(u, v) ← dec_any fuel b; Some (c :: u, v)
  | S _, Byte.x00 :: v => Some ([], v)
  | _, _ => None
  end.
Definition enc_info (i : SignerInfo) : bytes := enc_any (PublicKey i) ++ Uint64ToBytes (Sequence i).
Definition enc_auth_info (a : AuthInfo) : bytes := flat_map enc_info (SignerInfos a) ++ Uint64ToBytes (GasLimit (AFee a)).
Definition enc_body_bytes (b : TxBody) : bytes := flat_map enc_any (Messages b) ++ string_bytes (Memo b).

#[local] Instance plain : TxLib := {|
  marshal_TxBody b := Ok (enc_body_bytes b);
  marshal_AuthInfo a := Ok (match a with Some a => enc_auth_info a | None => [] end);
  marshal_SignDoc d := Ok (BodyBytes d ++ AuthInfoBytes d ++ string_bytes (ChainId d) ++ Uint64ToBytes (AccountNumber d));
  marshal_Tx t := Ok (concat (Signatures t));
  marshal_Any a := Ok (enc_any a);
  unmarshal_Any b := match dec_any (length b) b with Some (u, v) => Ok (mkAny (bytes_string u) v) | None => Err "proto" end;
  marshal_MultiSignature l := Ok (concat l);
  any_pubkey s p := Ok (mkAny (match s with Ed25519 => "ed25519" | Secp256k1 => "secp256k1" end) p);
  ed25519_Sign k m := drop 32 k ++ m;
  secp256k1_PubKey k := Some k;
  secp256k1_Sign k m := Ok (k ++ m);
  wf_ed25519 k := bool_decide (length k = 64%nat);
  verify a m s := bool_decide (s = Value a ++ m)
|}.

Lemma dec_enc fuel u v : (length u < fuel)%nat → dec_any fuel (flat_map (fun c => [Byte.x01; c]) u ++ Byte.x00 :: v) = Some (u, v).
Proof.
  revert fuel. induction u as [|c u IH]; intros [|fuel] Hf; cbn [length] in Hf; try lia; cbn; [done|]. rewrite IH by lia. done.
Qed.

#[local] Instance plain_laws : TxLibLaws plain.
Proof.
  split.
  - intros k a m _ [= <-]. by apply bool_decide_eq_true_2.
  - intros k p a m s [= <-] [= <-] [= <-]. by apply bool_decide_eq_true_2.
  - intros [u v] b [= <-]. unfold unmarshal_Any, plain, enc_any. cbn [TypeUrl Value]. rewrite dec_enc; [by rewrite bytes_string_bytes|]. rewrite length_app.
    assert (∀ l : bytes, (length l ≤ length (flat_map (fun c => [Byte.x01; c]) l))%nat) as H by (intros l; induction l; cbn; lia).
    specialize (H (string_bytes u)). cbn [length]. lia.
Qed.

Lemma plain_encodes : encodes.
Proof. split; intros; by eexists. Qed.

Definition key (a : string) : SignatureKey := mkSigKey 0 0 a (string_bytes a) SignatureSecp256k1.
Definition query (a : string) : res BaseAccount := if bool_decide (a = "nobody") then Err "not found" else Ok (mkAccount 7 3).
Definition send : Any := mkAny "/send" [Byte.x05].
Definition pay : Any := mkAny "/pay" [Byte.x06].
Definition fee : TxFee := mkTxFee (mkCoin "wei" 10) 100 true.

Lemma key_usable a : usable (key a).
Proof. split; [done|]. split; [by eexists|]. intros m. by eexists. Qed.

Lemma simulated_tx_is_signed_witness : ∃ b tx,
  CreateAndSimulateMultiMsgTx query (fun _ => Ok (Some 40)) (fun g => g * 3 / 2) [send; pay] fee "memo" [key "alice"] "chain" = Ok b
  ∧ marshal_Tx tx = Ok b ∧ Body tx = Some (mkBody [send; pay] "memo") ∧ AFee <$> Auth tx = Some (mkFee [("wei", "10")] 60)
  ∧ well_signed "chain" [mkSigKey 7 3 "alice" (string_bytes "alice") 0] tx.
Proof.
  apply (simulated_tx_is_signed query (fun _ => Ok (Some 40)) (fun g => g * 3 / 2) [send; pay] fee "memo" (key "alice") "chain" (mkAccount 7 3) 40
    plain_encodes); [done|done|done|apply key_usable|reflexivity|reflexivity].
Defined.

(** Two signers: the transaction is not signed as it should be; a message that cannot be signed
    stays in the body. *)
Definition batch : list UnsignedMsg := [mkUMsg send [key "alice"] "send"; mkUMsg pay [key "bob"] "pay"; mkUMsg send [key "nobody"] "send"].
Definition empty_tx : Tx := mkTx (Some (mkBody (map Msg batch) EmptyString)) (Some (mkAuth [] (mkFee [] 0))) [].

Lemma only_one_signer_can_sign_witness : ∃ b tx, BuildTxBytes query direct_config empty_tx "chain" batch = Ok (b, tx)
  ∧ map Address (signaturesToDo (signable query batch)) = ["alice"; "bob"]
  ∧ Body tx = Some (mkBody [send; pay; send] EmptyString)
  ∧ ¬ well_signed "chain" (signaturesToDo (signable query batch)) tx.
Proof.
  destruct (BuildTxBytes query direct_config empty_tx "chain" batch) as [[b tx]|e|e] eqn:E; [|vm_compute in E; discriminate..].
  assert (signaturesToDo (signable query batch) = [with_account (mkAccount 7 3) (key "alice"); with_account (mkAccount 7 3) (key "bob")]) as K by (vm_compute; reflexivity).
  exists b, tx. split; [done|]. destruct (only_one_signer_can_sign query empty_tx "chain" batch b tx _ eq_refl E) as [[Hb _] Hw].
  { rewrite K. repeat constructor; discriminate. }
  rewrite K in Hw |- *. split; [reflexivity|]. split; [exact Hb|]. intros H. apply Hw in H; discriminate.
Defined.

#[local] Instance plain_bech : Bech32Lib := {| bech_Encode := fun hrp g => Some (hrp ++ Byte.x31 :: g); bech_Decode := fun s => Some (take 2 s, drop 3 s); ConvertBits8to5 := Some; ConvertBits5to8 := Some |}.

Lemma volume_report_exact_witness : ∃ msg b,
  BuildVolumeReportMsg (fun _ => Ok []) map_to_list [mkTraffic 5 "st1b"; mkTraffic 2 "st1a"; mkTraffic 1 "st1b"] [] [] 9 "ref" [] [] [] = Ok (msg, b)
  ∧ StronglySorted dlt (WalletVolumes msg).*1
  ∧ (∀ w v, (w, v) ∈ WalletVolumes msg ↔ w ∈ ["st1b"; "st1a"; "st1b"]
       ∧ v = bytes_string (format_dec (u64 (volume_of w [mkTraffic 5 "st1b"; mkTraffic 2 "st1a"; mkTraffic 1 "st1b"])))).
Proof.
  pose proof (volume_report_exact (fun _ => Ok []) map_to_list [mkTraffic 5 "st1b"; mkTraffic 2 "st1a"; mkTraffic 1 "st1b"] [] [] 9 "ref" [] [] []
    (fun m => reflexivity (map_to_list m)) (fun _ => eq_refl)) as H.
  match type of H with if ?c then _ else _ => assert (c = true) as E by (vm_compute; reflexivity); rewrite E in H end. exact H.
Defined.

Example volumes_add_up :
  (fun r => WalletVolumes r.1) <$> BuildVolumeReportMsg (fun _ => Ok []) map_to_list [mkTraffic 5 "st1b"; mkTraffic 2 "st1a"; mkTraffic 1 "st1b"] [] [] 9 "ref" [] [] []
  = Ok [("st1a", "2"); ("st1b", "6")].
Proof. vm_compute. reflexivity. Qed.
End TxDemo.
