(* ===== verification/ChainEvents.v ===== *)
(** * ChainEvents: events of the chain, reported to the SP

    Models the handlers of relayer/stratoschain/handlers (stratoschain_events.go, event_type.go), the
    message types (types/msg_type.go), and the three places that run them: the loop that reads the
    chain's websocket (readerLoop, cleanEventStrings and the subscriptions of
    client/stchain_connection.go) and BroadcastTx (delivertx.go), which starts them for the events
    of its own transaction.

    The handlers share their shape: the events of a type that have all required attributes are
    collected, a key made of them is looked up in a map with expiry and stored there, and a request
    is posted to an HTTP endpoint of the SP.  [Report] holds what is different.  Posting is recorded
    in [posts]; whether the SP answers makes no difference to the relayer, which only logs it. *)
From S2P Require Import Prelude Bytes Rlp RlpEncode BigMath Hex Sponge CleanMap.

(** ** event_type.go and msg_type.go *)

Definition EventTypeCompleteUnbondingResourceNode : string := "stratos.register.v1.EventCompleteUnBondingResourceNode".
Definition EventTypeCreateResourceNode : string := "stratos.register.v1.EventCreateResourceNode".
Definition EventTypeUnbondingResourceNode : string := "stratos.register.v1.EventUnBondingResourceNode".
Definition EventTypeUpdateResourceNode : string := "stratos.register.v1.EventUpdateResourceNode".
Definition EventTypeUpdateResourceNodeDeposit : string := "stratos.register.v1.EventUpdateResourceNodeDeposit".
Definition EventTypeUpdateEffectiveDeposit : string := "stratos.register.v1.EventUpdateEffectiveDeposit".
Definition EventTypeUnbondingMetaNode : string := "stratos.register.v1.EventUnBondingMetaNode".
Definition EventTypeUpdateMetaNodeDeposit : string := "stratos.register.v1.EventUpdateMetaNodeDeposit".
Definition EventTypeMetaNodeRegistrationVote : string := "stratos.register.v1.EventMetaNodeRegistrationVote".
Definition AttributeKeyResourceNode : string := "resource_node".
Definition AttributeKeyMetaNode : string := "meta_node".
Definition AttributeKeyNetworkAddress : string := "network_address".
Definition AttributeKeyPubKey : string := "pubkey".
Definition AttributeKeyCandidateNetworkAddress : string := "candidate_network_address".
Definition AttributeKeyCandidateStatus : string := "candidate_status".
Definition AttributeKeyBeneficiaryAddress : string := "beneficiary_address".
Definition AttributeKeyUnbondingMatureTime : string := "unbonding_mature_time".
Definition AttributeKeyOZoneLimitChanges : string := "ozone_limit_changes".
Definition AttributeKeyInitialDeposit : string := "initial_deposit".
Definition AttributeKeyCurrentDeposit : string := "current_deposit".
Definition AttributeKeyAvailableTokenBefore : string := "available_token_before".
Definition AttributeKeyAvailableTokenAfter : string := "available_token_after".
Definition AttributeKeyDepositDelta : string := "deposit_delta".
Definition AttributeKeyDepositToRemove : string := "deposit_to_remove".
Definition AttributeKeyEffectiveDepositAfter : string := "effective_deposit_after".
Definition AttributeKeyIsUnsuspended : string := "is_unsuspended".
Definition EventTypeVolumeReport : string := "stratos.pot.v1.EventVolumeReport".
Definition EventTypeSlashing : string := "stratos.pot.v1.EventSlashing".
Definition AttributeKeyEpoch : string := "epoch".
Definition AttributeKeyAmount : string := "amount".
Definition AttributeKeyNodeSuspended : string := "suspend".
Definition EventTypeFileUpload : string := "stratos.sds.v1.EventFileUpload".
Definition EventTypePrepay : string := "stratos.sds.v1.EventPrePay".
Definition AttributeKeyReporter : string := "reporter".
Definition AttributeKeyFileHash : string := "file_hash".
Definition AttributeKeyUploader : string := "uploader".
Definition AttributeKeyPurchasedNoz : string := "purchased_noz".
Definition AttributeKeyBeneficiary : string := "beneficiary".
Definition AttributeKeySender : string := "sender".

Definition MSG_TYPE_CREATE_RESOURCE_NODE : string := "/stratos.register.v1.MsgCreateResourceNode".
Definition MSG_TYPE_UPDATE_RESOURCE_NODE : string := "/stratos.register.v1.MsgUpdateResourceNode".
Definition MSG_TYPE_UPDATE_RESOURCE_NODE_DEPOSIT : string := "/stratos.register.v1.MsgUpdateResourceNodeDeposit".
Definition MSG_TYPE_REMOVE_RESOURCE_NODE : string := "/stratos.register.v1.MsgRemoveResourceNode".
Definition MSG_TYPE_CREATE_META_NODE : string := "/stratos.register.v1.MsgCreateMetaNode".
Definition MSG_TYPE_UPDATE_META_NODE_DEPOSIT : string := "/stratos.register.v1.MsgUpdateMetaNodeDeposit".
Definition MSG_TYPE_REMOVE_META_NODE : string := "/stratos.register.v1.MsgRemoveMetaNode".
Definition MSG_TYPE_KICK_META_NODE_VOTE : string := "/stratos.register.v1.MsgKickMetaNodeVote".
Definition MSG_TYPE_META_NODE_REG_VOTE : string := "/stratos.register.v1.MsgMetaNodeRegistrationVote".
Definition MSG_TYPE_UPDATE_EFFECTIVE_DEPOSIT : string := "/stratos.register.v1.MsgUpdateEffectiveDeposit".
Definition MSG_TYPE_PREPAY : string := "/stratos.sds.v1.MsgPrepay".
Definition MSG_TYPE_FILE_UPLOAD : string := "/stratos.sds.v1.MsgFileUpload".
Definition MSG_TYPE_VOLUME_REPORT : string := "/stratos.pot.v1.MsgVolumeReport".
Definition MSG_TYPE_SLASHING_RESOURCE_NODE : string := "/stratos.pot.v1.MsgSlashingResourceNode".
Definition MSG_TYPE_EVM_TX : string := "/stratos.evm.v1.MsgEthereumTx".

(** ** Events and requests *)

Record EventAttribute := mkAttr { AKey : string; AValue : string }.
Record Event := mkEvent { EType : string; Attributes : list EventAttribute }.
(** The data of a result: the events of a transaction, or something else. *)
Inductive EventData := EventDataTx (Events : list Event) | OtherData.
Record ResultEvent := mkResult { Query : string; RData : EventData; REvents : gmap string (list string) }.

Record ReqActivatedPP := mkActivatedPP { apAddress : string; apPubkey : string; apLimit : string; apTx : string; apDeposit : string }.
Record ReqUpdatePPBeneficiaryAddr := mkBeneficiary { ubAddress : string; ubBeneficiary : string }.
(** ReqUpdatedDepositPP and ReqUpdatedDepositSP have the same fields, and so have ReqUnbondingPP and
    ReqUnbondingSP, ReqDeactivatedPP and ReqActivatedSP. *)
Record ReqUpdatedDeposit := mkDeposit {
  udAddress : string; udLimit : string; udTx : string; udDelta : string; udCurrent : string; udBefore : string; udAfter : string }.
Record ReqUnbonding := mkUnbonding { unAddress : string; unTime : string; unTx : string; unDeposit : string }.
Record ReqNode := mkNode { rnAddress : string; rnTx : string }.
Record ReqPrepaid := mkPrepaid { prWallet : string; prPurchased : string; prTx : string }.
Record Uploaded := mkUploaded { upReporter : string; upUploader : string; upHash : string; upTx : string }.
Record SlashedPP := mkSlashed { slAddress : string; slQueryFirst : bool; slSuspended : bool; slAmt : Z }.
Record UpdatedEffectiveDepositPP := mkEffective { efAddress : string; efUnsuspended : bool; efDeposit : Z }.

Inductive Req :=
  | ActivatedPPReq (PPList : list ReqActivatedPP)
  | UpdatePPBeneficiaryAddrReq (PPList : list ReqUpdatePPBeneficiaryAddr)
  | UpdatedDepositPPReq (PPList : list ReqUpdatedDeposit)
  | UnbondingPPReq (PPList : list ReqUnbonding)
  | DeactivatedPPReq (PPList : list ReqNode)
  | UpdatedDepositSPReq (SPList : list ReqUpdatedDeposit)
  | UnbondingSPReq (SPList : list ReqUnbonding)
  | ActivatedSPReq (SPList : list ReqNode)
  | PrepaidReq (WalletList : list ReqPrepaid)
  | FileUploadedReq (UploadList : list Uploaded)
  | VolumeReportedReq (Epochs : list string)
  | SlashedPPReq (PPList : list SlashedPP) (TxHash : string)
  | UpdatedEffectiveDepositPPReq (PPList : list UpdatedEffectiveDepositPP) (TxHash : string).

(** ** The relayer's state: the cache and the posts *)

Record Relay := mkRelay { cache : CMap (V := bool); posts : list (string * Req) }.
Definition minute : Z := 60.
Definition postToSP (endpoint : string) (data : Req) (s : Relay) : Relay := mkRelay (cache s) (posts s ++ [(endpoint, data)]).

(** ** Helpers *)

Definition getTxHash (result : ResultEvent) : string :=
  match REvents result !! "tx.hash" with Some (h :: _) => h | _ => EmptyString end.

Abbreviation attrs := (gmap string string).
Definition attributes (event : Event) : attrs := foldl (fun m a => <[AKey a := AValue a]> m) ∅ (Attributes event).
(** Reading a map gives the empty string for a key that is not there. *)
Definition get (event : attrs) (key : string) : string := default EmptyString (event !! key).
Definition missing (event : attrs) (requiredAttributes : list string) : bool :=
  existsb (fun a => bool_decide (event !! a = None)) requiredAttributes.

Fixpoint processEvents (events : list Event) (requiredType : string) (requiredAttributes : list string) : list attrs * Z :=
  match events with
  | [] => ([], 0)
  | event :: events =>
      let '(processed, count) := processEvents events requiredType requiredAttributes in
      if bool_decide (EType event ≠ requiredType) then (processed, count)
      else if missing (attributes event) requiredAttributes then (processed, count + 1)
      else (attributes event :: processed, count + 1)
  end.

Definition processHexPubkey (attribute : string) : option bytes :=
  match hex_decode (string_bytes attribute) with (b, None) => Some b | (_, Some _) => None end.

(** strconv.ParseBool *)
Definition ParseBool (s : string) : option bool :=
  if bool_decide (s ∈ ["1"; "t"; "T"; "TRUE"; "true"; "True"]) then Some true
  else if bool_decide (s ∈ ["0"; "f"; "F"; "FALSE"; "false"; "False"]) then Some false
  else None.

Definition raw_key (requiredAttributes : list string) (processedEvents : list attrs) (txHash : string) : bytes :=
  string_bytes txHash ++
  flat_map (fun attribute => string_bytes attribute ++ flat_map (fun event => string_bytes (get event attribute)) processedEvents) requiredAttributes.

Section ChainEvents.
Context {IO : SpongeIO}.

(** crypto.Keccak256 of one piece of data. *)
Definition Keccak256 (data : bytes) : res bytes := sum_with NewKeccak256 data.

Definition getCacheKey (requiredAttributes : list string) (processedEvents : list attrs) (txHash : string) : res string :=
  hash ← Keccak256 (raw_key requiredAttributes processedEvents txHash); Ok (bytes_string hash).

(** ** The shape of the handlers *)

(** What is looked for, where it is posted, and the request that is made of the events; [None] when
    the list of the request is empty. *)
Record Report := mkReport {
  requiredAttributes : list string;
  eventType : string;
  endpoint : string;
  request : string → list attrs → option Req }.

(** What a handler still has to do once the cache has been asked. *)
Record Task := mkTask { task_key : string; task_post : option (string * Req) }.

(** Up to cache.Load: nothing is left to do when the key is there. *)
Definition check_cache (r : Report) (txHash : string) (processedEvents : list attrs) (s : Relay) : res (option Task * Relay) :=
  key ← getCacheKey (requiredAttributes r) processedEvents txHash;
  let '(found, c) := Load minute key (cache s) in
  Ok (match found with
      | Some _ => None
      | None => Some (mkTask key ((fun req => (endpoint r, req)) <$> request r txHash processedEvents))
      end, mkRelay c (posts s)).

(** From cache.Store on. *)
Definition finish (t : Task) (s : Relay) : Relay :=
  let s := mkRelay (Store minute (task_key t) true (cache s)) (posts s) in
  match task_post t with Some (endpoint, req) => postToSP endpoint req s | None => s end.

Definition process (r : Report) (txHash : string) (processedEvents : list attrs) (s : Relay) : res Relay :=
  '(t, s) ← check_cache r txHash processedEvents s;
  Ok (match t with Some t => finish t s | None => s end).

Definition handle (r : Report) (result : ResultEvent) (s : Relay) : res Relay :=
  match RData result with
  | OtherData => Ok s
  | EventDataTx events =>
      let '(processedEvents, _) := processEvents events (eventType r) (requiredAttributes r) in
      process r (getTxHash result) processedEvents s
  end.

(** A request with a list, unless it is empty. *)
Definition listed {A} (wrap : list A → Req) (l : list A) : option Req := match l with [] => None | _ => Some (wrap l) end.

(** ** The handlers *)

Definition CreateResourceNode : Report := mkReport
  [AttributeKeyNetworkAddress; AttributeKeyPubKey; AttributeKeyOZoneLimitChanges; AttributeKeyInitialDeposit]
  EventTypeCreateResourceNode "/pp/activated"
  (fun txHash events => listed ActivatedPPReq (omap (fun event =>
     p2pPubKey ← processHexPubkey (get event AttributeKeyPubKey);
     Some (mkActivatedPP (get event AttributeKeyNetworkAddress) (bytes_string (hex_encode p2pPubKey))
             (get event AttributeKeyOZoneLimitChanges) txHash (get event AttributeKeyInitialDeposit))) events)).

Definition UpdateResourceNode : Report := mkReport
  [AttributeKeySender; AttributeKeyNetworkAddress; AttributeKeyBeneficiaryAddress]
  EventTypeUpdateResourceNode "/pp/updateBeneficiaryAddress"
  (fun txHash events => listed UpdatePPBeneficiaryAddrReq (map (fun event =>
     mkBeneficiary (get event AttributeKeyNetworkAddress) (get event AttributeKeyBeneficiaryAddress)) events)).

Definition deposit_attributes : list string :=
  [AttributeKeyNetworkAddress; AttributeKeyOZoneLimitChanges; AttributeKeyDepositDelta; AttributeKeyCurrentDeposit;
   AttributeKeyAvailableTokenBefore; AttributeKeyAvailableTokenAfter].
Definition deposit_update (txHash : string) (event : attrs) : ReqUpdatedDeposit :=
  mkDeposit (get event AttributeKeyNetworkAddress) (get event AttributeKeyOZoneLimitChanges) txHash
    (get event AttributeKeyDepositDelta) (get event AttributeKeyCurrentDeposit)
    (get event AttributeKeyAvailableTokenBefore) (get event AttributeKeyAvailableTokenAfter).

Definition UpdateResourceNodeDeposit : Report := mkReport deposit_attributes
  EventTypeUpdateResourceNodeDeposit "/pp/updatedDeposit"
  (fun txHash events => listed UpdatedDepositPPReq (map (deposit_update txHash) events)).

Definition UnbondingResourceNode : Report := mkReport
  [AttributeKeyResourceNode; AttributeKeyUnbondingMatureTime; AttributeKeyDepositToRemove]
  EventTypeUnbondingResourceNode "/pp/unbonding"
  (fun txHash events => listed UnbondingPPReq (map (fun event =>
     mkUnbonding (get event AttributeKeyResourceNode) (get event AttributeKeyUnbondingMatureTime) txHash (get event AttributeKeyDepositToRemove)) events)).

(** Not registered. *)
Definition CompleteUnbondingResourceNode : Report := mkReport
  [AttributeKeyNetworkAddress] EventTypeCompleteUnbondingResourceNode "/pp/deactivated"
  (fun txHash events => listed DeactivatedPPReq (map (fun event => mkNode (get event AttributeKeyNetworkAddress) txHash) events)).

Definition UpdateMetaNodeDeposit : Report := mkReport deposit_attributes
  EventTypeUpdateMetaNodeDeposit "/chain/updatedDeposit"
  (fun txHash events => listed UpdatedDepositSPReq (map (deposit_update txHash) events)).

Definition UnbondingMetaNode : Report := mkReport
  [AttributeKeyMetaNode; AttributeKeyUnbondingMatureTime; AttributeKeyDepositToRemove]
  EventTypeUnbondingMetaNode "/chain/unbonding"
  (fun txHash events => listed UnbondingSPReq (map (fun event =>
     mkUnbonding (get event AttributeKeyMetaNode) (get event AttributeKeyUnbondingMatureTime) txHash (get event AttributeKeyDepositToRemove)) events)).

Definition MetaNodeVote : Report := mkReport
  [AttributeKeyCandidateNetworkAddress; AttributeKeyCandidateStatus; AttributeKeyOZoneLimitChanges]
  EventTypeMetaNodeRegistrationVote "/chain/activated"
  (fun txHash events => listed ActivatedSPReq (omap (fun event =>
     if bool_decide (get event AttributeKeyCandidateStatus ≠ "BOND_STATUS_BONDED") then None
     else Some (mkNode (get event AttributeKeyCandidateNetworkAddress) txHash)) events)).

Definition Prepay : Report := mkReport
  [AttributeKeySender; AttributeKeyBeneficiary; AttributeKeyPurchasedNoz]
  EventTypePrepay "/pp/prepaid"
  (fun txHash events => listed PrepaidReq (map (fun event =>
     mkPrepaid (get event AttributeKeyBeneficiary) (get event AttributeKeyPurchasedNoz) txHash) events)).

Definition FileUpload : Report := mkReport
  [AttributeKeyReporter; AttributeKeyUploader; AttributeKeyFileHash]
  EventTypeFileUpload "/pp/uploaded"
  (fun txHash events => listed FileUploadedReq (map (fun event =>
     mkUploaded (get event AttributeKeyReporter) (get event AttributeKeyUploader) (get event AttributeKeyFileHash) txHash) events)).

Definition VolumeReport : Report := mkReport
  [AttributeKeyEpoch] EventTypeVolumeReport "/volume/reported"
  (fun _ events => listed VolumeReportedReq (map (fun event => get event AttributeKeyEpoch) events)).

Definition SlashingResourceNode : Report := mkReport
  [AttributeKeyNetworkAddress; AttributeKeyNodeSuspended; AttributeKeyAmount]
  EventTypeSlashing "/pp/slashed"
  (fun txHash events => listed (fun l => SlashedPPReq l txHash) (omap (fun event =>
     suspended ← ParseBool (get event AttributeKeyNodeSuspended);
     slashedAmt ← SetString 10 (string_bytes (get event AttributeKeyAmount));
     Some (mkSlashed (get event AttributeKeyNetworkAddress) false suspended slashedAmt)) events)).

(** Only events about nodes that are no longer suspended are passed on. *)
Definition UpdateEffectiveDeposit : Report := mkReport
  [AttributeKeyNetworkAddress; AttributeKeyIsUnsuspended; AttributeKeyEffectiveDepositAfter]
  EventTypeUpdateEffectiveDeposit "/pp/updatedEffectiveDeposit"
  (fun txHash events => listed (fun l => UpdatedEffectiveDepositPPReq l txHash) (omap (fun event =>
     isUnsuspended ← ParseBool (get event AttributeKeyIsUnsuspended);
     effectiveDepositAfter ← SetString 10 (string_bytes (get event AttributeKeyEffectiveDepositAfter));
     if negb isUnsuspended then None
     else Some (mkEffective (get event AttributeKeyNetworkAddress) isUnsuspended effectiveDepositAfter)) events)).

(** EvmTxHandler: the first event of a known type; only EventPrePay is known. *)
Definition EvmTxRequiredAttributes (eventType : string) : option (list string) :=
  if bool_decide (eventType = EventTypePrepay) then Some [AttributeKeySender; AttributeKeyBeneficiary; AttributeKeyPurchasedNoz] else None.

Fixpoint processEvmTxEvents (events : list Event) : option attrs * string :=
  match events with
  | [] => (None, EmptyString)
  | event :: events =>
      match EvmTxRequiredAttributes (EType event) with
      | None => processEvmTxEvents events
      | Some required => (if missing (attributes event) required then None else Some (attributes event), EType event)
      end
  end.

Definition EvmTxHandler (result : ResultEvent) (s : Relay) : res Relay :=
  match RData result with
  | OtherData => Ok s
  | EventDataTx events =>
      match processEvmTxEvents events with
      | (Some event, evmTxEventType) =>
          if bool_decide (evmTxEventType = EventTypePrepay) then process Prepay (getTxHash result) [event] s else Ok s
      | (None, _) => Ok s
      end
  end.

(** CreateMetaNodeMsgHandler only logs. *)
Definition CreateMetaNodeMsgHandler (result : ResultEvent) (s : Relay) : res Relay := Ok s.

Definition Handlers : gmap string (ResultEvent → Relay → res Relay) := list_to_map [
  (MSG_TYPE_CREATE_RESOURCE_NODE, handle CreateResourceNode);
  (MSG_TYPE_UPDATE_RESOURCE_NODE, handle UpdateResourceNode);
  (MSG_TYPE_UPDATE_RESOURCE_NODE_DEPOSIT, handle UpdateResourceNodeDeposit);
  (MSG_TYPE_REMOVE_RESOURCE_NODE, handle UnbondingResourceNode);
  (MSG_TYPE_CREATE_META_NODE, CreateMetaNodeMsgHandler);
  (MSG_TYPE_UPDATE_META_NODE_DEPOSIT, handle UpdateMetaNodeDeposit);
  (MSG_TYPE_REMOVE_META_NODE, handle UnbondingMetaNode);
  (MSG_TYPE_KICK_META_NODE_VOTE, handle UnbondingMetaNode);
  (MSG_TYPE_META_NODE_REG_VOTE, handle MetaNodeVote);
  (MSG_TYPE_PREPAY, handle Prepay);
  (MSG_TYPE_FILE_UPLOAD, handle FileUpload);
  (MSG_TYPE_VOLUME_REPORT, handle VolumeReport);
  (MSG_TYPE_SLASHING_RESOURCE_NODE, handle SlashingResourceNode);
  (MSG_TYPE_UPDATE_EFFECTIVE_DEPOSIT, handle UpdateEffectiveDeposit);
  (MSG_TYPE_EVM_TX, EvmTxHandler)].

(** ** Where the events come from *)

(** A transaction's response: its hash and, for every message, its events. *)
Record TxResponse := mkResponse { Txhash : string; Logs : list (list Event) }.

Definition ExtractEventsFromTxResponse (response : TxResponse) : list ResultEvent :=
  map (fun events => mkResult EmptyString (EventDataTx events) {["tx.hash" := [Txhash response]]})
      (filter (fun events => events ≠ []) (Logs response)).

(** The first message.action attribute. *)
Fixpoint first_action (events : list Event) : string :=
  match events with
  | [] => EmptyString
  | event :: events =>
      if bool_decide (EType event ≠ "message") then first_action events
      else match List.find (fun a => bool_decide (AKey a = "action")) (Attributes event) with
           | Some a => AValue a
           | None => first_action events
           end
  end.
Definition GetMsgType (result : ResultEvent) : string :=
  match RData result with EventDataTx events => first_action events | OtherData => EmptyString end.

(** The handlers that stratoschain.BroadcastTx starts, each in a goroutine of its own, when the
    transaction was sent by the relayer. *)
Definition broadcast_handlers (response : TxResponse) : list ((ResultEvent → Relay → res Relay) * ResultEvent) :=
  match Logs response with
  | [] => []
  | _ => omap (fun event => h ← Handlers !! GetMsgType event; Some (h, event)) (ExtractEventsFromTxResponse response)
  end.

(** *** The websocket *)

Definition NEW_BLOCK_QUERY : string := "tm.event='NewBlock'".
Definition action_query (msgType : string) : string := ("message.action='" ++ msgType ++ "'")%string.

(** The queries of subscribeAllQueries. *)
Definition subscribeAllQueries : list string := NEW_BLOCK_QUERY :: map (fun kv => action_query kv.1) (map_to_list Handlers).

Definition quote : byte := Byte.x27.
Definition dquote : byte := Byte.x22.
Definition unquoted (s : string) : string :=
  let b := string_bytes s in
  match b with
  | q :: rest =>
      if bool_decide (2 ≤ length b)%nat && bool_decide (q = dquote) && bool_decide (b !! (length b - 1)%nat = Some dquote)
      then bytes_string (take (length rest - 1) rest) else s
  | [] => s
  end.

Definition cleanEventStrings (result : ResultEvent) : ResultEvent :=
  mkResult (Query result)
    (match RData result with
     | EventDataTx events => EventDataTx (map (fun event => mkEvent (EType event) (map (fun a => mkAttr (AKey a) (unquoted (AValue a))) (Attributes event))) events)
     | OtherData => OtherData
     end)
    (map unquoted <$> REvents result).

(** fmt.Sscanf with the format "message.action='%v'" for ASCII text without a line break: the literal part,
    then spaces, then what is not a space.  That takes the closing quote with it, so the rest of
    the format never matches, an error that does not count when one item was scanned. *)
Definition space (c : byte) : bool := let z := Z_of_byte c in bool_decide (9 ≤ z ≤ 13) || bool_decide (z = 32).
Fixpoint skip_spaces (b : bytes) : bytes := match b with c :: b' => if space c then skip_spaces b' else b | [] => [] end.
Fixpoint word (b : bytes) : bytes := match b with c :: b => if space c then [] else c :: word b | [] => [] end.
Definition action_prefix : bytes := string_bytes "message.action='".
Definition Sscanf_action (query : string) : option bytes :=
  let b := string_bytes query in
  if bool_decide (take (length action_prefix) b = action_prefix) then
    match word (skip_spaces (drop (length action_prefix) b)) with [] => None | w => Some w end
  else None.

(** strings.TrimRight(s, "'") *)
Fixpoint trim_quotes (b : bytes) : bytes :=
  match b with
  | [] => []
  | c :: b => match trim_quotes b with [] => if bool_decide (c = quote) then [] else [c] | b => c :: b end
  end.

(** What readerLoop gets from the websocket; [already] tells ErrAlreadySubscribed. *)
Inductive Response := WsError (already : bool) | BadJson | WsResult (result : ResultEvent).

(** What an iteration does: the new state, whether the waiting broadcaster is told of a block, and
    whether the queries are subscribed to again. *)
Definition readerLoop_step (resp : Response) (s : Relay) : res (Relay * bool * bool) :=
  match resp with
  | WsError already => Ok (s, false, negb already)
  | BadJson => Ok (s, false, false)
  | WsResult result =>
      if bool_decide (Query result = NEW_BLOCK_QUERY) then Ok (s, true, false)
      else
        match Sscanf_action (Query result) with
        | None => Ok (s, false, false)
        | Some w =>
            match Handlers !! bytes_string (trim_quotes w) with
            | Some handler => s ← handler (cleanEventStrings result) s; Ok (s, false, false)
            | None => Ok (s, false, false)
            end
        end
  end.

(** ** What the handlers look for *)

(** The value of an attribute: the last one, when it is given several times. *)
Definition last_value (key : string) (l : list EventAttribute) : option string :=
  foldl (fun v a => if bool_decide (AKey a = key) then Some (AValue a) else v) None l.

Lemma attributes_lookup event key : attributes event !! key = last_value key (Attributes event).
Proof.
  unfold attributes, last_value. replace (None : option string) with ((∅ : attrs) !! key) by apply lookup_empty.
  generalize (∅ : attrs). induction (Attributes event) as [|a l IH]; intros m; cbn; [done|]. rewrite IH. f_equal.
  case_bool_decide as H; [by rewrite H, lookup_insert_eq|by rewrite lookup_insert_ne].
Qed.

(** The events of a type that have all attributes, in their order. *)
Definition complete (r : Report) (event : Event) : Prop :=
  EType event = eventType r ∧ Forall (fun a => is_Some (last_value a (Attributes event))) (requiredAttributes r).
#[global] Instance complete_dec r event : Decision (complete r event) := _.

Definition wanted (r : Report) (events : list Event) : list attrs := map attributes (filter (complete r) events).

Lemma missing_false event required : missing (attributes event) required = false ↔ Forall (fun a => is_Some (last_value a (Attributes event))) required.
Proof.
  unfold missing. induction required as [|a required IH]; cbn; [done|]. rewrite orb_false_iff, IH, bool_decide_eq_false, attributes_lookup.
  split; [intros [H1 H2]; constructor; [by apply not_eq_None_Some|done]|]. intros H. inversion H; subst. split; [by apply not_eq_None_Some|done].
Qed.

(** The loop collects exactly the complete events, and counts those of the type. *)
Lemma processEvents_exact r events :
  processEvents events (eventType r) (requiredAttributes r)
  = (wanted r events, zlen (filter (fun e => EType e = eventType r) events)).
Proof.
  unfold wanted. induction events as [|e events IH]; [done|]. cbn [processEvents]. rewrite IH. unfold zlen. case_bool_decide as Ht.
  - rewrite !filter_cons_False; [done|intros H; by apply Ht|intros [H _]; by apply Ht].
  - rewrite (filter_cons_True (fun e => EType e = eventType r) e) by done. destruct (missing _ _) eqn:E.
    + rewrite filter_cons_False; [cbn [length]; f_equal; lia|]. intros [_ H]. apply missing_false in H. by rewrite H in E.
    + apply missing_false in E. rewrite filter_cons_True by done. cbn [length map]. f_equal. lia.
Qed.

(** ** The specification: a ledger of what was reported within the last minute *)

(** What a handler is to do with a result: a report, the hash and the events for it. *)
Definition Job : Type := Report * string * list attrs.

Definition reports : list (string * Report) := [
  (MSG_TYPE_CREATE_RESOURCE_NODE, CreateResourceNode); (MSG_TYPE_UPDATE_RESOURCE_NODE, UpdateResourceNode);
  (MSG_TYPE_UPDATE_RESOURCE_NODE_DEPOSIT, UpdateResourceNodeDeposit); (MSG_TYPE_REMOVE_RESOURCE_NODE, UnbondingResourceNode);
  (MSG_TYPE_UPDATE_META_NODE_DEPOSIT, UpdateMetaNodeDeposit); (MSG_TYPE_REMOVE_META_NODE, UnbondingMetaNode);
  (MSG_TYPE_KICK_META_NODE_VOTE, UnbondingMetaNode); (MSG_TYPE_META_NODE_REG_VOTE, MetaNodeVote);
  (MSG_TYPE_PREPAY, Prepay); (MSG_TYPE_FILE_UPLOAD, FileUpload); (MSG_TYPE_VOLUME_REPORT, VolumeReport);
  (MSG_TYPE_SLASHING_RESOURCE_NODE, SlashingResourceNode); (MSG_TYPE_UPDATE_EFFECTIVE_DEPOSIT, UpdateEffectiveDeposit)].

(** An EVM transaction reports its first prepayment. *)
Definition evm_job (result : ResultEvent) (events : list Event) : option Job :=
  match List.find (fun e => bool_decide (EType e = EventTypePrepay)) events with
  | Some e => if decide (complete Prepay e) then Some (Prepay, getTxHash result, [attributes e]) else None
  | None => None
  end.

Definition job (msgType : string) (result : ResultEvent) : option Job :=
  match RData result with
  | OtherData => None
  | EventDataTx events =>
      if bool_decide (msgType = MSG_TYPE_EVM_TX) then evm_job result events
      else match List.find (fun x => bool_decide (x.1 = msgType)) reports with
           | Some (_, r) => Some (r, getTxHash result, wanted r events)
           | None => None
           end
  end.

Definition job_post (j : Job) : option (string * Req) := let '(r, t, es) := j in (fun req => (endpoint r, req)) <$> request r t es.

Lemma process_evm_events events : processEvmTxEvents events =
  match List.find (fun e => bool_decide (EType e = EventTypePrepay)) events with
  | Some e => (if decide (complete Prepay e) then Some (attributes e) else None, EventTypePrepay)
  | None => (None, EmptyString)
  end.
Proof.
  induction events as [|e events IH]; [done|]. cbn [processEvmTxEvents List.find]. unfold EvmTxRequiredAttributes. case_bool_decide as Ht; [|exact IH].
  rewrite Ht. change [AttributeKeySender; AttributeKeyBeneficiary; AttributeKeyPurchasedNoz] with (requiredAttributes Prepay). f_equal.
  destruct (missing _ _) eqn:E; case_decide as H; try done.
  - destruct H as [_ H]. apply missing_false in H. by rewrite H in E.
  - exfalso. apply H. split; [done|]. by apply missing_false.
Qed.

Definition run_job (j : option Job) (s : Relay) : res Relay :=
  match j with Some (r, t, es) => process r t es s | None => Ok s end.

Lemma handle_job r result s : handle r result s =
  run_job (match RData result with EventDataTx events => Some (r, getTxHash result, wanted r events) | OtherData => None end) s.
Proof. unfold handle. destruct (RData result) as [events|]; [|done]. by rewrite processEvents_exact. Qed.

(** Every registered handler does its job. *)
Lemma handlers_do_jobs msgType h result s : Handlers !! msgType = Some h → h result s = run_job (job msgType result) s.
Proof.
  intros H. apply elem_of_list_to_map_2 in H. unfold job. repeat (apply elem_of_cons in H as [H|H]); [..|by apply not_elem_of_nil in H]; injection H as -> ->;
    try (rewrite handle_job; by destruct (RData result)); [by destruct (RData result)|].
  unfold EvmTxHandler. destruct (RData result) as [events|]; [|done]. rewrite process_evm_events. rewrite (bool_decide_eq_true_2 (MSG_TYPE_EVM_TX = _)) by done.
  unfold evm_job. destruct (List.find _ events); [|done]. destruct (decide _); [|reflexivity].
  rewrite (bool_decide_eq_true_2 (EventTypePrepay = _)) by reflexivity. cbn [run_job]. reflexivity.
Qed.

(** Deliveries of results to handlers, and the passing of time. *)
Inductive delivery := Deliver (msgType : string) (result : ResultEvent) | Pause (d : Z).

Definition deliver (d : delivery) (s : Relay) : res Relay :=
  match d with
  | Deliver msgType result => match Handlers !! msgType with Some h => h result s | None => Ok s end
  | Pause d => Ok (mkRelay (advance d (cache s)) (posts s))
  end.
Fixpoint deliver_all (ds : list delivery) (s : Relay) : res Relay :=
  match ds with [] => Ok s | d :: ds => s ← deliver d s; deliver_all ds s end.

(** What a report is about: the type of its events, the transaction, and the required values of
    each event. *)
Definition Id : Type := string * string * list (list string).
Definition job_id (j : Job) : Id :=
  let '(r, t, es) := j in (eventType r, t, map (fun e => map (get e) (requiredAttributes r)) es).

(** The ledger holds the time of the last delivery of each, the clock and the posts. *)
Record Ledger := mkLedger { last_seen : gmap Id Z; time : Z; posted : list (string * Req) }.

Definition recent (id : Id) (l : Ledger) : bool :=
  match last_seen l !! id with Some t => bool_decide (time l < t + minute) | None => false end.

Definition ledger_job (j : Job) (l : Ledger) : Ledger :=
  mkLedger (<[job_id j := time l]> (last_seen l)) (time l)
    (posted l ++ if recent (job_id j) l then [] else match job_post j with Some p => [p] | None => [] end).

Definition ledger_step (d : delivery) (l : Ledger) : Ledger :=
  match d with
  | Deliver msgType result =>
      if bool_decide (is_Some (Handlers !! msgType)) then match job msgType result with Some j => ledger_job j l | None => l end else l
  | Pause d => mkLedger (last_seen l) (time l + d) (posted l)
  end.
Definition ledger (ds : list delivery) : Ledger := foldl (fun l d => ledger_step d l) (mkLedger ∅ 0 []) ds.

Definition delivered_job (d : delivery) : option Job :=
  match d with Deliver msgType result => job msgType result | Pause _ => None end.
Definition jobs (ds : list delivery) : list Job := omap delivered_job ds.

Definition job_tx (j : Job) : string := j.1.2.
Definition first_attribute (j : Job) : option string := head (requiredAttributes j.1.1).

(** The hashes of the transactions have one length, and two results of one transaction are about
    the same or about events of which a different attribute is looked at first, as are those of
    different kinds of messages. *)
Definition one_of_a_kind (js : list Job) : Prop :=
  (∃ n, ∀ j, j ∈ js → length (string_bytes (job_tx j)) = n)
  ∧ ∀ j1 j2, j1 ∈ js → j2 ∈ js → job_tx j1 = job_tx j2 → job_id j1 = job_id j2 ∨ first_attribute j1 ≠ first_attribute j2.

(** Keccak-256 as a function, and no collision of it among some data. *)
Definition keccak (b : bytes) : bytes := sponge 136 Byte.x01 32 b.
Definition no_collision (bs : list bytes) : Prop := ∀ b1 b2, b1 ∈ bs → b2 ∈ bs → keccak b1 = keccak b2 → b1 = b2.

(** ** Keys tell what reports are about *)

Definition job_bytes (j : Job) : bytes := let '(r, t, es) := j in raw_key (requiredAttributes r) es t.
Definition stored_key (j : Job) : string := bytes_string (keccak (job_bytes j)).

Lemma evm_job_report result events j : evm_job result events = Some j → j.1.1 = Prepay.
Proof. unfold evm_job. destruct (List.find _ _); [|done]. destruct (decide _); [|done]. by intros [= <-]. Qed.

Lemma job_report msgType result j : job msgType result = Some j → j.1.1 ∈ map snd reports.
Proof.
  unfold job. destruct (RData result) as [events|]; [|done]. case_bool_decide.
  - intros ->%evm_job_report. do 8 right. left.
  - destruct (List.find _ reports) as [[m r]|] eqn:E; [|done]. intros [= <-]. apply List.find_some in E as [E _].
    apply list_elem_of_fmap. exists (m, r). split; [done|]. by apply list_elem_of_In.
Qed.

Lemma jobs_report ds j : j ∈ jobs ds → j.1.1 ∈ map snd reports.
Proof. intros ([m result|] & _ & H)%list_elem_of_omap; [by apply job_report in H|done]. Qed.

(** Reports with one event type look at the same attributes; no name of a first attribute starts
    with the name of another. *)
Lemma reports_checked :
  forallb (fun r1 => forallb (fun r2 =>
    (bool_decide (eventType r1 ≠ eventType r2) || bool_decide (requiredAttributes r1 = requiredAttributes r2))
    && match requiredAttributes r1, requiredAttributes r2 with
       | a1 :: _, a2 :: _ => bool_decide (a1 = a2) || bool_decide (¬ string_bytes a1 `prefix_of` string_bytes a2)
       | _, _ => false
       end) (map snd reports)) (map snd reports) = true.
Proof. vm_compute. reflexivity. Qed.

Lemma reports_check r1 r2 : r1 ∈ map snd reports → r2 ∈ map snd reports →
  (eventType r1 = eventType r2 → requiredAttributes r1 = requiredAttributes r2)
  ∧ ∃ a1 as1 a2 as2, requiredAttributes r1 = a1 :: as1 ∧ requiredAttributes r2 = a2 :: as2
      ∧ (a1 = a2 ∨ ¬ string_bytes a1 `prefix_of` string_bytes a2).
Proof.
  intros H1%list_elem_of_In H2%list_elem_of_In. pose proof reports_checked as H. rewrite forallb_forall in H.
  specialize (H _ H1). cbn beta in H. rewrite forallb_forall in H. specialize (H _ H2). apply andb_true_iff in H as [Ht Ha]. split.
  - intros E. apply orb_true_iff in Ht as [Ht|Ht]; apply bool_decide_eq_true in Ht; [by destruct Ht|done].
  - destruct (requiredAttributes r1) as [|a1 as1]; [done|]. destruct (requiredAttributes r2) as [|a2 as2]; [done|].
    do 4 eexists. do 2 (split; [done|]). apply orb_true_iff in Ha as [Ha|Ha]; apply bool_decide_eq_true in Ha; auto.
Qed.

(** A key is the hash of the transaction and then the values, attribute by attribute. *)
Definition columns (req : list string) (es : list attrs) : bytes :=
  flat_map (fun a => string_bytes a ++ flat_map (fun e => string_bytes (get e a)) es) req.
Lemma raw_key_columns req es t : raw_key req es t = string_bytes t ++ columns req es.
Proof. reflexivity. Qed.

(** A column of the required values. *)
Lemma rows_column req es1 es2 a :
  map (fun e : attrs => map (get e) req) es1 = map (fun e => map (get e) req) es2 → a ∈ req →
  flat_map (fun e => string_bytes (get e a)) es1 = flat_map (fun e => string_bytes (get e a)) es2.
Proof.
  intros H Ha. revert es2 H. induction es1 as [|e1 es1 IH]; intros [|e2 es2] H; try done. cbn in H. injection H as He H.
  cbn. rewrite (IH es2 H). do 2 f_equal. revert He. clear -Ha. induction Ha as [|a b req Ha IH]; cbn; intros [= H1 H2]; auto.
Qed.

Lemma raw_key_rows req es1 es2 t :
  map (fun e : attrs => map (get e) req) es1 = map (fun e => map (get e) req) es2 → raw_key req es1 t = raw_key req es2 t.
Proof.
  intros H. rewrite !raw_key_columns. f_equal. unfold columns.
  assert (∀ a, a ∈ req → flat_map (fun e => string_bytes (get e a)) es1 = flat_map (fun e => string_bytes (get e a)) es2) as Hc
    by (intros a; by apply rows_column).
  clear H. induction req as [|a l IH]; [done|]. cbn. rewrite (Hc a) by left. f_equal. apply IH.
  intros b Hb. apply Hc. by right.
Qed.

(** Reports about the same have the same key, *)
Lemma same_id_same_key ds j1 j2 : j1 ∈ jobs ds → j2 ∈ jobs ds → job_id j1 = job_id j2 → stored_key j1 = stored_key j2.
Proof.
  intros H1%jobs_report H2%jobs_report. destruct j1 as [[r1 t1] es1], j2 as [[r2 t2] es2]. cbn in H1, H2 |- *. intros [= Ht <- Hr].
  unfold stored_key, job_bytes. rewrite <- (proj1 (reports_check r1 r2 H1 H2) Ht) in Hr |- *. by rewrite (raw_key_rows _ _ _ _ Hr).
Qed.

(** and those about different things have different ones. *)
Lemma same_key_same_id ds j1 j2 : one_of_a_kind (jobs ds) → no_collision (map job_bytes (jobs ds)) →
  j1 ∈ jobs ds → j2 ∈ jobs ds → stored_key j1 = stored_key j2 → job_id j1 = job_id j2.
Proof.
  intros [[n Hn] Hk] Hc H1 H2 E. apply (f_equal string_bytes) in E. unfold stored_key in E. rewrite !string_bytes_string in E.
  apply Hc in E; [|by apply list_elem_of_fmap_2..].
  pose proof (Hn j1 H1) as L1. pose proof (Hn j2 H2) as L2. pose proof (Hk j1 j2 H1 H2) as Hk'. apply jobs_report in H1, H2.
  destruct j1 as [[r1 t1] es1], j2 as [[r2 t2] es2].
  unfold job_tx, first_attribute in *. cbn [fst snd job_bytes] in *. rewrite !raw_key_columns in E. apply app_inj_1 in E as [Et E]; [|congruence].
  apply (f_equal bytes_string) in Et. rewrite !bytes_string_bytes in Et. destruct (Hk' Et) as [?|Hf]; [done|]. exfalso.
  destruct (reports_check r1 r2 H1 H2) as (_ & a1 & as1 & a2 & as2 & R1 & R2 & Hp).
  destruct (reports_check r2 r1 H2 H1) as (_ & b2 & bs2 & b1 & bs1 & Q2 & Q1 & Hq).
  rewrite R1, R2 in E, Hf. rewrite R1 in Q1. rewrite R2 in Q2. injection Q1 as <- <-. injection Q2 as <- <-.
  assert (a1 ≠ a2) as Hne by (intros ->; by apply Hf). destruct Hp as [?|Hp]; [done|]. destruct Hq as [?|Hq]; [done|].
  unfold columns in E. cbn [flat_map] in E. rewrite <- !app_assoc in E.
  destruct (prefix_weak_total (string_bytes a1) (string_bytes a2) (string_bytes a1 ++ flat_map (fun e => string_bytes (get e a1)) es1 ++
    flat_map (fun a => string_bytes a ++ flat_map (fun e => string_bytes (get e a)) es1) as1)) as [?|?]; [by eexists| |done|done].
  rewrite E. by eexists.
Qed.

Section Refinement.
Context `{!SpongeIOLaws IO}.

Lemma Keccak256_keccak b : Keccak256 b = Ok (keccak b).
Proof. unfold Keccak256. by destruct (one_shot_hashes b 0) as (_ & _ & _ & _ & -> & _). Qed.

Lemma getCacheKey_ok r es t : getCacheKey (requiredAttributes r) es t = Ok (stored_key (r, t, es)).
Proof. unfold getCacheKey. by rewrite Keccak256_keccak. Qed.

(** What the cache holds of a report, as the ledger has it. *)
Definition expected (l : Ledger) (id : Id) : option (bool * Z) :=
  t ← last_seen l !! id; if bool_decide (time l < t + minute) then Some (true, t) else None.

Definition agree (js : list Job) (s : Relay) (l : Ledger) : Prop :=
  posts s = posted l ∧ ∃ h, sim minute (cache s) h ∧ clock h = time l ∧ ∀ j, j ∈ js → entries h !! stored_key j = expected l (job_id j).

Lemma expected_job l j id :
  expected (ledger_job j l) id = if decide (id = job_id j) then Some (true, time l) else expected l id.
Proof.
  unfold expected, ledger_job. cbn [last_seen time]. destruct (decide _) as [->|Hn].
  - rewrite lookup_insert_eq. cbn [mbind option_bind]. by rewrite bool_decide_eq_true_2 by (unfold minute; lia).
  - by rewrite lookup_insert_ne.
Qed.

Lemma recent_expected l id : recent id l = bool_decide (is_Some (expected l id)).
Proof.
  unfold recent, expected. destruct (last_seen l !! id) as [t|]; cbn [mbind option_bind]; [|done].
  case_bool_decide; symmetry; [apply bool_decide_eq_true_2; by eexists|apply bool_decide_eq_false_2; by intros []].
Qed.

Lemma agree_job ds j s l : one_of_a_kind (jobs ds) → no_collision (map job_bytes (jobs ds)) → j ∈ jobs ds →
  agree (jobs ds) s l → ∃ s', run_job (Some j) s = Ok s' ∧ agree (jobs ds) s' (ledger_job j l).
Proof.
  intros Hk Hc Hj (Hp & h & Hs & Ht & He). destruct j as [[r t] es].
  cbn [run_job]. unfold process, check_cache. rewrite getCacheKey_ok. cbn [mbind res_bind]. set (j := (r, t, es)) in *.
  destruct (sim_load minute (cache s) h (stored_key j) ltac:(done) Hs) as [Hl Hs']. destruct (Load _ _ _) as [found c]. cbn [fst snd] in *.
  cbn [mbind res_bind]. eexists. split; [done|]. subst found. rewrite (He j Hj).
  assert (∀ j', j' ∈ jobs ds → if decide (job_id j' = job_id j) then stored_key j' = stored_key j else stored_key j' ≠ stored_key j) as Hkey.
  { intros j' Hj'. destruct (decide _) as [E|E]; [by apply (same_id_same_key ds)|]. intros E'. by apply E, (same_key_same_id ds). }
  pose proof (He j Hj) as Ej. destruct (expected l (job_id j)) as [[v t0]|] eqn:E; cbn [fmap option_fmap option_map fst].
  - assert (v = true) as -> by (unfold expected in E; destruct (last_seen l !! _); [|done]; cbn in E; case_bool_decide; by simplify_eq).
    split; [cbn [posts posted ledger_job]; by rewrite recent_expected, E, app_nil_r|]. eexists. split; [exact Hs'|]. cbn [entries clock]. split; [done|].
    intros j' Hj'. specialize (Hkey j' Hj'). rewrite expected_job. destruct (decide _).
    + by rewrite Hkey, lookup_alter_eq, Ej, <- Ht.
    + rewrite lookup_alter_ne by congruence. by apply He.
  - unfold finish. cbn [task_key task_post]. split.
    + cbn [posted ledger_job]. rewrite recent_expected, E, bool_decide_eq_false_2 by (by intros []). unfold job_post, j.
      destruct (request r t es); cbn; [by rewrite Hp|by rewrite Hp, app_nil_r].
    + exists (mkSpec (<[stored_key j := (true, clock h)]> (entries h)) (clock h)). split; [|split; [done|]].
      * rewrite (alter_id _ (entries h) (stored_key j)) in Hs' by (intros x Hx; by rewrite Ej in Hx).
        apply (sim_store minute _ _ (stored_key j) true) in Hs'; [|done]. cbn [entries clock] in Hs'. by destruct (request r t es).
      * cbn [entries]. intros j' Hj'. specialize (Hkey j' Hj'). rewrite expected_job. destruct (decide _).
        -- by rewrite Hkey, lookup_insert_eq, Ht.
        -- rewrite lookup_insert_ne by congruence. by apply He.
Qed.

Lemma expected_pause l d id : 0 ≤ d →
  expected (mkLedger (last_seen l) (time l + d) (posted l)) id
  = (e ← expected l id; if bool_decide (time l + d < e.2 + minute) then Some e else None).
Proof.
  intros Hd. unfold expected. cbn [last_seen time]. destruct (last_seen l !! id) as [t|]; cbn; [|done].
  repeat case_bool_decide; cbn; try done; try lia; by rewrite ?bool_decide_eq_true_2, ?bool_decide_eq_false_2 by (cbn; lia).
Qed.

Lemma agree_step ds d s l : one_of_a_kind (jobs ds) → no_collision (map job_bytes (jobs ds)) → d ∈ ds →
  (if d is Pause t then 0 ≤ t else True) → agree (jobs ds) s l →
  ∃ s', deliver d s = Ok s' ∧ agree (jobs ds) s' (ledger_step d l).
Proof.
  intros Hk Hc Hin Hd Ha. destruct d as [msgType result|d]; cbn [deliver ledger_step].
  - destruct (Handlers !! msgType) as [h|] eqn:E.
    2:{ exists s. split; [reflexivity|]. rewrite bool_decide_eq_false_2 by (by intros []). exact Ha. }
    rewrite bool_decide_eq_true_2 by done. rewrite (handlers_do_jobs msgType h) by done.
    destruct (job msgType result) as [j|] eqn:Ej; [|exists s; split; [reflexivity|exact Ha]]. apply agree_job; [done..| |done].
    apply list_elem_of_omap. exists (Deliver msgType result). split; [exact Hin|exact Ej].
  - eexists. split; [done|]. destruct Ha as (Hp & h & Hs & Ht & He). split; [done|]. eexists. split; [exact (sim_advance minute (cache s) h d Hd Hs)|].
    cbn [entries clock]. split; [cbn; by rewrite Ht|]. intros j Hj. rewrite map_lookup_filter, (He j Hj), expected_pause, Ht by done.
    destruct (expected l (job_id j)); [|done]. cbn. case_guard; by case_bool_decide.
Qed.

End Refinement.

(** ** Queries and handlers *)

(** Every handler is reached by the events it is for: its query is subscribed to, and a result
    for this query, which the loop takes apart with Sscanf, runs the handler on the result with
    its values out of their quotes. *)
Theorem subscriptions_reach_handlers msgType h result s :
  Handlers !! msgType = Some h → Query result = action_query msgType →
  action_query msgType ∈ subscribeAllQueries
  ∧ readerLoop_step (WsResult result) s = (s' ← h (cleanEventStrings result) s; Ok (s', false, false)).
Proof.
  intros H Hq. split.
  - right. apply list_elem_of_fmap. exists (msgType, h). split; [done|]. by apply elem_of_map_to_list.
  - cbn [readerLoop_step]. rewrite Hq.
    assert (action_query msgType ≠ NEW_BLOCK_QUERY ∧ ∃ w, Sscanf_action (action_query msgType) = Some w ∧ bytes_string (trim_quotes w) = msgType) as [Hn (w & -> & ->)].
    { apply elem_of_list_to_map_2 in H. repeat (apply elem_of_cons in H as [H|H]); [..|by apply not_elem_of_nil in H]; injection H as -> _;
        (split; [discriminate|]; eexists; split; reflexivity). }
    rewrite bool_decide_eq_false_2 by done. by rewrite H.
Qed.

End ChainEvents.

(** ** Examples *)

Module ChainEventsDemo.
#[local] Existing Instance generic_io.

Definition fresh : Relay := mkRelay (NewAutoCleanMap 0) [].
Definition prepay (who amount : string) : Event :=
  mkEvent EventTypePrepay [mkAttr AttributeKeySender "st1a"; mkAttr AttributeKeyBeneficiary who; mkAttr AttributeKeyPurchasedNoz amount].
Definition action (msgType : string) : Event := mkEvent "message" [mkAttr "action" msgType].
Definition tx_result (msgType : string) (events : list Event) : ResultEvent :=
  mkResult (action_query msgType) (EventDataTx events) {["tx.hash" := ["AB"]]}.
Definition paid : string * Req := ("/pp/prepaid", PrepaidReq [mkPrepaid "st1b" "9" "AB"]).

Definition again : list delivery :=
  let d := Deliver MSG_TYPE_PREPAY (tx_result MSG_TYPE_PREPAY [action MSG_TYPE_PREPAY; prepay "st1b" "9"]) in
  [d; Pause 59; d; Pause 59; d; Pause 60; d].

(** The same payment in another transaction, and an upload in the first one. *)
Definition elsewhere : delivery :=
  Deliver MSG_TYPE_PREPAY (mkResult (action_query MSG_TYPE_PREPAY) (EventDataTx [prepay "st1b" "9"]) {["tx.hash" := ["CD"]]}).
Definition upload : delivery :=
  Deliver MSG_TYPE_FILE_UPLOAD (tx_result MSG_TYPE_FILE_UPLOAD
    [mkEvent EventTypeFileUpload [mkAttr AttributeKeyReporter "r"; mkAttr AttributeKeyUploader "u"; mkAttr AttributeKeyFileHash "f"]]).
Definition all_deliveries : list delivery := again ++ [elsewhere; upload].

Lemma NoDup_map_inj {A B} (f : A → B) l x y : NoDup (map f l) → x ∈ l → y ∈ l → f x = f y → x = y.
Proof.
  intros H [i Hi]%list_elem_of_lookup [k Hk]%list_elem_of_lookup E.
  assert (map f l !! i = Some (f x)) as H1 by (by rewrite list_lookup_fmap, Hi).
  assert (map f l !! k = Some (f x)) as H2 by (by rewrite list_lookup_fmap, Hk, E).
  rewrite (NoDup_lookup _ _ _ _ H H1 H2) in Hi. congruence.
Qed.

Definition hashed (b : bytes) : bytes := match Keccak256 b with Ok h => h | _ => [] end.


Lemma subscriptions_reach_handlers_witness :
  let r := tx_result MSG_TYPE_PREPAY [prepay "st1b" "9"] in
  readerLoop_step (WsResult r) fresh = (s' ← handle Prepay (cleanEventStrings r) fresh; Ok (s', false, false)).
Proof.
  intros r. apply (subscriptions_reach_handlers MSG_TYPE_PREPAY (handle Prepay) r fresh); [|reflexivity].
  apply elem_of_list_to_map_1; [apply (bool_decide_eq_true_1 _); vm_compute; reflexivity|]. do 9 right. left.
Defined.

(** The chain quotes the values of typed events.  The websocket loop takes them out of the quotes,
    BroadcastTx does not: there a slashing is not recognised and nothing is posted, while the same
    transaction is reported when it comes through the websocket. *)
Definition quoted (s : string) : string := bytes_string (dquote :: string_bytes s ++ [dquote]).
Definition slashing : Event :=
  mkEvent EventTypeSlashing [mkAttr AttributeKeyNetworkAddress (quoted "stsds1"); mkAttr AttributeKeyNodeSuspended (quoted "true"); mkAttr AttributeKeyAmount (quoted "5")].
Definition slashing_tx : list Event := [action MSG_TYPE_SLASHING_RESOURCE_NODE; slashing].

Fixpoint run_handlers (hs : list ((ResultEvent → Relay → res Relay) * ResultEvent)) (s : Relay) : res Relay :=
  match hs with [] => Ok s | (h, e) :: hs => s ← h e s; run_handlers hs s end.

Example quoted_events_are_lost :
  posts <$> run_handlers (broadcast_handlers (mkResponse "AB" [slashing_tx])) fresh = Ok []
  ∧ (fun r => posts r.1.1) <$> readerLoop_step (WsResult (tx_result MSG_TYPE_SLASHING_RESOURCE_NODE slashing_tx)) fresh
    = Ok [("/pp/slashed", SlashedPPReq [mkSlashed "stsds1" false true 5] "AB")].
Proof. split; vm_compute; reflexivity. Qed.

(** A transaction with two messages has one result for each message in BroadcastTx, but one for
    both on the websocket, so the keys differ and its events are posted twice. *)
Example multi_message_tx_is_reported_twice :
  let one := [action MSG_TYPE_PREPAY; prepay "st1b" "9"] in
  let two := [action MSG_TYPE_PREPAY; prepay "st1c" "4"] in
  (s ← run_handlers (broadcast_handlers (mkResponse "AB" [one; two])) fresh;
   posts ∘ fst ∘ fst <$> readerLoop_step (WsResult (tx_result MSG_TYPE_PREPAY (one ++ two))) s)
  = Ok [paid; ("/pp/prepaid", PrepaidReq [mkPrepaid "st1c" "4" "AB"]);
        ("/pp/prepaid", PrepaidReq [mkPrepaid "st1b" "9" "AB"; mkPrepaid "st1c" "4" "AB"])].
Proof. vm_compute. reflexivity. Qed.

(** Two equal messages of one transaction are two results of BroadcastTx with the same key: the
    second payment is not reported. *)
Example equal_messages_are_reported_once :
  let one := [action MSG_TYPE_PREPAY; prepay "st1b" "9"] in
  posts <$> run_handlers (broadcast_handlers (mkResponse "AB" [one; one])) fresh = Ok [paid].
Proof. vm_compute. reflexivity. Qed.

(** Asking the cache and storing in it are two steps, and BroadcastTx runs handlers concurrently
    with the websocket loop: two of them can both find nothing and post the same. *)
Example concurrent_handlers_post_twice :
  let es := wanted Prepay [prepay "st1b" "9"] in
  ('(t1, s) ← check_cache Prepay "AB" es fresh;
   '(t2, s) ← check_cache Prepay "AB" es s;
   Ok (posts (default s (t2' ← t2; t1' ← t1; Some (finish t2' (finish t1' s)))))) = Ok [paid; paid].
Proof. vm_compute. reflexivity. Qed.

(** The values of an attribute run together in the key: reports of the epochs 1 and 23 and of
    the epochs 12 and 3 have the same. *)
Example keys_run_together :
  let epoch e := mkEvent EventTypeVolumeReport [mkAttr AttributeKeyEpoch e] in
  let report es := Deliver MSG_TYPE_VOLUME_REPORT (tx_result MSG_TYPE_VOLUME_REPORT (map epoch es)) in
  posts <$> deliver_all [report ["1"; "23"]; report ["12"; "3"]] fresh = Ok [("/volume/reported", VolumeReportedReq ["1"; "23"])].
Proof. vm_compute. reflexivity. Qed.
End ChainEventsDemo.
