(* ===== verification/Relayer.v ===== *)
(** * Relayer: messages of the SP, broadcast in transactions

    Models sdsConnection of relayer/client/sds_connection.go: the loop that reads the SP's websocket and
    puts messages into a channel, the loop that takes them out and broadcasts them in batches, the
    wait for a new block between two broadcasts, and stop.  A step of a goroutine is an event; what
    the network and the chain answer comes with it.  Building the transactions is [Tx], what their
    responses start is in [ChainEvents].  Connecting and reconnecting is not modelled. *)
From S2P Require Import Prelude Bytes Rlp RlpEncode BigMath Hex Sponge Coins DecCoins Tx ChainEvents.

(** ** State *)

(** The channel: nil, or open with what is buffered.  The buffer is meant to have a place. *)
Inductive Chan := ChanNil | ChanOpen (buffer : list UnsignedMsg).

(** The reader: at ReadMessage, or sending the messages it has read; [ReaderStuck] sends to the nil
    channel, which blocks for ever. *)
Inductive Reader := Reading | Sending (rest : list UnsignedMsg) | ReaderStuck (rest : list UnsignedMsg) | ReaderEnded.

(** The broadcaster: not started, at its select, or waiting for a block inside broadcastTxs. *)
Inductive Broadcaster := NotStarted | Selecting | AwaitingBlock | BroadcasterEnded.

(** A batch that was tried; [true] when it was broadcast. *)
Definition Batch : Type := list UnsignedMsg * bool.

Record SdsConn := mkSds {
  chan : Chan;
  reader : Reader;
  broadcaster : Broadcaster;
  cancelled : bool;
  recentBroadcast : bool;
  unsignedMsgs : list UnsignedMsg;
  (* what happened so far *)
  delivered : list UnsignedMsg;                     (* read from the SP *)
  batches : list Batch;
  blocks : Z;                                       (* new blocks the broadcaster waited for *)
  started : list TxResponse                         (* responses whose handlers were started *)
}.

Record Config := mkConfig {
  ChannelSize : nat;
  MaxMsgPerTx : Z;
  ConfigChainId : string;
  GasPrice : chars;
  denoms : Denoms;
  adjustGas : Z → Z;                                (* times GasAdjustment, cut to 64 bits *)
  WalletAddr : string;
  WalletPrivateKey : bytes
}.

(** What the chain answers during one broadcast. *)
Record Chain := mkChain {
  QueryAccount : string → res BaseAccount;
  GasUsed : bytes → res (option Z);
  ChainBroadcast : bytes → res TxResponse
}.

Section Relayer.
Context {L : TxLib} {SI : SdkInt} {SD : SdkDec}.

(** ** broadcastTxs *)

Definition setMsgInfoToTxBuilder (unsignedTx : Tx) (txMsgs : list Any) : Tx :=
  mkTx (Some (mkBody txMsgs EmptyString)) (Some (mkAuth [] (mkFee [] 0))) (Signatures unsignedTx).

Definition Int_Mul (a b : Z) : res Z := if Int_ok (a * b) then Ok (a * b) else Panic "Int overflow".

Definition set_Fee (fee : Fee) (tx : Tx) : res Tx :=
  match Auth tx with
  | None => Panic "nil pointer"
  | Some auth => Ok (mkTx (Body tx) (Some (mkAuth (SignerInfos auth) fee)) (Signatures tx))
  end.

(** From the end of the wait: the bytes that are sent to the chain. *)
Definition batch_tx (cfg : Config) (chain : Chain) (msgs : list UnsignedMsg) : res bytes :=
  '(txConfig, tx) ← CreateTxConfigAndTxBuilder;
  let tx := setMsgInfoToTxBuilder tx (map Msg msgs) in
  '(txBytes, tx) ← BuildTxBytes (QueryAccount chain) txConfig tx (ConfigChainId cfg) msgs;
  gasInfo ← GasUsed chain txBytes;
  match gasInfo with
  | None => Panic "nil pointer"
  | Some used =>
      let gasLimit := adjustGas cfg used in
      tx ← set_GasLimit gasLimit tx;
      gasPrice ← ParseCoinNormalized (denoms cfg) (GasPrice cfg);
      feeAmount ← Int_Mul (Amount gasPrice) gasLimit;
      fee ← NewCoin (Denom gasPrice) feeAmount;
      tx ← set_Fee (mkFee [(Denom fee, bytes_string (format_dec (Amount fee)))] gasLimit) tx;
      '(txBytes, _) ← BuildTxBytes (QueryAccount chain) txConfig tx (ConfigChainId cfg) msgs;
      Ok txBytes
  end.

(** stratoschain.BroadcastTx: the response, when the chain took the transaction. *)
Definition broadcast (cfg : Config) (chain : Chain) (msgs : list UnsignedMsg) : res TxResponse :=
  txBytes ← batch_tx cfg chain msgs; ChainBroadcast chain txBytes.

(** The rest of broadcastTxs after the wait.  An error is logged; a panic ends the loop. *)
Definition do_broadcast (cfg : Config) (chain : Chain) (c : SdsConn) : SdsConn :=
  let msgs := unsignedMsgs c in
  match broadcast cfg chain msgs with
  | Ok resp =>
      mkSds (chan c) (reader c) Selecting (cancelled c) true [] (delivered c) (batches c ++ [(msgs, true)]) (blocks c)
        (started c ++ [resp])
  | Err _ =>
      mkSds (chan c) (reader c) Selecting (cancelled c) false [] (delivered c) (batches c ++ [(msgs, false)]) (blocks c) (started c)
  | Panic _ =>
      mkSds (chan c) (reader c) BroadcasterEnded (cancelled c) false [] (delivered c) (batches c ++ [(msgs, false)]) (blocks c) (started c)
  end.

Definition broadcastTxs (cfg : Config) (chain : Chain) (c : SdsConn) : SdsConn :=
  if recentBroadcast c
  then mkSds (chan c) (reader c) AwaitingBlock (cancelled c) true (unsignedMsgs c) (delivered c) (batches c) (blocks c) (started c)
  else do_broadcast cfg chain c.

(** The wallet's key is added to the keys of its address that come without one. *)
Definition fill_key (cfg : Config) (k : SignatureKey) : SignatureKey :=
  if bool_decide (PrivateKey k = []) && bool_decide (Address k = WalletAddr cfg)
  then mkSigKey (AccountNum k) (AccountSequence k) (Address k) (WalletPrivateKey cfg) (KeyType k) else k.
Definition fill_keys (cfg : Config) (msg : UnsignedMsg) : UnsignedMsg :=
  mkUMsg (Msg msg) (map (fill_key cfg) (SignatureKeys msg)) (MsgType msg).

(** ** Steps *)

(** What ReadMessage and the decoding of its result give: an error of the connection, data that is
    no message to broadcast, or messages as bytes. *)
Inductive ReadResult := ReadError | Ignored | Broadcasts (msgs : list UnsignedMsgBytes).

Definition decoded (msgs : list UnsignedMsgBytes) : list UnsignedMsg :=
  omap (fun b => match FromBytes b with Ok m => Some m | _ => None end) msgs.

Inductive Ev :=
  | EvRead (r : ReadResult)            (* sdsEventsReaderLoop: ReadMessage returns *)
  | EvSend                             (* it sends a message *)
  | EvStart                            (* txBroadcasterLoop starts *)
  | EvReceive (chain : Chain)          (* it takes a message *)
  | EvTimeOver (chain : Chain)         (* its timer fires *)
  | EvNewBlock (chain : Chain)         (* it is told of a block *)
  | EvDone                             (* it sees that the context is done *)
  | EvCancel                           (* stop: the context is cancelled *)
  | EvClose (caught : bool).           (* stop: the channel is closed and set to nil *)

Definition set_reader (r : Reader) (c : SdsConn) : SdsConn :=
  mkSds (chan c) r (broadcaster c) (cancelled c) (recentBroadcast c) (unsignedMsgs c) (delivered c) (batches c) (blocks c) (started c).
Definition set_chan (ch : Chan) (c : SdsConn) : SdsConn :=
  mkSds ch (reader c) (broadcaster c) (cancelled c) (recentBroadcast c) (unsignedMsgs c) (delivered c) (batches c) (blocks c) (started c).
Definition set_broadcaster (b : Broadcaster) (c : SdsConn) : SdsConn :=
  mkSds (chan c) (reader c) b (cancelled c) (recentBroadcast c) (unsignedMsgs c) (delivered c) (batches c) (blocks c) (started c).

(** The loop goes back to ReadMessage when the last message is sent. *)
Definition sending (rest : list UnsignedMsg) : Reader := match rest with [] => Reading | _ => Sending rest end.

(** The loop looks at the context only before ReadMessage; leaving it there is [ReadError], too. *)
Definition read_step (r : ReadResult) (c : SdsConn) : SdsConn :=
  match r with
  | ReadError => set_reader ReaderEnded c
  | Ignored => c
  | Broadcasts msgs =>
      let ms := decoded msgs in
      mkSds (chan c) (sending ms) (broadcaster c) (cancelled c) (recentBroadcast c) (unsignedMsgs c) (delivered c ++ ms)
        (batches c) (blocks c) (started c)
  end.

Definition receive_step (cfg : Config) (chain : Chain) (msg : UnsignedMsg) (buffer : list UnsignedMsg) (c : SdsConn) : SdsConn :=
  let c := mkSds (ChanOpen buffer) (reader c) (broadcaster c) (cancelled c) (recentBroadcast c) (unsignedMsgs c ++ [fill_keys cfg msg])
             (delivered c) (batches c) (blocks c) (started c) in
  if bool_decide (MaxMsgPerTx cfg ≤ zlen (unsignedMsgs c)) then broadcastTxs cfg chain c else c.

(** [None] for a step that is not enabled. *)
Definition step (cfg : Config) (e : Ev) (c : SdsConn) : option SdsConn :=
  match e with
  | EvRead r => match reader c with Reading => Some (read_step r c) | _ => None end
  | EvSend =>
      match reader c with
      | Sending (m :: rest) =>
          match chan c with
          | ChanNil => Some (set_reader (ReaderStuck (m :: rest)) c)
          | ChanOpen buffer =>
              if bool_decide (length buffer < ChannelSize cfg)%nat then Some (set_reader (sending rest) (set_chan (ChanOpen (buffer ++ [m])) c))
              else None
          end
      | _ => None
      end
  | EvStart =>
      match broadcaster c, chan c with
      | NotStarted, ChanNil => Some (set_broadcaster Selecting (set_chan (ChanOpen []) c))
      | _, _ => None
      end
  | EvReceive chain =>
      match broadcaster c, chan c with
      | Selecting, ChanOpen (m :: buffer) => Some (receive_step cfg chain m buffer c)
      | _, _ => None
      end
  | EvTimeOver chain =>
      match broadcaster c with
      | Selecting => Some (if bool_decide (unsignedMsgs c = []) then c else broadcastTxs cfg chain c)
      | _ => None
      end
  | EvNewBlock chain =>
      match broadcaster c with
      | AwaitingBlock =>
          Some (do_broadcast cfg chain
            (mkSds (chan c) (reader c) Selecting (cancelled c) false (unsignedMsgs c) (delivered c) (batches c) (blocks c + 1) (started c)))
      | _ => Some c
      end
  | EvDone => match broadcaster c with Selecting => if cancelled c then Some (set_broadcaster BroadcasterEnded c) else None | _ => None end
  | EvCancel =>
      if cancelled c then None
      else Some (mkSds (chan c) (reader c) (broadcaster c) true (recentBroadcast c) (unsignedMsgs c) (delivered c) (batches c) (blocks c) (started c))
  | EvClose caught =>
      match cancelled c, chan c with
      | true, ChanOpen _ =>
          (* a reader that is inside the send panics, is recovered and ends *)
          Some (set_chan ChanNil (match reader c with Sending _ => if caught then set_reader ReaderEnded c else c | _ => c end))
      | _, _ => None
      end
  end.

Fixpoint run (cfg : Config) (es : list Ev) (c : SdsConn) : option SdsConn :=
  match es with [] => Some c | e :: es => c ← step cfg e c; run cfg es c end.

(** Right after the connection is made: both loops are about to start. *)
Definition connected : SdsConn := mkSds ChanNil Reading NotStarted false false [] [] [] 0 [].

(** stop returns, and with it refresh, when both loops have ended. *)
Definition stopped (c : SdsConn) : Prop := cancelled c = true ∧ reader c = ReaderEnded ∧ broadcaster c = BroadcasterEnded.

(** ** Messages are neither lost, repeated nor reordered *)

Definition buffered (c : SdsConn) : list UnsignedMsg := match chan c with ChanOpen b => b | ChanNil => [] end.
Definition unsent (c : SdsConn) : list UnsignedMsg := match reader c with Sending r | ReaderStuck r => r | _ => [] end.
Definition handed (c : SdsConn) : list UnsignedMsg := concat (map fst (batches c)) ++ unsignedMsgs c.
(** From the first batch to the last message that waits to be sent. *)
Definition on_the_way (cfg : Config) (c : SdsConn) : list UnsignedMsg := handed c ++ map (fill_keys cfg) (buffered c ++ unsent c).

(** The messages of one transaction. *)
Definition limit (cfg : Config) : Z := Z.max 1 (MaxMsgPerTx cfg).

Lemma handed_broadcast cfg chain c : handed (broadcastTxs cfg chain c) = handed c ∧ handed (do_broadcast cfg chain c) = handed c.
Proof.
  assert (handed (do_broadcast cfg chain c) = handed c) as H.
  { unfold do_broadcast, handed. destruct (broadcast _ _ _); cbn; rewrite map_app, concat_app; cbn; by rewrite !app_nil_r. }
  split; [|done]. unfold broadcastTxs. by destruct (recentBroadcast c).
Qed.

(** A broadcast leaves the channel, the reader and what was read alone. *)
Definition same_input (c c' : SdsConn) : Prop := chan c' = chan c ∧ reader c' = reader c ∧ delivered c' = delivered c ∧ cancelled c' = cancelled c.

Lemma broadcast_input cfg chain c : same_input c (broadcastTxs cfg chain c) ∧ same_input c (do_broadcast cfg chain c).
Proof.
  assert (same_input c (do_broadcast cfg chain c)) as H by (unfold do_broadcast; by destruct (broadcast _ _ _)).
  split; [|done]. unfold broadcastTxs. by destruct (recentBroadcast c).
Qed.

Lemma on_the_way_broadcast cfg chain c c' :
  c' = broadcastTxs cfg chain c ∨ c' = do_broadcast cfg chain c → on_the_way cfg c' = on_the_way cfg c ∧ delivered c' = delivered c.
Proof.
  destruct (handed_broadcast cfg chain c) as [H1 H2]. destruct (broadcast_input cfg chain c) as [(A1 & A2 & A3 & _) (B1 & B2 & B3 & _)].
  unfold on_the_way, buffered, unsent. intros [-> | ->]; [by rewrite A1, A2, A3, H1|by rewrite B1, B2, B3, H2].
Qed.

Lemma step_flow cfg e c c' : step cfg e c = Some c' →
  if e is EvClose _ then delivered c' = delivered c ∧ on_the_way cfg c' `sublist_of` on_the_way cfg c
  else ∃ new, delivered c' = delivered c ++ new ∧ on_the_way cfg c' = on_the_way cfg c ++ map (fill_keys cfg) new.
Proof.
  assert (∀ x, delivered x = delivered c → on_the_way cfg x = on_the_way cfg c →
    ∃ new, delivered x = delivered c ++ new ∧ on_the_way cfg x = on_the_way cfg c ++ map (fill_keys cfg) new) as Hsame.
  { intros x -> ->. exists []. by rewrite !app_nil_r. }
  destruct e as [r| | |chain|chain|chain| | |caught]; cbn [step]; intros H.
  - destruct (reader c) eqn:E; try done. injection H as <-. destruct r as [| |msgs]; cbn [read_step]; [..|exists (decoded msgs); split; [done|]].
    + apply Hsame; [done|]. unfold on_the_way, handed, buffered, unsent. cbn. by rewrite E.
    + by apply Hsame.
    + unfold on_the_way, handed, buffered, unsent. cbn. rewrite E, app_nil_r, <- !app_assoc, <- map_app. do 4 f_equal. by destruct (decoded msgs).
  - destruct (reader c) as [|[|m rest]| |] eqn:E; try done. destruct (chan c) as [|b] eqn:Ec.
    + injection H as <-. apply Hsame; [done|]. unfold on_the_way, handed, buffered, unsent. cbn. by rewrite E, Ec.
    + destruct (bool_decide _); [|done]. injection H as <-. apply Hsame; [done|]. unfold on_the_way, handed, buffered, unsent. cbn. rewrite E, Ec, <- !app_assoc. do 3 f_equal. by destruct rest.
  - destruct (broadcaster c) eqn:E, (chan c) eqn:Ec; try done. injection H as <-. apply Hsame; [done|]. unfold on_the_way, handed, buffered, unsent. cbn. by rewrite Ec.
  - destruct (broadcaster c) eqn:E, (chan c) as [|[|m b]] eqn:Ec; try done. injection H as <-. unfold receive_step. set (c1 := mkSds _ _ _ _ _ _ _ _ _ _).
    assert (on_the_way cfg c1 = on_the_way cfg c) as E1 by (unfold on_the_way, handed, buffered, unsent; cbn; rewrite Ec; cbn; by rewrite <- !app_assoc).
    destruct (bool_decide _); [|by apply Hsame]. destruct (on_the_way_broadcast cfg chain c1 (broadcastTxs cfg chain c1)) as [E2 E3]; [by left|].
    apply Hsame; [by rewrite E3|by rewrite E2].
  - destruct (broadcaster c); try done. injection H as <-. case_bool_decide; [by apply Hsame|].
    destruct (on_the_way_broadcast cfg chain c (broadcastTxs cfg chain c)) as [E2 E3]; [by left|]. by apply Hsame.
  - destruct (broadcaster c); injection H as <-; try (by apply Hsame). set (c1 := mkSds _ _ _ _ _ _ _ _ _ _).
    destruct (on_the_way_broadcast cfg chain c1 (do_broadcast cfg chain c1)) as [E2 E3]; [by right|]. apply Hsame; [by rewrite E3|by rewrite E2].
  - destruct (broadcaster c); try done. destruct (cancelled c); [|done]. injection H as <-. by apply Hsame.
  - destruct (cancelled c); [done|]. injection H as <-. by apply Hsame.
  - destruct (cancelled c), (chan c) as [|b] eqn:Ec; try done. injection H as <-. split; [by destruct (reader c), caught|].
    unfold on_the_way, handed, buffered. rewrite Ec.
    destruct (reader c) eqn:Er, caught; cbn; apply sublist_app; try done; first [apply sublist_nil_l|apply (fmap_sublist (fill_keys cfg)); unfold unsent; cbn; rewrite ?Er;
      first [apply sublist_nil_l|by apply sublist_inserts_l]].
Qed.

Definition no_close (es : list Ev) : Prop := Forall (fun e => if e is EvClose _ then False else True) es.

Lemma run_flow cfg es : ∀ c c', run cfg es c = Some c' → on_the_way cfg c `sublist_of` map (fill_keys cfg) (delivered c) →
  on_the_way cfg c' `sublist_of` map (fill_keys cfg) (delivered c').
Proof.
  induction es as [|e es IH]; intros c c'; cbn [run]; [by intros [= <-]|]. intros (c1 & H1 & H)%bind_Some Hs. apply (IH c1 c' H).
  apply step_flow in H1. destruct e; try (destruct H1 as (new & -> & ->); rewrite map_app; by apply sublist_app). destruct H1 as [-> H1]. by etrans.
Qed.

Lemma run_flow_eq cfg es : no_close es → ∀ c c', run cfg es c = Some c' → on_the_way cfg c = map (fill_keys cfg) (delivered c) →
  on_the_way cfg c' = map (fill_keys cfg) (delivered c').
Proof.
  induction 1 as [|e es He _ IH]; intros c c'; cbn [run]; [by intros [= <-]|]. intros (c1 & H1 & H)%bind_Some Hs. apply (IH c1 c' H).
  apply step_flow in H1. destruct e; try done; destruct H1 as (new & -> & ->); by rewrite map_app, Hs.
Qed.

(** ** Batches and blocks *)

Definition successes (c : SdsConn) : Z := zlen (filter (fun b => b.2 = true) (batches c)).

Record inv (cfg : Config) (c : SdsConn) : Prop := {
  inv_sizes : Forall (fun b => 1 ≤ zlen b.1 ≤ limit cfg) (batches c);
  inv_pending : if broadcaster c is AwaitingBlock then 1 ≤ zlen (unsignedMsgs c) ≤ limit cfg ∧ recentBroadcast c = true
                else zlen (unsignedMsgs c) < limit cfg;
  inv_blocks : successes c = blocks c + (if recentBroadcast c then 1 else 0)
}.

Lemma successes_snoc (l : list Batch) m ok :
  zlen (filter (fun b => b.2 = true) (l ++ [(m, ok)])) = zlen (filter (fun b => b.2 = true) l) + (if ok then 1 else 0).
Proof. rewrite list.filter_app, zlen_app. by destruct ok. Qed.

(** Trying a batch that is not too long. *)
Lemma inv_do_broadcast cfg chain c : Forall (fun b => 1 ≤ zlen b.1 ≤ limit cfg) (batches c) → 1 ≤ zlen (unsignedMsgs c) ≤ limit cfg →
  recentBroadcast c = false → successes c = blocks c → inv cfg (do_broadcast cfg chain c).
Proof.
  intros Hs Hl Hr Hb. unfold do_broadcast. assert (0 < limit cfg) as Hp by (unfold limit; lia).
  destruct (broadcast _ _ _); (split; [apply Forall_app; split; [done|]; constructor; [exact Hl|constructor]|done|]);
    unfold successes in *; cbn [batches blocks recentBroadcast]; rewrite successes_snoc, Hb; lia.
Qed.

Lemma inv_broadcastTxs cfg chain c : Forall (fun b => 1 ≤ zlen b.1 ≤ limit cfg) (batches c) → 1 ≤ zlen (unsignedMsgs c) ≤ limit cfg →
  successes c = blocks c + (if recentBroadcast c then 1 else 0) → inv cfg (broadcastTxs cfg chain c).
Proof.
  intros Hs Hl Hb. unfold broadcastTxs. destruct (recentBroadcast c) eqn:E; [by split|]. apply inv_do_broadcast; try done. lia.
Qed.

Lemma inv_step cfg e c c' : inv cfg c → step cfg e c = Some c' → inv cfg c'.
Proof.
  intros [Hs Hp Hb] H. destruct e as [r| | |chain|chain|chain| | |caught]; cbn [step] in H.
  - destruct (reader c); try done. injection H as <-. by destruct r.
  - destruct (reader c) as [|[|m rest]| |]; try done. destruct (chan c); [by injection H as <-|]. destruct (bool_decide _); [|done]. by injection H as <-.
  - destruct (broadcaster c) eqn:E, (chan c); try done. injection H as <-. split; cbn; done.
  - destruct (broadcaster c) eqn:E, (chan c) as [|[|m b]]; try done. injection H as <-. unfold receive_step.
    case_bool_decide as Hm.
    + apply inv_broadcastTxs; cbn; try done. rewrite zlen_app. change (zlen [_]) with 1. pose proof (zlen_nonneg (unsignedMsgs c)). lia.
    + split; cbn; [done| |done]. rewrite E. cbn in Hm. unfold limit. lia.
  - destruct (broadcaster c) eqn:E; try done. injection H as <-. case_bool_decide as Hm; [split; [done|by rewrite E|done]|].
    apply inv_broadcastTxs; try done. destruct (unsignedMsgs c); [done|]. unfold zlen in *. cbn [length] in *. lia.
  - destruct (broadcaster c) eqn:E; injection H as <-; try (split; [done|by rewrite E|done]). destruct Hp as [Hl Hr]. apply inv_do_broadcast; cbn; try done.
    rewrite Hr in Hb. unfold successes in *. cbn. lia.
  - destruct (broadcaster c) eqn:E; try done. destruct (cancelled c); [|done]. injection H as <-. by split.
  - destruct (cancelled c); [done|]. injection H as <-. by split.
  - destruct (cancelled c), (chan c); try done. injection H as <-. destruct (reader c), caught; by split.
Qed.

Lemma inv_run cfg es : ∀ c c', inv cfg c → run cfg es c = Some c' → inv cfg c'.
Proof.
  induction es as [|e es IH]; intros c c' Hi; cbn [run]; [by intros [= <-]|]. intros (c1 & H1 & H)%bind_Some. by apply (IH c1 c'); [eapply inv_step|].
Qed.

Lemma inv_connected cfg : inv cfg connected.
Proof. split; [constructor|cbn; unfold limit, zlen; cbn; lia|done]. Qed.

(** The messages of the batches that the chain took, and of those that failed: the code clears a
    batch either way. *)
Definition taken (c : SdsConn) : list UnsignedMsg := concat (map fst (filter (fun b => b.2 = true) (batches c))).
Definition dropped (c : SdsConn) : list UnsignedMsg := concat (map fst (filter (fun b => b.2 = false) (batches c))).
(** Those that no batch was tried with yet. *)
Definition waiting (cfg : Config) (c : SdsConn) : list UnsignedMsg := unsignedMsgs c ++ map (fill_keys cfg) (buffered c ++ unsent c).

Lemma taken_dropped (bs : list Batch) :
  concat (map fst (filter (fun b => b.2 = true) bs)) `sublist_of` concat (map fst bs)
  ∧ concat (map fst (filter (fun b => b.2 = true) bs)) ++ concat (map fst (filter (fun b => b.2 = false) bs)) ≡ₚ concat (map fst bs).
Proof.
  induction bs as [|[ms [|]] bs [IH1 IH2]]; [done|..].
  - rewrite filter_cons_True, filter_cons_False by done. cbn. split; [by apply sublist_app|]. by rewrite <- app_assoc, IH2.
  - rewrite filter_cons_False, filter_cons_True by done. cbn. split; [by apply sublist_inserts_l|]. rewrite Permutation_app_swap_app. by rewrite IH2.
Qed.

(** C6: Whatever the two loops do in whatever order, and whatever the chain answers: the messages
    the SP sent that could be decoded go through the relayer in the SP's order, each at most once,
    through batches that are tried, the current batch and the channel.  What the chain took is in
    this order; and until the channel is closed, what the chain did not take and does not wait any
    more are exactly the messages of the batches that failed, which are dropped.  No transaction
    is empty or has more messages than allowed, and there is at most one broadcast more than
    there were new blocks. *)
Theorem messages_are_broadcast_in_order cfg es c :
  run cfg es connected = Some c →
  on_the_way cfg c `sublist_of` map (fill_keys cfg) (delivered c)
  ∧ taken c `sublist_of` map (fill_keys cfg) (delivered c)
  ∧ (no_close es → on_the_way cfg c = map (fill_keys cfg) (delivered c)
                   ∧ taken c ++ dropped c ++ waiting cfg c ≡ₚ map (fill_keys cfg) (delivered c))
  ∧ Forall (fun b => 1 ≤ zlen b.1 ≤ limit cfg) (batches c)
  ∧ successes c ≤ blocks c + 1.
Proof.
  intros H. destruct (inv_run _ _ _ _ (inv_connected cfg) H) as [Hs _ Hb].
  pose proof (run_flow cfg es connected c H ltac:(done)) as Hf. destruct (taken_dropped (batches c)) as [Ht Hp].
  split_and!; [done| |intros Hn; pose proof (run_flow_eq cfg es Hn connected c H eq_refl) as He; split; [done|]|done|].
  - etrans; [|exact Hf]. unfold on_the_way, handed. rewrite <- !app_assoc. by apply sublist_inserts_r.
  - rewrite <- He. unfold on_the_way, handed, waiting. rewrite <- !app_assoc, <- Hp. by rewrite <- !app_assoc.
  - rewrite Hb. destruct (recentBroadcast c); lia.
Qed.

(** ** Everything can be broadcast *)

Definition running (c : SdsConn) : Prop := broadcaster c = Selecting ∨ broadcaster c = AwaitingBlock.

(** Nothing in the chain's answers makes broadcasting panic. *)
Definition calm (cfg : Config) (chain : Chain) : Prop := ∀ msgs e, broadcast cfg chain msgs ≠ Panic e.

Lemma do_broadcast_calm cfg chain c : calm cfg chain →
  broadcaster (do_broadcast cfg chain c) = Selecting ∧ unsignedMsgs (do_broadcast cfg chain c) = [].
Proof. intros H. unfold do_broadcast. destruct (broadcast _ _ _) eqn:E; [done..|by apply H in E]. Qed.

Lemma relay_run_app cfg es1 es2 c : run cfg (es1 ++ es2) c = c1 ← run cfg es1 c; run cfg es2 c1.
Proof. revert c. induction es1 as [|e es1 IH]; intros c; cbn; [done|]. destruct (step cfg e c); cbn; [apply IH|done]. Qed.

(** The current batch goes out at the next block after the timer. *)
Lemma flush cfg chain c : calm cfg chain → running c →
  ∃ es c', run cfg es c = Some c' ∧ no_close es ∧ broadcaster c' = Selecting ∧ unsignedMsgs c' = [] ∧ same_input c c'.
Proof.
  intros Hc Hr. assert (∀ x, broadcaster x = AwaitingBlock → ∃ x', run cfg [EvNewBlock chain] x = Some x' ∧ broadcaster x' = Selecting ∧ unsignedMsgs x' = [] ∧ same_input x x') as Hblock.
  { intros x Hx. cbn. rewrite Hx. eexists. split; [done|]. match goal with |- context [do_broadcast cfg chain ?y] =>
      destruct (do_broadcast_calm cfg chain y Hc) as [-> ->]; destruct (broadcast_input cfg chain y) as [_ Hi] end. done. }
  destruct Hr as [Hr|Hr].
  - destruct (decide (unsignedMsgs c = [])) as [E|E]; [exists [], c; split_and!; try done; by constructor|].
    destruct (recentBroadcast c) eqn:Er.
    + destruct (Hblock (broadcastTxs cfg chain c)) as (x' & H & H1 & H2 & H3); [unfold broadcastTxs; by rewrite Er|].
      exists [EvTimeOver chain; EvNewBlock chain], x'. split; [cbn [run step]; rewrite Hr, bool_decide_eq_false_2 by done; exact H|].
      split; [by repeat constructor|]. split_and!; try done. destruct (broadcast_input cfg chain c) as [(A1 & A2 & A3 & A4) _].
      destruct H3 as (B1 & B2 & B3 & B4). split_and!; by etrans.
    + exists [EvTimeOver chain], (do_broadcast cfg chain c). split; [cbn [run step]; rewrite Hr, bool_decide_eq_false_2 by done; unfold broadcastTxs; by rewrite Er|].
      split; [by repeat constructor|]. destruct (do_broadcast_calm cfg chain c Hc) as [-> ->]. destruct (broadcast_input cfg chain c) as [_ Hi]. done.
  - destruct (Hblock c Hr) as (x' & H & H1 & H2 & H3). exists [EvNewBlock chain], x'. split_and!; try done. by repeat constructor.
Qed.

Lemma drain cfg chain : calm cfg chain → (1 ≤ ChannelSize cfg)%nat → ∀ n c b, (2 * length (unsent c) + length b < n)%nat →
  running c → chan c = ChanOpen b → (∀ r, reader c ≠ ReaderStuck r) →
  ∃ es c', run cfg es c = Some c' ∧ no_close es ∧ delivered c' = delivered c ∧ unsignedMsgs c' = [] ∧ buffered c' = [] ∧ unsent c' = [].
Proof.
  intros Hc Hsize. induction n as [|n IH]; intros c b Hn Hr Hb Hst; [lia|].
  destruct (flush cfg chain c Hc Hr) as (es1 & c1 & H1 & N1 & S1 & U1 & C1 & R1 & D1 & _).
  assert (unsent c1 = unsent c) as Hu by (unfold unsent; by rewrite R1). destruct b as [|m b].
  - destruct (unsent c) as [|m rest] eqn:Eu.
    + exists es1, c1. split_and!; try done. unfold buffered. by rewrite C1, Hb.
    + assert (reader c = Sending (m :: rest)) as Er.
      { unfold unsent in Eu. destruct (reader c) eqn:E; try done; [by subst|]. by destruct (Hst rest0). }
      destruct (IH (set_reader (sending rest) (set_chan (ChanOpen ([] ++ [m])) c1)) [m]) as (es2 & c2 & H2 & N2 & D2 & F2).
      * cbn [length] in *. unfold unsent. cbn. destruct rest; cbn in *; lia.
      * by left.
      * done.
      * intros r. cbn. by destruct rest.
      * exists (es1 ++ EvSend :: es2), c2. split; [|split; [by apply Forall_app; split; [|constructor]|split; [by rewrite D2|done]]].
        rewrite relay_run_app, H1. cbn [mbind option_bind run step]. rewrite R1, Er, C1, Hb, bool_decide_eq_true_2 by (cbn; lia). exact H2.
  - set (c2 := receive_step cfg chain m b c1).
    assert (same_input (set_chan (ChanOpen b) c1) c2 ∧ running c2) as [(C2 & R2 & D2 & _) Hr2].
    { unfold c2, receive_step. destruct (bool_decide _); [|by split; [|left]]. set (y := mkSds _ _ _ _ _ _ _ _ _ _).
      destruct (broadcast_input cfg chain y) as [Hi _]. split; [exact Hi|]. unfold broadcastTxs. destruct (recentBroadcast y); [by right|]. left. by apply do_broadcast_calm. }
    destruct (IH c2 b) as (es3 & c3 & H3 & N3 & D3 & F3).
    + unfold unsent in *. rewrite R2. cbn. rewrite R1. cbn [length] in Hn. lia.
    + done.
    + done.
    + intros r. rewrite R2. cbn. rewrite R1. apply Hst.
    + exists (es1 ++ EvReceive chain :: es3), c3. split; [|split; [by apply Forall_app; split; [|constructor]|split; [by rewrite D3, D2|done]]].
      rewrite relay_run_app, H1. cbn [mbind option_bind run step]. rewrite S1, C1, Hb. exact H3.
Qed.

(** C26: As long as both loops run, nothing that the SP sent is stuck: from every state there is a
    schedule after which all messages read so far have been tried in transactions, in their
    order, however the chain answers (short of a panic). *)
Theorem all_messages_can_be_broadcast cfg chain es c b :
  calm cfg chain → (1 ≤ ChannelSize cfg)%nat → no_close es → run cfg es connected = Some c →
  running c → chan c = ChanOpen b → (∀ r, reader c ≠ ReaderStuck r) →
  ∃ es' c', run cfg es' c = Some c' ∧ delivered c' = delivered c
            ∧ concat (map fst (batches c')) = map (fill_keys cfg) (delivered c).
Proof.
  intros Hc Hs Hn H Hr Hb Hst. destruct (drain cfg chain Hc Hs _ c b (Nat.lt_succ_diag_r _) Hr Hb Hst) as (es' & c' & H' & N' & D' & U' & B' & S').
  exists es', c'. split; [done|]. split; [done|]. assert (run cfg (es ++ es') connected = Some c') as Hrun by (by rewrite relay_run_app, H).
  pose proof (run_flow_eq cfg (es ++ es') ltac:(by apply Forall_app) connected c' Hrun eq_refl) as E.
  unfold on_the_way, handed in E. rewrite U', B', S', D' in E. cbn in E. by rewrite !app_nil_r in E.
Qed.

(** ** A reader that is stuck *)

Lemma stuck_step cfg e c c' r : step cfg e c = Some c' → reader c = ReaderStuck r → reader c' = ReaderStuck r.
Proof.
  intros H Hr. destruct e as [x| | |chain|chain|chain| | |caught]; cbn [step] in H; rewrite ?Hr in H; try done.
  - destruct (broadcaster c), (chan c); try done. by injection H as <-.
  - destruct (broadcaster c), (chan c) as [|[|m b]]; try done. injection H as <-. unfold receive_step. destruct (bool_decide _); [|done].
    match goal with |- context [broadcastTxs cfg chain ?y] => destruct (broadcast_input cfg chain y) as [(_ & E & _) _] end. by rewrite E.
  - destruct (broadcaster c); try done. injection H as <-. destruct (bool_decide _); [done|]. destruct (broadcast_input cfg chain c) as [(_ & E & _) _]. by rewrite E.
  - destruct (broadcaster c); injection H as <-; try done. match goal with |- context [do_broadcast cfg chain ?y] => destruct (broadcast_input cfg chain y) as [_ (_ & E & _)] end. by rewrite E.
  - destruct (broadcaster c); try done. destruct (cancelled c); [|done]. by injection H as <-.
  - destruct (cancelled c); [done|]. by injection H as <-.
  - destruct (cancelled c), (chan c); try done. by injection H as <-.
Qed.

(** The channel is made by the loop that reads from it, not before the loop that writes to it
    is started, and stop sets it to nil while the reader may still have messages: a message that
    is sent then blocks the reader for ever, in every continuation, so that stop, which waits for
    the loops, never returns and the connection is never made again. *)
Theorem stuck_reader_never_stops cfg bs c :
  decoded bs ≠ [] → ∃ c1, run cfg [EvRead (Broadcasts bs); EvSend] connected = Some c1
  ∧ (∀ es c2, run cfg es c1 = Some c2 → ¬ stopped c2)
  ∧ (∀ rest, chan c = ChanNil → reader c = Sending rest → rest ≠ [] → ∃ c1, step cfg EvSend c = Some c1 ∧ ∀ es c2, run cfg es c1 = Some c2 → ¬ stopped c2).
Proof.
  assert (∀ r c, reader c = ReaderStuck r → ∀ es c2, run cfg es c = Some c2 → ¬ stopped c2) as Hs.
  { intros r x Hx es. revert x Hx. induction es as [|e es IH]; intros x Hx c2; cbn [run].
    - intros [= <-] (_ & E & _). by rewrite Hx in E.
    - intros (x1 & H1 & H)%bind_Some. by apply (IH x1 (stuck_step _ _ _ _ _ H1 Hx)). }
  intros Hd. cbn [run step connected reader read_step mbind option_bind chan]. destruct (decoded bs) as [|m ms]; [done|].
  eexists. split; [done|]. split; [by eapply Hs|]. intros rest Hn Hr Hne. destruct rest as [|x rest]; [done|]. rewrite Hr, Hn. eexists. split; [done|by eapply Hs].
Qed.

(** ** The transactions *)

Lemma filled_keys_of cfg msgs : WalletPrivateKey cfg ≠ [] → Forall (fun m => Forall (fun k => Address k = WalletAddr cfg) (SignatureKeys m)) msgs →
  Forall (keys_of (WalletAddr cfg)) (map (fill_keys cfg) msgs).
Proof.
  intros Hk H. apply Forall_map. revert H. apply Forall_impl. intros m Hm. unfold keys_of. cbn. apply Forall_map. revert Hm. apply Forall_impl. intros k Ha. unfold fill_key.
  destruct (decide (PrivateKey k = [])) as [E|E].
  - rewrite !bool_decide_eq_true_2 by done. done.
  - by rewrite bool_decide_eq_false_2.
Qed.

(** C8: A batch of messages that the wallet has to sign becomes one transaction with exactly these
    messages, the gas the chain has used for it in a simulation, adjusted, a fee of that gas times
    the price, and the wallet's signature over the transaction as it is sent; the keys the SP
    leaves out are filled in. *)
Theorem relayed_batches_are_signed {LL : TxLibLaws L} cfg chain msgs m ms k ks acc used price :
  encodes → WalletAddr cfg ≠ EmptyString → WalletPrivateKey cfg ≠ [] →
  msgs = m :: ms → SignatureKeys m = k :: ks →
  Forall (fun m => Forall (fun k => Address k = WalletAddr cfg) (SignatureKeys m)) msgs →
  usable (fill_key cfg k) → QueryAccount chain (WalletAddr cfg) = Ok acc → (∀ b, GasUsed chain b = Ok (Some used)) →
  ParseCoinNormalized (denoms cfg) (GasPrice cfg) = Ok price → ValidateDenom (Denom price) = true →
  0 ≤ Amount price * adjustGas cfg used → Int_ok (Amount price * adjustGas cfg used) = true →
  ∃ b tx, batch_tx cfg chain (map (fill_keys cfg) msgs) = Ok b ∧ marshal_Tx tx = Ok b
    ∧ Body tx = Some (mkBody (map Msg msgs) EmptyString)
    ∧ AFee <$> Auth tx = Some (mkFee [(Denom price, bytes_string (format_dec (Amount price * adjustGas cfg used)))] (adjustGas cfg used))
    ∧ well_signed (ConfigChainId cfg) [with_account acc (fill_key cfg k)] tx.
Proof.
  intros He Ha Hk -> Ek Hall Hu HQ Hg Hp Hd Hn Hi. pose proof (filled_keys_of cfg _ Hk Hall) as Hkeys. set (umsgs := map (fill_keys cfg) (m :: ms)) in *.
  assert (umsgs = fill_keys cfg m :: map (fill_keys cfg) ms) as Eu by done.
  assert (SignatureKeys (fill_keys cfg m) = fill_key cfg k :: map (fill_key cfg) ks) as Ef by (cbn; by rewrite Ek).
  assert (∀ tx auth, Auth tx = Some auth → ∃ b tx', BuildTxBytes (QueryAccount chain) direct_config tx (ConfigChainId cfg) umsgs = Ok (b, tx')
    ∧ same_content tx tx' ∧ marshal_Tx tx' = Ok b ∧ well_signed (ConfigChainId cfg) [with_account acc (fill_key cfg k)] tx') as Hb.
  { intros tx auth Hauth. by apply (BuildTxBytes_one _ tx _ (WalletAddr cfg) acc umsgs _ _ _ _ auth He Ha HQ Hkeys Eu Ef Hu). }
  unfold batch_tx. rewrite direct_config_created. cbn [mbind res_bind]. set (tx0 := setMsgInfoToTxBuilder _ _).
  destruct (Hb tx0 _ eq_refl) as (b1 & tx1 & -> & [B1 F1] & _). cbn [mbind res_bind]. rewrite Hg. cbn [mbind res_bind].
  destruct (Auth tx1) as [auth1|] eqn:E1; [|done]. unfold set_GasLimit. rewrite E1. cbn [mbind res_bind]. rewrite Hp. cbn [mbind res_bind].
  unfold Int_Mul. rewrite Hi. cbn [mbind res_bind]. unfold NewCoin, Coin_Validate. cbn [Denom Amount]. rewrite Hd, bool_decide_eq_false_2 by lia. cbn [negb mbind res_bind].
  unfold set_Fee. cbn [Auth mbind res_bind]. set (tx2 := mkTx _ _ _).
  destruct (Hb tx2 _ eq_refl) as (b3 & tx3 & -> & [B3 F3] & M3 & W3). exists b3, tx3. split_and!; try done.
  rewrite B3. cbn. rewrite B1. cbn. rewrite map_map. do 2 f_equal.
Qed.

End Relayer.

(** ** Examples *)

Module RelayerDemo.
#[local] Existing Instance TxDemo.plain.
#[local] Existing Instance TxDemo.plain_laws.
#[local] Existing Instance CoinsDemo.int256.
#[local] Existing Instance DecCoinsDemo.dec315.

Definition cfg : Config := mkConfig 4 2 "chain" (chr "2wei") stratos_denoms (fun g => g * 3 / 2) "sp" (string_bytes "key").
Definition good_chain : Chain := mkChain TxDemo.query (fun _ => Ok (Some 40)) (fun _ => Ok (mkResponse "AB" [])).
Definition bad_chain : Chain := mkChain (fun _ => Err "not found") (fun _ => Err "no answer") (fun _ => Err "no answer").

Definition umsg (a : Any) : UnsignedMsg := mkUMsg a [mkSigKey 0 0 "sp" [] SignatureSecp256k1] (TypeUrl a).
Definition wire (a : Any) : UnsignedMsgBytes := mkUMsgBytes (TxDemo.enc_any a) [mkSigKey 0 0 "sp" [] SignatureSecp256k1] (TypeUrl a).

Lemma relayed_batches_are_signed_witness : ∃ b tx,
  batch_tx cfg good_chain (map (fill_keys cfg) [umsg TxDemo.send; umsg TxDemo.pay]) = Ok b ∧ marshal_Tx tx = Ok b
  ∧ Body tx = Some (mkBody [TxDemo.send; TxDemo.pay] EmptyString)
  ∧ AFee <$> Auth tx = Some (mkFee [("wei", "120")] 60)
  ∧ well_signed "chain" [mkSigKey 7 3 "sp" (string_bytes "key") 0] tx.
Proof.
  apply (relayed_batches_are_signed cfg good_chain [umsg TxDemo.send; umsg TxDemo.pay] (umsg TxDemo.send) [umsg TxDemo.pay]
    (mkSigKey 0 0 "sp" [] SignatureSecp256k1) [] (mkAccount 7 3) 40 (mkCoin "wei" 2) TxDemo.plain_encodes); try reflexivity; try discriminate.
  - repeat constructor.
  - split; [discriminate|]. split; [by eexists|]. intros m. by eexists.
Defined.

(** Three messages, two blocks: a full batch at once, the third after a block. *)
Definition schedule : list Ev :=
  [EvStart; EvRead (Broadcasts [wire TxDemo.send; wire TxDemo.pay; wire TxDemo.send]); EvSend; EvSend; EvReceive good_chain; EvSend;
   EvReceive good_chain; EvNewBlock good_chain; EvReceive good_chain; EvTimeOver good_chain; EvNewBlock good_chain].

(** And two more messages, which the chain refuses. *)
Definition refused : Chain := mkChain TxDemo.query (fun _ => Err "refused") (fun _ => Ok (mkResponse "AB" [])).
Definition longer : list Ev :=
  schedule ++ [EvRead (Broadcasts [wire TxDemo.pay; wire TxDemo.send]); EvSend; EvSend; EvReceive refused; EvReceive refused; EvNewBlock refused].

Lemma messages_are_broadcast_in_order_witness : ∃ c, run cfg longer connected = Some c
  ∧ map (fun b => (map (fun m => TypeUrl (Msg m)) b.1, b.2)) (batches c) = [(["/send"; "/pay"], true); (["/send"], true); (["/pay"; "/send"], false)]
  ∧ on_the_way cfg c = map (fill_keys cfg) (delivered c) ∧ successes c ≤ blocks c + 1
  ∧ taken c `sublist_of` map (fill_keys cfg) (delivered c)
  ∧ taken c ++ dropped c ++ waiting cfg c ≡ₚ map (fill_keys cfg) (delivered c).
Proof.
  destruct (run cfg longer connected) as [c|] eqn:E; [|vm_compute in E; discriminate]. exists c.
  destruct (messages_are_broadcast_in_order cfg longer c E) as (_ & H1 & H2 & _ & H3). split; [done|]. split.
  - vm_compute in E. injection E as <-. reflexivity.
  - destruct H2 as [H2 H4]; [repeat constructor|]. split_and!; done.
Defined.

(** Without an account nothing is ever signed, and nothing panics. *)
Lemma bad_chain_calm : calm cfg bad_chain.
Proof.
  intros msgs e. unfold broadcast, batch_tx. rewrite direct_config_created. cbn [mbind res_bind]. unfold BuildTxBytes. cbn [QueryAccount bad_chain].
  set (l := filterInvalidSignatures msgs).
  assert (fetchAllAccountInfos (fun _ => Err "not found") l = ∅) as ->.
  { unfold fetchAllAccountInfos. induction (elements _); [done|]. cbn. done. }
  assert (concat (map SignatureKeys (updateSignatureKeys l ∅)) = []) as Hk.
  { induction l as [|m l IH]; [done|]. unfold updateSignatureKeys in *. cbn. destruct (SignatureKeys m); cbn; [exact IH|exact IH]. }
  destruct (updateSignatureKeys l ∅) as [|u us] eqn:E; [done|]. unfold buildAndSignStdTx, signaturesToDo. rewrite Hk. done.
Qed.

Lemma all_messages_can_be_broadcast_witness :
  ∃ c, run cfg [EvStart; EvRead (Broadcasts [wire TxDemo.send; wire TxDemo.pay]); EvSend] connected = Some c
  ∧ ∃ es c', run cfg es c = Some c' ∧ delivered c' = delivered c ∧ concat (map fst (batches c')) = map (fill_keys cfg) (delivered c).
Proof.
  destruct (run cfg [EvStart; EvRead (Broadcasts [wire TxDemo.send; wire TxDemo.pay]); EvSend] connected) as [c|] eqn:E; [|vm_compute in E; discriminate].
  exists c. split; [done|]. vm_compute in E. eapply (all_messages_can_be_broadcast cfg bad_chain [EvStart; EvRead (Broadcasts [wire TxDemo.send; wire TxDemo.pay]); EvSend] c).
  - apply bad_chain_calm.
  - cbn. lia.
  - repeat constructor.
  - rewrite <- E. vm_compute. reflexivity.
  - left. injection E as <-. reflexivity.
  - injection E as <-. reflexivity.
  - injection E as <-. discriminate.
Defined.

Lemma stuck_reader_never_stops_witness : ∃ c1, run cfg [EvRead (Broadcasts [wire TxDemo.send]); EvSend] connected = Some c1
  ∧ ∀ es c2, run cfg es c1 = Some c2 → ¬ stopped c2.
Proof.
  destruct (stuck_reader_never_stops cfg [wire TxDemo.send] connected) as (c1 & H1 & H2 & _); [vm_compute; discriminate|]. by exists c1.
Defined.

(** One message whose account is not known: the transaction still contains it, and when the chain
    refuses it, the good message is lost with it. *)
Definition unknown : UnsignedMsgBytes := mkUMsgBytes (TxDemo.enc_any TxDemo.pay) [TxDemo.key "nobody"] "/pay".
Definition strict_chain : Chain := mkChain TxDemo.query (fun _ => Err "signature verification failed") (fun _ => Ok (mkResponse "AB" [])).
Example failed_batches_are_dropped :
  (fun c => (map (fun b => (map (fun m => TypeUrl (Msg m)) b.1, b.2)) (batches c), unsignedMsgs c, buffered c))
  <$> run cfg [EvStart; EvRead (Broadcasts [wire TxDemo.send; unknown]); EvSend; EvSend; EvReceive strict_chain; EvReceive strict_chain] connected
  = Some ([(["/send"; "/pay"], false)], [], []).
Proof. vm_compute. reflexivity. Qed.
End RelayerDemo.
