(* ===== verification/SliceKeys.v ===== *)
(** * SliceKeys: derived keys and the encryption of slices

    Models framework/crypto/encryption/hdkey: extended keys and their children for both curves
    (extendedkey.go, secp256k1.go, ed25519.go) and the key of a slice (hdkey.go); and
    encryptSliceData and decryptSliceData (pp/event/upload_file.go, download_slice.go), with
    AES-GCM as in [Codec].  HMAC-SHA512, the hash of public keys and the arithmetic of points are
    the class [HdLib].

    The reference is the derivation of BIP 32, on numbers and with keys of a fixed length. *)
From S2P Require Import Prelude Bytes Rlp RlpEncode BigMath Codec Curve.

(** ** The libraries *)

(** [base_mult] is ScalarBaseMult, for the number that the bytes stand for; a point with a zero
    coordinate is how infinity is told. *)
Class HdLib := {
  Point : Type;
  hmac_sha512 : bytes → bytes → bytes;      (* key, data *)
  Hash160 : bytes → bytes;
  base_mult : Z → Point;
  point_add : Point → Point → Point;
  zero_coordinate : Point → bool;
  SerializeCompressed : Point → bytes;
  ParsePubKey : bytes → option Point
}.

Definition order : Z := Curve.N theCurve.

Class HdLaws (H : HdLib) : Prop := {
  hmac_length k d : length (hmac_sha512 k d) = 64%nat;
  base_mult_add a b : point_add (base_mult a) (base_mult b) = base_mult ((a + b) mod order);
  base_mult_finite a : 0 < a < order → zero_coordinate (base_mult a) = false;
  parse_serialized a : 0 < a < order → ParsePubKey (SerializeCompressed (base_mult a)) = Some (base_mult a);
  serialized_length a : 0 < a < order → length (SerializeCompressed (base_mult a)) = 33%nat
}.

(** ** extendedkey.go *)

Definition HardenedKeyStart : Z := 2 ^ 31.
Definition maxUint8 : Z := 255.

Record ExtendedKey := mkExt {
  key : bytes; pubKey : bytes; chainCode : bytes; depth : Z; parentFP : bytes; childNum : Z; isPrivate : bool }.

Definition NewExtendedKey (key chainCode parentFP : bytes) (depth childNum : Z) (isPrivate : bool) : ExtendedKey :=
  mkExt key [] chainCode depth parentFP childNum isPrivate.
Definition PrivateKey (e : ExtendedKey) : bytes := key e.

Section SliceKeys.
Context {H : HdLib} {G : GCM}.

(** ** secp256k1.go *)

Definition pubKeyBytes (k : ExtendedKey) : bytes :=
  if negb (isPrivate k) then key k
  else if bool_decide (pubKey k = []) then SerializeCompressed (base_mult (be_decode (key k))) else pubKey k.

(** The data that is hashed: 33 bytes of the key and four of the index. *)
Definition child_data (first : nat) (key : bytes) (i : Z) : bytes :=
  let data := (copy_at (replicate 37 Byte.x00) first key).1 in (copy_at data 33 (Uint32ToBytes i)).1.

Definition Secp256K1_Child (k : ExtendedKey) (i : Z) : res ExtendedKey :=
  if bool_decide (depth k = maxUint8) then Err "cannot derive a key with more than 255 indices in its path"
  else
    let isChildHardened := bool_decide (HardenedKeyStart ≤ i) in
    if negb (isPrivate k) && isChildHardened then Err "cannot derive a hardened key from a public key"
    else
      let data := if isChildHardened then child_data 1 (key k) i else child_data 0 (pubKeyBytes k) i in
      let ilr := hmac_sha512 (chainCode k) data in
      let il := take (length ilr / 2) ilr in
      let childChainCode := drop (length ilr / 2) ilr in
      let ilNum := be_decode il in
      if bool_decide (order ≤ ilNum) || bool_decide (ilNum = 0) then Err "the extended key at this index is invalid"
      else
        childKey ← (if isPrivate k then Ok (be_bytes ((ilNum + be_decode (key k)) mod order))
                    else
                      let ilPoint := base_mult ilNum in
                      if zero_coordinate ilPoint then Err "the extended key at this index is invalid"
                      else match ParsePubKey (key k) with
                           | None => Err "invalid public key"
                           | Some p => Ok (SerializeCompressed (point_add ilPoint p))
                           end);
        Ok (NewExtendedKey childKey childChainCode (take 4 (Hash160 (pubKeyBytes k))) (depth k + 1) i (isPrivate k)).

(** ** ed25519.go *)

Definition Ed25519_Child (k : ExtendedKey) (i : Z) : res ExtendedKey :=
  if bool_decide (depth k = maxUint8) then Err "cannot derive a key with more than 255 indices in its path"
  else
    let isChildHardened := bool_decide (HardenedKeyStart ≤ i) in
    if negb (isPrivate k) && isChildHardened then Err "cannot derive a hardened key from a public key"
    else if negb isChildHardened then Err "ed25519 does not support non hardened children"
    else
      let ilr := hmac_sha512 (chainCode k) (child_data 1 (key k) i) in
      Ok (NewExtendedKey (take (length ilr / 2) ilr) (drop (length ilr / 2) ilr) (take 4 (Hash160 (pubKeyBytes k))) (depth k + 1) i true).

Definition Ed25519Child (k : option ExtendedKey) (i : Z) : res ExtendedKey :=
  match k with None => Err "the given key pointer was nil" | Some k => Ed25519_Child k (u32 (i + HardenedKeyStart)) end.

(** The three indices of a number of 64 bits. *)
Definition child_path (i : Z) : list Z :=
  [u32 (i ≫ 42); u32 (u64 (i ≪ 22) ≫ 43); u32 (u64 (i ≪ 43) ≫ 43)].

Definition Ed25519Child64 (k : option ExtendedKey) (i : Z) : res ExtendedKey :=
  match child_path i with
  | [highBytes; middleBytes; lowBytes] =>
      child1 ← Ed25519Child k highBytes;
      child2 ← Ed25519Child (Some child1) middleBytes;
      Ed25519Child (Some child2) lowBytes
  | _ => Err EmptyString
  end.

(** ** hdkey.go *)

Definition Secp256k1CurvePhrase : bytes := string_bytes "Bitcoin seed".

Definition MasterKeyGenerate (seedBytes masterKey : bytes) : ExtendedKey :=
  let lr := hmac_sha512 masterKey seedBytes in
  NewExtendedKey (take (length lr / 2) lr) (drop (length lr / 2) lr) (replicate 4 Byte.x00) 0 0 true.

Fixpoint derive (path : list Z) (k : ExtendedKey) : res ExtendedKey :=
  match path with [] => Ok k | i :: path => k ← Secp256K1_Child k i; derive path k end.

Definition MasterKeyForSliceEncryption (seedBytes : bytes) (nonce : Z) : res ExtendedKey :=
  derive [HardenedKeyStart + 44; HardenedKeyStart + 606; HardenedKeyStart; nonce] (MasterKeyGenerate seedBytes Secp256k1CurvePhrase).

(** ** Slices *)

Record EncryptedSlice := mkEncrypted { HdkeyNonce : Z; AesNonce : Z; Data : bytes; RawSize : Z }.

Section Slices.
Context (marshal : EncryptedSlice → res bytes) (unmarshal : bytes → res EncryptedSlice) (walletKey : bytes).

(** [r32] and [r64] are the draws of rand. *)
Definition encryptSliceData (r32 r64 : Z) (rawData : bytes) : res bytes :=
  let hdKeyNonce := if bool_decide (HardenedKeyStart < r32) then r32 - HardenedKeyStart else r32 in
  key ← MasterKeyForSliceEncryption walletKey hdKeyNonce;
  encryptedData ← EncryptAES (PrivateKey key) rawData r64;
  marshal (mkEncrypted hdKeyNonce r64 encryptedData (zlen rawData)).

Definition decryptSliceData (dataToDecrypt : bytes) : res bytes :=
  slice ← unmarshal dataToDecrypt;
  key ← MasterKeyForSliceEncryption walletKey (HdkeyNonce slice);
  DecryptAES (PrivateKey key) (Data slice) (AesNonce slice).

(** A slice that is encrypted with whatever nonces is decrypted to what it was, by a node with
    the same wallet. *)
Theorem encrypted_slices_decrypt {GL : GCMLaws G} r32 r64 rawData b :
  (∀ s b, marshal s = Ok b → unmarshal b = Ok s) → encryptSliceData r32 r64 rawData = Ok b → decryptSliceData b = Ok rawData.
Proof.
  intros Hm. unfold encryptSliceData, decryptSliceData. intros (k & Hk & (c & Hc & Hb)%bind_ok)%bind_ok. rewrite (Hm _ _ Hb). cbn [mbind res_bind HdkeyNonce AesNonce Data].
  rewrite Hk. cbn [mbind res_bind]. by apply DecryptAES_EncryptAES.
Qed.
End Slices.

(** ** The derivation of BIP 32 *)

Definition ser256 (n : Z) : bytes := be_encode 32 n.
Definition ser32 (i : Z) : bytes := be_encode 4 i.

(** Private parent to private child; [None] where there is no child. *)
Definition CKDpriv (k : Z) (c : bytes) (i : Z) : option (Z * bytes) :=
  let data := if bool_decide (HardenedKeyStart ≤ i) then Byte.x00 :: ser256 k ++ ser32 i else SerializeCompressed (base_mult k) ++ ser32 i in
  let I := hmac_sha512 c data in
  let il := be_decode (take 32 I) in
  let ki := (il + k) mod order in
  if bool_decide (order ≤ il) || bool_decide (il = 0) || bool_decide (ki = 0) then None else Some (ki, drop 32 I).

Section Bip32.
Context {HL : HdLaws H}.

Lemma child_data_hardened k i : length k = 32%nat → child_data 1 k i = Byte.x00 :: k ++ Uint32ToBytes i.
Proof.
  intros Hk. unfold child_data, copy_at. cbn [fst]. assert (length (Uint32ToBytes i) = 4%nat) as Hi by apply length_be_encode.
  rewrite length_replicate, Hk. change (Nat.min (37 - 1) 32) with 32%nat. rewrite (firstn_all2 k) by lia.
  change (take 1 (replicate 37 Byte.x00)) with [Byte.x00]. change (drop (1 + 32) (replicate 37 Byte.x00)) with (replicate 4 Byte.x00).
  cbn [app]. rewrite length_cons, !length_app, Hk, Hi. cbn [length replicate]. change (Nat.min (S (32 + 4) - 33) 4) with 4%nat.
  rewrite (firstn_all2 (Uint32ToBytes i)) by lia. rewrite firstn_cons, take_app_length' by done. cbn [app]. f_equal. f_equal.
  rewrite drop_ge; [by rewrite app_nil_r|]. cbn [length]. rewrite length_app, Hk. cbn. lia.
Qed.

Lemma child_data_normal k i : length k = 33%nat → child_data 0 k i = k ++ Uint32ToBytes i.
Proof.
  intros Hk. unfold child_data, copy_at. cbn [fst]. assert (length (Uint32ToBytes i) = 4%nat) as Hi by apply length_be_encode.
  rewrite length_replicate, Hk. change (Nat.min (37 - 0) 33) with 33%nat. rewrite (firstn_all2 k) by lia.
  change (take 0 (replicate 37 Byte.x00)) with (@nil byte). change (drop (0 + 33) (replicate 37 Byte.x00)) with (replicate 4 Byte.x00).
  cbn [app]. rewrite !length_app, Hk, Hi. cbn [length replicate]. change (Nat.min (33 + 4 - 33) 4) with 4%nat.
  rewrite (firstn_all2 (Uint32ToBytes i)) by lia. rewrite take_app_length' by done. f_equal.
  rewrite drop_ge; [by rewrite app_nil_r|]. rewrite length_app, Hk. cbn. lia.
Qed.

(** A private extended key below the largest depth. *)
Record private_key (k : ExtendedKey) : Prop := {
  pk_private : isPrivate k = true;
  pk_fresh : pubKey k = [];
  pk_depth : 0 ≤ depth k < 255;
  pk_range : 0 < be_decode (key k) < order
}.

Lemma ilr_half c d : (length (hmac_sha512 c d) / 2)%nat = 32%nat.
Proof. by rewrite hmac_length. Qed.

Lemma order_bounds : 2 ^ 255 < order < 2 ^ 256.
Proof. split; reflexivity. Qed.

(** The bytes that are hashed are those of BIP 32, when the key has all its 32 bytes. *)
Lemma bip32_data k i : private_key k → 0 ≤ i < 2 ^ 32 → length (key k) = 32%nat ∨ i < HardenedKeyStart →
  (if bool_decide (HardenedKeyStart ≤ i) then child_data 1 (key k) i else child_data 0 (pubKeyBytes k) i)
  = if bool_decide (HardenedKeyStart ≤ i) then Byte.x00 :: ser256 (be_decode (key k)) ++ ser32 i else SerializeCompressed (base_mult (be_decode (key k))) ++ ser32 i.
Proof.
  intros [Hp Hf _ Hr] Hi Hl. case_bool_decide as Hh.
  - destruct Hl as [Hl|Hl]; [|lia]. rewrite child_data_hardened by done. unfold ser256. by rewrite <- Hl, be_encode_decode.
  - unfold pubKeyBytes. rewrite Hp, Hf. cbn [negb]. rewrite bool_decide_eq_true_2 by done. rewrite child_data_normal by (by apply serialized_length). done.
Qed.

(** The children of a private key are those of BIP 32: key, chain code and depth are right, and
    where BIP 32 has no child there is none, or one with an empty key; for hardened children the
    parent's key must have all its 32 bytes. *)
Theorem children_follow_bip32 k i : private_key k → 0 ≤ i < 2 ^ 32 → length (key k) = 32%nat ∨ i < HardenedKeyStart →
  match CKDpriv (be_decode (key k)) (chainCode k) i with
  | Some (ki, ci) => ∃ child, Secp256K1_Child k i = Ok child ∧ be_decode (key child) = ki ∧ chainCode child = ci
                              ∧ depth child = depth k + 1 ∧ childNum child = i ∧ isPrivate child = true
  | None => match Secp256K1_Child k i with Ok child => key child = [] | Err _ => True | Panic _ => False end
  end.
Proof.
  intros Hk Hi Hl. pose proof (bip32_data k i Hk Hi Hl) as Hd. destruct Hk as [Hp Hf Hdep Hr]. unfold CKDpriv, Secp256K1_Child.
  rewrite (bool_decide_eq_false_2 (depth k = maxUint8)) by (unfold maxUint8; lia). rewrite Hp. cbn [negb andb]. rewrite Hd, !ilr_half.
  set (I := hmac_sha512 _ _). destruct (bool_decide (order ≤ be_decode (take 32 I)) || bool_decide (be_decode (take 32 I) = 0)); cbn [orb]; [done|].
  pose proof order_bounds. pose proof (Z.mod_pos_bound (be_decode (take 32 I) + be_decode (key k)) order ltac:(lia)) as Hm.
  set (ki := (be_decode (take 32 I) + be_decode (key k)) mod order) in *. destruct (decide (ki = 0)) as [Hz|Hz].
  - rewrite (bool_decide_eq_true_2 (ki = 0)) by done. cbn [mbind res_bind]. by rewrite Hz.
  - rewrite (bool_decide_eq_false_2 (ki = 0)) by done. eexists. split; [done|]. cbn. rewrite be_decode_bytes by lia. done.
Qed.

(** The key without its private part. *)
Definition neuter (k : ExtendedKey) : ExtendedKey :=
  mkExt (pubKeyBytes k) [] (chainCode k) (depth k) (parentFP k) (childNum k) false.

(** A child that is not hardened can be derived from the public key alone: the public child
    belongs to the private child, with the same chain code, depth and fingerprint. *)
Theorem public_children_agree k i child : private_key k → 0 ≤ i < HardenedKeyStart →
  Secp256K1_Child k i = Ok child → key child ≠ [] → Secp256K1_Child (neuter k) i = Ok (neuter child).
Proof.
  intros [Hp Hf Hdep Hr] Hi. unfold Secp256K1_Child. cbn [depth neuter isPrivate negb key chainCode].
  rewrite !(bool_decide_eq_false_2 (depth k = maxUint8)) by (unfold maxUint8; lia). rewrite !(bool_decide_eq_false_2 (HardenedKeyStart ≤ i)) by lia.
  rewrite Hp. cbn [negb andb]. change (pubKeyBytes (neuter k)) with (pubKeyBytes k).
  assert (pubKeyBytes k = SerializeCompressed (base_mult (be_decode (key k)))) as Hpub by (unfold pubKeyBytes; rewrite Hp, Hf; done).
  set (I := hmac_sha512 _ _). assert (length I / 2 = 32)%nat as EI by apply ilr_half. rewrite !EI. destruct (bool_decide (order ≤ _) || bool_decide (_ = 0)) eqn:E; [done|]. cbn [mbind res_bind]. intros [= <-] Hne.
  apply orb_false_iff in E as [E1 E2]. apply bool_decide_eq_false in E1, E2. pose proof (be_decode_bound (take 32 I)).
  rewrite base_mult_finite by lia. change (key (neuter k)) with (pubKeyBytes k). rewrite Hpub, parse_serialized by done. rewrite base_mult_add. cbn [mbind res_bind]. rewrite <- Hpub.
  unfold neuter, NewExtendedKey. cbn [key pubKey chainCode depth parentFP childNum isPrivate]. pose proof order_bounds.
  pose proof (Z.mod_pos_bound (be_decode (take 32 I) + be_decode (key k)) order ltac:(lia)) as Hm.
  do 2 f_equal. unfold pubKeyBytes at 1. cbn [isPrivate pubKey key negb]. rewrite bool_decide_eq_true_2 by done. by rewrite be_decode_bytes by lia.
Qed.

(** Keys are stored without leading zeros.  The hardened children of a key with such a zero are
    derived from other bytes than BIP 32 says. *)
Theorem short_parents_leave_bip32 n i : 0 < n < 256 ^ 31 → 2 ^ 240 ≤ n → child_data 1 (be_bytes n) i ≠ Byte.x00 :: ser256 n ++ ser32 i.
Proof.
  intros Hn Hl. assert (be_len n = 31%nat) as Hlen by (apply be_len_unique; change (256 ^ Z.of_nat 30) with (2 ^ 240); change (Z.of_nat 31) with 31; lia).
  destruct (be_bytes_nonzero n ltac:(lia)) as (x & l & E & Hx). intros Hd. apply (f_equal (fun d => d !! 1%nat)) in Hd.
  unfold ser256 in Hd. change (be_encode 32 n) with (be_encode (1 + 31) n) in Hd. rewrite (be_encode_small 31 n 1) in Hd by (change (Z.of_nat 31) with 31; lia). cbn in Hd. rewrite E in Hd.
  unfold child_data, copy_at in Hd. cbn in Hd. injection Hd as Hd. by rewrite Hd in Hx.
Qed.

(** ** The length of the keys of slices *)

Lemma derive_private path : ∀ k k', isPrivate k = true → path ≠ [] → derive path k = Ok k' → isPrivate k' = true ∧ ∃ n, 0 ≤ n < order ∧ key k' = be_bytes n.
Proof.
  induction path as [|i path IH]; intros k k' Hp Hne; [done|]. cbn [derive]. intros (k1 & H1 & H2)%bind_ok. unfold Secp256K1_Child in H1.
  destruct (bool_decide _); [done|]. rewrite Hp in H1. cbn [negb andb] in H1. destruct (_ || _); [done|]. cbn [mbind res_bind] in H1. injection H1 as <-.
  destruct path as [|j path]; [injection H2 as <-; split; [done|]|refine (IH _ _ _ _ H2); done].
  eexists. split; [|reflexivity]. apply Z.mod_pos_bound. pose proof order_bounds. lia.
Qed.

(** The key of a slice is a number without leading zeros, and AES takes keys of 16, 24 or 32
    bytes only: encrypting with a derived key fails exactly when the number has another length,
    which is the case for one number in 256. *)
Theorem slice_keys_may_be_short wallet nonce k : (∀ k, gcm_key_ok k = bool_decide (length k ∈ [16; 24; 32]%nat)) →
  MasterKeyForSliceEncryption wallet nonce = Ok k →
  ∃ n, 0 ≤ n < order ∧ PrivateKey k = be_bytes n
       ∧ ∀ data r, (is_ok (EncryptAES (PrivateKey k) data r) = true ↔ be_len n ∈ [16; 24; 32]%nat)
                   ∧ (2 ^ 248 ≤ n → is_ok (EncryptAES (PrivateKey k) data r) = true)
                   ∧ (2 ^ 192 ≤ n < 2 ^ 248 → EncryptAES (PrivateKey k) data r = Err "crypto/aes: invalid key size").
Proof.
  intros Hg Hk. apply derive_private in Hk as [_ (n & Hn & Hkey)]; [|done|done]. exists n. split; [done|]. split; [done|]. intros data r.
  unfold EncryptAES, PrivateKey. rewrite Hkey, Hg. assert (length (be_bytes n) = be_len n) as -> by apply length_be_encode. pose proof order_bounds. split_and!.
  - case_bool_decide; done.
  - intros Hl. rewrite (be_len_unique n 31); [done|]. change (256 ^ Z.of_nat 31) with (2 ^ 248). change (256 ^ Z.of_nat 32) with (2 ^ 256). lia.
  - intros Hl. assert (be_len n ≤ 31)%nat by (apply be_len_le; change (256 ^ Z.of_nat 31) with (2 ^ 248); lia).
    assert (25 ≤ be_len n)%nat as H25.
    { destruct (be_len_pos n ltac:(lia)) as (m & -> & Hm). destruct (decide (24 ≤ m)%nat); [lia|]. assert (256 ^ Z.of_nat (S m) ≤ 256 ^ 24) by (apply Z.pow_le_mono_r; lia).
      change (256 ^ 24) with (2 ^ 192) in *. lia. }
    rewrite bool_decide_eq_false_2; [done|]. rewrite !elem_of_cons, elem_of_nil. lia.
Qed.

(** ** Indices of 64 bits *)

(** The three indices are all the bits of the number, each small enough for a hardened child, so
    that different numbers have different paths. *)
Theorem child_path_exact i : 0 ≤ i < 2 ^ 64 → ∃ h m l, child_path i = [h; m; l] ∧ i = h * 2 ^ 42 + m * 2 ^ 21 + l
  ∧ Forall (fun x => 0 ≤ x < 2 ^ 22 ∧ u32 (x + HardenedKeyStart) = x + HardenedKeyStart) [h; m; l].
Proof.
  intros Hi. eexists _, _, _. split; [reflexivity|].
  assert (∀ x, 0 ≤ x < 2 ^ 22 → 0 ≤ x < 2 ^ 22 ∧ u32 (x + HardenedKeyStart) = x + HardenedKeyStart) as Hx.
  { intros x Hx. split; [done|]. unfold HardenedKeyStart. rewrite wrapu_id by (unfold in_u; lia). lia. }
  assert (i ≫ 42 = i / 2 ^ 42) as E1 by (by rewrite Z.shiftr_div_pow2).
  assert (u64 (i ≪ 22) ≫ 43 = i / 2 ^ 21 mod 2 ^ 21) as E2.
  { unfold wrapu. rewrite Z.shiftr_div_pow2, Z.shiftl_mul_pow2 by lia. change (2 ^ 64) with (2 ^ 42 * 2 ^ 22). rewrite Z.mul_mod_distr_r by lia.
    change (2 ^ 43) with (2 ^ 21 * 2 ^ 22). rewrite Z.div_mul_cancel_r by lia. change (2 ^ 42) with (2 ^ 21 * 2 ^ 21). rewrite Z.rem_mul_r by lia.
    rewrite (Z.mul_comm (2 ^ 21)), Z.div_add by lia. rewrite Z.div_small by (apply Z.mod_pos_bound; lia). done. }
  assert (u64 (i ≪ 43) ≫ 43 = i mod 2 ^ 21) as E3.
  { unfold wrapu. rewrite Z.shiftr_div_pow2, Z.shiftl_mul_pow2 by lia. change (2 ^ 64) with (2 ^ 21 * 2 ^ 43). rewrite Z.mul_mod_distr_r by lia. by rewrite Z.div_mul by lia. }
  rewrite E1, E2, E3. pose proof (Z.mod_pos_bound (i / 2 ^ 21) (2 ^ 21) ltac:(lia)). pose proof (Z.mod_pos_bound i (2 ^ 21) ltac:(lia)).
  assert (0 ≤ i / 2 ^ 42 < 2 ^ 22) as Hh by (split; [apply Z.div_pos; lia|apply Z.div_lt_upper_bound; lia]).
  rewrite !(wrapu_id 32) by (unfold in_u; lia). split; [|repeat constructor; apply Hx; lia].
  pose proof (Z.div_mod i (2 ^ 21) ltac:(lia)). pose proof (Z.div_mod (i / 2 ^ 21) (2 ^ 21) ltac:(lia)) as Hd.
  rewrite Z.div_div in Hd by lia. change (2 ^ 21 * 2 ^ 21) with (2 ^ 42) in Hd. lia.
Qed.
End Bip32.
End SliceKeys.

(** ** Examples *)

(** The numbers modulo the order as the group, and a hash whose first half is the data. *)
Module SliceKeysDemo.

#[local] Instance toyHd : HdLib := {|
  Point := Z;
  hmac_sha512 _ d := take 32 (drop 1 d ++ replicate 32 Byte.x01) ++ replicate 32 Byte.x07;
  Hash160 d := d;
  base_mult a := a mod order;
  point_add a b := (a + b) mod order;
  zero_coordinate a := bool_decide (a = 0);
  SerializeCompressed a := Byte.x02 :: be_encode 32 a;
  ParsePubKey b := Some (be_decode (drop 1 b))
|}.

#[local] Instance toyGcm : GCM := {|
  gcm_key_ok k := bool_decide (length k ∈ [16; 24; 32]%nat);
  gcm_seal _ _ p := p ++ replicate 16 Byte.x00;
  gcm_open _ _ c := Some (take (length c - 16) c)
|}.

#[local] Instance toyHd_laws : HdLaws toyHd.
Proof.
  assert (order ≠ 0) by done. split; cbn -[replicate take drop be_encode be_decode order].
  - intros _ d. rewrite length_app, length_take, length_app, length_drop, !length_replicate. lia.
  - intros a b. by rewrite <- Z.add_mod, Z.mod_mod.
  - intros a Ha. rewrite Z.mod_small by lia. by rewrite bool_decide_eq_false_2 by lia.
  - intros a Ha. rewrite Z.mod_small by lia. f_equal. change (drop 1 (Byte.x02 :: be_encode 32 a)) with (be_encode 32 a). rewrite be_decode_encode. pose proof order_bounds. change (256 ^ Z.of_nat 32) with (2 ^ 256). apply Z.mod_small. lia.
  - intros a _. reflexivity.
Qed.

Definition wallet : bytes := replicate 40 Byte.x05.

Definition slice_key : ExtendedKey := match MasterKeyForSliceEncryption wallet 7 with Ok k => k | _ => mkExt [] [] [] 0 [] 0 false end.

Lemma slice_keys_may_be_short_witness : ∃ n, 0 ≤ n < order ∧ PrivateKey slice_key = be_bytes n.
Proof. destruct (slice_keys_may_be_short wallet 7 slice_key) as (n & Hn & Hk & _); [intros k; reflexivity|vm_compute; reflexivity|exists n; split; assumption]. Defined.

(** With this hash the key of the slice has all its bytes, and the slice comes back. *)
Example slice_roundtrip :
  (b ← encryptSliceData (fun s => Ok (Uint32ToBytes (HdkeyNonce s) ++ Uint64ToBytes (AesNonce s) ++ Data s)) wallet (2 ^ 31 + 7) 9 [Byte.x61];
   decryptSliceData (fun b => Ok (mkEncrypted (be_decode (take 4 b)) (be_decode (take 8 (drop 4 b))) (drop 12 b) 0)) wallet b) = Ok [Byte.x61].
Proof. vm_compute. reflexivity. Qed.
End SliceKeysDemo.
