(* ===== verification/UploadFile.v ===== *)
(** * UploadFile: slicing a file before its upload

    Models RequestUploadFile, both PreUpload handlers and the backup status of
    pp/event/upload_file.go, the hash of files (framework/crypto/hash_tools.go,
    GetFileHash and its map in pp/file/file.go) and the slices of videos (pp/file/video.go).

    [SliceBlock] is setting.DefaultSliceBlockSize, 2^25; the theorems hold for every positive
    size below 2^53, up to which the division in float64 is exact for sizes of files that can
    be read.  What ffprobe and ffmpeg do, and the number of slices that float64 arithmetic gives
    for a video, are parameters.  [draws] are the random numbers for the slice of a number. *)
From Stdlib Require Import Ascii.
From stdpp Require Import pretty.
From S2P Require Import Prelude Bytes Rlp Paths Storage Node Codec RpcUpload SliceKeys.

(** ** Data *)

Record FileInfo := mkFileInfo {
  fi_FileSize : Z; fi_FileName : string; fi_FileHash : string; fi_StoragePath : string;
  fi_EncryptionTag : string; fi_Duration : Z; fi_OwnerWalletAddress : string }.

(** [protos.ReqUploadFile], without the parts that are copied from the arguments. *)
Record UploadRequest := mkUploadRequest { uq_FileInfo : FileInfo; uq_Slices : list SliceHashAddr; uq_DesiredTier : Z; uq_AllowHigherTier : bool; uq_ReqTime : Z }.

Record HlsInfo := mkHls {
  hls_FileHash : string; HeaderFile : string; StartSliceNumber : Z; SegmentToSlice : gmap string Z; SliceToSegment : gmap Z string }.

Definition SDS_CODEC : Z := 0x66.
Definition VIDEO_CODEC : Z := 0x72.
Definition RAW_CODEC : Z := 0x55.

(** [errors.Wrap]; [errors.New] in place of an error. *)
Definition wrapM {A} (msg : string) (m : M A) : M A := fun fs =>
  match m fs with (Err e, fs) => (Err (msg +:+ ": " +:+ e), fs) | r => r end.
Definition replaceM {A} (msg : string) (m : M A) : M A := fun fs =>
  match m fs with (Err _, fs) => (Err msg, fs) | r => r end.

(** The outcome as a value, errors included. *)
Definition attempt {A} (m : M A) : M (res A) := fun fs =>
  match m fs with (Panic e, fs) => (Panic e, fs) | (r, fs) => (Ok r, fs) end.

(** ** Videos *)

(** [filepath.Ext] of a name without a slash. *)
Fixpoint Ext (s : string) : string :=
  match s with
  | EmptyString => ""
  | String a s' => if bool_decide (Ext s' = "") then (if bool_decide (a = "."%char) then s else "") else Ext s'
  end.

(** One file of the folder. *)
Definition add_segment (st : HlsInfo * Z) (name : string) : HlsInfo * Z :=
  let '(h, cur) := st in
  (mkHls (hls_FileHash h) (if bool_decide (Ext name = ".m3u8") then name else HeaderFile h) (StartSliceNumber h)
     (<[name := cur]> (SegmentToSlice h)) (<[cur := name]> (SliceToSegment h)), u64 (cur + 1)).

(** [files] are the names that os.ReadDir gives. *)
Definition GetHlsInfo (fileHash : string) (files : list string) (maxSliceCount : Z) : res HlsInfo :=
  let sliceCount := zlen files - 1 in
  if bool_decide (i64 maxSliceCount - 1 < sliceCount) then Err "number of HLS slices exceeds number of arranged slices"
  else
    let startSliceNumber := u64 (maxSliceCount - sliceCount) in
    Ok (foldl add_segment (mkHls fileHash "" startSliceNumber ∅ ∅, startSliceNumber) files).1.

Definition GetDumpySliceData (fileHash : string) (sliceNumber : Z) : bytes := string_bytes (fileHash +:+ pretty sliceNumber).

Section Upload.
Context {HL : HashLib} {HD : HdLib} {G : GCM} (io_err : syscall → string → bool) (rootPath : string).
Context (SliceBlock : Z) (marshal : EncryptedSlice → res bytes) (unmarshal : bytes → res EncryptedSlice).
Context (walletKey : bytes) (WalletAddress : string) (draws : Z → Z * Z).
Context (md5 : bytes → bytes) (cid_Encode : Z → bytes → string).

(** ** The hash of a file *)

Definition CalcFileKeccak (filePath : string) : M bytes :=
  f ← open_read io_err filePath; mret (if io_err SysRead filePath then [] else mh_Sum f).
Definition CalcFileMD5 (filePath : string) : M bytes :=
  f ← open_read io_err filePath; mret (md5 (if io_err SysRead filePath then [] else f)).

(** The hash and whether there was no error: a file that cannot be opened has the hash of its
    tag. *)
Definition CalcFileHash (filePath encryptionTag : string) (codec : Z) : M (string * bool) :=
  if bool_decide (filePath = "") then mret ("", false)
  else if bool_decide (codec = RAW_CODEC ∨ codec = VIDEO_CODEC ∨ codec = SDS_CODEC) then
    encoded ← catch (if bool_decide (codec = RAW_CODEC) then CalcFileMD5 filePath else CalcFileKeccak filePath);
    let data := string_bytes encryptionTag ++ default [] encoded in
    mret (cid_Encode codec (mh_Sum data), bool_decide (is_Some encoded))
  else mret ("", false).

(** The hash, whatever the error, and the map of the paths of files. *)
Definition GetFileHash (codec : Z) (fileMap : gmap string string) (filePath encryptionTag : string) : M (string * gmap string string) :=
  h ← CalcFileHash filePath encryptionTag codec; mret (h.1, <[h.1 := filePath]> fileMap).
Definition ClearFileMap (hash : string) (fileMap : gmap string string) : gmap string string := delete hash fileMap.
Definition GetFilePath (hash : string) (fileMap : gmap string string) : string := default "" (fileMap !! hash).

(** ** The slices *)

(** [os.FileInfo.Name] *)
Definition Base (p : string) : string := default p (list.last (split_on slash p)).

(** What both handlers do with the data of a slice. *)
Definition sealed (encryptionTag : string) (n : Z) (rawData : bytes) : M bytes :=
  if bool_decide (encryptionTag = "") then mret rawData
  else wrapM "Couldn't encrypt slice data" (lift (encryptSliceData marshal walletKey (draws n).1 (draws n).2 rawData)).

Definition raw_slice (filePath fileHash encryptionTag : string) (sliceCount fileSize n : Z) : M SliceHashAddr :=
  let '(start, stop) := GetSliceOffset n sliceCount SliceBlock fileSize in
  rawData ← replaceM "Failed reading data from file" (GetFileData io_err filePath start stop);
  data ← sealed encryptionTag n rawData;
  sliceHash ← wrapM "failed to calc slice hash" (lift (CalcSliceHash data fileHash n));
  _ ← wrapM "failed to save to temp file" (SaveTmpSliceData io_err rootPath fileHash sliceHash data);
  mret (mkSHA sliceHash (u64 (stop - start)) n start stop).

Fixpoint slices_loop (body : Z → M SliceHashAddr) (numbers : list Z) : M (list SliceHashAddr) :=
  match numbers with
  | [] => mret []
  | n :: numbers => s ← body n; l ← slices_loop body numbers; mret (s :: l)
  end.

(** What the handlers return, and the map of paths. *)
Definition prepared : Type := res (FileInfo * list SliceHashAddr) * gmap string string.

Definition PreUpload_raw (fileMap : gmap string string) (filePath encryptionTag : string) : M prepared :=
  info ← attempt (GetFileInfo io_err filePath);
  match info with
  | Ok fileSize =>
      '(fileHash, fileMap) ← GetFileHash SDS_CODEC fileMap filePath encryptionTag;
      let sliceCount := sliceCount SliceBlock fileSize in
      slices ← attempt (slices_loop (raw_slice filePath fileHash encryptionTag sliceCount fileSize) (seqZ 1 sliceCount));
      mret (slices ← slices; Ok (mkFileInfo fileSize (Base filePath) fileHash filePath encryptionTag 0 WalletAddress, slices), fileMap)
  | Err e => mret (Err e, fileMap)
  | Panic e => lift (Panic e)
  end.

(** ** Videos *)

(** [ffprobe] gives the length in seconds, [arranged] the number of slices for a size and a
    length, [ffmpeg] fills the folder, [ReadDir] lists it. *)
Context (ffprobe : string → res Z) (arranged : Z → Z → Z) (ffmpeg : string → string → FS → FS) (ReadDir : string → FS → res (list string)).
Context (json_Marshal : HlsInfo → bytes).

Definition GetVideoTmpFolder (fileHash : string) : string := Join [rootPath; TEMP_FOLDER; "hls_" +:+ fileHash].

(** Errors of the commands are not looked at. *)
Definition VideoToHls (fileHash filePath : string) : M bool := fun fs => (Ok true, ffmpeg (GetVideoTmpFolder fileHash) filePath fs).

Definition DeleteTmpHlsFolder (fileHash : string) : M unit := fun fs =>
  let folder := GetVideoTmpFolder fileHash in
  (Ok (), mkFS (filter (fun x => String.prefix (folder +:+ "/") x.1 = false) (fs_files fs)) (fs_dirs fs ∖ {[folder]})).

Definition stream_data (fileHash : string) (hlsInfo : HlsInfo) (n : Z) : M (bytes * Z) :=
  if bool_decide (n = 1) then let d := json_Marshal hlsInfo in mret (d, zlen d)
  else if bool_decide (n < StartSliceNumber hlsInfo) then let d := GetDumpySliceData fileHash n in mret (d, zlen d)
  else
    let slicePath := GetVideoTmpFolder fileHash +:+ "/" +:+ default "" (SliceToSegment hlsInfo !! n) in
    size ← replaceM "wrong file path" (GetFileInfo io_err slicePath);
    d ← replaceM "failed getting whole file data" (GetWholeFileData io_err slicePath);
    mret (d, size).

Definition stream_slice (fileHash encryptionTag : string) (hlsInfo : HlsInfo) (n : Z) : M SliceHashAddr :=
  r ← stream_data fileHash hlsInfo n;
  let '(rawData, sliceSize) := r in
  data ← sealed encryptionTag n rawData;
  sliceHash ← wrapM "failed to calc slice hash" (lift (CalcSliceHash data fileHash n));
  _ ← wrapM "failed to save to temp file" (SaveTmpSliceData io_err rootPath fileHash sliceHash data);
  _ ← SaveTmpSliceData io_err rootPath fileHash sliceHash data;
  mret (mkSHA sliceHash sliceSize n 0 sliceSize).

Definition stream_slices (filePath fileHash encryptionTag : string) (duration sliceCount : Z) : M (FileInfo * list SliceHashAddr) :=
  fs ← get_fs;
  files ← lift (ReadDir (GetVideoTmpFolder fileHash) fs);
  hlsInfo ← lift (GetHlsInfo fileHash files sliceCount);
  slices ← slices_loop (stream_slice fileHash encryptionTag hlsInfo) (seqZ 1 sliceCount);
  _ ← DeleteTmpHlsFolder fileHash;
  mret (mkFileInfo (u64 (foldl (fun t s => i64 (t + sh_SliceSize s)) 0 slices)) (Base filePath) fileHash filePath encryptionTag duration WalletAddress, slices).

Definition PreUpload_stream (fileMap : gmap string string) (filePath encryptionTag : string) : M prepared :=
  info ← attempt (fileSize ← GetFileInfo io_err filePath; duration ← lift (ffprobe filePath); mret (fileSize, duration));
  match info with
  | Ok (fileSize, duration) =>
      '(fileHash, fileMap) ← GetFileHash VIDEO_CODEC fileMap filePath encryptionTag;
      _ ← VideoToHls fileHash (GetFilePath fileHash fileMap);
      r ← attempt (stream_slices filePath fileHash encryptionTag duration (arranged fileSize duration));
      mret (r, fileMap)
  | Err e => mret (Err e, fileMap)
  | Panic e => lift (Panic e)
  end.

(** ** The request *)

(** [login] is setting.CheckLogin, [tag] the eight random letters.  The request goes out with
    the query of the wallet's ozone; the progress of the file is recorded with it. *)
Definition RequestUploadFile (login : bool) (tag : string) (fileMap : gmap string string) (path : string) (isEncrypted isVideoStream : bool)
    (desiredTier : Z) (allowHigherTier : bool) (reqTime : Z) : M (option (UploadRequest * (string * Z)) * gmap string string) :=
  if negb login then mret (None, fileMap)
  else
    fs ← get_fs;
    if io_err SysStat path || negb (bool_decide (is_Some (fs_files fs !! path))) then mret (None, fileMap)
    else
      let encryptionTag := if isEncrypted then tag else "" in
      '(r, fileMap) ← (if isVideoStream then PreUpload_stream else PreUpload_raw) fileMap path encryptionTag;
      match r with
      | Ok (info, slices) =>
          mret (Some (mkUploadRequest info slices desiredTier allowHigherTier reqTime, (fi_FileHash info, i64 (fi_FileSize info))), fileMap)
      | _ => mret (None, fileMap)
      end.
End Upload.

(** ** What the loop does *)

Lemma M_bind_ok {A B} (m : M A) (f : A → M B) fs b fs' :
  (m ≫= f) fs = (Ok b, fs') → ∃ a fs1, m fs = (Ok a, fs1) ∧ f a fs1 = (Ok b, fs').
Proof. unfold mbind, M_bind. destruct (m fs) as [[a|e|e] fs1]; [|done..]. by exists a, fs1. Qed.

Lemma wrapM_ok {A} msg (m : M A) fs a fs' : wrapM msg m fs = (Ok a, fs') → m fs = (Ok a, fs').
Proof. unfold wrapM. by destruct (m fs) as [[]]. Qed.

Lemma replaceM_ok {A} msg (m : M A) fs a fs' : replaceM msg m fs = (Ok a, fs') → m fs = (Ok a, fs').
Proof. unfold replaceM. by destruct (m fs) as [[]]. Qed.

Lemma attempt_ok {A} (m : M A) fs r fs' : attempt m fs = (Ok r, fs') → m fs = (r, fs').
Proof. unfold attempt. destruct (m fs) as [[]]; congruence. Qed.

Lemma GetFileData_same io_err p a b fs : (GetFileData io_err p a b fs).2 = fs.
Proof. unfold GetFileData, open_read. run_M. repeat (case_match; simplify_eq; try done). Qed.

Lemma CalcFileHash_same {HL : HashLib} io_err md5 cid_Encode p tag codec fs : (CalcFileHash io_err md5 cid_Encode p tag codec fs).2 = fs.
Proof.
  unfold CalcFileHash, CalcFileMD5, CalcFileKeccak, open_read. case_bool_decide; [done|]. case_bool_decide; [|done]. run_M.
  case_bool_decide; destruct (io_err SysOpen p); try done; by destruct (fs_files fs !! p).
Qed.

Lemma SaveTmp_fresh io_err rootPath fileHash h data fs fs' : fs_files fs !! GetTmpSlicePath rootPath fileHash h = None →
  SaveTmpSliceData io_err rootPath fileHash h data fs = (Ok (), fs') → fs_files fs' = <[GetTmpSlicePath rootPath fileHash h := data]> (fs_files fs).
Proof.
  intros Hn. unfold SaveTmpSliceData. intros (f & fs1 & Ho & Hw)%M_bind_ok.
  destruct (OpenTmpFile_new io_err rootPath fileHash (fun _ => h) 0 fs (Ok f) fs1 Hn Ho) as [-> E1]. change (tmp_path _ _ _ _) with (GetTmpSlicePath rootPath fileHash h) in E1.
  unfold file_WriteAt in Hw. destruct (bool_decide _); [done|]. destruct (io_err _ _); [done|]. revert Hw. run_M. intros [= <-]. cbn [fs_files with_file].
  rewrite E1, insert_insert_eq. f_equal. apply (write_at_end []).
Qed.

Section Restore.
Context {HL : HashLib} {HD : HdLib} {G : GCM} (io_err : syscall → string → bool) (rootPath : string).
Context (SliceBlock : Z) (marshal : EncryptedSlice → res bytes) (unmarshal : bytes → res EncryptedSlice).
Context (walletKey : bytes) (WalletAddress : string) (draws : Z → Z * Z).
Context (md5 : bytes → bytes) (cid_Encode : Z → bytes → string).

(** The data of a slice as the downloading node saves it. *)
Definition unsealed (encryptionTag : string) (data : bytes) : res bytes :=
  if bool_decide (encryptionTag = "") then Ok data else decryptSliceData unmarshal walletKey data.

Definition slice_file (fileHash : string) (s : SliceHashAddr) : string := GetTmpSlicePath rootPath fileHash (sh_SliceHash s).

(** A download: the slices, in whatever order they come, are written where they belong. *)
Fixpoint restore (fileHash encryptionTag : string) (fs : FS) (slices : list SliceHashAddr) (f : bytes) : res bytes :=
  match slices with
  | [] => Ok f
  | s :: slices =>
      data ← match fs_files fs !! slice_file fileHash s with Some d => Ok d | None => Err "no such slice" end;
      raw ← unsealed encryptionTag data;
      restore fileHash encryptionTag fs slices (write_at f (Z.to_nat (sh_Start s)) raw)
  end.

Context {GL : GCMLaws G} (marshal_law : ∀ s b, marshal s = Ok b → unmarshal b = Ok s).
Context (content : bytes) (H_block : 0 < SliceBlock < 2 ^ 53) (H_size : zlen content < 2 ^ 53).

#[local] Abbreviation count := (sliceCount SliceBlock (zlen content)).
#[local] Abbreviation lo := (lo SliceBlock).
#[local] Abbreviation hi := (hi SliceBlock (zlen content)).
#[local] Abbreviation raw_slice filePath fileHash tag := (raw_slice io_err rootPath SliceBlock marshal walletKey draws filePath fileHash tag count (zlen content)).

Lemma bounds_ok : 0 < SliceBlock < 2 ^ 53 ∧ 0 < 1 < 2 ^ 48 ∧ zlen content < 2 ^ 53.
Proof. lia. Qed.

(** A slice that is announced with its place and stored. *)
Definition good_slice (fileHash tag : string) (fs : FS) (n : Z) (s : SliceHashAddr) : Prop :=
  s = mkSHA (sh_SliceHash s) (hi n - lo n) n (lo n) (hi n)
  ∧ ∃ data, fs_files fs !! slice_file fileHash s = Some data ∧ CalcSliceHash data fileHash n = Ok (sh_SliceHash s)
            ∧ unsealed tag data = Ok (part content (lo n) (hi n)).

Lemma sealed_unsealed tag n raw data fs fs' : sealed marshal walletKey draws tag n raw fs = (Ok data, fs') → fs' = fs ∧ unsealed tag data = Ok raw.
Proof.
  unfold sealed, unsealed. case_bool_decide; [by intros [= -> ->]|]. intros Hs%wrapM_ok. unfold lift in Hs. injection Hs as Hs <-. split; [done|].
  by apply (encrypted_slices_decrypt marshal unmarshal walletKey (draws n).1 (draws n).2).
Qed.

Lemma raw_slice_ok filePath fileHash tag fs fs' n s : fs_files fs !! filePath = Some content → 1 ≤ n ≤ count →
  raw_slice filePath fileHash tag n fs = (Ok s, fs') → fs_files fs !! slice_file fileHash s = None →
  good_slice fileHash tag fs' n s ∧ ∀ p, p ≠ slice_file fileHash s → fs_files fs' !! p = fs_files fs !! p.
Proof.
  intros Hc Hn. unfold UploadFile.raw_slice. pose proof (sliceOffset_eq SliceBlock 1 (zlen content) content eq_refl bounds_ok n Hn) as Eo.
  pose proof (slice_bounds SliceBlock 1 (zlen content) content eq_refl bounds_ok n Hn) as Hb.
  unfold sliceOffset in Eo. rewrite Eo. intros (raw & fs1 & Hr%replaceM_ok & H1)%M_bind_ok Hfresh.
  assert (fs1 = fs) as -> by (rewrite <- (GetFileData_same io_err filePath (lo n) (hi n) fs), Hr; done).
  assert (raw = part content (lo n) (hi n)) as -> by (eapply (client_reads SliceBlock 1 (zlen content) io_err filePath fs content Hc eq_refl bounds_ok); [lia|lia|by rewrite Hr]).
  apply M_bind_ok in H1 as (data & fs1 & Hs & H1). apply sealed_unsealed in Hs as [-> Hu].
  apply M_bind_ok in H1 as (h & fs1 & Hh%wrapM_ok & H1). unfold lift in Hh. injection Hh as Hh <-.
  apply M_bind_ok in H1 as ([] & fs1 & Hw%wrapM_ok & H1). injection H1 as <- <-.
  pose proof (SaveTmp_fresh _ _ _ _ _ _ _ Hfresh Hw) as Ef. split.
  - split; [cbn; rewrite u64_id by lia; done|]. exists data. cbn [sh_SliceHash] in *. unfold slice_file. cbn [sh_SliceHash]. by rewrite Ef, lookup_insert_eq.
  - intros p Hp. rewrite Ef. by apply lookup_insert_ne.
Qed.

Lemma slices_loop_ok filePath fileHash tag ns : ∀ fs fs' slices, fs_files fs !! filePath = Some content → Forall (fun n => 1 ≤ n ≤ count) ns →
  slices_loop (raw_slice filePath fileHash tag) ns fs = (Ok slices, fs') →
  NoDup (slice_file fileHash <$> slices) → Forall (fun s => fs_files fs !! slice_file fileHash s = None) slices →
  Forall2 (good_slice fileHash tag fs') ns slices ∧ ∀ p, p ∉ slice_file fileHash <$> slices → fs_files fs' !! p = fs_files fs !! p.
Proof.
  induction ns as [|n ns IH]; intros fs fs' slices Hc Hns; cbn [slices_loop].
  { intros [= <- <-] _ _. split; [constructor|done]. }
  intros (s & fs1 & Hs & (l & fs2 & Hl & [= <- <-])%M_bind_ok)%M_bind_ok Hd Hf. apply Forall_cons_1 in Hns as [Hn Hns], Hf as [Hf1 Hf].
  rewrite fmap_cons in Hd. apply list.NoDup_cons in Hd as [Hnew Hd]. destruct (raw_slice_ok _ _ _ _ _ _ _ Hc Hn Hs Hf1) as [Hg Ho].
  destruct (IH fs1 fs2 l) as [Hg2 Ho2]; try done.
  - rewrite Ho; [done|]. intros E. congruence.
  - rewrite Forall_forall in *. intros x Hx. rewrite Ho; [by apply Hf|]. intros E. apply Hnew. rewrite <- E. by apply list_elem_of_fmap_2, list_elem_of_In.
  - split.
    + constructor; [|done]. destruct Hg as (E & data & Hl1 & Hg). split; [done|]. exists data. by rewrite Ho2.
    + intros p Hp. rewrite fmap_cons, not_elem_of_cons in Hp. destruct Hp. rewrite Ho2 by done. by apply Ho.
Qed.

(** A slice that can be written back. *)
Definition restorable (fileHash tag : string) (fs : FS) (s : SliceHashAddr) : Prop :=
  0 ≤ sh_Start s ≤ sh_End s ∧ sh_End s ≤ zlen content
  ∧ ∃ data, fs_files fs !! slice_file fileHash s = Some data ∧ unsealed tag data = Ok (part content (sh_Start s) (sh_End s)).

Lemma restore_agrees fileHash tag fs slices : ∀ f w, agrees content f w → (∀ i, w i → (i < length content)%nat) → Forall (restorable fileHash tag fs) slices →
  ∃ f', restore fileHash tag fs slices f = Ok f' ∧ agrees content f' (fun i => w i ∨ ∃ s, s ∈ slices ∧ sh_Start s ≤ Z.of_nat i < sh_End s).
Proof.
  induction slices as [|s slices IH]; intros f w Ha Hw Hs; cbn [restore].
  - exists f. split; [done|]. destruct Ha as [Hl Ha]. split; [done|]. intros i [Hi|(s & Hs' & _)]; [by apply Ha|]. by apply elem_of_nil in Hs'.
  - apply Forall_cons_1 in Hs as [(Hb & He & data & Hd & Hu) Hs]. rewrite Hd. cbn [mbind res_bind]. rewrite Hu. cbn [mbind res_bind].
    pose proof (part_length (zlen content) content eq_refl (sh_Start s) (sh_End s) Hb He) as Hlen.
    assert (piece_of content (sh_Start s, part content (sh_Start s) (sh_End s))) as Hp.
    { split_and!; cbn; [lia|lia|rewrite Hlen; lia|]. assert (length (part content (sh_Start s) (sh_End s)) = Z.to_nat (sh_End s - sh_Start s)) as -> by (unfold zlen in Hlen; lia). done. }
    pose proof (agrees_write content f w _ Ha Hw Hp) as Ha2. cbn [fst snd] in Ha2.
    destruct (IH _ _ Ha2) as (f' & Hf' & Hl & Hf2); [|done|].
    + intros i [Hi|Hi]; [by apply Hw|]. unfold in_piece in Hi. cbn in Hi. rewrite Hlen in Hi. unfold zlen in *. lia.
    + exists f'. split; [done|]. split; [done|]. intros i Hi. apply Hf2. destruct Hi as [Hi|(x & [->|Hx]%elem_of_cons & Hi)]; [tauto| |].
      * left. right. unfold in_piece. cbn. rewrite Hlen. lia.
      * right. by exists x.
Qed.

Lemma blocks_cover i : (i < length content)%nat → ∃ n, 1 ≤ n ≤ count ∧ lo n ≤ Z.of_nat i < hi n.
Proof.
  intros Hi. exists (Z.of_nat i / SliceBlock + 1). pose proof (Z.mul_div_le (Z.of_nat i) SliceBlock ltac:(lia)) as H1.
  pose proof (Z.mul_succ_div_gt (Z.of_nat i) SliceBlock ltac:(lia)) as H2. pose proof (Z.div_pos (Z.of_nat i) SliceBlock ltac:(lia) ltac:(lia)) as H3.
  destruct (count_bounds SliceBlock 1 (zlen content) content eq_refl bounds_ok) as [Hc|[_ Hc]]; [|unfold zlen in Hc; lia].
  assert (Z.of_nat i < zlen content) as Hi' by (unfold zlen; lia). set (q := Z.of_nat i / SliceBlock) in *.
  assert (q < count) by nia. split; [lia|]. unfold RpcUpload.lo, RpcUpload.hi. case_bool_decide; [lia|nia].
Qed.

(** C19: A file that was sliced, encrypted or not, comes back: its slices have the numbers from 1
    and follow each other, each is stored under its hash, and writing them back in any order
    gives the file.  The hashes must be different and their files new. *)
Theorem sliced_file_comes_back fileMap filePath tag info slices fileMap' fs fs' :
  fs_files fs !! filePath = Some content →
  PreUpload_raw io_err rootPath SliceBlock marshal walletKey WalletAddress draws md5 cid_Encode fileMap filePath tag fs = (Ok (Ok (info, slices), fileMap'), fs') →
  NoDup (slice_file (fi_FileHash info) <$> slices) → Forall (fun s => fs_files fs !! slice_file (fi_FileHash info) s = None) slices →
  fi_FileSize info = zlen content ∧ GetFilePath (fi_FileHash info) fileMap' = filePath ∧ Forall2 (good_slice (fi_FileHash info) tag fs') (seqZ 1 count) slices
  ∧ ∀ order, order ≡ₚ slices → restore (fi_FileHash info) tag fs' order [] = Ok content.
Proof.
  intros Hc. unfold PreUpload_raw. intros (sz & fs1 & H1%attempt_ok & H2)%M_bind_ok Hd Hf.
  assert (sz = Ok (zlen content) ∧ fs1 = fs) as [-> ->].
  { destruct sz as [size| |]; [|by destruct fs1|by destruct fs1]. revert H1. unfold GetFileInfo. run_M. destruct (io_err SysStat filePath); [done|]. rewrite Hc. by intros [= <- <-]. }
  apply M_bind_ok in H2 as ([fileHash fm] & fs1 & Hh & H2). apply M_bind_ok in H2 as (r & fs2 & Hl%attempt_ok & H2). injection H2 as H2 <- <-.
  apply bind_ok in H2 as (sl & -> & [= <- <-]). cbn [fi_FileHash fi_FileSize] in *.
  assert (fs1 = fs ∧ fm !! fileHash = Some filePath) as [-> Hm].
  { unfold GetFileHash in Hh. apply M_bind_ok in Hh as (hh & fs0 & Hh & [= <- <- <-]). split; [|by rewrite lookup_insert_eq].
    by rewrite <- (CalcFileHash_same io_err md5 cid_Encode filePath tag SDS_CODEC fs), Hh. }
  destruct (slices_loop_ok filePath fileHash tag (seqZ 1 count) fs fs2 sl) as [Hg _]; try done.
  { apply Forall_seqZ. intros n Hn. lia. }
  split_and!; [done|unfold GetFilePath; by rewrite Hm|done|]. intros order Hp.
  assert (Forall (restorable fileHash tag fs2) order) as Hr.
  { rewrite Hp. apply Forall_forall. intros s Hs. apply list_elem_of_In, list_elem_of_lookup in Hs as [i Hi]. destruct (Forall2_lookup_r _ _ _ _ _ Hg Hi) as (n & Hn & E & data & Hx & _ & Hu).
    apply lookup_seqZ in Hn as [-> Hi2]. pose proof (slice_bounds SliceBlock 1 (zlen content) content eq_refl bounds_ok (1 + Z.of_nat i) ltac:(lia)) as Hb.
    assert (sh_Start s = lo (1 + Z.of_nat i) ∧ sh_End s = hi (1 + Z.of_nat i)) as [E1 E2] by (by rewrite E). unfold restorable. rewrite E1, E2. split_and!; [lia..|]. by exists data. }
  destruct (restore_agrees fileHash tag fs2 order [] (fun _ => False)) as (f & -> & Ha); [split; [cbn; lia|done]|done|done|]. f_equal.
  apply (agrees_all _ _ _ Ha). intros i Hi. right. destruct (blocks_cover i Hi) as (n & Hn & Hin).
  destruct (Forall2_lookup_l _ _ _ (Z.to_nat (n - 1)) n Hg) as (s & Hs & E & _); [apply lookup_seqZ; lia|].
  exists s. split; [rewrite Hp; by eapply list_elem_of_lookup_2|]. by rewrite E.
Qed.
End Restore.

(** ** The slices of a video *)

Lemma add_segments files : ∀ h cur, 0 ≤ cur → cur + zlen files < 2 ^ 64 → NoDup files →
  let h' := (foldl add_segment (h, cur) files).1 in
  StartSliceNumber h' = StartSliceNumber h
  ∧ (∀ n, SliceToSegment h' !! n = if decide (cur ≤ n < cur + zlen files) then files !! Z.to_nat (n - cur) else SliceToSegment h !! n)
  ∧ (∀ i name, files !! i = Some name → SegmentToSlice h' !! name = Some (cur + Z.of_nat i))
  ∧ (∀ name, name ∉ files → SegmentToSlice h' !! name = SegmentToSlice h !! name).
Proof.
  induction files as [|f files IH]; intros h cur H0 Hb Hd; cbn [foldl].
  - split_and!; try done. intros n. case_decide; [unfold zlen in *; cbn in *; lia|done].
  - apply list.NoDup_cons in Hd as [Hf Hd]. assert (zlen (f :: files) = 1 + zlen files) as El by (unfold zlen; cbn; lia). rewrite El in *.
    assert (0 ≤ zlen files) by (unfold zlen; lia). set (h1 := mkHls (hls_FileHash h) (if bool_decide (Ext f = ".m3u8") then f else HeaderFile h) (StartSliceNumber h) (<[f:=cur]> (SegmentToSlice h)) (<[cur:=f]> (SliceToSegment h))).
    assert (add_segment (h, cur) f = (h1, cur + 1)) as -> by (unfold add_segment; by rewrite u64_id by lia). destruct (IH h1 (cur + 1)) as (E1 & E2 & E3 & E4); [lia|lia|done|]. split_and!; [done|..].
    + intros n. rewrite E2. cbn [SliceToSegment h1]. destruct (decide (n = cur)) as [->|Hne].
      * rewrite decide_False, decide_True by lia. by rewrite lookup_insert_eq, Z.sub_diag.
      * rewrite lookup_insert_ne by done. destruct (decide (cur + 1 ≤ n < cur + 1 + zlen files)) as [Hin|Hin].
        -- rewrite decide_True by lia. replace (Z.to_nat (n - cur)) with (S (Z.to_nat (n - (cur + 1)))) by lia. done.
        -- by rewrite decide_False by lia.
    + intros [|i] name Hi; cbn in Hi.
      * injection Hi as ->. rewrite E4 by done. cbn [SegmentToSlice h1]. rewrite lookup_insert_eq. f_equal. lia.
      * rewrite (E3 i name Hi). f_equal. lia.
    + intros name [Hn Hn2]%not_elem_of_cons. rewrite E4 by done. cbn [SegmentToSlice h1]. by rewrite lookup_insert_ne.
Qed.

(** The files of a video and the numbers from the start to the last slice correspond one to
    one, in both maps. *)
Lemma hls_numbers fileHash files maxSliceCount info : NoDup files → files ≠ [] → 0 < maxSliceCount < 2 ^ 63 →
  GetHlsInfo fileHash files maxSliceCount = Ok info →
  StartSliceNumber info = maxSliceCount - zlen files + 1 ∧ 1 ≤ StartSliceNumber info ≤ maxSliceCount
  ∧ (∀ n, SliceToSegment info !! n = if decide (StartSliceNumber info ≤ n ≤ maxSliceCount) then files !! Z.to_nat (n - StartSliceNumber info) else None)
  ∧ (∀ i name, files !! i = Some name → SegmentToSlice info !! name = Some (StartSliceNumber info + Z.of_nat i)).
Proof.
  intros Hd Hne Hm. unfold GetHlsInfo. rewrite (wraps_id 64) by (unfold in_s; lia). assert (0 < zlen files) by (destruct files; [done|unfold zlen; cbn; lia]).
  case_bool_decide; [done|]. rewrite u64_id by lia. intros [= <-].
  destruct (add_segments files (mkHls fileHash "" (maxSliceCount - (zlen files - 1)) ∅ ∅) (maxSliceCount - (zlen files - 1))) as (E1 & E2 & E3 & _); [lia|lia|done|].
  rewrite E1. cbn [StartSliceNumber] in *. split_and!; [lia..| |by intros; apply E3].
  intros n. rewrite E2. cbn [SliceToSegment]. destruct (decide (_ ≤ n ≤ maxSliceCount)); [by rewrite decide_True by lia|by rewrite decide_False by lia].
Qed.

(** Slice 1 holds the description of the video.  Every other file of the video is in exactly
    one slice, but the first one is in none when there are as many files as slices. *)
Theorem video_files_have_slices fileHash files maxSliceCount info i name : NoDup files → 0 < maxSliceCount < 2 ^ 63 →
  GetHlsInfo fileHash files maxSliceCount = Ok info → files !! i = Some name →
  if decide (i = 0%nat ∧ zlen files = maxSliceCount)
  then ∀ n, 1 < n → SliceToSegment info !! n ≠ Some name
  else ∃ n, 1 < n ≤ maxSliceCount ∧ StartSliceNumber info ≤ n ∧ ∀ m, SliceToSegment info !! m = Some name ↔ m = n.
Proof.
  intros Hd Hm Hi Hn. destruct (hls_numbers fileHash files maxSliceCount info Hd ltac:(by destruct files) Hm Hi) as (E & Hb & E2 & E3).
  pose proof (lookup_lt_Some _ _ _ Hn) as Hlt. assert (Z.of_nat i < zlen files) by (unfold zlen; lia).
  assert (∀ m, SliceToSegment info !! m = Some name ↔ m = StartSliceNumber info + Z.of_nat i) as Hx.
  { intros m. rewrite E2. case_decide as Hr.
    - split; [intros H1; pose proof (NoDup_lookup _ _ _ _ Hd H1 Hn); lia|]. intros ->. rewrite <- Hn. f_equal. lia.
    - split; [done|]. intros ->. lia. }
  case_decide as Hc.
  - intros n H1 H2%Hx. lia.
  - exists (StartSliceNumber info + Z.of_nat i). split_and!; [|lia..|done]. assert (i ≠ 0%nat ∨ zlen files ≠ maxSliceCount) by (destruct (decide (i = 0%nat)); tauto). lia.
Qed.

(** ** Examples *)

Module UploadFileDemo.
#[local] Existing Instance SliceKeysDemo.toyHd.
#[local] Existing Instance SliceKeysDemo.toyGcm.

(** Hashes of one byte, written as a number. *)
#[local] Instance sum_lib : HashLib := {|
  cid_Hash _ := [Byte.x2a];
  mh_Sum l := [byte_of_Z (foldr (fun b z => z * 7 + Z_of_byte b) 3 l)];
  cid_String l := pretty (be_decode l)
|}.

#[local] Instance toyGcm_laws : GCMLaws SliceKeysDemo.toyGcm.
Proof.
  split; cbn [gcm_open gcm_seal gcm_key_ok SliceKeysDemo.toyGcm].
  - intros k n p _. rewrite length_app, length_replicate. replace (length p + 16 - 16)%nat with (length p) by lia. by rewrite take_app_length.
  - intros k n p. unfold zlen. rewrite length_app, length_replicate. lia.
Qed.

Definition no_err : syscall → string → bool := fun _ _ => false.
(** Three numbers and the data; numbers that are too big are refused. *)
Definition encode (s : EncryptedSlice) : res bytes :=
  if bool_decide (0 ≤ HdkeyNonce s < 2 ^ 32 ∧ 0 ≤ AesNonce s < 2 ^ 64 ∧ 0 ≤ RawSize s < 2 ^ 64)
  then Ok (be_encode 4 (HdkeyNonce s) ++ be_encode 8 (AesNonce s) ++ be_encode 8 (RawSize s) ++ Data s) else Err "out of range".
Definition decode (b : bytes) : res EncryptedSlice :=
  Ok (mkEncrypted (be_decode (take 4 b)) (be_decode (take 8 (drop 4 b))) (drop 20 b) (be_decode (take 8 (drop 12 b)))).

Lemma decode_encode_demo s b : encode s = Ok b → decode b = Ok s.
Proof.
  destruct s as [h a d r]. unfold encode. cbn [HdkeyNonce AesNonce RawSize Data]. case_bool_decide as Hr; [|done]. intros Hb. assert (b = be_encode 4 h ++ be_encode 8 a ++ be_encode 8 r ++ d) as -> by congruence. unfold decode. f_equal.
  pose proof (length_be_encode 4 h) as L1. pose proof (length_be_encode 8 a) as L2. pose proof (length_be_encode 8 r) as L3.
  set (e1 := be_encode 4 h) in *. set (e2 := be_encode 8 a) in *. set (e3 := be_encode 8 r) in *.
  assert (drop 4 (e1 ++ e2 ++ e3 ++ d) = e2 ++ e3 ++ d) as D1 by (by apply drop_app_length').
  assert (drop 12 (e1 ++ e2 ++ e3 ++ d) = e3 ++ d) as D2 by (change 12%nat with (4 + 8)%nat; rewrite <- drop_drop, D1; by apply drop_app_length').
  assert (drop 20 (e1 ++ e2 ++ e3 ++ d) = d) as D3 by (change 20%nat with (12 + 8)%nat; rewrite <- drop_drop, D2; by apply drop_app_length').
  rewrite D1, D2, D3, !take_app_length' by done. unfold e1, e2, e3. rewrite !be_decode_encode.
  change (256 ^ Z.of_nat 4) with (2 ^ 32). change (256 ^ Z.of_nat 8) with (2 ^ 64). by rewrite !Z.mod_small by lia.
Qed.

Definition data : bytes := string_bytes "ten bytes!".
Definition fs0 : FS := mkFS {["/home/a.txt" := data]} ∅.

Definition demo_upload (tag : string) := PreUpload_raw no_err "/sds" 4 encode SliceKeysDemo.wallet "st1owner" (fun n => (n * 7, n * 9)) (fun b => b) (fun c b => pretty c +:+ pretty (be_decode b)) ∅ "/home/a.txt" tag fs0.

(** Three slices of four, four and two bytes, encrypted or not. *)
Example sizes : ∀ tag, tag ∈ [""; "tagtagta"] →
  match demo_upload tag with
  | (Ok (Ok (info, slices), _), fs') =>
      sh_SliceSize <$> slices = [4; 4; 2] ∧ restore "/sds" decode SliceKeysDemo.wallet (fi_FileHash info) tag fs' (rev slices) [] = Ok data
  | _ => False
  end.
Proof. intros tag. rewrite !elem_of_cons, elem_of_nil. intros [->|[->|[]]]; vm_compute; split; reflexivity. Qed.

(** Five files in five slices: 0.ts is not uploaded. *)
Example first_segment_is_lost :
  match GetHlsInfo "v1file" ["0.ts"; "1.ts"; "2.ts"; "3.ts"; "index.m3u8"] 5 with
  | Ok info => StartSliceNumber info = 1 ∧ SegmentToSlice info !! "0.ts" = Some 1 ∧ HeaderFile info = "index.m3u8"
  | _ => False
  end.
Proof. vm_compute. split_and!; reflexivity. Qed.

(** ffmpeg has written nothing: the description and four slices of filling are uploaded. *)
Example failed_conversion_is_uploaded :
  match GetHlsInfo "v1file" [] 5 with Ok info => StartSliceNumber info = 6 ∧ HeaderFile info = "" | _ => False end.
Proof. vm_compute. split; reflexivity. Qed.

Lemma video_files_have_slices_witness : ∃ info, GetHlsInfo "v1file" ["0.ts"; "1.ts"; "index.m3u8"] 7 = Ok info
  ∧ ∃ n, 1 < n ≤ 7 ∧ StartSliceNumber info ≤ n ∧ ∀ m, SliceToSegment info !! m = Some "0.ts" ↔ m = n.
Proof.
  eexists. split; [reflexivity|].
  apply (video_files_have_slices "v1file" ["0.ts"; "1.ts"; "index.m3u8"] 7 _ 0 "0.ts"); [|lia|reflexivity|reflexivity].
  apply (bool_decide_unpack _). vm_compute. exact I.
Defined.

Lemma sliced_file_comes_back_witness : ∃ info slices fm fs', demo_upload "tagtagta" = (Ok (Ok (info, slices), fm), fs')
  ∧ fi_FileSize info = zlen data ∧ GetFilePath (fi_FileHash info) fm = "/home/a.txt"
  ∧ Forall2 (good_slice "/sds" 4 decode SliceKeysDemo.wallet data (fi_FileHash info) "tagtagta" fs') (seqZ 1 (sliceCount 4 (zlen data))) slices
  ∧ ∀ order, order ≡ₚ slices → restore "/sds" decode SliceKeysDemo.wallet (fi_FileHash info) "tagtagta" fs' order [] = Ok data.
Proof.
  eexists _, _, _, _. split; [vm_compute; reflexivity|].
  apply (sliced_file_comes_back no_err "/sds" 4 encode decode SliceKeysDemo.wallet "st1owner" (fun n => (n * 7, n * 9)) (fun b => b) (fun c b => pretty c +:+ pretty (be_decode b))
    decode_encode_demo data) with (fileMap := ∅) (fs := fs0).
  - lia.
  - vm_compute. reflexivity.
  - reflexivity.
  - vm_compute. reflexivity.
  - apply (bool_decide_unpack _). vm_compute. exact I.
  - apply (bool_decide_unpack _). vm_compute. exact I.
Defined.
End UploadFileDemo.
