(* ===== verification/UploadJobs.v ===== *)
(** * UploadJobs: the upload of a file from the SP's answer to its end

    Models RspUploadFile, RspBackupStatus, startUploadTask, uploadTaskHelper, uploadTaskHandler
    and UploadPause of pp/event/upload_file.go, with SetScheduledJob, SignalNewDestinations and
    StopRepeatedUploadTaskJob of pp/task/upload_task.go, on the tasks of UploadTask.

    Tasks are pointers: [heap] holds them, the map has their addresses.  A job of
    alex023/clock calls the helper every ten seconds with the hash of the file until it is
    cancelled; the job of a task is set when the first call of the helper has returned.  The
    helper is one step here: what comes in while it sends the slices comes before or after it.
    Times are nanoseconds.  [order] is how Go walks a map, [fn] what sending a slice returns. *)
From stdpp Require Import pretty.
From S2P Require Import Prelude UploadTask.
Local Open Scope Z_scope.

Definition UPLOAD_WAIT_TIMEOUT : Z := 60 * 10 ^ 9.
Definition SpamThresholdSpSignLatency : Z := 60.

(** The errors of the handler. *)
Inductive UploadErr := UploadErrNoUploadTask | UploadErrFatalError | UploadErrMaxRetries | UploadFinished.

#[global] Instance UploadErr_eq_dec : EqDecision UploadErr.
Proof. solve_decision. Defined.

Record FileTask := mkFileTask { ft_task : UploadFileTask; lastTouch : Z; scheduledJob : option nat }.

Inductive message :=
| ReqUploadSlicesWrong (fileHash taskId spP2PAddress : string) (excluded : list string) (slices : list SliceHashAddr) (failed : list bool)
| SentSlice (tk : UploadSliceTask)
| RemoteResult (fileHash : string) (ok : bool)
| CleanUp (fileHash : string).

(** A goroutine of startUploadTask, before and after its call of the helper. *)
Inductive starter := Begin (fileHash : string) (p : nat) | Schedule (fileHash : string) (p : nat).

Record US := mkUS {
  heap : list FileTask;
  UploadFileTaskMap : gmap string nat;
  UploadTaskIdMap : gmap string string;
  UploadProgressMap : gmap string Z;
  fileMap : gset string;
  jobs : gmap nat string;           (* the jobs that are not cancelled *)
  next_job : nat;
  starters : list starter;
  out : list message
}.

Definition US0 : US := mkUS [] ∅ ∅ ∅ ∅ ∅ 0 [] [].

Definition set_heap (h : list FileTask) (s : US) : US :=
  mkUS h (UploadFileTaskMap s) (UploadTaskIdMap s) (UploadProgressMap s) (fileMap s) (jobs s) (next_job s) (starters s) (out s).
Definition set_map (m : gmap string nat) (s : US) : US :=
  mkUS (heap s) m (UploadTaskIdMap s) (UploadProgressMap s) (fileMap s) (jobs s) (next_job s) (starters s) (out s).
Definition set_jobs (j : gmap nat string) (s : US) : US :=
  mkUS (heap s) (UploadFileTaskMap s) (UploadTaskIdMap s) (UploadProgressMap s) (fileMap s) j (next_job s) (starters s) (out s).
Definition set_starters (l : list starter) (s : US) : US :=
  mkUS (heap s) (UploadFileTaskMap s) (UploadTaskIdMap s) (UploadProgressMap s) (fileMap s) (jobs s) (next_job s) l (out s).
Definition emit (m : list message) (s : US) : US :=
  mkUS (heap s) (UploadFileTaskMap s) (UploadTaskIdMap s) (UploadProgressMap s) (fileMap s) (jobs s) (next_job s) (starters s) (out s ++ m).

Definition upd (p : nat) (f : FileTask → FileTask) (s : US) : US := set_heap (alter f p (heap s)) s.
Definition set_ft (u : UploadFileTask) (t : FileTask) : FileTask := mkFileTask u (lastTouch t) (scheduledJob t).
Definition Touch (now : Z) (t : FileTask) : FileTask := mkFileTask (ft_task t) now (scheduledJob t).

(** [RspBackupStatus]: the file whose temporary slices are deleted, if any.  [sp_known] is the
    lookup of the SP's key with the check of its address. *)
Definition RspBackupStatus (verified : bool) (unix TimeStamp : Z) (sp_known failed DeleteOriginTmp : bool) (fileHash : string) : option string :=
  if negb verified then None
  else if bool_decide (SpamThresholdSpSignLatency < i64 (unix - TimeStamp)) then None
  else if negb sp_known then None
  else if failed then None
  else if DeleteOriginTmp then Some fileHash else None.

Section Jobs.
Context (order : Z → gmap string SlicesPerDestination → list string).
Context (fn : Z → UploadSliceTask → option string) (tmp : string → string → option bytes).
Context (IsFileRpcRemote : string → bool).

(** ** The handler *)

(** "trigger retry": the task and whether it has retried too often. *)
Definition trigger_retry (now : Z) (t : FileTask) : FileTask * bool :=
  if bool_decide (UPLOAD_WAIT_TIMEOUT < now - lastTouch t) then
    let '(slicesToReUpload, _, u) := SliceFailuresToReport (order now (destinations (ft_task t))) (ft_task t) in
    let t := set_ft u t in
    if bool_decide (slicesToReUpload = []) then (t, false)
    else
      let t := set_ft (UpdateRetryCount (ft_task t)) (Touch now t) in
      if CanRetry (ft_task t) then
        let u := if bool_decide (state (ft_task t) = STATE_DONE) then set_state (ft_task t) STATE_PAUSED else ft_task t in
        (set_ft (Pause true u) t, false)
      else (t, true)
  else (t, false).

(** What the handler does with the task: its error, the task, and what was sent. *)
Definition handle_task (now : Z) (t : FileTask) : res (option UploadErr * FileTask * list message) :=
  let '(t, exhausted) := trigger_retry now t in
  if (exhausted : bool) then Ok (Some UploadErrMaxRetries, t, [])
  else
    let u := ft_task t in
    if bool_decide (state u = STATE_PAUSED) then
      let u := Pause false (set_state u STATE_NOT_STARTED) in
      let '(slicesToReUpload, failedSlices, u) := SliceFailuresToReport (order now (destinations u)) u in
      r ← rsp0 u;
      Ok (None, set_ft u t, [ReqUploadSlicesWrong (FileHash r) (TaskId r) (SpP2PAddress r)
           (GetExcludedDestinations (order now (destinations u)) u) slicesToReUpload failedSlices])
    else if IsFinished (order now (destinations u)) u then Ok (Some UploadFinished, t, [])
    else if bool_decide (is_Some (IsFatal (order now (destinations u)) u)) then Ok (Some UploadErrFatalError, t, [])
    else
      '(u, sent) ← UploadToDestination (fn now) tmp (order now (destinations u)) u;
      Ok (None, set_ft u t, map SentSlice sent).

Definition uploadTaskHandler (now : Z) (fileHash : string) (s : US) : res (option UploadErr * US) :=
  match UploadFileTaskMap s !! fileHash with
  | None => Ok (Some UploadErrNoUploadTask, s)
  | Some p =>
      match heap s !! p with
      | None => Panic "no such task"
      | Some t =>
          '(err, t, sent) ← handle_task now t;
          Ok (err, emit sent (upd p (fun _ => t) s))
      end
  end.

(** ** Jobs *)

Definition StopRepeatedUploadTaskJob (fileHash : string) (s : US) : res US :=
  match UploadFileTaskMap s !! fileHash with
  | None => Ok s
  | Some p =>
      match heap s !! p ≫= scheduledJob with
      | Some j => Ok (set_jobs (delete j (jobs s)) s)
      | None => Panic "invalid memory address or nil pointer dereference"
      end
  end.

Definition SetScheduledJob (fileHash : string) (p : nat) (s : US) : US :=
  let j := next_job s in
  let s := upd p (fun t => mkFileTask (ft_task t) (lastTouch t) (Some j)) s in
  mkUS (heap s) (UploadFileTaskMap s) (UploadTaskIdMap s) (UploadProgressMap s) (fileMap s) (<[j := fileHash]> (jobs s)) (S j) (starters s) (out s).

Definition uploadTaskHelper (now : Z) (fileHash : string) (s : US) : res US :=
  '(err, s) ← uploadTaskHandler now fileHash s;
  match err with
  | Some UploadErrMaxRetries | Some UploadFinished | Some UploadErrFatalError =>
      s ← StopRepeatedUploadTaskJob fileHash s;
      Ok (set_map (delete fileHash (UploadFileTaskMap s)) s)
  | Some UploadErrNoUploadTask => StopRepeatedUploadTaskJob fileHash s
  | None => Ok s
  end.

(** ** Messages *)

(** [unix] is the time in seconds; [success] is [None] for a missing result. *)
Definition RspUploadFile (now unix : Z) (verified : bool) (TimeStamp : Z) (success : option bool) (target : RspFile) (s : US) : US :=
  if negb verified then s
  else if bool_decide (SpamThresholdSpSignLatency < i64 (unix - TimeStamp)) then s
  else match success with
  | None => s
  | Some false =>
      if IsFileRpcRemote (FileHash target) then emit [RemoteResult (FileHash target) false] s
      else mkUS (heap s) (UploadFileTaskMap s) (UploadTaskIdMap s) (UploadProgressMap s) (fileMap s ∖ {[FileHash target]}) (jobs s) (next_job s) (starters s) (out s)
  | Some true =>
      let s := mkUS (heap s) (UploadFileTaskMap s) (<[FileHash target := TaskId target]> (UploadTaskIdMap s)) (UploadProgressMap s) (fileMap s) (jobs s) (next_job s) (starters s) (out s) in
      let s :=
        match CreateUploadFileTask (Some target) with
        | Some u =>
            if bool_decide (rsp_Slices target = []) then
              mkUS (heap s) (UploadFileTaskMap s) (UploadTaskIdMap s) (delete (FileHash target) (UploadProgressMap s)) (fileMap s) (jobs s) (next_job s) (starters s) (out s)
            else
              let p := length (heap s) in
              let s := emit [CleanUp (FileHash target)] (set_heap (heap s ++ [mkFileTask u now None]) s) in
              set_starters (starters s ++ [Begin (FileHash target) p]) (set_map (<[FileHash target := p]> (UploadFileTaskMap s)) s)
        | None => s
        end in
      if IsFileRpcRemote (FileHash target) then emit [RemoteResult (FileHash target) true] s else s
  end.

(** The slice of an answer is finished; the task is found by the hash of the file. *)
Definition confirm_slice (now : Z) (fileHash sliceHash : string) (s : US) : US :=
  match UploadFileTaskMap s !! fileHash with
  | Some p =>
      match heap s !! p with
      | Some t =>
          match SetUploadSliceStatus (order now (destinations (ft_task t))) sliceHash SLICE_STATUS_FINISHED (ft_task t) with
          | Ok u => upd p (fun _ => Touch now (set_ft u t)) s
          | _ => s
          end
      | None => s
      end
  | None => s
  end.

(** [SignalNewDestinations]: the helper with the hash of the task's first answer. *)
Definition RspUploadSlicesWrong (now : Z) (success : bool) (msg : string) (r : RspFile) (s : US) : res US :=
  match UploadFileTaskMap s !! FileHash r with
  | None => Ok s
  | Some p =>
      match heap s !! p with
      | None => Panic "no such task"
      | Some t =>
          if negb success then Ok (upd p (fun _ => set_ft (SetFatalError msg (ft_task t)) t) s)
          else if bool_decide (rsp_Slices r = []) then
            Ok (upd p (fun _ => set_ft (SetFatalError "No new slices in RspUploadSlicesWrong for file" (ft_task t)) t) s)
          else
            u ← SetRspUploadFile (UpdateSliceDestinationsForRetry (order now (destinations (ft_task t))) (rsp_Slices r) (ft_task t)) r;
            r0 ← rsp0 u;
            uploadTaskHelper now (FileHash r0) (upd p (fun _ => set_ft u t) s)
      end
  end.

Definition UploadPause (fileHash : string) (s : US) : US :=
  emit [CleanUp fileHash]
    (mkUS (heap s) (delete fileHash (UploadFileTaskMap s)) (UploadTaskIdMap s) (delete fileHash (UploadProgressMap s)) (fileMap s) (jobs s) (next_job s) (starters s) (out s)).

(** ** Everything that happens *)

Inductive event :=
| EvRsp (unix : Z) (verified : bool) (TimeStamp : Z) (success : option bool) (target : RspFile)
| EvStart (k : nat)
| EvTick (j : nat)
| EvConfirmed (fileHash sliceHash : string)
| EvWrong (success : bool) (msg : string) (r : RspFile)
| EvPause (fileHash : string).

(** A panic ends the program. *)
Definition step (now : Z) (e : event) (s : US) : res US :=
  match e with
  | EvRsp unix v ts ok target => Ok (RspUploadFile now unix v ts ok target s)
  | EvStart k =>
      match starters s !! k with
      | Some (Begin h p) => s ← uploadTaskHelper now h s; Ok (set_starters (<[k := Schedule h p]> (starters s)) s)
      | Some (Schedule h p) => Ok (set_starters (delete k (starters s)) (SetScheduledJob h p s))
      | None => Ok s
      end
  | EvTick j => match jobs s !! j with Some h => uploadTaskHelper now h s | None => Ok s end
  | EvConfirmed h sh => Ok (confirm_slice now h sh s)
  | EvWrong ok msg r => RspUploadSlicesWrong now ok msg r s
  | EvPause h => Ok (UploadPause h s)
  end.

Fixpoint run (es : list (Z * event)) (s : US) : res US :=
  match es with [] => Ok s | (now, e) :: es => s ← step now e s; run es s end.
End Jobs.

(** ** One task *)

Section Tasks.
Context (order : Z → gmap string SlicesPerDestination → list string).
Context (fn : Z → UploadSliceTask → option string) (tmp : string → string → option bytes).
Context (H_order : ∀ now d, covers (order now d) d).

#[local] Abbreviation handle_task := (handle_task order fn tmp).
#[local] Abbreviation trigger_retry := (trigger_retry order).

(** An upload with a slice that is not done. *)
Definition unfinished (u : UploadFileTask) : Prop :=
  ∃ a x s, destinations u !! a = Some x ∧ s ∈ slices x ∧ needs_new_destination s.
Definition new_upload (u : UploadFileTask) : Prop := uploadType u = NEW_UPLOAD ∧ is_ok (rsp0 u) = true.

(** Slices that are not done stay so. *)
Definition keeps (l l' : list SliceWithStatus) : Prop := Forall2 (fun s s' => needs_new_destination s → needs_new_destination s') l l'.
Definition keeps_dests (d d' : gmap string SlicesPerDestination) : Prop :=
  ∀ a x, d !! a = Some x → ∃ x', d' !! a = Some x' ∧ keeps (slices x) (slices x').

Lemma kept_refl l : keeps l l.
Proof. apply Forall_Forall2_diag, Forall_forall. by intros s _. Qed.

Lemma keeps_unfinished u u' : keeps_dests (destinations u) (destinations u') → unfinished u → unfinished u'.
Proof.
  intros Hk (a & x & s & Hx & Hs & Hn). destruct (Hk a x Hx) as (x' & Hx' & Hl). apply list_elem_of_lookup in Hs as [i Hi].
  destruct (Forall2_lookup_l _ _ _ _ _ Hl Hi) as (s' & Hi' & Hs'). exists a, x', s'. split_and!; [done|by eapply list_elem_of_lookup_2|by apply Hs'].
Qed.

Lemma unfinished_IsFinished now u : unfinished u ↔ IsFinished (order now (destinations u)) u = false.
Proof.
  rewrite <- not_true_iff_false, IsFinished_iff. split.
  - intros (a & x & s & Hx & Hs & Hn) E. apply (not_elem_of_nil s). rewrite <- E. apply list_elem_of_filter. split; [done|].
    apply elem_of_visit_covers; [apply H_order|]. by exists a, x.
  - intros Hne. destruct (filter needs_new_destination (visit (order now (destinations u)) (destinations u))) as [|s l] eqn:E; [done|].
    assert (s ∈ filter needs_new_destination (visit (order now (destinations u)) (destinations u))) as Hs by (rewrite E; by left).
    apply list_elem_of_filter in Hs as [Hn Hs]. apply elem_of_visit_covers in Hs as (a & x & Hx & Hs); [|apply H_order]. by exists a, x, s.
Qed.

Lemma report_keeps d : keeps_dests d (report_dest <$> d).
Proof.
  intros a x Hx. exists (report_dest x). rewrite lookup_fmap, Hx. split; [done|]. unfold report_dest, keeps. cbn [slices].
  apply Forall2_fmap_r, Forall_Forall2_diag, Forall_forall. intros s _ Hn. rewrite decide_True by done. right. by right.
Qed.

Lemma kept_trans d1 d2 d3 : keeps_dests d1 d2 → keeps_dests d2 d3 → keeps_dests d1 d3.
Proof.
  intros H1 H2 a x Hx. destruct (H1 a x Hx) as (y & Hy & K1), (H2 a y Hy) as (z & Hz & K2). exists z. split; [done|].
  eapply Forall2_trans; [|exact K1|exact K2]. auto.
Qed.

Lemma keeps_insert d a x l b : d !! a = Some x → keeps (slices x) l → keeps_dests d (<[a := mkDest (ppInfo x) l b]> d).
Proof.
  intros Hx Hk a' y Hy. destruct (decide (a' = a)) as [->|Hne].
  - rewrite lookup_insert_eq. simplify_eq. by eexists.
  - rewrite lookup_insert_ne by done. exists y. split; [done|apply kept_refl].
Qed.

(** Sending the slices of a new upload never panics. *)
Lemma upload_slices_ok f u l : new_upload u → ∃ l' b sent, upload_slices f tmp u l = Ok (l', b, sent) ∧ keeps l l'.
Proof.
  intros [Ht Hr]. induction l as [|s l (l' & b & sent & E & K)]; cbn [upload_slices]; [by eexists _, _, _; split; [|constructor]|].
  destruct (pause u); [by eexists _, _, _; split; [|apply kept_refl]|]. destruct (fatalError u); [by eexists _, _, _; split; [|apply kept_refl]|].
  destruct (rsp0 u) as [r| |] eqn:Er; try done. rewrite E, Ht. cbn [mbind res_bind].
  case_decide as Hd; [by eexists _, _, _; split; [|by constructor]|].
  destruct (f _); cbn [mbind res_bind]; eexists _, _, _; (split; [done|]); constructor; try done; [|apply kept_refl].
  intros _. by left.
Qed.

Definition same_task (u u' : UploadFileTask) : Prop :=
  rspUploadFile u' = rspUploadFile u ∧ uploadType u' = uploadType u ∧ retryCount u' = retryCount u ∧ keeps_dests (destinations u) (destinations u').

Lemma same_new u u' : same_task u u' → new_upload u → new_upload u'.
Proof. intros (E1 & E2 & _ & _) [H1 H2]. unfold new_upload, rsp0 in *. by rewrite E1, E2. Qed.

Lemma upload_dests_ok f l : ∀ u, new_upload u → ∃ u' sent, upload_dests f tmp l u = Ok (u', sent) ∧ same_task u u'.
Proof.
  induction l as [|a l IH]; intros u Hu; cbn [upload_dests].
  { exists u, []. split; [done|]. split_and!; try done. intros a x Hx. exists x. split; [done|apply kept_refl]. }
  destruct (destinations u !! a) as [x|] eqn:Ex; [|by apply IH]. destruct (started x); [by apply IH|].
  destruct (upload_slices_ok f u (slices x) Hu) as (l' & b & sent & -> & K). cbn [mbind res_bind].
  set (u1 := if b then _ else _). assert (same_task u u1) as H1.
  { unfold u1. destruct b; (split_and!; try done); by apply keeps_insert. }
  destruct (IH u1 (same_new _ _ H1 Hu)) as (u2 & sent2 & -> & H2). cbn [mbind res_bind]. eexists _, _. split; [done|].
  destruct H1 as (A1 & A2 & A3 & A4), H2 as (B1 & B2 & B3 & B4). split_and!; [congruence..|by eapply kept_trans].
Qed.

Lemma UploadToDestination_ok f l u : new_upload u → ∃ u' sent, UploadToDestination f tmp l u = Ok (u', sent) ∧ same_task u u'.
Proof.
  intros Hu. assert (∀ st, same_task u (set_state u st)) as Hst by (intros st; split_and!; try done; intros a x Hx; exists x; split; [done|apply kept_refl]).
  assert (same_task u u) as Hid by (specialize (Hst (state u)); by destruct u).
  unfold UploadToDestination. case_decide; [|case_match; eexists _, _; split; (done || apply Hst)].
  case_bool_decide; [|by eexists _, _; split; [done|apply Hst]].
  destruct (upload_dests_ok f l (set_state u STATE_RUNNING) (same_new _ _ (Hst _) Hu)) as (u' & sent & -> & HS). cbn [mbind res_bind].
  eexists _, _. split; [done|]. destruct HS as (A1 & A2 & A3 & A4). by split_and!.
Qed.

(** A time-out of an unfinished upload counts. *)
Lemma trigger_retry_ok now t : new_upload (ft_task t) → unfinished (ft_task t) →
  let '(t', exhausted) := trigger_retry now t in
  scheduledJob t' = scheduledJob t ∧ new_upload (ft_task t') ∧ unfinished (ft_task t')
  ∧ (if bool_decide (UPLOAD_WAIT_TIMEOUT < now - lastTouch t)
     then lastTouch t' = now ∧ retryCount (ft_task t') = retryCount (ft_task t) + 1 ∧ exhausted = negb (CanRetry (ft_task t'))
     else t' = t ∧ exhausted = false).
Proof.
  intros Hn Hu. unfold UploadJobs.trigger_retry. case_bool_decide; [|done]. unfold SliceFailuresToReport. rewrite bool_decide_eq_false_2.
  2: { intros E%map_eq_nil. apply (unfinished_IsFinished now) in Hu. by rewrite (proj2 (IsFinished_iff _ _) E) in Hu. }
  set (u1 := set_dests _ _). assert (unfinished u1) as H1 by (apply (keeps_unfinished (ft_task t)); [apply report_keeps|done]).
  cbn [ft_task set_ft Touch]. destruct (CanRetry (UpdateRetryCount u1)) eqn:Ec.
  - destruct (bool_decide (state (UpdateRetryCount u1) = STATE_DONE)); split_and!; try done; unfold CanRetry in *; cbn in *; by rewrite Ec.
  - split_and!; try done. cbn [ft_task]. change (true = negb (CanRetry (UpdateRetryCount u1))). by rewrite Ec.
Qed.

(** What a call of the handler makes of an unfinished upload. *)
Lemma handle_unfinished now t : new_upload (ft_task t) → unfinished (ft_task t) → CanRetry (ft_task t) = true →
  ∃ err t' sent, handle_task now t = Ok (err, t', sent) ∧ scheduledJob t' = scheduledJob t ∧
    match err with
    | None => new_upload (ft_task t') ∧ unfinished (ft_task t') ∧ CanRetry (ft_task t') = true
        ∧ if bool_decide (UPLOAD_WAIT_TIMEOUT < now - lastTouch t)
          then lastTouch t' = now ∧ retryCount (ft_task t') = retryCount (ft_task t) + 1
          else lastTouch t' = lastTouch t ∧ retryCount (ft_task t') = retryCount (ft_task t)
    | Some e => e = UploadErrMaxRetries ∨ e = UploadErrFatalError
    end.
Proof.
  intros Hn Hu Hc. unfold UploadJobs.handle_task. pose proof (trigger_retry_ok now t Hn Hu) as Ht. destruct (trigger_retry now t) as [t1 ex].
  destruct Ht as (Hj & Hn1 & Hu1 & Ht). destruct ex; [by eexists _, _, _; split; [done|]; split; [done|left]|].
  assert (CanRetry (ft_task t1) = true
    ∧ if bool_decide (UPLOAD_WAIT_TIMEOUT < now - lastTouch t) then lastTouch t1 = now ∧ retryCount (ft_task t1) = retryCount (ft_task t) + 1
      else lastTouch t1 = lastTouch t ∧ retryCount (ft_task t1) = retryCount (ft_task t)) as [Hc1 Hb].
  { case_bool_decide; [|by destruct Ht as [-> _]]. destruct Ht as (? & ? & Hx). destruct (CanRetry (ft_task t1)); [by split_and!|done]. }
  destruct (bool_decide (state (ft_task t1) = STATE_PAUSED)).
  - unfold SliceFailuresToReport. destruct Hn1 as [Ht1 Hr1]. set (u1 := set_dests _ _). change (rsp0 u1) with (rsp0 (ft_task t1)).
    destruct (rsp0 (ft_task t1)) as [r| |] eqn:Er; try done. cbn [mbind res_bind].
    eexists _, _, _. split; [done|]. split; [done|]. split_and!; try done.
    + split; [done|]. cbn. change (rsp0 u1) with (rsp0 (ft_task t1)). by rewrite Er.
    + by apply (keeps_unfinished (ft_task t1)); [apply (report_keeps (destinations (ft_task t1)))|].
  - rewrite (proj1 (unfinished_IsFinished now _) Hu1). destruct (bool_decide (is_Some _)); [by eexists _, _, _; split; [done|]; split; [done|right]|].
    destruct (UploadToDestination_ok (fn now) (order now (destinations (ft_task t1))) (ft_task t1) Hn1) as (u' & sent & -> & HS). cbn [mbind res_bind].
    eexists _, _, _. split; [done|]. split; [done|]. pose proof (same_new _ _ HS Hn1). destruct HS as (A1 & A2 & A3 & A4). unfold CanRetry in *. cbn [ft_task set_ft lastTouch]. rewrite A3.
    split_and!; try done. by apply (keeps_unfinished (ft_task t1)).
Qed.

(** How many time-outs the ticks of the given times make. *)
Fixpoint deadlines (last : Z) (ticks : list Z) : Z :=
  match ticks with
  | [] => 0
  | t :: ticks => if bool_decide (UPLOAD_WAIT_TIMEOUT < t - last) then 1 + deadlines t ticks else deadlines last ticks
  end.

Context (IsFileRpcRemote : string → bool).
#[local] Abbreviation run := (run order fn tmp IsFileRpcRemote).

Definition ticks_of (j : nat) (ticks : list Z) : list (Z * event) := map (fun now => (now, EvTick j)) ticks.

Lemma cancelled_ticks j ticks s : jobs s !! j = None → run (ticks_of j ticks) s = Ok s.
Proof. intros Hj. induction ticks as [|now ticks IH]; cbn; [done|]. by rewrite Hj. Qed.

(** C20: An upload of which nothing is heard is given up: after five time-outs, however the ticks
    of its job fall, there is neither the task nor the job. *)
Theorem silent_uploads_end ticks : ∀ fileHash p j t s,
  UploadFileTaskMap s !! fileHash = Some p → heap s !! p = Some t → scheduledJob t = Some j → jobs s !! j = Some fileHash →
  new_upload (ft_task t) → unfinished (ft_task t) → CanRetry (ft_task t) = true →
  MAX_UPLOAD_RETRY - retryCount (ft_task t) ≤ deadlines (lastTouch t) ticks →
  ∃ s', run (ticks_of j ticks) s = Ok s' ∧ UploadFileTaskMap s' = delete fileHash (UploadFileTaskMap s) ∧ jobs s' = delete j (jobs s).
Proof.
  induction ticks as [|now ticks IH]; intros h p j t s Hm Hp Hj Hjob Hn Hu Hc Hd; cbn [deadlines] in Hd.
  { unfold CanRetry in Hc. apply bool_decide_eq_true in Hc. lia. }
  change (ticks_of j (now :: ticks)) with ((now, EvTick j) :: ticks_of j ticks). cbn [UploadJobs.run step]. rewrite Hjob. unfold uploadTaskHelper, uploadTaskHandler. rewrite Hm, Hp.
  destruct (handle_unfinished now t Hn Hu Hc) as (err & t' & sent & -> & Hj' & He). cbn [mbind res_bind].
  assert (heap (upd p (fun _ => t') s) !! p = Some t') as Hp' by (cbn; by rewrite list_lookup_alter_eq, Hp).
  destruct err as [e|].
  - assert (∀ r : res US, match e with UploadErrNoUploadTask => StopRepeatedUploadTaskJob h (emit sent (upd p (fun _ => t') s)) | _ => r end = r) as -> by (by destruct He as [-> | ->]).
    unfold StopRepeatedUploadTaskJob. cbn [UploadFileTaskMap emit upd set_heap heap]. rewrite Hm. cbn in Hp'. rewrite Hp'. cbn [mbind option_bind]. rewrite Hj', Hj. cbn [mbind res_bind].
    rewrite cancelled_ticks; [by eexists|]. cbn. by rewrite lookup_delete_eq.
  - cbn [mbind res_bind]. destruct He as (Hn' & Hu' & Hc' & He).
    destruct (IH h p j t' (emit sent (upd p (fun _ => t') s))) as (s' & Hr & Hs' & Hs2); try done; [by rewrite Hj'| |by exists s'].
    case_bool_decide; destruct He as [-> E]; lia.
Qed.

(** A report of a finished upload changes nothing. *)
Lemma report_finished now u : IsFinished (order now (destinations u)) u = true →
  ∃ fs, SliceFailuresToReport (order now (destinations u)) u = ([], fs, u).
Proof.
  intros Hf. unfold SliceFailuresToReport. rewrite (proj1 (IsFinished_iff _ _) Hf). eexists. cbn [map]. repeat f_equal.
  transitivity (set_dests u (destinations u)); [|by destruct u]. f_equal. apply map_eq. intros a. rewrite lookup_fmap.
  destruct (destinations u !! a) as [x|] eqn:Ex; [|done]. cbn. f_equal.
  assert (∀ s, s ∈ slices x → ¬ needs_new_destination s) as Hn.
  { intros s Hs Hn. assert (unfinished u) as Hu%(unfinished_IsFinished now) by (by exists a, x, s). congruence. }
  unfold report_dest. transitivity (mkDest (ppInfo x) (slices x) (started x)); [|by destruct x]. f_equal.
  - rewrite <- (map_id (slices x)) at 2. apply map_ext_in. intros s Hs%list_elem_of_In. by rewrite decide_False by (by apply Hn).
  - assert (existsb (fun s => bool_decide (needs_new_destination s)) (slices x) = false) as ->; [|done].
    apply not_true_iff_false. rewrite existsb_exists. intros (s & Hs%list_elem_of_In & Hb%bool_decide_eq_true). by apply (Hn s).
Qed.

(** When all slices of an upload are confirmed, the next call of the helper, early or late,
    removes the task and cancels its job, and sends nothing. *)
Theorem finished_uploads_end now fileHash p j t s :
  UploadFileTaskMap s !! fileHash = Some p → heap s !! p = Some t → scheduledJob t = Some j → state (ft_task t) ≠ STATE_PAUSED →
  IsFinished (order now (destinations (ft_task t))) (ft_task t) = true →
  ∃ s', uploadTaskHelper order fn tmp now fileHash s = Ok s' ∧ UploadFileTaskMap s' = delete fileHash (UploadFileTaskMap s)
        ∧ jobs s' = delete j (jobs s) ∧ out s' = out s.
Proof.
  intros Hm Hp Hj Hst Hf. unfold uploadTaskHelper, uploadTaskHandler. rewrite Hm, Hp.
  assert (handle_task now t = Ok (Some UploadFinished, t, [])) as ->.
  { unfold UploadJobs.handle_task. assert (trigger_retry now t = (t, false)) as ->.
    { unfold UploadJobs.trigger_retry. case_bool_decide; [|done]. destruct (report_finished now _ Hf) as [fs ->]. rewrite bool_decide_eq_true_2 by done. by destruct t. }
    rewrite bool_decide_eq_false_2 by done. by rewrite Hf. }
  cbn [mbind res_bind]. unfold StopRepeatedUploadTaskJob. cbn [UploadFileTaskMap emit upd set_heap heap]. rewrite Hm, list_lookup_alter_eq, Hp. cbn. rewrite Hj.
  eexists. split; [done|]. split_and!; try done. cbn. by rewrite app_nil_r.
Qed.

(** The SP is asked for new destinations after a time-out only, for all slices that are not
    done; and the list of the slices that failed says of none that it did, because the report
    that triggers the retry has already taken the failures back. *)
Theorem retries_report_no_failures now t err t' fh ti sp ex ls failed :
  state (ft_task t) ≠ STATE_PAUSED → handle_task now t = Ok (err, t', [ReqUploadSlicesWrong fh ti sp ex ls failed]) →
  UPLOAD_WAIT_TIMEOUT < now - lastTouch t ∧ ls ≠ [] ∧ length failed = length ls ∧ Forall (fun b => b = false) failed.
Proof.
  intros Hst. unfold UploadJobs.handle_task. destruct (trigger_retry now t) as [t1 exh] eqn:Et. destruct exh; [done|].
  destruct (bool_decide (state (ft_task t1) = STATE_PAUSED)) eqn:Ep.
  2: { destruct (IsFinished _ _); [done|]. destruct (bool_decide (is_Some _)); [done|]. intros ([u sent] & _ & [= _ _ Hs])%bind_ok.
       destruct sent as [|x [|y sent]]; done. }
  apply bool_decide_eq_true in Ep. unfold UploadJobs.trigger_retry in Et. case_bool_decide as Hto; [|by simplify_eq].
  unfold SliceFailuresToReport in Et. case_bool_decide as Hl; [simplify_eq; by destruct Hst|]. destruct (CanRetry _); [|done]. injection Et as <-.
  intros (r & _ & [= _ _ _ _ _ _ <- <-])%bind_ok. cbn [ft_task set_ft] in *.
  set (u2 := if bool_decide _ then _ else _). assert (destinations u2 = report_dest <$> destinations (ft_task t)) as Ed by (unfold u2; by destruct (bool_decide _)).
  change (destinations (Pause false _)) with (destinations u2). rewrite !length_map. split_and!; [done| |done|].
  - intros E%map_eq_nil. apply Hl. assert (unfinished u2 → False) as Hx.
    { intros Hu%(unfinished_IsFinished now). change (destinations (Pause false (set_state (Pause true u2) STATE_NOT_STARTED))) with (destinations u2) in E. by rewrite (proj2 (IsFinished_iff _ u2) E) in Hu. }
    destruct (filter needs_new_destination (visit (order now (destinations (ft_task t))) (destinations (ft_task t)))) as [|s l] eqn:Ef; [done|].
    exfalso. apply Hx, (keeps_unfinished (ft_task t)); [rewrite Ed; apply report_keeps|]. apply (unfinished_IsFinished now), not_true_iff_false. rewrite IsFinished_iff.
    rewrite Ef. discriminate.
  - apply Forall_forall. intros b (s & <- & Hs%list_elem_of_In)%in_map_iff. apply list_elem_of_filter in Hs as [_ Hs]. apply elem_of_visit in Hs as (a & x & _ & Hx & Hs).
    change (destinations (Pause false (set_state (Pause true u2) STATE_NOT_STARTED))) with (destinations u2) in Hx.
    rewrite Ed, lookup_fmap in Hx. destruct (destinations (ft_task t) !! a) as [y|]; [|done]. injection Hx as <-.
    apply list_elem_of_In, in_map_iff in Hs as (s0 & <- & _). apply bool_decide_eq_false. rewrite report_status. destruct (decide (needs_new_destination s0)) as [Hn|Hn]; [discriminate|]. intros E. apply Hn. by left.
Qed.

(** An upload to which as many destinations are counted as there may be is not started again
    after a time-out: it counts as running, nothing is sent and the SP is not asked any more,
    until it has failed too often. *)
Theorem crowded_uploads_stall now t err t' sent :
  state (ft_task t) = STATE_RUNNING ∨ (state (ft_task t) = STATE_NOT_STARTED ∧ MAXSLICE ≤ concurrentUploads (ft_task t)) →
  handle_task now t = Ok (err, t', sent) → sent = [] ∧ (err = None → state (ft_task t') = STATE_RUNNING).
Proof.
  intros Hs. unfold UploadJobs.handle_task. destruct (trigger_retry now t) as [t1 exh] eqn:Et.
  assert (state (ft_task t1) = state (ft_task t) ∧ concurrentUploads (ft_task t1) = concurrentUploads (ft_task t)) as [E1 E2].
  { unfold UploadJobs.trigger_retry, SliceFailuresToReport in Et. destruct (bool_decide (UPLOAD_WAIT_TIMEOUT < _)); [|by simplify_eq]. destruct (bool_decide (_ = [])); [by simplify_eq|].
    cbn [ft_task set_ft Touch UpdateRetryCount set_dests state] in Et. rewrite bool_decide_eq_false_2 in Et by (destruct Hs as [->|[-> _]]; done). destruct (CanRetry _); by simplify_eq. }
  destruct exh; [by intros [= <- <- <-]|]. rewrite bool_decide_eq_false_2 by (rewrite E1; destruct Hs as [->|[-> _]]; done).
  destruct (IsFinished _ _); [by intros [= <- <- <-]|]. destruct (bool_decide (is_Some _)); [by intros [= <- <- <-]|].
  intros ([u l] & Hu & [= <- <- <-])%bind_ok. unfold UploadToDestination in Hu. rewrite E1 in Hu. destruct Hs as [Hs|[Hs Hc]]; rewrite Hs in Hu.
  - rewrite decide_False, bool_decide_eq_false_2 in Hu by done. cbn in Hu. injection Hu as <- <-. split; [done|]. cbn. by rewrite E1.
  - rewrite decide_True, bool_decide_eq_false_2 in Hu by (done || (cbn; lia)). injection Hu as <- <-. by split.
Qed.
End Tasks.

(** ** Jobs that are never cancelled *)

(** What matters for jobs: the map of tasks, the job of each task, the running jobs. *)
Record view := mkView { v_map : gmap string nat; v_task : list (option nat); v_jobs : gmap nat string; v_next : nat }.
Definition view_of (s : US) : view := mkView (UploadFileTaskMap s) (scheduledJob <$> heap s) (jobs s) (next_job s).

(** The changes that the operations are made of. *)
Inductive change : view → view → Prop :=
| c_remove h v : change v (mkView (delete h (v_map v)) (v_task v) (v_jobs v) (v_next v))
| c_cancel h p j v : v_map v !! h = Some p → v_task v !! p = Some (Some j) → change v (mkView (v_map v) (v_task v) (delete j (v_jobs v)) (v_next v))
| c_create h v : change v (mkView (<[h := length (v_task v)]> (v_map v)) (v_task v ++ [None]) (v_jobs v) (v_next v))
| c_schedule h p v : change v (mkView (v_map v) (alter (fun _ => Some (v_next v)) p (v_task v)) (<[v_next v := h]> (v_jobs v)) (S (v_next v))).

Lemma view_upd p t t' s : heap s !! p = Some t → scheduledJob t' = scheduledJob t → view_of (upd p (fun _ => t') s) = view_of s.
Proof.
  intros Hp Hj. unfold view_of, upd. cbn. f_equal. apply list_eq. intros q. rewrite !list_lookup_fmap. destruct (decide (q = p)) as [->|Hne].
  - rewrite list_lookup_alter_eq, Hp. cbn. by rewrite Hj.
  - by rewrite list_lookup_alter_ne.
Qed.

Section Orphans.
Context (order : Z → gmap string SlicesPerDestination → list string).
Context (fn : Z → UploadSliceTask → option string) (tmp : string → string → option bytes) (IsFileRpcRemote : string → bool).
#[local] Abbreviation step := (step order fn tmp IsFileRpcRemote).
#[local] Abbreviation run := (run order fn tmp IsFileRpcRemote).
#[local] Abbreviation uploadTaskHelper := (uploadTaskHelper order fn tmp).

Lemma handle_task_job now t err t' sent : handle_task order fn tmp now t = Ok (err, t', sent) → scheduledJob t' = scheduledJob t.
Proof.
  unfold handle_task. destruct (trigger_retry order now t) as [t1 exh] eqn:Et. assert (scheduledJob t1 = scheduledJob t) as <-.
  { unfold trigger_retry in Et. destruct (SliceFailuresToReport _ _) as [[ls fs] u]. repeat (case_match; simplify_eq; try done). }
  destruct exh; [by intros [= <- <- <-]|]. destruct (SliceFailuresToReport _ (Pause _ _)) as [[ls fs] u].
  destruct (bool_decide (state (ft_task t1) = STATE_PAUSED)); [by intros (r & _ & [= <- <- <-])%bind_ok|].
  destruct (IsFinished _ _); [by intros [= <- <- <-]|]. destruct (bool_decide (is_Some _)); [by intros [= <- <- <-]|].
  by intros ([] & _ & [= <- <- <-])%bind_ok.
Qed.

Lemma StopRepeated_view h s s' : StopRepeatedUploadTaskJob h s = Ok s' → UploadFileTaskMap s' = UploadFileTaskMap s ∧ rtc change (view_of s) (view_of s').
Proof.
  unfold StopRepeatedUploadTaskJob. destruct (UploadFileTaskMap s !! h) as [p|] eqn:Em; [|by intros [= <-]].
  destruct (heap s !! p) as [t|] eqn:Ep; cbn; [|done]. destruct (scheduledJob t) as [j|] eqn:Ej; [|done]. intros [= <-]. split; [done|].
  apply rtc_once, (c_cancel h p j (view_of s)); [done|]. cbn. by rewrite list_lookup_fmap, Ep; cbn; rewrite Ej.
Qed.

Lemma helper_view now h s s' : uploadTaskHelper now h s = Ok s' → rtc change (view_of s) (view_of s').
Proof.
  unfold UploadJobs.uploadTaskHelper. intros ([err s1] & H1 & H2)%bind_ok.
  assert (view_of s1 = view_of s) as <-.
  { unfold uploadTaskHandler in H1. destruct (UploadFileTaskMap s !! h) as [p|]; [|by injection H1 as _ <-]. destruct (heap s !! p) as [t|] eqn:Ep; [|done].
    apply bind_ok in H1 as ([[e t'] sent] & Ht & [= <- <-]). apply handle_task_job in Ht. by rewrite <- (view_upd p t t' s Ep Ht). }
  destruct err as [[]|]; [by apply StopRepeated_view in H2 as [_ H2]| | | |by injection H2 as <-].
  all: apply bind_ok in H2 as (s2 & [_ H2]%StopRepeated_view & [= <-]); eapply rtc_r; [exact H2|]; apply (c_remove h (view_of s2)).
Qed.

Lemma step_view now e s s' : step now e s = Ok s' → rtc change (view_of s) (view_of s').
Proof.
  destruct e as [unix v ts ok target|k|j|h sh|ok msg r|h]; cbn.
  - intros [= <-]. unfold RspUploadFile. destruct (negb v); [done|]. case_bool_decide; [done|]. destruct ok as [[]|]; [| |done].
    + cbn [CreateUploadFileTask mbind option_bind]. case_bool_decide; [by destruct (IsFileRpcRemote _)|].
      assert (∀ b m w, view_of (if b : bool then emit m w else w) = view_of w) as -> by (by intros []). apply rtc_once.
      pose proof (c_create (FileHash target) (view_of s)) as Hc. cbn in Hc. rewrite length_fmap in Hc. unfold view_of at 2. cbn. rewrite fmap_app. exact Hc.
    + by destruct (IsFileRpcRemote _).
  - destruct (starters s !! k) as [[h p|h p]|]; [| |by intros [= <-]].
    + intros (s1 & H1%helper_view & [= <-])%bind_ok. exact H1.
    + intros [= <-]. apply rtc_once. pose proof (c_schedule h p (view_of s)) as Hc. unfold view_of at 2. cbn in *.
      assert (scheduledJob <$> alter (fun t => mkFileTask (ft_task t) (lastTouch t) (Some (next_job s))) p (heap s) = alter (fun _ => Some (next_job s)) p (scheduledJob <$> heap s)) as ->; [|done].
      apply list_eq. intros q. rewrite list_lookup_fmap. destruct (decide (q = p)) as [->|Hne]; rewrite ?list_lookup_alter_eq, ?list_lookup_alter_ne, list_lookup_fmap by done; by destruct (heap s !! _).
  - destruct (jobs s !! j); [by intros ?%helper_view|by intros [= <-]].
  - intros [= <-]. unfold confirm_slice. destruct (UploadFileTaskMap s !! h) as [p|]; [|done]. destruct (heap s !! p) as [t|] eqn:Ep; [|done].
    destruct (SetUploadSliceStatus _ _ _ _); [|done..]. by erewrite view_upd.
  - unfold RspUploadSlicesWrong. destruct (UploadFileTaskMap s !! FileHash r) as [p|]; [|by intros [= <-]]. destruct (heap s !! p) as [t|] eqn:Ep; [|done].
    destruct (negb ok); [intros [= <-]; by erewrite view_upd|]. case_bool_decide; [intros [= <-]; by erewrite view_upd|].
    intros (u & _ & (r0 & _ & Hh%helper_view)%bind_ok)%bind_ok. by erewrite view_upd in Hh.
  - intros [= <-]. apply rtc_once, (c_remove h (view_of s)).
Qed.

(** A job that no task of the map has. *)
Definition orphan (j : nat) (v : view) : Prop :=
  is_Some (v_jobs v !! j) ∧ (j < v_next v)%nat ∧ ∀ h p, v_map v !! h = Some p → v_task v !! p ≠ Some (Some j).

Lemma change_orphan j v v' : (∀ h p, v_map v !! h = Some p → (p < length (v_task v))%nat) → change v v' → orphan j v → orphan j v'.
Proof.
  intros Hwf Hc (H1 & H2 & H3). destruct Hc as [h v|h p i v Hm Hp|h v|h p v]; (split; [|split]); cbn in *; try done; try lia.
  - intros h' p. rewrite lookup_delete_Some. intros [_ ?]. by eapply H3.
  - rewrite lookup_delete_ne; [done|]. intros ->. by eapply H3.
  - intros h' p. rewrite lookup_insert_Some. intros [[<- <-]|[_ Hm]].
    + rewrite lookup_app_r by lia. by rewrite Nat.sub_diag.
    + rewrite lookup_app_l by (by eapply Hwf). by eapply H3.
  - rewrite lookup_insert_ne by lia. done.
  - intros h' q Hm. destruct (decide (q = p)) as [->|Hne]; [|rewrite list_lookup_alter_ne by done; by eapply H3].
    rewrite list_lookup_alter_eq. destruct (v_task v !! p); [|done]. cbn. intros [= E]. lia.
Qed.

(** In every state that is reached: the map has addresses of tasks, different ones, and no two
    tasks have the same job. *)
Record jobs_ok (v : view) : Prop := {
  jk_address : ∀ h p, v_map v !! h = Some p → (p < length (v_task v))%nat;
  jk_distinct : ∀ h h' p, v_map v !! h = Some p → v_map v !! h' = Some p → h = h';
  jk_next : ∀ p j, v_task v !! p = Some (Some j) → (j < v_next v)%nat;
  jk_job : ∀ p q j, v_task v !! p = Some (Some j) → v_task v !! q = Some (Some j) → p = q
}.

Lemma change_ok v v' : change v v' → jobs_ok v → jobs_ok v'.
Proof.
  intros Hc [H1 H2 H3 H4]. destruct Hc as [h v|h p i v Hm Hp|h v|h p v]; split; cbn in *; try done.
  - intros h' p. rewrite lookup_delete_Some. intros [_ ?]. by eapply H1.
  - intros h1 h2 p. rewrite !lookup_delete_Some. intros [_ ?] [_ ?]. by eapply H2.
  - intros h' p. rewrite length_app, lookup_insert_Some. cbn. intros [[<- <-]|[_ Hm%H1]]; lia.
  - intros h1 h2 p. rewrite !lookup_insert_Some. intros [[<- <-]|[? Ha]] [[<- Hb]|[? Hb]]; try done; [by apply H1 in Hb; lia|apply H1 in Ha; lia|by eapply H2].
  - intros p j. rewrite lookup_app_Some. intros [?|[_ Hx]]; [by eapply H3|]. by apply list_lookup_singleton_Some in Hx as [_ [=]].
  - intros p q j. rewrite !lookup_app_Some. intros [?|[_ Hx]]; [|by apply list_lookup_singleton_Some in Hx as [_ [=]]].
    intros [?|[_ Hx]]; [by eapply H4|by apply list_lookup_singleton_Some in Hx as [_ [=]]].
  - intros h' q Hq%H1. by rewrite length_alter.
  - intros q j. destruct (decide (q = p)) as [->|Hne]; [rewrite list_lookup_alter_eq|rewrite list_lookup_alter_ne by done; intros ?%H3; lia].
    destruct (v_task v !! p); [|done]. intros [= <-]. lia.
  - intros q1 q2 j. destruct (decide (q1 = p)) as [->|N1], (decide (q2 = p)) as [->|N2]; try done; rewrite ?list_lookup_alter_eq, ?list_lookup_alter_ne by done.
    + destruct (v_task v !! p); [|done]. intros [= <-] ?%H3. lia.
    + intros E%H3. destruct (v_task v !! p); [|done]. intros [= <-]. lia.
    + by apply H4.
Qed.

Lemma run_view es : ∀ s s', run es s = Ok s' → rtc change (view_of s) (view_of s').
Proof.
  induction es as [|[now e] es IH]; intros s s'; cbn [UploadJobs.run]; [by intros [= <-]|].
  intros (s1 & H1%step_view & H2)%bind_ok. etrans; [exact H1|by apply IH].
Qed.

Lemma run_jobs_ok es s s' : run es s = Ok s' → jobs_ok (view_of s) → jobs_ok (view_of s').
Proof. intros Hr%run_view. induction Hr as [|v1 v2 v3 Hc _ IH]; [done|]. intros Hv. by apply IH, (change_ok v1). Qed.

Lemma orphans_stay es s s' j : run es s = Ok s' → jobs_ok (view_of s) → orphan j (view_of s) → orphan j (view_of s').
Proof.
  intros Hr%run_view. induction Hr as [|v1 v2 v3 Hc _ IH]; [done|]. intros Hv Ho. apply IH; [by apply (change_ok v1)|].
  apply (change_orphan j v1); [by apply jk_address|done|done].
Qed.

Lemma US0_ok : jobs_ok (view_of US0).
Proof. split; cbn; done. Qed.

(** C21: The job of an upload that is paused, or replaced by a new one of the same file, is never
    cancelled: whatever happens later it calls the helper every ten seconds, because jobs are
    looked up by the hash of the file in the map that has forgotten the task. *)
Theorem paused_uploads_tick_for_ever es0 es s s' now e fileHash p t j :
  run es0 US0 = Ok s → UploadFileTaskMap s !! fileHash = Some p → heap s !! p = Some t → scheduledJob t = Some j → is_Some (jobs s !! j) →
  e = EvPause fileHash ∨ (∃ unix target, e = EvRsp unix true unix (Some true) target ∧ FileHash target = fileHash ∧ rsp_Slices target ≠ []) →
  run ((now, e) :: es) s = Ok s' → is_Some (jobs s' !! j).
Proof.
  intros H0 Hm Hp Hj Hjob He. pose proof (run_jobs_ok _ _ _ H0 US0_ok) as Hok. cbn [UploadJobs.run]. intros (s1 & H1 & H2)%bind_ok.
  assert (v_task (view_of s) !! p = Some (Some j)) as Hv by (cbn; by rewrite list_lookup_fmap, Hp; cbn; rewrite Hj).
  assert (∀ h q, delete fileHash (UploadFileTaskMap s) !! h = Some q → v_task (view_of s) !! q ≠ Some (Some j)) as Hdel.
  { intros h q [Hne Hq]%lookup_delete_Some Hj'. assert (q = p) as -> by (by eapply (jk_job _ Hok)). apply Hne. symmetry. by eapply (jk_distinct _ Hok). }
  enough (orphan j (view_of s1)) as Ho.
  { apply (orphans_stay es s1 s'); [done| |done]. by apply (run_jobs_ok [(now, e)] s s1); [cbn [UploadJobs.run]; rewrite H1|]. }
  destruct He as [->|(unix & target & -> & <- & Hs)]; cbn in H1; injection H1 as <-.
  - split; [done|]. split; [by eapply (jk_next _ Hok)|]. exact Hdel.
  - unfold RspUploadFile. cbn [negb]. rewrite bool_decide_eq_false_2 by (rewrite Z.sub_diag; done). cbn [CreateUploadFileTask mbind option_bind].
    rewrite bool_decide_eq_false_2 by done. assert (∀ b m w, view_of (if b : bool then emit m w else w) = view_of w) as -> by (by intros []).
    split; [done|]. split; [by eapply (jk_next _ Hok)|]. cbn. rewrite fmap_app. intros h q. rewrite <- insert_delete_eq, lookup_insert_Some. intros [[<- <-]|[Hne Hq]].
    + rewrite lookup_app_r by (by rewrite length_fmap). by rewrite length_fmap, Nat.sub_diag.
    + rewrite lookup_app_l; [by apply (Hdel h)|]. apply lookup_delete_Some in Hq as [_ Hq]. by apply (jk_address _ Hok) in Hq.
Qed.
End Orphans.

(** ** Examples *)

Module UploadJobsDemo.

Definition keys (now : Z) (d : gmap string SlicesPerDestination) : list string := (map_to_list d).*1.

Lemma keys_cover now d : covers (keys now d) d.
Proof.
  split; [apply NoDup_fst_map_to_list|]. intros a. unfold keys. split.
  - intros ([b x] & -> & Hx%elem_of_map_to_list)%list_elem_of_fmap. by exists x.
  - intros [x Hx]. apply list_elem_of_fmap. exists (a, x). by rewrite elem_of_map_to_list.
Qed.

Definition sends (now : Z) (tk : UploadSliceTask) : option string := None.
Definition no_tmp (h sh : string) : option bytes := None.
Definition local (h : string) : bool := false.
Definition second : Z := 10 ^ 9.

(** A file of [n] slices, each with its own destination. *)
Definition answer (prefix : string) (n : nat) : RspFile :=
  mkRsp "file" "task" "sp" (map (fun i => mkSliceHashAddr (Z.of_nat i) ("slice" +:+ pretty i) (prefix +:+ pretty i)) (seq 1 n)).

Definition begin (n : nat) : list (Z * event) :=
  [(0, EvRsp 1000 true 990 (Some true) (answer "pp" n)); (1 * second, EvStart 0); (2 * second, EvStart 0)].

Definition started_upload (n : nat) : US := match run keys sends no_tmp local (begin n) US0 with Ok s => s | _ => US0 end.

Definition first_task (s : US) : FileTask :=
  default (mkFileTask (mkTask None None NEW_UPLOAD ∅ STATE_DONE false 0 None 0) 0 None) (heap s !! 0%nat).

(** The job ticks every ten seconds for six minutes. *)
Definition six_minutes : list Z := map (fun i => Z.of_nat i * 10 * second) (seq 1 36).

Lemma silent_uploads_end_witness :
  ∃ s', run keys sends no_tmp local (ticks_of 0 six_minutes) (started_upload 2) = Ok s'
        ∧ UploadFileTaskMap s' = delete "file" (UploadFileTaskMap (started_upload 2)) ∧ jobs s' = delete 0%nat (jobs (started_upload 2)).
Proof.
  apply (silent_uploads_end keys sends no_tmp keys_cover local six_minutes "file" 0%nat 0%nat (first_task (started_upload 2)) (started_upload 2)).
  - vm_compute. reflexivity.
  - vm_compute. reflexivity.
  - vm_compute. reflexivity.
  - vm_compute. reflexivity.
  - split; vm_compute; reflexivity.
  - eexists "pp1", _, _. split; [vm_compute; reflexivity|]. split; [left|]. right. left. reflexivity.
  - vm_compute. reflexivity.
  - vm_compute. discriminate.
Defined.

(** All slices are confirmed. *)
Definition confirmed : US :=
  match run keys sends no_tmp local (begin 2 ++ [(3 * second, EvConfirmed "file" "slice1"); (4 * second, EvConfirmed "file" "slice2")]) US0 with Ok s => s | _ => US0 end.

Lemma finished_uploads_end_witness :
  ∃ s', uploadTaskHelper keys sends no_tmp (90 * second) "file" confirmed = Ok s' ∧ UploadFileTaskMap s' = delete "file" (UploadFileTaskMap confirmed)
        ∧ jobs s' = delete 0%nat (jobs confirmed) ∧ out s' = out confirmed.
Proof.
  apply (finished_uploads_end keys sends no_tmp keys_cover (90 * second) "file" 0%nat 0%nat (first_task confirmed) confirmed);
    [vm_compute; reflexivity..|vm_compute; discriminate|vm_compute; reflexivity].
Defined.

(** A time-out after a failure to send: the report says that nothing failed. *)
Definition fails (now : Z) (tk : UploadSliceTask) : option string := Some "connection refused".
Definition failed_task : FileTask := match run keys fails no_tmp local (begin 1) US0 with Ok s => first_task s | _ => first_task US0 end.

Lemma retries_report_no_failures_witness :
  ∃ err t' fh ti sp ex ls failed, handle_task keys fails no_tmp (70 * second) failed_task = Ok (err, t', [ReqUploadSlicesWrong fh ti sp ex ls failed])
    ∧ Status <$> visit ["pp1"] (destinations (ft_task failed_task)) = [SLICE_STATUS_FAILED]
    ∧ UPLOAD_WAIT_TIMEOUT < 70 * second - lastTouch failed_task ∧ ls ≠ [] ∧ length failed = length ls ∧ Forall (fun b => b = false) failed.
Proof.
  eexists _, _, _, _, _, _, _, _. split; [vm_compute; reflexivity|]. split; [vm_compute; reflexivity|].
  eapply (retries_report_no_failures keys fails no_tmp keys_cover (70 * second) failed_task); [vm_compute; discriminate|vm_compute; reflexivity].
Defined.

(** The paused upload's job ticks on. *)
Lemma paused_uploads_tick_for_ever_witness : ∃ s',
  run keys sends no_tmp local ((3 * second, EvPause "file") :: ticks_of 0 six_minutes) (started_upload 2) = Ok s' ∧ is_Some (jobs s' !! 0%nat).
Proof.
  eexists. split; [vm_compute; reflexivity|].
  eapply (paused_uploads_tick_for_ever keys sends no_tmp local (begin 2) (ticks_of 0 six_minutes) (started_upload 2) _ (3 * second) (EvPause "file") "file" 0%nat (first_task (started_upload 2)) 0%nat);
    [vm_compute; reflexivity..|eexists; vm_compute; reflexivity|left; reflexivity|vm_compute; reflexivity].
Defined.

Definition slices_sent (s : US) : nat := length (List.filter (fun m => match m with SentSlice _ => true | _ => false end) (out s)).

(** Fifty destinations of which none answers: the SP gives new ones, and they get nothing.  With
    forty-nine they do. *)
Example wide_uploads_do_not_retry :
  let again n := begin n ++ [(70 * second, EvTick 0); (71 * second, EvWrong true "" (answer "other" n)); (80 * second, EvTick 0)] in
  (fun s => (slices_sent s, state (ft_task (first_task s)))) <$> run keys sends no_tmp local (again 50%nat) US0 = Ok (50%nat, STATE_RUNNING)
  ∧ (fun s => (slices_sent s, state (ft_task (first_task s)))) <$> run keys sends no_tmp local (again 49%nat) US0 = Ok (98%nat, STATE_DONE).
Proof. vm_compute. split; reflexivity. Qed.
End UploadJobsDemo.
